(* ===== verification/_CoqProject ===== *)
-Q . S2P
Prelude.v
Mmu.v
Mem.v
Dll.v
Cstring.v
Grep.v
Buddy.v
BuddySpec.v
BuddyThm.v
Freelist.v
Kalloc.v
Pipe.v
Block.v
Bio.v
BufView.v
Log.v
LogSpec.v
LogTx.v
Vm.v
VmSpec.v
VmUser.v
VmThm.v
VmCopy.v
VmProps.v
BlockIO.v
LogIO.v
Fs.v
FsBlk.v
FsMap.v
FsRw.v
FsTrunc.v
FsInode.v
FsDir.v
FsImage.v
FsOp.v
FsThm.v
FsWrote.v
Spin.v
File.v
FileThm.v
Proc.v
ProcInv.v
ProcStep.v
ProcOps.v
ProcFork.v
ProcSched.v
ProcLife.v
ProcThm.v
Syscall.v
Exec.v
Sysfile.v
Trap.v
SyscallThm.v
FdInv.v
FdThm.v
TrapThm.v
Sh.v
ShThm.v
ShPrint.v
ShRun.v
Printf.v
Console.v
Umalloc.v
Mkfs.v
MkfsThm.v
MkfsImage.v
Vector.v
Queue.v
Mp.v
Ata.v
Boot.v
Ide.v
Kbd.v
Wc.v
Guard.v
Gate.v
Rtc.v
Uart.v
Apic.v
Start.v
