(* ===== verification/Prelude.v ===== *)
(** * A verification of the rexv6 kernel

    rexv6 is a Unix-like kernel for x86 multiprocessors in C and C++, with a boot
    loader, a tool that makes its file system image, a small C++ library and user
    programs.  This development translates the parts of it that compute into
    Rocq functions, one definition per C function, and proves what they promise to
    each other.  It is checked against the code under src/; a comment of the form
    [f] names a function of the C code or its model, which have the same name.

    ** How code is modelled

    A C function is a function of type [ST S A] (this file): it takes the state
    of its component and returns a result with the new state, or [Panic] (a call
    of panic, with its message), [Fault] (an access outside an object), [Blocked]
    (it sleeps or spins until another thread acts) or [Fuel].  Integers are [Z]
    with the wrap-around of their width written out ([u8], [u16], [u32], [s32]);
    pointers are addresses in a byte memory (Mem.v), indices into an array, or
    keys of a map, as the component needs.  Loops that do not recurse on a list
    or a count take fuel; every theorem on such a loop has the fuel it needs as a
    bound that the callers of the model use, and concludes that the code returns,
    so running out of fuel is excluded and not assumed away.

    One run of a function is one thread.  Where the code is concurrent, its
    critical sections are the steps of a transition system, and the theorems
    quantify over all interleavings: pipes (Pipe.v), processes and their scheduler
    (Proc*.v), open transactions of the log (LogTx.v), spin locks (Spin.v), disk
    requests and interrupts (Ide.v), guards of static objects (Guard.v).  The file
    system calls run one at a time.

    Hardware and generated code are parameters.  Their laws are classes with an
    instance that satisfies them: the disk controller (Ata.v), the serial port
    (Uart.v), the interrupt controllers (Apic.v), the clock (a record in Rtc.v);
    the table of trap entry points, the image of entryother.S and the addresses
    that the linker chooses are variables.

    ** The parts, bottom up

    Memory.
    - Mmu.v, Mem.v, Dll.v, Cstring.v: include/xv6/mmu.h and memlayout.h, byte
      memory, doubly linked lists in arrays, lib/libc/string.c and the string
      functions of lib/ulibc/ulib.c.
    - Buddy.v, BuddySpec.v, BuddyThm.v: kern/mm/buddy.c.  Allocation and freeing
      refine operations on a set of free blocks; initialisation establishes
      the invariant on any memory that 16-bit links can address.
    - Freelist.v, Kalloc.v: kern/mm/freelist.c and kalloc.c; the boot sequence, and
      the class [PageAlloc] that the rest of the kernel relies on.
    - Vm.v, VmSpec.v, VmUser.v, VmThm.v, VmCopy.v, VmProps.v: kern/mm/vm.c over any
      [PageAlloc]: page tables as maps, address spaces that share no page, running
      out of memory at any point.
    - Gate.v: descriptors and gates (mmu.h, tvinit, seginit, switchuvm): what user
      code can and cannot reach.

    Storage.
    - Block.v, Bio.v, BufView.v: blocks, fs/sfs/bio.c over drivers/ide/memide.c, and
      the view that clients have of the cache.
    - Ata.v, Ide.v: the controller and drivers/ide/ide.c, which refines a disk that
      serves its requests in order.
    - Log.v, LogSpec.v, LogTx.v, BlockIO.v, LogIO.v: fs/sfs/log.c.  A crash is a
      prefix of the sequence of writes; transactions are atomic under crashes, and
      [BlockIO] is what the file system may rely on.
    - Fs.v, FsBlk.v, FsMap.v, FsRw.v, FsTrunc.v, FsInode.v, FsDir.v, FsImage.v,
      FsOp.v, FsThm.v, FsWrote.v: fs/sfs/fs.c over any [BlockIO]: the block
      allocator, files as byte sequences, inodes, directories, paths.
    - File.v, FileThm.v, Pipe.v: fs/sfs/file.c and fs/pipe.c.
    - Mkfs.v, MkfsThm.v, MkfsImage.v: tools/mkfs; a kernel that boots from the image
      reads the files that were put into it (a composition of mkfs, log, cache,
      inodes, directories, paths and files).

    Processes.
    - Spin.v: kern/locking/spinlock.c and the state of the processors.
    - Proc.v, ProcInv.v, ProcStep.v, ProcOps.v, ProcFork.v, ProcSched.v, ProcLife.v,
      ProcThm.v: kern/sched/proc.cc, any number of processors.
    - Syscall.v, SyscallThm.v, Exec.v, Sysfile.v, FdInv.v, FdThm.v, Trap.v,
      TrapThm.v: kern/syscall, kern/sched/exec.c, kern/trap/trap.c and the tick
      counter of drivers/timer/timer.cc.
    - Guard.v: the guards of static objects in lib/libkcxxrt/cxxabi.cc.

    Boot and devices.
    - Boot.v: boot/bootmain.c.  Mp.v: drivers/cpu/mp.c.  Start.v: startothers of
      kern/init/main.c.  Apic.v: drivers/apic, drivers/pic and the set-up of the
      timer.  Rtc.v: cmostime.
    - Console.v, Printf.v: drivers/console/console.c and lib/ulibc/printf.c; the
      input ring is a line editor.  Kbd.v, Uart.v: what is typed or received
      reaches that editor.

    Libraries and programs.
    - Vector.v, Queue.v: include/klib; the vector is a list, and the priority queue
      sorts, for any container with the laws of [ContainerLaws].
    - Umalloc.v: lib/ulibc/umalloc.c.
    - Sh.v, ShThm.v, ShPrint.v, ShRun.v: bin/sh/sh.c.  Grep.v: bin/grep/grep.c.
      Wc.v: bin/wc/wc.c and bin/cat/cat.c.

    ** What the theorems show

    - Refinement: the buddy allocator is a set of blocks; the buffer cache is the
      disk with the blocks that are held; the IDE driver is a disk with a queue;
      the console is a line editor; the vector is a list; the shell connects the
      programs of a command line as its plan says.
    - Safety under crashes: a transaction of the log, and each piece of a write to a
      file, is there whole or not at all after a crash and recovery, also when
      recovery itself is interrupted.
    - Invariants over all interleavings: no process runs on two processors and
      each has its page table and kernel stack loaded, the scheduler does not
      panic, wait misses no exited child,
      pipes deliver all bytes in order and lose no wakeup, the space of the log is
      reserved, a static object is constructed once.
    - Protection: addresses in system calls stay in the memory of the process, the
      reference counts of open files are the numbers of descriptors, a killed
      process does not return to user code, address spaces share no page, and user
      code enters the kernel only at its gates.
    - Functional correctness, round trips and termination: the boot loader, mkfs and
      the reading of its image, file writes and reads, fork's copy of an address
      space, malloc and free, starting processors, reading the clock, typing, the
      shell's parser and printer, the matcher of grep, word counts.
    - Errors: what the code does when the disk reports one, when memory runs out, and
      on tables and formats that it does not expect.

    ** Bounds

    The fuel of a loop is the length of what it walks over (a list of blocks, the
    buffers of the cache, the arguments of a program), or the time after which
    hardware answers: [Ata.limit], [Apic.send_limit], 128 polls of the serial port,
    the calm moment of the clock.  Sizes are those of the source: 30 buffers and
    log blocks, 1000 blocks and 200 inodes in the image, 64 processes, 8
    processors, 16 descriptors, files of at most 140 blocks, memory up to PHYSTOP.

    ** Not modelled

    - Assembly: the boot sector's first stage, entry.S, swtch.S, trapasm.S and the
      system call stubs.  Proc.v and Trap.v take their effect as steps.
    - [main] and [mpmain] as whole functions: their parts have separate states; the
      memory, interrupt and first-process parts are composed in Kalloc.v, Apic.v and
      ProcLife.v.
    - Messages that are only printed, the call stacks recorded in spin locks, and
      the dump of processes.
    - The rest of the C++ run-time support: operators that forward to kmalloc and
      kmfree, and handlers that panic.
    - bin/usertests, forktest, stressfs and the programs that make one or two system
      calls (echo, init, kill, ln, ls, mkdir, rm, zombie): scripts of system calls
      that are modelled themselves.
    - Makefiles, scripts and the C# tool under tools/pheader. *)

From Stdlib Require Import ZArith Lia.
From stdpp Require Import base numbers strings list gmap.

Open Scope Z_scope.

(** ** Machine integers

    A C [uint] is a [Z] in [[0, 2^32)]; an [int] is a [Z] in
    [[-2^31, 2^31)].  Arithmetic is written out with its wrap-around. *)

Definition u8 (x : Z) : Z := x mod 2 ^ 8.
Definition u16 (x : Z) : Z := x mod 2 ^ 16.
Definition u32 (x : Z) : Z := x mod 2 ^ 32.

Definition s32 (x : Z) : Z :=
  if u32 x <? 2 ^ 31 then u32 x else u32 x - 2 ^ 32.

Definition s16 (x : Z) : Z :=
  if u16 x <? 2 ^ 15 then u16 x else u16 x - 2 ^ 16.

(** C's [~x] on a 32-bit operand. *)
Definition not32 (x : Z) : Z := u32 (Z.lnot x).

(** [1 << k] on 32 bits. *)
Definition bit32 (k : Z) : Z := u32 (Z.shiftl 1 k).

(** ** Outcomes of kernel code

    [Ok] is a normal return, [Panic] a call of [panic(msg)] (the machine
    halts), [Fault] an access outside the object being accessed (undefined
    behaviour of the C program), [Blocked] a [sleep] or spin that only another
    thread can end, [Fuel] the exhaustion of a loop bound of the model. *)

Inductive outcome (A : Type) : Type :=
| Ok (a : A)
| Panic (msg : string)
| Fault
| Blocked
| Fuel.

Arguments Ok {A} a.
Arguments Panic {A} msg.
Arguments Fault {A}.
Arguments Blocked {A}.
Arguments Fuel {A}.

(** Stateful code: explicit state passing with an outcome. *)
Definition ST (S A : Type) : Type := S -> outcome (A * S).

#[export] Instance ST_ret {S} : MRet (ST S) := fun A a s => Ok (a, s).

#[export] Instance ST_bind {S} : MBind (ST S) := fun A B k m s =>
  match m s with
  | Ok (a, s') => k a s'
  | Panic msg => Panic msg
  | Fault => Fault
  | Blocked => Blocked
  | Fuel => Fuel
  end.

Definition get {S} : ST S S := fun s => Ok (s, s).
Definition put {S} (s : S) : ST S unit := fun _ => Ok (tt, s).
Definition modify {S} (f : S -> S) : ST S unit := fun s => Ok (tt, f s).
Definition panic {S A} (msg : string) : ST S A := fun _ => Panic msg.
Definition fault {S A} : ST S A := fun _ => Fault.
Definition blocked {S A} : ST S A := fun _ => Blocked.
Definition out_of_fuel {S A} : ST S A := fun _ => Fuel.

(** Run code on a component [T] of the state [S]. *)
Definition zoom {S T A} (proj : S -> T) (inj : T -> S -> S) (m : ST T A) : ST S A :=
  fun s => match m (proj s) with
           | Ok (a, t) => Ok (a, inj t s)
           | Panic msg => Panic msg
           | Fault => Fault
           | Blocked => Blocked
           | Fuel => Fuel
           end.

(** ** Arrays indexed by C integers *)

Definition zlookup {A} (l : list A) (i : Z) : option A :=
  if 0 <=? i then l !! Z.to_nat i else None.

Definition zinsert {A} (i : Z) (x : A) (l : list A) : list A :=
  if 0 <=? i then <[Z.to_nat i := x]> l else l.

(** ** Total-correctness weakest preconditions

    [wp m Q s]: from [s] the code [m] returns normally (no panic, no
    out-of-range access, no blocking) and the result satisfies [Q]. *)

Definition wp {S A} (m : ST S A) (Q : A -> S -> Prop) (s : S) : Prop :=
  match m s with
  | Ok (a, s') => Q a s'
  | _ => False
  end.

Section WpLemmas.
Context {S : Type}.

Lemma wp_ret {A} (a : A) (Q : A -> S -> Prop) s : Q a s -> wp (mret a) Q s.
Proof. exact id. Qed.

Lemma wp_bind {A B} (m : ST S A) (k : A -> ST S B) Q s :
  wp m (fun a s' => wp (k a) Q s') s -> wp (m ≫= k) Q s.
Proof.
  unfold wp, mbind, ST_bind. destruct (m s) as [[a s']| | | |]; tauto.
Qed.

Lemma wp_mono {A} (m : ST S A) (Q Q' : A -> S -> Prop) s :
  wp m Q s -> (forall a s', Q a s' -> Q' a s') -> wp m Q' s.
Proof. unfold wp. destruct (m s) as [[a s']| | | |]; auto. Qed.

Lemma wp_get (Q : S -> S -> Prop) s : Q s s -> wp get Q s.
Proof. exact id. Qed.

Lemma wp_put s' (Q : unit -> S -> Prop) s : Q tt s' -> wp (put s') Q s.
Proof. exact id. Qed.

Lemma wp_modify f (Q : unit -> S -> Prop) s : Q tt (f s) -> wp (modify f) Q s.
Proof. exact id. Qed.

Lemma wp_Ok {A} (m : ST S A) (Q : A -> S -> Prop) s :
  wp m Q s <-> exists a s', m s = Ok (a, s') /\ Q a s'.
Proof.
  unfold wp. split.
  - destruct (m s) as [[a s']| | | |]; try tauto. eauto.
  - intros (a & s' & -> & H). exact H.
Qed.

Lemma wp_zoom {T A} (proj : S -> T) (inj : T -> S -> S) (m : ST T A) Q s :
  wp m (fun a t => Q a (inj t s)) (proj s) -> wp (zoom proj inj m) Q s.
Proof. unfold wp, zoom. destruct (m (proj s)) as [[a t]| | | |]; auto. Qed.

End WpLemmas.


(** Running a bind whose first part is known to return. *)
Lemma run_bind {S A B} (m : ST S A) (k : A -> ST S B) s a s' :
  m s = Ok (a, s') -> (m ≫= k) s = k a s'.
Proof. intros H. unfold mbind, ST_bind. by rewrite H. Qed.

Lemma bind_Ok {S A B} (m : ST S A) (k : A -> ST S B) s r :
  (m ≫= k) s = Ok r -> exists a s', m s = Ok (a, s') /\ k a s' = Ok r.
Proof. unfold mbind, ST_bind. destruct (m s) as [[a s']| | | |]; try done. eauto. Qed.

Lemma run_get {S B} (k : S -> ST S B) s : (get ≫= k) s = k s s.
Proof. done. Qed.

(** [run H] executes the first part of a sequence using [H]. *)
Ltac run H := erewrite run_bind by (eapply H; eauto).

Lemma and_iff_l (P Q R : Prop) : (P -> (Q <-> R)) -> (P /\ Q <-> P /\ R).
Proof. tauto. Qed.

(** ** Bit lemmas shared by the components *)

Lemma u32_small x : 0 <= x < 2 ^ 32 -> u32 x = x.
Proof. apply Z.mod_small. Qed.

Lemma u32_range x : 0 <= u32 x < 2 ^ 32.
Proof. apply Z.mod_pos_bound. lia. Qed.

Lemma s32_small x : 0 <= x < 2 ^ 31 -> s32 x = x.
Proof. intros H. unfold s32. rewrite u32_small by lia. by rewrite (proj2 (Z.ltb_lt x (2 ^ 31))) by lia. Qed.

Lemma bit32_pow k : 0 <= k < 32 -> bit32 k = 2 ^ k.
Proof.
  intros H. unfold bit32. rewrite Z.shiftl_1_l. apply u32_small.
  split; [apply Z.pow_nonneg; lia|]. apply Z.pow_lt_mono_r; lia.
Qed.

Lemma testbit_bit32 k j : 0 <= k < 32 -> Z.testbit (bit32 k) j = (j =? k).
Proof.
  intros H. rewrite bit32_pow by done. rewrite Z.eqb_sym. apply Z.pow2_bits_eqb. lia.
Qed.

Lemma land_ones_mod x k : 0 <= k -> Z.land x (Z.ones k) = x mod 2 ^ k.
Proof. apply Z.land_ones. Qed.

Lemma land_31 x : Z.land x 31 = x mod 32.
Proof. exact (Z.land_ones x 5 ltac:(lia)). Qed.

Lemma land_65535 x : Z.land x 65535 = x mod 65536.
Proof. exact (Z.land_ones x 16 ltac:(lia)). Qed.

Lemma shiftr_5 x : Z.shiftr x 5 = x / 32.
Proof. exact (Z.shiftr_div_pow2 x 5 ltac:(lia)). Qed.

(** Testing bit [k] with a mask. *)
Lemma land_bit32 x k : 0 <= k < 32 -> (Z.land x (bit32 k) =? 0) = negb (Z.testbit x k).
Proof.
  intros H. rewrite bit32_pow by done.
  destruct (Z.testbit x k) eqn:E; simpl.
  - apply Z.eqb_neq. intros H0. apply (f_equal (fun z => Z.testbit z k)) in H0.
    rewrite Z.land_spec, Z.pow2_bits_true, E, Z.bits_0 in H0 by lia. done.
  - apply Z.eqb_eq. apply Z.bits_inj'. intros j Hj.
    rewrite Z.land_spec, Z.pow2_bits_eqb, Z.bits_0 by lia.
    destruct (k =? j) eqn:Ej; [|apply andb_false_r].
    apply Z.eqb_eq in Ej. subst j. rewrite E. done.
Qed.

Lemma testbit_not32 x j : 0 <= j < 32 -> Z.testbit (not32 x) j = negb (Z.testbit x j).
Proof.
  intros H. unfold not32, u32. rewrite Z.mod_pow2_bits_low by lia. apply Z.lnot_spec. lia.
Qed.

Lemma testbit_set x k j :
  0 <= k < 32 -> Z.testbit (Z.lor x (bit32 k)) j = Z.testbit x j || (j =? k).
Proof. intros H. by rewrite Z.lor_spec, testbit_bit32. Qed.

Lemma testbit_clear x k j :
  0 <= k < 32 -> 0 <= j < 32 ->
  Z.testbit (Z.land x (not32 (bit32 k))) j = Z.testbit x j && negb (j =? k).
Proof. intros H Hj. by rewrite Z.land_spec, testbit_not32, testbit_bit32. Qed.

Lemma testbit_high x j : 0 <= x < 2 ^ 32 -> 32 <= j -> Z.testbit x j = false.
Proof.
  intros H Hj. rewrite <- (Z.mod_small x (2 ^ 32)) by done. apply Z.mod_pow2_bits_high. lia.
Qed.

(** A number whose bits from 32 on are clear fits 32 bits. *)
Lemma bits_u32_range x :
  0 <= x -> (forall j, 32 <= j -> Z.testbit x j = false) -> 0 <= x < 2 ^ 32.
Proof.
  intros H0 Hb. replace x with (x mod 2 ^ 32); [apply Z.mod_pos_bound; lia|].
  apply Z.bits_inj'. intros j Hj. destruct (decide (j < 32)).
  - apply Z.mod_pow2_bits_low. lia.
  - rewrite Z.mod_pow2_bits_high by lia. symmetry. apply Hb. lia.
Qed.

Lemma lor_u32_range x y : 0 <= x < 2 ^ 32 -> 0 <= y < 2 ^ 32 -> 0 <= Z.lor x y < 2 ^ 32.
Proof.
  intros Hx Hy. apply bits_u32_range.
  - apply Z.lor_nonneg. lia.
  - intros j Hj. by rewrite Z.lor_spec, !testbit_high.
Qed.

Lemma land_u32_range x y : 0 <= x < 2 ^ 32 -> 0 <= Z.land x y < 2 ^ 32.
Proof.
  intros Hx. apply bits_u32_range.
  - apply Z.land_nonneg. lia.
  - intros j Hj. by rewrite Z.land_spec, testbit_high.
Qed.

Lemma bits_zero x :
  0 <= x < 2 ^ 32 -> (forall j, 0 <= j < 32 -> Z.testbit x j = false) -> x = 0.
Proof.
  intros Hx Hb. apply Z.bits_inj'. intros j Hj. rewrite Z.bits_0.
  destruct (decide (j < 32)); [apply Hb; lia|apply testbit_high; lia].
Qed.

(** Packing two fields: the low one fits [k] bits. *)
Lemma lor_shiftl_add p q k :
  0 <= k -> 0 <= q < 2 ^ k -> Z.lor (Z.shiftl p k) q = p * 2 ^ k + q.
Proof.
  intros Hk Hq. rewrite <- (Z.shiftl_mul_pow2 p k) by done.
  pose proof (Z.add_lor_land (Z.shiftl p k) q) as H.
  assert (Hz : Z.land (Z.shiftl p k) q = 0); [|lia].
  apply Z.bits_inj'. intros j Hj. rewrite Z.land_spec, Z.bits_0.
  destruct (decide (j < k)).
  - by rewrite Z.shiftl_spec_low by lia.
  - rewrite <- (Z.mod_small q (2 ^ k)) by done.
    rewrite (Z.mod_pow2_bits_high q) by lia. apply andb_false_r.
Qed.

(** ** Arrays *)

Lemma zlookup_lt {A} (l : list A) i x :
  zlookup l i = Some x -> 0 <= i < Z.of_nat (length l).
Proof.
  unfold zlookup. destruct (Z.leb_spec 0 i); [|done]. intros H1%lookup_lt_Some. lia.
Qed.

Lemma zinsert_twice {A} i (x y : A) l : zinsert i y (zinsert i x l) = zinsert i y l.
Proof. unfold zinsert. destruct (0 <=? i); [apply list_insert_insert_eq|done]. Qed.

Lemma zinsert_id {A} (l : list A) ip x : zlookup l ip = Some x -> zinsert ip x l = l.
Proof.
  unfold zlookup, zinsert. destruct (0 <=? ip); [|done]. intros H. by apply list_insert_id.
Qed.

Lemma zlookup_is_Some {A} (l : list A) i :
  0 <= i < Z.of_nat (length l) -> exists x, zlookup l i = Some x.
Proof.
  intros H. unfold zlookup. rewrite (proj2 (Z.leb_le 0 i)) by lia.
  apply lookup_lt_is_Some_2. lia.
Qed.

Lemma zlookup_zinsert_eq {A} (l : list A) i x :
  0 <= i < Z.of_nat (length l) -> zlookup (zinsert i x l) i = Some x.
Proof.
  intros H. unfold zlookup, zinsert. rewrite (proj2 (Z.leb_le 0 i)) by lia.
  apply list_lookup_insert_eq. lia.
Qed.

Lemma zlookup_zinsert_ne {A} (l : list A) i j x :
  i <> j -> zlookup (zinsert i x l) j = zlookup l j.
Proof.
  intros H. unfold zlookup, zinsert.
  destruct (Z.leb_spec 0 i), (Z.leb_spec 0 j); try done.
  apply list_lookup_insert_ne. lia.
Qed.

Lemma length_zinsert {A} (l : list A) i x : length (zinsert i x l) = length l.
Proof. unfold zinsert. destruct (0 <=? i); [apply length_insert|done]. Qed.

Lemma zlookup_map {B C} (f : B -> C) l i : zlookup (map f l) i = f <$> zlookup l i.
Proof. unfold zlookup. destruct (0 <=? i); [apply list_lookup_fmap|done]. Qed.

Lemma zinsert_comm {B} (l : list B) i j x y : i <> j -> zinsert i x (zinsert j y l) = zinsert j y (zinsert i x l).
Proof.
  intros Hij. unfold zinsert. destruct (Z.leb_spec 0 i), (Z.leb_spec 0 j); try done. apply list_insert_insert_ne. lia.
Qed.

Lemma map_insert {B C} (f : B -> C) (l : list B) i x : map f (zinsert i x l) = zinsert i (f x) (map f l).
Proof. unfold zinsert. destruct (0 <=? i); [apply list_fmap_insert|done]. Qed.

(** ** Notations and automation *)

Declare Scope kern_scope.
Delimit Scope kern_scope with kern.

(** C's [a[i]] as a value and as an assignment. *)
Notation "l .[ i ]" := (zlookup l i) (at level 1, i at level 200, left associativity, format "l .[ i ]") : kern_scope.
Notation "l .[ i <- x ]" := (zinsert i x l) (at level 1, i at level 200, x at level 200, left associativity, format "l .[ i  <-  x ]") : kern_scope.

Create HintDb kern.
Create Rewrite HintDb kern.
#[export] Hint Resolve u32_range lor_u32_range land_u32_range zlookup_zinsert_eq : kern.
#[export] Hint Rewrite @length_zinsert @zinsert_twice : kern.

(** [step H] runs the first part of a bind by its equation [H]; [unbind H]
    splits a run of a bind that has returned. *)
Ltac step H := rewrite (run_bind _ _ _ _ _ H).
Tactic Notation "unbind" hyp(H) "as" simple_intropattern(a) simple_intropattern(s) simple_intropattern(R) :=
  apply bind_Ok in H as (a & s & R & H).
