(* ===== verification/Mmu.v ===== *)
(** * Memory layout (include/xv6/memlayout.h, include/xv6/mmu.h)

    The address-space constants and the macros on addresses and page-table
    entries, on 32-bit words. *)

From Stdlib Require Import ZArith Lia.
From stdpp Require Import base numbers list.
From S2P Require Import Prelude.

Open Scope Z_scope.

Module Mmu.

Definition EXTMEM : Z := 0x100000.
Definition PHYSTOP : Z := 0xE000000.
Definition DEVSPACE : Z := 0xFE000000.
Definition KERNBASE : Z := 0x80000000.
Definition KERNLINK : Z := KERNBASE + EXTMEM.

Definition V2P (a : Z) : Z := u32 (u32 a - KERNBASE).
Definition P2V (a : Z) : Z := u32 (a + KERNBASE).

Definition PGSIZE : Z := 4096.
Definition NPDENTRIES : Z := 1024.
Definition PTXSHIFT : Z := 12.
Definition PDXSHIFT : Z := 22.

Definition PDX (va : Z) : Z := Z.land (Z.shiftr (u32 va) PDXSHIFT) 1023.
Definition PTX (va : Z) : Z := Z.land (Z.shiftr (u32 va) PTXSHIFT) 1023.

Definition PGADDR (d t o : Z) : Z :=
  u32 (Z.lor (Z.lor (Z.shiftl d PDXSHIFT) (Z.shiftl t PTXSHIFT)) o).

Definition PGROUNDUP (sz : Z) : Z := Z.land (u32 (sz + PGSIZE - 1)) (not32 (PGSIZE - 1)).
Definition PGROUNDDOWN (a : Z) : Z := Z.land a (not32 (PGSIZE - 1)).

Definition PTE_P : Z := 1.
Definition PTE_W : Z := 2.
Definition PTE_U : Z := 4.

Definition PTE_ADDR (pte : Z) : Z := Z.land pte (not32 4095).
Definition PTE_FLAGS (pte : Z) : Z := Z.land pte 4095.

Lemma land_not_4095 x : 0 <= x < 2 ^ 32 -> Z.land x (not32 4095) = 4096 * (x / 4096).
Proof.
  intros Hx. change (not32 4095) with (Z.shiftl (Z.ones 20) 12).
  replace (4096 * (x / 4096)) with (Z.shiftl (Z.shiftr x 12) 12)
    by (rewrite Z.shiftl_mul_pow2, Z.shiftr_div_pow2 by lia; change (2 ^ 12) with 4096; lia).
  apply Z.bits_inj'. intros j Hj. rewrite Z.land_spec, !Z.shiftl_spec by lia.
  destruct (decide (j < 12)) as [Hlt|Hge].
  - rewrite !(Z.testbit_neg_r _ (j - 12)) by lia. apply andb_false_r.
  - rewrite Z.shiftr_spec by lia. replace (j - 12 + 12) with j by lia.
    destruct (decide (j < 32)).
    + rewrite Z.ones_spec_low by lia. apply andb_true_r.
    + by rewrite testbit_high by lia.
Qed.

Lemma PGROUNDDOWN_spec a : 0 <= a < 2 ^ 32 -> PGROUNDDOWN a = 4096 * (a / 4096).
Proof. apply land_not_4095. Qed.

Lemma PGROUNDUP_spec a :
  0 <= a <= 2 ^ 32 - PGSIZE -> PGROUNDUP a = 4096 * ((a + 4095) / 4096).
Proof.
  intros Ha. unfold PGROUNDUP. unfold PGSIZE in *. rewrite u32_small by lia.
  replace (a + 4096 - 1) with (a + 4095) by lia. apply land_not_4095. lia.
Qed.

Lemma PTE_ADDR_spec a : 0 <= a < 2 ^ 32 -> PTE_ADDR a = 4096 * (a / 4096).
Proof. apply land_not_4095. Qed.

Lemma PTE_FLAGS_spec a : PTE_FLAGS a = a mod 4096.
Proof. apply (land_ones_mod a 12). lia. Qed.

Lemma PDX_spec a : 0 <= a < 2 ^ 32 -> PDX a = a / 4194304.
Proof.
  intros Ha. unfold PDX, PDXSHIFT. rewrite u32_small, Z.shiftr_div_pow2 by lia.
  change (2 ^ 22) with 4194304.
  change 1023 with (Z.ones 10). rewrite Z.land_ones by lia. apply Z.mod_small.
  change (2 ^ 10) with 1024. Z.to_euclidean_division_equations; lia.
Qed.

Lemma PTX_spec a : 0 <= a < 2 ^ 32 -> PTX a = (a / 4096) mod 1024.
Proof.
  intros Ha. unfold PTX, PTXSHIFT. rewrite u32_small, Z.shiftr_div_pow2 by lia.
  change 1023 with (Z.ones 10). by rewrite Z.land_ones by lia.
Qed.

Lemma V2P_spec a : KERNBASE <= a < 2 ^ 32 -> V2P a = a - KERNBASE.
Proof. intros H. unfold V2P, KERNBASE in *. rewrite (u32_small a), u32_small by lia. done. Qed.

Lemma P2V_spec a : 0 <= a < 2 ^ 32 - KERNBASE -> P2V a = a + KERNBASE.
Proof. intros H. unfold P2V, KERNBASE in *. apply u32_small. lia. Qed.

End Mmu.
