(* ===== verification/Mem.v ===== *)
(** * Byte-addressed memory

    The memory that the C code reads and writes through pointers: a total map
    from addresses to bytes, with the little-endian 32-bit accesses of the x86
    and C strings. *)

From Stdlib Require Import ZArith Lia.
From stdpp Require Import base numbers list sets.
From S2P Require Import Prelude.

Open Scope Z_scope.

Module Mem.

Definition mem : Type := Z -> Z.

Definition store8 (a v : Z) (m : mem) : mem := fun x => if x =? a then u8 v else m x.

Definition load32 (m : mem) (a : Z) : Z :=
  m a + 256 * m (a + 1) + 65536 * m (a + 2) + 16777216 * m (a + 3).

Definition store32 (a v : Z) (m : mem) : mem :=
  store8 (a + 3) (Z.shiftr v 24) (store8 (a + 2) (Z.shiftr v 16)
    (store8 (a + 1) (Z.shiftr v 8) (store8 a v m))).

(** The [n] bytes from address [a]. *)
Fixpoint bytes (m : mem) (a : Z) (n : nat) : list Z :=
  match n with O => [] | S n' => m a :: bytes m (a + 1) n' end.

(** The bytes [l], and no others, are different after writing [l] at [a]. *)
Fixpoint write (a : Z) (l : list Z) (m : mem) : mem :=
  match l with [] => m | b :: l' => write (a + 1) l' (store8 a b m) end.

(** A NUL-terminated string: the bytes [l], none of them 0, then a 0. *)
Definition cstr (m : mem) (a : Z) (l : list Z) : Prop :=
  bytes m a (length l) = l /\ m (a + Z.of_nat (length l)) = 0 /\ 0 ∉ l.

Definition byte_ok (m : mem) : Prop := forall a, 0 <= m a < 256.

Lemma store8_eq a v m : store8 a v m a = u8 v.
Proof. unfold store8. by rewrite Z.eqb_refl. Qed.

Lemma store8_ne a v m x : x <> a -> store8 a v m x = m x.
Proof. intros H. unfold store8. by rewrite (proj2 (Z.eqb_neq x a)). Qed.

Lemma u8_range v : 0 <= u8 v < 256.
Proof. apply Z.mod_pos_bound. lia. Qed.

Lemma u8_small v : 0 <= v < 256 -> u8 v = v.
Proof. apply Z.mod_small. Qed.

Lemma store8_byte_ok a v m : byte_ok m -> byte_ok (store8 a v m).
Proof. intros H x. unfold store8. destruct (x =? a); [apply u8_range|apply H]. Qed.

Lemma store32_byte_ok a v m : byte_ok m -> byte_ok (store32 a v m).
Proof. intros H. unfold store32. by repeat apply store8_byte_ok. Qed.

Lemma load32_store32_eq a v m : load32 (store32 a v m) a = u32 v.
Proof.
  unfold load32, store32, store8.
  repeat match goal with |- context [?x =? ?y] => destruct (Z.eqb_spec x y); try lia end.
  unfold u8, u32. rewrite !Z.shiftr_div_pow2 by lia.
  change (2 ^ 8) with 256. change (2 ^ 16) with 65536. change (2 ^ 24) with 16777216.
  Z.to_euclidean_division_equations; lia.
Qed.

Lemma store32_ne a v m x : ~ (a <= x < a + 4) -> store32 a v m x = m x.
Proof. intros H. unfold store32. by rewrite !store8_ne by lia. Qed.

Lemma load32_ext m m' a : (forall x, a <= x < a + 4 -> m x = m' x) -> load32 m a = load32 m' a.
Proof. intros H. unfold load32. by rewrite !H by lia. Qed.

Lemma load32_store32_ne a b v m :
  a + 4 <= b \/ b + 4 <= a -> load32 (store32 a v m) b = load32 m b.
Proof. intros H. apply load32_ext. intros x Hx. apply store32_ne. lia. Qed.

Lemma load32_range m a : byte_ok m -> 0 <= load32 m a < 2 ^ 32.
Proof.
  intros H. unfold load32. pose proof (H a). pose proof (H (a + 1)).
  pose proof (H (a + 2)). pose proof (H (a + 3)). lia.
Qed.

Lemma length_bytes m n : forall a, length (bytes m a n) = n.
Proof. induction n as [|n IH]; intros a; simpl; [done|by rewrite IH]. Qed.

Lemma lookup_bytes m n : forall a i, (i < n)%nat -> bytes m a n !! i = Some (m (a + Z.of_nat i)).
Proof.
  induction n as [|n IH]; intros a i Hi; [lia|]. destruct i as [|i]; simpl.
  - by rewrite Z.add_0_r.
  - rewrite IH by lia. do 2 f_equal. lia.
Qed.

Lemma bytes_ext m m' n : forall a,
  (forall x, a <= x < a + Z.of_nat n -> m x = m' x) -> bytes m a n = bytes m' a n.
Proof.
  induction n as [|n IH]; intros a H; simpl; [done|]. f_equal; [apply H; lia|].
  apply IH. intros x Hx. apply H. lia.
Qed.

Lemma bytes_app m k n : forall a, bytes m a (k + n) = bytes m a k ++ bytes m (a + Z.of_nat k) n.
Proof.
  induction k as [|k IH]; intros a; simpl; [by rewrite Z.add_0_r|].
  rewrite IH. do 3 f_equal. lia.
Qed.

Lemma write_outside l : forall a m x,
  ~ (a <= x < a + Z.of_nat (length l)) -> write a l m x = m x.
Proof.
  induction l as [|b l IH]; intros a m x H; simpl; [done|].
  simpl in H. rewrite IH by lia. apply store8_ne. lia.
Qed.

Lemma write_inside l : forall a m i b,
  l !! i = Some b -> write a l m (a + Z.of_nat i) = u8 b.
Proof.
  induction l as [|c l IH]; intros a m i b Hi; [done|]. destruct i as [|i]; simpl in *.
  - simplify_eq. rewrite Z.add_0_r, write_outside by lia. apply store8_eq.
  - replace (a + Z.of_nat (S i)) with (a + 1 + Z.of_nat i) by lia. by apply IH.
Qed.

Lemma cstr_nil m a : cstr m a [] <-> m a = 0.
Proof. unfold cstr. simpl. rewrite Z.add_0_r. set_solver. Qed.

Lemma cstr_cons m a b l : cstr m a (b :: l) <-> m a = b /\ b <> 0 /\ cstr m (a + 1) l.
Proof.
  unfold cstr. cbn [length bytes]. replace (a + Z.of_nat (S (length l))) with
    (a + 1 + Z.of_nat (length l)) by lia.
  rewrite not_elem_of_cons. split.
  - intros ([= H1 H2] & H3 & H4 & H5). rewrite H1. repeat split; auto; congruence.
  - intros (-> & H1 & H2 & H3 & H4). rewrite H2. auto.
Qed.

Lemma cstr_ext m m' a l :
  (forall x, a <= x <= a + Z.of_nat (length l) -> m' x = m x) -> cstr m a l -> cstr m' a l.
Proof.
  intros H (H1 & H2 & H3). split; [|split; [rewrite H; [done|lia]|done]].
  rewrite <- H1 at 2. apply bytes_ext. intros x Hx. apply H. lia.
Qed.

(** A C string is determined by the memory. *)
Lemma cstr_inj m l : forall a l', cstr m a l -> cstr m a l' -> l = l'.
Proof.
  induction l as [|b l IH]; intros a [|b' l']; rewrite ?cstr_nil, ?cstr_cons.
  - done.
  - intros H1 (H2 & H3 & _). congruence.
  - intros (H2 & H3 & _) H1. congruence.
  - intros (H1 & _ & H2) (H3 & _ & H4). f_equal; [congruence|]. by apply (IH (a + 1)).
Qed.

End Mem.
