(* ===== verification/Dll.v ===== *)
(** * Doubly linked lists kept in arrays

    The buddy allocator chains its marks, and the buffer cache its buffers,
    through a previous and a next index.  [chain lk p L e]: following the links
    [lk] one walks the nodes [L], the first node's previous link is [p] and the
    last node's next link is [e]. *)

From Stdlib Require Import ZArith Lia.
From stdpp Require Import base numbers list sets.
From S2P Require Import Prelude.

Open Scope Z_scope.

Module Dll.

(** The links of a node: previous and next, if the node exists. *)
Definition links : Type := Z -> option (Z * Z).

Fixpoint chain (lk : links) (p : Z) (L : list Z) (e : Z) : Prop :=
  match L with
  | [] => True
  | x :: L' => lk x = Some (p, hd e L') /\ chain lk x L' e
  end.

(** The last node of [L], [p] if there is none. *)
Fixpoint lastd (p : Z) (L : list Z) : Z :=
  match L with
  | [] => p
  | x :: L' => lastd x L'
  end.

Definition upd_next (y b : Z) (lk : links) : links :=
  fun x => if decide (x = y) then (fun pn => (fst pn, b)) <$> lk x else lk x.

Definition upd_prev (y a : Z) (lk : links) : links :=
  fun x => if decide (x = y) then (fun pn => (a, snd pn)) <$> lk x else lk x.

Lemma hd_app e (L1 L2 : list Z) : hd e (L1 ++ L2) = hd (hd e L2) L1.
Proof. by destruct L1. Qed.

Lemma lastd_app p L1 L2 : lastd p (L1 ++ L2) = lastd (lastd p L1) L2.
Proof. revert p. induction L1; simpl; auto. Qed.

Lemma lastd_in p L : L <> [] -> lastd p L ∈ L.
Proof.
  revert p. induction L as [|x L IH]; intros p H; [done|]. simpl.
  destruct L as [|y L]; [by left|]. right. by apply IH.
Qed.

Lemma chain_app lk p L1 L2 e :
  chain lk p (L1 ++ L2) e <-> chain lk p L1 (hd e L2) /\ chain lk (lastd p L1) L2 e.
Proof.
  revert p. induction L1 as [|x L1 IH]; intros p; simpl; [tauto|].
  rewrite IH, hd_app. tauto.
Qed.

Lemma chain_ext lk lk' p L e :
  (forall x, x ∈ L -> lk' x = lk x) -> chain lk p L e -> chain lk' p L e.
Proof.
  revert p. induction L as [|x L IH]; intros p Hext; simpl; [done|].
  intros [Hx Hc]. split.
  - rewrite Hext; [done|by left].
  - apply IH; [|done]. intros y Hy. apply Hext. by right.
Qed.

Lemma upd_next_ne y b lk x : x <> y -> upd_next y b lk x = lk x.
Proof. intros. unfold upd_next. by rewrite decide_False. Qed.

Lemma upd_prev_ne y b lk x : x <> y -> upd_prev y b lk x = lk x.
Proof. intros. unfold upd_prev. by rewrite decide_False. Qed.

Lemma upd_next_eq y b lk a c : lk y = Some (a, c) -> upd_next y b lk y = Some (a, b).
Proof. intros H. unfold upd_next. by rewrite decide_True, H. Qed.

Lemma upd_prev_eq y b lk a c : lk y = Some (a, c) -> upd_prev y b lk y = Some (b, c).
Proof. intros H. unfold upd_prev. by rewrite decide_True, H. Qed.

(** Redirecting the first node's previous link. *)
Lemma chain_upd_prev lk p q z L e :
  z ∉ L -> chain lk p (z :: L) e -> chain (upd_prev z q lk) q (z :: L) e.
Proof.
  intros Hz [Hl Hc]. split; [by eapply upd_prev_eq|].
  eapply chain_ext; [|exact Hc]. intros x Hx. apply upd_prev_ne. by intros ->.
Qed.

(** Redirecting the last node's next link. *)
Lemma chain_upd_next lk p e e' L :
  NoDup L -> L <> [] -> chain lk p L e -> chain (upd_next (lastd p L) e' lk) p L e'.
Proof.
  revert p. induction L as [|x L IH]; intros p Hnd Hne Hch; [done|]. destruct Hch as [Hl Hc].
  apply NoDup_cons in Hnd as [Hx Hnd]. simpl.
  destruct L as [|y L].
  - split; [by eapply upd_next_eq|done].
  - split; [|by apply IH]. rewrite upd_next_ne; [done|].
    intros Heq. apply Hx. rewrite Heq. by apply (lastd_in x (y :: L)).
Qed.

(** Unlinking the node [x] joins its neighbours: the node before it (if
    any) gets the next link of [x], the node after it the previous link. *)
Definition unlink_next (L1 : list Z) (n : Z) (lk : links) : links :=
  match L1 with [] => lk | y :: L => upd_next (lastd y L) n lk end.
Definition unlink_prev (L2 : list Z) (p : Z) (lk : links) : links :=
  match L2 with [] => lk | z :: _ => upd_prev z p lk end.

Lemma chain_at lk p L1 x L2 e :
  chain lk p (L1 ++ x :: L2) e ->
  chain lk p L1 x /\ lk x = Some (lastd p L1, hd e L2) /\ chain lk x L2 e.
Proof. rewrite chain_app. simpl. tauto. Qed.

Lemma chain_unlink lk p L1 x L2 e :
  NoDup (L1 ++ x :: L2) -> chain lk p (L1 ++ x :: L2) e ->
  chain (unlink_prev L2 (lastd p L1) (unlink_next L1 (hd e L2) lk)) p (L1 ++ L2) e.
Proof.
  intros Hnd Hc. apply chain_at in Hc as (H1 & _ & H2).
  apply NoDup_app in Hnd as (Hnd1 & Hdis & Hnd2). apply NoDup_cons in Hnd2 as [Hx Hnd2].
  assert (H1' : chain (unlink_next L1 (hd e L2) lk) p L1 (hd e L2)).
  { destruct L1 as [|y L1]; [done|]. by apply (chain_upd_next lk p x (hd e L2) (y :: L1)). }
  assert (H2' : chain (unlink_next L1 (hd e L2) lk) x L2 e).
  { destruct L1 as [|y L1]; [done|]. eapply chain_ext; [|exact H2].
    intros z Hz. apply upd_next_ne. intros ->.
    apply (Hdis (lastd y L1)); [by apply (lastd_in p (y :: L1))|by right]. }
  apply chain_app. destruct L2 as [|z L2]; [done|]. split; simpl unlink_prev.
  - eapply chain_ext; [|exact H1']. intros y Hy. apply upd_prev_ne. intros ->.
    apply (Hdis z); [done|]. right. by left.
  - apply (chain_upd_prev _ x); [|done]. by apply NoDup_cons in Hnd2 as [? _].
Qed.

(** ** Circular lists with a head node

    [ring lk H L]: starting at the head [H] the next links walk through [L] and
    back to [H], the previous links in the opposite direction. *)
Definition ring (lk : links) (H : Z) (L : list Z) : Prop := chain lk (lastd H L) (H :: L) H.

Lemma upd_comm a b c d lk x : upd_next a b (upd_prev c d lk) x = upd_prev c d (upd_next a b lk) x.
Proof.
  unfold upd_next, upd_prev. repeat case_decide; try done. by destruct (lk x).
Qed.

Lemma ring_head lk H L : ring lk H L -> lk H = Some (lastd H L, hd H L).
Proof. by intros [? _]. Qed.

Lemma ring_at lk H L1 x L2 :
  ring lk H (L1 ++ x :: L2) -> lk x = Some (lastd H L1, hd H L2).
Proof. intros [_ Hc]. by apply chain_at in Hc as (_ & ? & _). Qed.

Lemma ring_unlink lk H L1 x L2 :
  NoDup (H :: L1 ++ x :: L2) -> ring lk H (L1 ++ x :: L2) ->
  ring (upd_next (lastd H L1) (hd H L2) (upd_prev (hd H L2) (lastd H L1) lk)) H (L1 ++ L2).
Proof.
  intros [HH Hnd]%NoDup_cons Hr. pose proof (ring_head _ _ _ Hr) as Hh.
  destruct Hr as [_ Hc]. pose proof (chain_unlink _ _ _ _ _ _ Hnd Hc) as Hc'.
  rewrite lastd_app, hd_app in Hh. simpl in Hh.
  split.
  - rewrite upd_comm, lastd_app, hd_app. unfold upd_next, upd_prev.
    destruct L1 as [|y L1], L2 as [|z L2]; simpl in *.
    + rewrite !decide_True, Hh by done. done.
    + rewrite decide_False by set_solver. rewrite decide_True, Hh by done. done.
    + rewrite decide_True by done. rewrite decide_False, Hh; [done|].
      intros E. apply HH. rewrite E.
      assert (lastd y L1 ∈ y :: L1) by (by apply (lastd_in H (y :: L1))). set_solver.
    + rewrite decide_False by set_solver. rewrite decide_False, Hh; [done|].
      intros E. apply HH. rewrite E.
      assert (lastd y L1 ∈ y :: L1) by (by apply (lastd_in H (y :: L1))). set_solver.
  - eapply chain_ext; [|exact Hc']. intros v Hv. rewrite upd_comm.
    assert (v <> H) by set_solver.
    destruct L1 as [|y L1], L2 as [|z L2]; simpl; unfold unlink_next, unlink_prev;
      rewrite ?(upd_prev_ne H), ?(upd_next_ne H) by done; try done.
    unfold upd_prev. case_decide; by rewrite upd_next_ne.
Qed.

Lemma ring_push lk H x L :
  NoDup (H :: x :: L) -> ring lk H L ->
  ring (upd_next H x (upd_prev (hd H L) x
    (fun y => if decide (y = x) then Some (H, hd H L) else lk y))) H (x :: L).
Proof.
  intros [HH [Hx Hnd]%NoDup_cons]%NoDup_cons Hr. pose proof (ring_head _ _ _ Hr) as Hh.
  destruct Hr as [_ Hc]. split; [|split].
  - unfold upd_next, upd_prev. rewrite decide_True by done.
    destruct L as [|z L]; simpl in *.
    + rewrite decide_True by done. rewrite decide_False by set_solver. by rewrite Hh.
    + rewrite !decide_False by set_solver. rewrite Hh. done.
  - rewrite upd_next_ne, upd_prev_ne by (destruct L; set_solver). by rewrite decide_True.
  - eapply (chain_ext (upd_prev (hd H L) x lk)).
    + intros v Hv. rewrite upd_next_ne by set_solver. unfold upd_prev. case_decide.
      * by rewrite decide_False by set_solver.
      * by rewrite decide_False by set_solver.
    + destruct L as [|z L]; [done|]. apply (chain_upd_prev _ H); [|done].
      by apply NoDup_cons in Hnd as [? _].
Qed.

End Dll.
