(* ===== verification/Cstring.v ===== *)
(** * The string library (lib/libc/string.c, lib/ulibc/ulib.c)

    The kernel's memory and string routines over [Mem.mem], and the user
    library's versions where they differ.  Loops bounded by a count recurse on
    it; loops that run to a NUL take fuel and return [None] when it runs out. *)

From Stdlib Require Import ZArith Lia.
From stdpp Require Import base numbers list sets.
From S2P Require Import Prelude Mem.

Open Scope Z_scope.

Import Mem.

Module Cstring.

(** ** lib/libc/string.c *)

(** [rep stosb] and [rep stosl]. *)
Fixpoint stosb (addr data : Z) (cnt : nat) (m : mem) : mem :=
  match cnt with O => m | S n => stosb (addr + 1) data n (store8 addr data m) end.

Fixpoint stosl (addr data : Z) (cnt : nat) (m : mem) : mem :=
  match cnt with O => m | S n => stosl (addr + 4) data n (store32 addr data m) end.

Definition memset (dst c : Z) (n : nat) (m : mem) : mem :=
  if (dst mod 4 =? 0) && (Z.of_nat n mod 4 =? 0) then
    let c := Z.land c 255 in
    stosl dst (Z.lor (Z.lor (Z.lor (Z.shiftl c 24) (Z.shiftl c 16)) (Z.shiftl c 8)) c) (n / 4) m
  else stosb dst c n m.

Fixpoint memcmp (v1 v2 : Z) (n : nat) (m : mem) : Z :=
  match n with
  | O => 0
  | S n' => if negb (m v1 =? m v2) then m v1 - m v2 else memcmp (v1 + 1) (v2 + 1) n' m
  end.

(** [while(n-- > 0) *--d = *--s;] *)
Fixpoint copy_down (d s : Z) (n : nat) (m : mem) : mem :=
  match n with
  | O => m
  | S n' => copy_down (d - 1) (s - 1) n' (store8 (d - 1) (m (s - 1)) m)
  end.

(** [while(n-- > 0) *d++ = *s++;] *)
Fixpoint copy_up (d s : Z) (n : nat) (m : mem) : mem :=
  match n with
  | O => m
  | S n' => copy_up (d + 1) (s + 1) n' (store8 d (m s) m)
  end.

Definition memmove (dst src : Z) (n : nat) (m : mem) : mem :=
  if (src <? dst) && (dst <? src + Z.of_nat n)
  then copy_down (dst + Z.of_nat n) (src + Z.of_nat n) n m
  else copy_up dst src n m.

Definition memcpy (dst src : Z) (n : nat) (m : mem) : mem := memmove dst src n m.

Fixpoint strncmp (p q : Z) (n : nat) (m : mem) : Z :=
  match n with
  | O => 0
  | S n' =>
      if negb (m p =? 0) && (m p =? m q) then strncmp (p + 1) (q + 1) n' m
      else u8 (m p) - u8 (m q)
  end.

(** The second loop of [strncpy]. *)
Fixpoint pad (s : Z) (n : nat) (m : mem) : mem :=
  match n with O => m | S n' => pad (s + 1) n' (store8 s 0 m) end.

Fixpoint strncpy (s t : Z) (n : nat) (m : mem) : mem :=
  match n with
  | O => m
  | S n' =>
      let c := m t in
      let m' := store8 s c m in
      if negb (c =? 0) then strncpy (s + 1) (t + 1) n' m' else pad (s + 1) n' m'
  end.

(** [while(--n > 0 && ( *s++ = *t++) != 0); *s = 0;] with [n] the value after
    the decrement. *)
Fixpoint safestrcpy_loop (s t : Z) (n : nat) (m : mem) : mem :=
  match n with
  | O => store8 s 0 m
  | S n' =>
      let c := m t in
      let m' := store8 s c m in
      if negb (c =? 0) then safestrcpy_loop (s + 1) (t + 1) n' m' else store8 (s + 1) 0 m'
  end.

Definition safestrcpy (s t : Z) (n : Z) (m : mem) : mem :=
  if n <=? 0 then m else safestrcpy_loop s t (Z.to_nat (n - 1)) m.

Fixpoint strlen_from (fuel : nat) (s n : Z) (m : mem) : option Z :=
  match fuel with
  | O => None
  | S f => if negb (m (s + n) =? 0) then strlen_from f s (n + 1) m else Some n
  end.

Definition strlen (fuel : nat) (s : Z) (m : mem) : option Z := strlen_from fuel s 0 m.

Fixpoint strcmp (fuel : nat) (p1 p2 : Z) (m : mem) : option Z :=
  match fuel with
  | O => None
  | S f =>
      if negb (m p1 =? 0) && (m p1 =? m p2) then strcmp f (p1 + 1) (p2 + 1) m
      else Some (Z.b2z (m p2 <? m p1) - Z.b2z (m p1 <? m p2))
  end.

(** ** lib/ulibc/ulib.c *)

Fixpoint strcpy (fuel : nat) (s t : Z) (m : mem) : option mem :=
  match fuel with
  | O => None
  | S f =>
      let c := m t in
      let m' := store8 s c m in
      if negb (c =? 0) then strcpy f (s + 1) (t + 1) m' else Some m'
  end.

Fixpoint user_strcmp (fuel : nat) (p q : Z) (m : mem) : option Z :=
  match fuel with
  | O => None
  | S f =>
      if negb (m p =? 0) && (m p =? m q) then user_strcmp f (p + 1) (q + 1) m
      else Some (u8 (m p) - u8 (m q))
  end.

Fixpoint strchr (fuel : nat) (s c : Z) (m : mem) : option Z :=
  match fuel with
  | O => None
  | S f => if negb (m s =? 0) then (if m s =? c then Some s else strchr f (s + 1) c m) else Some 0
  end.

Definition user_memset (dst c : Z) (n : nat) (m : mem) : mem := stosb dst c n m.

(** The user library copies upwards whatever the overlap. *)
Definition user_memmove (vdst vsrc : Z) (n : nat) (m : mem) : mem := copy_up vdst vsrc n m.

(** [atoi] with the [int] arithmetic of the loop. *)
Fixpoint atoi_loop (fuel : nat) (n s : Z) (m : mem) : option Z :=
  match fuel with
  | O => None
  | S f =>
      if (48 <=? m s) && (m s <=? 57) then atoi_loop f (s32 (n * 10 + m s - 48)) (s + 1) m
      else Some n
  end.

Definition atoi (fuel : nat) (s : Z) (m : mem) : option Z := atoi_loop fuel 0 s m.

(** ** Copying *)

(** [n] bytes at [d] become the old bytes at [s], nothing else changes. *)
Definition moved (d s : Z) (n : nat) (m m' : mem) : Prop :=
  forall x, m' x = if decide (d <= x < d + Z.of_nat n) then m (s + (x - d)) else m x.

Lemma copy_up_spec n : forall d s m,
  byte_ok m -> d <= s \/ s + Z.of_nat n <= d -> moved d s n m (copy_up d s n m).
Proof.
  induction n as [|n IH]; intros d s m Hm Hov x; cbn [copy_up].
  { rewrite decide_False by lia. done. }
  rewrite (IH (d + 1) (s + 1)) by (lia || by apply store8_byte_ok).
  destruct (decide (x = d)) as [->|Hx].
  - rewrite decide_False, decide_True, store8_eq by lia. rewrite u8_small by apply Hm.
    f_equal. lia.
  - repeat case_decide; try lia; rewrite store8_ne by lia; [f_equal; lia|done].
Qed.

Lemma copy_down_spec n : forall d s m,
  byte_ok m -> s <= d ->
  moved (d - Z.of_nat n) (s - Z.of_nat n) n m (copy_down d s n m).
Proof.
  induction n as [|n IH]; intros d s m Hm Hov x; cbn [copy_down].
  { rewrite decide_False by lia. done. }
  rewrite (IH (d - 1) (s - 1)) by (lia || by apply store8_byte_ok).
  destruct (decide (x = d - 1)) as [->|Hx].
  - rewrite decide_False, decide_True, store8_eq by lia. rewrite u8_small by apply Hm.
    f_equal. lia.
  - repeat case_decide; try lia; rewrite store8_ne by lia; [f_equal; lia|done].
Qed.

Lemma memmove_spec d s n m : byte_ok m -> moved d s n m (memmove d s n m).
Proof.
  intros Hm. unfold memmove.
  destruct (Z.ltb_spec s d), (Z.ltb_spec d (s + Z.of_nat n)); cbn [andb];
    try (apply copy_up_spec; [done|lia]).
  pose proof (copy_down_spec n (d + Z.of_nat n) (s + Z.of_nat n) m Hm ltac:(lia)) as H'.
  by rewrite !Z.add_simpl_r in H'.
Qed.

Lemma moved_bytes d s n m m' : moved d s n m m' -> bytes m' d n = bytes m s n.
Proof.
  intros H. apply list_eq_same_length with n; [by rewrite length_bytes|by rewrite length_bytes|].
  intros i x y Hi. rewrite !lookup_bytes by done. intros [= <-] [= <-].
  rewrite H, decide_True by lia. f_equal. lia.
Qed.

(** ** Filling *)

Lemma stosb_spec c n : forall a m x,
  stosb a c n m x = if decide (a <= x < a + Z.of_nat n) then u8 c else m x.
Proof.
  induction n as [|n IH]; intros a m x; cbn [stosb].
  { rewrite decide_False by lia. done. }
  rewrite IH. destruct (decide (x = a)) as [->|Hx].
  - rewrite decide_False, decide_True by lia. apply store8_eq.
  - rewrite store8_ne by done. repeat case_decide; done || lia.
Qed.

Lemma four_bytes c : 0 <= c < 256 ->
  Z.lor (Z.lor (Z.lor (Z.shiftl c 24) (Z.shiftl c 16)) (Z.shiftl c 8)) c = c * 16843009.
Proof.
  intros Hc. rewrite !Z.shiftl_mul_pow2 by lia.
  rewrite <- !Z.lor_assoc.
  rewrite <- (Z.shiftl_mul_pow2 c 8), (lor_shiftl_add c c 8) by lia.
  rewrite <- (Z.shiftl_mul_pow2 c 16), (lor_shiftl_add c _ 16) by lia.
  rewrite <- (Z.shiftl_mul_pow2 c 24), (lor_shiftl_add c _ 24) by lia. lia.
Qed.

Lemma store32_fill a c m x : 0 <= c < 256 ->
  store32 a (c * 16843009) m x = if decide (a <= x < a + 4) then c else m x.
Proof.
  intros Hc. case_decide as Hx; [|by apply store32_ne].
  unfold store32, store8, u8.
  rewrite !Z.shiftr_div_pow2 by lia.
  destruct (Z.eqb_spec x (a + 3)); [Z.to_euclidean_division_equations; lia|].
  destruct (Z.eqb_spec x (a + 2)); [Z.to_euclidean_division_equations; lia|].
  destruct (Z.eqb_spec x (a + 1)); [Z.to_euclidean_division_equations; lia|].
  destruct (Z.eqb_spec x a); [Z.to_euclidean_division_equations; lia|lia].
Qed.

Lemma stosl_spec c n : 0 <= c < 256 -> forall a m x,
  stosl a (c * 16843009) n m x = if decide (a <= x < a + 4 * Z.of_nat n) then c else m x.
Proof.
  intros Hc. induction n as [|n IH]; intros a m x; cbn [stosl].
  { rewrite decide_False by lia. done. }
  rewrite IH, store32_fill by done. repeat case_decide; done || lia.
Qed.

Lemma memset_spec d c n m x :
  memset d c n m x = if decide (d <= x < d + Z.of_nat n) then u8 c else m x.
Proof.
  unfold memset. destruct ((d mod 4 =? 0) && (Z.of_nat n mod 4 =? 0)) eqn:E; [|apply stosb_spec].
  apply andb_true_iff in E as [_ E%Z.eqb_eq].
  assert (Hc : Z.land c 255 = u8 c) by apply (land_ones_mod c 8 ltac:(lia)).
  rewrite Hc. cbv zeta. pose proof (u8_range c).
  rewrite four_bytes, stosl_spec by done.
  assert (H4 : 4 * Z.of_nat (n / 4) = Z.of_nat n).
  { rewrite Nat2Z.inj_div. change (Z.of_nat 4) with 4. Z.to_euclidean_division_equations; lia. }
  by rewrite H4.
Qed.

(** ** Strings *)

(** [n] bytes from [s] and the string [l] at [t] do not overlap. *)
Definition apart (s : Z) (n : nat) (t : Z) (l : list Z) : Prop :=
  s + Z.of_nat n <= t \/ t + Z.of_nat (length l) < s.

Lemma memset_byte_ok d c n m : byte_ok m -> byte_ok (memset d c n m).
Proof. intros H x. rewrite memset_spec. case_decide; [apply u8_range|apply H]. Qed.

Lemma memmove_byte_ok d s n m : byte_ok m -> byte_ok (memmove d s n m).
Proof. intros H x. rewrite (memmove_spec d s n m H x). case_decide; apply H. Qed.

Lemma pad_spec n : forall s m x,
  pad s n m x = if decide (s <= x < s + Z.of_nat n) then 0 else m x.
Proof.
  induction n as [|n IH]; intros s m x; cbn [pad].
  { rewrite decide_False by lia. done. }
  rewrite IH. destruct (decide (x = s)) as [->|Hx].
  - rewrite decide_False, decide_True, store8_eq by lia. done.
  - rewrite store8_ne by done. repeat case_decide; done || lia.
Qed.

Lemma cstr_store_apart s v n t l m :
  apart s (S n) t l -> cstr m t l -> cstr (store8 s v m) t l.
Proof. intros Ha. apply cstr_ext. intros x Hx. apply store8_ne. destruct Ha; lia. Qed.

Lemma apart_step s n t c l : apart s (S n) t (c :: l) -> apart (s + 1) n (t + 1) l.
Proof. unfold apart. simpl. lia. Qed.

Lemma strncpy_spec n : forall s t m l,
  byte_ok m -> cstr m t l -> apart s n t l -> forall x,
  strncpy s t n m x = if decide (s <= x < s + Z.of_nat n) then nth (Z.to_nat (x - s)) l 0 else m x.
Proof.
  induction n as [|n IH]; intros s t m l Hm Hl Ha x; cbn [strncpy].
  { rewrite decide_False by lia. done. }
  cbv zeta. destruct l as [|c l].
  - apply cstr_nil in Hl. rewrite Hl. cbn [negb Z.eqb]. rewrite pad_spec.
    replace (nth (Z.to_nat (x - s)) [] 0) with 0 by (by destruct (Z.to_nat (x - s))).
    destruct (decide (x = s)) as [->|Hx].
    + rewrite decide_False, decide_True, store8_eq by lia. done.
    + rewrite store8_ne by done. repeat case_decide; done || lia.
  - assert (Hl2 := cstr_store_apart s (m t) n t _ m Ha Hl). pose proof (Hm t) as Hb.
    apply cstr_cons in Hl as (Hc & Hnz & _). apply cstr_cons in Hl2 as (_ & _ & Hl2).
    rewrite (proj2 (Z.eqb_neq (m t) 0)) by congruence. cbn [negb].
    rewrite (IH (s + 1) (t + 1) _ l) by eauto using store8_byte_ok, apart_step.
    destruct (decide (x = s)) as [->|Hx].
    + rewrite decide_False, decide_True, store8_eq, u8_small by lia.
      by rewrite Z.sub_diag.
    + rewrite store8_ne by done. repeat case_decide; try lia.
      replace (Z.to_nat (x - s)) with (S (Z.to_nat (x - (s + 1)))) by lia. done.
Qed.

Lemma safestrcpy_loop_outside n : forall s t m x,
  ~ (s <= x < s + Z.of_nat n + 1) -> safestrcpy_loop s t n m x = m x.
Proof.
  induction n as [|n IH]; intros s t m x Hx; cbn [safestrcpy_loop]; cbv zeta.
  - apply store8_ne. lia.
  - destruct (negb (m t =? 0)); [rewrite IH by lia|rewrite store8_ne by lia];
      apply store8_ne; lia.
Qed.

Lemma safestrcpy_loop_cstr n : forall s t m l,
  byte_ok m -> cstr m t l -> apart s (S n) t l -> cstr (safestrcpy_loop s t n m) s (take n l).
Proof.
  induction n as [|n IH]; intros s t m l Hm Hl Ha; cbn [safestrcpy_loop]; cbv zeta.
  { rewrite take_0, cstr_nil. apply store8_eq. }
  destruct l as [|c l].
  - apply cstr_nil in Hl. rewrite Hl. cbn [negb Z.eqb]. rewrite take_nil, cstr_nil.
    rewrite store8_ne by lia. apply store8_eq.
  - assert (Hl2 := cstr_store_apart s (m t) (S n) t _ m Ha Hl). pose proof (Hm t) as Hb.
    apply cstr_cons in Hl as (Hc & Hnz & _). apply cstr_cons in Hl2 as (_ & _ & Hl2).
    rewrite (proj2 (Z.eqb_neq (m t) 0)) by congruence. cbn [negb firstn]. apply cstr_cons.
    split; [|split; [done|]].
    + rewrite safestrcpy_loop_outside, store8_eq, u8_small by lia. done.
    + apply IH; eauto using store8_byte_ok, apart_step.
Qed.

Lemma strlen_from_spec s m l : forall k fuel,
  cstr m (s + Z.of_nat k) l -> (length l < fuel)%nat ->
  strlen_from fuel s (Z.of_nat k) m = Some (Z.of_nat (k + length l)).
Proof.
  induction l as [|c l IH]; intros k [|fuel] Hl Hf; try (simpl in Hf; lia); cbn [strlen_from].
  - apply cstr_nil in Hl. rewrite Hl. cbn. do 2 f_equal. lia.
  - apply cstr_cons in Hl as (Hc & Hnz & Hl). rewrite (proj2 (Z.eqb_neq _ 0)) by congruence.
    cbn [negb]. replace (Z.of_nat k + 1) with (Z.of_nat (S k)) by lia. rewrite IH.
    + do 2 f_equal. simpl. lia.
    + by replace (s + Z.of_nat (S k)) with (s + Z.of_nat k + 1) by lia.
    + simpl in Hf. lia.
Qed.

Lemma strlen_spec s m l fuel : cstr m s l -> (length l < fuel)%nat ->
  strlen fuel s m = Some (Z.of_nat (length l)).
Proof. intros Hl Hf. apply (strlen_from_spec s m l 0); [by rewrite Z.add_0_r|done]. Qed.

(** [r] compares the first [n] bytes of [l1] and [l2]: it is 0 when they agree
    and otherwise the difference of the first bytes that do not (a string that
    ends counts as 0 there). *)
Definition compares (n : nat) (l1 l2 : list Z) (r : Z) : Prop :=
  (r = 0 /\ take n l1 = take n l2) \/
  (exists k, (k < n)%nat /\ take k l1 = take k l2 /\ nth k l1 0 <> nth k l2 0 /\
     r = nth k l1 0 - nth k l2 0).

Lemma compares_cons n c l1 l2 r : compares n l1 l2 r -> compares (S n) (c :: l1) (c :: l2) r.
Proof.
  intros [[-> H]|(k & Hk & Ht & Hd & ->)]; [left; simpl; by rewrite H|right].
  exists (S k). simpl. rewrite Ht. repeat split; auto. lia.
Qed.

Lemma compares_first n l1 l2 :
  nth 0 l1 0 <> nth 0 l2 0 -> compares (S n) l1 l2 (nth 0 l1 0 - nth 0 l2 0).
Proof. intros H. right. exists 0%nat. rewrite !take_0. repeat split; auto. lia. Qed.

Lemma compares_eq n l1 l2 r : compares n l1 l2 r -> (r = 0 <-> take n l1 = take n l2).
Proof.
  intros [[-> H]|(k & Hk & Ht & Hd & ->)]; [done|]. split; [lia|]. intros H. exfalso.
  apply Hd. rewrite !nth_lookup, <- (lookup_take_lt l1 n k), <- (lookup_take_lt l2 n k) by done.
  by rewrite H.
Qed.

Lemma cstr_head m a l : cstr m a l -> m a = nth 0 l 0.
Proof. destruct l; rewrite ?cstr_nil, ?cstr_cons; simpl; tauto. Qed.

Lemma strncmp_spec n : forall p q m l1 l2,
  byte_ok m -> cstr m p l1 -> cstr m q l2 -> compares n l1 l2 (strncmp p q n m).
Proof.
  induction n as [|n IH]; intros p q m l1 l2 Hm H1 H2; cbn [strncmp]; [by left|].
  rewrite !u8_small by apply Hm. pose proof (cstr_head _ _ _ H1) as E1. pose proof (cstr_head _ _ _ H2) as E2.
  destruct (Z.eqb_spec (m p) (m q)) as [E|E].
  - rewrite andb_true_r. destruct l1 as [|c l1], l2 as [|d l2];
      rewrite ?cstr_cons in H1; rewrite ?cstr_cons in H2; simpl in E1, E2.
    + rewrite E1. cbn. rewrite <- E, E1. left. done.
    + destruct H2 as (? & ? & _). congruence.
    + destruct H1 as (? & ? & _). congruence.
    + rewrite (proj2 (Z.eqb_neq _ 0)) by (destruct H1 as (? & ? & _); congruence). cbn [negb].
      replace d with c by congruence. apply compares_cons. apply IH; tauto.
  - rewrite andb_false_r, E1, E2. apply compares_first. congruence.
Qed.

(** ** Theorems *)

Definition mem_of (a : Z) (l : list Z) : mem := write a l (fun _ => 0).

Lemma mem_of_ok a l : byte_ok (mem_of a l).
Proof.
  unfold mem_of. assert (H : byte_ok (fun _ => 0)) by (intros x; lia).
  revert a H. generalize (fun _ : Z => 0). induction l as [|b l IH]; intros m a H; simpl; [done|].
  apply IH. by apply store8_byte_ok.
Qed.

(** The kernel's [memmove] copies the [n] bytes at [src] to [dst] as they
    were before the call, whether or not the two ranges overlap, and changes no
    other byte. *)
Theorem memmove_correct dst src n m :
  byte_ok m ->
  bytes (memmove dst src n m) dst n = bytes m src n /\
  forall x, ~ (dst <= x < dst + Z.of_nat n) -> memmove dst src n m x = m x.
Proof.
  intros Hm. pose proof (memmove_spec dst src n m Hm) as H. split; [by apply moved_bytes|].
  intros x Hx. by rewrite H, decide_False.
Qed.

Lemma memmove_correct_witness :
  bytes (memmove 101 100 3 (mem_of 100 [1; 2; 3])) 101 3 = [1; 2; 3].
Proof.
  destruct (memmove_correct 101 100 3 (mem_of 100 [1; 2; 3]) (mem_of_ok _ _)) as [H _].
  rewrite H. reflexivity.
Defined.

(** The user library's [memmove] copies upwards only, so a move to a higher
    overlapping address destroys the source, unlike the kernel's. *)
Theorem user_memmove_overlap :
  bytes (mem_of 100 [1; 2; 3]) 100 3 = [1; 2; 3] /\
  bytes (memmove 101 100 3 (mem_of 100 [1; 2; 3])) 101 3 = [1; 2; 3] /\
  bytes (user_memmove 101 100 3 (mem_of 100 [1; 2; 3])) 101 3 = [1; 1; 1].
Proof. repeat split; reflexivity. Qed.

(** [safestrcpy] with a positive size leaves at [s] a NUL-terminated copy of
    the string [l], cut to [n - 1] bytes, and writes only inside the [n] bytes
    of the destination; with a size of 0 or less it writes nothing. *)
Theorem safestrcpy_correct s t n m l :
  byte_ok m -> cstr m t l -> apart s (Z.to_nat n) t l ->
  (0 < n -> cstr (safestrcpy s t n m) s (take (Z.to_nat (n - 1)) l)) /\
  (forall x, ~ (s <= x < s + n) -> safestrcpy s t n m x = m x).
Proof.
  intros Hm Hl Ha. unfold safestrcpy. destruct (Z.leb_spec n 0) as [Hn|Hn].
  - split; [lia|done].
  - split; [intros _|intros x Hx; apply safestrcpy_loop_outside; lia].
    apply safestrcpy_loop_cstr; [done|done|]. by replace (S (Z.to_nat (n - 1))) with (Z.to_nat n) by lia.
Qed.

Lemma safestrcpy_correct_witness :
  cstr (safestrcpy 200 100 3 (mem_of 100 [7; 8; 9])) 200 [7; 8].
Proof.
  apply (safestrcpy_correct 200 100 3 (mem_of 100 [7; 8; 9]) [7; 8; 9]).
  - apply mem_of_ok.
  - unfold cstr. repeat split. intros H. repeat (apply elem_of_cons in H as [H|H]; [discriminate H|]).
    by apply elem_of_nil in H.
  - right. simpl. lia.
  - lia.
Defined.

(** [strncmp] on two C strings is 0 exactly when their first [n] bytes
    agree, and otherwise the difference of the first pair of bytes that
    differ. *)
Theorem strncmp_correct p q n m l1 l2 :
  byte_ok m -> cstr m p l1 -> cstr m q l2 ->
  (strncmp p q n m = 0 <-> take n l1 = take n l2) /\
  (take n l1 <> take n l2 -> exists k, (k < n)%nat /\ take k l1 = take k l2 /\
     nth k l1 0 <> nth k l2 0 /\ strncmp p q n m = nth k l1 0 - nth k l2 0).
Proof.
  intros Hm H1 H2. pose proof (strncmp_spec n p q m l1 l2 Hm H1 H2) as H. split.
  - by apply compares_eq.
  - intros Hne. destruct H as [[_ ?]|?]; [done|done].
Qed.

Lemma strncmp_correct_witness : strncmp 100 102 14 (mem_of 100 [5; 0; 5; 0]) = 0.
Proof.
  apply (strncmp_correct 100 102 14 (mem_of 100 [5; 0; 5; 0]) [5] [5]).
  - apply mem_of_ok.
  - apply cstr_cons. split; [reflexivity|]. split; [discriminate|]. apply cstr_nil. reflexivity.
  - apply cstr_cons. split; [reflexivity|]. split; [discriminate|]. apply cstr_nil. reflexivity.
  - reflexivity.
Defined.

End Cstring.
