(* ===== verification/Grep.v ===== *)
(** * The [grep] utility (bin/grep/grep.c)

    The Kernighan-Pike matcher ([match], [matchhere], [matchstar]) and the
    line-buffering loop [grep].  A C string is the list of its characters
    before the terminating NUL, a [char *] into it is a suffix of that list.
    The matcher is proved equivalent to the language its pattern denotes, the
    loop to filtering the lines of a file. *)

From Stdlib Require Import ZArith Lia.
From stdpp Require Import base numbers list.
From S2P Require Import Prelude.

Open Scope Z_scope.

Module Grep.

(** ** Characters *)

Definition c_star : Z := 42.
Definition c_dot : Z := 46.
Definition c_dollar : Z := 36.
Definition c_caret : Z := 94.
Definition c_nl : Z := 10.

(** ** The matcher *)

(** [matchstar(c, re, text)]: the do-while loop; [here] is
    [matchhere(re, .)]. *)
Fixpoint matchstar (here : list Z -> bool) (c : Z) (text : list Z) : bool :=
  if here text then true
  else match text with
       | [] => false
       | t :: text' =>
           if (t =? c) || (c =? c_dot) then matchstar here c text' else false
       end.

(** The last two tests of [matchhere]; [here] is [matchhere(re+1, .)] and
    [last] says that [re[1]] is NUL. *)
Definition matchone (here : list Z -> bool) (c : Z) (last : bool) (text : list Z) : bool :=
  if (c =? c_dollar) && last then match text with [] => true | _ => false end
  else match text with
       | [] => false
       | t :: text' => if (c =? c_dot) || (c =? t) then here text' else false
       end.

Fixpoint matchhere (re text : list Z) {struct re} : bool :=
  match re with
  | [] => true
  | c :: re1 =>
      match re1 with
      | [] => matchone (matchhere re1) c true text
      | c1 :: re2 =>
          if c1 =? c_star then matchstar (matchhere re2) c text
          else matchone (matchhere re1) c false text
      end
  end.

(** The do-while of [match] over the suffixes of [text]. *)
Fixpoint match_from (re text : list Z) {struct text} : bool :=
  if matchhere re text then true
  else match text with
       | [] => false
       | _ :: text' => match_from re text'
       end.

Definition match_ (re text : list Z) : bool :=
  match re with
  | c :: re' => if c =? c_caret then matchhere re' text else match_from re text
  | [] => match_from re text
  end.

(** ** The line loop *)

(** [strchr(s, c)]: the index of the first [c] before the end of the C
    string held in the buffer [s] (a NUL ends it). *)
Fixpoint strchr (s : list Z) (c : Z) : option nat :=
  match s with
  | [] => None
  | x :: s' => if x =? 0 then None else if x =? c then Some O else S <$> strchr s' c
  end.

(** A file descriptor: the data still to come, in the pieces in which it
    becomes available.  A regular file is a single piece; a pipe or the console
    delivers one piece per write or line. *)
Definition stream : Type := list (list Z).

(** [read(fd, p, k)]: at most [k] bytes of the next piece, nothing at the end. *)
Definition read (k : nat) (fd : stream) : list Z * stream :=
  match fd with
  | [] => ([], [])
  | c :: cs =>
      (take k c, match drop k c with [] => cs | rest => rest :: cs end)
  end.

(** sizeof(buf) - 1 *)
Definition bufmax : nat := 1023.

(** The inner [while((q = strchr(p, '\n')) != 0)] loop on the bytes from [p] to
    the end of the data; returns what is written to fd 1 and the final [p].
    Each iteration moves [p] forward, so [length p] iterations are enough. *)
Fixpoint scan_lines (fuel : nat) (pattern p : list Z) : list Z * list Z :=
  match fuel with
  | O => ([], p)
  | S fuel' =>
      match strchr p c_nl with
      | None => ([], p)
      | Some q =>
          let line := take q p in
          let '(out, p') := scan_lines fuel' pattern (drop (S q) p) in
          ((if match_ pattern line then line ++ [c_nl] else []) ++ out, p')
      end
  end.

(** The outer [while((n = read(...)) > 0)] loop.  [kept] is [buf[0..m)]. *)
Fixpoint grep_loop (fuel : nat) (pattern kept : list Z) (fd : stream) : option (list Z) :=
  match fuel with
  | O => None
  | S fuel' =>
      let '(data, fd') := read (bufmax - length kept) fd in
      match data with
      | [] => Some []
      | _ =>
          let buf := kept ++ data in
          let '(out, p) := scan_lines (length buf) pattern buf in
          (* p == buf means no newline was found: m = 0 *)
          let kept' := if (length p =? length buf)%nat then [] else p in
          match grep_loop fuel' pattern kept' fd' with
          | Some out' => Some (out ++ out')
          | None => None
          end
      end
  end.

(** [grep(pattern, fd)]: every iteration consumes at least one byte. *)
Definition grep (pattern : list Z) (fd : stream) : option (list Z) :=
  grep_loop (S (length (concat fd))) pattern [] fd.

(** ** Specification: the language of a pattern *)

Inductive item : Type :=
| One (c : Z)
| Star (c : Z).

Record pattern := mkpattern { items : list item; at_end : bool }.

Definition parse_one (r : pattern) (c : Z) (last : bool) : pattern :=
  if (c =? c_dollar) && last then mkpattern [] true
  else mkpattern (One c :: items r) (at_end r).

Fixpoint parse (re : list Z) : pattern :=
  match re with
  | [] => mkpattern [] false
  | c :: re1 =>
      match re1 with
      | [] => parse_one (parse re1) c true
      | c1 :: re2 =>
          if c1 =? c_star
          then let r := parse re2 in mkpattern (Star c :: items r) (at_end r)
          else parse_one (parse re1) c false
      end
  end.

(** The characters a pattern character stands for. *)
Definition denotes (c t : Z) : Prop := c = c_dot \/ c = t.

(** [lang its w]: the word [w] belongs to the language of the items [its]. *)
Fixpoint lang (its : list item) (w : list Z) : Prop :=
  match its with
  | [] => w = []
  | One c :: its' => exists t w', w = t :: w' /\ denotes c t /\ lang its' w'
  | Star c :: its' => exists v w', w = v ++ w' /\ Forall (denotes c) v /\ lang its' w'
  end.

Definition matches_here (p : pattern) (text : list Z) : Prop :=
  exists w rest, text = w ++ rest /\ lang (items p) w /\ (at_end p = true -> rest = []).

Definition matches (re text : list Z) : Prop :=
  match re with
  | c :: re' =>
      if c =? c_caret then matches_here (parse re') text
      else exists pre text', text = pre ++ text' /\ matches_here (parse re) text'
  | [] => exists pre text', text = pre ++ text' /\ matches_here (parse re) text'
  end.

(** ** Specification: the lines of a file *)

Definition text_char (c : Z) : Prop := c <> 0 /\ c <> c_nl.

Definition unlines (ls : list (list Z)) : list Z := concat ((fun l => l ++ [c_nl]) <$> ls).

(** ** Correctness of the matcher *)

Lemma matchstar_spec here c text :
  matchstar here c text = true <->
  exists v rest, text = v ++ rest /\ Forall (denotes c) v /\ here rest = true.
Proof.
  induction text as [|t text IH]; simpl.
  - destruct (here []) eqn:E.
    + split; [|done]. intros _. exists [], []. auto.
    + split; [done|]. intros (v & rest & Happ & _ & Hr).
      symmetry in Happ. apply app_eq_nil in Happ as [-> ->]. congruence.
  - destruct (here (t :: text)) eqn:E.
    + split; [|done]. intros _. exists [], (t :: text). auto.
    + destruct ((t =? c) || (c =? c_dot)) eqn:Ec.
      * rewrite IH. apply orb_true_iff in Ec. rewrite !Z.eqb_eq in Ec. split.
        -- intros (v & rest & -> & Hv & Hr). exists (t :: v), rest.
           split; [done|]. split; [|done]. constructor; [|done].
           unfold denotes. naive_solver.
        -- intros ([|x v] & rest & Happ & Hv & Hr); simplify_eq/=; [congruence|].
           apply Forall_cons_iff in Hv as [_ Hv]. eauto.
      * split; [done|]. intros ([|x v] & rest & Happ & Hv & Hr); simplify_eq/=; [congruence|].
        apply Forall_cons_iff in Hv as [Hd _]. exfalso.
        apply orb_false_iff in Ec. rewrite !Z.eqb_neq in Ec. unfold denotes in Hd. naive_solver.
Qed.

Lemma matches_here_star c p text :
  matches_here (mkpattern (Star c :: items p) (at_end p)) text <->
  exists v rest, text = v ++ rest /\ Forall (denotes c) v /\ matches_here p rest.
Proof.
  unfold matches_here; simpl. split.
  - intros (w & rest & -> & (v & w' & -> & Hv & Hl) & He).
    exists v, (w' ++ rest). rewrite <- app_assoc. eauto 10.
  - intros (v & r & -> & Hv & (w & rest & -> & Hl & He)).
    exists (v ++ w), rest. rewrite <- app_assoc. split; [done|]. eauto 10.
Qed.

Lemma matches_here_one c p text :
  matches_here (mkpattern (One c :: items p) (at_end p)) text <->
  exists t rest, text = t :: rest /\ denotes c t /\ matches_here p rest.
Proof.
  unfold matches_here; simpl. split.
  - intros (w & rest & -> & (t & w' & -> & Hd & Hl) & He).
    exists t, (w' ++ rest). eauto 10.
  - intros (t & r & -> & Hd & (w & rest & -> & Hl & He)).
    exists (t :: w), rest. eauto 10.
Qed.

Lemma matches_here_end text :
  matches_here (mkpattern [] true) text <-> text = [].
Proof.
  unfold matches_here; simpl. split.
  - intros (w & rest & -> & -> & He). rewrite He; done.
  - intros ->. exists [], []. auto.
Qed.

Lemma matchone_spec here c last p text :
  (forall t, here t = true <-> matches_here p t) ->
  matchone here c last text = true <-> matches_here (parse_one p c last) text.
Proof.
  intros Hhere. unfold matchone, parse_one. destruct (_ && _).
  - rewrite matches_here_end. destruct text; split; done.
  - rewrite matches_here_one. destruct text as [|t text].
    + split; [done|]. by intros (? & ? & ? & _).
    + destruct ((c =? c_dot) || (c =? t)) eqn:Ec.
      * rewrite Hhere. apply orb_true_iff in Ec. rewrite !Z.eqb_eq in Ec.
        unfold denotes. naive_solver.
      * split; [done|]. intros (t' & rest & Heq & Hd & _). simplify_eq.
        apply orb_false_iff in Ec. rewrite !Z.eqb_neq in Ec. unfold denotes in Hd. naive_solver.
Qed.

Lemma matchhere_spec re text :
  matchhere re text = true <-> matches_here (parse re) text.
Proof.
  revert text. induction re as [[|c [|c1 re2]] IH] using (induction_ltof1 _ (@length Z));
    unfold ltof in IH; intros text; simpl.
  - split; [|done]. intros _. exists [], text. by repeat split.
  - apply matchone_spec, (IH []). simpl; lia.
  - destruct (c1 =? c_star).
    + rewrite matchstar_spec, matches_here_star.
      assert (Hr : forall t, matchhere re2 t = true <-> matches_here (parse re2) t)
        by (apply IH; simpl; lia).
      split; intros (v & rest & -> & Hv & Hm); exists v, rest; by rewrite ?Hr in *.
    + apply matchone_spec, (IH (c1 :: re2)). simpl; lia.
Qed.

Lemma match_from_spec re text :
  match_from re text = true <->
  exists pre text', text = pre ++ text' /\ matches_here (parse re) text'.
Proof.
  induction text as [|t text IH]; simpl.
  - destruct (matchhere re []) eqn:E.
    + split; [|done]. intros _. exists [], []. split; [done|]. by apply matchhere_spec.
    + split; [done|]. intros (pre & text' & Happ & Hm).
      symmetry in Happ. apply app_eq_nil in Happ as [-> ->].
      apply matchhere_spec in Hm. congruence.
  - destruct (matchhere re (t :: text)) eqn:E.
    + split; [|done]. intros _. exists [], (t :: text). split; [done|]. by apply matchhere_spec.
    + rewrite IH. split.
      * intros (pre & text' & -> & Hm). by exists (t :: pre), text'.
      * intros ([|x pre] & text' & Happ & Hm); simplify_eq/=; [|eauto].
        apply matchhere_spec in Hm. congruence.
Qed.

(** C39: [match(re, text)] returns 1 exactly when the text contains (or, for a
    pattern that starts with '^', begins with) a word of the language the
    pattern denotes, ending at the end of the text if the pattern ends in '$'. *)
Theorem match_correct re text : match_ re text = true <-> matches re text.
Proof.
  unfold match_, matches. destruct re as [|c re']; [apply match_from_spec|].
  destruct (c =? c_caret); [apply matchhere_spec|apply match_from_spec].
Qed.

(** ** Correctness of the line loop *)

Lemma strchr_None s : Forall text_char s -> strchr s c_nl = None.
Proof.
  induction 1 as [|x s [H0 Hn] _ IH]; simpl; [done|].
  rewrite (proj2 (Z.eqb_neq _ _) H0), (proj2 (Z.eqb_neq _ _) Hn), IH. done.
Qed.

Lemma strchr_line l s : Forall text_char l -> strchr (l ++ c_nl :: s) c_nl = Some (length l).
Proof.
  induction 1 as [|x l [H0 Hn] _ IH]; simpl; [done|].
  rewrite (proj2 (Z.eqb_neq _ _) H0), (proj2 (Z.eqb_neq _ _) Hn), IH. done.
Qed.

Lemma unlines_cons l ls : unlines (l :: ls) = l ++ c_nl :: unlines ls.
Proof. unfold unlines. simpl. by rewrite <- app_assoc. Qed.

Lemma unlines_app ls ls' : unlines (ls ++ ls') = unlines ls ++ unlines ls'.
Proof. unfold unlines. by rewrite fmap_app, concat_app. Qed.

(** The inner loop consumes the complete lines and stops at the tail. *)
Lemma scan_lines_spec fuel pattern ls t :
  Forall (Forall text_char) ls -> Forall text_char t ->
  (length ls <= fuel)%nat ->
  scan_lines fuel pattern (unlines ls ++ t) =
  (unlines (List.filter (match_ pattern) ls), t).
Proof.
  intros Hls Ht. revert fuel. induction Hls as [|l ls Hl Hls IH]; intros fuel Hf.
  - destruct fuel; simpl; [done|]. by rewrite strchr_None.
  - destruct fuel as [|fuel]; [simpl in Hf; lia|].
    rewrite unlines_cons, <- app_assoc. simpl. rewrite strchr_line by done.
    rewrite take_app_length.
    replace (drop (S (length l)) _) with (unlines ls ++ t)
      by (by rewrite (cons_middle c_nl), app_assoc, drop_app_length' by (rewrite length_app; simpl; lia)).
    rewrite IH by (simpl in Hf; lia).
    destruct (match_ pattern l); [|done]. by rewrite unlines_cons, <- app_assoc.
Qed.

Lemma length_unlines ls : (length ls <= length (unlines ls))%nat.
Proof.
  induction ls as [|l ls IH]; [done|]. rewrite unlines_cons, length_app. simpl. lia.
Qed.

(** Any prefix of a text file is some of its complete lines and a tail. *)
Lemma split_prefix ls t k :
  Forall (Forall text_char) ls -> Forall text_char t ->
  exists ls1 ls2 t1 t2,
    ls = ls1 ++ ls2 /\ Forall text_char t1 /\
    take k (unlines ls ++ t) = unlines ls1 ++ t1 /\
    drop k (unlines ls ++ t) = t2 /\
    t1 ++ t2 = unlines ls2 ++ t.
Proof.
  intros Hls Ht. revert k. induction Hls as [|l ls Hl Hls IH]; intros k.
  - exists [], [], (take k t), (drop k t). simpl. rewrite take_drop.
    repeat split; auto using Forall_take.
  - rewrite unlines_cons, <- app_assoc.
    destruct (decide (k <= length l)%nat) as [Hk|Hk].
    + exists [], (l :: ls), (take k l), (drop k (l ++ (c_nl :: unlines ls) ++ t)).
      rewrite take_app_le by done. rewrite unlines_cons, <- app_assoc. simpl.
      repeat split; auto using Forall_take.
      rewrite <- (take_drop k (l ++ c_nl :: unlines ls ++ t)) at 2.
      rewrite take_app_le by done. done.
    + destruct (IH (k - S (length l))%nat) as (ls1 & ls2 & t1 & t2 & -> & Ht1 & Htk & Hdr & Happ).
      exists (l :: ls1), ls2, t1, t2. split; [done|]. split; [done|].
      replace k with (length l + S (k - S (length l)))%nat at 1 2 by lia.
      simpl. rewrite take_app_add, drop_app_add. simpl.
      rewrite Htk, Hdr, unlines_cons, <- app_assoc. done.
Qed.

Definition short_lines (ls : list (list Z)) : Prop :=
  Forall (fun l => Forall text_char l /\ (length l < bufmax)%nat) ls.

Lemma short_lines_text ls : short_lines ls -> Forall (Forall text_char) ls.
Proof. intros H. eapply Forall_impl; [exact H|]. by intros l [? _]. Qed.

Lemma read_nil k : read k [] = ([], []).
Proof. done. Qed.

(** The file still to be read when [rest] is left of it. *)
Definition fd_of (rest : list Z) : stream := match rest with [] => [] | _ => [rest] end.

Lemma read_fd_of k rest : (k <> 0)%nat -> read k (fd_of rest) = (take k rest, fd_of (drop k rest)).
Proof.
  intros Hk. destruct rest as [|x rest]; [by destruct k|]. simpl.
  by destruct (drop k (x :: rest)).
Qed.

Lemma grep_loop_done fuel pattern kept : grep_loop (S fuel) pattern kept [] = Some [].
Proof. done. Qed.

Lemma text_no_line s ls t : Forall text_char s -> s = unlines ls ++ t -> ls = [].
Proof.
  intros Hs ->. destruct ls as [|l ls]; [done|]. exfalso.
  rewrite unlines_cons, <- app_assoc in Hs.
  apply Forall_app in Hs as [_ Hs]. simpl in Hs.
  apply Forall_cons_iff in Hs as [[_ ?] _]. done.
Qed.

(** A full buffer without a newline is impossible when the lines are short. *)
Lemma full_buffer ls t t1 t2 :
  short_lines ls -> Forall text_char t1 -> (length t <= bufmax)%nat ->
  (length t1 = bufmax)%nat -> t1 ++ t2 = unlines ls ++ t -> ls = [] /\ t2 = [].
Proof.
  intros Hls Ht1 Hlt Hl1 Heq. destruct ls as [|l ls].
  - split; [done|]. simpl in Heq. apply (f_equal length) in Heq.
    rewrite length_app in Heq. destruct t2; [done|]. simpl in Heq. lia.
  - exfalso. apply Forall_cons_iff in Hls as [[_ Hl] _].
    rewrite unlines_cons, <- app_assoc in Heq.
    assert (Hx : t1 !! length l = Some c_nl).
    { rewrite <- (lookup_app_l t1 t2) by lia. rewrite Heq, lookup_app_r by lia.
      by rewrite Nat.sub_diag. }
    pose proof (proj1 (Forall_lookup _ _) Ht1 _ _ Hx) as [_ ?]. done.
Qed.

(** The outer loop: [kept] is the beginning of the line being read, [rest]
    what the descriptor still holds. *)
Lemma grep_loop_spec fuel pattern ls t kept rest :
  kept ++ rest = unlines ls ++ t ->
  Forall text_char kept -> (length kept < bufmax)%nat ->
  short_lines ls -> Forall text_char t -> (length t <= bufmax)%nat ->
  (length rest < fuel)%nat ->
  grep_loop fuel pattern kept (fd_of rest) = Some (unlines (List.filter (match_ pattern) ls)).
Proof.
  revert ls kept rest.
  induction fuel as [|fuel IH]; intros ls kept rest Heq Hkt Hk Hls Ht Hlt Hf; [lia|].
  destruct (decide (rest = [])) as [->|Hne].
  { rewrite app_nil_r in Heq. rewrite (text_no_line _ _ _ Hkt Heq). done. }
  cbn [grep_loop]. rewrite read_fd_of by lia.
  set (k := (bufmax - length kept)%nat).
  assert (Hbuf : kept ++ take k rest = take bufmax (unlines ls ++ t)).
  { rewrite <- Heq. replace bufmax with (length kept + k)%nat by lia. by rewrite take_app_add. }
  assert (Hdrop : drop k rest = drop bufmax (unlines ls ++ t)).
  { rewrite <- Heq. replace bufmax with (length kept + k)%nat by lia. by rewrite drop_app_add. }
  assert (Hlr : (length (drop k rest) < fuel)%nat).
  { rewrite length_drop. destruct rest; [done|]. simpl in *. lia. }
  destruct (take k rest) as [|d data] eqn:Hd.
  { destruct rest; [done|]. destruct k eqn:?; [lia|done]. }
  destruct (split_prefix ls t bufmax (short_lines_text _ Hls) Ht)
    as (ls1 & ls2 & t1 & t2 & -> & Ht1 & Htk & Hdr & Happ).
  apply Forall_app in Hls as [Hls1 Hls2].
  rewrite Hbuf, Htk, scan_lines_spec; [|by apply short_lines_text|done|
    rewrite length_app; pose proof (length_unlines ls1); lia].
  assert (Hlen : (length (unlines ls1 ++ t1) <= bufmax)%nat) by (rewrite <- Htk, length_take; lia).
  rewrite List.filter_app, unlines_app. rewrite Hdrop, Hdr in Hlr |- *.
  destruct ls1 as [|l1 ls1].
  - simpl. rewrite Nat.eqb_refl. simpl in Happ.
    assert (ls2 = [] /\ t2 = []) as [-> ->].
    { destruct (decide (t2 = [])) as [->|Ht2].
      - rewrite app_nil_r in Happ. by rewrite (text_no_line _ _ _ Ht1 Happ).
      - apply (full_buffer ls2 t t1 t2); auto. change (unlines [] ++ t1) with t1 in *.
        apply (f_equal length) in Htk. rewrite length_take in Htk.
        apply (f_equal length) in Hdr. rewrite length_drop in Hdr.
        destruct t2; [done|]. cbn [length app] in *. lia. }
    destruct fuel; [lia|]. done.
  - rewrite length_app in Hlen. rewrite unlines_cons in Hlen |- *.
    rewrite (proj2 (Nat.eqb_neq _ _)); [|rewrite !length_app; simpl; lia].
    rewrite (IH ls2); auto. rewrite length_app in Hlen. simpl in Hlen. lia.
Qed.

(** On a regular file whose lines fit the buffer, [grep] terminates and
    writes exactly the lines that match, in order (an unterminated last line is
    not written). *)
Theorem grep_filters_lines pattern ls t :
  short_lines ls -> Forall text_char t -> (length t <= bufmax)%nat ->
  grep pattern (fd_of (unlines ls ++ t)) = Some (unlines (List.filter (match_ pattern) ls)).
Proof.
  intros Hls Ht Hlt. unfold grep. apply (grep_loop_spec _ _ _ t); auto; [unfold bufmax; simpl; lia|].
  destruct (unlines ls ++ t); simpl; rewrite ?app_nil_r; lia.
Qed.

Definition abc : list Z := [97; 98; 99].

Lemma grep_filters_lines_witness :
  grep [98] (fd_of (unlines [abc; [120]; [98]] ++ [98])) = Some (unlines [abc; [98]]).
Proof.
  apply (grep_filters_lines [98] [abc; [120]; [98]] [98]).
  - repeat constructor; done.
  - repeat constructor; done.
  - unfold bufmax; simpl; lia.
Defined.

(** A read that delivers no newline loses data: when "ab" and "c\n" arrive
    from a pipe in two pieces, the line "abc" is not found, although the same
    bytes in one piece are. *)
Theorem grep_short_read_loses_line :
  grep abc [[97; 98]; [99; 10]] = Some [] /\
  grep abc [[97; 98; 99; 10]] = Some [97; 98; 99; 10].
Proof. split; reflexivity. Qed.

End Grep.
