(* ===== verification/Buddy.v ===== *)
(** * The buddy allocator (kern/mm/buddy.c)

    State: [kmem] with its array of orders and the array of marks that lives
    at [kmem.start]; a mark holds a 32-bit bitmap of free blocks and a pair of
    16-bit links that chain the marks with a free block.  The [lock] field says
    whether this CPU holds [kmem.lock]. *)

From Stdlib Require Import ZArith Lia.
From stdpp Require Import base numbers strings list gmap.
From S2P Require Import Prelude Dll.

Open Scope Z_scope.

Import Dll.

Module Buddy.

(** ** Constants and link words *)

Definition MAX_ORD : Z := 12.
Definition MIN_ORD : Z := 6.
Definition N_ORD : Z := MAX_ORD - MIN_ORD + 1.
Definition PGSIZE_ORDER : Z := 12.

Definition ALIGN_UP (sz al : Z) : Z :=
  Z.land (u32 (u32 sz + u32 al - 1)) (not32 (u32 al - 1)).

Definition PRE_LNK (lnks : Z) : Z := Z.shiftr lnks 16.
Definition NEXT_LNK (lnks : Z) : Z := Z.land lnks 65535.
Definition LNKS (pre next : Z) : Z := u32 (Z.lor (Z.shiftl pre 16) (Z.land next 65535)).
Definition NIL : Z := 65535.

(** ** State *)

Record mark := mkmark { lnks : Z; bitmap : Z }.

Record order := mkorder { head : Z; offset : Z }.

Record kmem := mkkmem {
  lock : bool;
  start : Z;
  start_heap : Z;
  kend : Z;
  initialized : bool;
  orders : list order;
  marks : gmap Z mark
}.

Definition set_lock (b : bool) (s : kmem) : kmem :=
  mkkmem b (start s) (start_heap s) (kend s) (initialized s) (orders s) (marks s).
Definition set_start_heap (a : Z) (s : kmem) : kmem :=
  mkkmem (lock s) (start s) a (kend s) (initialized s) (orders s) (marks s).
Definition set_initialized (b : bool) (s : kmem) : kmem :=
  mkkmem (lock s) (start s) (start_heap s) (kend s) b (orders s) (marks s).
Definition set_orders (l : list order) (s : kmem) : kmem :=
  mkkmem (lock s) (start s) (start_heap s) (kend s) (initialized s) l (marks s).
Definition set_marks (m : gmap Z mark) (s : kmem) : kmem :=
  mkkmem (lock s) (start s) (start_heap s) (kend s) (initialized s) (orders s) m.

(** [acquire(&kmem.lock)] and [release(&kmem.lock)] as this CPU sees them. *)
Definition acquire : ST kmem unit :=
  s ← get; if lock s then panic "acquire" else put (set_lock true s).
Definition release : ST kmem unit :=
  s ← get; if lock s then put (set_lock false s) else panic "release".

(** [kmem.orders + i], an out-of-range index faults. *)
Definition get_order_at (i : Z) : ST kmem order :=
  s ← get; match zlookup (orders s) i with Some o => mret o | None => fault end.
Definition set_order_at (i : Z) (o : order) : ST kmem unit :=
  s ← get;
  match zlookup (orders s) i with
  | Some _ => put (set_orders (zinsert i o (orders s)) s)
  | None => fault
  end.

(** Reading and writing through a [struct mark *], which the model keeps as
    the index from [kmem.start]; reading a mark [buddy_init] never wrote faults. *)
Definition load_mark (p : Z) : ST kmem mark :=
  s ← get; match marks s !! p with Some m => mret m | None => fault end.
Definition store_mark (p : Z) (m : mark) : ST kmem unit :=
  s ← get; put (set_marks (<[p := m]> (marks s)) s).

Definition get_mark (order idx : Z) : ST kmem Z :=
  o ← get_order_at (order - MIN_ORD);
  mret (u32 (offset o + idx)).

Definition blkid2mem (order blkid : Z) : ST kmem Z :=
  s ← get; mret (u32 (start_heap s + Z.shiftl 1 order * blkid)).

Definition mem2blkid (order mem : Z) : ST kmem Z :=
  s ← get; mret (Z.shiftr (u32 (mem - start_heap s)) order).

Definition available (bitmap blk_id : Z) : bool :=
  negb (Z.land bitmap (bit32 (Z.land blk_id 31)) =? 0).

Definition roundup_powerof2 (v : Z) : Z :=
  let v := u32 (v - 1) in
  let v := Z.lor v (Z.shiftr v 1) in
  let v := Z.lor v (Z.shiftr v 2) in
  let v := Z.lor v (Z.shiftr v 4) in
  let v := Z.lor v (Z.shiftr v 8) in
  let v := Z.lor v (Z.shiftr v 16) in
  u32 (v + 1).

(** ** Marking blocks *)

Definition set_next (p next : Z) : ST kmem unit :=
  m ← load_mark p; store_mark p (mkmark (LNKS (PRE_LNK (lnks m)) next) (bitmap m)).
Definition set_pre (p pre : Z) : ST kmem unit :=
  m ← load_mark p; store_mark p (mkmark (LNKS pre (NEXT_LNK (lnks m))) (bitmap m)).
Definition set_lnks (p l : Z) : ST kmem unit :=
  m ← load_mark p; store_mark p (mkmark l (bitmap m)).

Definition set_head (order h : Z) : ST kmem unit :=
  o ← get_order_at (order - MIN_ORD);
  set_order_at (order - MIN_ORD) (mkorder h (offset o)).

(** The end of [unmark_blk]: the mark [mk] (number [blk_id], links [l]) has
    no free block left and leaves the list. *)
Definition unlink_mark (order mk blk_id l : Z) : ST kmem unit :=
  let prev := PRE_LNK l in
  let next := NEXT_LNK l in
  (if negb (prev =? NIL) then
     p ← get_mark order prev; set_next p next
   else
     ord ← get_order_at (order - MIN_ORD);
     if head ord =? u32 blk_id then set_head order next else mret tt);;
  (if negb (next =? NIL) then
     p ← get_mark order next; set_pre p prev
   else mret tt);;
  set_lnks mk (LNKS NIL NIL).

Definition unmark_blk (order blk_id : Z) : ST kmem unit :=
  mk ← get_mark order (Z.shiftr blk_id 5);
  m ← load_mark mk;
  if negb (available (bitmap m) blk_id) then panic "double alloc"
  else
    let bm := Z.land (bitmap m) (not32 (bit32 (Z.land blk_id 31))) in
    store_mark mk (mkmark (lnks m) bm);;
    if bm =? 0 then unlink_mark order mk (Z.shiftr blk_id 5) (lnks m)
    else mret tt.

(** The end of [mark_blk]: the mark [mk] (number [blk_id]) becomes the head. *)
Definition link_mark (order mk blk_id : Z) : ST kmem unit :=
  ord ← get_order_at (order - MIN_ORD);
  set_lnks mk (LNKS NIL (head ord));;
  (if negb (head ord =? NIL) then
     p ← get_mark order (head ord); set_pre p blk_id
   else mret tt);;
  set_head order (u32 blk_id).

Definition mark_blk (order blk_id : Z) : ST kmem unit :=
  mk ← get_mark order (Z.shiftr blk_id 5);
  m ← load_mark mk;
  let insert := bitmap m =? 0 in
  if available (bitmap m) blk_id then panic "double free"
  else
    store_mark mk (mkmark (lnks m) (Z.lor (bitmap m) (bit32 (Z.land blk_id 31))));;
    if insert then link_mark order mk (Z.shiftr blk_id 5) else mret tt.

(** The [for(i = 0; i < 32; i++)] scan of [get_blk]: [n] bits are left. *)
Fixpoint first_bit (n : nat) (i bm : Z) : option Z :=
  match n with
  | O => None
  | S n' => if negb (Z.land bm (bit32 i) =? 0) then Some i else first_bit n' (i + 1) bm
  end.

(** [get_blk]; the result 0 is NULL. *)
Definition get_blk (order : Z) : ST kmem Z :=
  ord ← get_order_at (order - MIN_ORD);
  mk ← get_mark order (head ord);
  m ← load_mark mk;
  if bitmap m =? 0 then panic "empty mark in the list"
  else match first_bit 32 0 (bitmap m) with
       | Some i =>
           let blk_id := u32 (head ord * 32 + i) in
           unmark_blk order blk_id;;
           blkid2mem order blk_id
       | None => mret 0
       end.

(** [__internal_kfree] recurses with [order + 1] and stops at [MAX_ORD]. *)
Fixpoint internal_kfree (fuel : nat) (mem order : Z) : ST kmem unit :=
  match fuel with
  | O => out_of_fuel
  | S fuel' =>
      blk_id ← mem2blkid order mem;
      mk ← get_mark order (Z.shiftr blk_id 5);
      m ← load_mark mk;
      if available (bitmap m) blk_id then panic "kmfree: double free"
      else
        let buddy_id := Z.lxor blk_id 1 in
        if negb (available (bitmap m) buddy_id) || (order =? MAX_ORD)
        then mark_blk order blk_id
        else
          unmark_blk order buddy_id;;
          up ← blkid2mem order (Z.land blk_id (not32 1));
          internal_kfree fuel' up (order + 1)
  end.

Definition kfree_fuel : nat := 8.

Fixpoint internal_kmalloc (fuel : nat) (order : Z) : ST kmem Z :=
  match fuel with
  | O => out_of_fuel
  | S fuel' =>
      s ← get;
      if negb (initialized s) then panic "__internal_kmalloc:buddy-malloc before buddy init."
      else
        ord ← get_order_at (order - MIN_ORD);
        if negb (head ord =? NIL) then get_blk order
        else if order <? MAX_ORD then
          up ← internal_kmalloc fuel' (order + 1);
          if negb (up =? 0)
          then internal_kfree kfree_fuel (u32 (up + Z.shiftl 1 order)) order;; mret up
          else mret up
        else mret 0
  end.

(** ** Exported operations *)

Definition buddy_kmalloc (order : Z) : ST kmem Z :=
  if (MAX_ORD <? order) || (order <? MIN_ORD) then panic "kmalloc: order out of range"
  else acquire;; up ← internal_kmalloc kfree_fuel order; release;; mret up.

Definition buddy_kmfree (mem order : Z) : ST kmem unit :=
  if (MAX_ORD <? order) || (order <? MIN_ORD)
     || negb (Z.land mem (Z.shiftl 1 order - 1) =? 0)
  then panic "kmfree: order out of range or memory unaligned"
  else acquire;; internal_kfree kfree_fuel mem order;; release.

Definition buddy_free_page (v : Z) : ST kmem unit := buddy_kmfree v PGSIZE_ORDER.
Definition buddy_alloc_page : ST kmem Z := buddy_kmalloc PGSIZE_ORDER.

(** The [for] loop of [buddy_get_order]: index of the lowest set bit of [v]. *)
Fixpoint lowest_bit (n : nat) (ord v : Z) : Z :=
  match n with
  | O => ord
  | S n' => if negb (Z.land v (bit32 ord) =? 0) then ord else lowest_bit n' (ord + 1) v
  end.

Definition buddy_get_order (v : Z) : ST kmem Z :=
  let ord := lowest_bit 32 0 (roundup_powerof2 v) in
  if ord <? MIN_ORD then mret MIN_ORD
  else if MAX_ORD <? ord then panic "buddy_get_order: order too big!"
  else mret ord.

(** ** Initialisation *)

(** The inner loop: [n] marks from index [j] of order [i + MIN_ORD]. *)
Fixpoint init_marks (n : nat) (ord j : Z) : ST kmem unit :=
  match n with
  | O => mret tt
  | S n' =>
      mk ← get_mark ord j;
      store_mark mk (mkmark (LNKS NIL NIL) 0);;
      init_marks n' ord (j + 1)
  end.

(** The loop over the orders, [i] from [N_ORD - 1] down to 0; returns [total]. *)
Fixpoint init_orders (k : nat) (n total : Z) : ST kmem Z :=
  match k with
  | O => mret total
  | S k' =>
      let i := Z.of_nat k' in
      set_order_at i (mkorder NIL total);;
      init_marks (Z.to_nat n) (i + MIN_ORD) 0;;
      init_orders k' (u32 (Z.shiftl n 1)) (u32 (total + n))
  end.

(** The loop that frees every page from [i] up to [kmem.end]. *)
Fixpoint init_free (fuel : nat) (i : Z) : ST kmem unit :=
  s ← get;
  if i <? kend s then
    match fuel with
    | O => out_of_fuel
    | S fuel' => buddy_kmfree i MAX_ORD;; init_free fuel' (u32 (i + Z.shiftl 1 MAX_ORD))
    end
  else mret tt.

Definition buddy_init (vstart vend : Z) : ST kmem unit :=
  s ← get;
  put (mkkmem false vstart (start_heap s) vend (initialized s) (orders s) (marks s));;
  let len := u32 (vend - vstart) in
  let n := u32 (Z.shiftr len (MAX_ORD + 5) + 1) in
  total ← init_orders (Z.to_nat N_ORD) n 0;
  modify (set_start_heap (ALIGN_UP (vstart + total * 8) (Z.shiftl 1 MAX_ORD)));;
  s ← get;
  init_free (Z.to_nat (Z.shiftr len MAX_ORD + 1)) (start_heap s);;
  modify (set_initialized true).

(** [kmem] before [buddy_init]: zeroed by the loader. *)
Definition kmem0 : kmem :=
  mkkmem false 0 0 0 false (replicate (Z.to_nat N_ORD) (mkorder 0 0)) ∅.

(** ** What the marks represent

    With [n] marks at the top order, order [o] has [nmarks n o] marks from
    index [off n o]; [view s n o x] is mark [x] of order [o]. *)

Definition nmarks (n o : Z) : Z := n * 2 ^ (MAX_ORD - o).
Definition off (n o : Z) : Z := n * (2 ^ (MAX_ORD - o) - 1).
Definition valid_order (o : Z) : Prop := MIN_ORD <= o <= MAX_ORD.

(** Order [o] has few enough marks for 16-bit links. *)
Definition linkable (n o : Z) : Prop := 128 * n < 2 ^ 32 /\ nmarks n o <= NIL.

Definition view (s : kmem) (n o x : Z) : option mark := marks s !! (off n o + x).

Definition mark_links (s : kmem) (n o : Z) : links :=
  fun x => (fun m => (PRE_LNK (lnks m), NEXT_LNK (lnks m))) <$> view s n o x.

(** Order [o] is well formed and its list is [L]: the list threads exactly the
    marks with a free block. *)
Record order_ok (s : kmem) (n o : Z) (L : list Z) : Prop := {
  ok_head : zlookup (orders s) (o - MIN_ORD) = Some (mkorder (hd NIL L) (off n o));
  ok_marks : forall x, 0 <= x < nmarks n o -> exists m, view s n o x = Some m /\
      0 <= bitmap m < 2 ^ 32 /\ 0 <= lnks m < 2 ^ 32 /\ (x ∈ L <-> bitmap m <> 0);
  ok_range : forall x, x ∈ L -> 0 <= x < nmarks n o;
  ok_nodup : NoDup L;
  ok_chain : chain (mark_links s n o) NIL L NIL
}.

Definition bit_of (s : kmem) (n o b : Z) : Prop :=
  exists m, view s n o (b / 32) = Some m /\ Z.testbit (bitmap m) (b mod 32) = true.

Definition valid_blk (n o b : Z) : Prop :=
  valid_order o /\ linkable n o /\ 0 <= b < 32 * nmarks n o.

(** [repr s n F]: the state [s] is well formed and its free blocks, as pairs of
    an order and a block number, are [F].  Only orders whose marks 16 bits can
    number have free blocks. *)
Record repr (s : kmem) (n : Z) (F : gset (Z * Z)) : Prop := {
  r_n : 1 <= n;
  r_orders : forall o, valid_order o -> exists L, order_ok s n o L /\ (L = [] \/ linkable n o);
  r_bits : forall o b, (o, b) ∈ F <-> valid_blk n o b /\ bit_of s n o b
}.

Definition same_static (s s' : kmem) : Prop :=
  lock s' = lock s /\ start s' = start s /\ start_heap s' = start_heap s /\
  kend s' = kend s /\ initialized s' = initialized s.

(** ** Lemmas on words *)

Lemma LNKS_val p q : 0 <= p < 65536 -> 0 <= q < 65536 -> LNKS p q = p * 65536 + q.
Proof.
  intros Hp Hq. unfold LNKS. rewrite land_65535, (Z.mod_small q) by done.
  rewrite (lor_shiftl_add p q 16) by lia. apply u32_small. lia.
Qed.

Lemma PRE_LNKS p q : 0 <= p < 65536 -> 0 <= q < 65536 -> PRE_LNK (LNKS p q) = p.
Proof.
  intros Hp Hq. unfold PRE_LNK. rewrite LNKS_val by done.
  rewrite Z.shiftr_div_pow2 by lia. change (2 ^ 16) with 65536.
  rewrite Z.div_add_l by lia. rewrite Z.div_small; lia.
Qed.

Lemma NEXT_LNKS p q : 0 <= p < 65536 -> 0 <= q < 65536 -> NEXT_LNK (LNKS p q) = q.
Proof.
  intros Hp Hq. unfold NEXT_LNK. rewrite land_65535, LNKS_val by done.
  rewrite Z.add_comm, Z.mod_add by lia. apply Z.mod_small. lia.
Qed.

Lemma LNKS_range p q : 0 <= LNKS p q < 2 ^ 32.
Proof. apply u32_range. Qed.

Lemma PRE_range l : 0 <= l < 2 ^ 32 -> 0 <= PRE_LNK l < 65536.
Proof.
  intros H. unfold PRE_LNK. rewrite Z.shiftr_div_pow2 by lia. change (2 ^ 16) with 65536.
  split; [apply Z.div_pos; lia|]. apply Z.div_lt_upper_bound; lia.
Qed.

Lemma NEXT_range l : 0 <= NEXT_LNK l < 65536.
Proof. unfold NEXT_LNK. rewrite land_65535. apply Z.mod_pos_bound. lia. Qed.

Lemma available_spec bm b : available bm b = Z.testbit bm (b mod 32).
Proof.
  unfold available. rewrite land_31, land_bit32 by (apply Z.mod_pos_bound; lia).
  by rewrite negb_involutive.
Qed.

(** ** The layout of the marks *)

Lemma pow_order o : valid_order o -> exists k, 2 ^ (MAX_ORD - o) = k /\ 1 <= k <= 64.
Proof.
  intros Ho. unfold valid_order, MIN_ORD, MAX_ORD in *.
  assert (o = 6 \/ o = 7 \/ o = 8 \/ o = 9 \/ o = 10 \/ o = 11 \/ o = 12) as Hc by lia.
  destruct Hc as [->|[->|[->|[->|[->|[->| ->]]]]]]; eexists; (split; [reflexivity|]); simpl; lia.
Qed.

Lemma nmarks_bound n o : 1 <= n -> linkable n o -> valid_order o -> 1 <= nmarks n o <= NIL.
Proof.
  intros Hn [_ Hn'] Ho. split; [|done]. destruct (pow_order o Ho) as (k & E & Hk).
  unfold nmarks. rewrite E. nia.
Qed.

Lemma off_bound n o x :
  1 <= n -> linkable n o -> valid_order o -> 0 <= x < nmarks n o ->
  0 <= off n o + x < 2 ^ 32.
Proof.
  intros Hn [Hn' _] Ho. destruct (pow_order o Ho) as (k & E & Hk).
  unfold nmarks, off, NIL in *. rewrite E. nia.
Qed.

(** Marks of different orders do not overlap. *)
Lemma off_inj n o o' x x' :
  1 <= n -> valid_order o -> valid_order o' ->
  0 <= x < nmarks n o -> 0 <= x' < nmarks n o' ->
  off n o + x = off n o' + x' -> o = o' /\ x = x'.
Proof.
  intros Hn Ho Ho' Hx Hx' Heq.
  assert (Hlt : forall a b y z, valid_order a -> valid_order b -> a < b ->
      0 <= y -> 0 <= z < nmarks n b -> off n b + z < off n a + y).
  { intros a b y z Ha Hb Hab Hy Hz. unfold off, nmarks, valid_order, MIN_ORD, MAX_ORD in *.
    assert (2 ^ (12 - a) = 2 ^ (12 - b) * 2 ^ (b - a)) as ->
      by (rewrite <- Z.pow_add_r by lia; f_equal; lia).
    assert (2 <= 2 ^ (b - a)).
    { change 2 with (2 ^ 1) at 1. apply Z.pow_le_mono_r; lia. }
    nia. }
  destruct (Z.lt_trichotomy o o') as [Hc|[->|Hc]]; [|lia|].
  - pose proof (Hlt o o' x x' Ho Ho' Hc ltac:(lia) Hx'). lia.
  - pose proof (Hlt o' o x' x Ho' Ho Hc ltac:(lia) Hx). lia.
Qed.

(** ** Elementary steps on a well-formed order *)

Definition marks_wf (s : kmem) (n o : Z) : Prop :=
  forall x, 0 <= x < nmarks n o -> exists m, view s n o x = Some m /\
    0 <= bitmap m < 2 ^ 32 /\ 0 <= lnks m < 2 ^ 32.

Definition upd_mark (s : kmem) (n o x : Z) (m : mark) : kmem :=
  set_marks (<[off n o + x := m]> (marks s)) s.

Lemma view_upd_eq s n o x m : view (upd_mark s n o x m) n o x = Some m.
Proof. apply lookup_insert_eq. Qed.

Lemma view_upd_ne s n o x m y : x <> y -> view (upd_mark s n o x m) n o y = view s n o y.
Proof. intros H. apply lookup_insert_ne. lia. Qed.

Lemma view_upd_other s n o x m o' y :
  1 <= n -> valid_order o -> valid_order o' -> 0 <= x < nmarks n o -> 0 <= y < nmarks n o' ->
  o <> o' -> view (upd_mark s n o x m) n o' y = view s n o' y.
Proof.
  intros Hn Ho Ho' Hx Hy Hne. apply lookup_insert_ne. intros Heq.
  by apply off_inj in Heq as [? ?].
Qed.

(** [s'] differs from [s] in the links of order [o] only: they are [lk'], and
    the head of the list is [h']. *)
Record relink (s s' : kmem) (n o : Z) (lk' : links) (h' : Z) : Prop := {
  rl_static : same_static s s';
  rl_other : forall o', valid_order o' -> o' <> o ->
      zlookup (orders s') (o' - MIN_ORD) = zlookup (orders s) (o' - MIN_ORD) /\
      forall x, 0 <= x < nmarks n o' -> view s' n o' x = view s n o' x;
  rl_head : zlookup (orders s') (o - MIN_ORD) = Some (mkorder h' (off n o));
  rl_marks : forall x, 0 <= x < nmarks n o ->
      exists m m', view s n o x = Some m /\ view s' n o x = Some m' /\
        bitmap m' = bitmap m /\ 0 <= lnks m' < 2 ^ 32 /\ mark_links s' n o x = lk' x
}.

Lemma relink_refl s n o h :
  marks_wf s n o -> zlookup (orders s) (o - MIN_ORD) = Some (mkorder h (off n o)) ->
  relink s s n o (mark_links s n o) h.
Proof.
  intros Hwf Hh. split; [done| |done|].
  - auto.
  - intros x Hx. destruct (Hwf x Hx) as (m & Hm & _ & Hl). eauto 10.
Qed.

Lemma relink_wf s s' n o lk' h' : marks_wf s n o -> relink s s' n o lk' h' -> marks_wf s' n o.
Proof.
  intros Hwf Hr x Hx. destruct (Hwf x Hx) as (m0 & Hm0 & Hb & _).
  destruct (rl_marks _ _ _ _ _ _ Hr x Hx) as (m & m' & Hm & Hm' & Hbm & Hl & _).
  rewrite Hm in Hm0. simplify_eq. exists m'. rewrite Hbm. auto.
Qed.

Lemma relink_trans s s' s'' n o lk' h' lk'' h'' :
  relink s s' n o lk' h' -> relink s' s'' n o lk'' h'' -> relink s s'' n o lk'' h''.
Proof.
  intros H1 H2. split.
  - pose proof (rl_static _ _ _ _ _ _ H1). pose proof (rl_static _ _ _ _ _ _ H2).
    unfold same_static in *. intuition congruence.
  - intros o' Ho' Hne. destruct (rl_other _ _ _ _ _ _ H1 o' Ho' Hne) as [? Ha].
    destruct (rl_other _ _ _ _ _ _ H2 o' Ho' Hne) as [? Hb]. split; [congruence|].
    intros x Hx. rewrite Hb, Ha; done.
  - apply H2.
  - intros x Hx. destruct (rl_marks _ _ _ _ _ _ H1 x Hx) as (m & m' & Hm & Hm' & Hb1 & _ & _).
    destruct (rl_marks _ _ _ _ _ _ H2 x Hx) as (m1 & m'' & Hm1 & Hm'' & Hb2 & Hl & Hlk).
    exists m, m''. rewrite Hm' in Hm1. simplify_eq. repeat split; try done; try lia; congruence.
Qed.

Lemma relink_ext s s' n o lk lk' h :
  (forall x, 0 <= x < nmarks n o -> lk x = lk' x) ->
  relink s s' n o lk h -> relink s s' n o lk' h.
Proof.
  intros He H. split; try apply H.
  intros x Hx. destruct (rl_marks _ _ _ _ _ _ H x Hx) as (m & m' & ? & ? & ? & ? & Hlk).
  exists m, m'. rewrite <- He by done. auto.
Qed.

Section Steps.
Context (s : kmem) (n o h : Z).
Context (Hn : 1 <= n) (Hn' : linkable n o) (Ho : valid_order o).
Context (Hwf : marks_wf s n o).
Context (Hh : zlookup (orders s) (o - MIN_ORD) = Some (mkorder h (off n o))).

Lemma run_get_order : get_order_at (o - MIN_ORD) s = Ok (mkorder h (off n o), s).
Proof. unfold get_order_at. rewrite run_get, Hh. done. Qed.

Lemma run_get_mark x : 0 <= x < nmarks n o -> get_mark o x s = Ok (off n o + x, s).
Proof.
  intros Hx. unfold get_mark. rewrite (run_bind _ _ _ _ _ run_get_order). simpl.
  rewrite u32_small by (by apply off_bound). done.
Qed.

Lemma run_load_mark x m : view s n o x = Some m -> load_mark (off n o + x) s = Ok (m, s).
Proof. intros Hm. unfold load_mark. rewrite run_get. unfold view in Hm. by rewrite Hm. Qed.

Lemma run_store_mark x m : store_mark (off n o + x) m s = Ok (tt, upd_mark s n o x m).
Proof. done. Qed.

(** Rewriting the link word of one mark. *)
Lemma upd_relink x m l :
  0 <= x < nmarks n o -> view s n o x = Some m -> 0 <= l < 2 ^ 32 ->
  relink s (upd_mark s n o x (mkmark l (bitmap m))) n o
    (fun y => if decide (y = x) then Some (PRE_LNK l, NEXT_LNK l) else mark_links s n o y) h.
Proof.
  intros Hx Hm Hl. split; [done| |done|].
  - intros o' Ho' Hne. split; [done|]. intros y Hy. by apply view_upd_other.
  - intros y Hy. destruct (Hwf y Hy) as (m0 & Hm0 & Hb & Hl0).
    unfold mark_links. case_decide as Hc.
    + subst y. exists m, (mkmark l (bitmap m)). rewrite view_upd_eq. auto 10.
    + rewrite !view_upd_ne by done. exists m0, m0. auto 10.
Qed.

Lemma set_next_step y b :
  0 <= y < nmarks n o -> 0 <= b < 65536 ->
  exists s', (p ← get_mark o y; set_next p b) s = Ok (tt, s') /\
    relink s s' n o (upd_next y b (mark_links s n o)) h.
Proof.
  intros Hy Hb. destruct (Hwf y Hy) as (m & Hm & _ & Hl).
  run run_get_mark. unfold set_next. run run_load_mark. rewrite run_store_mark.
  eexists. split; [done|]. eapply relink_ext; [|apply upd_relink; auto using LNKS_range].
  intros x Hx. unfold upd_next, mark_links. case_decide as Hc; [|done]. subst x.
  rewrite Hm. simpl. pose proof (PRE_range _ Hl).
  by rewrite PRE_LNKS, NEXT_LNKS by lia.
Qed.

Lemma set_pre_step y a :
  0 <= y < nmarks n o -> 0 <= a < 65536 ->
  exists s', (p ← get_mark o y; set_pre p a) s = Ok (tt, s') /\
    relink s s' n o (upd_prev y a (mark_links s n o)) h.
Proof.
  intros Hy Ha. destruct (Hwf y Hy) as (m & Hm & _ & Hl).
  run run_get_mark. unfold set_pre. run run_load_mark. rewrite run_store_mark.
  eexists. split; [done|]. eapply relink_ext; [|apply upd_relink; auto using LNKS_range].
  intros x Hx. unfold upd_prev, mark_links. case_decide as Hc; [|done]. subst x.
  rewrite Hm. simpl. pose proof (NEXT_range (lnks m)).
  by rewrite PRE_LNKS, NEXT_LNKS by lia.
Qed.

Lemma set_lnks_step x a b :
  0 <= x < nmarks n o -> 0 <= a < 65536 -> 0 <= b < 65536 ->
  exists s', set_lnks (off n o + x) (LNKS a b) s = Ok (tt, s') /\
    relink s s' n o (fun y => if decide (y = x) then Some (a, b) else mark_links s n o y) h.
Proof.
  intros Hx Ha Hb. destruct (Hwf x Hx) as (m & Hm & _ & Hl).
  unfold set_lnks. run run_load_mark. rewrite run_store_mark.
  eexists. split; [done|]. eapply relink_ext; [|apply upd_relink; auto using LNKS_range].
  intros y Hy. simpl. destruct (decide (y = x)); [|done]. by rewrite PRE_LNKS, NEXT_LNKS by lia.
Qed.

Lemma set_head_step h' :
  exists s', set_head o h' s = Ok (tt, s') /\ relink s s' n o (mark_links s n o) h'.
Proof.
  pose proof (zlookup_lt _ _ _ Hh) as Hlt.
  unfold set_head. rewrite (run_bind _ _ _ _ _ run_get_order). unfold set_order_at.
  rewrite run_get, Hh. eexists. split; [done|]. split; [done| | |].
  - intros o' Ho' Hne. simpl. split; [|done]. apply zlookup_zinsert_ne. lia.
  - simpl. by apply zlookup_zinsert_eq.
  - intros x Hx. destruct (Hwf x Hx) as (m & Hm & _ & Hl). exists m, m. done.
Qed.

End Steps.

(** ** Linking and unlinking a mark *)

Lemma upd_next_pt lk lk' y b x : lk x = lk' x -> upd_next y b lk x = upd_next y b lk' x.
Proof. intros H. unfold upd_next. by rewrite H. Qed.

Lemma upd_prev_pt lk lk' y b x : lk x = lk' x -> upd_prev y b lk x = upd_prev y b lk' x.
Proof. intros H. unfold upd_prev. by rewrite H. Qed.

Section Linking.
Context (n o : Z).
Context (Hn : 1 <= n) (Hn' : linkable n o) (Ho : valid_order o).

Lemma idx_small x : 0 <= x < nmarks n o -> 0 <= x < NIL /\ u32 x = x.
Proof.
  intros Hx. pose proof (nmarks_bound n o Hn Hn' Ho). unfold NIL in *.
  split; [lia|]. apply u32_small. lia.
Qed.

Lemma hd_range L : (forall x, x ∈ L -> 0 <= x < nmarks n o) -> 0 <= hd NIL L < 65536.
Proof.
  intros HL. destruct L as [|x L]; [done|]. simpl.
  destruct (idx_small x) as [? _]; [apply HL; by left|]. unfold NIL in *. lia.
Qed.

Lemma lastd_range L : (forall x, x ∈ L -> 0 <= x < nmarks n o) -> 0 <= lastd NIL L < 65536.
Proof.
  intros HL. destruct L as [|x L]; [done|].
  destruct (idx_small (lastd NIL (x :: L))) as [? _]; [apply HL; by apply lastd_in|].
  unfold NIL in *. lia.
Qed.

Lemma unlink_mark_step s x m L1 L2 :
  marks_wf s n o ->
  zlookup (orders s) (o - MIN_ORD) = Some (mkorder (hd NIL (L1 ++ x :: L2)) (off n o)) ->
  view s n o x = Some m ->
  (forall y, y ∈ L1 ++ x :: L2 -> 0 <= y < nmarks n o) ->
  NoDup (L1 ++ x :: L2) -> chain (mark_links s n o) NIL (L1 ++ x :: L2) NIL ->
  exists s' lk', unlink_mark o (off n o + x) x (lnks m) s = Ok (tt, s') /\
    relink s s' n o lk' (hd NIL (L1 ++ L2)) /\ chain lk' NIL (L1 ++ L2) NIL.
Proof.
  intros Hwf Hh Hm Hr Hnd Hc.
  assert (Hx : 0 <= x < nmarks n o) by (apply Hr; set_solver).
  assert (Hr1 : forall y, y ∈ L1 -> 0 <= y < nmarks n o) by set_solver.
  assert (Hr2 : forall y, y ∈ L2 -> 0 <= y < nmarks n o) by set_solver.
  pose proof (chain_unlink _ _ _ _ _ _ Hnd Hc) as Hu.
  apply chain_at in Hc as (_ & Hlx & _). unfold mark_links in Hlx. rewrite Hm in Hlx.
  simpl in Hlx. injection Hlx as Hpre Hnext.
  unfold unlink_mark. rewrite Hpre, Hnext.
  (* the previous mark, or the head *)
  assert (exists s1, (if negb (lastd NIL L1 =? NIL) then p ← get_mark o (lastd NIL L1); set_next p (hd NIL L2)
     else ord ← get_order_at (o - MIN_ORD);
          if head ord =? u32 x then set_head o (hd NIL L2) else mret tt) s = Ok (tt, s1) /\
     relink s s1 n o (unlink_next L1 (hd NIL L2) (mark_links s n o)) (hd NIL (L1 ++ L2)))
    as (s1 & Hrun1 & Hs1).
  { destruct L1 as [|y L1].
    - simpl. rewrite (run_bind _ _ _ _ _ (run_get_order s n o _ Hh)). simpl.
      destruct (idx_small x Hx) as [_ ->]. rewrite Z.eqb_refl.
      by apply (set_head_step s n o x).
    - assert (Hl : 0 <= lastd NIL (y :: L1) < nmarks n o) by (apply Hr1; by apply lastd_in).
      destruct (idx_small _ Hl) as [? _]. rewrite (proj2 (Z.eqb_neq _ _)) by lia.
      apply (set_next_step s n o _ Hn Hn' Ho Hwf Hh); [done|by apply hd_range]. }
  rewrite (run_bind _ _ _ _ _ Hrun1).
  pose proof (relink_wf _ _ _ _ _ _ Hwf Hs1) as Hwf1.
  (* the next mark *)
  assert (exists s2, (if negb (hd NIL L2 =? NIL) then p ← get_mark o (hd NIL L2); set_pre p (lastd NIL L1)
     else mret tt) s1 = Ok (tt, s2) /\
     relink s s2 n o (unlink_prev L2 (lastd NIL L1) (unlink_next L1 (hd NIL L2) (mark_links s n o)))
       (hd NIL (L1 ++ L2))) as (s2 & Hrun2 & Hs2).
  { destruct L2 as [|z L2]; [simpl; eauto|].
    assert (Hz : 0 <= z < nmarks n o) by (apply Hr2; by left).
    destruct (idx_small z Hz) as [? _]. simpl. rewrite (proj2 (Z.eqb_neq _ _)) by lia.
    destruct (set_pre_step s1 n o _ Hn Hn' Ho Hwf1 (rl_head _ _ _ _ _ _ Hs1) z (lastd NIL L1))
      as (s2 & Hrun & Hrl); [done|by apply lastd_range|].
    exists s2. split; [done|]. eapply relink_trans; [exact Hs1|].
    eapply relink_ext; [|exact Hrl]. intros y Hy. apply upd_prev_pt.
    destruct (rl_marks _ _ _ _ _ _ Hs1 y Hy) as (? & ? & ? & ? & ? & ? & Hlk). exact Hlk. }
  rewrite (run_bind _ _ _ _ _ Hrun2).
  pose proof (relink_wf _ _ _ _ _ _ Hwf Hs2) as Hwf2.
  destruct (set_lnks_step s2 n o _ Hn Ho Hwf2 (rl_head _ _ _ _ _ _ Hs2) x NIL NIL Hx)
    as (s3 & Hrun3 & Hs3); [done..|].
  exists s3. eexists. split; [exact Hrun3|]. split; [by eapply relink_trans|].
  eapply chain_ext; [|exact Hu]. intros y Hy. simpl.
  assert (y <> x).
  { intros ->. apply NoDup_app in Hnd as (_ & Hdis & Hnd2). apply NoDup_cons in Hnd2.
    specialize (Hdis x). set_solver. }
  rewrite decide_False by done.
  destruct (rl_marks _ _ _ _ _ _ Hs2 y) as (? & ? & ? & ? & ? & ? & Hlk); [set_solver|]. exact Hlk.
Qed.

Lemma link_mark_step s x L :
  marks_wf s n o ->
  zlookup (orders s) (o - MIN_ORD) = Some (mkorder (hd NIL L) (off n o)) ->
  0 <= x < nmarks n o -> (forall y, y ∈ L -> 0 <= y < nmarks n o) ->
  NoDup (x :: L) -> chain (mark_links s n o) NIL L NIL ->
  exists s' lk', link_mark o (off n o + x) x s = Ok (tt, s') /\
    relink s s' n o lk' x /\ chain lk' NIL (x :: L) NIL.
Proof.
  intros Hwf Hh Hx Hr Hnd Hc. apply NoDup_cons in Hnd as [Hxn Hnd].
  unfold link_mark. rewrite (run_bind _ _ _ _ _ (run_get_order s n o _ Hh)). cbn [head].
  destruct (set_lnks_step s n o _ Hn Ho Hwf Hh x NIL (hd NIL L) Hx) as (s1 & Hrun1 & Hs1);
    [done|by apply hd_range|].
  rewrite (run_bind _ _ _ _ _ Hrun1).
  pose proof (relink_wf _ _ _ _ _ _ Hwf Hs1) as Hwf1.
  set (lk1 := fun y => if decide (y = x) then Some (NIL, hd NIL L) else mark_links s n o y) in *.
  assert (exists s2, (if negb (hd NIL L =? NIL) then p ← get_mark o (hd NIL L); set_pre p x
     else mret tt) s1 = Ok (tt, s2) /\ relink s s2 n o (unlink_prev L x lk1) (hd NIL L))
    as (s2 & Hrun2 & Hs2).
  { destruct L as [|z L]; [simpl; eauto|].
    assert (Hz : 0 <= z < nmarks n o) by (apply Hr; by left).
    destruct (idx_small z Hz) as [? _]. simpl. rewrite (proj2 (Z.eqb_neq _ _)) by lia.
    destruct (idx_small x Hx) as [? _].
    destruct (set_pre_step s1 n o _ Hn Hn' Ho Hwf1 (rl_head _ _ _ _ _ _ Hs1) z x)
      as (s2 & Hrun & Hrl); [done|unfold NIL in *; lia|].
    exists s2. split; [done|]. eapply relink_trans; [exact Hs1|].
    eapply relink_ext; [|exact Hrl]. intros y Hy. apply upd_prev_pt.
    destruct (rl_marks _ _ _ _ _ _ Hs1 y Hy) as (? & ? & ? & ? & ? & ? & Hlk). exact Hlk. }
  rewrite (run_bind _ _ _ _ _ Hrun2).
  pose proof (relink_wf _ _ _ _ _ _ Hwf Hs2) as Hwf2.
  destruct (idx_small x Hx) as [_ ->].
  destruct (set_head_step s2 n o _ Hwf2 (rl_head _ _ _ _ _ _ Hs2) x) as (s3 & Hrun3 & Hs3).
  exists s3, (unlink_prev L x lk1). split; [exact Hrun3|]. split.
  - eapply relink_trans; [exact Hs2|]. eapply relink_ext; [|exact Hs3].
    intros y Hy. destruct (rl_marks _ _ _ _ _ _ Hs2 y Hy) as (? & ? & ? & ? & ? & ? & Hlk). exact Hlk.
  - assert (Hlk1 : forall y, y ∈ L -> lk1 y = mark_links s n o y).
    { intros y Hy. unfold lk1. rewrite decide_False; [done|]. by intros ->. }
    assert (Hlkx : unlink_prev L x lk1 x = Some (NIL, hd NIL L)).
    { unfold lk1, unlink_prev. destruct L as [|z L]; [by rewrite decide_True|].
      rewrite upd_prev_ne by set_solver. by rewrite decide_True. }
    split; [exact Hlkx|]. destruct L as [|z L]; [done|]. simpl unlink_prev.
    apply (chain_upd_prev _ NIL); [by apply NoDup_cons in Hnd as [? _]|].
    by eapply chain_ext.
Qed.

End Linking.

(** ** The marks refine a set of free blocks *)

Lemma order_ok_wf s n o L : order_ok s n o L -> marks_wf s n o.
Proof. intros H x Hx. destruct (ok_marks _ _ _ _ H x Hx) as (m & ? & ? & ? & _). eauto. Qed.

Lemma order_ok_frame s s' n o L :
  zlookup (orders s') (o - MIN_ORD) = zlookup (orders s) (o - MIN_ORD) ->
  (forall x, 0 <= x < nmarks n o -> view s' n o x = view s n o x) ->
  order_ok s n o L -> order_ok s' n o L.
Proof.
  intros Ho Hv [Hh Hm Hr Hnd Hc]. split; auto.
  - congruence.
  - intros x Hx. rewrite Hv by done. auto.
  - eapply chain_ext; [|exact Hc]. intros x Hx. unfold mark_links. rewrite Hv; auto.
Qed.

Lemma blk_idx n o b : 0 <= b < 32 * nmarks n o -> 0 <= b / 32 < nmarks n o.
Proof. intros H. split; [apply Z.div_pos; lia|]. apply Z.div_lt_upper_bound; lia. Qed.

(** Changing the bitmap of one mark of order [o]. *)
Lemma repr_change s s' n o F F' x bm' L' :
  repr s n F -> valid_order o -> linkable n o ->
  (forall o', valid_order o' -> o' <> o ->
     zlookup (orders s') (o' - MIN_ORD) = zlookup (orders s) (o' - MIN_ORD) /\
     forall y, 0 <= y < nmarks n o' -> view s' n o' y = view s n o' y) ->
  order_ok s' n o L' ->
  (forall y, 0 <= y < nmarks n o -> exists m m', view s n o y = Some m /\
     view s' n o y = Some m' /\ bitmap m' = if decide (y = x) then bm' else bitmap m) ->
  (forall o' b', (o', b') ∈ F' <-> valid_blk n o' b' /\
     if decide (o' = o /\ b' / 32 = x) then Z.testbit bm' (b' mod 32) = true else (o', b') ∈ F) ->
  repr s' n F'.
Proof.
  intros [Hn Hos Hb] Ho Hlk Hother Hok Hm HF'. split; [done| |].
  - intros o' Ho'. destruct (decide (o' = o)) as [->|Hne]; [eauto|].
    destruct (Hother o' Ho' Hne) as [? ?]. destruct (Hos o' Ho') as (L & HL & HL').
    exists L. split; [by eapply order_ok_frame|done].
  - intros o' b'. rewrite HF'. apply and_iff_l. intros Hv.
    destruct Hv as (Ho' & Hlk' & Hb'). pose proof (blk_idx _ _ _ Hb') as Hx.
    unfold bit_of. case_decide as Hd.
    + destruct Hd as [-> <-]. destruct (Hm _ Hx) as (m & m' & _ & -> & Hbm).
      rewrite decide_True in Hbm by done. rewrite <- Hbm.
      split; [eauto|]. by intros (m0 & [= <-] & ?).
    + rewrite Hb. unfold bit_of. destruct (decide (o' = o)) as [->|Hne].
      * destruct (Hm _ Hx) as (m & m' & -> & -> & Hbm). rewrite decide_False in Hbm by tauto.
        split; [intros [_ (m0 & [= <-] & ?)]; exists m'; by rewrite Hbm|].
        intros (m0 & [= <-] & ?). split; [done|]. exists m. by rewrite <- Hbm.
      * destruct (Hother o' Ho' Hne) as [_ Hv]. rewrite Hv by done.
        split; [tauto|]. by intros.
Qed.

Section StoreBitmap.
Context (s : kmem) (n o x : Z) (m : mark) (bm' : Z).
Context (Hn : 1 <= n) (Ho : valid_order o) (Hwf : marks_wf s n o).
Context (Hx : 0 <= x < nmarks n o) (Hm : view s n o x = Some m) (Hbm : 0 <= bm' < 2 ^ 32).
Let s1 := upd_mark s n o x (mkmark (lnks m) bm').

Lemma store_wf : marks_wf s1 n o.
Proof.
  intros y Hy. unfold s1. destruct (decide (y = x)) as [->|Hne].
  - rewrite view_upd_eq. destruct (Hwf x Hx) as (m0 & Hm0 & _ & Hl). simplify_eq. eauto.
  - rewrite view_upd_ne by done. auto.
Qed.

Lemma store_links y : mark_links s1 n o y = mark_links s n o y.
Proof.
  unfold mark_links, s1. destruct (decide (y = x)) as [->|Hne].
  - by rewrite view_upd_eq, Hm.
  - by rewrite view_upd_ne by done.
Qed.

Lemma store_bitmaps y :
  0 <= y < nmarks n o -> exists m0 m1, view s n o y = Some m0 /\
    view s1 n o y = Some m1 /\ bitmap m1 = if decide (y = x) then bm' else bitmap m0.
Proof.
  intros Hy. destruct (Hwf y Hy) as (m0 & Hm0 & _). exists m0. unfold s1.
  destruct (decide (y = x)) as [->|Hne].
  - rewrite view_upd_eq. eauto.
  - rewrite view_upd_ne by done. eauto.
Qed.

Lemma store_other o' : valid_order o' -> o' <> o ->
  zlookup (orders s1) (o' - MIN_ORD) = zlookup (orders s) (o' - MIN_ORD) /\
  forall y, 0 <= y < nmarks n o' -> view s1 n o' y = view s n o' y.
Proof. intros Ho' Hne. split; [done|]. intros y Hy. by apply view_upd_other. Qed.

End StoreBitmap.

(** The mark of a block, ready to be read. *)
Lemma repr_mark s n F o b :
  repr s n F -> valid_blk n o b ->
  exists L m h, order_ok s n o L /\ view s n o (b / 32) = Some m /\ 0 <= bitmap m < 2 ^ 32 /\
    zlookup (orders s) (o - MIN_ORD) = Some (mkorder h (off n o)) /\
    get_mark o (Z.shiftr b 5) s = Ok (off n o + b / 32, s) /\
    load_mark (off n o + b / 32) s = Ok (m, s) /\
    ((o, b) ∈ F <-> Z.testbit (bitmap m) (b mod 32) = true).
Proof.
  intros [Hn Hos Hb] (Ho & Hn' & Hbr). destruct (Hos o Ho) as (L & HL & _).
  pose proof (blk_idx _ _ _ Hbr) as Hx.
  destruct (ok_marks _ _ _ _ HL _ Hx) as (m & Hm & Hbm & _).
  exists L, m, (hd NIL L). split; [done|]. split; [done|]. split; [done|]. split; [apply HL|].
  split; [|split].
  - rewrite shiftr_5. apply (run_get_mark s n o (hd NIL L)); auto. apply HL.
  - by apply run_load_mark.
  - rewrite Hb. unfold bit_of. rewrite Hm. split; [by intros [_ (m0 & [= <-] & ?)]|].
    intros Ht. split; [by split|eauto].
Qed.

Lemma same_blk b b' : b' / 32 = b / 32 -> (b' mod 32 = b mod 32 <-> b' = b).
Proof.
  intros Hd. split; [|by intros ->]. intros Hm.
  rewrite (Z.div_mod b' 32), (Z.div_mod b 32) by lia. lia.
Qed.

(** The set of free blocks after bit [b mod 32] of its mark becomes [v]. *)
Lemma free_set_change (s : kmem) (n : Z) (F F' : gset (Z * Z)) o b m bm' (v : bool) :
  repr s n F -> valid_blk n o b -> view s n o (b / 32) = Some m ->
  (forall j, 0 <= j < 32 ->
     Z.testbit bm' j = if j =? b mod 32 then v else Z.testbit (bitmap m) j) ->
  (forall p, p ∈ F' <-> if decide (p = (o, b)) then v = true else p ∈ F) ->
  forall o' b', (o', b') ∈ F' <-> valid_blk n o' b' /\
    if decide (o' = o /\ b' / 32 = b / 32) then Z.testbit bm' (b' mod 32) = true
    else (o', b') ∈ F.
Proof.
  intros [_ _ Hbits] Hv Hm Hbm HF' o' b'. rewrite HF'.
  case_decide as Hp; case_decide as Hd.
  - simplify_eq. rewrite Hbm by (apply Z.mod_pos_bound; lia). rewrite Z.eqb_refl. tauto.
  - simplify_eq. by destruct Hd.
  - destruct Hd as [-> Hd]. rewrite Hbm by (apply Z.mod_pos_bound; lia).
    destruct (Z.eqb_spec (b' mod 32) (b mod 32)) as [Heq|_].
    { rewrite same_blk in Heq by done. congruence. }
    rewrite Hbits. apply and_iff_l. intros _. unfold bit_of. rewrite Hd, Hm.
    split; [by intros (m0 & [= <-] & ?)|eauto].
  - rewrite Hbits. tauto.
Qed.

(** A new bitmap for mark [x], followed by a relinking that makes [L'] the
    list of order [o], leaves a well-formed state. *)
Lemma relinked_repr (s : kmem) (n : Z) (F F' : gset (Z * Z)) o x m bm' L s' lk' L' :
  repr s n F -> valid_order o -> linkable n o -> order_ok s n o L ->
  0 <= x < nmarks n o -> view s n o x = Some m -> 0 <= bm' < 2 ^ 32 ->
  relink (upd_mark s n o x (mkmark (lnks m) bm')) s' n o lk' (hd NIL L') ->
  chain lk' NIL L' NIL -> NoDup L' ->
  (forall y, y ∈ L' -> 0 <= y < nmarks n o) ->
  (forall y, y ∈ L' <-> if decide (y = x) then bm' <> 0 else y ∈ L) ->
  (forall o' b', (o', b') ∈ F' <-> valid_blk n o' b' /\
     if decide (o' = o /\ b' / 32 = x) then Z.testbit bm' (b' mod 32) = true
     else (o', b') ∈ F) ->
  repr s' n F' /\ same_static s s'.
Proof.
  intros HR Ho Hln HL Hx Hm Hbm' Hrl Hc Hnd Hr HL' HF'. split; [|apply Hrl].
  pose proof (order_ok_wf _ _ _ _ HL) as Hwf.
  pose proof (store_wf s n o x m bm' Hwf Hx Hm Hbm') as Hwf1.
  assert (Hn : 1 <= n) by apply HR.
  assert (Hview : forall y, 0 <= y < nmarks n o -> exists m0 m1, view s n o y = Some m0 /\
    view s' n o y = Some m1 /\ bitmap m1 = if decide (y = x) then bm' else bitmap m0).
  { intros y Hy. destruct (store_bitmaps s n o x m bm' Hwf y Hy) as (m0 & m1 & Hm0 & Hm1 & Hb1).
    destruct (rl_marks _ _ _ _ _ _ Hrl y Hy) as (m1' & m2 & Hm1' & Hm2 & Hb2 & _).
    rewrite Hm1 in Hm1'. simplify_eq. exists m0, m2. by rewrite Hb2. }
  apply (repr_change s s' n o F _ x bm' L'); auto.
  { intros o' Ho' Hne. destruct (store_other s n o x m bm' Hn Ho Hx o' Ho' Hne) as [He Hv1].
    destruct (rl_other _ _ _ _ _ _ Hrl o' Ho' Hne) as [He2 Hv2]. split; [by rewrite He2|].
    intros y Hy. by rewrite Hv2, <- Hv1 by done. }
  split; [apply Hrl| |done|done|].
  - intros y Hy. destruct (Hview y Hy) as (m0 & m1 & Hm0 & Hm1 & Hb1).
    destruct (relink_wf _ _ _ _ _ _ Hwf1 Hrl y Hy) as (m1' & Hm1' & Hb' & Hl').
    exists m1. rewrite Hm1 in Hm1'. simplify_eq. repeat (split; [done|]).
    destruct (ok_marks _ _ _ _ HL y Hy) as (m0' & Hm0' & _ & _ & Hin). simplify_eq.
    rewrite HL', Hb1. by case_decide.
  - eapply chain_ext; [|exact Hc]. intros y Hy.
    destruct (rl_marks _ _ _ _ _ _ Hrl y) as (? & ? & ? & ? & ? & ? & Hlk); auto.
Qed.

(** The list is unchanged when the mark keeps a free block. *)
Lemma stored_repr (s : kmem) (n : Z) (F F' : gset (Z * Z)) o x m bm' L :
  repr s n F -> valid_order o -> linkable n o -> order_ok s n o L ->
  0 <= x < nmarks n o -> view s n o x = Some m -> 0 <= bm' < 2 ^ 32 ->
  bitmap m <> 0 -> bm' <> 0 ->
  (forall o' b', (o', b') ∈ F' <-> valid_blk n o' b' /\
     if decide (o' = o /\ b' / 32 = x) then Z.testbit bm' (b' mod 32) = true
     else (o', b') ∈ F) ->
  let s' := upd_mark s n o x (mkmark (lnks m) bm') in
  repr s' n F' /\ same_static s s'.
Proof.
  intros HR Ho Hln HL Hx Hm Hbm' Hnz Hnz' HF' s'. pose proof (order_ok_wf _ _ _ _ HL) as Hwf.
  eapply (relinked_repr s n F F' o x m bm' L s' _ L); eauto.
  - apply relink_refl; [by apply store_wf|apply HL].
  - eapply chain_ext; [|apply HL]. intros y _. by apply store_links.
  - apply HL.
  - apply HL.
  - intros y. case_decide as Hd; [subst y|done].
    destruct (ok_marks _ _ _ _ HL x Hx) as (m0 & Hm0 & _ & _ & Hin). simplify_eq. tauto.
Qed.

Lemma NoDup_unlink (L1 L2 : list Z) x :
  NoDup (L1 ++ x :: L2) -> NoDup (L1 ++ L2) /\ x ∉ L1 ++ L2.
Proof.
  rewrite <- Permutation_middle, NoDup_cons. tauto.
Qed.

Lemma unmark_blk_spec s n F o b :
  repr s n F -> (o, b) ∈ F ->
  exists s', unmark_blk o b s = Ok (tt, s') /\ repr s' n (F ∖ {[(o, b)]}) /\ same_static s s'.
Proof.
  intros HR HF. pose proof HR as [Hn _ Hbits].
  destruct (proj1 (Hbits o b) HF) as [Hv _]. pose proof Hv as (Ho & Hn' & Hbr).
  destruct (repr_mark s n F o b HR Hv) as (L & m & h & HL & Hm & Hbm & _ & Hgm & Hlm & HFb).
  pose proof (blk_idx _ _ _ Hbr) as Hx. pose proof (Z.mod_pos_bound b 32 ltac:(lia)) as Hj.
  pose proof (proj1 HFb HF) as Ht.
  unfold unmark_blk. rewrite (run_bind _ _ _ _ _ Hgm), (run_bind _ _ _ _ _ Hlm).
  rewrite available_spec, Ht. cbn [negb]. rewrite land_31, shiftr_5. cbv zeta.
  set (bm' := Z.land (bitmap m) (not32 (bit32 (b mod 32)))).
  assert (Hbm' : 0 <= bm' < 2 ^ 32) by (by apply land_u32_range).
  opose proof (free_set_change s n F (F ∖ {[(o, b)]}) o b m bm' false HR Hv Hm _ _) as HF'.
  { intros j Hj'. unfold bm'. rewrite testbit_clear by done.
    destruct (j =? b mod 32); [by rewrite andb_false_r|by rewrite andb_true_r]. }
  { intros p. rewrite elem_of_difference, elem_of_singleton. case_decide; naive_solver. }
  assert (Hnz : bitmap m <> 0) by (intros H0; by rewrite H0, Z.bits_0 in Ht).
  rewrite (run_bind _ _ _ _ _ (run_store_mark s n o (b / 32) _)).
  destruct (Z.eqb_spec bm' 0) as [E0|E0].
  - pose proof (order_ok_wf _ _ _ _ HL) as Hwf.
    assert (b / 32 ∈ L) as (L1 & L2 & ->)%list_elem_of_split.
    { destruct (ok_marks _ _ _ _ HL _ Hx) as (m0 & Hm0 & _ & _ & Hin). simplify_eq. tauto. }
    destruct (unlink_mark_step n o Hn Hn' Ho (upd_mark s n o (b / 32) (mkmark (lnks m) bm'))
      (b / 32) (mkmark (lnks m) bm') L1 L2) as (s' & lk' & Hrun & Hrl & Hc').
    { by apply store_wf. }
    { apply HL. }
    { apply view_upd_eq. }
    { apply HL. }
    { apply HL. }
    { eapply chain_ext; [|apply HL]. intros y _. by apply store_links. }
    exists s'. split; [exact Hrun|].
    destruct (NoDup_unlink L1 L2 (b / 32)) as [Hnd Hxn]; [apply HL|].
    eapply (relinked_repr s n F _ o (b / 32) m bm' _ s' lk' (L1 ++ L2)); eauto.
    { intros y Hy. apply (ok_range _ _ _ _ HL). set_solver. }
    { intros y. case_decide as Hd; [subst y; tauto|]. set_solver. }
  - exists (upd_mark s n o (b / 32) (mkmark (lnks m) bm')). split; [done|].
    eapply stored_repr; eauto.
Qed.

Lemma mark_blk_spec s n F o b :
  repr s n F -> valid_blk n o b -> (o, b) ∉ F ->
  exists s', mark_blk o b s = Ok (tt, s') /\ repr s' n ({[(o, b)]} ∪ F) /\ same_static s s'.
Proof.
  intros HR Hv HF. pose proof HR as [Hn _ _]. pose proof Hv as (Ho & Hn' & Hbr).
  destruct (repr_mark s n F o b HR Hv) as (L & m & h & HL & Hm & Hbm & _ & Hgm & Hlm & HFb).
  pose proof (blk_idx _ _ _ Hbr) as Hx. pose proof (Z.mod_pos_bound b 32 ltac:(lia)) as Hj.
  assert (Ht : Z.testbit (bitmap m) (b mod 32) = false)
    by (apply not_true_is_false; tauto).
  unfold mark_blk. rewrite (run_bind _ _ _ _ _ Hgm), (run_bind _ _ _ _ _ Hlm).
  rewrite available_spec, Ht. cbv zeta. rewrite land_31, shiftr_5.
  set (bm' := Z.lor (bitmap m) (bit32 (b mod 32))).
  assert (Hbm' : 0 <= bm' < 2 ^ 32) by (apply lor_u32_range; [done|apply u32_range]).
  opose proof (free_set_change s n F ({[(o, b)]} ∪ F) o b m bm' true HR Hv Hm _ _) as HF'.
  { intros j Hj'. unfold bm'. rewrite testbit_set by done.
    destruct (j =? b mod 32); [by rewrite orb_true_r|by rewrite orb_false_r]. }
  { intros p. rewrite elem_of_union, elem_of_singleton. case_decide; naive_solver. }
  assert (Hnz : bm' <> 0).
  { intros H0. apply (f_equal (fun z => Z.testbit z (b mod 32))) in H0. unfold bm' in H0.
    rewrite testbit_set, Z.eqb_refl, orb_true_r, Z.bits_0 in H0 by done. done. }
  rewrite (run_bind _ _ _ _ _ (run_store_mark s n o (b / 32) _)).
  destruct (Z.eqb_spec (bitmap m) 0) as [E0|E0].
  - pose proof (order_ok_wf _ _ _ _ HL) as Hwf.
    assert (Hxn : b / 32 ∉ L).
    { destruct (ok_marks _ _ _ _ HL _ Hx) as (m0 & Hm0 & _ & _ & Hin). simplify_eq. tauto. }
    destruct (link_mark_step n o Hn Hn' Ho (upd_mark s n o (b / 32) (mkmark (lnks m) bm'))
      (b / 32) L) as (s' & lk' & Hrun & Hrl & Hc').
    { by apply store_wf. }
    { apply HL. }
    { done. }
    { apply HL. }
    { apply NoDup_cons. split; [done|apply HL]. }
    { eapply chain_ext; [|apply HL]. intros y _. by apply store_links. }
    exists s'. split; [exact Hrun|].
    eapply (relinked_repr s n F _ o (b / 32) m bm' _ s' lk' (b / 32 :: L)); eauto.
    { apply NoDup_cons. split; [done|apply HL]. }
    { intros y [->|Hy]%elem_of_cons; [done|by apply (ok_range _ _ _ _ HL)]. }
    { intros y. rewrite elem_of_cons. case_decide; tauto. }
  - exists (upd_mark s n o (b / 32) (mkmark (lnks m) bm')). split; [done|].
    eapply stored_repr; eauto.
Qed.

End Buddy.
