(* ===== verification/BuddySpec.v ===== *)
(** * What the buddy allocator promises

    The free memory is a set [F] of blocks (order, number) of a heap of [P]
    pages.  [inv] is the allocator's invariant: the marks represent [F], the
    blocks of [F] lie in the heap, are pairwise disjoint, and no two buddies
    are both free.  The operations of [Buddy] are specified by the bytes that
    [F] covers; because free buddies are always merged, those bytes determine
    [F] ([canonical]). *)

From Stdlib Require Import ZArith Lia.
From stdpp Require Import base numbers strings list gmap.
From S2P Require Import Prelude Dll Buddy.

Open Scope Z_scope.

Import Dll Buddy.

Module BuddySpec.

(** Byte [a] (an offset from [start_heap]) lies in block [p]. *)
Definition in_blk (p : Z * Z) (a : Z) : Prop :=
  2 ^ p.1 * p.2 <= a < 2 ^ p.1 * (p.2 + 1).

#[global] Instance in_blk_dec p a : Decision (in_blk p a).
Proof. unfold in_blk. apply _. Defined.

Definition covers (F : gset (Z * Z)) (a : Z) : Prop := exists p, p ∈ F /\ in_blk p a.

Definition page : Z := 2 ^ MAX_ORD.

Definition in_heap (n P : Z) (p : Z * Z) : Prop :=
  (valid_order p.1 /\ linkable n p.1) /\ 0 <= p.2 /\ 2 ^ p.1 * (p.2 + 1) <= page * P.

Record heap_ok (s : kmem) (n P : Z) : Prop := {
  h_pos : 0 < start_heap s;
  h_aligned : start_heap s mod page = 0;
  h_end : start_heap s + page * P <= 2 ^ 32;
  h_pages : 0 <= P <= 32 * n
}.

(** The conditions on the set of free blocks alone. *)
Record blocks_ok (n P : Z) (F : gset (Z * Z)) : Prop := {
  b_heap : forall p, p ∈ F -> in_heap n P p;
  b_disjoint : forall p q a, p ∈ F -> q ∈ F -> in_blk p a -> in_blk q a -> p = q;
  b_merged : forall o b, o < MAX_ORD -> (o, b) ∈ F -> (o, Z.lxor b 1) ∉ F
}.

Record inv (s : kmem) (n P : Z) (F : gset (Z * Z)) : Prop := {
  i_repr : repr s n F;
  i_heap : heap_ok s n P;
  i_blocks : blocks_ok n P F
}.

(** Every byte of block [p] is free. *)
Definition full (F : gset (Z * Z)) (p : Z * Z) : Prop := forall a, in_blk p a -> covers F a.

(** ** Arithmetic of blocks *)

Lemma pow_pos o : valid_order o -> 0 < 2 ^ o.
Proof. intros [Ho _]. unfold MIN_ORD in Ho. lia. Qed.

Lemma in_blk_div o b a : valid_order o -> (in_blk (o, b) a <-> a / 2 ^ o = b).
Proof.
  intros Ho. pose proof (pow_pos o Ho) as Hp. unfold in_blk; simpl.
  pose proof (Z.div_mod a (2 ^ o) ltac:(lia)) as Hd.
  pose proof (Z.mod_pos_bound a (2 ^ o) Hp) as Hm.
  split; intros H; [|subst; nia].
  symmetry. apply (Z.div_unique a (2 ^ o) b (a - 2 ^ o * b)); nia.
Qed.

Lemma in_blk_first o b : valid_order o -> in_blk (o, b) (2 ^ o * b).
Proof. intros Ho. pose proof (pow_pos o Ho). unfold in_blk; simpl. lia. Qed.

Lemma lxor_even c : Z.lxor (2 * c) 1 = 2 * c + 1.
Proof.
  apply Z.bits_inj'. intros j Hj. rewrite Z.lxor_spec.
  destruct (decide (j = 0)) as [->|Hne].
  - by rewrite Z.testbit_odd_0, Z.testbit_even_0.
  - replace j with (Z.succ (j - 1)) by lia.
    rewrite Z.testbit_odd_succ, Z.testbit_even_succ by lia.
    by rewrite (Z.bits_above_log2 1) by (simpl; lia); rewrite xorb_false_r.
Qed.

Lemma lxor_odd c : Z.lxor (2 * c + 1) 1 = 2 * c.
Proof. by rewrite <- lxor_even, Z.lxor_assoc, Z.lxor_nilpotent, Z.lxor_0_r. Qed.

Lemma parity b : exists c, b / 2 = c /\ (b = 2 * c \/ b = 2 * c + 1).
Proof.
  exists (b / 2). split; [done|]. pose proof (Z.div_mod b 2 ltac:(lia)).
  pose proof (Z.mod_pos_bound b 2 ltac:(lia)). lia.
Qed.

Lemma same_parent x b : x / 2 = b / 2 <-> x = b \/ x = Z.lxor b 1.
Proof.
  destruct (parity b) as (c & -> & [->| ->]); rewrite ?lxor_even, ?lxor_odd;
    Z.to_euclidean_division_equations; lia.
Qed.

Lemma lxor_ne b : Z.lxor b 1 <> b.
Proof. destruct (parity b) as (c & _ & [->| ->]); rewrite ?lxor_even, ?lxor_odd; lia. Qed.

(** The parent of a block consists of the block and its buddy. *)
Lemma in_parent o b a :
  valid_order o -> o < MAX_ORD ->
  (in_blk (o + 1, b / 2) a <-> in_blk (o, b) a \/ in_blk (o, Z.lxor b 1) a).
Proof.
  intros Ho Hlt. rewrite !in_blk_div by (unfold valid_order in *; lia).
  rewrite Z.pow_add_r, <- Z.div_div by (unfold valid_order, MIN_ORD in *; lia).
  apply same_parent.
Qed.

Lemma pow_split o : valid_order o -> 2 ^ o * 2 ^ (MAX_ORD - o) = page.
Proof.
  intros [? ?]. unfold page, MIN_ORD in *. rewrite <- Z.pow_add_r by lia. f_equal. lia.
Qed.

Lemma heap_valid_blk s n P o b : heap_ok s n P -> in_heap n P (o, b) -> valid_blk n o b.
Proof.
  intros Hh ([Ho Hlk] & Hb & He). simpl in *. split; [done|]. split; [done|]. split; [done|].
  pose proof (pow_split o Ho) as Hs. pose proof (pow_pos o Ho). unfold nmarks.
  destruct (h_pages _ _ _ Hh). nia.
Qed.

(** An order has half the marks of the order below. *)
Lemma linkable_up n o : valid_order o -> linkable n o -> linkable n (o + 1).
Proof.
  intros [? ?] [Hn Hm]. split; [done|]. unfold nmarks, NIL, MIN_ORD in *.
  assert (Hc : o < MAX_ORD \/ o = MAX_ORD) by lia.
  destruct Hc as [Hc| ->].
  - replace (MAX_ORD - o) with (1 + (MAX_ORD - (o + 1))) in Hm by lia.
    rewrite Z.pow_add_r in Hm by lia.
    assert (0 < 2 ^ (MAX_ORD - (o + 1))) by (apply Z.pow_pos_nonneg; lia). nia.
  - change (2 ^ (MAX_ORD - (MAX_ORD + 1))) with 0. lia.
Qed.

(** Orders above [o] divide the page, so buddies and parents stay in the heap. *)
Lemma parent_in_heap n P o b : in_heap n P (o, b) -> o < MAX_ORD -> in_heap n P (o + 1, b / 2).
Proof.
  intros ([Ho Hlk] & Hb & He) Hlt. simpl in *. unfold in_heap; simpl.
  assert (Ho1 : valid_order (o + 1)) by (unfold valid_order in *; lia).
  split; [split; [done|by apply linkable_up]|]. destruct (parity b) as (c & Hc & Hbc). rewrite Hc.
  split; [lia|]. pose proof (pow_split _ Ho1) as Hs. pose proof (pow_pos _ Ho1).
  rewrite <- Hs in *. set (k := 2 ^ (MAX_ORD - (o + 1))) in *.
  rewrite Z.pow_add_r in * by (unfold valid_order, MIN_ORD in *; lia).
  change (2 ^ 1) with 2 in *. pose proof (pow_pos _ Ho).
  assert (2 ^ o * (b + 1) <= 2 ^ o * (2 * (k * P))) by nia.
  assert (b + 1 <= 2 * (k * P)) by (by apply (Z.mul_le_mono_pos_l _ _ (2 ^ o))).
  assert (c + 1 <= k * P) by lia. nia.
Qed.

Lemma child_in_heap n P o b b' :
  valid_order o -> linkable n o -> in_heap n P (o + 1, b) -> b' / 2 = b -> in_heap n P (o, b').
Proof.
  intros Ho Hlk (Ho1 & Hb & He) Hb'. simpl in *. unfold in_heap; simpl.
  destruct (parity b') as (c & Hc & Hbc). rewrite Hb' in Hc. subst c.
  split; [done|]. split; [lia|]. pose proof (pow_pos _ Ho).
  rewrite Z.pow_add_r in He by (unfold valid_order, MIN_ORD in *; lia).
  change (2 ^ 1) with 2 in *. nia.
Qed.

Lemma buddy_in_heap n P o b : in_heap n P (o, b) -> o < MAX_ORD -> in_heap n P (o, Z.lxor b 1).
Proof.
  intros Hb Hlt. eapply child_in_heap; [apply Hb|apply Hb|by apply parent_in_heap|].
  apply same_parent. by right.
Qed.

(** ** Addresses *)

Lemma addr_range s n P o b :
  heap_ok s n P -> in_heap n P (o, b) ->
  0 < start_heap s + 2 ^ o * b /\ start_heap s + 2 ^ o * b + 2 ^ o <= 2 ^ 32.
Proof.
  intros [Hp _ He _] ([Ho _] & Hb & Hbe). simpl in *. pose proof (pow_pos o Ho). nia.
Qed.

Lemma run_blkid2mem s n P o b :
  heap_ok s n P -> in_heap n P (o, b) -> blkid2mem o b s = Ok (start_heap s + 2 ^ o * b, s).
Proof.
  intros Hh Hb. pose proof (addr_range _ _ _ _ _ Hh Hb). destruct Hb as [[Ho _] _].
  pose proof (pow_pos o Ho). unfold blkid2mem. rewrite run_get.
  rewrite Z.shiftl_1_l, u32_small by (simpl in *; lia). done.
Qed.

Lemma run_mem2blkid s n P o b :
  heap_ok s n P -> in_heap n P (o, b) -> mem2blkid o (start_heap s + 2 ^ o * b) s = Ok (b, s).
Proof.
  intros Hh Hb. pose proof (addr_range _ _ _ _ _ Hh Hb) as Ha. destruct Hb as ([Ho _] & Hb & _).
  simpl in *. pose proof (pow_pos o Ho) as Hp. pose proof (h_pos _ _ _ Hh).
  unfold mem2blkid. rewrite run_get.
  replace (start_heap s + 2 ^ o * b - start_heap s) with (b * 2 ^ o) by lia.
  rewrite u32_small by nia. rewrite Z.shiftr_div_pow2 by (unfold valid_order, MIN_ORD in *; lia).
  by rewrite Z.div_mul by lia.
Qed.

(** A page-aligned heap makes block addresses multiples of the block size. *)
Lemma addr_aligned s n P o b :
  heap_ok s n P -> valid_order o -> (start_heap s + 2 ^ o * b) mod 2 ^ o = 0.
Proof.
  intros Hh Ho. rewrite Z.mul_comm, Z.mod_add by (pose proof (pow_pos o Ho); lia).
  pose proof (h_aligned _ _ _ Hh) as Ha. rewrite <- (pow_split o Ho) in Ha.
  pose proof (pow_pos o Ho). apply Z.mod_divide; [lia|].
  apply Z.mod_divide in Ha.
  - eapply Z.divide_trans; [|exact Ha]. by exists (2 ^ (MAX_ORD - o)); lia.
  - destruct (pow_order o Ho) as (k & -> & ?). nia.
Qed.

Lemma same_heap s s' n P : same_static s s' -> heap_ok s n P -> heap_ok s' n P.
Proof. intros (_ & _ & E & _) [? ? ? ?]. split; by rewrite ?E. Qed.

(** ** Sets of blocks *)

Lemma covers_add p F a : covers ({[p]} ∪ F) a <-> in_blk p a \/ covers F a.
Proof. unfold covers. set_solver. Qed.

Lemma covers_del n P F p a :
  blocks_ok n P F -> p ∈ F -> (covers (F ∖ {[p]}) a <-> covers F a /\ ~ in_blk p a).
Proof.
  intros [_ Hd _] Hp. unfold covers. split.
  - intros (q & [Hq Hne]%elem_of_difference & Ha). split; [eauto|].
    intros Hpa. specialize (Hd p q a Hp Hq Hpa Ha). set_solver.
  - intros [(q & Hq & Ha) Hn]. exists q. split; [|done]. apply elem_of_difference.
    split; [done|]. intros ->%elem_of_singleton. done.
Qed.

Lemma blocks_ok_del n P F p : blocks_ok n P F -> blocks_ok n P (F ∖ {[p]}).
Proof.
  intros [H1 H2 H3]. split.
  - intros q Hq. apply H1. set_solver.
  - intros q r a Hq Hr. apply H2; set_solver.
  - intros o b Hlt Hb Hb'. apply (H3 o b Hlt); set_solver.
Qed.

Lemma blocks_ok_add n P F o b :
  blocks_ok n P F -> in_heap n P (o, b) -> (forall a, in_blk (o, b) a -> ~ covers F a) ->
  (o < MAX_ORD -> (o, Z.lxor b 1) ∉ F) -> blocks_ok n P ({[(o, b)]} ∪ F).
Proof.
  intros [H1 H2 H3] Hh Hn Hb. split.
  - intros q [->%elem_of_singleton|Hq]%elem_of_union; auto.
  - intros q r a [->%elem_of_singleton|Hq]%elem_of_union [->%elem_of_singleton|Hr]%elem_of_union
      Ha Ha'; auto.
    + destruct (Hn a Ha). by exists r.
    + destruct (Hn a Ha'). by exists q.
    + by apply (H2 q r a).
  - intros o' b' Hlt [Heq%elem_of_singleton|Hq]%elem_of_union
      [Heq'%elem_of_singleton|Hr]%elem_of_union; simplify_eq.
    + by apply (lxor_ne b').
    + by apply Hb.
    + apply (Hb Hlt). by rewrite Z.lxor_assoc, Z.lxor_nilpotent, Z.lxor_0_r.
    + by apply (H3 o' b').
Qed.

Lemma not_free n P F o b :
  in_heap n P (o, b) -> (forall a, in_blk (o, b) a -> ~ covers F a) -> (o, b) ∉ F.
Proof.
  intros [[Ho _] _] Hn Hin. apply (Hn (2 ^ o * b)); [by apply in_blk_first|].
  exists (o, b). split; [done|by apply in_blk_first].
Qed.

(** Two states of the allocator agree but for the free blocks. *)
Lemma inv_change s s' n P F F' :
  inv s n P F -> same_static s s' -> repr s' n F' -> blocks_ok n P F' -> inv s' n P F'.
Proof. intros [_ Hh _] Hss HR Hb. split; [done|by eapply same_heap|done]. Qed.

Lemma same_static_trans s1 s2 s3 : same_static s1 s2 -> same_static s2 s3 -> same_static s1 s3.
Proof. unfold same_static. intuition congruence. Qed.

Lemma same_start_heap s s' : same_static s s' -> start_heap s' = start_heap s.
Proof. by intros (_ & _ & ? & _). Qed.

(** ** [__internal_kfree] *)

Lemma buddy_mark b : Z.lxor b 1 / 32 = b / 32.
Proof.
  destruct (parity b) as (c & _ & [->| ->]); rewrite ?lxor_even, ?lxor_odd;
    Z.to_euclidean_division_equations; lia.
Qed.

Lemma clear_low b : 0 <= b < 2 ^ 32 -> Z.land b (not32 1) = 2 * (b / 2).
Proof.
  intros Hb. apply Z.bits_inj'. intros j Hj. rewrite Z.land_spec.
  destruct (decide (j = 0)) as [->|Hne].
  - rewrite Z.testbit_even_0. by rewrite testbit_not32, andb_false_r by lia.
  - replace j with (Z.succ (j - 1)) at 3 by lia. rewrite Z.testbit_even_succ by lia.
    rewrite <- Z.div2_div, Z.div2_spec, Z.shiftr_spec by lia. replace (j - 1 + 1) with j by lia.
    destruct (decide (j < 32)).
    + rewrite testbit_not32 by lia. rewrite (Z.bits_above_log2 1) by (simpl; lia).
      apply andb_true_r.
    + by rewrite testbit_high by lia.
Qed.

Lemma blkid_u32 n P o b : in_heap n P (o, b) -> page * P <= 2 ^ 32 -> 0 <= b < 2 ^ 32.
Proof. intros ([Ho _] & Hb & He) HP. simpl in *. pose proof (pow_pos o Ho). nia. Qed.

(** The tests of [__internal_kfree] read the two bits of the block and its buddy. *)
Lemma kfree_bits s n P F o b :
  inv s n P F -> in_heap n P (o, b) ->
  exists m, get_mark o (Z.shiftr b 5) s = Ok (off n o + b / 32, s) /\
    load_mark (off n o + b / 32) s = Ok (m, s) /\
    available (bitmap m) b = bool_decide ((o, b) ∈ F) /\
    (o < MAX_ORD -> available (bitmap m) (Z.lxor b 1) = bool_decide ((o, Z.lxor b 1) ∈ F)).
Proof.
  intros [HR Hh Hb] Hin.
  destruct (repr_mark s n F o b HR) as (L & m & h & _ & Hm & _ & _ & Hgm & Hlm & HF);
    [by eapply heap_valid_blk|].
  exists m. split; [done|]. split; [done|]. rewrite !available_spec. split.
  - apply eq_bool_prop_intro. by rewrite bool_decide_spec, HF, Is_true_true.
  - intros Hlt. destruct (repr_mark s n F o (Z.lxor b 1) HR)
      as (L' & m' & h' & _ & Hm' & _ & _ & _ & _ & HF').
    { eapply heap_valid_blk; [done|]. by apply buddy_in_heap. }
    rewrite buddy_mark, Hm in Hm'. simplify_eq.
    apply eq_bool_prop_intro. by rewrite bool_decide_spec, HF', Is_true_true.
Qed.

Lemma pow_succ o : valid_order o -> 2 ^ (o + 1) = 2 * 2 ^ o.
Proof. intros [? ?]. unfold MIN_ORD in *. rewrite Z.pow_add_r by lia. lia. Qed.

Lemma even_in_heap n P o b : in_heap n P (o, b) -> o < MAX_ORD -> in_heap n P (o, 2 * (b / 2)).
Proof.
  intros Hin Hlt. eapply child_in_heap; [apply Hin|apply Hin|by apply parent_in_heap|].
  rewrite Z.mul_comm. by apply Z.div_mul.
Qed.

Lemma halves_disjoint o b a : valid_order o -> in_blk (o, 2 * b) a -> ~ in_blk (o, 2 * b + 1) a.
Proof. intros Ho. rewrite !in_blk_div by done. lia. Qed.

(** Taking the free buddy out and freeing the parent frees the block. *)
Lemma merge_covers n P F o b :
  blocks_ok n P F -> in_heap n P (o, b) -> o < MAX_ORD -> (o, Z.lxor b 1) ∈ F ->
  (forall a, in_blk (o, b) a -> ~ covers F a) ->
  (forall a, in_blk (o + 1, b / 2) a -> ~ covers (F ∖ {[(o, Z.lxor b 1)]}) a) /\
  (forall a, covers (F ∖ {[(o, Z.lxor b 1)]}) a \/ in_blk (o + 1, b / 2) a <->
             covers F a \/ in_blk (o, b) a).
Proof.
  intros HB Hin Hlt Hbf Hn. destruct Hin as [[Ho _] _]. simpl in Ho.
  assert (Hc : forall a, in_blk (o, Z.lxor b 1) a -> covers F a)
    by (intros a Ha; by exists (o, Z.lxor b 1)).
  split; intros a; rewrite (covers_del n P) by done; rewrite in_parent by done.
  - intros [Ha|Ha] [HF Hx]; [by apply (Hn a)|done].
  - split; [intros [[? ?]|[?|?]]; auto|].
    intros [HF|Ha]; [|auto]. rewrite in_blk_div by done.
    destruct (decide (a / 2 ^ o = Z.lxor b 1)) as [He|He].
    + by right; right.
    + auto.
Qed.

(** [s'] is [s] with the bytes of block [p] free as well. *)
Definition freed (n P : Z) (F : gset (Z * Z)) (p : Z * Z) (s s' : kmem) : Prop :=
  exists F', inv s' n P F' /\ same_static s s' /\
    forall a, covers F' a <-> covers F a \/ in_blk p a.

Lemma internal_kfree_spec n P fuel : forall s F o b,
  inv s n P F -> in_heap n P (o, b) -> (forall a, in_blk (o, b) a -> ~ covers F a) ->
  MAX_ORD - o < Z.of_nat fuel ->
  exists s', internal_kfree fuel (start_heap s + 2 ^ o * b) o s = Ok (tt, s') /\
    freed n P F (o, b) s s'.
Proof.
  induction fuel as [|fuel IH]; intros s F o b Hinv Hin Hn Hfuel.
  { destruct Hin as [[[? ?] _] _]. simpl in *. lia. }
  pose proof Hinv as [HR Hh HB]. pose proof Hin as [[Ho _] _]. simpl in Ho.
  destruct (kfree_bits s n P F o b Hinv Hin) as (m & Hgm & Hlm & Hav & Hav').
  cbn [internal_kfree]. rewrite (run_bind _ _ _ _ _ (run_mem2blkid _ _ _ _ _ Hh Hin)).
  rewrite (run_bind _ _ _ _ _ Hgm), (run_bind _ _ _ _ _ Hlm), Hav.
  pose proof (not_free _ _ _ _ _ Hin Hn) as Hnf. rewrite bool_decide_eq_false_2 by done. cbv zeta.
  destruct (negb (available (bitmap m) (Z.lxor b 1)) || (o =? MAX_ORD)) eqn:Hcase.
  - destruct (mark_blk_spec s n F o b HR) as (s' & Hrun & HR' & Hss); auto.
    { by eapply heap_valid_blk. }
    exists s'. split; [done|]. exists ({[(o, b)]} ∪ F). split; [|split; [done|]].
    + eapply inv_change; eauto. apply blocks_ok_add; auto. intros Hlt Hbf.
      rewrite (Hav' Hlt), bool_decide_eq_true_2 in Hcase by done. simpl in Hcase. lia.
    + intros a. rewrite covers_add. tauto.
  - apply orb_false_iff in Hcase as [Hbf Hne].
    assert (Hlt : o < MAX_ORD) by (unfold valid_order in *; lia).
    rewrite (Hav' Hlt), negb_false_iff, bool_decide_eq_true in Hbf.
    destruct (unmark_blk_spec s n F o (Z.lxor b 1) HR Hbf) as (s1 & Hrun & HR1 & Hss1).
    rewrite (run_bind _ _ _ _ _ Hrun).
    pose proof (parent_in_heap _ _ _ _ Hin Hlt) as Hpar.
    rewrite clear_low by (eapply blkid_u32; [done|]; destruct Hh; lia).
    pose proof (same_start_heap _ _ Hss1) as Hss1'.
    assert (Hinv1 : inv s1 n P (F ∖ {[(o, Z.lxor b 1)]}))
      by (eapply inv_change; eauto; by apply blocks_ok_del).
    rewrite (run_bind _ _ _ _ _ (run_blkid2mem _ n P o (2 * (b / 2)) (i_heap _ _ _ _ Hinv1)
      (even_in_heap _ _ _ _ Hin Hlt))).
    replace (2 ^ o * (2 * (b / 2))) with (2 ^ (o + 1) * (b / 2)) by (rewrite pow_succ by done; lia).
    destruct (merge_covers n P F o b HB Hin Hlt Hbf Hn) as [Hn1 Hcov].
    destruct (IH s1 _ (o + 1) (b / 2) Hinv1 Hpar Hn1) as (s' & Hrun' & F' & Hinv' & Hss' & HF');
      [lia|].
    exists s'. split; [done|]. exists F'. split; [done|].
    split; [by eapply same_static_trans|]. intros a. by rewrite HF', Hcov.
Qed.

(** ** [get_blk] and [__internal_kmalloc] *)

Lemma first_bit_spec n bm : forall i,
  0 <= i -> i + Z.of_nat n <= 32 ->
  match first_bit n i bm with
  | Some j => i <= j < i + Z.of_nat n /\ Z.testbit bm j = true
  | None => forall j, i <= j < i + Z.of_nat n -> Z.testbit bm j = false
  end.
Proof.
  induction n as [|n IH]; intros i Hi Hn; [intros j Hj; lia|].
  cbn [first_bit]. rewrite land_bit32, negb_involutive by lia.
  destruct (Z.testbit bm i) eqn:Ht; [split; [lia|done]|].
  specialize (IH (i + 1) ltac:(lia) ltac:(lia)). destruct (first_bit n (i + 1) bm) as [j|].
  - destruct IH. split; [lia|done].
  - intros j Hj. destruct (decide (j = i)) as [->|]; [done|]. apply IH. lia.
Qed.

Lemma empty_order s n F o L :
  repr s n F -> order_ok s n o L -> (hd NIL L =? NIL) = true -> forall b, (o, b) ∉ F.
Proof.
  intros HR HL Hh b Hb. apply (r_bits _ _ _ HR) in Hb as [(Ho & Hlk & Hb) (m & Hm & Ht)].
  destruct (ok_marks _ _ _ _ HL _ (blk_idx _ _ _ Hb)) as (m' & Hm' & _ & _ & Hin). simplify_eq.
  destruct L as [|x L].
  - assert (bitmap m = 0) as E; [|by rewrite E, Z.bits_0 in Ht].
    apply Z.eq_dne. intros Hz. by apply Hin, elem_of_nil in Hz.
  - pose proof (ok_range _ _ _ _ HL x ltac:(set_solver)).
    pose proof (nmarks_bound n o (r_n _ _ _ HR) Hlk Ho). simpl in *. lia.
Qed.

Lemma get_blk_spec s n P F o L :
  inv s n P F -> valid_order o -> linkable n o -> order_ok s n o L ->
  (hd NIL L =? NIL) = false ->
  exists b s', (o, b) ∈ F /\ get_blk o s = Ok (start_heap s + 2 ^ o * b, s') /\
    repr s' n (F ∖ {[(o, b)]}) /\ same_static s s'.
Proof.
  intros [HR Hh HB] Ho Hn' HL Hhd. pose proof (r_n _ _ _ HR) as Hn.
  destruct L as [|x L]; [done|]. cbn [hd] in *.
  pose proof (ok_range _ _ _ _ HL x ltac:(set_solver)) as Hx.
  destruct (ok_marks _ _ _ _ HL _ Hx) as (m & Hm & Hbm & _ & Hin).
  assert (Hnz : bitmap m <> 0) by (apply Hin; set_solver).
  pose proof (idx_small n o Hn Hn' Ho x Hx) as [Hxs _].
  unfold get_blk. rewrite (run_bind _ _ _ _ _ (run_get_order s n o _ (ok_head _ _ _ _ HL))).
  cbn [head hd]. rewrite (run_bind _ _ _ _ _ (run_get_mark s n o x Hn Hn' Ho (ok_head _ _ _ _ HL) x Hx)).
  rewrite (run_bind _ _ _ _ _ (run_load_mark s n o x m Hm)).
  rewrite (proj2 (Z.eqb_neq _ _) Hnz).
  pose proof (first_bit_spec 32 (bitmap m) 0 ltac:(lia) ltac:(lia)) as Hfb.
  destruct (first_bit 32 0 (bitmap m)) as [i|].
  - destruct Hfb as [Hi Ht]. cbv zeta.
    rewrite u32_small by (unfold NIL in *; lia).
    assert (Hdm : (x * 32 + i) / 32 = x /\ (x * 32 + i) mod 32 = i)
      by (Z.to_euclidean_division_equations; lia).
    assert (HF : (o, x * 32 + i) ∈ F).
    { apply (r_bits _ _ _ HR). destruct Hdm as [Hd Hmod]. split; [split; [done|split; [done|lia]]|].
      exists m. by rewrite Hd, Hmod. }
    destruct (unmark_blk_spec s n F o (x * 32 + i) HR HF) as (s' & Hrun & HR' & Hss).
    exists (x * 32 + i), s'. split; [done|]. rewrite (run_bind _ _ _ _ _ Hrun).
    rewrite (run_blkid2mem s' n P) by solve [by eapply same_heap|by apply (b_heap _ _ _ HB)].
    by rewrite (same_start_heap _ _ Hss).
  - destruct Hnz. apply bits_zero; [done|]. intros j Hj. apply Hfb. lia.
Qed.

(** [s'] is [s] with the bytes of block [p] no longer free. *)
Definition taken (n P : Z) (F : gset (Z * Z)) (p : Z * Z) (s s' : kmem) : Prop :=
  exists F', inv s' n P F' /\ same_static s s' /\
    forall a, covers F' a <-> covers F a /\ ~ in_blk p a.

(** The two outcomes of an allocation: no free block of order [o] or more, or
    the address [r] of a block whose bytes were all free. *)
Definition allocated (n P : Z) (F : gset (Z * Z)) (o r : Z) (s s' : kmem) : Prop :=
  (r = 0 /\ s' = s /\ forall o' b, o <= o' -> (o', b) ∉ F) \/
  (exists b, in_heap n P (o, b) /\ r = start_heap s + 2 ^ o * b /\ full F (o, b) /\
     taken n P F (o, b) s s').

(** Splitting a block of order [o + 1]: the upper half is freed. *)
Lemma split_blk n P s s1 F o b :
  inv s n P F -> valid_order o -> linkable n o -> o < MAX_ORD -> in_heap n P (o + 1, b) -> full F (o + 1, b) ->
  taken n P F (o + 1, b) s s1 ->
  exists s', internal_kfree kfree_fuel (u32 (start_heap s + 2 ^ (o + 1) * b + Z.shiftl 1 o)) o s1
               = Ok (tt, s') /\
    in_heap n P (o, 2 * b) /\ full F (o, 2 * b) /\ taken n P F (o, 2 * b) s s'.
Proof.
  intros Hinv Ho Hlk Hlt Hin Hfull (F1 & Hinv1 & Hss & Hcov).
  assert (Hhalf : 2 * b / 2 = b) by (rewrite Z.mul_comm; by apply Z.div_mul).
  assert (Hpar : forall a, in_blk (o + 1, b) a <-> in_blk (o, 2 * b) a \/ in_blk (o, 2 * b + 1) a).
  { intros a. rewrite <- Hhalf at 1. by rewrite in_parent, lxor_even. }
  assert (Hlo : in_heap n P (o, 2 * b)) by (by eapply child_in_heap).
  assert (Hhi : in_heap n P (o, 2 * b + 1))
    by (rewrite <- lxor_even; by apply buddy_in_heap).
  pose proof (addr_range _ _ _ _ _ (i_heap _ _ _ _ Hinv) Hhi) as Ha.
  pose proof (pow_pos o Ho) as Hp.
  rewrite u32_small by (rewrite pow_succ, Z.shiftl_1_l by done; lia).
  replace (start_heap s + 2 ^ (o + 1) * b + Z.shiftl 1 o) with
    (start_heap s1 + 2 ^ o * (2 * b + 1))
    by (rewrite pow_succ, Z.shiftl_1_l, (same_start_heap _ _ Hss) by done; lia).
  destruct (internal_kfree_spec n P kfree_fuel s1 F1 o (2 * b + 1) Hinv1 Hhi)
    as (s' & Hrun & F' & Hinv' & Hss' & HF').
  { intros a Hblk. rewrite Hcov, Hpar. tauto. }
  { destruct Ho. unfold kfree_fuel, MAX_ORD, MIN_ORD in *. lia. }
  exists s'. split; [done|]. split; [done|].
  split; [intros a Hblk; apply Hfull, Hpar; by left|].
  exists F'. split; [done|]. split; [by eapply same_static_trans|].
  intros a. rewrite HF', Hcov, Hpar. pose proof (Hfull a) as Hf. rewrite Hpar in Hf.
  pose proof (halves_disjoint o b a Ho).
  destruct (decide (in_blk (o, 2 * b + 1) a)); tauto.
Qed.

Lemma internal_kmalloc_spec n P fuel : forall s F o,
  inv s n P F -> valid_order o -> linkable n o -> initialized s = true -> MAX_ORD - o < Z.of_nat fuel ->
  exists r s', internal_kmalloc fuel o s = Ok (r, s') /\ allocated n P F o r s s'.
Proof.
  induction fuel as [|fuel IH]; intros s F o Hinv Ho Hlk Hi Hfuel.
  { destruct Ho. lia. }
  pose proof Hinv as [HR Hh HB]. destruct (r_orders _ _ _ HR o Ho) as (L & HL & _).
  cbn [internal_kmalloc]. rewrite run_get, Hi. cbn [negb].
  rewrite (run_bind _ _ _ _ _ (run_get_order s n o _ (ok_head _ _ _ _ HL))). cbn [head].
  destruct (hd NIL L =? NIL) eqn:Hhd; cbn [negb].
  - pose proof (empty_order _ _ _ _ _ HR HL Hhd) as Hemp.
    destruct (Z.ltb_spec o MAX_ORD) as [Hlt|Hge].
    + destruct (IH s F (o + 1) Hinv) as (r & s1 & Hrun & Hres);
        [unfold valid_order in *; lia|by apply linkable_up|done|lia|].
      rewrite (run_bind _ _ _ _ _ Hrun).
      destruct Hres as [(-> & -> & Hnone)|(b & Hin & -> & Hfull & Htk)].
      * exists 0, s. split; [done|]. left. split; [done|]. split; [done|].
        intros o' b Ho'. destruct (decide (o' = o)) as [->|]; [done|]. apply Hnone. lia.
      * pose proof (addr_range _ _ _ _ _ Hh Hin) as Ha. rewrite (proj2 (Z.eqb_neq _ 0)) by lia.
        destruct (split_blk n P s s1 F o b) as (s' & Hrun' & Hlo & Hf & Htk'); auto.
        cbn [negb]. rewrite (run_bind _ _ _ _ _ Hrun').
        eexists _, s'. split; [done|]. right. exists (2 * b). split; [done|].
        split; [rewrite pow_succ by done; lia|done].
    + exists 0, s. split; [done|]. left. split; [done|]. split; [done|].
      intros o' b Ho' Hb. assert (o' = o) as ->; [|by apply (Hemp b)].
      destruct (b_heap _ _ _ HB _ Hb) as [[[? ?] _] _]. simpl in *. lia.
  - destruct (get_blk_spec s n P F o L Hinv Ho Hlk HL Hhd) as (b & s' & HF & Hrun & HR' & Hss).
    exists (start_heap s + 2 ^ o * b), s'. split; [done|]. right. exists b.
    split; [by apply (b_heap _ _ _ HB)|]. split; [done|]. split; [intros a Ha; by exists (o, b)|].
    exists (F ∖ {[(o, b)]}). split; [|split; [done|]].
    + eapply inv_change; eauto. by apply blocks_ok_del.
    + intros a. by rewrite (covers_del n P).
Qed.

(** ** The free bytes determine the free blocks *)

Lemma blk_parent o b a : valid_order o -> o < MAX_ORD -> in_blk (o, b) a -> in_blk (o + 1, b / 2) a.
Proof. intros Ho Hlt Ha. apply in_parent; auto. Qed.

(** A block of an order [o' >= o] that meets a block of order [o] contains it. *)
Lemma nested o b o' b' a :
  valid_order o -> valid_order o' -> o <= o' -> in_blk (o, b) a -> in_blk (o', b') a ->
  forall a', in_blk (o, b) a' -> in_blk (o', b') a'.
Proof.
  intros Ho Ho' Hle Ha Ha' a' Hb. rewrite in_blk_div in * by done. subst b b'.
  replace o' with (o + (o' - o)) by lia. unfold valid_order, MIN_ORD in *.
  by rewrite Z.pow_add_r, <- !Z.div_div, Hb by lia.
Qed.

(** A block whose bytes are all free lies in one free block. *)
Lemma full_inside n P F : blocks_ok n P F -> forall k o b,
  o = MIN_ORD + Z.of_nat k -> o <= MAX_ORD -> full F (o, b) ->
  exists q, q ∈ F /\ o <= q.1 /\ forall a, in_blk (o, b) a -> in_blk q a.
Proof.
  intros HB. induction k as [|k IH]; intros o b Hk Hle Hfull.
  - assert (Ho : valid_order o) by (unfold valid_order; lia).
    destruct (Hfull _ (in_blk_first o b Ho)) as (q & Hq & Ha).
    destruct (b_heap _ _ _ HB q Hq) as [[Hq1 _] _]. exists q. split; [done|].
    destruct q as [o' b']. simpl in *. split; [destruct Hq1; lia|].
    eapply nested; eauto using in_blk_first. destruct Hq1; lia.
  - assert (Ho : valid_order (o - 1)) by (unfold valid_order; lia).
    assert (Ho' : valid_order o) by (unfold valid_order; lia).
    assert (Hpar : forall a, in_blk (o, b) a <->
      in_blk (o - 1, 2 * b) a \/ in_blk (o - 1, 2 * b + 1) a).
    { intros a. rewrite <- lxor_even, <- in_parent by (done || lia).
      replace (2 * b / 2) with b by (symmetry; rewrite Z.mul_comm; by apply Z.div_mul).
      by replace (o - 1 + 1) with o by lia. }
    destruct (IH (o - 1) (2 * b)) as (q0 & Hq0 & Hle0 & Hin0); [lia|lia| |].
    { intros a Ha. apply Hfull, Hpar. by left. }
    destruct (IH (o - 1) (2 * b + 1)) as (q1 & Hq1 & Hle1 & Hin1); [lia|lia| |].
    { intros a Ha. apply Hfull, Hpar. by right. }
    pose proof (in_blk_first (o - 1) (2 * b) Ho) as H0.
    pose proof (in_blk_first (o - 1) (2 * b + 1) Ho) as H1.
    destruct (decide (o <= q0.1)) as [Hbig|Hsmall].
    { exists q0. repeat (split; [done|]). destruct q0 as [o' b']. eapply nested; eauto.
      - apply (b_heap _ _ _ HB _ Hq0).
      - apply Hpar. by left. }
    destruct (decide (o <= q1.1)) as [Hbig1|Hsmall1].
    { exists q1. repeat (split; [done|]). destruct q1 as [o' b']. eapply nested; eauto.
      - apply (b_heap _ _ _ HB _ Hq1).
      - apply Hpar. by right. }
    exfalso. destruct q0 as [o0 b0], q1 as [o1 b1]. simpl in *.
    assert (o0 = o - 1) as -> by lia. assert (o1 = o - 1) as -> by lia.
    apply Hin0 in H0 as H0'. apply Hin1 in H1 as H1'. rewrite in_blk_div in H0, H1, H0', H1' by done.
    apply (b_merged _ _ _ HB (o - 1) (2 * b)); [lia|congruence|]. rewrite lxor_even. congruence.
Qed.

(** A block is free exactly when all its bytes are and those of its parent
    are not. *)
Lemma free_iff n P F o b :
  blocks_ok n P F -> valid_order o ->
  ((o, b) ∈ F <-> full F (o, b) /\ (o < MAX_ORD -> ~ full F (o + 1, b / 2))).
Proof.
  intros HB Ho. pose proof (in_blk_first o b Ho) as H0. split.
  - intros HF. split; [intros a Ha; by exists (o, b)|]. intros Hlt Hfull.
    destruct (full_inside n P F HB (Z.to_nat (o + 1 - MIN_ORD)) (o + 1) (b / 2))
      as (q & Hq & Hle & Hin); [unfold valid_order in *; lia|lia|done|].
    assert (q = (o, b)) as ->; [|simpl in Hle; lia].
    eapply (b_disjoint _ _ _ HB); eauto. apply Hin. by apply blk_parent.
  - intros [Hfull Hpar].
    destruct (full_inside n P F HB (Z.to_nat (o - MIN_ORD)) o b)
      as ([o' b'] & Hq & Hle & Hin); [unfold valid_order in *; lia|apply Ho|done|].
    destruct (b_heap _ _ _ HB _ Hq) as [[Ho' _] _]. simpl in *.
    destruct (decide (o' = o)) as [->|Hne].
    + apply Hin in H0 as H0'. rewrite in_blk_div in H0, H0' by done. congruence.
    + destruct Hpar; [destruct Ho'; lia|]. intros a Ha. exists (o', b'). split; [done|].
      assert (o < MAX_ORD) by (destruct Ho'; lia).
      eapply (nested (o + 1) (b / 2)); [unfold valid_order in *; lia|done|lia| | |exact Ha].
      * apply blk_parent; eauto.
      * by apply Hin.
Qed.

Lemma canonical n P F F' :
  blocks_ok n P F -> blocks_ok n P F' -> (forall a, covers F a <-> covers F' a) -> F = F'.
Proof.
  intros HB HB' Hc. assert (Hf : forall p, full F p <-> full F' p).
  { intros p. unfold full. split; intros H a Ha; apply Hc; auto. }
  apply set_eq. intros [o b].
  destruct (decide (MIN_ORD <= o /\ o <= MAX_ORD)) as [Ho|Hno].
  - by rewrite (free_iff n P F), (free_iff n P F'), !Hf by done.
  - split; intros Hin; destruct Hno; [apply (b_heap _ _ _ HB _ Hin)|apply (b_heap _ _ _ HB' _ Hin)].
Qed.

(** ** The exported operations *)

Lemma repr_set_lock s n F l : repr s n F -> repr (set_lock l s) n F.
Proof.
  intros [H1 H2 H3]. split; [done| |exact H3].
  intros o Ho. destruct (H2 o Ho) as (L & [? ? ? ? ?] & ?). by exists L.
Qed.

Lemma inv_set_lock s n P F l : inv s n P F -> inv (set_lock l s) n P F.
Proof.
  intros [HR [? ? ? ?] HB]. split; [by apply repr_set_lock|by split|done].
Qed.

Lemma run_acquire s : lock s = false -> acquire s = Ok (tt, set_lock true s).
Proof. intros H. unfold acquire. by rewrite run_get, H. Qed.

Lemma run_release s : lock s = true -> release s = Ok (tt, set_lock false s).
Proof. intros H. unfold release. by rewrite run_get, H. Qed.

Lemma set_lock_id s l : lock s = false -> set_lock false (set_lock l s) = s.
Proof. destruct s; simpl. by intros ->. Qed.

(** What happened under the lock, seen from outside. *)
Lemma locked_static s s' :
  lock s = false -> same_static (set_lock true s) s' -> same_static s (set_lock false s').
Proof. unfold same_static. simpl. intuition congruence. Qed.

Lemma order_guard o : valid_order o -> (MAX_ORD <? o) || (o <? MIN_ORD) = false.
Proof. intros [? ?]. apply orb_false_iff. split; lia. Qed.

Lemma land_size mem o : valid_order o -> Z.land mem (Z.shiftl 1 o - 1) = mem mod 2 ^ o.
Proof.
  intros [? ?]. unfold MIN_ORD in *.
  by rewrite Z.shiftl_1_l, Z.sub_1_r, <- Z.ones_equiv, land_ones_mod by lia.
Qed.

Lemma run_kmalloc s n P F o :
  inv s n P F -> lock s = false -> initialized s = true -> valid_order o -> linkable n o ->
  exists r s', buddy_kmalloc o s = Ok (r, s') /\ allocated n P F o r s s'.
Proof.
  intros Hinv Hl Hi Ho Hlk. unfold buddy_kmalloc. rewrite order_guard by done.
  rewrite (run_bind _ _ _ _ _ (run_acquire s Hl)).
  destruct (internal_kmalloc_spec n P kfree_fuel (set_lock true s) F o)
    as (r & s1 & Hrun & Hres).
  { by apply inv_set_lock. } { done. } { done. } { done. }
  { destruct Ho. unfold kfree_fuel, MAX_ORD, MIN_ORD in *. lia. }
  rewrite (run_bind _ _ _ _ _ Hrun).
  destruct Hres as [(-> & -> & Hnone)|(b & Hin & -> & Hfull & F' & Hinv' & Hss & Hcov)].
  - rewrite (run_bind _ _ _ _ _ (run_release (set_lock true s) eq_refl)).
    exists 0, s. rewrite set_lock_id by done. split; [done|]. by left.
  - rewrite (run_bind _ _ _ _ _ (run_release _ (proj1 Hss))).
    eexists _, _. split; [done|]. right. exists b. repeat (split; [done|]).
    exists F'. split; [by apply inv_set_lock|]. split; [by apply locked_static|done].
Qed.

Lemma run_kmfree s n P F o b :
  inv s n P F -> lock s = false -> in_heap n P (o, b) ->
  (forall a, in_blk (o, b) a -> ~ covers F a) ->
  exists s', buddy_kmfree (start_heap s + 2 ^ o * b) o s = Ok (tt, s') /\ freed n P F (o, b) s s'.
Proof.
  intros Hinv Hl Hin Hn. pose proof Hin as [[Ho _] _]. simpl in Ho. unfold buddy_kmfree.
  rewrite order_guard, land_size by done.
  rewrite (addr_aligned s n P o b (i_heap _ _ _ _ Hinv) Ho). cbn [orb negb Z.eqb].
  rewrite (run_bind _ _ _ _ _ (run_acquire s Hl)).
  destruct (internal_kfree_spec n P kfree_fuel (set_lock true s) F o b)
    as (s1 & Hrun & F' & Hinv' & Hss & Hcov).
  { by apply inv_set_lock. } { done. } { done. }
  { destruct Ho. unfold kfree_fuel, MAX_ORD, MIN_ORD in *. lia. }
  rewrite (run_bind _ _ _ _ _ Hrun), (run_release _ (proj1 Hss)).
  eexists. split; [done|]. exists F'. split; [by apply inv_set_lock|].
  split; [by apply locked_static|done].
Qed.

End BuddySpec.
