(* ===== verification/BuddyThm.v ===== *)
(** * The buddy allocator: initialisation and the exported operations

    [buddy_init] establishes the invariant of [BuddySpec]; [buddy_kmalloc],
    [buddy_kmfree] and their page-sized variants keep it.  The size-to-order
    conversion is compared with its arithmetic definition, and the 16-bit links
    are shown to lose a list when an order has more than 65535 marks. *)

From Stdlib Require Import ZArith Lia.
From stdpp Require Import base numbers strings list gmap.
From S2P Require Import Prelude Mmu Dll Buddy BuddySpec.

Open Scope Z_scope.

Import Dll Buddy BuddySpec.

Module BuddyThm.

Definition blank : mark := mkmark (LNKS NIL NIL) 0.

(** Everything but the orders and the marks. *)
Definition same_rest (s s' : kmem) : Prop :=
  lock s' = lock s /\ start s' = start s /\ start_heap s' = start_heap s /\
  kend s' = kend s /\ initialized s' = initialized s /\ length (orders s') = length (orders s).

(** [kmem.start_heap] after [buddy_init]. *)
Definition heap_start (vstart n : Z) : Z := ALIGN_UP (vstart + 127 * n * 8) (Z.shiftl 1 MAX_ORD).

Definition marks_for (vstart vend : Z) : Z := (vend - vstart) / 2 ^ 17 + 1.

Definition heap_pages (vstart vend : Z) : Z :=
  Z.max 0 ((vend - heap_start vstart (marks_for vstart vend) + (page - 1)) / page).

(** The ranges that [buddy_init] is meant for: the heap, the marks and the page
    after them do not run over the end of the address space. *)
Definition init_range (vstart vend : Z) : Prop :=
  0 < vstart <= vend /\ vend <= 2 ^ 32 - page /\
  vstart + 127 * marks_for vstart vend * 8 <= 2 ^ 32 - page.

(** The allocator over the kernel's range (4 MB to PHYSTOP) with every list
    empty; of the 1761 * 64 marks of the lowest order, the three that the
    example reads. *)
Definition wide : kmem :=
  mkkmem false 2151677952 (heap_start 2151677952 1761) 2382364672 true
    (map (fun i => mkorder NIL (off 1761 (i + MIN_ORD))) [0; 1; 2; 3; 4; 5; 6])
    (list_to_map (map (fun x => (off 1761 MIN_ORD + x, blank)) [5; 4464; 70000])).

(** ** The loops of [buddy_init] *)

Lemma init_marks_spec o of_ h k : forall j s,
  zlookup (orders s) (o - MIN_ORD) = Some (mkorder h of_) ->
  0 <= of_ + j -> of_ + j + Z.of_nat k <= 2 ^ 32 ->
  exists s', init_marks k o j s = Ok (tt, s') /\ orders s' = orders s /\ same_rest s s' /\
    forall p, marks s' !! p =
      if decide (of_ + j <= p < of_ + j + Z.of_nat k) then Some blank else marks s !! p.
Proof.
  induction k as [|k IH]; intros j s Ho H0 Hk.
  { exists s. repeat (split; [done|]). intros p. rewrite decide_False; [done|lia]. }
  cbn [init_marks]. unfold get_mark, get_order_at, store_mark.
  rewrite (run_bind _ _ s (of_ + j) s).
  2:{ unfold mbind, ST_bind, get; simpl. rewrite Ho. cbn. by rewrite u32_small by lia. }
  rewrite (run_bind _ _ s tt (set_marks (<[of_ + j := blank]> (marks s)) s)) by done.
  destruct (IH (j + 1) (set_marks (<[of_ + j := blank]> (marks s)) s)) as (s' & Hrun & Hor & Hr & Hm);
    [done|lia|lia|].
  exists s'. split; [done|]. split; [done|]. split; [done|].
  intros p. rewrite Hm. cbn [marks set_marks]. destruct (decide (p = of_ + j)) as [->|Hne].
  - rewrite lookup_insert_eq, decide_False, decide_True by lia. done.
  - rewrite lookup_insert_ne by done. repeat case_decide; done || lia.
Qed.

Lemma run_set_order_at s i o o' :
  zlookup (orders s) i = Some o ->
  set_order_at i o' s = Ok (tt, set_orders (zinsert i o' (orders s)) s).
Proof. intros H. unfold set_order_at. by rewrite run_get, H. Qed.

Lemma init_orders_spec n0 k : forall s,
  1 <= n0 -> 128 * n0 < 2 ^ 32 -> (k <= 7)%nat -> length (orders s) = 7%nat ->
  exists s', init_orders k (n0 * 2 ^ (7 - Z.of_nat k)) (n0 * (2 ^ (7 - Z.of_nat k) - 1)) s
               = Ok (127 * n0, s') /\
    same_rest s s' /\
    (forall i, 0 <= i < 7 -> zlookup (orders s') i =
       if decide (i < Z.of_nat k) then Some (mkorder NIL (off n0 (i + MIN_ORD)))
       else zlookup (orders s) i) /\
    (forall p, marks s' !! p =
       if decide (n0 * (2 ^ (7 - Z.of_nat k) - 1) <= p < 127 * n0)
       then Some blank else marks s !! p).
Proof.
  induction k as [|k IH]; intros s Hn Hn' Hk Hlen.
  { change (2 ^ (7 - Z.of_nat 0)) with 128. replace (n0 * (128 - 1)) with (127 * n0) by lia.
    exists s. split; [done|]. split; [done|].
    split; intros; (rewrite decide_False; [done|lia]). }
  set (q := 2 ^ (7 - Z.of_nat (S k))).
  assert (Hq : 2 ^ (7 - Z.of_nat k) = 2 * q /\ 1 <= q <= 64).
  { unfold q. replace (7 - Z.of_nat k) with (1 + (7 - Z.of_nat (S k))) by lia.
    rewrite Z.pow_add_r by lia. split; [done|].
    assert (2 ^ 0 <= 2 ^ (7 - Z.of_nat (S k)) <= 2 ^ 6) by (split; apply Z.pow_le_mono_r; lia). lia. }
  destruct Hq as [Hq Hqr]. cbn [init_orders]. cbv zeta.
  destruct (zlookup_is_Some (orders s) (Z.of_nat k)) as [o Ho]; [lia|].
  rewrite (run_bind _ _ _ _ _ (run_set_order_at s _ _ _ Ho)).
  set (s1 := set_orders _ s).
  assert (Ho1 : zlookup (orders s1) (Z.of_nat k + MIN_ORD - MIN_ORD)
                = Some (mkorder NIL (n0 * (q - 1)))).
  { replace (Z.of_nat k + MIN_ORD - MIN_ORD) with (Z.of_nat k) by lia.
    apply zlookup_zinsert_eq. lia. }
  destruct (init_marks_spec _ _ _ (Z.to_nat (n0 * q)) 0 s1 Ho1) as (s2 & Hrun2 & Hor2 & Hr2 & Hm2);
    [nia|nia|].
  rewrite (run_bind _ _ _ _ _ Hrun2).
  assert (Hlen2 : length (orders s2) = 7%nat) by (rewrite Hor2; unfold s1; simpl; by rewrite length_zinsert).
  destruct (IH s2 Hn Hn' ltac:(lia) Hlen2) as (s3 & Hrun3 & Hr3 & Hor3 & Hm3).
  rewrite Hq in Hrun3, Hm3. rewrite Z.shiftl_mul_pow2, !u32_small by nia.
  replace (n0 * q * 2 ^ 1) with (n0 * (2 * q)) by lia.
  replace (n0 * (q - 1) + n0 * q) with (n0 * (2 * q - 1)) by lia.
  exists s3. split; [done|]. split.
  { unfold same_rest in *. rewrite Hlen2 in Hr3. simpl in *. rewrite Hlen. intuition congruence. }
  split.
  - intros i Hi. rewrite Hor3, Hor2 by done. unfold s1, set_orders; cbn [orders].
    destruct (decide (i = Z.of_nat k)) as [->|Hne].
    + rewrite zlookup_zinsert_eq, decide_False, decide_True by lia.
      unfold off, q, MAX_ORD, MIN_ORD. do 3 f_equal; f_equal; f_equal; lia.
    + rewrite zlookup_zinsert_ne by lia. repeat case_decide; done || lia.
  - intros p. rewrite Hm3, Hm2. simpl. repeat case_decide; done || nia.
Qed.

Lemma blank_repr s n :
  1 <= n ->
  (forall i, 0 <= i < 7 -> zlookup (orders s) i = Some (mkorder NIL (off n (i + MIN_ORD)))) ->
  (forall p, 0 <= p < 127 * n -> marks s !! p = Some blank) -> repr s n ∅.
Proof.
  intros Hn Hor Hm.
  assert (Hview : forall o x, valid_order o -> 0 <= x < nmarks n o -> view s n o x = Some blank).
  { intros o x Ho Hx. apply Hm. unfold off, nmarks in *.
    destruct (pow_order o Ho) as (k & E & ?). rewrite E in *. nia. }
  split; [done| |].
  - intros o Ho. exists []. split; [|by left].
    split; [|intros x Hx|set_solver|by apply NoDup_nil|done].
    + rewrite Hor by (unfold valid_order, MIN_ORD, MAX_ORD in *; lia).
      by replace (o - MIN_ORD + MIN_ORD) with o by lia.
    + exists blank. split; [by apply Hview|]. repeat (split; [done|]).
      split; [by intros ?%elem_of_nil|done].
  - intros o b. split; [set_solver|]. intros [(Ho & _ & Hb) (m & Hmb & Ht)].
    rewrite Hview in Hmb by (done || by apply blk_idx). simplify_eq. by rewrite Z.bits_0 in Ht.
Qed.

Lemma init_free_spec n P : forall fuel i s F,
  inv s n P F -> linkable n MAX_ORD -> lock s = false -> 0 <= i <= P -> P - i <= Z.of_nat fuel ->
  (forall j, 0 <= j <= P -> (start_heap s + page * j < kend s <-> j < P)) ->
  start_heap s + page * P < 2 ^ 32 ->
  (forall a, covers F a <-> 0 <= a < page * i) ->
  exists s' F', init_free fuel (start_heap s + page * i) s = Ok (tt, s') /\
    inv s' n P F' /\ same_static s s' /\ forall a, covers F' a <-> 0 <= a < page * P.
Proof.
  induction fuel as [|fuel IH]; intros i s F Hinv Hlk Hl Hi Hf Hend Hov Hcov;
    cbn [init_free]; rewrite run_get; destruct (Z.ltb_spec (start_heap s + page * i) (kend s)) as [Hlt|Hge].
  1: { apply Hend in Hlt; lia. }
  1,3: assert (i = P) as -> by (apply Z.le_ge in Hge; destruct (decide (i < P)) as [H|H];
         [apply (Hend i Hi) in H|]; lia); exists s, F; done.
  apply Hend in Hlt; [|done]. pose proof (h_pos _ _ _ (i_heap _ _ _ _ Hinv)) as Hpos.
  assert (Hpg : page = 4096) by done. rewrite Hpg in Hend, Hcov, Hov.
  destruct (run_kmfree s n P F MAX_ORD i Hinv Hl) as (s1 & Hrun & F1 & Hinv1 & Hss & Hcov1).
  { split; [by split|]. change (2 ^ (MAX_ORD, i).1) with 4096. rewrite Hpg. simpl. lia. }
  { intros a Ha. rewrite Hcov. change (4096 * i <= a < 4096 * (i + 1)) in Ha. lia. }
  change (2 ^ MAX_ORD) with page in Hrun. rewrite (run_bind _ _ _ _ _ Hrun).
  pose proof (same_start_heap _ _ Hss) as Hsh.
  destruct (IH (i + 1) s1 F1) as (s' & F' & Hrun' & Hinv' & Hss' & Hcov'); rewrite ?Hsh, ?Hpg; auto.
  { by rewrite (proj1 Hss). }
  { lia. } { lia. }
  { destruct Hss as (_ & _ & _ & -> & _). done. }
  { intros a. rewrite Hcov1, Hcov.
    change (in_blk (MAX_ORD, i) a) with (4096 * i <= a < 4096 * (i + 1)). lia. }
  exists s', F'. split; [|split; [done|split; [by eapply same_static_trans|by rewrite <- Hpg]]].
  change (Z.shiftl 1 MAX_ORD) with 4096. rewrite u32_small by lia.
  rewrite Hsh, Hpg in Hrun'. rewrite <- Hrun'. f_equal. lia.
Qed.

Lemma ALIGN_UP_page x : 0 <= x <= 2 ^ 32 - page ->
  exists q, ALIGN_UP x (Z.shiftl 1 MAX_ORD) = page * q /\ x <= page * q < x + page.
Proof.
  intros Hx. unfold ALIGN_UP. assert (Hpg : page = 4096) by done. rewrite Hpg in *.
  change (u32 (Z.shiftl 1 MAX_ORD)) with 4096. rewrite (u32_small x), u32_small by lia.
  exists ((x + 4095) / 4096). replace (x + 4096 - 1) with (x + 4095) by lia.
  split; [apply Mmu.land_not_4095; lia|Z.to_euclidean_division_equations; lia].
Qed.

Lemma init_bounds vstart vend :
  init_range vstart vend ->
  1 <= marks_for vstart vend <= 32768 /\ vstart <= heap_start vstart (marks_for vstart vend).
Proof.
  intros (H0 & H1 & H3).
  assert (Hn : 1 <= marks_for vstart vend <= 32768)
    by (unfold marks_for, page, MAX_ORD in *; Z.to_euclidean_division_equations; lia).
  split; [done|].
  destruct (ALIGN_UP_page (vstart + 127 * marks_for vstart vend * 8)) as (q & Hq & Hqr); [lia|].
  unfold heap_start. rewrite Hq. lia.
Qed.

(** The part of [buddy_init] before the pages are freed. *)
Lemma init_marks_done vstart vend s :
  init_range vstart vend -> length (orders s) = 7%nat ->
  exists s1, init_orders 7 (marks_for vstart vend) 0
               (mkkmem false vstart (start_heap s) vend (initialized s) (orders s) (marks s))
             = Ok (127 * marks_for vstart vend, s1) /\
    lock s1 = false /\ kend s1 = vend /\ repr s1 (marks_for vstart vend) ∅.
Proof.
  intros (H0 & H1 & H3) Hlen. set (n := marks_for vstart vend) in *.
  assert (Hn : 1 <= n <= 32768)
    by (unfold n, marks_for, page, MAX_ORD in *; Z.to_euclidean_division_equations; lia).
  destruct (init_orders_spec n 7
    (mkkmem false vstart (start_heap s) vend (initialized s) (orders s) (marks s)))
    as (s1 & Hrun & Hr & Hor & Hm); [lia|lia|lia|done|].
  change (2 ^ (7 - Z.of_nat 7)) with 1 in *.
  replace (n * 1) with n in Hrun by lia. replace (n * (1 - 1)) with 0 in * by lia.
  exists s1. split; [done|]. destruct Hr as (? & ? & ? & ? & ? & ?). split; [done|]. split; [done|].
  apply blank_repr; [lia| |].
  - intros i Hi. rewrite Hor, decide_True by lia. done.
  - intros p Hp. by rewrite Hm, decide_True.
Qed.

(** [repr] looks at the orders and the marks only. *)
Lemma repr_ext s s' n F : repr s n F -> orders s' = orders s -> marks s' = marks s -> repr s' n F.
Proof.
  destruct s, s'; simpl. intros [Ha Hb Hc] -> ->. split; [done| |exact Hc].
  intros o Ho. destruct (Hb o Ho) as (L & [? ? ? ? ?] & ?). by exists L.
Qed.

Lemma empty_blocks n P : blocks_ok n P ∅.
Proof. split; set_solver. Qed.

Lemma run_buddy_init vstart vend s :
  init_range vstart vend -> length (orders s) = 7%nat ->
  exists s' F, buddy_init vstart vend s = Ok (tt, s') /\
    inv s' (marks_for vstart vend) (heap_pages vstart vend) F /\
    lock s' = false /\ initialized s' = true /\ kend s' = vend /\
    start_heap s' = heap_start vstart (marks_for vstart vend) /\
    forall a, covers F a <-> 0 <= a < page * heap_pages vstart vend.
Proof.
  intros Hr Hlen. destruct (init_marks_done vstart vend s Hr Hlen) as (s1 & Hrun & Hl & He & HR).
  destruct Hr as (H0 & H1 & H3). set (n := marks_for vstart vend) in *.
  assert (Hpg : page = 4096) by done. rewrite Hpg in *.
  assert (Hn : n = (vend - vstart) / 2 ^ 17 + 1 /\ 1 <= n <= 32768)
    by (unfold n, marks_for; Z.to_euclidean_division_equations; lia).
  destruct Hn as [Hn Hn1].
  unfold buddy_init. rewrite run_get, (run_bind _ _ _ tt _ eq_refl). cbv zeta.
  rewrite (u32_small (vend - vstart)), (Z.shiftr_div_pow2 _ (MAX_ORD + 5)) by (unfold MAX_ORD; lia).
  change (2 ^ (MAX_ORD + 5)) with (2 ^ 17). rewrite <- Hn, (u32_small n) by lia.
  change (Z.to_nat N_ORD) with 7%nat. rewrite (run_bind _ _ _ _ _ Hrun).
  set (H := heap_start vstart n).
  rewrite (run_bind _ _ _ tt (set_start_heap H s1)) by done. rewrite run_get.
  destruct (ALIGN_UP_page (vstart + 127 * n * 8)) as (q & Hq & Hqr); [rewrite Hpg; lia|].
  rewrite Hpg in Hq, Hqr. change (H = 4096 * q) in Hq.
  set (P := heap_pages vstart vend).
  assert (HP : P = Z.max 0 ((vend - H + 4095) / 4096)) by (unfold P, heap_pages; by rewrite Hpg).
  destruct (init_free_spec n P (Z.to_nat (Z.shiftr (vend - vstart) MAX_ORD + 1)) 0
    (set_start_heap H s1) ∅) as (s2 & F & Hrun2 & Hinv2 & Hss & Hcov); rewrite ?Hpg; cbn [start_heap set_start_heap kend].
  - split; [|split|apply empty_blocks].
    + by apply repr_ext with s1.
    + simpl. lia.
    + simpl. rewrite Hq, Hpg, Z.mul_comm. by apply Z.mod_mul.
    + simpl. rewrite Hpg, HP. Z.to_euclidean_division_equations; lia.
    + rewrite HP. Z.to_euclidean_division_equations; lia.
  - split; [lia|]. unfold nmarks. rewrite Z.sub_diag. change (2 ^ 0) with 1. unfold NIL. lia.
  - done.
  - rewrite HP. lia.
  - rewrite Z.shiftr_div_pow2 by done. change (2 ^ MAX_ORD) with 4096. rewrite HP.
    Z.to_euclidean_division_equations; lia.
  - rewrite He. intros j Hj. rewrite HP in *. Z.to_euclidean_division_equations; lia.
  - rewrite HP. Z.to_euclidean_division_equations; lia.
  - intros a. split; [intros (p & Hp & _); set_solver|lia].
  - cbn [start_heap set_start_heap] in Hrun2. rewrite Z.mul_0_r, Z.add_0_r in Hrun2.
    exists (set_initialized true s2), F. rewrite (run_bind _ _ _ _ _ Hrun2). split; [done|].
    destruct Hss as (Hl2 & _ & Hsh & Hke & _).
    split; [|split; [|split; [done|split; [|split; [done|by rewrite <- Hpg]]]]].
    + destruct Hinv2 as [HR2 [? ? ? ?] ?]. split; [by apply repr_ext with s2|by split|done].
    + simpl. by rewrite Hl2.
    + simpl. by rewrite Hke.
Qed.

(** ** Sizes and orders *)

(** The top [c] bits of [v] below and at position [L] are set, none above. *)
Definition top_bits (v L c : Z) : Prop :=
  forall j, 0 <= j -> (L < j -> Z.testbit v j = false) /\ (L - c < j <= L -> Z.testbit v j = true).

Lemma smear v L c : 0 <= c -> top_bits v L c -> top_bits (Z.lor v (Z.shiftr v c)) L (2 * c).
Proof.
  intros Hc Ht j Hj. rewrite Z.lor_spec, Z.shiftr_spec by done. split; intros H.
  - by rewrite (proj1 (Ht j Hj)), (proj1 (Ht (j + c) ltac:(lia))) by lia.
  - destruct (decide (L - c < j)) as [Hlt|Hge].
    + by rewrite (proj2 (Ht j Hj)) by lia.
    + rewrite (proj2 (Ht (j + c) ltac:(lia))) by lia. apply orb_true_r.
Qed.

Lemma top_bits_ones v L c : 0 <= L < c -> top_bits v L c -> v = Z.ones (L + 1).
Proof.
  intros HL Ht. apply Z.bits_inj'. intros j Hj. destruct (decide (j <= L)).
  - rewrite Z.ones_spec_low by lia. apply (Ht j Hj). lia.
  - rewrite Z.ones_spec_high by lia. apply (Ht j Hj). lia.
Qed.

Lemma roundup_spec v : 1 < v < 2 ^ 32 -> roundup_powerof2 v = u32 (2 ^ Z.log2_up v).
Proof.
  intros Hv. unfold roundup_powerof2. rewrite (u32_small (v - 1)) by lia.
  rewrite Z.log2_up_eqn, <- Z.sub_1_r by lia. set (w := v - 1). assert (0 < w < 2 ^ 32) by lia.
  assert (HL : 0 <= Z.log2 w < 32) by (split; [apply Z.log2_nonneg|apply Z.log2_lt_pow2; lia]).
  assert (H0 : top_bits w (Z.log2 w) 1).
  { intros j Hj. split; intros Hj'; [apply Z.bits_above_log2; lia|].
    assert (j = Z.log2 w) as -> by lia. apply Z.bit_log2. lia. }
  apply smear, smear, smear, smear, smear, top_bits_ones in H0; try lia.
  change (2 * 1) with 2 in H0. change (2 * 2) with 4 in H0. change (2 * 4) with 8 in H0.
  change (2 * 8) with 16 in H0. cbv zeta. rewrite H0, Z.ones_equiv. f_equal. change (Z.succ (Z.log2 w)) with (Z.log2 w + 1). lia.
Qed.

Lemma lowest_bit_pow k n : forall i,
  0 <= i <= k -> k < i + Z.of_nat n -> i + Z.of_nat n <= 32 -> lowest_bit n i (2 ^ k) = k.
Proof.
  induction n as [|n IH]; intros i Hi Hk Hn; [lia|]. cbn [lowest_bit].
  rewrite land_bit32, Z.pow2_bits_eqb, negb_involutive by lia.
  destruct (Z.eqb_spec k i) as [->|]; [done|]. apply IH; lia.
Qed.

Lemma lowest_bit_zero n : forall i, 0 <= i -> i + Z.of_nat n <= 32 ->
  lowest_bit n i 0 = i + Z.of_nat n.
Proof.
  induction n as [|n IH]; intros i Hi Hn; cbn [lowest_bit]; [lia|].
  rewrite land_bit32, Z.bits_0 by lia. cbn [negb]. rewrite IH by lia. lia.
Qed.

Lemma get_order_index v : 0 <= v < 2 ^ 32 ->
  lowest_bit 32 0 (roundup_powerof2 v) = if (v =? 0) || (2 ^ 31 <? v) then 32 else Z.log2_up v.
Proof.
  intros Hv. destruct (decide (v = 0)) as [->|]; [done|]. destruct (decide (v = 1)) as [->|]; [done|].
  rewrite (proj2 (Z.eqb_neq v 0)) by done. rewrite roundup_spec by lia. cbn [orb].
  destruct (Z.ltb_spec (2 ^ 31) v) as [Hbig|Hsm].
  - rewrite (Z.log2_up_unique v 32) by lia. done.
  - assert (0 < Z.log2_up v <= 31) by (split; [apply Z.log2_up_pos; lia|apply Z.log2_up_le_pow2; lia]).
    rewrite u32_small by (split; [lia|apply Z.pow_lt_mono_r; lia]).
    apply lowest_bit_pow; lia.
Qed.

Lemma run_get_order_of v s : 0 <= v < 2 ^ 32 ->
  buddy_get_order v s =
    if (1 <=? v) && (v <=? page) then Ok (Z.max MIN_ORD (Z.log2_up v), s)
    else Panic "buddy_get_order: order too big!".
Proof.
  intros Hv. unfold buddy_get_order. rewrite get_order_index by done. cbv zeta.
  assert (Hp : page = 2 ^ 12) by done. rewrite Hp. unfold MIN_ORD, MAX_ORD.
  destruct (Z.leb_spec 1 v) as [H1|H0].
  2:{ assert (v = 0) as -> by lia. done. }
  rewrite (proj2 (Z.eqb_neq v 0)) by lia. cbn [orb andb].
  destruct (Z.leb_spec v (2 ^ 12)) as [Hle|Hgt].
  - assert (Hl : Z.log2_up v <= 12) by (apply Z.log2_up_le_pow2; lia).
    rewrite (proj2 (Z.ltb_ge (2 ^ 31) v)) by lia.
    destruct (Z.ltb_spec (Z.log2_up v) 6); [by rewrite Z.max_l by lia|].
    rewrite (proj2 (Z.ltb_ge 12 _)) by lia. by rewrite Z.max_r by lia.
  - assert (Hl : 12 < Z.log2_up v) by (apply Z.log2_up_lt_pow2; lia).
    destruct (2 ^ 31 <? v); [done|].
    rewrite (proj2 (Z.ltb_ge _ 6)), (proj2 (Z.ltb_lt 12 _)) by lia. done.
Qed.

Lemma bind_panic {A B} (m : ST kmem A) (k : ST kmem B) s e :
  (match m s with Ok _ => true | _ => false end) = true -> (m;; k) s = Panic e ->
  exists a s', m s = Ok (a, s') /\ k s' = Panic e.
Proof. unfold mbind, ST_bind. destruct (m s) as [[a s']| | | |]; try done. eauto. Qed.

(** ** Theorems *)

(** The range that [main] passes: P2V(4 MB) to P2V(PHYSTOP). *)
Lemma kernel_range : init_range 2151677952 2382364672.
Proof. unfold init_range, marks_for, page, MAX_ORD. vm_compute. intuition congruence. Qed.

Lemma kernel_heap : exists s F, inv s 1761 55883 F /\ lock s = false /\ initialized s = true /\
  start_heap s = 2153467904 /\ forall a, covers F a <-> 0 <= a < page * 55883.
Proof.
  destruct (run_buddy_init 2151677952 2382364672 kmem0 kernel_range eq_refl)
    as (s & F & _ & Hinv & Hl & Hi & _ & Hsh & Hcov).
  exists s, F. done.
Qed.

Lemma kernel_order7 : valid_order 7 /\ linkable 1761 7.
Proof. unfold valid_order, linkable, nmarks, NIL, MIN_ORD, MAX_ORD. simpl. lia. Qed.

Lemma kernel_has_block s F : inv s 1761 55883 F -> covers F 0 -> exists o b, 7 <= o /\ (o, b) ∈ F.
Proof.
  intros Hinv ([o b] & Hp & _). exists o, b. split; [|done].
  destruct (b_heap _ _ _ (i_blocks _ _ _ _ Hinv) _ Hp) as [[[Ho _] [_ Hl]] _]. simpl in *.
  destruct (decide (o = 6)) as [->|]; [|unfold MIN_ORD in Ho; lia]. by vm_compute in Hl.
Qed.

(** C6: [buddy_init] on an admissible range terminates without a panic; the
    allocator's invariant holds, the lock is free, and the free bytes are
    exactly those of the pages between the aligned end of the mark array and
    the end of the range. *)
Theorem buddy_init_correct vstart vend :
  init_range vstart vend ->
  exists s F, buddy_init vstart vend kmem0 = Ok (tt, s) /\
    inv s (marks_for vstart vend) (heap_pages vstart vend) F /\
    lock s = false /\ initialized s = true /\ kend s = vend /\
    start_heap s = heap_start vstart (marks_for vstart vend) /\
    forall a, covers F a <-> 0 <= a < page * heap_pages vstart vend.
Proof. intros Hr. by apply run_buddy_init. Qed.

Lemma buddy_init_correct_witness :
  exists s F, buddy_init 2151677952 2382364672 kmem0 = Ok (tt, s) /\ inv s 1761 55883 F.
Proof.
  destruct (buddy_init_correct 2151677952 2382364672 kernel_range) as (s & F & Hrun & Hinv & _).
  exists s, F. split; [exact Hrun|exact Hinv].
Defined.

(** C2: [buddy_kmalloc] on a well-formed allocator never panics and keeps the
    invariant.  Either it returns NULL, changes nothing and there is no free
    block of the requested order or above; or it returns the address of a block
    of [2^order] bytes, aligned to its size and inside the heap, whose bytes
    were all free and are exactly the bytes that stop being free.  The order
    must be one whose marks 16 bits can number. *)
Theorem buddy_kmalloc_correct s n P F o :
  inv s n P F -> lock s = false -> initialized s = true -> valid_order o -> linkable n o ->
  exists r s', buddy_kmalloc o s = Ok (r, s') /\
    ((r = 0 /\ s' = s /\ forall o' b, o <= o' -> (o', b) ∉ F) \/
     (exists b F', r = start_heap s + 2 ^ o * b /\ r mod 2 ^ o = 0 /\
        start_heap s <= r /\ r + 2 ^ o <= start_heap s + page * P /\
        inv s' n P F' /\ same_static s s' /\
        (forall a, in_blk (o, b) a -> covers F a) /\
        (forall a, covers F' a <-> covers F a /\ ~ in_blk (o, b) a))).
Proof.
  intros Hinv Hl Hi Ho Hlk.
  destruct (run_kmalloc s n P F o Hinv Hl Hi Ho Hlk) as (r & s' & Hrun & Hres).
  exists r, s'. split; [done|].
  destruct Hres as [?|(b & Hin & -> & Hfull & F' & Hinv' & Hss & Hcov)]; [by left|right].
  exists b, F'. split; [done|]. split; [eapply addr_aligned; [apply Hinv|done]|].
  destruct Hin as (_ & Hb & He). simpl in *. pose proof (pow_pos o Ho).
  split; [nia|]. split; [nia|]. done.
Qed.

Lemma buddy_kmalloc_correct_witness :
  exists s n P F r s', inv s n P F /\ buddy_kmalloc 7 s = Ok (r, s') /\ r mod 128 = 0.
Proof.
  destruct kernel_heap as (s & F & Hinv & Hl & Hi & Hsh & Hcov).
  destruct kernel_order7 as [Ho Hlk].
  destruct (buddy_kmalloc_correct s 1761 55883 F 7 Hinv Hl Hi Ho Hlk) as (r & s' & Hrun & Hres).
  exists s, 1761, 55883, F, r, s'. split; [exact Hinv|]. split; [exact Hrun|].
  destruct Hres as [(-> & _)|(b & F' & _ & Hmod & _)]; [reflexivity|exact Hmod].
Defined.

(** C3: [buddy_kmfree] of a block none of whose bytes is free never panics,
    keeps the invariant (so free buddies are merged up to the top order) and
    makes exactly the bytes of the block free. *)
Theorem buddy_kmfree_correct s n P F o b :
  inv s n P F -> lock s = false -> in_heap n P (o, b) ->
  (forall a, in_blk (o, b) a -> ~ covers F a) ->
  exists s' F', buddy_kmfree (start_heap s + 2 ^ o * b) o s = Ok (tt, s') /\
    inv s' n P F' /\ same_static s s' /\
    forall a, covers F' a <-> covers F a \/ in_blk (o, b) a.
Proof.
  intros Hinv Hl Hin Hn. destruct (run_kmfree s n P F o b Hinv Hl Hin Hn) as (s' & Hrun & F' & H).
  by exists s', F'.
Qed.

Lemma buddy_kmfree_correct_witness :
  exists s F b s', inv s 1761 55883 F /\ (forall a, in_blk (7, b) a -> ~ covers F a) /\
    buddy_kmfree (start_heap s + 2 ^ 7 * b) 7 s = Ok (tt, s').
Proof.
  destruct kernel_heap as (s & F & Hinv & Hl & Hi & Hsh & Hcov).
  destruct kernel_order7 as [Ho Hlk].
  destruct (run_kmalloc s 1761 55883 F 7 Hinv Hl Hi Ho Hlk) as (r & s1 & _ & Hres).
  destruct Hres as [(_ & _ & Hnone)|(b & Hin & _ & _ & F1 & Hinv1 & Hss & Hcov1)].
  - exfalso. destruct (kernel_has_block s F Hinv) as (o & b & Hob & Hin).
    + apply Hcov. unfold page, MAX_ORD. lia.
    + destruct (Hnone o b Hob Hin).
  - assert (Hn : forall a, in_blk (7, b) a -> ~ covers F1 a)
      by (intros a Ha; rewrite Hcov1; tauto).
    assert (Hl1 : lock s1 = false) by (rewrite (proj1 Hss); exact Hl).
    destruct (buddy_kmfree_correct s1 1761 55883 F1 7 b Hinv1 Hl1 Hin Hn) as (s' & F' & Hrun & _).
    exists s1, F1, b, s'. auto.
Defined.

(** Allocating a block and freeing it again restores exactly the set of
    free blocks: no fragmentation remains. *)
Theorem kmalloc_kmfree_roundtrip s n P F o r s1 :
  inv s n P F -> lock s = false -> initialized s = true -> valid_order o -> linkable n o ->
  buddy_kmalloc o s = Ok (r, s1) -> r <> 0 ->
  exists s2, buddy_kmfree r o s1 = Ok (tt, s2) /\ inv s2 n P F /\ same_static s s2.
Proof.
  intros Hinv Hl Hi Ho Hlk Hrun Hr.
  destruct (run_kmalloc s n P F o Hinv Hl Hi Ho Hlk) as (r' & s' & Hrun' & Hres).
  rewrite Hrun in Hrun'. simplify_eq.
  destruct Hres as [(? & _)|(b & Hin & -> & Hfull & F1 & Hinv1 & Hss & Hcov)]; [done|].
  rewrite <- (same_start_heap _ _ Hss).
  destruct (run_kmfree s' n P F1 o b Hinv1) as (s2 & Hrun2 & F2 & Hinv2 & Hss2 & Hcov2).
  { by rewrite (proj1 Hss). } { done. } { intros a Ha. rewrite Hcov. tauto. }
  exists s2. split; [done|]. split; [|by eapply same_static_trans].
  assert (F2 = F) as ->; [|done].
  apply (canonical n P); [apply Hinv2|apply Hinv|]. intros a. rewrite Hcov2, Hcov.
  pose proof (Hfull a). destruct (decide (in_blk (o, b) a)); tauto.
Qed.

Lemma kmalloc_kmfree_roundtrip_witness :
  exists s F r s1 s2, inv s 1761 55883 F /\ r <> 0 /\ buddy_kmalloc 7 s = Ok (r, s1) /\
    buddy_kmfree r 7 s1 = Ok (tt, s2) /\ inv s2 1761 55883 F.
Proof.
  destruct kernel_heap as (s & F & Hinv & Hl & Hi & Hsh & Hcov).
  destruct kernel_order7 as [Ho Hlk].
  destruct (run_kmalloc s 1761 55883 F 7 Hinv Hl Hi Ho Hlk) as (r & s1 & Hrun & Hres).
  assert (Hr : r <> 0).
  { destruct Hres as [(_ & _ & Hnone)|(b & (_ & Hb & _) & -> & _)].
    - destruct (kernel_has_block s F Hinv) as (o & b & Hob & Hin).
      + apply Hcov. unfold page, MAX_ORD. lia.
      + destruct (Hnone o b Hob Hin).
    - rewrite Hsh. simpl in Hb. lia. }
  destruct (kmalloc_kmfree_roundtrip s 1761 55883 F 7 r s1 Hinv Hl Hi Ho Hlk Hrun Hr) as (s2 & H2 & H3 & _).
  exists s, F, r, s1, s2. auto.
Defined.

(** The checks of the exported operations: an order out of range panics in
    both, an address that is not a multiple of the block size panics in
    [buddy_kmfree], and so does freeing a block that is free. *)
Theorem buddy_checks s n P F o b mem :
  inv s n P F -> lock s = false ->
  (~ valid_order o -> buddy_kmalloc o s = Panic "kmalloc: order out of range" /\
     buddy_kmfree mem o s = Panic "kmfree: order out of range or memory unaligned") /\
  (valid_order o -> mem mod 2 ^ o <> 0 ->
     buddy_kmfree mem o s = Panic "kmfree: order out of range or memory unaligned") /\
  ((o, b) ∈ F -> buddy_kmfree (start_heap s + 2 ^ o * b) o s = Panic "kmfree: double free").
Proof.
  intros Hinv Hl. split; [|split].
  - intros Hno. assert (Hg : (MAX_ORD <? o) || (o <? MIN_ORD) = true)
      by (unfold valid_order in Hno; apply orb_true_iff; lia).
    unfold buddy_kmalloc, buddy_kmfree. by rewrite Hg.
  - intros Ho Hm. unfold buddy_kmfree. rewrite order_guard by done.
    rewrite land_size by done. by rewrite (proj2 (Z.eqb_neq _ 0)).
  - intros Hb. pose proof (b_heap _ _ _ (i_blocks _ _ _ _ Hinv) _ Hb) as Hin.
    pose proof Hin as [[Ho _] _]. simpl in Ho. unfold buddy_kmfree.
    rewrite order_guard, land_size by done.
    rewrite (addr_aligned s n P o b (i_heap _ _ _ _ Hinv) Ho). cbn [orb negb Z.eqb].
    rewrite (run_bind _ _ _ _ _ (run_acquire s Hl)).
    pose proof (inv_set_lock s n P F true Hinv) as Hinv1.
    destruct (kfree_bits _ n P F o b Hinv1 Hin) as (m & Hgm & Hlm & Hav & _).
    unfold kfree_fuel. cbn [internal_kfree].
    unfold mbind at 1, ST_bind at 1.
    change (start_heap s) with (start_heap (set_lock true s)).
    rewrite (run_bind _ _ _ _ _ (run_mem2blkid _ _ _ _ _ (i_heap _ _ _ _ Hinv1) Hin)).
    rewrite (run_bind _ _ _ _ _ Hgm), (run_bind _ _ _ _ _ Hlm), Hav.
    by rewrite bool_decide_eq_true_2.
Qed.

Lemma buddy_checks_witness :
  exists s F, inv s 1761 55883 F /\ buddy_kmalloc 13 s = Panic "kmalloc: order out of range".
Proof.
  destruct kernel_heap as (s & F & Hinv & Hl & _). exists s, F. split; [exact Hinv|].
  destruct (buddy_checks s 1761 55883 F 13 0 0 Hinv Hl) as (Ha & _).
  apply Ha. unfold valid_order, MIN_ORD, MAX_ORD. lia.
Defined.

(** [buddy_get_order] returns the least admissible order whose blocks hold
    [v] bytes; for 0 and for more than a page it panics. *)
Theorem buddy_get_order_correct v s :
  0 <= v < 2 ^ 32 ->
  (1 <= v <= page -> exists o, buddy_get_order v s = Ok (o, s) /\ valid_order o /\ v <= 2 ^ o /\
     forall o', valid_order o' -> v <= 2 ^ o' -> o <= o') /\
  (v = 0 \/ page < v -> buddy_get_order v s = Panic "buddy_get_order: order too big!").
Proof.
  intros Hv. rewrite run_get_order_of by done. split; intros H.
  - rewrite (proj2 (Z.leb_le 1 v)), (proj2 (Z.leb_le v page)) by lia. cbn [andb].
    assert (Hl : Z.log2_up v <= 12) by (apply Z.log2_up_le_pow2; [lia|apply H]).
    eexists. split; [done|]. unfold valid_order, MIN_ORD, MAX_ORD. split; [lia|]. split.
    + apply Z.log2_up_le_pow2; lia.
    + intros o' Ho' Hle. apply Z.log2_up_le_pow2 in Hle; lia.
  - replace ((1 <=? v) && (v <=? page)) with false; [done|]. unfold page, MAX_ORD in *. lia.
Qed.

Lemma buddy_get_order_correct_witness :
  0 <= 100 < 2 ^ 32 /\ exists o, buddy_get_order 100 kmem0 = Ok (o, kmem0) /\ 100 <= 2 ^ o.
Proof.
  assert (H : 0 <= 100 < 2 ^ 32) by lia. split; [exact H|].
  destruct (buddy_get_order_correct 100 kmem0 H) as [Ha _].
  destruct Ha as (o & Ho & _ & Hle & _); [unfold page, MAX_ORD; lia|]. exists o. auto.
Defined.

(** The kernel's own range, 4 MB to PHYSTOP, needs 112704 marks at the
    lowest order, more than the 16-bit links can number.  Starting from empty
    lists over that range, freeing two 64-byte blocks whose marks are 70000 and
    5 cuts the list: the first allocation takes the second block, the next
    follows the truncated link to a mark without free blocks and panics. *)
Theorem buddy_links_truncate :
  marks_for 2151677952 2382364672 = 1761 /\ NIL < nmarks 1761 MIN_ORD /\
  exists r s3,
    (buddy_kmfree (start_heap wide + 64 * (70000 * 32)) MIN_ORD;;
     buddy_kmfree (start_heap wide + 64 * (5 * 32)) MIN_ORD;;
     buddy_kmalloc MIN_ORD) wide = Ok (r, s3) /\
    buddy_kmalloc MIN_ORD s3 = Panic "empty mark in the list".
Proof.
  split; [vm_compute; reflexivity|]. split; [vm_compute; reflexivity|].
  apply bind_panic; vm_compute; reflexivity.
Qed.

End BuddyThm.
