(* ===== verification/Freelist.v ===== *)
(** * The free-list page allocator (kern/mm/freelist.c)

    Free pages are chained through their first word.  The kernel memory is the
    byte memory of [Mem]; [kend] is the linker's symbol [end]. *)

From Stdlib Require Import ZArith Lia.
From stdpp Require Import base numbers strings list gmap.
From S2P Require Import Prelude Mem Mmu Cstring.

Open Scope Z_scope.

Import Mem Mmu.

Module Freelist.

(** [kmem.freelist] (0 is NULL) and the memory.  [kmem.lock] is initialised by
    the code and never taken. *)
Record state := mkstate { freelist : Z; memory : mem }.

Section Ops.

Variable kend : Z.

Definition freelist_free (v : Z) : ST state unit :=
  if negb (v mod PGSIZE =? 0) || (v <? kend) || (PHYSTOP <=? V2P v) then panic "kfree"
  else
    s ← get;
    let m := Cstring.memset v 1 (Z.to_nat PGSIZE) (memory s) in
    put (mkstate v (store32 v (freelist s) m)).

Definition freelist_alloc : ST state Z :=
  s ← get;
  let r := freelist s in
  (if negb (r =? 0) then put (mkstate (load32 (memory s) r) (memory s)) else mret tt);;
  mret r.

(** [freerange], with [kfree] the entry point of kalloc.c it calls for every
    page (its state is the whole allocator layer's). *)
Fixpoint freerange_loop {S} (fuel : nat) (kfree : Z -> ST S unit) (p vend : Z) : ST S unit :=
  if p + PGSIZE <=? vend then
    match fuel with
    | O => out_of_fuel
    | Datatypes.S f => kfree p;; freerange_loop f kfree (p + PGSIZE) vend
    end
  else mret tt.

Definition freerange {S} (kfree : Z -> ST S unit) (vstart vend : Z) : ST S unit :=
  freerange_loop (Z.to_nat ((vend - vstart) / PGSIZE + 1)) kfree (PGROUNDUP vstart) vend.

Definition freelist_init {S} (kfree : Z -> ST S unit) (vstart vend : Z) : ST S unit :=
  freerange kfree vstart vend.

(** ** The list that the memory holds *)

Definition page_ok (v : Z) : Prop :=
  v mod PGSIZE = 0 /\ kend <= v /\ KERNBASE <= v < KERNBASE + PHYSTOP.

Fixpoint linked (m : mem) (p : Z) (L : list Z) : Prop :=
  match L with
  | [] => p = 0
  | x :: L' => p = x /\ linked m (load32 m x) L'
  end.

(** [L] is the free list: distinct pages, chained in this order. *)
Record free_list (s : state) (L : list Z) : Prop := {
  fl_linked : linked (memory s) (freelist s) L;
  fl_pages : forall v, v ∈ L -> page_ok v;
  fl_nodup : NoDup L
}.

Lemma page_ok_guard v :
  page_ok v -> negb (v mod PGSIZE =? 0) || (v <? kend) || (PHYSTOP <=? V2P v) = false.
Proof.
  intros (Ha & Hk & Hb). rewrite Ha, V2P_spec by (unfold KERNBASE, PHYSTOP in *; lia).
  simpl. unfold KERNBASE, PHYSTOP in *. lia.
Qed.

Lemma page_apart v x : page_ok v -> page_ok x -> x <> v -> v + PGSIZE <= x \/ x + 4 <= v.
Proof.
  intros (Ha & _) (Hb & _) Hne. unfold PGSIZE in *.
  Z.to_euclidean_division_equations; lia.
Qed.

Lemma linked_ext m m' L : forall p,
  (forall x, x ∈ L -> load32 m' x = load32 m x) -> linked m p L -> linked m' p L.
Proof.
  induction L as [|x L IH]; intros p H; simpl; [done|]. intros [-> HL]. split; [done|].
  rewrite H by (by left). apply IH; [|done]. intros y Hy. apply H. by right.
Qed.

(** Freeing page [v] puts it at the head of the list and writes in it only. *)
Lemma free_spec s L v :
  free_list s L -> page_ok v -> v ∉ L ->
  exists s', freelist_free v s = Ok (tt, s') /\ free_list s' (v :: L) /\
    (forall x, ~ (v <= x < v + PGSIZE) -> memory s' x = memory s x) /\
    (byte_ok (memory s) -> byte_ok (memory s')).
Proof.
  intros [Hl Hp Hn] Hv Hnv. unfold freelist_free. rewrite page_ok_guard by done. rewrite run_get.
  set (m := Cstring.memset v 1 (Z.to_nat PGSIZE) (memory s)).
  assert (Hm : forall x, ~ (v <= x < v + PGSIZE) -> m x = memory s x).
  { intros x Hx. unfold m. rewrite Cstring.memset_spec, decide_False; [done|]. unfold PGSIZE in *. lia. }
  assert (Hm' : forall x, ~ (v <= x < v + PGSIZE) -> store32 v (freelist s) m x = memory s x).
  { intros x Hx. rewrite store32_ne by (unfold PGSIZE in *; lia). by apply Hm. }
  eexists. split; [done|].
  split; [|split; [exact Hm'|intros Hb; by apply store32_byte_ok, Cstring.memset_byte_ok]]. split; simpl.
  - split; [done|]. rewrite load32_store32_eq.
    assert (Hh : 0 <= freelist s < 2 ^ 32).
    { destruct L as [|x L]; simpl in Hl; [lia|]. destruct Hl as [-> _].
      destruct (Hp x) as (_ & _ & ?); [by left|]. unfold KERNBASE, PHYSTOP in *. lia. }
    rewrite u32_small by done. apply (linked_ext (memory s)); [|done].
    intros x Hx. apply load32_ext. intros y Hy. apply Hm'.
    destruct (page_apart v x Hv (Hp x Hx)); [congruence|lia|lia].
  - intros x [->|Hx]%elem_of_cons; auto.
  - by apply NoDup_cons.
Qed.

(** Allocation takes the head of the list, or returns NULL if it is empty. *)
Lemma alloc_spec s L :
  free_list s L -> 0 < kend ->
  exists s', freelist_alloc s = Ok (hd 0 L, s') /\ free_list s' (tl L) /\ memory s' = memory s.
Proof.
  intros [Hl Hp Hn] Hk. unfold freelist_alloc. rewrite run_get. destruct L as [|x L]; simpl in *.
  - rewrite Hl. cbn. exists s. split; [done|]. split; [|done]. by split; [rewrite Hl| |].
  - destruct Hl as [-> Hl]. destruct (Hp x) as (_ & ? & _); [by left|].
    rewrite (proj2 (Z.eqb_neq x 0)) by lia. cbn [negb].
    eexists. split; [done|]. split; [|done]. apply NoDup_cons in Hn as [_ Hn].
    split; [done| |done]. intros v Hv. apply Hp. by right.
Qed.

End Ops.

End Freelist.
