(* ===== verification/Kalloc.v ===== *)
(** * The allocator layer (kern/mm/kalloc.c)

    The table of allocators, the dispatching entry points, and the interface
    that the rest of the kernel relies on: [PageAlloc], a typeclass whose laws
    hold for the free list, for the buddy allocator and for the dispatcher. *)

From Stdlib Require Import ZArith Lia.
From stdpp Require Import base numbers strings list gmap.
From S2P Require Import Prelude Mem Mmu Cstring Dll Buddy BuddySpec BuddyThm Freelist.

Open Scope Z_scope.

Import Mem Mmu.

Module Kalloc.

(** ** The table and its entry points *)

(** The state of both allocators and [current_allocator]; the memory is the
    second half of every state of this file. *)
Record alloc_state := mkalloc { fl : Z; bd : Buddy.kmem; current_allocator : Z }.

Definition state : Type := alloc_state * mem.

Definition FREELIST : Z := 0.
Definition BUDDY : Z := 1.

(** Running the code of freelist.c and of buddy.c on its part of the state. *)
Definition on_freelist {A} (m : ST Freelist.state A) : ST state A :=
  zoom (fun s => Freelist.mkstate (fl s.1) s.2)
       (fun t s => (mkalloc (Freelist.freelist t) (bd s.1) (current_allocator s.1), Freelist.memory t)) m.

Definition on_buddy {A} (m : ST Buddy.kmem A) : ST state A :=
  zoom (fun s => bd s.1) (fun t s => (mkalloc (fl s.1) t (current_allocator s.1), s.2)) m.

Section Entry.

Variable kend : Z.

Definition switch_allocator (id : Z) : ST state unit :=
  modify (fun s => (mkalloc (fl s.1) (bd s.1) id, s.2)).

(** Entries 2 and 3 of the table are zero: a call through them faults. *)
Definition kalloc : ST state Z :=
  s ← get;
  if current_allocator s.1 =? FREELIST then on_freelist Freelist.freelist_alloc
  else if current_allocator s.1 =? BUDDY then on_buddy Buddy.buddy_alloc_page
  else fault.

Definition kfree (p : Z) : ST state unit :=
  s ← get;
  if current_allocator s.1 =? FREELIST then on_freelist (Freelist.freelist_free kend p)
  else if current_allocator s.1 =? BUDDY then on_buddy (Buddy.buddy_free_page p)
  else fault.

Definition initmem (vstart vend : Z) : ST state unit :=
  s ← get;
  if current_allocator s.1 =? FREELIST then Freelist.freelist_init kfree vstart vend
  else if current_allocator s.1 =? BUDDY then on_buddy (Buddy.buddy_init vstart vend)
  else fault.

(** [sizeof(mblock_t)] and the offset of [blocks]. *)
Definition sizeof_mblock : Z := 4.

(** [buddy_kmalloc2] calls [kmalloc], the dispatching entry point, which is
    the argument here because the two call each other. *)
Definition buddy_kmalloc2 (kmalloc : Z -> ST state Z) (size : Z) : ST state Z :=
  order ← on_buddy (Buddy.buddy_get_order (u32 (size + sizeof_mblock + 1)));
  blk ← kmalloc order;
  modify (fun s => (s.1, store32 blk order s.2));;
  mret (u32 (blk + sizeof_mblock)).

Definition buddy_kmfree2 (v : Z) : ST state unit :=
  s ← get;
  let blk := u32 (v - sizeof_mblock) in
  on_buddy (Buddy.buddy_kmfree blk (s32 (load32 s.2 blk))).

(** [fuel] bounds the nesting of calls. *)
Fixpoint kmalloc (fuel : nat) (size : Z) : ST state Z :=
  match fuel with
  | O => out_of_fuel
  | S f =>
      s ← get;
      if current_allocator s.1 =? BUDDY then buddy_kmalloc2 (kmalloc f) size
      else panic "Current allocator doesn't support dynamic size."
  end.

Definition kmfree (p : Z) : ST state unit :=
  s ← get;
  if current_allocator s.1 =? BUDDY then buddy_kmfree2 p
  else panic "Current allocator doesn't support dynamic size.".

End Entry.

(** ** The interface of a page allocator

    [pa_inv a m Fr]: the allocator is well formed and its free pages are [Fr].
    [pa_managed a p]: [p] is a page of the allocator, free or not. *)
Class PageAlloc (A : Type) := {
  pa_alloc : ST (A * mem) Z;
  pa_free : Z -> ST (A * mem) unit;
  pa_inv : A -> mem -> gset Z -> Prop;
  pa_managed : A -> Z -> Prop;
  pa_free_managed a m Fr p : pa_inv a m Fr -> p ∈ Fr -> pa_managed a p;
  pa_page a m Fr p : pa_inv a m Fr -> pa_managed a p ->
    p mod PGSIZE = 0 /\ KERNBASE < p /\ p + PGSIZE <= 2 ^ 32;
  pa_frame a m m' Fr : pa_inv a m Fr ->
    (forall p x, p ∈ Fr -> p <= x < p + PGSIZE -> m' x = m x) -> pa_inv a m' Fr;
  pa_alloc_ok a m Fr : pa_inv a m Fr ->
    exists r a', pa_alloc (a, m) = Ok (r, (a', m)) /\
      (forall p, pa_managed a' p <-> pa_managed a p) /\
      ((r = 0 /\ Fr = ∅ /\ pa_inv a' m Fr) \/ (r ∈ Fr /\ pa_inv a' m (Fr ∖ {[r]})));
  pa_free_ok a m Fr p : pa_inv a m Fr -> pa_managed a p -> p ∉ Fr ->
    exists a' m', pa_free p (a, m) = Ok (tt, (a', m')) /\
      (forall q, pa_managed a' q <-> pa_managed a q) /\
      pa_inv a' m' ({[p]} ∪ Fr) /\
      (forall x, ~ (p <= x < p + PGSIZE) -> m' x = m x) /\ (byte_ok m -> byte_ok m')
}.

(** ** The buddy allocator as a page allocator *)

(** All free blocks are pages, and [Fr] are their addresses. *)
Definition buddy_pages (k : Buddy.kmem) (Fr : gset Z) : Prop :=
  exists n F, Buddy.linkable n Buddy.MAX_ORD /\
    BuddySpec.inv k n ((Buddy.kend k - Buddy.start_heap k) / PGSIZE) F /\
    Buddy.lock k = false /\ Buddy.initialized k = true /\ KERNBASE < Buddy.start_heap k /\
    (forall o b, (o, b) ∈ F -> o = Buddy.MAX_ORD) /\
    (forall p, p ∈ Fr <-> exists b, (Buddy.MAX_ORD, b) ∈ F /\ p = Buddy.start_heap k + PGSIZE * b).

Definition buddy_managed (k : Buddy.kmem) (p : Z) : Prop :=
  exists b, 0 <= b < (Buddy.kend k - Buddy.start_heap k) / PGSIZE /\
    p = Buddy.start_heap k + PGSIZE * b.

Definition freelist_pages (kend : Z) (h : Z) (m : mem) (Fr : gset Z) : Prop :=
  exists L, Freelist.free_list kend (Freelist.mkstate h m) L /\ Fr = list_to_set L.

(** ** Both allocators behind the dispatcher *)

Definition inv (kend : Z) (a : alloc_state) (m : mem) (Fr : gset Z) : Prop :=
  KERNBASE < kend /\
  ((current_allocator a = FREELIST /\ freelist_pages kend (fl a) m Fr) \/
   (current_allocator a = BUDDY /\ buddy_pages (bd a) Fr)).

Definition managed (kend : Z) (a : alloc_state) (p : Z) : Prop :=
  (current_allocator a = FREELIST /\ Freelist.page_ok kend p) \/
  (current_allocator a = BUDDY /\ buddy_managed (bd a) p).

Lemma page_is : BuddySpec.page = PGSIZE.
Proof. done. Qed.

Lemma max_valid : Buddy.valid_order Buddy.MAX_ORD.
Proof. split; unfold Buddy.MIN_ORD, Buddy.MAX_ORD; lia. Qed.

Lemma pow_max : 2 ^ Buddy.MAX_ORD = PGSIZE.
Proof. done. Qed.

Lemma page_in_heap n P b :
  Buddy.linkable n Buddy.MAX_ORD -> 0 <= b < P -> BuddySpec.in_heap n P (Buddy.MAX_ORD, b).
Proof.
  intros Hlk Hb. split; [split; [apply max_valid|done]|]. simpl. rewrite page_is.
  change (2 ^ Buddy.MAX_ORD) with PGSIZE. unfold PGSIZE. lia.
Qed.

(** Pages overlap only if they are the same. *)
Lemma page_block_covered n P F b a :
  (forall o b', (o, b') ∈ F -> o = Buddy.MAX_ORD) -> BuddySpec.blocks_ok n P F ->
  BuddySpec.in_blk (Buddy.MAX_ORD, b) a -> BuddySpec.covers F a -> (Buddy.MAX_ORD, b) ∈ F.
Proof.
  intros Hall HB Ha ([o b'] & Hin & Ha'). pose proof (Hall _ _ Hin) as ->.
  rewrite BuddySpec.in_blk_div in Ha, Ha' by apply max_valid. congruence.
Qed.

Lemma buddy_alloc_ok k Fr :
  buddy_pages k Fr -> exists r k', Buddy.buddy_alloc_page k = Ok (r, k') /\
    (forall p, buddy_managed k' p <-> buddy_managed k p) /\
    ((r = 0 /\ Fr = ∅ /\ buddy_pages k' Fr) \/ (r ∈ Fr /\ buddy_pages k' (Fr ∖ {[r]}))).
Proof.
  intros (n & F & Hlk & Hinv & Hl & Hi & Hb & Hall & HFr).
  destruct (BuddySpec.run_kmalloc k n _ F Buddy.MAX_ORD Hinv Hl Hi max_valid Hlk) as (r & k' & Hrun & Hres).
  exists r, k'. split; [exact Hrun|].
  destruct Hres as [(-> & -> & Hnone)|(b & Hin & -> & Hfull & F' & Hinv' & Hss & Hcov)].
  - split; [done|]. left. split; [done|]. split; [|by exists n, F].
    apply elem_of_equiv_empty_L. intros p (b & Hb' & _)%HFr.
    by apply (Hnone Buddy.MAX_ORD b).
  - destruct Hss as (Hl' & _ & Hs' & He' & Hi'). unfold buddy_managed, buddy_pages.
    rewrite Hs', He', Hl', Hi'. split; [done|]. right.
    assert (HbF : (Buddy.MAX_ORD, b) ∈ F).
    { eapply page_block_covered; [done|apply Hinv| |apply Hfull];
        apply BuddySpec.in_blk_first, max_valid. }
    assert (F' = F ∖ {[(Buddy.MAX_ORD, b)]}) as ->.
    { eapply BuddySpec.canonical; [apply Hinv'|apply BuddySpec.blocks_ok_del, Hinv|].
      intros a. rewrite Hcov. symmetry. eapply BuddySpec.covers_del; [apply Hinv|done]. }
    rewrite pow_max. split; [apply HFr; eauto|].
    exists n, (F ∖ {[(Buddy.MAX_ORD, b)]}). split; [done|]. split; [done|].
    split; [done|]. split; [done|]. split; [done|]. split.
    + intros o b' Hin'. apply (Hall o b'). set_solver.
    + intros p. rewrite elem_of_difference, elem_of_singleton, HFr. split.
      * intros [(b' & Hb' & ->) Hne]. exists b'. split; [|done]. apply elem_of_difference.
        split; [done|]. intros [= ->]%elem_of_singleton. done.
      * intros (b' & [Hb' Hne]%elem_of_difference & ->). split; [eauto|].
        intros Heq. apply Hne, elem_of_singleton. f_equal. unfold PGSIZE in Heq. lia.
Qed.

Lemma buddy_free_ok k Fr p :
  buddy_pages k Fr -> buddy_managed k p -> p ∉ Fr ->
  exists k', Buddy.buddy_free_page p k = Ok (tt, k') /\
    (forall q, buddy_managed k' q <-> buddy_managed k q) /\ buddy_pages k' ({[p]} ∪ Fr).
Proof.
  intros (n & F & Hlk & Hinv & Hl & Hi & Hb & Hall & HFr) (b & Hbr & ->) Hnf.
  pose proof (page_in_heap n _ b Hlk Hbr) as Hin.
  assert (HbF : (Buddy.MAX_ORD, b) ∉ F) by (intros H; apply Hnf, HFr; eauto).
  assert (Hn : forall a, BuddySpec.in_blk (Buddy.MAX_ORD, b) a -> ~ BuddySpec.covers F a).
  { intros a Ha Hc. apply HbF. eapply page_block_covered; eauto. apply Hinv. }
  destruct (BuddySpec.run_kmfree k n _ F Buddy.MAX_ORD b Hinv Hl Hin Hn)
    as (k' & Hrun & F' & Hinv' & Hss & Hcov).
  exists k'. split; [exact Hrun|].
  destruct Hss as (Hl' & _ & Hs' & He' & Hi'). unfold buddy_managed, buddy_pages.
  rewrite Hs', He', Hl', Hi'. split; [done|].
  assert (F' = {[(Buddy.MAX_ORD, b)]} ∪ F) as ->.
  { eapply BuddySpec.canonical; [apply Hinv'| |].
    - apply BuddySpec.blocks_ok_add; [apply Hinv|done|done|lia].
    - intros a. rewrite Hcov, BuddySpec.covers_add. tauto. }
  exists n, ({[(Buddy.MAX_ORD, b)]} ∪ F). split; [done|]. split; [done|].
  split; [done|]. split; [done|]. split; [done|]. split.
  - intros o b' [[= -> ->]%elem_of_singleton|Hin']%elem_of_union; [done|]. by apply (Hall o b').
  - intros p. rewrite elem_of_union, elem_of_singleton, HFr. split.
    + intros [->|(b' & Hb' & ->)]; [exists b; set_solver|exists b'; set_solver].
    + intros (b' & [[= ->]%elem_of_singleton|Hb']%elem_of_union & ->); eauto.
Qed.

Lemma buddy_page k Fr p :
  buddy_pages k Fr -> buddy_managed k p ->
  p mod PGSIZE = 0 /\ KERNBASE < p /\ p + PGSIZE <= 2 ^ 32.
Proof.
  intros (n & F & _ & [_ [_ Ha He _] _] & _ & _ & Hk & _) (b & Hb & ->).
  rewrite page_is in *. unfold PGSIZE in *. split; [|lia].
  rewrite Z.mul_comm, Z.mod_add by lia. done.
Qed.

Lemma buddy_free_managed k Fr p : buddy_pages k Fr -> p ∈ Fr -> buddy_managed k p.
Proof.
  intros (n & F & _ & [_ _ HB] & _ & _ & _ & _ & HFr) (b & Hb & ->)%HFr. exists b. split; [|done].
  destruct (BuddySpec.b_heap _ _ _ HB _ Hb) as (_ & H0 & H1). simpl in *.
  rewrite page_is in H1. change (2 ^ Buddy.MAX_ORD) with PGSIZE in H1. unfold PGSIZE in *. lia.
Qed.

(** ** The free list as a page allocator *)

Lemma freelist_frame kend h m m' Fr :
  freelist_pages kend h m Fr -> (forall p x, p ∈ Fr -> p <= x < p + PGSIZE -> m' x = m x) ->
  freelist_pages kend h m' Fr.
Proof.
  intros (L & [Hl Hp Hn] & ->) Hx. exists L. split; [|done]. split; [|done|done].
  apply (Freelist.linked_ext m); [|done]. intros x Hin. apply load32_ext. intros y Hy. simpl.
  apply (Hx x); [by apply elem_of_list_to_set|unfold PGSIZE; lia].
Qed.

Lemma freelist_alloc_ok kend h m Fr :
  0 < kend -> freelist_pages kend h m Fr ->
  exists r h', Freelist.freelist_alloc (Freelist.mkstate h m) = Ok (r, Freelist.mkstate h' m) /\
    ((r = 0 /\ Fr = ∅ /\ freelist_pages kend h' m Fr) \/
     (r ∈ Fr /\ freelist_pages kend h' m (Fr ∖ {[r]}))).
Proof.
  intros Hk (L & HL & ->). destruct (Freelist.alloc_spec kend _ L HL Hk) as ([h' m'] & Hrun & HL' & Hm).
  simpl in Hm. subst m'. exists (hd 0 L), h'. split; [done|].
  destruct L as [|x L]; simpl in *; [left; repeat split; by exists []|right].
  split; [set_solver|]. exists L. split; [done|].
  destruct HL as [_ _ Hn]. apply NoDup_cons in Hn as [Hx _]. set_solver.
Qed.

Lemma freelist_free_ok kend h m Fr p :
  freelist_pages kend h m Fr -> Freelist.page_ok kend p -> p ∉ Fr ->
  exists h' m', Freelist.freelist_free kend p (Freelist.mkstate h m) = Ok (tt, Freelist.mkstate h' m') /\
    freelist_pages kend h' m' ({[p]} ∪ Fr) /\ (forall x, ~ (p <= x < p + PGSIZE) -> m' x = m x) /\
    (byte_ok m -> byte_ok m').
Proof.
  intros (L & HL & ->) Hp Hnf. rewrite elem_of_list_to_set in Hnf.
  destruct (Freelist.free_spec kend _ L p HL Hp Hnf) as ([h' m'] & Hrun & HL' & Hm).
  exists h', m'. split; [done|]. split; [|done]. exists (p :: L). split; [done|]. set_solver.
Qed.

(** ** The laws of the dispatcher *)

Section Dispatch.

Variable kend : Z.

Lemma inv_free_managed a m Fr p : inv kend a m Fr -> p ∈ Fr -> managed kend a p.
Proof.
  intros [Hk [[Hc (L & [_ Hp _] & ->)]|[Hc Hb]]] Hin; [left|right]; (split; [done|]).
  - apply Hp. by apply elem_of_list_to_set in Hin.
  - by eapply buddy_free_managed.
Qed.

Lemma inv_page a m Fr p : inv kend a m Fr -> managed kend a p ->
  p mod PGSIZE = 0 /\ KERNBASE < p /\ p + PGSIZE <= 2 ^ 32.
Proof.
  intros [Hk [[Hc Hf]|[Hc Hb]]] [[Hc' Hp]|[Hc' Hp]]; try (unfold FREELIST, BUDDY in *; congruence).
  - destruct Hp as (Ha & Hke & Hr). unfold KERNBASE, PHYSTOP, PGSIZE in *.
    split; [done|]. split; [lia|]. lia.
  - by eapply buddy_page.
Qed.

Lemma inv_frame a m m' Fr : inv kend a m Fr ->
  (forall p x, p ∈ Fr -> p <= x < p + PGSIZE -> m' x = m x) -> inv kend a m' Fr.
Proof.
  intros [Hk [[Hc Hf]|[Hc Hb]]] Hx; (split; [done|]); [left|right]; (split; [done|]); [|done].
  by eapply freelist_frame.
Qed.

Lemma kalloc_spec a m Fr : inv kend a m Fr ->
  exists r a', kalloc (a, m) = Ok (r, (a', m)) /\
    (forall p, managed kend a' p <-> managed kend a p) /\
    ((r = 0 /\ Fr = ∅ /\ inv kend a' m Fr) \/ (r ∈ Fr /\ inv kend a' m (Fr ∖ {[r]}))).
Proof.
  intros [Hk [[Hc Hf]|[Hc Hb]]]; unfold kalloc; rewrite run_get; simpl; rewrite Hc; simpl.
  - destruct (freelist_alloc_ok kend (fl a) m Fr ltac:(unfold KERNBASE in Hk; lia) Hf) as (r & h' & Hrun & Hres).
    unfold on_freelist, zoom. simpl. rewrite Hrun.
    eexists r, _. split; [done|]. split; [done|].
    destruct Hres as [(-> & -> & H)|[Hr H]]; [left|right]; (split; [done|]).
    + split; [done|]. split; [done|]. by left.
    + split; [done|]. by left.
  - destruct (buddy_alloc_ok (bd a) Fr Hb) as (r & k' & Hrun & Hman & Hres).
    unfold on_buddy, zoom. simpl. rewrite Hrun.
    eexists r, _. split; [done|].
    split; [intros p; unfold managed; simpl; by rewrite Hman|].
    destruct Hres as [(-> & -> & H)|[Hr H]]; [left|right]; (split; [done|]).
    + split; [done|]. split; [done|]. by right.
    + split; [done|]. by right.
Qed.

Lemma kfree_spec a m Fr p : inv kend a m Fr -> managed kend a p -> p ∉ Fr ->
  exists a' m', kfree kend p (a, m) = Ok (tt, (a', m')) /\
    (forall q, managed kend a' q <-> managed kend a q) /\
    inv kend a' m' ({[p]} ∪ Fr) /\ (forall x, ~ (p <= x < p + PGSIZE) -> m' x = m x) /\
    (byte_ok m -> byte_ok m').
Proof.
  intros [Hk [[Hc Hf]|[Hc Hb]]] [[Hc' Hp]|[Hc' Hp]] Hnf; try (unfold FREELIST, BUDDY in *; congruence);
    unfold kfree; rewrite run_get; simpl; rewrite Hc; simpl.
  - destruct (freelist_free_ok kend (fl a) m Fr p Hf Hp Hnf) as (h' & m' & Hrun & Hf' & Hm').
    unfold on_freelist, zoom. simpl. rewrite Hrun.
    eexists _, m'. split; [done|]. split; [done|]. split; [|done]. split; [done|]. by left.
  - destruct (buddy_free_ok (bd a) Fr p Hb Hp Hnf) as (k' & Hrun & Hman & Hb').
    unfold on_buddy, zoom. simpl. rewrite Hrun.
    eexists _, m. split; [done|].
    split; [intros q; unfold managed; simpl; by rewrite Hman|].
    split; [|done]. split; [done|]. by right.
Qed.

(** [kfree] and [kalloc] leave [current_allocator] alone. *)
Lemma kfree_current a m p a' m' :
  kfree kend p (a, m) = Ok (tt, (a', m')) -> current_allocator a' = current_allocator a.
Proof.
  unfold kfree. rewrite run_get. unfold on_freelist, on_buddy, zoom.
  repeat case_match; intros; simplify_eq; done.
Qed.

(** The loop of [freerange] frees the pages from [p] on. *)
Lemma freerange_loop_spec vend fuel : forall p a m Fr,
  inv kend a m Fr -> current_allocator a = FREELIST -> p mod PGSIZE = 0 -> kend <= p ->
  KERNBASE <= p -> vend <= KERNBASE + PHYSTOP -> (forall v, v ∈ Fr -> v < p) ->
  vend - p < PGSIZE * Z.of_nat (S fuel) ->
  exists a' m' Fr', Freelist.freerange_loop fuel (kfree kend) p vend (a, m) = Ok (tt, (a', m')) /\
    inv kend a' m' Fr' /\ current_allocator a' = FREELIST /\
    (forall v, v ∈ Fr' <-> v ∈ Fr \/ (v mod PGSIZE = 0 /\ p <= v /\ v + PGSIZE <= vend)).
Proof.
  induction fuel as [|fuel IH]; intros p a m Fr HI Hc Hp Hk Hb Hv Hlt Hf;
    cbn [Freelist.freerange_loop]; destruct (Z.leb_spec (p + PGSIZE) vend) as [Hle|Hgt].
  1: unfold PGSIZE in *; lia.
  1,3: exists a, m, Fr; repeat (split; [done|]); intros v; split; [tauto|];
    intros [?|(? & ? & ?)]; [done|unfold PGSIZE in *; lia].
  assert (Hpo : managed kend a p)
    by (left; unfold Freelist.page_ok, PGSIZE, KERNBASE, PHYSTOP in *; lia).
  assert (Hpn : p ∉ Fr) by (intros Hin; apply Hlt in Hin; lia).
  destruct (kfree_spec a m Fr p HI Hpo Hpn) as (a1 & m1 & Hrun & _ & HI1 & _).
  rewrite (run_bind _ _ _ _ _ Hrun).
  destruct (IH (p + PGSIZE) a1 m1 ({[p]} ∪ Fr)) as (a' & m' & Fr' & Hrun' & HI' & Hc' & Hin');
    unfold PGSIZE in *; try done; try lia.
  - by rewrite (kfree_current _ _ _ _ _ Hrun).
  - Z.to_euclidean_division_equations; lia.
  - intros v [->%elem_of_singleton|Hin]%elem_of_union; [lia|]. apply Hlt in Hin. lia.
  - exists a', m', Fr'. repeat (split; [done|]). intros v.
    rewrite Hin', elem_of_union, elem_of_singleton.
    split; [intros [[->|?]|?]|intros [?|(? & ? & ?)]]; try tauto.
    + right. repeat split; lia || done.
    + right. lia.
    + destruct (decide (v = p)) as [->|]; [tauto|]. right.
      Z.to_euclidean_division_equations; lia.
Qed.

Lemma initmem_freelist a m vstart vend :
  current_allocator a = FREELIST -> fl a = 0 -> KERNBASE < kend <= vstart ->
  KERNBASE <= vstart <= vend -> vend <= KERNBASE + PHYSTOP ->
  exists a' m' Fr, initmem kend vstart vend (a, m) = Ok (tt, (a', m')) /\ inv kend a' m' Fr /\
    (forall v, v ∈ Fr <-> v mod PGSIZE = 0 /\ vstart <= v /\ v + PGSIZE <= vend).
Proof.
  intros Hc H0 Hk Hb Hv. unfold initmem. rewrite run_get. simpl. rewrite Hc. simpl.
  unfold Freelist.freelist_init, Freelist.freerange.
  assert (Hup : PGROUNDUP vstart = 4096 * ((vstart + 4095) / 4096))
    by (apply PGROUNDUP_spec; unfold KERNBASE, PHYSTOP, PGSIZE in *; lia).
  destruct (freerange_loop_spec vend (Z.to_nat ((vend - vstart) / PGSIZE + 1))
    (PGROUNDUP vstart) a m ∅) as (a' & m' & Fr & Hrun & HI & _ & Hin).
  - split; [lia|]. left. split; [done|]. exists []. split; [|done].
    split; simpl; [done|set_solver|by apply NoDup_nil].
  - done.
  - rewrite Hup. unfold PGSIZE. rewrite Z.mul_comm. by apply Z.mod_mul.
  - rewrite Hup. Z.to_euclidean_division_equations; lia.
  - rewrite Hup. Z.to_euclidean_division_equations; lia.
  - done.
  - set_solver.
  - rewrite Hup. unfold PGSIZE. Z.to_euclidean_division_equations; lia.
  - exists a', m', Fr. split; [done|]. split; [done|]. intros v. rewrite Hin, Hup. unfold PGSIZE.
    split; [intros [?%elem_of_empty|?]; [done|]|intros ?; right];
      Z.to_euclidean_division_equations; lia.
Qed.

(** The free-list phase does not touch the buddy allocator. *)
Lemma freerange_bd fuel : forall p vend a m a' m',
  current_allocator a = FREELIST ->
  Freelist.freerange_loop fuel (kfree kend) p vend (a, m) = Ok (tt, (a', m')) -> bd a' = bd a.
Proof.
  induction fuel as [|fuel IH]; intros p vend a m a' m' Hc; cbn [Freelist.freerange_loop];
    (destruct (p + PGSIZE <=? vend); [|by intros [= -> ->]]); [done|].
  destruct (kfree kend p (a, m)) as [[[] [a1 m1]]| | | |] eqn:Hk; unfold mbind, ST_bind; rewrite Hk; try done.
  intros Hrun. rewrite (IH _ _ _ _ _ _ (eq_trans (kfree_current _ _ _ _ _ Hk) Hc) Hrun).
  unfold kfree in Hk. rewrite run_get in Hk. simpl in Hk. rewrite Hc in Hk.
  unfold on_freelist, zoom in Hk. simpl in Hk. repeat case_match; by simplify_eq.
Qed.

Lemma initmem_bd a m vstart vend a' m' :
  current_allocator a = FREELIST -> initmem kend vstart vend (a, m) = Ok (tt, (a', m')) -> bd a' = bd a.
Proof.
  intros Hc. unfold initmem. rewrite run_get. simpl. rewrite Hc. by apply freerange_bd.
Qed.

#[global] Instance kalloc_pages : PageAlloc alloc_state := {|
  pa_alloc := kalloc;
  pa_free := kfree kend;
  pa_inv := inv kend;
  pa_managed := managed kend;
  pa_free_managed := inv_free_managed;
  pa_page := inv_page;
  pa_frame := inv_frame;
  pa_alloc_ok := kalloc_spec;
  pa_free_ok := kfree_spec
|}.

End Dispatch.

(** ** The heap after [buddy_init] *)

(** The first [P] blocks of the top order. *)
Definition top_blocks (P : nat) : gset (Z * Z) :=
  list_to_set (map (fun i => (Buddy.MAX_ORD, Z.of_nat i)) (seq 0 P)).

Lemma elem_of_top_blocks P o b :
  (o, b) ∈ top_blocks P <-> o = Buddy.MAX_ORD /\ 0 <= b < Z.of_nat P.
Proof.
  unfold top_blocks. rewrite elem_of_list_to_set, list_elem_of_fmap. split.
  - intros (i & [= -> ->] & Hi%elem_of_seq). lia.
  - intros (-> & Hb). exists (Z.to_nat b). rewrite Z2Nat.id by lia. split; [done|].
    apply elem_of_seq. lia.
Qed.

Lemma top_blocks_ok n P :
  Buddy.linkable n Buddy.MAX_ORD -> BuddySpec.blocks_ok n (Z.of_nat P) (top_blocks P).
Proof.
  intros Hlk. split.
  - intros [o b] [-> Hb]%elem_of_top_blocks. by apply page_in_heap.
  - intros [o b] [o' b'] a [-> Hb]%elem_of_top_blocks [-> Hb']%elem_of_top_blocks.
    rewrite !BuddySpec.in_blk_div by apply max_valid. congruence.
  - intros o b Hlt [-> _]%elem_of_top_blocks. lia.
Qed.

Lemma covers_top_blocks P a : BuddySpec.covers (top_blocks P) a <-> 0 <= a < PGSIZE * Z.of_nat P.
Proof.
  unfold BuddySpec.covers. split.
  - intros ([o b] & [-> Hb]%elem_of_top_blocks & Ha).
    change (PGSIZE * b <= a < PGSIZE * (b + 1)) in Ha. unfold PGSIZE in *. lia.
  - intros Ha. exists (Buddy.MAX_ORD, a / PGSIZE). rewrite elem_of_top_blocks.
    change (BuddySpec.in_blk (Buddy.MAX_ORD, a / PGSIZE) a) with
      (PGSIZE * (a / PGSIZE) <= a < PGSIZE * (a / PGSIZE + 1)).
    unfold PGSIZE in *. split; [split; [done|]|]; Z.to_euclidean_division_equations; lia.
Qed.

(** The pages from [H] on. *)
Definition pages_from (H : Z) (P : nat) : gset Z :=
  list_to_set (map (fun i => H + PGSIZE * Z.of_nat i) (seq 0 P)).

Lemma elem_of_pages_from H P p :
  p ∈ pages_from H P <-> exists i, 0 <= i < Z.of_nat P /\ p = H + PGSIZE * i.
Proof.
  unfold pages_from. rewrite elem_of_list_to_set, list_elem_of_fmap. split.
  - intros (i & -> & Hi%elem_of_seq). exists (Z.of_nat i). split; [lia|done].
  - intros (i & Hi & ->). exists (Z.to_nat i). rewrite Z2Nat.id by lia. split; [done|].
    apply elem_of_seq. lia.
Qed.

(** After [buddy_init] over whole pages the free pages are those of the heap. *)
Lemma buddy_init_pages k vstart vend :
  BuddyThm.init_range vstart vend -> KERNBASE < vstart -> vend mod PGSIZE = 0 ->
  length (Buddy.orders k) = 7%nat ->
  let H := BuddyThm.heap_start vstart (BuddyThm.marks_for vstart vend) in
  H <= vend ->
  exists k', Buddy.buddy_init vstart vend k = Ok (tt, k') /\
    buddy_pages k' (pages_from H (Z.to_nat ((vend - H) / PGSIZE))).
Proof.
  intros Hr Hb Hal Hlen H HH.
  destruct (BuddyThm.run_buddy_init vstart vend k Hr Hlen)
    as (k' & F & Hrun & Hinv & Hl & Hi & Hke & Hsh & Hcov).
  exists k'. split; [done|]. fold H in Hsh.
  destruct (BuddyThm.init_bounds vstart vend Hr) as (Hn & HHb). fold H in HHb.
  assert (HP : BuddyThm.heap_pages vstart vend = (vend - H) / PGSIZE).
  { unfold BuddyThm.heap_pages. fold H. rewrite page_is. pose proof (BuddySpec.h_aligned _ _ _ (BuddySpec.i_heap _ _ _ _ Hinv)) as Hal'.
    rewrite Hsh, page_is in Hal'. unfold PGSIZE in *. Z.to_euclidean_division_equations; lia. }
  rewrite HP in *. set (n := BuddyThm.marks_for vstart vend) in *.
  assert (HPz : Z.of_nat (Z.to_nat ((vend - H) / PGSIZE)) = (vend - H) / PGSIZE)
    by (apply Z2Nat.id, Z.div_pos; unfold PGSIZE; lia).
  set (P := Z.to_nat ((vend - H) / PGSIZE)) in *. clearbody P.
  assert (Hlk : Buddy.linkable n Buddy.MAX_ORD).
  { split; [lia|]. unfold Buddy.nmarks, Buddy.NIL. rewrite Z.sub_diag. change (2 ^ 0) with 1. lia. }
  assert (F = top_blocks P) as ->.
  { eapply (BuddySpec.canonical n ((vend - H) / PGSIZE)); [apply Hinv|rewrite <- HPz; by apply top_blocks_ok|].
    intros x. by rewrite Hcov, covers_top_blocks, page_is, HPz. }
  exists n, (top_blocks P). rewrite Hsh, Hke.
  split; [done|]. split; [done|]. split; [done|]. split; [done|]. split; [lia|].
  split; [by intros o b [-> _]%elem_of_top_blocks|]. intros p. rewrite elem_of_pages_from. split.
  - intros (i & Hi' & ->). exists i. split; [|done]. by apply elem_of_top_blocks.
  - intros (i & [_ Hi']%elem_of_top_blocks & ->). by exists i.
Qed.

(** ** Theorems *)

(** The first page allocator of the boot sequence, on an empty memory. *)
Definition boot0 : alloc_state := mkalloc 0 Buddy.kmem0 FREELIST.

(** The state of the allocator after the boot sequence. *)
Lemma booted_pages kend : KERNBASE < kend ->
  exists a, forall m, inv kend a m (pages_from 2153467904 (Z.to_nat 55883)).
Proof.
  intros Hk. destruct (buddy_init_pages Buddy.kmem0 2151677952 2382364672) as (k' & _ & Hpages).
  { apply BuddyThm.kernel_range. } { by unfold KERNBASE. } { done. } { done. } { done. }
  exists (mkalloc 0 k' BUDDY). intros m. split; [done|]. right. split; [done|exact Hpages].
Qed.

(** C8: the boot sequence of [main] (free list over the pages below 4 MB, then
    the buddy allocator over the rest of the memory) succeeds and leaves the
    dispatcher satisfying the page-allocator contract with exactly the pages
    from the end of the marks to PHYSTOP free. *)
Theorem boot_memory_correct kend m :
  KERNBASE < kend <= P2V 0x400000 ->
  exists a' m',
    (switch_allocator FREELIST;; initmem kend kend (P2V 0x400000);;
     switch_allocator BUDDY;; initmem kend (P2V 0x400000) (P2V PHYSTOP)) (boot0, m)
      = Ok (tt, (a', m')) /\
    inv kend a' m' (pages_from 2153467904 (Z.to_nat 55883)).
Proof.
  intros Hk. change (P2V 0x400000) with 2151677952 in *. change (P2V PHYSTOP) with 2382364672.
  rewrite (run_bind (switch_allocator FREELIST) _ _ tt (boot0, m)) by done.
  destruct (initmem_freelist kend boot0 m kend 2151677952) as (a1 & m1 & Fr & Hrun & _);
    try done; try (unfold KERNBASE, PHYSTOP in *; lia).
  rewrite (run_bind _ _ _ _ _ Hrun).
  set (a2 := mkalloc (fl a1) (bd a1) BUDDY).
  rewrite (run_bind (switch_allocator BUDDY) _ _ tt (a2, m1)) by done.
  assert (Hbd : bd a1 = Buddy.kmem0) by (by apply (initmem_bd kend boot0 m kend 2151677952 a1 m1)).
  destruct (buddy_init_pages (bd a2) 2151677952 2382364672) as (k' & Hrun' & Hpages).
  { apply BuddyThm.kernel_range. } { by unfold KERNBASE. } { done. } { simpl. by rewrite Hbd. } { done. }
  unfold initmem. rewrite run_get. unfold on_buddy, zoom. simpl. simpl in Hrun'. rewrite Hrun'.
  eexists _, m1. split; [done|]. split; [lia|]. right. done.
Qed.

Lemma boot_memory_correct_witness :
  exists a' m', inv (P2V 0x110000) a' m' (pages_from 2153467904 (Z.to_nat 55883)).
Proof.
  destruct (boot_memory_correct (P2V 0x110000) (fun _ => 0)) as (a' & m' & _ & H).
  - split; [reflexivity|discriminate].
  - exists a', m'. exact H.
Defined.

(** Behind the dispatcher both allocators keep one contract.  [kalloc]
    returns NULL only when no page is free, and otherwise a free page, which is
    then no longer free; [kfree] of a page that is not free makes it free; both
    leave all other memory alone, and a page handed out stays out until it is
    freed. *)
Theorem kalloc_kfree_correct kend a m Fr :
  inv kend a m Fr ->
  (exists r a', kalloc (a, m) = Ok (r, (a', m)) /\
     ((r = 0 /\ Fr = ∅ /\ inv kend a' m Fr) \/
      (r ∈ Fr /\ r mod PGSIZE = 0 /\ inv kend a' m (Fr ∖ {[r]})))) /\
  (forall p, managed kend a p -> p ∉ Fr ->
     exists a' m', kfree kend p (a, m) = Ok (tt, (a', m')) /\ inv kend a' m' ({[p]} ∪ Fr) /\
       forall x, ~ (p <= x < p + PGSIZE) -> m' x = m x).
Proof.
  intros HI. split.
  - destruct (kalloc_spec kend a m Fr HI) as (r & a' & Hrun & _ & Hres).
    exists r, a'. split; [done|]. destruct Hres as [?|[Hr HI']]; [by left|right].
    split; [done|]. split; [|done]. eapply inv_page; [exact HI|]. by eapply inv_free_managed.
  - intros p Hp Hnf. destruct (kfree_spec kend a m Fr p HI Hp Hnf) as (a' & m' & Hrun & _ & ? & ? & _).
    by exists a', m'.
Qed.

Lemma kalloc_kfree_correct_witness :
  exists a m r a', inv (P2V 0x110000) a m ∅ /\ kalloc (a, m) = Ok (r, (a', m)) /\ r = 0.
Proof.
  exists boot0, (fun _ => 0).
  assert (HI : inv (P2V 0x110000) boot0 (fun _ => 0) ∅).
  { split; [reflexivity|]. left. split; [reflexivity|]. exists []. split; [|reflexivity].
    split; [reflexivity|intros v H; by apply elem_of_nil in H|apply NoDup_nil_2]. }
  destruct (kalloc_kfree_correct (P2V 0x110000) boot0 (fun _ => 0) ∅ HI) as [(r & a' & Hrun & Hres) _].
  exists r, a'. split; [exact HI|]. split; [exact Hrun|].
  destruct Hres as [[Hr _]|[Hr _]]; [exact Hr|]. by apply elem_of_empty in Hr.
Defined.

(** With the buddy allocator current, [kmalloc] never returns for any size
    that fits a page: [buddy_kmalloc2] calls [kmalloc] with the order instead of
    [buddy_kmalloc], so the two call each other for ever, whatever the bound on
    the nesting of calls. *)
Theorem kmalloc_never_returns fuel : forall size a m,
  current_allocator a = BUDDY -> 0 <= size <= 4091 -> kmalloc fuel size (a, m) = Fuel.
Proof.
  induction fuel as [|fuel IH]; intros size a m Hc Hs; [done|].
  cbn [kmalloc]. rewrite run_get. simpl. rewrite Hc. simpl. unfold buddy_kmalloc2.
  set (v := u32 (size + sizeof_mblock + 1)).
  assert (Hv : 0 <= v <= 4096) by (unfold v, sizeof_mblock; rewrite u32_small; lia).
  assert (Hord : exists o, on_buddy (Buddy.buddy_get_order v) (a, m) = Ok (o, (a, m)) /\ 0 <= o <= 4091).
  { unfold on_buddy, zoom. simpl. rewrite BuddyThm.run_get_order_of by lia.
    assert (1 <= v) by (unfold v, sizeof_mblock; rewrite u32_small; lia).
    change BuddySpec.page with 4096.
    rewrite (proj2 (Z.leb_le 1 v)), (proj2 (Z.leb_le v 4096)) by lia.
    cbn [andb]. eexists. split; [by destruct a|].
    assert (Z.log2_up v <= 12) by (apply Z.log2_up_le_pow2; lia).
    unfold Buddy.MIN_ORD. lia. }
  destruct Hord as (o & Hrun & Ho). rewrite (run_bind _ _ _ _ _ Hrun).
  unfold mbind, ST_bind. by rewrite IH.
Qed.

Lemma kmalloc_never_returns_witness :
  kmalloc 100 16 (mkalloc 0 Buddy.kmem0 BUDDY, fun _ => 0) = Fuel.
Proof. apply kmalloc_never_returns; [reflexivity|lia]. Defined.

End Kalloc.
