(* ===== verification/Pipe.v ===== *)
(** * Pipes (fs/pipe.c)

    The ring buffer with its free-running 32-bit counters, and the system of
    threads that read, write and close one pipe.  [pipewrite] and [piperead]
    hold the pipe's lock from entry to the next [sleep] or to their return, so
    these stretches are the atomic steps of the system; [wakeup] makes the
    sleepers of a channel runnable again. *)

From Stdlib Require Import ZArith Lia.
From stdpp Require Import base numbers strings list gmap.
From S2P Require Import Prelude.

Open Scope Z_scope.

Module Pipe.

Definition PIPESIZE : Z := 512.

Record pipe := mkpipe {
  data : list Z;
  nread : Z;
  nwrite : Z;
  readopen : bool;
  writeopen : bool
}.

(** ** The operations *)

(** The fields that [pipealloc] sets; [data] is whatever the page held. *)
Definition pipe_new (junk : list Z) : pipe := mkpipe junk 0 0 true true.

(** Channels of [sleep] and [wakeup]. *)
Inductive chan := NREAD | NWRITE.

(** The loop of [pipewrite] on the bytes that are left: the bytes are all
    written, or the reader is gone or the writer killed, or it sleeps; [rest]
    are the bytes not written yet. *)
Inductive wresult := WDone | WFail (rest : list Z) | WSleep (rest : list Z).

Definition full (p : pipe) : bool := nwrite p =? u32 (nread p + PIPESIZE).

Definition put (b : Z) (p : pipe) : pipe :=
  mkpipe (zinsert (nwrite p mod PIPESIZE) b (data p)) (nread p) (u32 (nwrite p + 1))
    (readopen p) (writeopen p).

Fixpoint write_loop (killed : bool) (rest : list Z) (p : pipe) : pipe * wresult :=
  match rest with
  | [] => (p, WDone)
  | b :: rest' =>
      if full p then
        if negb (readopen p) || killed then (p, WFail rest) else (p, WSleep rest)
      else write_loop killed rest' (put b p)
  end.

(** The channels that a run of [pipewrite] wakes. *)
Definition write_wakes (r : wresult) : list chan :=
  match r with WDone | WSleep _ => [NREAD] | WFail _ => [] end.

(** [piperead]: the test of its [while], then the copy loop. *)
Inductive rresult := RDone (bytes : list Z) | RFail | RSleep.

Definition empty (p : pipe) : bool := nread p =? nwrite p.

Fixpoint read_loop (n : nat) (p : pipe) : pipe * list Z :=
  match n with
  | O => (p, [])
  | S n' =>
      if empty p then (p, [])
      else
        let b := default 0 (zlookup (data p) (nread p mod PIPESIZE)) in
        let '(p', l) := read_loop n'
          (mkpipe (data p) (u32 (nread p + 1)) (nwrite p) (readopen p) (writeopen p)) in
        (p', b :: l)
  end.

Definition read_run (killed : bool) (n : Z) (p : pipe) : pipe * rresult :=
  if empty p && writeopen p then
    if killed then (p, RFail) else (p, RSleep)
  else
    let '(p', l) := read_loop (Z.to_nat n) p in (p', RDone l).

Definition read_wakes (r : rresult) : list chan :=
  match r with RDone _ => [NWRITE] | RFail | RSleep => [] end.

(** [pipeclose]; the page goes back to the allocator when the result is true. *)
Definition pipeclose (writable : bool) (p : pipe) : pipe * list chan * bool :=
  let p' := if writable
            then mkpipe (data p) (nread p) (nwrite p) (readopen p) false
            else mkpipe (data p) (nread p) (nwrite p) false (writeopen p) in
  (p', [if writable then NREAD else NWRITE], negb (readopen p') && negb (writeopen p')).

(** ** Threads *)

Inductive op := Write (rest : list Z) | Read (n : Z).

Inductive thread :=
| Runnable (o : op)
| Sleeping (o : op)
| Returned (ok : bool).

Definition chan_of (o : op) : chan := match o with Write _ => NWRITE | Read _ => NREAD end.

#[global] Instance chan_eq_dec : EqDecision chan.
Proof. solve_decision. Defined.

(** [wakeup(chan)]: all threads that sleep on the channel. *)
Definition wake1 (c : chan) (t : thread) : thread :=
  match t with
  | Sleeping o => if decide (chan_of o = c) then Runnable o else Sleeping o
  | _ => t
  end.

Definition wakeup (cs : list chan) (ts : gmap nat thread) : gmap nat thread :=
  foldr (fun c ts => wake1 c <$> ts) ts cs.

(** [sent] and [received] record the bytes that entered and left the pipe. *)
Record sys := mksys {
  pp : pipe;
  threads : gmap nat thread;
  sent : list Z;
  received : list Z
}.

Definition unwritten (r : wresult) : list Z :=
  match r with WDone => [] | WFail rest | WSleep rest => rest end.

(** One atomic step of the system; killed writers only if [kills]. *)
Inductive step (kills : bool) : sys -> sys -> Prop :=
| step_call s t o :
    threads s !! t = None ->
    step kills s (mksys (pp s) (<[t := Runnable o]> (threads s)) (sent s) (received s))
| step_write s t rest killed p' r :
    threads s !! t = Some (Runnable (Write rest)) ->
    (killed = true -> kills = true) ->
    write_loop killed rest (pp s) = (p', r) ->
    step kills s (mksys p'
      (wakeup (write_wakes r)
        (<[t := match r with
                | WDone => Returned true
                | WFail _ => Returned false
                | WSleep rest' => Sleeping (Write rest')
                end]> (threads s)))
      (sent s ++ take (length rest - length (unwritten r)) rest)
      (received s))
| step_read s t n killed p' r :
    threads s !! t = Some (Runnable (Read n)) ->
    read_run killed n (pp s) = (p', r) ->
    step kills s (mksys p'
      (wakeup (read_wakes r)
        (<[t := match r with
                | RDone _ => Returned true
                | RFail => Returned false
                | RSleep => Sleeping (Read n)
                end]> (threads s)))
      (sent s)
      (received s ++ match r with RDone l => l | _ => [] end))
| step_close s writable p' cs freed :
    pipeclose writable (pp s) = (p', cs, freed) ->
    step kills s (mksys p' (wakeup cs (threads s)) (sent s) (received s))
| step_wake s t o :
    threads s !! t = Some (Sleeping o) ->
    step kills s (mksys (pp s) (<[t := Runnable o]> (threads s)) (sent s) (received s)).

(** ** Invariants *)

Definition count (p : pipe) : Z := u32 (nwrite p - nread p).

Definition slot (p : pipe) (i : Z) : Z := default 0 (zlookup (data p) ((nread p + i) mod PIPESIZE)).

(** The bytes in the pipe, oldest first. *)
Definition contents (p : pipe) : list Z := slot p <$> seqZ 0 (count p).

Record buffer_ok (p : pipe) : Prop := {
  b_data : length (data p) = Z.to_nat PIPESIZE;
  b_nread : 0 <= nread p < 2 ^ 32;
  b_nwrite : 0 <= nwrite p < 2 ^ 32;
  b_count : count p <= PIPESIZE
}.

Record sys_ok (s : sys) : Prop := {
  s_buffer : buffer_ok (pp s);
  s_fifo : sent s = received s ++ contents (pp s)
}.

(** A sleeping writer waits for room that a reader can still make, a sleeping
    reader for bytes that a writer can still send. *)
Definition waits_ok (s : sys) : Prop :=
  forall t o, threads s !! t = Some (Sleeping o) ->
    match o with
    | Write _ => full (pp s) = true /\ readopen (pp s) = true
    | Read _ => (empty (pp s) = true /\ writeopen (pp s) = true) \/ readopen (pp s) = false
    end.

(** ** The ring buffer *)

Lemma u32_mod x : u32 x mod PIPESIZE = x mod PIPESIZE.
Proof. unfold u32, PIPESIZE. Z.to_euclidean_division_equations; lia. Qed.

Lemma count_range p : 0 <= count p < 2 ^ 32.
Proof. apply u32_range. Qed.

Lemma nwrite_count p : buffer_ok p -> nwrite p = u32 (nread p + count p).
Proof.
  intros [_ Hr Hw _]. unfold count, u32 in *. Z.to_euclidean_division_equations; lia.
Qed.

Lemma empty_count p : buffer_ok p -> (empty p = true <-> count p = 0).
Proof.
  intros [_ Hr Hw _]. unfold empty, count, u32. rewrite Z.eqb_eq.
  Z.to_euclidean_division_equations; lia.
Qed.

Lemma full_count p : buffer_ok p -> (full p = true <-> count p = PIPESIZE).
Proof.
  intros [_ Hr Hw _]. unfold full, count, u32, PIPESIZE. rewrite Z.eqb_eq.
  Z.to_euclidean_division_equations; lia.
Qed.

Lemma put_count p b : buffer_ok p -> full p = false -> count (put b p) = count p + 1.
Proof.
  intros Hp Hf. assert (count p <> PIPESIZE) by (rewrite <- full_count by done; by rewrite Hf).
  destruct Hp as [_ Hr Hw Hc]. unfold count, put, u32, PIPESIZE in *. simpl.
  Z.to_euclidean_division_equations; lia.
Qed.

Lemma put_ok p b : buffer_ok p -> full p = false -> buffer_ok (put b p).
Proof.
  intros Hp Hf. pose proof (put_count p b Hp Hf) as Hc.
  assert (count p <> PIPESIZE) by (rewrite <- full_count by done; by rewrite Hf).
  destruct Hp as [Hd Hr Hw Hc']. split; simpl; [by rewrite length_zinsert|done|apply u32_range|].
  rewrite Hc. lia.
Qed.

Lemma put_contents p b : buffer_ok p -> full p = false -> contents (put b p) = contents p ++ [b].
Proof.
  intros Hp Hf. pose proof (put_count p b Hp Hf) as Hc. pose proof (count_range p) as Hr.
  assert (Hne : count p <> PIPESIZE) by (rewrite <- full_count by done; by rewrite Hf).
  unfold contents. rewrite Hc. rewrite seqZ_app by lia. rewrite fmap_app. f_equal.
  - apply list_fmap_ext. intros i x Hi%lookup_seqZ. unfold slot, put; simpl.
    rewrite zlookup_zinsert_ne; [done|]. rewrite (nwrite_count p Hp), u32_mod.
    destruct Hp as [_ ? _ Hcc]. unfold PIPESIZE in *. Z.to_euclidean_division_equations; lia.
  - change (seqZ (0 + count p) 1) with [0 + count p]. rewrite Z.add_0_l.
    cbn [fmap list_fmap]. f_equal. unfold slot, put; cbn [data nread].
    assert (E : (nread p + count p) mod PIPESIZE = nwrite p mod PIPESIZE)
      by (rewrite (nwrite_count p Hp); by rewrite u32_mod).
    rewrite E, zlookup_zinsert_eq; [done|]. destruct Hp as [-> _ _ _].
    unfold PIPESIZE. pose proof (Z.mod_pos_bound (nwrite p) 512). lia.
Qed.

(** Taking the oldest byte out. *)
Definition take_one (p : pipe) : pipe :=
  mkpipe (data p) (u32 (nread p + 1)) (nwrite p) (readopen p) (writeopen p).

Lemma take_count p : buffer_ok p -> empty p = false -> count (take_one p) = count p - 1.
Proof.
  intros Hp He. assert (count p <> 0) by (rewrite <- empty_count by done; by rewrite He).
  destruct Hp as [_ Hr Hw Hc]. unfold count, take_one, u32, PIPESIZE in *. simpl.
  Z.to_euclidean_division_equations; lia.
Qed.

Lemma take_ok p : buffer_ok p -> empty p = false -> buffer_ok (take_one p).
Proof.
  intros Hp He. pose proof (take_count p Hp He) as Hc.
  destruct Hp as [Hd Hr Hw Hc']. split; simpl; [done|apply u32_range|done|]. rewrite Hc. lia.
Qed.

Lemma take_contents p :
  buffer_ok p -> empty p = false -> contents p = slot p 0 :: contents (take_one p).
Proof.
  intros Hp He. pose proof (take_count p Hp He) as Hc. pose proof (count_range p) as Hr.
  assert (count p <> 0) by (rewrite <- empty_count by done; by rewrite He).
  unfold contents. rewrite Hc. rewrite seqZ_cons by lia. cbn [fmap list_fmap]. f_equal.
  replace (seqZ (Z.succ 0) (Z.pred (count p))) with (Z.add 1 <$> seqZ 0 (count p - 1))
    by (rewrite fmap_add_seqZ; f_equal; lia).
  rewrite <- list_fmap_compose.
  apply list_fmap_ext. intros i x _. unfold slot, take_one; simpl. f_equal. f_equal.
  rewrite <- (Zplus_mod_idemp_l (u32 _)), u32_mod, Zplus_mod_idemp_l. f_equal. lia.
Qed.

(** ** The loops *)

Lemma write_loop_spec killed rest : forall p p' r,
  buffer_ok p -> write_loop killed rest p = (p', r) ->
  buffer_ok p' /\ readopen p' = readopen p /\ writeopen p' = writeopen p /\
  exists done, rest = done ++ unwritten r /\ contents p' = contents p ++ done /\
    (full p = true -> p' = p) /\
    match r with
    | WDone => True
    | WFail _ => full p' = true /\ (readopen p = false \/ killed = true)
    | WSleep _ => full p' = true /\ readopen p = true /\ killed = false
    end.
Proof.
  induction rest as [|b rest IH]; intros p p' r Hp; cbn [write_loop].
  { intros [= <- <-]. repeat (split; [done|]). exists []. rewrite !app_nil_r. by repeat split. }
  destruct (full p) eqn:Hf.
  - destruct (readopen p) eqn:Hr, killed eqn:Hk; simpl; intros [= <- <-];
      repeat (split; [done|]); exists []; rewrite app_nil_r; repeat split; auto.
  - intros Hw. destruct (IH _ _ _ (put_ok p b Hp Hf) Hw) as (H1 & H2 & H3 & done & H4 & H5 & _ & H6).
    repeat (split; [done|]). exists (b :: done). rewrite H4, H5, put_contents by done.
    rewrite <- app_assoc. repeat split; try done.
Qed.

Lemma read_loop_spec n : forall p p' l,
  buffer_ok p -> read_loop n p = (p', l) ->
  buffer_ok p' /\ readopen p' = readopen p /\ writeopen p' = writeopen p /\
  contents p = l ++ contents p'.
Proof.
  induction n as [|n IH]; intros p p' l Hp; cbn [read_loop]; [by intros [= <- <-]|].
  destruct (empty p) eqn:He; [by intros [= <- <-]|]. cbv zeta.
  change (mkpipe _ _ _ _ _) with (take_one p).
  destruct (read_loop n (take_one p)) as [p1 l1] eqn:Hr. intros [= <- <-].
  destruct (IH _ _ _ (take_ok p Hp He) Hr) as (H1 & H2 & H3 & H4).
  repeat (split; [done|]). rewrite (take_contents p Hp He), H4. simpl. f_equal.
  unfold slot. by rewrite Z.add_0_r.
Qed.

(** How many bytes a read returns. *)
Lemma read_loop_length n : forall p p' l,
  buffer_ok p -> read_loop n p = (p', l) -> length l = Nat.min n (length (contents p)).
Proof.
  induction n as [|n IH]; intros p p' l Hp; cbn [read_loop]; [by intros [= <- <-]|].
  destruct (empty p) eqn:He.
  - intros [= <- <-]. unfold contents. apply empty_count in He as ->; [|done]. simpl. lia.
  - cbv zeta. change (mkpipe _ _ _ _ _) with (take_one p).
    destruct (read_loop n (take_one p)) as [p1 l1] eqn:Hr. intros [= <- <-].
    rewrite (take_contents p Hp He). simpl. by rewrite (IH _ _ _ (take_ok p Hp He) Hr).
Qed.

Lemma length_unwritten (d l : list Z) : take (length (d ++ l) - length l) (d ++ l) = d.
Proof. rewrite length_app. replace (length d + length l - length l)%nat with (length d) by lia. apply take_app_length. Qed.

Lemma step_sys_ok kills s s' : sys_ok s -> step kills s s' -> sys_ok s'.
Proof.
  intros [Hb Hf] Hs.
  destruct Hs as [s t o Ht|s t rest killed p' r Ht Hk Hw|s t n killed p' r Ht Hr|s w p' cs fr Hc|s t o Ht];
    try (by split).
  - destruct (write_loop_spec _ _ _ _ _ Hb Hw) as (H1 & _ & _ & d & H2 & H3 & _).
    split; [done|]. cbn [sent received pp]. rewrite H3, Hf. rewrite H2 at 1 2.
    rewrite length_unwritten. by rewrite app_assoc.
  - unfold read_run in Hr. destruct (empty (pp s) && writeopen (pp s)).
    + destruct killed; simplify_eq; split; cbn [sent received pp]; by rewrite ?app_nil_r.
    + destruct (read_loop (Z.to_nat n) (pp s)) as [p1 l] eqn:Hl. simplify_eq.
      destruct (read_loop_spec _ _ _ _ Hb Hl) as (H1 & _ & _ & H4).
      split; [done|]. cbn [sent received pp]. rewrite Hf, H4. by rewrite app_assoc.
  - unfold pipeclose in Hc. destruct w; simplify_eq; (split; [|exact Hf]); by destruct Hb.
Qed.

(** ** Wakeups *)

Lemma wakeup_sleeping cs ts t o :
  wakeup cs ts !! t = Some (Sleeping o) -> ts !! t = Some (Sleeping o) /\ chan_of o ∉ cs.
Proof.
  induction cs as [|c cs IH]; simpl; [set_solver|].
  rewrite lookup_fmap. destruct (wakeup cs ts !! t) as [th|] eqn:E; [|done]. simpl.
  destruct th as [o'|o'|]; simpl; try done. case_decide as Hd; [done|].
  intros [= ->]. destruct (IH eq_refl) as [? ?]. split; [done|]. set_solver.
Qed.

Lemma step_waits_ok s s' : sys_ok s -> waits_ok s -> step false s s' -> waits_ok s'.
Proof.
  intros [Hb _] Hw Hs.
  destruct Hs as [s t o Ht|s t rest killed p' r Ht Hk Hwr|s t n killed p' r Ht Hr|s w p' cs fr Hc|s t o Ht];
    intros t' o'; cbn [threads pp].
  - destruct (decide (t' = t)) as [->|Hne]; [by rewrite lookup_insert_eq|].
    rewrite lookup_insert_ne by done. apply Hw.
  - destruct (write_loop_spec _ _ _ _ _ Hb Hwr) as (_ & H1 & H2 & d & _ & _ & H3 & H4).
    intros [Ht' Hch]%wakeup_sleeping. rewrite H1, H2.
    assert (killed = false) as -> by (destruct killed; [by discriminate (Hk eq_refl)|done]).
    destruct (decide (t' = t)) as [->|Hne].
    + rewrite lookup_insert_eq in Ht'. destruct r; simplify_eq. tauto.
    + rewrite lookup_insert_ne in Ht' by done. pose proof (Hw _ _ Ht') as Hold.
      destruct o' as [rest'|n]; simpl in Hch.
      * destruct Hold as [Hf Hr]. by rewrite (H3 Hf).
      * destruct r; simpl in Hch; [set_solver| |set_solver]. right. destruct H4 as [_ [?|?]]; done.
  - unfold read_run in Hr. destruct (empty (pp s) && writeopen (pp s)) eqn:He.
    + assert (p' = pp s /\ match r with RDone _ => False | _ => True end) as [-> Hn]
        by (destruct killed; by simplify_eq).
      intros [Ht' _]%wakeup_sleeping. destruct (decide (t' = t)) as [->|Hne].
      * rewrite lookup_insert_eq in Ht'. destruct r; simplify_eq. left. by apply andb_true_iff.
      * rewrite lookup_insert_ne in Ht' by done. by apply (Hw t').
    + destruct (read_loop (Z.to_nat n) (pp s)) as [p1 l] eqn:Hl. simplify_eq. simpl.
      intros [Ht' Hch]%(wakeup_sleeping [NWRITE]).
      rewrite lookup_insert_ne in Ht' by (intros ->; by rewrite lookup_insert_eq in Ht').
      destruct (read_loop_spec _ _ _ _ Hb Hl) as (Hb' & H1 & H2 & H3). rewrite H1, H2.
      pose proof (Hw _ _ Ht') as Hold. destruct o' as [rest'|n']; [simpl in Hch; set_solver|].
      destruct Hold as [[He' Hwo]|Hro]; [by rewrite He', Hwo in He|by right].
  - unfold pipeclose in Hc. destruct w; simplify_eq; intros [Ht' Hch]%wakeup_sleeping; pose proof (Hw _ _ Ht') as Hold;
      destruct o'; simpl in *; set_solver.
  - destruct (decide (t' = t)) as [->|Hne]; [by rewrite lookup_insert_eq|].
    rewrite lookup_insert_ne by done. apply Hw.
Qed.

(** ** Theorems *)

(** A new pipe without threads. *)
Definition init (junk : list Z) : sys := mksys (pipe_new junk) ∅ [] [].

Lemma init_ok junk : length junk = Z.to_nat PIPESIZE -> sys_ok (init junk) /\ waits_ok (init junk).
Proof.
  intros Hj. split; [split; [by split; simpl|done]|]. intros t o. simpl. by rewrite lookup_empty.
Qed.

Lemma reachable_ok kills junk s :
  length junk = Z.to_nat PIPESIZE -> rtc (step kills) (init junk) s -> sys_ok s.
Proof.
  intros Hj Hr. assert (Hi : sys_ok (init junk)) by (by apply init_ok). revert Hi.
  induction Hr as [|s1 s2 s3 Hs _ IH]; [done|]. intros Hi. apply IH. by eapply step_sys_ok.
Qed.

(** C36: whatever the interleaving of readers, writers, closes and kills, the
    bytes that left a pipe followed by the bytes it holds are the bytes that
    entered it, in order; the pipe never holds more than PIPESIZE bytes, also
    after the 32-bit counters have wrapped around. *)
Theorem pipe_fifo kills junk s :
  length junk = Z.to_nat PIPESIZE -> rtc (step kills) (init junk) s ->
  sent s = received s ++ contents (pp s) /\ (length (contents (pp s)) <= 512)%nat.
Proof.
  intros Hj Hr. destruct (reachable_ok _ _ _ Hj Hr) as [[_ _ _ Hc] Hf]. split; [done|].
  unfold contents. rewrite length_fmap, length_seqZ. unfold PIPESIZE in Hc. lia.
Qed.

(** A run in which thread 1 writes two bytes and thread 2 reads one. *)
Lemma pipe_fifo_witness :
  exists s, rtc (step false) (init (replicate 512 0)) s /\ sent s = [7; 8] /\
    sent s = received s ++ contents (pp s).
Proof.
  assert (Hr : exists s, rtc (step false) (init (replicate 512 0)) s /\ sent s = [7; 8]).
  { eexists. split.
    - eapply rtc_l; [apply (step_call _ _ 1%nat (Write [7; 8])); reflexivity|].
      eapply rtc_l; [eapply (step_write _ _ 1%nat [7; 8] false); reflexivity || discriminate|].
      apply rtc_refl.
    - reflexivity. }
  destruct Hr as (s & Hr & Hs). exists s. split; [exact Hr|]. split; [exact Hs|].
  apply (pipe_fifo false (replicate 512 0) s eq_refl Hr).
Defined.

(** C37: without killed writers no wakeup is lost: a reader of an open read end
    sleeps only while the pipe is empty and the write end open, a writer only
    while the pipe is full and the read end open. *)
Theorem pipe_no_lost_wakeup junk s t o :
  length junk = Z.to_nat PIPESIZE -> rtc (step false) (init junk) s ->
  threads s !! t = Some (Sleeping o) ->
  match o with
  | Write _ => full (pp s) = true /\ readopen (pp s) = true
  | Read _ => (empty (pp s) = true /\ writeopen (pp s) = true) \/ readopen (pp s) = false
  end.
Proof.
  intros Hj Hr. destruct (init_ok junk Hj) as [H1 H2]. revert t o. change (waits_ok s).
  revert H1 H2. induction Hr as [|s1 s2 s3 Hs _ IH]; [done|]. intros H1 H2.
  apply IH; [by eapply step_sys_ok|by eapply step_waits_ok].
Qed.

Lemma pipe_no_lost_wakeup_witness :
  exists s, rtc (step false) (init (replicate 512 0)) s /\
    threads s !! 1%nat = Some (Sleeping (Read 5)) /\
    ((empty (pp s) = true /\ writeopen (pp s) = true) \/ readopen (pp s) = false).
Proof.
  assert (Hr : exists s, rtc (step false) (init (replicate 512 0)) s /\
    threads s !! 1%nat = Some (Sleeping (Read 5))).
  { eexists. split.
    - eapply rtc_l; [apply (step_call _ _ 1%nat (Read 5)); reflexivity|].
      eapply rtc_l; [eapply (step_read _ _ 1%nat 5 false); reflexivity|].
      apply rtc_refl.
    - reflexivity. }
  destruct Hr as (s & Hr & Hs). exists s. split; [exact Hr|]. split; [exact Hs|].
  exact (pipe_no_lost_wakeup (replicate 512 0) s 1 (Read 5) eq_refl Hr Hs).
Defined.

(** A writer with more bytes than the pipe can hold fails when it is killed. *)
Lemma killed_writer p bytes :
  buffer_ok p -> (512 < length bytes)%nat ->
  exists p' rest, write_loop true bytes p = (p', WFail rest) /\ empty p' = false /\
    readopen p' = readopen p /\ writeopen p' = writeopen p.
Proof.
  intros Hp Hl. destruct (write_loop true bytes p) as [p' r] eqn:Hw.
  destruct (write_loop_spec _ _ _ _ _ Hp Hw) as (Hp' & H1 & H2 & d & H3 & H4 & _ & H5).
  assert (Hlen : (length (contents p') <= 512)%nat).
  { unfold contents. rewrite length_fmap, length_seqZ. destruct Hp' as [_ _ _ Hc].
    unfold PIPESIZE in Hc. lia. }
  destruct r as [|rest|rest].
  - exfalso. rewrite H4, length_app in Hlen. simpl in H3. rewrite app_nil_r in H3. subst d. lia.
  - exists p', rest. split; [done|]. split; [|done]. destruct H5 as [Hf _].
    apply full_count in Hf; [|done]. apply not_true_is_false. rewrite empty_count by done.
    rewrite Hf. done.
  - by destruct H5 as (_ & _ & ?).
Qed.

(** A killed writer can leave a reader asleep on a pipe that holds data:
    [pipewrite] wakes the readers only when it sleeps or ends, not when it gives
    up because the process was killed.  A reader goes to sleep on the empty pipe,
    a killed writer fills it and returns -1; both ends are open, no thread can
    run, and the reader sleeps beside a full pipe. *)
Theorem pipe_killed_writer_loses_wakeup :
  exists s, rtc (step true) (init (replicate 512 0)) s /\
    threads s !! 1%nat = Some (Sleeping (Read 5)) /\ threads s !! 2%nat = Some (Returned false) /\
    empty (pp s) = false /\ readopen (pp s) = true /\ writeopen (pp s) = true.
Proof.
  destruct (killed_writer (pipe_new (replicate 512 0)) (replicate 513 7)) as (p' & rest & Hw & He & Hr & Ho).
  { by split; simpl. } { rewrite length_replicate. lia. }
  eexists. split.
  - eapply rtc_l; [apply (step_call _ _ 1%nat (Read 5)); reflexivity|].
    eapply rtc_l; [eapply (step_read _ _ 1%nat 5 false); reflexivity|].
    eapply rtc_l; [apply (step_call _ _ 2%nat (Write (replicate 513 7))); reflexivity|].
    eapply rtc_l; [eapply (step_write _ _ 2%nat (replicate 513 7) true); [reflexivity|done|exact Hw]|].
    apply rtc_refl.
  - by repeat split.
Qed.

End Pipe.
