(* ===== verification/Block.v ===== *)
(** * Disk blocks

    A disk block is a list of BSIZE bytes; on-disk structures are read and
    written as little-endian 16- and 32-bit fields at byte offsets. *)

From Stdlib Require Import ZArith Lia.
From stdpp Require Import base numbers strings list.
From S2P Require Import Prelude.

Open Scope Z_scope.

Module Block.

Definition BSIZE : Z := 512.

Definition block : Type := list Z.

Definition zero_block : block := replicate (Z.to_nat BSIZE) 0.

Definition rd (b : block) (i : Z) : Z := default 0 (zlookup b i).
Definition wr (i v : Z) (b : block) : block := zinsert i (u8 v) b.

Definition get16 (b : block) (i : Z) : Z := rd b i + 256 * rd b (i + 1).
Definition put16 (i v : Z) (b : block) : block := wr (i + 1) (Z.shiftr v 8) (wr i v b).

Definition get32 (b : block) (i : Z) : Z :=
  rd b i + 256 * rd b (i + 1) + 65536 * rd b (i + 2) + 16777216 * rd b (i + 3).
Definition put32 (i v : Z) (b : block) : block :=
  wr (i + 3) (Z.shiftr v 24) (wr (i + 2) (Z.shiftr v 16) (wr (i + 1) (Z.shiftr v 8) (wr i v b))).

(** A well-formed block. *)
Definition block_ok (b : block) : Prop :=
  length b = Z.to_nat BSIZE /\ Forall (fun x => 0 <= x < 256) b.

Lemma length_wr i v b : length (wr i v b) = length b.
Proof. apply length_zinsert. Qed.

Lemma length_put32 i v b : length (put32 i v b) = length b.
Proof. unfold put32. by rewrite !length_wr. Qed.

Lemma length_put16 i v b : length (put16 i v b) = length b.
Proof. unfold put16. by rewrite !length_wr. Qed.

Lemma rd_wr_eq i v b : 0 <= i < Z.of_nat (length b) -> rd (wr i v b) i = u8 v.
Proof. intros H. unfold rd, wr. by rewrite zlookup_zinsert_eq. Qed.

Lemma rd_wr_ne i j v b : i <> j -> rd (wr i v b) j = rd b j.
Proof. intros H. unfold rd, wr. by rewrite zlookup_zinsert_ne. Qed.

Lemma rd_put32_ne i j v b : ~ (i <= j < i + 4) -> rd (put32 i v b) j = rd b j.
Proof. intros H. unfold put32. by rewrite !rd_wr_ne by lia. Qed.

Lemma rd_put16_ne i j v b : ~ (i <= j < i + 2) -> rd (put16 i v b) j = rd b j.
Proof. intros H. unfold put16. by rewrite !rd_wr_ne by lia. Qed.

Lemma get32_put32_eq i v b :
  0 <= i -> i + 4 <= Z.of_nat (length b) -> get32 (put32 i v b) i = u32 v.
Proof.
  intros H0 H1. unfold get32, put32.
  repeat (first [rewrite rd_wr_eq by (rewrite ?length_wr; lia) | rewrite rd_wr_ne by lia]).
  unfold u8, u32. rewrite !Z.shiftr_div_pow2 by lia. Z.to_euclidean_division_equations; lia.
Qed.

Lemma get16_put16_eq i v b :
  0 <= i -> i + 2 <= Z.of_nat (length b) -> get16 (put16 i v b) i = u16 v.
Proof.
  intros H0 H1. unfold get16, put16.
  repeat (first [rewrite rd_wr_eq by (rewrite ?length_wr; lia) | rewrite rd_wr_ne by lia]).
  unfold u8, u16. rewrite !Z.shiftr_div_pow2 by lia. Z.to_euclidean_division_equations; lia.
Qed.

Lemma get32_put32_ne i j v b :
  i + 4 <= j \/ j + 4 <= i -> get32 (put32 i v b) j = get32 b j.
Proof. intros H. unfold get32. by rewrite !rd_put32_ne by lia. Qed.

Lemma get32_put16_ne i j v b :
  i + 2 <= j \/ j + 4 <= i -> get32 (put16 i v b) j = get32 b j.
Proof. intros H. unfold get32. by rewrite !rd_put16_ne by lia. Qed.

Lemma get16_put16_ne i j v b :
  i + 2 <= j \/ j + 2 <= i -> get16 (put16 i v b) j = get16 b j.
Proof. intros H. unfold get16. by rewrite !rd_put16_ne by lia. Qed.

Lemma get16_put32_ne i j v b :
  i + 4 <= j \/ j + 2 <= i -> get16 (put32 i v b) j = get16 b j.
Proof. intros H. unfold get16. by rewrite !rd_put32_ne by lia. Qed.

Lemma wr_ok i v b : block_ok b -> block_ok (wr i v b).
Proof.
  intros [Hl Hb]. split; [by rewrite length_wr|]. unfold wr, zinsert.
  destruct (0 <=? i); [|done]. apply Forall_insert; [done|].
  apply (Z.mod_pos_bound v 256). lia.
Qed.

Lemma put32_ok i v b : block_ok b -> block_ok (put32 i v b).
Proof. intros H. unfold put32. by repeat apply wr_ok. Qed.

Lemma put16_ok i v b : block_ok b -> block_ok (put16 i v b).
Proof. intros H. unfold put16. by repeat apply wr_ok. Qed.

Lemma zero_ok : block_ok zero_block.
Proof.
  unfold zero_block. split; [by rewrite length_replicate|]. apply Forall_replicate. lia.
Qed.

Lemma rd_range b i : block_ok b -> 0 <= rd b i < 256.
Proof.
  intros [_ Hb]. unfold rd, zlookup, block in *. destruct (0 <=? i); [|cbn; lia].
  destruct (b !! Z.to_nat i) as [x|] eqn:E; cbn; [|lia]. by eapply Forall_lookup_1 in Hb.
Qed.

Lemma get32_range b i : block_ok b -> 0 <= get32 b i < 2 ^ 32.
Proof.
  intros H. unfold get32. pose proof (rd_range b i H). pose proof (rd_range b (i + 1) H).
  pose proof (rd_range b (i + 2) H). pose proof (rd_range b (i + 3) H). lia.
Qed.

Lemma get16_range b i : block_ok b -> 0 <= get16 b i < 65536.
Proof. intros H. unfold get16. pose proof (rd_range b i H). pose proof (rd_range b (i + 1) H). lia. Qed.

End Block.
