(* ===== verification/Bio.v ===== *)
(** * The buffer cache (fs/sfs/bio.c) over the in-memory disk (drivers/ide/memide.c)

    The buffers are an array with the list head as its last element, chained by
    indices; each has its sleep lock, of which the owner's pid is kept.  The
    model is the code as run by one process [pid]: a sleep lock that is held
    blocks it.  [disk] is the disk's contents and [writes] the sequence of block
    writes it has received, oldest first. *)

From Stdlib Require Import ZArith Lia.
From stdpp Require Import base numbers strings list gmap.
From S2P Require Import Prelude Dll Block.

Open Scope Z_scope.

Import Dll Block.

Module Bio.

Definition NBUF : Z := 30.
Definition HEAD : Z := NBUF.

Definition B_VALID : Z := 2.
Definition B_DIRTY : Z := 4.

Record buf := mkbuf {
  flags : Z;
  dev : Z;
  blockno : Z;
  locked : bool;
  lpid : Z;
  refcnt : Z;
  prev : Z;
  next : Z;
  data : block
}.

Record state := mkstate {
  lock : bool;
  bufs : list buf;
  disk : Z -> block;
  writes : list (Z * block)
}.

Definition set_flags (v : Z) (b : buf) : buf :=
  mkbuf v (dev b) (blockno b) (locked b) (lpid b) (refcnt b) (prev b) (next b) (data b).
Definition set_id (d n : Z) (b : buf) : buf :=
  mkbuf (flags b) d n (locked b) (lpid b) (refcnt b) (prev b) (next b) (data b).
Definition set_locked (l : bool) (p : Z) (b : buf) : buf :=
  mkbuf (flags b) (dev b) (blockno b) l p (refcnt b) (prev b) (next b) (data b).
Definition set_refcnt (v : Z) (b : buf) : buf :=
  mkbuf (flags b) (dev b) (blockno b) (locked b) (lpid b) v (prev b) (next b) (data b).
Definition set_prev (v : Z) (b : buf) : buf :=
  mkbuf (flags b) (dev b) (blockno b) (locked b) (lpid b) (refcnt b) v (next b) (data b).
Definition set_next (v : Z) (b : buf) : buf :=
  mkbuf (flags b) (dev b) (blockno b) (locked b) (lpid b) (refcnt b) (prev b) v (data b).
Definition set_data (v : block) (b : buf) : buf :=
  mkbuf (flags b) (dev b) (blockno b) (locked b) (lpid b) (refcnt b) (prev b) (next b) v.

Definition set_bufs (l : list buf) (s : state) : state := mkstate (lock s) l (disk s) (writes s).

(** Access through a [struct buf *]. *)
Definition get_buf (i : Z) : ST state buf :=
  s ← get; match zlookup (bufs s) i with Some b => mret b | None => fault end.

Definition upd_buf (i : Z) (f : buf -> buf) : ST state unit :=
  s ← get;
  match zlookup (bufs s) i with
  | Some b => put (set_bufs (zinsert i (f b) (bufs s)) s)
  | None => fault
  end.

Definition acquire : ST state unit :=
  s ← get; if lock s then panic "acquire" else put (mkstate true (bufs s) (disk s) (writes s)).
Definition release : ST state unit :=
  s ← get; if lock s then put (mkstate false (bufs s) (disk s) (writes s)) else panic "release".

Section Ops.

(** The running process, and the size of the disk in blocks. *)
Variables (pid disksize : Z).

(** ** Sleep locks (kern/locking/sleeplock.c) on the buffers *)

Definition acquiresleep (i : Z) : ST state unit :=
  b ← get_buf i;
  if locked b then blocked else upd_buf i (set_locked true pid).

Definition releasesleep (i : Z) : ST state unit := upd_buf i (set_locked false 0).

Definition holdingsleep (i : Z) : ST state bool :=
  b ← get_buf i; mret (locked b && (lpid b =? pid)).

(** ** The disk: [iderw] of memide.c *)

Definition iderw (i : Z) : ST state unit :=
  h ← holdingsleep i;
  if negb h then panic "iderw: buf not locked"
  else
    b ← get_buf i;
    if Z.land (flags b) (Z.lor B_VALID B_DIRTY) =? B_VALID then panic "iderw: nothing to do"
    else if negb (dev b =? 1) then panic "iderw: request not for disk 1"
    else if disksize <=? blockno b then panic "iderw: block out of range"
    else
      (if negb (Z.land (flags b) B_DIRTY =? 0) then
         upd_buf i (fun b => set_flags (Z.land (flags b) (not32 B_DIRTY)) b);;
         s ← get;
         put (mkstate (lock s) (bufs s)
                (fun n => if n =? blockno b then data b else disk s n)
                (writes s ++ [(blockno b, data b)]))
       else
         s ← get;
         upd_buf i (set_data (disk s (blockno b))));;
      upd_buf i (fun b => set_flags (Z.lor (flags b) B_VALID) b).

(** ** bio.c *)

(** One iteration of the loop of [binit]. *)
Definition binit_one (i : Z) : ST state unit :=
  h ← get_buf HEAD;
  upd_buf i (set_next (next h));;
  upd_buf i (set_prev HEAD);;
  upd_buf i (set_locked false 0);;
  h ← get_buf HEAD;
  upd_buf (next h) (set_prev i);;
  upd_buf HEAD (set_next i).

Fixpoint binit_loop (n : nat) (i : Z) : ST state unit :=
  match n with O => mret tt | S n' => binit_one i;; binit_loop n' (i + 1) end.

Definition binit : ST state unit :=
  s ← get;
  put (mkstate false (bufs s) (disk s) (writes s));;
  upd_buf HEAD (set_prev HEAD);;
  upd_buf HEAD (set_next HEAD);;
  binit_loop (Z.to_nat NBUF) 0.

(** The two loops of [bget]: the first buffer from [i] on, by the next or by
    the previous links, that satisfies the test. *)
Fixpoint scan_next (fuel : nat) (f : buf -> bool) (i : Z) : ST state (option Z) :=
  if i =? HEAD then mret None
  else match fuel with
       | O => out_of_fuel
       | S n => b ← get_buf i; if f b then mret (Some i) else scan_next n f (next b)
       end.

Fixpoint scan_prev (fuel : nat) (f : buf -> bool) (i : Z) : ST state (option Z) :=
  if i =? HEAD then mret None
  else match fuel with
       | O => out_of_fuel
       | S n => b ← get_buf i; if f b then mret (Some i) else scan_prev n f (prev b)
       end.

Definition is_block (d n : Z) (b : buf) : bool := (dev b =? d) && (blockno b =? n).
Definition is_free (b : buf) : bool := (refcnt b =? 0) && (Z.land (flags b) B_DIRTY =? 0).

Definition scan_fuel : nat := 31.

Definition bget (d n : Z) : ST state Z :=
  acquire;;
  h ← get_buf HEAD;
  r ← scan_next scan_fuel (is_block d n) (next h);
  match r with
  | Some i =>
      upd_buf i (fun b => set_refcnt (refcnt b + 1) b);;
      release;;
      acquiresleep i;;
      mret i
  | None =>
      h ← get_buf HEAD;
      r ← scan_prev scan_fuel is_free (prev h);
      match r with
      | Some i =>
          upd_buf i (set_id d n);;
          upd_buf i (set_flags 0);;
          upd_buf i (set_refcnt 1);;
          release;;
          acquiresleep i;;
          mret i
      | None => panic "bget: no buffers"
      end
  end.

Definition bread (d n : Z) : ST state Z :=
  i ← bget d n;
  b ← get_buf i;
  (if Z.land (flags b) B_VALID =? 0 then iderw i else mret tt);;
  mret i.

Definition bwrite (i : Z) : ST state unit :=
  h ← holdingsleep i;
  if negb h then panic "bwrite"
  else upd_buf i (fun b => set_flags (Z.lor (flags b) B_DIRTY) b);; iderw i.

Definition brelse (i : Z) : ST state unit :=
  h ← holdingsleep i;
  if negb h then panic "brelse"
  else
    releasesleep i;;
    acquire;;
    upd_buf i (fun b => set_refcnt (refcnt b - 1) b);;
    b ← get_buf i;
    (if refcnt b =? 0 then
       upd_buf (next b) (set_prev (prev b));;
       b ← get_buf i;
       upd_buf (prev b) (set_next (next b));;
       h ← get_buf HEAD;
       upd_buf i (set_next (next h));;
       upd_buf i (set_prev HEAD);;
       h ← get_buf HEAD;
       upd_buf (next h) (set_prev i);;
       upd_buf HEAD (set_next i)
     else mret tt);;
    release.

End Ops.

(** The cache before [binit]: zeroed memory. *)
Definition buf0 : buf := mkbuf 0 0 0 false 0 0 0 0 zero_block.
Definition state0 (d : Z -> block) : state := mkstate false (replicate 31 buf0) d [].

(** ** The cache as its clients see it *)

Definition links_of (s : state) : links :=
  fun i => (fun b => (prev b, next b)) <$> zlookup (bufs s) i.

(** The flags of a buffer are one of these. *)
Definition CLEAN : Z := B_VALID.
Definition PINNED : Z := 6.

(** [H] are the buffers this process holds. *)
Record buf_ok (pid : Z) (s : state) (H : gset Z) (i : Z) (b : buf) : Prop := {
  k_flags : (flags b = 0 /\ dev b = 0) \/ (dev b = 1 /\ (flags b = CLEAN \/ flags b = PINNED));
  k_held : i ∈ H -> locked b = true /\ lpid b = pid /\ refcnt b = 1 /\ flags b <> 0;
  k_free : i ∉ H -> locked b = false /\ refcnt b = 0;
  k_clean : i ∉ H -> flags b = CLEAN -> data b = disk s (blockno b)
}.

(** The list [L] of the buffers, most recently used first, and the held ones. *)
Record cache (pid : Z) (s : state) (L : list Z) (H : gset Z) : Prop := {
  c_ring : ring (links_of s) HEAD L;
  c_perm : forall i, i ∈ L <-> 0 <= i < NBUF;
  c_nodup : NoDup L;
  c_len : length (bufs s) = 31%nat;
  c_lock : lock s = false;
  c_bufs : forall i b, 0 <= i < NBUF -> zlookup (bufs s) i = Some b -> buf_ok pid s H i b;
  c_uniq : forall i j bi bj, 0 <= i < NBUF -> 0 <= j < NBUF ->
    zlookup (bufs s) i = Some bi -> zlookup (bufs s) j = Some bj ->
    dev bi = 1 -> dev bj = 1 -> blockno bi = blockno bj -> i = j;
  c_held : forall i, i ∈ H -> 0 <= i < NBUF
}.

(** Buffer [i] caches block [n] with contents [d]. *)
Definition caches (s : state) (i n : Z) (d : block) : Prop :=
  exists b, 0 <= i < NBUF /\ zlookup (bufs s) i = Some b /\ dev b = 1 /\ blockno b = n /\
    flags b <> 0 /\ data b = d.

(** The current contents of block [n]: those of its buffer, or of the disk. *)
Definition contents (s : state) (n : Z) (d : block) : Prop :=
  (exists i, caches s i n d) \/ ((forall i d', ~ caches s i n d') /\ disk s n = d).

(** Block [n] is pinned: its buffer is dirty and must not be recycled. *)
Definition pinned (s : state) (n : Z) : Prop :=
  exists i b, 0 <= i < NBUF /\ zlookup (bufs s) i = Some b /\ dev b = 1 /\ blockno b = n /\
    flags b = PINNED.

(** A buffer that [bget] can recycle. *)
Definition has_free (s : state) : Prop :=
  exists i b, 0 <= i < NBUF /\ zlookup (bufs s) i = Some b /\ is_free b = true.

(** ** Elementary steps *)

Definition updb (i : Z) (b : buf) (s : state) : state := set_bufs (zinsert i b (bufs s)) s.

Lemma run_get_buf s i b : zlookup (bufs s) i = Some b -> get_buf i s = Ok (b, s).
Proof. intros H. unfold get_buf. by rewrite run_get, H. Qed.

Lemma run_upd_buf s i b f : zlookup (bufs s) i = Some b -> upd_buf i f s = Ok (tt, updb i (f b) s).
Proof. intros H. unfold upd_buf. by rewrite run_get, H. Qed.

Lemma lookup_updb_eq s i b b0 :
  zlookup (bufs s) i = Some b0 -> zlookup (bufs (updb i b s)) i = Some b.
Proof. intros H. apply zlookup_zinsert_eq. by eapply zlookup_lt. Qed.

Lemma lookup_updb_ne s i j b : i <> j -> zlookup (bufs (updb i b s)) j = zlookup (bufs s) j.
Proof. apply zlookup_zinsert_ne. Qed.

Lemma length_updb s i b : length (bufs (updb i b s)) = length (bufs s).
Proof. apply length_zinsert. Qed.

Lemma lookup_updb s i b b0 j :
  zlookup (bufs s) i = Some b0 ->
  zlookup (bufs (updb i b s)) j = if decide (j = i) then Some b else zlookup (bufs s) j.
Proof.
  intros H. case_decide as Hd; [subst; by eapply lookup_updb_eq|apply lookup_updb_ne; congruence].
Qed.

Lemma links_set_prev s i b v x :
  zlookup (bufs s) i = Some b ->
  links_of (updb i (set_prev v b) s) x = upd_prev i v (links_of s) x.
Proof.
  intros H. unfold links_of, upd_prev. rewrite (lookup_updb _ _ _ _ _ H).
  case_decide; [subst; by rewrite H|done].
Qed.

Lemma links_set_next s i b v x :
  zlookup (bufs s) i = Some b ->
  links_of (updb i (set_next v b) s) x = upd_next i v (links_of s) x.
Proof.
  intros H. unfold links_of, upd_next. rewrite (lookup_updb _ _ _ _ _ H).
  case_decide; [subst; by rewrite H|done].
Qed.

Lemma links_same s i b b' x :
  zlookup (bufs s) i = Some b -> prev b' = prev b -> next b' = next b ->
  links_of (updb i b' s) x = links_of s x.
Proof.
  intros H Hp Hn. unfold links_of. rewrite (lookup_updb _ _ _ _ _ H).
  case_decide; [subst; rewrite H; simpl; by rewrite Hp, Hn|done].
Qed.

(** ** The scans *)

Lemma scan_next_spec f s L : forall fuel p,
  chain (links_of s) p L HEAD -> HEAD ∉ L -> (length L <= fuel)%nat ->
  exists r, scan_next fuel f (hd HEAD L) s = Ok (r, s) /\
    match r with
    | Some i => i ∈ L /\ exists b, zlookup (bufs s) i = Some b /\ f b = true
    | None => forall i b, i ∈ L -> zlookup (bufs s) i = Some b -> f b = false
    end.
Proof.
  induction L as [|x L IH]; intros fuel p Hc Hh Hf.
  { exists None. split; [destruct fuel; simpl; done|set_solver]. }
  destruct Hc as [Hx Hc]. simpl in Hf. destruct fuel as [|fuel]; [lia|].
  simpl. rewrite (proj2 (Z.eqb_neq x HEAD)) by set_solver.
  unfold links_of in Hx. destruct (zlookup (bufs s) x) as [b|] eqn:Hb; [|done].
  simpl in Hx. injection Hx as Hp Hn.
  rewrite (run_bind _ _ _ _ _ (run_get_buf _ _ _ Hb)).
  destruct (f b) eqn:Hfb; [exists (Some x); split; [done|]; split; [set_solver|eauto]|].
  destruct (IH fuel x Hc) as (r & Hr & Hres); [set_solver|lia|].
  exists r. rewrite Hn. split; [done|]. destruct r as [i|].
  - destruct Hres as [? ?]. split; [set_solver|done].
  - intros i b' [->|Hi]%elem_of_cons Hb'; [congruence|by eapply Hres].
Qed.

Lemma scan_prev_spec f s L : forall fuel e,
  chain (links_of s) HEAD L e -> HEAD ∉ L -> (length L <= fuel)%nat ->
  exists r, scan_prev fuel f (lastd HEAD L) s = Ok (r, s) /\
    match r with
    | Some i => exists L1 L2 b, L = L1 ++ (i :: L2) /\ zlookup (bufs s) i = Some b /\ f b = true /\
        (forall j bj, j ∈ L2 -> zlookup (bufs s) j = Some bj -> f bj = false)
    | None => forall i b, i ∈ L -> zlookup (bufs s) i = Some b -> f b = false
    end.
Proof.
  induction L as [|x L IH] using rev_ind; intros fuel e Hc Hh Hf.
  { exists None. split; [destruct fuel; simpl; done|set_solver]. }
  apply chain_app in Hc as [Hc [Hx _]]. rewrite length_app in Hf. simpl in Hf.
  destruct fuel as [|fuel]; [lia|]. rewrite lastd_app. simpl.
  rewrite (proj2 (Z.eqb_neq x HEAD)) by set_solver.
  unfold links_of in Hx. destruct (zlookup (bufs s) x) as [b|] eqn:Hb; [|done].
  simpl in Hx. injection Hx as Hp Hn.
  rewrite (run_bind _ _ _ _ _ (run_get_buf _ _ _ Hb)).
  destruct (f b) eqn:Hfb.
  { exists (Some x). split; [done|]. exists L, [], b. set_solver. }
  destruct (IH fuel x Hc) as (r & Hr & Hres); [set_solver|lia|].
  exists r. rewrite Hp. split; [done|]. destruct r as [i|].
  - destruct Hres as (L1 & L2 & b' & -> & Hb' & Hfb' & Hno). exists L1, (L2 ++ [x]), b'.
    rewrite <- app_assoc. split; [done|]. split; [done|]. split; [done|].
    intros j bj [Hj|Hj]%elem_of_app Hbj; [by eapply Hno|]. apply list_elem_of_singleton in Hj. congruence.
  - intros i b' [Hi|Hi]%elem_of_app Hb'; [by eapply Hres|]. apply list_elem_of_singleton in Hi. congruence.
Qed.

(** ** One buffer changes *)

(** [s] with buffer [i] replaced by [b], and a new disk. *)
Definition with_buf (i : Z) (b : buf) (d : Z -> block) (w : list (Z * block)) (s : state) : state :=
  mkstate false (zinsert i b (bufs s)) d w.

Lemma lookup_with_buf i b b0 d w s j :
  zlookup (bufs s) i = Some b0 ->
  zlookup (bufs (with_buf i b d w s)) j = if decide (j = i) then Some b else zlookup (bufs s) j.
Proof. apply (lookup_updb s i b b0 j). Qed.

Lemma links_with_buf i b b0 d w s x :
  zlookup (bufs s) i = Some b0 -> prev b = prev b0 -> next b = next b0 ->
  links_of (with_buf i b d w s) x = links_of s x.
Proof. intros. by apply (links_same s i b0 b x). Qed.

Section Update.

Context (pid : Z) (s : state) (L : list Z) (H H' : gset Z) (i : Z) (b b' : buf).
Context (d : Z -> block) (w : list (Z * block)).
Context (Hc : cache pid s L H) (Hi : 0 <= i < NBUF) (Hb : zlookup (bufs s) i = Some b).
Context (Hp : prev b' = prev b) (Hn : next b' = next b).
Context (HH : forall j, j <> i -> (j ∈ H' <-> j ∈ H)).
Context (Hd : forall n, n <> blockno b' -> d n = disk s n).
Context (Hother : dev b' = 1 -> forall j bj, 0 <= j < NBUF -> j <> i ->
  zlookup (bufs s) j = Some bj -> dev bj = 1 -> blockno bj <> blockno b').
Let s' := with_buf i b' d w s.

Lemma cache_update :
  (dev b' <> 1 -> forall n, d n = disk s n) -> buf_ok pid s' H' i b' -> cache pid s' L H'.
Proof.
  intros Hd' Hok. destruct Hc as [Hr Hpm Hnd Hlen Hlk Hbs Hu Hh]. split.
  - eapply chain_ext; [|exact Hr]. intros x _. by eapply links_with_buf.
  - done.
  - done.
  - simpl. by rewrite length_zinsert.
  - done.
  - intros j bj Hj. unfold s'. rewrite (lookup_with_buf _ _ _ _ _ _ _ Hb). case_decide as Hji.
    + intros [= <-]. by subst j.
    + intros Hbj. destruct (Hbs j bj Hj Hbj) as [H1 H2 H3 H4]. split; rewrite ?HH by done; auto.
      intros Hjn Hfl. rewrite H4 by done. simpl. symmetry.
      destruct (decide (dev b' = 1)) as [Hdev|Hdev]; [|by apply Hd'].
      apply Hd. apply (Hother Hdev j); auto. destruct H1 as [[? ?]|[? ?]]; [|done].
      unfold CLEAN, B_VALID in *. congruence.
  - intros j k bj bk Hj Hk. unfold s'. rewrite !(lookup_with_buf _ _ _ _ _ _ _ Hb).
    repeat case_decide; intros Hbj Hbk Hdj Hdk Heq; simplify_eq; auto.
    + exfalso. by eapply (Hother Hdj k).
    + exfalso. by eapply (Hother Hdk j).
    + by eapply Hu.
  - intros j Hj. destruct (decide (j = i)) as [->|]; [done|]. apply Hh. by apply HH.
Qed.

(** Blocks other than the buffer's old and new one keep their contents. *)
Lemma contents_update n x :
  (dev b = 1 -> n <> blockno b) -> (dev b' = 1 -> n <> blockno b') -> d n = disk s n ->
  (contents s' n x <-> contents s n x).
Proof.
  intros Hn1 Hn2 Hdn.
  assert (Hca : forall j y, caches s' j n y <-> caches s j n y).
  { intros j y. unfold caches, s'. rewrite (lookup_with_buf _ _ _ _ _ _ _ Hb). case_decide as Hj.
    - subst j. split; intros (b0 & _ & [= <-] & Hd1 & Hd2 & _) || intros (b0 & _ & Hb0 & Hd1 & Hd2 & _).
      + by destruct (Hn2 Hd1).
      + rewrite Hb in Hb0. simplify_eq. by destruct (Hn1 Hd1).
    - done. }
  unfold contents. setoid_rewrite Hca. simpl. by rewrite Hdn.
Qed.

End Update.

Lemma contents_fun pid s L H n x y : cache pid s L H -> contents s n x -> contents s n y -> x = y.
Proof.
  intros Hc [[i Hi]|[Hno Hx]] [[j Hj]|[Hno' Hy]]; [|by destruct (Hno' i x)|by destruct (Hno j y)|congruence].
  destruct Hi as (bi & Hi & Hbi & Hdi & Hni & _ & <-), Hj as (bj & Hj & Hbj & Hdj & Hnj & _ & <-).
  assert (i = j) as -> by (eapply (c_uniq _ _ _ _ Hc); eauto; congruence). congruence.
Qed.

Lemma caches_contents s i n x : caches s i n x -> contents s n x.
Proof. left. eauto. Qed.

(** ** [bget] *)

Lemma cache_lookup pid s L H i : cache pid s L H -> 0 <= i <= NBUF -> exists b, zlookup (bufs s) i = Some b.
Proof. intros Hc Hi. apply zlookup_is_Some. rewrite (c_len _ _ _ _ Hc). unfold NBUF in *. lia. Qed.

Lemma head_notin pid s L H : cache pid s L H -> HEAD ∉ L.
Proof. intros Hc Hin%(c_perm _ _ _ _ Hc). unfold HEAD in *. lia. Qed.

Lemma length_list pid s L H : cache pid s L H -> (length L <= scan_fuel)%nat.
Proof.
  intros Hc. assert (Hs : L ⊆+ seqZ 0 NBUF).
  { apply NoDup_submseteq; [apply Hc|]. intros i Hi%(c_perm _ _ _ _ Hc). apply elem_of_seqZ. lia. }
  apply submseteq_length in Hs. rewrite length_seqZ in Hs. unfold scan_fuel, NBUF in *. lia.
Qed.

(** The head's links start and end the list. *)
Lemma head_links pid s L H : cache pid s L H ->
  exists h, zlookup (bufs s) HEAD = Some h /\ next h = hd HEAD L /\ prev h = lastd HEAD L.
Proof.
  intros Hc. pose proof (ring_head _ _ _ (c_ring _ _ _ _ Hc)) as Hh. unfold links_of in Hh.
  destruct (zlookup (bufs s) HEAD) as [h|] eqn:E; [|done]. simpl in Hh. injection Hh as H1 H2.
  by exists h.
Qed.

Definition locked_state (s : state) : state := mkstate true (bufs s) (disk s) (writes s).

Lemma run_bcache_acquire s : lock s = false -> acquire s = Ok (tt, locked_state s).
Proof. intros H. unfold acquire. by rewrite run_get, H. Qed.

(** Locking buffer [i], already updated to [b] under the cache's lock. *)
Lemma run_lock_buf pid s i b b0 :
  zlookup (bufs s) i = Some b0 -> locked b = false ->
  (release;; acquiresleep pid i;; mret i) (updb i b (locked_state s))
    = Ok (i, with_buf i (set_locked true pid b) (disk s) (writes s) s).
Proof.
  intros Hb Hl. set (s1 := updb i b (locked_state s)).
  set (s2 := mkstate false (bufs s1) (disk s1) (writes s1)).
  rewrite (run_bind release _ s1 tt s2) by done.
  assert (Hb2 : zlookup (bufs s2) i = Some b) by (by apply (lookup_updb_eq s i b b0)).
  assert (Hacq : acquiresleep pid i s2 = Ok (tt, updb i (set_locked true pid b) s2)).
  { unfold acquiresleep. rewrite (run_bind _ _ _ _ _ (run_get_buf _ _ _ Hb2)), Hl.
    by apply run_upd_buf. }
  rewrite (run_bind _ _ _ _ _ Hacq). unfold mret, ST_ret. do 2 f_equal.
  unfold updb, with_buf, set_bufs, s2, s1. simpl. by rewrite zinsert_twice.
Qed.

(** What [bget] leaves in the buffer: the cached block, or an empty buffer. *)
Definition got (pid n : Z) (b b' : buf) (hit : bool) : Prop :=
  if hit then dev b = 1 /\ blockno b = n /\ b' = set_locked true pid (set_refcnt 1 b)
  else is_free b = true /\ b' = set_locked true pid (set_refcnt 1 (set_flags 0 (set_id 1 n b))).

Lemma bget_spec pid s L H n :
  cache pid s L H -> (forall i b, i ∈ H -> zlookup (bufs s) i = Some b -> blockno b <> n) ->
  (exists i x, caches s i n x) \/ has_free s ->
  exists i b b' hit, bget pid 1 n s = Ok (i, with_buf i b' (disk s) (writes s) s) /\
    0 <= i < NBUF /\ (i ∉ H) /\ zlookup (bufs s) i = Some b /\ got pid n b b' hit /\
    (hit = false -> (forall j bj, 0 <= j < NBUF -> zlookup (bufs s) j = Some bj -> is_block 1 n bj = false) /\
       exists L1 L2, L = L1 ++ (i :: L2) /\
         forall j bj, j ∈ L2 -> zlookup (bufs s) j = Some bj -> is_free bj = false).
Proof.
  intros Hc Hnh Hav. destruct (head_links _ _ _ _ Hc) as (h & Hh & Hhn & Hhp).
  pose proof (head_notin _ _ _ _ Hc) as HL. pose proof (length_list _ _ _ _ Hc) as Hlen.
  destruct (c_ring _ _ _ _ Hc) as [_ Hch].
  set (s1 := locked_state s). unfold bget.
  rewrite (run_bind _ _ _ _ _ (run_bcache_acquire s (c_lock _ _ _ _ Hc))). fold s1.
  rewrite (run_bind _ _ _ _ _ (run_get_buf s1 HEAD h Hh)), Hhn.
  destruct (scan_next_spec (is_block 1 n) s1 L scan_fuel HEAD Hch HL Hlen) as (r & Hr & Hres).
  rewrite (run_bind _ _ _ _ _ Hr). destruct r as [i|].
  - destruct Hres as [Hi%(c_perm _ _ _ _ Hc) (b & Hb & Hf)].
    apply andb_true_iff in Hf as [Hd%Z.eqb_eq Hn%Z.eqb_eq].
    assert (HiH : i ∉ H) by (intros HiH; by apply (Hnh i b HiH Hb)).
    destruct (k_free _ _ _ _ _ (c_bufs _ _ _ _ Hc i b Hi Hb) HiH) as [Hlk Hrc].
    exists i, b, (set_locked true pid (set_refcnt 1 b)), true.
    rewrite (run_bind _ _ _ _ _ (run_upd_buf s1 i b _ Hb)), Hrc.
    split; [exact (run_lock_buf pid s i (set_refcnt (0 + 1) b) b Hb Hlk)|].
    split; [done|]. split; [done|]. split; [done|]. split; [done|]. done.
  - rewrite (run_bind _ _ _ _ _ (run_get_buf s1 HEAD h Hh)), Hhp.
    destruct (scan_prev_spec is_free s1 L scan_fuel HEAD Hch HL Hlen) as (r & Hr2 & Hres2).
    rewrite (run_bind _ _ _ _ _ Hr2). destruct r as [i|].
    + destruct Hres2 as (L1 & L2 & b & HLL & Hb & Hf & Hno).
      assert (Hi : 0 <= i < NBUF) by (apply (c_perm _ _ _ _ Hc); rewrite HLL; set_solver).
      pose proof (c_bufs _ _ _ _ Hc i b Hi Hb) as Hbo.
      assert (HiH : i ∉ H).
      { intros HiH. destruct (k_held _ _ _ _ _ Hbo HiH) as (_ & _ & Hrc & _).
        unfold is_free in Hf. by rewrite Hrc in Hf. }
      destruct (k_free _ _ _ _ _ Hbo HiH) as [Hlk _].
      exists i, b, (set_locked true pid (set_refcnt 1 (set_flags 0 (set_id 1 n b)))), false.
      rewrite (run_bind _ _ _ _ _ (run_upd_buf s1 i b _ Hb)).
      rewrite (run_bind _ _ _ _ _ (run_upd_buf _ i _ _ (lookup_updb_eq s1 i _ b Hb))).
      rewrite (run_bind _ _ _ _ _ (run_upd_buf _ i _ _
        (lookup_updb_eq _ i _ _ (lookup_updb_eq s1 i _ b Hb)))).
      split; [|split; [done|split; [done|split; [done|split; [done|intros _; split; [|eauto]]]]]].
      * replace (updb i _ (updb i _ (updb i _ s1))) with
          (updb i (set_refcnt 1 (set_flags 0 (set_id 1 n b))) s1)
          by (unfold updb, set_bufs; simpl; by rewrite !zinsert_twice).
        exact (run_lock_buf pid s i (set_refcnt 1 (set_flags 0 (set_id 1 n b))) b Hb Hlk).
      * intros j bj Hj Hbj. eapply Hres; [by apply (c_perm _ _ _ _ Hc)|done].
    + exfalso. destruct Hav as [(i & x & bi & Hi & Hbi & Hd & Hn & _)|(i & bi & Hi & Hbi & Hf)].
      * assert (Hf : is_block 1 n bi = false) by (eapply Hres; [by apply (c_perm _ _ _ _ Hc)|done]).
        unfold is_block in Hf. rewrite Hd, Hn in Hf. by rewrite !Z.eqb_refl in Hf.
      * assert (Hf' : is_free bi = false) by (eapply Hres2; [by apply (c_perm _ _ _ _ Hc)|done]).
        congruence.
Qed.

(** ** The disk *)

Lemma run_holding pid s i b :
  zlookup (bufs s) i = Some b -> locked b = true -> lpid b = pid ->
  holdingsleep pid i s = Ok (true, s).
Proof.
  intros Hb Hl Hp. unfold holdingsleep.
  rewrite (run_bind _ _ _ _ _ (run_get_buf _ _ _ Hb)), Hl, Hp, Z.eqb_refl. done.
Qed.

Lemma iderw_read pid disksize s i b :
  zlookup (bufs s) i = Some b -> locked b = true -> lpid b = pid -> flags b = 0 ->
  dev b = 1 -> blockno b < disksize ->
  iderw pid disksize i s =
    Ok (tt, updb i (set_flags CLEAN (set_data (disk s (blockno b)) b)) s).
Proof.
  intros Hb Hl Hp Hf Hd Hn. unfold iderw.
  rewrite (run_bind _ _ _ _ _ (run_holding _ _ _ _ Hb Hl Hp)). cbn [negb].
  rewrite (run_bind _ _ _ _ _ (run_get_buf _ _ _ Hb)), Hf, Hd.
  rewrite (proj2 (Z.leb_gt _ _) Hn).
  change (Z.land 0 (Z.lor B_VALID B_DIRTY) =? B_VALID) with false.
  change (Z.land 0 B_DIRTY =? 0) with true. rewrite Z.eqb_refl. cbn [negb].
  set (s1 := updb i (set_data (disk s (blockno b)) b) s).
  assert (H1 : (s ← get; upd_buf i (set_data (disk s (blockno b)))) s = Ok (tt, s1))
    by (rewrite run_get; by apply run_upd_buf).
  rewrite (run_bind _ _ _ _ _ H1).
  rewrite (run_upd_buf s1 i (set_data (disk s (blockno b)) b)) by (by eapply lookup_updb_eq).
  do 2 f_equal. unfold updb, set_bufs, s1; simpl. rewrite zinsert_twice. by rewrite Hf.
Qed.

Lemma iderw_write pid disksize s i b :
  zlookup (bufs s) i = Some b -> locked b = true -> lpid b = pid ->
  flags b = PINNED -> dev b = 1 -> blockno b < disksize ->
  lock s = false ->
  iderw pid disksize i s =
    Ok (tt, with_buf i (set_flags CLEAN b)
              (fun n => if n =? blockno b then data b else disk s n)
              (writes s ++ [(blockno b, data b)]) s).
Proof.
  intros Hb Hl Hp Hf Hd Hn Hlk. unfold iderw.
  rewrite (run_bind _ _ _ _ _ (run_holding _ _ _ _ Hb Hl Hp)). cbn [negb].
  rewrite (run_bind _ _ _ _ _ (run_get_buf _ _ _ Hb)), Hf, Hd.
  rewrite (proj2 (Z.leb_gt _ _) Hn).
  change (Z.land PINNED (Z.lor B_VALID B_DIRTY) =? B_VALID) with false.
  change (Z.land PINNED B_DIRTY =? 0) with false. rewrite Z.eqb_refl. cbn [negb].
  set (b1 := set_flags (Z.land (flags b) (not32 B_DIRTY)) b).
  set (s1 := updb i b1 s).
  set (s2 := mkstate (lock s1) (bufs s1) (fun n => if n =? blockno b then data b else disk s1 n)
                (writes s1 ++ [(blockno b, data b)])).
  assert (H1 : (upd_buf i (fun b => set_flags (Z.land (flags b) (not32 B_DIRTY)) b);;
         s ← get;
         put (mkstate (lock s) (bufs s)
                (fun n => if n =? blockno b then data b else disk s n)
                (writes s ++ [(blockno b, data b)]))) s = Ok (tt, s2)).
  { by rewrite (run_bind _ _ _ _ _ (run_upd_buf s i b _ Hb)). }
  rewrite (run_bind _ _ _ _ _ H1).
  rewrite (run_upd_buf s2 i b1) by (by apply (lookup_updb_eq s i b1 b)).
  do 2 f_equal. unfold updb, with_buf, set_bufs, s2, s1, b1; simpl. rewrite zinsert_twice, Hlk.
  f_equal. by rewrite Hf.
Qed.

(** ** [bread], [bwrite] and changes by the holder *)

(** What does not change when this process gets or changes a buffer. *)
Definition others_same (s s' : state) (n : Z) : Prop :=
  forall m x, m <> n -> (contents s' m x <-> contents s m x).

Definition others_pinned (s s' : state) (n : Z) : Prop :=
  forall m, m <> n -> (pinned s' m <-> pinned s m).

(** Buffer [i] is held and has block [n] with contents [x]. *)
Definition has (s : state) (H : gset Z) (i n : Z) (x : block) : Prop := i ∈ H /\ caches s i n x.

Lemma pinned_with_buf pid s L H i b b' d w m :
  cache pid s L H -> 0 <= i < NBUF -> zlookup (bufs s) i = Some b ->
  (pinned (with_buf i b' d w s) m <->
   (dev b' = 1 /\ blockno b' = m /\ flags b' = PINNED) \/
   (exists j bj, j <> i /\ 0 <= j < NBUF /\ zlookup (bufs s) j = Some bj /\ dev bj = 1 /\
      blockno bj = m /\ flags bj = PINNED)).
Proof.
  intros Hc Hi Hb. unfold pinned. setoid_rewrite (lookup_with_buf _ _ _ _ _ _ _ Hb). split.
  - intros (j & bj & Hj & Hbj & H1 & H2 & H3). case_decide as Hd; [simplify_eq; by left|right].
    exists j, bj. done.
  - intros [(H1 & H2 & H3)|(j & bj & Hne & Hj & Hbj & H1 & H2 & H3)].
    + exists i, b'. by rewrite decide_True.
    + exists j, bj. by rewrite decide_False.
Qed.

Lemma contents_cached pid s L H i n x y :
  cache pid s L H -> caches s i n x -> (contents s n y <-> y = x).
Proof.
  intros Hc Hi. split; [|intros ->; by eapply caches_contents].
  intros Hy. eapply contents_fun; [exact Hc|exact Hy|]. by eapply caches_contents.
Qed.

(** The buffer of block [n] changes its lock, count, flags or data. *)
Lemma cache_touch pid s L H H' i b b' d w :
  cache pid s L H -> 0 <= i < NBUF -> zlookup (bufs s) i = Some b ->
  dev b = 1 -> dev b' = 1 -> blockno b' = blockno b -> prev b' = prev b -> next b' = next b ->
  (forall j, j <> i -> (j ∈ H' <-> j ∈ H)) -> (forall n, n <> blockno b -> d n = disk s n) ->
  buf_ok pid (with_buf i b' d w s) H' i b' ->
  cache pid (with_buf i b' d w s) L H' /\ others_same s (with_buf i b' d w s) (blockno b).
Proof.
  intros Hc Hi Hb Hdv Hdv' Hbn Hp Hn HH Hd Hok.
  assert (Hother : forall j bj, 0 <= j < NBUF -> j <> i ->
    zlookup (bufs s) j = Some bj -> dev bj = 1 -> blockno bj <> blockno b').
  { intros j bj Hj Hji Hbj Hdj Heq. apply Hji. eapply (c_uniq _ _ _ _ Hc); eauto. congruence. }
  split.
  - eapply cache_update; eauto; try congruence. intros n0. rewrite Hbn. apply Hd.
  - intros m x Hm. eapply contents_update; eauto; congruence.
Qed.

(** What a caller of [bread] may rely on. *)
Record bread_ok (pid : Z) (s : state) (L : list Z) (H : gset Z) (n i : Z) (x : block) (s' : state) : Prop := {
  br_cache : cache pid s' L ({[i]} ∪ H);
  br_new : i ∉ H;
  br_caches : caches s' i n x;
  br_contents : forall m y, contents s' m y <-> contents s m y;
  br_pinned : forall m, pinned s' m <-> pinned s m;
  br_disk : disk s' = disk s;
  br_writes : writes s' = writes s;
  br_others : forall j, j <> i -> zlookup (bufs s') j = zlookup (bufs s) j
}.

Lemma bread_hit pid s L H n i b :
  cache pid s L H -> 0 <= i < NBUF -> i ∉ H -> zlookup (bufs s) i = Some b ->
  dev b = 1 -> blockno b = n ->
  bread_ok pid s L H n i (data b)
    (with_buf i (set_locked true pid (set_refcnt 1 b)) (disk s) (writes s) s).
Proof.
  intros Hc Hi HiH Hb Hd Hn. set (b' := set_locked true pid (set_refcnt 1 b)).
  pose proof (c_bufs _ _ _ _ Hc i b Hi Hb) as [Hfl _ _ _].
  assert (Hfl' : flags b <> 0) by (destruct Hfl as [[? ?]|[_ [E|E]]]; [congruence|by rewrite E|by rewrite E]).
  assert (Hca : caches s i n (data b)) by (exists b; done).
  destruct (cache_touch pid s L H ({[i]} ∪ H) i b b' (disk s) (writes s) Hc Hi Hb) as [Hc' Hoth]; try done.
  { intros j Hj. set_solver. }
  { split; [exact Hfl|intros _; done|set_solver|set_solver]. }
  assert (Hca' : caches (with_buf i b' (disk s) (writes s) s) i n (data b)).
  { exists b'. rewrite (lookup_with_buf _ _ _ _ _ _ _ Hb), decide_True by done. done. }
  split; try done.
  - intros m y. destruct (decide (m = n)) as [->|Hm].
    + by rewrite (contents_cached _ _ _ _ _ _ _ _ Hc' Hca'), (contents_cached _ _ _ _ _ _ _ _ Hc Hca).
    + apply Hoth. congruence.
  - intros m. rewrite (pinned_with_buf _ _ _ _ _ _ _ _ _ _ Hc Hi Hb). split.
    + intros [(H1 & H2 & H3)|(j & bj & _ & ?)]; [by exists i, b|by exists j, bj].
    + intros (j & bj & Hj & Hbj & ? & ? & ?). destruct (decide (j = i)) as [->|]; [left|right; by exists j, bj].
      rewrite Hb in Hbj. simplify_eq. done.
  - intros j Hj. by rewrite (lookup_with_buf _ _ _ _ _ _ _ Hb), decide_False.
Qed.

Lemma free_flags pid s L H i b :
  cache pid s L H -> 0 <= i < NBUF -> i ∉ H -> zlookup (bufs s) i = Some b -> is_free b = true ->
  (flags b = 0 /\ dev b = 0) \/ (dev b = 1 /\ flags b = CLEAN /\ data b = disk s (blockno b)).
Proof.
  intros Hc Hi HiH Hb Hf. pose proof (c_bufs _ _ _ _ Hc i b Hi Hb) as [Hfl _ _ Hcl].
  destruct Hfl as [?|[Hd [E|E]]]; [by left|right; auto|].
  unfold is_free in Hf. rewrite E in Hf. by rewrite andb_false_r in Hf.
Qed.

Lemma bread_miss pid s L H n i b :
  cache pid s L H -> 0 <= i < NBUF -> i ∉ H -> zlookup (bufs s) i = Some b -> is_free b = true ->
  (forall j bj, 0 <= j < NBUF -> zlookup (bufs s) j = Some bj -> is_block 1 n bj = false) ->
  bread_ok pid s L H n i (disk s n)
    (with_buf i (set_flags CLEAN (set_data (disk s n)
       (set_locked true pid (set_refcnt 1 (set_flags 0 (set_id 1 n b)))))) (disk s) (writes s) s).
Proof.
  intros Hc Hi HiH Hb Hf Hno. set (b' := set_flags _ _).
  pose proof (free_flags _ _ _ _ _ _ Hc Hi HiH Hb Hf) as Hfl.
  assert (Hno' : forall j bj, 0 <= j < NBUF -> zlookup (bufs s) j = Some bj -> dev bj = 1 -> blockno bj <> n).
  { intros j bj Hj Hbj Hd Hn. specialize (Hno j bj Hj Hbj). unfold is_block in Hno.
    rewrite Hd, Hn, !Z.eqb_refl in Hno. done. }
  assert (Hunc : forall j x, ~ caches s j n x) by (intros j x (bj & Hj & Hbj & Hd & Hn & _); by eapply Hno').
  set (s' := with_buf i b' (disk s) (writes s) s).
  assert (Hc' : cache pid s' L ({[i]} ∪ H)).
  { eapply (cache_update pid s L H ({[i]} ∪ H) i b b'); eauto.
    - set_solver.
    - split; [right; split; [done|by left]|intros _; done|set_solver|set_solver]. }
  assert (Hca' : caches s' i n (disk s n)).
  { exists b'. unfold s'. rewrite (lookup_with_buf _ _ _ _ _ _ _ Hb), decide_True by done. done. }
  split; try done.
  - intros m y. destruct (decide (m = n)) as [->|Hm].
    + rewrite (contents_cached _ _ _ _ _ _ _ _ Hc' Hca'). unfold contents. split.
      * intros ->. right. done.
      * intros [[j Hj]|[_ ?]]; [by destruct (Hunc j y)|done].
    + destruct (decide (dev b = 1 /\ m = blockno b)) as [[Hd ->]|Hd].
      * destruct Hfl as [[_ ?]|(_ & Hfl & Hdat)]; [congruence|].
        assert (Hca : caches s i (blockno b) (data b)) by (exists b; rewrite Hfl; done).
        rewrite (contents_cached _ _ _ _ _ _ _ _ Hc Hca), Hdat. split.
        -- intros [(j & bj & Hj & Hbj & H1 & H2 & _)|[_ ?]]; [|done].
           unfold s' in Hbj. rewrite (lookup_with_buf _ _ _ _ _ _ _ Hb) in Hbj.
           case_decide; simplify_eq. exfalso.
           assert (j = i); [|done]. eapply (c_uniq _ _ _ _ Hc); eauto.
        -- intros ->. right. split; [|done]. intros j y (bj & Hj & Hbj & H1 & H2 & _).
           unfold s' in Hbj. rewrite (lookup_with_buf _ _ _ _ _ _ _ Hb) in Hbj.
           case_decide; simplify_eq.
           assert (j = i); [|done]. eapply (c_uniq _ _ _ _ Hc); eauto.
      * eapply contents_update; eauto; tauto || done.
  - intros m. unfold s'. rewrite (pinned_with_buf _ _ _ _ _ _ _ _ _ _ Hc Hi Hb). split.
    + intros [(H1 & H2 & H3)|(j & bj & _ & ?)]; [done|by exists j, bj].
    + intros (j & bj & Hj & Hbj & H1 & H2 & H3).
      destruct (decide (j = i)) as [->|]; [|right; by exists j, bj].
      rewrite Hb in Hbj. simplify_eq. destruct Hfl as [[E _]|(_ & E & _)]; rewrite E in H3; done.
  - intros j Hj. unfold s'. by rewrite (lookup_with_buf _ _ _ _ _ _ _ Hb), decide_False.
Qed.

Lemma bread_spec pid ds s L H n :
  cache pid s L H -> n < ds -> (forall i b, i ∈ H -> zlookup (bufs s) i = Some b -> blockno b <> n) ->
  (exists i x, caches s i n x) \/ has_free s ->
  exists i x s', bread pid ds 1 n s = Ok (i, s') /\ bread_ok pid s L H n i x s'.
Proof.
  intros Hc Hn Hnh Hav.
  destruct (bget_spec pid s L H n Hc Hnh Hav) as (i & b & b' & hit & Hrun & Hi & HiH & Hb & Hg & Hmiss).
  unfold bread. rewrite (run_bind _ _ _ _ _ Hrun).
  set (s1 := with_buf i b' (disk s) (writes s) s) in *.
  assert (Hb1 : zlookup (bufs s1) i = Some b')
    by (unfold s1; by rewrite (lookup_with_buf _ _ _ _ _ _ _ Hb), decide_True).
  rewrite (run_bind _ _ _ _ _ (run_get_buf _ _ _ Hb1)). destruct hit.
  - destruct Hg as (Hd & Hbn & ->). pose proof (bread_hit _ _ _ _ _ _ _ Hc Hi HiH Hb Hd Hbn) as Hok.
    assert (Hfl : (Z.land (flags b) B_VALID =? 0) = false).
    { destruct (k_flags _ _ _ _ _ (c_bufs _ _ _ _ Hc i b Hi Hb)) as [[_ ?]|[_ [E|E]]];
        [congruence|by rewrite E|by rewrite E]. }
    cbn [flags set_locked set_refcnt]. rewrite Hfl. by exists i, (data b), s1.
  - destruct Hg as [Hf ->]. destruct (Hmiss eq_refl) as [Hno _].
    pose proof (bread_miss _ _ _ _ _ _ _ Hc Hi HiH Hb Hf Hno) as Hok.
    cbn [flags set_locked set_refcnt set_flags]. cbn [Z.land Z.eqb].
    rewrite (run_bind _ _ _ _ _ (iderw_read pid ds s1 i _ Hb1 eq_refl eq_refl eq_refl eq_refl Hn)).
    eexists i, (disk s n), _. split; [done|].
    replace (updb i _ s1) with (with_buf i (set_flags CLEAN (set_data (disk s n)
       (set_locked true pid (set_refcnt 1 (set_flags 0 (set_id 1 n b)))))) (disk s) (writes s) s); [done|].
    unfold updb, with_buf, set_bufs, s1; simpl. by rewrite zinsert_twice.
Qed.

(** The holder of a buffer writes it, changes its data or marks it dirty. *)
Record touch_ok (pid : Z) (s : state) (L : list Z) (H : gset Z) (n i : Z) (y : block) (s' : state) : Prop := {
  tc_cache : cache pid s' L H;
  tc_caches : caches s' i n y;
  tc_same : others_same s s' n;
  tc_others : forall j, j <> i -> zlookup (bufs s') j = zlookup (bufs s) j
}.

Lemma held_touch pid s L H n i x b b' d w :
  cache pid s L H -> has s H i n x -> zlookup (bufs s) i = Some b ->
  dev b' = dev b -> blockno b' = blockno b -> prev b' = prev b -> next b' = next b ->
  locked b' = locked b -> lpid b' = lpid b -> refcnt b' = refcnt b ->
  flags b' = CLEAN \/ flags b' = PINNED -> (forall m, m <> n -> d m = disk s m) ->
  touch_ok pid s L H n i (data b') (with_buf i b' d w s).
Proof.
  intros Hc [HiH (b0 & Hi & Hb0 & Hd & Hn & _)] Hb Hd' Hn' Hp Hx Hl Hlp Hr Hfl Hdk.
  rewrite Hb in Hb0. simplify_eq.
  destruct (k_held _ _ _ _ _ (c_bufs _ _ _ _ Hc i b0 Hi Hb) HiH) as (H1 & H2 & H3 & _).
  assert (Hfl' : flags b' <> 0) by (destruct Hfl as [-> | ->]; done).
  destruct (cache_touch pid s L H H i b0 b' d w Hc Hi Hb) as [Hc' Hoth]; try done; try congruence.
  { split.
    - right. split; [congruence|done].
    - intros _. rewrite Hl, Hlp, Hr. done.
    - intros Hno. done.
    - intros Hno. done. }
  split; [done| |done|].
  - exists b'. rewrite (lookup_with_buf _ _ _ _ _ _ _ Hb), decide_True by done.
    repeat split; try done; try congruence; lia.
  - intros j Hj. by rewrite (lookup_with_buf _ _ _ _ _ _ _ Hb), decide_False.
Qed.

Lemma bwrite_spec pid ds s L H n i x :
  cache pid s L H -> has s H i n x -> n < ds ->
  exists s', bwrite pid ds i s = Ok (tt, s') /\ touch_ok pid s L H n i x s' /\
    (forall m, pinned s' m <-> pinned s m /\ m <> n) /\
    disk s' = (fun m => if m =? n then x else disk s m) /\ writes s' = writes s ++ [(n, x)].
Proof.
  intros Hc Hh Hds. pose proof Hh as [HiH (b & Hi & Hb & Hd & Hn & Hf0 & Hx)]. subst n x.
  destruct (k_held _ _ _ _ _ (c_bufs _ _ _ _ Hc i b Hi Hb) HiH) as (H1 & H2 & H3 & _).
  set (b1 := set_flags PINNED b). set (s1 := updb i b1 s).
  assert (Hb1 : zlookup (bufs s1) i = Some b1) by (by eapply lookup_updb_eq).
  exists (with_buf i (set_flags CLEAN b1) (fun m => if m =? blockno b then data b else disk s m)
    (writes s ++ [(blockno b, data b)]) s).
  split; [|split; [|split; [|done]]].
  - unfold bwrite. rewrite (run_bind _ _ _ _ _ (run_holding _ _ _ _ Hb H1 H2)). cbn [negb].
    rewrite (run_bind _ _ _ _ _ (run_upd_buf s i b _ Hb)).
    assert (Hfl : Z.lor (flags b) B_DIRTY = PINNED).
    { destruct (k_flags _ _ _ _ _ (c_bufs _ _ _ _ Hc i b Hi Hb)) as [[? _]|[_ [E|E]]];
        [done|by rewrite E|by rewrite E]. }
    rewrite Hfl. fold b1. fold s1.
    rewrite (iderw_write pid ds s1 i b1 Hb1 H1 H2 eq_refl Hd Hds) by apply Hc.
    do 2 f_equal. unfold with_buf, s1, updb; simpl. by rewrite zinsert_twice.
  - change (data b) with (data (set_flags CLEAN b1)) at 1.
    eapply held_touch; eauto. intros m Hm. by rewrite (proj2 (Z.eqb_neq m _) Hm).
  - intros m. rewrite (pinned_with_buf _ _ _ _ _ _ _ _ _ _ Hc Hi Hb). split.
    + intros [(_ & _ & H6)|(j & bj & Hne & Hj & Hbj & Hdj & Hnj & Hfj)]; [done|].
      split; [by exists j, bj|]. intros ->. apply Hne. eapply (c_uniq _ _ _ _ Hc); eauto.
    + intros [(j & bj & Hj & Hbj & Hdj & Hnj & Hfj) Hne]. right. exists j, bj. split; [|done].
      intros ->. rewrite Hb in Hbj. by simplify_eq.
Qed.

(** Storing through [b->data]. *)
Lemma store_data_spec pid s L H n i x f :
  cache pid s L H -> has s H i n x ->
  exists s', upd_buf i (fun b => set_data (f (data b)) b) s = Ok (tt, s') /\
    touch_ok pid s L H n i (f x) s' /\ (forall m, pinned s' m <-> pinned s m) /\
    disk s' = disk s /\ writes s' = writes s.
Proof.
  intros Hc Hh. pose proof Hh as [HiH (b & Hi & Hb & Hd & Hn & Hf0 & Hx)]. subst n x.
  set (b1 := set_data (f (data b)) b). exists (with_buf i b1 (disk s) (writes s) s).
  split; [|split; [|split; [|done]]].
  - rewrite (run_upd_buf s i b _ Hb). do 2 f_equal. unfold updb, with_buf, set_bufs.
    by rewrite (c_lock _ _ _ _ Hc).
  - change (f (data b)) with (data b1). eapply held_touch; eauto.
    destruct (k_flags _ _ _ _ _ (c_bufs _ _ _ _ Hc i b Hi Hb)) as [[? _]|[_ ?]]; [congruence|done].
  - intros m. rewrite (pinned_with_buf _ _ _ _ _ _ _ _ _ _ Hc Hi Hb). split.
    + intros [(H1 & H2 & H3)|(j & bj & _ & ?)]; [by exists i, b|by exists j, bj].
    + intros (j & bj & Hj & Hbj & ? & ? & ?).
      destruct (decide (j = i)) as [->|]; [left|right; by exists j, bj].
      rewrite Hb in Hbj. simplify_eq. done.
Qed.

(** [b->flags |= B_DIRTY]. *)
Lemma set_dirty_spec pid s L H n i x :
  cache pid s L H -> has s H i n x ->
  exists s', upd_buf i (fun b => set_flags (Z.lor (flags b) B_DIRTY) b) s = Ok (tt, s') /\
    touch_ok pid s L H n i x s' /\ (forall m, pinned s' m <-> pinned s m \/ m = n) /\
    disk s' = disk s /\ writes s' = writes s.
Proof.
  intros Hc Hh. pose proof Hh as [HiH (b & Hi & Hb & Hd & Hn & Hf0 & Hx)]. subst n x.
  assert (Hfl : Z.lor (flags b) B_DIRTY = PINNED).
  { destruct (k_flags _ _ _ _ _ (c_bufs _ _ _ _ Hc i b Hi Hb)) as [[? _]|[_ [E|E]]];
      [done|by rewrite E|by rewrite E]. }
  set (b1 := set_flags PINNED b). exists (with_buf i b1 (disk s) (writes s) s).
  split; [|split; [|split; [|done]]].
  - rewrite (run_upd_buf s i b _ Hb), Hfl. do 2 f_equal. unfold updb, with_buf, set_bufs.
    by rewrite (c_lock _ _ _ _ Hc).
  - change (data b) with (data b1). eapply held_touch; eauto.
  - intros m. rewrite (pinned_with_buf _ _ _ _ _ _ _ _ _ _ Hc Hi Hb). split.
    + intros [(H1 & H2 & H3)|(j & bj & _ & ?)]; [by right|left; by exists j, bj].
    + intros [(j & bj & Hj & Hbj & ? & ? & ?)| ->]; [|by left].
      destruct (decide (j = i)) as [->|]; [left|right; by exists j, bj].
      rewrite Hb in Hbj. simplify_eq. done.
Qed.

(** ** Relinking *)

(** Everything in a buffer but its links. *)
Definition core (b : buf) := (flags b, dev b, blockno b, locked b, lpid b, refcnt b, data b).

(** [s'] differs from [s] in links only. *)
Definition same_core (s s' : state) : Prop :=
  (forall j, core <$> zlookup (bufs s') j = core <$> zlookup (bufs s) j) /\
  length (bufs s') = length (bufs s) /\ lock s' = lock s /\ disk s' = disk s /\ writes s' = writes s.

Lemma same_core_trans s1 s2 s3 : same_core s1 s2 -> same_core s2 s3 -> same_core s1 s3.
Proof.
  intros (A1 & A2 & A3 & A4 & A5) (B1 & B2 & B3 & B4 & B5).
  split; [intros j; by rewrite B1|]. repeat split; congruence.
Qed.

Lemma same_core_lookup s s' j b' :
  same_core s s' -> zlookup (bufs s') j = Some b' ->
  exists b, zlookup (bufs s) j = Some b /\ core b' = core b.
Proof.
  intros (Hc & _) Hb. specialize (Hc j). rewrite Hb in Hc. simpl in Hc.
  destruct (zlookup (bufs s) j) as [b|]; [|done]. exists b. split; [done|].
  by apply (inj Some).
Qed.

Lemma links_lookup s i p n :
  links_of s i = Some (p, n) -> exists b, zlookup (bufs s) i = Some b /\ prev b = p /\ next b = n.
Proof.
  unfold links_of. destruct (zlookup (bufs s) i) as [b|]; simpl; [|done]. intros [= <- <-]. eauto.
Qed.

Lemma step_prev s i pn v :
  links_of s i = Some pn ->
  exists s', upd_buf i (set_prev v) s = Ok (tt, s') /\ same_core s s' /\
    forall x, links_of s' x = upd_prev i v (links_of s) x.
Proof.
  intros Hl. destruct pn as [p n]. destruct (links_lookup _ _ _ _ Hl) as (b & Hb & _).
  exists (updb i (set_prev v b) s). split; [by apply run_upd_buf|].
  split; [|intros x; by apply links_set_prev].
  split; [|by rewrite length_updb]. intros j. rewrite (lookup_updb _ _ _ _ _ Hb).
  case_decide; [subst; by rewrite Hb|done].
Qed.

Lemma step_next s i pn v :
  links_of s i = Some pn ->
  exists s', upd_buf i (set_next v) s = Ok (tt, s') /\ same_core s s' /\
    forall x, links_of s' x = upd_next i v (links_of s) x.
Proof.
  intros Hl. destruct pn as [p n]. destruct (links_lookup _ _ _ _ Hl) as (b & Hb & _).
  exists (updb i (set_next v b) s). split; [by apply run_upd_buf|].
  split; [|intros x; by apply links_set_next].
  split; [|by rewrite length_updb]. intros j. rewrite (lookup_updb _ _ _ _ _ Hb).
  case_decide; [subst; by rewrite Hb|done].
Qed.

Lemma ring_ext lk lk' Hd L : (forall x, lk' x = lk x) -> ring lk Hd L -> ring lk' Hd L.
Proof. intros He Hr. eapply chain_ext; [|exact Hr]. auto. Qed.

Lemma ring_member lk Hd L x : ring lk Hd L -> x ∈ Hd :: L -> exists pn, lk x = Some pn.
Proof.
  intros Hr [->|Hx]%elem_of_cons; [rewrite (ring_head _ _ _ Hr); eauto|].
  apply list_elem_of_split in Hx as (L1 & L2 & ->). rewrite (ring_at _ _ _ _ _ Hr). eauto.
Qed.

Lemma hd_in (Hd : Z) L : hd Hd L ∈ Hd :: L.
Proof. destruct L; set_solver. Qed.

Lemma lastd_in' (Hd : Z) L : lastd Hd L ∈ Hd :: L.
Proof. destruct L as [|y L]; [set_solver|]. right. by apply (lastd_in Hd (y :: L)). Qed.

(** The pointer assignments of [brelse] that take buffer [i] out of the list. *)
Lemma unlink_step s L1 i L2 b :
  NoDup (HEAD :: L1 ++ i :: L2) -> ring (links_of s) HEAD (L1 ++ i :: L2) ->
  zlookup (bufs s) i = Some b ->
  exists s', (forall A (k : ST state A),
      (upd_buf (next b) (set_prev (prev b));;
       b ← get_buf i; upd_buf (prev b) (set_next (next b));; k) s = k s') /\
    same_core s s' /\ ring (links_of s') HEAD (L1 ++ L2).
Proof.
  intros Hnd Hr Hb. pose proof (ring_at _ _ _ _ _ Hr) as Hi.
  assert (Hbl : prev b = lastd HEAD L1 /\ next b = hd HEAD L2)
    by (unfold links_of in Hi; rewrite Hb in Hi; by simplify_eq/=).
  destruct Hbl as [Hbp Hbn]. rewrite Hbn, Hbp.
  assert (Hni : hd HEAD L2 <> i /\ lastd HEAD L1 <> i).
  { apply NoDup_cons in Hnd as [HH Hnd]. apply NoDup_app in Hnd as (_ & Hdis & [Hi2 _]%NoDup_cons).
    pose proof (hd_in HEAD L2). pose proof (lastd_in' HEAD L1). set_solver. }
  destruct Hni as [Hni1 Hni2].
  destruct (ring_member _ _ _ (hd HEAD L2) Hr) as [pn Hpn].
  { pose proof (hd_in HEAD L2). set_solver. }
  destruct (step_prev s _ _ (lastd HEAD L1) Hpn) as (s1 & Hrun1 & Hcore1 & Hlk1).
  assert (Hi1 : links_of s1 i = Some (lastd HEAD L1, hd HEAD L2))
    by (rewrite Hlk1, upd_prev_ne by congruence; done).
  destruct (links_lookup _ _ _ _ Hi1) as (b1 & Hb1 & Hbp1 & Hbn1).
  assert (Hpv : exists pn, links_of s1 (lastd HEAD L1) = Some pn).
  { destruct (ring_member _ _ _ (lastd HEAD L1) Hr) as [[p n] Hpn'].
    { pose proof (lastd_in' HEAD L1). set_solver. }
    rewrite Hlk1. unfold upd_prev. case_decide; rewrite Hpn'; eauto. }
  destruct Hpv as [pn' Hpv].
  destruct (step_next s1 _ _ (hd HEAD L2) Hpv) as (s2 & Hrun2 & Hcore2 & Hlk2).
  exists s2. split; [|split; [by eapply same_core_trans|]].
  { intros A k. rewrite (run_bind _ _ _ _ _ Hrun1), (run_bind _ _ _ _ _ (run_get_buf _ _ _ Hb1)).
    by rewrite Hbn1, Hbp1, (run_bind _ _ _ _ _ Hrun2). }
  eapply ring_ext; [|exact (ring_unlink _ _ _ _ _ Hnd Hr)]. intros x. rewrite Hlk2.
  unfold upd_next. case_decide; by rewrite Hlk1.
Qed.

(** The assignments that put buffer [i] at the front. *)
Lemma push_step s i L :
  NoDup (HEAD :: i :: L) -> ring (links_of s) HEAD L -> (exists pn, links_of s i = Some pn) ->
  exists s', (h ← get_buf HEAD; upd_buf i (set_next (next h));; upd_buf i (set_prev HEAD);;
              h ← get_buf HEAD; upd_buf (next h) (set_prev i);; upd_buf HEAD (set_next i)) s
               = Ok (tt, s') /\
    same_core s s' /\ ring (links_of s') HEAD (i :: L).
Proof.
  intros Hnd Hr [pn Hpn]. pose proof (ring_head _ _ _ Hr) as Hh.
  destruct (links_lookup _ _ _ _ Hh) as (h & Hbh & _ & Hhn).
  assert (HiH : i <> HEAD) by (apply NoDup_cons in Hnd as [? _]; set_solver).
  rewrite (run_bind _ _ _ _ _ (run_get_buf _ _ _ Hbh)), Hhn.
  destruct (step_next s i pn (hd HEAD L) Hpn) as (s1 & Hrun1 & Hcore1 & Hlk1).
  rewrite (run_bind _ _ _ _ _ Hrun1).
  assert (Hi1 : links_of s1 i = Some (pn.1, hd HEAD L)) by (rewrite Hlk1; destruct pn; by eapply upd_next_eq).
  destruct (step_prev s1 i _ HEAD Hi1) as (s2 & Hrun2 & Hcore2 & Hlk2).
  rewrite (run_bind _ _ _ _ _ Hrun2).
  assert (Hlk2' : forall x, links_of s2 x = if decide (x = i) then Some (HEAD, hd HEAD L) else links_of s x).
  { intros x. rewrite Hlk2. unfold upd_prev. case_decide; [subst; by rewrite Hi1|].
    rewrite Hlk1. by apply upd_next_ne. }
  assert (Hh2 : links_of s2 HEAD = Some (lastd HEAD L, hd HEAD L)) by (rewrite Hlk2', decide_False by done; done).
  destruct (links_lookup _ _ _ _ Hh2) as (h2 & Hbh2 & _ & Hhn2).
  rewrite (run_bind _ _ _ _ _ (run_get_buf _ _ _ Hbh2)), Hhn2.
  assert (Hx : exists pn, links_of s2 (hd HEAD L) = Some pn).
  { rewrite Hlk2'. case_decide; [eauto|]. eapply ring_member; [done|]. apply hd_in. }
  destruct Hx as [pn2 Hx]. destruct (step_prev s2 _ _ i Hx) as (s3 & Hrun3 & Hcore3 & Hlk3).
  rewrite (run_bind _ _ _ _ _ Hrun3).
  assert (Hh3 : exists pn, links_of s3 HEAD = Some pn).
  { rewrite Hlk3. unfold upd_prev. case_decide; rewrite Hh2; eauto. }
  destruct Hh3 as [pn3 Hh3]. destruct (step_next s3 HEAD pn3 i Hh3) as (s4 & Hrun4 & Hcore4 & Hlk4).
  exists s4. split; [done|]. split; [eauto 10 using same_core_trans|].
  eapply ring_ext; [|exact (ring_push _ _ _ _ Hnd Hr)]. intros x. rewrite Hlk4.
  unfold upd_next. case_decide; rewrite Hlk3; unfold upd_prev; case_decide; by rewrite Hlk2'.
Qed.

(** [cache] looks at the links through the ring, at the rest through [core]. *)
Lemma cache_relinked pid s s' L L' H :
  cache pid s L H -> same_core s s' -> ring (links_of s') HEAD L' ->
  (forall i, i ∈ L' <-> i ∈ L) -> NoDup L' -> cache pid s' L' H.
Proof.
  intros [Hr Hpm Hnd Hlen Hlk Hbs Hu Hh] Hsc Hr' HL Hnd'.
  pose proof Hsc as (Hcore & Hlen' & Hlk' & Hdk & _).
  assert (Hcb : forall i b', zlookup (bufs s') i = Some b' ->
    exists b, zlookup (bufs s) i = Some b /\ flags b' = flags b /\ dev b' = dev b /\
      blockno b' = blockno b /\ locked b' = locked b /\ lpid b' = lpid b /\ refcnt b' = refcnt b /\
      data b' = data b).
  { intros i b' Hb'. destruct (same_core_lookup _ _ _ _ Hsc Hb') as (b & Hb & [= ? ? ? ? ? ? ?]).
    exists b. done. }
  split; try done.
  - intros i. by rewrite HL.
  - congruence.
  - congruence.
  - intros i b' Hi Hb'. destruct (Hcb i b' Hb') as (b & Hb & E1 & E2 & E3 & E4 & E5 & E6 & E7).
    destruct (Hbs i b Hi Hb) as [H1 H2 H3 H4].
    split; rewrite ?E1, ?E2, ?E3, ?E4, ?E5, ?E6, ?E7, ?Hdk; auto.
  - intros i j bi bj Hi Hj Hbi Hbj. destruct (Hcb i bi Hbi) as (b & Hb & E1 & E2 & E3 & _).
    destruct (Hcb j bj Hbj) as (b2 & Hb2 & F1 & F2 & F3 & _).
    rewrite E2, E3, F2, F3. by eapply Hu.
Qed.

Lemma caches_core s s' i n x : same_core s s' -> (caches s' i n x <-> caches s i n x).
Proof.
  assert (Hd : forall s s', same_core s s' -> caches s' i n x -> caches s i n x).
  { clear. intros s s' Hsc (b' & Hi & Hb' & H1 & H2 & H3 & H4).
    destruct (same_core_lookup _ _ _ _ Hsc Hb') as (b & Hb & [= ? ? ? ? ? ? ?]).
    exists b. split; [done|]. split; [done|]. repeat split; congruence. }
  intros Hsc. split; apply Hd; [done|].
  destruct Hsc as (A1 & A2 & A3 & A4 & A5). repeat split; auto.
Qed.

Lemma pinned_core s s' n : same_core s s' -> (pinned s' n <-> pinned s n).
Proof.
  assert (Hd : forall s s', same_core s s' -> pinned s' n -> pinned s n).
  { clear. intros s s' Hsc (i & b' & Hi & Hb' & H1 & H2 & H3).
    destruct (same_core_lookup _ _ _ _ Hsc Hb') as (b & Hb & [= ? ? ? ? ? ? ?]).
    exists i, b. split; [done|]. split; [done|]. repeat split; congruence. }
  intros Hsc. split; apply Hd; [done|].
  destruct Hsc as (A1 & A2 & A3 & A4 & A5). repeat split; auto.
Qed.

Lemma contents_iff s s' :
  (forall i n x, caches s' i n x <-> caches s i n x) -> disk s' = disk s ->
  forall n x, contents s' n x <-> contents s n x.
Proof. intros Hca Hd n x. unfold contents. setoid_rewrite Hca. by rewrite Hd. Qed.

(** What a caller of [brelse] may rely on; the buffer becomes the most recently
    used one. *)
Record brelse_ok (pid : Z) (s : state) (L : list Z) (H : gset Z) (i : Z) (s' : state) : Prop := {
  bl_cache : exists L1 L2, L = L1 ++ (i :: L2) /\ cache pid s' (i :: L1 ++ L2) (H ∖ {[i]});
  bl_caches : forall j m y, caches s' j m y <-> caches s j m y;
  bl_pinned : forall m, pinned s' m <-> pinned s m;
  bl_disk : disk s' = disk s;
  bl_writes : writes s' = writes s
}.

Lemma unlock_ok pid s L H i n x b :
  cache pid s L H -> has s H i n x -> (pinned s n \/ disk s n = x) ->
  zlookup (bufs s) i = Some b ->
  let b2 := set_refcnt 0 (set_locked false 0 b) in
  cache pid (with_buf i b2 (disk s) (writes s) s) L (H ∖ {[i]}) /\
  (forall j m y, caches (with_buf i b2 (disk s) (writes s) s) j m y <-> caches s j m y) /\
  (forall m, pinned (with_buf i b2 (disk s) (writes s) s) m <-> pinned s m).
Proof.
  intros Hc [HiH (b0 & Hi & Hb0 & Hd & Hn & Hf0 & Hx)] Hpin Hb b2. rewrite Hb in Hb0. simplify_eq.
  pose proof (c_bufs _ _ _ _ Hc i b0 Hi Hb) as Hbo. split; [|split].
  - eapply cache_touch; eauto.
    + intros j Hj. set_solver.
    + split.
      * apply Hbo.
      * set_solver.
      * done.
      * intros _ Hcl. simpl in *. destruct Hpin as [(j & bj & Hj & Hbj & Hdj & Hnj & Hfj)|Hdk]; [|done].
        assert (j = i) as -> by (eapply (c_uniq _ _ _ _ Hc); eauto). rewrite Hb in Hbj. simplify_eq.
        rewrite Hfj in Hcl. done.
  - intros j m y. unfold caches. rewrite (lookup_with_buf _ _ _ _ _ _ _ Hb). case_decide; [subst j|done].
    split; intros (b' & Hj & Hb' & Hrest); simplify_eq.
    + exists b0. done.
    + exists b2. done.
  - intros m. rewrite (pinned_with_buf _ _ _ _ _ _ _ _ _ _ Hc Hi Hb). split.
    + intros [(H1 & H2 & H3)|(j & bj & _ & ?)]; [by exists i, b0|by exists j, bj].
    + intros (j & bj & Hj & Hbj & ? & ? & ?).
      destruct (decide (j = i)) as [->|]; [left|right; by exists j, bj].
      rewrite Hb in Hbj. simplify_eq. done.
Qed.

Lemma brelse_spec pid s L H i n x :
  cache pid s L H -> has s H i n x -> (pinned s n \/ disk s n = x) ->
  exists s', brelse pid i s = Ok (tt, s') /\ brelse_ok pid s L H i s'.
Proof.
  intros Hc Hh Hpin. pose proof Hh as [HiH (b & Hi & Hb & Hd & Hn & Hf0 & Hx)].
  destruct (k_held _ _ _ _ _ (c_bufs _ _ _ _ Hc i b Hi Hb) HiH) as (H1 & H2 & H3 & _).
  destruct (unlock_ok _ _ _ _ _ _ _ b Hc Hh Hpin Hb) as (Hc2 & Hca2 & Hpin2).
  set (b2 := set_refcnt 0 (set_locked false 0 b)) in *.
  set (s2 := with_buf i b2 (disk s) (writes s) s) in *.
  assert (Hin : i ∈ L) by (by apply (c_perm _ _ _ _ Hc)).
  apply list_elem_of_split in Hin as (L1 & L2 & HL).
  assert (Hnd : NoDup (HEAD :: L1 ++ i :: L2)).
  { rewrite <- HL. apply NoDup_cons. split; [by eapply head_notin|apply Hc]. }
  set (s3 := locked_state s2).
  assert (Hb3 : zlookup (bufs s3) i = Some b2)
    by (change (zlookup (bufs s2) i = Some b2); unfold s2; by rewrite (lookup_with_buf _ _ _ _ _ _ _ Hb), decide_True).
  assert (Hr3 : ring (links_of s3) HEAD (L1 ++ i :: L2)) by (rewrite <- HL; apply Hc2).
  destruct (unlink_step s3 L1 i L2 b2 Hnd Hr3 Hb3) as (s4 & Hrun4 & Hcore4 & Hr4).
  assert (Hnd' : NoDup (HEAD :: i :: L1 ++ L2)).
  { revert Hnd. rewrite <- Permutation_middle. done. }
  destruct (push_step s4 i (L1 ++ L2) Hnd' Hr4) as (s5 & Hrun5 & Hcore5 & Hr5).
  { destruct Hcore4 as (Hc4 & _). specialize (Hc4 i). rewrite Hb3 in Hc4. unfold links_of.
    destruct (zlookup (bufs s4) i); [eauto|done]. }
  set (s6 := mkstate false (bufs s5) (disk s5) (writes s5)).
  assert (Hcore6 : same_core s2 s6).
  { pose proof (same_core_trans _ _ _ Hcore4 Hcore5) as (A1 & A2 & A3 & A4 & A5). by repeat split. }
  assert (Hc6 : cache pid s6 (i :: L1 ++ L2) (H ∖ {[i]})).
  { eapply cache_relinked; [exact Hc2|done|exact Hr5| |by apply NoDup_cons in Hnd' as [_ ?]].
    intros j. rewrite HL. set_solver. }
  exists s6. split.
  - unfold brelse. rewrite (run_bind _ _ _ _ _ (run_holding _ _ _ _ Hb H1 H2)). cbn [negb].
    set (s1 := updb i (set_locked false 0 b) s).
    rewrite (run_bind (releasesleep i) _ s tt s1) by (by apply run_upd_buf).
    rewrite (run_bind _ _ _ _ _ (run_bcache_acquire s1 (c_lock _ _ _ _ Hc))).
    assert (Hb1 : zlookup (bufs (locked_state s1)) i = Some (set_locked false 0 b)) by (by eapply (lookup_updb_eq s i)).
    rewrite (run_bind _ _ _ _ _ (run_upd_buf _ _ _ _ Hb1)).
    replace (updb i _ (locked_state s1)) with s3; last first.
    { unfold s3, s2, s1, b2, locked_state, updb, with_buf, set_bufs; simpl. rewrite zinsert_twice.
      by rewrite H3. }
    rewrite (run_bind _ _ _ _ _ (run_get_buf _ _ _ Hb3)). change (refcnt b2 =? 0) with true. cbv iota.
    assert (Hrel : forall (m : ST state unit) t, m s3 = Ok (tt, t) -> lock t = true ->
      (m;; release) s3 = Ok (tt, mkstate false (bufs t) (disk t) (writes t))).
    { intros m t Hm Ht. rewrite (run_bind _ _ _ _ _ Hm). unfold release. by rewrite run_get, Ht. }
    apply (Hrel _ s5).
    + rewrite Hrun4. exact Hrun5.
    + destruct (same_core_trans _ _ _ Hcore4 Hcore5) as (_ & _ & -> & _). done.
  - split.
    + exists L1, L2. done.
    + intros j m y. by rewrite (caches_core s2 s6), Hca2.
    + intros m. by rewrite (pinned_core s2 s6), Hpin2.
    + by destruct Hcore6 as (_ & _ & _ & -> & _).
    + by destruct Hcore6 as (_ & _ & _ & _ & ->).
Qed.

(** ** Room in the cache *)

Definition flag_at (s : state) (i : Z) : bool :=
  match zlookup (bufs s) i with Some b => is_free b | None => false end.

Definition block_at (s : state) (i : Z) : Z :=
  match zlookup (bufs s) i with Some b => blockno b | None => 0 end.

(** Fewer held buffers and pinned blocks than buffers leave one to recycle. *)
Lemma room_free pid s L H P :
  cache pid s L H -> (forall n, pinned s n -> n ∈ P) -> (size H + length P < 30)%nat -> has_free s.
Proof.
  intros Hc HP Hsz. destruct (decide (Exists (fun i => flag_at s i = true) (seqZ 0 30))) as [He|Hne].
  { apply Exists_exists in He as (i & Hi%elem_of_seqZ & Hf). unfold flag_at in Hf.
    destruct (zlookup (bufs s) i) as [b|] eqn:Hb; [|done]. exists i, b. unfold NBUF. split; [lia|done]. }
  exfalso. rewrite <- Forall_Exists_neg, Forall_forall in Hne.
  set (free := filter (fun i => i ∉ H) (seqZ 0 30)).
  assert (Hin : forall i, i ∈ free -> exists b, 0 <= i < NBUF /\ zlookup (bufs s) i = Some b /\
    dev b = 1 /\ flags b = PINNED).
  { intros i [HiH Hi%elem_of_seqZ]%list_elem_of_filter. assert (Hi' : 0 <= i < NBUF) by (unfold NBUF; lia).
    destruct (cache_lookup _ _ _ _ i Hc) as [b Hb]; [lia|]. exists b. split; [done|]. split; [done|].
    pose proof (Hne i ltac:(apply elem_of_seqZ; lia)) as Hf. unfold flag_at in Hf. rewrite Hb in Hf.
    destruct (c_bufs _ _ _ _ Hc i b Hi' Hb) as [Hfl _ Hfr _]. destruct (Hfr HiH) as [_ Hrc].
    unfold is_free in Hf. rewrite Hrc in Hf.
    destruct Hfl as [[E _]|[Hd [E|E]]]; [|rewrite E in Hf|done]; [rewrite E in Hf; by destruct Hf|by destruct Hf]. }
  assert (Hmap : (length free <= length P)%nat).
  { rewrite <- (length_fmap (block_at s) free). apply submseteq_length, NoDup_submseteq.
    - apply NoDup_fmap_2_strong; [|apply NoDup_filter, NoDup_seqZ].
      intros i j Hi Hj Heq. destruct (Hin i Hi) as (bi & Hi' & Hbi & Hdi & _).
      destruct (Hin j Hj) as (bj & Hj' & Hbj & Hdj & _). unfold block_at in Heq. rewrite Hbi, Hbj in Heq.
      eapply (c_uniq _ _ _ _ Hc); eauto.
    - intros n (i & -> & Hi)%list_elem_of_fmap. destruct (Hin i Hi) as (b & Hi' & Hb & Hd & Hf).
      apply HP. exists i, b. unfold block_at. rewrite Hb. done. }
  assert (Hall : (length (seqZ 0 30) <= length (elements H) + length free)%nat).
  { rewrite <- length_app. apply submseteq_length, NoDup_submseteq; [apply NoDup_seqZ|].
    intros i Hi. apply elem_of_app. destruct (decide (i ∈ H)); [left; by apply elem_of_elements|right].
    by apply list_elem_of_filter. }
  rewrite length_seqZ in Hall. unfold size, set_size in Hsz. simpl in Hsz. lia.
Qed.

(** ** [binit] *)

(** The buffers after [binit], the data apart. *)
Definition init_bufs (z : block) : list buf :=
  map (fun i => mkbuf 0 0 0 false 0 0 (if i =? 29 then HEAD else i + 1) (if i =? 0 then HEAD else i - 1) z)
    (seqZ 0 30) ++ [mkbuf 0 0 0 false 0 0 0 29 z].

Lemma run_binit d z :
  binit (mkstate false (replicate 31 (mkbuf 0 0 0 false 0 0 0 0 z)) d [])
    = Ok (tt, mkstate false (init_bufs z) d []).
Proof. vm_compute. reflexivity. Qed.

Lemma init_bufs_free z : Forall (fun b => flags b = 0 /\ dev b = 0 /\ locked b = false /\ refcnt b = 0) (init_bufs z).
Proof.
  unfold init_bufs. apply Forall_app. split; [|by repeat constructor].
  apply Forall_fmap, Forall_forall. done.
Qed.

Lemma init_ring z d : ring (links_of (mkstate false (init_bufs z) d [])) HEAD (rev (seqZ 0 30)).
Proof. vm_compute. repeat split. Qed.

Lemma binit_cache pid d :
  exists s, binit (state0 d) = Ok (tt, s) /\ cache pid s (rev (seqZ 0 30)) ∅ /\ disk s = d /\ writes s = [].
Proof.
  exists (mkstate false (init_bufs zero_block) d []). split; [apply run_binit|]. split; [|done].
  assert (Hb : forall i b, zlookup (init_bufs zero_block) i = Some b ->
    flags b = 0 /\ dev b = 0 /\ locked b = false /\ refcnt b = 0).
  { intros i b. unfold zlookup. destruct (0 <=? i); [|done].
    intros H. exact (Forall_lookup_1 _ _ _ _ (init_bufs_free zero_block) H). }
  split; cbn [bufs lock disk].
  - apply init_ring.
  - intros i. rewrite <- (elem_of_Permutation_proper i _ _ (Permutation_rev (seqZ 0 30))), elem_of_seqZ.
    unfold NBUF. lia.
  - rewrite <- Permutation_rev. apply NoDup_seqZ.
  - done.
  - done.
  - intros i b _ Hlk. destruct (Hb i b Hlk) as (H1 & H2 & H3 & H4).
    split; [by left|set_solver|done|intros _ Hf; by rewrite H1 in Hf].
  - intros i j bi bj _ _ Hbi _ Hd. destruct (Hb i bi Hbi) as (_ & H2 & _). congruence.
  - set_solver.
Qed.

Lemma init_unpinned d s n : binit (state0 d) = Ok (tt, s) -> ~ pinned s n.
Proof.
  unfold state0, buf0. rewrite run_binit. intros [= <-] (i & b & _ & Hb & Hd & _).
  unfold zlookup in Hb. destruct (0 <=? i); [|done]. cbn [bufs] in Hb.
  destruct (Forall_lookup_1 _ _ _ _ (init_bufs_free zero_block) Hb) as (_ & ? & _). congruence.
Qed.

(** ** Theorems *)

(** Reading block [n], replacing its data and writing it back, then reading it
    again: the code of a client of the cache. *)
Definition rewrite_block (pid ds n : Z) (y : block) : ST state block :=
  i ← bread pid ds 1 n;
  upd_buf i (fun b => set_data y b);;
  bwrite pid ds i;;
  brelse pid i;;
  j ← bread pid ds 1 n;
  b ← get_buf j;
  mret (data b).

(** C17: [bread] of a block that the process does not hold, with fewer held and
    pinned buffers than NBUF, returns without a panic a buffer that the process
    now holds and whose data are the block's current contents.  It writes
    nothing to the disk, changes the contents of no block, drops no pinned
    block, and touches no other buffer. *)
Theorem bread_correct pid ds s L H n P :
  cache pid s L H -> n < ds ->
  (forall i b, i ∈ H -> zlookup (bufs s) i = Some b -> blockno b <> n) ->
  (forall m, pinned s m -> m ∈ P) -> (size H + length P < 30)%nat ->
  exists i x s', bread pid ds 1 n s = Ok (i, s') /\ contents s n x /\
    cache pid s' L ({[i]} ∪ H) /\ has s' ({[i]} ∪ H) i n x /\
    (forall m y, contents s' m y <-> contents s m y) /\ (forall m, pinned s' m <-> pinned s m) /\
    disk s' = disk s /\ writes s' = writes s /\
    (forall j, j <> i -> zlookup (bufs s') j = zlookup (bufs s) j).
Proof.
  intros Hc Hn Hnh HP Hsz. destruct (bread_spec pid ds s L H n Hc Hn Hnh) as (i & x & s' & Hrun & Hok).
  { right. by eapply room_free. }
  destruct Hok as [H1 H2 H3 H4 H5 H6 H7 H8]. exists i, x, s'. split; [done|].
  split; [apply H4; by eapply caches_contents|]. split; [done|].
  split; [split; [set_solver|done]|]. done.
Qed.

Lemma bread_correct_witness :
  exists s i x s', cache 1 s (rev (seqZ 0 30)) ∅ /\ bread 1 1000 1 33 s = Ok (i, s') /\ contents s 33 x.
Proof.
  destruct (binit_cache 1 (fun _ => zero_block)) as (s & Hrun & Hc & _ & _).
  destruct (bread_correct 1 1000 s (rev (seqZ 0 30)) ∅ 33 [] Hc) as (i & x & s' & Hrun' & Hx & _).
  - lia.
  - intros i b Hi. destruct (not_elem_of_empty (C := gset Z) i Hi).
  - intros m Hm. destruct (init_unpinned (fun _ => zero_block) s m Hrun Hm).
  - rewrite size_empty. simpl. lia.
  - exists s, i, x, s'. exact (conj Hc (conj Hrun' Hx)).
Defined.

(** A block that is read, changed, written with [bwrite] and released is
    read back as it was written; the disk has the new contents, has received
    exactly this write, and no other block changed. *)
Theorem bwrite_bread_roundtrip pid ds s L n y P :
  cache pid s L ∅ -> n < ds -> (forall m, pinned s m -> m ∈ P) -> (length P < 29)%nat ->
  exists s', rewrite_block pid ds n y s = Ok (y, s') /\ disk s' n = y /\
    writes s' = writes s ++ [(n, y)] /\ (forall m x, m <> n -> (contents s' m x <-> contents s m x)).
Proof.
  intros Hc Hn HP Hsz. unfold rewrite_block.
  destruct (bread_spec pid ds s L ∅ n Hc Hn) as (i & x & s1 & Hrun1 & [C1 _ K1 S1 P1 D1 W1 _]).
  { set_solver. } { right. eapply room_free; [done|done|]. rewrite size_empty. lia. }
  rewrite (run_bind _ _ _ _ _ Hrun1).
  assert (Hh1 : has s1 ({[i]} ∪ ∅) i n x) by (split; [set_solver|done]).
  destruct (store_data_spec pid s1 L _ n i x (fun _ => y) C1 Hh1) as (s2 & Hrun2 & [C2 K2 S2 _] & P2 & D2 & W2).
  rewrite (run_bind _ _ _ _ _ Hrun2).
  assert (Hh2 : has s2 ({[i]} ∪ ∅) i n y) by (split; [set_solver|done]).
  destruct (bwrite_spec pid ds s2 L _ n i y C2 Hh2 Hn) as (s3 & Hrun3 & [C3 K3 S3 _] & P3 & D3 & W3).
  rewrite (run_bind _ _ _ _ _ Hrun3).
  assert (Hh3 : has s3 ({[i]} ∪ ∅) i n y) by (split; [set_solver|done]).
  destruct (brelse_spec pid s3 L _ i n y C3 Hh3) as (s4 & Hrun4 & [(L1 & L2 & _ & C4) K4 P4 D4 W4]).
  { right. rewrite D3. by rewrite Z.eqb_refl. }
  rewrite (run_bind _ _ _ _ _ Hrun4).
  assert (Hca4 : caches s4 i n y) by (by apply K4).
  assert (HH : ({[i]} ∪ ∅) ∖ {[i]} = (∅ : gset Z)) by set_solver. rewrite HH in C4.
  destruct (bread_spec pid ds s4 _ ∅ n C4 Hn) as (j & x5 & s5 & Hrun5 & [C5 _ K5 S5 P5 D5 W5 _]).
  { set_solver. } { left. eauto. }
  rewrite (run_bind _ _ _ _ _ Hrun5).
  assert (x5 = y) as ->.
  { eapply contents_fun; [exact C4| |by eapply caches_contents]. apply S5. by eapply caches_contents. }
  destruct K5 as (b & _ & Hb & _ & _ & _ & <-).
  rewrite (run_bind _ _ _ _ _ (run_get_buf _ _ _ Hb)).
  exists s5. split; [done|]. rewrite D5, D4, D3, W5, W4, W3, W2, W1.
  split; [by rewrite Z.eqb_refl|]. split; [done|]. intros m z Hm.
  assert (S4 : forall m x, contents s4 m x <-> contents s3 m x) by (by apply contents_iff).
  by rewrite S5, S4, (S3 m z Hm), (S2 m z Hm), S1.
Qed.

Lemma bwrite_bread_roundtrip_witness :
  exists s s', rewrite_block 1 1000 33 zero_block s = Ok (zero_block, s').
Proof.
  destruct (binit_cache 1 (fun _ => zero_block)) as (s & Hrun & Hc & _ & _).
  destruct (bwrite_bread_roundtrip 1 1000 s (rev (seqZ 0 30)) 33 zero_block [] Hc) as (s' & H' & _).
  - lia.
  - intros m Hm. destruct (init_unpinned (fun _ => zero_block) s m Hrun Hm).
  - simpl. lia.
  - exists s, s'. exact H'.
Defined.

End Bio.
