(* ===== verification/BufView.v ===== *)
(** * What the buffer cache promises to its clients

    [bview] is the client's view of the cache of [Bio]: the buffers it holds,
    the contents of every block, the blocks that are pinned, the disk and the
    writes it has received.  The log and the file system are proved against the
    rules of this file alone. *)

From Stdlib Require Import ZArith Lia.
From stdpp Require Import base numbers strings list gmap.
From S2P Require Import Prelude Block Bio.

Open Scope Z_scope.

Import Block.

Module BufView.

Definition fupd (n : Z) (x : block) (C : Z -> block) : Z -> block :=
  fun m => if m =? n then x else C m.

Lemma fupd_eq n x C : fupd n x C n = x.
Proof. unfold fupd. by rewrite Z.eqb_refl. Qed.

Lemma fupd_ne n m x C : m <> n -> fupd n x C m = C m.
Proof. intros H. unfold fupd. by rewrite (proj2 (Z.eqb_neq m n) H). Qed.

(** [H] maps the held buffers to their blocks. *)
Record bview (pid : Z) (s : Bio.state) (H : gmap Z Z) (C : Z -> block) (P : gset Z)
    (D : Z -> block) (W : list (Z * block)) : Prop := {
  v_cache : exists L, Bio.cache pid s L (dom H);
  v_held : forall i n, H !! i = Some n -> Bio.caches s i n (C n);
  v_contents : forall n x, Bio.contents s n x <-> x = C n;
  v_pinned : forall n, Bio.pinned s n <-> n ∈ P;
  v_disk : forall n, Bio.disk s n = D n;
  v_writes : Bio.writes s = W
}.

(** A block that is neither held nor pinned is on the disk. *)
Lemma bview_clean pid s H C P D W n :
  bview pid s H C P D W -> n ∉ P -> (forall i, H !! i <> Some n) -> C n = D n.
Proof.
  intros [[L Hc] Hh Hct Hp Hd _] HnP HnH.
  destruct (proj2 (Hct n (C n)) eq_refl) as [(i & b & Hi & Hb & Hdv & Hn & Hf & Hx)|[_ Hx]];
    [|by rewrite <- Hd, Hx].
  pose proof (Bio.c_bufs _ _ _ _ Hc i b Hi Hb) as Hok.
  destruct (H !! i) as [m|] eqn:Hm.
  { destruct (Hh i m Hm) as (b' & _ & Hb' & _ & Hn' & _). rewrite Hb in Hb'. simplify_eq.
    destruct (HnH i). by rewrite Hm. }
  destruct (Bio.k_flags _ _ _ _ _ Hok) as [[? _]|[_ [E|E]]]; [done| |].
  - rewrite <- Hx, (Bio.k_clean _ _ _ _ _ Hok), Hn; [apply Hd| |done]. by apply not_elem_of_dom.
  - destruct HnP. apply Hp. by exists i, b.
Qed.

(** Two held buffers have different blocks. *)
Lemma bview_inj pid s H C P D W i j n :
  bview pid s H C P D W -> H !! i = Some n -> H !! j = Some n -> i = j.
Proof.
  intros [[L Hc] Hh _ _ _ _] Hi Hj.
  destruct (Hh i n Hi) as (bi & ? & ? & ? & ? & _), (Hh j n Hj) as (bj & ? & ? & ? & ? & _).
  eapply (Bio.c_uniq _ _ _ _ Hc); eauto. congruence.
Qed.

Lemma bread_view pid ds s H C P D W n :
  bview pid s H C P D W -> n < ds -> (forall i, H !! i <> Some n) ->
  n ∈ P \/ (size H + size P < 30)%nat ->
  exists i s', Bio.bread pid ds 1 n s = Ok (i, s') /\ H !! i = None /\
    bview pid s' (<[i := n]> H) C P D W.
Proof.
  intros [[L Hc] Hh Hct Hp Hd Hw] Hn HnH Hav.
  destruct (Bio.bread_spec pid ds s L (dom H) n Hc Hn) as (i & x & s' & Hrun & Hok).
  { intros i b [m Hm]%elem_of_dom Hb E. destruct (Hh i m Hm) as (b' & _ & Hb' & _ & Hn' & _).
    rewrite Hb in Hb'. simplify_eq. by destruct (HnH i). }
  { destruct Hav as [HnP|Hsz].
    - left. apply Hp in HnP as (i & b & Hi & Hb & Hdv & Hbn & Hf). exists i, (Bio.data b), b.
      rewrite Hf. done.
    - right. eapply (Bio.room_free _ _ _ _ (elements P) Hc); [|by rewrite size_dom].
      intros m Hm%Hp. by apply elem_of_elements. }
  destruct Hok as [Hc' Hnew Hca Hct' Hp' Hd' Hw' Hoth]. exists i, s'. split; [done|].
  apply not_elem_of_dom in Hnew as Hnone. split; [done|].
  assert (x = C n) as -> by (apply Hct, Hct'; by eapply Bio.caches_contents).
  split.
  - exists L. by rewrite dom_insert_L.
  - intros j m. rewrite lookup_insert_Some. intros [[<- <-]|[Hne Hj]]; [done|].
    destruct (Hh j m Hj) as (b & Hj' & Hb & Hrest). exists b. by rewrite Hoth.
  - intros m y. rewrite Hct'. apply Hct.
  - intros m. rewrite Hp'. apply Hp.
  - intros m. by rewrite Hd'.
  - congruence.
Qed.

Lemma get_buf_view pid s H C P D W i n :
  bview pid s H C P D W -> H !! i = Some n ->
  exists b, Bio.get_buf i s = Ok (b, s) /\ Bio.blockno b = n /\ Bio.data b = C n.
Proof.
  intros Hv Hi. destruct (v_held _ _ _ _ _ _ _ Hv i n Hi) as (b & _ & Hb & _ & Hn & _ & Hx).
  exists b. split; [by apply Bio.run_get_buf|done].
Qed.

(** The holder of buffer [i] changed it. *)
Lemma touch_view pid s L H C P D W i n y s' P' D' W' :
  bview pid s H C P D W -> H !! i = Some n -> Bio.touch_ok pid s L (dom H) n i y s' ->
  (forall m, Bio.pinned s' m <-> m ∈ P') -> (forall m, Bio.disk s' m = D' m) -> Bio.writes s' = W' ->
  bview pid s' H (fupd n y C) P' D' W'.
Proof.
  intros Hv Hi [Hc' Hca Hs Hoth] HP HD HW. split; [by exists L| | |done|done|done].
  - intros j m Hj. destruct (decide (j = i)) as [->|Hne].
    { rewrite Hi in Hj. simplify_eq. by rewrite fupd_eq. }
    assert (m <> n) by (intros ->; apply Hne; by eapply (bview_inj _ _ _ _ _ _ _ j i n Hv)).
    rewrite fupd_ne by done. destruct (v_held _ _ _ _ _ _ _ Hv j m Hj) as (b & Hj' & Hb & Hrest).
    exists b. by rewrite Hoth.
  - intros m x. destruct (decide (m = n)) as [->|Hm].
    + rewrite fupd_eq. by eapply Bio.contents_cached.
    + rewrite fupd_ne, (Hs m x) by done. apply (v_contents _ _ _ _ _ _ _ Hv).
Qed.

Lemma held_has pid s H C P D W i n :
  bview pid s H C P D W -> H !! i = Some n -> Bio.has s (dom H) i n (C n).
Proof. intros Hv Hi. split; [by apply elem_of_dom_2 in Hi|by eapply v_held]. Qed.

Lemma store_view pid s H C P D W i n f :
  bview pid s H C P D W -> H !! i = Some n ->
  exists s', Bio.upd_buf i (fun b => Bio.set_data (f (Bio.data b)) b) s = Ok (tt, s') /\
    bview pid s' H (fupd n (f (C n)) C) P D W.
Proof.
  intros Hv Hi. destruct (v_cache _ _ _ _ _ _ _ Hv) as [L Hc].
  destruct (Bio.store_data_spec pid s L (dom H) n i (C n) f Hc (held_has _ _ _ _ _ _ _ _ _ Hv Hi))
    as (s' & Hrun & Ht & Hp & Hd & Hw).
  exists s'. split; [done|]. eapply touch_view; eauto.
  - intros m. rewrite Hp. apply (v_pinned _ _ _ _ _ _ _ Hv).
  - intros m. rewrite Hd. apply (v_disk _ _ _ _ _ _ _ Hv).
  - rewrite Hw. apply (v_writes _ _ _ _ _ _ _ Hv).
Qed.

Lemma bview_ext pid s H C C' P P' D D' W :
  bview pid s H C P D W -> (forall m, C' m = C m) -> (forall m, m ∈ P' <-> m ∈ P) -> (forall m, D' m = D m) ->
  bview pid s H C' P' D' W.
Proof.
  intros [Hc Hh Hct Hp Hd Hw] HC HP HD. split; [done| | | | |done].
  - intros i n Hi. rewrite HC. by apply Hh.
  - intros n x. rewrite HC. apply Hct.
  - intros n. rewrite HP. apply Hp.
  - intros n. rewrite HD. apply Hd.
Qed.

Lemma fupd_same n C m : fupd n (C n) C m = C m.
Proof. unfold fupd. destruct (Z.eqb_spec m n); congruence. Qed.

Lemma dirty_view pid s H C P D W i n :
  bview pid s H C P D W -> H !! i = Some n ->
  exists s', Bio.upd_buf i (fun b => Bio.set_flags (Z.lor (Bio.flags b) Bio.B_DIRTY) b) s = Ok (tt, s') /\
    bview pid s' H C ({[n]} ∪ P) D W.
Proof.
  intros Hv Hi. destruct (v_cache _ _ _ _ _ _ _ Hv) as [L Hc].
  destruct (Bio.set_dirty_spec pid s L (dom H) n i (C n) Hc (held_has _ _ _ _ _ _ _ _ _ Hv Hi))
    as (s' & Hrun & Ht & Hp & Hd & Hw).
  exists s'. split; [done|]. apply (bview_ext _ _ _ (fupd n (C n) C) _ ({[n]} ∪ P) _ D _);
    [|intros; by rewrite fupd_same|done|done].
  eapply touch_view; eauto.
  - intros m. rewrite Hp, (v_pinned _ _ _ _ _ _ _ Hv). set_solver.
  - intros m. rewrite Hd. apply (v_disk _ _ _ _ _ _ _ Hv).
  - rewrite Hw. apply (v_writes _ _ _ _ _ _ _ Hv).
Qed.

Lemma bwrite_view pid ds s H C P D W i n :
  bview pid s H C P D W -> H !! i = Some n -> n < ds ->
  exists s', Bio.bwrite pid ds i s = Ok (tt, s') /\
    bview pid s' H C (P ∖ {[n]}) (fupd n (C n) D) (W ++ [(n, C n)]).
Proof.
  intros Hv Hi Hn. destruct (v_cache _ _ _ _ _ _ _ Hv) as [L Hc].
  destruct (Bio.bwrite_spec pid ds s L (dom H) n i (C n) Hc (held_has _ _ _ _ _ _ _ _ _ Hv Hi) Hn)
    as (s' & Hrun & Ht & Hp & Hd & Hw).
  exists s'. split; [done|]. apply (bview_ext _ _ _ (fupd n (C n) C) _ (P ∖ {[n]}) _ (fupd n (C n) D) _);
    [|intros; by rewrite fupd_same|done|done].
  eapply touch_view; eauto.
  - intros m. rewrite Hp, (v_pinned _ _ _ _ _ _ _ Hv). set_solver.
  - intros m. rewrite Hd. unfold fupd. destruct (m =? n); [done|]. apply (v_disk _ _ _ _ _ _ _ Hv).
  - rewrite Hw. f_equal. apply (v_writes _ _ _ _ _ _ _ Hv).
Qed.

Lemma brelse_view pid s H C P D W i n :
  bview pid s H C P D W -> H !! i = Some n -> n ∈ P \/ D n = C n ->
  exists s', Bio.brelse pid i s = Ok (tt, s') /\ bview pid s' (delete i H) C P D W.
Proof.
  intros Hv Hi Hcl. destruct (v_cache _ _ _ _ _ _ _ Hv) as [L Hc].
  destruct (Bio.brelse_spec pid s L (dom H) i n (C n) Hc (held_has _ _ _ _ _ _ _ _ _ Hv Hi))
    as (s' & Hrun & [(L1 & L2 & _ & Hc') Hca Hp Hd Hw]).
  { by rewrite (v_pinned _ _ _ _ _ _ _ Hv), (v_disk _ _ _ _ _ _ _ Hv). }
  exists s'. split; [done|]. destruct Hv as [_ Hh Hct HP HD HW]. split.
  - exists (i :: L1 ++ L2). by rewrite dom_delete_L.
  - intros j m [_ Hj]%lookup_delete_Some. by apply Hca, Hh.
  - intros m x. rewrite (Bio.contents_iff s s' Hca Hd). apply Hct.
  - intros m. by rewrite Hp.
  - intros m. by rewrite Hd.
  - by rewrite Hw.
Qed.

(** The cache after [binit]. *)
Lemma binit_view pid D :
  exists s, Bio.binit (Bio.state0 D) = Ok (tt, s) /\ bview pid s ∅ D ∅ D [].
Proof.
  destruct (Bio.binit_cache pid D) as (s & Hrun & Hc & Hd & Hw). exists s. split; [exact Hrun|].
  assert (Hno : forall i n x, ~ Bio.caches s i n x).
  { intros i n x (b & Hi & Hb & Hdv & Hn & Hf & _). unfold Bio.state0, Bio.buf0 in Hrun.
    rewrite Bio.run_binit in Hrun. injection Hrun as <-. cbn [Bio.bufs] in Hb.
    unfold zlookup in Hb. destruct (0 <=? i); [|discriminate Hb].
    destruct (Forall_lookup_1 _ _ _ _ (Bio.init_bufs_free zero_block) Hb) as (E & _). exact (Hf E). }
  split.
  - eexists. rewrite dom_empty_L. exact Hc.
  - intros i n Hi. rewrite lookup_empty in Hi. discriminate Hi.
  - intros n x. unfold Bio.contents. split.
    + intros [(i & Hi)|[_ Hx]]; [destruct (Hno _ _ _ Hi)|congruence].
    + intros ->. right. split; [intros i d; apply Hno|congruence].
  - intros n. split; [intros Hp; destruct (Bio.init_unpinned D s n Hrun Hp)|].
    intros Hn. destruct (not_elem_of_empty (C := gset Z) n Hn).
  - congruence.
  - exact Hw.
Qed.

End BufView.
