(* ===== verification/Log.v ===== *)
(** * The redo log (fs/sfs/log.c)

    The in-memory log over the buffer cache of [Bio].  [begin_op] blocks where
    the code sleeps.  The header block holds the count and the block numbers as
    32-bit words. *)

From Stdlib Require Import ZArith Lia.
From stdpp Require Import base numbers strings list gmap.
From S2P Require Import Prelude Block Bio.

Open Scope Z_scope.

Import Block.

Module Log.

Definition MAXOPBLOCKS : Z := 10.
Definition LOGSIZE : Z := MAXOPBLOCKS * 3.

Record superblock := mksb {
  sb_size : Z;
  nblocks : Z;
  ninodes : Z;
  nlog : Z;
  logstart : Z;
  inodestart : Z;
  bmapstart : Z
}.

(** [struct log]; [n] and [block] are the in-memory header. *)
Record log := mklog {
  start : Z;
  size : Z;
  outstanding : Z;
  committing : bool;
  dev : Z;
  n : Z;
  block : list Z
}.

Definition set_outstanding (v : Z) (l : log) : log :=
  mklog (start l) (size l) v (committing l) (dev l) (n l) (block l).
Definition set_committing (v : bool) (l : log) : log :=
  mklog (start l) (size l) (outstanding l) v (dev l) (n l) (block l).
Definition set_n (v : Z) (l : log) : log :=
  mklog (start l) (size l) (outstanding l) (committing l) (dev l) v (block l).
Definition set_block (v : list Z) (l : log) : log :=
  mklog (start l) (size l) (outstanding l) (committing l) (dev l) (n l) v.
Definition set_area (st sz d : Z) (l : log) : log :=
  mklog st sz (outstanding l) (committing l) d (n l) (block l).

Record state := mkstate { bst : Bio.state; lg : log }.

Definition onbio {A} (m : ST Bio.state A) : ST state A :=
  zoom bst (fun b s => mkstate b (lg s)) m.

Definition get_log : ST state log := s ← get; mret (lg s).
Definition upd_log (f : log -> log) : ST state unit := modify (fun s => mkstate (bst s) (f (lg s))).

(** [log.lh.block[i]]. *)
Definition lh_block (i : Z) : ST state Z :=
  l ← get_log; match zlookup (block l) i with Some b => mret b | None => fault end.
Definition set_lh_block (i b : Z) : ST state unit :=
  l ← get_log;
  match zlookup (block l) i with
  | Some _ => upd_log (set_block (zinsert i b (block l)))
  | None => fault
  end.

Section Ops.

Variables (pid ds : Z).

Definition bread (d b : Z) : ST state Z := onbio (Bio.bread pid ds d b).
Definition bwrite (i : Z) : ST state unit := onbio (Bio.bwrite pid ds i).
Definition brelse (i : Z) : ST state unit := onbio (Bio.brelse pid i).
Definition bdata (i : Z) : ST state Block.block := b ← onbio (Bio.get_buf i); mret (Bio.data b).
Definition store (i : Z) (f : Block.block -> Block.block) : ST state unit :=
  onbio (Bio.upd_buf i (fun b => Bio.set_data (f (Bio.data b)) b)).

(** [memmove(to->data, from->data, BSIZE)]. *)
Definition copy_data (to from : Z) : ST state unit := x ← bdata from; store to (fun _ => x).

(** The loops run [k] times, from [tail]. *)
Fixpoint install_loop (k : nat) (tail : Z) : ST state unit :=
  match k with
  | O => mret tt
  | S k' =>
      l ← get_log;
      lbuf ← bread (dev l) (start l + tail + 1);
      b ← lh_block tail;
      dbuf ← bread (dev l) (u32 b);
      copy_data dbuf lbuf;;
      bwrite dbuf;;
      brelse lbuf;;
      brelse dbuf;;
      install_loop k' (tail + 1)
  end.

Definition install_trans : ST state unit :=
  l ← get_log; install_loop (Z.to_nat (n l)) 0.

Fixpoint read_head_loop (k : nat) (i : Z) (x : Block.block) : ST state unit :=
  match k with
  | O => mret tt
  | S k' => set_lh_block i (s32 (get32 x (4 + 4 * i)));; read_head_loop k' (i + 1) x
  end.

Definition read_head : ST state unit :=
  l ← get_log;
  buf ← bread (dev l) (start l);
  x ← bdata buf;
  upd_log (set_n (s32 (get32 x 0)));;
  l ← get_log;
  read_head_loop (Z.to_nat (n l)) 0 x;;
  brelse buf.

Fixpoint write_head_loop (k : nat) (i : Z) (buf : Z) : ST state unit :=
  match k with
  | O => mret tt
  | S k' =>
      b ← lh_block i;
      store buf (put32 (4 + 4 * i) b);;
      write_head_loop k' (i + 1) buf
  end.

Definition write_head : ST state unit :=
  l ← get_log;
  buf ← bread (dev l) (start l);
  store buf (put32 0 (n l));;
  write_head_loop (Z.to_nat (n l)) 0 buf;;
  bwrite buf;;
  brelse buf.

Definition recover_from_log : ST state unit :=
  read_head;; install_trans;; upd_log (set_n 0);; write_head.

(** [readsb] of fs.c: the seven words of the superblock, in block 1. *)
Definition readsb (d : Z) : ST state superblock :=
  bp ← bread d 1;
  x ← bdata bp;
  brelse bp;;
  mret (mksb (get32 x 0) (get32 x 4) (get32 x 8) (get32 x 12) (get32 x 16) (get32 x 20) (get32 x 24)).

Definition initlog (d : Z) : ST state unit :=
  if BSIZE <=? 4 + 4 * LOGSIZE then panic "initlog: too big logheader"
  else
    sb ← readsb d;
    upd_log (set_area (s32 (logstart sb)) (s32 (nlog sb)) d);;
    recover_from_log.

(** [begin_op]: where the code sleeps another thread has to act. *)
Definition begin_op : ST state unit :=
  l ← get_log;
  if committing l then blocked
  else if LOGSIZE <? n l + (outstanding l + 1) * MAXOPBLOCKS then blocked
  else upd_log (set_outstanding (outstanding l + 1)).

Fixpoint write_log_loop (k : nat) (tail : Z) : ST state unit :=
  match k with
  | O => mret tt
  | S k' =>
      l ← get_log;
      to ← bread (dev l) (start l + tail + 1);
      b ← lh_block tail;
      from ← bread (dev l) (u32 b);
      copy_data to from;;
      bwrite to;;
      brelse from;;
      brelse to;;
      write_log_loop k' (tail + 1)
  end.

Definition write_log : ST state unit :=
  l ← get_log; write_log_loop (Z.to_nat (n l)) 0.

Definition commit : ST state unit :=
  l ← get_log;
  if 0 <? n l then
    write_log;; write_head;; install_trans;; upd_log (set_n 0);; write_head
  else mret tt.

Definition end_op : ST state unit :=
  upd_log (fun l => set_outstanding (outstanding l - 1) l);;
  l ← get_log;
  if committing l then panic "log.committing"
  else if outstanding l =? 0 then
    upd_log (set_committing true);;
    commit;;
    upd_log (set_committing false)
  else mret tt.

(** The absorption loop of [log_write]: the index of the block, or [n]. *)
Fixpoint absorb (k : nat) (i b : Z) : ST state Z :=
  match k with
  | O => mret i
  | S k' => x ← lh_block i; if u32 x =? b then mret i else absorb k' (i + 1) b
  end.

Definition log_write (i : Z) : ST state unit :=
  l ← get_log;
  if (LOGSIZE <=? n l) || (size l - 1 <=? n l) then panic "too big a transaction"
  else if outstanding l <? 1 then panic "log_write outside of trans"
  else
    bp ← onbio (Bio.get_buf i);
    j ← absorb (Z.to_nat (n l)) 0 (Bio.blockno bp);
    set_lh_block j (s32 (Bio.blockno bp));;
    (if j =? n l then upd_log (set_n (n l + 1)) else mret tt);;
    onbio (Bio.upd_buf i (fun b => Bio.set_flags (Z.lor (Bio.flags b) Bio.B_DIRTY) b)).

End Ops.

(** The log before [initlog]. *)
Definition log0 : log := mklog 0 0 0 false 0 0 (replicate (Z.to_nat LOGSIZE) 0).

End Log.
