(* ===== verification/LogSpec.v ===== *)
(** * Commit and recovery of the log, with crashes

    The disk is seen as what a sequence of block writes makes of it; a crash
    keeps a prefix of the sequence.  [recovers D F]: recovery turns the disk [D]
    into one whose home blocks are [F].  Every prefix of the writes of a commit
    recovers to the old or to the new contents, and every prefix of the writes
    of recovery still recovers to the same contents. *)

From Stdlib Require Import ZArith Lia.
From stdpp Require Import base numbers strings list gmap.
From S2P Require Import Prelude Block Bio BufView Log.

Open Scope Z_scope.

Import Block BufView Log.

Module LogSpec.

(** ** Disks as sequences of writes *)

Definition apply_writes (ws : list (Z * Block.block)) (D : Z -> Block.block) : Z -> Block.block :=
  fold_left (fun D w => fupd w.1 w.2 D) ws D.

(** The writes that copy the blocks [bs] to the log from position [p] on, and
    from there to their home locations. *)
Fixpoint log_writes (p : Z) (bs : list Z) (C : Z -> Block.block) : list (Z * Block.block) :=
  match bs with [] => [] | b :: bs' => (p, C b) :: log_writes (p + 1) bs' C end.

Fixpoint home_writes (p : Z) (bs : list Z) (C : Z -> Block.block) : list (Z * Block.block) :=
  match bs with [] => [] | b :: bs' => (b, C p) :: home_writes (p + 1) bs' C end.

(** The header block for the blocks [bs], and the blocks a header block names. *)
Fixpoint put_entries (i : Z) (bs : list Z) (x : Block.block) : Block.block :=
  match bs with [] => x | b :: bs' => put_entries (i + 1) bs' (put32 (4 + 4 * i) b x) end.

Definition head_block (bs : list Z) (x : Block.block) : Block.block :=
  put_entries 0 bs (put32 0 (Z.of_nat (length bs)) x).

Definition header_of (x : Block.block) : list Z :=
  map (fun i => s32 (get32 x (4 + 4 * i))) (seqZ 0 (s32 (get32 x 0))).

Section Layout.

(** The log's place and size, and the size of the disk. *)
Context (st sz ds : Z).

Definition home (b : Z) : Prop := 0 <= b < ds /\ ~ (st <= b < st + sz).

Record layout : Prop := {
  l_start : 0 <= st;
  l_size : 2 <= sz <= LOGSIZE;
  l_end : st + sz <= ds;
  l_disk : ds <= 2 ^ 31
}.

(** A list of blocks that a header may name. *)
Record blocks_ok (bs : list Z) : Prop := {
  b_home : forall b, b ∈ bs -> home b;
  b_len : Z.of_nat (length bs) < sz
}.

(** What recovery makes of a disk: the home blocks with those of the log
    installed. *)
Definition recovered (D : Z -> Block.block) : Z -> Block.block :=
  apply_writes (home_writes (st + 1) (header_of (D st)) D) D.

(** A disk that recovery turns into the home blocks [F]. *)
Record recovers (D F : Z -> Block.block) : Prop := {
  rc_blocks : blocks_ok (header_of (D st));
  rc_head : length (D st) = Z.to_nat BSIZE;
  rc_home : forall b, home b -> recovered D b = F b
}.

(** ** Sequences of writes *)

Lemma apply_notin ws D b : b ∉ ws.*1 -> apply_writes ws D b = D b.
Proof.
  revert D. induction ws as [|w ws IH]; intros D Hb; [done|]. cbn [fmap list_fmap] in Hb.
  apply not_elem_of_cons in Hb as [H1 H2]. change (apply_writes ws (fupd w.1 w.2 D) b = D b).
  by rewrite IH, fupd_ne.
Qed.

Lemma apply_in ws D D' b : b ∈ ws.*1 -> apply_writes ws D b = apply_writes ws D' b.
Proof.
  revert D D'. induction ws as [|w ws IH]; intros D D' Hb; [by apply elem_of_nil in Hb|].
  change (apply_writes ws (fupd w.1 w.2 D) b = apply_writes ws (fupd w.1 w.2 D') b).
  destruct (decide (b ∈ ws.*1)) as [Hin|Hni]; [by apply IH|].
  rewrite !apply_notin by done. apply elem_of_cons in Hb as [->|]; [by rewrite !fupd_eq|done].
Qed.

Lemma apply_app ws1 ws2 D : apply_writes (ws1 ++ ws2) D = apply_writes ws2 (apply_writes ws1 D).
Proof. apply fold_left_app. Qed.

(** Redoing writes of which some are done already. *)
Lemma apply_redo ws1 ws2 D b :
  apply_writes (ws1 ++ ws2) (apply_writes ws1 D) b = apply_writes (ws1 ++ ws2) D b.
Proof.
  destruct (decide (b ∈ (ws1 ++ ws2).*1)) as [Hin|Hni]; [by apply apply_in|].
  rewrite !(apply_notin (ws1 ++ ws2)) by done. apply apply_notin.
  rewrite fmap_app in Hni. set_solver.
Qed.

Lemma apply_ext ws D D' b : D b = D' b -> apply_writes ws D b = apply_writes ws D' b.
Proof.
  intros H. destruct (decide (b ∈ ws.*1)) as [Hin|Hni]; [by apply apply_in|].
  by rewrite !apply_notin.
Qed.

Lemma log_writes_fst p bs C b : b ∈ (log_writes p bs C).*1 -> p <= b < p + Z.of_nat (length bs).
Proof.
  revert p. induction bs as [|x bs IH]; intros p Hb; [by apply elem_of_nil in Hb|].
  cbn [log_writes fmap list_fmap] in Hb. cbn [length].
  apply elem_of_cons in Hb as [->|Hb]; [simpl; lia|]. apply IH in Hb. lia.
Qed.

Lemma home_writes_fst p bs C : (home_writes p bs C).*1 = bs.
Proof. revert p. induction bs as [|x bs IH]; intros p; [done|]. cbn. by rewrite IH. Qed.

Lemma home_writes_ext p bs C C' :
  (forall q, p <= q < p + Z.of_nat (length bs) -> C q = C' q) -> home_writes p bs C = home_writes p bs C'.
Proof.
  revert p. induction bs as [|x bs IH]; intros p H; [done|]. cbn [home_writes length] in *.
  rewrite (H p) by lia. f_equal. apply IH. intros q Hq. apply H. lia.
Qed.

Lemma log_writes_ext p bs C C' :
  (forall b, b ∈ bs -> C b = C' b) -> log_writes p bs C = log_writes p bs C'.
Proof.
  revert p. induction bs as [|x bs IH]; intros p H; [done|]. cbn [log_writes].
  rewrite (H x) by set_solver. f_equal. apply IH. set_solver.
Qed.

(** The blocks written to the log are the ones installed from it. *)
Lemma log_then_home p bs C D :
  home_writes p bs (apply_writes (log_writes p bs C) D) = map (fun b => (b, C b)) bs.
Proof.
  revert p D. induction bs as [|x bs IH]; intros p D; [done|].
  cbn [log_writes home_writes map]. change (apply_writes ((p, C x) :: ?l) D) with (apply_writes l (fupd p (C x) D)).
  f_equal; [|apply IH]. f_equal. rewrite apply_notin; [apply fupd_eq|].
  intros H%log_writes_fst. lia.
Qed.

Lemma apply_contents bs C D b :
  apply_writes (map (fun b => (b, C b)) bs) D b = if decide (b ∈ bs) then C b else D b.
Proof.
  revert D. induction bs as [|x bs IH]; intros D; [done|].
  change (apply_writes (map (fun b => (b, C b)) bs) (fupd x (C x) D) b = if decide (b ∈ x :: bs) then C b else D b).
  rewrite IH. destruct (decide (b = x)) as [->|Hne].
  - rewrite (decide_True (P := x ∈ x :: bs)) by set_solver. case_decide; [done|apply fupd_eq].
  - rewrite fupd_ne by done. repeat case_decide; set_solver.
Qed.

(** ** The header block *)

Lemma put_entries_length i bs x : length (put_entries i bs x) = length x.
Proof.
  revert i x. induction bs as [|b bs IH]; intros i x; [done|]. cbn [put_entries].
  by rewrite IH, length_put32.
Qed.

Lemma head_block_length bs x : length (head_block bs x) = length x.
Proof. unfold head_block. by rewrite put_entries_length, length_put32. Qed.

Lemma put_entries_before i bs x j : 0 <= i -> j + 4 <= 4 + 4 * i -> get32 (put_entries i bs x) j = get32 x j.
Proof.
  revert i x. induction bs as [|b bs IH]; intros i x Hi Hj; [done|]. cbn [put_entries].
  rewrite IH by lia. apply get32_put32_ne. lia.
Qed.

Lemma put_entries_lookup i bs x k b :
  0 <= i -> 4 + 4 * (i + Z.of_nat (length bs)) <= Z.of_nat (length x) -> bs !! k = Some b ->
  get32 (put_entries i bs x) (4 + 4 * (i + Z.of_nat k)) = u32 b.
Proof.
  revert i x k. induction bs as [|c bs IH]; intros i x k Hi Hl Hk; [done|]. cbn [put_entries length] in *.
  destruct k as [|k]; cbn [lookup list_lookup] in Hk; [injection Hk as ->|].
  - rewrite put_entries_before by lia. replace (i + Z.of_nat 0) with i by lia.
    apply get32_put32_eq; lia.
  - replace (i + Z.of_nat (S k)) with ((i + 1) + Z.of_nat k) by lia.
    apply IH; [lia|rewrite length_put32; lia|done].
Qed.

Lemma s32_u32_small v : 0 <= v < 2 ^ 31 -> s32 (u32 v) = v.
Proof.
  intros H. unfold s32. rewrite !(u32_small (u32 v)) by apply u32_range.
  rewrite u32_small by lia. by rewrite (proj2 (Z.ltb_lt v (2 ^ 31))) by lia.
Qed.

Lemma header_of_head bs x :
  length x = Z.to_nat BSIZE -> (length bs <= 30)%nat -> (forall b, b ∈ bs -> 0 <= b < 2 ^ 31) ->
  header_of (head_block bs x) = bs.
Proof.
  intros Hx Hl Hb. unfold header_of, head_block.
  assert (Hn : s32 (get32 (put_entries 0 bs (put32 0 (Z.of_nat (length bs)) x)) 0) = Z.of_nat (length bs)).
  { rewrite put_entries_before, get32_put32_eq by (rewrite ?Hx; unfold BSIZE; lia).
    apply s32_u32_small. lia. }
  rewrite Hn. apply list_eq. intros k. rewrite list_lookup_fmap.
  destruct (decide (k < length bs)%nat) as [Hk|Hk].
  - rewrite lookup_seqZ_lt by lia. cbn [fmap option_fmap option_map].
    destruct (lookup_lt_is_Some_2 bs k Hk) as [b Hbk]. rewrite Hbk. f_equal.
    rewrite (put_entries_lookup 0 bs _ k b) by (rewrite ?length_put32, ?Hx; unfold BSIZE; done || lia).
    apply s32_u32_small, Hb. by eapply list_elem_of_lookup_2.
  - rewrite lookup_seqZ_ge by lia. cbn. symmetry. apply lookup_ge_None. lia.
Qed.

(** ** Crashes between two writes *)

Lemma not_home_log b : home b -> st <= b -> st + sz <= b.
Proof. unfold home. lia. Qed.

Lemma apply_home_log bs C D q p :
  (forall b, b ∈ bs -> home b) -> st <= q < st + sz -> apply_writes (home_writes p bs C) D q = D q.
Proof.
  intros Hb Hq. apply apply_notin. rewrite home_writes_fst. intros Hin%Hb. unfold home in Hin. lia.
Qed.

Lemma prefix_snoc {A} (l1 l : list A) x : l1 `prefix_of` l ++ [x] -> l1 `prefix_of` l \/ l1 = l ++ [x].
Proof.
  intros [k Hk]. destruct k as [|y k _] using rev_ind; [right; by rewrite app_nil_r in Hk|left].
  rewrite app_assoc in Hk. apply app_inj_tail in Hk as [-> _]. by apply prefix_app_r.
Qed.

Lemma prefix_split {A} (l l1 l2 : list A) :
  l `prefix_of` l1 ++ l2 -> l `prefix_of` l1 \/ exists l', l = l1 ++ l' /\ l' `prefix_of` l2.
Proof.
  revert l. induction l1 as [|x l1 IH]; intros l H; [right; by exists l|].
  destruct l as [|y l]; [left; apply prefix_nil|].
  simpl in H. pose proof (prefix_cons_inv_1 _ _ _ _ H) as ->. apply prefix_cons_inv_2 in H.
  destruct (IH l H) as [Hp|(l' & -> & Hl')]; [left; by apply prefix_cons|right; by exists l'].
Qed.

(** A disk with nothing in its log. *)
Lemma recovers_empty D F :
  1 <= sz -> header_of (D st) = [] -> length (D st) = Z.to_nat BSIZE -> (forall b, home b -> D b = F b) ->
  recovers D F.
Proof.
  intros Hsz Hh Hl HF. split; [rewrite Hh|done|].
  - split; [set_solver|simpl; lia].
  - intros b Hb. unfold recovered. rewrite Hh. by apply HF.
Qed.

(** Installing is redone by recovery, whatever part of it was done. *)
Lemma install_prefix D x0 ws1 :
  1 <= sz -> blocks_ok (header_of (D st)) -> length (D st) = Z.to_nat BSIZE ->
  header_of x0 = [] -> length x0 = Z.to_nat BSIZE ->
  ws1 `prefix_of` home_writes (st + 1) (header_of (D st)) D ++ [(st, x0)] ->
  recovers (apply_writes ws1 D) (recovered D).
Proof.
  intros Hsz [Hhome Hlen] HD Hx0 Hl0 [[ws2 Hp]| ->]%prefix_snoc.
  - assert (Hlog : forall q, st <= q < st + sz -> apply_writes ws1 D q = D q).
    { intros q Hq. apply apply_notin. intros Hin.
      assert (Hq' : q ∈ (home_writes (st + 1) (header_of (D st)) D).*1) by (rewrite Hp, fmap_app; set_solver).
      rewrite home_writes_fst in Hq'. apply Hhome in Hq'. unfold home in Hq'. lia. }
    split; unfold recovered; rewrite (Hlog st) by lia; [done|done|].
    intros b Hb. rewrite (home_writes_ext _ _ _ D) by (intros q Hq; apply Hlog; lia).
    rewrite Hp. apply apply_redo.
  - rewrite apply_app. apply recovers_empty; [done| | |]; cbn [apply_writes fold_left]; cbn.
    + by rewrite fupd_eq.
    + by rewrite fupd_eq.
    + intros b Hb. rewrite fupd_ne; [done|]. unfold home in Hb. lia.
Qed.

Lemma log_prefix D C bs ws1 :
  1 <= sz -> header_of (D st) = [] -> length (D st) = Z.to_nat BSIZE -> blocks_ok bs ->
  ws1 `prefix_of` log_writes (st + 1) bs C -> recovers (apply_writes ws1 D) D.
Proof.
  intros Hsz Hh Hl Hbs [k Hk].
  assert (Hsame : forall q, home q \/ q = st -> apply_writes ws1 D q = D q).
  { intros q Hq. apply apply_notin. intros Hin.
    assert (Hq' : q ∈ (log_writes (st + 1) bs C).*1) by (rewrite Hk, fmap_app; set_solver).
    apply log_writes_fst in Hq'. destruct Hbs as [_ Hlen]. unfold home in Hq. lia. }
  apply recovers_empty; [done|by rewrite Hsame by auto|by rewrite Hsame by auto|].
  intros b Hb. by rewrite Hsame by auto.
Qed.

End Layout.

(** ** Running the log's code *)

Lemma run_onbio {A} (m : ST Bio.state A) b b' l a :
  m b = Ok (a, b') -> onbio m (mkstate b l) = Ok (a, mkstate b' l).
Proof. intros H. unfold onbio, zoom. cbn [bst]. by rewrite H. Qed.

Lemma run_get_log {B} (k : log -> ST state B) s : (get_log ≫= k) s = k (lg s) s.
Proof. done. Qed.

Lemma run_lh_block i x s : zlookup (block (lg s)) i = Some x -> lh_block i s = Ok (x, s).
Proof. intros H. unfold lh_block. by rewrite run_get_log, H. Qed.

Lemma run_set_lh_block i x y b l :
  zlookup (block l) i = Some y ->
  set_lh_block i x (mkstate b l) = Ok (tt, mkstate b (set_block (zinsert i x (block l)) l)).
Proof. intros H. unfold set_lh_block. rewrite run_get_log. cbn [lg]. by rewrite H. Qed.

Section Run.

Context (pid ds : Z) (l : log).

Abbreviation view b := (bview pid b).

Lemma run_bread b H C P D W n :
  view b H C P D W -> n < ds -> (forall i, H !! i <> Some n) ->
  n ∈ P \/ (base.size H + base.size P < 30)%nat ->
  exists i b', bread pid ds 1 n (mkstate b l) = Ok (i, mkstate b' l) /\ H !! i = None /\
    view b' (<[i := n]> H) C P D W.
Proof.
  intros Hv Hn Hh Hr. destruct (bread_view pid ds b H C P D W n Hv Hn Hh Hr) as (i & b' & Hrun & Hi & Hv').
  exists i, b'. split; [by apply run_onbio|done].
Qed.

Lemma run_bdata b H C P D W i n :
  view b H C P D W -> H !! i = Some n -> bdata i (mkstate b l) = Ok (C n, mkstate b l).
Proof.
  intros Hv Hi. destruct (get_buf_view _ _ _ _ _ _ _ _ _ Hv Hi) as (x & Hrun & _ & <-).
  unfold bdata. by rewrite (run_bind _ _ _ _ _ (run_onbio _ _ _ l _ Hrun)).
Qed.

Lemma run_store b H C P D W i n f :
  view b H C P D W -> H !! i = Some n ->
  exists b', store i f (mkstate b l) = Ok (tt, mkstate b' l) /\ view b' H (fupd n (f (C n)) C) P D W.
Proof.
  intros Hv Hi. destruct (store_view _ _ _ _ _ _ _ _ _ f Hv Hi) as (b' & Hrun & Hv').
  exists b'. split; [by apply run_onbio|done].
Qed.

Lemma run_bwrite b H C P D W i n :
  view b H C P D W -> H !! i = Some n -> n < ds ->
  exists b', bwrite pid ds i (mkstate b l) = Ok (tt, mkstate b' l) /\
    view b' H C (P ∖ {[n]}) (fupd n (C n) D) (W ++ [(n, C n)]).
Proof.
  intros Hv Hi Hn. destruct (bwrite_view _ ds _ _ _ _ _ _ _ _ Hv Hi Hn) as (b' & Hrun & Hv').
  exists b'. split; [by apply run_onbio|done].
Qed.

Lemma run_brelse b H C P D W i n :
  view b H C P D W -> H !! i = Some n -> n ∈ P \/ D n = C n ->
  exists b', brelse pid i (mkstate b l) = Ok (tt, mkstate b' l) /\ view b' (delete i H) C P D W.
Proof.
  intros Hv Hi Hn. destruct (brelse_view _ _ _ _ _ _ _ _ _ Hv Hi Hn) as (b' & Hrun & Hv').
  exists b'. split; [by apply run_onbio|done].
Qed.

(** The common end of an iteration of the copying loops. *)
Lemma run_copy b C P D W to from src dst H :
  view b H C P D W -> H !! from = Some src -> H !! to = Some dst -> (forall x, x <> from -> x <> to -> H !! x = None) ->
  src <> dst -> dst < ds -> src ∈ P \/ D src = C src ->
  exists b', (forall A (k : ST state A),
      (copy_data to from;; bwrite pid ds to;; brelse pid from;; brelse pid to;; k) (mkstate b l)
        = k (mkstate b' l)) /\
    view b' ∅ (fupd dst (C src) C) (P ∖ {[dst]}) (fupd dst (C src) D) (W ++ [(dst, C src)]).
Proof.
  intros Hv Hf Ht Hall Hsd Hds Hsrc.
  assert (Hft : from <> to) by (intros ->; congruence).
  destruct (run_store _ _ _ _ _ _ to dst (fun _ => C src) Hv Ht) as (b1 & R1 & V1).
  destruct (run_bwrite _ _ _ _ _ _ to dst V1 Ht Hds) as (b2 & R2 & V2). rewrite fupd_eq in V2.
  destruct (run_brelse _ _ _ _ _ _ from src V2 Hf) as (b3 & R3 & V3).
  { destruct Hsrc as [?|E]; [left; set_solver|right; by rewrite !fupd_ne]. }
  destruct (run_brelse _ _ _ _ _ _ to dst V3) as (b4 & R4 & V4).
  { by rewrite lookup_delete_ne. } { right. by rewrite !fupd_eq. }
  exists b4. split.
  - intros A k. unfold copy_data.
    rewrite (run_bind _ _ _ tt (mkstate b1 l)); [|by rewrite (run_bind _ _ _ _ _ (run_bdata _ _ _ _ _ _ _ _ Hv Hf))].
    by rewrite (run_bind _ _ _ _ _ R2), (run_bind _ _ _ _ _ R3), (run_bind _ _ _ _ _ R4).
  - replace (∅ : gmap Z Z) with (delete to (delete from H)); [done|].
    apply map_eq. intros x. rewrite lookup_empty.
    destruct (decide (x = to)) as [->|Hxt]; [apply lookup_delete_eq|].
    destruct (decide (x = from)) as [->|Hxf]; [by rewrite lookup_delete_ne, lookup_delete_eq|].
    rewrite !lookup_delete_ne by done. by apply Hall.
Qed.

Context (Hdev : dev l = 1) (Hlay : layout (start l) (size l) ds).

(** The loop of [write_log]. *)
Lemma run_write_log_loop bs : forall tail b C P D W,
  view b ∅ C P D W -> 0 <= tail ->
  (forall k x, bs !! k = Some x -> zlookup (block l) (tail + Z.of_nat k) = Some x) ->
  (forall x, x ∈ bs -> home (start l) (size l) ds x /\ x ∈ P) ->
  (forall x, x ∈ P -> home (start l) (size l) ds x) ->
  tail + Z.of_nat (length bs) < size l -> (base.size P < 30)%nat ->
  exists b', write_log_loop pid ds (length bs) tail (mkstate b l) = Ok (tt, mkstate b' l) /\
    view b' ∅ (apply_writes (log_writes (start l + 1 + tail) bs C) C) P
      (apply_writes (log_writes (start l + 1 + tail) bs C) D) (W ++ log_writes (start l + 1 + tail) bs C).
Proof.
  induction bs as [|x bs IH]; intros tail b C P D W Hv Ht Hblk Hbs HP Hsz HP30.
  { exists b. split; [done|]. by rewrite app_nil_r. }
  destruct Hlay as [L1 L2 L3 L4]. cbn [length] in *.
  destruct (Hbs x ltac:(set_solver)) as [Hx HxP].
  assert (Hpos : start l + tail + 1 ∉ P) by (intros Hin%HP; unfold home in Hin; lia).
  destruct (run_bread b ∅ C P D W (start l + tail + 1) Hv) as (to & b1 & R1 & _ & V1);
    [lia|set_solver|right; rewrite map_size_empty; lia|].
  destruct (run_bread b1 _ C P D W x V1) as (from & b2 & R2 & Hnew & V2);
    [unfold home in Hx; lia| |by left|].
  { intros i. rewrite insert_empty, lookup_singleton_Some. intros [_ <-]. by apply Hpos. }
  rewrite insert_empty in Hnew. apply lookup_singleton_None in Hnew.
  destruct (run_copy b2 C P D W to from x (start l + tail + 1) _ V2) as (b3 & R3 & V3).
  { apply lookup_insert_eq. } { by rewrite insert_empty, lookup_insert_ne, lookup_singleton_eq. }
  { intros y ? ?. by rewrite lookup_insert_ne, insert_empty, lookup_singleton_ne. } { by intros ->. } { lia. } { by left. }
  cbn [write_log_loop]. rewrite run_get_log. cbn [lg]. rewrite Hdev, (run_bind _ _ _ _ _ R1).
  rewrite (run_bind _ _ _ _ _ (run_lh_block tail x (mkstate b1 l)
    ltac:(pose proof (Hblk 0%nat x eq_refl) as E; by rewrite Z.add_0_r in E))).
  rewrite u32_small by (unfold home in Hx; lia).
  rewrite (run_bind _ _ _ _ _ R2), R3.
  assert (HPd : P ∖ {[start l + tail + 1]} = P) by set_solver. rewrite HPd in V3.
  destruct (IH (tail + 1) b3 _ P _ _ V3) as (b4 & R4 & V4); [lia| | |done|lia|done|].
  { intros k y Hk. rewrite <- (Hblk (S k) y Hk). f_equal. lia. }
  { intros y Hy. apply Hbs. set_solver. }
  exists b4. split; [done|]. replace (start l + 1 + tail) with (start l + tail + 1) by lia.
  replace (start l + 1 + (tail + 1)) with (start l + tail + 1 + 1) in V4 by lia.
  rewrite (log_writes_ext _ _ _ C), <- app_assoc in V4; [exact V4|].
  intros y Hy. apply fupd_ne. intros ->. apply Hpos, Hbs. set_solver.
Qed.

(** The loop of [install_trans]. *)
Lemma run_install_loop bs : forall tail b C P D W,
  view b ∅ C P D W -> 0 <= tail ->
  (forall k x, bs !! k = Some x -> zlookup (block l) (tail + Z.of_nat k) = Some x) ->
  (forall x, x ∈ bs -> home (start l) (size l) ds x /\ (x ∈ P \/ (base.size P < 29)%nat)) ->
  (forall x, x ∈ P -> home (start l) (size l) ds x) ->
  tail + Z.of_nat (length bs) < size l -> (base.size P < 30)%nat ->
  exists b', install_loop pid ds (length bs) tail (mkstate b l) = Ok (tt, mkstate b' l) /\
    view b' ∅ (apply_writes (home_writes (start l + 1 + tail) bs C) C) (P ∖ list_to_set bs)
      (apply_writes (home_writes (start l + 1 + tail) bs C) D) (W ++ home_writes (start l + 1 + tail) bs C).
Proof.
  induction bs as [|x bs IH]; intros tail b C P D W Hv Ht Hblk Hbs HP Hsz HP30.
  { exists b. split; [done|]. cbn [list_to_set]. rewrite app_nil_r, difference_empty_L. done. }
  destruct Hlay as [L1 L2 L3 L4]. cbn [length] in *.
  destruct (Hbs x ltac:(set_solver)) as [Hx HxP].
  assert (Hpos : ~ home (start l) (size l) ds (start l + tail + 1)) by (unfold home; lia).
  assert (Hcl : D (start l + tail + 1) = C (start l + tail + 1)).
  { symmetry. eapply bview_clean; [exact Hv|by intros ?%HP|set_solver]. }
  destruct (run_bread b ∅ C P D W (start l + tail + 1) Hv) as (lbuf & b1 & R1 & _ & V1);
    [lia|set_solver|right; rewrite map_size_empty; lia|].
  rewrite insert_empty in V1.
  destruct (run_bread b1 _ C P D W x V1) as (dbuf & b2 & R2 & Hnew & V2); [unfold home in Hx; lia| | |].
  { intros i [_ <-]%lookup_singleton_Some. done. } { rewrite map_size_singleton. destruct HxP; [by left|right; lia]. }
  apply lookup_singleton_None in Hnew.
  destruct (run_copy b2 C P D W dbuf lbuf (start l + tail + 1) x _ V2) as (b3 & R3 & V3).
  { by rewrite lookup_insert_ne, lookup_singleton_eq. } { apply lookup_insert_eq. }
  { intros y ? ?. by rewrite lookup_insert_ne, lookup_singleton_ne. }
  { by intros <-. } { unfold home in Hx; lia. } { by right. }
  cbn [install_loop]. rewrite run_get_log. cbn [lg]. rewrite Hdev, (run_bind _ _ _ _ _ R1).
  rewrite (run_bind _ _ _ _ _ (run_lh_block tail x (mkstate b1 l)
    ltac:(pose proof (Hblk 0%nat x eq_refl) as E; by rewrite Z.add_0_r in E))).
  rewrite u32_small by (unfold home in Hx; lia). rewrite (run_bind _ _ _ _ _ R2), R3.
  assert (Hsub : (base.size (P ∖ {[x]}) <= base.size P)%nat) by (apply subseteq_size; set_solver).
  destruct (IH (tail + 1) b3 _ _ _ _ V3) as (b4 & R4 & V4); [lia| | |set_solver|lia|lia|].
  { intros k y Hk. rewrite <- (Hblk (S k) y Hk). f_equal. lia. }
  { intros y Hy. destruct (Hbs y ltac:(set_solver)) as [? Hr]. split; [done|].
    destruct (decide (x ∈ P)) as [HxinP|]; [|destruct Hr; [left; set_solver|right; lia]].
    destruct (decide (y = x)) as [->|]; [right|destruct Hr; [left; set_solver|right; lia]].
    assert ((base.size (P ∖ {[x]}) < base.size P)%nat) by (apply subset_size; set_solver). lia. }
  exists b4. split; [done|]. replace (start l + 1 + tail) with (start l + tail + 1) by lia.
  replace (start l + 1 + (tail + 1)) with (start l + tail + 1 + 1) in V4 by lia.
  rewrite (home_writes_ext _ _ _ C), <- app_assoc in V4.
  - eapply bview_ext; [exact V4|done|set_solver|done].
  - intros y Hy. apply fupd_ne. intros ->. unfold home in Hx. lia.
Qed.

(** [hb->block[i] = log.lh.block[i]] for all [i]. *)
Lemma run_write_head_loop bs : forall i b H C P D W buf,
  view b H C P D W -> H !! buf = Some (start l) ->
  (forall k x, bs !! k = Some x -> zlookup (block l) (i + Z.of_nat k) = Some x) ->
  exists b', write_head_loop (length bs) i buf (mkstate b l) = Ok (tt, mkstate b' l) /\
    view b' H (fupd (start l) (put_entries i bs (C (start l))) C) P D W.
Proof.
  induction bs as [|x bs IH]; intros i b H C P D W buf Hv Hb Hblk.
  { exists b. split; [done|]. eapply bview_ext; [exact Hv|intros; apply fupd_same|done|done]. }
  cbn [write_head_loop length].
  rewrite (run_bind _ _ _ _ _ (run_lh_block i x (mkstate b l)
    ltac:(pose proof (Hblk 0%nat x eq_refl) as E; by rewrite Z.add_0_r in E))).
  destruct (run_store _ _ _ _ _ _ buf (start l) (put32 (4 + 4 * i) x) Hv Hb) as (b1 & R1 & V1).
  rewrite (run_bind _ _ _ _ _ R1).
  destruct (IH (i + 1) b1 _ _ _ _ _ buf V1 Hb) as (b2 & R2 & V2).
  { intros k y Hk. rewrite <- (Hblk (S k) y Hk). f_equal. lia. }
  exists b2. split; [done|]. rewrite fupd_eq in V2. eapply bview_ext; [exact V2| |done|done].
  intros m. unfold fupd. cbn [put_entries]. by destruct (m =? start l).
Qed.

Lemma run_write_head bs b C P D W :
  view b ∅ C P D W -> n l = Z.of_nat (length bs) ->
  (forall k x, bs !! k = Some x -> zlookup (block l) (Z.of_nat k) = Some x) ->
  (base.size P < 30)%nat -> start l ∉ P ->
  let h := head_block bs (C (start l)) in
  exists b', write_head pid ds (mkstate b l) = Ok (tt, mkstate b' l) /\
    view b' ∅ (fupd (start l) h C) P (fupd (start l) h D) (W ++ [(start l, h)]).
Proof.
  intros Hv Hn Hblk HP HstP h. destruct Hlay as [L1 L2 L3 L4].
  destruct (run_bread b ∅ C P D W (start l) Hv) as (buf & b1 & R1 & _ & V1);
    [lia|set_solver|right; rewrite map_size_empty; lia|].
  rewrite insert_empty in V1. set (H := {[buf := start l]} : gmap Z Z) in *.
  assert (HH : H !! buf = Some (start l)) by apply lookup_singleton_eq.
  destruct (run_store _ _ _ _ _ _ buf _ (put32 0 (n l)) V1 HH) as (b2 & R2 & V2).
  destruct (run_write_head_loop bs 0 b2 _ _ _ _ _ buf V2 HH) as (b3 & R3 & V3).
  { intros k x Hk. by rewrite Z.add_0_l, (Hblk k x). }
  rewrite fupd_eq, Hn in V3.
  destruct (run_bwrite _ _ _ _ _ _ buf (start l) V3 HH) as (b4 & R4 & V4); [lia|].
  rewrite fupd_eq in V4.
  destruct (run_brelse _ _ _ _ _ _ buf (start l) V4 HH) as (b5 & R5 & V5); [right; by rewrite !fupd_eq|].
  exists b5. split.
  - unfold write_head. rewrite run_get_log. cbn [lg]. rewrite Hdev, (run_bind _ _ _ _ _ R1),
      (run_bind _ _ _ _ _ R2). rewrite Hn at 1. rewrite Nat2Z.id, (run_bind _ _ _ _ _ R3),
      (run_bind _ _ _ _ _ R4). done.
  - unfold H in V5. rewrite delete_singleton_eq in V5. eapply bview_ext; [exact V5| |set_solver|done].
    intros m. unfold fupd, h, head_block. by destruct (m =? start l).
Qed.

End Run.

(** ** The log's invariant

    [bs] are the logged blocks of the running transaction; [C] the contents of
    the blocks, as in [bview].  The log on disk is empty. *)
Record lview (pid ds : Z) (s : state) (H : gmap Z Z) (C : Z -> Block.block) (bs : list Z)
    (D : Z -> Block.block) (W : list (Z * Block.block)) : Prop := {
  lv_view : bview pid (bst s) H C (list_to_set bs) D W;
  lv_held : forall i b, H !! i = Some b -> home (start (lg s)) (size (lg s)) ds b;
  lv_dev : dev (lg s) = 1;
  lv_lay : layout (start (lg s)) (size (lg s)) ds;
  lv_n : n (lg s) = Z.of_nat (length bs);
  lv_blk : forall k x, bs !! k = Some x -> zlookup (block (lg s)) (Z.of_nat k) = Some x;
  lv_len : length (block (lg s)) = Z.to_nat LOGSIZE;
  lv_nodup : NoDup bs;
  lv_ok : blocks_ok (start (lg s)) (size (lg s)) ds bs;
  lv_head : header_of (D (start (lg s))) = [];
  lv_hlen : length (D (start (lg s))) = Z.to_nat BSIZE
}.

Section Invariant.

Context (pid ds : Z) (s : state) (H : gmap Z Z) (C : Z -> Block.block) (bs : list Z).
Context (D : Z -> Block.block) (W : list (Z * Block.block)).
Context (Hl : lview pid ds s H C bs D W).

Lemma lview_size : base.size (list_to_set bs : gset Z) = length bs.
Proof. apply size_list_to_set, Hl. Qed.

Lemma lview_room : (length bs < 30)%nat.
Proof.
  destruct (lv_ok _ _ _ _ _ _ _ _ Hl) as [_ Hlen]. destruct (lv_lay _ _ _ _ _ _ _ _ Hl) as [_ [_ Hs] _ _].
  unfold LOGSIZE, MAXOPBLOCKS in Hs. lia.
Qed.

(** The blocks of the log are neither held nor pinned. *)
Lemma lview_log b : ~ home (start (lg s)) (size (lg s)) ds b -> C b = D b.
Proof.
  intros Hb. eapply bview_clean; [apply Hl| |].
  - intros Hin%elem_of_list_to_set. by apply Hb, (b_home _ _ _ _ (lv_ok _ _ _ _ _ _ _ _ Hl)).
  - intros i Hi. by apply Hb, (lv_held _ _ _ _ _ _ _ _ Hl i).
Qed.

Lemma start_not_home : ~ home (start (lg s)) (size (lg s)) ds (start (lg s)).
Proof. destruct (lv_lay _ _ _ _ _ _ _ _ Hl). unfold home. lia. Qed.

End Invariant.

Lemma header_empty x : length x = Z.to_nat BSIZE -> header_of (head_block [] x) = [].
Proof. intros Hx. apply header_of_head; [done|simpl; lia|set_solver]. Qed.

(** [install_trans] and the clearing of the header, in [commit] and in recovery. *)
Lemma run_finish pid ds b l C P D W bs :
  bview pid b ∅ C P D W -> dev l = 1 -> layout (start l) (size l) ds ->
  Z.to_nat (n l) = length bs ->
  (forall k x, bs !! k = Some x -> zlookup (block l) (Z.of_nat k) = Some x) ->
  length (block l) = Z.to_nat LOGSIZE -> header_of (D (start l)) = bs ->
  length (D (start l)) = Z.to_nat BSIZE -> blocks_ok (start l) (size l) ds bs ->
  (forall x, x ∈ bs -> x ∈ P \/ (base.size P < 29)%nat) -> (forall x, x ∈ P -> x ∈ bs) ->
  (base.size P < 30)%nat ->
  exists s' C' D' ws, (install_trans pid ds;; upd_log (set_n 0);; write_head pid ds) (mkstate b l) = Ok (tt, s') /\
    lg s' = set_n 0 l /\ lview pid ds s' ∅ C' [] D' (W ++ ws) /\
    (forall x, home (start l) (size l) ds x -> C' x = recovered (start l) D x /\ D' x = recovered (start l) D x) /\
    (forall ws1, ws1 `prefix_of` ws ->
       recovers (start l) (size l) ds (apply_writes ws1 D) (recovered (start l) D)) /\
    (forall x, x ∈ ws.*1 -> x ∈ bs \/ x = start l) /\ (forall x, D' x = apply_writes ws D x).
Proof.
  intros V Hdev Hlay Hn Hblk Hlen Hhd Hhl Hok HbP HPb HP30. pose proof Hok as [Hhome Hbl].
  pose proof Hlay as [L1 L2 L3 L4].
  assert (Hlog : forall q, ~ home (start l) (size l) ds q -> C q = D q).
  { intros q Hq. eapply bview_clean; [exact V|by intros ?%HPb%Hhome|set_solver]. }
  destruct (run_install_loop pid ds l Hdev Hlay bs 0 b C P D W V) as (b1 & R1 & V1); [lia| | | |lia|done|].
  { intros k x Hk. by rewrite Z.add_0_l, (Hblk k x). } { auto. } { auto. }
  rewrite Z.add_0_r in V1.
  assert (HwD : home_writes (start l + 1) bs C = home_writes (start l + 1) (header_of (D (start l))) D).
  { rewrite Hhd. apply home_writes_ext. intros q Hq. apply Hlog. unfold home. lia. }
  assert (HP0 : P ∖ list_to_set bs = ∅) by (apply set_eq; set_solver). rewrite HP0, HwD in V1.
  set (C1 := apply_writes _ C) in *. set (D1 := apply_writes _ D) in *.
  assert (Hst : C1 (start l) = D (start l)).
  { unfold C1. rewrite (apply_home_log (start l) (size l) ds) by (rewrite ?Hhd; auto; lia).
    apply Hlog. unfold home. lia. }
  destruct (run_write_head pid ds (set_n 0 l) Hdev Hlay [] b1 C1 ∅ D1 _ V1) as (b2 & R2 & V2);
    [done|done|rewrite size_empty; lia|set_solver|].
  cbn [start set_n] in V2. rewrite Hst in V2. set (h0 := head_block [] (D (start l))) in *.
  exists (mkstate b2 (set_n 0 l)), (fupd (start l) h0 C1), (fupd (start l) h0 D1).
  exists (home_writes (start l + 1) (header_of (D (start l))) D ++ [(start l, h0)]).
  assert (Hl0 : length h0 = Z.to_nat BSIZE) by (unfold h0; by rewrite head_block_length).
  split; [|split; [done|split; [|split; [|split; [|split]]]]].
  - unfold install_trans. rewrite (run_bind _ _ _ tt (mkstate b1 l));
      [|rewrite run_get_log; cbn [lg]; by rewrite Hn]. exact R2.
  - split; cbn [lg bst start size dev n block set_n]; try done.
    + rewrite app_assoc. exact V2.
    + apply NoDup_nil_2.
    + split; [set_solver|simpl; lia].
    + rewrite fupd_eq. by apply header_empty.
    + by rewrite fupd_eq.
  - intros x Hx. rewrite !fupd_ne by (unfold home in Hx; lia). split; [|done].
    unfold recovered, C1. destruct (decide (x ∈ bs)) as [Hin|Hni].
    + apply apply_in. by rewrite home_writes_fst, Hhd.
    + apply apply_ext. eapply bview_clean; [exact V|set_solver|set_solver].
  - intros ws1 Hp. apply (install_prefix (start l) (size l) ds D h0); [lia|by rewrite Hhd|done|by apply header_empty|done|exact Hp].
  - intros x. rewrite fmap_app, home_writes_fst, Hhd. set_solver.
  - intros x. by rewrite apply_app.
Qed.

Lemma commit_spec pid ds s C bs D W :
  lview pid ds s ∅ C bs D W ->
  exists s' C' D' ws, commit pid ds s = Ok (tt, s') /\ lg s' = set_n 0 (lg s) /\
    lview pid ds s' ∅ C' [] D' (W ++ ws) /\
    (forall b, home (start (lg s)) (size (lg s)) ds b -> C' b = C b /\ D' b = C b) /\
    (forall ws1, ws1 `prefix_of` ws ->
       recovers (start (lg s)) (size (lg s)) ds (apply_writes ws1 D) D \/
       recovers (start (lg s)) (size (lg s)) ds (apply_writes ws1 D) C) /\
    (forall x, x ∈ ws.*1 -> x ∈ bs \/ start (lg s) <= x < start (lg s) + size (lg s)) /\
    (forall x, D' x = apply_writes ws D x).
Proof.
  intros Hl. pose proof (lview_room _ _ _ _ _ _ _ _ Hl) as H30. pose proof (lview_size _ _ _ _ _ _ _ _ Hl) as HPs.
  pose proof (lview_log _ _ _ _ _ _ _ _ Hl) as Hlog.
  destruct s as [b l]. destruct Hl as [V Hh Hdev Hlay Hn Hblk Hlen Hnd Hok Hhd Hhl].
  cbn [lg bst] in *. pose proof Hok as [Hhome Hbl]. pose proof Hlay as [L1 L2 L3 L4].
  unfold commit. rewrite run_get_log. cbn [lg]. destruct (0 <? n l) eqn:Hpos.
  2: { apply Z.ltb_ge in Hpos. assert (bs = []) as -> by (destruct bs; [done|simpl in *; lia]).
    exists (mkstate b l), C, D, []. rewrite app_nil_r. split; [done|].
    split; [destruct l; cbn in *; unfold set_n; cbn; by rewrite Hn|]. split; [by split|].
    assert (HCD : forall x, C x = D x) by (intros x; eapply bview_clean; [exact V|set_solver|set_solver]).
    split; [intros x _; by rewrite HCD|]. split; [|split; [set_solver|done]]. intros ws1 ->%prefix_nil_inv. left.
    apply recovers_empty; [lia|done|done|done]. }
  destruct (run_write_log_loop pid ds l Hdev Hlay bs 0 b C _ D W V) as (b1 & R1 & V1); [lia| | | |lia|lia|].
  { intros k x Hk. by rewrite Z.add_0_l, (Hblk k x). } { set_solver. } { set_solver. }
  rewrite Z.add_0_r in V1. set (lw := log_writes (start l + 1) bs C) in *.
  assert (Hlw : forall q E, home (start l) (size l) ds q \/ q = start l -> apply_writes lw E q = E q).
  { intros q E Hq. apply apply_notin. intros Hin%log_writes_fst. unfold home in Hq. lia. }
  destruct (run_write_head pid ds l Hdev Hlay bs b1 _ _ _ _ V1 Hn Hblk) as (b2 & R2 & V2); [lia| |].
  { intros Hin%elem_of_list_to_set%Hhome. unfold home in Hin. lia. }
  rewrite Hlw in V2 by auto. rewrite (Hlog (start l)) in V2 by (unfold home; lia).
  set (h := head_block bs (D (start l))) in *.
  assert (Hhb : header_of h = bs).
  { apply header_of_head; [done|lia|]. intros x Hx%Hhome. unfold home in Hx. lia. }
  assert (Hlh : length h = Z.to_nat BSIZE) by (unfold h; by rewrite head_block_length).
  set (D1 := fupd (start l) h (apply_writes lw D)) in *.
  assert (HD1 : D1 (start l) = h) by apply fupd_eq.
  destruct (run_finish pid ds b2 l _ _ D1 _ bs V2) as (s' & C' & D' & ws & R3 & Hlg & Hl' & Hf & Hp & Hws & Hap);
    [done|done|lia|done|done|by rewrite HD1|by rewrite HD1|done|set_solver|set_solver|lia|].
  assert (Hrec : forall x, home (start l) (size l) ds x -> recovered (start l) D1 x = C x).
  { intros x Hx. unfold recovered. rewrite HD1, Hhb, (home_writes_ext _ _ _ (apply_writes lw D)).
    2: { intros q Hq. apply fupd_ne. lia. }
    unfold lw. rewrite log_then_home, apply_contents. fold lw. case_decide as Hin; [done|].
    unfold D1. rewrite fupd_ne, Hlw by (unfold home in *; lia || auto). symmetry.
    eapply bview_clean; [exact V|set_solver|set_solver]. }
  exists s', C', D', (lw ++ (start l, h) :: ws). split; [|split; [done|split; [|split; [|split; [|split]]]]].
  - rewrite (run_bind _ _ _ tt (mkstate b1 l));
      [|unfold write_log; rewrite run_get_log; cbn [lg]; by rewrite Hn, Nat2Z.id].
    by rewrite (run_bind _ _ _ _ _ R2).
  - by rewrite <- !app_assoc in Hl'.
  - intros x Hx. destruct (Hf x Hx) as [-> ->]. by rewrite Hrec.
  - intros ws1 [Hpre|(ws2 & -> & Hpre)]%prefix_split.
    { left. by apply (log_prefix _ _ _ D C bs); [lia|..]. }
    destruct ws2 as [|w ws2]; [left; rewrite app_nil_r; by apply (log_prefix _ _ _ D C bs); [lia|..]|]. right.
    pose proof (prefix_cons_inv_1 _ _ _ _ Hpre) as ->. apply prefix_cons_inv_2 in Hpre.
    rewrite apply_app. destruct (Hp ws2 Hpre) as [K1 K2 K3]. split; [exact K1|exact K2|].
    intros x Hx. rewrite <- (Hrec x Hx). by apply K3.
  - intros x. rewrite fmap_app, elem_of_app. cbn [fmap list_fmap]. rewrite elem_of_cons.
    intros [Hx%log_writes_fst|[-> |[?| ->]%Hws]]; [right; lia|right; simpl; lia|by left|right; lia].
  - intros x. rewrite Hap, apply_app. done.
Qed.

(** ** Recovery *)

Lemma run_read_head_loop k : forall i b l x,
  0 <= i -> i + Z.of_nat k <= Z.of_nat (length (block l)) ->
  exists B, read_head_loop k i x (mkstate b l) = Ok (tt, mkstate b (set_block B l)) /\
    length B = length (block l) /\
    (forall j, zlookup B j = if decide (i <= j < i + Z.of_nat k) then Some (s32 (get32 x (4 + 4 * j)))
                             else zlookup (block l) j).
Proof.
  induction k as [|k IH]; intros i b l x Hi Hk.
  { exists (block l). split; [by destruct l|]. split; [done|]. intros j. rewrite decide_False by lia. done. }
  cbn [read_head_loop]. destruct (zlookup_is_Some (block l) i ltac:(lia)) as [y Hy].
  rewrite (run_bind _ _ _ _ _ (run_set_lh_block _ _ y b l Hy)).
  set (v := s32 (get32 x (4 + 4 * i))). set (l1 := set_block (zinsert i v (block l)) l).
  destruct (IH (i + 1) b l1 x) as (B & R & HlB & HB); [lia|unfold l1; cbn; rewrite length_zinsert; lia|].
  exists B. split; [done|]. split; [rewrite HlB; apply length_zinsert|].
  intros j. rewrite HB. unfold l1; cbn [block set_block].
  destruct (decide (j = i)) as [->|Hne].
  - rewrite decide_False, decide_True by lia. apply zlookup_zinsert_eq. lia.
  - rewrite zlookup_zinsert_ne by done. repeat case_decide; try done; lia.
Qed.

Lemma header_of_lookup x k b :
  header_of x !! k = Some b -> b = s32 (get32 x (4 + 4 * Z.of_nat k)) /\ (k < Z.to_nat (s32 (get32 x 0)))%nat.
Proof.
  unfold header_of. rewrite list_lookup_fmap, fmap_Some. intros (z & Hz%lookup_seqZ & ->).
  destruct Hz as [-> Hk]. rewrite Z.add_0_l. split; [done|lia].
Qed.

Lemma header_of_length x : length (header_of x) = Z.to_nat (s32 (get32 x 0)).
Proof. unfold header_of. by rewrite length_fmap, length_seqZ. Qed.

Lemma recover_spec pid ds b l D F W :
  bview pid b ∅ D ∅ D W -> dev l = 1 -> layout (start l) (size l) ds ->
  length (block l) = Z.to_nat LOGSIZE -> recovers (start l) (size l) ds D F ->
  exists s' C' D' ws, recover_from_log pid ds (mkstate b l) = Ok (tt, s') /\
    outstanding (lg s') = outstanding l /\ committing (lg s') = committing l /\
    start (lg s') = start l /\ size (lg s') = size l /\ lview pid ds s' ∅ C' [] D' (W ++ ws) /\
    (forall x, home (start l) (size l) ds x -> C' x = F x /\ D' x = F x) /\
    (forall ws1, ws1 `prefix_of` ws -> recovers (start l) (size l) ds (apply_writes ws1 D) F) /\
    (forall x, x ∈ ws.*1 -> x ∈ header_of (D (start l)) \/ x = start l) /\
    (forall x, D' x = apply_writes ws D x).
Proof.
  intros V Hdev Hlay Hlen [Hok Hhl HF]. pose proof Hlay as [L1 L2 L3 L4]. pose proof Hok as [Hhome Hbl].
  destruct (run_bread pid ds l b ∅ D ∅ D W (start l) V) as (buf & b1 & R1 & _ & V1);
    [lia|set_solver|right; rewrite map_size_empty, size_empty; lia|].
  rewrite insert_empty in V1. set (H := {[buf := start l]} : gmap Z Z) in *.
  assert (HH : H !! buf = Some (start l)) by apply lookup_singleton_eq.
  set (x := D (start l)) in *. set (l1 := set_n (s32 (get32 x 0)) l).
  rewrite header_of_length in Hbl.
  destruct (run_read_head_loop (Z.to_nat (s32 (get32 x 0))) 0 b1 l1 x) as (B & R2 & HlB & HB);
    [lia|cbn; rewrite Hlen; lia|].
  set (l2 := set_block B l1) in *.
  destruct (run_brelse pid l2 b1 H D ∅ D W buf (start l) V1 HH) as (b2 & R3 & V2); [by right|].
  assert (Hrh : read_head pid ds (mkstate b l) = Ok (tt, mkstate b2 l2)).
  { unfold read_head. rewrite run_get_log. cbn [lg]. rewrite Hdev, (run_bind _ _ _ _ _ R1).
    rewrite (run_bind _ _ _ _ _ (run_bdata pid l b1 H D ∅ D W buf (start l) V1 HH)). fold x.
    rewrite (run_bind _ _ _ tt (mkstate b1 l1)) by done. rewrite run_get_log. cbn [lg n set_n l1].
    by rewrite (run_bind _ _ _ _ _ R2). }
  unfold H in V2. rewrite delete_singleton_eq in V2.
  destruct (run_finish pid ds b2 l2 D ∅ D W (header_of x) V2)
    as (s' & C' & D' & ws & R4 & Hlg & Hl' & Hf & Hp & Hws & Hap); try done.
  { by rewrite header_of_length. }
  { intros k y Hk%header_of_lookup. destruct Hk as [-> Hk]. unfold l2; cbn [block set_block].
    rewrite HB, decide_True by lia. done. }
  { unfold l2; cbn [block set_block]. by rewrite HlB. }
  { intros y _. right. rewrite size_empty. lia. } { rewrite size_empty. lia. }
  exists s', C', D', ws. rewrite Hlg. split.
  { unfold recover_from_log. by rewrite (run_bind _ _ _ _ _ Hrh). }
  do 4 (split; [done|]). split; [done|]. split.
  - intros y Hy. destruct (Hf y Hy) as [-> ->]. rewrite <- HF by done. done.
  - split; [|done]. intros ws1 Hp1. destruct (Hp ws1 Hp1) as [K1 K2 K3]. split; [done|done|].
    intros y Hy. rewrite <- HF by done. by apply K3.
Qed.

(** The log's area as the superblock of disk [D] gives it. *)
Definition sb_area (D : Z -> Block.block) (st sz : Z) : Prop :=
  s32 (get32 (D 1) 16) = st /\ s32 (get32 (D 1) 12) = sz.

(** A machine that starts with disk [D]: the cache is set up and the log recovered. *)
Definition boot (pid ds : Z) (D : Z -> Block.block) : outcome (unit * state) :=
  match Bio.binit (Bio.state0 D) with
  | Ok (_, b) => initlog pid ds 1 (mkstate b log0)
  | Panic m => Panic m
  | Fault => Fault
  | Blocked => Blocked
  | Fuel => Fuel
  end.

Lemma initlog_spec pid ds st sz b D F :
  bview pid b ∅ D ∅ D [] -> layout st sz ds -> sb_area D st sz -> 1 < ds -> recovers st sz ds D F ->
  exists s' C' D' ws, initlog pid ds 1 (mkstate b log0) = Ok (tt, s') /\
    outstanding (lg s') = 0 /\ committing (lg s') = false /\ start (lg s') = st /\ size (lg s') = sz /\
    lview pid ds s' ∅ C' [] D' ws /\
    (forall x, home st sz ds x -> C' x = F x /\ D' x = F x) /\
    (forall ws1, ws1 `prefix_of` ws -> recovers st sz ds (apply_writes ws1 D) F) /\
    (forall x, x ∈ ws.*1 -> x ∈ header_of (D st) \/ x = st) /\ (forall x, D' x = apply_writes ws D x).
Proof.
  intros V Hlay [<- <-] H1 Hrec.
  destruct (run_bread pid ds log0 b ∅ D ∅ D [] 1 V) as (i & b1 & R1 & _ & V1);
    [done|set_solver|right; rewrite map_size_empty, size_empty; lia|].
  rewrite insert_empty in V1. set (H := {[i := 1]} : gmap Z Z) in *.
  assert (HH : H !! i = Some 1) by apply lookup_singleton_eq.
  destruct (run_brelse pid log0 b1 H D ∅ D [] i 1 V1 HH) as (b2 & R2 & V2); [by right|].
  unfold H in V2. rewrite delete_singleton_eq in V2.
  set (l := set_area (s32 (get32 (D 1) 16)) (s32 (get32 (D 1) 12)) 1 log0).
  destruct (recover_spec pid ds b2 l D F [] V2) as (s' & C' & D' & ws & R3 & A1 & A2 & A3 & A4 & Hl & Hf & Hp);
    [reflexivity|exact Hlay|reflexivity|exact Hrec|].
  exists s', C', D', ws. split; [|exact (conj A1 (conj A2 (conj A3 (conj A4 (conj Hl (conj Hf Hp))))))].
  unfold initlog. change (BSIZE <=? 4 + 4 * LOGSIZE) with false. cbv iota.
  unfold readsb. rewrite (run_bind _ _ _ (mksb (get32 (D 1) 0) (get32 (D 1) 4) (get32 (D 1) 8)
    (get32 (D 1) 12) (get32 (D 1) 16) (get32 (D 1) 20) (get32 (D 1) 24)) (mkstate b2 log0)).
  - exact R3.
  - rewrite (run_bind _ _ _ _ _ R1), (run_bind _ _ _ _ _ (run_bdata pid log0 b1 H D ∅ D [] i 1 V1 HH)).
    by rewrite (run_bind _ _ _ _ _ R2).
Qed.

Lemma boot_spec pid ds st sz D F :
  layout st sz ds -> sb_area D st sz -> 1 < ds -> recovers st sz ds D F ->
  exists s' C' D' ws, boot pid ds D = Ok (tt, s') /\
    outstanding (lg s') = 0 /\ committing (lg s') = false /\ start (lg s') = st /\ size (lg s') = sz /\
    lview pid ds s' ∅ C' [] D' ws /\
    (forall x, home st sz ds x -> C' x = F x /\ D' x = F x) /\
    (forall ws1, ws1 `prefix_of` ws -> recovers st sz ds (apply_writes ws1 D) F) /\
    (forall x, x ∈ ws.*1 -> x ∈ header_of (D st) \/ x = st) /\ (forall x, D' x = apply_writes ws D x).
Proof.
  intros Hlay Hsb H1 Hrec. destruct (binit_view pid D) as (b & Hrun & V). unfold boot. rewrite Hrun.
  exact (initlog_spec pid ds st sz b D F V Hlay Hsb H1 Hrec).
Qed.

End LogSpec.
