(* ===== verification/LogTx.v ===== *)
(** * Transactions of the log

    [log_write], [begin_op] and [end_op], and the theorems about the log: the
    atomicity of transactions under crashes, recovery, and the reservation of
    log space by concurrent operations. *)

From Stdlib Require Import ZArith Lia.
From stdpp Require Import base numbers strings list gmap.
From S2P Require Import Prelude Block Bio BufView Log LogSpec.

Open Scope Z_scope.

Import Block BufView Log LogSpec.

Module LogTx.

(** ** Transactions *)

Lemma run_absorb bs : forall i s b,
  (forall k x, bs !! k = Some x -> zlookup (block (lg s)) (i + Z.of_nat k) = Some x /\ 0 <= x < 2 ^ 32) ->
  exists k, absorb (length bs) i b s = Ok (i + Z.of_nat k, s) /\
    (bs !! k = Some b \/ (k = length bs /\ b ∉ bs)).
Proof.
  induction bs as [|x bs IH]; intros i s b Hblk.
  { exists 0%nat. rewrite Z.add_0_r. split; [done|right; set_solver]. }
  cbn [absorb length]. destruct (Hblk 0%nat x eq_refl) as [Hx Hr]. rewrite Z.add_0_r in Hx.
  rewrite (run_bind _ _ _ _ _ (run_lh_block i x s Hx)). rewrite u32_small by done.
  destruct (Z.eqb_spec x b) as [->|Hne].
  { exists 0%nat. rewrite Z.add_0_r. split; [done|by left]. }
  destruct (IH (i + 1) s b) as (k & R & Hk).
  { intros k y Hk. replace (i + 1 + Z.of_nat k) with (i + Z.of_nat (S k)) by lia. by apply Hblk. }
  exists (S k). rewrite R. split; [do 2 f_equal; lia|].
  destruct Hk as [?|[-> ?]]; [by left|right; set_solver].
Qed.

(** The transaction's blocks after one more is logged. *)
Definition add_block (b : Z) (bs : list Z) : list Z := if decide (b ∈ bs) then bs else bs ++ [b].

Lemma log_write_spec pid ds s H C bs D W i b :
  lview pid ds s H C bs D W -> H !! i = Some b -> Z.of_nat (length bs) < size (lg s) - 1 ->
  1 <= outstanding (lg s) ->
  exists s', log_write i s = Ok (tt, s') /\ lview pid ds s' H C (add_block b bs) D W /\
    start (lg s') = start (lg s) /\ size (lg s') = size (lg s) /\
    outstanding (lg s') = outstanding (lg s) /\ committing (lg s') = committing (lg s).
Proof.
  intros Hl Hi Hsz Hout. destruct s as [bb l].
  destruct Hl as [V Hh Hdev Hlay Hn Hblk Hlen Hnd Hok Hhd Hhl]. cbn [lg bst] in *.
  pose proof Hlay as [L1 L2 L3 L4]. pose proof Hok as [Hhome Hbl].
  pose proof (Hh i b Hi) as Hbh. assert (Hb31 : 0 <= b < 2 ^ 31) by (unfold home in Hbh; lia).
  unfold log_write. rewrite run_get_log. cbn [lg].
  rewrite (proj2 (Z.leb_gt LOGSIZE (n l))), (proj2 (Z.leb_gt (size l - 1) (n l))) by lia.
  rewrite (proj2 (Z.ltb_ge (outstanding l) 1)) by lia. cbn [orb].
  destruct (get_buf_view _ _ _ _ _ _ _ _ _ V Hi) as (x & R1 & Hxb & _).
  rewrite (run_bind _ _ _ _ _ (run_onbio _ _ _ l _ R1)), Hxb, Hn, Nat2Z.id.
  destruct (run_absorb bs 0 (mkstate bb l) b) as (k & R2 & Hk).
  { intros k y Hk. rewrite Z.add_0_l. split; [by apply Hblk|].
    apply list_elem_of_lookup_2, Hhome in Hk. unfold home in Hk. lia. }
  rewrite Z.add_0_l in R2. rewrite (run_bind _ _ _ _ _ R2).
  assert (Hk30 : (k < Z.to_nat LOGSIZE)%nat).
  { destruct Hk as [Hk%lookup_lt_Some|[-> _]]; lia. }
  destruct (zlookup_is_Some (block l) (Z.of_nat k)) as [y Hy]; [rewrite Hlen; lia|].
  rewrite (run_bind _ _ _ _ _ (run_set_lh_block (Z.of_nat k) _ y bb l Hy)).
  rewrite s32_small by done. set (B := zinsert (Z.of_nat k) b (block l)).
  assert (HlB : length B = length (block l)) by apply length_zinsert.
  destruct (dirty_view _ _ _ _ _ _ _ _ _ V Hi) as (b1 & R3 & V1).
  assert (HkB : zlookup B (Z.of_nat k) = Some b) by (apply zlookup_zinsert_eq; rewrite Hlen; lia).
  assert (HjB : forall j, j <> k -> zlookup B (Z.of_nat j) = zlookup (block l) (Z.of_nat j))
    by (intros j Hj; apply zlookup_zinsert_ne; lia).
  destruct (Z.eqb_spec (Z.of_nat k) (Z.of_nat (length bs))) as [E|Hne].
  - assert (k = length bs) as -> by lia.
    destruct Hk as [Hk%lookup_lt_Some|[_ Hni]]; [lia|].
    exists (mkstate b1 (set_n (Z.of_nat (length bs) + 1) (set_block B l))). split.
    { rewrite (run_bind _ _ _ tt (mkstate bb (set_n (Z.of_nat (length bs) + 1) (set_block B l)))) by done.
      by apply run_onbio. }
    split; [|done]. unfold add_block. rewrite decide_False by done.
    split; cbn [lg bst start size dev n block set_n set_block]; try done.
    + eapply bview_ext; [exact V1|done|set_solver|done].
    + rewrite length_app. simpl. lia.
    + intros j z [Hj|[Hj Hz]]%lookup_app_Some.
      * rewrite HjB by (apply lookup_lt_Some in Hj; lia). by apply Hblk.
      * apply list_lookup_singleton_Some in Hz as [Hj0 <-].
        replace j with (length bs) by lia. done.
    + by rewrite HlB.
    + apply NoDup_app. split; [done|]. split; [set_solver|apply NoDup_singleton].
    + split; [set_solver|rewrite length_app; simpl; lia].
  - destruct Hk as [Hk|[-> _]]; [|lia].
    exists (mkstate b1 (set_block B l)). split; [by apply run_onbio|].
    split; [|done]. apply list_elem_of_lookup_2 in Hk as Hin. unfold add_block. rewrite decide_True by done.
    split; cbn [lg bst start size dev n block set_n set_block]; try done.
    + eapply bview_ext; [exact V1|done|set_solver|done].
    + intros j z Hj. destruct (decide (j = k)) as [->|]; [congruence|]. rewrite HjB by done. by apply Hblk.
    + by rewrite HlB.
Qed.

(** A file system operation: the use of [log_write] that log.c prescribes, on a
    list of blocks, and a whole transaction. *)
Fixpoint update_all (pid ds : Z) (us : list (Z * (Block.block -> Block.block))) : ST state unit :=
  match us with
  | [] => mret tt
  | (b, f) :: us' =>
      i ← bread pid ds 1 b;
      store i f;;
      log_write i;;
      brelse pid i;;
      update_all pid ds us'
  end.

Definition transaction (pid ds : Z) (us : list (Z * (Block.block -> Block.block))) : ST state unit :=
  begin_op;; update_all pid ds us;; end_op pid ds.

(** What the updates mean. *)
Definition updated (us : list (Z * (Block.block -> Block.block))) (C : Z -> Block.block) : Z -> Block.block :=
  fold_left (fun C u => fupd u.1 (u.2 (C u.1)) C) us C.

(** The parts of the log that updates do not change. *)
Definition same_area (l l' : log) : Prop :=
  start l' = start l /\ size l' = size l /\ outstanding l' = outstanding l /\ committing l' = committing l.

Lemma add_block_length b bs : (length bs <= length (add_block b bs) <= length bs + 1)%nat.
Proof. unfold add_block. case_decide; rewrite ?length_app; simpl; lia. Qed.

Lemma add_block_in b bs x : x ∈ add_block b bs <-> x = b \/ x ∈ bs.
Proof. unfold add_block. case_decide; set_solver. Qed.

Lemma update_spec pid ds b f s C bs D W :
  lview pid ds s ∅ C bs D W -> home (start (lg s)) (size (lg s)) ds b ->
  Z.of_nat (length bs) < size (lg s) - 1 -> 1 <= outstanding (lg s) ->
  exists s', (forall A (k : ST state A),
      (i ← bread pid ds 1 b; store i f;; log_write i;; brelse pid i;; k) s = k s') /\
    lview pid ds s' ∅ (fupd b (f (C b)) C) (add_block b bs) D W /\ same_area (lg s) (lg s').
Proof.
  intros Hl Hb Hsz Hout. pose proof (lview_room _ _ _ _ _ _ _ _ Hl) as Hroom.
  pose proof (lview_size _ _ _ _ _ _ _ _ Hl) as HPs. destruct s as [bb l].
  destruct (run_bread pid ds l bb ∅ C _ D W b (lv_view _ _ _ _ _ _ _ _ Hl)) as (i & b1 & R1 & _ & V1);
    [unfold home in Hb; cbn in Hb; lia|set_solver|right; rewrite map_size_empty; lia|].
  rewrite insert_empty in V1.
  assert (HH : ({[i := b]} : gmap Z Z) !! i = Some b) by apply lookup_singleton_eq.
  destruct (run_store pid l b1 _ C _ D W i b f V1 HH) as (b2 & R2 & V2).
  destruct (log_write_spec pid ds (mkstate b2 l) {[i := b]} (fupd b (f (C b)) C) bs D W i b) as (s3 & R3 & Hl3 & Ha); [|done|done|done|].
  { destruct Hl as [_ _ Hdev Hlay Hn Hblk Hlen Hnd Hok Hhd Hhl]. split; try done.
    intros j z [_ <-]%lookup_singleton_Some. done. }
  pose proof (lv_view _ _ _ _ _ _ _ _ Hl3) as V3. destruct s3 as [b3 l3]. cbn [lg bst] in *.
  destruct (run_brelse pid l3 b3 _ _ _ D W i b V3 HH) as (b4 & R4 & V4).
  { left. apply elem_of_list_to_set, add_block_in. by left. }
  exists (mkstate b4 l3). split; [|split; [|done]].
  - intros A k. by rewrite (run_bind _ _ _ _ _ R1), (run_bind _ _ _ _ _ R2), (run_bind _ _ _ _ _ R3),
      (run_bind _ _ _ _ _ R4).
  - rewrite delete_singleton_eq in V4.
    destruct Hl3 as [_ _ Hdev Hlay Hn Hblk Hlen Hnd Hok Hhd Hhl]. split; done.
Qed.

Lemma update_all_spec pid ds us : forall s C bs D W,
  lview pid ds s ∅ C bs D W -> (forall b, b ∈ us.*1 -> home (start (lg s)) (size (lg s)) ds b) ->
  Z.of_nat (length bs + length us) <= size (lg s) - 1 -> 1 <= outstanding (lg s) ->
  exists s' bs', update_all pid ds us s = Ok (tt, s') /\
    lview pid ds s' ∅ (updated us C) bs' D W /\ same_area (lg s) (lg s') /\
    (forall x, x ∈ bs' <-> x ∈ bs \/ x ∈ us.*1).
Proof.
  induction us as [|[b f] us IH]; intros s C bs D W Hl Hh Hsz Hout.
  { exists s, bs. split; [done|]. split; [done|]. split; [done|set_solver]. }
  cbn [fmap list_fmap fst length] in *. cbn [update_all].
  destruct (update_spec pid ds b f s C bs D W Hl) as (s1 & R1 & Hl1 & Ha1 & Ha2 & Ha3 & Ha4);
    [apply Hh; set_solver|lia|done|].
  pose proof (add_block_length b bs) as Hab.
  destruct (IH s1 _ _ _ _ Hl1) as (s2 & bs2 & R2 & Hl2 & (Hb1 & Hb2 & Hb3 & Hb4) & Hin);
    [rewrite Ha1, Ha2; set_solver|rewrite Ha2; lia|lia|].
  exists s2, bs2. rewrite R1. split; [done|]. split; [done|]. split; [repeat split; congruence|].
  intros x. rewrite Hin, add_block_in. set_solver.
Qed.

Lemma updated_notin us C b : b ∉ us.*1 -> updated us C b = C b.
Proof.
  revert C. induction us as [|[x f] us IH]; intros C Hb; [done|]. cbn [fmap list_fmap fst] in Hb.
  change (updated us (fupd x (f (C x)) C) b = C b). rewrite IH by set_solver. apply fupd_ne. set_solver.
Qed.

(** Changing the counters keeps the invariant. *)
Lemma lview_counters pid ds b l o c H C bs D W :
  lview pid ds (mkstate b l) H C bs D W ->
  lview pid ds (mkstate b (set_committing c (set_outstanding o l))) H C bs D W.
Proof. intros [V Hh Hdev Hlay Hn Hblk Hlen Hnd Hok Hhd Hhl]. by split. Qed.

Lemma transaction_spec pid ds us s C D W :
  lview pid ds s ∅ C [] D W -> outstanding (lg s) = 0 -> committing (lg s) = false ->
  (forall b, b ∈ us.*1 -> home (start (lg s)) (size (lg s)) ds b) ->
  Z.of_nat (length us) <= MAXOPBLOCKS -> MAXOPBLOCKS < size (lg s) ->
  exists s' C' D' ws, transaction pid ds us s = Ok (tt, s') /\
    lview pid ds s' ∅ C' [] D' (W ++ ws) /\ same_area (lg s) (lg s') /\
    (forall b, home (start (lg s)) (size (lg s)) ds b -> C' b = updated us C b /\ D' b = updated us C b) /\
    (forall ws1, ws1 `prefix_of` ws ->
       recovers (start (lg s)) (size (lg s)) ds (apply_writes ws1 D) C \/
       recovers (start (lg s)) (size (lg s)) ds (apply_writes ws1 D) (updated us C)) /\
    (forall x, x ∈ ws.*1 -> x ∈ us.*1 \/ start (lg s) <= x < start (lg s) + size (lg s)).
Proof.
  intros Hl Hout Hcom Hh Hus Hsz.
  assert (HCD : forall x, C x = D x).
  { intros x. eapply bview_clean; [apply Hl|set_solver|set_solver]. }
  pose proof (lv_n _ _ _ _ _ _ _ _ Hl) as Hn. cbn [length] in Hn.
  destruct s as [b l]. cbn [lg] in *. unfold transaction.
  set (l1 := set_committing false (set_outstanding 1 l)).
  assert (Hb : begin_op (mkstate b l) = Ok (tt, mkstate b l1)).
  { unfold begin_op. rewrite run_get_log. cbn [lg]. rewrite Hcom, Hn, Hout.
    change (LOGSIZE <? 0 + (0 + 1) * MAXOPBLOCKS) with false. cbv iota. unfold l1.
    by destruct l; cbn in *; subst. }
  rewrite (run_bind _ _ _ _ _ Hb).
  destruct (update_all_spec pid ds us (mkstate b l1) C [] D W) as (s2 & bs & R2 & Hl2 & (A1 & A2 & A3 & A4) & Hin);
    [by apply lview_counters|done|cbn; lia|done|].
  rewrite (run_bind _ _ _ _ _ R2). destruct s2 as [b2 l2]. cbn [lg start size outstanding committing l1
    set_committing set_outstanding] in A1, A2, A3, A4.
  set (l3 := set_committing true (set_outstanding 0 l2)).
  pose proof (lview_counters pid ds b2 l2 0 true _ _ _ _ _ Hl2) as Hl3.
  destruct (commit_spec pid ds _ _ _ _ _ Hl3) as (s4 & C' & D' & ws & R4 & Hlg & Hl4 & Hf & Hp & Hws & _).
  destruct s4 as [b4 l4]. cbn [lg start size set_committing set_outstanding set_n] in Hlg, Hl4, Hf, Hp, Hws.
  rewrite A1, A2 in Hf, Hp, Hws. subst l4.
  exists (mkstate b4 (set_committing false (set_n 0 l3))), C', D', ws. split; [|split; [|split; [|split; [|split]]]].
  - unfold end_op. rewrite (run_bind _ _ _ tt (mkstate b2 (set_outstanding 0 l2)));
      [|unfold upd_log, modify; cbn [bst lg]; by rewrite A3]. rewrite run_get_log. cbn [lg committing set_outstanding outstanding].
    rewrite A4. change (0 =? 0) with true. cbv iota.
    rewrite (run_bind _ _ _ tt (mkstate b2 l3)) by (by destruct l2). by rewrite (run_bind _ _ _ _ _ R4).
  - apply (lview_counters pid ds b4 _ 0 false) in Hl4. exact Hl4.
  - unfold same_area, l3. cbn. by rewrite Hout, Hcom, A1, A2.
  - exact Hf.
  - intros ws1 Hpre. destruct (Hp ws1 Hpre) as [[K1 K2 K3]|K]; [left|by right].
    split; [done|done|]. intros x Hx. rewrite HCD. by apply K3.
  - intros x Hx. destruct (Hws x Hx) as [Hxb|?]; [left|by right]. apply Hin in Hxb. set_solver.
Qed.

(** ** Theorems *)

Lemma recovers_ext st sz ds D D' F :
  recovers st sz ds D F -> (forall x, D' x = D x) -> recovers st sz ds D' F.
Proof.
  intros [K1 K2 K3] HD. split; unfold recovered in *; rewrite ?HD; [done|done|].
  intros b Hb. rewrite <- (K3 b Hb), (home_writes_ext _ _ _ D) by auto. by apply apply_ext.
Qed.

Lemma apply_writes_ext ws D D' x : (forall x, D x = D' x) -> apply_writes ws D x = apply_writes ws D' x.
Proof. intros H. by apply apply_ext. Qed.

Lemma updated_ext us C C' b :
  (forall x, x = b \/ x ∈ us.*1 -> C x = C' x) -> updated us C b = updated us C' b.
Proof.
  revert C C'. induction us as [|[x f] us IH]; intros C C' HC; [apply HC; by left|].
  change (updated us (fupd x (f (C x)) C) b = updated us (fupd x (f (C' x)) C') b).
  cbn [fmap list_fmap fst] in HC. apply IH. intros y Hy. unfold fupd.
  destruct (y =? x); [by rewrite (HC x) by set_solver|apply HC; set_solver].
Qed.

(** The writes of boot and of a transaction, cut anywhere. *)
Lemma transaction_crash pid ds st sz D F us s0 C0 D0 ws0 :
  recovers st sz ds D F -> sb_area D st sz -> home st sz ds 1 -> 1 ∉ header_of (D st) ->
  lview pid ds s0 ∅ C0 [] D0 ws0 -> outstanding (lg s0) = 0 -> committing (lg s0) = false ->
  start (lg s0) = st -> size (lg s0) = sz ->
  (forall x, home st sz ds x -> C0 x = F x /\ D0 x = F x) ->
  (forall ws1, ws1 `prefix_of` ws0 -> recovers st sz ds (apply_writes ws1 D) F) ->
  (forall x, x ∈ ws0.*1 -> x ∈ header_of (D st) \/ x = st) -> (forall x, D0 x = apply_writes ws0 D x) ->
  (forall b, b ∈ us.*1 -> home st sz ds b /\ b <> 1) ->
  Z.of_nat (length us) <= MAXOPBLOCKS -> MAXOPBLOCKS < sz ->
  exists s1, transaction pid ds us s0 = Ok (tt, s1) /\
    (forall b, home st sz ds b -> Bio.disk (bst s1) b = updated us F b) /\
    forall ws, ws `prefix_of` Bio.writes (bst s1) -> sb_area (apply_writes ws D) st sz /\
      (recovers st sz ds (apply_writes ws D) F \/ recovers st sz ds (apply_writes ws D) (updated us F)).
Proof.
  intros Hrec [Hs1 Hs2] H1 H1h Hl0 O0 K0 <- <- Hf0 Hp0 Hw0 HD0 Hus Hlen Hsz.
  destruct (transaction_spec pid ds us s0 C0 D0 ws0 Hl0 O0 K0)
    as (s1 & C1 & D1 & ws1 & R1 & Hl1 & _ & Hf1 & Hp1 & Hw1); [intros b Hb; by apply Hus|done|done|].
  assert (Hupd : forall b, home (start (lg s0)) (size (lg s0)) ds b -> updated us C0 b = updated us F b).
  { intros b Hb. apply updated_ext. intros x [->|Hx]; apply Hf0; [done|by apply Hus]. }
  pose proof (lv_view _ _ _ _ _ _ _ _ Hl1) as V1.
  exists s1. split; [done|]. split.
  { intros b Hb. rewrite (v_disk _ _ _ _ _ _ _ V1). destruct (Hf1 b Hb) as [_ ->]. by apply Hupd. }
  rewrite (v_writes _ _ _ _ _ _ _ V1). intros ws Hws.
  assert (Hone : 1 ∉ (ws0 ++ ws1).*1).
  { pose proof (lv_lay _ _ _ _ _ _ _ _ Hl0) as [? ? ? ?]. unfold home in H1.
    rewrite fmap_app. intros [[Hx|Hx]%Hw0|[[_ Hx]%Hus|Hx]%Hw1]%elem_of_app; [done|lia|done|lia]. }
  split.
  { unfold sb_area. rewrite apply_notin; [done|]. destruct Hws as [k Hk]. rewrite Hk, fmap_app in Hone. intros Hin. apply Hone, elem_of_app. by left. }
  apply prefix_split in Hws as [Hws|(ws2 & -> & Hws)]; [left; by apply Hp0|].
  rewrite apply_app. destruct (Hp1 ws2 Hws) as [K|K]; [left|right];
    (apply (recovers_ext _ _ _ (apply_writes ws2 D0)); [|intros x; apply apply_writes_ext; intros y; symmetry; apply HD0]);
    destruct K as [K1 K2 K3]; (split; [done|done|]); intros b Hb; rewrite (K3 b Hb); [by apply Hf0|by apply Hupd].
Qed.

(** C1: transactions are atomic.  Take a machine that boots from any disk whose
    log recovers to the contents [F], runs a transaction of at most MAXOPBLOCKS
    updates, and crashes after any number of the disk writes that boot and
    transaction make.  Boot and transaction return without a panic and leave the
    updated contents on the disk; booting again after the crash succeeds, and
    the blocks outside the log then have either their contents from before the
    transaction, all of them, or those from after it, all of them. *)
Theorem log_transaction_atomic pid ds st sz D F us :
  layout st sz ds -> sb_area D st sz -> recovers st sz ds D F ->
  home st sz ds 1 -> 1 ∉ header_of (D st) ->
  (forall b, b ∈ us.*1 -> home st sz ds b /\ b <> 1) ->
  Z.of_nat (length us) <= MAXOPBLOCKS -> MAXOPBLOCKS < sz ->
  exists s0 s1, boot pid ds D = Ok (tt, s0) /\ transaction pid ds us s0 = Ok (tt, s1) /\
    (forall b, home st sz ds b -> Bio.disk (bst s1) b = updated us F b) /\
    forall ws, ws `prefix_of` Bio.writes (bst s1) ->
      exists s2, boot pid ds (apply_writes ws D) = Ok (tt, s2) /\
        ((forall b, home st sz ds b -> Bio.disk (bst s2) b = F b) \/
         (forall b, home st sz ds b -> Bio.disk (bst s2) b = updated us F b)).
Proof.
  intros Hlay Hsb Hrec H1 H1h Hus Hlen Hsz. assert (H1d : 1 < ds) by (unfold home in H1; lia).
  destruct (boot_spec pid ds st sz D F Hlay Hsb H1d Hrec)
    as (s0 & C0 & D0 & ws0 & R0 & O0 & K0 & Est & Esz & Hl0 & Hf0 & Hp0 & Hw0 & HD0).
  exists s0. destruct (transaction_crash pid ds st sz D F us s0 C0 D0 ws0 Hrec Hsb H1 H1h Hl0 O0 K0 Est Esz
    Hf0 Hp0 Hw0 HD0 Hus Hlen Hsz) as (s1 & R1 & Hd & Hcr). exists s1.
  split; [exact R0|]. clear R0. split; [exact R1|]. split; [exact Hd|]. intros ws Hws.
  destruct (Hcr ws Hws) as [Hsb' [Hr|Hr]];
    destruct (boot_spec pid ds st sz _ _ Hlay Hsb' H1d Hr)
      as (s2 & C2 & D2 & ws2 & R2 & _ & _ & _ & _ & Hl2 & Hf2 & _); exists s2; (split; [exact R2|]); clear R2;
    [left|right]; intros b Hb; rewrite (v_disk _ _ _ _ _ _ _ (lv_view _ _ _ _ _ _ _ _ Hl2)); apply Hf2, Hb.
Qed.

(** A disk with an empty log of LOGSIZE blocks at block 2, as mkfs makes it. *)
Definition fresh_disk : Z -> Block.block :=
  fun m => if m =? 1 then put32 12 30 (put32 16 2 zero_block) else zero_block.

Lemma fresh_recovers : recovers 2 30 1000 fresh_disk fresh_disk.
Proof. apply recovers_empty; [lia|vm_compute; reflexivity|reflexivity|reflexivity]. Qed.

Lemma fresh_layout : layout 2 30 1000.
Proof. split; unfold LOGSIZE, MAXOPBLOCKS; lia. Qed.

Lemma fresh_area : sb_area fresh_disk 2 30.
Proof. split; vm_compute; reflexivity. Qed.

Lemma log_transaction_atomic_witness :
  exists s0 s1, boot 1 1000 fresh_disk = Ok (tt, s0) /\
    transaction 1 1000 [(40, put32 0 7); (41, put32 0 8)] s0 = Ok (tt, s1).
Proof.
  destruct (log_transaction_atomic 1 1000 2 30 fresh_disk fresh_disk [(40, put32 0 7); (41, put32 0 8)]
    fresh_layout fresh_area fresh_recovers) as (s0 & s1 & R0 & R1 & _).
  - unfold home. lia.
  - intros H. vm_compute in H. inversion H.
  - intros b Hb. apply elem_of_cons in Hb as [->|Hb]; [unfold home; simpl; lia|].
    apply list_elem_of_singleton in Hb as ->. unfold home; simpl; lia.
  - simpl. unfold MAXOPBLOCKS. lia.
  - unfold MAXOPBLOCKS. lia.
  - exists s0, s1. exact (conj R0 R1).
Defined.

(** ** The reservation of log space *)

(** Code that leaves the log's memory alone. *)
Definition keeps {A} (m : ST state A) : Prop := forall s a s', m s = Ok (a, s') -> lg s' = lg s.

Lemma keeps_ret {A} (a : A) : keeps (mret a).
Proof. intros s a' s' H. injection H as _ <-. done. Qed.

Lemma keeps_bind {A B} (m : ST state A) (k : A -> ST state B) :
  keeps m -> (forall a, keeps (k a)) -> keeps (m ≫= k).
Proof.
  intros Hm Hk s b s' H. unfold mbind, ST_bind in H. destruct (m s) as [[a s1]| | | |] eqn:E; try done.
  rewrite (Hk a _ _ _ H). by eapply Hm.
Qed.

Lemma keeps_onbio {A} (m : ST Bio.state A) : keeps (onbio m).
Proof.
  intros s a s' H. unfold onbio, zoom in H. destruct (m (bst s)) as [[x b]| | | |]; try done.
  by injection H as _ <-.
Qed.

Lemma keeps_get_log : keeps get_log.
Proof. intros s a s' H. by injection H as _ <-. Qed.

Lemma keeps_lh_block i : keeps (lh_block i).
Proof.
  intros s a s' H. unfold lh_block in H. rewrite run_get_log in H.
  destruct (zlookup (block (lg s)) i); [by injection H as _ <-|done].
Qed.

#[local] Create HintDb keeps.

#[local] Hint Resolve keeps_ret keeps_onbio keeps_get_log keeps_lh_block : keeps.

Ltac keeps := repeat first [solve [eauto with keeps] | apply keeps_bind; [|intros ?]].

Lemma keeps_install pid ds k tail : keeps (install_loop pid ds k tail).
Proof.
  revert tail. induction k as [|k IH]; intros tail; cbn [install_loop]; [keeps|].
  unfold bread, copy_data, bdata, store, bwrite, brelse. keeps.
Qed.

Lemma keeps_write_log pid ds k tail : keeps (write_log_loop pid ds k tail).
Proof.
  revert tail. induction k as [|k IH]; intros tail; cbn [write_log_loop]; [keeps|].
  unfold bread, copy_data, bdata, store, bwrite, brelse. keeps.
Qed.

Lemma keeps_write_head_loop k i buf : keeps (write_head_loop k i buf).
Proof.
  revert i. induction k as [|k IH]; intros i; cbn [write_head_loop]; [keeps|]. unfold store. keeps.
Qed.

#[local] Hint Resolve keeps_install keeps_write_log keeps_write_head_loop : keeps.

Lemma keeps_write_head pid ds : keeps (write_head pid ds).
Proof. unfold write_head, bread, store, bwrite, brelse. keeps. Qed.

(** A commit empties the log. *)
Lemma commit_empties pid ds s s' :
  commit pid ds s = Ok (tt, s') -> 0 <= n (lg s) -> lg s' = set_n 0 (lg s).
Proof.
  unfold commit. rewrite run_get_log. intros H Hn. destruct (Z.ltb_spec 0 (n (lg s))).
  2: { injection H as <-. destruct (lg s) as [? ? ? ? ? n0 ?]. cbn in *. unfold set_n. cbn. f_equal. lia. }
  apply bind_Ok in H as (? & s1 & H1 & H). apply bind_Ok in H as (? & s2 & H2 & H).
  apply bind_Ok in H as (? & s3 & H3 & H). apply bind_Ok in H as (? & s4 & H4 & H).
  assert (K : keeps (write_log pid ds) /\ keeps (install_trans pid ds))
    by (split; unfold write_log, install_trans; keeps).
  apply K in H1, H3. apply keeps_write_head in H2, H. injection H4 as _ <-. cbn [lg] in H. congruence.
Qed.

Lemma absorb_range k : forall i b s j s',
  absorb k i b s = Ok (j, s') -> s' = s /\ i <= j <= i + Z.of_nat k.
Proof.
  induction k as [|k IH]; intros i b s j s' H; cbn [absorb] in H.
  { injection H as <- <-. split; [done|lia]. }
  apply bind_Ok in H as (x & s1 & H1 & H).
  assert (s1 = s) as ->.
  { unfold lh_block in H1. rewrite run_get_log in H1. destruct (zlookup _ _); [by injection H1 as _ <-|done]. }
  destruct (u32 x =? b); [injection H as <- <-; split; [done|lia]|].
  apply IH in H as [-> ?]. split; [done|lia].
Qed.

(** [log_write] adds at most one block. *)
Lemma log_write_n i s s' :
  log_write i s = Ok (tt, s') ->
  outstanding (lg s') = outstanding (lg s) /\ committing (lg s') = committing (lg s) /\
  n (lg s) <= n (lg s') <= n (lg s) + 1.
Proof.
  unfold log_write. rewrite run_get_log. intros H. destruct (_ || _); [done|]. destruct (_ <? 1); [done|].
  apply bind_Ok in H as (bp & s1 & H1 & H). apply keeps_onbio in H1.
  apply bind_Ok in H as (j & s2 & H2 & H). apply absorb_range in H2 as [-> _].
  apply bind_Ok in H as ([] & s3 & H3 & H). apply bind_Ok in H as ([] & s4 & H4 & H).
  apply keeps_onbio in H. rewrite H. unfold set_lh_block in H3. rewrite run_get_log in H3.
  destruct (zlookup _ _); [|done]. injection H3 as <-. rewrite <- H1. cbn [lg] in *.
  destruct (j =? n (lg s)); injection H4 as <-; cbn; rewrite H1; repeat split; lia.
Qed.

(** File system operations by concurrent processes.  The second component has
    one entry for each operation between its [begin_op] and its [end_op]: the
    number of [log_write]s it has made.  Each step is one critical section of
    the log's lock; [end_op] of the last operation runs the commit, during which
    the flag keeps the others out. *)
Inductive ops_step (pid ds : Z) : state * list Z -> state * list Z -> Prop :=
| ops_begin s s' us :
    begin_op s = Ok (tt, s') -> ops_step pid ds (s, us) (s', 0 :: us)
| ops_write s s' i u us1 us2 :
    u < MAXOPBLOCKS -> log_write i s = Ok (tt, s') ->
    ops_step pid ds (s, us1 ++ u :: us2) (s', us1 ++ (u + 1) :: us2)
| ops_end s s' u us1 us2 :
    end_op pid ds s = Ok (tt, s') -> ops_step pid ds (s, us1 ++ u :: us2) (s', us1 ++ us2)
| ops_other s s' us :
    lg s' = lg s -> ops_step pid ds (s, us) (s', us).

(** The blocks that the operations may still log. *)
Definition reserve (us : list Z) : Z := fold_right (fun u r => (MAXOPBLOCKS - u) + r) 0 us.

Lemma reserve_app us1 us2 : reserve (us1 ++ us2) = reserve us1 + reserve us2.
Proof. induction us1 as [|u us1 IH]; cbn in *; [done|]. unfold reserve in *. lia. Qed.

Record ops_inv (s : state) (us : list Z) : Prop := {
  oi_out : outstanding (lg s) = Z.of_nat (length us);
  oi_com : committing (lg s) = false;
  oi_used : forall u, u ∈ us -> 0 <= u <= MAXOPBLOCKS;
  oi_n : 0 <= n (lg s);
  oi_space : n (lg s) + reserve us <= LOGSIZE
}.

Lemma reserve_used us : (forall u, u ∈ us -> 0 <= u <= MAXOPBLOCKS) ->
  0 <= reserve us <= Z.of_nat (length us) * MAXOPBLOCKS.
Proof.
  induction us as [|u us IH]; intros H; [cbn; lia|].
  pose proof (H u ltac:(set_solver)). pose proof (IH ltac:(set_solver)). cbn [reserve fold_right length] in *.
  unfold reserve in *. lia.
Qed.

Lemma ops_step_inv pid ds s us s' us' : ops_step pid ds (s, us) (s', us') -> ops_inv s us -> ops_inv s' us'.
Proof.
  intros Hst [Ho Hc Hu Hn Hs]. inversion Hst as [? ? ? Hrun|? ? i u us1 us2 Hlt Hrun|? ? u us1 us2 Hrun|? ? ? E]; subst.
  - unfold begin_op in Hrun. rewrite run_get_log, Hc in Hrun.
    destruct (Z.ltb_spec LOGSIZE (n (lg s) + (outstanding (lg s) + 1) * MAXOPBLOCKS)); [done|].
    injection Hrun as <-. pose proof (reserve_used us Hu). cbn [lg] in *.
    split; cbn [lg outstanding committing n set_outstanding length]; [lia|done| |done|].
    + intros u [->|Hin]%elem_of_cons; [unfold MAXOPBLOCKS; lia|by apply Hu].
    + cbn [reserve fold_right]. fold (reserve us). lia.
  - destruct (log_write_n i s s' Hrun) as (E1 & E2 & E3). rewrite reserve_app in Hs. cbn [reserve fold_right] in Hs.
    split; [|congruence| |lia|].
    + rewrite E1, Ho, !length_app. cbn [length]. lia.
    + intros v Hv. pose proof (Hu u ltac:(set_solver)).
      apply elem_of_app in Hv as [Hv|[->|Hv]%elem_of_cons]; [apply Hu; set_solver|lia|apply Hu; set_solver].
    + rewrite reserve_app. cbn [reserve fold_right]. fold (reserve us2) in *. lia.
  - unfold end_op in Hrun. apply bind_Ok in Hrun as ([] & s1 & H1 & Hrun). injection H1 as <-.
    rewrite run_get_log in Hrun. cbn [lg committing set_outstanding outstanding] in Hrun. rewrite Hc, Ho in Hrun.
    pose proof (Hu u ltac:(set_solver)) as Huu. rewrite length_app in Ho, Hrun. cbn [length] in Ho, Hrun.
    rewrite reserve_app in Hs. cbn [reserve fold_right] in Hs. fold (reserve us2) in Hs.
    assert (Hu' : forall v, v ∈ us1 ++ us2 -> 0 <= v <= MAXOPBLOCKS) by (intros v Hv; apply Hu; set_solver).
    destruct (Z.eqb_spec (Z.of_nat (length us1 + S (length us2)) - 1) 0) as [E|E].
    + apply bind_Ok in Hrun as ([] & s1 & H1 & Hrun). injection H1 as <-.
      apply bind_Ok in Hrun as ([] & s2 & H2 & Hrun). injection Hrun as <-.
      apply commit_empties in H2; [|done]. cbn [lg] in H2. rewrite H2.
      assert (us1 = [] /\ us2 = []) as [-> ->] by (destruct us1, us2; simpl in *; done || lia).
      split; cbn; done || lia.
    + injection Hrun as <-. split; cbn [lg outstanding committing n set_outstanding]; [|done|done|done|].
      * rewrite length_app. lia.
      * rewrite reserve_app. lia.
  - split; rewrite ?E; done.
Qed.

(** Past its checks [log_write] does not panic. *)
Definition quiet {A} (m : ST state A) : Prop := forall s msg, m s <> Panic msg.

Lemma quiet_bind {A B} (m : ST state A) (k : A -> ST state B) :
  quiet m -> (forall a, quiet (k a)) -> quiet (m ≫= k).
Proof.
  intros Hm Hk s msg. unfold mbind, ST_bind. destruct (m s) as [[a s1]| | | |] eqn:E; try done; [apply Hk|].
  by destruct (Hm s msg0).
Qed.

Lemma quiet_get_buf i : quiet (onbio (Bio.get_buf i)).
Proof.
  intros s msg. unfold onbio, zoom, Bio.get_buf. rewrite run_get. by destruct (zlookup _ _).
Qed.

Lemma quiet_upd_buf i f : quiet (onbio (Bio.upd_buf i f)).
Proof.
  intros s msg. unfold onbio, zoom, Bio.upd_buf. rewrite run_get. by destruct (zlookup _ _).
Qed.

Lemma quiet_lh_block i : quiet (lh_block i).
Proof. intros s msg. unfold lh_block. rewrite run_get_log. by destruct (zlookup _ _). Qed.

Lemma quiet_set_lh_block i b : quiet (set_lh_block i b).
Proof. intros s msg. unfold set_lh_block. rewrite run_get_log. by destruct (zlookup _ _). Qed.

Lemma quiet_absorb k i b : quiet (absorb k i b).
Proof.
  revert i. induction k as [|k IH]; intros i; cbn [absorb]; [done|].
  apply quiet_bind; [apply quiet_lh_block|intros x]. by destruct (u32 x =? b).
Qed.

(** C15: log space is reserved by [begin_op].  However operations of concurrent
    processes interleave, the blocks in the log and those that the running
    operations may still log fit LOGSIZE; so an operation with a block left to
    log finds room for it, and its [log_write] does not panic if the log area
    has a block more than LOGSIZE. *)
Theorem log_space_reserved pid ds s0 s us u :
  rtc (ops_step pid ds) (s0, []) (s, us) ->
  outstanding (lg s0) = 0 -> committing (lg s0) = false -> n (lg s0) = 0 ->
  u ∈ us -> u < MAXOPBLOCKS ->
  n (lg s) + reserve us <= LOGSIZE /\ n (lg s) < LOGSIZE /\
  (LOGSIZE < size (lg s) -> forall i msg, log_write i s <> Panic msg).
Proof.
  intros Hst Ho Hc Hn Hin Hu.
  assert (Hinv : ops_inv s us).
  { remember (s0, []) as c0 eqn:E0. remember (s, us) as c eqn:E.
    assert (H0 : ops_inv c0.1 c0.2).
    { subst c0. split; cbn; rewrite ?Hn; [done|done|set_solver|lia|unfold LOGSIZE, MAXOPBLOCKS; lia]. }
    change (ops_inv (s, us).1 (s, us).2). rewrite <- E. clear E0 E.
    induction Hst as [|[s1 us1] [s2 us2] c Hs _ IH]; [done|]. apply IH. by eapply ops_step_inv. }
  destruct Hinv as [Ho' Hc' Hu' Hn' Hs'].
  assert (Hsp : n (lg s) < LOGSIZE).
  { apply list_elem_of_split in Hin as (us1 & us2 & ->). rewrite reserve_app in Hs'. cbn [reserve fold_right] in Hs'.
    fold (reserve us2) in Hs'.
    pose proof (reserve_used us1 ltac:(set_solver)). pose proof (reserve_used us2 ltac:(set_solver)). lia. }
  split; [done|]. split; [done|]. intros Hsz i msg.
  unfold log_write. rewrite run_get_log.
  rewrite (proj2 (Z.leb_gt LOGSIZE (n (lg s)))), (proj2 (Z.leb_gt (size (lg s) - 1) (n (lg s)))) by lia.
  assert (1 <= outstanding (lg s)) by (rewrite Ho'; destruct us; [by apply elem_of_nil in Hin|simpl; lia]).
  rewrite (proj2 (Z.ltb_ge (outstanding (lg s)) 1)) by done. cbn [orb].
  apply quiet_bind; [apply quiet_get_buf|intros bp]. apply quiet_bind; [apply quiet_absorb|intros j].
  apply quiet_bind; [apply quiet_set_lh_block|intros _]. apply quiet_bind; [by destruct (_ =? _)|intros _].
  apply quiet_upd_buf.
Qed.

Lemma log_space_reserved_witness :
  let l := mklog 2 30 0 false 1 0 (replicate 30 0) in
  exists s, rtc (ops_step 1 1000) (mkstate (Bio.state0 fresh_disk) l, []) (s, [0]) /\ n (lg s) < LOGSIZE.
Proof.
  set (l := mklog 2 30 0 false 1 0 (replicate 30 0)).
  set (s := mkstate (Bio.state0 fresh_disk) (set_outstanding 1 l)).
  assert (Hst : rtc (ops_step 1 1000) (mkstate (Bio.state0 fresh_disk) l, []) (s, [0])).
  { apply rtc_once, ops_begin. reflexivity. }
  exists s. split; [exact Hst|].
  refine (proj1 (proj2 (log_space_reserved 1 1000 _ s [0] 0 Hst eq_refl eq_refl eq_refl _ _))).
  - apply list_elem_of_here.
  - reflexivity.
Defined.

(** Three operations at once, which log 29 blocks and then one more. *)
Definition three_ops (pid ds : Z) (us : list (Z * (Block.block -> Block.block))) (b : Z) : ST state unit :=
  begin_op;; begin_op;; begin_op;;
  update_all pid ds us;;
  i ← bread pid ds 1 b;
  log_write i.

Lemma three_ops_panic pid ds us b s C D W :
  lview pid ds s ∅ C [] D W -> outstanding (lg s) = 0 -> committing (lg s) = false ->
  size (lg s) = 30 -> length us = 29%nat -> NoDup us.*1 ->
  (forall x, x ∈ b :: us.*1 -> home (start (lg s)) (size (lg s)) ds x) ->
  three_ops pid ds us b s = Panic "too big a transaction".
Proof.
  intros Hl Ho Hc Hsz Hus Hnd Hh. pose proof (lv_n _ _ _ _ _ _ _ _ Hl) as Hn. cbn [length] in Hn.
  destruct s as [bb l]. cbn [lg] in *. unfold three_ops.
  assert (Hb : forall o, 0 <= o <= 2 ->
    begin_op (mkstate bb (set_outstanding o l)) = Ok (tt, mkstate bb (set_outstanding (o + 1) l))).
  { intros o Hlo. unfold begin_op. rewrite run_get_log. cbn [lg committing n outstanding set_outstanding].
    rewrite Hc, Hn. rewrite (proj2 (Z.ltb_ge LOGSIZE _)) by (unfold LOGSIZE, MAXOPBLOCKS; lia). done. }
  replace l with (set_outstanding 0 l) by (destruct l; cbn in *; by subst).
  rewrite (run_bind _ _ _ _ _ (Hb 0 ltac:(lia))), (run_bind _ _ _ _ _ (Hb 1 ltac:(lia))),
    (run_bind _ _ _ _ _ (Hb 2 ltac:(lia))).
  destruct (update_all_spec pid ds us (mkstate bb (set_outstanding 3 l)) C [] D W)
    as (s2 & bs & R2 & Hl2 & (A1 & A2 & A3 & A4) & Hin).
  { destruct Hl as [V Hhd Hdev Hlay Hn' Hblk Hlen Hnd' Hok Hhd' Hhl]. by split. }
  { intros x Hx. apply Hh. set_solver. } { cbn. lia. } { cbn. lia. }
  rewrite (run_bind _ _ _ _ _ R2).
  assert (Hbs : length bs = 29%nat).
  { rewrite <- Hus, <- (length_fmap fst us). apply Permutation_length, NoDup_Permutation; [apply Hl2|done|set_solver]. }
  pose proof (lview_size _ _ _ _ _ _ _ _ Hl2) as HP. destruct s2 as [b2 l2]. cbn [lg start size set_outstanding] in *.
  destruct (run_bread pid ds l2 b2 ∅ _ _ D W b (lv_view _ _ _ _ _ _ _ _ Hl2)) as (i & b3 & R3 & _ & _).
  { pose proof (Hh b ltac:(set_solver)) as Hb'. unfold home in Hb'. lia. } { set_solver. }
  { right. rewrite map_size_empty, HP. lia. }
  rewrite (run_bind _ _ _ _ _ R3). unfold log_write. rewrite run_get_log. cbn [lg].
  pose proof (lv_n _ _ _ _ _ _ _ _ Hl2) as Hn2. cbn [lg] in Hn2.
  rewrite (proj2 (Z.leb_le (size l2 - 1) (n l2))) by lia. by rewrite orb_true_r.
Qed.

(** The reservation does not match the log area that mkfs makes, LOGSIZE
    blocks with the header among them.  Three operations that [begin_op] admits
    together may log MAXOPBLOCKS blocks each; when the last of them logs its
    tenth block, the thirtieth of the transaction, [log_write] panics. *)
Theorem log_admission_off_by_one :
  exists s, boot 1 1000 fresh_disk = Ok (tt, s) /\
    three_ops 1 1000 (map (fun b => (b, put32 0 b)) (seqZ 40 29)) 69 s = Panic "too big a transaction".
Proof.
  destruct (boot_spec 1 1000 2 30 fresh_disk fresh_disk fresh_layout fresh_area ltac:(lia) fresh_recovers)
    as (s & C & D & ws & R & O & K & Est & Esz & Hl & _).
  exists s. split; [exact R|]. clear R. eapply three_ops_panic; [exact Hl|exact O|exact K|exact Esz| | |].
  - reflexivity.
  - rewrite <- list_fmap_compose. change (NoDup (id <$> seqZ 40 29)). rewrite list_fmap_id. apply NoDup_seqZ.
  - rewrite Est, Esz. intros x Hx.
    assert (Hx' : x = 69 \/ x ∈ seqZ 40 29).
    { apply elem_of_cons in Hx as [->|Hx]; [by left|right]. rewrite <- list_fmap_compose in Hx.
      apply list_elem_of_fmap in Hx as (y & -> & Hy). exact Hy. }
    destruct Hx' as [->|Hx'%elem_of_seqZ]; unfold home; lia.
Qed.

End LogTx.
