(* ===== verification/Vm.v ===== *)
(** * Page tables and user address spaces (kern/mm/vm.c)

    Page tables are words of the byte memory; the pages they are built from come
    from any implementation of the [PageAlloc] interface.  Loops are bounded by
    the number of pages they can visit. *)

From Stdlib Require Import ZArith Lia.
From stdpp Require Import base numbers strings list gmap.
From S2P Require Import Prelude Mmu Mem Cstring Kalloc.

Open Scope Z_scope.

Import Mmu Mem Cstring Kalloc.

Module Vm.

Section Code.

Context {A : Type} `{!PageAlloc A}.

Definition state : Type := A * mem.

(** The address of the kernel's data section, from the linker script. *)
Variable kdata : Z.

Definition rd32 (a : Z) : ST state Z := s ← get; mret (load32 s.2 a).
Definition onmem (f : mem -> mem) : ST state unit := modify (fun s => (s.1, f s.2)).
Definition wr32 (a v : Z) : ST state unit := onmem (store32 a v).

(** Access through the result of [walkpgdir], which may be the null pointer. *)
Definition rdpte (pte : Z) : ST state Z := if pte =? 0 then fault else rd32 pte.

Definition present (e : Z) : bool := negb (Z.land e PTE_P =? 0).

Definition walkpgdir (pgdir va : Z) (alloc : bool) : ST state Z :=
  let pde := pgdir + 4 * PDX va in
  e ← rd32 pde;
  if present e then mret (P2V (PTE_ADDR e) + 4 * PTX va)
  else if negb alloc then mret 0
  else
    pgtab ← pa_alloc;
    if pgtab =? 0 then mret 0
    else
      onmem (memset pgtab 0 (Z.to_nat PGSIZE));;
      wr32 pde (Z.lor (Z.lor (Z.lor (V2P pgtab) PTE_P) PTE_W) PTE_U);;
      mret (pgtab + 4 * PTX va).

Fixpoint mappages_loop (fuel : nat) (pgdir a last pa perm : Z) : ST state Z :=
  match fuel with
  | O => out_of_fuel
  | S n =>
      pte ← walkpgdir pgdir a true;
      if pte =? 0 then mret (-1)
      else
        e ← rd32 pte;
        if present e then panic "remap"
        else
          wr32 pte (Z.lor (Z.lor pa perm) PTE_P);;
          if a =? last then mret 0
          else mappages_loop n pgdir (u32 (a + PGSIZE)) last (u32 (pa + PGSIZE)) perm
  end.

Definition mappages (pgdir va size pa perm : Z) : ST state Z :=
  let a := PGROUNDDOWN (u32 va) in
  let last := PGROUNDDOWN (u32 (va + size - 1)) in
  mappages_loop (S (Z.to_nat (u32 (last - a) / PGSIZE))) pgdir a last pa perm.

(** The loop of [deallocuvm]. *)
Fixpoint deallocuvm_loop (fuel : nat) (pgdir a oldsz : Z) : ST state unit :=
  if a <? oldsz then
    match fuel with
    | O => out_of_fuel
    | S n =>
        pte ← walkpgdir pgdir a false;
        if pte =? 0 then
          deallocuvm_loop n pgdir (u32 (u32 (PGADDR (PDX a + 1) 0 0 - PGSIZE) + PGSIZE)) oldsz
        else
          e ← rd32 pte;
          (if present e then
             let pa := PTE_ADDR e in
             if pa =? 0 then panic "kfree" else pa_free (P2V pa);; wr32 pte 0
           else mret tt);;
          deallocuvm_loop n pgdir (u32 (a + PGSIZE)) oldsz
    end
  else mret tt.

Definition deallocuvm (pgdir oldsz newsz : Z) : ST state Z :=
  if oldsz <=? newsz then mret oldsz
  else
    let a := PGROUNDUP newsz in
    deallocuvm_loop (Z.to_nat (oldsz / PGSIZE + 1)) pgdir a oldsz;;
    mret newsz.

(** The page tables of the directory, from entry [i] on. *)
Fixpoint freevm_loop (n : nat) (pgdir i : Z) : ST state unit :=
  match n with
  | O => mret tt
  | S n' =>
      e ← rd32 (pgdir + 4 * i);
      (if present e then pa_free (P2V (PTE_ADDR e)) else mret tt);;
      freevm_loop n' pgdir (i + 1)
  end.

Definition freevm (pgdir : Z) : ST state unit :=
  if pgdir =? 0 then panic "freevm: no pgdir"
  else
    deallocuvm pgdir KERNBASE 0;;
    freevm_loop (Z.to_nat NPDENTRIES) pgdir 0;;
    pa_free pgdir.

Record kmap_entry := mkkmap { virt : Z; phys_start : Z; phys_end : Z; kperm : Z }.

Definition kmap : list kmap_entry :=
  [ mkkmap KERNBASE 0 EXTMEM PTE_W;
    mkkmap KERNLINK (V2P KERNLINK) (V2P kdata) 0;
    mkkmap kdata (V2P kdata) PHYSTOP PTE_W;
    mkkmap DEVSPACE DEVSPACE 0 PTE_W ].

Fixpoint setupkvm_loop (ks : list kmap_entry) (pgdir : Z) : ST state Z :=
  match ks with
  | [] => mret pgdir
  | k :: ks' =>
      r ← mappages pgdir (virt k) (u32 (phys_end k - phys_start k)) (phys_start k) (kperm k);
      if r <? 0 then freevm pgdir;; mret 0 else setupkvm_loop ks' pgdir
  end.

Definition setupkvm : ST state Z :=
  pgdir ← pa_alloc;
  if pgdir =? 0 then mret 0
  else
    onmem (memset pgdir 0 (Z.to_nat PGSIZE));;
    if DEVSPACE <? P2V PHYSTOP then panic "PHYSTOP too high"
    else setupkvm_loop kmap pgdir.

(** [init] is the address of the initial program in the kernel's memory. *)
Definition inituvm (pgdir init sz : Z) : ST state unit :=
  if PGSIZE <=? sz then panic "inituvm: more than a page"
  else
    p ← pa_alloc;
    onmem (memset p 0 (Z.to_nat PGSIZE));;
    mappages pgdir 0 PGSIZE (V2P p) (Z.lor PTE_W PTE_U);;
    onmem (memmove p init (Z.to_nat sz)).

(** [readi ip dst off n] is the file system's [readi]. *)
Fixpoint loaduvm_loop (readi : Z -> Z -> Z -> Z -> ST state Z) (fuel : nat) (pgdir addr ip offset sz i : Z)
    : ST state Z :=
  if i <? sz then
    match fuel with
    | O => out_of_fuel
    | S f =>
        pte ← walkpgdir pgdir (u32 (addr + i)) false;
        if pte =? 0 then panic "loaduvm: address should exist"
        else
          e ← rd32 pte;
          let pa := PTE_ADDR e in
          let n := if sz - i <? PGSIZE then sz - i else PGSIZE in
          r ← readi ip (P2V pa) (u32 (offset + i)) n;
          if negb (r =? n) then mret (-1)
          else loaduvm_loop readi f pgdir addr ip offset sz (u32 (i + PGSIZE))
    end
  else mret 0.

Definition loaduvm (readi : Z -> Z -> Z -> Z -> ST state Z) (pgdir addr ip offset sz : Z) : ST state Z :=
  if negb (addr mod PGSIZE =? 0) then panic "loaduvm: addr must be page aligned"
  else loaduvm_loop readi (Z.to_nat (sz / PGSIZE + 1)) pgdir addr ip offset sz 0.

Fixpoint allocuvm_loop (fuel : nat) (pgdir a oldsz newsz : Z) : ST state Z :=
  if a <? newsz then
    match fuel with
    | O => out_of_fuel
    | S n =>
        p ← pa_alloc;
        if p =? 0 then deallocuvm pgdir newsz oldsz;; mret 0
        else
          onmem (memset p 0 (Z.to_nat PGSIZE));;
          r ← mappages pgdir a PGSIZE (V2P p) (Z.lor PTE_W PTE_U);
          if r <? 0 then deallocuvm pgdir newsz oldsz;; pa_free p;; mret 0
          else allocuvm_loop n pgdir (u32 (a + PGSIZE)) oldsz newsz
    end
  else mret newsz.

Definition allocuvm (pgdir oldsz newsz : Z) : ST state Z :=
  if KERNBASE <=? newsz then mret 0
  else if newsz <? oldsz then mret oldsz
  else allocuvm_loop (Z.to_nat (newsz / PGSIZE + 1)) pgdir (PGROUNDUP oldsz) oldsz newsz.

Definition clearpteu (pgdir uva : Z) : ST state unit :=
  pte ← walkpgdir pgdir uva false;
  if pte =? 0 then panic "clearpteu"
  else e ← rd32 pte; wr32 pte (Z.land e (not32 PTE_U)).

Fixpoint copyuvm_loop (fuel : nat) (pgdir d sz i : Z) : ST state Z :=
  if i <? sz then
    match fuel with
    | O => out_of_fuel
    | S n =>
        pte ← walkpgdir pgdir i false;
        if pte =? 0 then panic "copyuvm: pte should exist"
        else
          e ← rd32 pte;
          if negb (present e) then panic "copyuvm: page not present"
          else
            let pa := PTE_ADDR e in
            let flags := PTE_FLAGS e in
            p ← pa_alloc;
            if p =? 0 then freevm d;; mret 0
            else
              onmem (memmove p (P2V pa) (Z.to_nat PGSIZE));;
              r ← mappages d i PGSIZE (V2P p) flags;
              if r <? 0 then pa_free p;; freevm d;; mret 0
              else copyuvm_loop n pgdir d sz (u32 (i + PGSIZE))
    end
  else mret d.

Definition copyuvm (pgdir sz : Z) : ST state Z :=
  d ← setupkvm;
  if d =? 0 then mret 0
  else copyuvm_loop (Z.to_nat (sz / PGSIZE + 1)) pgdir d sz 0.

Definition uva2ka (pgdir uva : Z) : ST state Z :=
  pte ← walkpgdir pgdir uva false;
  e ← rdpte pte;
  if Z.land e PTE_P =? 0 then mret 0
  else if Z.land e PTE_U =? 0 then mret 0
  else mret (P2V (PTE_ADDR e)).

Fixpoint copyout_loop (fuel : nat) (pgdir va buf len : Z) : ST state Z :=
  if 0 <? len then
    match fuel with
    | O => out_of_fuel
    | S f =>
        let va0 := PGROUNDDOWN va in
        pa0 ← uva2ka pgdir va0;
        if pa0 =? 0 then mret (-1)
        else
          let n := PGSIZE - (va - va0) in
          let n := if len <? n then len else n in
          onmem (memmove (pa0 + (va - va0)) buf (Z.to_nat n));;
          copyout_loop f pgdir (u32 (va0 + PGSIZE)) (buf + n) (len - n)
    end
  else mret 0.

Definition copyout (pgdir va p len : Z) : ST state Z :=
  copyout_loop (Z.to_nat (len / PGSIZE + 2)) pgdir va p len.

End Code.

End Vm.
