(* ===== verification/VmSpec.v ===== *)
(** * Page tables as maps from page numbers to entries

    [aspace m pg T M]: in memory [m] the directory at [pg] has the page tables
    [T] and maps page number [v] to the entry [M v] (0 where there is none).
    [vm] adds the page allocator, to which all the pages of the tables belong
    without being free.  Sets of pages are predicates. *)

From Stdlib Require Import ZArith Lia.
From stdpp Require Import base numbers strings list gmap.
From S2P Require Import Prelude Mmu Mem Cstring Kalloc Vm.

Open Scope Z_scope.

Import Mmu Mem Cstring Kalloc Vm.

Module VmSpec.

(** ** Pages *)

Definition page_of (x : Z) : Z := 4096 * (x / 4096).

Definition is_page (p : Z) : Prop := p mod 4096 = 0 /\ KERNBASE < p /\ p + 4096 <= 2 ^ 32.

(** Only the pages in [S] differ. *)
Definition touches (S : Z -> Prop) (m m' : mem) : Prop := forall x, ~ S (page_of x) -> m' x = m x.

Definition entry (m : mem) (p i : Z) : Z := load32 m (p + 4 * i).

Lemma page_of_in p x : p mod 4096 = 0 -> (page_of x = p <-> p <= x < p + 4096).
Proof. intros H. unfold page_of. Z.to_euclidean_division_equations; lia. Qed.

Lemma touches_refl S m : touches S m m.
Proof. done. Qed.

Lemma touches_mono (S S' : Z -> Prop) m m' : (forall p, S p -> S' p) -> touches S m m' -> touches S' m m'.
Proof. intros H Ht x Hx. apply Ht. intros Hs. by apply Hx, H. Qed.

Lemma touches_trans S m1 m2 m3 : touches S m1 m2 -> touches S m2 m3 -> touches S m1 m3.
Proof. intros H1 H2 x Hx. by rewrite (H2 x Hx), (H1 x Hx). Qed.

Lemma page_mod p : is_page p -> p mod 4096 = 0.
Proof. by intros []. Qed.

Lemma page_of_entry p i k : is_page p -> 0 <= i < 1024 -> 0 <= k < 4 -> page_of (p + 4 * i + k) = p.
Proof. intros Hp Hi Hk. apply page_of_in; [by apply page_mod|]. lia. Qed.

Lemma touches_entry S m m' p i :
  touches S m m' -> is_page p -> ~ S p -> 0 <= i < 1024 -> entry m' p i = entry m p i.
Proof.
  intros Ht Hp HS Hi. apply load32_ext. intros x Hx. apply Ht.
  replace x with (p + 4 * i + (x - (p + 4 * i))) by lia. rewrite page_of_entry by (done || lia). done.
Qed.

Lemma touches_store p i e m :
  is_page p -> 0 <= i < 1024 -> touches (eq p) m (store32 (p + 4 * i) e m).
Proof.
  intros Hp Hi x Hx. apply store32_ne. intros Hr. apply Hx. symmetry.
  replace x with (p + 4 * i + (x - (p + 4 * i))) by lia. apply page_of_entry; done || lia.
Qed.

Lemma touches_memset p c m : is_page p -> touches (eq p) m (memset p c (Z.to_nat PGSIZE) m).
Proof.
  intros Hp x Hx. rewrite memset_spec. change (Z.of_nat (Z.to_nat PGSIZE)) with 4096.
  rewrite decide_False; [done|]. intros Hr. apply Hx. symmetry. apply page_of_in; [by apply page_mod|done].
Qed.

Lemma entry_memset p m i : is_page p -> 0 <= i < 1024 -> entry (memset p 0 (Z.to_nat PGSIZE) m) p i = 0.
Proof.
  intros Hp Hi. unfold entry, load32. rewrite !memset_spec. change (Z.of_nat (Z.to_nat PGSIZE)) with 4096.
  rewrite !decide_True by lia. done.
Qed.

Lemma entry_store_eq p i e m : entry (store32 (p + 4 * i) e m) p i = u32 e.
Proof. apply load32_store32_eq. Qed.

Lemma entry_store_ne p i j e m : i <> j -> entry (store32 (p + 4 * i) e m) p j = entry m p j.
Proof. intros H. apply load32_store32_ne. lia. Qed.

(** ** Entries *)

Lemma present_spec e : present e = negb (e mod 2 =? 0).
Proof. unfold present, PTE_P. change 1 with (Z.ones 1) at 1. by rewrite Z.land_ones by lia. Qed.

Lemma lor_low pa f : pa mod 4096 = 0 -> 0 <= f < 4096 -> Z.lor pa f = pa + f.
Proof.
  intros Hpa Hf. replace pa with (Z.shiftl (pa / 4096) 12) at 1.
  - rewrite lor_shiftl_add by (change (2 ^ 12) with 4096; lia). change (2 ^ 12) with 4096.
    Z.to_euclidean_division_equations; lia.
  - rewrite Z.shiftl_mul_pow2 by lia. change (2 ^ 12) with 4096. Z.to_euclidean_division_equations; lia.
Qed.

Lemma lor_1_range f : 0 <= f < 4096 -> 0 <= Z.lor f 1 < 4096 /\ Z.lor f 1 mod 2 = 1.
Proof.
  intros Hf. split.
  - split; [apply Z.lor_nonneg; lia|]. change 4096 with (2 ^ 12).
    destruct (decide (Z.lor f 1 = 0)) as [->|Hne]; [lia|].
    apply Z.log2_lt_pow2; [pose proof (proj2 (Z.lor_nonneg f 1)); lia|].
    rewrite Z.log2_lor by lia. apply Z.max_lub_lt; [|by simpl].
    destruct (decide (f = 0)) as [->|]; [by simpl|]. apply Z.log2_lt_pow2; lia.
  - rewrite <- (land_ones_mod _ 1) by lia. apply Z.bits_inj'. intros j Hj.
    change (Z.ones 1) with 1. rewrite Z.land_spec, Z.lor_spec.
    destruct (Z.testbit 1 j), (Z.testbit f j); done.
Qed.

(** The entry for the page at physical address [pa]. *)
Definition mkpte (pa perm : Z) : Z := pa + Z.lor perm PTE_P.

Lemma mkpte_eq pa perm : pa mod 4096 = 0 -> 0 <= perm < 4096 ->
  Z.lor (Z.lor pa perm) PTE_P = mkpte pa perm.
Proof.
  intros Hpa Hp. rewrite <- Z.lor_assoc. apply lor_low; [done|]. by apply lor_1_range.
Qed.

Lemma mkpte_present pa perm : pa mod 4096 = 0 -> 0 <= perm < 4096 -> present (mkpte pa perm) = true.
Proof.
  intros Hpa Hp. rewrite present_spec. destruct (lor_1_range perm Hp) as [_ Hodd]. unfold mkpte, PTE_P.
  replace ((pa + Z.lor perm 1) mod 2) with 1; [done|].
  rewrite Z.add_mod by lia. rewrite Hodd. replace (pa mod 2) with 0; [done|].
  Z.to_euclidean_division_equations; lia.
Qed.

Lemma mkpte_addr pa perm : pa mod 4096 = 0 -> 0 <= pa -> pa + 4096 <= 2 ^ 32 -> 0 <= perm < 4096 ->
  PTE_ADDR (mkpte pa perm) = pa /\ 0 <= mkpte pa perm < 2 ^ 32 /\ PTE_FLAGS (mkpte pa perm) = Z.lor perm PTE_P.
Proof.
  intros Hpa H0 H1 Hp. destruct (lor_1_range perm Hp) as [Hr _]. unfold mkpte, PTE_P in *.
  rewrite PTE_ADDR_spec, PTE_FLAGS_spec by lia. split; [|split; [lia|]];
    Z.to_euclidean_division_equations; lia.
Qed.

(** A directory entry. *)
Definition mkpde (t : Z) : Z := t - KERNBASE + 7.

Lemma mkpde_eq t : is_page t -> Z.lor (Z.lor (Z.lor (V2P t) PTE_P) PTE_W) PTE_U = mkpde t.
Proof.
  intros (Ha & H0 & H1). rewrite V2P_spec by lia. rewrite <- !Z.lor_assoc.
  change (Z.lor PTE_P (Z.lor PTE_W PTE_U)) with 7. apply lor_low; [|lia].
  unfold KERNBASE. Z.to_euclidean_division_equations; lia.
Qed.

Lemma mkpde_spec t : is_page t ->
  present (mkpde t) = true /\ P2V (PTE_ADDR (mkpde t)) = t /\ 0 <= mkpde t < 2 ^ 32.
Proof.
  intros (Ha & H0 & H1). unfold mkpde, KERNBASE in *.
  assert (Hr : 0 <= t - 2147483648 + 7 < 2 ^ 32) by lia. split; [|split; [|done]].
  - rewrite present_spec. replace ((t - 2147483648 + 7) mod 2) with 1; [done|].
    Z.to_euclidean_division_equations; lia.
  - rewrite PTE_ADDR_spec by done.
    replace (4096 * ((t - 2147483648 + 7) / 4096)) with (t - 2147483648)
      by (Z.to_euclidean_division_equations; lia).
    rewrite P2V_spec by (unfold KERNBASE; lia). unfold KERNBASE. lia.
Qed.

(** ** Address spaces *)

Record aspace (m : mem) (pg : Z) (T : gmap Z Z) (M : Z -> Z) : Prop := {
  a_pg : is_page pg;
  a_tab : forall i t, T !! i = Some t -> 0 <= i < 1024 /\ is_page t /\ t <> pg;
  a_inj : forall i j t, T !! i = Some t -> T !! j = Some t -> i = j;
  a_dir : forall i, 0 <= i < 1024 -> entry m pg i = match T !! i with Some t => mkpde t | None => 0 end;
  a_map : forall v, 0 <= v < 2 ^ 20 ->
    M v = match T !! (v / 1024) with Some t => entry m t (v mod 1024) | None => 0 end
}.

(** The pages of the tables. *)
Definition tab (pg : Z) (T : gmap Z Z) (p : Z) : Prop := p = pg \/ exists i, T !! i = Some p.

Lemma tab_page m pg T M p : aspace m pg T M -> tab pg T p -> is_page p.
Proof. intros Ha [->|[i Hi]]; [apply Ha|by eapply a_tab]. Qed.

Lemma aspace_frame m m' S pg T M :
  aspace m pg T M -> touches S m m' -> (forall p, tab pg T p -> ~ S p) -> aspace m' pg T M.
Proof.
  intros [Hpg Htab Hinj Hdir Hmap] Ht HS. split; [done|done|done| |].
  - intros i Hi. rewrite (touches_entry S m m') by (done || (apply HS; by left)). by apply Hdir.
  - intros v Hv. rewrite Hmap by done. destruct (T !! (v / 1024)) as [t|] eqn:E; [|done].
    destruct (Htab _ _ E) as (_ & Hp & _). symmetry.
    apply (touches_entry S m m'); [done|done|apply HS; right; eauto|apply Z.mod_pos_bound; lia].
Qed.

(** Storing an entry. *)
Lemma aspace_store m pg T M v t e :
  aspace m pg T M -> 0 <= v < 2 ^ 20 -> T !! (v / 1024) = Some t ->
  aspace (store32 (t + 4 * (v mod 1024)) e m) pg T (fun w => if w =? v then u32 e else M w).
Proof.
  intros [Hpg Htab Hinj Hdir Hmap] Hv Ht. destruct (Htab _ _ Ht) as (_ & Hp & Hne).
  pose proof (Z.mod_pos_bound v 1024 ltac:(lia)) as Hm.
  pose proof (touches_store t (v mod 1024) e m Hp Hm) as Hto.
  split; [done|done|done| |].
  - intros i Hi. rewrite (touches_entry (eq t) m) by done. by apply Hdir.
  - intros w Hw. destruct (Z.eqb_spec w v) as [->|Hwv]; [by rewrite Ht, entry_store_eq|].
    rewrite Hmap by done. destruct (T !! (w / 1024)) as [t'|] eqn:E; [|done].
    destruct (decide (t' = t)) as [->|Hne'].
    + rewrite entry_store_ne; [done|]. pose proof (Hinj _ _ _ E Ht). Z.to_euclidean_division_equations; lia.
    + symmetry. destruct (Htab _ _ E) as (_ & Hp' & _).
      apply (touches_entry (eq t) m); [done|done|congruence|apply Z.mod_pos_bound; lia].
Qed.

(** Adding a page table. *)
Lemma aspace_add m pg T M i t :
  aspace m pg T M -> 0 <= i < 1024 -> T !! i = None -> is_page t -> ~ tab pg T t ->
  aspace (store32 (pg + 4 * i) (mkpde t) (memset t 0 (Z.to_nat PGSIZE) m)) pg (<[i := t]> T) M.
Proof.
  intros Ha Hi HT Hp Hnt. pose proof Ha as [Hpg Htab Hinj Hdir Hmap].
  set (m1 := memset t 0 (Z.to_nat PGSIZE) m).
  assert (Hpgt : t <> pg) by (intros ->; apply Hnt; by left).
  assert (H1 : aspace m1 pg T M).
  { apply (aspace_frame m m1 (eq t)); [done|by apply touches_memset|]. intros p Htp <-. done. }
  pose proof (touches_store pg i (mkpde t) m1 Hpg Hi) as Hto.
  split; [done| | | |].
  - intros j t' [[<- <-]|[? ?]]%lookup_insert_Some; [done|by apply (Htab j)].
  - intros j k t'. rewrite !lookup_insert_Some. intros [[<- <-]|[? Hj]] [[<- Hk]|[? Hk]].
    + done.
    + destruct Hnt. right. eauto.
    + subst t'. destruct Hnt. right. eauto.
    + by eapply Hinj.
  - intros j Hj. destruct (decide (j = i)) as [->|Hji].
    + rewrite lookup_insert_eq, entry_store_eq. apply u32_small. by apply mkpde_spec.
    + rewrite lookup_insert_ne, entry_store_ne by done. by apply (a_dir _ _ _ _ H1).
  - intros v Hv. destruct (decide (v / 1024 = i)) as [E|E].
    + rewrite E, lookup_insert_eq, Hmap, E, HT by done. symmetry.
      rewrite (touches_entry (eq pg) m1) by (done || congruence || (apply Z.mod_pos_bound; lia)).
      apply entry_memset; [done|apply Z.mod_pos_bound; lia].
    + rewrite lookup_insert_ne by done. rewrite (a_map _ _ _ _ H1) by done.
      destruct (T !! (v / 1024)) as [t'|] eqn:E'; [|done]. destruct (Htab _ _ E') as (_ & Hp' & Hne').
      symmetry. apply (touches_entry (eq pg) m1); [done|done|congruence|apply Z.mod_pos_bound; lia].
Qed.

(** ** With the page allocator *)

#[local] Opaque memset store32 load32.

Section Alloc.

Context {A : Type} `{!PageAlloc A}.

Record vm (a : A) (m : mem) (Fr : gset Z) (pg : Z) (T : gmap Z Z) (M : Z -> Z) : Prop := {
  vm_alloc : pa_inv a m Fr;
  vm_byte : byte_ok m;
  vm_as : aspace m pg T M;
  vm_tab : forall p, tab pg T p -> pa_managed a p /\ p ∉ Fr
}.

Definition same_managed (a a' : A) : Prop := forall p, pa_managed a' p <-> pa_managed a p.

Lemma same_managed_trans a1 a2 a3 : same_managed a1 a2 -> same_managed a2 a3 -> same_managed a1 a3.
Proof. intros H1 H2 p. by rewrite (H2 p). Qed.

Lemma managed_page a m Fr p : pa_inv a m Fr -> pa_managed a p -> is_page p.
Proof. apply pa_page. Qed.

Lemma free_page a m Fr p : pa_inv a m Fr -> p ∈ Fr -> is_page p.
Proof. intros Hi Hp. eapply managed_page; [done|]. by eapply pa_free_managed. Qed.

Lemma inv_touches a m m' Fr S :
  pa_inv a m Fr -> touches S m m' -> (forall p, p ∈ Fr -> ~ S p) -> pa_inv a m' Fr.
Proof.
  intros Hi Ht HS. eapply pa_frame; [done|]. intros p x Hp Hx. apply Ht.
  pose proof (free_page _ _ _ _ Hi Hp) as Hpg.
  rewrite (proj2 (page_of_in p x (page_mod p Hpg))); [by apply HS|done].
Qed.

Lemma vm_frame a m m' Fr pg T M S :
  vm a m Fr pg T M -> touches S m m' -> byte_ok m' ->
  (forall p, p ∈ Fr \/ tab pg T p -> ~ S p) -> vm a m' Fr pg T M.
Proof.
  intros [Hi Hby Ha Ht] Hto Hby' HS. split; [|done|by eapply aspace_frame; eauto|done].
  eapply inv_touches; eauto.
Qed.

(** The pages that are free or in the tables: nothing is lost. *)
Definition same_pages (Fr : gset Z) (pg : Z) (T : gmap Z Z) (Fr' : gset Z) (T' : gmap Z Z) : Prop :=
  forall p, p ∈ Fr' \/ tab pg T' p <-> p ∈ Fr \/ tab pg T p.

Lemma walk_noalloc a m pg T M va :
  aspace m pg T M -> 0 <= va < 2 ^ 32 ->
  walkpgdir pg va false (a, m)
    = Ok (match T !! (va / 4096 / 1024) with Some t => t + 4 * ((va / 4096) mod 1024) | None => 0 end, (a, m)).
Proof.
  intros [Hpg Htab Hinj Hdir Hmap] Hva. unfold walkpgdir.
  assert (HP : PDX va = va / 4096 / 1024) by (rewrite PDX_spec by done; by rewrite Z.div_div by lia).
  assert (Hi : 0 <= va / 4096 / 1024 < 1024) by (Z.to_euclidean_division_equations; lia).
  rewrite (run_bind _ _ _ (entry m pg (PDX va)) (a, m)) by done.
  rewrite HP, Hdir, PTX_spec by done. destruct (T !! (va / 4096 / 1024)) as [t|] eqn:E; [|done].
  destruct (Htab _ _ E) as (_ & Hp & _). destruct (mkpde_spec t Hp) as (-> & -> & _). done.
Qed.

Lemma walk_alloc a m Fr pg T M va :
  vm a m Fr pg T M -> 0 <= va < 2 ^ 32 ->
  exists r a' m' Fr' T', walkpgdir pg va true (a, m) = Ok (r, (a', m')) /\
    vm a' m' Fr' pg T' M /\ same_managed a a' /\ same_pages Fr pg T Fr' T' /\ touches (tab pg T') m m' /\
    T ⊆ T' /\
    ((r = 0 /\ Fr' = ∅ /\ T' = T) \/
     (exists t, T' !! (va / 4096 / 1024) = Some t /\ r = t + 4 * ((va / 4096) mod 1024))).
Proof.
  intros [Hi Hby Ha Ht] Hva. pose proof Ha as [Hpg Htab Hinj Hdir Hmap].
  assert (HP : PDX va = va / 4096 / 1024) by (rewrite PDX_spec by done; by rewrite Z.div_div by lia).
  assert (Hidx : 0 <= va / 4096 / 1024 < 1024) by (Z.to_euclidean_division_equations; lia).
  unfold walkpgdir. rewrite (run_bind _ _ _ (entry m pg (PDX va)) (a, m)) by done.
  rewrite HP, Hdir, PTX_spec by done. set (i := va / 4096 / 1024) in *. set (j := (va / 4096) mod 1024).
  destruct (T !! i) as [t|] eqn:E.
  { destruct (Htab _ _ E) as (_ & Hp & _). destruct (mkpde_spec t Hp) as (-> & -> & _).
    exists (t + 4 * j), a, m, Fr, T. split; [done|]. split; [done|]. split; [done|]. split; [done|].
    split; [done|]. split; [done|]. right. eauto. }
  change (present 0) with false. cbn [negb].
  destruct (pa_alloc_ok a m Fr Hi) as (r & a' & Hrun & Hman & Hres).
  rewrite (run_bind _ _ _ _ _ Hrun). destruct Hres as [(-> & -> & Hi')|[Hr Hi']].
  { exists 0, a', m, ∅, T. split; [done|]. split; [split; [done|done|done|]|].
    - intros p Hp. rewrite (Hman p). by apply Ht.
    - split; [done|]. split; [done|]. split; [done|]. split; [done|]. by left. }
  pose proof (free_page _ _ _ _ Hi Hr) as Hrp.
  assert (Hrt : ~ tab pg T r) by (intros Hp; by apply Ht in Hp as [_ ?]).
  assert ((r =? 0) = false) as ->.
  { apply Z.eqb_neq. destruct Hrp as (_ & ? & _). unfold KERNBASE in *. lia. }
  rewrite mkpde_eq by done.
  set (m1 := memset r 0 (Z.to_nat PGSIZE) m). set (m2 := store32 (pg + 4 * i) (mkpde r) m1).
  exists (r + 4 * j), a', m2, (Fr ∖ {[r]}), (<[i := r]> T). split; [done|].
  assert (Htab' : forall p, tab pg (<[i := r]> T) p <-> p = r \/ tab pg T p).
  { intros p. unfold tab. split.
    - intros [->|[k [[<- ->]|[? ?]]%lookup_insert_Some]]; eauto.
    - intros [->|[->|[k Hk]]]; [right; exists i; apply lookup_insert_eq|by left|].
      right. exists k. rewrite lookup_insert_ne; [done|congruence]. }
  assert (Hto : touches (tab pg (<[i := r]> T)) m m2).
  { apply (touches_trans _ m m1 m2).
    - apply (touches_mono (eq r)); [|by apply touches_memset]. intros p <-. apply Htab'. by left.
    - apply (touches_mono (eq pg)); [|by apply touches_store]. intros p <-. by left. }
  split; [split| split; [done|split; [|split; [done|split]]]].
  - eapply inv_touches; [exact Hi'|exact Hto|]. intros p Hp [->|Hp']%Htab'; [set_solver|].
    apply Ht in Hp' as [_ ?]. set_solver.
  - by apply store32_byte_ok, memset_byte_ok.
  - by apply aspace_add.
  - intros p [->|Hp]%Htab'; rewrite (Hman _); [split; [by eapply pa_free_managed|set_solver]|].
    apply Ht in Hp as [? ?]. set_solver.
  - intros p. rewrite Htab'. destruct (decide (p = r)) as [->|]; [tauto|]. set_solver.
  - by apply insert_subseteq.
  - right. exists r. split; [apply lookup_insert_eq|done].
Qed.

(** Storing the entry of page [v]. *)
Lemma vm_store a m Fr pg T M v t e :
  vm a m Fr pg T M -> 0 <= v < 2 ^ 20 -> T !! (v / 1024) = Some t -> 0 <= e < 2 ^ 32 ->
  vm a (store32 (t + 4 * (v mod 1024)) e m) Fr pg T (fun w => if w =? v then e else M w) /\
  touches (tab pg T) m (store32 (t + 4 * (v mod 1024)) e m).
Proof.
  intros [Hi Hby Ha Ht] Hv E He. destruct (a_tab _ _ _ _ Ha _ _ E) as (_ & Hp & _).
  assert (Htt : tab pg T t) by (right; eauto).
  assert (Hto : touches (tab pg T) m (store32 (t + 4 * (v mod 1024)) e m)).
  { apply (touches_mono (eq t)); [by intros p <-|]. apply touches_store; [done|apply Z.mod_pos_bound; lia]. }
  split; [|done]. split; [| | |done].
  - eapply inv_touches; [done|exact Hto|]. intros p Hp' [_ ?]%Ht. done.
  - by apply store32_byte_ok.
  - pose proof (aspace_store m pg T M v t e Ha Hv E) as Ha'. rewrite u32_small in Ha' by done. done.
Qed.

Lemma vm_ext a m Fr pg T M M' : vm a m Fr pg T M -> (forall v, 0 <= v < 2 ^ 20 -> M' v = M v) -> vm a m Fr pg T M'.
Proof.
  intros [Hi Hby [Hpg Htab Hinj Hdir Hmap] Ht] HM. split; [done|done| |done]. split; try done.
  intros v Hv. rewrite HM by done. by apply Hmap.
Qed.

(** [M] with the pages from [v] on mapped to [pa]. *)
Definition mapped (M : Z -> Z) (v n pa perm : Z) : Z -> Z :=
  fun w => if (v <=? w) && (w <? v + n) then mkpte (pa + 4096 * (w - v)) perm else M w.

Lemma mappages_step n pg a last pa perm :
  mappages_loop (S n) pg a last pa perm =
    (pte ← walkpgdir pg a true;
     if pte =? 0 then mret (-1)
     else
       e ← rd32 pte;
       if present e then panic "remap"
       else
         wr32 pte (Z.lor (Z.lor pa perm) PTE_P);;
         if a =? last then mret 0
         else mappages_loop n pg (u32 (a + PGSIZE)) last (u32 (pa + PGSIZE)) perm).
Proof. done. Qed.

Lemma mappages_loop_spec pg perm fuel : forall a m Fr T M v pa,
  vm a m Fr pg T M -> 0 <= v -> v + Z.of_nat (S fuel) <= 2 ^ 20 ->
  pa mod 4096 = 0 -> 0 <= pa -> pa + 4096 * Z.of_nat (S fuel) <= 2 ^ 32 -> 0 <= perm < 4096 ->
  (forall w, v <= w < v + Z.of_nat (S fuel) -> present (M w) = false) ->
  exists r a' m' Fr' T' k,
    mappages_loop (S fuel) pg (4096 * v) (4096 * (v + Z.of_nat fuel)) pa perm (a, m) = Ok (r, (a', m')) /\
    vm a' m' Fr' pg T' (mapped M v k pa perm) /\ same_managed a a' /\ same_pages Fr pg T Fr' T' /\
    touches (tab pg T') m m' /\ T ⊆ T' /\
    ((r = 0 /\ k = Z.of_nat (S fuel)) \/ (r = -1 /\ 0 <= k < Z.of_nat (S fuel) /\ Fr' = ∅ /\ (k = 0 -> T' = T))).
Proof.
  induction fuel as [|fuel IH]; intros a m Fr T M v pa Hvm Hv Hvn Hpa Hpa0 Hpan Hperm Hfree;
    rewrite mappages_step.
  all: destruct (walk_alloc a m Fr pg T M (4096 * v) Hvm ltac:(lia))
    as (r & a1 & m1 & Fr1 & T1 & Hrun & Hvm1 & Hman1 & Hsp1 & Hto1 & Hsub1 & Hres).
  all: replace (4096 * v / 4096) with v in Hres by (rewrite Z.mul_comm, Z.div_mul; lia).
  all: rewrite (run_bind _ _ _ _ _ Hrun); destruct Hres as [(-> & HF & ->)|(t & E & ->)].
  1,3: exists (-1), a1, m1, Fr1, T, 0; split; [done|]; split;
    [eapply vm_ext; [done|]; intros w _; unfold mapped; destruct (Z.leb_spec v w), (Z.ltb_spec w (v + 0)); simpl; done || lia
    |repeat (split; [done|]); right; split; [done|split; [lia|done]]].
  all: destruct (a_tab _ _ _ _ (vm_as _ _ _ _ _ _ Hvm1) _ _ E) as (_ & Htp & _).
  all: assert (Hne : (t + 4 * (v mod 1024) =? 0) = false)
    by (apply Z.eqb_neq; pose proof (Z.mod_pos_bound v 1024 ltac:(lia)); destruct Htp as (_ & ? & _);
        unfold KERNBASE in *; lia).
  all: rewrite Hne.
  all: assert (He : load32 m1 (t + 4 * (v mod 1024)) = M v)
    by (rewrite (a_map _ _ _ _ (vm_as _ _ _ _ _ _ Hvm1)) by lia; by rewrite E).
  all: rewrite (run_bind _ _ _ (M v) (a1, m1)) by (unfold rd32; rewrite run_get; cbn [snd]; by rewrite He).
  all: rewrite (Hfree v ltac:(lia)), (mkpte_eq pa perm Hpa Hperm).
  all: destruct (mkpte_addr pa perm Hpa Hpa0 ltac:(lia) Hperm) as (_ & Hpr & _).
  all: destruct (vm_store a1 m1 Fr1 pg T1 M v t (mkpte pa perm) Hvm1 ltac:(lia) E Hpr) as [Hvm2 Hto2].
  all: set (m2 := store32 (t + 4 * (v mod 1024)) (mkpte pa perm) m1) in *.
  all: rewrite (run_bind _ _ _ tt (a1, m2)) by done.
  - replace (4096 * v =? 4096 * (v + Z.of_nat 0)) with true by (symmetry; apply Z.eqb_eq; lia).
    exists 0, a1, m2, Fr1, T1, 1. split; [done|]. split.
    { eapply vm_ext; [exact Hvm2|]. intros w _. unfold mapped.
      destruct (Z.leb_spec v w), (Z.ltb_spec w (v + 1)), (Z.eqb_spec w v); cbn [andb]; try lia; try done.
      subst w. f_equal. lia. }
    split; [done|]. split; [done|]. split; [by eapply touches_trans|]. split; [done|]. left. done.
  - rewrite (proj2 (Z.eqb_neq (4096 * v) (4096 * (v + Z.of_nat (S fuel))))) by lia.
    unfold PGSIZE. rewrite !u32_small by lia.
    replace (4096 * v + 4096) with (4096 * (v + 1)) by lia.
    replace (4096 * (v + Z.of_nat (S fuel))) with (4096 * ((v + 1) + Z.of_nat fuel)) by lia.
    destruct (IH a1 m2 Fr1 T1 _ (v + 1) (pa + 4096) Hvm2)
      as (r & a3 & m3 & Fr3 & T3 & k & Hrun3 & Hvm3 & Hman3 & Hsp3 & Hto3 & Hsub3 & Hres);
      try lia; try done; try (Z.to_euclidean_division_equations; lia).
    { intros w Hw. rewrite (proj2 (Z.eqb_neq w v)) by lia. apply Hfree. lia. }
    exists r, a3, m3, Fr3, T3, (k + 1). split; [exact Hrun3|]. split; [|split; [|split; [|split; [|split]]]].
    + eapply vm_ext; [exact Hvm3|]. intros w _. unfold mapped.
      destruct (Z.leb_spec v w), (Z.leb_spec (v + 1) w), (Z.ltb_spec w (v + (k + 1))),
        (Z.ltb_spec w (v + 1 + k)), (Z.eqb_spec w v); cbn [andb]; try lia; try done; f_equal; lia.
    + by eapply same_managed_trans.
    + intros p. by rewrite (Hsp3 p), (Hsp1 p).
    + eapply touches_trans; [|exact Hto3]. eapply touches_mono; [|by eapply touches_trans].
      intros p [->|[i Hi]]; [by left|right; exists i]. by eapply lookup_weaken.
    + by etransitivity.
    + destruct Hres as [[-> ->]|(-> & Hk & -> & _)]; [left|right]; (split; [done|]); [lia|].
      split; [lia|]. split; [done|lia].
Qed.

Lemma mappages_spec a m Fr pg T M v n pa perm :
  vm a m Fr pg T M -> 0 <= v -> 1 <= n -> v + n <= 2 ^ 20 ->
  pa mod 4096 = 0 -> 0 <= pa -> pa + 4096 * n <= 2 ^ 32 -> 0 <= perm < 4096 ->
  (forall w, v <= w < v + n -> present (M w) = false) ->
  exists r a' m' Fr' T' k,
    mappages pg (4096 * v) (4096 * n) pa perm (a, m) = Ok (r, (a', m')) /\
    vm a' m' Fr' pg T' (mapped M v k pa perm) /\ same_managed a a' /\ same_pages Fr pg T Fr' T' /\
    touches (tab pg T') m m' /\ T ⊆ T' /\
    ((r = 0 /\ k = n) \/ (r = -1 /\ 0 <= k < n /\ Fr' = ∅ /\ (k = 0 -> T' = T))).
Proof.
  intros Hvm Hv Hn Hvn Hpa Hpa0 Hpan Hperm Hfree. unfold mappages.
  assert (H1 : PGROUNDDOWN (u32 (4096 * v)) = 4096 * v).
  { rewrite u32_small, PGROUNDDOWN_spec by lia. Z.to_euclidean_division_equations; lia. }
  assert (H2 : PGROUNDDOWN (u32 (4096 * v + 4096 * n - 1)) = 4096 * (v + (n - 1))).
  { rewrite u32_small, PGROUNDDOWN_spec by lia. Z.to_euclidean_division_equations; lia. }
  rewrite H1, H2. replace (u32 (4096 * (v + (n - 1)) - 4096 * v) / PGSIZE) with (n - 1).
  2: { rewrite u32_small by lia. unfold PGSIZE. Z.to_euclidean_division_equations; lia. }
  pose proof (mappages_loop_spec pg perm (Z.to_nat (n - 1)) a m Fr T M v pa Hvm) as L.
  rewrite Z2Nat.id in L by lia.
  replace (Z.of_nat (S (Z.to_nat (n - 1)))) with n in L by lia. by apply L.
Qed.

End Alloc.

End VmSpec.
