(* ===== verification/VmUser.v ===== *)
(** * User address spaces

    [uspace] adds to [vm] that the frames mapped below KERNBASE are pages of the
    allocator that are neither free nor part of the tables, each mapped once.
    [own] are all the pages of an address space; the operations neither lose a
    page nor free one twice ([conserve]). *)

From Stdlib Require Import ZArith Lia.
From stdpp Require Import base numbers strings list gmap.
From S2P Require Import Prelude Mmu Mem Cstring Kalloc Vm VmSpec.

Open Scope Z_scope.

Import Mmu Mem Cstring Kalloc Vm VmSpec.

Module VmUser.

#[local] Opaque memset store32 load32 memmove.

(** User page numbers, the frame of an entry, and the pages of a size. *)
Definition uvpn (v : Z) : Prop := 0 <= v < 2 ^ 19.
Definition frame (e : Z) : Z := P2V (PTE_ADDR e).
Definition npages (sz : Z) : Z := (sz + 4095) / 4096.

(** [M] without the pages from [lo] to [hi]. *)
Definition gone (M : Z -> Z) (lo hi : Z) : Z -> Z :=
  fun w => if (lo <=? w) && (w <? hi) then 0 else M w.

Lemma gone_in M lo hi w : lo <= w < hi -> gone M lo hi w = 0.
Proof.
  intros H. unfold gone. by rewrite (proj2 (Z.leb_le lo w)), (proj2 (Z.ltb_lt w hi)) by lia.
Qed.

Lemma gone_out M lo hi w : ~ (lo <= w < hi) -> gone M lo hi w = M w.
Proof.
  intros H. unfold gone. destruct (Z.leb_spec lo w), (Z.ltb_spec w hi); cbn [andb]; done || lia.
Qed.

Lemma mapped_in M v n pa perm w : v <= w < v + n -> mapped M v n pa perm w = mkpte (pa + 4096 * (w - v)) perm.
Proof.
  intros H. unfold mapped. by rewrite (proj2 (Z.leb_le v w)), (proj2 (Z.ltb_lt w (v + n))) by lia.
Qed.

Lemma mapped_out M v n pa perm w : ~ (v <= w < v + n) -> mapped M v n pa perm w = M w.
Proof.
  intros H. unfold mapped. destruct (Z.leb_spec v w), (Z.ltb_spec w (v + n)); cbn [andb]; done || lia.
Qed.

Section User.

Context {A : Type} `{!PageAlloc A}.

Record uspace (a : A) (m : mem) (Fr : gset Z) (pg : Z) (T : gmap Z Z) (M : Z -> Z) : Prop := {
  us_vm : vm a m Fr pg T M;
  us_frame : forall v, uvpn v -> present (M v) = true ->
    pa_managed a (frame (M v)) /\ (frame (M v) ∉ Fr) /\ ~ tab pg T (frame (M v));
  us_inj : forall v w, uvpn v -> uvpn w -> present (M v) = true -> present (M w) = true ->
    frame (M v) = frame (M w) -> v = w;
  us_none : forall v, uvpn v -> present (M v) = false -> M v = 0
}.

(** The pages of the address space. *)
Definition own (pg : Z) (T : gmap Z Z) (M : Z -> Z) (p : Z) : Prop :=
  tab pg T p \/ exists v, uvpn v /\ present (M v) = true /\ p = frame (M v).

Definition conserve (Fr : gset Z) (pg : Z) (T : gmap Z Z) (M : Z -> Z)
    (Fr' : gset Z) (T' : gmap Z Z) (M' : Z -> Z) : Prop :=
  forall p, p ∈ Fr' \/ own pg T' M' p <-> p ∈ Fr \/ own pg T M p.

Lemma uspace_own a m Fr pg T M p : uspace a m Fr pg T M -> own pg T M p -> pa_managed a p /\ p ∉ Fr.
Proof.
  intros [Hvm Hf _ _] [Ht|(v & Hv & Hp & ->)]; [by eapply vm_tab|].
  destruct (Hf v Hv Hp) as (? & ? & _). done.
Qed.

Lemma uspace_ext a m Fr pg T M M' :
  uspace a m Fr pg T M -> (forall v, 0 <= v < 2 ^ 20 -> M' v = M v) -> uspace a m Fr pg T M'.
Proof.
  intros [Hvm Hf Hi Hn] HM. assert (HU : forall v, uvpn v -> M' v = M v) by (intros v ?; apply HM; unfold uvpn in *; lia).
  split; [by eapply vm_ext| | |].
  - intros v Hv. rewrite HU by done. by apply Hf.
  - intros v w Hv Hw. rewrite !HU by done. by apply Hi.
  - intros v Hv. rewrite HU by done. by apply Hn.
Qed.

Lemma own_ext pg T M M' p : (forall v, uvpn v -> M' v = M v) -> own pg T M' p <-> own pg T M p.
Proof.
  intros HM. unfold own. split; (intros [?|(v & Hv & Hp & ->)]; [by left|right; exists v]).
  - by rewrite (HM v Hv) in *.
  - by rewrite (HM v Hv) in *.
Qed.

Lemma uspace_frame a m m' Fr pg T M S :
  uspace a m Fr pg T M -> touches S m m' -> byte_ok m' ->
  (forall p, p ∈ Fr \/ tab pg T p -> ~ S p) -> uspace a m' Fr pg T M.
Proof. intros [Hvm Hf Hi Hn] Ht Hby HS. split; [|done|done|done]. by eapply vm_frame. Qed.

(** ** Unmapping *)

Lemma frame_nonzero a m Fr pg T M v :
  uspace a m Fr pg T M -> uvpn v -> present (M v) = true -> (PTE_ADDR (M v) =? 0) = false.
Proof.
  intros Hu Hv Hp. apply Z.eqb_neq. intros E.
  destruct (us_frame _ _ _ _ _ _ Hu v Hv Hp) as (Hm & _). unfold frame in Hm. rewrite E in Hm.
  destruct (managed_page _ _ _ _ (vm_alloc _ _ _ _ _ _ (us_vm _ _ _ _ _ _ Hu)) Hm) as (_ & Hlt & _).
  vm_compute in Hlt. done.
Qed.

Lemma present_0 : present 0 = false.
Proof. done. Qed.

(** Freeing the frame of page [v] and clearing its entry. *)
Lemma unmap_page a m Fr pg T M v t :
  uspace a m Fr pg T M -> uvpn v -> T !! (v / 1024) = Some t -> present (M v) = true ->
  exists a' m1, pa_free (frame (M v)) (a, m) = Ok (tt, (a', m1)) /\
    let m' := store32 (t + 4 * (v mod 1024)) 0 m1 in
    uspace a' m' ({[frame (M v)]} ∪ Fr) pg T (gone M v (v + 1)) /\ same_managed a a' /\
    touches (fun p => tab pg T p \/ p = frame (M v)) m m'.
Proof.
  intros Hu Hv Ht Hp. pose proof Hu as [Hvm Hf Hi Hn]. destruct (Hf v Hv Hp) as (Hm & HFr & Htab).
  destruct Hvm as [Hinv Hby Has Htb].
  destruct (pa_free_ok a m Fr (frame (M v)) Hinv Hm HFr) as (a' & m1 & Hrun & Hman & Hinv' & Hm1 & Hby1).
  pose proof (managed_page _ _ _ _ Hinv Hm) as Hpg.
  exists a', m1. split; [done|]. cbv zeta.
  assert (Hto1 : touches (eq (frame (M v))) m m1).
  { intros x Hx. apply Hm1. intros Hr. apply Hx. symmetry. apply page_of_in; [by apply page_mod|done]. }
  assert (Hvm1 : vm a' m1 ({[frame (M v)]} ∪ Fr) pg T M).
  { split; [done|by apply Hby1|eapply aspace_frame; [done|exact Hto1|by intros p Hp' <-]|].
    intros p Hp'. destruct (Htb p Hp') as [H1 H2]. rewrite (Hman p). split; [done|].
    rewrite not_elem_of_union, not_elem_of_singleton. split; [by intros ->|done]. }
  destruct (vm_store a' m1 _ pg T M v t 0 Hvm1 ltac:(unfold uvpn in Hv; lia) Ht ltac:(lia)) as [Hvm2 Hto2].
  split; [|split; [done|]].
  2: { eapply touches_trans; [|eapply touches_mono; [|exact Hto2]; by left].
       eapply touches_mono; [|exact Hto1]. intros p <-. by right. }
  assert (HG : forall w, gone M v (v + 1) w = if w =? v then 0 else M w).
  { intros w. destruct (Z.eqb_spec w v); [subst; by rewrite gone_in by lia|by rewrite gone_out by lia]. }
  split; [eapply vm_ext; [exact Hvm2|intros w _; apply HG]| | |].
  - intros w Hw. rewrite HG. destruct (Z.eqb_spec w v) as [->|Hne]; [done|]. intros Hpw.
    destruct (Hf w Hw Hpw) as (H1 & H2 & H3). rewrite (Hman _). split; [done|]. split; [|done].
    rewrite not_elem_of_union, not_elem_of_singleton. split; [|done]. intros E. by apply Hne, Hi.
  - intros w1 w2 Hw1 Hw2. rewrite !HG. destruct (Z.eqb_spec w1 v), (Z.eqb_spec w2 v); try done. by apply Hi.
  - intros w Hw. rewrite HG. destruct (Z.eqb_spec w v); [done|]. by apply Hn.
Qed.

Lemma gone_gone M lo mid hi w : lo <= mid -> gone (gone M lo mid) mid hi w = gone M lo (Z.max mid hi) w.
Proof.
  intros H. destruct (decide (mid <= w < hi)).
  - by rewrite !gone_in by lia.
  - rewrite (gone_out (gone M lo mid)) by lia. destruct (decide (lo <= w < mid)).
    + by rewrite !gone_in by lia.
    + by rewrite !gone_out by lia.
Qed.

Lemma own_gone_le pg T M lo hi p : own pg T (gone M lo hi) p -> own pg T M p.
Proof.
  intros [?|(v & Hv & Hp & ->)]; [by left|]. destruct (decide (lo <= v < hi)).
  - rewrite gone_in in Hp by done. done.
  - rewrite gone_out in * by done. right. eauto.
Qed.

(** Pages that are unmapped anyway can be skipped. *)
Lemma gone_absent M lo mid hi w :
  lo <= mid -> (forall x, lo <= x < mid -> M x = 0) -> gone M lo hi w = gone M mid hi w.
Proof.
  intros H H0. destruct (decide (lo <= w < hi)) as [Hin|]; destruct (decide (mid <= w < hi)).
  - by rewrite !gone_in by lia.
  - rewrite gone_in, gone_out by lia. symmetry. apply H0. lia.
  - lia.
  - by rewrite !gone_out by lia.
Qed.

(** The frames of the pages from [lo] to [hi]. *)
Definition freed (M : Z -> Z) (lo hi p : Z) : Prop :=
  exists v, lo <= v < hi /\ present (M v) = true /\ p = frame (M v).

Lemma PGADDR_next d : 0 <= d < 1023 -> u32 (u32 (PGADDR (d + 1) 0 0 - PGSIZE) + PGSIZE) = 4194304 * (d + 1).
Proof.
  intros Hd. unfold PGADDR, PDXSHIFT, PTXSHIFT, PGSIZE. rewrite Z.shiftl_0_l, !Z.lor_0_r.
  rewrite Z.shiftl_mul_pow2 by lia. change (2 ^ 22) with 4194304.
  rewrite (u32_small ((d + 1) * 4194304)) by lia. rewrite (u32_small (_ - _)) by lia. rewrite u32_small; lia.
Qed.

(** The pages from [lo] to [hi] are unmapped and their frames free. *)
Record dealloc_ok (a : A) (m : mem) (Fr : gset Z) (pg : Z) (T : gmap Z Z) (M : Z -> Z) (lo hi : Z)
    (a' : A) (m' : mem) (Fr' : gset Z) : Prop := {
  d_space : uspace a' m' Fr' pg T (gone M lo hi);
  d_managed : same_managed a a';
  d_free : forall p, p ∈ Fr' <-> p ∈ Fr \/ freed M lo hi p;
  d_touches : touches (fun p => tab pg T p \/ freed M lo hi p) m m'
}.

Lemma dealloc_nothing a m Fr pg T M lo hi :
  uspace a m Fr pg T M -> hi <= lo -> dealloc_ok a m Fr pg T M lo hi a m Fr.
Proof.
  intros Hu Hle. split; [|done| |done].
  - eapply uspace_ext; [exact Hu|]. intros w _. apply gone_out. lia.
  - intros p. split; [by left|]. intros [?|(w & ? & _)]; [done|lia].
Qed.

(** Pages that are not mapped are skipped. *)
Lemma dealloc_skip a m Fr pg T M lo mid hi a' m' Fr' :
  lo <= mid -> (forall x, lo <= x < mid -> M x = 0) ->
  dealloc_ok a m Fr pg T M mid hi a' m' Fr' -> dealloc_ok a m Fr pg T M lo hi a' m' Fr'.
Proof.
  intros Hle H0 [Hu Hman HFr Hto].
  assert (Hfr : forall p, freed M lo hi p <-> freed M mid hi p).
  { intros p. split; intros (w & Hw & Hp & ->); exists w; (split; [|done]); [|lia].
    destruct (decide (w < mid)); [|lia]. by rewrite H0 in Hp by lia. }
  split; [|done|intros p; by rewrite Hfr|eapply touches_mono; [|exact Hto]; intros p; by rewrite Hfr].
  eapply uspace_ext; [exact Hu|]. intros w _. by apply gone_absent.
Qed.

(** A page is unmapped, then the ones after it. *)
Lemma dealloc_cons a m Fr pg T M v hi a1 m1 a' m' Fr' :
  v < hi -> present (M v) = true -> same_managed a a1 ->
  touches (fun p => tab pg T p \/ p = frame (M v)) m m1 ->
  dealloc_ok a1 m1 ({[frame (M v)]} ∪ Fr) pg T (gone M v (v + 1)) (v + 1) hi a' m' Fr' ->
  dealloc_ok a m Fr pg T M v hi a' m' Fr'.
Proof.
  intros Hv Hp Hman1 Hto1 [Hu Hman HFr Hto].
  assert (Hfr : forall p, freed M v hi p <-> p = frame (M v) \/ freed (gone M v (v + 1)) (v + 1) hi p).
  { intros p. split.
    - intros (w & Hw & Hpw & ->). destruct (decide (w = v)) as [->|]; [by left|right].
      exists w. rewrite gone_out by lia. split; [lia|done].
    - intros [->|(w & Hw & Hpw & ->)]; [exists v; split; [lia|done]|].
      rewrite gone_out in * by lia. exists w. split; [lia|done]. }
  split.
  - eapply uspace_ext; [exact Hu|]. intros w _. rewrite gone_gone by lia. f_equal. lia.
  - by eapply same_managed_trans.
  - intros p. rewrite HFr, Hfr, elem_of_union, elem_of_singleton. tauto.
  - eapply touches_trans; (eapply touches_mono; [|eassumption]); intros p; rewrite Hfr; tauto.
Qed.

Lemma page_lt oldsz v : (4096 * v <? oldsz) = (v <? npages oldsz).
Proof.
  unfold npages. apply eq_iff_eq_true. rewrite !Z.ltb_lt. Z.to_euclidean_division_equations; lia.
Qed.

Lemma npages_bound oldsz : oldsz <= 2 ^ 31 -> npages oldsz <= 2 ^ 19.
Proof. intros H. unfold npages. Z.to_euclidean_division_equations; lia. Qed.

(** Reading the entry of page [v] through the tables. *)
Lemma run_rd_entry (a : A) m pg T M v t :
  aspace m pg T M -> 0 <= v < 2 ^ 20 -> T !! (v / 1024) = Some t ->
  rd32 (t + 4 * (v mod 1024)) (a, m) = Ok (M v, (a, m)) /\ (t + 4 * (v mod 1024) =? 0) = false.
Proof.
  intros Ha Hv E. split.
  - unfold rd32. rewrite run_get. cbn [snd]. by rewrite (a_map _ _ _ _ Ha v Hv), E.
  - destruct (a_tab _ _ _ _ Ha _ _ E) as (_ & (_ & Hk & _) & _).
    apply Z.eqb_neq. pose proof (Z.mod_pos_bound v 1024 ltac:(lia)). unfold KERNBASE in *. lia.
Qed.

Lemma walk_page (a : A) m pg T M v :
  aspace m pg T M -> 0 <= v < 2 ^ 20 ->
  walkpgdir pg (4096 * v) false (a, m)
    = Ok (match T !! (v / 1024) with Some t => t + 4 * (v mod 1024) | None => 0 end, (a, m)).
Proof.
  intros Ha Hv. rewrite (walk_noalloc a m pg T M (4096 * v) Ha ltac:(lia)).
  by replace (4096 * v / 4096) with v by (rewrite Z.mul_comm, Z.div_mul; lia).
Qed.

Lemma deallocuvm_loop_spec pg T oldsz : 0 <= oldsz <= 2 ^ 31 ->
  forall fuel a m Fr M v, uspace a m Fr pg T M -> 0 <= v <= 2 ^ 19 -> npages oldsz - v <= Z.of_nat fuel ->
  exists a' m' Fr', deallocuvm_loop fuel pg (4096 * v) oldsz (a, m) = Ok (tt, (a', m')) /\
    dealloc_ok a m Fr pg T M v (npages oldsz) a' m' Fr'.
Proof.
  intros Hsz. pose proof (npages_bound oldsz ltac:(lia)) as Hhi.
  induction fuel as [|fuel IH]; intros a m Fr M v Hu Hv Hf; cbn [deallocuvm_loop]; rewrite page_lt;
    destruct (Z.ltb_spec v (npages oldsz)) as [Hlt|Hge]; [lia| | |].
  1,3: exists a, m, Fr; split; [done|by apply dealloc_nothing].
  assert (Huv : uvpn v) by (unfold uvpn; lia). pose proof (vm_as _ _ _ _ _ _ (us_vm _ _ _ _ _ _ Hu)) as Ha.
  rewrite (run_bind _ _ _ _ _ (walk_page a m pg T M v Ha ltac:(lia))).
  destruct (T !! (v / 1024)) as [t|] eqn:E.
  - destruct (run_rd_entry a m pg T M v t Ha ltac:(lia) E) as [Hrd ->]. rewrite (run_bind _ _ _ _ _ Hrd).
    unfold PGSIZE. rewrite (u32_small (4096 * v + 4096)) by lia. replace (4096 * v + 4096) with (4096 * (v + 1)) by lia.
    destruct (present (M v)) eqn:Hp.
    + rewrite (frame_nonzero _ _ _ _ _ _ _ Hu Huv Hp).
      destruct (unmap_page a m Fr pg T M v t Hu Huv E Hp) as (a1 & m1 & Hrun & Hu1 & Hman1 & Hto1).
      cbv zeta in *. set (m2 := store32 (t + 4 * (v mod 1024)) 0 m1) in *.
      rewrite (run_bind _ _ _ tt (a1, m2)) by (by rewrite (run_bind _ _ _ _ _ Hrun)).
      destruct (IH a1 m2 _ _ (v + 1) Hu1) as (a' & m' & Fr' & Hrun' & Hok); [lia|lia|].
      exists a', m', Fr'. split; [done|]. by eapply dealloc_cons.
    + rewrite (run_bind _ _ _ tt (a, m)) by done.
      destruct (IH a m Fr M (v + 1) Hu) as (a' & m' & Fr' & Hrun' & Hok); [lia|lia|].
      exists a', m', Fr'. split; [done|]. eapply dealloc_skip; [| |exact Hok]; [lia|].
      intros x Hx. replace x with v by lia. by apply (us_none _ _ _ _ _ _ Hu).
  - change (0 =? 0) with true. cbv iota.
    replace (PDX (4096 * v)) with (v / 1024) by (rewrite PDX_spec by lia; Z.to_euclidean_division_equations; lia).
    rewrite PGADDR_next by (Z.to_euclidean_division_equations; lia).
    set (v' := 1024 * (v / 1024 + 1)). replace (4194304 * (v / 1024 + 1)) with (4096 * v') by (unfold v'; lia).
    assert (Hv' : v < v' <= 2 ^ 19) by (unfold v'; Z.to_euclidean_division_equations; lia).
    destruct (IH a m Fr M v' Hu) as (a' & m' & Fr' & Hrun' & Hok); [lia|lia|].
    exists a', m', Fr'. split; [done|]. eapply dealloc_skip; [| |exact Hok]; [lia|].
    intros x Hx. rewrite (a_map _ _ _ _ Ha) by lia.
    replace (x / 1024) with (v / 1024); [by rewrite E|]. unfold v' in *. Z.to_euclidean_division_equations; lia.
Qed.

Lemma PGROUNDUP_npages sz : 0 <= sz <= 2 ^ 31 -> PGROUNDUP sz = 4096 * npages sz.
Proof. intros H. apply PGROUNDUP_spec. unfold PGSIZE. lia. Qed.

Lemma npages_nonneg sz : 0 <= sz -> 0 <= npages sz.
Proof. intros H. apply Z.div_pos; lia. Qed.

Lemma npages_mono a b : a <= b -> npages a <= npages b.
Proof. intros H. unfold npages. apply Z.div_le_mono; lia. Qed.

Lemma deallocuvm_spec a m Fr pg T M oldsz newsz :
  uspace a m Fr pg T M -> 0 <= newsz < oldsz -> oldsz <= 2 ^ 31 ->
  exists a' m' Fr', deallocuvm pg oldsz newsz (a, m) = Ok (newsz, (a', m')) /\
    dealloc_ok a m Fr pg T M (npages newsz) (npages oldsz) a' m' Fr'.
Proof.
  intros Hu Hsz Ho. unfold deallocuvm. rewrite (proj2 (Z.leb_gt oldsz newsz)) by lia.
  rewrite PGROUNDUP_npages by lia. pose proof (npages_nonneg newsz ltac:(lia)).
  pose proof (npages_mono newsz oldsz ltac:(lia)). pose proof (npages_bound oldsz Ho).
  destruct (deallocuvm_loop_spec pg T oldsz ltac:(lia) (Z.to_nat (oldsz / PGSIZE + 1)) a m Fr M (npages newsz) Hu)
    as (a' & m' & Fr' & Hrun & Hok); [lia| |].
  { unfold npages, PGSIZE in *. rewrite Z2Nat.id by (Z.to_euclidean_division_equations; lia).
    Z.to_euclidean_division_equations; lia. }
  exists a', m', Fr'. split; [by rewrite (run_bind _ _ _ _ _ Hrun)|done].
Qed.

(** ** Freeing an address space *)

Lemma free_touches a m Fr p :
  pa_inv a m Fr -> pa_managed a p -> p ∉ Fr ->
  exists a' m', pa_free p (a, m) = Ok (tt, (a', m')) /\ same_managed a a' /\
    pa_inv a' m' ({[p]} ∪ Fr) /\ touches (eq p) m m' /\ (byte_ok m -> byte_ok m').
Proof.
  intros Hi Hm Hp. destruct (pa_free_ok a m Fr p Hi Hm Hp) as (a' & m' & Hrun & Hman & Hi' & Hm' & Hby).
  exists a', m'. split; [done|]. split; [done|]. split; [done|]. split; [|done]. intros x Hx. apply Hm'. intros Hr.
  apply Hx. symmetry. apply page_of_in; [|done]. apply page_mod. by apply (managed_page a m Fr).
Qed.

Lemma freevm_loop_spec pg (T : gmap Z Z) : is_page pg ->
  (forall i t, T !! i = Some t -> 0 <= i < 1024 /\ is_page t /\ t <> pg) ->
  (forall i j t, T !! i = Some t -> T !! j = Some t -> i = j) ->
  forall k a m Fr i, i + Z.of_nat k = 1024 -> 0 <= i -> pa_inv a m Fr ->
  (forall j, i <= j < 1024 -> entry m pg j = match T !! j with Some t => mkpde t | None => 0 end) ->
  (forall j t, i <= j -> T !! j = Some t -> pa_managed a t /\ t ∉ Fr) ->
  exists a' m' Fr', freevm_loop k pg i (a, m) = Ok (tt, (a', m')) /\ same_managed a a' /\ pa_inv a' m' Fr' /\
    (forall p, p ∈ Fr' <-> p ∈ Fr \/ exists j, i <= j /\ T !! j = Some p) /\
    touches (fun p => exists j, T !! j = Some p) m m' /\ (byte_ok m -> byte_ok m').
Proof.
  intros Hpg Htab Hinj. induction k as [|k IH]; intros a m Fr i Hik Hi Hinv Hdir Hman.
  { exists a, m, Fr. split; [done|]. split; [done|]. split; [done|]. split; [|done].
    intros p. split; [by left|]. intros [?|(j & Hj & E)]; [done|]. destruct (Htab _ _ E). lia. }
  cbn [freevm_loop]. rewrite (run_bind _ _ _ (entry m pg i) (a, m)) by done. rewrite Hdir by lia.
  destruct (T !! i) as [t|] eqn:E.
  - destruct (Htab _ _ E) as (_ & Htp & Hne). destruct (mkpde_spec t Htp) as (-> & -> & _).
    destruct (Hman i t ltac:(lia) E) as [Hm HFr].
    destruct (free_touches a m Fr t Hinv Hm HFr) as (a1 & m1 & Hrun & Hman1 & Hinv1 & Hto1 & Hb1).
    rewrite (run_bind _ _ _ _ _ Hrun).
    destruct (IH a1 m1 ({[t]} ∪ Fr) (i + 1)) as (a' & m' & Fr' & Hrun' & Hman' & Hinv' & HFr' & Hto' & Hb');
      [lia|lia|done| | |].
    + intros j Hj. rewrite (touches_entry (eq t) m) by (done || lia). apply Hdir. lia.
    + intros j t' Hj Ej. destruct (Hman j t' ltac:(lia) Ej) as [H1 H2]. rewrite (Hman1 t'). split; [done|].
      rewrite not_elem_of_union, not_elem_of_singleton. split; [|done]. intros ->.
      pose proof (Hinj _ _ _ E Ej). lia.
    + exists a', m', Fr'. split; [done|]. split; [by eapply same_managed_trans|]. split; [done|]. split; [|split; [|tauto]].
      * intros p. rewrite HFr', elem_of_union, elem_of_singleton. split.
        -- intros [[->|?]|(j & Hj & Ej)]; [right; exists i; split; [lia|done]|by left|right; exists j; split; [lia|done]].
        -- intros [?|(j & Hj & Ej)]; [tauto|]. destruct (decide (j = i)) as [->|]; [left; left; congruence|].
           right. exists j. split; [lia|done].
      * eapply touches_trans; [|exact Hto']. eapply touches_mono; [|exact Hto1]. intros p <-. eauto.
  - change (present 0) with false. cbv iota. rewrite (run_bind _ _ _ tt (a, m)) by done.
    destruct (IH a m Fr (i + 1)) as (a' & m' & Fr' & Hrun' & Hman' & Hinv' & HFr' & Hto' & Hb');
      [lia|lia|done|intros j Hj; apply Hdir; lia|intros j t Hj; apply Hman; lia|].
    exists a', m', Fr'. split; [done|]. split; [done|]. split; [done|]. split; [|done].
    intros p. rewrite HFr'. split; (intros [?|(j & Hj & Ej)]; [tauto|right; exists j; split; [|done]]); [lia|].
    destruct (decide (j = i)) as [->|]; [congruence|lia].
Qed.

(** [freevm] makes free exactly the pages of the address space. *)
Lemma freevm_spec a m Fr pg T M :
  uspace a m Fr pg T M ->
  exists a' m' Fr', freevm pg (a, m) = Ok (tt, (a', m')) /\ same_managed a a' /\ pa_inv a' m' Fr' /\
    (forall p, p ∈ Fr' <-> p ∈ Fr \/ own pg T M p) /\ touches (own pg T M) m m' /\ byte_ok m'.
Proof.
  intros Hu. pose proof (us_vm _ _ _ _ _ _ Hu) as Hvm. pose proof (vm_as _ _ _ _ _ _ Hvm) as Ha.
  unfold freevm. destruct (a_pg _ _ _ _ Ha) as (_ & Hk & _).
  rewrite (proj2 (Z.eqb_neq pg 0)) by (unfold KERNBASE in *; lia). clear Hk.
  destruct (deallocuvm_spec a m Fr pg T M KERNBASE 0 Hu) as (a1 & m1 & Fr1 & Hrun1 & [Hu1 Hman1 HFr1 Hto1]);
    [unfold KERNBASE; lia|unfold KERNBASE; lia|].
  change (npages 0) with 0 in *. change (npages KERNBASE) with (2 ^ 19) in *.
  rewrite (run_bind _ _ _ _ _ Hrun1). destruct (us_vm _ _ _ _ _ _ Hu1) as [Hi1 Hby1 [Hpg Htab Hinj Hdir Hmap] Htb1].
  destruct (freevm_loop_spec pg T Hpg Htab Hinj (Z.to_nat NPDENTRIES) a1 m1 Fr1 0)
    as (a2 & m2 & Fr2 & Hrun2 & Hman2 & Hi2 & HFr2 & Hto2 & Hb2); [done|lia|done| | |].
  { intros j Hj. apply Hdir. lia. } { intros j t Hj Ej. apply Htb1. right. eauto. }
  rewrite (run_bind _ _ _ _ _ Hrun2).
  destruct (free_touches a2 m2 Fr2 pg Hi2) as (a3 & m3 & Hrun3 & Hman3 & Hi3 & Hto3 & Hb3).
  { rewrite (Hman2 pg). apply Htb1. by left. }
  { rewrite HFr2. intros [?|(j & _ & Ej)]; [by destruct (Htb1 pg (or_introl eq_refl))|].
    by destruct (Htab _ _ Ej) as (_ & _ & ?). }
  exists a3, m3, ({[pg]} ∪ Fr2). split; [done|].
  split; [eapply same_managed_trans; [done|]; by eapply same_managed_trans|]. split; [done|].
  assert (Hfreed : forall p, freed M 0 (2 ^ 19) p <-> exists v, uvpn v /\ present (M v) = true /\ p = frame (M v)) by done.
  split; [|split; [|tauto]].
  - intros p. rewrite elem_of_union, elem_of_singleton, HFr2, HFr1, Hfreed. unfold own, tab. split.
    + intros [->|[[?|?]|(j & _ & ?)]]; eauto 6.
    + intros [?|[[->|[j Ej]]|?]]; eauto. right. right. exists j. destruct (Htab _ _ Ej). split; [lia|done].
  - assert (HS1 : touches (own pg T M) m m1) by (eapply touches_mono; [|exact Hto1]; done).
    assert (HS2 : touches (own pg T M) m1 m2).
    { eapply touches_mono; [|exact Hto2]. intros p [j Ej]. left. right. eauto. }
    assert (HS3 : touches (own pg T M) m2 m3).
    { eapply touches_mono; [|exact Hto3]. intros p <-. left. by left. }
    eapply touches_trans; [exact HS1|]. by eapply touches_trans.
Qed.

(** ** Mapping a fresh page *)

Lemma frame_mkpte p perm : is_page p -> 0 <= perm < 4096 -> frame (mkpte (V2P p) perm) = p.
Proof.
  intros (Hp & Hk & He) Hperm. rewrite V2P_spec by lia. unfold frame.
  destruct (mkpte_addr (p - KERNBASE) perm) as (-> & _); unfold KERNBASE in *; try lia.
  - Z.to_euclidean_division_equations; lia.
  - rewrite P2V_spec by (unfold KERNBASE; lia). unfold KERNBASE. lia.
Qed.

Lemma V2P_page p : is_page p -> V2P p mod 4096 = 0 /\ 0 <= V2P p /\ V2P p + 4096 <= 2 ^ 32.
Proof.
  intros (Hp & Hk & He). rewrite V2P_spec by lia. unfold KERNBASE in *. Z.to_euclidean_division_equations; lia.
Qed.

(** [mappages] of one page [p] that belongs to nobody. *)
Lemma map_fresh a m Fr pg T M v p perm :
  uspace a m Fr pg T M -> uvpn v -> present (M v) = false -> 0 <= perm < 4096 ->
  pa_managed a p -> p ∉ Fr -> ~ own pg T M p ->
  exists r a' m' Fr' T' M', mappages pg (4096 * v) PGSIZE (V2P p) perm (a, m) = Ok (r, (a', m')) /\
    uspace a' m' Fr' pg T' M' /\ same_managed a a' /\ same_pages Fr pg T Fr' T' /\
    touches (tab pg T') m m' /\ T ⊆ T' /\
    ((r = 0 /\ M' = mapped M v 1 (V2P p) perm) \/ (r = -1 /\ M' = M /\ Fr' = ∅ /\ T' = T)).
Proof.
  intros [Hvm Hf Hi Hn] Hv Hpv Hperm Hm HFr Hown. pose proof (managed_page _ _ _ _ (vm_alloc _ _ _ _ _ _ Hvm) Hm) as Hpg.
  destruct (V2P_page p Hpg) as (Hpa & Hpa0 & Hpa1).
  destruct (mappages_spec a m Fr pg T M v 1 (V2P p) perm Hvm) as (r & a' & m' & Fr' & T' & k & Hrun & Hvm' & Hman & Hsp & Hto & Hsub & Hres);
    unfold uvpn in Hv; try lia; try done.
  { intros w Hw. by replace w with v by lia. }
  change (4096 * 1) with PGSIZE in Hrun.
  assert (Hold : forall f, f ∉ Fr -> ~ tab pg T f -> (f ∉ Fr') /\ ~ tab pg T' f).
  { intros f H1 H2. pose proof (Hsp f). tauto. }
  assert (Hframe : forall w, uvpn w -> present (M w) = true ->
    pa_managed a' (frame (M w)) /\ (frame (M w) ∉ Fr') /\ ~ tab pg T' (frame (M w))).
  { intros w Hw Hp. destruct (Hf w Hw Hp) as (H1 & H2 & H3). rewrite (Hman _). split; [done|by apply Hold]. }
  destruct Hres as [[-> ->]|(-> & Hk & HF & HT)].
  - exists 0, a', m', Fr', T', (mapped M v 1 (V2P p) perm). split; [done|]. split; [|split; [done|split; [done|split; [done|split; [done|by left]]]]].
    assert (HM : forall w, mapped M v 1 (V2P p) perm w = if w =? v then mkpte (V2P p) perm else M w).
    { intros w. destruct (Z.eqb_spec w v) as [->|]; [rewrite mapped_in by lia; f_equal; lia|by rewrite mapped_out by lia]. }
    assert (Hpf : (p ∉ Fr') /\ ~ tab pg T' p) by (apply Hold; [done|]; intros ?; apply Hown; by left).
    split; [done| | |].
    + intros w Hw. rewrite HM. destruct (Z.eqb_spec w v) as [->|]; [|by apply Hframe].
      intros _. rewrite frame_mkpte by done. rewrite (Hman p). done.
    + intros w1 w2 Hw1 Hw2. rewrite !HM. destruct (Z.eqb_spec w1 v), (Z.eqb_spec w2 v); rewrite ?frame_mkpte by done.
      * intros. lia.
      * intros _ Hp2 ->. destruct Hown. right. eauto.
      * intros Hp1 _ <-. destruct Hown. right. eauto.
      * by apply Hi.
    + intros w Hw. rewrite HM. destruct (Z.eqb_spec w v); [|by apply Hn]. by rewrite mkpte_present.
  - exists (-1), a', m', Fr', T', M. split; [done|]. split; [|split; [done|split; [done|split; [done|split; [done|right]]]]].
    2: { split; [done|]. split; [done|]. split; [done|]. apply HT. lia. }
    split; [|done|done|done]. eapply vm_ext; [exact Hvm'|]. intros w _. by rewrite mapped_out by lia.
Qed.

End User.

End VmUser.
