(* ===== verification/VmThm.v ===== *)
(** * The operations on address spaces

    Growing, building, copying and writing to user address spaces, with running
    out of memory at any point. *)

From Stdlib Require Import ZArith Lia.
From stdpp Require Import base numbers strings list gmap.
From S2P Require Import Prelude Mmu Mem Cstring Kalloc Vm VmSpec VmUser.

Open Scope Z_scope.

Import Mmu Mem Cstring Kalloc Vm VmSpec VmUser.

Module VmThm.

#[local] Opaque memset store32 load32 memmove.

Section Thm.

Context {A : Type} `{!PageAlloc A}.

(** ** Taking a page *)

Lemma touches_memmove p s m : byte_ok m -> is_page p -> touches (eq p) m (memmove p s (Z.to_nat PGSIZE) m).
Proof.
  intros Hb Hp x Hx. rewrite (memmove_spec p s _ m Hb x). change (Z.of_nat (Z.to_nat PGSIZE)) with 4096.
  rewrite decide_False; [done|]. intros Hr. apply Hx. symmetry. apply page_of_in; [by apply page_mod|done].
Qed.

(** A page taken from the allocator belongs to nobody. *)
Lemma take_page a m Fr pg T M :
  uspace a m Fr pg T M ->
  exists r a', pa_alloc (a, m) = Ok (r, (a', m)) /\ same_managed a a' /\
    ((r = 0 /\ Fr = ∅ /\ uspace a' m Fr pg T M) \/
     (r ∈ Fr /\ is_page r /\ uspace a' m (Fr ∖ {[r]}) pg T M /\ pa_managed a' r /\ ~ own pg T M r)).
Proof.
  intros Hu. pose proof Hu as [[Hi Hby Ha Ht] Hf Hin Hn].
  destruct (pa_alloc_ok a m Fr Hi) as (r & a' & Hrun & Hman & Hres). exists r, a'. split; [done|]. split; [done|].
  assert (Hsub : forall Fr', pa_inv a' m Fr' -> (forall p, p ∈ Fr' -> p ∈ Fr) -> uspace a' m Fr' pg T M).
  { intros Fr' Hi' Hsub. split; [split; [done|done|done|]| |done|done].
    - intros p Hp. destruct (Ht p Hp) as [H1 H2]. rewrite (Hman p). split; [done|]. by intros ?%Hsub.
    - intros v Hv Hp. destruct (Hf v Hv Hp) as (H1 & H2 & H3). rewrite (Hman _).
      split; [done|]. split; [|done]. by intros ?%Hsub. }
  destruct Hres as [(-> & -> & Hi')|[Hr Hi']]; [left|right].
  - split; [done|]. split; [done|]. by apply Hsub.
  - split; [done|]. split; [by eapply (free_page a m Fr)|]. split; [apply Hsub; [done|set_solver]|].
    split; [rewrite (Hman r); by eapply pa_free_managed|].
    intros Ho. by destruct (uspace_own _ _ _ _ _ _ _ Hu Ho).
Qed.

(** Filling a page that belongs to nobody. *)
Lemma fill_page a m m' Fr pg T M r :
  uspace a m (Fr ∖ {[r]}) pg T M -> ~ own pg T M r -> touches (eq r) m m' -> byte_ok m' ->
  uspace a m' (Fr ∖ {[r]}) pg T M.
Proof.
  intros Hu Ho Hto Hb. eapply uspace_frame; [exact Hu|exact Hto|done|].
  intros p [Hp|Hp] <-; [set_solver|]. apply Ho. by left.
Qed.

Lemma own_mapped pg T' M v p perm q :
  is_page p -> 0 <= perm < 4096 -> uvpn v -> present (M v) = false ->
  own pg T' (mapped M v 1 (V2P p) perm) q <->
  tab pg T' q \/ q = p \/ exists w, uvpn w /\ present (M w) = true /\ q = frame (M w).
Proof.
  intros Hp Hperm Hv Hpv. destruct (V2P_page p Hp) as (Ha & _). unfold own. split.
  - intros [?|(w & Hw & Hpw & ->)]; [by left|right].
    destruct (decide (w = v)) as [->|].
    + left. rewrite mapped_in by lia. replace (V2P p + 4096 * (v - v)) with (V2P p) by lia. by apply frame_mkpte.
    + right. exists w. rewrite mapped_out in * by lia. done.
  - intros [?|[->|(w & Hw & Hpw & ->)]]; [by left|right; exists v|right; exists w].
    + rewrite mapped_in by lia. replace (V2P p + 4096 * (v - v)) with (V2P p) by lia.
      rewrite mkpte_present, frame_mkpte by done. done.
    + rewrite mapped_out; [done|]. intros Hr. replace w with v in Hpw by lia. congruence.
Qed.

(** ** [allocuvm] *)

(** A zeroed, user-accessible page. *)
Definition fresh_page (m : mem) (e : Z) : Prop :=
  present e = true /\ PTE_FLAGS e = Z.lor (Z.lor PTE_W PTE_U) PTE_P /\
  forall x, frame e <= x < frame e + 4096 -> m x = 0.

Record alloc_ok (a : A) (m : mem) (Fr : gset Z) (pg : Z) (T : gmap Z Z) (M : Z -> Z) (v hi : Z)
    (a' : A) (m' : mem) (Fr' : gset Z) (T' : gmap Z Z) (M' : Z -> Z) : Prop := {
  al_space : uspace a' m' Fr' pg T' M';
  al_same : forall w, 0 <= w < 2 ^ 20 -> ~ (v <= w < hi) -> M' w = M w;
  al_new : forall w, v <= w < hi -> fresh_page m' (M' w);
  al_conserve : conserve Fr pg T M Fr' T' M';
  al_touches : touches (fun p => p ∈ Fr \/ tab pg T p) m m'
}.

(** Undoing the allocation when memory runs out. *)
Record undo_ok (a : A) (m : mem) (Fr : gset Z) (pg : Z) (T : gmap Z Z) (M : Z -> Z) (lo hi : Z)
    (a' : A) (m' : mem) (Fr' : gset Z) (T' : gmap Z Z) : Prop := {
  un_space : uspace a' m' Fr' pg T' (gone M lo hi);
  un_conserve : conserve Fr pg T M Fr' T' (gone M lo hi);
  un_touches : touches (fun p => p ∈ Fr \/ tab pg T p \/ freed M lo hi p) m m'
}.

Lemma own_gone pg T M lo hi p : 0 <= lo -> hi <= 2 ^ 19 ->
  own pg T M p <-> own pg T (gone M lo hi) p \/ freed M lo hi p.
Proof.
  intros Hlo Hhi. unfold own, freed. split.
  - intros [?|(v & Hv & Hp & ->)]; [tauto|]. destruct (decide (lo <= v < hi)); [right; eauto|].
    left. right. exists v. by rewrite gone_out.
  - intros [[?|(v & Hv & Hp & ->)]|(v & Hv & Hp & ->)]; [tauto| |].
    + right. destruct (decide (lo <= v < hi)); [by rewrite gone_in in Hp|]. rewrite gone_out in * by done. eauto.
    + right. exists v. split; [unfold uvpn; lia|done].
Qed.

Lemma run_undo a m Fr pg T M oldsz newsz :
  uspace a m Fr pg T M -> 0 <= oldsz < newsz -> newsz < KERNBASE ->
  exists a' m' Fr', deallocuvm pg newsz oldsz (a, m) = Ok (oldsz, (a', m')) /\ same_managed a a' /\
    undo_ok a m Fr pg T M (npages oldsz) (npages newsz) a' m' Fr' T.
Proof.
  intros Hu Hsz Hk. destruct (deallocuvm_spec a m Fr pg T M newsz oldsz Hu) as (a' & m' & Fr' & Hrun & [H1 H2 H3 H4]);
    [lia|unfold KERNBASE in Hk; lia|].
  exists a', m', Fr'. split; [done|]. split; [done|]. split; [done| |].
  - intros p. rewrite H3, (own_gone pg T M (npages oldsz) (npages newsz) p); [tauto|apply npages_nonneg; lia|].
    apply npages_bound. unfold KERNBASE in Hk. lia.
  - eapply touches_mono; [|exact H4]. tauto.
Qed.

(** Giving back a page that belongs to nobody. *)
Lemma give_page a m Fr pg T M r :
  uspace a m Fr pg T M -> pa_managed a r -> r ∉ Fr -> ~ own pg T M r ->
  exists a' m', pa_free r (a, m) = Ok (tt, (a', m')) /\ same_managed a a' /\
    uspace a' m' ({[r]} ∪ Fr) pg T M /\ touches (eq r) m m'.
Proof.
  intros [[Hi Hby Ha Ht] Hf Hin Hn] Hm Hr Ho.
  destruct (free_touches a m Fr r Hi Hm Hr) as (a' & m' & Hrun & Hman & Hi' & Hto & Hby').
  exists a', m'. split; [done|]. split; [done|]. split; [|done].
  assert (Hno : forall p, own pg T M p -> p ∉ Fr -> p ∉ ({[r]} ∪ Fr : gset Z)).
  { intros p Hp HF. rewrite not_elem_of_union, not_elem_of_singleton. split; [by intros ->|done]. }
  split; [split; [done|by apply Hby'| |]| |done|done].
  - eapply aspace_frame; [done|exact Hto|]. intros p Hp <-. apply Ho. by left.
  - intros p Hp. destruct (Ht p Hp) as [H1 H2]. rewrite (Hman p). split; [done|]. apply Hno; [by left|done].
  - intros v Hv Hp. destruct (Hf v Hv Hp) as (H1 & H2 & H3). rewrite (Hman _). split; [done|].
    split; [|done]. apply Hno; [right; eauto|done].
Qed.

(** A page [r] was taken, filled, and then mapped at [v] or not. *)
Record mapped_one (m : mem) (Fr : gset Z) (pg : Z) (T : gmap Z Z) (M : Z -> Z) (r : Z) (m1 m2 : mem)
    (Fr2 : gset Z) (T2 : gmap Z Z) : Prop := {
  mo_in : r ∈ Fr;
  mo_page : is_page r;
  mo_own : ~ own pg T M r;
  mo_fill : touches (eq r) m m1;
  mo_same : same_pages (Fr ∖ {[r]}) pg T Fr2 T2;
  mo_touches : touches (tab pg T2) m1 m2
}.

Lemma mo_notin m Fr pg T M r m1 m2 Fr2 T2 :
  mapped_one m Fr pg T M r m1 m2 Fr2 T2 -> (r ∉ Fr2) /\ ~ tab pg T2 r /\ ~ own pg T2 M r.
Proof.
  intros [H1 _ H2 _ H3 _]. pose proof (H3 r) as H. rewrite elem_of_difference, elem_of_singleton in H.
  unfold own in *. tauto.
Qed.

Lemma mo_all_touches m Fr pg T M r m1 m2 Fr2 T2 :
  mapped_one m Fr pg T M r m1 m2 Fr2 T2 -> touches (fun p => p ∈ Fr \/ tab pg T p) m m2.
Proof.
  intros [H1 _ H2 H3 H4 H5]. eapply touches_trans.
  - eapply touches_mono; [|exact H3]. intros p <-. by left.
  - eapply touches_mono; [|exact H5]. intros p Hp. pose proof (H4 p) as H. rewrite elem_of_difference in H. tauto.
Qed.

Lemma mo_pages m Fr pg T M r m1 m2 Fr2 T2 p :
  mapped_one m Fr pg T M r m1 m2 Fr2 T2 -> p ∈ Fr2 \/ tab pg T2 p \/ p = r <-> p ∈ Fr \/ tab pg T p.
Proof.
  intros [H1 _ H2 _ H4 _]. pose proof (H4 p) as H. rewrite elem_of_difference, elem_of_singleton in H.
  destruct (decide (p = r)) as [->|]; tauto.
Qed.

Lemma mo_conserve m Fr pg T M r m1 m2 Fr2 T2 v perm :
  mapped_one m Fr pg T M r m1 m2 Fr2 T2 -> 0 <= perm < 4096 -> uvpn v -> present (M v) = false ->
  conserve Fr pg T M Fr2 T2 (mapped M v 1 (V2P r) perm).
Proof.
  intros Hmo Hperm Hv Hpv p. pose proof (mo_pages _ _ _ _ _ _ _ _ _ _ p Hmo) as H.
  rewrite own_mapped by (done || apply Hmo). unfold own. tauto.
Qed.

Lemma alloc_ok_cons a m Fr pg T M v hi r m1 a2 m2 Fr2 T2 a' m' Fr' T' M' :
  mapped_one m Fr pg T M r m1 m2 Fr2 T2 -> uvpn v -> v < hi -> present (M v) = false ->
  (forall x, r <= x < r + 4096 -> m1 x = 0) ->
  alloc_ok a2 m2 Fr2 pg T2 (mapped M v 1 (V2P r) (Z.lor PTE_W PTE_U)) (v + 1) hi a' m' Fr' T' M' ->
  alloc_ok a m Fr pg T M v hi a' m' Fr' T' M'.
Proof.
  intros Hmo Huv Hv Hpv Hz [H1 H2 H3 H4 H5]. destruct (mo_notin _ _ _ _ _ _ _ _ _ _ Hmo) as (Hn1 & Hn2 & _).
  pose proof (mo_page _ _ _ _ _ _ _ _ _ _ Hmo) as Hrp. destruct (V2P_page r Hrp) as (Hpa & Hpa0 & Hpa1).
  assert (Hperm : 0 <= Z.lor PTE_W PTE_U < 4096) by (vm_compute; done).
  split; [done| | | |].
  - intros w Hw Hni. rewrite H2 by lia. rewrite mapped_out by lia. done.
  - intros w Hw. destruct (decide (w = v)) as [->|]; [|apply H3; lia].
    rewrite H2 by (unfold uvpn in Huv; lia). rewrite mapped_in by lia.
    replace (V2P r + 4096 * (v - v)) with (V2P r) by lia. split; [by apply mkpte_present|].
    split; [by apply mkpte_addr|]. rewrite frame_mkpte by done. intros x Hx.
    assert (Hpx : page_of x = r) by (apply page_of_in; [by apply page_mod|done]).
    rewrite (H5 x) by (rewrite Hpx; tauto).
    rewrite (mo_touches _ _ _ _ _ _ _ _ _ _ Hmo x) by (by rewrite Hpx). by apply Hz.
  - intros p. rewrite (H4 p). by apply (mo_conserve m Fr pg T M r m1 m2).
  - eapply touches_trans; [by eapply mo_all_touches|]. eapply touches_mono; [|exact H5].
    intros p [Hp|Hp]; pose proof (mo_pages _ _ _ _ _ _ _ _ _ _ p Hmo); tauto.
Qed.

Lemma undo_cons a m Fr pg T M v lo hi r m1 a2 m2 Fr2 T2 a' m' Fr' T' :
  mapped_one m Fr pg T M r m1 m2 Fr2 T2 -> uvpn v -> lo <= v < hi -> present (M v) = false ->
  undo_ok a2 m2 Fr2 pg T2 (mapped M v 1 (V2P r) (Z.lor PTE_W PTE_U)) lo hi a' m' Fr' T' ->
  undo_ok a m Fr pg T M lo hi a' m' Fr' T'.
Proof.
  intros Hmo Huv Hv Hpv [H1 H2 H3]. set (M2 := mapped M v 1 (V2P r) (Z.lor PTE_W PTE_U)) in *.
  assert (Hperm : 0 <= Z.lor PTE_W PTE_U < 4096) by (vm_compute; done).
  assert (HG : forall w, gone M lo hi w = gone M2 lo hi w).
  { intros w. destruct (decide (lo <= w < hi)); [by rewrite !gone_in|rewrite !gone_out by done].
    unfold M2. by rewrite mapped_out by lia. }
  split.
  - eapply uspace_ext; [exact H1|]. intros w _. apply HG.
  - intros p. rewrite (own_ext pg T' (gone M2 lo hi) (gone M lo hi) p) by (intros w _; apply HG).
    rewrite (H2 p). by apply (mo_conserve m Fr pg T M r m1 m2).
  - eapply touches_trans; [eapply touches_mono; [|by eapply mo_all_touches]; tauto|].
    eapply touches_mono; [|exact H3]. intros p [Hp|[Hp|(w & Hw & Hpw & ->)]].
    + pose proof (mo_pages _ _ _ _ _ _ _ _ _ _ p Hmo). tauto.
    + pose proof (mo_pages _ _ _ _ _ _ _ _ _ _ p Hmo). tauto.
    + unfold M2 in *. destruct (decide (w = v)) as [->|].
      * rewrite mapped_in by lia. replace (V2P r + 4096 * (v - v)) with (V2P r) by lia.
        rewrite frame_mkpte by (done || apply Hmo). left. apply Hmo.
      * rewrite mapped_out in * by lia. right. right. exists w. done.
Qed.

(** The page could not be mapped: undo and give it back. *)
Lemma run_undo_give a m Fr pg T M r m1 a2 m2 Fr2 T2 oldsz newsz :
  mapped_one m Fr pg T M r m1 m2 Fr2 T2 -> uspace a2 m2 Fr2 pg T2 M -> pa_managed a2 r ->
  0 <= oldsz < newsz -> newsz < KERNBASE ->
  exists a' m' Fr', (deallocuvm pg newsz oldsz;; pa_free r;; mret 0) (a2, m2) = Ok (0, (a', m')) /\
    same_managed a2 a' /\ undo_ok a m Fr pg T M (npages oldsz) (npages newsz) a' m' Fr' T2.
Proof.
  intros Hmo Hu Hrm Hsz Hk. destruct (mo_notin _ _ _ _ _ _ _ _ _ _ Hmo) as (Hn1 & Hn2 & Hn3).
  destruct (run_undo a2 m2 Fr2 pg T2 M oldsz newsz Hu Hsz Hk) as (a3 & m3 & Fr3 & Hrun3 & Hman3 & [U1 U2 U3]).
  pose proof (U2 r) as Hr3.
  destruct (give_page a3 m3 Fr3 pg T2 (gone M (npages oldsz) (npages newsz)) r U1) as (a4 & m4 & Hrun4 & Hman4 & Hu4 & Hto4);
    [by rewrite (Hman3 r)|tauto|tauto|].
  exists a4, m4, ({[r]} ∪ Fr3). split; [|split; [by eapply same_managed_trans|]].
  { by rewrite (run_bind _ _ _ _ _ Hrun3), (run_bind _ _ _ _ _ Hrun4). }
  assert (Hin : forall p, p ∈ Fr2 \/ tab pg T2 p \/ p = r -> p ∈ Fr \/ tab pg T p)
    by (intros p; apply (mo_pages _ _ _ _ _ _ _ _ _ _ p Hmo)).
  split; [done| |].
  - intros p. rewrite elem_of_union, elem_of_singleton. pose proof (U2 p) as Hp.
    pose proof (mo_pages _ _ _ _ _ _ _ _ _ _ p Hmo) as Hp'.
    transitivity ((p ∈ Fr2 \/ own pg T2 M p) \/ p = r); [rewrite <- Hp; clear; tauto|].
    unfold own. generalize (exists v, uvpn v /\ present (M v) = true /\ p = frame (M v)). clear - Hp'. tauto.
  - eapply touches_trans; [eapply touches_mono; [|by eapply mo_all_touches]; tauto|].
    eapply touches_trans.
    + eapply touches_mono; [|exact U3]. intros p [Hp|[Hp|Hp]]; [destruct (Hin p); tauto|destruct (Hin p); tauto|tauto].
    + eapply touches_mono; [|exact Hto4]. intros p <-. destruct (Hin r); tauto.
Qed.

Lemma allocuvm_loop_spec pg oldsz newsz : 0 <= oldsz < newsz -> newsz < KERNBASE ->
  forall fuel a m Fr T M v, uspace a m Fr pg T M -> npages oldsz <= v -> npages newsz - v <= Z.of_nat fuel ->
  (forall w, v <= w < npages newsz -> present (M w) = false) ->
  exists r a' m' Fr' T' M', allocuvm_loop fuel pg (4096 * v) oldsz newsz (a, m) = Ok (r, (a', m')) /\
    same_managed a a' /\
    ((r = newsz /\ alloc_ok a m Fr pg T M v (npages newsz) a' m' Fr' T' M') \/
     (r = 0 /\ undo_ok a m Fr pg T M (npages oldsz) (npages newsz) a' m' Fr' T')).
Proof.
  intros Hsz Hk. pose proof (npages_bound newsz ltac:(unfold KERNBASE in Hk; lia)) as Hhi.
  pose proof (npages_nonneg oldsz ltac:(lia)) as Hlo.
  induction fuel as [|fuel IH]; intros a m Fr T M v Hu Hv Hf Hfree; cbn [allocuvm_loop]; rewrite page_lt;
    destruct (Z.ltb_spec v (npages newsz)) as [Hlt|Hge]; [lia| | |].
  1,3: exists newsz, a, m, Fr, T, M; split; [done|]; split; [done|]; left; split; [done|];
    split; [done|done|intros w Hw; lia|done|done].
  destruct (take_page a m Fr pg T M Hu) as (r & a1 & Hrun & Hman1 & Hres).
  rewrite (run_bind _ _ _ _ _ Hrun). destruct Hres as [(-> & -> & Hu1)|(Hr & Hrp & Hu1 & Hrm & Hro)].
  { change (0 =? 0) with true. cbv iota. destruct (run_undo a1 m ∅ pg T M oldsz newsz Hu1 Hsz Hk)
      as (a2 & m2 & Fr2 & Hrun2 & Hman2 & Hun).
    exists 0, a2, m2, Fr2, T, M. split; [by rewrite (run_bind _ _ _ _ _ Hrun2)|].
    split; [by eapply same_managed_trans|]. right. split; [done|]. destruct Hun as [U1 U2 U3]. by split. }
  rewrite (proj2 (Z.eqb_neq r 0)) by (destruct Hrp as (_ & ? & _); unfold KERNBASE in *; lia).
  set (m1 := memset r 0 (Z.to_nat PGSIZE) m).
  rewrite (run_bind _ _ _ tt (a1, m1)) by done.
  pose proof (vm_byte _ _ _ _ _ _ (us_vm _ _ _ _ _ _ Hu)) as Hby.
  assert (Hto1 : touches (eq r) m m1) by (by apply touches_memset).
  assert (Hu2 : uspace a1 m1 (Fr ∖ {[r]}) pg T M) by (eapply fill_page; eauto; by apply memset_byte_ok).
  assert (Huv : uvpn v) by (unfold uvpn; lia). pose proof (Hfree v ltac:(lia)) as Hpv.
  assert (Hperm : 0 <= Z.lor PTE_W PTE_U < 4096) by (vm_compute; done).
  destruct (map_fresh a1 m1 (Fr ∖ {[r]}) pg T M v r (Z.lor PTE_W PTE_U) Hu2 Huv Hpv Hperm Hrm ltac:(set_solver) Hro)
    as (r2 & a2 & m2 & Fr2 & T2 & M2 & Hrun2 & Hu3 & Hman2 & Hsp2 & Hto2 & Hsub2 & Hres2).
  rewrite (run_bind _ _ _ _ _ Hrun2).
  assert (Hmo : mapped_one m Fr pg T M r m1 m2 Fr2 T2) by (by split).
  assert (Hman12 : same_managed a a2) by (by eapply same_managed_trans).
  destruct Hres2 as [[-> ->]|(-> & -> & _)].
  - change (0 <? 0) with false. cbv iota. unfold PGSIZE. rewrite u32_small by lia.
    replace (4096 * v + 4096) with (4096 * (v + 1)) by lia.
    destruct (IH a2 m2 Fr2 T2 _ (v + 1) Hu3) as (r3 & a' & m' & Fr' & T' & M' & Hrun3 & Hman3 & Hres3); [lia|lia| |].
    { intros w Hw. rewrite mapped_out by lia. apply Hfree. lia. }
    exists r3, a', m', Fr', T', M'. split; [done|]. split; [by eapply same_managed_trans|].
    destruct Hres3 as [[-> Hok]|[-> Hok]]; [left|right]; (split; [done|]).
    + eapply alloc_ok_cons; eauto. intros x Hx. unfold m1. rewrite memset_spec.
      change (Z.of_nat (Z.to_nat PGSIZE)) with 4096. by rewrite decide_True.
    + eapply undo_cons; eauto.
  - change (-1 <? 0) with true. cbv iota.
    destruct (run_undo_give a m Fr pg T M r m1 a2 m2 Fr2 T2 oldsz newsz Hmo Hu3 ltac:(by rewrite (Hman2 r)) Hsz Hk)
      as (a' & m' & Fr' & Hrun3 & Hman3 & Hun).
    exists 0, a', m', Fr', T2, M. split; [done|]. split; [by eapply same_managed_trans|]. by right.
Qed.

(** ** The kernel part *)

(** A mapping above KERNBASE leaves the user part alone. *)
Lemma map_kernel a m Fr pg T M v n pa perm :
  uspace a m Fr pg T M -> 2 ^ 19 <= v -> 1 <= n -> v + n <= 2 ^ 20 ->
  pa mod 4096 = 0 -> 0 <= pa -> pa + 4096 * n <= 2 ^ 32 -> 0 <= perm < 4096 ->
  (forall w, v <= w < v + n -> present (M w) = false) ->
  exists r a' m' Fr' T' k, mappages pg (4096 * v) (4096 * n) pa perm (a, m) = Ok (r, (a', m')) /\
    uspace a' m' Fr' pg T' (mapped M v k pa perm) /\ same_managed a a' /\ same_pages Fr pg T Fr' T' /\
    touches (tab pg T') m m' /\ ((r = 0 /\ k = n) \/ (r = -1 /\ 0 <= k < n)).
Proof.
  intros [Hvm Hf Hi Hn0] Hv Hn Hvn Hpa Hpa0 Hpan Hperm Hfree.
  destruct (mappages_spec a m Fr pg T M v n pa perm Hvm)
    as (r & a' & m' & Fr' & T' & k & Hrun & Hvm' & Hman & Hsp & Hto & _ & Hres); try done; try lia.
  exists r, a', m', Fr', T', k. split; [done|].
  assert (HU : forall w, uvpn w -> mapped M v k pa perm w = M w)
    by (intros w Hw; apply mapped_out; unfold uvpn in Hw; lia).
  split; [|split; [done|split; [done|split; [done|]]]].
  2: { destruct Hres as [?|(? & ? & _)]; tauto. }
  split; [done| | |].
  - intros w Hw. rewrite HU by done. intros Hp. destruct (Hf w Hw Hp) as (H1 & H2 & H3).
    rewrite (Hman _). pose proof (Hsp (frame (M w))). tauto.
  - intros w1 w2 Hw1 Hw2. rewrite !HU by done. by apply Hi.
  - intros w Hw. rewrite HU by done. by apply Hn0.
Qed.

(** What [setupkvm] maps, as a function of the entries of [kmap]. *)
Definition kvpn (k : kmap_entry) : Z := virt k / 4096.
Definition klen (k : kmap_entry) : Z := u32 (phys_end k - phys_start k) / 4096.
Definition kmapped (ks : list kmap_entry) (M : Z -> Z) : Z -> Z :=
  fold_left (fun M k => mapped M (kvpn k) (klen k) (phys_start k) (kperm k)) ks M.

(** Entries of whole pages, in ascending order, from page [lo] on. *)
Fixpoint kmap_ok (lo : Z) (ks : list kmap_entry) : Prop :=
  match ks with
  | [] => True
  | k :: ks' =>
      virt k = 4096 * kvpn k /\ u32 (phys_end k - phys_start k) = 4096 * klen k /\
      lo <= kvpn k /\ 1 <= klen k /\ kvpn k + klen k <= 2 ^ 20 /\
      phys_start k mod 4096 = 0 /\ 0 <= phys_start k /\ phys_start k + 4096 * klen k <= 2 ^ 32 /\
      0 <= kperm k < 4096 /\ kmap_ok (kvpn k + klen k) ks'
  end.

Lemma own_same_pages Fr pg T M Fr' T' M' p :
  same_pages Fr pg T Fr' T' -> (forall w, uvpn w -> M' w = M w) ->
  p ∈ Fr' \/ own pg T' M' p <-> p ∈ Fr \/ own pg T M p.
Proof.
  intros Hsp HM. rewrite (own_ext pg T' M M' p HM). pose proof (Hsp p) as H. unfold own.
  generalize (exists v, uvpn v /\ present (M v) = true /\ p = frame (M v)). clear - H. tauto.
Qed.

Lemma setupkvm_loop_spec pg ks : forall a m Fr T M lo,
  uspace a m Fr pg T M -> kmap_ok lo ks -> 2 ^ 19 <= lo ->
  (forall w, lo <= w < 2 ^ 20 -> present (M w) = false) ->
  exists r a' m' Fr', setupkvm_loop ks pg (a, m) = Ok (r, (a', m')) /\ same_managed a a' /\
    ((r = pg /\ exists T', uspace a' m' Fr' pg T' (kmapped ks M) /\ same_pages Fr pg T Fr' T' /\
        touches (fun p => p ∈ Fr \/ tab pg T p) m m') \/
     (r = 0 /\ pa_inv a' m' Fr' /\ byte_ok m' /\ (forall p, p ∈ Fr' <-> p ∈ Fr \/ own pg T M p) /\
        touches (fun p => p ∈ Fr \/ own pg T M p) m m')).
Proof.
  induction ks as [|k ks IH]; intros a m Fr T M lo Hu Hok Hlo Hfree.
  { exists pg, a, m, Fr. split; [done|]. split; [done|]. left. split; [done|]. by exists T. }
  destruct Hok as (Hvirt & Hlen & Hlov & Hn & Hvn & Hpa & Hpa0 & Hpan & Hperm & Hok).
  cbn [setupkvm_loop]. rewrite Hvirt, Hlen.
  destruct (map_kernel a m Fr pg T M (kvpn k) (klen k) (phys_start k) (kperm k) Hu)
    as (r & a1 & m1 & Fr1 & T1 & j & Hrun & Hu1 & Hman1 & Hsp1 & Hto1 & Hres); try done; try lia.
  { intros w Hw. apply Hfree. lia. }
  rewrite (run_bind _ _ _ _ _ Hrun).
  assert (Hto1' : touches (fun p => p ∈ Fr \/ tab pg T p) m m1).
  { eapply touches_mono; [|exact Hto1]. intros p Hp. apply (Hsp1 p). by right. }
  assert (HU : forall w, uvpn w -> mapped M (kvpn k) j (phys_start k) (kperm k) w = M w)
    by (intros w Hw; apply mapped_out; unfold uvpn in Hw; lia).
  pose proof (fun p => own_same_pages Fr pg T M Fr1 T1 _ p Hsp1 HU) as Hown.
  destruct Hres as [[-> ->]|[-> Hj]].
  - change (0 <? 0) with false. cbv iota.
    destruct (IH a1 m1 Fr1 T1 _ _ Hu1 Hok) as (r & a' & m' & Fr' & Hrun' & Hman' & Hres); [lia| |].
    { intros w Hw. rewrite mapped_out by lia. apply Hfree. lia. }
    exists r, a', m', Fr'. split; [done|]. split; [by eapply same_managed_trans|].
    destruct Hres as [(-> & T' & Hu' & Hsp' & Hto')|(-> & Hi' & Hb' & HFr' & Hto')]; [left|right]; (split; [done|]).
    + exists T'. split; [done|]. split; [intros p; by rewrite (Hsp' p)|].
      eapply touches_trans; [exact Hto1'|]. eapply touches_mono; [|exact Hto']. intros p. apply (Hsp1 p).
    + split; [done|]. split; [done|]. split; [intros p; by rewrite HFr'|].
      eapply touches_trans; [eapply touches_mono; [|exact Hto1']|eapply touches_mono; [|exact Hto']].
      * intros p [?|?]; [by left|right; by left].
      * intros p. apply Hown.
  - change (-1 <? 0) with true. cbv iota.
    destruct (freevm_spec a1 m1 Fr1 pg T1 _ Hu1) as (a' & m' & Fr' & Hrun' & Hman' & Hi' & HFr' & Hto' & Hb').
    exists 0, a', m', Fr'. split; [by rewrite (run_bind _ _ _ _ _ Hrun')|]. split; [by eapply same_managed_trans|].
    right. split; [done|]. split; [done|]. split; [done|]. split; [intros p; by rewrite HFr'|].
    eapply touches_trans; [eapply touches_mono; [|exact Hto1']|eapply touches_mono; [|exact Hto']].
    + intros p [?|?]; [by left|right; by left].
    + intros p Hp. apply Hown. by right.
Qed.

(** A new directory. *)
Lemma new_pgdir a m Fr r :
  pa_inv a m (Fr ∖ {[r]}) -> byte_ok m -> is_page r -> pa_managed a r ->
  uspace a (memset r 0 (Z.to_nat PGSIZE) m) (Fr ∖ {[r]}) r ∅ (fun _ => 0).
Proof.
  intros Hi Hby Hp Hm. split; [split| | |]; try done.
  - eapply inv_touches; [exact Hi|by apply touches_memset|]. intros p Hp' <-. set_solver.
  - by apply memset_byte_ok.
  - split; [done| | | |].
    + intros i t. by rewrite lookup_empty.
    + intros i j t. by rewrite lookup_empty.
    + intros i Hi'. rewrite lookup_empty. by apply entry_memset.
    + intros v Hv. by rewrite lookup_empty.
  - intros p [->|[i Hi']]; [split; [done|set_solver]|by rewrite lookup_empty in Hi'].
Qed.

Lemma own_new pg p : own pg ∅ (fun _ => 0) p <-> p = pg.
Proof.
  split; [|intros ->; by repeat left]. intros [[->|[i Hi]]|(v & _ & Hp & _)]; [done|by rewrite lookup_empty in Hi|done].
Qed.

Variable kdata : Z.

(** The kernel's data section starts at a page boundary in physical memory. *)
Definition kdata_ok : Prop := kdata mod 4096 = 0 /\ KERNLINK < kdata < KERNBASE + PHYSTOP.

Lemma kmap_kernel_ok : kdata_ok -> kmap_ok (2 ^ 19) (kmap kdata).
Proof.
  intros [Hm Hr]. assert (HV : V2P kdata = kdata - KERNBASE).
  { apply V2P_spec. unfold KERNLINK, KERNBASE, EXTMEM, PHYSTOP in *. lia. }
  unfold kmap, kmap_ok, kvpn, klen. cbn [virt phys_start phys_end kperm].
  change (V2P KERNLINK) with EXTMEM. rewrite HV. unfold KERNLINK, KERNBASE, EXTMEM, PHYSTOP, DEVSPACE, PTE_W in *.
  rewrite (u32_small (kdata - 2147483648 - 1048576)), (u32_small (234881024 - (kdata - 2147483648))) by lia.
  change (u32 (1048576 - 0)) with 1048576. change (u32 (0 - 4261412864)) with 33554432.
  repeat split; try (Z.to_euclidean_division_equations; lia).
Qed.

(** What [setupkvm] promises. *)
Record kvm_ok (a : A) (m : mem) (Fr : gset Z) (r : Z) (a' : A) (m' : mem) (Fr' : gset Z) (T : gmap Z Z) : Prop := {
  kv_space : uspace a' m' Fr' r T (kmapped (kmap kdata) (fun _ => 0));
  kv_pages : forall p, p ∈ Fr <-> p ∈ Fr' \/ tab r T p;
  kv_touches : touches (fun p => p ∈ Fr) m m'
}.

Lemma setupkvm_spec a m Fr :
  kdata_ok -> pa_inv a m Fr -> byte_ok m ->
  exists r a' m' Fr', setupkvm kdata (a, m) = Ok (r, (a', m')) /\ same_managed a a' /\
    ((exists T, kvm_ok a m Fr r a' m' Fr' T) \/
     (r = 0 /\ pa_inv a' m' Fr' /\ byte_ok m' /\ (forall p, p ∈ Fr' <-> p ∈ Fr) /\ touches (fun p => p ∈ Fr) m m')).
Proof.
  intros Hkd Hi Hby. unfold setupkvm. destruct (pa_alloc_ok a m Fr Hi) as (r & a1 & Hrun & Hman1 & Hres).
  rewrite (run_bind _ _ _ _ _ Hrun). destruct Hres as [(-> & -> & Hi1)|[Hr Hi1]].
  { exists 0, a1, m, ∅. split; [done|]. split; [done|]. right. done. }
  pose proof (free_page _ _ _ _ Hi Hr) as Hrp.
  assert (Hr0 : (r =? 0) = false) by (apply Z.eqb_neq; destruct Hrp as (_ & ? & _); unfold KERNBASE in *; lia).
  rewrite Hr0. set (m1 := memset r 0 (Z.to_nat PGSIZE) m). rewrite (run_bind _ _ _ tt (a1, m1)) by done.
  change (DEVSPACE <? P2V PHYSTOP) with false. cbv iota.
  pose proof (new_pgdir a1 m Fr r Hi1 Hby Hrp ltac:(rewrite (Hman1 r); by eapply pa_free_managed)) as Hu1.
  fold m1 in Hu1. assert (Hto1 : touches (eq r) m m1) by (by apply touches_memset).
  destruct (setupkvm_loop_spec r (kmap kdata) a1 m1 (Fr ∖ {[r]}) ∅ (fun _ => 0) (2 ^ 19) Hu1)
    as (r' & a' & m' & Fr' & Hrun' & Hman' & Hres); [by apply kmap_kernel_ok|lia|done|].
  assert (Hdec : forall p, p ∈ Fr <-> p ∈ Fr ∖ {[r]} \/ p = r).
  { intros p. rewrite elem_of_difference, elem_of_singleton. destruct (decide (p = r)) as [->|]; tauto. }
  exists r', a', m', Fr'. split; [done|]. split; [by eapply same_managed_trans|].
  destruct Hres as [(-> & T & Hu' & Hsp & Hto)|(-> & Hi' & Hb' & HFr' & Hto)]; [left; exists T|right; split; [done|split; [done|split; [done|]]]].
  - split; [done| |].
    + intros p. rewrite (Hsp p), Hdec. unfold tab. setoid_rewrite lookup_empty. naive_solver.
    + eapply touches_trans; (eapply touches_mono; [|eassumption]); intros p; rewrite Hdec; [by right|].
      unfold tab. setoid_rewrite lookup_empty. naive_solver.
  - split; [intros p; by rewrite HFr', own_new, Hdec|].
    eapply touches_trans; (eapply touches_mono; [|eassumption]); intros p; rewrite Hdec, ?own_new; [by right|done].
Qed.

End Thm.

End VmThm.
