(* ===== verification/VmCopy.v ===== *)
(** * Copying address spaces and writing to them, and the theorems on vm.c *)

From Stdlib Require Import ZArith Lia.
From stdpp Require Import base numbers strings list gmap.
From S2P Require Import Prelude Mmu Mem Cstring Kalloc Vm VmSpec VmUser VmThm.

Open Scope Z_scope.

Import Mmu Mem Cstring Kalloc Vm VmSpec VmUser VmThm.

Module VmCopy.

#[local] Opaque memset store32 load32 memmove.

(** The pages in [Q] are the same in both memories. *)
Definition agree (Q : Z -> Prop) (m m' : mem) : Prop := forall x, Q (page_of x) -> m' x = m x.

Lemma agree_touches Q S m m' : touches S m m' -> (forall p, Q p -> ~ S p) -> agree Q m m'.
Proof. intros Ht HQ x Hx. apply Ht. by apply HQ. Qed.

Lemma agree_trans Q m1 m2 m3 : agree Q m1 m2 -> agree Q m2 m3 -> agree Q m1 m3.
Proof. intros H1 H2 x Hx. by rewrite (H2 x Hx), (H1 x Hx). Qed.

Lemma agree_aspace Q m m' pg T M :
  aspace m pg T M -> agree Q m m' -> (forall p, tab pg T p -> Q p) -> aspace m' pg T M.
Proof.
  intros Ha Hag HQ. apply (aspace_frame m m' (fun p => ~ tab pg T p)); [done| |tauto].
  intros x Hx. apply Hag, HQ. destruct (decide (page_of x = pg)) as [->|Hne]; [by left|].
  destruct (decide (map_Exists (fun _ t => t = page_of x) T)) as [(i & t & Hi & ->)|Hno]; [right; eauto|].
  destruct Hx. intros [?|[i Hi]]; [done|]. apply Hno. by exists i, (page_of x).
Qed.

Section Copy.

Context {A : Type} `{!PageAlloc A}.

(** ** [copyuvm] *)

(** The first [n] pages of [Md] are copies of those of [M] in memory [m0]. *)
Definition copied (m0 : mem) (M : Z -> Z) (m : mem) (Md : Z -> Z) (n : Z) : Prop :=
  forall w, 0 <= w < n -> present (Md w) = true /\ PTE_FLAGS (Md w) = PTE_FLAGS (M w) /\
    forall o, 0 <= o < 4096 -> m (frame (Md w) + o) = m0 (frame (M w) + o).

Lemma frame_off e o : is_page (frame e) -> 0 <= o < 4096 -> page_of (frame e + o) = frame e.
Proof. intros Hp Ho. apply page_of_in; [by apply page_mod|lia]. Qed.

(** The copies survive changes outside the frames of the copy. *)
Lemma copied_touches a Fr d Td m0 M m m' Md n S :
  copied m0 M m Md n -> uspace a m Fr d Td Md -> n <= 2 ^ 19 -> touches S m m' ->
  (forall w, uvpn w -> present (Md w) = true -> ~ S (frame (Md w))) -> copied m0 M m' Md n.
Proof.
  intros Hc Hu Hn Ht HS w Hw. destruct (Hc w Hw) as (Hp & Hfl & Ho). split; [done|]. split; [done|].
  intros o Hoo. rewrite <- (Ho o Hoo). apply Ht.
  destruct (us_frame _ _ _ _ _ _ Hu w ltac:(unfold uvpn; lia) Hp) as (Hm & _).
  rewrite frame_off by (done || by eapply managed_page, Hm; apply (us_vm _ _ _ _ _ _ Hu)).
  apply HS; [unfold uvpn; lia|done].
Qed.

Section Parent.

(** The parent's address space, in the memory before the copy. *)
Context (m0 : mem) (pg : Z) (T : gmap Z Z) (M : Z -> Z) (sz : Z).
Context (Has : aspace m0 pg T M) (Hsz : 0 <= sz <= 2 ^ 31).
Context (Hpres : forall w, 0 <= w < npages sz -> present (M w) = true /\ is_page (frame (M w))).

Definition parent (p : Z) : Prop := tab pg T p \/ exists w, 0 <= w < npages sz /\ p = frame (M w).

(** The flags of an entry that is present. *)
Lemma present_flags e : present e = true -> Z.lor (PTE_FLAGS e) PTE_P = PTE_FLAGS e /\ 0 <= PTE_FLAGS e < 4096.
Proof.
  intros Hp. rewrite PTE_FLAGS_spec. pose proof (Z.mod_pos_bound e 4096 ltac:(lia)) as Hr. split; [|done].
  assert (Hodd : Z.testbit (e mod 4096) 0 = true).
  { change 4096 with (2 ^ 12). rewrite Z.mod_pow2_bits_low by lia. rewrite present_spec in Hp.
    apply negb_true_iff, Z.eqb_neq in Hp. rewrite Z.bit0_odd, Zodd_mod. apply Z.eqb_eq.
    Z.to_euclidean_division_equations; lia. }
  apply Z.bits_inj'. intros j Hj. rewrite Z.lor_spec. unfold PTE_P.
  destruct (decide (j = 0)) as [->|]; [by rewrite Hodd|].
  replace (Z.testbit 1 j) with false; [apply orb_false_r|]. symmetry. apply (Z.bits_above_log2 1 j); [lia|simpl; lia].
Qed.

Record child_ok (a : A) (m : mem) (Fr : gset Z) (d : Z) (Td : gmap Z Z) (Md : Z -> Z) (i : Z) : Prop := {
  ch_space : uspace a m Fr d Td Md;
  ch_agree : agree parent m0 m;
  ch_apart : forall p, parent p -> (p ∉ Fr) /\ ~ own d Td Md p;
  ch_copied : copied m0 M m Md i;
  ch_rest : forall w, i <= w < 2 ^ 19 -> Md w = 0
}.

(** The result of the loop. *)
Definition copy_done (a : A) (m : mem) (Fr : gset Z) (d : Z) (Td : gmap Z Z) (Md : Z -> Z)
    (r : Z) (a' : A) (m' : mem) (Fr' : gset Z) : Prop :=
  (r = d /\ exists Td' Md', child_ok a' m' Fr' d Td' Md' (npages sz) /\ conserve Fr d Td Md Fr' Td' Md' /\
     (forall w, 2 ^ 19 <= w < 2 ^ 20 -> Md' w = Md w)) \/
  (r = 0 /\ pa_inv a' m' Fr' /\ byte_ok m' /\ agree parent m0 m' /\ (forall p, p ∈ Fr' <-> p ∈ Fr \/ own d Td Md p)).

(** One page copied. *)
Lemma child_step a m Fr d Td Md i r m1 a2 m2 Fr2 T2 :
  child_ok a m Fr d Td Md i -> 0 <= i < npages sz -> byte_ok m ->
  m1 = memmove r (frame (M i)) (Z.to_nat PGSIZE) m ->
  mapped_one m Fr d Td Md r m1 m2 Fr2 T2 ->
  uspace a2 m2 Fr2 d T2 (mapped Md i 1 (V2P r) (PTE_FLAGS (M i))) ->
  child_ok a2 m2 Fr2 d T2 (mapped Md i 1 (V2P r) (PTE_FLAGS (M i))) (i + 1).
Proof.
  intros [Hu Hag Hap Hcp Hrest] Hi Hby Hm1 Hmo Hu2. pose proof (npages_bound sz ltac:(lia)) as Hhi.
  destruct (Hpres i Hi) as (Hp & Hfp). destruct (present_flags (M i) Hp) as [Hfl Hperm].
  pose proof (mo_page _ _ _ _ _ _ _ _ _ _ Hmo) as Hrp. destruct (V2P_page r Hrp) as (Hpa & Hpa0 & Hpa1).
  destruct (mo_notin _ _ _ _ _ _ _ _ _ _ Hmo) as (Hn1 & Hn2 & Hn3).
  pose proof (mo_all_touches _ _ _ _ _ _ _ _ _ _ Hmo) as Hto.
  assert (Hag2 : agree parent m0 m2).
  { eapply agree_trans; [exact Hag|]. eapply agree_touches; [exact Hto|]. intros p Hpp.
    destruct (Hap p Hpp) as [H1 H2]. intros [?|?]; [done|]. apply H2. by left. }
  assert (Hcons : conserve Fr d Td Md Fr2 T2 (mapped Md i 1 (V2P r) (PTE_FLAGS (M i)))).
  { apply (mo_conserve m Fr d Td Md r m1 m2); try done; [unfold uvpn; lia|]. by rewrite Hrest by lia. }
  split; [done|done| | |].
  - intros p Hpp. destruct (Hap p Hpp). pose proof (Hcons p). tauto.
  - intros w Hw. destruct (decide (w = i)) as [->|Hne].
    + rewrite mapped_in by lia. replace (V2P r + 4096 * (i - i)) with (V2P r) by lia.
      split; [by apply mkpte_present|]. split; [rewrite <- Hfl at 2; by apply mkpte_addr|].
      rewrite frame_mkpte by done. intros o Ho.
      assert (Hpo : page_of (r + o) = r) by (apply page_of_in; [by apply page_mod|lia]).
      rewrite (mo_touches _ _ _ _ _ _ _ _ _ _ Hmo) by (by rewrite Hpo).
      rewrite Hm1, (memmove_spec r _ _ m Hby). change (Z.of_nat (Z.to_nat PGSIZE)) with 4096.
      rewrite decide_True by lia. replace (frame (M i) + (r + o - r)) with (frame (M i) + o) by lia.
      apply Hag. rewrite frame_off by done. right. exists i. done.
    + rewrite mapped_out by lia. destruct (Hcp w ltac:(lia)) as (Hpw & Hfw & Ho). split; [done|]. split; [done|].
      intros o Hoo. rewrite <- (Ho o Hoo). apply Hto.
      assert (Hwu : uvpn w) by (unfold uvpn; lia).
      destruct (us_frame _ _ _ _ _ _ Hu w Hwu Hpw) as (H1 & H2 & H3).
      rewrite frame_off; [tauto| |done]. eapply managed_page; [apply (us_vm _ _ _ _ _ _ Hu)|exact H1].
  - intros w Hw. rewrite mapped_out by lia. apply Hrest. lia.
Qed.

(** Out of memory: the child is torn down. *)
Lemma child_free (a : A) m Fr d Td Md :
  uspace a m Fr d Td Md -> exists a' m' Fr', (freevm d;; mret 0) (a, m) = Ok (0, (a', m')) /\
    same_managed a a' /\ pa_inv a' m' Fr' /\ (forall p, p ∈ Fr' <-> p ∈ Fr \/ own d Td Md p) /\
    touches (own d Td Md) m m' /\ byte_ok m'.
Proof.
  intros Hu. destruct (freevm_spec a m Fr d Td Md Hu) as (a2 & m2 & Fr2 & Hrun & H).
  exists a2, m2, Fr2. by rewrite (run_bind _ _ _ _ _ Hrun).
Qed.

Lemma child_give_free m Fr d Td Md r m1 (a2 : A) m2 Fr2 T2 :
  mapped_one m Fr d Td Md r m1 m2 Fr2 T2 -> uspace a2 m2 Fr2 d T2 Md -> pa_managed a2 r ->
  exists a' m' Fr', (pa_free r;; freevm d;; mret 0) (a2, m2) = Ok (0, (a', m')) /\
    same_managed a2 a' /\ pa_inv a' m' Fr' /\ (forall p, p ∈ Fr' <-> p ∈ Fr \/ own d Td Md p) /\
    touches (fun p => p ∈ Fr \/ own d Td Md p) m m' /\ byte_ok m'.
Proof.
  intros Hmo Hu2 Hrm. destruct (mo_notin _ _ _ _ _ _ _ _ _ _ Hmo) as (Hn1 & Hn2 & Hn3).
  destruct (give_page a2 m2 Fr2 d T2 Md r Hu2 Hrm Hn1 Hn3) as (a3 & m3 & Hrun3 & Hman3 & Hu3 & Hto3).
  destruct (child_free a3 m3 _ d T2 Md Hu3) as (a4 & m4 & Fr4 & Hrun4 & Hman4 & Hi4 & HFr4 & Hto4 & Hb4).
  exists a4, m4, Fr4. split; [by rewrite (run_bind _ _ _ _ _ Hrun3)|]. split; [by eapply same_managed_trans|].
  split; [done|].
  assert (Hall : forall p, (p ∈ ({[r]} ∪ Fr2 : gset Z) \/ own d T2 Md p) <-> p ∈ Fr \/ own d Td Md p).
  { intros p. rewrite elem_of_union, elem_of_singleton. pose proof (mo_pages _ _ _ _ _ _ _ _ _ _ p Hmo) as Hp.
    unfold own. generalize (exists v, uvpn v /\ present (Md v) = true /\ p = frame (Md v)). clear - Hp. tauto. }
  split; [intros p; by rewrite HFr4|]. split; [|done].
  eapply touches_trans; [eapply touches_mono; [|by eapply mo_all_touches]|eapply touches_trans].
  - intros p [?|?]; [by left|right; by left].
  - eapply touches_mono; [|exact Hto3]. intros p <-. apply Hall. left. set_solver.
  - eapply touches_mono; [|exact Hto4]. intros p Hp. apply Hall. by right.
Qed.

Lemma child_undone d Td Md a m Fr i m' :
  child_ok a m Fr d Td Md i -> touches (fun p => p ∈ Fr \/ own d Td Md p) m m' -> agree parent m0 m'.
Proof.
  intros Hch Hto. eapply agree_trans; [apply (ch_agree _ _ _ _ _ _ _ Hch)|].
  eapply agree_touches; [exact Hto|]. intros p Hp. destruct (ch_apart _ _ _ _ _ _ _ Hch p Hp). tauto.
Qed.

Lemma copyuvm_loop_spec d fuel : forall a m Fr Td Md i,
  child_ok a m Fr d Td Md i -> 0 <= i <= npages sz -> npages sz - i <= Z.of_nat fuel ->
  exists r a' m' Fr', copyuvm_loop fuel pg d sz (4096 * i) (a, m) = Ok (r, (a', m')) /\ same_managed a a' /\
    touches (fun p => p ∈ Fr \/ own d Td Md p) m m' /\ copy_done a m Fr d Td Md r a' m' Fr'.
Proof.
  pose proof (npages_bound sz ltac:(lia)) as Hhi.
  induction fuel as [|fuel IH]; intros a m Fr Td Md i Hch Hi Hf; cbn [copyuvm_loop]; rewrite page_lt;
    destruct (Z.ltb_spec i (npages sz)) as [Hlt|Hge]; [lia| | |].
  1,3: exists d, a, m, Fr; split; [done|]; split; [done|]; split; [done|]; left; split; [done|];
    exists Td, Md; replace (npages sz) with i by lia; done.
  pose proof Hch as [Hu Hag Hap Hcp Hrest].
  assert (Hasm : aspace m pg T M) by (eapply agree_aspace; [exact Has|exact Hag|by left]).
  rewrite (run_bind _ _ _ _ _ (walk_page a m pg T M i Hasm ltac:(lia))).
  destruct (Hpres i ltac:(lia)) as (Hp & Hfp).
  destruct (T !! (i / 1024)) as [t|] eqn:E.
  2: { exfalso. rewrite (a_map _ _ _ _ Hasm i ltac:(lia)), E in Hp. done. }
  destruct (run_rd_entry a m pg T M i t Hasm ltac:(lia) E) as [Hrd ->]. rewrite (run_bind _ _ _ _ _ Hrd), Hp.
  cbn [negb]. fold (frame (M i)).
  destruct (take_page a m Fr d Td Md Hu) as (r & a1 & Hrun & Hman1 & Hres).
  rewrite (run_bind _ _ _ _ _ Hrun).
  destruct Hres as [(-> & -> & Hu1)|(Hr & Hrp & Hu1 & Hrm & Hro)].
  { change (0 =? 0) with true. cbv iota.
    destruct (child_free a1 m ∅ d Td Md Hu1) as (a2 & m2 & Fr2 & Hrun2 & Hman2 & Hi2 & HFr2 & Hto2 & Hb2).
    assert (Hto : touches (fun p => p ∈ (∅ : gset Z) \/ own d Td Md p) m m2) by (eapply touches_mono; [|exact Hto2]; by right).
    exists 0, a2, m2, Fr2. split; [done|]. split; [by eapply same_managed_trans|]. split; [done|].
    right. split; [done|]. split; [done|]. split; [done|]. split; [by eapply child_undone|done]. }
  rewrite (proj2 (Z.eqb_neq r 0)) by (destruct Hrp as (_ & ? & _); unfold KERNBASE in *; lia).
  set (m1 := memmove r (frame (M i)) (Z.to_nat PGSIZE) m).
  rewrite (run_bind _ _ _ tt (a1, m1)) by done.
  pose proof (vm_byte _ _ _ _ _ _ (us_vm _ _ _ _ _ _ Hu)) as Hby.
  assert (Hto1 : touches (eq r) m m1) by (by apply touches_memmove).
  assert (Hu2 : uspace a1 m1 (Fr ∖ {[r]}) d Td Md) by (eapply fill_page; eauto; by apply memmove_byte_ok).
  assert (Hpv : present (Md i) = false) by (by rewrite Hrest by lia).
  destruct (present_flags (M i) Hp) as [Hflags Hperm].
  destruct (map_fresh a1 m1 (Fr ∖ {[r]}) d Td Md i r (PTE_FLAGS (M i)) Hu2 ltac:(unfold uvpn; lia) Hpv Hperm Hrm ltac:(set_solver) Hro)
    as (r2 & a2 & m2 & Fr2 & T2 & M2 & Hrun2 & Hu3 & Hman2 & Hsp2 & Hto2 & Hsub2 & Hres2).
  rewrite (run_bind _ _ _ _ _ Hrun2).
  assert (Hmo : mapped_one m Fr d Td Md r m1 m2 Fr2 T2) by (by split).
  assert (Hman12 : same_managed a a2) by (by eapply same_managed_trans).
  destruct Hres2 as [[-> ->]|(-> & -> & _)].
  - change (0 <? 0) with false. cbv iota. unfold PGSIZE. rewrite u32_small by lia.
    replace (4096 * i + 4096) with (4096 * (i + 1)) by lia.
    pose proof (child_step _ _ _ _ _ _ _ _ _ _ _ _ _ Hch ltac:(lia) Hby eq_refl Hmo Hu3) as Hch'.
    destruct (IH a2 m2 Fr2 T2 _ (i + 1) Hch') as (r3 & a' & m' & Fr' & Hrun3 & Hman3 & Hto3 & Hres3); [lia|lia|].
    pose proof (mo_conserve _ _ _ _ _ _ _ _ _ _ i (PTE_FLAGS (M i)) Hmo Hperm ltac:(unfold uvpn; lia) Hpv) as Hcons.
    exists r3, a', m', Fr'. split; [done|]. split; [by eapply same_managed_trans|]. split.
    { eapply touches_trans; [eapply touches_mono; [|by eapply mo_all_touches]|eapply touches_mono; [|exact Hto3]].
      - intros p [?|?]; [by left|right; by left].
      - intros p. apply Hcons. }
    destruct Hres3 as [(-> & Td' & Md' & Hc' & Hcs' & Hk')|(-> & Hi' & Hb' & Hag' & HFr')]; [left|right]; (split; [done|]).
    + exists Td', Md'. split; [done|]. split; [intros p; by rewrite (Hcs' p)|].
      intros w Hw. rewrite Hk' by done. apply mapped_out. lia.
    + split; [done|]. split; [done|]. split; [done|]. intros p. by rewrite HFr'.
  - change (-1 <? 0) with true. cbv iota.
    destruct (child_give_free m Fr d Td Md r m1 a2 m2 Fr2 T2 Hmo Hu3 ltac:(by rewrite (Hman2 r)))
      as (a' & m' & Fr' & Hrun3 & Hman3 & Hi' & HFr' & Hto' & Hb').
    exists 0, a', m', Fr'. split; [done|]. split; [by eapply same_managed_trans|]. split; [done|].
    right. split; [done|]. split; [done|]. split; [done|]. split; [by eapply child_undone|done].
Qed.

End Parent.

(** ** [copyout] *)

(** The kernel address of the user address [va]. *)
Definition uaddr (M : Z -> Z) (va : Z) : Z := frame (M (va / 4096)) + va mod 4096.

(** User addresses below KERNBASE on a present page that users may access. *)
Definition user_ok (M : Z -> Z) (va : Z) : Prop :=
  0 <= va < 2 ^ 31 /\ present (M (va / 4096)) = true /\ (Z.land (M (va / 4096)) PTE_U =? 0) = false.

Lemma user_uvpn M va : user_ok M va -> uvpn (va / 4096).
Proof. intros (H & _). unfold uvpn. Z.to_euclidean_division_equations; lia. Qed.

Lemma uaddr_page (a : A) m Fr pg T M va :
  uspace a m Fr pg T M -> user_ok M va ->
  is_page (frame (M (va / 4096))) /\ page_of (uaddr M va) = frame (M (va / 4096)).
Proof.
  intros Hu Hva. destruct (us_frame _ _ _ _ _ _ Hu (va / 4096) (user_uvpn M va Hva) ltac:(apply Hva)) as (H1 & _).
  assert (Hp : is_page (frame (M (va / 4096)))) by (eapply managed_page; [apply (us_vm _ _ _ _ _ _ Hu)|exact H1]).
  split; [done|]. apply frame_off; [done|]. apply Z.mod_pos_bound. lia.
Qed.

Lemma uaddr_inj (a : A) m Fr pg T M x y :
  uspace a m Fr pg T M -> user_ok M x -> user_ok M y -> uaddr M x = uaddr M y -> x = y.
Proof.
  intros Hu Hx Hy E. destruct (uaddr_page _ _ _ _ _ _ _ Hu Hx) as [_ Hpx].
  destruct (uaddr_page _ _ _ _ _ _ _ Hu Hy) as [_ Hpy]. rewrite E, Hpy in Hpx.
  pose proof (us_inj _ _ _ _ _ _ Hu _ _ (user_uvpn _ _ Hy) (user_uvpn _ _ Hx) ltac:(apply Hy) ltac:(apply Hx) Hpx) as Hd.
  unfold uaddr in E. rewrite Hd in E. rewrite (Z.div_mod x 4096), (Z.div_mod y 4096) by lia. lia.
Qed.

Lemma run_uva2ka a m Fr pg T M va :
  uspace a m Fr pg T M -> user_ok M va ->
  uva2ka pg (PGROUNDDOWN va) (a, m) = Ok (frame (M (va / 4096)), (a, m)).
Proof.
  intros Hu Hva. pose proof (vm_as _ _ _ _ _ _ (us_vm _ _ _ _ _ _ Hu)) as Ha.
  pose proof (user_uvpn M va Hva) as Hv. destruct Hva as (Hr & Hp & HU). unfold uvpn in Hv.
  rewrite PGROUNDDOWN_spec by lia. unfold uva2ka.
  rewrite (run_bind _ _ _ _ _ (walk_page a m pg T M (va / 4096) Ha ltac:(lia))).
  destruct (T !! (va / 4096 / 1024)) as [t|] eqn:E.
  2: { exfalso. rewrite (a_map _ _ _ _ Ha (va / 4096) ltac:(lia)), E in Hp. done. }
  destruct (run_rd_entry a m pg T M (va / 4096) t Ha ltac:(lia) E) as [Hrd H0].
  unfold rdpte. rewrite H0, (run_bind _ _ _ _ _ Hrd), HU.
  unfold present in Hp. apply negb_true_iff in Hp. by rewrite Hp.
Qed.

(** The result of writing [len] bytes at [va]. *)
Definition wrote (M : Z -> Z) (m : mem) (va buf len : Z) (m' : mem) : Prop :=
  (forall j, 0 <= j < len -> m' (uaddr M (va + j)) = m (buf + j)) /\
  (forall x, (forall j, 0 <= j < len -> x <> uaddr M (va + j)) -> m' x = m x).

(** The part of the write on the first page. *)
Lemma wrote_page (a : A) m Fr pg T M va buf n :
  uspace a m Fr pg T M -> 0 < n -> va mod 4096 + n <= 4096 -> user_ok M va ->
  wrote M m va buf n (memmove (uaddr M va) buf (Z.to_nat n) m).
Proof.
  intros Hu Hn Hpg Hva.
  assert (HU : forall j, 0 <= j < n -> uaddr M (va + j) = uaddr M va + j).
  { intros j Hj. unfold uaddr. replace ((va + j) / 4096) with (va / 4096) by (Z.to_euclidean_division_equations; lia).
    replace ((va + j) mod 4096) with (va mod 4096 + j) by (Z.to_euclidean_division_equations; lia). lia. }
  pose proof (memmove_spec (uaddr M va) buf (Z.to_nat n) m (vm_byte _ _ _ _ _ _ (us_vm _ _ _ _ _ _ Hu))) as Hm.
  split.
  - intros j Hj. rewrite (Hm _), HU by done. rewrite decide_True by lia. f_equal. lia.
  - intros x Hx. rewrite (Hm x). rewrite decide_False; [done|]. intros Hr.
    apply (Hx (x - uaddr M va)); [lia|]. rewrite HU by lia. lia.
Qed.

Lemma wrote_app (a : A) m Fr pg T M va buf n len m1 m2 :
  uspace a m Fr pg T M -> 0 <= n <= len -> (forall j, 0 <= j < len -> user_ok M (va + j)) ->
  (forall j i, 0 <= j < len -> 0 <= i < len -> buf + j <> uaddr M (va + i)) ->
  wrote M m va buf n m1 -> wrote M m1 (va + n) (buf + n) (len - n) m2 -> wrote M m va buf len m2.
Proof.
  intros Hu Hn Hok Hap [H1 H2] [H3 H4]. split.
  - intros j Hj. destruct (Z.ltb_spec j n) as [Hlt|Hge].
    + rewrite H4; [apply H1; lia|]. intros i Hi E.
      pose proof (uaddr_inj _ _ _ _ _ _ _ _ Hu (Hok j Hj) (Hok (n + i) ltac:(lia)) ltac:(by rewrite Z.add_assoc)). lia.
    + pose proof (H3 (j - n) ltac:(lia)) as E. replace (va + n + (j - n)) with (va + j) in E by lia.
      replace (buf + n + (j - n)) with (buf + j) in E by lia. rewrite E. apply H2. intros i Hi. apply Hap; lia.
  - intros x Hx. rewrite H4; [apply H2|]; intros j Hj; [apply Hx; lia|]. rewrite <- Z.add_assoc. apply Hx. lia.
Qed.

Lemma copyout_loop_spec pg T M fuel : forall (a : A) m Fr va buf len,
  uspace a m Fr pg T M -> 0 <= len -> (va mod 4096 + len + 4095) / 4096 <= Z.of_nat fuel ->
  (forall j, 0 <= j < len -> user_ok M (va + j)) ->
  (forall j i, 0 <= j < len -> 0 <= i < len -> buf + j <> uaddr M (va + i)) ->
  exists m', copyout_loop fuel pg va buf len (a, m) = Ok (0, (a, m')) /\ uspace a m' Fr pg T M /\ wrote M m va buf len m'.
Proof.
  induction fuel as [|fuel IH]; intros a m Fr va buf len Hu Hlen Hf Hok Hap; cbn [copyout_loop];
    destruct (Z.ltb_spec 0 len) as [Hlt|Hge].
  { exfalso. pose proof (Z.mod_pos_bound va 4096 ltac:(lia)).
    pose proof (Z.div_le_mono 4096 (va mod 4096 + len + 4095) 4096 ltac:(lia) ltac:(lia)) as Hd.
    change (4096 / 4096) with 1 in Hd. lia. }
  1,3: exists m; split; [done|]; split; [done|]; split; [intros j Hj; lia|done].
  pose proof (Hok 0 ltac:(lia)) as Hva. rewrite Z.add_0_r in Hva.
  rewrite (run_bind _ _ _ _ _ (run_uva2ka a m Fr pg T M va Hu Hva)).
  destruct (uaddr_page a m Fr pg T M va Hu Hva) as [Hp Hpu].
  assert (Hr : 0 <= va < 2 ^ 31) by apply Hva.
  rewrite (proj2 (Z.eqb_neq _ 0)) by (destruct Hp as (_ & ? & _); unfold KERNBASE in *; lia).
  rewrite PGROUNDDOWN_spec by lia.
  assert (Eo : va - 4096 * (va / 4096) = va mod 4096) by (rewrite Z.mod_eq by lia; lia). rewrite Eo.
  fold (uaddr M va). unfold PGSIZE. pose proof (Z.mod_pos_bound va 4096 ltac:(lia)) as Hmod.
  set (n := if len <? 4096 - va mod 4096 then len else 4096 - va mod 4096).
  assert (Hn : n = Z.min len (4096 - va mod 4096)) by (unfold n; destruct (Z.ltb_spec len (4096 - va mod 4096)); lia).
  set (m1 := memmove (uaddr M va) buf (Z.to_nat n) m).
  rewrite (run_bind _ _ _ tt (a, m1)) by done.
  pose proof (wrote_page a m Fr pg T M va buf n Hu ltac:(lia) ltac:(lia) Hva) as Hw. fold m1 in Hw.
  assert (Hu1 : uspace a m1 Fr pg T M).
  { destruct (us_frame _ _ _ _ _ _ Hu (va / 4096) (user_uvpn M va Hva) ltac:(apply Hva)) as (_ & H2 & H3).
    eapply (uspace_frame a m m1 Fr pg T M (eq (frame (M (va / 4096))))); [done| | |].
    - intros x Hx. unfold m1. rewrite (memmove_spec _ _ _ _ (vm_byte _ _ _ _ _ _ (us_vm _ _ _ _ _ _ Hu)) x).
      rewrite decide_False; [done|]. intros Hxr. apply Hx. symmetry. apply page_of_in; [by apply page_mod|].
      unfold uaddr in Hxr. lia.
    - apply memmove_byte_ok. apply (vm_byte _ _ _ _ _ _ (us_vm _ _ _ _ _ _ Hu)).
    - by intros p [?|?] <-. }
  assert (Hnext : u32 (4096 * (va / 4096) + 4096) = va - va mod 4096 + 4096) by (rewrite u32_small; lia).
  rewrite Hnext. destruct (decide (n = len)) as [E|Hne].
  { exists m1. rewrite E, Z.sub_diag. split; [by destruct fuel|]. split; [done|]. by rewrite <- E at 1. }
  replace (va - va mod 4096 + 4096) with (va + n) by lia.
  destruct (IH a m1 Fr (va + n) (buf + n) (len - n) Hu1) as (m' & Hrun & Hu' & Hw').
  - lia.
  - replace ((va + n) mod 4096) with 0; [|symmetry; Z.to_euclidean_division_equations; lia].
    clear - Hf Hn Hne Hmod. Z.to_euclidean_division_equations; lia.
  - intros j Hj. rewrite <- Z.add_assoc. apply Hok. lia.
  - intros j i Hj Hi. rewrite <- !Z.add_assoc. apply Hap; lia.
  - exists m'. split; [done|]. split; [done|]. apply (wrote_app a m Fr pg T M va buf n len m1 m'); try done. lia.
Qed.

(** ** [copyuvm] as a whole *)

Variable kdata : Z.

Lemma kmapped_user ks M lo w : kmap_ok lo ks -> 2 ^ 19 <= lo -> w < 2 ^ 19 -> kmapped ks M w = M w.
Proof.
  revert M lo. induction ks as [|k ks IH]; intros M lo Hok Hlo Hw; [done|].
  destruct Hok as (_ & _ & H1 & H2 & H3 & _ & _ & _ & _ & Hok). unfold kmapped. cbn [fold_left].
  fold (kmapped ks (mapped M (kvpn k) (klen k) (phys_start k) (kperm k))). rewrite (IH _ _ Hok) by lia.
  apply mapped_out. lia.
Qed.

Lemma uspace_keep (a a' : A) m m' Fr Fr' pg T M :
  uspace a m Fr pg T M -> same_managed a a' -> pa_inv a' m' Fr' -> byte_ok m' ->
  agree (own pg T M) m m' -> (forall p, own pg T M p -> p ∉ Fr') -> uspace a' m' Fr' pg T M.
Proof.
  intros [[Hi Hby Ha Ht] Hf Hin Hn] Hman Hi' Hb' Hag HFr. split; [split; [done|done| |]| |done|done].
  - eapply agree_aspace; [done|exact Hag|by left].
  - intros p Hp. destruct (Ht p Hp). rewrite (Hman p). split; [done|]. apply HFr. by left.
  - intros v Hv Hp. destruct (Hf v Hv Hp) as (H1 & H2 & H3). rewrite (Hman _). split; [done|].
    split; [|done]. apply HFr. right. eauto.
Qed.

(** What [copyuvm] promises: the child is a copy, built from free pages. *)
Record fork_ok (m : mem) (Fr : gset Z) (M : Z -> Z) (sz r : Z) (a' : A) (m' : mem) (Fr' : gset Z)
    (Td : gmap Z Z) (Md : Z -> Z) : Prop := {
  fk_space : uspace a' m' Fr' r Td Md;
  fk_copied : copied m M m' Md (npages sz);
  fk_rest : forall w, npages sz <= w < 2 ^ 19 -> Md w = 0;
  fk_kernel : forall w, 2 ^ 19 <= w < 2 ^ 20 -> Md w = kmapped (kmap kdata) (fun _ => 0) w;
  fk_pages : forall p, p ∈ Fr <-> p ∈ Fr' \/ own r Td Md p
}.

Lemma own_kernel pg (T : gmap Z Z) p : kdata_ok kdata ->
  own pg T (kmapped (kmap kdata) (fun _ => 0)) p <-> tab pg T p.
Proof.
  intros Hkd. split; [|by left]. intros [?|(v & Hv & Hp & _)]; [done|].
  by rewrite (kmapped_user _ _ _ v (kmap_kernel_ok kdata Hkd)) in Hp by (unfold uvpn in Hv; lia).
Qed.

Lemma copyuvm_spec a m Fr pg T M sz :
  kdata_ok kdata -> uspace a m Fr pg T M -> 0 <= sz <= 2 ^ 31 ->
  (forall w, 0 <= w < npages sz -> present (M w) = true) ->
  exists r a' m' Fr', copyuvm kdata pg sz (a, m) = Ok (r, (a', m')) /\ same_managed a a' /\
    touches (fun p => p ∈ Fr) m m' /\ uspace a' m' Fr' pg T M /\
    ((exists Td Md, fork_ok m Fr M sz r a' m' Fr' Td Md) \/ (r = 0 /\ forall p, p ∈ Fr' <-> p ∈ Fr)).
Proof.
  intros Hkd Hu Hsz Hpres. unfold copyuvm. pose proof (us_vm _ _ _ _ _ _ Hu) as Hvm.
  pose proof (npages_bound sz ltac:(lia)) as Hhi. pose proof (npages_nonneg sz ltac:(lia)) as Hlo.
  assert (Hkeep : forall a' m' Fr', same_managed a a' -> pa_inv a' m' Fr' -> byte_ok m' ->
    touches (fun p => p ∈ Fr) m m' -> (forall p, p ∈ Fr' -> p ∈ Fr) -> uspace a' m' Fr' pg T M).
  { intros a' m' Fr' Hman Hi Hb Hto Hsub. eapply uspace_keep; [done|done|done|done| |].
    - eapply agree_touches; [exact Hto|]. intros p Hp. by eapply uspace_own.
    - intros p Hp Hin. apply Hsub in Hin. by eapply uspace_own. }
  destruct (setupkvm_spec kdata a m Fr Hkd) as (d & a1 & m1 & Fr1 & Hrun1 & Hman1 & Hres1); [apply Hvm|apply Hvm|].
  rewrite (run_bind _ _ _ _ _ Hrun1). destruct Hres1 as [(Td & [Hu1 Hpg1 Hto1])|(-> & Hi1 & Hb1 & HFr1 & Hto1)].
  2: { exists 0, a1, m1, Fr1. split; [done|]. split; [done|]. split; [done|].
       split; [apply Hkeep; try done; intros p; by rewrite HFr1|]. by right. }
  set (K := kmapped (kmap kdata) (fun _ => 0)) in *.
  assert (Hd : (d =? 0) = false).
  { destruct (a_pg _ _ _ _ (vm_as _ _ _ _ _ _ (us_vm _ _ _ _ _ _ Hu1))) as (_ & ? & _).
    apply Z.eqb_neq. unfold KERNBASE in *. lia. }
  rewrite Hd. assert (HownK : forall p, p ∈ Fr1 \/ own d Td K p <-> p ∈ Fr).
  { intros p. unfold K. by rewrite own_kernel, Hpg1. }
  assert (Hpar : forall p, parent pg T M sz p -> own pg T M p).
  { intros p [?|(w & Hw & ->)]; [by left|right]. exists w. split; [unfold uvpn; lia|]. auto. }
  assert (Hch : child_ok m pg T M sz a1 m1 Fr1 d Td K 0).
  { split; [done| | | |].
    - eapply agree_touches; [exact Hto1|]. intros p Hp%Hpar. by eapply uspace_own.
    - intros p Hp%Hpar. pose proof (HownK p). destruct (uspace_own _ _ _ _ _ _ _ Hu Hp). tauto.
    - intros w Hw. lia.
    - intros w Hw. unfold K. rewrite (kmapped_user _ _ _ w (kmap_kernel_ok kdata Hkd)) by lia. done. }
  destruct (copyuvm_loop_spec m pg T M sz (vm_as _ _ _ _ _ _ Hvm) Hsz) with (d := d) (fuel := Z.to_nat (sz / PGSIZE + 1))
    (a := a1) (m := m1) (Fr := Fr1) (Td := Td) (Md := K) (i := 0)
    as (r & a' & m' & Fr' & Hrun & Hman & Hto & Hres); [| done | lia | |].
  { intros w Hw. split; [by apply Hpres|].
    destruct (us_frame _ _ _ _ _ _ Hu w ltac:(unfold uvpn; lia) (Hpres w Hw)) as (H1 & _). eapply managed_page; [apply Hvm|exact H1]. }
  { unfold npages, PGSIZE. Z.to_euclidean_division_equations; lia. }
  change (4096 * 0) with 0 in Hrun. exists r, a', m', Fr'. split; [done|]. split; [by eapply same_managed_trans|].
  assert (Htot : touches (fun p => p ∈ Fr) m m').
  { eapply touches_trans; [exact Hto1|]. eapply touches_mono; [|exact Hto]. intros p. apply HownK. }
  split; [done|]. destruct Hres as [(-> & Td' & Md' & Hc & Hcons & Hk)|(-> & Hi' & Hb' & _ & HFr')].
  - assert (Hpages : forall p, p ∈ Fr <-> p ∈ Fr' \/ own d Td' Md' p) by (intros p; by rewrite (Hcons p), HownK).
    destruct Hc as [Hs _ _ Hcp Hrest]. split.
    + apply Hkeep; try done; [by eapply same_managed_trans|apply (us_vm _ _ _ _ _ _ Hs)|apply (us_vm _ _ _ _ _ _ Hs)|].
      intros p Hp. apply Hpages. by left.
    + left. exists Td', Md'. by split.
  - split.
    + apply Hkeep; try done; [by eapply same_managed_trans|]. intros p. rewrite HFr'. apply HownK.
    + right. split; [done|]. intros p. by rewrite HFr', HownK.
Qed.

End Copy.

End VmCopy.
