(* ===== verification/VmProps.v ===== *)
(** * What vm.c promises

    The theorems on address spaces, for any page allocator that keeps the
    contract [PageAlloc], with witnesses on the kernel's own allocator after
    the boot sequence. *)

From Stdlib Require Import ZArith Lia.
From stdpp Require Import base numbers strings list gmap.
From S2P Require Import Prelude Mmu Mem Cstring Kalloc Vm VmSpec VmUser VmThm VmCopy.

Open Scope Z_scope.

Import Mmu Mem Cstring Kalloc Vm VmSpec VmUser VmThm VmCopy.

Module VmProps.

#[local] Opaque memset store32 load32 memmove pages_from.

(** ** A machine to run on *)

Definition kend0 : Z := P2V 0x110000.

(** An address space of one user page on the booted kernel. *)
Definition user_map (p : Z) : Z -> Z := mapped (fun _ => 0) 0 1 (V2P p) (Z.lor PTE_W PTE_U).

Lemma booted_free : exists a Fr, (forall m, pa_inv (PageAlloc := kalloc_pages kend0) a m Fr) /\
  (forall i, 0 <= i < 4 -> 2153467904 + PGSIZE * i ∈ Fr).
Proof.
  destruct (booted_pages kend0 ltac:(done)) as [a Ha]. exists a, (pages_from 2153467904 (Z.to_nat 55883)).
  split; [exact Ha|]. intros i Hi. apply elem_of_pages_from. exists i. split; [lia|done].
Qed.

Lemma other_free (Fr : gset Z) p q : (forall i, 0 <= i < 4 -> 2153467904 + PGSIZE * i ∈ Fr) ->
  exists r, r ∈ Fr /\ r <> p /\ r <> q.
Proof.
  intros HFr. pose proof (HFr 0 ltac:(lia)) as H0. pose proof (HFr 1 ltac:(lia)) as H1.
  pose proof (HFr 2 ltac:(lia)) as H2. unfold PGSIZE in *.
  destruct (decide (p = 2153467904 + 4096 * 0 \/ q = 2153467904 + 4096 * 0)); [|eexists; split; [exact H0|lia]].
  destruct (decide (p = 2153467904 + 4096 * 1 \/ q = 2153467904 + 4096 * 1)); [|eexists; split; [exact H1|lia]].
  eexists. split; [exact H2|lia].
Qed.

Lemma user_space_exists : exists (a : alloc_state) m Fr pg T p,
  uspace (PageAlloc0 := kalloc_pages kend0) a m Fr pg T (user_map p) /\ is_page p.
Proof.
  destruct booted_free as (a & Fr & Ha & HFr). set (m := fun _ : Z => 0).
  destruct (pa_alloc_ok a m Fr (Ha m)) as (pg & a1 & _ & Hman1 & [(_ & -> & _)|[Hpg Hi1]]).
  { by specialize (HFr 0 ltac:(lia)). }
  pose proof (free_page _ _ _ _ (Ha m) Hpg) as Hpgp.
  assert (Hpgm : pa_managed a1 pg) by (apply Hman1; by apply (pa_free_managed a m Fr)).
  pose proof (new_pgdir a1 m Fr pg Hi1 ltac:(intros x; done) Hpgp Hpgm) as Hu1.
  set (m1 := memset pg 0 (Z.to_nat PGSIZE) m) in *.
  destruct (take_page a1 m1 _ pg ∅ _ Hu1) as (p & a2 & _ & Hman2 & [(_ & HE & _)|(Hp & Hpp & Hu2 & Hpm & Hpo)]).
  { destruct (other_free Fr pg pg HFr) as (q & Hq & Hqp & _). assert (H : q ∈ Fr ∖ {[pg]}) by (by rewrite elem_of_difference, elem_of_singleton).
    rewrite HE in H. by apply elem_of_empty in H. }
  destruct (map_fresh a2 m1 _ pg ∅ _ 0 p (Z.lor PTE_W PTE_U) Hu2) as (r & a3 & m3 & Fr3 & T3 & M3 & _ & Hu3 & _ & Hsp & _ & _ & Hres);
    try done; [rewrite elem_of_difference, elem_of_singleton; tauto|].
  destruct Hres as [[_ ->]|(_ & _ & -> & ->)]; [by exists a3, m3, Fr3, pg, T3, p|].
  exfalso. destruct (other_free Fr p pg HFr) as (q & Hq & Hqp & Hqg).
  destruct (proj2 (Hsp q)) as [H|[H|[i Hi]]]; [left|by apply elem_of_empty in H|done|].
  - by rewrite !elem_of_difference, !elem_of_singleton.
  - by rewrite lookup_empty in Hi.
Qed.

Lemma user_map_0 p : is_page p -> user_ok (user_map p) 0 /\ frame (user_map p 0) = p.
Proof.
  intros Hp. destruct (V2P_page p Hp) as (Hpa & Hpa0 & Hpa1). unfold user_ok, user_map.
  change (0 / 4096) with 0. rewrite mapped_in by lia. replace (V2P p + 4096 * (0 - 0)) with (V2P p) by lia.
  assert (Hperm : 0 <= Z.lor PTE_W PTE_U < 4096) by (vm_compute; done).
  rewrite frame_mkpte by done. split; [|done]. split; [lia|]. split; [by apply mkpte_present|].
  apply Z.eqb_neq. intros E. assert (Hb : Z.testbit (Z.land (mkpte (V2P p) (Z.lor PTE_W PTE_U)) PTE_U) 2 = false) by (by rewrite E).
  rewrite Z.land_spec in Hb. rewrite <- mkpte_eq, !Z.lor_spec in Hb by done.
  change (Z.testbit PTE_U 2) with true in Hb. rewrite !orb_true_r in Hb. done.
Qed.

Section Props.

Context {A : Type} `{!PageAlloc A}.

Lemma gone_same M lo hi w : (forall v, lo <= v < hi -> M v = 0) -> gone M lo hi w = M w.
Proof.
  intros H. destruct (decide (lo <= w < hi)) as [Hw|]; [rewrite gone_in by done; by rewrite H|by apply gone_out].
Qed.

(** C19: growing a process with [allocuvm] maps, at every page between the old
    and the new size, a fresh zeroed page that is writable by the user, and
    changes no other mapping; or, when memory runs out at any point, it returns
    0 with the mappings as they were.  In both cases no page is lost or used
    twice: the free pages and the pages of the address space are together the
    same set as before, and only those pages are written. *)
Theorem allocuvm_correct (a : A) m Fr pg T M oldsz newsz :
  uspace a m Fr pg T M -> 0 <= oldsz <= newsz -> newsz < KERNBASE ->
  (forall w, npages oldsz <= w < npages newsz -> present (M w) = false) ->
  exists r a' m' Fr' T' M', allocuvm pg oldsz newsz (a, m) = Ok (r, (a', m')) /\ same_managed a a' /\
    ((r = newsz /\ alloc_ok a m Fr pg T M (npages oldsz) (npages newsz) a' m' Fr' T' M') \/
     (r = 0 /\ uspace a' m' Fr' pg T' M /\ conserve Fr pg T M Fr' T' M /\
      touches (fun p => p ∈ Fr \/ tab pg T p) m m')).
Proof.
  intros Hu Hsz Hk Hfree. pose proof (npages_bound newsz ltac:(unfold KERNBASE in Hk; lia)) as Hhi.
  pose proof (npages_nonneg oldsz ltac:(lia)) as Hlo. unfold allocuvm.
  rewrite (proj2 (Z.leb_gt KERNBASE newsz)), (proj2 (Z.ltb_ge newsz oldsz)) by lia.
  rewrite PGROUNDUP_spec by (unfold KERNBASE, PGSIZE in *; lia). fold (npages oldsz).
  destruct (decide (oldsz = newsz)) as [->|Hne].
  { exists newsz, a, m, Fr, T, M. split; [|split; [done|left; split; [done|]]].
    - destruct (Z.to_nat (newsz / PGSIZE + 1)); cbn [allocuvm_loop]; rewrite page_lt; by rewrite Z.ltb_irrefl.
    - split; [done|done|intros w Hw; lia|done|done]. }
  destruct (allocuvm_loop_spec pg oldsz newsz ltac:(lia) Hk (Z.to_nat (newsz / PGSIZE + 1)) a m Fr T M (npages oldsz) Hu)
    as (r & a' & m' & Fr' & T' & M' & Hrun & Hman & Hres); [lia| |done|].
  { unfold npages, PGSIZE in *. Z.to_euclidean_division_equations; lia. }
  assert (Hz : forall v, npages oldsz <= v < npages newsz -> M v = 0).
  { intros v Hv. apply (us_none _ _ _ _ _ _ Hu); [unfold uvpn; lia|by apply Hfree]. }
  exists r, a', m', Fr', T', M'. split; [done|]. split; [done|]. destruct Hres as [?|[-> [H1 H2 H3]]]; [by left|right].
  split; [done|]. split; [eapply uspace_ext; [exact H1|]; intros w _; by rewrite gone_same|]. split.
  - intros p. rewrite <- (H2 p), (own_ext pg T' M (gone M (npages oldsz) (npages newsz)) p); [done|].
    intros w _. by apply gone_same.
  - eapply touches_mono; [|exact H3]. intros p [?|[?|(w & Hw & Hp & _)]]; [by left|by right|].
    by rewrite Hfree in Hp.
Qed.

(** [freevm] gives back exactly the pages of the address space: its user
    pages, its page tables and its directory.  Afterwards the free pages are
    the old ones and these, and no other page was written. *)
Theorem freevm_correct (a : A) m Fr pg T M :
  uspace a m Fr pg T M ->
  exists a' m' Fr', freevm pg (a, m) = Ok (tt, (a', m')) /\ pa_inv a' m' Fr' /\ same_managed a a' /\
    (forall p, p ∈ Fr' <-> p ∈ Fr \/ own pg T M p) /\ touches (own pg T M) m m'.
Proof.
  intros Hu. destruct (freevm_spec a m Fr pg T M Hu) as (a' & m' & Fr' & Hrun & Hman & Hi & HFr & Hto & _).
  by exists a', m', Fr'.
Qed.

(** [setupkvm] builds a directory whose kernel part maps exactly the four
    ranges of [kmap] with their permissions and whose user part is empty, from
    free pages; when memory runs out it returns 0 and every page it took is
    free again. *)
Theorem setupkvm_correct kdata (a : A) m Fr :
  kdata_ok kdata -> pa_inv a m Fr -> byte_ok m ->
  exists r a' m' Fr', setupkvm kdata (a, m) = Ok (r, (a', m')) /\ same_managed a a' /\
    ((exists T, kvm_ok kdata a m Fr r a' m' Fr' T) \/
     (r = 0 /\ pa_inv a' m' Fr' /\ (forall p, p ∈ Fr' <-> p ∈ Fr) /\ touches (fun p => p ∈ Fr) m m')).
Proof.
  intros Hk Hi Hb. destruct (setupkvm_spec kdata a m Fr Hk Hi Hb) as (r & a' & m' & Fr' & Hrun & Hman & Hres).
  exists r, a', m', Fr'. split; [done|]. split; [done|].
  destruct Hres as [?|(? & ? & _ & ? & ?)]; [by left|by right].
Qed.

(** C18: [copyuvm] gives the child its own copy of every page of the parent,
    with the same flags and the same bytes, and the kernel mappings; the child
    consists of pages that were free.  When memory runs out it returns 0 and
    gives back every page.  In both cases the parent's address space is intact
    and only pages that were free are written. *)
Theorem copyuvm_correct kdata (a : A) m Fr pg T M sz :
  kdata_ok kdata -> uspace a m Fr pg T M -> 0 <= sz <= KERNBASE ->
  (forall w, 0 <= w < npages sz -> present (M w) = true) ->
  exists r a' m' Fr', copyuvm kdata pg sz (a, m) = Ok (r, (a', m')) /\
    touches (fun p => p ∈ Fr) m m' /\ uspace a' m' Fr' pg T M /\
    ((exists Td Md, fork_ok kdata m Fr M sz r a' m' Fr' Td Md) \/ (r = 0 /\ forall p, p ∈ Fr' <-> p ∈ Fr)).
Proof.
  intros Hk Hu Hsz Hp. destruct (copyuvm_spec kdata a m Fr pg T M sz Hk Hu Hsz Hp)
    as (r & a' & m' & Fr' & Hrun & _ & H). by exists r, a', m', Fr'.
Qed.

(** [copyout] to user pages that are present and accessible, across page
    boundaries, stores the bytes at the addresses the page table gives and
    changes no other byte, and returns 0. *)
Theorem copyout_correct (a : A) m Fr pg T M va buf len :
  uspace a m Fr pg T M -> 0 <= len < 2 ^ 32 ->
  (forall j, 0 <= j < len -> user_ok M (va + j)) ->
  (forall j i, 0 <= j < len -> 0 <= i < len -> buf + j <> uaddr M (va + i)) ->
  exists m', copyout pg va buf len (a, m) = Ok (0, (a, m')) /\ uspace a m' Fr pg T M /\
    (forall j, 0 <= j < len -> m' (uaddr M (va + j)) = m (buf + j)) /\
    (forall x, (forall j, 0 <= j < len -> x <> uaddr M (va + j)) -> m' x = m x).
Proof.
  intros Hu Hlen Hok Hap. unfold copyout, PGSIZE. apply copyout_loop_spec; try done; [lia|].
  rewrite Z2Nat.id by (Z.to_euclidean_division_equations; lia). Z.to_euclidean_division_equations; lia.
Qed.

End Props.

(** ** Witnesses on the booted kernel *)

#[local] Instance booted : PageAlloc alloc_state := kalloc_pages kend0.

Lemma allocuvm_correct_witness : exists (a : alloc_state) m Fr pg T p r a' m' Fr' T' M',
  uspace a m Fr pg T (user_map p) /\ allocuvm pg 4096 12000 (a, m) = Ok (r, (a', m')) /\
  ((r = 12000 /\ alloc_ok a m Fr pg T (user_map p) 1 3 a' m' Fr' T' M') \/
   (r = 0 /\ uspace a' m' Fr' pg T' (user_map p))).
Proof.
  destruct user_space_exists as (a & m & Fr & pg & T & p & Hu & Hp).
  destruct (allocuvm_correct a m Fr pg T (user_map p) 4096 12000 Hu) as (r & a' & m' & Fr' & T' & M' & Hrun & _ & H).
  - lia.
  - reflexivity.
  - intros w Hw. change (npages 4096) with 1 in Hw. unfold user_map. rewrite mapped_out by lia. reflexivity.
  - exists a, m, Fr, pg, T, p, r, a', m', Fr', T', M'. split; [exact Hu|]. split; [exact Hrun|].
    destruct H as [H|(H0 & H1 & _)]; [left; exact H|right; split; [exact H0|exact H1]].
Defined.

Lemma freevm_correct_witness : exists (a : alloc_state) m pg a' m' Fr',
  freevm pg (a, m) = Ok (tt, (a', m')) /\ pa_inv a' m' Fr' /\ pg ∈ Fr'.
Proof.
  destruct user_space_exists as (a & m & Fr & pg & T & p & Hu & Hp).
  destruct (freevm_correct a m Fr pg T (user_map p) Hu) as (a' & m' & Fr' & Hrun & Hi & _ & HFr & _).
  exists a, m, pg, a', m', Fr'. split; [exact Hrun|]. split; [exact Hi|]. apply HFr. right. left. by left.
Defined.

Lemma kdata0_ok : kdata_ok (P2V 0x108000).
Proof. split; [reflexivity|]. split; reflexivity. Qed.

Lemma setupkvm_correct_witness : exists (a : alloc_state) m r a' m',
  setupkvm (P2V 0x108000) (a, m) = Ok (r, (a', m')).
Proof.
  destruct booted_free as (a & Fr & Ha & _).
  destruct (setupkvm_correct (P2V 0x108000) a (fun _ => 0) Fr kdata0_ok (Ha _) ltac:(intros x; split; [lia|reflexivity]))
    as (r & a' & m' & Fr' & Hrun & _).
  exists a, (fun _ => 0), r, a', m'. exact Hrun.
Defined.

Lemma copyuvm_correct_witness : exists (a : alloc_state) m pg r a' m' Fr' T p,
  copyuvm (P2V 0x108000) pg 4096 (a, m) = Ok (r, (a', m')) /\ uspace a' m' Fr' pg T (user_map p).
Proof.
  destruct user_space_exists as (a & m & Fr & pg & T & p & Hu & Hp).
  destruct (copyuvm_correct (P2V 0x108000) a m Fr pg T (user_map p) 4096 kdata0_ok Hu) as (r & a' & m' & Fr' & Hrun & _ & H & _).
  - split; [lia|discriminate].
  - intros w Hw. change (npages 4096) with 1 in Hw. replace w with 0 by lia. apply (user_map_0 p Hp).
  - exists a, m, pg, r, a', m', Fr', T, p. split; [exact Hrun|exact H].
Defined.

Lemma copyout_correct_witness : exists (a : alloc_state) m pg p m',
  copyout pg 100 2000 5 (a, m) = Ok (0, (a, m')) /\ is_page p /\ m' (p + 102) = m 2002.
Proof.
  destruct user_space_exists as (a & m & Fr & pg & T & p & Hu & Hp).
  destruct (user_map_0 p Hp) as [Hok Hf].
  assert (Hdiv : forall j, 0 <= j < 5 -> (100 + j) / 4096 = 0 /\ (100 + j) mod 4096 = 100 + j)
    by (intros j Hj; split; [apply Z.div_small; lia|apply Z.mod_small; lia]).
  destruct (copyout_correct a m Fr pg T (user_map p) 100 2000 5 Hu) as (m' & Hrun & _ & Hw & _).
  - lia.
  - intros j Hj. destruct (Hdiv j Hj) as [E _]. unfold user_ok in *. rewrite E. split; [lia|]. apply Hok.
  - intros j i Hj Hi. unfold uaddr. destruct (Hdiv i Hi) as [-> ->]. rewrite Hf.
    destruct Hp as (_ & Hk & _). unfold KERNBASE in Hk. lia.
  - exists a, m, pg, p, m'. split; [exact Hrun|]. split; [exact Hp|].
    pose proof (Hw 2 ltac:(lia)) as H. unfold uaddr in H. destruct (Hdiv 2 ltac:(lia)) as [E1 E2].
    rewrite E1, E2, Hf in H. exact H.
Defined.

(** ** The null entry of [uva2ka] *)

(** For an address whose page table does not exist, as every user address
    of a new directory, [uva2ka] reads through the null pointer that
    [walkpgdir] returns, where the other callers of [walkpgdir] check it. *)
Theorem uva2ka_null {A : Type} `{!PageAlloc A} (a : A) m pg T M va :
  aspace m pg T M -> 0 <= va < 2 ^ 32 -> T !! (va / 4096 / 1024) = None ->
  uva2ka pg va (a, m) = Fault.
Proof.
  intros Ha Hva E. unfold uva2ka.
  rewrite (run_bind _ _ _ _ _ (walk_noalloc a m pg T M va Ha Hva)), E. done.
Qed.

Lemma uva2ka_null_witness : exists (a : alloc_state) m pg, uva2ka pg 0 (a, m) = Fault.
Proof.
  destruct booted_free as (a & Fr & Ha & HFr). set (m := fun _ : Z => 0).
  destruct (pa_alloc_ok a m Fr (Ha m)) as (pg & a1 & _ & Hman1 & [(_ & E & _)|[Hpg Hi1]]).
  { exfalso. specialize (HFr 0 ltac:(lia)). rewrite E in HFr. exact (not_elem_of_empty _ HFr). }
  pose proof (new_pgdir a1 m Fr pg Hi1 ltac:(intros x; change (0 <= 0 < 256); lia) (free_page a m Fr pg (Ha m) Hpg)
    ltac:(apply Hman1; exact (pa_free_managed a m Fr pg (Ha m) Hpg))) as Hu.
  exists a1, (memset pg 0 (Z.to_nat PGSIZE) m), pg.
  apply (uva2ka_null a1 _ pg ∅ (fun _ => 0) 0); [apply Hu|lia|apply lookup_empty].
Defined.

End VmProps.
