(* ===== verification/BlockIO.v ===== *)
(** * What the log promises to the file system

    [BlockIO] is the interface between the logging layer and fs.c: reading a
    block into a buffer, changing the buffer, logging and releasing it.  The
    file system is proved against it; [LogIO] discharges it for log.c over
    bio.c. *)

From Stdlib Require Import ZArith Lia.
From stdpp Require Import base numbers strings list gmap.
From S2P Require Import Prelude Block BufView.

Open Scope Z_scope.

Import Block BufView.

Module BlockIO.

(** [io_view s H C Q k]: the process holds the buffers [H], with their blocks;
    the blocks have the contents [C]; the blocks in [Q] are changed and not yet
    logged; and the transaction has room for [k] more blocks.  A block in
    [io_reserved] has its room already. *)
Class BlockIO (L : Type) := {
  io_bread : Z -> Z -> ST L Z;
  io_data : Z -> ST L block;
  io_store : Z -> (block -> block) -> ST L unit;
  io_log_write : Z -> ST L unit;
  io_brelse : Z -> ST L unit;
  io_view : L -> gmap Z Z -> (Z -> block) -> gset Z -> nat -> Prop;
  io_home : Z -> Prop;
  io_reserved : Z -> Prop;
  io_ext s H C C' Q k : io_view s H C Q k -> (forall b, C' b = C b) -> io_view s H C' Q k;
  io_weaken s H C Q k : io_view s H C Q (S k) -> io_view s H C Q k;
  io_bread_ok s H C Q k b : io_view s H C Q k -> io_home b -> (size H < 2)%nat ->
    (forall i, H !! i <> Some b) ->
    exists i s', io_bread 1 b s = Ok (i, s') /\ H !! i = None /\ io_view s' (<[i := b]> H) C Q k;
  io_data_ok s H C Q k i b : io_view s H C Q k -> H !! i = Some b -> io_data i s = Ok (C b, s);
  io_store_ok s H C Q k i b f : io_view s H C Q k -> H !! i = Some b ->
    exists s', io_store i f s = Ok (tt, s') /\ io_view s' H (fupd b (f (C b)) C) ({[b]} ∪ Q) k;
  io_log_write_ok s H C Q k i b : io_view s H C Q (S k) -> H !! i = Some b ->
    exists s', io_log_write i s = Ok (tt, s') /\ io_view s' H C (Q ∖ {[b]}) k;
  io_log_reserved_ok s H C Q k i b : io_view s H C Q k -> H !! i = Some b -> io_reserved b ->
    exists s', io_log_write i s = Ok (tt, s') /\ io_view s' H C (Q ∖ {[b]}) k;
  io_brelse_ok s H C Q k i b : io_view s H C Q k -> H !! i = Some b -> b ∉ Q ->
    exists s', io_brelse i s = Ok (tt, s') /\ io_view s' (delete i H) C Q k
}.

(** Logging block [b] with room [k] leaves room [k']. *)
Definition pays {L} `{!BlockIO L} (b : Z) (k k' : nat) : Prop := k = S k' \/ (io_reserved b /\ k = k').

End BlockIO.
