(* ===== verification/LogIO.v ===== *)
(** * The log keeps the contract of the file system

    log.c over bio.c as an instance of [BlockIO]: inside an operation (between
    [begin_op] and [end_op]) with room in the log. *)

From Stdlib Require Import ZArith Lia.
From stdpp Require Import base numbers strings list gmap.
From S2P Require Import Prelude Block Bio BufView BlockIO Log LogSpec LogTx.

Open Scope Z_scope.

Import Block BufView BlockIO Log LogSpec LogTx.

Module LogIO.

Section Inst.

(** The disk and the writes it has received, which an operation does not change,
    and the blocks that the operation reserves. *)
Context (pid ds st sz : Z) (D : Z -> Block.block) (W : list (Z * Block.block)) (R : gset Z).

(** Two more buffers than the logged blocks have to fit the cache. *)
Definition max_logged : nat := 28.

Record lio (s : state) (H : gmap Z Z) (C : Z -> Block.block) (Q : gset Z) (k : nat)
    (bs : list Z) : Prop := {
  li_view : lview pid ds s H C bs D W;
  li_start : start (lg s) = st;
  li_size : Log.size (lg s) = sz;
  li_op : outstanding (lg s) = 1 /\ committing (lg s) = false;
  li_room : (base.size (list_to_set bs ∪ R : gset Z) + k <= max_logged)%nat /\
    Z.of_nat (base.size (list_to_set bs ∪ R : gset Z) + k) <= sz - 2;
  li_clean : forall i b, H !! i = Some b -> b ∉ Q -> b ∈ bs \/ D b = C b
}.

Definition log_view (s : state) (H : gmap Z Z) (C : Z -> Block.block) (Q : gset Z) (k : nat) : Prop :=
  exists bs, lio s H C Q k bs.

Lemma lview_ext s H C C' bs :
  lview pid ds s H C bs D W -> (forall b, C' b = C b) -> lview pid ds s H C' bs D W.
Proof.
  intros [V Hh Hdev Hlay Hn Hblk Hlen Hnd Hok Hhd Hhl] HC. split; try done. by eapply bview_ext.
Qed.

Lemma log_ext s H C C' Q k : log_view s H C Q k -> (forall b, C' b = C b) -> log_view s H C' Q k.
Proof.
  intros (bs & [V A1 A2 A3 A4 A5]) HC. exists bs. split; try done; [by eapply lview_ext|].
  intros i b Hi Hb. rewrite HC. by apply (A5 i).
Qed.

Lemma log_weaken s H C Q k : log_view s H C Q (S k) -> log_view s H C Q k.
Proof. intros (bs & [V A1 A2 A3 A4 A5]). exists bs. split; try done. lia. Qed.

Lemma room_length s H C Q k bs : lio s H C Q k bs -> (length bs + k <= max_logged)%nat /\ Z.of_nat (length bs + k) <= sz - 2.
Proof.
  intros [V _ _ _ A4 _]. pose proof (lview_size _ _ _ _ _ _ _ _ V) as HP.
  assert (base.size (list_to_set bs : gset Z) <= base.size (list_to_set bs ∪ R : gset Z))%nat by (apply subseteq_size; set_solver). lia.
Qed.

Lemma log_bread_ok s H C Q k b :
  log_view s H C Q k -> home st sz ds b -> (base.size H < 2)%nat -> (forall i, H !! i <> Some b) ->
  exists i s', bread pid ds 1 b s = Ok (i, s') /\ H !! i = None /\ log_view s' (<[i := b]> H) C Q k.
Proof.
  intros (bs & Hlio) Hb Hs Hn. pose proof (room_length _ _ _ _ _ _ Hlio) as Hroom.
  destruct Hlio as [V A1 A2 A3 A4 A5]. destruct s as [bb l]. cbn [lg] in *.
  pose proof (lview_size _ _ _ _ _ _ _ _ V) as HP.
  destruct (run_bread pid ds l bb H C _ D W b (lv_view _ _ _ _ _ _ _ _ V)) as (i & b' & Rn & Hi & V');
    [unfold home in Hb; lia|done|right; rewrite HP; unfold max_logged in *; lia|].
  exists i, (mkstate b' l). split; [done|]. split; [done|]. exists bs. split; try done.
  - destruct V as [Vv Hh Hdev Hlay Hnn Hblk Hlen Hnd Hok Hhd Hhl]. split; try done. cbn [lg] in *.
    intros j c [[<- <-]|[_ Hj]]%lookup_insert_Some; [by rewrite A1, A2|by apply (Hh j)].
  - intros j c [[<- <-]|[_ Hj]]%lookup_insert_Some Hc; [|by apply (A5 j)].
    destruct (decide (b ∈ bs)) as [|Hni]; [by left|right]. symmetry.
    eapply bview_clean; [apply V|by rewrite elem_of_list_to_set|done].
Qed.

Lemma log_data_ok s H C Q k i b : log_view s H C Q k -> H !! i = Some b -> bdata i s = Ok (C b, s).
Proof.
  intros (bs & [V A1 A2 A3 A4 A5]) Hi. destruct s as [bb l].
  by eapply (run_bdata pid l bb H C _ D W i b); [apply V|].
Qed.

Lemma log_store_ok s H C Q k i b f : log_view s H C Q k -> H !! i = Some b ->
  exists s', store i f s = Ok (tt, s') /\ log_view s' H (fupd b (f (C b)) C) ({[b]} ∪ Q) k.
Proof.
  intros (bs & [V A1 A2 A3 A4 A5]) Hi. destruct s as [bb l].
  destruct (run_store pid l bb H C _ D W i b f (lv_view _ _ _ _ _ _ _ _ V) Hi) as (b' & Rn & V').
  exists (mkstate b' l). split; [done|]. exists bs. split; try done.
  - destruct V as [Vv Hh Hdev Hlay Hnn Hblk Hlen Hnd Hok Hhd Hhl]. by split.
  - intros j c Hj Hc. rewrite fupd_ne by set_solver. apply (A5 j); [done|set_solver].
Qed.

(** Logging a block, whose room the new count gives. *)
Lemma log_log_write s H C Q k k' i b bs : lio s H C Q k bs -> H !! i = Some b ->
  (base.size (list_to_set (add_block b bs) ∪ R : gset Z) + k' <= base.size (list_to_set bs ∪ R : gset Z) + k)%nat ->
  exists s', log_write i s = Ok (tt, s') /\ log_view s' H C (Q ∖ {[b]}) k'.
Proof.
  intros Hlio Hi Hk. pose proof (room_length _ _ _ _ _ _ Hlio) as Hroom. destruct Hlio as [V A1 A2 A3 A4 A5].
  destruct (log_write_spec pid ds s H C bs D W i b V Hi) as (s' & Rn & V' & B1 & B2 & B3 & B4); [lia|lia|].
  exists s'. split; [done|]. exists (add_block b bs).
  split; try done; [congruence|congruence|by rewrite B3, B4|lia|].
  intros j c Hj Hc. rewrite add_block_in. destruct (decide (c = b)) as [->|Hne]; [by left; left|].
  destruct (A5 j c Hj) as [?|?]; [set_solver|by left; right|by right].
Qed.

Lemma log_log_write_ok s H C Q k i b : log_view s H C Q (S k) -> H !! i = Some b ->
  exists s', log_write i s = Ok (tt, s') /\ log_view s' H C (Q ∖ {[b]}) k.
Proof.
  intros (bs & Hlio) Hi. eapply log_log_write; [done..|].
  assert (E : (list_to_set (add_block b bs) ∪ R : gset Z) ⊆ {[b]} ∪ (list_to_set bs ∪ R)).
  { intros x. rewrite !elem_of_union, !elem_of_list_to_set, add_block_in, elem_of_singleton. tauto. }
  apply subseteq_size in E. pose proof (size_union_alt {[b]} (list_to_set bs ∪ R : gset Z)) as E2.
  rewrite size_singleton in E2. pose proof (subseteq_size ((list_to_set bs ∪ R) ∖ {[b]}) (list_to_set bs ∪ R : gset Z) ltac:(set_solver)). lia.
Qed.

Lemma log_log_reserved_ok s H C Q k i b : log_view s H C Q k -> H !! i = Some b -> b ∈ R ->
  exists s', log_write i s = Ok (tt, s') /\ log_view s' H C (Q ∖ {[b]}) k.
Proof.
  intros (bs & Hlio) Hi Hb. eapply log_log_write; [done..|].
  assert (E : (list_to_set (add_block b bs) ∪ R : gset Z) ⊆ list_to_set bs ∪ R).
  { intros x. rewrite !elem_of_union, !elem_of_list_to_set, add_block_in. intros [[->|?]|?]; tauto. }
  apply subseteq_size in E. lia.
Qed.

Lemma log_brelse_ok s H C Q k i b : log_view s H C Q k -> H !! i = Some b -> b ∉ Q ->
  exists s', brelse pid i s = Ok (tt, s') /\ log_view s' (delete i H) C Q k.
Proof.
  intros (bs & [V A1 A2 A3 A4 A5]) Hi Hb. destruct s as [bb l].
  destruct (run_brelse pid l bb H C _ D W i b (lv_view _ _ _ _ _ _ _ _ V) Hi) as (b' & Rn & V').
  { destruct (A5 i b Hi Hb); [left; by apply elem_of_list_to_set|by right]. }
  exists (mkstate b' l). split; [done|]. exists bs. split; try done.
  - destruct V as [Vv Hh Hdev Hlay Hnn Hblk Hlen Hnd Hok Hhd Hhl]. split; try done.
    intros j c [_ Hj]%lookup_delete_Some. by apply (Hh j).
  - intros j c [_ Hj]%lookup_delete_Some. by apply (A5 j).
Qed.

#[global] Instance log_io : BlockIO state := {|
  io_bread := bread pid ds;
  io_data := bdata;
  io_store := store;
  io_log_write := log_write;
  io_brelse := brelse pid;
  io_view := log_view;
  io_home := home st sz ds;
  io_reserved := fun b => b ∈ R;
  io_ext := log_ext;
  io_weaken := log_weaken;
  io_bread_ok := log_bread_ok;
  io_data_ok := log_data_ok;
  io_store_ok := log_store_ok;
  io_log_write_ok := log_log_write_ok;
  io_log_reserved_ok := log_log_reserved_ok;
  io_brelse_ok := log_brelse_ok
|}.

(** At the start of an operation. *)
Lemma log_view_start s C : lview pid ds s ∅ C [] D W -> start (lg s) = st -> Log.size (lg s) = sz ->
  outstanding (lg s) = 1 -> committing (lg s) = false -> forall k, (base.size R + k <= max_logged)%nat -> Z.of_nat (base.size R + k) <= sz - 2 ->
  log_view s ∅ C ∅ k.
Proof.
  intros Hv H1 H2 H3 H4 k Hk Hk'. exists []. split; try done.
  replace (list_to_set [] ∪ R : gset Z) with R by set_solver. done.
Qed.

End Inst.

End LogIO.
