(* ===== verification/Fs.v ===== *)
(** * The file system (fs/sfs/fs.c)

    The block allocator, the inode cache, files, directories and path names,
    over the interface [BlockIO] of the logging layer.  The model is the code as
    run by one process [pid].  A buffer that the code reads a block into is the
    number that [io_bread] returns; a [struct inode *] is the index of the
    inode in the cache, a pointer that may be null an option.  The bytes that
    [readi] stores at [dst] are its second result, and the bytes that [writei]
    reads at [src] its argument. *)

From Stdlib Require Import ZArith Lia.
From stdpp Require Import base numbers strings list gmap.
From S2P Require Import Prelude Block BlockIO Log.

Open Scope Z_scope.

Import Block BlockIO.

Module Fs.

Definition ROOTINO : Z := 1.
Definition ROOTDEV : Z := 1.
Definition NDIRECT : Z := 12.
Definition NINDIRECT : Z := BSIZE / 4.
Definition MAXFILE : Z := NDIRECT + NINDIRECT.
Definition NINODE : Z := 50.
Definition NDEV : Z := 10.
Definition DIRSIZ : Z := 14.
Definition T_DIR : Z := 1.
Definition T_FILE : Z := 2.
Definition T_DEV : Z := 3.

(** [sizeof(struct dinode)] and [sizeof(struct dirent)]. *)
Definition DINODE : Z := 64.
Definition DIRENT : Z := 16.

Definition IPB : Z := BSIZE / DINODE.
Definition BPB : Z := BSIZE * 8.

Definition IBLOCK (i : Z) (sb : Log.superblock) : Z := u32 (i / IPB + Log.inodestart sb).
Definition BBLOCK (b : Z) (sb : Log.superblock) : Z := u32 (b / BPB + Log.bmapstart sb).

(** [struct inode]. *)
Record inode := mkinode {
  idev : Z;
  inum : Z;
  ref : Z;
  ilocked : bool;
  ilpid : Z;
  valid : bool;
  itype : Z;
  major : Z;
  minor : Z;
  nlink : Z;
  isize : Z;
  addrs : list Z
}.

Definition set_ident (d n : Z) (i : inode) : inode :=
  mkinode d n (ref i) (ilocked i) (ilpid i) (valid i) (itype i) (major i) (minor i) (nlink i) (isize i) (addrs i).
Definition set_ref (v : Z) (i : inode) : inode :=
  mkinode (idev i) (inum i) v (ilocked i) (ilpid i) (valid i) (itype i) (major i) (minor i) (nlink i) (isize i) (addrs i).
Definition set_ilock (l : bool) (p : Z) (i : inode) : inode :=
  mkinode (idev i) (inum i) (ref i) l p (valid i) (itype i) (major i) (minor i) (nlink i) (isize i) (addrs i).
Definition set_valid (v : bool) (i : inode) : inode :=
  mkinode (idev i) (inum i) (ref i) (ilocked i) (ilpid i) v (itype i) (major i) (minor i) (nlink i) (isize i) (addrs i).
Definition set_type (v : Z) (i : inode) : inode :=
  mkinode (idev i) (inum i) (ref i) (ilocked i) (ilpid i) (valid i) v (major i) (minor i) (nlink i) (isize i) (addrs i).
Definition set_nlink (v : Z) (i : inode) : inode :=
  mkinode (idev i) (inum i) (ref i) (ilocked i) (ilpid i) (valid i) (itype i) (major i) (minor i) v (isize i) (addrs i).
Definition set_dev (ma mi : Z) (i : inode) : inode :=
  mkinode (idev i) (inum i) (ref i) (ilocked i) (ilpid i) (valid i) (itype i) ma mi (nlink i) (isize i) (addrs i).
Definition set_size (v : Z) (i : inode) : inode :=
  mkinode (idev i) (inum i) (ref i) (ilocked i) (ilpid i) (valid i) (itype i) (major i) (minor i) (nlink i) v (addrs i).
Definition set_addrs (v : list Z) (i : inode) : inode :=
  mkinode (idev i) (inum i) (ref i) (ilocked i) (ilpid i) (valid i) (itype i) (major i) (minor i) (nlink i) (isize i) v.

Definition set_addr (k v : Z) (i : inode) : inode := set_addrs (zinsert k v (addrs i)) i.

(** ** [struct dinode]: the fields of the inode at byte [o] of its block *)

Definition get_addrs (o : Z) (x : block) : list Z :=
  map (fun k => get32 x (o + 12 + 4 * Z.of_nat k)) (seq 0 13).

Fixpoint put_addrs (o : Z) (l : list Z) (x : block) : block :=
  match l with [] => x | a :: l' => put_addrs (o + 4) l' (put32 o a x) end.

(** The body of [ilock] and of [iupdate]. *)
Definition dinode_load (o : Z) (x : block) (i : inode) : inode :=
  mkinode (idev i) (inum i) (ref i) (ilocked i) (ilpid i) (valid i)
    (s16 (get16 x o)) (s16 (get16 x (o + 2))) (s16 (get16 x (o + 4))) (s16 (get16 x (o + 6)))
    (get32 x (o + 8)) (get_addrs o x).

Definition dinode_store (o : Z) (i : inode) (x : block) : block :=
  put_addrs (o + 12) (addrs i)
    (put32 (o + 8) (isize i)
      (put16 (o + 6) (nlink i) (put16 (o + 4) (minor i) (put16 (o + 2) (major i) (put16 o (itype i) x))))).

(** [memset(dip, 0, sizeof( *dip))]. *)
Definition splice (o : Z) (l : list Z) (x : block) : block :=
  take (Z.to_nat o) x ++ l ++ drop (Z.to_nat o + length l) x.

Definition dinode_clear (o : Z) (x : block) : block := splice o (replicate (Z.to_nat DINODE) 0) x.

(** [struct stat]. *)
Record stat := mkstat { st_type : Z; st_dev : Z; st_ino : Z; st_nlink : Z; st_size : Z }.

(** [struct dirent], as its bytes. *)
Definition de_inum (de : list Z) : Z := get16 de 0.
Definition de_name (de : list Z) : list Z := drop 2 de.
Definition de_make (inum : Z) (name : list Z) : list Z := [u8 inum; u8 (Z.shiftr inum 8)] ++ name.

(** ** Strings

    A string is the list of its bytes before the null byte; an array of
    characters is the list of its bytes. *)

Definition ch (s : list Z) : Z := match s with [] => 0 | c :: _ => c end.

Fixpoint strncmp (n : nat) (p q : list Z) : Z :=
  match n with
  | O => 0
  | S n' =>
      if negb (ch p =? 0) && (ch p =? ch q) then strncmp n' (tail p) (tail q)
      else u8 (ch p) - u8 (ch q)
  end.

Fixpoint strncpy (n : nat) (t : list Z) : list Z :=
  match n with
  | O => []
  | S n' => if ch t =? 0 then replicate n 0 else ch t :: strncpy n' (tail t)
  end.

Definition namecmp (s t : list Z) : Z := strncmp (Z.to_nat DIRSIZ) s t.

Definition SLASH : Z := 47.

Fixpoint skip_slashes (path : list Z) : list Z :=
  match path with
  | c :: p => if c =? SLASH then skip_slashes p else path
  | [] => []
  end.

(** The second loop of [skipelem]: the element and the rest. *)
Fixpoint span_elem (path : list Z) : list Z * list Z :=
  match path with
  | c :: p =>
      if negb (c =? SLASH) && negb (c =? 0) then let (e, r) := span_elem p in (c :: e, r)
      else ([], path)
  | [] => ([], [])
  end.

(** The rest of the path, and the array [name]. *)
Definition skipelem (path name : list Z) : option (list Z * list Z) :=
  let path := skip_slashes path in
  if ch path =? 0 then None
  else
    let (s, path) := span_elem path in
    let len := Z.of_nat (length s) in
    let name :=
      if DIRSIZ <=? len then take (Z.to_nat DIRSIZ) s
      else s ++ [0] ++ drop (Z.to_nat (len + 1)) name in
    Some (skip_slashes path, name).

Section Code.

Context {L : Type} `{!BlockIO L}.

(** [icache], the superblock and the layers below. *)
Record state := mkstate {
  io : L;
  sb : Log.superblock;
  iclock : bool;
  inodes : list inode
}.

Definition set_inodes (l : list inode) (s : state) : state := mkstate (io s) (sb s) (iclock s) l.

(** The running process, and the device switch [devsw]. *)
Variable pid : Z.
Variable devread : Z -> option (Z -> Z -> ST state (Z * list Z)).
Variable devwrite : Z -> option (Z -> list Z -> Z -> ST state Z).

Definition onio {A} (m : ST L A) : ST state A :=
  zoom io (fun l s => mkstate l (sb s) (iclock s) (inodes s)) m.

Definition bread (d b : Z) : ST state Z := onio (io_bread d b).
Definition bdata (i : Z) : ST state block := onio (io_data i).
Definition store (i : Z) (f : block -> block) : ST state unit := onio (io_store i f).
Definition log_write (i : Z) : ST state unit := onio (io_log_write i).
Definition brelse (i : Z) : ST state unit := onio (io_brelse i).

Definition get_sb : ST state Log.superblock := s ← get; mret (sb s).

Definition get_inode (ip : Z) : ST state inode :=
  s ← get; match zlookup (inodes s) ip with Some i => mret i | None => fault end.

Definition upd_inode (ip : Z) (f : inode -> inode) : ST state unit :=
  s ← get;
  match zlookup (inodes s) ip with
  | Some i => put (set_inodes (zinsert ip (f i) (inodes s)) s)
  | None => fault
  end.

Definition acquire : ST state unit :=
  s ← get; if iclock s then panic "acquire" else put (mkstate (io s) (sb s) true (inodes s)).
Definition release : ST state unit :=
  s ← get; if iclock s then put (mkstate (io s) (sb s) false (inodes s)) else panic "release".

(** The sleep lock of an inode. *)
Definition acquiresleep (ip : Z) : ST state unit :=
  i ← get_inode ip; if ilocked i then blocked else upd_inode ip (set_ilock true pid).
Definition releasesleep (ip : Z) : ST state unit := upd_inode ip (set_ilock false 0).
Definition holdingsleep (ip : Z) : ST state bool :=
  i ← get_inode ip; mret (ilocked i && (ilpid i =? pid)).

(** ** Blocks *)

Definition sb_load (x : block) : Log.superblock :=
  Log.mksb (get32 x 0) (get32 x 4) (get32 x 8) (get32 x 12) (get32 x 16) (get32 x 20) (get32 x 24).

Definition readsb (d : Z) : ST state unit :=
  bp ← bread d 1;
  x ← bdata bp;
  modify (fun s => mkstate (io s) (sb_load x) (iclock s) (inodes s));;
  brelse bp.

Definition bzero (d bno : Z) : ST state unit :=
  bp ← bread d bno;
  store bp (fun _ => zero_block);;
  log_write bp;;
  brelse bp.

(** The bit of block [bi] in a bitmap block. *)
Definition bitmask (bi : Z) : Z := Z.shiftl 1 (bi mod 8).
Definition bit_free (x : block) (bi : Z) : bool := Z.land (rd x (bi / 8)) (bitmask bi) =? 0.
Definition bit_set (bi : Z) (x : block) : block := wr (bi / 8) (Z.lor (rd x (bi / 8)) (bitmask bi)) x.
Definition bit_clear (bi : Z) (x : block) : block :=
  wr (bi / 8) (Z.land (rd x (bi / 8)) (Z.lnot (bitmask bi))) x.

(** The inner loop of [balloc]: the first free bit from [bi] on. *)
Fixpoint find_bit (n : nat) (x : block) (b bi size : Z) : option Z :=
  match n with
  | O => None
  | S n' =>
      if b + bi <? size then
        if bit_free x bi then Some bi else find_bit n' x b (bi + 1) size
      else None
  end.

Fixpoint balloc_loop (fuel : nat) (d b : Z) : ST state Z :=
  sb ← get_sb;
  if b <? Log.sb_size sb then
    match fuel with
    | O => out_of_fuel
    | S f =>
        bp ← bread d (BBLOCK b sb);
        x ← bdata bp;
        match find_bit (Z.to_nat BPB) x b 0 (Log.sb_size sb) with
        | Some bi =>
            store bp (bit_set bi);;
            log_write bp;;
            brelse bp;;
            bzero d (b + bi);;
            mret (b + bi)
        | None => brelse bp;; balloc_loop f d (b + BPB)
        end
    end
  else panic "balloc: out of blocks".

Definition balloc (d : Z) : ST state Z :=
  sb ← get_sb; balloc_loop (Z.to_nat (Log.sb_size sb / BPB + 1)) d 0.

Definition bfree (d b : Z) : ST state unit :=
  readsb d;;
  sb ← get_sb;
  bp ← bread d (BBLOCK b sb);
  let bi := b mod BPB in
  x ← bdata bp;
  if bit_free x bi then panic "freeing free block"
  else
    store bp (bit_clear bi);;
    log_write bp;;
    brelse bp.

(** ** Inodes *)

Fixpoint iinit_loop (n : nat) (ip : Z) : ST state unit :=
  match n with O => mret tt | S n' => upd_inode ip (set_ilock false 0);; iinit_loop n' (ip + 1) end.

Definition iinit (d : Z) : ST state unit :=
  modify (fun s => mkstate (io s) (sb s) false (inodes s));;
  iinit_loop (Z.to_nat NINODE) 0;;
  readsb d.

(** The scan of [iget]: the entry of the inode, or the first free entry. *)
Fixpoint iget_scan (l : list inode) (ip d n : Z) (empty : option Z) : option Z * option Z :=
  match l with
  | [] => (None, empty)
  | i :: l' =>
      if (0 <? ref i) && (idev i =? d) && (inum i =? n) then (Some ip, empty)
      else
        let empty := match empty with None => if ref i =? 0 then Some ip else None | _ => empty end in
        iget_scan l' (ip + 1) d n empty
  end.

Definition iget (d n : Z) : ST state Z :=
  acquire;;
  s ← get;
  match iget_scan (inodes s) 0 d n None with
  | (Some ip, _) =>
      upd_inode ip (fun i => set_ref (ref i + 1) i);;
      release;;
      mret ip
  | (None, None) => panic "iget: no inodes"
  | (None, Some ip) =>
      upd_inode ip (set_ident d n);;
      upd_inode ip (set_ref 1);;
      upd_inode ip (set_valid false);;
      release;;
      mret ip
  end.

Fixpoint ialloc_loop (fuel : nat) (d type n : Z) : ST state Z :=
  sb ← get_sb;
  if n <? Log.ninodes sb then
    match fuel with
    | O => out_of_fuel
    | S f =>
        bp ← bread d (IBLOCK n sb);
        x ← bdata bp;
        let o := DINODE * (n mod IPB) in
        if s16 (get16 x o) =? 0 then
          store bp (dinode_clear o);;
          store bp (put16 o type);;
          log_write bp;;
          brelse bp;;
          iget d n
        else brelse bp;; ialloc_loop f d type (n + 1)
    end
  else panic "ialloc: no inodes".

Definition ialloc (d type : Z) : ST state Z :=
  sb ← get_sb; ialloc_loop (Z.to_nat (Log.ninodes sb)) d type 1.

Definition iupdate (ip : Z) : ST state unit :=
  i ← get_inode ip;
  sb ← get_sb;
  bp ← bread (idev i) (IBLOCK (inum i) sb);
  store bp (dinode_store (DINODE * (inum i mod IPB)) i);;
  log_write bp;;
  brelse bp.

Definition idup (ip : Z) : ST state Z :=
  acquire;;
  upd_inode ip (fun i => set_ref (ref i + 1) i);;
  release;;
  mret ip.

Definition ilock (ip : Z) : ST state unit :=
  i ← get_inode ip;
  if ref i <? 1 then panic "ilock"
  else
    acquiresleep ip;;
    i ← get_inode ip;
    if negb (valid i) then
      sb ← get_sb;
      bp ← bread (idev i) (IBLOCK (inum i) sb);
      x ← bdata bp;
      upd_inode ip (dinode_load (DINODE * (inum i mod IPB)) x);;
      brelse bp;;
      upd_inode ip (set_valid true);;
      i ← get_inode ip;
      if itype i =? 0 then panic "ilock: no type" else mret tt
    else mret tt.

Definition iunlock (ip : Z) : ST state unit :=
  h ← holdingsleep ip;
  i ← get_inode ip;
  if negb h || (ref i <? 1) then panic "iunlock" else releasesleep ip.

(** ** Inode content *)

(** [ip->addrs[k]]. *)
Definition addr_of (i : inode) (k : Z) : Z := default 0 (zlookup (addrs i) k).

(** [if ((addr = ip->addrs[k]) == 0) ip->addrs[k] = addr = balloc(ip->dev)]. *)
Definition addr_or_alloc (ip k : Z) : ST state Z :=
  i ← get_inode ip;
  if addr_of i k =? 0 then
    a ← balloc (idev i);
    upd_inode ip (set_addr k a);;
    mret a
  else mret (addr_of i k).

Definition bmap (ip bn : Z) : ST state Z :=
  if bn <? NDIRECT then addr_or_alloc ip bn
  else
    let bn := bn - NDIRECT in
    if bn <? NINDIRECT then
      addr ← addr_or_alloc ip NDIRECT;
      i ← get_inode ip;
      bp ← bread (idev i) addr;
      x ← bdata bp;
      let addr := get32 x (4 * bn) in
      addr ← (if addr =? 0 then
                a ← balloc (idev i);
                store bp (put32 (4 * bn) a);;
                log_write bp;;
                mret a
              else mret addr);
      brelse bp;;
      mret addr
    else panic "bmap: out of range".

Fixpoint itrunc_direct (n : nat) (ip k : Z) : ST state unit :=
  match n with
  | O => mret tt
  | S n' =>
      i ← get_inode ip;
      (if addr_of i k =? 0 then mret tt
       else bfree (idev i) (addr_of i k);; upd_inode ip (set_addr k 0));;
      itrunc_direct n' ip (k + 1)
  end.

Fixpoint itrunc_indirect (n : nat) (bp d j : Z) : ST state unit :=
  match n with
  | O => mret tt
  | S n' =>
      x ← bdata bp;
      (if get32 x (4 * j) =? 0 then mret tt else bfree d (get32 x (4 * j)));;
      itrunc_indirect n' bp d (j + 1)
  end.

Definition itrunc (ip : Z) : ST state unit :=
  itrunc_direct (Z.to_nat NDIRECT) ip 0;;
  i ← get_inode ip;
  (if addr_of i NDIRECT =? 0 then mret tt
   else
     bp ← bread (idev i) (addr_of i NDIRECT);
     itrunc_indirect (Z.to_nat NINDIRECT) bp (idev i) 0;;
     brelse bp;;
     bfree (idev i) (addr_of i NDIRECT);;
     upd_inode ip (set_addr NDIRECT 0));;
  upd_inode ip (set_size 0);;
  iupdate ip.

Definition iput (ip : Z) : ST state unit :=
  acquiresleep ip;;
  i ← get_inode ip;
  (if valid i && (nlink i =? 0) then
     acquire;;
     i ← get_inode ip;
     let r := ref i in
     release;;
     if r =? 1 then
       itrunc ip;;
       upd_inode ip (set_type 0);;
       iupdate ip;;
       upd_inode ip (set_valid false)
     else mret tt
   else mret tt);;
  releasesleep ip;;
  acquire;;
  upd_inode ip (fun i => set_ref (ref i - 1) i);;
  release.

Definition iunlockput (ip : Z) : ST state unit := iunlock ip;; iput ip.

Definition stati (ip : Z) : ST state stat :=
  i ← get_inode ip;
  mret (mkstat (itype i) (idev i) (inum i) (nlink i) (isize i)).

(** The bytes of a block from [o] on. *)
Definition slice (o m : Z) (x : block) : list Z := take (Z.to_nat m) (drop (Z.to_nat o) x).

Fixpoint readi_loop (fuel : nat) (ip off tot n : Z) (acc : list Z) : ST state (list Z) :=
  if tot <? n then
    match fuel with
    | O => out_of_fuel
    | S f =>
        i ← get_inode ip;
        a ← bmap ip (off / BSIZE);
        bp ← bread (idev i) a;
        let m := Z.min (n - tot) (BSIZE - off mod BSIZE) in
        x ← bdata bp;
        brelse bp;;
        readi_loop f ip (off + m) (tot + m) n (acc ++ slice (off mod BSIZE) m x)
    end
  else mret acc.

Definition blocks_fuel (n : Z) : nat := Z.to_nat (n / BSIZE + 2).

Definition readi (ip off n : Z) : ST state (Z * list Z) :=
  i ← get_inode ip;
  if itype i =? T_DEV then
    if (major i <? 0) || (NDEV <=? major i) then mret (-1, [])
    else match devread (major i) with
         | None => mret (-1, [])
         | Some f => f ip n
         end
  else if (isize i <? off) || (u32 (off + n) <? off) then mret (-1, [])
  else
    let n := if isize i <? u32 (off + n) then isize i - off else n in
    bs ← readi_loop (blocks_fuel n) ip off 0 n [];
    mret (s32 n, bs).

(** The value of [off] after the loop. *)
Fixpoint writei_loop (fuel : nat) (ip : Z) (src : list Z) (off tot n : Z) : ST state Z :=
  if tot <? n then
    match fuel with
    | O => out_of_fuel
    | S f =>
        i ← get_inode ip;
        a ← bmap ip (off / BSIZE);
        bp ← bread (idev i) a;
        let m := Z.min (n - tot) (BSIZE - off mod BSIZE) in
        store bp (splice (off mod BSIZE) (take (Z.to_nat m) src));;
        log_write bp;;
        brelse bp;;
        writei_loop f ip (drop (Z.to_nat m) src) (off + m) (tot + m) n
    end
  else mret off.

Definition writei (ip : Z) (src : list Z) (off n : Z) : ST state Z :=
  i ← get_inode ip;
  if itype i =? T_DEV then
    if (major i <? 0) || (NDEV <=? major i) then mret (-1)
    else match devwrite (major i) with
         | None => mret (-1)
         | Some f => f ip src n
         end
  else if (isize i <? off) || (u32 (off + n) <? off) then mret (-1)
  else if MAXFILE * BSIZE <? u32 (off + n) then mret (-1)
  else
    off' ← writei_loop (blocks_fuel n) ip src off 0 n;
    i ← get_inode ip;
    (if (0 <? n) && (isize i <? off') then
       upd_inode ip (set_size off');; iupdate ip
     else mret tt);;
    mret (s32 n).

(** ** Directories *)

(** The inode and the offset of the entry. *)
Fixpoint dirlookup_loop (fuel : nat) (dp : Z) (name : list Z) (off : Z) : ST state (option (Z * Z)) :=
  i ← get_inode dp;
  if off <? isize i then
    match fuel with
    | O => out_of_fuel
    | S f =>
        r ← readi dp off DIRENT;
        if negb (r.1 =? DIRENT) then panic "dirlookup read"
        else if de_inum r.2 =? 0 then dirlookup_loop f dp name (u32 (off + DIRENT))
        else if namecmp name (de_name r.2) =? 0 then
          ip ← iget (idev i) (de_inum r.2);
          mret (Some (ip, off))
        else dirlookup_loop f dp name (u32 (off + DIRENT))
    end
  else mret None.

Definition dir_fuel (i : inode) : nat := Z.to_nat (isize i / DIRENT + 1).

Definition dirlookup (dp : Z) (name : list Z) : ST state (option (Z * Z)) :=
  i ← get_inode dp;
  if negb (itype i =? T_DIR) then panic "dirlookup not DIR"
  else dirlookup_loop (dir_fuel i) dp name 0.

(** The offset of the first free entry, or the end of the directory. *)
Fixpoint dirlink_loop (fuel : nat) (dp off : Z) : ST state Z :=
  i ← get_inode dp;
  if off <? isize i then
    match fuel with
    | O => out_of_fuel
    | S f =>
        r ← readi dp off DIRENT;
        if negb (r.1 =? DIRENT) then panic "dirlink read"
        else if de_inum r.2 =? 0 then mret off
        else dirlink_loop f dp (off + DIRENT)
    end
  else mret off.

Definition dirlink (dp : Z) (name : list Z) (inum : Z) : ST state Z :=
  r ← dirlookup dp name;
  match r with
  | Some (ip, _) => iput ip;; mret (-1)
  | None =>
      i ← get_inode dp;
      off ← dirlink_loop (dir_fuel i) dp 0;
      w ← writei dp (de_make inum (strncpy (Z.to_nat DIRSIZ) name)) off DIRENT;
      if negb (w =? DIRENT) then panic "dirlink" else mret 0
  end.

(** ** Paths *)

(** The inode and the array [name]. *)
Fixpoint namex_loop (fuel : nat) (ip : Z) (path name : list Z) (nameiparent : bool)
    : ST state (option Z * list Z) :=
  match skipelem path name with
  | None => if nameiparent then iput ip;; mret (None, name) else mret (Some ip, name)
  | Some (path, name) =>
      match fuel with
      | O => out_of_fuel
      | S f =>
          ilock ip;;
          i ← get_inode ip;
          if negb (itype i =? T_DIR) then iunlockput ip;; mret (None, name)
          else if nameiparent && (ch path =? 0) then iunlock ip;; mret (Some ip, name)
          else
            r ← dirlookup ip name;
            match r with
            | None => iunlockput ip;; mret (None, name)
            | Some (next, _) => iunlockput ip;; namex_loop f next path name nameiparent
            end
      end
  end.

(** [cwd] is [myproc()->cwd]. *)
Definition namex (cwd : Z) (path : list Z) (nameiparent : bool) (name : list Z) : ST state (option Z * list Z) :=
  ip ← (if ch path =? SLASH then iget ROOTDEV ROOTINO else idup cwd);
  namex_loop (length path) ip path name nameiparent.

Definition namei (cwd : Z) (path : list Z) : ST state (option Z) :=
  r ← namex cwd path false (replicate (Z.to_nat DIRSIZ) 0); mret r.1.

Definition nameiparent (cwd : Z) (path name : list Z) : ST state (option Z * list Z) :=
  namex cwd path true name.

End Code.

End Fs.
