(* ===== verification/FsBlk.v ===== *)
(** * The block allocator of the file system

    The rules for running the layers below on the state of [Fs], the bitmap as a
    set of free blocks, and the specifications of [balloc] and [bfree]. *)

From Stdlib Require Import ZArith Lia.
From stdpp Require Import base numbers strings list gmap.
From S2P Require Import Prelude Block BufView BlockIO Log Fs.

Open Scope Z_scope.

Import Block BufView BlockIO Fs.

Module FsBlk.

#[local] Opaque zero_block.

(** ** The bits of a bitmap block *)

Lemma bit_free_spec x bi : bit_free x bi = negb (Z.testbit (rd x (bi / 8)) (bi mod 8)).
Proof.
  unfold bit_free, bitmask. pose proof (Z.mod_pos_bound bi 8 ltac:(lia)) as Hk. set (k := bi mod 8) in *.
  destruct (Z.testbit (rd x (bi / 8)) k) eqn:E; cbn [negb].
  - apply Z.eqb_neq. intros H0. assert (Hb : Z.testbit (Z.land (rd x (bi / 8)) (Z.shiftl 1 k)) k = false) by (rewrite H0; apply Z.testbit_0_l).
    rewrite Z.land_spec, E, Z.shiftl_spec, Z.sub_diag in Hb by lia. done.
  - apply Z.eqb_eq, Z.bits_inj'. intros j Hj. rewrite Z.land_spec, Z.testbit_0_l, Z.shiftl_spec by lia.
    destruct (decide (j = k)) as [->|Hne]; [by rewrite E|].
    replace (Z.testbit 1 (j - k)) with false; [apply andb_false_r|]. symmetry.
    destruct (decide (j < k)); [apply Z.testbit_neg_r; lia|]. apply (Z.bits_above_log2 1); [lia|simpl; lia].
Qed.

Lemma testbit_u8 v k : 0 <= k < 8 -> Z.testbit (u8 v) k = Z.testbit v k.
Proof. intros H. unfold u8. apply Z.mod_pow2_bits_low. lia. Qed.

(** Two bits are in the same byte and at the same place only if they are the same. *)
Lemma bit_place bi bj : bi / 8 = bj / 8 -> bi mod 8 = bj mod 8 -> bi = bj.
Proof. intros H1 H2. rewrite (Z.div_mod bi 8), (Z.div_mod bj 8) by lia. lia. Qed.

Lemma testbit_mask bi j : 0 <= j < 8 -> Z.testbit (bitmask bi) j = (j =? bi mod 8).
Proof.
  intros Hj. unfold bitmask. pose proof (Z.mod_pos_bound bi 8 ltac:(lia)). rewrite Z.shiftl_spec by lia.
  destruct (Z.eqb_spec j (bi mod 8)) as [->|Hne]; [by rewrite Z.sub_diag|].
  destruct (decide (j < bi mod 8)); [apply Z.testbit_neg_r; lia|]. apply (Z.bits_above_log2 1); [lia|simpl; lia].
Qed.

Lemma bit_byte x bi : block_ok x -> 0 <= bi < BPB -> 0 <= bi / 8 < Z.of_nat (length x).
Proof.
  intros [Hl _] Hb. rewrite Hl. unfold BPB, BSIZE in *. rewrite Z2Nat.id by lia.
  split; [apply Z.div_pos; lia|apply Z.div_lt_upper_bound; lia].
Qed.

Lemma bit_free_set x bi bj : block_ok x -> 0 <= bi < BPB -> 0 <= bj < BPB ->
  bit_free (bit_set bi x) bj = negb (bi =? bj) && bit_free x bj.
Proof.
  intros Hx Hi Hj. rewrite !bit_free_spec. unfold bit_set. pose proof (bit_byte x bi Hx Hi) as Hr.
  pose proof (Z.mod_pos_bound bj 8 ltac:(lia)) as Hk.
  destruct (decide (bi / 8 = bj / 8)) as [E|Hne].
  - rewrite <- E, rd_wr_eq by done. rewrite testbit_u8, Z.lor_spec, testbit_mask by done.
    destruct (Z.eqb_spec bi bj) as [->|Hij]; [by rewrite Z.eqb_refl, orb_true_r|].
    destruct (Z.eqb_spec (bj mod 8) (bi mod 8)); [destruct Hij; by apply bit_place|]. by rewrite orb_false_r.
  - rewrite rd_wr_ne by done. destruct (Z.eqb_spec bi bj) as [->|]; done.
Qed.

Lemma bit_free_clear x bi bj : block_ok x -> 0 <= bi < BPB -> 0 <= bj < BPB ->
  bit_free (bit_clear bi x) bj = (bi =? bj) || bit_free x bj.
Proof.
  intros Hx Hi Hj. rewrite !bit_free_spec. unfold bit_clear. pose proof (bit_byte x bi Hx Hi) as Hr.
  pose proof (Z.mod_pos_bound bj 8 ltac:(lia)) as Hk.
  destruct (decide (bi / 8 = bj / 8)) as [E|Hne].
  - rewrite <- E, rd_wr_eq by done. rewrite testbit_u8, Z.land_spec, Z.lnot_spec, testbit_mask by lia.
    destruct (Z.eqb_spec bi bj) as [->|Hij]; [by rewrite Z.eqb_refl, andb_false_r|].
    destruct (Z.eqb_spec (bj mod 8) (bi mod 8)); [destruct Hij; by apply bit_place|]. by rewrite andb_true_r.
  - rewrite rd_wr_ne by done. destruct (Z.eqb_spec bi bj) as [->|]; done.
Qed.

Lemma find_bit_spec n x b size : forall bi,
  match find_bit n x b bi size with
  | Some k => bi <= k < bi + Z.of_nat n /\ b + k < size /\ bit_free x k = true
  | None => forall k, bi <= k < bi + Z.of_nat n -> b + k < size -> bit_free x k = false
  end.
Proof.
  induction n as [|n IH]; intros bi; cbn [find_bit]; [intros k; lia|].
  destruct (Z.ltb_spec (b + bi) size) as [Hlt|Hge]; [|intros k; lia].
  destruct (bit_free x bi) eqn:E; [split; [lia|done]|].
  specialize (IH (bi + 1)). destruct (find_bit n x b (bi + 1) size) as [k|]; [destruct IH; split; [lia|done]|].
  intros k Hk. destruct (decide (k = bi)) as [->|]; [done|]. apply IH. lia.
Qed.

Section Fs.

Context {L : Type} `{!BlockIO L}.

Local Abbreviation state := (@state L).

(** ** Running the layers below *)

Definition set_io (l : L) (s : state) : state := mkstate l (sb s) (iclock s) (inodes s).

Lemma wp_bread (s : state) H C Q k b (P : Z -> state -> Prop) :
  io_view (io s) H C Q k -> io_home b -> (size H < 2)%nat -> (forall i, H !! i <> Some b) ->
  (forall i l, H !! i = None -> io_view l (<[i := b]> H) C Q k -> P i (set_io l s)) ->
  wp (bread 1 b) P s.
Proof.
  intros Hv Hb Hs Hn HP. destruct (io_bread_ok _ _ _ _ _ _ Hv Hb Hs Hn) as (i & l & Hr & Hi & Hv').
  unfold bread, onio, wp, zoom. rewrite Hr. by apply HP.
Qed.

Lemma wp_bdata (s : state) H C Q k i b (P : block -> state -> Prop) :
  io_view (io s) H C Q k -> H !! i = Some b -> P (C b) s -> wp (bdata i) P s.
Proof.
  intros Hv Hi HP. unfold bdata, onio, wp, zoom. rewrite (io_data_ok _ _ _ _ _ _ _ Hv Hi). by destruct s.
Qed.

Lemma wp_store (s : state) H C Q k i b f (P : unit -> state -> Prop) :
  io_view (io s) H C Q k -> H !! i = Some b ->
  (forall l, io_view l H (fupd b (f (C b)) C) ({[b]} ∪ Q) k -> P tt (set_io l s)) -> wp (store i f) P s.
Proof.
  intros Hv Hi HP. destruct (io_store_ok _ _ _ _ _ _ _ f Hv Hi) as (l & Hr & Hv').
  unfold store, onio, wp, zoom. rewrite Hr. by apply HP.
Qed.

Lemma wp_log_write (s : state) H C Q k i b (P : unit -> state -> Prop) :
  io_view (io s) H C Q (S k) -> H !! i = Some b ->
  (forall l, io_view l H C (Q ∖ {[b]}) k -> P tt (set_io l s)) -> wp (log_write i) P s.
Proof.
  intros Hv Hi HP. destruct (io_log_write_ok _ _ _ _ _ _ _ Hv Hi) as (l & Hr & Hv').
  unfold log_write, onio, wp, zoom. rewrite Hr. by apply HP.
Qed.

Lemma wp_log_pays (s : state) H C Q k k' i b (P : unit -> state -> Prop) :
  io_view (io s) H C Q k -> pays b k k' -> H !! i = Some b ->
  (forall l, io_view l H C (Q ∖ {[b]}) k' -> P tt (set_io l s)) -> wp (log_write i) P s.
Proof.
  intros Hv [-> |[Hr ->]] Hi HP; [by eapply wp_log_write|].
  destruct (io_log_reserved_ok _ _ _ _ _ _ _ Hv Hi Hr) as (l & Hrun & Hv').
  unfold log_write, onio, wp, zoom. rewrite Hrun. by apply HP.
Qed.

Lemma wp_brelse (s : state) H C Q k i b (P : unit -> state -> Prop) :
  io_view (io s) H C Q k -> H !! i = Some b -> b ∉ Q ->
  (forall l, io_view l (delete i H) C Q k -> P tt (set_io l s)) -> wp (brelse i) P s.
Proof.
  intros Hv Hi Hq HP. destruct (io_brelse_ok _ _ _ _ _ _ _ Hv Hi Hq) as (l & Hr & Hv').
  unfold brelse, onio, wp, zoom. rewrite Hr. by apply HP.
Qed.

(** The common pattern: read a block, look at it, release it. *)
Lemma wp_look {A} (s : state) H C k b (f : block -> ST state A) (P : A -> state -> Prop) :
  io_view (io s) H C ∅ k -> io_home b -> (size H < 2)%nat -> (forall i, H !! i <> Some b) ->
  (forall l, io_view l H C ∅ k -> wp (f (C b)) P (set_io l s)) ->
  wp (i ← bread 1 b; x ← bdata i; brelse i;; f x) P s.
Proof.
  intros Hv Hb Hs Hn HP. apply wp_bind. eapply wp_bread; [done..|]. intros i l Hi Hv1.
  apply wp_bind. eapply wp_bdata; [exact Hv1|apply lookup_insert_eq|].
  apply wp_bind. eapply wp_brelse; [exact Hv1|apply lookup_insert_eq|set_solver|]. intros l2 Hv2.
  rewrite delete_insert_id in Hv2 by done. exact (HP l2 Hv2).
Qed.

(** Change the buffer that is held, log it and release it. *)
Lemma wp_commit {A} (s : state) H C k i b g (f : ST state A) (P : A -> state -> Prop) :
  io_view (io s) (<[i := b]> H) C ∅ (S k) -> H !! i = None ->
  (forall l, io_view l H (fupd b (g (C b)) C) ∅ k -> wp f P (set_io l s)) ->
  wp (store i g;; log_write i;; brelse i;; f) P s.
Proof.
  intros Hv Hi HP. pose proof (lookup_insert_eq H i b) as Hl.
  apply wp_bind. eapply wp_store; [done|done|]. intros l1 Hv1.
  apply wp_bind. eapply wp_log_write; [exact Hv1|done|]. intros l2 Hv2.
  replace (({[b]} ∪ ∅) ∖ {[b]}) with (∅ : gset Z) in Hv2 by set_solver.
  apply wp_bind. eapply wp_brelse; [exact Hv2|done|set_solver|]. intros l3 Hv3.
  rewrite delete_insert_id in Hv3 by done. exact (HP l3 Hv3).
Qed.

Lemma wp_get_inode (s : state) ip i (P : inode -> state -> Prop) :
  zlookup (inodes s) ip = Some i -> P i s -> wp (get_inode ip) P s.
Proof. intros E HP. unfold get_inode. apply wp_bind, wp_get. by rewrite E. Qed.

Definition set_in (ip : Z) (i : inode) (s : state) : state := set_inodes (zinsert ip i (inodes s)) s.

Lemma wp_upd_inode (s : state) ip i f (P : unit -> state -> Prop) :
  zlookup (inodes s) ip = Some i -> P tt (set_in ip (f i) s) -> wp (upd_inode ip f) P s.
Proof. intros E HP. unfold upd_inode. apply wp_bind, wp_get. by rewrite E. Qed.

(** ** The layout of the disk

    As mkfs makes it: the superblock, the inodes, the bitmap and the data. *)

Definition dstart (sb : Log.superblock) : Z := Log.bmapstart sb + ((Log.sb_size sb - 1) / BPB + 1).

(** The blocks of the file system that are not the log's. *)
Definition fs_block (sb : Log.superblock) (b : Z) : Prop := b = 1 \/ Log.inodestart sb <= b < Log.sb_size sb.

Record layout (sb : Log.superblock) : Prop := {
  l_size : 0 < Log.sb_size sb < 2 ^ 31;
  l_inode : 1 < Log.inodestart sb;
  l_bmap : Log.inodestart sb + (Log.ninodes sb - 1) / IPB < Log.bmapstart sb;
  l_data : dstart sb <= Log.sb_size sb;
  l_ninodes : 0 < Log.ninodes sb < 2 ^ 31;
  l_home : forall b, fs_block sb b -> io_home b
}.

Definition data (sb : Log.superblock) (b : Z) : Prop := dstart sb <= b < Log.sb_size sb.

Definition used (sb : Log.superblock) (C : Z -> block) (b : Z) : bool :=
  negb (bit_free (C (BBLOCK b sb)) (b mod BPB)).

(** The contents of the disk: whole blocks, the superblock in place, and a
    bitmap in which exactly the data blocks in [F] are free. *)
Record disk (sb : Log.superblock) (C : Z -> block) (F : gset Z) : Prop := {
  d_ok : forall b, fs_block sb b -> block_ok (C b);
  d_sb : sb_load (C 1) = sb;
  d_free : forall b, b ∈ F -> data sb b;
  d_used : forall b, 0 <= b < Log.sb_size sb -> used sb C b = negb (bool_decide (b ∈ F))
}.

Section Layout.

Context (sb : Log.superblock) (Hl : layout sb).

Lemma BBLOCK_range b : 0 <= b < Log.sb_size sb ->
  BBLOCK b sb = b / BPB + Log.bmapstart sb /\ Log.bmapstart sb <= BBLOCK b sb < dstart sb.
Proof.
  intros Hb. pose proof Hl as [Hs Hi Hm Hd Hn _]. unfold dstart in *. unfold IPB, BPB, BSIZE, DINODE in *.
  assert (H1 : b / (512 * 8) <= (Log.sb_size sb - 1) / (512 * 8)) by (apply Z.div_le_mono; lia).
  assert (H2 : 0 <= b / (512 * 8)) by (apply Z.div_pos; lia).
  assert (H3 : 0 <= (Log.ninodes sb - 1) / (512 / 64)) by (apply Z.div_pos; [lia|reflexivity]).
  unfold BBLOCK. rewrite u32_small; unfold BPB, BSIZE; lia.
Qed.

Lemma BBLOCK_fs b : 0 <= b < Log.sb_size sb -> fs_block sb (BBLOCK b sb).
Proof.
  intros Hb. pose proof (BBLOCK_range b Hb) as [_ H]. right.
  pose proof Hl as [Hs Hi Hm Hd Hn _].
  assert (H3 : 0 <= (Log.ninodes sb - 1) / IPB) by (apply Z.div_pos; [lia|reflexivity]). lia.
Qed.

Lemma BBLOCK_home b : 0 <= b < Log.sb_size sb -> io_home (BBLOCK b sb).
Proof. intros Hb. by apply (l_home _ Hl), BBLOCK_fs. Qed.

Lemma data_fs b : data sb b -> fs_block sb b.
Proof.
  intros Hb. right. unfold data, dstart in Hb. pose proof Hl as [Hs Hi Hm Hd Hn _].
  assert (H3 : 0 <= (Log.ninodes sb - 1) / IPB) by (apply Z.div_pos; [lia|reflexivity]).
  assert (H4 : 0 <= (Log.sb_size sb - 1) / BPB) by (apply Z.div_pos; [lia|reflexivity]). lia.
Qed.

Lemma data_home b : data sb b -> io_home b.
Proof. intros Hb. by apply (l_home _ Hl), data_fs. Qed.

Lemma data_range b : data sb b -> 1 < b < Log.sb_size sb.
Proof.
  intros Hb. unfold data, dstart in Hb. pose proof Hl as [Hs Hi Hm Hd Hn _].
  assert (H3 : 0 <= (Log.ninodes sb - 1) / IPB) by (apply Z.div_pos; [lia|reflexivity]).
  assert (H4 : 0 <= (Log.sb_size sb - 1) / BPB) by (apply Z.div_pos; [lia|reflexivity]). lia.
Qed.

Lemma data_not_bitmap b b' : data sb b -> 0 <= b' < Log.sb_size sb -> b <> BBLOCK b' sb.
Proof. intros Hb Hb'. pose proof (BBLOCK_range b' Hb') as [_ H]. unfold data in Hb. lia. Qed.

Lemma bitmap_not_sb b : 0 <= b < Log.sb_size sb -> BBLOCK b sb <> 1.
Proof.
  intros Hb. pose proof (BBLOCK_range b Hb) as [_ H]. pose proof Hl as [Hs Hi Hm Hd Hn _].
  assert (H3 : 0 <= (Log.ninodes sb - 1) / IPB) by (apply Z.div_pos; [lia|reflexivity]). lia.
Qed.

(** The same bitmap block and the same bit: the same block. *)
Lemma bit_inj b b' : 0 <= b < Log.sb_size sb -> 0 <= b' < Log.sb_size sb ->
  BBLOCK b sb = BBLOCK b' sb -> b mod BPB = b' mod BPB -> b = b'.
Proof.
  intros Hb Hb' H1 H2. destruct (BBLOCK_range b Hb) as [E _], (BBLOCK_range b' Hb') as [E' _].
  rewrite (Z.div_mod b BPB), (Z.div_mod b' BPB) by (unfold BPB, BSIZE; lia). rewrite H2. f_equal. f_equal. lia.
Qed.

Lemma bit_range b : 0 <= b mod BPB < BPB.
Proof. apply Z.mod_pos_bound. reflexivity. Qed.

(** ** Changing the bitmap *)

Definition mark (b : Z) (C : Z -> block) : Z -> block := fupd (BBLOCK b sb) (bit_set (b mod BPB) (C (BBLOCK b sb))) C.
Definition unmark (b : Z) (C : Z -> block) : Z -> block := fupd (BBLOCK b sb) (bit_clear (b mod BPB) (C (BBLOCK b sb))) C.

Lemma used_mark C b b' : (forall b, fs_block sb b -> block_ok (C b)) -> 0 <= b < Log.sb_size sb -> 0 <= b' < Log.sb_size sb ->
  used sb (mark b C) b' = (b =? b') || used sb C b'.
Proof.
  intros Hok Hb Hb'. unfold used, mark. destruct (decide (BBLOCK b' sb = BBLOCK b sb)) as [E|Hne].
  - rewrite E, fupd_eq, bit_free_set by (by apply Hok, BBLOCK_fs || apply bit_range). rewrite negb_andb, negb_involutive.
    destruct (Z.eqb_spec b b') as [->|Hbb]; [by rewrite Z.eqb_refl|].
    destruct (Z.eqb_spec (b mod BPB) (b' mod BPB)); [|done]. destruct Hbb. by apply bit_inj.
  - rewrite fupd_ne by done. destruct (Z.eqb_spec b b') as [->|]; done.
Qed.

Lemma used_unmark C b b' : (forall b, fs_block sb b -> block_ok (C b)) -> 0 <= b < Log.sb_size sb -> 0 <= b' < Log.sb_size sb ->
  used sb (unmark b C) b' = negb (b =? b') && used sb C b'.
Proof.
  intros Hok Hb Hb'. unfold used, unmark. destruct (decide (BBLOCK b' sb = BBLOCK b sb)) as [E|Hne].
  - rewrite E, fupd_eq, bit_free_clear by (by apply Hok, BBLOCK_fs || apply bit_range). rewrite negb_orb.
    destruct (Z.eqb_spec b b') as [->|Hbb]; [by rewrite Z.eqb_refl|].
    destruct (Z.eqb_spec (b mod BPB) (b' mod BPB)); [|done]. destruct Hbb. by apply bit_inj.
  - rewrite fupd_ne by done. destruct (Z.eqb_spec b b') as [->|]; done.
Qed.

Lemma bit_set_ok bi x : block_ok x -> block_ok (bit_set bi x).
Proof. apply wr_ok. Qed.

Lemma bit_clear_ok bi x : block_ok x -> block_ok (bit_clear bi x).
Proof. apply wr_ok. Qed.

(** A change of a data block keeps the disk. *)
Lemma disk_fupd C F b x : disk sb C F -> data sb b -> block_ok x -> disk sb (fupd b x C) F.
Proof.
  intros [Hok Hsb Hf Hu] Hb Hx. pose proof (data_range b Hb) as Hr. split; [| |done|].
  - intros b' Hb'. unfold fupd. destruct (b' =? b); [done|by apply Hok].
  - by rewrite fupd_ne by lia.
  - intros b' Hb'. unfold used. rewrite fupd_ne by (intros E; by apply (data_not_bitmap b b')). by apply Hu.
Qed.

Lemma disk_mark C F b : disk sb C F -> b ∈ F -> disk sb (mark b C) (F ∖ {[b]}).
Proof.
  intros [Hok Hsb Hf Hu] Hb. pose proof (data_range b (Hf b Hb)) as Hr. split.
  - intros b' Hb'. unfold mark, fupd. destruct (b' =? _); [apply bit_set_ok, Hok, BBLOCK_fs; lia|by apply Hok].
  - unfold mark. rewrite fupd_ne; [done|]. intros E. apply (bitmap_not_sb b); [lia|done].
  - intros b' Hb'. apply Hf. set_solver.
  - intros b' Hb'. rewrite used_mark, Hu by (done || lia).
    destruct (Z.eqb_spec b b') as [->|Hne]; cbn [orb].
    + by rewrite bool_decide_eq_false_2 by set_solver.
    + f_equal. apply bool_decide_ext. set_solver.
Qed.

Lemma disk_unmark C F b : disk sb C F -> data sb b -> disk sb (unmark b C) ({[b]} ∪ F).
Proof.
  intros [Hok Hsb Hf Hu] Hb. pose proof (data_range b Hb) as Hr. split.
  - intros b' Hb'. unfold unmark, fupd. destruct (b' =? _); [apply bit_clear_ok, Hok, BBLOCK_fs; lia|by apply Hok].
  - unfold unmark. rewrite fupd_ne; [done|]. intros E. apply (bitmap_not_sb b); [lia|done].
  - intros b' [->%elem_of_singleton|Hb']%elem_of_union; [done|by apply Hf].
  - intros b' Hb'. rewrite used_unmark, Hu by (done || lia).
    destruct (Z.eqb_spec b b') as [->|Hne]; cbn [negb andb].
    + by rewrite bool_decide_eq_true_2 by set_solver.
    + f_equal. apply bool_decide_ext. set_solver.
Qed.

(** The contents after [balloc] returned [b]. *)
Definition alloc (b : Z) (C : Z -> block) : Z -> block := fupd b zero_block (mark b C).

Lemma disk_alloc C F b : disk sb C F -> b ∈ F -> disk sb (alloc b C) (F ∖ {[b]}).
Proof.
  intros Hd Hb. apply disk_fupd; [by apply disk_mark|by apply (d_free _ _ _ Hd)|apply zero_ok].
Qed.

(** Neither the bitmap nor the allocated block. *)
Lemma alloc_other C F b b' : disk sb C F -> b ∈ F -> b' <> b -> ~ (Log.bmapstart sb <= b' < dstart sb) -> alloc b C b' = C b'.
Proof.
  intros Hd Hb Hne Hb'. unfold alloc, mark. rewrite fupd_ne by done. apply fupd_ne. intros ->. apply Hb'.
  apply BBLOCK_range. pose proof (data_range b (d_free _ _ _ Hd b Hb)). lia.
Qed.

(** ** [balloc] and [bfree] *)

(** The buffers held while blocks are allocated hold data blocks in use. *)
Definition held_ok (H : gmap Z Z) (F : gset Z) : Prop :=
  (size H < 2)%nat /\ forall i b, H !! i = Some b -> data sb b /\ b ∉ F.

Lemma held_bitmap H F b i : held_ok H F -> 0 <= b < Log.sb_size sb -> H !! i <> Some (BBLOCK b sb).
Proof. intros [_ Hh] Hb Hi. destruct (Hh i _ Hi) as [Hd _]. by apply (data_not_bitmap _ b Hd). Qed.

(** The state with its lower layers changed. *)
Definition same_fs (s s' : state) : Prop := exists l, s' = set_io l s.

Lemma same_fs_trans s1 s2 s3 : same_fs s1 s2 -> same_fs s2 s3 -> same_fs s1 s3.
Proof. intros [l1 ->] [l2 ->]. by exists l2. Qed.

Lemma wp_bzero (s : state) H C k b (P : unit -> state -> Prop) :
  io_view (io s) H C ∅ (S k) -> data sb b -> (size H < 2)%nat -> (forall i, H !! i <> Some b) ->
  (forall l, io_view l H (fupd b zero_block C) ∅ k -> P tt (set_io l s)) ->
  wp (bzero 1 b) P s.
Proof.
  intros Hv Hb Hs Hn HP. unfold bzero. apply wp_bind. eapply wp_bread; [done|by apply data_home|done|done|].
  intros i l Hi Hv1. apply wp_bind. pose proof (lookup_insert_eq H i b) as Hlk.
  eapply wp_store; [exact Hv1|done|]. intros l1 Hv2.
  apply wp_bind. eapply wp_log_write; [exact Hv2|done|]. intros l2 Hv3.
  replace (({[b]} ∪ ∅) ∖ {[b]}) with (∅ : gset Z) in Hv3 by set_solver.
  eapply wp_brelse; [exact Hv3|done|set_solver|]. intros l3 Hv4.
  rewrite delete_insert_id in Hv4 by done. exact (HP l3 Hv4).
Qed.

(** The blocks from [c] on that share a bitmap block with [c]. *)
Lemma chunk b c : b mod BPB = 0 -> b <= c < b + BPB -> c / BPB = b / BPB /\ c mod BPB = c - b.
Proof.
  intros Hb Hc. unfold BPB, BSIZE in *. change (512 * 8) with 4096 in *.
  split; Z.to_euclidean_division_equations; lia.
Qed.

Lemma wp_balloc_loop fuel : forall (s : state) H C F k b (P : Z -> state -> Prop),
  Fs.sb s = sb -> io_view (io s) H C ∅ (S (S k)) -> disk sb C F -> held_ok H F ->
  0 <= b -> b mod BPB = 0 -> (forall c, c ∈ F -> b <= c) -> F <> ∅ ->
  Log.sb_size sb - b <= BPB * Z.of_nat fuel ->
  (forall c l, c ∈ F -> io_view l H (alloc c C) ∅ k -> P c (set_io l s)) ->
  wp (balloc_loop fuel 1 b) P s.
Proof.
  induction fuel as [|fuel IH]; intros s H C F k b P Hsb Hv Hd Hh Hb0 Hbm Hlow Hne Hf HP;
    cbn [balloc_loop]; apply wp_bind; unfold get_sb; apply wp_bind, wp_get, wp_ret; rewrite Hsb;
    destruct (set_choose_L F Hne) as [c0 Hc0]; pose proof (Hlow c0 Hc0) as Hbc;
    pose proof (data_range c0 (d_free _ _ _ Hd c0 Hc0)) as Hc0r;
    destruct (Z.ltb_spec b (Log.sb_size sb)) as [Hlt|Hge]; try lia.
  apply wp_bind. pose proof Hh as [Hhs Hhh].
  eapply wp_bread; [exact Hv|by apply BBLOCK_home|done|intros i'; by eapply held_bitmap|].
  intros i l Hi Hv1. apply wp_bind. eapply wp_bdata; [exact Hv1|apply lookup_insert_eq|].
  pose proof (find_bit_spec (Z.to_nat BPB) (C (BBLOCK b sb)) b (Log.sb_size sb) 0) as Hfb.
  assert (HBPB : Z.of_nat (Z.to_nat BPB) = BPB) by done. rewrite HBPB in Hfb.
  assert (Hbit : forall j, 0 <= j < BPB -> b + j < Log.sb_size sb ->
    BBLOCK (b + j) sb = BBLOCK b sb /\ (b + j) mod BPB = j /\ bit_free (C (BBLOCK b sb)) j = bool_decide (b + j ∈ F)).
  { intros j Hj Hjs. destruct (chunk b (b + j) Hbm) as [E1 E2]; [lia|]. unfold BBLOCK. rewrite E1, E2.
    split; [done|]. split; [lia|]. pose proof (d_used _ _ _ Hd (b + j) ltac:(lia)) as Hu. unfold used, BBLOCK in Hu.
    rewrite E1, E2 in Hu. replace (b + j - b) with j in Hu by lia.
    destruct (bit_free _ j), (bool_decide _); done. }
  destruct (find_bit _ _ _ _ _) as [j|].
  - destruct Hfb as (Hj & Hjs & Hfree). destruct (Hbit j ltac:(lia) Hjs) as (E1 & E2 & E3).
    rewrite Hfree in E3. symmetry in E3. apply bool_decide_eq_true in E3.
    pose proof (d_free _ _ _ Hd _ E3) as Hdat.
    eapply wp_commit; [exact Hv1|done|]. intros l1 Hv2. apply wp_bind.
    assert (HC : forall x, alloc (b + j) C x = fupd (b + j) zero_block (fupd (BBLOCK b sb) (bit_set j (C (BBLOCK b sb))) C) x)
      by (intros x; unfold alloc, mark; by rewrite E1, E2).
    eapply wp_bzero; [exact Hv2|done|done| |].
    + intros i' Hi'. by destruct (Hhh _ _ Hi').
    + intros l2 Hv3. apply wp_ret. apply (HP (b + j) l2 E3). eapply io_ext; [exact Hv3|exact HC].
  - apply wp_bind. eapply wp_brelse; [exact Hv1|apply lookup_insert_eq|set_solver|]. intros l2 Hv2.
    rewrite delete_insert_id in Hv2 by done.
    eapply (IH _ H C F k); [done|exact Hv2|done|done|unfold BPB, BSIZE in *; lia| | |done| |].
    + rewrite <- Hbm. replace (b + BPB) with (b + 1 * BPB) by lia. apply Z.mod_add. done.
    + intros c Hc. destruct (decide (c < b + BPB)); [|lia].
      pose proof (data_range c (d_free _ _ _ Hd c Hc)). pose proof (Hlow c Hc).
      destruct (Hbit (c - b)) as (_ & _ & E); [lia|lia|]. replace (b + (c - b)) with c in E by lia.
      rewrite Hfb in E by lia. symmetry in E. by apply bool_decide_eq_false in E.
    + lia.
    + intros c l3 Hc Hv3. by apply (HP c l3).
Qed.

(** [balloc] returns a free block, which is then in use and zeroed. *)
Lemma wp_balloc (s : state) H C F k (P : Z -> state -> Prop) :
  Fs.sb s = sb -> io_view (io s) H C ∅ (S (S k)) -> disk sb C F -> held_ok H F -> F <> ∅ ->
  (forall c l, c ∈ F -> io_view l H (alloc c C) ∅ k -> P c (set_io l s)) ->
  wp (balloc 1) P s.
Proof.
  intros Hsb Hv Hd Hh Hne HP. unfold balloc. apply wp_bind. unfold get_sb. apply wp_bind, wp_get, wp_ret.
  pose proof Hl as [Hs _ _ _ _ _]. eapply wp_balloc_loop; [done|exact Hv|exact Hd|done|lia|done| |done| |done].
  - intros c Hc. pose proof (data_range c (d_free _ _ _ Hd c Hc)). lia.
  - rewrite Hsb. unfold BPB, BSIZE. change (512 * 8) with 4096.
    rewrite Z2Nat.id by (apply Z.add_nonneg_nonneg; [apply Z.div_pos; lia|lia]).
    pose proof (Z.mod_pos_bound (Log.sb_size sb) 4096 ltac:(lia)). pose proof (Z.div_mod (Log.sb_size sb) 4096 ltac:(lia)). lia.
Qed.

(** With no free block [balloc] panics. *)
Lemma balloc_loop_full fuel : forall (s : state) H C k b,
  Fs.sb s = sb -> io_view (io s) H C ∅ k -> disk sb C ∅ -> held_ok H ∅ ->
  0 <= b -> b mod BPB = 0 -> Log.sb_size sb - b <= BPB * Z.of_nat fuel ->
  balloc_loop fuel 1 b s = Panic "balloc: out of blocks".
Proof.
  induction fuel as [|fuel IH]; intros s H C k b Hsb Hv Hd Hh Hb0 Hbm Hf;
    cbn [balloc_loop]; rewrite (run_bind get_sb _ s sb s) by (unfold get_sb; by rewrite <- Hsb);
    destruct (Z.ltb_spec b (Log.sb_size sb)) as [Hlt|Hge]; try done; [lia|].
  pose proof Hh as [Hhs Hhh].
  destruct (io_bread_ok _ _ _ _ _ _ Hv (BBLOCK_home b ltac:(lia)) Hhs) as (i & l & Hr & Hi & Hv1).
  { intros i. eapply held_bitmap; [done|lia]. }
  rewrite (run_bind (bread 1 (BBLOCK b sb)) _ s i (set_io l s)) by (unfold bread, onio, zoom; by rewrite Hr).
  pose proof (io_data_ok _ _ _ _ _ i _ Hv1 (lookup_insert_eq _ _ _)) as Hdt.
  rewrite (run_bind (bdata i) _ _ (C (BBLOCK b sb)) (set_io l s)).
  2: { unfold bdata, onio, zoom. cbn [io set_io]. by rewrite Hdt. }
  pose proof (find_bit_spec (Z.to_nat BPB) (C (BBLOCK b sb)) b (Log.sb_size sb) 0) as Hfb.
  destruct (find_bit _ _ _ _ _) as [j|].
  { exfalso. destruct Hfb as (Hj & Hjs & Hfree). destruct (chunk b (b + j) Hbm) as [E1 E2]; [change (Z.of_nat (Z.to_nat BPB)) with BPB in Hj; lia|].
    pose proof (d_used _ _ _ Hd (b + j) ltac:(lia)) as Hu. unfold used, BBLOCK in *. rewrite E1, E2 in Hu.
    replace (b + j - b) with j in Hu by lia. rewrite Hfree in Hu. by rewrite bool_decide_eq_false_2 in Hu by set_solver. }
  destruct (io_brelse_ok _ _ _ _ _ i _ Hv1 (lookup_insert_eq _ _ _) ltac:(set_solver)) as (l2 & Hr2 & Hv2).
  rewrite (run_bind (brelse i) _ _ tt (set_io l2 s)) by (unfold brelse, onio, zoom; cbn [io set_io]; by rewrite Hr2).
  rewrite delete_insert_id in Hv2 by done.
  apply (IH (set_io l2 s) H C k); try done; [unfold BPB, BSIZE in *; lia| |lia].
  rewrite <- Hbm. replace (b + BPB) with (b + 1 * BPB) by lia. apply Z.mod_add. done.
Qed.

Lemma wp_readsb (s : state) H C k F (P : unit -> state -> Prop) :
  Fs.sb s = sb -> io_view (io s) H C ∅ k -> disk sb C F -> (size H < 2)%nat -> (forall i, H !! i <> Some 1) ->
  (forall l, io_view l H C ∅ k -> P tt (set_io l s)) -> wp (readsb 1) P s.
Proof.
  intros Hsb Hv Hd Hs Hn HP. unfold readsb. apply wp_bind.
  eapply wp_bread; [exact Hv|apply (l_home _ Hl); by left|done|done|]. intros i l Hi Hv1.
  apply wp_bind. eapply wp_bdata; [exact Hv1|apply lookup_insert_eq|]. apply wp_bind, wp_modify.
  eapply wp_brelse; [exact Hv1|apply lookup_insert_eq|set_solver|]. intros l2 Hv2.
  rewrite delete_insert_id in Hv2 by done. rewrite (d_sb _ _ _ Hd). specialize (HP l2 Hv2).
  unfold set_io in *. cbn [Fs.sb inodes iclock]. by rewrite Hsb in HP.
Qed.

(** [bfree] of a block in use makes it free. *)
Lemma wp_bfree (s : state) H C F k k' b (P : unit -> state -> Prop) :
  Fs.sb s = sb -> io_view (io s) H C ∅ k -> pays (BBLOCK b sb) k k' -> disk sb C F -> data sb b -> b ∉ F ->
  (size H < 2)%nat -> (forall i b, H !! i = Some b -> data sb b) ->
  (forall l, io_view l H (unmark b C) ∅ k' -> P tt (set_io l s)) ->
  wp (bfree 1 b) P s.
Proof.
  intros Hsb Hv Hpay Hd Hb HbF Hs Hh HP. pose proof (data_range b Hb) as Hr. unfold bfree. apply wp_bind.
  eapply wp_readsb; [done|exact Hv|done|done| |].
  { intros i Hi. pose proof (data_range _ (Hh _ _ Hi)). lia. }
  intros l Hv1. apply wp_bind. unfold get_sb. apply wp_bind, wp_get, wp_ret. cbn [Fs.sb set_io]. rewrite Hsb.
  apply wp_bind. eapply wp_bread; [exact Hv1|apply BBLOCK_home; lia|done| |].
  { intros i Hi. apply (data_not_bitmap _ b (Hh _ _ Hi)); [lia|done]. }
  intros i l2 Hi Hv2. apply wp_bind. eapply wp_bdata; [exact Hv2|apply lookup_insert_eq|].
  pose proof (d_used _ _ _ Hd b ltac:(lia)) as Hu. rewrite bool_decide_eq_false_2 in Hu by done.
  unfold used in Hu. apply negb_true_iff in Hu. rewrite Hu.
  pose proof (lookup_insert_eq H i (BBLOCK b sb)) as Hlk.
  apply wp_bind. eapply wp_store; [exact Hv2|done|]. intros l3 Hv3.
  apply wp_bind. eapply wp_log_pays; [exact Hv3|exact Hpay|done|]. intros l4 Hv4.
  replace (({[BBLOCK b sb]} ∪ ∅) ∖ {[BBLOCK b sb]}) with (∅ : gset Z) in Hv4 by set_solver.
  eapply wp_brelse; [exact Hv4|done|set_solver|]. intros l5 Hv5.
  rewrite delete_insert_id in Hv5 by done. by apply HP.
Qed.

End Layout.

End Fs.

End FsBlk.
