(* ===== verification/FsMap.v ===== *)
(** * The blocks of a file

    The map from the blocks of a file to blocks of the disk, through the direct
    addresses and the indirect block, and the specification of [bmap]. *)

From Stdlib Require Import ZArith Lia.
From stdpp Require Import base numbers strings list gmap.
From S2P Require Import Prelude Block BufView BlockIO Log Fs FsBlk.

Open Scope Z_scope.

Import Block BufView BlockIO Fs FsBlk.

Module FsMap.

#[local] Opaque zero_block.

(** The disk block of block [bn] of the file, or 0. *)
Definition baddr (C : Z -> block) (i : inode) (bn : Z) : Z :=
  if bn <? NDIRECT then addr_of i bn
  else if addr_of i NDIRECT =? 0 then 0
  else get32 (C (addr_of i NDIRECT)) (4 * (bn - NDIRECT)).

(** Byte [x] of the file; a hole reads as 0. *)
Definition fbyte (C : Z -> block) (i : inode) (x : Z) : Z :=
  if baddr C i (x / BSIZE) =? 0 then 0 else rd (C (baddr C i (x / BSIZE))) (x mod BSIZE).

Definition bn_ok (bn : Z) : Prop := 0 <= bn < MAXFILE.

(** The blocks of the file, with the indirect block. *)
Definition own (C : Z -> block) (i : inode) (b : Z) : Prop :=
  b <> 0 /\ (b = addr_of i NDIRECT \/ exists bn, bn_ok bn /\ b = baddr C i bn).

Lemma MAXFILE_eq : MAXFILE = 140.
Proof. done. Qed.

Lemma rd_zero o : rd zero_block o = 0.
Proof.
  #[local] Transparent zero_block. unfold rd, zlookup, zero_block. destruct (0 <=? o); [|done].
  destruct (_ !! _) as [v|] eqn:E; [|done]. apply lookup_replicate in E as [-> _]. done.
Qed.

#[local] Opaque zero_block.

Lemma get32_zero o : get32 zero_block o = 0.
Proof. unfold get32. by rewrite !rd_zero. Qed.

Lemma addr_of_set i k v j : length (addrs i) = 13%nat -> 0 <= k < 13 ->
  addr_of (set_addr k v i) j = if j =? k then v else addr_of i j.
Proof.
  intros Hl Hk. unfold addr_of, set_addr. cbn [addrs set_addrs]. destruct (Z.eqb_spec j k) as [->|Hne].
  - by rewrite zlookup_zinsert_eq by lia.
  - by rewrite zlookup_zinsert_ne by done.
Qed.

(** All but the addresses. *)
Definition same_meta (i i' : inode) : Prop := i' = set_addrs (addrs i') i.

Lemma same_meta_trans i1 i2 i3 : same_meta i1 i2 -> same_meta i2 i3 -> same_meta i1 i3.
Proof. unfold same_meta. intros H1 H2. rewrite H2, H1. done. Qed.

Lemma same_meta_refl i : same_meta i i.
Proof. by destruct i. Qed.

Section Map.

Context {L : Type} `{!BlockIO L}.
Context (sb : Log.superblock) (Hl : layout sb).

Local Abbreviation state := (@state L).

(** A file whose blocks are data blocks in use, each used once. *)
Record file (C : Z -> block) (F : gset Z) (i : inode) : Prop := {
  f_len : length (addrs i) = 13%nat;
  f_own : forall b, own C i b -> data sb b /\ b ∉ F;
  f_inj : forall m n, bn_ok m -> bn_ok n -> baddr C i m <> 0 -> baddr C i m = baddr C i n -> m = n;
  f_ind : forall n, bn_ok n -> baddr C i n <> 0 -> baddr C i n <> addr_of i NDIRECT
}.

Definition bitmap (b : Z) : Prop := Log.bmapstart sb <= b < dstart sb.

Lemma own_not_bitmap C F i b : file C F i -> own C i b -> ~ bitmap b.
Proof. intros Hf Hb Hm. destruct (f_own _ _ _ Hf b Hb) as [Hd _]. unfold data, bitmap in *. lia. Qed.

(** The map depends on the indirect block only. *)
Lemma baddr_ext C C' i i' bn :
  (forall k, 0 <= k <= NDIRECT -> addr_of i' k = addr_of i k) ->
  (addr_of i NDIRECT <> 0 -> C' (addr_of i NDIRECT) = C (addr_of i NDIRECT)) -> 0 <= bn ->
  baddr C' i' bn = baddr C i bn.
Proof.
  intros Ha HC Hbn. unfold baddr. rewrite (Ha NDIRECT) by (unfold NDIRECT; lia). destruct (Z.ltb_spec bn NDIRECT).
  - apply Ha. unfold NDIRECT in *. lia.
  - destruct (Z.eqb_spec (addr_of i NDIRECT) 0) as [|Hne]; [done|]. by rewrite HC.
Qed.

(** ** Growing a file *)

(** The file got more blocks, taken from the free ones, and reads the same. *)
Record grows (C : Z -> block) (F : gset Z) (i : inode) (C' : Z -> block) (F' : gset Z) (i' : inode) : Prop := {
  g_disk : disk sb C' F';
  g_file : file C' F' i';
  g_meta : same_meta i i';
  g_bytes : forall x, 0 <= x < MAXFILE * BSIZE -> fbyte C' i' x = fbyte C i x;
  g_keep : forall n, bn_ok n -> baddr C i n <> 0 -> baddr C' i' n = baddr C i n;
  g_sub : F' ⊆ F;
  g_own : forall b, own C' i' b <-> own C i b \/ (b ∈ F /\ b ∉ F');
  g_frame : forall b, ~ own C i b -> b ∉ F -> ~ bitmap b -> C' b = C b
}.

Lemma grows_refl C F i : disk sb C F -> file C F i -> grows C F i C F i.
Proof. intros Hd Hf. split; try done; [apply same_meta_refl|]. intros b. tauto. Qed.

Lemma grows_trans C1 F1 i1 C2 F2 i2 C3 F3 i3 :
  grows C1 F1 i1 C2 F2 i2 -> grows C2 F2 i2 C3 F3 i3 -> grows C1 F1 i1 C3 F3 i3.
Proof.
  intros [D1 L1 M1 B1 K1 S1 O1 X1] [D2 L2 M2 B2 K2 S2 O2 X2]. split; [done|done| | | | | |].
  - by eapply same_meta_trans.
  - intros x Hx. by rewrite B2, B1.
  - intros n Hn Hne. rewrite K2; [by apply K1|done|]. by rewrite K1.
  - by etransitivity.
  - intros b. rewrite O2, O1. pose proof (S1 b). pose proof (S2 b). destruct (decide (b ∈ F1)), (decide (b ∈ F2)), (decide (b ∈ F3)); tauto.
  - intros b H1 H2 H3. rewrite X2; [by apply X1| | |done]; [|set_solver].
    rewrite O1. intros [?|[? _]]; [done|set_solver].
Qed.

Lemma file_own_addr C F i n : file C F i -> bn_ok n -> baddr C i n <> 0 -> own C i (baddr C i n).
Proof. intros Hf Hn Hne. split; [done|]. right. by exists n. Qed.

Lemma disk_free_nonzero C F b : disk sb C F -> b ∈ F -> b <> 0.
Proof. intros Hd Hb. pose proof (data_range sb Hl b (d_free _ _ _ Hd b Hb)). lia. Qed.

(** Block [n] of the file, which it did not have, becomes the free block [b]. *)
Lemma grows_link C F i C' i' n b :
  disk sb C F -> file C F i -> b ∈ F -> bn_ok n -> baddr C i n = 0 ->
  disk sb C' (F ∖ {[b]}) -> same_meta i i' -> length (addrs i') = 13%nat ->
  addr_of i' NDIRECT = addr_of i NDIRECT ->
  (forall m, bn_ok m -> baddr C' i' m = if m =? n then b else baddr C i m) ->
  C' b = zero_block ->
  (forall x, x <> b -> ~ bitmap x -> (x = addr_of i NDIRECT -> x = 0) -> C' x = C x) ->
  grows C F i C' (F ∖ {[b]}) i'.
Proof.
  intros Hd Hf Hb Hn H0 Hd' Hm Hlen Hind HB Hz HC. pose proof (disk_free_nonzero _ _ _ Hd Hb) as Hb0.
  assert (Hfresh : ~ own C i b) by (intros Ho; by destruct (f_own _ _ _ Hf b Ho)).
  assert (Hown : forall x, own C' i' x <-> own C i x \/ x = b).
  { intros x. unfold own. rewrite Hind. split.
    - intros [Hx [->|(m & Hm' & ->)]]; [tauto|]. rewrite HB in * by done.
      destruct (m =? n); [by right|]. left. split; [done|]. right. by exists m.
    - intros [[Hx [->|(m & Hm' & ->)]]| ->]; [tauto| |].
      + split; [done|]. right. exists m. rewrite HB by done. destruct (Z.eqb_spec m n) as [->|]; done.
      + split; [done|]. right. exists n. rewrite HB, Z.eqb_refl by done. done. }
  split; [done| |done| | |set_solver| |].
  - split; [done| | |].
    + intros x [Hx| ->]%Hown; [|split; [by apply (d_free _ _ _ Hd)|set_solver]].
      destruct (f_own _ _ _ Hf x Hx). split; [done|set_solver].
    + intros p q Hp Hq. rewrite !HB by done. destruct (Z.eqb_spec p n), (Z.eqb_spec q n); [congruence| | |by apply (f_inj _ _ _ Hf)].
      * intros _ E. destruct Hfresh. rewrite E. apply (file_own_addr C F); [done..|congruence].
      * intros Hne E. destruct Hfresh. rewrite <- E. by apply (file_own_addr C F).
    + intros p Hp. rewrite HB, Hind by done. destruct (Z.eqb_spec p n); [|by apply (f_ind _ _ _ Hf)].
      intros _ E. apply Hfresh. split; [done|by left].
  - intros x Hx. assert (Hbn : bn_ok (x / BSIZE)).
    { unfold bn_ok. rewrite MAXFILE_eq in *. unfold BSIZE in *. Z.to_euclidean_division_equations; lia. }
    unfold fbyte. rewrite HB by done. destruct (Z.eqb_spec (x / BSIZE) n) as [E|Hne].
    + rewrite E, H0, Hz, rd_zero. by destruct (b =? 0).
    + destruct (Z.eqb_spec (baddr C i (x / BSIZE)) 0) as [|Ha]; [done|].
      pose proof (file_own_addr _ _ _ _ Hf Hbn Ha) as Ho. f_equal. apply HC.
      * intros E. rewrite E in Ho. done.
      * by eapply own_not_bitmap.
      * intros E. by destruct (f_ind _ _ _ Hf _ Hbn Ha).
  - intros m Hm' Hne. rewrite HB by done. destruct (Z.eqb_spec m n) as [->|]; done.
  - intros x. rewrite Hown, elem_of_difference, elem_of_singleton. destruct (decide (x = b)) as [->|]; tauto.
  - intros x Hx HxF Hxb. apply HC; [by intros ->|done|]. intros ->.
    destruct (decide (addr_of i NDIRECT = 0)) as [E|Hne]; [done|]. destruct Hx. split; [done|by left].
Qed.

(** A direct block. *)
Lemma grows_direct C F i n b :
  disk sb C F -> file C F i -> b ∈ F -> 0 <= n < NDIRECT -> addr_of i n = 0 ->
  grows C F i (alloc sb b C) (F ∖ {[b]}) (set_addr n b i).
Proof.
  intros Hd Hf Hb Hn H0. pose proof (f_len _ _ _ Hf) as Hlen. unfold NDIRECT in *.
  assert (Hset : forall k, addr_of (set_addr n b i) k = if k =? n then b else addr_of i k)
    by (intros k; apply addr_of_set; [done|lia]).
  apply (grows_link C F i _ _ n b); try done.
  - unfold bn_ok. rewrite MAXFILE_eq. lia.
  - unfold baddr. unfold NDIRECT. by rewrite (proj2 (Z.ltb_lt n 12)) by lia.
  - by apply disk_alloc.
  - cbn. by rewrite length_zinsert.
  - rewrite Hset. unfold NDIRECT. by rewrite (proj2 (Z.eqb_neq 12 n)) by lia.
  - intros m Hm. unfold baddr. rewrite !Hset. unfold NDIRECT. rewrite (proj2 (Z.eqb_neq 12 n)) by lia.
    destruct (Z.ltb_spec m 12); [done|]. rewrite (proj2 (Z.eqb_neq m n)) by lia.
    destruct (Z.eqb_spec (addr_of i 12) 0) as [|Hne]; [done|]. f_equal.
    assert (Ho : own C i (addr_of i 12)) by (split; [done|by left]).
    destruct (f_own _ _ _ Hf _ Ho) as [_ HnF]. eapply alloc_other; [done|exact Hd|done|by intros E; rewrite E in HnF|].
    by apply (own_not_bitmap C F i).
  - apply fupd_eq.
  - intros x Hx Hxb _. by eapply alloc_other.
Qed.

(** The indirect block. *)
Lemma grows_indirect C F i b :
  disk sb C F -> file C F i -> b ∈ F -> addr_of i NDIRECT = 0 ->
  grows C F i (alloc sb b C) (F ∖ {[b]}) (set_addr NDIRECT b i) /\
  addr_of (set_addr NDIRECT b i) NDIRECT = b.
Proof.
  intros Hd Hf Hb H0. pose proof (f_len _ _ _ Hf) as Hlen. pose proof (disk_free_nonzero _ _ _ Hd Hb) as Hb0.
  set (C' := alloc sb b C). set (i' := set_addr NDIRECT b i).
  assert (Hset : forall k, addr_of i' k = if k =? NDIRECT then b else addr_of i k)
    by (intros k; apply addr_of_set; [done|unfold NDIRECT; lia]).
  assert (HB : forall m, bn_ok m -> baddr C' i' m = baddr C i m).
  { intros m [Hm _]. unfold baddr. rewrite !Hset, Z.eqb_refl, H0. destruct (Z.ltb_spec m NDIRECT).
    - by rewrite (proj2 (Z.eqb_neq m NDIRECT)) by lia.
    - rewrite (proj2 (Z.eqb_neq b 0)) by done. unfold C', alloc. by rewrite fupd_eq, get32_zero. }
  assert (Hfresh : ~ own C i b) by (intros Ho; by destruct (f_own _ _ _ Hf b Ho)).
  assert (Hown : forall x, own C' i' x <-> own C i x \/ x = b).
  { intros x. unfold own. rewrite Hset, Z.eqb_refl, H0. split.
    - intros [Hx [->|(m & Hm & ->)]]; [by right|]. rewrite HB in * by done. left. split; [done|]. right. by exists m.
    - intros [[Hx [->|(m & Hm & ->)]]| ->]; [done| |].
      + split; [done|]. right. exists m. by rewrite HB.
      + split; [done|by left]. }
  split; [|by rewrite Hset, Z.eqb_refl]. split; [by apply disk_alloc| |done| | |set_solver| |].
  - split; [by rewrite <- Hlen, <- (length_zinsert (addrs i) NDIRECT b)| | |].
    + intros x [Hx| ->]%Hown; [|split; [by apply (d_free _ _ _ Hd)|set_solver]].
      destruct (f_own _ _ _ Hf x Hx). split; [done|set_solver].
    + intros p q Hp Hq. rewrite !HB by done. by apply (f_inj _ _ _ Hf).
    + intros p Hp. rewrite HB, Hset, Z.eqb_refl by done. intros Hne E. destruct Hfresh. rewrite <- E.
      by apply (file_own_addr C F).
  - intros x Hx. assert (Hbn : bn_ok (x / BSIZE)).
    { unfold bn_ok. rewrite MAXFILE_eq in *. unfold BSIZE in *. Z.to_euclidean_division_equations; lia. }
    unfold fbyte. rewrite HB by done. destruct (Z.eqb_spec (baddr C i (x / BSIZE)) 0) as [|Ha]; [done|].
    pose proof (file_own_addr _ _ _ _ Hf Hbn Ha) as Ho. f_equal. eapply alloc_other; [done|exact Hd|done| |].
    + intros E. by rewrite E in Ho.
    + by eapply own_not_bitmap.
  - intros m Hm _. by apply HB.
  - intros x. rewrite Hown, elem_of_difference, elem_of_singleton. destruct (decide (x = b)) as [->|]; tauto.
  - intros x Hx HxF Hxb. eapply alloc_other; [done|exact Hd|done|by intros ->|done].
Qed.

(** A block in the indirect block. *)
Definition link_indirect (i : inode) (n b : Z) (C : Z -> block) : Z -> block :=
  fupd (addr_of i NDIRECT) (put32 (4 * (n - NDIRECT)) b (C (addr_of i NDIRECT))) C.

Lemma grows_through C F i n b :
  disk sb C F -> file C F i -> b ∈ F -> NDIRECT <= n < MAXFILE -> addr_of i NDIRECT <> 0 -> baddr C i n = 0 ->
  grows C F i (link_indirect i n b (alloc sb b C)) (F ∖ {[b]}) i.
Proof.
  intros Hd Hf Hb Hn Hi0 H0. set (a := addr_of i NDIRECT) in *.
  assert (Ho : own C i a) by (split; [done|by left]).
  destruct (f_own _ _ _ Hf a Ho) as [Hda HaF]. pose proof (data_range sb Hl b (d_free _ _ _ Hd b Hb)) as Hbr.
  assert (Hab : a <> b) by (intros E; by rewrite E in HaF).
  assert (Ha : alloc sb b C a = C a) by (eapply alloc_other; [done|exact Hd|done|done|by apply (own_not_bitmap C F i)]).
  pose proof (disk_alloc sb Hl _ _ _ Hd Hb) as Hd1. pose proof (l_size _ Hl) as Hsz.
  assert (Hlen : length (C a) = 512%nat) by (apply (d_ok _ _ _ Hd a); by apply data_fs).
  unfold link_indirect. fold a. rewrite Ha. set (x1 := put32 (4 * (n - NDIRECT)) b (C a)).
  apply (grows_link C F i _ _ n b); try done.
  - unfold bn_ok, NDIRECT in *. lia.
  - apply disk_fupd; [done|done|done|]. apply put32_ok, (d_ok _ _ _ Hd). by apply data_fs.
  - apply same_meta_refl.
  - apply (f_len _ _ _ Hf).
  - intros m [Hm0 Hm1]. unfold baddr. fold a. rewrite (proj2 (Z.eqb_neq a 0)) by done.
    unfold NDIRECT in *. rewrite MAXFILE_eq in *. destruct (Z.ltb_spec m 12).
    { by rewrite (proj2 (Z.eqb_neq m n)) by lia. }
    rewrite fupd_eq. unfold x1. destruct (Z.eqb_spec m n) as [->|Hne].
    + rewrite get32_put32_eq by (rewrite ?Hlen; lia). apply u32_small. lia.
    + apply get32_put32_ne. lia.
  - rewrite fupd_ne by done. apply fupd_eq.
  - intros x Hx Hxb Hxa. destruct (decide (x = a)) as [->|Hne]; [by rewrite Hxa in Hi0|].
    rewrite fupd_ne by done. by eapply alloc_other.
Qed.

(** ** [bmap] *)

(** The state of the inode cache entry [ip] and of the layers below. *)
Definition fst_at (s : state) (ip : Z) (i : inode) (C : Z -> block) (k : nat) : Prop :=
  Fs.sb s = sb /\ zlookup (inodes s) ip = Some i /\ idev i = 1 /\ io_view (io s) ∅ C ∅ k.

(** A state that differs in the layers below and in entry [ip]. *)
Definition same_but (ip : Z) (i' : inode) (s s' : state) : Prop :=
  inodes s' = zinsert ip i' (inodes s) /\ Fs.sb s' = Fs.sb s /\ iclock s' = iclock s.

Lemma same_but_trans ip i1 i2 s1 s2 s3 :
  same_but ip i1 s1 s2 -> same_but ip i2 s2 s3 -> same_but ip i2 s1 s3.
Proof. intros (A1 & B1 & C1) (A2 & B2 & C2). split; [by rewrite A2, A1, zinsert_twice|]. split; congruence. Qed.

Lemma same_but_io s ip i l : zlookup (inodes s) ip = Some i -> same_but ip i s (set_io l s).
Proof. intros E. split; [|done]. cbn. by rewrite zinsert_id. Qed.

Lemma same_but_in s ip i l : same_but ip i s (set_in ip i (set_io l s)).
Proof. done. Qed.

Lemma same_but_lookup ip i i' s s' : zlookup (inodes s) ip = Some i -> same_but ip i' s s' -> zlookup (inodes s') ip = Some i'.
Proof. intros E (-> & _ & _). apply zlookup_zinsert_eq. by eapply zlookup_lt. Qed.

Lemma wp_weaken_k s ip i C k : fst_at s ip i C (S k) -> fst_at s ip i C k.
Proof. intros (H1 & H2 & H3 & H4). repeat split; try done. by apply io_weaken. Qed.

(** [bmap] of a block that the file has changes nothing. *)
Lemma wp_bmap_hit s ip i C F k n (P : Z -> state -> Prop) :
  fst_at s ip i C k -> file C F i -> bn_ok n -> baddr C i n <> 0 ->
  (forall l, io_view l ∅ C ∅ k -> P (baddr C i n) (set_io l s)) -> wp (bmap ip n) P s.
Proof.
  intros (Hsb & Hin & Hdev & Hv) Hf [Hn0 Hn1] Hne HP. unfold bmap, baddr in *. destruct (Z.ltb_spec n NDIRECT) as [Hd|Hd].
  - unfold addr_or_alloc. apply wp_bind. eapply wp_get_inode; [done|]. rewrite (proj2 (Z.eqb_neq _ 0) Hne).
    apply wp_ret. specialize (HP _ Hv). by destruct s.
  - destruct (Z.eqb_spec (addr_of i NDIRECT) 0) as [|Ha]; [done|].
    rewrite MAXFILE_eq in *. unfold NDIRECT in *. rewrite (proj2 (Z.ltb_lt (n - 12) NINDIRECT)) by (change NINDIRECT with 128; lia).
    apply wp_bind. unfold addr_or_alloc. apply wp_bind. eapply wp_get_inode; [done|].
    rewrite (proj2 (Z.eqb_neq _ 0) Ha). apply wp_ret. apply wp_bind. eapply wp_get_inode; [done|]. rewrite Hdev.
    assert (Ho : own C i (addr_of i 12)) by (split; [done|by left]).
    destruct (f_own _ _ _ Hf _ Ho) as [Hda _].
    apply wp_bind. eapply wp_bread; [exact Hv|by apply (data_home sb)|rewrite map_size_empty; lia|by intros j; rewrite lookup_empty|].
    intros bp l Hbp Hv1. apply wp_bind. eapply wp_bdata; [exact Hv1|apply lookup_insert_eq|].
    apply wp_bind. rewrite (proj2 (Z.eqb_neq _ 0) Hne). apply wp_ret.
    apply wp_bind. eapply wp_brelse; [exact Hv1|apply lookup_insert_eq|set_solver|]. intros l2 Hv2.
    rewrite delete_insert_id in Hv2 by done. apply wp_ret. exact (HP l2 Hv2).
Qed.

(** One address of the inode. *)
Lemma wp_addr_or_alloc s ip i C F k j (P : Z -> state -> Prop) :
  fst_at s ip i C (S (S k)) -> disk sb C F -> F <> ∅ ->
  (addr_of i j <> 0 -> P (addr_of i j) s) ->
  (forall c l, addr_of i j = 0 -> c ∈ F -> io_view l ∅ (alloc sb c C) ∅ k ->
     P c (set_in ip (set_addr j c i) (set_io l s))) ->
  wp (addr_or_alloc ip j) P s.
Proof.
  intros (Hsb & Hin & Hdev & Hv) Hd HF Hhit Hnew. unfold addr_or_alloc. apply wp_bind. eapply wp_get_inode; [done|].
  destruct (Z.eqb_spec (addr_of i j) 0) as [E|Hne]; [|by apply wp_ret, Hhit].
  rewrite Hdev. apply wp_bind. eapply (wp_balloc sb Hl); [done|exact Hv|exact Hd| |done|].
  { split; [rewrite map_size_empty; lia|]. intros i' b. by rewrite lookup_empty. }
  intros c l Hc Hv1. apply wp_bind. eapply wp_upd_inode; [exact Hin|]. apply wp_ret. by apply Hnew.
Qed.

(** A block added through the indirect block [addr_of i NDIRECT]. *)
Lemma wp_bmap_through s ip i C F k n (P : Z -> state -> Prop) :
  fst_at s ip i C (S (S (S k))) -> disk sb C F -> file C F i -> F <> ∅ -> NDIRECT <= n < MAXFILE ->
  addr_of i NDIRECT <> 0 -> baddr C i n = 0 ->
  (forall c l, c ∈ F -> io_view l ∅ (link_indirect i n c (alloc sb c C)) ∅ k -> P c (set_io l s)) ->
  wp (bp ← bread 1 (addr_of i NDIRECT); x ← bdata bp;
      addr ← (if get32 x (4 * (n - NDIRECT)) =? 0 then
                a ← balloc 1; store bp (put32 (4 * (n - NDIRECT)) a);; log_write bp;; mret a
              else mret (get32 x (4 * (n - NDIRECT))));
      brelse bp;; mret addr) P s.
Proof.
  intros (Hsb & Hin & Hdev & Hv) Hd Hf HF Hn Ha H0 HP. set (a := addr_of i NDIRECT) in *.
  assert (Ho : own C i a) by (split; [done|by left]). destruct (f_own _ _ _ Hf _ Ho) as [Hda HaF].
  apply wp_bind. eapply wp_bread; [exact Hv|by apply (data_home sb)|rewrite map_size_empty; lia|by intros j; rewrite lookup_empty|].
  intros bp l Hbp Hv1. apply wp_bind. eapply wp_bdata; [exact Hv1|apply lookup_insert_eq|].
  apply wp_bind. unfold baddr in H0. rewrite (proj2 (Z.ltb_ge n NDIRECT)) in H0 by lia. fold a in H0.
  rewrite (proj2 (Z.eqb_neq a 0) Ha) in H0. rewrite H0. change (0 =? 0) with true. cbv iota.
  pose proof (lookup_insert_eq (∅ : gmap Z Z) bp a) as Hlk.
  apply wp_bind. eapply (wp_balloc sb Hl); [done|exact Hv1|exact Hd| |done|].
  { split; [rewrite insert_empty, map_size_singleton; lia|]. intros j b. rewrite insert_empty.
    intros [_ <-]%lookup_singleton_Some. done. }
  intros c l1 Hc Hv2. apply wp_bind. eapply wp_store; [exact Hv2|done|]. intros l2 Hv3.
  apply wp_bind. eapply wp_log_write; [exact Hv3|done|]. intros l3 Hv4.
  replace (({[a]} ∪ ∅) ∖ {[a]}) with (∅ : gset Z) in Hv4 by set_solver.
  apply wp_ret. apply wp_bind. eapply wp_brelse; [exact Hv4|done|set_solver|]. intros l4 Hv5.
  rewrite delete_insert_id in Hv5 by done. apply wp_ret. by apply (HP c l4 Hc).
Qed.

(** The specification of [bmap]. *)
Lemma wp_bmap s ip i C F k n (P : Z -> state -> Prop) :
  fst_at s ip i C (5 + k) -> disk sb C F -> file C F i -> bn_ok n -> (2 <= size F)%nat ->
  (forall C' F' i' s', grows C F i C' F' i' -> baddr C' i' n <> 0 -> (baddr C i n <> 0 -> i' = i /\ F' = F) ->
     (size F <= size F' + 2)%nat ->
     fst_at s' ip i' C' k -> same_but ip i' s s' -> P (baddr C' i' n) s') ->
  wp (bmap ip n) P s.
Proof.
  intros Hs Hd Hf Hn HF HP. pose proof Hs as (Hsb & Hin & Hdev & Hv).
  assert (HFne : F <> ∅) by (intros ->; rewrite size_empty in HF; lia).
  assert (Hdrop : forall s i C m, fst_at s ip i C (m + k) -> fst_at s ip i C k)
    by (intros s0 i0 C0 m; induction m as [|m IH]; [done|]; intros ?; by apply IH, wp_weaken_k).
  destruct (decide (baddr C i n = 0)) as [H0|Hne].
  2: { eapply wp_bmap_hit; [done|done|done|done|]. intros l Hv1.
       eapply (HP C F i); [by apply grows_refl|done|done|lia| |by apply same_but_io].
       apply (Hdrop _ _ _ 5%nat). by split. }
  assert (Hrm : forall c (G : gset Z), c ∈ G -> size G = S (size (G ∖ {[c]}))).
  { intros c G Hc. rewrite size_difference by set_solver. rewrite size_singleton.
    assert (size G <> 0)%nat by (intros E; apply size_empty_inv in E; set_solver). lia. }
  unfold bmap. destruct (Z.ltb_spec n NDIRECT) as [Hlt|Hge].
  - assert (Ha : addr_of i n = 0) by (unfold baddr in H0; by rewrite (proj2 (Z.ltb_lt n NDIRECT)) in H0 by done).
    eapply (wp_addr_or_alloc _ _ _ _ _ (3 + k)); [exact Hs|exact Hd|done|done|]. intros c l _ Hc Hv1.
    pose proof (grows_direct _ _ _ n c Hd Hf Hc ltac:(unfold bn_ok in Hn; lia) Ha) as Hg.
    assert (E : baddr (alloc sb c C) (set_addr n c i) n = c).
    { unfold baddr. rewrite (proj2 (Z.ltb_lt n NDIRECT)) by done. rewrite addr_of_set, Z.eqb_refl; [done|apply Hf|].
      unfold bn_ok, NDIRECT in *. lia. }
    pose proof (fun s' => HP _ _ _ s' Hg) as HQ. rewrite E in HQ. apply HQ; [|done| | |apply same_but_in].
    + by eapply disk_free_nonzero.
    + rewrite (Hrm c F Hc). lia.
    + apply (Hdrop _ _ _ 3%nat). split; [done|]. split; [cbn; apply zlookup_zinsert_eq; by eapply zlookup_lt|done].
  - assert (Hn12 : NDIRECT <= n < MAXFILE) by (unfold bn_ok in Hn; lia).
    rewrite (proj2 (Z.ltb_lt (n - NDIRECT) NINDIRECT)) by (change NINDIRECT with 128; change MAXFILE with 140 in *; unfold NDIRECT in *; lia).
    assert (Hthrough : forall i1 C1 F1 s1 k1, grows C F i C1 F1 i1 -> fst_at s1 ip i1 C1 (3 + k1) -> (k <= k1)%nat ->
      same_but ip i1 s s1 -> addr_of i1 NDIRECT <> 0 -> baddr C1 i1 n = 0 -> F1 <> ∅ -> (size F <= size F1 + 1)%nat ->
      forall c l, c ∈ F1 -> io_view l ∅ (link_indirect i1 n c (alloc sb c C1)) ∅ k1 -> P c (set_io l s1)).
    { intros i1 C1 F1 s1 k1 Hg Hs1 Hk1 Hsame Ha Hz HF1 Hsz c l Hc Hv1.
      pose proof (grows_through _ _ _ n c (g_disk _ _ _ _ _ _ Hg) (g_file _ _ _ _ _ _ Hg) Hc Hn12 Ha Hz) as Hg2.
      assert (E : baddr (link_indirect i1 n c (alloc sb c C1)) i1 n = c).
      { unfold baddr, link_indirect. rewrite (proj2 (Z.ltb_ge n NDIRECT)), (proj2 (Z.eqb_neq _ 0) Ha), fupd_eq by lia.
        pose proof (data_range sb Hl c (d_free _ _ _ (g_disk _ _ _ _ _ _ Hg) c Hc)) as Hcr. pose proof (l_size _ Hl).
        rewrite get32_put32_eq, u32_small; [done|lia|unfold NDIRECT in *; lia|].
        assert (Hlen : length (alloc sb c C1 (addr_of i1 NDIRECT)) = 512%nat).
        { apply (d_ok _ _ _ (disk_alloc sb Hl _ _ _ (g_disk _ _ _ _ _ _ Hg) Hc)). apply (data_fs sb Hl).
          apply (f_own _ _ _ (g_file _ _ _ _ _ _ Hg)). split; [done|by left]. }
        rewrite Hlen. change MAXFILE with 140 in *. unfold NDIRECT in *. lia. }
      pose proof (fun s' => HP _ _ _ s' (grows_trans _ _ _ _ _ _ _ _ _ Hg Hg2)) as HQ. rewrite E in HQ. apply HQ.
      - eapply disk_free_nonzero; [apply Hg|done].
      - done.
      - rewrite (Hrm c F1 Hc) in Hsz. lia.
      - destruct Hs1 as (A1 & A2 & A3 & A4). replace k1 with ((k1 - k) + k)%nat in Hv1 by lia.
        eapply Hdrop. split; [exact A1|]. split; [exact A2|]. split; [exact A3|exact Hv1].
      - eapply same_but_trans; [exact Hsame|]. apply same_but_io. apply Hs1. }
    apply wp_bind. eapply (wp_addr_or_alloc _ _ _ _ _ (3 + k)); [exact Hs|exact Hd|done| |].
    + intros Ha. apply wp_bind. eapply wp_get_inode; [done|]. rewrite Hdev.
      eapply (wp_bmap_through _ _ _ _ _ (2 + k)); [exact Hs|exact Hd|done|done|done|done|done|].
      apply (Hthrough i C F s (2 + k)%nat); [by apply grows_refl|exact Hs|lia| |done|done|done|lia].
      split; [by rewrite zinsert_id|done].
    + intros c l Ha Hc Hv1. destruct (grows_indirect _ _ _ c Hd Hf Hc Ha) as [Hg E].
      assert (Hlk : zlookup (inodes (set_in ip (set_addr NDIRECT c i) (set_io l s))) ip = Some (set_addr NDIRECT c i))
        by (cbn; apply zlookup_zinsert_eq; by eapply zlookup_lt).
      assert (Hs1 : fst_at (set_in ip (set_addr NDIRECT c i) (set_io l s)) ip (set_addr NDIRECT c i) (alloc sb c C) (3 + k)) by done.
      apply wp_bind. eapply wp_get_inode; [exact Hlk|]. change (idev (set_addr NDIRECT c i)) with (idev i). rewrite Hdev.
      rewrite <- E at 1. assert (Hc0 : addr_of (set_addr NDIRECT c i) NDIRECT <> 0) by (rewrite E; by eapply disk_free_nonzero).
      assert (Hz : baddr (alloc sb c C) (set_addr NDIRECT c i) n = 0).
      { unfold baddr. rewrite (proj2 (Z.ltb_ge n NDIRECT)), E by lia. destruct (c =? 0); [done|].
        unfold alloc. by rewrite fupd_eq, get32_zero. }
      assert (HF1 : F ∖ {[c]} <> ∅) by (intros E0; rewrite (Hrm c F Hc), E0, size_empty in HF; lia).
      eapply (wp_bmap_through _ _ _ _ _ k); [exact Hs1|apply Hg|apply Hg|done|done|done|done|].
      eapply (Hthrough _ _ _ _ k); [exact Hg|exact Hs1|lia|apply same_but_in|done|done|done|]. rewrite (Hrm c F Hc). lia.
Qed.

End Map.

End FsMap.
