(* ===== verification/FsRw.v ===== *)
(** * Reading and writing files

    The specifications of [iupdate], [readi] and [writei]: a file is a sequence
    of bytes of which [readi] returns a part and [writei] replaces a part. *)

From Stdlib Require Import ZArith Lia.
From stdpp Require Import base numbers strings list gmap.
From S2P Require Import Prelude Block BufView BlockIO Log Fs FsBlk FsMap.

Open Scope Z_scope.

Import Block BufView BlockIO Fs FsBlk FsMap.

Module FsRw.

#[local] Opaque zero_block.

(** ** Parts of blocks *)

Lemma rd_lookup (x : list Z) j v : 0 <= j -> x !! Z.to_nat j = Some v -> rd x j = v.
Proof. intros Hj E. unfold rd, zlookup. by rewrite (proj2 (Z.leb_le 0 j)), E by done. Qed.

Lemma lookup_rd (x : list Z) j : 0 <= j < Z.of_nat (length x) -> x !! Z.to_nat j = Some (rd x j).
Proof.
  intros Hj. destruct (lookup_lt_is_Some_2 x (Z.to_nat j)) as [v E]; [lia|]. by rewrite (rd_lookup x j v) by (done || lia).
Qed.

Lemma slice_spec o m (x : list Z) : 0 <= o -> 0 <= m -> o + m <= Z.of_nat (length x) ->
  slice o m x = map (fun k => rd x (o + Z.of_nat k)) (seq 0 (Z.to_nat m)).
Proof.
  intros Ho Hm Hl. apply list_eq. intros j. unfold slice. rewrite list_lookup_fmap.
  destruct (decide (j < Z.to_nat m)%nat) as [Hj|Hj].
  - rewrite lookup_take_lt, lookup_drop, lookup_seq_lt by done. cbn. rewrite <- (lookup_rd x) by lia. f_equal. lia.
  - rewrite lookup_take_ge, lookup_seq_ge by lia. done.
Qed.

Lemma length_splice o l (x : list Z) : 0 <= o -> o + Z.of_nat (length l) <= Z.of_nat (length x) ->
  length (splice o l x) = length x.
Proof. intros Ho Hl. unfold splice. rewrite !length_app, length_take, length_drop. lia. Qed.

Lemma rd_splice o l (x : list Z) j : 0 <= o -> o + Z.of_nat (length l) <= Z.of_nat (length x) -> 0 <= j ->
  rd (splice o l x) j = if decide (o <= j < o + Z.of_nat (length l)) then rd l (j - o) else rd x j.
Proof.
  intros Ho Hl Hj. unfold rd, zlookup, splice. rewrite (proj2 (Z.leb_le 0 j)) by done. case_decide as Hr.
  - rewrite (proj2 (Z.leb_le 0 (j - o))) by lia. rewrite lookup_app_r by (rewrite length_take; lia).
    rewrite length_take, lookup_app_l by lia. do 2 f_equal. lia.
  - destruct (decide (j < o)).
    + rewrite lookup_app_l by (rewrite length_take; lia). by rewrite lookup_take_lt by lia.
    + rewrite lookup_app_r by (rewrite length_take; lia). rewrite length_take, lookup_app_r by lia.
      rewrite lookup_drop. do 2 f_equal. lia.
Qed.

Lemma splice_ok o l x : block_ok x -> Forall (fun v => 0 <= v < 256) l -> 0 <= o ->
  o + Z.of_nat (length l) <= BSIZE -> block_ok (splice o l x).
Proof.
  intros [Hl Hx] Hb Ho Hn. split; [rewrite length_splice; [done|done|rewrite Hl; unfold BSIZE in *; lia]|].
  unfold splice. apply Forall_app. split; [by apply Forall_take|]. apply Forall_app. split; [done|by apply Forall_drop].
Qed.

(** ** The inode on the disk *)

Definition short (v : Z) : Prop := - 2 ^ 15 <= v < 2 ^ 15.

Record inode_ok (i : inode) : Prop := {
  io_type : short (itype i);
  io_major : short (major i);
  io_minor : short (minor i);
  io_nlink : short (nlink i);
  io_size : 0 <= isize i < 2 ^ 32;
  io_addrs : length (addrs i) = 13%nat /\ Forall (fun a => 0 <= a < 2 ^ 32) (addrs i)
}.

Lemma s16_u16 v : short v -> s16 (u16 v) = v.
Proof.
  intros H. unfold short, s16, u16 in *. rewrite Z.mod_mod by lia.
  destruct (Z.ltb_spec (v mod 2 ^ 16) (2 ^ 15)); Z.to_euclidean_division_equations; lia.
Qed.

Lemma length_put_addrs l : forall o x, length (put_addrs o l x) = length x.
Proof. induction l as [|a l IH]; intros o x; [done|]. cbn [put_addrs]. by rewrite IH, length_put32. Qed.

Lemma put_addrs_ok l : forall o x, block_ok x -> block_ok (put_addrs o l x).
Proof. induction l as [|a l IH]; intros o x Hx; [done|]. by apply IH, put32_ok. Qed.

Lemma rd_put_addrs l : forall o x j, ~ (o <= j < o + 4 * Z.of_nat (length l)) -> rd (put_addrs o l x) j = rd x j.
Proof.
  induction l as [|a l IH]; intros o x j Hj; [done|]. cbn [put_addrs length] in *.
  rewrite IH by lia. apply rd_put32_ne. lia.
Qed.

Lemma get32_put_addrs l : forall o x k a, 0 <= o -> o + 4 * Z.of_nat (length l) <= Z.of_nat (length x) ->
  l !! k = Some a -> 0 <= a < 2 ^ 32 -> get32 (put_addrs o l x) (o + 4 * Z.of_nat k) = a.
Proof.
  induction l as [|b l IH]; intros o x k a Ho Hlen Hk Ha; [done|]. cbn [put_addrs length] in *. destruct k as [|k].
  - injection Hk as ->. unfold get32. rewrite !rd_put_addrs by lia. rewrite Z.mul_0_r, Z.add_0_r.
    fold (get32 (put32 o a x) o). rewrite get32_put32_eq by lia. by apply u32_small.
  - replace (o + 4 * Z.of_nat (S k)) with (o + 4 + 4 * Z.of_nat k) by lia. apply IH; [lia|rewrite length_put32; lia|done|done].
Qed.

Lemma get_put_addrs o l x : 0 <= o -> o + 64 <= Z.of_nat (length x) -> length l = 13%nat ->
  Forall (fun a => 0 <= a < 2 ^ 32) l -> get_addrs o (put_addrs (o + 12) l x) = l.
Proof.
  intros Ho Hx Hl Hr. apply list_eq. intros k. unfold get_addrs. rewrite list_lookup_fmap.
  destruct (l !! k) as [a|] eqn:E.
  - pose proof (lookup_lt_Some _ _ _ E) as Hk. rewrite lookup_seq_lt by lia. cbn [fmap option_fmap option_map]. f_equal.
    rewrite Nat.add_0_l. apply get32_put_addrs; [lia|lia|done|]. by eapply Forall_lookup_1 in Hr.
  - apply lookup_ge_None in E. by rewrite lookup_seq_ge by lia.
Qed.

Lemma get16_put_addrs o l x j : j + 2 <= o -> get16 (put_addrs o l x) j = get16 x j.
Proof. intros H. unfold get16. by rewrite !rd_put_addrs by lia. Qed.

Lemma get32_put_addrs_ne o l x j : j + 4 <= o -> get32 (put_addrs o l x) j = get32 x j.
Proof. intros H. unfold get32. by rewrite !rd_put_addrs by lia. Qed.

(** The bytes of other inodes in the block stay. *)
Lemma rd_dinode_store o i x j : length (addrs i) = 13%nat -> ~ (o <= j < o + 64) -> rd (dinode_store o i x) j = rd x j.
Proof. intros Hl Hj. unfold dinode_store. rewrite rd_put_addrs by lia. rewrite rd_put32_ne by lia. by rewrite !rd_put16_ne by lia. Qed.

Lemma dinode_store_ok o i x : block_ok x -> block_ok (dinode_store o i x).
Proof. intros Hx. unfold dinode_store. by apply put_addrs_ok, put32_ok, put16_ok, put16_ok, put16_ok, put16_ok. Qed.

(** The fields of the inode that are on the disk. *)
Definition disk_part (i j : inode) : inode :=
  mkinode (idev j) (inum j) (ref j) (ilocked j) (ilpid j) (valid j) (itype i) (major i) (minor i) (nlink i) (isize i) (addrs i).

Lemma dinode_load_store o i j x : inode_ok i -> 0 <= o -> o + 64 <= Z.of_nat (length x) ->
  dinode_load o (dinode_store o i x) j = disk_part i j.
Proof.
  intros [H1 H2 H3 H4 H5 [H6 H7]] Ho Hx. unfold dinode_load, dinode_store, disk_part. f_equal.
  - rewrite get16_put_addrs, get16_put32_ne, !get16_put16_ne, get16_put16_eq by lia. by apply s16_u16.
  - rewrite get16_put_addrs, get16_put32_ne, !get16_put16_ne, get16_put16_eq by (rewrite ?length_put16; lia). by apply s16_u16.
  - rewrite get16_put_addrs, get16_put32_ne, get16_put16_ne, get16_put16_eq by (rewrite ?length_put16; lia). by apply s16_u16.
  - rewrite get16_put_addrs, get16_put32_ne, get16_put16_eq by (rewrite ?length_put16; lia). by apply s16_u16.
  - rewrite get32_put_addrs_ne, get32_put32_eq by (rewrite ?length_put16; lia). by apply u32_small.
  - apply get_put_addrs; [done|rewrite length_put32, !length_put16; lia|done|done].
Qed.

Section Rw.

Context {L : Type} `{!BlockIO L}.
Context (sb : Log.superblock) (Hl : layout sb).

Local Abbreviation state := (@state L).

Definition ioff (n : Z) : Z := DINODE * (n mod IPB).

(** An inode number of the disk, and its block. *)
Definition inum_ok (n : Z) : Prop := 0 <= n < Log.ninodes sb.

Lemma IBLOCK_range n : inum_ok n -> Log.inodestart sb <= IBLOCK n sb < Log.bmapstart sb.
Proof.
  intros [H0 H1]. pose proof Hl as [Hs Hi Hm Hd Hn _]. unfold dstart in Hd. unfold IBLOCK.
  assert (H2 : n / IPB <= (Log.ninodes sb - 1) / IPB) by (apply Z.div_le_mono; [reflexivity|lia]).
  assert (H3 : 0 <= n / IPB) by (apply Z.div_pos; [lia|reflexivity]).
  assert (H4 : 0 <= (Log.sb_size sb - 1) / BPB) by (apply Z.div_pos; [lia|reflexivity]).
  rewrite u32_small; lia.
Qed.

Lemma ioff_range n : 0 <= ioff n /\ ioff n + 64 <= BSIZE.
Proof.
  unfold ioff, DINODE, IPB, BSIZE. change (512 / DINODE) with 8. pose proof (Z.mod_pos_bound n 8 ltac:(lia)). lia.
Qed.

Lemma IBLOCK_fs n : inum_ok n -> fs_block sb (IBLOCK n sb).
Proof.
  intros Hn. pose proof (IBLOCK_range n Hn). pose proof Hl as [Hs Hi Hm Hd Hnn Hh]. unfold dstart in Hd.
  assert (H4 : 0 <= (Log.sb_size sb - 1) / BPB) by (apply Z.div_pos; [lia|reflexivity]). right. lia.
Qed.

Lemma IBLOCK_home n : inum_ok n -> io_home (IBLOCK n sb).
Proof. intros Hn. by apply (l_home _ Hl), IBLOCK_fs. Qed.

(** A block that is neither data, bitmap nor superblock. *)
Lemma disk_inode C F n x : disk sb C F -> inum_ok n -> block_ok x -> disk sb (fupd (IBLOCK n sb) x C) F.
Proof.
  intros [Hok Hsb Hf Hu] Hn Hx. pose proof (IBLOCK_range n Hn) as Hr. pose proof (l_inode _ Hl). split; [| |done|].
  - intros b' Hb'. unfold fupd. destruct (b' =? _); [done|by apply Hok].
  - by rewrite fupd_ne by lia.
  - intros b' Hb'. unfold used. rewrite fupd_ne; [by apply Hu|]. pose proof (BBLOCK_range sb Hl b' Hb'). lia.
Qed.

Lemma file_own_ext C C' i b : length (addrs i) = 13%nat ->
  (addr_of i NDIRECT <> 0 -> C' (addr_of i NDIRECT) = C (addr_of i NDIRECT)) -> own C' i b <-> own C i b.
Proof.
  intros Hlen HC. unfold own. split; (intros [Hb [?|(n & Hn & E)]]; split; [done|by left|done|right; exists n; split; [done|]]);
    rewrite E; [|symmetry]; apply baddr_ext; try done; apply Hn.
Qed.

(** A file whose blocks did not change. *)
Lemma file_ext C C' F i : file sb C F i -> (forall b, own C i b -> C' b = C b) ->
  file sb C' F i /\ (forall n, bn_ok n -> baddr C' i n = baddr C i n) /\
  (forall x, 0 <= x < MAXFILE * BSIZE -> fbyte C' i x = fbyte C i x) /\ (forall b, own C' i b <-> own C i b).
Proof.
  intros Hf HC. pose proof (f_len _ _ _ _ Hf) as Hlen.
  assert (Hind : addr_of i NDIRECT <> 0 -> C' (addr_of i NDIRECT) = C (addr_of i NDIRECT))
    by (intros Hne; apply HC; split; [done|by left]).
  assert (HB : forall n, bn_ok n -> baddr C' i n = baddr C i n) by (intros n Hn; apply baddr_ext; [done|done|apply Hn]).
  split; [|split; [done|split; [|intros b; by apply file_own_ext]]].
  - split; [done| | |].
    + intros b Hb. apply (f_own _ _ _ _ Hf). by apply (file_own_ext C C').
    + intros m n Hm Hn. rewrite !HB by done. by apply (f_inj _ _ _ _ Hf).
    + intros n Hn. rewrite HB by done. by apply (f_ind _ _ _ _ Hf).
  - intros x Hx. assert (Hbn : bn_ok (x / BSIZE)).
    { unfold bn_ok. rewrite MAXFILE_eq in *. unfold BSIZE in *. Z.to_euclidean_division_equations; lia. }
    unfold fbyte. rewrite HB by done. destruct (Z.eqb_spec (baddr C i (x / BSIZE)) 0) as [|Ha]; [done|].
    f_equal. apply HC. split; [done|]. right. by exists (x / BSIZE).
Qed.

Definition synced (C : Z -> block) (i : inode) : Prop :=
  dinode_load (ioff (inum i)) (C (IBLOCK (inum i) sb)) i = i.

(** The disk after [iupdate]. *)
Definition iupdated (i : inode) (C : Z -> block) : Z -> block :=
  fupd (IBLOCK (inum i) sb) (dinode_store (ioff (inum i)) i (C (IBLOCK (inum i) sb))) C.

Lemma wp_iupdate s ip i C k k' (P : unit -> state -> Prop) :
  fst_at sb s ip i C k -> pays (IBLOCK (inum i) sb) k k' -> inum_ok (inum i) ->
  (forall l, io_view l ∅ (iupdated i C) ∅ k' -> P tt (set_io l s)) -> wp (iupdate ip) P s.
Proof.
  intros (Hsb & Hin & Hdev & Hv) Hpay Hn HP. unfold iupdate. apply wp_bind. eapply wp_get_inode; [done|].
  apply wp_bind. unfold get_sb. apply wp_bind, wp_get, wp_ret. rewrite Hsb, Hdev.
  apply wp_bind. eapply wp_bread; [exact Hv|by apply IBLOCK_home|rewrite map_size_empty; lia|by intros j; rewrite lookup_empty|].
  intros bp l Hbp Hv1. pose proof (lookup_insert_eq (∅ : gmap Z Z) bp (IBLOCK (inum i) sb)) as Hlk.
  apply wp_bind. eapply wp_store; [exact Hv1|done|]. intros l1 Hv2.
  apply wp_bind. eapply wp_log_pays; [exact Hv2|exact Hpay|done|]. intros l2 Hv3.
  replace (({[IBLOCK (inum i) sb]} ∪ ∅) ∖ {[IBLOCK (inum i) sb]}) with (∅ : gset Z) in Hv3 by set_solver.
  eapply wp_brelse; [exact Hv3|done|set_solver|]. intros l3 Hv4.
  rewrite delete_insert_id in Hv4 by done. by apply HP.
Qed.

Lemma iupdated_synced C F i : disk sb C F -> inum_ok (inum i) -> inode_ok i -> synced (iupdated i C) i.
Proof.
  intros Hd Hn Hi. unfold synced, iupdated. rewrite fupd_eq. pose proof (ioff_range (inum i)) as Hr.
  rewrite dinode_load_store; [by destruct i|done|lia|]. destruct (d_ok _ _ _ Hd (IBLOCK (inum i) sb) (IBLOCK_fs _ Hn)) as [-> _]. unfold BSIZE in *. lia.
Qed.

Lemma inode_not_data n b : inum_ok n -> data sb b -> b <> IBLOCK n sb.
Proof.
  intros Hn Hb. pose proof (IBLOCK_range n Hn). unfold data, dstart in Hb.
  assert (H4 : 0 <= (Log.sb_size sb - 1) / BPB) by (apply Z.div_pos; [pose proof (l_size _ Hl); lia|reflexivity]). lia.
Qed.

(** ** [readi] *)

(** The bytes of the file from [off] on. *)
Definition fbytes (C : Z -> block) (i : inode) (off n : Z) : list Z :=
  map (fun k => fbyte C i (off + Z.of_nat k)) (seq 0 (Z.to_nat n)).

Lemma fbytes_app C i off m n : 0 <= m -> 0 <= n ->
  fbytes C i off (m + n) = fbytes C i off m ++ fbytes C i (off + m) n.
Proof.
  intros Hm Hn. unfold fbytes. rewrite Z2Nat.inj_add, seq_app, map_app by lia. f_equal.
  apply list_eq. intros j. rewrite !list_lookup_fmap.
  destruct (decide (j < Z.to_nat n)%nat).
  - rewrite !lookup_seq_lt by done. cbn. do 2 f_equal. lia.
  - by rewrite !lookup_seq_ge by lia.
Qed.

Lemma fbytes_block C i off m : baddr C i (off / BSIZE) <> 0 -> 0 <= off -> 0 <= m -> off mod BSIZE + m <= BSIZE ->
  block_ok (C (baddr C i (off / BSIZE))) ->
  slice (off mod BSIZE) m (C (baddr C i (off / BSIZE))) = fbytes C i off m.
Proof.
  intros Hne Ho Hm Hb [Hlen _]. pose proof (Z.mod_pos_bound off BSIZE ltac:(done)) as Hmod. unfold block in *.
  rewrite slice_spec by (rewrite ?Hlen; unfold BSIZE in *; lia). unfold fbytes. apply list_eq. intros j.
  rewrite !list_lookup_fmap. destruct (decide (j < Z.to_nat m)%nat).
  2: { by rewrite !lookup_seq_ge by lia. }
  rewrite !lookup_seq_lt by done. cbn. f_equal. unfold fbyte.
  replace ((off + Z.of_nat j) / BSIZE) with (off / BSIZE) by (unfold BSIZE in *; Z.to_euclidean_division_equations; lia).
  rewrite (proj2 (Z.eqb_neq _ 0) Hne). f_equal. unfold BSIZE in *. Z.to_euclidean_division_equations; lia.
Qed.

(** All blocks up to the size are there. *)
Definition full (C : Z -> block) (i : inode) : Prop :=
  isize i <= MAXFILE * BSIZE /\ forall n, 0 <= n -> n * BSIZE < isize i -> baddr C i n <> 0.

Lemma full_bn C i off : full C i -> 0 <= off < isize i -> bn_ok (off / BSIZE) /\ baddr C i (off / BSIZE) <> 0.
Proof.
  intros [Hs Hf] Ho. rewrite MAXFILE_eq in Hs. unfold bn_ok. rewrite MAXFILE_eq. unfold BSIZE in *.
  split; [Z.to_euclidean_division_equations; lia|]. apply Hf; Z.to_euclidean_division_equations; lia.
Qed.

(** The number of blocks that [n] bytes from [off] on touch. *)
Definition nblk (off n : Z) : Z := if n =? 0 then 0 else (off mod BSIZE + n + (BSIZE - 1)) / BSIZE.

Lemma nblk_pos off n : 0 < n -> 1 <= nblk off n.
Proof.
  intros Hn. unfold nblk. rewrite (proj2 (Z.eqb_neq n 0)) by lia. pose proof (Z.mod_pos_bound off BSIZE ltac:(done)).
  apply Z.div_le_lower_bound; unfold BSIZE in *; lia.
Qed.

Lemma nblk_step off n : 0 <= off -> 0 < n ->
  let m := Z.min n (BSIZE - off mod BSIZE) in nblk (off + m) (n - m) <= nblk off n - 1.
Proof.
  intros Ho Hn m. pose proof (nblk_pos off n Hn) as Hp. unfold nblk in *. rewrite (proj2 (Z.eqb_neq n 0)) in * by lia.
  unfold m, BSIZE in *. clear m. destruct (Z.eqb_spec (n - Z.min n (512 - off mod 512)) 0); [lia|].
  rewrite Z.min_r in * by lia. Z.to_euclidean_division_equations; lia.
Qed.

Lemma nblk_fuel off n : 0 <= n -> nblk off n <= Z.of_nat (blocks_fuel n).
Proof.
  intros Hn. unfold blocks_fuel, nblk, BSIZE. rewrite Z2Nat.id by (Z.to_euclidean_division_equations; lia).
  destruct (n =? 0); Z.to_euclidean_division_equations; lia.
Qed.

Lemma wp_readi_loop ip i C F k n fuel : forall s off tot acc (P : list Z -> state -> Prop),
  fst_at sb s ip i C k -> disk sb C F -> file sb C F i -> full C i ->
  0 <= tot <= n -> 0 <= off -> off + (n - tot) <= isize i -> nblk off (n - tot) <= Z.of_nat fuel ->
  (forall l, io_view l ∅ C ∅ k -> P (acc ++ fbytes C i off (n - tot)) (set_io l s)) ->
  wp (readi_loop fuel ip off tot n acc) P s.
Proof.
  induction fuel as [|fuel IH]; intros s off tot acc P Hs Hd Hf Hfull Ht Ho Hsz Hfu HP; cbn [readi_loop];
    destruct (Z.ltb_spec tot n) as [Hlt|Hge].
  { pose proof (nblk_pos off (n - tot) ltac:(lia)). lia. }
  1,3: apply wp_ret; replace (n - tot) with 0 in HP by lia; pose proof Hs as (_ & _ & _ & Hv);
    specialize (HP _ Hv); unfold fbytes in HP; cbn in HP; rewrite app_nil_r in HP; by destruct s.
  destruct (full_bn C i off Hfull ltac:(lia)) as [Hbn Hne].
  pose proof Hs as (Hsb & Hin & Hdev & Hv). apply wp_bind. eapply wp_get_inode; [done|]. rewrite Hdev.
  apply wp_bind. eapply (wp_bmap_hit sb Hl); [exact Hs|done|done|done|]. intros l Hv1.
  pose proof (f_own _ _ _ _ Hf _ (file_own_addr sb _ _ _ _ Hf Hbn Hne)) as [Hda _].
  apply wp_bind. eapply wp_bread; [exact Hv1|by apply (data_home sb)|rewrite map_size_empty; lia|by intros j; rewrite lookup_empty|].
  intros bp l2 Hbp Hv2. apply wp_bind. eapply wp_bdata; [exact Hv2|apply lookup_insert_eq|].
  apply wp_bind. eapply wp_brelse; [exact Hv2|apply lookup_insert_eq|set_solver|]. intros l3 Hv3.
  rewrite delete_insert_id in Hv3 by done. pose proof (Z.mod_pos_bound off BSIZE ltac:(done)) as Hmod.
  pose proof (nblk_step off (n - tot) Ho ltac:(lia)) as Hstep. cbn zeta in Hstep.
  set (m := Z.min (n - tot) (BSIZE - off mod BSIZE)) in *.
  assert (Hm : 0 < m <= n - tot /\ off mod BSIZE + m <= BSIZE) by (unfold m, BSIZE in *; lia).
  replace (n - tot - m) with (n - (tot + m)) in Hstep by lia.
  rewrite fbytes_block by (done || lia || (apply (d_ok _ _ _ Hd); by apply (data_fs sb))).
  apply IH; try done; [lia|lia|lia|lia|].
  intros l4 Hv4. replace (n - tot) with (m + (n - (tot + m))) in HP by lia.
  rewrite fbytes_app, app_assoc in HP by lia. exact (HP l4 Hv4).
Qed.

(** [readi] within the file returns its bytes and changes nothing. *)
Lemma wp_readi devread s ip i C F k off n (P : Z * list Z -> state -> Prop) :
  fst_at sb s ip i C k -> disk sb C F -> file sb C F i -> full C i -> itype i <> T_DEV ->
  0 <= off <= isize i -> 0 <= n -> off + n < 2 ^ 32 ->
  (forall l, io_view l ∅ C ∅ k ->
     P (Z.min n (isize i - off), fbytes C i off (Z.min n (isize i - off))) (set_io l s)) ->
  wp (readi devread ip off n) P s.
Proof.
  intros Hs Hd Hf Hfull Ht Ho Hn Hu HP. pose proof Hs as (_ & Hin & _ & _). unfold readi. apply wp_bind.
  eapply wp_get_inode; [done|]. rewrite (proj2 (Z.eqb_neq _ _) Ht), u32_small by lia.
  rewrite (proj2 (Z.ltb_ge (isize i) off)), (proj2 (Z.ltb_ge (off + n) off)) by lia. cbn [orb].
  set (n' := if isize i <? off + n then isize i - off else n).
  assert (E : n' = Z.min n (isize i - off)) by (unfold n'; destruct (Z.ltb_spec (isize i) (off + n)); lia).
  rewrite E. clearbody n'. set (m := Z.min n (isize i - off)) in *. destruct Hfull as [Hmax Hmap]. rewrite MAXFILE_eq in Hmax.
  apply wp_bind. eapply wp_readi_loop; [exact Hs|done|done|by split|lia|lia|lia| |].
  - rewrite Z.sub_0_r. apply nblk_fuel. lia.
  - intros l Hv. rewrite Z.sub_0_r, app_nil_l. apply wp_ret.
    replace (s32 m) with m; [exact (HP l Hv)|]. symmetry. unfold s32. rewrite u32_small by (unfold BSIZE in *; lia).
    by rewrite (proj2 (Z.ltb_lt m (2 ^ 31))) by (unfold BSIZE in *; lia).
Qed.

(** ** [writei] *)

Lemma fst_at_drop s ip i C m k : fst_at sb s ip i C (m + k) -> fst_at sb s ip i C k.
Proof. induction m as [|m IH]; [done|]. intros H. by apply IH, wp_weaken_k. Qed.

Definition bytes (l : list Z) : Prop := Forall (fun v => 0 <= v < 256) l.

(** The bytes [src] were written at [off]. *)
Record written (C : Z -> block) (F : gset Z) (i : inode) (src : list Z) (off : Z)
    (C' : Z -> block) (F' : gset Z) (i' : inode) : Prop := {
  w_disk : disk sb C' F';
  w_file : file sb C' F' i';
  w_meta : same_meta i i';
  w_bytes : forall x, 0 <= x < MAXFILE * BSIZE ->
    fbyte C' i' x = if decide (off <= x < off + Z.of_nat (length src)) then rd src (x - off) else fbyte C i x;
  w_map : forall x, off <= x < off + Z.of_nat (length src) -> baddr C' i' (x / BSIZE) <> 0;
  w_keep : forall n, bn_ok n -> baddr C i n <> 0 -> baddr C' i' n = baddr C i n;
  w_sub : F' ⊆ F;
  w_own : forall b, own C' i' b <-> own C i b \/ (b ∈ F /\ b ∉ F');
  w_frame : forall b, ~ own C i b -> b ∉ F -> ~ bitmap sb b -> C' b = C b
}.

Lemma written_grows C F i C' F' i' off : grows sb C F i C' F' i' -> written C F i [] off C' F' i'.
Proof.
  intros [G1 G2 G3 G4 G5 G6 G7 G8]. split; try done; cbn [length].
  - intros x Hx. rewrite decide_False by lia. by apply G4.
  - intros x Hx. lia.
Qed.

Lemma bn_range x : 0 <= x < MAXFILE * BSIZE -> bn_ok (x / BSIZE).
Proof. unfold bn_ok. rewrite MAXFILE_eq. unfold BSIZE. Z.to_euclidean_division_equations; lia. Qed.

Lemma written_trans C F i l1 off C1 F1 i1 l2 C2 F2 i2 :
  0 <= off -> off + Z.of_nat (length (l1 ++ l2)) <= MAXFILE * BSIZE ->
  written C F i l1 off C1 F1 i1 -> written C1 F1 i1 l2 (off + Z.of_nat (length l1)) C2 F2 i2 ->
  written C F i (l1 ++ l2) off C2 F2 i2.
Proof.
  rewrite length_app. intros H0 Hmax [D1 L1 M1 B1 P1 K1 S1 O1 X1] [D2 L2 M2 B2 P2 K2 S2 O2 X2]. split; [done|done| | | | | | |].
  - by eapply same_meta_trans.
  - intros x Hx. rewrite B2, B1 by done. rewrite length_app.
    destruct (decide (off <= x < off + Z.of_nat (length l1))) as [H1|H1].
    + rewrite decide_False, decide_True by lia. unfold rd, zlookup. rewrite (proj2 (Z.leb_le 0 (x - off))) by lia.
      by rewrite lookup_app_l by lia.
    + case_decide as H2; [rewrite decide_True by lia|by rewrite decide_False by lia].
      unfold rd, zlookup. rewrite (proj2 (Z.leb_le 0 (x - off))), (proj2 (Z.leb_le 0 (x - (off + Z.of_nat (length l1))))) by lia.
      rewrite lookup_app_r by lia. do 2 f_equal. lia.
  - intros x Hx. rewrite length_app in Hx. destruct (decide (off + Z.of_nat (length l1) <= x)) as [H1|H1]; [apply P2; lia|].
    rewrite K2; [apply P1; lia|apply bn_range; lia|apply P1; lia].
  - intros n Hn Hne. rewrite K2; [by apply K1|done|]. by rewrite K1.
  - by etransitivity.
  - intros b. rewrite O2, O1. pose proof (S1 b). pose proof (S2 b). destruct (decide (b ∈ F)), (decide (b ∈ F1)), (decide (b ∈ F2)); tauto.
  - intros b H1 H2 H3. rewrite X2; [by apply X1| | |done]; [|set_solver].
    rewrite O1. intros [?|[? _]]; [done|set_solver].
Qed.

(** One block. *)
Lemma written_block C F i off l :
  disk sb C F -> file sb C F i -> 0 <= off < MAXFILE * BSIZE -> baddr C i (off / BSIZE) <> 0 -> bytes l ->
  off mod BSIZE + Z.of_nat (length l) <= BSIZE ->
  let a := baddr C i (off / BSIZE) in
  written C F i l off (fupd a (splice (off mod BSIZE) l (C a)) C) F i.
Proof.
  intros Hd Hf Ho Hne Hb Hlen a. pose proof (bn_range off Ho) as Hbn. pose proof (Z.mod_pos_bound off BSIZE ltac:(done)) as Hmod.
  pose proof (file_own_addr sb _ _ _ _ Hf Hbn Hne) as Hoa. fold a in Hne, Hoa.
  destruct (f_own _ _ _ _ Hf _ Hoa) as [Hda _]. set (C' := fupd a _ C).
  pose proof (f_ind _ _ _ _ Hf _ Hbn Hne) as Hai. fold a in Hai.
  assert (Hind : C' (addr_of i NDIRECT) = C (addr_of i NDIRECT)) by (apply fupd_ne; congruence).
  assert (HB : forall n, bn_ok n -> baddr C' i n = baddr C i n) by (intros n Hn; apply baddr_ext; [done|done|apply Hn]).
  assert (Hla : length (C a) = Z.to_nat BSIZE) by (apply (d_ok _ _ _ Hd); by apply (data_fs sb)).
  assert (Hown : forall b, own C' i b <-> own C i b) by (intros b; apply file_own_ext; [apply Hf|done]).
  assert (Hblk : forall x, 0 <= x < MAXFILE * BSIZE -> off <= x < off + Z.of_nat (length l) -> x / BSIZE = off / BSIZE).
  { intros x Hx Hr. unfold BSIZE in *. Z.to_euclidean_division_equations; lia. }
  split; try done.
  - apply disk_fupd; [done|done|done|]. apply splice_ok; [apply (d_ok _ _ _ Hd); by apply (data_fs sb)|done|lia|done].
  - split; [apply Hf| | |].
    + intros b Hb'%Hown. by apply (f_own _ _ _ _ Hf).
    + intros p q Hp Hq. rewrite !HB by done. by apply (f_inj _ _ _ _ Hf).
    + intros p Hp. rewrite HB by done. by apply (f_ind _ _ _ _ Hf).
  - apply same_meta_refl.
  - intros x Hx. pose proof (bn_range x Hx) as Hbx. pose proof (Z.mod_pos_bound x BSIZE ltac:(done)) as Hmx.
    unfold fbyte. rewrite HB by done. unfold block in *.
    destruct (decide (x / BSIZE = off / BSIZE)) as [E|Hdiff].
    + rewrite E. fold a. rewrite (proj2 (Z.eqb_neq a 0) Hne). unfold C'. rewrite fupd_eq.
      rewrite rd_splice by (rewrite ?Hla; unfold BSIZE in *; lia).
      pose proof (Z.div_mod x BSIZE ltac:(done)) as E1. pose proof (Z.div_mod off BSIZE ltac:(done)) as E2. rewrite E in E1.
      repeat case_decide; try (unfold BSIZE in *; lia). f_equal. lia.
    + rewrite decide_False by (intros Hr; by apply Hdiff, Hblk).
      destruct (Z.eqb_spec (baddr C i (x / BSIZE)) 0) as [|Hxa]; [done|]. f_equal. apply fupd_ne. intros E.
      apply Hdiff. by apply (f_inj _ _ _ _ Hf).
  - intros x Hx. rewrite HB; [|].
    + replace (x / BSIZE) with (off / BSIZE); [done|]. unfold BSIZE in *. Z.to_euclidean_division_equations; lia.
    + replace (x / BSIZE) with (off / BSIZE); [done|]. unfold BSIZE in *. Z.to_euclidean_division_equations; lia.
  - intros n Hn _. by apply HB.
  - intros b. rewrite Hown. tauto.
  - intros b Hb' _ _. apply fupd_ne. by intros ->.
Qed.

Lemma wp_writei_loop ip n fuel : forall s C F i k src off tot (P : Z -> state -> Prop),
  fst_at sb s ip i C (6 * fuel + k) -> disk sb C F -> file sb C F i -> bytes src ->
  Z.of_nat (length src) = n - tot -> 0 <= tot -> 0 <= off -> off + (n - tot) <= MAXFILE * BSIZE ->
  nblk off (n - tot) <= Z.of_nat fuel -> (2 * fuel <= size F)%nat ->
  (forall C' F' i' s', written C F i src off C' F' i' -> fst_at sb s' ip i' C' k -> same_but ip i' s s' ->
     ((forall x, off <= x < off + (n - tot) -> baddr C i (x / BSIZE) <> 0) -> i' = i) ->
     P (off + (n - tot)) s') ->
  forall fuel', (fuel <= fuel')%nat -> wp (writei_loop fuel' ip src off tot n) P s.
Proof.
  induction fuel as [|fuel IH]; intros s C F i k src off tot P Hs Hd Hf Hsrc Hlen Ht Ho Hmax Hfu HF HP fuel' Hfuel;
    destruct (decide (tot < n)) as [Hlt|Hge].
  { pose proof (nblk_pos off (n - tot) ltac:(lia)). lia. }
  1,3: assert (E : writei_loop fuel' ip src off tot n = mret off)
      by (destruct fuel'; cbn [writei_loop]; by rewrite (proj2 (Z.ltb_ge tot n)) by lia);
    rewrite E; apply wp_ret; replace (n - tot) with 0 in * by lia; rewrite Z.add_0_r in HP; destruct src; [|done];
    eapply HP; [by apply written_grows, grows_refl|by eapply fst_at_drop| |done];
    split; [by rewrite zinsert_id by apply Hs|done].
  destruct fuel' as [|fuel']; [lia|]. cbn [writei_loop]. rewrite (proj2 (Z.ltb_lt tot n)) by done.
  pose proof (Z.mod_pos_bound off BSIZE ltac:(done)) as Hmod.
  pose proof (nblk_step off (n - tot) Ho ltac:(lia)) as Hstep. cbn zeta in Hstep.
  set (m := Z.min (n - tot) (BSIZE - off mod BSIZE)) in *.
  assert (Hm : 0 < m <= n - tot /\ off mod BSIZE + m <= BSIZE) by (unfold m, BSIZE in *; lia).
  replace (n - tot - m) with (n - (tot + m)) in Hstep by lia.
  pose proof Hs as (Hsb & Hin & Hdev & Hv). apply wp_bind. eapply wp_get_inode; [done|]. rewrite Hdev.
  apply wp_bind. replace (6 * S fuel + k)%nat with (5 + (1 + (6 * fuel + k)))%nat in Hs by lia.
  eapply (wp_bmap sb Hl); [exact Hs|exact Hd|done|apply bn_range; lia|lia|].
  intros C1 F1 i1 s1 Hg Hne Hhit Hsz Hs1 Hsame1. pose proof Hs1 as (Hsb1 & Hin1 & Hdev1 & Hv1).
  pose proof (g_file _ _ _ _ _ _ _ Hg) as Hf1. pose proof (g_disk _ _ _ _ _ _ _ Hg) as Hd1.
  pose proof (f_own _ _ _ _ Hf1 _ (file_own_addr sb _ _ _ _ Hf1 (bn_range off ltac:(lia)) Hne)) as [Hda _].
  apply wp_bind. eapply wp_bread; [exact Hv1|by apply (data_home sb)|rewrite map_size_empty; lia|by intros j; rewrite lookup_empty|].
  intros bp l2 Hbp Hv2. eapply wp_commit; [exact Hv2|done|]. intros l3 Hv3.
  set (l1 := take (Z.to_nat m) src) in *. set (r1 := drop (Z.to_nat m) src).
  assert (Hl1 : Z.of_nat (length l1) = m) by (unfold l1; rewrite length_take; lia).
  assert (Hr1 : Z.of_nat (length r1) = n - (tot + m)) by (unfold r1; rewrite length_drop; lia).
  assert (Hsp : src = l1 ++ r1) by (symmetry; apply take_drop).
  pose proof (written_block C1 F1 i1 off l1 Hd1 Hf1 ltac:(lia) Hne ltac:(by apply Forall_take) ltac:(lia)) as Hw.
  cbn zeta in Hw. set (C2 := fupd _ _ C1) in *.
  assert (Hw1 : written C F i l1 off C2 F1 i1).
  { apply (written_trans C F i [] off C1 F1 i1 l1); [lia|cbn; lia|by apply written_grows|]. by rewrite Z.add_0_r. }
  eapply (IH (set_io l3 s1) C2 F1 i1 k r1); [by split|apply Hw|apply Hw|by apply Forall_drop|done|lia|lia|lia|lia|lia| |lia].
  intros C' F' i' s' Hw2 Hs' Hsame Hhit2. replace (off + m + (n - (tot + m))) with (off + (n - tot)) by lia.
  apply (HP C' F' i' s'); [|done| |].
  - rewrite Hsp. eapply written_trans; [lia|rewrite length_app; lia|exact Hw1|]. by rewrite Hl1.
  - eapply same_but_trans; [exact Hsame1|]. eapply same_but_trans; [|exact Hsame]. by apply same_but_io.
  - intros Hall. destruct (Hhit (Hall off ltac:(lia))) as [E1 _]. rewrite <- E1. apply Hhit2. intros x Hx.
    rewrite (w_keep _ _ _ _ _ _ _ _ Hw1); [apply Hall; lia|apply bn_range; lia|apply Hall; lia].
Qed.

(** What [writei] promises. *)
Record wrote (C : Z -> block) (F : gset Z) (i : inode) (src : list Z) (off : Z)
    (C' : Z -> block) (F' : gset Z) (i' : inode) : Prop := {
  wr_disk : disk sb C' F';
  wr_file : file sb C' F' i';
  wr_full : full C' i';
  wr_meta : i' = set_size (Z.max (isize i) (off + Z.of_nat (length src))) (set_addrs (addrs i') i);
  wr_bytes : forall x, 0 <= x < MAXFILE * BSIZE ->
    fbyte C' i' x = if decide (off <= x < off + Z.of_nat (length src)) then rd src (x - off) else fbyte C i x;
  wr_sub : F' ⊆ F;
  wr_own : forall b, own C' i' b <-> own C i b \/ (b ∈ F /\ b ∉ F');
  wr_frame : forall b, fs_block sb b -> ~ own C i b -> b ∉ F -> ~ bitmap sb b -> b <> IBLOCK (inum i) sb -> C' b = C b;
  wr_inodes : forall j, ~ (ioff (inum i) <= j < ioff (inum i) + DINODE) ->
    rd (C' (IBLOCK (inum i) sb)) j = rd (C (IBLOCK (inum i) sb)) j;
  wr_sync : inode_ok i -> synced C i -> inode_ok i' /\ synced C' i'
}.

Lemma addrs_ok C F i : file sb C F i -> Forall (fun a => 0 <= a < 2 ^ 32) (addrs i).
Proof.
  intros Hf. apply Forall_lookup. intros k a E. pose proof (lookup_lt_Some _ _ _ E) as Hk. rewrite (f_len _ _ _ _ Hf) in Hk.
  destruct (decide (a = 0)) as [->|Hne]; [lia|].
  assert (Ha : addr_of i (Z.of_nat k) = a) by (unfold addr_of, zlookup; by rewrite (proj2 (Z.leb_le 0 _)), Nat2Z.id, E by lia).
  assert (Ho : own C i a).
  { split; [done|]. destruct (decide (Z.of_nat k = NDIRECT)) as [E'|Hn]; [left; by rewrite <- E'|].
    right. exists (Z.of_nat k). unfold NDIRECT in *. split; [unfold bn_ok; rewrite MAXFILE_eq; lia|]. unfold baddr, NDIRECT.
    by rewrite (proj2 (Z.ltb_lt _ 12)) by lia. }
  destruct (f_own _ _ _ _ Hf a Ho) as [Hda _]. pose proof (data_range sb Hl a Hda). pose proof (l_size _ Hl). lia.
Qed.

Lemma inode_block_plain C F i : file sb C F i -> disk sb C F -> inum_ok (inum i) ->
  ~ own C i (IBLOCK (inum i) sb) /\ (IBLOCK (inum i) sb ∉ F) /\ ~ bitmap sb (IBLOCK (inum i) sb).
Proof.
  intros Hf Hd Hn. pose proof (IBLOCK_range (inum i) Hn) as Hr. split; [|split].
  - intros Ho. destruct (f_own _ _ _ _ Hf _ Ho) as [Hda _]. by eapply inode_not_data.
  - intros HF. by eapply inode_not_data; [exact Hn|apply (d_free _ _ _ Hd _ HF)|].
  - unfold bitmap. lia.
Qed.

Lemma set_size_id i : set_size (isize i) i = i.
Proof. by destruct i. Qed.

(** The parts of the promise that hold before the size is updated. *)
Lemma wrote_full C F i src off C' F' i' :
  written C F i src off C' F' i' -> full C i -> 0 <= off <= isize i -> off + Z.of_nat (length src) <= MAXFILE * BSIZE ->
  forall v, v <= Z.max (isize i) (off + Z.of_nat (length src)) -> full C' (set_size v i').
Proof.
  intros Hw [Hmax Hmap] Ho Hn v Hv. split; [cbn; lia|]. cbn. intros n Hn0 Hlt.
  change (baddr C' (set_size v i') n) with (baddr C' i' n). pose proof MAXFILE_eq as HM.
  assert (Hbn : bn_ok n) by (unfold bn_ok, BSIZE in *; lia).
  destruct (decide (n * BSIZE < isize i)) as [H1|H1].
  { pose proof (Hmap n Hn0 H1). by rewrite (w_keep _ _ _ _ _ _ _ _ Hw). }
  pose proof (w_map _ _ _ _ _ _ _ _ Hw (n * BSIZE) ltac:(lia)) as H. by rewrite Z.div_mul in H.
Qed.

Lemma wp_writei devwrite s ip i C F k src off n (P : Z -> state -> Prop) :
  let nb := Z.to_nat (nblk off n) in
  fst_at sb s ip i C (6 * nb + S k) -> disk sb C F -> file sb C F i -> full C i -> inum_ok (inum i) ->
  itype i <> T_DEV -> bytes src -> Z.of_nat (length src) = n -> 0 <= off <= isize i ->
  off + n <= MAXFILE * BSIZE -> (2 * nb <= size F)%nat ->
  (forall C' F' i' s', wrote C F i src off C' F' i' -> fst_at sb s' ip i' C' k -> same_but ip i' s s' -> P n s') ->
  wp (writei devwrite ip src off n) P s.
Proof.
  intros nb Hs Hd Hf Hfull Hnum Ht Hsrc Hlen Ho Hmax HF HP. pose proof MAXFILE_eq as HM. pose proof Hs as (_ & Hin & _ & _).
  assert (Hn32 : off + n < 2 ^ 31) by (unfold BSIZE in *; lia).
  unfold writei. apply wp_bind. eapply wp_get_inode; [done|]. rewrite (proj2 (Z.eqb_neq _ _) Ht), u32_small by lia.
  rewrite (proj2 (Z.ltb_ge (isize i) off)), (proj2 (Z.ltb_ge (off + n) off)) by lia. cbn [orb].
  rewrite (proj2 (Z.ltb_ge (MAXFILE * BSIZE) (off + n))) by lia. apply wp_bind.
  assert (Hnb : 0 <= nblk off n) by (destruct (decide (n = 0)) as [->|]; [done|pose proof (nblk_pos off n); lia]).
  assert (E0 : n - 0 = n) by lia. pose proof (nblk_fuel off n ltac:(lia)) as Hfu.
  eapply (wp_writei_loop ip n nb _ _ _ _ (S k)); [exact Hs|exact Hd|done|done|lia|lia|lia|lia|rewrite E0; lia|done| |lia].
  intros C1 F1 i1 s1 Hw Hs1 Hsame Hhit. rewrite E0 in *. pose proof Hs1 as (Hsb1 & Hin1 & Hdev1 & Hv1).
  assert (Hs32 : s32 n = n) by (unfold s32; rewrite u32_small by lia; by rewrite (proj2 (Z.ltb_lt n (2 ^ 31))) by lia).
  rewrite Hs32. pose proof (w_meta _ _ _ _ _ _ _ _ Hw) as Hmeta.
  assert (Hsz1 : isize i1 = isize i) by (by rewrite Hmeta). assert (Hnum1 : inum i1 = inum i) by (by rewrite Hmeta).
  destruct (inode_block_plain C F i Hf Hd Hnum) as (Hp1 & Hp2 & Hp3).
  pose proof (w_frame _ _ _ _ _ _ _ _ Hw _ Hp1 Hp2 Hp3) as HIB.
  pose proof (wrote_full _ _ _ _ _ _ _ _ Hw Hfull ltac:(lia) ltac:(lia)) as Hfull1.
  pose proof Hw as [D1 L1 M1 B1 P1 K1 S1 O1 X1].
  apply wp_bind. eapply wp_get_inode; [exact Hin1|]. rewrite Hsz1. apply wp_bind.
  destruct (Z.ltb_spec (isize i) (off + n)) as [Hgrow|Hno].
  - rewrite (proj2 (Z.ltb_lt 0 n)) by lia. cbn [andb]. set (i2 := set_size (off + n) i1).
    assert (Hs2 : fst_at sb (set_in ip i2 s1) ip i2 C1 (S k)).
    { split; [done|]. split; [cbn; apply zlookup_zinsert_eq; by eapply zlookup_lt|done]. }
    apply wp_bind. eapply wp_upd_inode; [exact Hin1|]. fold i2.
    eapply (wp_iupdate _ _ _ _ (S k)); [exact Hs2|by left|unfold i2; cbn; by rewrite Hnum1|]. intros l Hv2. apply wp_ret.
    assert (Hfile2 : file sb C1 F1 i2) by (destruct L1; by split).
    assert (Hkeep : forall b, own C1 i2 b -> iupdated i2 C1 b = C1 b).
    { intros b Hb. apply fupd_ne. intros E. destruct (f_own _ _ _ _ Hfile2 b Hb) as [Hda _].
      eapply inode_not_data; [|exact Hda|exact E]. unfold i2; cbn. by rewrite Hnum1. }
    destruct (file_ext _ _ _ _ Hfile2 Hkeep) as (Hfile3 & HB3 & Hby3 & Ho3).
    assert (Hi2n : inum i2 = inum i) by (by unfold i2; cbn).
    apply (HP (iupdated i2 C1) F1 i2); [|split; [done|]; split; [apply Hs2|done]|].
    2: { eapply same_but_trans; [exact Hsame|]. split; [|done]. done. }
    split; [|done| | | |done| | | |].
    + apply disk_inode; [done|by rewrite Hi2n|]. apply dinode_store_ok, (d_ok _ _ _ D1), IBLOCK_fs. by rewrite Hi2n.
    + destruct (Hfull1 (off + n) ltac:(lia)) as [HA HB]. split; [done|]. intros m Hm0 Hm1.
      rewrite HB3; [by apply HB|]. unfold bn_ok, BSIZE in *. fold i2 in HA. lia.
    + unfold i2. rewrite Hmeta. cbn. rewrite Hlen, Z.max_r by lia. done.
    + intros x Hx. rewrite Hby3 by done. by apply B1.
    + intros b. rewrite Ho3. apply O1.
    + intros b _ H1 H2 H3 H4. unfold iupdated. rewrite fupd_ne by (by rewrite Hi2n). by apply X1.
    + intros j Hj. unfold iupdated. rewrite Hi2n, fupd_eq, rd_dinode_store; [by rewrite HIB|apply L1|exact Hj].
    + intros [I1 I2 I3 I4 I5 I6] _. assert (Hok2 : inode_ok i2).
      { unfold i2. rewrite Hmeta. split; cbn; try done; [lia|]. split; [apply L1|]. by eapply addrs_ok. }
      split; [done|]. eapply iupdated_synced; [done|by rewrite Hi2n|done].
  - rewrite andb_false_r. apply wp_ret, wp_ret.
    assert (E : i1 = i).
    { apply Hhit. intros x Hx. apply Hfull; [apply Z.div_pos; [lia|done]|]. unfold BSIZE in *. Z.to_euclidean_division_equations; lia. }
    assert (Hsi : set_size (Z.max (isize i) (off + Z.of_nat (length src))) i1 = i1).
    { rewrite Hlen, Z.max_l by lia. rewrite <- Hsz1. apply set_size_id. }
    apply (HP C1 F1 i1 s1); [|by apply wp_weaken_k|done].
    split; try done.
    + rewrite <- Hsi. apply Hfull1. lia.
    + rewrite Hlen, Z.max_l by lia. rewrite E. by destruct i.
    + intros b _ H1 H2 H3 _. by apply X1.
    + intros j _. by rewrite HIB.
    + intros Hok Hsync. rewrite E. split; [done|]. unfold synced in *. by rewrite HIB.
Qed.

End Rw.

End FsRw.
