(* ===== verification/FsTrunc.v ===== *)
(** * Freeing the blocks of a file

    [itrunc] gives back exactly the blocks of the file. *)

From Stdlib Require Import ZArith Lia.
From stdpp Require Import base numbers strings list gmap.
From S2P Require Import Prelude Block BufView BlockIO Log Fs FsBlk FsMap FsRw.

Open Scope Z_scope.

Import Block BufView BlockIO Fs FsBlk FsMap FsRw.

Module FsTrunc.

#[local] Opaque zero_block.

Section Trunc.

Context {L : Type} `{!BlockIO L}.
Context (sb : Log.superblock) (Hl : layout sb).

Local Abbreviation state := (@state L).

(** The operation has room for the bitmap. *)
Context (Hres : forall b, data sb b -> io_reserved (BBLOCK b sb)).

(** The bitmap changed, and nothing else. *)
Definition only_bitmap (C C' : Z -> block) : Prop := forall b, ~ bitmap sb b -> C' b = C b.

Lemma only_bitmap_trans C1 C2 C3 : only_bitmap C1 C2 -> only_bitmap C2 C3 -> only_bitmap C1 C3.
Proof. intros H1 H2 b Hb. by rewrite H2, H1. Qed.

Lemma unmark_bitmap b C : data sb b -> only_bitmap C (unmark sb b C).
Proof.
  intros Hb x Hx. unfold unmark. apply fupd_ne. intros ->. apply Hx. unfold bitmap.
  apply BBLOCK_range; [done|]. pose proof (data_range sb Hl b Hb). lia.
Qed.

Lemma data_not_in_bitmap b : data sb b -> ~ bitmap sb b.
Proof. unfold data, bitmap. lia. Qed.

(** ** The direct blocks *)

(** The inode with the addresses before [k] cleared. *)
Fixpoint cleared (n : nat) (i : inode) : inode :=
  match n with O => i | S n' => set_addr (Z.of_nat n') 0 (cleared n' i) end.

Lemma set_addr_same k i : length (addrs i) = 13%nat -> 0 <= k < 13 -> addr_of i k = 0 -> set_addr k 0 i = i.
Proof.
  intros Hlen Hk H0. unfold set_addr. destruct (zlookup (addrs i) k) as [v|] eqn:E.
  - unfold addr_of in H0. rewrite E in H0. cbn in H0. subst v. rewrite zinsert_id by done. by destruct i.
  - unfold zlookup in E. rewrite (proj2 (Z.leb_le 0 k)) in E by lia. apply lookup_ge_None in E. lia.
Qed.

Lemma length_set_addr k v i : length (addrs (set_addr k v i)) = length (addrs i).
Proof. cbn. apply length_zinsert. Qed.

(** The file without its direct block [n]. *)
Lemma file_drop C F i n b :
  disk sb C F -> file sb C F i -> 0 <= n < NDIRECT -> addr_of i n = b -> b <> 0 ->
  file sb (unmark sb b C) ({[b]} ∪ F) (set_addr n 0 i) /\
  (forall x, own (unmark sb b C) (set_addr n 0 i) x <-> own C i x /\ x <> b) /\ own C i b.
Proof.
  intros Hd Hf Hn Hb Hb0. pose proof (f_len _ _ _ _ Hf) as Hlen. unfold NDIRECT in Hn.
  assert (Hbn : bn_ok n) by (unfold bn_ok; rewrite MAXFILE_eq; lia).
  assert (HBn : baddr C i n = b) by (unfold baddr, NDIRECT; by rewrite (proj2 (Z.ltb_lt n 12)) by lia).
  assert (Ho : own C i b) by (split; [done|right; exists n; done]).
  destruct (f_own _ _ _ _ Hf b Ho) as [Hdb HbF].
  assert (Hset : forall k, addr_of (set_addr n 0 i) k = if k =? n then 0 else addr_of i k)
    by (intros k; apply addr_of_set; [done|lia]).
  assert (H12 : addr_of (set_addr n 0 i) NDIRECT = addr_of i NDIRECT)
    by (rewrite Hset; unfold NDIRECT; by rewrite (proj2 (Z.eqb_neq 12 n)) by lia).
  assert (HB : forall m, bn_ok m -> baddr (unmark sb b C) (set_addr n 0 i) m = if m =? n then 0 else baddr C i m).
  { intros m [Hm0 _]. unfold baddr. rewrite H12, Hset. destruct (Z.ltb_spec m NDIRECT) as [|Hge]; [done|].
    unfold NDIRECT in *. rewrite (proj2 (Z.eqb_neq m n)) by lia. destruct (Z.eqb_spec (addr_of i 12) 0) as [|Hne]; [done|].
    f_equal. apply (unmark_bitmap b C Hdb). apply data_not_in_bitmap. apply (f_own _ _ _ _ Hf). split; [done|by left]. }
  assert (Hown : forall x, own (unmark sb b C) (set_addr n 0 i) x <-> own C i x /\ x <> b).
  { intros x. unfold own. rewrite H12. split.
    - intros [Hx [E|(m & Hm & E)]].
      + split; [split; [done|by left]|]. intros ->. apply (f_ind _ _ _ _ Hf n Hbn); [by rewrite HBn|]. by rewrite HBn.
      + rewrite HB in E by done. destruct (Z.eqb_spec m n); [done|]. split; [split; [done|right; by exists m]|].
        intros ->. apply n0. apply (f_inj _ _ _ _ Hf); [done..|by rewrite <- E|by rewrite <- E].
    - intros [[Hx [E|(m & Hm & E)]] Hxb]; (split; [done|]); [by left|right]. exists m. split; [done|].
      rewrite HB by done. destruct (Z.eqb_spec m n) as [->|]; [by rewrite HBn in E|done]. }
  split; [|done]. split; [by rewrite length_set_addr| | |].
  - intros x [Hx Hxb]%Hown. destruct (f_own _ _ _ _ Hf x Hx). split; [done|set_solver].
  - intros p q Hp Hq. rewrite !HB by done. destruct (Z.eqb_spec p n), (Z.eqb_spec q n); try done. by apply (f_inj _ _ _ _ Hf).
  - intros p Hp. rewrite HB, H12 by done. destruct (Z.eqb_spec p n); [done|]. by apply (f_ind _ _ _ _ Hf).
Qed.

(** The state of the truncation: the blocks freed so far are free. *)
Record truncated (C : Z -> block) (F : gset Z) (i : inode) (C' : Z -> block) (F' : gset Z) (i' : inode) : Prop := {
  t_disk : disk sb C' F';
  t_file : file sb C' F' i';
  t_meta : same_meta i i';
  t_free : forall b, b ∈ F' \/ own C' i' b <-> b ∈ F \/ own C i b;
  t_bitmap : only_bitmap C C'
}.

Lemma truncated_refl C F i : disk sb C F -> file sb C F i -> truncated C F i C F i.
Proof. intros Hd Hf. split; try done. apply same_meta_refl. Qed.

Lemma truncated_trans C1 F1 i1 C2 F2 i2 C3 F3 i3 :
  truncated C1 F1 i1 C2 F2 i2 -> truncated C2 F2 i2 C3 F3 i3 -> truncated C1 F1 i1 C3 F3 i3.
Proof.
  intros [D1 L1 M1 O1 B1] [D2 L2 M2 O2 B2]. split; [done|done|by eapply same_meta_trans| |by eapply only_bitmap_trans].
  intros b. by rewrite O2, O1.
Qed.

Lemma truncated_drop C F i n : disk sb C F -> file sb C F i -> 0 <= n < NDIRECT -> addr_of i n <> 0 ->
  truncated C F i (unmark sb (addr_of i n) C) ({[addr_of i n]} ∪ F) (set_addr n 0 i).
Proof.
  intros Hd Hf Hn Hne. destruct (file_drop C F i n _ Hd Hf Hn eq_refl Hne) as (Hf' & Hown & Ho).
  destruct (f_own _ _ _ _ Hf _ Ho) as [Hdb HbF]. split; [by apply disk_unmark|done|done| |by apply unmark_bitmap].
  intros x. rewrite Hown, elem_of_union, elem_of_singleton. destruct (decide (x = addr_of i n)) as [->|]; tauto.
Qed.

Lemma wp_itrunc_direct ip n : forall s i C F k j (P : unit -> state -> Prop),
  fst_at sb s ip i C k -> disk sb C F -> file sb C F i -> 0 <= j -> j + Z.of_nat n <= NDIRECT ->
  (forall C' F' i' s', truncated C F i C' F' i' -> fst_at sb s' ip i' C' k -> same_but ip i' s s' ->
     (forall m, j <= m < j + Z.of_nat n -> addr_of i' m = 0) ->
     (forall m, ~ (j <= m < j + Z.of_nat n) -> addr_of i' m = addr_of i m) -> P tt s') ->
  wp (itrunc_direct n ip j) P s.
Proof.
  induction n as [|n IH]; intros s i C F k j P Hs Hd Hf Hj Hn HP; cbn [itrunc_direct]; pose proof Hs as (Hsb & Hin & Hdev & Hv).
  { apply wp_ret. apply (HP C F i); [by apply truncated_refl|done| |intros m Hm; lia|done].
    split; [by rewrite zinsert_id|done]. }
  unfold NDIRECT in Hn. apply wp_bind. eapply wp_get_inode; [done|]. apply wp_bind.
  destruct (Z.eqb_spec (addr_of i j) 0) as [E|Hne].
  - apply wp_ret. apply (IH s i C F k (j + 1)); [done..|lia|unfold NDIRECT; lia|].
    intros C' F' i' s' Ht Hs' Hsame Hz Ho. apply (HP C' F' i' s'); [done..| |].
    + intros m Hm. destruct (decide (m = j)) as [->|]; [rewrite Ho by lia; done|apply Hz; lia].
    + intros m Hm. apply Ho. lia.
  - pose proof (truncated_drop C F i j Hd Hf ltac:(unfold NDIRECT; lia) Hne) as Ht1.
    destruct (file_drop C F i j _ Hd Hf ltac:(unfold NDIRECT; lia) eq_refl Hne) as (_ & _ & Ho).
    destruct (f_own _ _ _ _ Hf _ Ho) as [Hdb HbF]. rewrite Hdev.
    apply wp_bind. eapply (wp_bfree sb Hl); [done|exact Hv|right; split; [by apply Hres|done]|exact Hd|done|done|rewrite map_size_empty; lia|by intros i0 b; rewrite lookup_empty|].
    intros l Hv1. eapply wp_upd_inode; [exact Hin|]. set (s1 := set_in ip (set_addr j 0 i) (set_io l s)).
    assert (Hs1 : fst_at sb s1 ip (set_addr j 0 i) (unmark sb (addr_of i j) C) k).
    { split; [done|]. split; [cbn; apply zlookup_zinsert_eq; by eapply zlookup_lt|done]. }
    apply (IH s1 (set_addr j 0 i) (unmark sb (addr_of i j) C) ({[addr_of i j]} ∪ F) k (j + 1)); [done|apply Ht1|apply Ht1|lia|unfold NDIRECT; lia|].
    assert (Hset : forall m, addr_of (set_addr j 0 i) m = if m =? j then 0 else addr_of i m)
      by (intros m; apply addr_of_set; [apply Hf|lia]).
    intros C' F' i' s' Ht Hs' Hsame Hz Ho'. apply (HP C' F' i' s'); [by eapply truncated_trans|done| | |].
    + eapply same_but_trans; [|exact Hsame]. apply same_but_in.
    + intros m Hm. destruct (decide (m = j)) as [->|]; [rewrite Ho', Hset, Z.eqb_refl by lia; done|apply Hz; lia].
    + intros m Hm. rewrite Ho', Hset by lia. by rewrite (proj2 (Z.eqb_neq m j)) by lia.
Qed.

(** ** The indirect blocks *)

(** The blocks that entries [j] to [j + n] of the indirect block name. *)
Definition named (x : block) (j n b : Z) : Prop := b <> 0 /\ exists m, j <= m < j + n /\ b = get32 x (4 * m).

Lemma wp_itrunc_indirect bp a x n : forall s H C F k j (P : unit -> state -> Prop),
  Fs.sb s = sb -> io_view (io s) H C ∅ k -> disk sb C F -> H !! bp = Some a -> (size H < 2)%nat ->
  (forall i b, H !! i = Some b -> data sb b) -> C a = x -> data sb a ->
  (forall b, named x j (Z.of_nat n) b -> data sb b /\ b ∉ F) ->
  (forall m1 m2, j <= m1 < j + Z.of_nat n -> j <= m2 < j + Z.of_nat n -> get32 x (4 * m1) <> 0 ->
     get32 x (4 * m1) = get32 x (4 * m2) -> m1 = m2) ->
  (forall C' F' l, disk sb C' F' -> only_bitmap C C' -> io_view l H C' ∅ k ->
     (forall b, b ∈ F' <-> b ∈ F \/ named x j (Z.of_nat n) b) -> P tt (set_io l s)) ->
  wp (itrunc_indirect n bp 1 j) P s.
Proof.
  induction n as [|n IH]; intros s H C F k j P Hsb Hv Hd Hbp Hsz Hh Hx Ha Hnm Hinj HP; cbn [itrunc_indirect].
  { apply wp_ret. specialize (HP C F (io s) Hd). replace s with (set_io (io s) s) by (by destruct s).
    apply HP; [done|done|]. intros b. split; [by left|]. intros [?|(_ & m & Hm & _)]; [done|lia]. }
  apply wp_bind. eapply wp_bdata; [exact Hv|exact Hbp|]. rewrite Hx. apply wp_bind.
  assert (Hstep : forall b, named x j (Z.of_nat (S n)) b <->
    (b <> 0 /\ b = get32 x (4 * j)) \/ named x (j + 1) (Z.of_nat n) b).
  { intros b. unfold named. split.
    - intros (Hb & m & Hm & E). destruct (decide (m = j)) as [->|]; [by left|right]. split; [done|]. exists m. split; [lia|done].
    - intros [[Hb E]|(Hb & m & Hm & E)]; (split; [done|]); [exists j|exists m]; (split; [lia|done]). }
  destruct (Z.eqb_spec (get32 x (4 * j)) 0) as [E|Hne].
  - apply wp_ret. apply (IH s H C F k (j + 1)); try done.
    + intros b Hb. apply Hnm, Hstep. by right.
    + intros m1 m2 H1 H2. apply Hinj; lia.
    + intros C' F' l Hd' Hbm Hv' HF. apply (HP C' F' l); try done. intros b. rewrite HF, Hstep, E. tauto.
  - set (b0 := get32 x (4 * j)) in *. destruct (Hnm b0) as [Hdb HbF]; [apply Hstep; by left|].
    eapply (wp_bfree sb Hl); [done|exact Hv|right; split; [by apply Hres|done]|exact Hd|done|done|done|done|].
    intros l Hv1. apply (IH _ H (unmark sb b0 C) ({[b0]} ∪ F) k (j + 1)); try done.
    + by apply disk_unmark.
    + rewrite (unmark_bitmap b0 C Hdb); [done|by apply data_not_in_bitmap].
    + intros b Hb. destruct (Hnm b) as [H1 H2]; [apply Hstep; by right|]. split; [done|].
      destruct Hb as (_ & m & Hm & E). intros [E'%elem_of_singleton|?]%elem_of_union; [|done].
      assert (j = m) by (apply Hinj; [lia|lia|done|]; fold b0; congruence). lia.
    + intros m1 m2 H1 H2. apply Hinj; lia.
    + intros C' F' l' Hd' Hbm Hv' HF. apply (HP C' F' l'); try done.
      * eapply only_bitmap_trans; [by apply (unmark_bitmap b0)|done].
      * intros b. rewrite HF, Hstep, elem_of_union, elem_of_singleton.
        destruct (decide (b = b0)) as [->|]; tauto.
Qed.

(** ** [itrunc] *)

(** What [itrunc] promises. *)
Record freed (C : Z -> block) (F : gset Z) (i : inode) (C' : Z -> block) (F' : gset Z) (i' : inode) : Prop := {
  fr_disk : disk sb C' F';
  fr_none : forall m, 0 <= m <= NDIRECT -> addr_of i' m = 0;
  fr_meta : i' = set_size 0 (set_addrs (addrs i') i);
  fr_len : length (addrs i') = 13%nat;
  fr_free : forall b, b ∈ F' <-> b ∈ F \/ own C i b;
  fr_frame : forall b, ~ bitmap sb b -> b <> IBLOCK (inum i) sb -> C' b = C b;
  fr_inodes : forall j, ~ (ioff (inum i) <= j < ioff (inum i) + DINODE) ->
    rd (C' (IBLOCK (inum i) sb)) j = rd (C (IBLOCK (inum i) sb)) j;
  fr_sync : inode_ok i -> inode_ok i' /\ synced sb C' i'
}.

Lemma baddr_through C i m : addr_of i NDIRECT <> 0 -> 0 <= m ->
  baddr C i (m + NDIRECT) = get32 (C (addr_of i NDIRECT)) (4 * m).
Proof.
  intros Ha Hm. unfold baddr. rewrite (proj2 (Z.ltb_ge (m + NDIRECT) NDIRECT)), (proj2 (Z.eqb_neq _ 0) Ha) by lia.
  by rewrite Z.add_simpl_r.
Qed.

Lemma bn_through m : 0 <= m < NINDIRECT -> bn_ok (m + NDIRECT).
Proof. change NINDIRECT with 128. unfold bn_ok, NDIRECT. rewrite MAXFILE_eq. lia. Qed.

Lemma named_own C F i x : file sb C F i -> addr_of i NDIRECT <> 0 -> C (addr_of i NDIRECT) = x ->
  forall b, named x 0 NINDIRECT b -> own C i b.
Proof.
  intros Hf Ha Hx b (Hb & m & Hm & E). split; [done|]. right. exists (m + NDIRECT). split; [by apply bn_through|].
  by rewrite baddr_through, Hx by (done || lia).
Qed.

(** With the direct blocks gone, the file is its indirect block and what it names. *)
Lemma own_indirect C F i x b : file sb C F i -> (forall m, 0 <= m < NDIRECT -> addr_of i m = 0) ->
  C (addr_of i NDIRECT) = x -> addr_of i NDIRECT <> 0 ->
  own C i b <-> b = addr_of i NDIRECT \/ named x 0 NINDIRECT b.
Proof.
  intros Hf Hz Hx Ha. split.
  - intros [Hb [->|(m & [Hm0 Hm1] & E)]]; [by left|right]. split; [done|]. unfold baddr in E.
    destruct (Z.ltb_spec m NDIRECT) as [|Hge]; [rewrite Hz in E by lia; done|].
    rewrite (proj2 (Z.eqb_neq _ 0) Ha), Hx in E. exists (m - NDIRECT). rewrite MAXFILE_eq in *. change NINDIRECT with 128.
    unfold NDIRECT in *. split; [lia|done].
  - intros [->|Hb]; [split; [done|by left]|]. by eapply named_own.
Qed.

Lemma own_none C i b : (forall m, 0 <= m <= NDIRECT -> addr_of i m = 0) -> ~ own C i b.
Proof.
  intros Hz [Hb [E|(m & [Hm _] & E)]]; [rewrite Hz in E by (unfold NDIRECT; lia); done|]. unfold baddr in E.
  destruct (Z.ltb_spec m NDIRECT); [rewrite Hz in E by lia; done|].
  rewrite (Hz NDIRECT) in E by (unfold NDIRECT; lia). done.
Qed.

Lemma file_none C F i : length (addrs i) = 13%nat -> (forall m, 0 <= m <= NDIRECT -> addr_of i m = 0) -> file sb C F i.
Proof.
  intros Hlen Hz. assert (HB : forall m, bn_ok m -> baddr C i m = 0).
  { intros m [Hm _]. unfold baddr. rewrite (Hz NDIRECT) by (unfold NDIRECT; lia).
    destruct (Z.ltb_spec m NDIRECT); [apply Hz; lia|done]. }
  split; [done| | |].
  - intros b Hb. by destruct (own_none C i b Hz).
  - intros m n Hm Hn. by rewrite HB by done.
  - intros n Hn. by rewrite HB by done.
Qed.

(** The end of [itrunc]: the size and the inode on the disk. *)
Lemma wp_itrunc_last ip i C F k k' (P : unit -> state -> Prop) s C2 F2 i2 s2 :
  pays (IBLOCK (inum i) sb) k k' -> inum_ok sb (inum i) ->
  (forall C' F' i' s', freed C F i C' F' i' -> fst_at sb s' ip i' C' k' -> same_but ip i' s s' -> P tt s') ->
  disk sb C2 F2 -> same_meta i i2 -> length (addrs i2) = 13%nat ->
  (forall m, 0 <= m <= NDIRECT -> addr_of i2 m = 0) -> (forall b, b ∈ F2 <-> b ∈ F \/ own C i b) ->
  only_bitmap C C2 -> fst_at sb s2 ip i2 C2 k -> same_but ip i2 s s2 ->
  wp (upd_inode ip (set_size 0);; iupdate ip) P s2.
Proof.
  intros Hpay Hn HP. intros D2 M2 Hlen2 Hz2 HF2 Hbm2 (Hsb2 & Hin2 & Hdev2 & Hv2) Hsame2. set (i3 := set_size 0 i2).
  assert (Hnum3 : inum i3 = inum i) by (unfold i3; cbn; by rewrite M2).
  assert (Hs3 : fst_at sb (set_in ip i3 s2) ip i3 C2 k).
  { split; [done|]. split; [cbn; apply zlookup_zinsert_eq; by eapply zlookup_lt|done]. }
  apply wp_bind. eapply wp_upd_inode; [exact Hin2|]. fold i3.
  eapply (wp_iupdate sb Hl _ _ i3 C2 k k'); [exact Hs3|by rewrite Hnum3|by rewrite Hnum3|]. intros l Hv3.
  assert (Hib : ~ bitmap sb (IBLOCK (inum i) sb)) by (pose proof (IBLOCK_range sb Hl _ Hn); unfold bitmap; lia).
  apply (HP (iupdated sb i3 C2) F2 i3); [|split; [done|]; split; [apply Hs3|done]|].
  2: { eapply same_but_trans; [exact Hsame2|]. split; [|done]. done. }
  split; [|done| |done|done| | |].
  - apply disk_inode; [done|done|by rewrite Hnum3|]. apply dinode_store_ok, (d_ok _ _ _ D2), (IBLOCK_fs sb Hl). by rewrite Hnum3.
  - unfold i3. by rewrite M2.
  - intros b H1 H2. unfold iupdated. rewrite fupd_ne by (by rewrite Hnum3). by apply Hbm2.
  - intros j Hj. unfold iupdated. rewrite Hnum3, fupd_eq, rd_dinode_store; [by rewrite Hbm2|done|exact Hj].
  - intros [I1 I2 I3 I4 I5 I6]. assert (Hok3 : inode_ok i3).
    { unfold i3. rewrite M2. split; cbn; try done. split; [done|]. apply (addrs_ok sb Hl C2 F2 i2). by apply file_none. }
    split; [done|]. eapply iupdated_synced; [done|done|by rewrite Hnum3|done].
Qed.

Lemma wp_itrunc s ip i C F k k' (P : unit -> state -> Prop) :
  fst_at sb s ip i C k -> pays (IBLOCK (inum i) sb) k k' -> disk sb C F -> file sb C F i -> inum_ok sb (inum i) ->
  (forall C' F' i' s', freed C F i C' F' i' -> fst_at sb s' ip i' C' k' -> same_but ip i' s s' -> P tt s') ->
  wp (itrunc ip) P s.
Proof.
  intros Hs Hpay Hd Hf Hn HP. unfold itrunc. apply wp_bind.
  apply (wp_itrunc_direct ip (Z.to_nat NDIRECT) s i C F k 0); [done..|].
  intros C1 F1 i1 s1 [D1 L1 M1 O1 B1] Hs1 Hsame1 Hz1 Ho1. change (0 + Z.of_nat (Z.to_nat NDIRECT)) with NDIRECT in *.
  pose proof Hs1 as (Hsb1 & Hin1 & Hdev1 & Hv1). apply wp_bind. eapply wp_get_inode; [exact Hin1|]. rewrite Hdev1.
  apply wp_bind. destruct (Z.eqb_spec (addr_of i1 NDIRECT) 0) as [E|Hne].
  - apply wp_ret. eapply (wp_itrunc_last ip i C F k k' P s C1 F1 i1 s1); try done; [apply L1| |].
    + intros m Hm. destruct (decide (m = NDIRECT)) as [->|]; [done|]. apply Hz1. lia.
    + intros b. rewrite <- (O1 b). split; [by left|]. intros [?|Ho]; [done|]. exfalso. eapply own_none; [|exact Ho].
      intros m Hm. destruct (decide (m = NDIRECT)) as [->|]; [done|]. apply Hz1. lia.
  - set (a := addr_of i1 NDIRECT) in *. assert (Hoa : own C1 i1 a) by (split; [done|by left]).
    destruct (f_own _ _ _ _ L1 a Hoa) as [Hda HaF].
    apply wp_bind. eapply wp_bread; [exact Hv1|by apply (data_home sb)|rewrite map_size_empty; lia|by intros j; rewrite lookup_empty|].
    intros bp l Hbp Hv2. rewrite insert_empty in Hv2. apply wp_bind.
    eapply (wp_itrunc_indirect bp a (C1 a) (Z.to_nat NINDIRECT)); [done|exact Hv2|exact D1|apply lookup_singleton_eq|rewrite map_size_singleton; lia| |done|done| | |].
    { intros j b [_ <-]%lookup_singleton_Some. done. }
    { intros b Hb. apply (f_own _ _ _ _ L1). by eapply named_own. }
    { intros m1 m2 H1 H2. change (0 + Z.of_nat (Z.to_nat NINDIRECT)) with NINDIRECT in *. intros Hne1 E.
      assert (m1 + NDIRECT = m2 + NDIRECT); [|lia].
      apply (f_inj _ _ _ _ L1); [by apply bn_through..| |]; rewrite !baddr_through by (done || lia); done. }
    intros C2 F2 l2 D2 B2 Hv3 HF2. change (Z.of_nat (Z.to_nat NINDIRECT)) with NINDIRECT in HF2.
    apply wp_bind. eapply wp_brelse; [exact Hv3|apply lookup_singleton_eq|set_solver|]. intros l3 Hv4. rewrite delete_singleton_eq in Hv4.
    assert (HaF2 : a ∉ F2).
    { rewrite HF2. intros [?|(Ha0 & m & Hm & E)]; [done|].
      apply (f_ind _ _ _ _ L1 (m + NDIRECT)); [by apply bn_through| |]; rewrite baddr_through by (done || lia); fold a; congruence. }
    apply wp_bind. eapply (wp_bfree sb Hl); [done|exact Hv4|right; split; [by apply Hres|done]|exact D2|done|done|rewrite map_size_empty; lia|by intros i0 b; rewrite lookup_empty|].
    intros l4 Hv5. eapply wp_upd_inode; [exact Hin1|].
    assert (Hset : forall m, addr_of (set_addr NDIRECT 0 i1) m = if m =? NDIRECT then 0 else addr_of i1 m)
      by (intros m; apply addr_of_set; [apply L1|unfold NDIRECT; lia]).
    eapply (wp_itrunc_last ip i C F k k' P s (unmark sb a C2) ({[a]} ∪ F2) (set_addr NDIRECT 0 i1)); try done.
    + by apply disk_unmark.
    + by eapply same_meta_trans.
    + rewrite length_set_addr. apply L1.
    + intros m Hm. rewrite Hset. destruct (Z.eqb_spec m NDIRECT); [done|]. apply Hz1. lia.
    + intros b. rewrite <- (O1 b), elem_of_union, elem_of_singleton, HF2, (own_indirect C1 F1 i1 (C1 a) b L1 Hz1 eq_refl Hne). tauto.
    + eapply only_bitmap_trans; [exact B1|]. eapply only_bitmap_trans; [exact B2|]. by apply unmark_bitmap.
    + split; [done|]. split; [cbn; apply zlookup_zinsert_eq; by eapply zlookup_lt|done].
    + eapply same_but_trans; [exact Hsame1|]. by split.
Qed.

End Trunc.

End FsTrunc.
