(* ===== verification/FsInode.v ===== *)
(** * The inode cache

    References to inodes ([iget], [idup], [iput]) and their locks ([ilock],
    [iunlock]). *)

From Stdlib Require Import ZArith Lia.
From stdpp Require Import base numbers strings list gmap.
From S2P Require Import Prelude Block BufView BlockIO Log Fs FsBlk FsMap FsRw FsTrunc.

Open Scope Z_scope.

Import Block BufView BlockIO Fs FsBlk FsMap FsRw FsTrunc.

Module FsInode.

#[local] Opaque zero_block.

(** Entry [i] is a reference to inode [n] of device [d]. *)
Definition refers (d n : Z) (i : inode) : Prop := 0 < ref i /\ idev i = d /\ inum i = n.

Lemma zlookup_app_r {A} (l1 l2 : list A) k : 0 <= k -> zlookup (l1 ++ l2) (Z.of_nat (length l1) + k) = zlookup l2 k.
Proof.
  intros Hk. unfold zlookup. rewrite !(proj2 (Z.leb_le 0 _)) by lia. rewrite lookup_app_r by lia. f_equal. lia.
Qed.

Lemma iget_scan_spec d n l : forall ip e,
  match iget_scan l ip d n e with
  | (Some jp, _) => exists k i, jp = ip + k /\ zlookup l k = Some i /\ refers d n i
  | (None, e') => (forall k i, zlookup l k = Some i -> ~ refers d n i) /\
      match e' with
      | Some jp => e = Some jp \/ (e = None /\ exists k i, jp = ip + k /\ zlookup l k = Some i /\ ref i = 0)
      | None => e = None /\ forall k i, zlookup l k = Some i -> ref i <> 0
      end
  end.
Proof.
  assert (Hcons : forall i (l : list inode) k, 0 <= k -> zlookup (i :: l) (k + 1) = zlookup l k).
  { intros i l0 k Hk. unfold zlookup. rewrite !(proj2 (Z.leb_le 0 _)) by lia. by rewrite Z2Nat.inj_add, Nat.add_1_r by lia. }
  assert (Hz : forall (i : inode) l, zlookup (i :: l) 0 = Some i) by done.
  assert (Hinv : forall i (l : list inode) k j, zlookup (i :: l) k = Some j -> (k = 0 /\ j = i) \/ (0 <= k - 1 /\ zlookup l (k - 1) = Some j)).
  { intros i l0 k j E. pose proof (zlookup_lt _ _ _ E) as Hk. destruct (decide (k = 0)) as [->|Hne].
    - rewrite Hz in E. left. by simplify_eq.
    - right. split; [lia|]. rewrite <- (Hcons i l0 (k - 1)) by lia. by replace (k - 1 + 1) with k by lia. }
  induction l as [|i l IH]; intros ip e; cbn [iget_scan].
  { assert (Hnil : forall k j, zlookup ([] : list inode) k = Some j -> False).
    { intros k j E. apply zlookup_lt in E. cbn in E. lia. }
    split; [intros k j E; by apply Hnil in E|]. destruct e; [by left|]. split; [done|]. intros k j E. by apply Hnil in E. }
  destruct ((0 <? ref i) && (idev i =? d) && (inum i =? n)) eqn:E.
  { apply andb_true_iff in E as [[E1%Z.ltb_lt E2%Z.eqb_eq]%andb_true_iff E3%Z.eqb_eq].
    exists 0, i. split; [lia|]. split; [done|]. by split. }
  assert (Hnot : ~ refers d n i).
  { intros (H1 & H2 & H3). by rewrite (proj2 (Z.ltb_lt _ _) H1), (proj2 (Z.eqb_eq _ _) H2), (proj2 (Z.eqb_eq _ _) H3) in E. }
  set (e1 := match e with None => if ref i =? 0 then Some ip else None | _ => e end).
  specialize (IH (ip + 1) e1). destruct (iget_scan l (ip + 1) d n e1) as [[jp|] e'].
  { destruct IH as (k & j & -> & Hk & Hr). pose proof (zlookup_lt _ _ _ Hk). exists (k + 1), j. rewrite Hcons by lia. split; [lia|done]. }
  destruct IH as [Hall He]. split.
  { intros k j [[-> ->]|[_ Hj]]%Hinv; [done|by eapply Hall]. }
  destruct e' as [jp|].
  - destruct He as [He|(He & k & j & -> & Hk & Hr)].
    + unfold e1 in He. destruct e as [jq|]; [by left|]. destruct (Z.eqb_spec (ref i) 0); [|done]. right. split; [done|].
      exists 0, i. injection He as <-. split; [lia|done].
    + unfold e1 in He. destruct e; [done|]. right. split; [done|]. pose proof (zlookup_lt _ _ _ Hk).
      exists (k + 1), j. rewrite Hcons by lia. split; [lia|done].
  - destruct He as [He Hno]. unfold e1 in He. destruct e; [done|]. destruct (Z.eqb_spec (ref i) 0); [done|].
    split; [done|]. intros k j [[-> ->]|[_ Hj]]%Hinv; [done|by eapply Hno].
Qed.

Section Inode.

Context {L : Type} `{!BlockIO L}.

Local Abbreviation state := (@state L).

(** ** References *)

(** The cache has one entry per inode in use. *)
Record icache (s : state) : Prop := {
  ic_lock : iclock s = false;
  ic_len : length (inodes s) = Z.to_nat NINODE;
  ic_ref : forall ip i, zlookup (inodes s) ip = Some i -> 0 <= ref i;
  ic_uniq : forall ip jp i j d n, zlookup (inodes s) ip = Some i -> zlookup (inodes s) jp = Some j ->
    refers d n i -> refers d n j -> ip = jp
}.

(** The entry is cached, or there is a free one. *)
Definition room (s : state) (d n : Z) : Prop :=
  exists ip i, zlookup (inodes s) ip = Some i /\ (refers d n i \/ ref i = 0).

(** The entry of [iget]. *)
Definition got (d n : Z) (i i' : inode) : Prop :=
  (refers d n i /\ i' = set_ref (ref i + 1) i) \/
  (ref i = 0 /\ i' = set_valid false (set_ref 1 (set_ident d n i))).

Lemma wp_acquire (s : state) (P : unit -> state -> Prop) : iclock s = false ->
  P tt (mkstate (io s) (sb s) true (inodes s)) -> wp acquire P s.
Proof. intros Hc HP. unfold acquire. apply wp_bind, wp_get. by rewrite Hc. Qed.

Lemma wp_release (s : state) (P : unit -> state -> Prop) : iclock s = true ->
  P tt (mkstate (io s) (sb s) false (inodes s)) -> wp release P s.
Proof. intros Hc HP. unfold release. apply wp_bind, wp_get. by rewrite Hc. Qed.

(** The cache lock around a change of entry [ip]. *)
Lemma wp_locked (s : state) ip i f (P : unit -> state -> Prop) :
  iclock s = false -> zlookup (inodes s) ip = Some i -> P tt (set_in ip (f i) s) ->
  wp (acquire;; upd_inode ip f;; release) P s.
Proof.
  intros Hc Hi HP. apply wp_bind, wp_acquire; [done|]. apply wp_bind. eapply wp_upd_inode; [exact Hi|].
  apply wp_release; [done|]. unfold set_in, set_inodes in *. cbn in *. by rewrite <- Hc.
Qed.

Lemma wp_iget (s : state) d n (P : Z -> state -> Prop) :
  icache s -> room s d n ->
  (forall ip i i', zlookup (inodes s) ip = Some i -> got d n i i' ->
     (ref i = 0 -> forall jp j, zlookup (inodes s) jp = Some j -> ~ refers d n j) -> P ip (set_in ip i' s)) ->
  wp (iget d n) P s.
Proof.
  intros [Hc Hlen Hrf Hun] Hroom HP. unfold iget. apply wp_bind, wp_acquire; [done|]. apply wp_bind, wp_get. cbn [inodes].
  pose proof (iget_scan_spec d n (inodes s) 0 None) as Hscan.
  destruct (iget_scan (inodes s) 0 d n None) as [[ip|] e].
  - destruct Hscan as (k & i & -> & Hk & Hr). rewrite Z.add_0_l in *. apply wp_bind. eapply wp_upd_inode; [exact Hk|].
    apply wp_bind, wp_release; [done|]. apply wp_ret. specialize (HP k i _ Hk (or_introl (conj Hr eq_refl)) ltac:(destruct Hr as [? _]; lia)).
    unfold set_in, set_inodes in *. cbn in *. by rewrite Hc in HP.
  - destruct Hscan as [Hno He]. destruct e as [ip|].
    2: { destruct He as [_ He]. destruct Hroom as (ip & i & Hi & [Hr|H0]); [by destruct (Hno _ _ Hi)|by destruct (He _ _ Hi)]. }
    destruct He as [?|(_ & k & i & -> & Hk & Hr)]; [done|]. rewrite Z.add_0_l in *. pose proof (zlookup_lt _ _ _ Hk) as Hb.
    apply wp_bind. eapply wp_upd_inode; [exact Hk|]. apply wp_bind. eapply wp_upd_inode; [by apply zlookup_zinsert_eq|].
    apply wp_bind. eapply wp_upd_inode; [cbn; apply zlookup_zinsert_eq; by rewrite length_zinsert|].
    apply wp_bind, wp_release; [done|]. apply wp_ret. specialize (HP k i _ Hk (or_intror (conj Hr eq_refl)) ltac:(done)).
    unfold set_in, set_inodes in *. cbn in *. rewrite !zinsert_twice. by rewrite Hc in HP.
Qed.

Lemma iget_full (s : state) d n : iclock s = false -> ~ room s d n -> iget d n s = Panic "iget: no inodes".
Proof.
  intros Hc Hno. unfold iget. rewrite (run_bind acquire _ s tt (mkstate (io s) (sb s) true (inodes s))).
  2: { unfold acquire. rewrite run_get. by rewrite Hc. }
  rewrite run_get. cbn [inodes]. pose proof (iget_scan_spec d n (inodes s) 0 None) as Hscan.
  destruct (iget_scan (inodes s) 0 d n None) as [[ip|] e].
  - destruct Hscan as (k & i & _ & Hk & Hr). destruct Hno. exists k, i. tauto.
  - destruct Hscan as [_ He]. destruct e as [ip|]; [|done].
    destruct He as [?|(_ & k & i & _ & Hk & Hr)]; [done|]. destruct Hno. exists k, i. tauto.
Qed.

(** Changing one entry keeps the cache if it keeps its identity. *)
Lemma icache_set (s : state) ip i i' :
  icache s -> zlookup (inodes s) ip = Some i -> 0 <= ref i' ->
  (forall d n, refers d n i' -> refers d n i \/ forall jp j, zlookup (inodes s) jp = Some j -> ~ refers d n j) ->
  icache (set_in ip i' s).
Proof.
  intros [Hc Hlen Hrf Hun] Hi Hr Hid. pose proof (zlookup_lt _ _ _ Hi) as Hb.
  assert (Hlk : forall jp j, zlookup (inodes (set_in ip i' s)) jp = Some j -> (jp = ip /\ j = i') \/ (jp <> ip /\ zlookup (inodes s) jp = Some j)).
  { intros jp j E. cbn in E. destruct (decide (jp = ip)) as [->|Hne].
    - rewrite zlookup_zinsert_eq in E by done. left. by simplify_eq.
    - rewrite zlookup_zinsert_ne in E by done. by right. }
  split; [done|cbn; by rewrite length_zinsert| |].
  - intros jp j [[-> ->]|[_ E]]%Hlk; [done|by eapply Hrf].
  - intros jp kp j k d n [[-> ->]|[Hj Ej]]%Hlk [[-> ->]|[Hk Ek]]%Hlk Rj Rk; [done| | |by eapply Hun].
    + destruct (Hid d n Rj) as [Ri|Hno]; [by eapply Hun|by destruct (Hno _ _ Ek)].
    + destruct (Hid d n Rk) as [Ri|Hno]; [by eapply Hun|by destruct (Hno _ _ Ej)].
Qed.

Lemma got_icache (s : state) d n ip i i' :
  icache s -> zlookup (inodes s) ip = Some i -> got d n i i' ->
  (ref i = 0 -> forall jp j, zlookup (inodes s) jp = Some j -> ~ refers d n j) ->
  icache (set_in ip i' s) /\ refers d n i'.
Proof.
  intros Hic Hi Hg Hno. pose proof (ic_ref _ Hic _ _ Hi) as Hr. destruct Hg as [[(R1 & R2 & R3) ->]|[H0 ->]].
  - split; [|split; [cbn; lia|done]]. eapply icache_set; [done|done|cbn; lia|]. intros d' n' (_ & E2 & E3). left. by split.
  - split; [|split; [cbn; lia|done]]. eapply icache_set; [done|done|cbn; lia|].
    intros d' n' (_ & E2 & E3). right. cbn in E2, E3. subst. by apply Hno.
Qed.

(** ** Locks *)

Context (sb : Log.superblock) (Hl : layout sb) (pid : Z).

Lemma wp_acquiresleep (s : state) ip i (P : unit -> state -> Prop) :
  zlookup (inodes s) ip = Some i -> ilocked i = false -> P tt (set_in ip (set_ilock true pid i) s) ->
  wp (acquiresleep pid ip) P s.
Proof.
  intros Hi Hk HP. unfold acquiresleep. apply wp_bind. eapply wp_get_inode; [exact Hi|]. rewrite Hk.
  by eapply wp_upd_inode.
Qed.

Lemma set_in_lookup (s : state) ip i i' : zlookup (inodes s) ip = Some i -> zlookup (inodes (set_in ip i' s)) ip = Some i'.
Proof. intros E. cbn. apply zlookup_zinsert_eq. by eapply zlookup_lt. Qed.

Lemma set_in_twice (s : state) ip i i' : set_in ip i (set_in ip i' s) = set_in ip i s.
Proof. unfold set_in, set_inodes. cbn. by rewrite zinsert_twice. Qed.

(** An inode that is in memory. *)
Lemma wp_ilock_valid (s : state) ip i (P : unit -> state -> Prop) :
  zlookup (inodes s) ip = Some i -> 0 < ref i -> ilocked i = false -> valid i = true ->
  P tt (set_in ip (set_ilock true pid i) s) -> wp (ilock pid ip) P s.
Proof.
  intros Hi Hr Hk Hv HP. unfold ilock. apply wp_bind. eapply wp_get_inode; [exact Hi|].
  rewrite (proj2 (Z.ltb_ge (ref i) 1)) by lia. apply wp_bind. eapply wp_acquiresleep; [exact Hi|done|].
  apply wp_bind. eapply wp_get_inode; [by eapply set_in_lookup|]. cbn [valid set_ilock]. rewrite Hv. by apply wp_ret.
Qed.

(** The inode as [ilock] reads it from the disk. *)
Definition loaded (C : Z -> block) (i : inode) : inode :=
  set_valid true (dinode_load (ioff (inum i)) (C (IBLOCK (inum i) sb)) (set_ilock true pid i)).

Lemma wp_ilock_load (s : state) ip i C k (P : unit -> state -> Prop) :
  fst_at sb s ip i C k -> 0 < ref i -> ilocked i = false -> valid i = false -> inum_ok sb (inum i) ->
  itype (loaded C i) <> 0 ->
  (forall l, io_view l ∅ C ∅ k -> P tt (set_in ip (loaded C i) (set_io l s))) -> wp (ilock pid ip) P s.
Proof.
  intros (Hsb & Hi & Hdev & Hv) Hr Hk Hva Hn Ht HP. unfold ilock. apply wp_bind. eapply wp_get_inode; [exact Hi|].
  rewrite (proj2 (Z.ltb_ge (ref i) 1)) by lia. apply wp_bind. eapply wp_acquiresleep; [exact Hi|done|].
  apply wp_bind. eapply wp_get_inode; [by eapply set_in_lookup|]. cbn [valid set_ilock]. rewrite Hva. cbn [negb].
  apply wp_bind. unfold get_sb. apply wp_bind, wp_get, wp_ret. cbn [Fs.sb set_in set_inodes]. rewrite Hsb.
  cbn [idev inum set_ilock]. rewrite Hdev. apply wp_bind.
  eapply wp_bread; [exact Hv|by apply IBLOCK_home|rewrite map_size_empty; lia|by intros j; rewrite lookup_empty|].
  intros bp l Hbp Hv1. apply wp_bind. eapply wp_bdata; [exact Hv1|apply lookup_insert_eq|].
  apply wp_bind. eapply wp_upd_inode; [by eapply (set_in_lookup s)|].
  apply wp_bind. eapply wp_brelse; [exact Hv1|apply lookup_insert_eq|set_solver|]. intros l2 Hv2.
  rewrite delete_insert_id in Hv2 by done.
  apply wp_bind. eapply wp_upd_inode; [by eapply (set_in_lookup (set_in ip _ s)), set_in_lookup|].
  set (s2 := set_in ip _ _). assert (E : s2 = set_in ip (loaded C i) (set_io l2 s)).
  { unfold s2, set_in, set_inodes, set_io, loaded. cbn. by rewrite !zinsert_twice. }
  rewrite E. apply wp_bind. eapply wp_get_inode; [by eapply (set_in_lookup (set_io l2 s))|].
  rewrite (proj2 (Z.eqb_neq _ _) Ht). apply wp_ret. by apply HP.
Qed.

Lemma wp_iunlock (s : state) ip i (P : unit -> state -> Prop) :
  zlookup (inodes s) ip = Some i -> 0 < ref i -> ilocked i = true -> ilpid i = pid ->
  P tt (set_in ip (set_ilock false 0 i) s) -> wp (iunlock pid ip) P s.
Proof.
  intros Hi Hr Hk Hp HP. unfold iunlock, holdingsleep. apply wp_bind, wp_bind. eapply wp_get_inode; [exact Hi|].
  rewrite Hk, Hp, Z.eqb_refl. apply wp_ret. apply wp_bind. eapply wp_get_inode; [exact Hi|].
  rewrite (proj2 (Z.ltb_ge (ref i) 1)) by lia. cbn [negb andb orb]. unfold releasesleep. by eapply wp_upd_inode.
Qed.

(** [iput] of an inode that has links or other references. *)
Lemma wp_iput_keep (s : state) ip i (P : unit -> state -> Prop) :
  zlookup (inodes s) ip = Some i -> iclock s = false -> ilocked i = false ->
  valid i = false \/ nlink i <> 0 \/ ref i <> 1 ->
  P tt (set_in ip (set_ref (ref i - 1) (set_ilock false 0 i)) s) -> wp (iput pid ip) P s.
Proof.
  intros Hi Hc Hk Hlive HP. unfold iput. apply wp_bind. eapply wp_acquiresleep; [exact Hi|done|]. apply wp_bind.
  set (s1 := set_in ip (set_ilock true pid i) s).
  assert (Hi1 : zlookup (inodes s1) ip = Some (set_ilock true pid i)) by (by eapply set_in_lookup).
  eapply wp_get_inode; [exact Hi1|]. apply wp_bind.
  assert (Hrest : wp (releasesleep ip;; acquire;; upd_inode ip (fun i => set_ref (ref i - 1) i);; release) P s1).
  { apply wp_bind. unfold releasesleep. eapply wp_upd_inode; [exact Hi1|].
    eapply wp_locked; [done|by eapply set_in_lookup|]. unfold s1. rewrite !set_in_twice. exact HP. }
  cbn [valid nlink set_ilock]. destruct (valid i && (nlink i =? 0)) eqn:E; [|by apply wp_ret].
  apply andb_true_iff in E as [E1 E2%Z.eqb_eq]. apply wp_bind, wp_acquire; [done|]. apply wp_bind.
  eapply wp_get_inode; [exact Hi1|]. apply wp_bind, wp_release; [done|]. cbn [ref set_ilock].
  destruct (Z.eqb_spec (ref i) 1) as [E3|_]; [|apply wp_ret; unfold s1 in *; cbn in *; rewrite <- Hc; exact Hrest].
  destruct Hlive as [?|[?|?]]; [congruence|done|done].
Qed.

(** The last reference to an inode without links: its blocks are freed, and the
    inode on the disk. *)
Lemma wp_iput_last (s : state) ip i C F k k1 k2 (P : unit -> state -> Prop) :
  (forall b, data sb b -> io_reserved (BBLOCK b sb)) ->
  fst_at sb s ip i C k -> disk sb C F -> file sb C F i -> inum_ok sb (inum i) -> inode_ok i ->
  iclock s = false -> ilocked i = false -> valid i = true -> nlink i = 0 -> ref i = 1 ->
  pays (IBLOCK (inum i) sb) k k1 -> pays (IBLOCK (inum i) sb) k1 k2 ->
  (forall C1 F' i1 l, freed sb C F (set_ilock true pid i) C1 F' i1 -> io_view l ∅ (iupdated sb (set_type 0 i1) C1) ∅ k2 ->
     P tt (set_in ip (set_ref 0 (set_ilock false 0 (set_valid false (set_type 0 i1)))) (set_io l s))) ->
  wp (iput pid ip) P s.
Proof.
  intros Hres (Hsb & Hi & Hdev & Hv) Hd Hf Hn Hok Hc Hk Hva Hnl Hrf Hp1 Hp2 HP.
  unfold iput. apply wp_bind. eapply wp_acquiresleep; [exact Hi|done|]. apply wp_bind.
  set (i0 := set_ilock true pid i). set (s1 := set_in ip i0 s).
  assert (Hi1 : zlookup (inodes s1) ip = Some i0) by (by eapply set_in_lookup).
  eapply wp_get_inode; [exact Hi1|]. apply wp_bind. cbn [valid nlink i0 set_ilock]. rewrite Hva, Hnl.
  change (true && (0 =? 0)) with true. cbv iota. apply wp_bind, wp_acquire; [done|]. apply wp_bind.
  eapply wp_get_inode; [exact Hi1|]. apply wp_bind, wp_release; [done|]. cbn [ref i0 set_ilock]. rewrite Hrf.
  change (1 =? 1) with true. cbv iota. set (s2 := mkstate _ _ _ _).
  assert (Hs2 : fst_at sb s2 ip i0 C k) by done.
  apply wp_bind. apply (wp_itrunc sb Hl Hres s2 ip i0 C F k k1); [done|done|done|by destruct Hf|done|].
  intros C1 F1 i1 s3 Hfr (Hsb3 & Hi3 & Hdev3 & Hv3) (E1 & E2 & E3). apply wp_bind. eapply wp_upd_inode; [exact Hi3|].
  pose proof (fr_meta _ _ _ _ _ _ _ Hfr) as Hmeta.
  assert (Hnum : inum (set_type 0 i1) = inum i) by (rewrite Hmeta; done).
  apply wp_bind. eapply (wp_iupdate sb Hl _ _ (set_type 0 i1) C1 k1 k2); [|by rewrite Hnum|by rewrite Hnum|].
  { split; [done|]. split; [by eapply set_in_lookup|done]. }
  intros l Hv4. eapply wp_upd_inode; [by eapply (set_in_lookup s3)|].
  apply wp_bind. unfold releasesleep. eapply wp_upd_inode; [by eapply (set_in_lookup (set_io l (set_in ip _ s3))), (set_in_lookup s3)|].
  set (s4 := set_in ip _ (set_in ip _ (set_io l (set_in ip _ s3)))).
  assert (Hrf1 : ref i1 = 1) by (rewrite Hmeta; exact Hrf).
  eapply wp_locked; [done|by eapply (set_in_lookup (set_in ip _ (set_io l (set_in ip _ s3)))), (set_in_lookup (set_io l (set_in ip _ s3))), (set_in_lookup s3)|].
  specialize (HP C1 F1 i1 l Hfr Hv4). cbn [ref set_ilock set_valid set_type]. rewrite Hrf1. change (1 - 1) with 0.
  replace (set_in ip _ s4) with (set_in ip (set_ref 0 (set_ilock false 0 (set_valid false (set_type 0 i1)))) (set_io l s)); [exact HP|].
  unfold s4, set_in, set_inodes, set_io. cbn. rewrite !zinsert_twice, E1, E2, E3. cbn. rewrite !zinsert_twice. cbn. by rewrite Hc.
Qed.

End Inode.

End FsInode.
