(* ===== verification/FsDir.v ===== *)
(** * Directories and path names

    Names as the code compares them, the entries of a directory, the
    specifications of [dirlookup] and [dirlink], and the elements of a path. *)

From Stdlib Require Import ZArith Lia.
From stdpp Require Import base numbers strings list gmap.
From S2P Require Import Prelude Block BufView Log BlockIO Fs FsBlk FsMap FsRw FsTrunc FsInode.

Open Scope Z_scope.

Import Block BufView BlockIO Fs FsBlk FsMap FsRw FsTrunc FsInode.

Module FsDir.

#[local] Opaque zero_block.

(** ** Names *)

(** The first [n] characters of a string. *)
Fixpoint cname (n : nat) (l : list Z) : list Z :=
  match n with
  | O => []
  | S n' => if ch l =? 0 then [] else ch l :: cname n' (tail l)
  end.

Lemma ch_byte l : bytes l -> 0 <= ch l < 256.
Proof. destruct 1; cbn; lia. Qed.

Lemma tail_bytes l : bytes l -> bytes (tail l).
Proof. by destruct 1; [constructor|]. Qed.

Lemma strncmp_eq n : forall p q, bytes p -> bytes q -> strncmp n p q = 0 <-> cname n p = cname n q.
Proof.
  induction n as [|n IH]; intros p q Hp Hq; [done|]. cbn [strncmp cname].
  pose proof (ch_byte p Hp) as Bp. pose proof (ch_byte q Hq) as Bq.
  assert (U : forall v, 0 <= v < 256 -> u8 v = v) by (intros v Hv; by apply Z.mod_small).
  destruct (Z.eqb_spec (ch p) 0) as [E|Hne]; cbn [negb andb].
  - rewrite !U by done. destruct (Z.eqb_spec (ch q) 0); [split; [done|lia]|]. split; [lia|done].
  - destruct (Z.eqb_spec (ch p) (ch q)) as [E|Hd].
    + rewrite <- E, (proj2 (Z.eqb_neq _ _) Hne), IH by (by apply tail_bytes). split; [by intros ->|by intros [= ?]].
    + rewrite !U by done. split; [lia|]. destruct (Z.eqb_spec (ch q) 0); [done|]. by intros [= ? _].
Qed.

Lemma cname_strncpy n : forall t m, (n <= m)%nat -> cname n (strncpy m t) = cname n t.
Proof.
  induction n as [|n IH]; intros t m Hm; [done|]. destruct m as [|m]; [lia|]. cbn [strncpy cname].
  destruct (Z.eqb_spec (ch t) 0) as [E|Hne]; [done|]. cbn [ch tail]. rewrite (proj2 (Z.eqb_neq _ _) Hne). f_equal. apply IH. lia.
Qed.

Lemma length_strncpy n : forall t, length (strncpy n t) = n.
Proof.
  induction n as [|n IH]; intros t; [done|]. cbn [strncpy]. destruct (ch t =? 0); [by rewrite length_replicate|].
  cbn. by rewrite IH.
Qed.

Lemma strncpy_bytes n : forall t, bytes t -> bytes (strncpy n t).
Proof.
  induction n as [|n IH]; intros t Ht; [constructor|]. cbn [strncpy]. pose proof (ch_byte t Ht) as B.
  destruct (ch t =? 0); [apply Forall_replicate; lia|]. constructor; [done|]. by apply IH, tail_bytes.
Qed.

(** The names the kernel distinguishes. *)
Definition dname (l : list Z) : list Z := cname (Z.to_nat DIRSIZ) l.

Lemma namecmp_eq p q : bytes p -> bytes q -> namecmp p q = 0 <-> dname p = dname q.
Proof. apply strncmp_eq. Qed.

(** ** Directory entries *)

Definition dent (C : Z -> block) (i : inode) (k : Z) : list Z := fbytes C i (DIRENT * k) DIRENT.

(** Entry [k] is in use and has this name. *)
Definition named_entry (C : Z -> block) (i : inode) (name : list Z) (k : Z) : Prop :=
  de_inum (dent C i k) <> 0 /\ dname (de_name (dent C i k)) = dname name.

(** The number of entries. *)
Definition nent (i : inode) : Z := isize i / DIRENT.

Section Dir.

Context {L : Type} `{!BlockIO L}.
Context (sb : Log.superblock) (Hl : layout sb).

Local Abbreviation state := (@state L).

(** A directory that is in order. *)
Record dir (s : state) (dp : Z) (i : inode) (C : Z -> block) (F : gset Z) (k : nat) : Prop := {
  dr_at : fst_at sb s dp i C k;
  dr_disk : disk sb C F;
  dr_file : file sb C F i;
  dr_full : full C i;
  dr_type : itype i = T_DIR;
  dr_size : isize i mod DIRENT = 0 /\ 0 <= isize i
}.

Lemma dir_size_eq s dp i C F k : dir s dp i C F k -> isize i = DIRENT * nent i /\ 0 <= nent i /\ isize i <= MAXFILE * BSIZE.
Proof.
  intros [_ _ _ [Hm _] _ [Hs H0]]. unfold nent, DIRENT in *. split; [Z.to_euclidean_division_equations; lia|].
  split; [apply Z.div_pos; lia|done].
Qed.

Lemma dir_io s dp i C F k l : dir s dp i C F k -> io_view l ∅ C ∅ k -> dir (set_io l s) dp i C F k.
Proof. intros [(A1 & A2 & A3 & A4) Hd Hf Hfu Ht Hs] Hv. by split. Qed.

(** Reading entry [k]. *)
Lemma wp_read_entry devread s dp i C F c k (P : Z * list Z -> state -> Prop) :
  dir s dp i C F c -> 0 <= k < nent i ->
  (forall l, io_view l ∅ C ∅ c -> P (DIRENT, dent C i k) (set_io l s)) ->
  wp (readi devread dp (DIRENT * k) DIRENT) P s.
Proof.
  intros Hdir Hk HP. destruct (dir_size_eq _ _ _ _ _ _ Hdir) as (Hs & _ & Hmax). pose proof Hdir as [Hat Hd Hf Hfu Ht _].
  rewrite MAXFILE_eq in Hmax. unfold BSIZE in Hmax.
  eapply (wp_readi sb Hl); [exact Hat|exact Hd|done|done|by rewrite Ht|unfold DIRENT in *; lia|done|unfold DIRENT in *; lia|].
  intros l Hv. replace (Z.min DIRENT (isize i - DIRENT * k)) with DIRENT by (unfold DIRENT in *; lia). by apply HP.
Qed.

Lemma fbyte_byte C F i x : disk sb C F -> file sb C F i -> 0 <= x < MAXFILE * BSIZE -> 0 <= fbyte C i x < 256.
Proof.
  intros Hd Hf Hx. unfold fbyte. destruct (Z.eqb_spec (baddr C i (x / BSIZE)) 0) as [|Hne]; [lia|].
  apply rd_range, (d_ok _ _ _ Hd), (data_fs sb Hl), (f_own _ _ _ _ Hf). eapply file_own_addr; [done|by apply bn_range|done].
Qed.

Lemma dent_bytes s dp i C F c k : dir s dp i C F c -> 0 <= k < nent i -> bytes (dent C i k).
Proof.
  intros Hdir Hk. destruct (dir_size_eq _ _ _ _ _ _ Hdir) as (Hs & _ & Hmax).
  unfold dent, fbytes. apply Forall_forall. intros v (j & -> & Hj%elem_of_seq)%list_elem_of_fmap.
  eapply fbyte_byte; [apply Hdir|apply Hdir|]. unfold DIRENT in *. lia.
Qed.

Lemma u32_off k n : 0 <= k < n -> DIRENT * n <= MAXFILE * BSIZE -> u32 (DIRENT * k + DIRENT) = DIRENT * (k + 1).
Proof. rewrite MAXFILE_eq. unfold DIRENT, BSIZE. intros H1 H2. rewrite u32_small; lia. Qed.

(** ** [dirlookup] *)

Lemma wp_dirlookup_loop devread dp i C F c name fuel : forall s k (P : option (Z * Z) -> state -> Prop),
  dir s dp i C F c -> bytes name -> 0 <= k <= nent i -> nent i - k <= Z.of_nat fuel ->
  (forall j, 0 <= j < k -> ~ named_entry C i name j) ->
  (forall l, io_view l ∅ C ∅ c -> (forall j, 0 <= j < nent i -> ~ named_entry C i name j) -> P None (set_io l s)) ->
  (forall l j, io_view l ∅ C ∅ c -> 0 <= j < nent i -> named_entry C i name j ->
     (forall j', 0 <= j' < j -> ~ named_entry C i name j') ->
     wp (iget 1 (de_inum (dent C i j))) (fun ip s' => P (Some (ip, DIRENT * j)) s') (set_io l s)) ->
  wp (dirlookup_loop devread fuel dp name (DIRENT * k)) P s.
Proof.
  induction fuel as [|fuel IH]; intros s k P Hdir Hname Hk Hfu Hbefore Hnone Hsome; cbn [dirlookup_loop];
    destruct (dir_size_eq _ _ _ _ _ _ Hdir) as (Hs & Hn0 & Hmax); pose proof (dr_at _ _ _ _ _ _ Hdir) as (Hsb & Hin & Hdev & Hv);
    (apply wp_bind; eapply wp_get_inode; [exact Hin|]); rewrite Hs;
    destruct (Z.ltb_spec (DIRENT * k) (DIRENT * nent i)) as [Hlt|Hge]; try (unfold DIRENT in *; lia).
  1,3: apply wp_ret; replace s with (set_io (io s) s) by (by destruct s); apply Hnone; [done|];
    intros j Hj; apply Hbefore; unfold DIRENT in *; lia.
  assert (Hkn : 0 <= k < nent i) by (unfold DIRENT in *; lia).
  apply wp_bind. eapply wp_read_entry; [exact Hdir|done|]. intros l Hv1. cbn [fst snd]. rewrite Z.eqb_refl. cbn [negb].
  assert (Hnext : (~ named_entry C i name k) -> wp (dirlookup_loop devread fuel dp name (u32 (DIRENT * k + DIRENT))) P (set_io l s)).
  { intros Hno. rewrite (u32_off k (nent i)) by (done || lia).
    apply IH; [by apply dir_io|done|lia|lia| |exact Hnone|exact Hsome].
    intros j Hj. destruct (decide (j = k)) as [->|]; [done|]. apply Hbefore. lia. }
  destruct (Z.eqb_spec (de_inum (dent C i k)) 0) as [E0|Hne]; [apply Hnext; by intros [? _]|].
  pose proof (dent_bytes _ _ _ _ _ _ k Hdir Hkn) as Hby.
  pose proof (namecmp_eq name (de_name (dent C i k)) Hname ltac:(by apply Forall_drop)) as Hcmp.
  destruct (Z.eqb_spec (namecmp name (de_name (dent C i k))) 0) as [E|Hd].
  - rewrite Hdev. apply wp_bind. apply Hsome; [done|done| |exact Hbefore]. split; [done|]. symmetry. by apply Hcmp.
  - apply Hnext. intros [_ E]. apply Hd, Hcmp. done.
Qed.

(** [dirlookup] finds the first entry with the name. *)
Lemma wp_dirlookup devread s dp i C F c name (P : option (Z * Z) -> state -> Prop) :
  dir s dp i C F c -> bytes name ->
  (forall l, io_view l ∅ C ∅ c -> (forall j, 0 <= j < nent i -> ~ named_entry C i name j) -> P None (set_io l s)) ->
  (forall l j, io_view l ∅ C ∅ c -> 0 <= j < nent i -> named_entry C i name j ->
     (forall j', 0 <= j' < j -> ~ named_entry C i name j') ->
     wp (iget 1 (de_inum (dent C i j))) (fun ip s' => P (Some (ip, DIRENT * j)) s') (set_io l s)) ->
  wp (dirlookup devread dp name) P s.
Proof.
  intros Hdir Hname Hnone Hsome. unfold dirlookup. pose proof (dr_at _ _ _ _ _ _ Hdir) as (_ & Hin & _ & _).
  destruct (dir_size_eq _ _ _ _ _ _ Hdir) as (Hs & Hn0 & Hmax).
  apply wp_bind. eapply wp_get_inode; [exact Hin|]. rewrite (dr_type _ _ _ _ _ _ Hdir). cbn [negb Z.eqb T_DIR].
  apply (wp_dirlookup_loop devread dp i C F c name (dir_fuel i) s 0); [done|done|lia| |intros j; lia|done|done].
  unfold dir_fuel. fold (nent i). lia.
Qed.

(** ** [dirlink] *)

Lemma wp_dirlink_loop devread dp i C F c fuel : forall s k (P : Z -> state -> Prop),
  dir s dp i C F c -> 0 <= k <= nent i -> nent i - k <= Z.of_nat fuel ->
  (forall j, 0 <= j < k -> de_inum (dent C i j) <> 0) ->
  (forall l j, io_view l ∅ C ∅ c -> 0 <= j <= nent i -> (forall j', 0 <= j' < j -> de_inum (dent C i j') <> 0) ->
     (j < nent i -> de_inum (dent C i j) = 0) -> P (DIRENT * j) (set_io l s)) ->
  wp (dirlink_loop devread fuel dp (DIRENT * k)) P s.
Proof.
  induction fuel as [|fuel IH]; intros s k P Hdir Hk Hfu Hbefore HP; cbn [dirlink_loop];
    destruct (dir_size_eq _ _ _ _ _ _ Hdir) as (Hs & Hn0 & Hmax); pose proof (dr_at _ _ _ _ _ _ Hdir) as (Hsb & Hin & Hdev & Hv);
    (apply wp_bind; eapply wp_get_inode; [exact Hin|]); rewrite Hs;
    destruct (Z.ltb_spec (DIRENT * k) (DIRENT * nent i)) as [Hlt|Hge]; try (unfold DIRENT in *; lia).
  1,3: apply wp_ret; replace s with (set_io (io s) s) by (by destruct s); apply HP; [done|lia|done|intros ?; exfalso; unfold DIRENT in *; lia].
  assert (Hkn : 0 <= k < nent i) by (unfold DIRENT in *; lia).
  apply wp_bind. eapply wp_read_entry; [exact Hdir|done|]. intros l Hv1. cbn [fst snd]. rewrite Z.eqb_refl. cbn [negb].
  destruct (Z.eqb_spec (de_inum (dent C i k)) 0) as [E0|Hne].
  - apply wp_ret. apply HP; [done|lia|done|done].
  - replace (DIRENT * k + DIRENT) with (DIRENT * (k + 1)) by (unfold DIRENT; lia).
    apply IH; [by apply dir_io|lia|lia| |exact HP]. intros j Hj. destruct (decide (j = k)) as [->|]; [done|]. apply Hbefore. lia.
Qed.

(** The entry that [dirlink] writes. *)
Definition new_entry (name : list Z) (inum : Z) : list Z := de_make inum (strncpy (Z.to_nat DIRSIZ) name).

Lemma new_entry_ok name inum : bytes name -> 0 <= inum < 2 ^ 16 ->
  bytes (new_entry name inum) /\ length (new_entry name inum) = Z.to_nat DIRENT /\
  de_inum (new_entry name inum) = inum /\ dname (de_name (new_entry name inum)) = dname name.
Proof.
  intros Hn Hi. unfold new_entry, de_make. split; [|split; [|split]].
  - constructor; [apply Z.mod_pos_bound; lia|]. constructor; [apply Z.mod_pos_bound; lia|]. by apply strncpy_bytes.
  - cbn [app length]. by rewrite length_strncpy.
  - change (u8 inum + 256 * u8 (Z.shiftr inum 8) = inum). unfold u8. rewrite Z.shiftr_div_pow2 by lia.
    Z.to_euclidean_division_equations; lia.
  - unfold de_name. cbn [app drop]. apply cname_strncpy. done.
Qed.

(** What [dirlink] promises: entry [j] is new, the others are as before. *)
Record linked (C : Z -> block) (F : gset Z) (i : inode) (name : list Z) (inum j : Z)
    (C' : Z -> block) (F' : gset Z) (i' : inode) : Prop := {
  ln_slot : 0 <= j <= nent i /\ (j < nent i -> de_inum (dent C i j) = 0);
  ln_wrote : wrote sb C F i (new_entry name inum) (DIRENT * j) C' F' i';
  ln_count : nent i' = Z.max (nent i) (j + 1);
  ln_new : de_inum (dent C' i' j) = inum /\ dname (de_name (dent C' i' j)) = dname name;
  ln_old : forall j', 0 <= j' < nent i -> j' <> j -> dent C' i' j' = dent C i j'
}.

Lemma fbytes_ext C i C' i' off n : (forall x, off <= x < off + n -> fbyte C' i' x = fbyte C i x) ->
  fbytes C' i' off n = fbytes C i off n.
Proof.
  intros H. unfold fbytes. apply list_eq. intros j. rewrite !list_lookup_fmap. destruct (decide (j < Z.to_nat n)%nat).
  - rewrite lookup_seq_lt by done. cbn. rewrite H by lia. done.
  - by rewrite lookup_seq_ge by lia.
Qed.

Lemma fbytes_list C i off (l : list Z) : (forall x, off <= x < off + Z.of_nat (length l) -> fbyte C i x = rd l (x - off)) ->
  fbytes C i off (Z.of_nat (length l)) = l.
Proof.
  intros H. unfold fbytes. apply list_eq. intros j. rewrite list_lookup_fmap, Nat2Z.id. destruct (decide (j < length l)%nat).
  - rewrite lookup_seq_lt by done. cbn. rewrite H by lia. replace (off + Z.of_nat j - off) with (Z.of_nat j) by lia.
    rewrite <- (lookup_rd l) by lia. by rewrite Nat2Z.id.
  - rewrite lookup_seq_ge by lia. cbn. symmetry. apply lookup_ge_None. lia.
Qed.

Lemma wrote_linked s dp i C F c name inum j C' F' i' :
  dir s dp i C F c -> bytes name -> 0 <= inum < 2 ^ 16 -> 0 <= j <= nent i -> DIRENT * (j + 1) <= MAXFILE * BSIZE ->
  (j < nent i -> de_inum (dent C i j) = 0) ->
  wrote sb C F i (new_entry name inum) (DIRENT * j) C' F' i' -> linked C F i name inum j C' F' i'.
Proof.
  intros Hdir Hname Hi Hj Hmx Hfree Hw. destruct (new_entry_ok name inum Hname Hi) as (Hb & Hlen & Hin & Hnm).
  destruct (dir_size_eq _ _ _ _ _ _ Hdir) as (Hs & Hn0 & Hmax).
  assert (Hlz : Z.of_nat (length (new_entry name inum)) = DIRENT) by (by rewrite Hlen).
  assert (Hdent : dent C' i' j = new_entry name inum).
  { unfold dent. rewrite <- Hlz at 2. apply fbytes_list. intros x Hx. rewrite Hlz in Hx.
    rewrite (wr_bytes _ _ _ _ _ _ _ _ _ Hw) by (rewrite MAXFILE_eq in *; unfold DIRENT, BSIZE in *; lia).
    by rewrite decide_True by (rewrite Hlz; unfold DIRENT in *; lia). }
  split; [done|done| |by rewrite Hdent|].
  - unfold nent at 1. rewrite (wr_meta _ _ _ _ _ _ _ _ _ Hw). cbn [isize set_size]. rewrite Hlz, Hs.
    unfold DIRENT. destruct (Z.max_spec (nent i) (j + 1)) as [[? ->]|[? ->]].
    + rewrite Z.max_r by lia. replace (16 * j + 16) with ((j + 1) * 16) by lia. apply Z.div_mul. lia.
    + rewrite Z.max_l by lia. rewrite Z.mul_comm. apply Z.div_mul. lia.
  - intros j' Hj' Hne. apply fbytes_ext. intros x Hx.
    rewrite (wr_bytes _ _ _ _ _ _ _ _ _ Hw) by (rewrite MAXFILE_eq in *; unfold DIRENT, BSIZE in *; lia).
    apply decide_False. rewrite Hlz. unfold DIRENT in *. lia.
Qed.

Lemma wp_dirlink pid devread devwrite s dp i C F c name inum (P : Z -> state -> Prop) :
  dir s dp i C F (13 + c) -> inum_ok sb (Fs.inum i) -> bytes name -> 0 <= inum < 2 ^ 16 ->
  (forall j, 0 <= j < nent i -> ~ named_entry C i name j) -> isize i + DIRENT <= MAXFILE * BSIZE -> (4 <= size F)%nat ->
  (forall C' F' i' s' j, linked C F i name inum j C' F' i' -> fst_at sb s' dp i' C' c -> same_but dp i' s s' -> P 0 s') ->
  wp (dirlink pid devread devwrite dp name inum) P s.
Proof.
  intros Hdir Hnum Hname Hi Hno Hmx HF HP. unfold dirlink. apply wp_bind.
  pose proof (dr_at _ _ _ _ _ _ Hdir) as (Hsb & Hin & Hdev & Hv).
  destruct (dir_size_eq _ _ _ _ _ _ Hdir) as (Hs & Hn0 & Hmax).
  destruct (new_entry_ok name inum Hname Hi) as (Hb & Hlen & _ & _).
  eapply wp_dirlookup; [exact Hdir|done| |].
  2: { intros l j _ Hj Hn _. by destruct (Hno j Hj). }
  intros l Hv1 _. apply wp_bind. eapply wp_get_inode; [exact Hin|]. apply wp_bind.
  eapply (wp_dirlink_loop devread dp i C F (13 + c) (dir_fuel i) (set_io l s) 0); [by apply dir_io|lia|unfold dir_fuel; fold (nent i); lia|intros j; lia|].
  intros l2 j Hv2 Hj Hbefore Hfree. apply wp_bind. fold (new_entry name inum).
  assert (Hnb : (Z.to_nat (nblk (DIRENT * j) DIRENT) <= 2)%nat).
  { unfold nblk, DIRENT, BSIZE. cbn [Z.eqb]. pose proof (Z.mod_pos_bound (16 * j) 512 ltac:(lia)).
    assert ((16 * j mod 512 + 16 + (512 - 1)) / 512 <= 2) by (apply Z.lt_succ_r, Z.div_lt_upper_bound; lia). lia. }
  set (nb := Z.to_nat (nblk (DIRENT * j) DIRENT)) in *. set (s2 := set_io l2 (set_io l s)).
  assert (Hs2 : fst_at sb s2 dp i C (6 * nb + S ((12 - 6 * nb) + c))).
  { replace (6 * nb + S (12 - 6 * nb + c))%nat with (13 + c)%nat by lia. by split. }
  eapply (wp_writei sb Hl devwrite s2 dp i C F ((12 - 6 * nb) + c) _ (DIRENT * j) DIRENT); [exact Hs2|apply Hdir|apply Hdir|apply Hdir|done|by rewrite (dr_type _ _ _ _ _ _ Hdir)|exact Hb|by rewrite Hlen|unfold DIRENT in *; lia|unfold DIRENT in *; lia|lia|].
  intros C' F' i' s' Hw Hs' Hsame. rewrite Z.eqb_refl. apply wp_ret. apply (HP C' F' i' s' j).
  - eapply wrote_linked; [exact Hdir|done|done|lia|unfold DIRENT in *; lia|done|exact Hw].
  - by eapply fst_at_drop.
  - eapply same_but_trans; [|exact Hsame]. split; [|done]. cbn. by rewrite zinsert_id.
Qed.

End Dir.

End FsDir.

(** * The elements of a path

    [skipelem] takes a path apart into its elements, cut to DIRSIZ characters. *)

Import Fs FsDir.

Module FsPath.

(** The elements of a path: what is between its slashes, without the empty ones.
    [cur] is the element being read. *)
Fixpoint elems_from (cur p : list Z) : list (list Z) :=
  match p with
  | [] => match cur with [] => [] | _ => [cur] end
  | c :: p' =>
      if c =? SLASH then match cur with [] => elems_from [] p' | _ => cur :: elems_from [] p' end
      else elems_from (cur ++ [c]) p'
  end.

Definition elems (p : list Z) : list (list Z) := elems_from [] p.

(** The names that the loop of [namex] sees. *)
Fixpoint names (fuel : nat) (path name : list Z) : list (list Z) :=
  match skipelem path name with
  | None => []
  | Some (path', name') =>
      dname name' :: match fuel with O => [] | S f => names f path' name' end
  end.

(** A C string. *)
Definition cstring (p : list Z) : Prop := Forall (fun c => c <> 0) p.

Lemma skip_slashes_elems p : elems (skip_slashes p) = elems p.
Proof.
  induction p as [|c p IH]; [done|]. cbn [skip_slashes]. unfold elems in *. cbn [elems_from].
  destruct (Z.eqb_spec c SLASH) as [->|Hne]; [done|]. cbn [elems_from]. by rewrite (proj2 (Z.eqb_neq c SLASH) Hne).
Qed.

Lemma skip_slashes_head p : skip_slashes p = [] \/ exists c p', skip_slashes p = c :: p' /\ c <> SLASH.
Proof.
  induction p as [|c p IH]; [by left|]. cbn [skip_slashes]. destruct (Z.eqb_spec c SLASH); [done|]. right. by exists c, p.
Qed.

Lemma skip_slashes_cstring p : cstring p -> cstring (skip_slashes p) /\ (length (skip_slashes p) <= length p)%nat.
Proof.
  induction 1 as [|c p Hc Hp IH]; [by split; [constructor|]|]. cbn [skip_slashes].
  destruct (c =? SLASH); [destruct IH; split; [done|cbn; lia]|]. split; [by constructor|done].
Qed.

Lemma span_elem_spec p : cstring p ->
  let (s, r) := span_elem p in
  p = s ++ r /\ Forall (fun c => c <> SLASH) s /\ (r = [] \/ exists r', r = SLASH :: r').
Proof.
  induction 1 as [|c p Hc Hp IH]; [by split; [|split; [constructor|left]]|]. cbn [span_elem].
  rewrite (proj2 (Z.eqb_neq c 0) Hc). cbn [negb andb].
  destruct (Z.eqb_spec c SLASH) as [->|Hne]; cbn [negb andb].
  - split; [done|]. split; [constructor|]. right. by exists p.
  - destruct (span_elem p) as [s r]. destruct IH as (-> & Hs & Hr). split; [done|]. split; [by constructor|done].
Qed.

Lemma elems_from_span cur s r : Forall (fun c => c <> SLASH) s -> elems_from cur (s ++ r) = elems_from (cur ++ s) r.
Proof.
  intros Hs. revert cur. induction Hs as [|c s Hc Hs IH]; intros cur; [by rewrite app_nil_r|].
  cbn [app elems_from]. rewrite (proj2 (Z.eqb_neq c SLASH) Hc), IH. by rewrite <- app_assoc.
Qed.

Lemma elems_cons s r : s <> [] -> Forall (fun c => c <> SLASH) s -> (r = [] \/ exists r', r = SLASH :: r') ->
  elems (s ++ r) = s :: elems r.
Proof.
  intros Hne Hs Hr. unfold elems. rewrite elems_from_span by done. cbn [app].
  destruct s as [|c s]; [done|]. destruct Hr as [->|[r' ->]]; done.
Qed.

Lemma cname_take n : forall s, cstring s -> cname n s = take n s.
Proof.
  induction n as [|n IH]; intros s Hs; [done|]. destruct Hs as [|c s Hc Hs]; [done|]. cbn [cname ch tail take].
  rewrite (proj2 (Z.eqb_neq c 0) Hc). f_equal. by apply IH.
Qed.

Lemma cname_stop n : forall s r, cstring s -> (length s < n)%nat -> cname n (s ++ 0 :: r) = s.
Proof.
  induction n as [|n IH]; intros s r Hs Hn; [lia|]. destruct Hs as [|c s Hc Hs]; [done|]. cbn [app cname ch tail length] in *.
  rewrite (proj2 (Z.eqb_neq c 0) Hc). f_equal. apply IH; [done|lia].
Qed.

(** One step: the first element goes to [name], the rest is returned. *)
Lemma skipelem_spec path name : cstring path ->
  match skipelem path name with
  | None => elems path = []
  | Some (path', name') => exists s, elems path = s :: elems path' /\ dname name' = take (Z.to_nat DIRSIZ) s /\
      cstring path' /\ (length path' < length path)%nat
  end.
Proof.
  intros Hp. unfold skipelem. rewrite <- (skip_slashes_elems path).
  destruct (skip_slashes_cstring path Hp) as [Hp1 Hl1].
  destruct (skip_slashes_head path) as [E|(c & p & E & Hc)]; rewrite E in *; [done|].
  apply Forall_cons in Hp1 as [Hc0 Hp1]. cbn [ch]. rewrite (proj2 (Z.eqb_neq c 0) Hc0).
  pose proof (span_elem_spec (c :: p) ltac:(by constructor)) as Hspan.
  assert (Hs1 : exists s1 r1, span_elem (c :: p) = (c :: s1, r1)).
  { cbn [span_elem]. rewrite (proj2 (Z.eqb_neq c SLASH) Hc), (proj2 (Z.eqb_neq c 0) Hc0). cbn [negb andb].
    destruct (span_elem p) as [s1 r1]. eauto. }
  destruct Hs1 as (s1 & r1 & Es). rewrite Es in *. set (s := c :: s1) in *. destruct Hspan as (Esp & Hs & Hr).
  assert (Hcs : cstring s /\ cstring r1) by (apply Forall_app; rewrite <- Esp; by constructor). destruct Hcs as [Hcs Hcr].
  destruct (skip_slashes_cstring r1 Hcr) as [Hp2 Hl2].
  exists s. rewrite Esp, elems_cons by done. rewrite skip_slashes_elems. split; [done|]. split; [|split; [done|]].
  - destruct (Z.leb_spec DIRSIZ (Z.of_nat (length s))) as [Hlen|Hlen].
    + unfold dname. rewrite cname_take by (by apply Forall_take). by rewrite take_take, Nat.min_id.
    + unfold dname. cbn [app]. rewrite cname_stop by (done || (unfold DIRSIZ in *; lia)). rewrite take_ge; [done|unfold DIRSIZ in *; lia].
  - assert (length (c :: p) = length s + length r1)%nat by (rewrite Esp; apply length_app). cbn in *. lia.
Qed.

(** Taking a path apart with [skipelem] until it returns 0, as the loop of
    [namex] does, gives its elements: what stands between its slashes, in order,
    without the empty ones, each cut to DIRSIZ characters; whatever the array
    [name] held before. *)
Theorem skipelem_elements fuel path name :
  cstring path -> (length path <= fuel)%nat ->
  names fuel path name = map (take (Z.to_nat DIRSIZ)) (elems path).
Proof.
  revert path name. induction fuel as [|fuel IH]; intros path name Hp Hf; cbn [names];
    pose proof (skipelem_spec path name Hp) as Hs; destruct (skipelem path name) as [[path' name']|]; try by rewrite Hs.
  - destruct Hs as (s & _ & _ & _ & Hlt). lia.
  - destruct Hs as (s & -> & -> & Hp' & Hlt). cbn [map]. f_equal. apply IH; [done|lia].
Qed.

(** "///a//bb" has the elements "a" and "bb". *)
Lemma skipelem_elements_witness :
  names 8 [47; 47; 47; 97; 47; 47; 98; 98] (replicate 14 255) = [[97]; [98; 98]].
Proof.
  rewrite (skipelem_elements 8 [47; 47; 47; 97; 47; 47; 98; 98] (replicate 14 255)).
  - reflexivity.
  - repeat constructor; discriminate.
  - simpl. lia.
Defined.

End FsPath.
