(* ===== verification/FsImage.v ===== *)
(** * A file system image, and a kernel that runs on it

    A disk as mkfs lays it out (1000 blocks, 200 inodes), with an empty root
    directory and an empty file, and the state of the kernel after boot. *)

From Stdlib Require Import ZArith Lia.
From stdpp Require Import base numbers strings list gmap.
From S2P Require Import Prelude Block Bio BufView BlockIO Log LogSpec LogTx LogIO Fs FsBlk FsMap FsRw.

Open Scope Z_scope.

Import Block BufView BlockIO LogIO Fs FsBlk FsMap FsRw.

Module FsImage.

Definition sb0 : Log.superblock := Log.mksb 1000 941 200 30 2 32 58.

(** The root directory (inode 1) and the file (inode 2), in memory. *)
Definition root0 : inode := mkinode 1 1 1 false 0 true T_DIR 0 0 1 0 (replicate 13 0).
Definition file0 : inode := mkinode 1 2 1 false 0 true T_FILE 0 0 1 0 (replicate 13 0).
Definition free0 : inode := mkinode 0 0 0 false 0 false 0 0 0 0 0 (replicate 13 0).

Definition sb_block : block :=
  put32 24 58 (put32 20 32 (put32 16 2 (put32 12 30 (put32 8 200 (put32 4 941 (put32 0 1000 zero_block)))))).
Definition inode_block : block := dinode_store 128 file0 (dinode_store 64 root0 zero_block).
Definition bitmap_block : block := replicate 7 255 ++ [7] ++ replicate 504 0.

Definition img (b : Z) : block :=
  if b =? 1 then sb_block else if b =? 32 then inode_block else if b =? 58 then bitmap_block else zero_block.

(** The free blocks. *)
Definition free_blocks : gset Z := list_to_set (seqZ 59 941).

Lemma elem_of_free b : b ∈ free_blocks <-> 59 <= b < 1000.
Proof. unfold free_blocks. rewrite elem_of_list_to_set, elem_of_seqZ. lia. Qed.

Definition block_okb (b : block) : bool :=
  (length b =? 512)%nat && forallb (fun v => (0 <=? v) && (v <? 256)) b.

Lemma block_okb_ok b : block_okb b = true -> block_ok b.
Proof.
  unfold block_okb. intros [Hl%Nat.eqb_eq Hb]%andb_true_iff. split; [done|]. apply Forall_forall. intros v Hv.
  rewrite forallb_forall in Hb. apply list_elem_of_In in Hv. specialize (Hb v Hv).
  apply andb_true_iff in Hb as [H1%Z.leb_le H2%Z.ltb_lt]. lia.
Qed.

Lemma img_ok b : block_ok (img b).
Proof.
  apply block_okb_ok. unfold img. destruct (b =? 1); [vm_compute; reflexivity|]. destruct (b =? 32); [vm_compute; reflexivity|].
  destruct (b =? 58); vm_compute; reflexivity.
Qed.

Lemma img_used : forallb (fun b => Bool.eqb (used sb0 img b) (b <? 59)) (seqZ 0 1000) = true.
Proof. vm_compute. reflexivity. Qed.

Section Image.

Context (D : Z -> block) (W : list (Z * block)) (R : gset Z).

#[local] Instance booted_io : BlockIO Log.state := log_io 1 1000 2 30 D W R.

Lemma layout0 : layout sb0.
Proof.
  split; try done. intros b Hb. cbn. unfold LogSpec.home, fs_block in *. cbn in Hb. lia.
Qed.

Lemma disk0 C : (forall b, fs_block sb0 b -> C b = img b) -> disk sb0 C free_blocks.
Proof.
  intros HC. assert (H1 : C 1 = img 1) by (apply HC; by left). split.
  - intros b Hb. rewrite HC by done. apply img_ok.
  - rewrite H1. vm_compute. reflexivity.
  - intros b Hb%elem_of_free. unfold data. change (dstart sb0) with 59. cbn. lia.
  - intros b Hb. change (Log.sb_size sb0) with 1000 in Hb. unfold used. rewrite HC by (apply BBLOCK_fs; [apply layout0|done]).
    pose proof img_used as Hf. rewrite forallb_forall in Hf. specialize (Hf b). unfold used in Hf.
    specialize (Hf ltac:(apply list_elem_of_In, elem_of_seqZ; lia)). apply Bool.eqb_prop in Hf. rewrite Hf.
    destruct (Z.ltb_spec b 59).
    + rewrite bool_decide_eq_false_2; [done|]. rewrite elem_of_free. lia.
    + rewrite bool_decide_eq_true_2; [done|]. rewrite elem_of_free. lia.
Qed.

(** The state of fs.c: the root directory is entry 0, the file entry 1. *)
Definition fs0 (l : Log.state) : state := mkstate l sb0 false (root0 :: file0 :: replicate 48 free0).

Lemma no_addrs i n : addrs i = replicate 13 0 -> addr_of i n = 0.
Proof.
  intros E. unfold addr_of, zlookup. rewrite E. destruct (0 <=? n); [|done].
  destruct (replicate 13 0 !! Z.to_nat n) as [v|] eqn:Ev; [|done]. apply lookup_replicate in Ev as [-> _]. done.
Qed.

Lemma empty_file C F i : addrs i = replicate 13 0 -> isize i = 0 -> file sb0 C F i /\ full C i.
Proof.
  intros E Hs. pose proof (fun n => no_addrs i n E) as Hz.
  assert (HB : forall n, baddr C i n = 0) by (intros n; unfold baddr; rewrite !Hz; by destruct (n <? NDIRECT)).
  split.
  - split; [by rewrite E| | |].
    + intros b [Hb [Eb|(n & _ & Eb)]]; [by rewrite Hz in Eb|by rewrite HB in Eb].
    + intros m n _ _ Hne. by rewrite HB in Hne.
    + intros n _ Hne. by rewrite HB in Hne.
  - split; [rewrite Hs; done|]. intros n Hn. rewrite Hs. unfold BSIZE. lia.
Qed.

End Image.

(** A machine that booted from the image and began an operation. *)
Lemma booted_log R k : (base.size R + k <= 28)%nat ->
  exists l C D W, LogSpec.lview 1 1000 l ∅ C [] D W /\ Log.outstanding (Log.lg l) = 0 /\ Log.committing (Log.lg l) = false /\
    Log.start (Log.lg l) = 2 /\ Log.size (Log.lg l) = 30 /\ (forall b, fs_block sb0 b -> C b = img b) /\
    exists l', log_view 1 1000 2 30 D W R l' ∅ C ∅ k.
Proof.
  intros Hk.
  destruct (LogSpec.boot_spec 1 1000 2 30 img img) as (l & C & D & W & _ & Ho & Hc & Hst & Hsz & Hv & Hf & _).
  { apply LogTx.fresh_layout. } { split; vm_compute; reflexivity. } { lia. }
  { apply LogSpec.recovers_empty; [lia|vm_compute; reflexivity|reflexivity|reflexivity]. }
  exists l, C, D, W. split; [done|]. split; [done|]. split; [done|]. split; [done|]. split; [done|]. split.
  { intros b Hb. apply Hf. unfold LogSpec.home, fs_block in *. cbn in Hb. lia. }
  destruct l as [bb lg]. exists (Log.mkstate bb (Log.set_committing false (Log.set_outstanding 1 lg))).
  apply log_view_start; [by apply LogTx.lview_counters|done|done|done|done|done|]. lia.
Qed.

End FsImage.
