(* ===== verification/FsOp.v ===== *)
(** * Operations of the file system as transactions

    An operation runs between [begin_op] and [end_op] of log.c.  When its work
    keeps to the interface [BlockIO], it is atomic, and the log is idle again
    after it. *)

From Stdlib Require Import ZArith Lia.
From stdpp Require Import base numbers strings list gmap.
From S2P Require Import Prelude Block Bio BufView BlockIO Log LogSpec LogTx LogIO Fs FsBlk.

Open Scope Z_scope.

Import Block BufView BlockIO LogIO Fs FsBlk.

Module FsOp.

(** No operation runs: the contents of the blocks are [C], and nothing is
    logged. *)
Record idle (pid ds st sz : Z) (l : Log.state) (C D : Z -> block) (W : list (Z * block)) : Prop := {
  id_view : LogSpec.lview pid ds l ∅ C [] D W;
  id_start : Log.start (Log.lg l) = st;
  id_size : Log.size (Log.lg l) = sz;
  id_none : Log.outstanding (Log.lg l) = 0;
  id_commit : Log.committing (Log.lg l) = false
}.

(** After a crash at any of the writes [ws], recovery finds one of [P]. *)
Definition crash_safe (st sz ds : Z) (D : Z -> block) (ws : list (Z * block)) (P : (Z -> block) -> Prop) : Prop :=
  forall ws1, ws1 `prefix_of` ws -> exists C, P C /\ LogSpec.recovers st sz ds (LogSpec.apply_writes ws1 D) C.

(** An idle machine that crashes comes back as it is. *)
Lemma idle_recovers pid ds st sz l C D W : 1 <= sz -> idle pid ds st sz l C D W -> LogSpec.recovers st sz ds D C.
Proof.
  intros Hsz [Hv <- <- _ _]. apply LogSpec.recovers_empty; [done|apply Hv|apply Hv|].
  intros b _. symmetry. eapply bview_clean; [apply Hv|set_solver|set_solver].
Qed.

(** Sequences of operations. *)
Lemma crash_safe_nil st sz ds D (P : (Z -> block) -> Prop) C :
  LogSpec.recovers st sz ds D C -> P C -> crash_safe st sz ds D [] P.
Proof. intros Hr HP ws1 ->%prefix_nil_inv. by exists C. Qed.

Lemma crash_safe_app st sz ds D D' ws ws' (P P1 P2 : (Z -> block) -> Prop) :
  (forall x, D' x = LogSpec.apply_writes ws D x) -> crash_safe st sz ds D ws P1 -> crash_safe st sz ds D' ws' P2 ->
  (forall C, P1 C -> P C) -> (forall C, P2 C -> P C) -> crash_safe st sz ds D (ws ++ ws') P.
Proof.
  intros HD H1 H2 HP1 HP2 ws1 [Hp|(ws2 & -> & Hp)]%LogSpec.prefix_split.
  - destruct (H1 ws1 Hp) as (C & HC & Hr). eauto.
  - destruct (H2 ws2 Hp) as (C & HC & Hr). exists C. split; [auto|]. rewrite LogSpec.apply_app.
    eapply LogTx.recovers_ext; [exact Hr|]. intros x. apply LogTx.apply_writes_ext. intros y. by rewrite HD.
Qed.

(** An operation: [begin_op], the work, [end_op]. *)
Definition fs_op (pid ds : Z) {A} (m : ST (@state Log.state) A) : ST (@state Log.state) A :=
  onio Log.begin_op;; a ← m; onio (Log.end_op pid ds);; mret a.

Lemma run_onio {A} (m : ST Log.state A) (s : @state Log.state) a l :
  m (io s) = Ok (a, l) -> onio m s = Ok (a, set_io l s).
Proof. intros E. unfold onio, zoom. by rewrite E. Qed.

Lemma begin_op_spec pid ds st sz l C D W : idle pid ds st sz l C D W ->
  Log.begin_op l = Ok (tt, Log.mkstate (Log.bst l) (Log.set_committing false (Log.set_outstanding 1 (Log.lg l)))).
Proof.
  intros [Hv _ _ Hout Hcom]. pose proof (LogSpec.lv_n _ _ _ _ _ _ _ _ Hv) as Hn. destruct l as [b lg]. cbn [Log.lg length] in *.
  unfold Log.begin_op. rewrite LogSpec.run_get_log. cbn [Log.lg]. rewrite Hcom, Hn, Hout.
  change (Log.LOGSIZE <? Z.of_nat 0 + (0 + 1) * Log.MAXOPBLOCKS) with false. cbv iota. by destruct lg; cbn in *; subst.
Qed.

(** The end of an operation, which commits it. *)
Lemma end_op_spec pid ds st sz b l C bs D W :
  LogSpec.lview pid ds (Log.mkstate b l) ∅ C bs D W -> Log.start l = st -> Log.size l = sz ->
  Log.outstanding l = 1 -> Log.committing l = false ->
  exists s' ws C2 D2, Log.end_op pid ds (Log.mkstate b l) = Ok (tt, s') /\ idle pid ds st sz s' C2 D2 (W ++ ws) /\
    (forall b, LogSpec.home st sz ds b -> C2 b = C b) /\ (forall x, D2 x = LogSpec.apply_writes ws D x) /\
    crash_safe st sz ds D ws (fun C1 => C1 = D \/ C1 = C).
Proof.
  intros V <- <- Hout Hcom. set (l3 := Log.set_committing true (Log.set_outstanding 0 l)).
  pose proof (LogTx.lview_counters pid ds b l 0 true _ _ _ _ _ V) as V3.
  destruct (LogSpec.commit_spec pid ds _ _ _ _ _ V3) as (s4 & C4 & D4 & ws & R4 & Hlg & V4 & Hf & Hp & _ & Hap).
  destruct s4 as [b4 l4]. cbn [Log.lg] in Hlg. subst l4.
  exists (Log.mkstate b4 (Log.set_committing false (Log.set_n 0 l3))), ws, C4, D4. split; [|split; [|split; [|split]]].
  - unfold Log.end_op. rewrite (run_bind _ _ _ tt (Log.mkstate b (Log.set_outstanding 0 l)));
      [|unfold Log.upd_log, modify; cbn [Log.bst Log.lg]; by rewrite Hout]. rewrite LogSpec.run_get_log.
    cbn [Log.lg Log.committing Log.set_outstanding Log.outstanding]. rewrite Hcom. change (0 =? 0) with true. cbv iota.
    rewrite (run_bind _ _ _ tt (Log.mkstate b l3)) by (by destruct l). by rewrite (run_bind _ _ _ _ _ R4).
  - split; [|done..]. by apply (LogTx.lview_counters pid ds b4 _ 0 false) in V4.
  - intros x Hx. by apply Hf.
  - exact Hap.
  - intros ws1 Hp1. destruct (Hp ws1 Hp1); eauto.
Qed.

(** Work that keeps to the interface is atomic. *)
Lemma op_atomic pid ds st sz R k {A} (m : ST (@state Log.state) A) (s : @state Log.state) C D W
    (Post : A -> @state Log.state -> (Z -> block) -> Prop) :
  idle pid ds st sz (io s) C D W ->
  (base.size R + k <= max_logged)%nat -> Z.of_nat (base.size R + k) <= sz - 2 ->
  (forall l, log_view pid ds st sz D W R l ∅ C ∅ k ->
     wp m (fun a s' => exists C' k', log_view pid ds st sz D W R (io s') ∅ C' ∅ k' /\ Post a s' C') (set_io l s)) ->
  exists a s1 C' l ws C2 D2, fs_op pid ds m s = Ok (a, set_io l s1) /\ Post a s1 C' /\
    idle pid ds st sz l C2 D2 (W ++ ws) /\ (forall b, LogSpec.home st sz ds b -> C2 b = C' b) /\
    (forall x, D2 x = LogSpec.apply_writes ws D x) /\ crash_safe st sz ds D ws (fun C1 => C1 = C \/ C1 = C').
Proof.
  intros Hid HR HR' Hm. pose proof (begin_op_spec _ _ _ _ _ _ _ _ Hid) as Hbeg. destruct Hid as [Hv Hst Hsz Hout Hcom].
  destruct s as [[b lg] sb1 ick ins]. cbn [io Log.lg Log.bst] in *.
  assert (HCD : forall x, C x = D x) by (intros x; eapply bview_clean; [apply Hv|set_solver|set_solver]).
  set (l1 := Log.set_committing false (Log.set_outstanding 1 lg)) in *. set (s0 := mkstate _ _ _ _) in *.
  unfold fs_op. rewrite (run_bind _ _ _ _ _ (run_onio Log.begin_op s0 _ _ Hbeg)).
  assert (Hstart : log_view pid ds st sz D W R (Log.mkstate b l1) ∅ C ∅ k)
    by (apply log_view_start; [by apply LogTx.lview_counters|done|done|done|done|done|done]).
  pose proof (Hm _ Hstart) as Hwp. apply wp_Ok in Hwp as (a & s1 & Hrun & C' & k' & (bs & Hlio) & HPost).
  rewrite (run_bind _ _ _ _ _ Hrun). destruct Hlio as [V A1 A2 [A3 A4] _ _].
  destruct s1 as [[b2 l2] sb2 ick2 ins2]. cbn [io Log.lg] in *.
  destruct (end_op_spec pid ds st sz b2 l2 C' bs D W V A1 A2 A3 A4) as (l4 & ws & C2 & D2 & R4 & Hi4 & Hf & Hap & Hp).
  exists a, (mkstate (Log.mkstate b2 l2) sb2 ick2 ins2), C', l4, ws, C2, D2.
  split; [|split; [done|split; [done|split; [done|split; [done|]]]]].
  - by rewrite (run_bind _ _ _ tt (set_io l4 (mkstate (Log.mkstate b2 l2) sb2 ick2 ins2))) by (by apply run_onio).
  - intros ws1 Hp1. destruct (Hp ws1 Hp1) as (C1 & [->| ->] & K); [exists C|by exists C'; split; [right|]].
    split; [by left|]. destruct K as [K1 K2 K3]. split; [done|done|]. intros x Hx. rewrite HCD. by apply K3.
Qed.

End FsOp.
