(* ===== verification/FsThm.v ===== *)
(** * What the file system promises

    The theorems on files, directories, blocks and inodes, for any layer below
    that keeps the contract [BlockIO], and the atomicity of a write under
    crashes on log.c itself.  The witnesses run on the image of [FsImage]. *)

From Stdlib Require Import ZArith Lia.
From stdpp Require Import base numbers strings list gmap.
From S2P Require Import Prelude Block Bio BufView BlockIO Log LogSpec LogTx LogIO Fs FsBlk FsMap FsRw FsTrunc FsInode FsDir FsImage FsOp.

Open Scope Z_scope.

Import Block BufView BlockIO LogIO Fs FsBlk FsMap FsRw FsTrunc FsInode FsDir FsImage FsOp.

Module FsThm.

#[local] Opaque zero_block free_blocks img.

Section Props.

Context {L : Type} `{!BlockIO L}.

Local Abbreviation state := (@state L).

(** C5: [writei] within the size of a file (or at its end, up to MAXFILE
    blocks), with room for its blocks in the log and on the disk, returns the
    number of bytes.  Afterwards the file has the new bytes in their place and
    its old bytes elsewhere, and the size covers them; its blocks are its old
    ones and some that were free; no other block changes but the bitmap and,
    in the inode block, the bytes of this inode, which agree with the inode in
    memory. *)
Theorem writei_correct sb devwrite (s : state) ip i C F k src off n :
  let nb := Z.to_nat (nblk off n) in
  layout sb -> fst_at sb s ip i C (6 * nb + S k) -> disk sb C F -> file sb C F i -> full C i ->
  inum_ok sb (inum i) -> itype i <> T_DEV -> bytes src -> Z.of_nat (length src) = n -> 0 <= off <= isize i ->
  off + n <= MAXFILE * BSIZE -> (2 * nb <= size F)%nat ->
  exists s' C' F' i', writei devwrite ip src off n s = Ok (n, s') /\ wrote sb C F i src off C' F' i' /\
    fst_at sb s' ip i' C' k /\ same_but ip i' s s'.
Proof.
  intros nb Hl Hs Hd Hf Hfu Hn Ht Hb Hlen Ho Hmax HF.
  assert (Hwp : wp (writei devwrite ip src off n) (fun r s' => r = n /\ exists C' F' i', wrote sb C F i src off C' F' i' /\
    fst_at sb s' ip i' C' k /\ same_but ip i' s s') s).
  { eapply wp_writei; eauto. intros C' F' i' s' H1 H2 H3. split; [done|]. by exists C', F', i'. }
  apply wp_Ok in Hwp as (r & s' & Hrun & -> & C' & F' & i' & H). by exists s', C', F', i'.
Qed.

(** A read returns what was written: [readi] of the range that [writei]
    just wrote returns its bytes. *)
Theorem writei_readi_roundtrip sb devread devwrite (s : state) ip i C F k src off n :
  let nb := Z.to_nat (nblk off n) in
  layout sb -> fst_at sb s ip i C (6 * nb + S k) -> disk sb C F -> file sb C F i -> full C i ->
  inum_ok sb (inum i) -> itype i <> T_DEV -> bytes src -> Z.of_nat (length src) = n -> 0 <= off <= isize i ->
  off + n <= MAXFILE * BSIZE -> (2 * nb <= size F)%nat ->
  exists s', (writei devwrite ip src off n;; readi devread ip off n) s = Ok ((n, src), s').
Proof.
  intros nb Hl Hs Hd Hf Hfu Hn Ht Hb Hlen Ho Hmax HF.
  assert (Hwp : wp (writei devwrite ip src off n;; readi devread ip off n) (fun r _ => r = (n, src)) s).
  { apply wp_bind. eapply wp_writei; eauto. intros C' F' i' s' Hw Hs' _.
    pose proof (wr_meta _ _ _ _ _ _ _ _ _ Hw) as Hmeta. rewrite MAXFILE_eq in Hmax. unfold BSIZE in Hmax.
    assert (Hsz : isize i' = Z.max (isize i) (off + n)) by (rewrite Hmeta; cbn; by rewrite Hlen).
    eapply wp_readi; [done|exact Hs'|apply Hw|apply Hw|apply Hw|by rewrite Hmeta|lia|lia|lia|].
    intros l _. rewrite Z.min_l by lia. f_equal. rewrite <- Hlen. apply fbytes_list. intros x Hx.
    rewrite (wr_bytes _ _ _ _ _ _ _ _ _ Hw) by (rewrite MAXFILE_eq; unfold BSIZE; lia). by rewrite decide_True. }
  apply wp_Ok in Hwp as (r & s' & Hrun & ->). by exists s'.
Qed.

(** [balloc] returns a block that was free, marked as used and zeroed, and
    changes nothing else; it panics exactly when no block is free. *)
Theorem balloc_correct sb (s : state) C F k :
  layout sb -> Fs.sb s = sb -> io_view (io s) ∅ C ∅ (S (S k)) -> disk sb C F ->
  (F <> ∅ -> exists b l, balloc 1 s = Ok (b, set_io l s) /\ b ∈ F /\ io_view l ∅ (alloc sb b C) ∅ k /\
     disk sb (alloc sb b C) (F ∖ {[b]}) /\
     (forall b', b' <> b -> ~ bitmap sb b' -> alloc sb b C b' = C b') /\ alloc sb b C b = zero_block) /\
  (F = ∅ -> balloc 1 s = Panic "balloc: out of blocks").
Proof.
  intros Hl Hsb Hv Hd. assert (Hh : forall G, held_ok sb ∅ G) by (intros G; split; [rewrite map_size_empty; lia|done]).
  split.
  - intros HF. assert (Hwp : wp (balloc 1) (fun b s' => exists l, s' = set_io l s /\ b ∈ F /\ io_view l ∅ (alloc sb b C) ∅ k) s).
    { eapply wp_balloc; [done|exact Hsb|exact Hv|exact Hd|apply Hh|done|]. intros c l Hc Hv'. by exists l. }
    apply wp_Ok in Hwp as (b & s' & Hrun & l & -> & Hb & Hv'). exists b, l. split; [done|]. split; [done|]. split; [done|].
    split; [by apply disk_alloc|]. split; [|apply fupd_eq]. intros b' Hne Hb'. by eapply alloc_other.
  - intros ->. unfold balloc. rewrite (run_bind get_sb _ s sb s) by (unfold get_sb; by rewrite <- Hsb).
    pose proof (l_size _ Hl) as Hs. eapply balloc_loop_full; [done|done|exact Hv|exact Hd|apply Hh|lia|done|].
    unfold BPB, BSIZE. change (512 * 8) with 4096. rewrite Z2Nat.id by (apply Z.add_nonneg_nonneg; [apply Z.div_pos; lia|lia]).
    pose proof (Z.mod_pos_bound (Log.sb_size sb) 4096 ltac:(lia)). pose proof (Z.div_mod (Log.sb_size sb) 4096 ltac:(lia)). lia.
Qed.

(** C35: when the last reference to a file without links is dropped, [iput]
    frees exactly the blocks of the file and the inode on the disk (its type
    becomes 0), leaves every other block and inode alone, and the cache entry is
    free and invalid. *)
Theorem iput_frees_unlinked sb pid (s : state) ip i C F k :
  layout sb -> (forall b, data sb b -> io_reserved (BBLOCK b sb)) -> io_reserved (IBLOCK (inum i) sb) ->
  fst_at sb s ip i C k -> disk sb C F -> file sb C F i -> inum_ok sb (inum i) -> inode_ok i ->
  iclock s = false -> ilocked i = false -> valid i = true -> nlink i = 0 -> ref i = 1 ->
  exists l C' F' i', iput pid ip s = Ok (tt, set_in ip i' (set_io l s)) /\ io_view l ∅ C' ∅ k /\ disk sb C' F' /\
    (forall b, b ∈ F' <-> b ∈ F \/ own C i b) /\ ref i' = 0 /\ valid i' = false /\
    s16 (get16 (C' (IBLOCK (inum i) sb)) (ioff (inum i))) = 0 /\
    (forall b, ~ bitmap sb b -> b <> IBLOCK (inum i) sb -> C' b = C b) /\
    (forall j, ~ (ioff (inum i) <= j < ioff (inum i) + DINODE) ->
       rd (C' (IBLOCK (inum i) sb)) j = rd (C (IBLOCK (inum i) sb)) j).
Proof.
  intros Hl Hres Hrib Hs Hd Hf Hn Hok Hc Hk Hva Hnl Hrf.
  assert (Hwp : wp (iput pid ip) (fun _ s' => exists C1 F' i1 l, freed sb C F (set_ilock true pid i) C1 F' i1 /\
      io_view l ∅ (iupdated sb (set_type 0 i1) C1) ∅ k /\
      s' = set_in ip (set_ref 0 (set_ilock false 0 (set_valid false (set_type 0 i1)))) (set_io l s)) s).
  { eapply (wp_iput_last sb Hl pid s ip i C F k k k); try done; [by right..|]. intros C1 F' i1 l H1 H2. by exists C1, F', i1, l. }
  apply wp_Ok in Hwp as ([] & s' & Hrun & C1 & F' & i1 & l & Hfr & Hv & ->).
  pose proof (fr_meta _ _ _ _ _ _ _ Hfr) as Hmeta. assert (Hnum : inum (set_type 0 i1) = inum i) by (by rewrite Hmeta).
  pose proof (IBLOCK_range sb Hl (inum i) Hn) as Hr. assert (Hib : ~ bitmap sb (IBLOCK (inum i) sb)) by (unfold bitmap; lia).
  assert (Hok0 : inode_ok (set_ilock true pid i)) by (by destruct Hok).
  destruct (fr_sync _ _ _ _ _ _ _ Hfr Hok0) as [Hok1 _]. assert (Hok2 : inode_ok (set_type 0 i1)) by (destruct Hok1; by split).
  assert (Hd' : disk sb (iupdated sb (set_type 0 i1) C1) F').
  { apply disk_inode; [done|apply Hfr|by rewrite Hnum|]. apply dinode_store_ok, (d_ok _ _ _ (fr_disk _ _ _ _ _ _ _ Hfr)), (IBLOCK_fs sb Hl). by rewrite Hnum. }
  eexists l, _, F', _. split; [exact Hrun|]. split; [exact Hv|]. split; [done|]. split; [|split; [done|split; [done|split; [|split]]]].
  - intros b. rewrite (fr_free _ _ _ _ _ _ _ Hfr). done.
  - pose proof (iupdated_synced sb Hl C1 F' _ (fr_disk _ _ _ _ _ _ _ Hfr) ltac:(by rewrite Hnum) Hok2) as Hsy.
    unfold synced in Hsy. rewrite Hnum in Hsy. by apply (f_equal itype) in Hsy.
  - intros b H1 H2. unfold iupdated. rewrite fupd_ne by (by rewrite Hnum). by apply (fr_frame _ _ _ _ _ _ _ Hfr).
  - intros j Hj. unfold iupdated. rewrite Hnum, fupd_eq, rd_dinode_store; [|apply Hfr|exact Hj]. by apply (fr_inodes _ _ _ _ _ _ _ Hfr).
Qed.

(** [iget] returns the cache entry of the inode: the one that refers to it,
    with one reference more, or a free entry that it takes over, not valid and
    with one reference.  All other entries stay, and the cache keeps at most one
    entry per inode.  It panics exactly when the inode is not cached and no
    entry is free. *)
Theorem iget_correct (s : state) d n :
  icache s ->
  (room s d n -> exists ip i i', iget d n s = Ok (ip, set_in ip i' s) /\ zlookup (inodes s) ip = Some i /\
     got d n i i' /\ refers d n i' /\ icache (set_in ip i' s)) /\
  (~ room s d n -> iget d n s = Panic "iget: no inodes").
Proof.
  intros Hic. split; [|apply iget_full, Hic]. intros Hroom.
  assert (Hwp : wp (iget d n) (fun ip s' => exists i i', s' = set_in ip i' s /\ zlookup (inodes s) ip = Some i /\
     got d n i i' /\ refers d n i' /\ icache (set_in ip i' s)) s).
  { apply wp_iget; [done|done|]. intros ip i i' Hi Hg Hno. exists i, i'. split; [done|]. split; [done|]. split; [done|].
    by destruct (got_icache s d n ip i i' Hic Hi Hg Hno). }
  apply wp_Ok in Hwp as (ip & s' & Hrun & i & i' & -> & H). by exists ip, i, i'.
Qed.

(** An entry whose identity and reference count did not change. *)
Lemma same_but_icache (s s' : state) ip i i' d n :
  icache s -> zlookup (inodes s) ip = Some i -> same_but ip i' s s' -> ref i' = ref i -> idev i' = idev i -> inum i' = inum i ->
  room s d n -> icache s' /\ room s' d n.
Proof.
  intros Hic Hi (E1 & E2 & E3) Hr Hdv Hnm (jp & j & Hj & Hroom).
  assert (Hs' : inodes s' = inodes (set_in ip i' s) /\ iclock s' = iclock (set_in ip i' s)) by done. destruct Hs' as [Hin' Hc'].
  assert (Href : forall d n, refers d n i' <-> refers d n i) by (intros d' n'; unfold refers; by rewrite Hr, Hdv, Hnm).
  split.
  - assert (Hset : icache (set_in ip i' s)).
    { eapply icache_set; [done|done|rewrite Hr; by eapply ic_ref|]. intros d' n' H. left. by apply Href. }
    destruct Hset as [H1 H2 H3 H4]. split; [congruence|congruence| |]; rewrite Hin'; done.
  - destruct (decide (jp = ip)) as [->|Hne].
    + exists ip, i'. rewrite E1, zlookup_zinsert_eq by (by eapply zlookup_lt). split; [done|]. simplify_eq. rewrite Href, Hr. done.
    + exists jp, j. by rewrite E1, zlookup_zinsert_ne.
Qed.

(** A name that is linked is found: after [dirlink] of a name that the
    directory does not have, [dirlookup] of the name returns the inode linked,
    at the offset of a free entry or of the old end of the directory; all other
    entries are as before. *)
Theorem dirlink_dirlookup_roundtrip sb pid devread devwrite (s : state) dp i C F c name n :
  layout sb -> dir sb s dp i C F (13 + c) -> inum_ok sb (inum i) -> bytes name -> 0 < n < 2 ^ 16 ->
  (forall j, 0 <= j < nent i -> ~ named_entry C i name j) -> isize i + DIRENT <= MAXFILE * BSIZE -> (4 <= size F)%nat ->
  icache s -> room s 1 n ->
  exists ip off s' C' F' i', (dirlink pid devread devwrite dp name n;; dirlookup devread dp name) s = Ok (Some (ip, off), s') /\
    linked sb C F i name n (off / DIRENT) C' F' i' /\ off mod DIRENT = 0 /\
    (exists e, zlookup (inodes s') ip = Some e /\ refers 1 n e).
Proof.
  intros Hl Hdir Hnum Hname Hn Hno Hmx HF Hic Hroom.
  assert (Hwp : wp (dirlink pid devread devwrite dp name n;; dirlookup devread dp name)
    (fun r s' => exists ip off C' F' i', r = Some (ip, off) /\ linked sb C F i name n (off / DIRENT) C' F' i' /\
       off mod DIRENT = 0 /\ exists e, zlookup (inodes s') ip = Some e /\ refers 1 n e) s).
  { apply wp_bind. eapply wp_dirlink; [done|exact Hdir|done|done|lia|exact Hno|done|done|].
    intros C' F' i' s1 j Hln Hs1 Hsame. pose proof (dr_at _ _ _ _ _ _ _ Hdir) as (_ & Hin & Hdev & _).
    pose proof Hln as [[Hj _] Hw Hcnt [Hen Hnm] Hold]. pose proof (wr_meta _ _ _ _ _ _ _ _ _ Hw) as Hmeta.
    destruct (dir_size_eq _ _ _ _ _ _ _ Hdir) as (Hsz & Hn0 & _).
    assert (Hlen : length (new_entry name n) = Z.to_nat DIRENT) by (apply new_entry_ok; [done|lia]).
    assert (Hdir' : dir sb s1 dp i' C' F' c).
    { split; [done|apply Hw|apply Hw|apply Hw|rewrite Hmeta; exact (dr_type _ _ _ _ _ _ _ Hdir)|]. rewrite Hmeta. cbn [isize set_size]. rewrite Hlen, Hsz.
      change (Z.of_nat (Z.to_nat DIRENT)) with 16. unfold DIRENT. split; [|lia].
      destruct (Z.max_spec (16 * nent i) (16 * j + 16)) as [[_ ->]|[_ ->]]; Z.to_euclidean_division_equations; lia. }
    destruct (same_but_icache s s1 dp i i' 1 n Hic Hin Hsame) as [Hic1 Hroom1]; [by rewrite Hmeta..|done|].
    assert (Honly : forall j', 0 <= j' < nent i' -> named_entry C' i' name j' -> j' = j).
    { intros j' Hj' [H1 H2]. destruct (decide (j' = j)); [done|]. exfalso. apply (Hno j'); [lia|].
      unfold named_entry. rewrite <- Hold by lia. done. }
    eapply wp_dirlookup; [done|exact Hdir'|done| |].
    - intros l _ Hnone. destruct (Hnone j); [lia|]. split; [lia|done].
    - intros l j' Hv' Hj' Hnamed _. apply Honly in Hnamed as ->; [|done]. rewrite Hen.
      assert (Hic2 : icache (set_io l s1)) by (by destruct Hic1).
      apply wp_iget; [done|done|]. intros ip e e' He Hg Hnoref. exists ip, (DIRENT * j), C', F', i'. split; [done|].
      replace (DIRENT * j / DIRENT) with j by (rewrite Z.mul_comm, Z.div_mul; done). split; [done|].
      split; [rewrite Z.mul_comm; by apply Z.mod_mul|]. exists e'. split; [by eapply set_in_lookup|].
      by eapply got_icache. }
  apply wp_Ok in Hwp as (r & s' & Hrun & ip & off & C' & F' & i' & -> & H). by exists ip, off, s', C', F', i'.
Qed.

End Props.

(** A write of a file is atomic.  On a machine with an empty log, an
    operation that writes at most four blocks of a file succeeds, and after a
    crash at any of the disk writes that it makes, recovery finds either the
    file system as it was before or the one in which the file has all the new
    bytes (and the new size, blocks and bitmap). *)
Theorem write_atomic pid ds st sz sb devwrite (s : @state Log.state) ip i C D W F src off n :
  let nb := Z.to_nat (nblk off n) in
  idle pid ds st sz (io s) C D W ->
  layout (BlockIO0 := log_io pid ds st sz D W ∅) sb -> Fs.sb s = sb -> zlookup (inodes s) ip = Some i -> idev i = 1 ->
  disk sb C F -> file sb C F i -> full C i -> inum_ok sb (inum i) -> itype i <> T_DEV ->
  bytes src -> Z.of_nat (length src) = n -> 0 <= off <= isize i -> off + n <= MAXFILE * BSIZE ->
  (2 * nb <= size F)%nat -> (nb <= 4)%nat -> 27 <= sz ->
  exists s' C' F' i' C2 D2 ws, fs_op pid ds (writei (BlockIO0 := log_io pid ds st sz D W ∅) devwrite ip src off n) s = Ok (n, s') /\
    zlookup (inodes s') ip = Some i' /\ wrote sb C F i src off C' F' i' /\ idle pid ds st sz (io s') C2 D2 (W ++ ws) /\
    (forall b, LogSpec.home st sz ds b -> C2 b = C' b) /\ crash_safe st sz ds D ws (fun C1 => C1 = C \/ C1 = C').
Proof.
  intros nb Hid Hl Hsb Hin Hdev Hd Hf Hfu Hnum Ht Hb Hlen Ho Hmax HF Hnb Hlog.
  destruct (op_atomic pid ds st sz ∅ (6 * nb + 1) (writei (BlockIO0 := log_io pid ds st sz D W ∅) devwrite ip src off n) s C D W
    (fun a s1 C' => a = n /\ exists F' i', zlookup (inodes s1) ip = Some i' /\ wrote sb C F i src off C' F' i'))
    as (a & s1 & C' & l & ws & C2 & D2 & Hrun & (-> & F' & i' & Hi' & Hw) & Hid' & Hf2 & _ & Hcr); try done.
  - rewrite size_empty. unfold max_logged. lia.
  - rewrite size_empty. lia.
  - intros l Hlv. eapply (wp_writei (BlockIO0 := log_io pid ds st sz D W ∅) sb Hl devwrite (set_io l s) ip i C F 0); try done.
    intros C' F' i' s' Hw (_ & Hi' & _ & Hv') _. exists C', 0%nat. split; [exact Hv'|]. split; [done|]. by exists F', i'.
  - exists (set_io l s1), C', F', i', C2, D2, ws. split; [exact Hrun|]. done.
Qed.

(** ** Witnesses *)

Lemma free_size : size free_blocks = 941%nat.
Proof.
  #[local] Transparent free_blocks. unfold free_blocks. rewrite size_list_to_set by apply NoDup_seqZ. apply length_seqZ.
Qed.

#[local] Opaque free_blocks.


(** The file of the image with a number of links, in entry 1 of the cache. *)
Definition fs1 (nl : Z) (l : Log.state) : @state Log.state :=
  mkstate l sb0 false (root0 :: set_nlink nl file0 :: replicate 48 free0).

Lemma booted_fs R k : (base.size R + k <= 28)%nat ->
  exists C D W l, log_view 1 1000 2 30 D W R l ∅ C ∅ k /\ disk sb0 C free_blocks.
Proof.
  intros Hk. destruct (booted_log R k Hk) as (_ & C & D & W & _ & _ & _ & _ & _ & HC & l & Hv). exists C, D, W, l.
  split; [exact Hv|]. by apply (disk0 D W R).
Qed.

Lemma fs1_lookup nl l ip i : zlookup (inodes (fs1 nl l)) ip = Some i ->
  (ip = 0 /\ i = root0) \/ (ip = 1 /\ i = set_nlink nl file0) \/ i = free0.
Proof.
  unfold zlookup, fs1, inodes. destruct (Z.leb_spec 0 ip) as [Hip|]; [|done].
  destruct (decide (ip = 0)) as [->|]; [by intros [= <-]; left|]. destruct (decide (ip = 1)) as [->|]; [by intros [= <-]; right; left|].
  replace (Z.to_nat ip) with (S (S (Z.to_nat (ip - 2)))) by lia. cbn [lookup list_lookup].
  intros [-> _]%lookup_replicate. by right; right.
Qed.

Lemma icache1 nl l : icache (fs1 nl l).
Proof.
  split; [done|done| |].
  - intros ip i [[-> ->]|[[-> ->]| ->]]%fs1_lookup; cbn; lia.
  - intros ip jp i j d n Hi Hj. apply fs1_lookup in Hi, Hj. unfold refers.
    destruct Hi as [[-> ->]|[[-> ->]| ->]], Hj as [[-> ->]|[[-> ->]| ->]]; cbn; lia.
Qed.

Lemma file1_at R D W C l k : log_view 1 1000 2 30 D W R l ∅ C ∅ k ->
  fst_at (BlockIO0 := log_io 1 1000 2 30 D W R) sb0 (fs1 1 l) 1 file0 C k.
Proof. intros Hv. by repeat split. Qed.

Lemma inum2 : inum_ok sb0 2.
Proof. split; [done|reflexivity]. Qed.

Lemma bytes3 : bytes [1; 2; 3].
Proof. unfold bytes. repeat constructor; lia. Qed.


Lemma nodev_ne : itype file0 <> T_DEV.
Proof. done. Qed.

Local Abbreviation io0 D W R := (log_io 1 1000 2 30 D W R).

Lemma writei_correct_witness : exists D W C F i (s s' : @state Log.state) C' F' i',
  writei (BlockIO0 := io0 D W ∅) (fun _ => None) 1 [1; 2; 3] 0 3 s = Ok (3, s') /\ wrote sb0 C F i [1; 2; 3] 0 C' F' i'.
Proof.
  destruct (booted_fs ∅ 8) as (C & D & W & l & Hv & Hd); [rewrite size_empty; lia|].
  destruct (empty_file C free_blocks file0) as [Hf Hfu]; [done..|].
  destruct (writei_correct (BlockIO0 := io0 D W ∅) sb0 (fun _ => None) (fs1 1 l) 1 file0 C free_blocks 1 [1; 2; 3] 0 3)
    as (s' & C' & F' & i' & H1 & H2 & _);
    [apply layout0|by apply file1_at|done|done|done|apply inum2|apply nodev_ne|apply bytes3|done|cbn; lia|rewrite MAXFILE_eq; unfold BSIZE, DIRENT; cbn; lia|rewrite free_size; change (nblk 0 3) with 1; lia|].
  by exists D, W, C, free_blocks, file0, (fs1 1 l), s', C', F', i'.
Defined.

Lemma writei_readi_roundtrip_witness : exists D W (s s' : @state Log.state),
  (writei (BlockIO0 := io0 D W ∅) (fun _ => None) 1 [1; 2; 3] 0 3;; readi (BlockIO0 := io0 D W ∅) (fun _ => None) 1 0 3) s = Ok ((3, [1; 2; 3]), s').
Proof.
  destruct (booted_fs ∅ 8) as (C & D & W & l & Hv & Hd); [rewrite size_empty; lia|].
  destruct (empty_file C free_blocks file0) as [Hf Hfu]; [done..|].
  destruct (writei_readi_roundtrip (BlockIO0 := io0 D W ∅) sb0 (fun _ => None) (fun _ => None) (fs1 1 l) 1 file0 C free_blocks 1 [1; 2; 3] 0 3)
    as (s' & H);
    [apply layout0|by apply file1_at|done|done|done|apply inum2|apply nodev_ne|apply bytes3|done|cbn; lia|rewrite MAXFILE_eq; unfold BSIZE, DIRENT; cbn; lia|rewrite free_size; change (nblk 0 3) with 1; lia|].
  by exists D, W, (fs1 1 l), s'.
Defined.

Lemma balloc_correct_witness : exists D W (s : @state Log.state) b l,
  balloc (BlockIO0 := io0 D W ∅) 1 s = Ok (b, set_io l s) /\ b ∈ free_blocks.
Proof.
  destruct (booted_fs ∅ 2) as (C & D & W & l & Hv & Hd); [rewrite size_empty; lia|].
  destruct (balloc_correct (BlockIO0 := io0 D W ∅) sb0 (fs1 1 l) C free_blocks 0) as [H _]; [apply layout0|done|done|done|].
  destruct H as (b & l' & H1 & H2 & _); [|exists D, W, (fs1 1 l), b, l'; split; [exact H1|exact H2]].
  intros E. pose proof free_size as Hs. rewrite E, size_empty in Hs. discriminate Hs.
Defined.

Lemma iput_frees_unlinked_witness : exists D W (s : @state Log.state) l i',
  iput (BlockIO0 := io0 D W {[58; 32]}) 7 1 s = Ok (tt, set_in 1 i' (set_io l s)) /\ ref i' = 0.
Proof.
  destruct (booted_fs {[58; 32]} 0) as (C & D & W & l & Hv & Hd); [vm_compute; lia|].
  destruct (empty_file C free_blocks (set_nlink 0 file0)) as [Hf _]; [done..|].
  destruct (iput_frees_unlinked (BlockIO0 := io0 D W {[58; 32]}) sb0 7 (fs1 0 l) 1 (set_nlink 0 file0) C free_blocks 0)
    as (l' & C' & F' & i' & H1 & _ & _ & _ & H2 & _);
    [apply layout0| | |by repeat split|done|done|apply inum2| |done..|exists D, W, (fs1 0 l), l', i'; split; [exact H1|exact H2]].
  - intros b [Hb0 Hb]. change (dstart sb0) with 59 in Hb0. change (Log.sb_size sb0) with 1000 in Hb.
    assert (E : BBLOCK b sb0 = 58) by (unfold BBLOCK, BPB, BSIZE; rewrite Z.div_small by lia; reflexivity).
    rewrite E. apply elem_of_union_l, elem_of_singleton_2. reflexivity.
  - apply elem_of_union_r, elem_of_singleton_2. reflexivity.
  - split; [by vm_compute..|]. split; [done|]. cbn. repeat constructor; lia.
Defined.

Lemma iget_correct_witness : exists (s : @state Log.state) ip i', iget 1 2 s = Ok (ip, set_in ip i' s).
Proof.
  destruct (booted_fs ∅ 0) as (C & D & W & l & _); [rewrite size_empty; lia|].
  destruct (iget_correct (fs1 1 l) 1 2 (icache1 1 l)) as [(ip & i & i' & H & _) _];
    [|exists (fs1 1 l), ip, i'; exact H].
  exists 1, file0. split; [done|]. left. repeat split.
Defined.

Lemma dirlink_dirlookup_roundtrip_witness : exists D W (s s' : @state Log.state) ip off,
  (dirlink (BlockIO0 := io0 D W ∅) 7 (fun _ => None) (fun _ => None) 0 [97] 2;;
   dirlookup (BlockIO0 := io0 D W ∅) (fun _ => None) 0 [97]) s = Ok (Some (ip, off), s').
Proof.
  destruct (booted_fs ∅ 13) as (C & D & W & l & Hv & Hd); [rewrite size_empty; lia|].
  destruct (empty_file C free_blocks root0) as [Hf Hfu]; [done..|].
  destruct (dirlink_dirlookup_roundtrip (BlockIO0 := io0 D W ∅) sb0 7 (fun _ => None) (fun _ => None) (fs1 1 l) 0 root0 C free_blocks 0 [97] 2)
    as (ip & off & s' & _ & _ & _ & H & _);
    [apply layout0|split; [by repeat split|done|done|done|done|done]|split; [done|reflexivity]|unfold bytes; repeat constructor; lia|lia| |
     rewrite MAXFILE_eq; unfold BSIZE, DIRENT; cbn; lia|rewrite free_size; lia|apply icache1| |exists D, W, (fs1 1 l), s', ip, off; exact H].
  - intros j Hj. change (nent root0) with 0 in Hj. lia.
  - exists 1, file0. split; [done|]. left. repeat split.
Defined.

Lemma write_atomic_witness : exists D W C (s s' : @state Log.state) C' ws,
  fs_op 1 1000 (writei (BlockIO0 := io0 D W ∅) (fun _ => None) 1 [1; 2; 3] 0 3) s = Ok (3, s') /\
  crash_safe 2 30 1000 D ws (fun C1 => C1 = C \/ C1 = C').
Proof.
  destruct (booted_log ∅ 0) as (l & C & D & W & Hv & H1 & H2 & H3 & H4 & HC & _); [rewrite size_empty; lia|].
  destruct (empty_file C free_blocks file0) as [Hf Hfu]; [done..|].
  destruct (write_atomic 1 1000 2 30 sb0 (fun _ => None) (fs1 1 l) 1 file0 C D W free_blocks [1; 2; 3] 0 3)
    as (s' & C' & F' & i' & C2 & D2 & ws & Hr & _ & _ & _ & _ & Hc);
    [by split|apply layout0|done|done|done|by apply (disk0 D W ∅)|done|done|apply inum2|apply nodev_ne|apply bytes3|done|
     cbn; lia|rewrite MAXFILE_eq; unfold BSIZE, DIRENT; cbn; lia|rewrite free_size; change (nblk 0 3) with 1; lia|change (nblk 0 3) with 1; lia|lia|].
  exists D, W, C, (fs1 1 l), s', C', ws. split; [exact Hr|exact Hc].
Defined.

End FsThm.
