(* ===== verification/FsWrote.v ===== *)
(** * Sequences of writes

    The relation [wrote] of one [writei] is closed under composition and under
    changes outside the file system, and a file has at most 141 blocks. *)

From Stdlib Require Import ZArith Lia.
From stdpp Require Import base numbers strings list gmap.
From S2P Require Import Prelude Block BlockIO Log Fs FsBlk FsMap FsRw.

Open Scope Z_scope.

Import Block BlockIO Fs FsBlk FsMap FsRw.

Module FsWrote.

Lemma size_of_list (l : list Z) : (size (list_to_set l : gset Z) <= length l)%nat.
Proof.
  induction l as [|a l IH]; [done|]. cbn [list_to_set length]. rewrite size_union_alt, size_singleton.
  pose proof (subseteq_size ((list_to_set l : gset Z) ∖ {[a]}) (list_to_set l) ltac:(set_solver)). lia.
Qed.

(** ** The number of blocks of a file *)

Definition own_set (C : Z -> block) (i : inode) : gset Z :=
  list_to_set (addr_of i NDIRECT :: map (baddr C i) (seqZ 0 MAXFILE)).

Lemma own_set_in C i b : own C i b -> b ∈ own_set C i.
Proof.
  intros [_ [->|(n & Hn & ->)]]; unfold own_set; apply elem_of_list_to_set; [by left|right].
  apply list_elem_of_fmap. exists n. split; [done|]. apply elem_of_seqZ. unfold bn_ok in Hn. lia.
Qed.

Lemma own_set_size C i : (size (own_set C i) <= 141)%nat.
Proof.
  unfold own_set. etrans; [apply size_of_list|]. cbn [length]. rewrite length_fmap, length_seqZ. done.
Qed.

(** Of the blocks [F0] those that are not free any more are blocks of the file. *)
Definition spent (F0 : gset Z) (C : Z -> block) (F : gset Z) (i : inode) : Prop :=
  F ⊆ F0 /\ forall b, b ∈ F0 -> b ∉ F -> own C i b.

Lemma spent_size F0 C F i : spent F0 C F i -> (size F0 <= size F + 141)%nat.
Proof.
  intros [Hs Hb]. assert (HF : F0 ⊆ F ∪ own_set C i).
  { intros b H0. destruct (decide (b ∈ F)) as [|Hn]; [set_solver|]. apply elem_of_union_r. by apply own_set_in, Hb. }
  apply subseteq_size in HF. rewrite size_union_alt in HF. pose proof (own_set_size C i).
  pose proof (subseteq_size (own_set C i ∖ F) (own_set C i) ltac:(set_solver)). lia.
Qed.

Lemma rd_app_l (l1 l2 : list Z) j : 0 <= j < Z.of_nat (length l1) -> rd (l1 ++ l2) j = rd l1 j.
Proof. intros Hj. unfold rd, zlookup. destruct (0 <=? j); [|done]. by rewrite lookup_app_l by lia. Qed.

Lemma rd_app_r (l1 l2 : list Z) j : Z.of_nat (length l1) <= j -> rd (l1 ++ l2) j = rd l2 (j - Z.of_nat (length l1)).
Proof.
  intros Hj. unfold rd, zlookup. rewrite !(proj2 (Z.leb_le 0 _)) by lia. rewrite lookup_app_r by lia. do 2 f_equal. lia.
Qed.

Lemma wrote_refl sb C F i off : disk sb C F -> file sb C F i -> full C i -> 0 <= off <= isize i -> wrote sb C F i [] off C F i.
Proof.
  intros Hd Hf Hfu Ho. split; try done.
  - cbn. rewrite Z.max_l by lia. by destruct i.
  - intros x _. rewrite decide_False; [done|]. cbn. lia.
  - intros b. set_solver.
Qed.

Lemma wrote_trans sb C F i s1 off C1 F1 i1 s2 C2 F2 i2 : inum_ok sb (inum i) -> 0 <= off ->
  wrote sb C F i s1 off C1 F1 i1 -> wrote sb C1 F1 i1 s2 (off + Z.of_nat (length s1)) C2 F2 i2 ->
  wrote sb C F i (s1 ++ s2) off C2 F2 i2.
Proof.
  intros Hnum Hoff [A1 A2 A3 A4 A5 A6 A7 A8 A9 A10] [B1 B2 B3 B4 B5 B6 B7 B8 B9 B10].
  assert (Hn1 : inum i1 = inum i) by (by rewrite A4). rewrite Hn1 in *. split; try done.
  - rewrite length_app. etrans; [exact B4|]. assert (E : isize i1 = Z.max (isize i) (off + Z.of_nat (length s1))) by (by rewrite A4).
    rewrite E. generalize (addrs i2). intros a. rewrite A4. unfold set_size, set_addrs. cbn. f_equal. lia.
  - intros x Hx. rewrite B5, length_app by done. destruct (decide (off + Z.of_nat (length s1) <= x < _)) as [Hin|Hin].
    + rewrite decide_True by lia. rewrite rd_app_r by lia. f_equal. lia.
    + rewrite A5 by done. destruct (decide (off <= x < off + Z.of_nat (length s1))) as [H1|H1].
      * rewrite decide_True by lia. by rewrite rd_app_l by lia.
      * by rewrite decide_False by lia.
  - set_solver.
  - intros b. rewrite B7, A7. destruct (decide (b ∈ F1)), (decide (b ∈ F2)); set_solver.
  - intros b Hb H1 H2 H3 H4. rewrite B8; [by apply A8|done| |set_solver|done|done]. rewrite A7. set_solver.
  - intros j Hj. rewrite B9 by done. by apply A9.
  - intros H1 H2. destruct (A10 H1 H2). by apply B10.
Qed.

Lemma spent_wrote sb F0 C F i src off C' F' i' : spent F0 C F i -> wrote sb C F i src off C' F' i' -> spent F0 C' F' i'.
Proof.
  intros [Hs Hb] Hw. pose proof (wr_sub _ _ _ _ _ _ _ _ _ Hw). split; [set_solver|]. intros b H0 H1.
  apply (wr_own _ _ _ _ _ _ _ _ _ Hw). destruct (decide (b ∈ F)); [by right|left; by apply Hb].
Qed.

Section Wrote.

Context {L : Type} `{!BlockIO L} (sb : Log.superblock) (Hl : layout sb).

(** Two disks with the same file system. *)
Definition agree (C C' : Z -> block) : Prop := forall b, fs_block sb b -> C' b = C b.

Lemma disk_agree C C' F : disk sb C F -> agree C C' -> disk sb C' F.
Proof.
  intros [H1 H2 H3 H4] HC. split; [| |done|].
  - intros b Hb. rewrite HC by done. by apply H1.
  - rewrite HC by (by left). done.
  - intros b Hb. unfold used. rewrite HC by (by apply (BBLOCK_fs sb Hl)). by apply H4.
Qed.

Lemma own_fs C F i b : file sb C F i -> own C i b -> fs_block sb b.
Proof. intros Hf Hb. apply (data_fs sb Hl). by apply (f_own _ _ _ _ Hf). Qed.

Lemma wrote_agree C F i src off C' F' i' C2 : inum_ok sb (inum i) ->
  wrote sb C F i src off C' F' i' -> agree C' C2 -> wrote sb C F i src off C2 F' i'.
Proof.
  intros Hn [W1 W2 W3 W4 W5 W6 W7 W8 W9 W10] HC. pose proof (IBLOCK_fs sb Hl _ Hn) as HI.
  destruct (file_ext sb C' C2 F' i' W2) as (Hf & HB & Hby & Ho); [intros b Hb; by apply HC, (own_fs C' F' i')|].
  assert (Hn' : inum i' = inum i) by (by rewrite W4). split; [by eapply disk_agree|done| |done| |done| | | |].
  - destruct W3 as [Hs Hm]. split; [done|]. intros n Hn0 Hn1. rewrite HB; [by apply Hm|].
    unfold bn_ok, BSIZE in *. lia.
  - intros x Hx. rewrite Hby by done. by apply W5.
  - intros b. rewrite Ho. apply W7.
  - intros b Hb H1 H2 H3 H4. rewrite HC by done. by apply W8.
  - intros j Hj. rewrite HC by done. by apply W9.
  - intros H1 H2. destruct (W10 H1 H2) as [H3 H4]. split; [done|]. unfold synced in *. rewrite Hn' in *. by rewrite HC.
Qed.

(** ** The lock of the inode does not matter *)

Lemma synced_lock C l p i : synced sb C (set_ilock l p i) <-> synced sb C i.
Proof.
  unfold synced, dinode_load, set_ilock. destruct i. cbn [idev inum ref ilocked ilpid valid itype major minor nlink isize addrs].
  split; intros H; injection H as H1 H2 H3 H4 H5 H6; by f_equal.
Qed.

Lemma wrote_lock C F l p i src off C' F' i' : ilocked i = false -> ilpid i = 0 ->
  wrote sb C F (set_ilock l p i) src off C' F' i' -> wrote sb C F i src off C' F' (set_ilock false 0 i').
Proof.
  intros H1 H2 [W1 W2 W3 W4 W5 W6 W7 W8 W9 W10]. split; try done.
  - destruct W2. by split.
  - rewrite W4. destruct i; cbn in *; by subst.
  - intros Hok Hsy. destruct W10 as [Hok' Hsy']; [by destruct Hok|by apply synced_lock|].
    split; [by destruct Hok'|by apply synced_lock].
Qed.

End Wrote.

End FsWrote.
