(* ===== verification/Spin.v ===== *)
(** * Spin locks and the state of the processors (kern/locking/spinlock.c)

    The processors, with their interrupt flag, and the spin locks, by address.
    Code is run by processor [c]; [lapicid] is what the local APIC of each
    processor answers.  A spin on a lock that another processor holds blocks.
    The call stacks recorded in [pcs] for debugging are left out. *)

From Stdlib Require Import ZArith Lia.
From stdpp Require Import base numbers strings list gmap.
From S2P Require Import Prelude.

Open Scope Z_scope.

Module Spin.

(** Where the scheduler of a processor is (the loop of [scheduler] in proc.cc):
    outside its critical section, at entry [i] of the table, switching to
    process [i], suspended while process [i] runs, or just back from it. *)
Inductive spos := S_top | S_scan (i : Z) | S_enter (i : Z) | S_run (i : Z) | S_back (i : Z).

(** [struct cpu], with the interrupt flag and the page directory register of
    the processor and the position of its scheduler thread; [esp0] is the
    kernel stack pointer in its task state. *)
Record cpu := mkcpu {
  apicid : Z;
  ncli : Z;
  intena : bool;
  cproc : option Z;
  c_if : bool;
  pos : spos;
  cr3 : Z;
  esp0 : Z
}.

Definition set_ncli (v : Z) (k : cpu) : cpu := mkcpu (apicid k) v (intena k) (cproc k) (c_if k) (pos k) (cr3 k) (esp0 k).
Definition set_intena (v : bool) (k : cpu) : cpu := mkcpu (apicid k) (ncli k) v (cproc k) (c_if k) (pos k) (cr3 k) (esp0 k).
Definition set_cproc (v : option Z) (k : cpu) : cpu := mkcpu (apicid k) (ncli k) (intena k) v (c_if k) (pos k) (cr3 k) (esp0 k).
Definition set_if (v : bool) (k : cpu) : cpu := mkcpu (apicid k) (ncli k) (intena k) (cproc k) v (pos k) (cr3 k) (esp0 k).
Definition set_pos (v : spos) (k : cpu) : cpu := mkcpu (apicid k) (ncli k) (intena k) (cproc k) (c_if k) v (cr3 k) (esp0 k).

Definition set_vm (d sp : Z) (k : cpu) : cpu := mkcpu (apicid k) (ncli k) (intena k) (cproc k) (c_if k) (pos k) d sp.

(** [struct spinlock]. *)
Record spinlock := mklock { locked : Z; lcpu : option Z }.

Record mach := mkmach { cpus : list cpu; locks : gmap Z spinlock }.

Definition set_cpu (c : Z) (k : cpu) (m : mach) : mach := mkmach (zinsert c k (cpus m)) (locks m).
Definition set_lock (lk : Z) (l : spinlock) (m : mach) : mach := mkmach (cpus m) (<[lk := l]> (locks m)).

Definition get_cpu (c : Z) : ST mach cpu :=
  m ← get; match zlookup (cpus m) c with Some k => mret k | None => fault end.

Definition upd_cpu (c : Z) (f : cpu -> cpu) : ST mach unit :=
  k ← get_cpu c; modify (set_cpu c (f k)).

Definition get_lock (lk : Z) : ST mach spinlock :=
  m ← get; match locks m !! lk with Some l => mret l | None => fault end.

Section Code.

Variable lapicid : Z -> Z.
Variable c : Z.

(** The flag FL_IF of the processor. *)
Definition readeflags : ST mach bool := k ← get_cpu c; mret (c_if k).
Definition cli : ST mach unit := upd_cpu c (set_if false).
Definition sti : ST mach unit := upd_cpu c (set_if true).

Fixpoint find_cpu (l : list cpu) (id i : Z) : option Z :=
  match l with
  | [] => None
  | k :: l' => if apicid k =? id then Some i else find_cpu l' id (i + 1)
  end.

Definition mycpu : ST mach Z :=
  e ← readeflags;
  if e : bool then panic "mycpu called with interrupts enabled\n"
  else
    m ← get;
    match find_cpu (cpus m) (lapicid c) 0 with
    | Some i => mret i
    | None => panic "unknown apicid\n"
    end.

Definition cpuid : ST mach Z := mycpu.

Definition pushcli : ST mach unit :=
  eflags ← readeflags;
  cli;;
  i ← mycpu;
  k ← get_cpu i;
  (if ncli k =? 0 then j ← mycpu; upd_cpu j (set_intena eflags) else mret tt);;
  j ← mycpu;
  upd_cpu j (fun k => set_ncli (ncli k + 1) k).

Definition popcli : ST mach unit :=
  e ← readeflags;
  if e : bool then panic "popcli - interruptible"
  else
    i ← mycpu;
    upd_cpu i (fun k => set_ncli (ncli k - 1) k);;
    k ← get_cpu i;
    if ncli k <? 0 then panic "popcli"
    else
      j ← mycpu;
      k ← get_cpu j;
      if (ncli k =? 0) && intena k then sti else mret tt.

Definition initlock (lk : Z) : ST mach unit := modify (set_lock lk (mklock 0 None)).

Definition holding (lk : Z) : ST mach bool :=
  pushcli;;
  l ← get_lock lk;
  r ← (if locked l =? 0 then mret false
       else i ← mycpu; mret (bool_decide (lcpu l = Some i)));
  popcli;;
  mret r.

Definition acquire (lk : Z) : ST mach unit :=
  pushcli;;
  h ← holding lk;
  if h : bool then panic "acquire"
  else
    l ← get_lock lk;
    if negb (locked l =? 0) then blocked
    else
      modify (set_lock lk (mklock 1 (lcpu l)));;
      i ← mycpu;
      modify (set_lock lk (mklock 1 (Some i))).

Definition release (lk : Z) : ST mach unit :=
  h ← holding lk;
  if negb h then panic "release"
  else
    modify (set_lock lk (mklock 1 None));;
    modify (set_lock lk (mklock 0 None));;
    popcli.

End Code.

(** ** Equations *)

Lemma set_cpu_twice c k k' m : set_cpu c k (set_cpu c k' m) = set_cpu c k m.
Proof. unfold set_cpu. cbn. by rewrite zinsert_twice. Qed.

Lemma set_cpu_same c k m : zlookup (cpus m) c = Some k -> set_cpu c k m = m.
Proof. intros E. unfold set_cpu. rewrite zinsert_id by done. by destruct m. Qed.

Definition pushed (k : cpu) : cpu :=
  mkcpu (apicid k) (ncli k + 1) (if ncli k =? 0 then c_if k else intena k) (cproc k) false (pos k) (cr3 k) (esp0 k).

Definition popped (k : cpu) : cpu :=
  mkcpu (apicid k) (ncli k - 1) (intena k) (cproc k) (if (ncli k - 1 =? 0) && intena k then true else c_if k) (pos k) (cr3 k) (esp0 k).

Lemma popped_pushed k : 1 <= ncli k -> c_if k = false -> popped (pushed k) = k.
Proof.
  intros Hn Hif. unfold popped, pushed. cbn. destruct (Z.eqb_spec (ncli k) 0); [lia|].
  replace (ncli k + 1 - 1) with (ncli k) by lia. rewrite (proj2 (Z.eqb_neq _ _)) by lia. destruct k; cbn in *. by subst.
Qed.

Lemma popped_pushed0 k : ncli k = 0 -> popped (pushed k) = set_intena (c_if k) k.
Proof.
  intros Hn. unfold popped, pushed, set_intena. cbn. rewrite Hn. cbn. by destruct (c_if k).
Qed.

(** The states after [acquire] and [release]. *)
Definition acquired (c lk : Z) (k : cpu) (m : mach) : mach := set_lock lk (mklock 1 (Some c)) (set_cpu c (pushed k) m).
Definition released (c lk : Z) (k : cpu) (m : mach) : mach := set_cpu c (popped k) (set_lock lk (mklock 0 None) m).

(** The locks that processor [c] holds. *)
Definition held (m : mach) (c : Z) : gset Z := dom (filter (fun x => lcpu x.2 = Some c) (locks m)).

Lemma elem_of_held m c lk : lk ∈ held m c <-> exists l, locks m !! lk = Some l /\ lcpu l = Some c.
Proof.
  unfold held. rewrite elem_of_dom. unfold is_Some. setoid_rewrite map_lookup_filter_Some. done.
Qed.

Lemma held_pos m c lk : lk ∈ held m c -> (0 < size (held m c))%nat.
Proof.
  intros Hin. destruct (decide (size (held m c) = 0%nat)) as [H0|]; [|lia].
  apply size_empty_inv in H0. rewrite H0 in Hin. by apply not_elem_of_empty in Hin.
Qed.

Lemma held_acquired c lk k m l c' : locks m !! lk = Some l -> lcpu l = None ->
  held (acquired c lk k m) c' = if decide (c' = c) then held m c' ∪ {[lk]} else held m c'.
Proof.
  intros El Hn. apply set_eq. intros x. destruct (decide (c' = c)) as [->|Hne].
  - rewrite elem_of_union, elem_of_singleton, !elem_of_held. cbn. destruct (decide (x = lk)) as [->|Hx].
    + rewrite lookup_insert_eq. naive_solver.
    + rewrite lookup_insert_ne by done. naive_solver.
  - rewrite !elem_of_held. cbn. destruct (decide (x = lk)) as [->|Hx].
    + rewrite lookup_insert_eq. split; [by intros (? & [= <-] & [= ->])|]. intros (l' & E' & F'). congruence.
    + by rewrite lookup_insert_ne.
Qed.

Lemma held_released c lk k m c' : lk ∈ held m c ->
  held (released c lk k m) c' = if decide (c' = c) then held m c' ∖ {[lk]} else held m c'.
Proof.
  intros Hin. apply elem_of_held in Hin as (l & El & Hl). apply set_eq. intros x.
  destruct (decide (c' = c)) as [->|Hne]; [rewrite elem_of_difference, elem_of_singleton|]; rewrite !elem_of_held; cbn;
    (destruct (decide (x = lk)) as [->|Hx]; [rewrite lookup_insert_eq|by rewrite lookup_insert_ne; naive_solver]).
  - split; [by intros (? & [= <-] & ?)|]. naive_solver.
  - split; [by intros (? & [= <-] & ?)|]. intros (l' & E' & F'). congruence.
Qed.

Section Spec.

Variable lapicid : Z -> Z.

(** The table of processors is right. *)
Definition cpus_ok (m : mach) : Prop :=
  (forall i k, zlookup (cpus m) i = Some k -> apicid k = lapicid i) /\
  (forall i j, 0 <= i < Z.of_nat (length (cpus m)) -> 0 <= j < Z.of_nat (length (cpus m)) -> lapicid i = lapicid j -> i = j).

Lemma cpus_ok_set m c k k' : cpus_ok m -> zlookup (cpus m) c = Some k -> apicid k' = apicid k -> cpus_ok (set_cpu c k' m).
Proof.
  intros [H1 H2] E Ea. pose proof (zlookup_lt _ _ _ E) as Hr. split; cbn.
  - intros i k1. destruct (decide (i = c)) as [->|].
    + rewrite zlookup_zinsert_eq by done. intros [= <-]. rewrite Ea. by apply H1.
    + rewrite zlookup_zinsert_ne by done. apply H1.
  - rewrite length_zinsert. done.
Qed.

Lemma cpus_ok_lock m lk l : cpus_ok m -> cpus_ok (set_lock lk l m).
Proof. done. Qed.

Lemma find_cpu_spec l id i0 c k :
  (forall i j ki kj, zlookup l i = Some ki -> zlookup l j = Some kj -> apicid ki = apicid kj -> i = j) ->
  zlookup l c = Some k -> apicid k = id -> find_cpu l id i0 = Some (i0 + c).
Proof.
  revert i0 c. induction l as [|k0 l IH]; intros i0 c Hinj Hc Hid; [by unfold zlookup in Hc; destruct (0 <=? c)|].
  cbn. destruct (decide (c = 0)) as [->|Hne].
  - injection Hc as <-. rewrite Hid, Z.eqb_refl. f_equal. lia.
  - destruct (Z.eqb_spec (apicid k0) id) as [E|E].
    + exfalso. apply Hne. apply (Hinj c 0 k k0 Hc); [done|congruence].
    + pose proof (zlookup_lt _ _ _ Hc) as Hr.
      assert (Hs : forall j (x : cpu), 0 <= j -> zlookup (k0 :: l) (j + 1) = zlookup l j).
      { intros j _ Hj. unfold zlookup. rewrite !(proj2 (Z.leb_le 0 _)) by lia. by replace (Z.to_nat (j + 1)) with (S (Z.to_nat j)) by lia. }
      rewrite (IH (i0 + 1) (c - 1)); [f_equal; lia| | |done].
      * intros i j ki kj Hi Hj Eij. pose proof (zlookup_lt _ _ _ Hi). pose proof (zlookup_lt _ _ _ Hj).
        assert (i + 1 = j + 1); [|lia]. apply (Hinj _ _ ki kj); [by rewrite Hs by (done || lia)|by rewrite Hs by (done || lia)|done].
      * rewrite <- Hs by (done || lia). by replace (c - 1 + 1) with c by lia.
Qed.

Lemma run_get_cpu {B} c k (f : cpu -> ST mach B) m :
  zlookup (cpus m) c = Some k -> (get_cpu c ≫= f) m = f k m.
Proof. intros E. unfold get_cpu. cbn. unfold mbind, ST_bind, get. by rewrite E. Qed.

Lemma upd_cpu_eq c f k m : zlookup (cpus m) c = Some k -> upd_cpu c f m = Ok (tt, set_cpu c (f k) m).
Proof. intros E. unfold upd_cpu. by rewrite (run_get_cpu _ k). Qed.

Lemma lookup_set_cpu c k m : (exists k0, zlookup (cpus m) c = Some k0) -> zlookup (cpus (set_cpu c k m)) c = Some k.
Proof. intros [k0 E]. cbn. apply zlookup_zinsert_eq. by eapply zlookup_lt. Qed.

Lemma mycpu_spec c k m : cpus_ok m -> zlookup (cpus m) c = Some k -> c_if k = false -> mycpu lapicid c m = Ok (c, m).
Proof.
  intros [H1 H2] E Hif. unfold mycpu.
  rewrite (run_bind _ _ _ false m) by (unfold readeflags; by rewrite (run_get_cpu _ k), Hif).
  rewrite run_get, (find_cpu_spec _ _ _ c k); [done| |done|by apply H1].
  intros i j ki kj Hi Hj Eij. apply H2; [by eapply zlookup_lt..|]. by rewrite <- (H1 _ _ Hi), <- (H1 _ _ Hj).
Qed.

Lemma mycpu_on m0 c k0 k m : cpus_ok m0 -> zlookup (cpus m0) c = Some k0 -> m = set_cpu c k m0 -> apicid k = apicid k0 ->
  c_if k = false -> mycpu lapicid c m = Ok (c, m).
Proof.
  intros Hok E -> Ha Hif. eapply mycpu_spec; [by eapply cpus_ok_set|apply lookup_set_cpu; eauto|done].
Qed.

Lemma pushcli_spec c k m : cpus_ok m -> zlookup (cpus m) c = Some k -> pushcli lapicid c m = Ok (tt, set_cpu c (pushed k) m).
Proof.
  intros Hok E. unfold pushcli, readeflags, cli.
  rewrite (run_bind _ _ _ (c_if k) m) by (by rewrite (run_get_cpu _ k)).
  rewrite (run_bind _ _ _ _ _ (upd_cpu_eq c _ k m E)). set (k1 := set_if false k).
  assert (L1 : forall k', zlookup (cpus (set_cpu c k' m)) c = Some k') by (intros k'; apply lookup_set_cpu; eauto).
  assert (M1 : forall k', apicid k' = apicid k -> c_if k' = false -> mycpu lapicid c (set_cpu c k' m) = Ok (c, set_cpu c k' m))
    by (intros k' A B; by eapply mycpu_on).
  rewrite (run_bind _ _ _ _ _ (M1 k1 eq_refl eq_refl)), (run_get_cpu _ k1) by apply L1. cbn [ncli k1 set_if].
  destruct (Z.eqb_spec (ncli k) 0) as [E0|E0].
  - rewrite (run_bind _ _ _ tt (set_cpu c (set_intena (c_if k) k1) m)).
    + rewrite (run_bind _ _ _ _ _ (M1 (set_intena (c_if k) k1) eq_refl eq_refl)), (upd_cpu_eq c _ (set_intena (c_if k) k1)) by apply L1.
      rewrite set_cpu_twice. unfold pushed. by rewrite (proj2 (Z.eqb_eq _ _) E0).
    + rewrite (run_bind _ _ _ _ _ (M1 k1 eq_refl eq_refl)), (upd_cpu_eq c _ k1) by apply L1. by rewrite set_cpu_twice.
  - rewrite (run_bind _ _ _ tt (set_cpu c k1 m)) by done. rewrite (run_bind _ _ _ _ _ (M1 k1 eq_refl eq_refl)), (upd_cpu_eq c _ k1) by apply L1.
    rewrite set_cpu_twice. unfold pushed. by rewrite (proj2 (Z.eqb_neq _ _) E0).
Qed.

Lemma popcli_spec c k m : cpus_ok m -> zlookup (cpus m) c = Some k -> c_if k = false -> 1 <= ncli k ->
  popcli lapicid c m = Ok (tt, set_cpu c (popped k) m).
Proof.
  intros Hok E Hif Hn. unfold popcli, readeflags, sti.
  rewrite (run_bind _ _ _ (c_if k) m) by (by rewrite (run_get_cpu _ k)). rewrite Hif.
  rewrite (run_bind _ _ _ _ _ (mycpu_spec c k m Hok E Hif)), (run_bind _ _ _ _ _ (upd_cpu_eq c _ k m E)).
  set (k1 := set_ncli (ncli k - 1) k).
  assert (L1 : forall k', zlookup (cpus (set_cpu c k' m)) c = Some k') by (intros k'; apply lookup_set_cpu; eauto).
  rewrite (run_get_cpu _ k1) by apply L1. cbn [ncli k1 set_ncli]. rewrite (proj2 (Z.ltb_ge _ _)) by lia.
  rewrite (run_bind _ _ _ c (set_cpu c k1 m)) by (eapply mycpu_on; [done|done|done|done|done]).
  rewrite (run_get_cpu _ k1) by apply L1. cbn [ncli intena k1 set_ncli].
  destruct ((ncli k - 1 =? 0) && intena k) eqn:Eb.
  - rewrite (upd_cpu_eq c _ k1) by apply L1. rewrite set_cpu_twice. unfold popped. by rewrite Eb.
  - unfold mret, ST_ret, popped. rewrite Eb. by destruct k; cbn in *; subst.
Qed.

Lemma run_get_lock {B} lk l (f : spinlock -> ST mach B) m :
  locks m !! lk = Some l -> (get_lock lk ≫= f) m = f l m.
Proof. intros E. unfold get_lock. unfold mbind, ST_bind, get. by rewrite E. Qed.

(** The lock is held by processor [c]. *)
Definition held_by (l : spinlock) (c : Z) : bool := negb (locked l =? 0) && bool_decide (lcpu l = Some c).

Lemma holding_spec c k m lk l : cpus_ok m -> zlookup (cpus m) c = Some k -> locks m !! lk = Some l -> 0 <= ncli k ->
  holding lapicid c lk m = Ok (held_by l c, set_cpu c (popped (pushed k)) m).
Proof.
  intros Hok E El Hn. unfold holding. rewrite (run_bind _ _ _ _ _ (pushcli_spec c k m Hok E)).
  rewrite (run_get_lock _ l) by done. set (m1 := set_cpu c (pushed k) m).
  assert (L1 : zlookup (cpus m1) c = Some (pushed k)) by (apply lookup_set_cpu; eauto).
  assert (Hok1 : cpus_ok m1) by (by eapply cpus_ok_set).
  rewrite (run_bind _ _ _ (held_by l c) m1).
  - rewrite (run_bind _ _ _ _ _ (popcli_spec c (pushed k) m1 Hok1 L1 eq_refl ltac:(cbn; lia))). unfold m1. by rewrite set_cpu_twice.
  - unfold held_by. destruct (locked l =? 0); [done|]. by rewrite (run_bind _ _ _ _ _ (mycpu_spec c (pushed k) m1 Hok1 L1 eq_refl)).
Qed.

Lemma set_lock_twice lk l l' m : set_lock lk l (set_lock lk l' m) = set_lock lk l m.
Proof. unfold set_lock. cbn. by rewrite insert_insert_eq. Qed.

Lemma acquire_spec c k m lk l : cpus_ok m -> zlookup (cpus m) c = Some k -> locks m !! lk = Some l -> 0 <= ncli k ->
  acquire lapicid c lk m =
    if held_by l c then Panic "acquire" else if locked l =? 0 then Ok (tt, acquired c lk k m) else Blocked.
Proof.
  intros Hok E El Hn. unfold acquire. rewrite (run_bind _ _ _ _ _ (pushcli_spec c k m Hok E)).
  set (m1 := set_cpu c (pushed k) m).
  assert (L1 : zlookup (cpus m1) c = Some (pushed k)) by (apply lookup_set_cpu; eauto).
  assert (Hok1 : cpus_ok m1) by (by eapply cpus_ok_set).
  rewrite (run_bind _ _ _ _ _ (holding_spec c (pushed k) m1 lk l Hok1 L1 El ltac:(cbn; lia))).
  rewrite popped_pushed by (cbn; lia || done). rewrite set_cpu_same by done. destruct (held_by l c); [done|].
  rewrite (run_get_lock _ l) by done. destruct (Z.eqb_spec (locked l) 0); [|done]. cbn [negb].
  rewrite (run_bind _ _ _ tt (set_lock lk (mklock 1 (lcpu l)) m1)) by done.
  rewrite (run_bind _ _ _ c (set_lock lk (mklock 1 (lcpu l)) m1)) by (by apply (mycpu_spec c (pushed k))).
  unfold modify, acquired. by rewrite set_lock_twice.
Qed.

Lemma release_spec c k m lk l : cpus_ok m -> zlookup (cpus m) c = Some k -> locks m !! lk = Some l -> 0 <= ncli k ->
  (held_by l c = true -> c_if k = false /\ 1 <= ncli k) ->
  release lapicid c lk m = if held_by l c then Ok (tt, released c lk k m) else Panic "release".
Proof.
  intros Hok E El Hn Hh. unfold release. rewrite (run_bind _ _ _ _ _ (holding_spec c k m lk l Hok E El Hn)).
  destruct (held_by l c); [|done]. destruct (Hh eq_refl) as [Hif Hn1]. cbn [negb].
  rewrite popped_pushed, set_cpu_same by done.
  rewrite (run_bind _ _ _ tt (set_lock lk (mklock 1 None) m)) by done.
  rewrite (run_bind _ _ _ tt (set_lock lk (mklock 0 None) m)) by (unfold modify; by rewrite set_lock_twice).
  by rewrite (popcli_spec c k).
Qed.

(** ** The discipline of locks and interrupts *)

Record mach_ok (m : mach) : Prop := {
  mo_cpus : cpus_ok m;
  mo_lock : forall lk l, locks m !! lk = Some l -> locked l = match lcpu l with Some _ => 1 | None => 0 end;
  mo_ncli : forall c k, zlookup (cpus m) c = Some k -> ncli k = Z.of_nat (size (held m c));
  mo_if : forall c k, zlookup (cpus m) c = Some k -> 0 < ncli k -> c_if k = false
}.

Lemma held_by_eq m lk l c : mach_ok m -> locks m !! lk = Some l -> held_by l c = bool_decide (lk ∈ held m c).
Proof.
  intros Hok El. unfold held_by. pose proof (mo_lock _ Hok lk l El) as Hl.
  assert (Hiff : lcpu l = Some c <-> lk ∈ held m c).
  { rewrite elem_of_held. split; [by exists l|]. intros (l' & E' & F'). congruence. }
  rewrite <- (bool_decide_ext _ _ Hiff). destruct (lcpu l) as [d|]; [by rewrite Hl|]. by rewrite Hl.
Qed.

Lemma lookup_set c k k' m c' : zlookup (cpus m) c = Some k ->
  zlookup (zinsert c k' (cpus m)) c' = if decide (c' = c) then Some k' else zlookup (cpus m) c'.
Proof.
  intros E. destruct (decide (c' = c)) as [->|]; [|by apply zlookup_zinsert_ne].
  apply zlookup_zinsert_eq. by eapply zlookup_lt.
Qed.

Lemma mach_ok_acquired c k m lk l : mach_ok m -> zlookup (cpus m) c = Some k -> locks m !! lk = Some l -> locked l = 0 ->
  mach_ok (acquired c lk k m).
Proof.
  intros Hok E El H0. pose proof (mo_lock _ Hok lk l El) as Hl.
  assert (Hn : lcpu l = None) by (destruct (lcpu l); [lia|done]). split.
  - by eapply cpus_ok_set; [apply Hok|done|].
  - intros lk' l'. cbn. destruct (decide (lk' = lk)) as [->|]; [by rewrite lookup_insert_eq; intros [= <-]|].
    rewrite lookup_insert_ne by done. apply (mo_lock _ Hok).
  - intros c' k'. rewrite (held_acquired _ _ _ _ l) by done. cbn [acquired set_lock cpus set_cpu].
    rewrite (lookup_set c k) by done. destruct (decide (c' = c)) as [->|]; [|apply (mo_ncli _ Hok)].
    intros [= <-]. cbn. rewrite (mo_ncli _ Hok c k E), size_union, size_singleton; [lia|].
    apply disjoint_singleton_r. rewrite elem_of_held. intros (l' & E' & F'). congruence.
  - intros c' k'. cbn. rewrite (lookup_set c k) by done. destruct (decide (c' = c)) as [->|]; [by intros [= <-]|apply (mo_if _ Hok)].
Qed.

Lemma mach_ok_released c k m lk : mach_ok m -> zlookup (cpus m) c = Some k -> lk ∈ held m c -> mach_ok (released c lk k m).
Proof.
  intros Hok E Hin. pose proof (mo_ncli _ Hok c k E) as Hn.
  assert (Hs : size (held m c ∖ {[lk]}) = (size (held m c) - 1)%nat)
    by (rewrite size_difference, size_singleton by (by apply singleton_subseteq_l); done).
  assert (Hpos : (0 < size (held m c))%nat) by (by eapply held_pos). split.
  - by eapply cpus_ok_set; [apply Hok|done|].
  - intros lk' l'. cbn. destruct (decide (lk' = lk)) as [->|]; [by rewrite lookup_insert_eq; intros [= <-]|].
    rewrite lookup_insert_ne by done. apply (mo_lock _ Hok).
  - intros c' k'. rewrite held_released by done. cbn [released set_lock cpus set_cpu].
    rewrite (lookup_set c k) by done. destruct (decide (c' = c)) as [->|]; [|apply (mo_ncli _ Hok)].
    intros [= <-]. cbn. rewrite Hs. lia.
  - intros c' k'. cbn. rewrite (lookup_set c k) by done. destruct (decide (c' = c)) as [->|]; [|apply (mo_if _ Hok)].
    intros [= <-]. cbn. intros Hk. rewrite (proj2 (Z.eqb_neq _ _)) by lia. cbn. apply (mo_if _ Hok c k E). lia.
Qed.

(** Spin locks.  As long as locks are only taken and released with these
    functions, [ncli] counts the locks that a processor holds, and interrupts
    are off on a processor that holds one.  [acquire] takes a free lock, spins
    on one that another processor holds, and panics on one that this processor
    holds already; [release] frees a lock that this processor holds, turning
    interrupts on again, if they were on, with the last one, and panics on
    any other.  Both change nothing else. *)
Theorem spinlock_correct c k m lk l :
  mach_ok m -> zlookup (cpus m) c = Some k -> locks m !! lk = Some l ->
  (lcpu l = None -> exists m', acquire lapicid c lk m = Ok (tt, m') /\ mach_ok m' /\
     m' = mkmach (zinsert c (pushed k) (cpus m)) (<[lk := mklock 1 (Some c)]> (locks m)) /\ held m' c = held m c ∪ {[lk]}) /\
  (lcpu l = Some c -> acquire lapicid c lk m = Panic "acquire") /\
  (forall d, lcpu l = Some d -> d <> c -> acquire lapicid c lk m = Blocked) /\
  (lcpu l = Some c -> exists m' k', release lapicid c lk m = Ok (tt, m') /\ mach_ok m' /\
     m' = mkmach (zinsert c k' (cpus m)) (<[lk := mklock 0 None]> (locks m)) /\ held m' c = held m c ∖ {[lk]} /\
     c_if k' = (if decide (held m c = {[lk]}) then intena k else false)) /\
  (lcpu l <> Some c -> release lapicid c lk m = Panic "release").
Proof.
  intros Hok E El. pose proof (mo_lock _ Hok lk l El) as Hl. pose proof (mo_cpus _ Hok) as Hc.
  pose proof (mo_ncli _ Hok c k E) as Hn. assert (Hn0 : 0 <= ncli k) by lia.
  rewrite (acquire_spec c k m lk l Hc E El Hn0). rewrite (release_spec c k m lk l Hc E El Hn0).
  2:{ rewrite (held_by_eq m lk l c Hok El). intros Hin%bool_decide_eq_true.
      assert (Hpos : (0 < size (held m c))%nat) by (by eapply held_pos). split; [apply (mo_if _ Hok c k E)|]; lia. }
  unfold held_by. split; [|split; [|split; [|split]]].
  - intros Hlc. rewrite Hlc in Hl. rewrite Hl. cbn. exists (acquired c lk k m). split; [done|].
    split; [by eapply mach_ok_acquired|]. split; [done|]. rewrite (held_acquired _ _ _ _ l) by done. by rewrite decide_True.
  - intros Hlc. rewrite Hlc in *. rewrite Hl, bool_decide_eq_true_2 by done. done.
  - intros d Hlc Hd. rewrite Hlc in *. rewrite Hl, bool_decide_eq_false_2 by congruence. done.
  - intros Hlc. rewrite Hlc in *. rewrite Hl, bool_decide_eq_true_2 by done. cbn.
    assert (Hin : lk ∈ held m c) by (apply elem_of_held; eauto). exists (released c lk k m), (popped k).
    split; [done|]. split; [by apply mach_ok_released|]. split; [done|]. split; [rewrite held_released by done; by rewrite decide_True|].
    assert (Hpos : (0 < size (held m c))%nat) by (by eapply held_pos).
    cbn. rewrite (mo_if _ Hok c k E) by lia. destruct (decide (held m c = {[lk]})) as [Hs|Hs].
    + rewrite Hs, size_singleton in Hn. rewrite Hn. cbn. by destruct (intena k).
    + rewrite (proj2 (Z.eqb_neq _ _)); [done|]. intros Hz. apply Hs. destruct (size_1_elem_of (held m c)) as [x Hx]; [lia|].
      apply set_eq. intros y. rewrite Hx. rewrite Hx in Hin. set_solver.
  - intros Hlc. rewrite (bool_decide_eq_false_2 _ Hlc), andb_false_r. done.
Qed.

End Spec.

(** Two processors, one lock, which processor 0 holds. *)
Definition mach0 : mach :=
  mkmach [mkcpu 0 1 true None false S_top 0 0; mkcpu 1 0 false None true S_top 0 0] {[7 := mklock 1 (Some 0)]}.

Lemma mach0_ok : mach_ok id mach0.
Proof.
  split.
  - split.
    + intros i k Hk. pose proof (zlookup_lt _ _ _ Hk) as Hr. cbn in Hr. assert (i = 0 \/ i = 1) as [-> | ->] by lia; by injection Hk as <-.
    + intros i j Hi Hj. cbn in *. lia.
  - intros lk l. unfold mach0. cbn. rewrite lookup_singleton_Some. by intros [<- <-].
  - intros c k Hk. pose proof (zlookup_lt _ _ _ Hk) as Hr. cbn in Hr. assert (c = 0 \/ c = 1) as [-> | ->] by lia; injection Hk as <-; reflexivity.
  - intros c k Hk. pose proof (zlookup_lt _ _ _ Hk) as Hr. cbn in Hr. assert (c = 0 \/ c = 1) as [-> | ->] by lia; injection Hk as <-; cbn; [done|lia].
Qed.

Lemma spinlock_correct_witness : exists m', release id 0 7 mach0 = Ok (tt, m') /\ mach_ok id m' /\ acquire id 1 7 mach0 = Blocked.
Proof.
  destruct (spinlock_correct id 0 (mkcpu 0 1 true None false S_top 0 0) mach0 7 (mklock 1 (Some 0)) mach0_ok eq_refl eq_refl)
    as (_ & _ & _ & H & _).
  destruct (spinlock_correct id 1 (mkcpu 1 0 false None true S_top 0 0) mach0 7 (mklock 1 (Some 0)) mach0_ok eq_refl eq_refl)
    as (_ & _ & B & _).
  destruct (H eq_refl) as (m' & k' & H1 & H2 & _). exists m'. split; [done|]. split; [done|]. by apply (B 0).
Defined.

End Spin.
