(* ===== verification/File.v ===== *)
(** * Files (fs/sfs/file.c, and the allocation of pipes in fs/pipe.c)

    The table of open files over the file system, the log and the pages of the
    kernel.  A [struct file *] is an index into the table; a pipe is known by
    the address of its page, and its contents are a [Pipe.pipe].  A read or
    write of a pipe that has to sleep blocks; what other threads do meanwhile
    is in [Pipe].  The bytes read are a result, the bytes to write an
    argument. *)

From Stdlib Require Import ZArith Lia.
From stdpp Require Import base numbers strings list gmap.
From S2P Require Import Prelude Mem Kalloc Pipe Block BlockIO Log LogIO Fs.

Open Scope Z_scope.

Import Mem Kalloc BlockIO LogIO.

Module File.

Definition NFILE : Z := 100.

Inductive fdtype := FD_NONE | FD_PIPE | FD_INODE.

(** [struct file]. *)
Record file := mkfile {
  ftype : fdtype;
  fref : Z;
  readable : bool;
  writable : bool;
  fpipe : Z;
  fip : Z;
  foff : Z
}.

Definition set_fref (v : Z) (f : file) : file :=
  mkfile (ftype f) v (readable f) (writable f) (fpipe f) (fip f) (foff f).
Definition set_ftype (v : fdtype) (f : file) : file :=
  mkfile v (fref f) (readable f) (writable f) (fpipe f) (fip f) (foff f).
Definition set_foff (v : Z) (f : file) : file :=
  mkfile (ftype f) (fref f) (readable f) (writable f) (fpipe f) (fip f) v.

Definition file0 : file := mkfile FD_NONE 0 false false 0 0 0.

Abbreviation fsstate := (@Fs.state Log.state).

Section Code.

Context {A : Type} `{!PageAlloc A}.

(** [ftable], the pipes and the layers below. *)
Record state := mkstate {
  fs : fsstate;
  pages : A * mem;
  ftlock : bool;
  ftable : list file;
  pipes : gmap Z Pipe.pipe
}.

Definition set_fs (x : fsstate) (s : state) : state := mkstate x (pages s) (ftlock s) (ftable s) (pipes s).
Definition set_pages (x : A * mem) (s : state) : state := mkstate (fs s) x (ftlock s) (ftable s) (pipes s).
Definition set_ftlock (x : bool) (s : state) : state := mkstate (fs s) (pages s) x (ftable s) (pipes s).
Definition set_ftable (x : list file) (s : state) : state := mkstate (fs s) (pages s) (ftlock s) x (pipes s).
Definition set_pipes (x : gmap Z Pipe.pipe) (s : state) : state := mkstate (fs s) (pages s) (ftlock s) (ftable s) x.

(** The process that runs, the size of the disk, and the device table. *)
Variable pid ds : Z.
Variable killed : bool.
Variable devread : Z -> option (Z -> Z -> ST fsstate (Z * list Z)).
Variable devwrite : Z -> option (Z -> list Z -> Z -> ST fsstate Z).

(** The functions of the log below fs.c; the arguments after [ds] only matter
    to specifications. *)
Local Instance io : BlockIO Log.state := log_io pid ds 0 0 (fun _ => Block.zero_block) [] ∅.

Definition onfs {B} (m : ST fsstate B) : ST state B := zoom fs set_fs m.
Definition begin_op : ST state unit := onfs (Fs.onio Log.begin_op).
Definition end_op : ST state unit := onfs (Fs.onio (Log.end_op pid ds)).
Definition kalloc : ST state Z := zoom pages set_pages pa_alloc.
Definition kfree (p : Z) : ST state unit := zoom pages set_pages (pa_free p).

Definition acquire : ST state unit :=
  s ← get; if ftlock s then panic "acquire" else modify (set_ftlock true).
Definition release : ST state unit :=
  s ← get; if ftlock s then modify (set_ftlock false) else panic "release".

Definition get_file (f : Z) : ST state file :=
  s ← get; match zlookup (ftable s) f with Some x => mret x | None => fault end.
Definition upd_file (f : Z) (g : file -> file) : ST state unit :=
  x ← get_file f; modify (fun s => set_ftable (zinsert f (g x) (ftable s)) s).

(** The first entry without references. *)
Fixpoint find_file (l : list file) (f : Z) : option Z :=
  match l with
  | [] => None
  | x :: l' => if fref x =? 0 then Some f else find_file l' (f + 1)
  end.

Definition filealloc : ST state (option Z) :=
  acquire;;
  s ← get;
  match find_file (ftable s) 0 with
  | Some f => upd_file f (set_fref 1);; release;; mret (Some f)
  | None => release;; mret None
  end.

Definition filedup (f : Z) : ST state Z :=
  acquire;;
  x ← get_file f;
  if fref x <? 1 then panic "filedup"
  else upd_file f (set_fref (fref x + 1));; release;; mret f.

(** [pipeclose] of pipe.c, with the page of the pipe. *)
Definition pipeclose (p : Z) (writable : bool) : ST state unit :=
  s ← get;
  match pipes s !! p with
  | None => fault
  | Some q =>
      let '(q', _, free) := Pipe.pipeclose writable q in
      if free : bool then modify (fun s => set_pipes (delete p (pipes s)) s);; kfree p
      else modify (fun s => set_pipes (<[p := q']> (pipes s)) s)
  end.

Definition fileclose (f : Z) : ST state unit :=
  acquire;;
  x ← get_file f;
  if fref x <? 1 then panic "fileclose"
  else
    upd_file f (set_fref (fref x - 1));;
    if 0 <? fref x - 1 then release
    else
      ff ← get_file f;
      upd_file f (set_fref 0);;
      upd_file f (set_ftype FD_NONE);;
      release;;
      match ftype ff with
      | FD_PIPE => pipeclose (fpipe ff) (writable ff)
      | FD_INODE => begin_op;; onfs (Fs.iput pid (fip ff));; end_op
      | FD_NONE => mret tt
      end.

Definition filestat (f : Z) : ST state (Z * option Fs.stat) :=
  x ← get_file f;
  match ftype x with
  | FD_INODE =>
      onfs (Fs.ilock pid (fip x));;
      st ← onfs (Fs.stati (fip x));
      onfs (Fs.iunlock pid (fip x));;
      mret (0, Some st)
  | _ => mret (-1, None)
  end.

(** [piperead] and [pipewrite] of pipe.c. *)
Definition piperead (p n : Z) : ST state (Z * list Z) :=
  s ← get;
  match pipes s !! p with
  | None => fault
  | Some q =>
      let '(q', r) := Pipe.read_run killed n q in
      match r with
      | Pipe.RDone l => modify (fun s => set_pipes (<[p := q']> (pipes s)) s);; mret (Z.of_nat (length l), l)
      | Pipe.RFail => mret (-1, [])
      | Pipe.RSleep => blocked
      end
  end.

Definition pipewrite (p : Z) (src : list Z) (n : Z) : ST state Z :=
  s ← get;
  match pipes s !! p with
  | None => fault
  | Some q =>
      let '(q', r) := Pipe.write_loop killed src q in
      match r with
      | Pipe.WDone => modify (fun s => set_pipes (<[p := q']> (pipes s)) s);; mret n
      | Pipe.WFail _ => modify (fun s => set_pipes (<[p := q']> (pipes s)) s);; mret (-1)
      | Pipe.WSleep _ => blocked
      end
  end.

Definition fileread (f n : Z) : ST state (Z * list Z) :=
  x ← get_file f;
  if negb (readable x) then mret (-1, [])
  else
    match ftype x with
    | FD_PIPE => piperead (fpipe x) n
    | FD_INODE =>
        onfs (Fs.ilock pid (fip x));;
        r ← onfs (Fs.readi devread (fip x) (foff x) (u32 n));
        (if 0 <? r.1 then upd_file f (fun y => set_foff (u32 (foff y + r.1)) y) else mret tt);;
        onfs (Fs.iunlock pid (fip x));;
        mret r
    | FD_NONE => panic "fileread"
    end.

(** The bytes that one transaction writes at most. *)
Definition MAXWRITE : Z := (Log.MAXOPBLOCKS - 1 - 1 - 2) / 2 * 512.

(** The value of [i] after the loop, for the bytes [src] not written yet. *)
Fixpoint filewrite_loop (fuel : nat) (f : Z) (src : list Z) (i n : Z) : ST state Z :=
  if i <? n then
    match fuel with
    | O => out_of_fuel
    | S fuel' =>
        let n1 := if MAXWRITE <? n - i then MAXWRITE else n - i in
        begin_op;;
        x ← get_file f;
        onfs (Fs.ilock pid (fip x));;
        r ← onfs (Fs.writei devwrite (fip x) (take (Z.to_nat n1) src) (foff x) n1);
        (if 0 <? r then upd_file f (fun y => set_foff (u32 (foff y + r)) y) else mret tt);;
        onfs (Fs.iunlock pid (fip x));;
        end_op;;
        if r <? 0 then mret i
        else if negb (r =? n1) then panic "short filewrite"
        else filewrite_loop fuel' f (drop (Z.to_nat n1) src) (i + r) n
    end
  else mret i.

Definition filewrite (f : Z) (src : list Z) (n : Z) : ST state Z :=
  x ← get_file f;
  if negb (writable x) then mret (-1)
  else
    match ftype x with
    | FD_PIPE => pipewrite (fpipe x) src n
    | FD_INODE =>
        i ← filewrite_loop (Z.to_nat (n / MAXWRITE + 1)) f src 0 n;
        mret (if i =? n then n else -1)
    | FD_NONE => panic "filewrite"
    end.

(** The two ends, or an error; [junk] are the bytes of the page. *)
Definition pipealloc (junk : list Z) : ST state (option (Z * Z)) :=
  f0 ← filealloc;
  match f0 with
  | None => mret None
  | Some r =>
      f1 ← filealloc;
      match f1 with
      | None => fileclose r;; mret None
      | Some w =>
          p ← kalloc;
          if p =? 0 then fileclose r;; fileclose w;; mret None
          else
            modify (fun s => set_pipes (<[p := Pipe.pipe_new junk]> (pipes s)) s);;
            upd_file r (fun x => mkfile FD_PIPE (fref x) true false p (fip x) (foff x));;
            upd_file w (fun x => mkfile FD_PIPE (fref x) false true p (fip x) (foff x));;
            mret (Some (r, w))
      end
  end.

End Code.

Arguments state : clear implicits.

End File.
