(* ===== verification/FileThm.v ===== *)
(** * What open files promise

    [filewrite] cuts a write into transactions; each is atomic, so that a crash
    leaves the file with some of the pieces written and nothing else.  The
    reference counts of the table of files are those of its users. *)

From Stdlib Require Import ZArith Lia.
From stdpp Require Import base numbers strings list gmap.
From S2P Require Import Prelude Mem Kalloc Pipe Block BlockIO Log LogSpec LogTx LogIO Fs FsBlk FsMap FsRw FsInode FsImage FsOp FsThm FsWrote File.

Open Scope Z_scope.

Import Mem Kalloc Block BlockIO LogIO Fs FsBlk FsMap FsRw FsInode FsImage FsOp FsThm FsWrote File.

Module FileThm.

#[local] Opaque zero_block free_blocks img.

Section Props.

Context {A : Type} `{!PageAlloc A}.

Local Abbreviation state := (File.state A).

Lemma run_onfs {B} (m : ST fsstate B) (s : state) b x : m (fs s) = Ok (b, x) -> onfs m s = Ok (b, set_fs x s).
Proof. intros E. unfold onfs, zoom. by rewrite E. Qed.

Lemma run_get_file {B} (s : state) f x (k : file -> ST state B) :
  zlookup (ftable s) f = Some x -> (get_file f ≫= k) s = k x s.
Proof. intros E. unfold get_file, mbind, ST_bind, get. by rewrite E. Qed.

Lemma run_upd_file (s : state) f g x : zlookup (ftable s) f = Some x ->
  upd_file f g s = Ok (tt, set_ftable (zinsert f (g x) (ftable s)) s).
Proof. intros E. unfold upd_file. by rewrite (run_get_file _ _ x). Qed.

Section Write.

Context (pid ds st sz : Z) (sb : Log.superblock) (devwrite : Z -> option (Z -> list Z -> Z -> ST fsstate Z)).
Context (Hl : layout (BlockIO0 := File.io pid ds) sb) (Hhome : forall b, fs_block sb b -> LogSpec.home st sz ds b) (Hsz : 27 <= sz).

(** An open file, with nothing going on. *)
Record ready (s : state) (f : Z) (x : file) (ip : Z) (i : inode) (C D : Z -> block) (W : list (Z * block)) (F : gset Z) : Prop := {
  rd_idle : idle pid ds st sz (Fs.io (fs s)) C D W;
  rd_sb : Fs.sb (fs s) = sb;
  rd_file : zlookup (ftable s) f = Some x;
  rd_type : ftype x = FD_INODE /\ fip x = ip;
  rd_ino : zlookup (inodes (fs s)) ip = Some i;
  rd_ref : 0 < ref i /\ valid i = true /\ ilocked i = false /\ ilpid i = 0;
  rd_dev : idev i = 1 /\ itype i <> T_DEV /\ inum_ok sb (inum i);
  rd_disk : disk sb C F;
  rd_map : FsMap.file sb C F i;
  rd_full : full C i
}.

(** The part of an iteration of [filewrite] that is a transaction. *)
Definition chunk (ip : Z) (src : list Z) (off n : Z) : ST fsstate Z :=
  ilock (BlockIO0 := File.io pid ds) pid ip;;
  r ← writei (BlockIO0 := File.io pid ds) devwrite ip src off n;
  iunlock pid ip;; mret r.

Lemma layout_any st' sz' D W R : st' = st -> sz' = sz -> layout (BlockIO0 := log_io pid ds st' sz' D W R) sb.
Proof. intros -> ->. destruct Hl as [H1 H2 H3 H4 H5 H6]. split; try done. Qed.

Lemma chunk_ok s f x ip i C D W F src n :
  ready s f x ip i C D W F -> bytes src -> Z.of_nat (length src) = n -> 0 < n <= MAXWRITE ->
  0 <= foff x <= isize i -> foff x + n <= MAXFILE * BSIZE -> (8 <= size F)%nat ->
  exists s' i' C' F' D' ws, fs_op pid ds (chunk ip src (foff x) n) (fs s) = Ok (n, s') /\
    ready (set_fs s' s) f x ip i' C' D' (W ++ ws) F' /\ wrote sb C F i src (foff x) C' F' i' /\
    (forall b, D' b = LogSpec.apply_writes ws D b) /\
    crash_safe st sz ds D ws (fun C1 => C1 = C \/ wrote sb C F i src (foff x) C1 F' i').
Proof.
  intros [H1 H2 H3 H4 H5 (H6 & H7 & H8 & H9) (H10 & H11 & H12) H13 H14 H15] Hb Hlen Hn Ho Hmax HF.
  set (i0 := set_ilock true pid i). set (nb := Z.to_nat (nblk (foff x) n)).
  assert (Hnb : (nb <= 4)%nat).
  { unfold nb, nblk. rewrite (proj2 (Z.eqb_neq n 0)) by lia. change MAXWRITE with 1536 in Hn. unfold BSIZE.
    Z.to_euclidean_division_equations; lia. }
  assert (Hfile0 : FsMap.file sb C F i0) by (destruct H14; by split).
  destruct (op_atomic pid ds st sz ∅ (6 * nb + 1) (chunk ip src (foff x) n) (fs s) C D W
    (fun a s1 C' => a = n /\ exists F' i', zlookup (inodes s1) ip = Some (set_ilock false 0 i') /\ Fs.sb s1 = sb /\
       wrote sb C F i0 src (foff x) C' F' i'))
    as (a & s1 & C' & l & ws & C2 & D2 & Hrun & (-> & F' & i' & Hi' & Hsb' & Hw) & Hid' & Hf2 & HD2 & Hcr); [done|..].
  - rewrite size_empty. unfold max_logged. lia.
  - rewrite size_empty. lia.
  - intros l Hlv. unfold chunk. apply wp_bind. eapply wp_ilock_valid; [exact H5|done|done|done|].
    apply wp_bind.
    eapply (wp_writei (BlockIO0 := log_io pid ds st sz D W ∅) sb (layout_any _ _ _ _ _ eq_refl eq_refl) devwrite _ ip i0 C F 0);
      [|done|done|done|done|done|done|done|done|done|lia|].
    { split; [done|]. split; [by eapply set_in_lookup|]. split; [done|]. exact Hlv. }
    intros C' F' i' s' Hw (Hsb' & Hi' & _ & Hv') _. pose proof (wr_meta _ _ _ _ _ _ _ _ _ Hw) as Hmeta. apply wp_bind.
    eapply wp_iunlock; [exact Hi'|by rewrite Hmeta|by rewrite Hmeta|by rewrite Hmeta|]. apply wp_ret.
    exists C', 0%nat. split; [exact Hv'|]. split; [done|]. exists F', i'. split; [by eapply set_in_lookup|]. split; [done|exact Hw].
  - assert (Hw' : wrote sb C F i src (foff x) C' F' (set_ilock false 0 i')) by (by eapply wrote_lock).
    assert (Hag : agree sb C' C2) by (intros b Hfb; by apply Hf2, Hhome).
    assert (Hw2 : wrote sb C F i src (foff x) C2 F' (set_ilock false 0 i')) by (eapply (wrote_agree sb Hl); [done|exact Hw'|done]).
    pose proof (wr_meta _ _ _ _ _ _ _ _ _ Hw) as Hmeta.
    exists (set_io l s1), (set_ilock false 0 i'), C2, F', D2, ws. split; [exact Hrun|]. split; [|split; [done|split; [done|]]].
    + split; try done; [|by rewrite Hmeta..|apply Hw2|apply Hw2|apply Hw2]. by rewrite Hmeta.
    + intros ws1 Hp. destruct (Hcr ws1 Hp) as (C1 & [->| ->] & Hrec); [exists C; auto|exists C'; auto].
Qed.

(** One iteration at the level of file.c. *)
Lemma run_chunk s f x ip s' n src {B} (k : Z -> ST state B) :
  zlookup (ftable s) f = Some x -> fip x = ip -> fs_op pid ds (chunk ip src (foff x) n) (fs s) = Ok (n, s') -> 0 < n ->
  (begin_op;; x ← get_file f; onfs (ilock (BlockIO0 := File.io pid ds) pid (fip x));;
   r ← onfs (writei (BlockIO0 := File.io pid ds) devwrite (fip x) src (foff x) n);
   (if 0 <? r then upd_file f (fun y => set_foff (u32 (foff y + r)) y) else mret tt);;
   onfs (iunlock pid (fip x));; end_op pid ds;; k r) s =
  k n (set_ftable (zinsert f (set_foff (u32 (foff x + n)) x) (ftable s)) (set_fs s' s)).
Proof.
  intros Hf Hip Hop Hn. unfold fs_op, chunk in Hop. apply bind_Ok in Hop as ([] & s1 & R1 & Hop).
  apply bind_Ok in Hop as (r & s2 & Hop & R5). apply bind_Ok in R5 as ([] & s6 & R5 & [= -> ->]).
  apply bind_Ok in Hop as ([] & s3 & R2 & Hop). apply bind_Ok in Hop as (r' & s4 & R3 & Hop).
  apply bind_Ok in Hop as ([] & s5 & R4 & [= -> ->]).
  unfold begin_op, end_op. rewrite (run_bind _ _ _ tt (set_fs s1 s)) by (by apply run_onfs).
  rewrite (run_get_file _ _ x) by done. rewrite Hip, (run_bind _ _ _ tt (set_fs s3 s)) by (by rewrite (run_onfs _ _ tt s3)).
  rewrite (run_bind _ _ _ n (set_fs s4 s)) by (by rewrite (run_onfs _ _ n s4)). rewrite (proj2 (Z.ltb_lt 0 n)) by done.
  set (T := zinsert f (set_foff (u32 (foff x + n)) x) (ftable s)).
  rewrite (run_bind _ _ _ tt (set_ftable T (set_fs s4 s))) by (by rewrite (run_upd_file _ _ _ x)).
  rewrite (run_bind _ _ _ tt (set_ftable T (set_fs s2 s))) by (by rewrite (run_onfs _ _ tt s2)).
  by rewrite (run_bind _ _ _ tt (set_ftable T (set_fs s' s))) by (by rewrite (run_onfs _ _ tt s')).
Qed.

Lemma ready_off s f x v ip i C D W F : ready s f x ip i C D W F ->
  ready (set_ftable (zinsert f (set_foff v x) (ftable s)) s) f (set_foff v x) ip i C D W F.
Proof.
  intros [H1 H2 H3 H4 H5 H6 H7 H8 H9 H10]. split; try done. cbn. apply zlookup_zinsert_eq. by eapply zlookup_lt.
Qed.

(** The file after some of the transactions of a write. *)
Definition partly (C : Z -> block) (F : gset Z) (i : inode) (src : list Z) (off : Z) (C1 : Z -> block) : Prop :=
  exists j F1 i1, wrote sb C F i (take (j * Z.to_nat MAXWRITE) src) off C1 F1 i1.

Lemma filewrite_loop_done fuel s f x ip i C D W F src k n :
  ready s f x ip i C D W F -> Z.of_nat (length src) = n - k -> 0 <= foff x <= isize i -> k = n ->
  exists s' i' C' F' D' ws, filewrite_loop pid ds devwrite fuel f src k n s = Ok (n, s') /\
    ready s' f (set_foff (foff x + (n - k)) x) ip i' C' D' (W ++ ws) F' /\ wrote sb C F i src (foff x) C' F' i' /\
    (forall b, D' b = LogSpec.apply_writes ws D b) /\ crash_safe st sz ds D ws (partly C F i src (foff x)).
Proof.
  intros Hr Hlen Ho ->. assert (src = []) as -> by (destruct src; [done|cbn in Hlen; lia]).
  assert (Hw : wrote sb C F i [] (foff x) C F i) by (apply wrote_refl; apply Hr || done).
  exists s, i, C, F, D, []. rewrite Z.sub_diag, Z.add_0_r, app_nil_r. split; [|split; [by destruct x|split; [done|split; [done|]]]].
  - destruct fuel; cbn [filewrite_loop]; by rewrite Z.ltb_irrefl.
  - apply (crash_safe_nil _ _ _ _ _ C); [eapply idle_recovers; [|apply Hr]; lia|]. by exists 0%nat, F, i.
Qed.

Lemma filewrite_loop_spec F0 fuel : (149 <= size F0)%nat -> forall s f x ip i C D W F src k n,
  ready s f x ip i C D W F -> spent F0 C F i -> bytes src -> Z.of_nat (length src) = n - k ->
  0 <= foff x <= isize i -> foff x + (n - k) <= MAXFILE * BSIZE -> n - k <= MAXWRITE * Z.of_nat fuel -> 0 <= k <= n ->
  exists s' i' C' F' D' ws, filewrite_loop pid ds devwrite fuel f src k n s = Ok (n, s') /\
    ready s' f (set_foff (foff x + (n - k)) x) ip i' C' D' (W ++ ws) F' /\ wrote sb C F i src (foff x) C' F' i' /\
    (forall b, D' b = LogSpec.apply_writes ws D b) /\ crash_safe st sz ds D ws (partly C F i src (foff x)).
Proof.
  intros H0. induction fuel as [|fuel IH]; intros s f x ip i C D W F src k n Hr Hsp Hb Hlen Ho Hmax Hfu Hk.
  { eapply filewrite_loop_done; [exact Hr|done|done|lia]. }
  destruct (decide (k = n)) as [E|Hne]; [by eapply filewrite_loop_done|].
  pose proof Hr as [R1 R2 R3 [R4 R4'] R5 R6 (R7 & R7' & Hnum) R8 R9 R10]. pose proof MAXFILE_eq as HM. change BSIZE with 512 in *.
  cbn [filewrite_loop]. rewrite (proj2 (Z.ltb_lt k n)) by lia.
  set (n1 := if MAXWRITE <? n - k then MAXWRITE else n - k). change MAXWRITE with 1536 in *.
  assert (Hn1 : n1 = Z.min 1536 (n - k)) by (unfold n1; destruct (Z.ltb_spec 1536 (n - k)); lia).
  set (s1 := take (Z.to_nat n1) src). set (s2 := drop (Z.to_nat n1) src).
  assert (Hl1 : Z.of_nat (length s1) = n1) by (unfold s1; rewrite length_take; lia).
  assert (Hl2 : Z.of_nat (length s2) = n - k - n1) by (unfold s2; rewrite length_drop; lia).
  pose proof (spent_size _ _ _ _ Hsp) as Hfree.
  destruct (chunk_ok s f x ip i C D W F s1 n1 Hr) as (s' & i' & C' & F' & D' & ws & Hop & Hr' & Hw & HD' & Hcr);
    [by apply Forall_take|done|change MAXWRITE with 1536; lia|done|change BSIZE with 512; lia|lia|].
  rewrite (run_chunk s f x ip s' n1 s1) by (done || lia). rewrite (proj2 (Z.ltb_ge n1 0)) by lia. rewrite Z.eqb_refl. cbn [negb].
  apply (ready_off _ _ _ (u32 (foff x + n1))) in Hr'. rewrite u32_small in * by lia.
  assert (Hsz' : isize i' = Z.max (isize i) (foff x + n1)) by (rewrite (wr_meta _ _ _ _ _ _ _ _ _ Hw); cbn; by rewrite Hl1).
  edestruct (IH _ f _ ip i' C' D' (W ++ ws) F' s2 (k + n1) n Hr') as (s'' & i'' & C'' & F'' & D'' & ws' & Hrun & Hr'' & Hw' & HD'' & Hcr');
    [by eapply (spent_wrote sb)|by apply Forall_drop|lia|cbn; lia|cbn; lia|lia|lia|].
  cbn [foff set_foff] in *. rewrite <- Hl1 in Hw'.
  assert (Htr : forall s3 C3 F3 i3, wrote sb C' F' i' s3 (foff x + Z.of_nat (length s1)) C3 F3 i3 -> wrote sb C F i (s1 ++ s3) (foff x) C3 F3 i3)
    by (intros s3 C3 F3 i3; apply (wrote_trans sb C F i s1 (foff x) C' F' i'); done || lia).
  exists s'', i'', C'', F'', D'', (ws ++ ws'). split; [exact Hrun|]. split; [|split; [|split]].
  - rewrite app_assoc. replace (foff x + (n - k)) with (foff x + n1 + (n - (k + n1))) by lia. by destruct x.
  - rewrite <- (take_drop (Z.to_nat n1) src). apply Htr, Hw'.
  - intros b. rewrite LogSpec.apply_app, HD''. apply LogTx.apply_writes_ext. intros y. apply HD'.
  - eapply crash_safe_app; [exact HD'|exact Hcr|exact Hcr'| |].
    + intros C1 [->|Hw1]; [exists 0%nat, F, i; apply wrote_refl; done|].
      exists 1%nat, F', i'. replace (take (1 * Z.to_nat MAXWRITE) src) with s1; [done|]. change (1 * Z.to_nat MAXWRITE)%nat with (Z.to_nat 1536).
      unfold s1. destruct (decide (n1 = 1536)) as [->|]; [done|]. rewrite !take_ge by lia. done.
    + intros C1 (j & F1 & i1 & Hw1). rewrite <- Hl1 in Hw1. destruct (decide (n1 = 1536)) as [En|].
      * exists (S j), F1, i1. change (Z.to_nat MAXWRITE) with (Z.to_nat 1536) in *.
        replace (take (S j * Z.to_nat 1536) src) with (s1 ++ take (j * Z.to_nat 1536) s2); [by apply Htr|].
        unfold s1, s2. by rewrite En, take_take_drop.
      * assert (E2 : s2 = []) by (destruct s2; [done|cbn in Hl2; lia]). rewrite E2, take_nil in Hw1. apply Htr in Hw1. rewrite app_nil_r in Hw1.
        exists 1%nat, F1, i1. replace (take (1 * Z.to_nat MAXWRITE) src) with s1; [done|].
        change (1 * Z.to_nat MAXWRITE)%nat with (Z.to_nat 1536). unfold s1. rewrite !take_ge by lia. done.
Qed.


(** C9: a write to a file.  [filewrite] of [n] bytes to an open file at its
    offset (within the file or at its end, up to MAXFILE blocks, with blocks to
    spare on the disk) returns [n] and advances the offset by [n]; the file has
    the new bytes, and nothing else of the file system changes.  It does so in
    transactions: after a crash at any of its disk writes, recovery finds the
    file system with the first transactions done, each of MAXWRITE bytes, and
    none of the others. *)
Theorem filewrite_correct killed s f x ip i C D W F src n :
  ready s f x ip i C D W F -> writable x = true -> bytes src -> Z.of_nat (length src) = n ->
  0 <= foff x <= isize i -> foff x + n <= MAXFILE * BSIZE -> (149 <= size F)%nat ->
  exists s' i' C' F' D' ws, filewrite pid ds killed devwrite f src n s = Ok (n, s') /\
    ready s' f (set_foff (foff x + n) x) ip i' C' D' (W ++ ws) F' /\ wrote sb C F i src (foff x) C' F' i' /\
    crash_safe st sz ds D ws (fun C1 => exists j F1 i1, wrote sb C F i (take (j * Z.to_nat MAXWRITE) src) (foff x) C1 F1 i1).
Proof.
  intros Hr Hwr Hb Hlen Ho Hmax HF.
  assert (E0 : n - 0 = n) by lia. change MAXWRITE with 1536 in *.
  edestruct (filewrite_loop_spec F (Z.to_nat (n / MAXWRITE + 1)) HF s f x ip i C D W F src 0 n Hr)
    as (s' & i' & C' & F' & D' & ws & Hrun & Hr' & Hw & _ & Hcr); [by split|done|lia|done|lia| |lia|].
  { change MAXWRITE with 1536. Z.to_euclidean_division_equations; lia. }
  exists s', i', C', F', D', ws. rewrite E0 in Hr'. split; [|done].
  unfold filewrite. rewrite (run_get_file _ _ x) by apply Hr. rewrite Hwr. cbn [negb]. destruct (rd_type _ _ _ _ _ _ _ _ _ Hr) as [-> _].
  rewrite (run_bind _ _ _ _ _ Hrun). by rewrite Z.eqb_refl.
Qed.

End Write.

End Props.

(** An open file on the image of [FsImage]. *)
Definition opened (l : Log.state) : File.state alloc_state :=
  File.mkstate (fs1 1 l) (boot0, fun _ => 0) false [mkfile FD_INODE 1 true true 0 1 0] ∅.

Lemma filewrite_correct_witness : exists (s s' : File.state alloc_state),
  filewrite 1 1000 false (fun _ => None) 0 [1; 2; 3] 3 s = Ok (3, s').
Proof.
  destruct (booted_log ∅ 0) as (l & C & D & W & Hv & H1 & H2 & H3 & H4 & HC & _); [rewrite size_empty; lia|].
  destruct (empty_file C free_blocks FsImage.file0) as [Hf Hfu]; [done..|].
  destruct (filewrite_correct (A := alloc_state) 1 1000 2 30 sb0 (fun _ => None)) with
    (killed := false) (s := opened l) (f := 0) (x := mkfile FD_INODE 1 true true 0 1 0) (ip := 1) (i := FsImage.file0)
    (C := C) (D := D) (W := W) (F := free_blocks) (src := [1; 2; 3]) (n := 3) as (s' & _ & _ & _ & _ & _ & Hr & _).
  { split; try done. intros b Hb. cbn. unfold LogSpec.home, fs_block in *. cbn in Hb. lia. }
  { intros b Hb. by apply (l_home _ (layout0 D W ∅)). }
  { lia. }
  { split; [by split|reflexivity|reflexivity|by split|reflexivity|by repeat split|split; [done|split; [done|apply inum2]]|by apply (disk0 D W ∅)|exact Hf|exact Hfu]. }
  { done. } { apply bytes3. } { done. } { cbn. lia. } { rewrite MAXFILE_eq. unfold BSIZE. cbn. lia. } { rewrite free_size. lia. }
  exists (opened l), s'. exact Hr.
Defined.

End FileThm.
