(* ===== verification/Proc.v ===== *)
(** * Processes (kern/sched/proc.cc)

    The process table, the scheduler of each processor and the operations on
    processes, over the spin locks and the file layer.  A [struct proc *] is an
    index into the table.  The code is run by processor [c].

    A kernel thread gives up its processor by calling [sched], which switches to
    the scheduler of the processor.  What the thread does when [sched] returns is
    its [context]: a value of [kont].  An operation that ends in [sched] thus
    returns [Switched], and the rest of it is [resume].

    Left out are [procdump] (output for debugging), the exception state of the
    C++ run-time library and the bytes of the segment descriptors. *)

From Stdlib Require Import ZArith Lia.
From stdpp Require Import base numbers strings list gmap.
From S2P Require Import Prelude Mmu Mem Cstring Kalloc Vm Block BlockIO Log Fs File Spin.

Open Scope Z_scope.

Import Mmu Mem Kalloc.

Module Proc.

Definition NPROC : Z := 64.
Definition KSTACKSIZE : Z := 4096.
Definition NOFILE : Z := 16.

Inductive procstate := UNUSED | EMBRYO | SLEEPING | RUNNABLE | RUNNING | ZOMBIE.

#[export] Instance procstate_eq_dec : EqDecision procstate.
Proof. solve_decision. Defined.

(** Channels of [sleep]: a process, or the address of another object. *)
Inductive channel := C_none | C_proc (p : Z) | C_obj (a : Z).

#[export] Instance channel_eq_dec : EqDecision channel.
Proof. solve_decision. Defined.

(** The address of [ptable.lock]. *)
Definition PTABLE : Z := 1.

(** What follows a call of [sleep]: the return to the caller, or the loop of
    [wait]. *)
Inductive after := A_ret | A_wait.

(** Where a thread that is not running continues: in [forkret], or after the
    call of [sched] in [yield], [sleep] or [exit], with the value of [intena]
    that [sched] keeps. *)
Inductive kont :=
| K_forkret
| K_yield (intena : bool)
| K_sleep (lk : Z) (a : after) (intena : bool)
| K_exit (intena : bool).

(** [struct trapframe], without its padding. *)
Record trapframe := mktf {
  tf_edi : Z;
  tf_esi : Z;
  tf_ebp : Z;
  tf_oesp : Z;
  tf_ebx : Z;
  tf_edx : Z;
  tf_ecx : Z;
  tf_eax : Z;
  tf_gs : Z;
  tf_fs : Z;
  tf_es : Z;
  tf_ds : Z;
  tf_trapno : Z;
  tf_err : Z;
  tf_eip : Z;
  tf_cs : Z;
  tf_eflags : Z;
  tf_esp : Z;
  tf_ss : Z
}.

Definition set_tf_eax (v : Z) (t : trapframe) : trapframe :=
  mktf (tf_edi t) (tf_esi t) (tf_ebp t) (tf_oesp t) (tf_ebx t) (tf_edx t) (tf_ecx t) v (tf_gs t) (tf_fs t) (tf_es t) (tf_ds t) (tf_trapno t) (tf_err t) (tf_eip t) (tf_cs t) (tf_eflags t) (tf_esp t) (tf_ss t).
Definition set_tf_es (v : Z) (t : trapframe) : trapframe :=
  mktf (tf_edi t) (tf_esi t) (tf_ebp t) (tf_oesp t) (tf_ebx t) (tf_edx t) (tf_ecx t) (tf_eax t) (tf_gs t) (tf_fs t) v (tf_ds t) (tf_trapno t) (tf_err t) (tf_eip t) (tf_cs t) (tf_eflags t) (tf_esp t) (tf_ss t).
Definition set_tf_ds (v : Z) (t : trapframe) : trapframe :=
  mktf (tf_edi t) (tf_esi t) (tf_ebp t) (tf_oesp t) (tf_ebx t) (tf_edx t) (tf_ecx t) (tf_eax t) (tf_gs t) (tf_fs t) (tf_es t) v (tf_trapno t) (tf_err t) (tf_eip t) (tf_cs t) (tf_eflags t) (tf_esp t) (tf_ss t).
Definition set_tf_eip (v : Z) (t : trapframe) : trapframe :=
  mktf (tf_edi t) (tf_esi t) (tf_ebp t) (tf_oesp t) (tf_ebx t) (tf_edx t) (tf_ecx t) (tf_eax t) (tf_gs t) (tf_fs t) (tf_es t) (tf_ds t) (tf_trapno t) (tf_err t) v (tf_cs t) (tf_eflags t) (tf_esp t) (tf_ss t).
Definition set_tf_cs (v : Z) (t : trapframe) : trapframe :=
  mktf (tf_edi t) (tf_esi t) (tf_ebp t) (tf_oesp t) (tf_ebx t) (tf_edx t) (tf_ecx t) (tf_eax t) (tf_gs t) (tf_fs t) (tf_es t) (tf_ds t) (tf_trapno t) (tf_err t) (tf_eip t) v (tf_eflags t) (tf_esp t) (tf_ss t).
Definition set_tf_eflags (v : Z) (t : trapframe) : trapframe :=
  mktf (tf_edi t) (tf_esi t) (tf_ebp t) (tf_oesp t) (tf_ebx t) (tf_edx t) (tf_ecx t) (tf_eax t) (tf_gs t) (tf_fs t) (tf_es t) (tf_ds t) (tf_trapno t) (tf_err t) (tf_eip t) (tf_cs t) v (tf_esp t) (tf_ss t).
Definition set_tf_esp (v : Z) (t : trapframe) : trapframe :=
  mktf (tf_edi t) (tf_esi t) (tf_ebp t) (tf_oesp t) (tf_ebx t) (tf_edx t) (tf_ecx t) (tf_eax t) (tf_gs t) (tf_fs t) (tf_es t) (tf_ds t) (tf_trapno t) (tf_err t) (tf_eip t) (tf_cs t) (tf_eflags t) v (tf_ss t).
Definition set_tf_ss (v : Z) (t : trapframe) : trapframe :=
  mktf (tf_edi t) (tf_esi t) (tf_ebp t) (tf_oesp t) (tf_ebx t) (tf_edx t) (tf_ecx t) (tf_eax t) (tf_gs t) (tf_fs t) (tf_es t) (tf_ds t) (tf_trapno t) (tf_err t) (tf_eip t) (tf_cs t) (tf_eflags t) (tf_esp t) v.

(** [struct proc].  The trap frame and the context are given by their address
    and their contents; [newp] is the local variable [np] of [fork], and whether
    the copy is done. *)
Record proc := mkproc {
  psz : Z;
  pgdir : Z;
  kstack : Z;
  pstate : procstate;
  ppid : Z;
  parent : option Z;
  tf : trapframe;
  tfp : Z;
  context : kont;
  ctxp : Z;
  chan : channel;
  pkilled : bool;
  ofile : list (option Z);
  cwd : option Z;
  pname : list Z;
  newp : option (Z * bool)
}.

Definition set_psz (v : Z) (p : proc) : proc :=
  mkproc v (pgdir p) (kstack p) (pstate p) (ppid p) (parent p) (tf p) (tfp p) (context p) (ctxp p) (chan p) (pkilled p) (ofile p) (cwd p) (pname p) (newp p).
Definition set_pgdir (v : Z) (p : proc) : proc :=
  mkproc (psz p) v (kstack p) (pstate p) (ppid p) (parent p) (tf p) (tfp p) (context p) (ctxp p) (chan p) (pkilled p) (ofile p) (cwd p) (pname p) (newp p).
Definition set_kstack (v : Z) (p : proc) : proc :=
  mkproc (psz p) (pgdir p) v (pstate p) (ppid p) (parent p) (tf p) (tfp p) (context p) (ctxp p) (chan p) (pkilled p) (ofile p) (cwd p) (pname p) (newp p).
Definition set_pstate (v : procstate) (p : proc) : proc :=
  mkproc (psz p) (pgdir p) (kstack p) v (ppid p) (parent p) (tf p) (tfp p) (context p) (ctxp p) (chan p) (pkilled p) (ofile p) (cwd p) (pname p) (newp p).
Definition set_ppid (v : Z) (p : proc) : proc :=
  mkproc (psz p) (pgdir p) (kstack p) (pstate p) v (parent p) (tf p) (tfp p) (context p) (ctxp p) (chan p) (pkilled p) (ofile p) (cwd p) (pname p) (newp p).
Definition set_parent (v : option Z) (p : proc) : proc :=
  mkproc (psz p) (pgdir p) (kstack p) (pstate p) (ppid p) v (tf p) (tfp p) (context p) (ctxp p) (chan p) (pkilled p) (ofile p) (cwd p) (pname p) (newp p).
Definition set_tf (v : trapframe) (p : proc) : proc :=
  mkproc (psz p) (pgdir p) (kstack p) (pstate p) (ppid p) (parent p) v (tfp p) (context p) (ctxp p) (chan p) (pkilled p) (ofile p) (cwd p) (pname p) (newp p).
Definition set_tfp (v : Z) (p : proc) : proc :=
  mkproc (psz p) (pgdir p) (kstack p) (pstate p) (ppid p) (parent p) (tf p) v (context p) (ctxp p) (chan p) (pkilled p) (ofile p) (cwd p) (pname p) (newp p).
Definition set_context (v : kont) (p : proc) : proc :=
  mkproc (psz p) (pgdir p) (kstack p) (pstate p) (ppid p) (parent p) (tf p) (tfp p) v (ctxp p) (chan p) (pkilled p) (ofile p) (cwd p) (pname p) (newp p).
Definition set_ctxp (v : Z) (p : proc) : proc :=
  mkproc (psz p) (pgdir p) (kstack p) (pstate p) (ppid p) (parent p) (tf p) (tfp p) (context p) v (chan p) (pkilled p) (ofile p) (cwd p) (pname p) (newp p).
Definition set_chan (v : channel) (p : proc) : proc :=
  mkproc (psz p) (pgdir p) (kstack p) (pstate p) (ppid p) (parent p) (tf p) (tfp p) (context p) (ctxp p) v (pkilled p) (ofile p) (cwd p) (pname p) (newp p).
Definition set_pkilled (v : bool) (p : proc) : proc :=
  mkproc (psz p) (pgdir p) (kstack p) (pstate p) (ppid p) (parent p) (tf p) (tfp p) (context p) (ctxp p) (chan p) v (ofile p) (cwd p) (pname p) (newp p).
Definition set_ofile (v : list (option Z)) (p : proc) : proc :=
  mkproc (psz p) (pgdir p) (kstack p) (pstate p) (ppid p) (parent p) (tf p) (tfp p) (context p) (ctxp p) (chan p) (pkilled p) v (cwd p) (pname p) (newp p).
Definition set_cwd (v : option Z) (p : proc) : proc :=
  mkproc (psz p) (pgdir p) (kstack p) (pstate p) (ppid p) (parent p) (tf p) (tfp p) (context p) (ctxp p) (chan p) (pkilled p) (ofile p) v (pname p) (newp p).
Definition set_pname (v : list Z) (p : proc) : proc :=
  mkproc (psz p) (pgdir p) (kstack p) (pstate p) (ppid p) (parent p) (tf p) (tfp p) (context p) (ctxp p) (chan p) (pkilled p) (ofile p) (cwd p) v (newp p).
Definition set_newp (v : option (Z * bool)) (p : proc) : proc :=
  mkproc (psz p) (pgdir p) (kstack p) (pstate p) (ppid p) (parent p) (tf p) (tfp p) (context p) (ctxp p) (chan p) (pkilled p) (ofile p) (cwd p) (pname p) v.

Definition tf0 : trapframe := mktf 0 0 0 0 0 0 0 0 0 0 0 0 0 0 0 0 0 0 0.

(** [safestrcpy] (lib/libc/string.c) on arrays of characters. *)
Fixpoint safestrcpy (n : nat) (t dst : list Z) : list Z :=
  match n with
  | O => dst
  | S O => 0 :: drop 1 dst
  | S n' => if Fs.ch t =? 0 then 0 :: 0 :: drop 2 dst else Fs.ch t :: safestrcpy n' (tail t) (tail dst)
  end.

(** The result of an operation. *)
Inductive result := Ret (v : Z) | Switched.

Section Code.

Context {A : Type} `{!PageAlloc A}.

Record state := mkstate {
  fl : File.state A;
  mach : Spin.mach;
  procs : list proc;
  nextpid : Z;
  initproc : option Z;
  first : bool
}.

Definition set_fl (x : File.state A) (s : state) : state := mkstate x (mach s) (procs s) (nextpid s) (initproc s) (first s).
Definition set_mach (x : Spin.mach) (s : state) : state := mkstate (fl s) x (procs s) (nextpid s) (initproc s) (first s).
Definition set_procs (x : list proc) (s : state) : state := mkstate (fl s) (mach s) x (nextpid s) (initproc s) (first s).
Definition set_nextpid (x : Z) (s : state) : state := mkstate (fl s) (mach s) (procs s) x (initproc s) (first s).
Definition set_initproc (x : option Z) (s : state) : state := mkstate (fl s) (mach s) (procs s) (nextpid s) x (first s).
Definition set_first (x : bool) (s : state) : state := mkstate (fl s) (mach s) (procs s) (nextpid s) (initproc s) x.

(** The local APIC ids, the processor that runs, the size of the disk, the end
    of the kernel's code and its page directory, the initial program, and the
    addresses of [trapret] and [forkret]. *)
Variable lapicid : Z -> Z.
Variable c : Z.
Variable ds kdata kpgdir initcode_start initcode_size trapret_addr forkret_addr : Z.

Definition onfl {B} (m : ST (File.state A) B) : ST state B := zoom fl set_fl m.
Definition onmach {B} (m : ST Spin.mach B) : ST state B := zoom mach set_mach m.
Definition onpages {B} (m : ST (A * mem) B) : ST state B := onfl (zoom File.pages File.set_pages m).

Definition get_proc (p : Z) : ST state proc :=
  s ← get; match zlookup (procs s) p with Some x => mret x | None => fault end.
Definition upd_proc (p : Z) (f : proc -> proc) : ST state unit :=
  x ← get_proc p; modify (fun s => set_procs (zinsert p (f x) (procs s)) s).

Definition acquire (lk : Z) : ST state unit := onmach (Spin.acquire lapicid c lk).
Definition release (lk : Z) : ST state unit := onmach (Spin.release lapicid c lk).
Definition mycpu : ST state Z := onmach (Spin.mycpu lapicid c).
Definition get_cpu (i : Z) : ST state Spin.cpu := onmach (Spin.get_cpu i).
Definition upd_cpu (i : Z) (f : Spin.cpu -> Spin.cpu) : ST state unit := onmach (Spin.upd_cpu i f).

Definition myproc : ST state (option Z) :=
  onmach (Spin.pushcli lapicid c);;
  i ← mycpu;
  k ← get_cpu i;
  onmach (Spin.popcli lapicid c);;
  mret (Spin.cproc k).

(** [myproc()] where the code goes on to use the process. *)
Definition curproc : ST state Z :=
  p ← myproc; match p with Some p => mret p | None => fault end.

(** ** Address spaces on the processor (kern/mm/vm.c) *)

Definition switchkvm : ST state unit := upd_cpu c (fun k => Spin.set_vm (V2P kpgdir) (Spin.esp0 k) k).

Definition switchuvm (p : Z) : ST state unit :=
  x ← get_proc p;
  if kstack x =? 0 then panic "switchuvm: no kstack"
  else if pgdir x =? 0 then panic "switchuvm: no pgdir"
  else
    onmach (Spin.pushcli lapicid c);;
    i ← mycpu;
    upd_cpu i (Spin.set_vm (V2P (pgdir x)) (u32 (kstack x + KSTACKSIZE)));;
    onmach (Spin.popcli lapicid c).

(** ** Allocation *)

Definition alloc_pid : ST state Z :=
  s ← get;
  if nextpid s =? 2 ^ 31 - 1 then fault
  else put (set_nextpid (nextpid s + 1) s);; mret (nextpid s).

Fixpoint find_unused (l : list proc) (p : Z) : option Z :=
  match l with
  | [] => None
  | x :: l' => if decide (pstate x = UNUSED) then Some p else find_unused l' (p + 1)
  end.

(** [allocproc] up to the release of the lock. *)
Definition allocproc_pick : ST state (option Z) :=
  acquire PTABLE;;
  s ← get;
  match find_unused (procs s) 0 with
  | None => release PTABLE;; mret None
  | Some p =>
      upd_proc p (set_pstate EMBRYO);;
      pid ← alloc_pid;
      upd_proc p (set_ppid pid);;
      release PTABLE;;
      mret (Some p)
  end.

Definition TRAPFRAME : Z := 76.
Definition CONTEXT : Z := 20.

(** The rest of [allocproc]; the trap frame has the bytes of the page, which
    the callers overwrite. *)
Definition allocproc_stack (p : Z) : ST state bool :=
  k ← onpages pa_alloc;
  upd_proc p (set_kstack k);;
  if k =? 0 then upd_proc p (set_pstate UNUSED);; mret false
  else
    let sp := k + KSTACKSIZE in
    let sp := sp - TRAPFRAME in
    upd_proc p (set_tfp sp);;
    let sp := sp - 4 in
    onpages (Vm.wr32 sp trapret_addr);;
    let sp := sp - CONTEXT in
    upd_proc p (set_ctxp sp);;
    onpages (Vm.onmem (Cstring.memset sp 0 (Z.to_nat CONTEXT)));;
    onpages (Vm.wr32 (sp + 16) forkret_addr);;
    upd_proc p (set_context K_forkret);;
    mret true.

Definition allocproc : ST state (option Z) :=
  r ← allocproc_pick;
  match r with
  | None => mret None
  | Some p => b ← allocproc_stack p; mret (if b : bool then Some p else None)
  end.

Definition SEG_UCODE : Z := 3.
Definition SEG_UDATA : Z := 4.
Definition DPL_USER : Z := 3.
Definition FL_IF : Z := 0x200.

(** The characters of ["initcode"] and of ["/"]. *)
Definition initcode_name : list Z := [105; 110; 105; 116; 99; 111; 100; 101].

Definition userinit : ST state unit :=
  r ← allocproc;
  modify (set_initproc r);;
  match r with
  | None => fault
  | Some p =>
      d ← onpages (Vm.setupkvm kdata);
      upd_proc p (set_pgdir d);;
      if d =? 0 then panic "userinit: out of memory?"
      else
        onpages (Vm.inituvm d initcode_start initcode_size);;
        upd_proc p (set_psz PGSIZE);;
        let ucode := Z.lor (Z.shiftl SEG_UCODE 3) DPL_USER in
        let udata := Z.lor (Z.shiftl SEG_UDATA 3) DPL_USER in
        upd_proc p (set_tf (set_tf_esp PGSIZE (set_tf_eflags FL_IF (set_tf_ss udata
          (set_tf_es udata (set_tf_ds udata (set_tf_cs ucode tf0)))))));;
        upd_proc p (fun x => set_pname (safestrcpy 16 initcode_name (pname x)) x);;
        x ← get_proc p;
        w ← onfl (File.onfs (Fs.namei (BlockIO0 := File.io (ppid x) ds) (ppid x) (fun _ => None) 0 [Fs.SLASH]));
        upd_proc p (set_cwd w);;
        acquire PTABLE;;
        upd_proc p (set_pstate RUNNABLE);;
        release PTABLE
  end.

Definition growproc (n : Z) : ST state Z :=
  p ← curproc;
  x ← get_proc p;
  r ← (if 0 <? n then
         z ← onpages (Vm.allocuvm (pgdir x) (psz x) (u32 (psz x + n)));
         mret (if z =? 0 then None else Some z)
       else if n <? 0 then
         z ← onpages (Vm.deallocuvm (pgdir x) (psz x) (u32 (psz x + n)));
         mret (if z =? 0 then None else Some z)
       else mret (Some (psz x)));
  match r with
  | None => mret (-1)
  | Some sz => upd_proc p (set_psz sz);; switchuvm p;; mret 0
  end.

(** ** Fork *)

(** The loop over the open files. *)
Fixpoint dup_files (n : nat) (p np i : Z) : ST state unit :=
  match n with
  | O => mret tt
  | S n' =>
      x ← get_proc p;
      (match zlookup (ofile x) i with
       | Some (Some f) =>
           g ← onfl (File.filedup f);
           upd_proc np (fun y => set_ofile (zinsert i (Some g) (ofile y)) y)
       | Some None => mret tt
       | None => fault
       end);;
      dup_files n' p np (i + 1)
  end.

(** [fork] after [allocproc] until the lock is taken; false is the failure of
    the copy. *)
Definition fork_copy (p np : Z) : ST state bool :=
  x ← get_proc p;
  d ← onpages (Vm.copyuvm kdata (pgdir x) (psz x));
  upd_proc np (set_pgdir d);;
  if d =? 0 then
    y ← get_proc np;
    onpages (pa_free (kstack y));;
    upd_proc np (set_kstack 0);;
    upd_proc np (set_pstate UNUSED);;
    mret false
  else
    upd_proc np (set_psz (psz x));;
    upd_proc np (set_parent (Some p));;
    upd_proc np (set_tf (tf x));;
    upd_proc np (fun y => set_tf (set_tf_eax 0 (tf y)) y);;
    dup_files (Z.to_nat NOFILE) p np 0;;
    x ← get_proc p;
    (match cwd x with
     | None => fault
     | Some w => w' ← onfl (File.onfs (Fs.idup w)); upd_proc np (set_cwd (Some w'))
     end);;
    upd_proc np (fun y => set_pname (safestrcpy 16 (pname x) (pname y)) y);;
    mret true.

Definition fork_run (np : Z) : ST state Z :=
  y ← get_proc np;
  let pid := ppid y in
  acquire PTABLE;;
  upd_proc np (set_pstate RUNNABLE);;
  release PTABLE;;
  mret pid.

Definition fork : ST state Z :=
  p ← curproc;
  r ← allocproc;
  match r with
  | None => mret (-1)
  | Some np =>
      b ← fork_copy p np;
      if b : bool then fork_run np else mret (-1)
  end.

(** ** The scheduler *)

(** [sched]: the thread continues with [k]. *)
Definition sched (k : bool -> kont) : ST state unit :=
  p ← curproc;
  h ← onmach (Spin.holding lapicid c PTABLE);
  if negb h then panic "sched ptable.lock"
  else
    i ← mycpu;
    u ← get_cpu i;
    if negb (Spin.ncli u =? 1) then panic "sched locks"
    else
      x ← get_proc p;
      if decide (pstate x = RUNNING) then panic "sched running"
      else
        e ← onmach (Spin.readeflags c);
        if e : bool then panic "sched interruptible"
        else
          i ← mycpu;
          u ← get_cpu i;
          upd_proc p (set_context (k (Spin.intena u)));;
          match Spin.pos u with
          | Spin.S_run q => upd_cpu i (Spin.set_pos (Spin.S_back q))
          | _ => fault
          end.

(** What [sched] does when it returns. *)
Definition sched_return (intena : bool) : ST state unit :=
  i ← mycpu; upd_cpu i (Spin.set_intena intena).

Definition yield : ST state result :=
  acquire PTABLE;;
  p ← curproc;
  upd_proc p (set_pstate RUNNABLE);;
  sched K_yield;;
  mret Switched.

(** [sleep] up to [sched]. *)
Definition sleep (ch : channel) (lk : Z) (a : after) : ST state result :=
  p ← myproc;
  match p with
  | None => panic "sleep"
  | Some p =>
      (if negb (lk =? PTABLE) then
         acquire PTABLE;;
         if negb (lk =? 0) then release lk else mret tt
       else mret tt);;
      upd_proc p (set_chan ch);;
      upd_proc p (set_pstate SLEEPING);;
      sched (K_sleep lk a);;
      mret Switched
  end.

(** [sleep] after [sched]. *)
Definition sleep_return (lk : Z) : ST state unit :=
  p ← curproc;
  upd_proc p (set_chan C_none);;
  if negb (lk =? PTABLE) then
    release PTABLE;;
    if negb (lk =? 0) then acquire lk else mret tt
  else mret tt.

Definition wake (ch : channel) (x : proc) : proc :=
  if decide (pstate x = SLEEPING /\ chan x = ch) then set_pstate RUNNABLE x else x.

Definition wakeup1 (ch : channel) : ST state unit :=
  modify (fun s => set_procs (map (wake ch) (procs s)) s).

Definition wakeup (ch : channel) : ST state unit :=
  acquire PTABLE;; wakeup1 ch;; release PTABLE.

Fixpoint find_pid (l : list proc) (pid p : Z) : option Z :=
  match l with
  | [] => None
  | x :: l' => if ppid x =? pid then Some p else find_pid l' pid (p + 1)
  end.

Definition kill (pid : Z) : ST state Z :=
  acquire PTABLE;;
  s ← get;
  match find_pid (procs s) pid 0 with
  | Some p =>
      upd_proc p (set_pkilled true);;
      x ← get_proc p;
      (if decide (pstate x = SLEEPING) then upd_proc p (set_pstate RUNNABLE) else mret tt);;
      release PTABLE;;
      mret 0
  | None => release PTABLE;; mret (-1)
  end.

(** ** Exit and wait *)

Fixpoint close_files (n : nat) (p fd : Z) : ST state unit :=
  match n with
  | O => mret tt
  | S n' =>
      x ← get_proc p;
      (match zlookup (ofile x) fd with
       | Some (Some f) =>
           onfl (File.fileclose (ppid x) ds f);;
           upd_proc p (fun y => set_ofile (zinsert fd None (ofile y)) y)
       | Some None => mret tt
       | None => fault
       end);;
      close_files n' p (fd + 1)
  end.

(** [exit] before it takes the lock. *)
Definition exit_files : ST state unit :=
  p ← curproc;
  s ← get;
  if decide (Some p = initproc s) then panic "init exiting"
  else
    close_files (Z.to_nat NOFILE) p 0;;
    x ← get_proc p;
    onfl (File.begin_op);;
    (match cwd x with
     | None => fault
     | Some w => onfl (File.onfs (Fs.iput (BlockIO0 := File.io (ppid x) ds) (ppid x) w))
     end);;
    onfl (File.end_op (ppid x) ds);;
    upd_proc p (set_cwd None).

(** The loop that passes the children of [p] to init. *)
Fixpoint reparent (n : nat) (p q : Z) : ST state unit :=
  match n with
  | O => mret tt
  | S n' =>
      x ← get_proc q;
      (if decide (parent x = Some p) then
         s ← get;
         upd_proc q (set_parent (initproc s));;
         if decide (pstate x = ZOMBIE) then
           wakeup1 (match initproc s with Some i => C_proc i | None => C_none end)
         else mret tt
       else mret tt);;
      reparent n' p (q + 1)
  end.

(** The rest of [exit]. *)
Definition exit_zombie : ST state result :=
  p ← curproc;
  acquire PTABLE;;
  x ← get_proc p;
  wakeup1 (match parent x with Some q => C_proc q | None => C_none end);;
  reparent (Z.to_nat NPROC) p 0;;
  upd_proc p (set_pstate ZOMBIE);;
  sched K_exit;;
  mret Switched.

Definition exit : ST state result := exit_files;; exit_zombie.

(** What [wait] does with a child that has exited. *)
Definition reap (q : Z) : ST state Z :=
  x ← get_proc q;
  let pid := ppid x in
  onpages (pa_free (kstack x));;
  upd_proc q (set_kstack 0);;
  onpages (Vm.freevm (pgdir x));;
  upd_proc q (set_ppid 0);;
  upd_proc q (set_parent None);;
  upd_proc q (fun y => set_pname (zinsert 0 0 (pname y)) y);;
  upd_proc q (set_pkilled false);;
  upd_proc q (set_pstate UNUSED);;
  mret pid.

(** The scan of the table: the pid of the child reaped, or whether there are
    children. *)
Fixpoint wait_scan (n : nat) (p q : Z) (havekids : bool) : ST state (option Z * bool) :=
  match n with
  | O => mret (None, havekids)
  | S n' =>
      x ← get_proc q;
      if decide (parent x <> Some p) then wait_scan n' p (q + 1) havekids
      else if decide (pstate x = ZOMBIE) then
        pid ← reap q; mret (Some pid, true)
      else wait_scan n' p (q + 1) true
  end.

(** An iteration of the loop of [wait], up to its [sleep]. *)
Definition wait_loop (p : Z) : ST state result :=
  r ← wait_scan (Z.to_nat NPROC) p 0 false;
  match r with
  | (Some pid, _) => release PTABLE;; mret (Ret pid)
  | (None, havekids) =>
      x ← get_proc p;
      if negb havekids || pkilled x then release PTABLE;; mret (Ret (-1))
      else sleep (C_proc p) PTABLE A_wait
  end.

Definition wait : ST state result :=
  p ← curproc;
  acquire PTABLE;;
  wait_loop p.

(** ** The threads *)

Definition forkret : ST state result :=
  release PTABLE;;
  s ← get;
  (if first s then
     modify (set_first false);;
     p ← curproc;
     x ← get_proc p;
     onfl (File.onfs (Fs.iinit (BlockIO0 := File.io (ppid x) ds) Fs.ROOTDEV));;
     onfl (File.onfs (Fs.onio (Log.initlog (ppid x) ds Fs.ROOTDEV)))
   else mret tt);;
  mret (Ret 0).

(** A thread continues. *)
Definition resume (k : kont) : ST state result :=
  match k with
  | K_forkret => forkret
  | K_yield e => sched_return e;; release PTABLE;; mret (Ret 0)
  | K_sleep lk a e =>
      sched_return e;;
      sleep_return lk;;
      match a with
      | A_ret => mret (Ret 0)
      | A_wait => p ← curproc; wait_loop p
      end
  | K_exit e => sched_return e;; panic "zombie exit"
  end.

(** [scheduler]: the next part of its loop that runs on this processor.  The
    part between the two switches is the process's. *)
Definition scheduler : ST state unit :=
  u ← get_cpu c;
  match Spin.pos u with
  | Spin.S_top =>
      onmach (Spin.sti c);;
      acquire PTABLE;;
      upd_cpu c (Spin.set_pos (Spin.S_scan 0))
  | Spin.S_scan p =>
      if p <? NPROC then
        x ← get_proc p;
        if decide (pstate x <> RUNNABLE) then upd_cpu c (Spin.set_pos (Spin.S_scan (p + 1)))
        else
          upd_cpu c (Spin.set_cproc (Some p));;
          switchuvm p;;
          upd_proc p (set_pstate RUNNING);;
          upd_cpu c (Spin.set_pos (Spin.S_enter p))
      else
        release PTABLE;;
        upd_cpu c (Spin.set_pos Spin.S_top)
  | Spin.S_enter p =>
      upd_cpu c (Spin.set_pos (Spin.S_run p));;
      x ← get_proc p;
      resume (context x);;
      mret tt
  | Spin.S_run _ => fault
  | Spin.S_back p =>
      switchkvm;;
      upd_cpu c (Spin.set_cproc None);;
      upd_cpu c (Spin.set_pos (Spin.S_scan (p + 1)))
  end.

End Code.

Arguments state : clear implicits.

End Proc.
