(* ===== verification/ProcInv.v ===== *)
(** * The invariant of processes and processors

    [hwp E m Q s]: run from [s], the code [m] ends in a state that satisfies [Q],
    or it spins on a lock; it goes wrong (a panic or a fault) only if [E].
    Then the rules for the locks and the current process, and the invariant
    that ties the processors to the process table. *)

From Stdlib Require Import ZArith Lia.
From stdpp Require Import base numbers strings list gmap.
From S2P Require Import Prelude Mmu Mem Kalloc File Spin Proc.

Open Scope Z_scope.

Import Mmu Kalloc Spin Proc.

Module ProcInv.

Definition hwp {S A} (E : Prop) (m : ST S A) (Q : A -> S -> Prop) (s : S) : Prop :=
  match m s with
  | Ok (a, s') => Q a s'
  | Blocked => True
  | _ => E
  end.

Section Hwp.

Context {S : Type} (E : Prop).

Lemma hwp_ret {B} (b : B) (Q : B -> S -> Prop) s : Q b s -> hwp E (mret b) Q s.
Proof. exact id. Qed.

Lemma hwp_bind {B T} (m : ST S B) (k : B -> ST S T) Q s :
  hwp E m (fun b s' => hwp E (k b) Q s') s -> hwp E (m ≫= k) Q s.
Proof. unfold hwp, mbind, ST_bind. destruct (m s) as [[b s']| | | |]; tauto. Qed.

Lemma hwp_mono {B} (m : ST S B) (Q Q' : B -> S -> Prop) s :
  hwp E m Q s -> (forall b s', Q b s' -> Q' b s') -> hwp E m Q' s.
Proof. unfold hwp. destruct (m s) as [[b s']| | | |]; auto. Qed.

Lemma hwp_get (Q : S -> S -> Prop) s : Q s s -> hwp E get Q s.
Proof. exact id. Qed.

Lemma hwp_modify f (Q : unit -> S -> Prop) s : Q tt (f s) -> hwp E (modify f) Q s.
Proof. exact id. Qed.

Lemma hwp_Ok {B} (m : ST S B) (Q : B -> S -> Prop) s b s' : m s = Ok (b, s') -> Q b s' -> hwp E m Q s.
Proof. unfold hwp. by intros ->. Qed.

Lemma hwp_run {B} (m : ST S B) (Q : B -> S -> Prop) s b s' : hwp E m Q s -> m s = Ok (b, s') -> Q b s'.
Proof. unfold hwp. intros H R. by rewrite R in H. Qed.

(** Code that may go wrong. *)
Lemma hwp_any {B} (m : ST S B) (Q : B -> S -> Prop) s :
  E -> (forall b s', m s = Ok (b, s') -> Q b s') -> hwp E m Q s.
Proof. unfold hwp. destruct (m s) as [[b s']| | | |]; auto. Qed.

End Hwp.

(** ** The processors *)

Section Mach.

Context (lapicid : Z -> Z).

(** A change of the fields that the locks do not use. *)
Lemma mach_ok_set m c k k' : mach_ok lapicid m -> zlookup (cpus m) c = Some k ->
  apicid k' = apicid k -> ncli k' = ncli k -> c_if k' = c_if k -> mach_ok lapicid (set_cpu c k' m).
Proof.
  intros [H1 H2 H3 H4] E E1 E2 E3. split; [by eapply cpus_ok_set|done| |].
  - intros c' k1. cbn. rewrite (lookup_set c k) by done. destruct (decide (c' = c)) as [->|]; [|apply H3].
    intros [= <-]. rewrite E2. by apply (H3 c k).
  - intros c' k1. cbn. rewrite (lookup_set c k) by done. destruct (decide (c' = c)) as [->|]; [|apply H4].
    intros [= <-]. rewrite E2, E3. by apply (H4 c k).
Qed.

(** The effect of [pushcli] followed by [popcli]. *)
Definition touch (k : cpu) : cpu := if ncli k =? 0 then set_intena (c_if k) k else k.

Lemma touch_eq m c k : mach_ok lapicid m -> zlookup (cpus m) c = Some k -> popped (pushed k) = touch k.
Proof.
  intros Hok E. unfold touch. pose proof (mo_ncli _ _ Hok c k E). destruct (Z.eqb_spec (ncli k) 0); [by apply popped_pushed0|].
  apply popped_pushed; [lia|]. apply (mo_if _ _ Hok c k E). lia.
Qed.

Lemma touch_locked k : ncli k <> 0 -> touch k = k.
Proof. intros H. unfold touch. by rewrite (proj2 (Z.eqb_neq _ _) H). Qed.

Lemma touch_fields k : apicid (touch k) = apicid k /\ ncli (touch k) = ncli k /\ c_if (touch k) = c_if k /\
  cproc (touch k) = cproc k /\ pos (touch k) = pos k /\ cr3 (touch k) = cr3 k /\ esp0 (touch k) = esp0 k.
Proof. unfold touch. by destruct (ncli k =? 0). Qed.

Lemma held_ncli m c k : mach_ok lapicid m -> zlookup (cpus m) c = Some k ->
  (held m c = ∅ <-> ncli k = 0) /\ (forall lk, held m c = {[lk]} -> ncli k = 1).
Proof.
  intros Hok E. pose proof (mo_ncli _ _ Hok c k E) as Hn. split; [split|].
  - intros H. rewrite H, size_empty in Hn. done.
  - intros H. apply leibniz_equiv, size_empty_inv. lia.
  - intros lk H. rewrite H, size_singleton in Hn. done.
Qed.

End Mach.

(** ** The process table *)

Definition alive (x : proc) : Prop := pstate x = SLEEPING \/ pstate x = RUNNABLE \/ pstate x = RUNNING.

(** The thread can continue; it holds [ptable.lock] across [sleep] in [wait] only. *)
Definition ctx_ok (x : proc) : Prop :=
  match context x with
  | K_forkret | K_yield _ => True
  | K_sleep lk a _ => a = A_wait <-> lk = PTABLE
  | K_exit _ => False
  end.

(** The process sleeps in [wait]. *)
Definition in_wait (x : proc) : Prop := pstate x = SLEEPING /\ exists lk e, context x = K_sleep lk A_wait e.

Record lok (i : Z) (x : proc) : Prop := {
  lo_mem : alive x -> kstack x <> 0 /\ pgdir x <> 0;
  lo_ctx : pstate x = RUNNABLE \/ pstate x = SLEEPING -> ctx_ok x;
  lo_sleep : pstate x = SLEEPING -> exists lk a e, context x = K_sleep lk a e;
  lo_wait : in_wait x -> chan x = C_proc i;
  lo_unused : pstate x = UNUSED -> parent x = None;
  lo_self : parent x <> Some i
}.

(** The child that a process is creating. *)
Definition new_ok (i : Z) (d : bool) (y : proc) : Prop :=
  pstate y = EMBRYO /\
  if d then kstack y <> 0 /\ pgdir y <> 0 /\ parent y = Some i /\ context y = K_forkret else parent y = None.

Record tinv (P : list proc) (ini : option Z) (np : Z) : Prop := {
  t_len : length P = Z.to_nat NPROC;
  t_loc : forall i x, zlookup P i = Some x -> lok i x;
  t_init : exists ip x, ini = Some ip /\ zlookup P ip = Some x /\ alive x /\ parent x = None;
  t_parent : forall i x j, zlookup P i = Some x -> parent x = Some j -> exists y, zlookup P j = Some y /\ alive y;
  t_child : forall i x, zlookup P i = Some x -> alive x \/ pstate x = ZOMBIE -> Some i <> ini -> exists j, parent x = Some j;
  t_wait : forall i x j y, zlookup P i = Some x -> in_wait x -> zlookup P j = Some y -> parent y = Some i -> pstate y <> ZOMBIE;
  t_new : forall i x n d, zlookup P i = Some x -> newp x = Some (n, d) ->
    alive x /\ exists y, zlookup P n = Some y /\ new_ok i d y;
  t_newinj : forall i x j y n d d', zlookup P i = Some x -> zlookup P j = Some y -> newp x = Some (n, d) ->
    newp y = Some (n, d') -> i = j;
  t_pid : forall i x, zlookup P i = Some x -> pstate x <> UNUSED -> 0 < ppid x < np;
  t_piduniq : forall i x j y, zlookup P i = Some x -> zlookup P j = Some y -> pstate x <> UNUSED -> pstate y <> UNUSED ->
    ppid x = ppid y -> i = j
}.

(** A change of an entry that keeps the process alive, or not, and its place in
    the tree. *)
Record mild (P : list proc) (i : Z) (x x' : proc) : Prop := {
  m_pid : ppid x' = ppid x;
  m_parent : parent x' = parent x;
  m_newp : newp x' = newp x;
  m_state : pstate x' = pstate x \/ (alive x /\ alive x');
  m_embryo : pstate x = EMBRYO -> kstack x' = kstack x /\ pgdir x' = pgdir x /\ context x' = context x;
  m_lok : lok i x -> lok i x';
  m_wait : in_wait x' -> in_wait x \/ (forall j y, zlookup P j = Some y -> parent y = Some i -> pstate y <> ZOMBIE)
}.

Lemma mild_alive P i x x' : mild P i x x' -> alive x -> alive x'.
Proof. intros Hm Hx. destruct (m_state _ _ _ _ Hm) as [E|[_ ?]]; [|done]. unfold alive in *. by rewrite E. Qed.

Lemma mild_state P i x x' t : mild P i x x' -> t = UNUSED \/ t = EMBRYO \/ t = ZOMBIE -> (pstate x' = t <-> pstate x = t).
Proof.
  intros Hm Ht. destruct (m_state _ _ _ _ Hm) as [->|[H1 H2]]; [done|]. unfold alive in *.
  destruct Ht as [->|[->| ->]], (pstate x), (pstate x'); naive_solver.
Qed.

Lemma tinv_mild P P' ini np : tinv P ini np -> length P' = length P ->
  (forall i x, zlookup P i = Some x -> exists x', zlookup P' i = Some x' /\ mild P i x x') -> tinv P' ini np.
Proof.
  intros [T1 T2 T3 T4 T5 T6 T7 T8 T9 T10] Hlen HM.
  assert (HB : forall i x', zlookup P' i = Some x' -> exists x, zlookup P i = Some x /\ mild P i x x').
  { intros i x' Hx'. pose proof (zlookup_lt _ _ _ Hx') as Hr. rewrite Hlen in Hr.
    destruct (zlookup_is_Some P i Hr) as [x Hx]. destruct (HM i x Hx) as (x2 & Hx2 & Hm). simplify_eq. eauto. }
  split; [congruence|..].
  - intros i x' (x & Hx & Hm)%HB. apply (m_lok _ _ _ _ Hm), (T2 i x Hx).
  - destruct T3 as (ip & x & E1 & Hx & Ha & Hp). destruct (HM ip x Hx) as (x' & Hx' & Hm). exists ip, x'.
    split; [done|]. split; [done|]. split; [by eapply mild_alive|]. by rewrite (m_parent _ _ _ _ Hm).
  - intros i x' j (x & Hx & Hm)%HB Hp. rewrite (m_parent _ _ _ _ Hm) in Hp. destruct (T4 i x j Hx Hp) as (y & Hy & Ha).
    destruct (HM j y Hy) as (y' & Hy' & Hm'). exists y'. split; [done|]. by eapply mild_alive.
  - intros i x' (x & Hx & Hm)%HB Ha Hi. rewrite (m_parent _ _ _ _ Hm). apply (T5 i x Hx); [|done].
    destruct (m_state _ _ _ _ Hm) as [E|[? _]]; [|by left]. unfold alive in *. by rewrite E in Ha.
  - intros i x' j y' (x & Hx & Hm)%HB Hw (y & Hy & Hm')%HB Hp Hz. rewrite (m_parent _ _ _ _ Hm') in Hp.
    apply (mild_state _ _ _ _ _ Hm') in Hz; [|auto]. destruct (m_wait _ _ _ _ Hm Hw) as [Hw0|Hn]; [by apply (T6 i x j y)|].
    by apply (Hn j y).
  - intros i x' n d (x & Hx & Hm)%HB Hn. rewrite (m_newp _ _ _ _ Hm) in Hn. destruct (T7 i x n d Hx Hn) as (Ha & y & Hy & Hemb & Hd).
    split; [by eapply mild_alive|]. destruct (HM n y Hy) as (y' & Hy' & Hm'). exists y'. split; [done|].
    destruct (m_embryo _ _ _ _ Hm' Hemb) as (E1 & E2 & E3). split; [apply (mild_state _ _ _ _ _ Hm'); auto|].
    rewrite (m_parent _ _ _ _ Hm'), E1, E2, E3. done.
  - intros i x' j y' n d d' (x & Hx & Hm)%HB (y & Hy & Hm')%HB. rewrite (m_newp _ _ _ _ Hm), (m_newp _ _ _ _ Hm'). by apply T8.
  - intros i x' (x & Hx & Hm)%HB Hu. rewrite (m_pid _ _ _ _ Hm). apply (T9 i x Hx). intros E. apply Hu. apply (mild_state _ _ _ _ _ Hm); auto.
  - intros i x' j y' (x & Hx & Hm)%HB (y & Hy & Hm')%HB Hu Hu'. rewrite (m_pid _ _ _ _ Hm), (m_pid _ _ _ _ Hm').
    apply T10; [done|done|..]; intros E; [apply Hu|apply Hu']; eapply mild_state; eauto.
Qed.

Lemma mild_refl P i x : mild P i x x.
Proof. split; auto. Qed.

(** A change of one entry. *)
Lemma tinv_upd P ini np p x x' : tinv P ini np -> zlookup P p = Some x -> mild P p x x' -> tinv (zinsert p x' P) ini np.
Proof.
  intros HT Hx Hm. eapply tinv_mild; [done|apply length_zinsert|]. intros i y Hy. destruct (decide (i = p)) as [->|Hne].
  - simplify_eq. exists x'. split; [|done]. apply zlookup_zinsert_eq. by eapply zlookup_lt.
  - exists y. rewrite zlookup_zinsert_ne by done. split; [done|apply mild_refl].
Qed.

Section Inv.

Context {A : Type} (lapicid : Z -> Z).

Local Abbreviation state := (Proc.state A).

Definition cpu_at (s : state) (c : Z) (k : cpu) : Prop := zlookup (cpus (mach s)) c = Some k.
Definition pr (s : state) (p : Z) (x : proc) : Prop := zlookup (procs s) p = Some x.

(** ** Rules *)

Section Rules.

Context (E : Prop) (c : Z) (s : state) (k : cpu) (Hok : mach_ok lapicid (mach s)) (Hk : cpu_at s c k).

Lemma hwp_onmach {B} (m : ST Spin.mach B) Q b m' : m (mach s) = Ok (b, m') -> Q b (set_mach m' s) -> hwp E (onmach (A := A) m) Q s.
Proof. intros R HQ. eapply hwp_Ok; [|exact HQ]. unfold onmach, zoom. by rewrite R. Qed.

Lemma hwp_upd_cpu f Q : Q tt (set_mach (set_cpu c (f k) (mach s)) s) -> hwp E (upd_cpu (A := A) c f) Q s.
Proof. intros HQ. eapply hwp_onmach; [by apply (upd_cpu_eq c f k)|done]. Qed.

Lemma hwp_mycpu Q : c_if k = false -> Q c s -> hwp E (mycpu (A := A) lapicid c) Q s.
Proof. intros Hif HQ. eapply hwp_onmach; [eapply mycpu_spec; [apply Hok|done|done]|]. by destruct s. Qed.

Lemma run_myproc : myproc (A := A) lapicid c s = Ok (cproc k, set_mach (set_cpu c (touch k) (mach s)) s).
Proof.
  pose proof (mo_cpus _ _ Hok) as Hc. pose proof (mo_ncli _ _ Hok c k Hk) as Hn.
  set (m1 := set_cpu c (pushed k) (mach s)).
  assert (Hc1 : cpus_ok lapicid m1) by (by eapply cpus_ok_set). assert (L1 : zlookup (cpus m1) c = Some (pushed k)) by (apply lookup_set_cpu; eauto).
  assert (R1 : onmach (Spin.pushcli lapicid c) s = Ok (tt, set_mach m1 s)) by (unfold onmach, zoom; by rewrite (pushcli_spec lapicid c k)).
  assert (R2 : mycpu lapicid c (set_mach m1 s) = Ok (c, set_mach m1 s)).
  { unfold mycpu, onmach, zoom. cbn [mach set_mach]. by rewrite (mycpu_spec lapicid c (pushed k)). }
  assert (R3 : get_cpu c (set_mach m1 s) = Ok (pushed k, set_mach m1 s)).
  { unfold get_cpu, onmach, zoom, Spin.get_cpu, mbind, ST_bind, get. cbn [mach set_mach]. by rewrite L1. }
  assert (R4 : onmach (Spin.popcli lapicid c) (set_mach m1 s) = Ok (tt, set_mach (set_cpu c (touch k) (mach s)) s)).
  { unfold onmach, zoom. cbn [mach set_mach]. rewrite (popcli_spec lapicid c (pushed k)) by (done || cbn; lia).
    unfold m1. rewrite set_cpu_twice. by rewrite (touch_eq lapicid (mach s) c k). }
  unfold myproc.
  by rewrite (run_bind _ _ _ _ _ R1), (run_bind _ _ _ _ _ R2), (run_bind _ _ _ _ _ R3), (run_bind _ _ _ _ _ R4).
Qed.

Lemma hwp_myproc Q : Q (cproc k) (set_mach (set_cpu c (touch k) (mach s)) s) -> hwp E (myproc (A := A) lapicid c) Q s.
Proof. intros HQ. eapply hwp_Ok; [apply run_myproc|exact HQ]. Qed.

Lemma hwp_curproc p Q : cproc k = Some p -> Q p (set_mach (set_cpu c (touch k) (mach s)) s) -> hwp E (curproc (A := A) lapicid c) Q s.
Proof. intros Hp HQ. unfold curproc. apply hwp_bind, hwp_myproc. by rewrite Hp. Qed.

(** In a critical section. *)
Lemma set_mach_touch : ncli k <> 0 -> set_mach (set_cpu c (touch k) (mach s)) s = s.
Proof. intros Hn. rewrite touch_locked, set_cpu_same by done. by destruct s. Qed.

Lemma hwp_curproc_locked p Q : ncli k <> 0 -> cproc k = Some p -> Q p s -> hwp E (curproc (A := A) lapicid c) Q s.
Proof. intros Hn Hp HQ. eapply hwp_curproc; [done|]. by rewrite set_mach_touch. Qed.

Lemma hwp_acquire lk l Q : locks (mach s) !! lk = Some l -> lk ∉ held (mach s) c ->
  (lcpu l = None -> Q tt (set_mach (acquired c lk k (mach s)) s)) -> hwp E (acquire (A := A) lapicid c lk) Q s.
Proof.
  intros El Hh HQ. pose proof (mo_ncli _ _ Hok c k Hk) as Hn. pose proof (mo_lock _ _ Hok lk l El) as Hl.
  unfold hwp, acquire, onmach, zoom. rewrite (acquire_spec lapicid c k (mach s) lk l) by (apply Hok || done || lia).
  rewrite (held_by_eq lapicid (mach s) lk l c Hok El), bool_decide_eq_false_2 by done.
  destruct (lcpu l); rewrite Hl; [done|]. by apply HQ.
Qed.

Lemma hwp_release lk Q : lk ∈ held (mach s) c -> Q tt (set_mach (released c lk k (mach s)) s) -> hwp E (release (A := A) lapicid c lk) Q s.
Proof.
  intros Hh HQ. pose proof (mo_ncli _ _ Hok c k Hk) as Hn. pose proof (held_pos _ _ _ Hh) as Hpos.
  pose proof Hh as (l & El & Hl)%elem_of_held.
  eapply hwp_onmach; [|exact HQ]. rewrite (release_spec lapicid c k (mach s) lk l) by (apply Hok || done || lia || (intros _; split; [apply (mo_if _ _ Hok c k Hk); lia|lia])).
  by rewrite (held_by_eq lapicid (mach s) lk l c Hok El), bool_decide_eq_true_2 by done.
Qed.

Lemma hwp_holding lk l Q : locks (mach s) !! lk = Some l -> ncli k <> 0 ->
  Q (bool_decide (lk ∈ held (mach s) c)) s -> hwp E (onmach (A := A) (Spin.holding lapicid c lk)) Q s.
Proof.
  intros El Hn HQ. pose proof (mo_ncli _ _ Hok c k Hk). eapply hwp_onmach.
  - rewrite (holding_spec lapicid c k (mach s) lk l) by (apply Hok || done || lia).
    by rewrite (held_by_eq lapicid (mach s) lk l c Hok El), (touch_eq lapicid (mach s) c k Hok Hk).
  - by rewrite set_mach_touch.
Qed.

End Rules.

Lemma hwp_get_cpu E c (s : state) k Q : cpu_at s c k -> Q k s -> hwp E (get_cpu c) Q s.
Proof.
  intros Hk HQ. eapply hwp_Ok; [|exact HQ]. unfold get_cpu, onmach, zoom, Spin.get_cpu, mbind, ST_bind, get.
  cbn. rewrite Hk. by destruct s.
Qed.

Lemma hwp_get_proc E (s : state) p x Q : pr s p x -> Q x s -> hwp E (get_proc p) Q s.
Proof. intros Hx HQ. eapply hwp_Ok; [|exact HQ]. unfold get_proc, mbind, ST_bind, get. by rewrite Hx. Qed.

Lemma hwp_upd_proc E (s : state) p x f Q : pr s p x ->
  Q tt (set_procs (zinsert p (f x) (procs s)) s) -> hwp E (upd_proc p f) Q s.
Proof. intros Hx HQ. unfold upd_proc. apply hwp_bind. by eapply hwp_get_proc. Qed.

(** ** The processors and the table *)

(** The process that runs on the processor. *)
Definition on (k : cpu) : option Z :=
  match pos k with S_enter i | S_run i => Some i | _ => None end.

(** The address space and the kernel stack of the process are in place. *)
Definition loaded (k : cpu) (x : proc) : Prop := cr3 k = V2P (pgdir x) /\ esp0 k = u32 (kstack x + KSTACKSIZE).

(** The state of a processor; [h] is the processor on which a process is in a
    critical section of its own, if any. *)
Definition cpu_ok (h : option Z) (m : Spin.mach) (P : list proc) (c : Z) (k : cpu) : Prop :=
  match pos k with
  | S_top => cproc k = None /\ held m c = ∅
  | S_scan i => cproc k = None /\ held m c = {[PTABLE]} /\ 0 <= i <= NPROC
  | S_enter i => cproc k = Some i /\ held m c = {[PTABLE]} /\
      exists x, zlookup P i = Some x /\ pstate x = RUNNING /\ ctx_ok x /\ loaded k x
  | S_run i => cproc k = Some i /\ (PTABLE ∈ held m c <-> h = Some c) /\ exists x, zlookup P i = Some x /\ pstate x = RUNNING /\ loaded k x
  | S_back i => cproc k = Some i /\ held m c = {[PTABLE]} /\ exists x, zlookup P i = Some x /\ pstate x <> RUNNING
  end.

Record minv (h : option Z) (m : Spin.mach) (P : list proc) : Prop := {
  mi_ok : mach_ok lapicid m;
  mi_lock : exists l, locks m !! PTABLE = Some l;
  mi_cpu : forall c k, zlookup (cpus m) c = Some k -> cpu_ok h m P c k;
  mi_excl : forall c c' k k' i, zlookup (cpus m) c = Some k -> zlookup (cpus m) c' = Some k' ->
    on k = Some i -> on k' = Some i -> c = c';
  mi_run : forall i x, zlookup P i = Some x -> pstate x = RUNNING -> exists c k, zlookup (cpus m) c = Some k /\ on k = Some i
}.

Record inv (s : state) : Prop := {
  i_mach : minv None (mach s) (procs s);
  i_tab : tinv (procs s) (initproc s) (nextpid s)
}.

Lemma held_excl (m : Spin.mach) c d lk : lk ∈ held m c -> lk ∈ held m d -> c = d.
Proof. intros (l & E1 & H1)%elem_of_held (l' & E2 & H2)%elem_of_held. congruence. Qed.

(** Entries as the other processors see them. *)
Definition keeps (x x' : proc) : Prop :=
  (pstate x = RUNNING <-> pstate x' = RUNNING) /\
  (pstate x = RUNNING -> pgdir x' = pgdir x /\ kstack x' = kstack x /\ context x' = context x).

Lemma keeps_refl x : keeps x x.
Proof. split; auto. Qed.

Lemma minv_build h h' m m' P P' c k k' :
  minv h m P -> (forall d, d <> c -> h' = Some d <-> h = Some d) -> zlookup (cpus m) c = Some k -> mach_ok lapicid m' -> (exists l, locks m' !! PTABLE = Some l) ->
  cpus m' = zinsert c k' (cpus m) -> (forall d, d <> c -> held m' d = held m d) -> length P' = length P ->
  (forall i x, zlookup P i = Some x -> on k <> Some i -> on k' <> Some i -> exists x', zlookup P' i = Some x' /\ keeps x x') ->
  (forall i, on k' = Some i -> on k <> Some i -> pos k' = S_enter i /\ forall x, zlookup P i = Some x -> pstate x <> RUNNING) ->
  (forall i x', on k = Some i -> on k' <> Some i -> zlookup P' i = Some x' -> pstate x' <> RUNNING) ->
  cpu_ok h' m' P' c k' -> minv h' m' P'.
Proof.
  intros [M1 M2 M3 M4 M5] Hhh Hk Hok Hlk Hcpus Hheld Hlen Hkeep Hin Hout Hc'.
  assert (HL : forall d j, zlookup (cpus m') d = Some j -> (d = c /\ j = k') \/ (d <> c /\ zlookup (cpus m) d = Some j)).
  { intros d j. rewrite Hcpus, (lookup_set c k) by done. destruct (decide (d = c)); [intros [= <-]; by left|by right]. }
  assert (Hc0 : zlookup (cpus m') c = Some k') by (rewrite Hcpus; apply zlookup_zinsert_eq; by eapply zlookup_lt).
  assert (HR : forall d j, d <> c -> zlookup (cpus m) d = Some j -> zlookup (cpus m') d = Some j)
    by (intros d j Hd Hj; by rewrite Hcpus, zlookup_zinsert_ne).
  assert (Hoth : forall d j i, d <> c -> zlookup (cpus m) d = Some j -> on j = Some i -> on k <> Some i /\ on k' <> Some i).
  { intros d j i Hd Hj Hi. assert (Hno : on k <> Some i) by (intros E; apply Hd; by eapply M4). split; [done|]. intros E.
    pose proof (M3 d j Hj) as Hcj. assert (exists x, zlookup P i = Some x /\ pstate x = RUNNING) as (x & Hx & Hr).
    { unfold cpu_ok, on in *. destruct (pos j); try done; injection Hi as ->; naive_solver. }
    by apply (proj2 (Hin i E Hno) x Hx). }
  split; [done|done|..].
  - intros d j [[-> ->]|[Hd Hj]]%HL; [done|]. pose proof (M3 d j Hj) as Hcj. pose proof (Hoth d j) as Ho.
    unfold cpu_ok in *. unfold on in Ho. rewrite !(Hheld d) by done. destruct (pos j) as [|i|i|i|i]; try done.
    + destruct Hcj as (H1 & H2 & x & Hx & Hr & Hc & Hl). destruct (Ho i Hd Hj eq_refl) as [Ho1 Ho2].
      destruct (Hkeep i x Hx Ho1 Ho2) as (x' & Hx' & K1 & K2). destruct (K2 Hr) as (E1 & E2 & E3).
      split; [done|]. split; [done|]. exists x'. split; [done|]. split; [by apply K1|]. unfold ctx_ok, loaded in *. by rewrite E1, E2, E3.
    + destruct Hcj as (H1 & H2 & x & Hx & Hr & Hl). destruct (Ho i Hd Hj eq_refl) as [Ho1 Ho2].
      destruct (Hkeep i x Hx Ho1 Ho2) as (x' & Hx' & K1 & K2). destruct (K2 Hr) as (E1 & E2 & E3).
      split; [done|]. split; [by rewrite Hhh|]. exists x'. split; [done|]. split; [by apply K1|]. unfold loaded in *. by rewrite E1, E2.
    + destruct Hcj as (H1 & H2 & x & Hx & Hr). split; [done|]. split; [done|].
      assert (Hnk : on k <> Some i).
      { intros E. pose proof (M3 c k Hk) as Hck. unfold cpu_ok, on in *. destruct (pos k); try done; injection E as ->; naive_solver. }
      destruct (decide (on k' = Some i)) as [Ek|Ek].
      * exfalso. apply Hd. assert (Hd' : PTABLE ∈ held m' d) by (rewrite Hheld by done; rewrite H2; by apply elem_of_singleton_2).
        destruct (Hin i Ek Hnk) as [Ep _]. unfold cpu_ok in Hc'. rewrite Ep in Hc'. destruct Hc' as (_ & Hh & _).
        eapply held_excl; [exact Hd'|]. rewrite Hh. by apply elem_of_singleton_2.
      * destruct (Hkeep i x Hx Hnk Ek) as (x' & Hx' & K1 & _). exists x'. split; [done|]. by rewrite <- K1.
  - intros d d' j j' i [[-> ->]|[Hd Hj]]%HL [[-> ->]|[Hd' Hj']]%HL Hi Hi'; [done|..].
    + by destruct (Hoth d' j' i Hd' Hj' Hi').
    + by destruct (Hoth d j i Hd Hj Hi).
    + by eapply M4.
  - intros i x' Hx' Hr. destruct (decide (on k' = Some i)) as [Ek|Ek]; [by exists c, k'|].
    destruct (decide (on k = Some i)) as [Ei|Ei]; [by destruct (Hout i x' Ei Ek Hx')|].
    assert (exists x, zlookup P i = Some x) as [x Hx] by (apply zlookup_is_Some; rewrite <- Hlen; by eapply zlookup_lt).
    destruct (Hkeep i x Hx Ei Ek) as (x2 & Hx2 & K1 & _). simplify_eq. destruct (M5 i x Hx) as (d & j & Hj & Hi); [by apply K1|].
    exists d, j. split; [|done]. apply HR; [|done]. intros ->. simplify_eq.
Qed.

End Inv.

End ProcInv.
