(* ===== verification/ProcStep.v ===== *)
(** * The operations on processes keep the invariant

    First the rules for entering and leaving the critical sections of
    [ptable.lock] and for the switches, then each operation of proc.cc. *)

From Stdlib Require Import ZArith Lia.
From stdpp Require Import base numbers strings list gmap.
From S2P Require Import Prelude Mmu Mem Kalloc File Spin Proc ProcInv.

Open Scope Z_scope.

Import Mmu Kalloc Spin Proc ProcInv.

Module ProcStep.

Section Step.

Context {A : Type} `{!PageAlloc A} (lapicid : Z -> Z).

Local Abbreviation state := (Proc.state A).
Local Abbreviation inv := (inv lapicid).
Local Abbreviation minv := (minv lapicid).

(** Process [p] runs on processor [c]: outside, and inside a critical section. *)
Record rinv (c p : Z) (s : state) : Prop := {
  ri_inv : inv s;
  ri_run : exists k, cpu_at s c k /\ pos k = S_run p
}.

Record cinv (c p : Z) (s : state) : Prop := {
  ci_mach : minv (Some c) (mach s) (procs s);
  ci_tab : tinv (procs s) (initproc s) (nextpid s);
  ci_run : exists k, cpu_at s c k /\ pos k = S_run p
}.

Lemma minv_touch h m P c k : minv h m P -> zlookup (cpus m) c = Some k -> minv h (set_cpu c (touch k) m) P.
Proof.
  intros HM Hk. destruct (touch_fields k) as (E1 & E2 & E3 & E4 & E5 & E6 & E7).
  eapply (minv_build lapicid h h m _ P P c k (touch k)); try done.
  - by eapply mach_ok_set; [apply HM|..].
  - apply HM.
  - intros i x Hx _ _. exists x. split; [done|apply keeps_refl].
  - intros i. unfold on. by rewrite E5.
  - intros i x. unfold on. by rewrite E5.
  - pose proof (mi_cpu _ _ _ _ HM c k Hk) as Hc. unfold cpu_ok, loaded in *. by rewrite E4, E5, E6, E7.
Qed.

(** A change of the table that the processors do not see. *)
Lemma minv_keeps h m P P' : minv h m P -> length P' = length P ->
  (forall i x, zlookup P i = Some x -> exists x', zlookup P' i = Some x' /\ keeps x x') -> minv h m P'.
Proof.
  intros [M1 M2 M3 M4 M5] Hlen HK. split; [done|done| |done|].
  - intros c k Hk. pose proof (M3 c k Hk) as Hc. unfold cpu_ok in *. destruct (pos k) as [|i|i|i|i]; try done.
    + destruct Hc as (H1 & H2 & x & Hx & Hr & Hcx & Hl). destruct (HK i x Hx) as (x' & Hx' & K1 & K2). destruct (K2 Hr) as (E1 & E2 & E3).
      split; [done|]. split; [done|]. exists x'. split; [done|]. split; [by apply K1|]. unfold ctx_ok, loaded in *. by rewrite E1, E2, E3.
    + destruct Hc as (H1 & H2 & x & Hx & Hr & Hl). destruct (HK i x Hx) as (x' & Hx' & K1 & K2). destruct (K2 Hr) as (E1 & E2 & E3).
      split; [done|]. split; [done|]. exists x'. split; [done|]. split; [by apply K1|]. unfold loaded in *. by rewrite E1, E2.
    + destruct Hc as (H1 & H2 & x & Hx & Hr). destruct (HK i x Hx) as (x' & Hx' & K1 & K2). split; [done|]. split; [done|].
      exists x'. split; [done|]. by rewrite <- K1.
  - intros i x' Hx' Hr. assert (exists x, zlookup P i = Some x) as [x Hx] by (apply zlookup_is_Some; rewrite <- Hlen; by eapply zlookup_lt).
    destruct (HK i x Hx) as (x2 & Hx2 & K1 & _). simplify_eq. apply (M5 i x Hx). by apply K1.
Qed.

Lemma free_lock m l : mach_ok lapicid m -> locks m !! PTABLE = Some l -> lcpu l = None -> l = mklock 0 None.
Proof. intros Hok El Hn. pose proof (mo_lock _ _ Hok PTABLE l El) as Hl. destruct l as [v o]. cbn in *. by subst. Qed.

Lemma on_run k p : pos k = S_run p -> on k = Some p.
Proof. unfold on. by intros ->. Qed.

Lemma keeps_all P (k k' : cpu) : forall i x, zlookup P i = Some x -> on k <> Some i -> on k' <> Some i ->
  exists x', zlookup P i = Some x' /\ keeps x x'.
Proof. intros i x Hx _ _. exists x. split; [done|apply keeps_refl]. Qed.

Lemma minv_acquire m P c k p l : minv None m P -> zlookup (cpus m) c = Some k -> pos k = S_run p ->
  locks m !! PTABLE = Some l -> lcpu l = None -> minv (Some c) (acquired c PTABLE k m) P.
Proof.
  intros HM Hk Hp El Hn. pose proof (mi_ok _ _ _ _ HM) as Hok. pose proof (mi_cpu _ _ _ _ HM c k Hk) as Hc.
  unfold cpu_ok in Hc. rewrite Hp in Hc. destruct Hc as (H1 & H2 & x & Hx & Hr & Hl).
  assert (Hh : forall d, held (acquired c PTABLE k m) d = if decide (d = c) then held m d ∪ {[PTABLE]} else held m d)
    by (intros d; by apply (held_acquired c PTABLE k m l)).
  eapply (minv_build lapicid None (Some c) m _ P P c k (pushed k)); try done.
  - intros d Hd. split; [by intros [= ->]|done].
  - eapply mach_ok_acquired; [done|done|done|]. by rewrite (free_lock m l).
  - cbn. rewrite lookup_insert_eq. eauto.
  - intros d Hd. rewrite Hh. by rewrite decide_False.
  - apply keeps_all.
  - unfold cpu_ok. cbn [pos pushed]. rewrite Hp, Hh, decide_True by done. split; [done|]. split; [set_solver|]. by exists x.
Qed.

Lemma minv_release m P c k p : minv (Some c) m P -> zlookup (cpus m) c = Some k -> pos k = S_run p ->
  minv None (released c PTABLE k m) P.
Proof.
  intros HM Hk Hp. pose proof (mi_ok _ _ _ _ HM) as Hok. pose proof (mi_cpu _ _ _ _ HM c k Hk) as Hc.
  unfold cpu_ok in Hc. rewrite Hp in Hc. destruct Hc as (H1 & H2 & x & Hx & Hr & Hl).
  assert (Hin : PTABLE ∈ held m c) by (by apply H2).
  assert (Hh : forall d, held (released c PTABLE k m) d = if decide (d = c) then held m d ∖ {[PTABLE]} else held m d)
    by (intros d; by apply held_released).
  eapply (minv_build lapicid (Some c) None m _ P P c k (popped k)); try done.
  - intros d Hd. split; [done|by intros [= ->]].
  - by eapply mach_ok_released.
  - cbn. rewrite lookup_insert_eq. eauto.
  - intros d Hd. rewrite Hh. by rewrite decide_False.
  - apply keeps_all.
  - unfold cpu_ok. cbn [pos popped]. rewrite Hp, Hh, decide_True by done. split; [done|]. split; [set_solver|]. by exists x.
Qed.

(** The process leaves the processor. *)
Lemma minv_leave m P P' c k p : minv (Some c) m P -> zlookup (cpus m) c = Some k -> pos k = S_run p -> ncli k = 1 ->
  length P' = length P -> (forall i x, zlookup P i = Some x -> i <> p -> exists x', zlookup P' i = Some x' /\ keeps x x') ->
  (forall x', zlookup P' p = Some x' -> pstate x' <> RUNNING) ->
  minv None (set_cpu c (set_pos (S_back p) k) m) P'.
Proof.
  intros HM Hk Hp Hn Hlen HK Hr'. pose proof (mi_ok _ _ _ _ HM) as Hok. pose proof (mi_cpu _ _ _ _ HM c k Hk) as Hc.
  unfold cpu_ok in Hc. rewrite Hp in Hc. destruct Hc as (H1 & H2 & x & Hx & Hr & Hl).
  assert (Hin : PTABLE ∈ held m c) by (by apply H2).
  eapply (minv_build lapicid (Some c) None m _ P P' c k (set_pos (S_back p) k)); try done.
  - intros d Hd. split; [done|by intros [= ->]].
  - by eapply mach_ok_set.
  - apply HM.
  - intros i y Hy Hi _. rewrite (on_run _ _ Hp) in Hi. apply HK; [done|congruence].
  - intros i x' Hi _ Hx'. rewrite (on_run _ _ Hp) in Hi. injection Hi as <-. by apply Hr'.
  - unfold cpu_ok. cbn. split; [done|]. split.
    + pose proof (mo_ncli _ _ Hok c k Hk) as Hsz. destruct (size_1_elem_of (held m c)) as [y Hy]; [lia|].
      apply leibniz_equiv in Hy. change (held m c = {[PTABLE]}). rewrite Hy in *. set_solver.
    + assert (exists x', zlookup P' p = Some x') as [x' Hx'] by (apply zlookup_is_Some; rewrite Hlen; by eapply zlookup_lt). eauto.
Qed.

(** ** Rules *)

Lemma hwp_ptable_acquire E c p (s : state) Q : rinv c p s ->
  (forall m', cinv c p (set_mach m' s) -> held m' c = held (mach s) c ∪ {[PTABLE]} ->
     (forall lk, lk <> PTABLE -> locks m' !! lk = locks (mach s) !! lk) -> Q tt (set_mach m' s)) ->
  hwp E (acquire lapicid c PTABLE) Q s.
Proof.
  intros [[HM HT] (k & Hk & Hp)] HQ. pose proof (mi_ok _ _ _ _ HM) as Hok. destruct (mi_lock _ _ _ _ HM) as [l El].
  pose proof (mi_cpu _ _ _ _ HM c k Hk) as Hc. unfold cpu_ok in Hc. rewrite Hp in Hc. destruct Hc as (_ & H2 & _).
  eapply (hwp_acquire lapicid E c s k Hok Hk PTABLE l); [done|by rewrite H2|]. intros Hn. apply HQ.
  - split; [by eapply minv_acquire|done|]. exists (pushed k). split; [|done]. unfold cpu_at. cbn.
    apply zlookup_zinsert_eq. by eapply zlookup_lt.
  - rewrite (held_acquired c PTABLE k (mach s) l) by done. by rewrite decide_True.
  - intros lk Hlk. cbn. by rewrite lookup_insert_ne.
Qed.

Lemma hwp_ptable_release_locks E c p (s : state) Q : cinv c p s ->
  (forall m', rinv c p (set_mach m' s) -> held m' c = held (mach s) c ∖ {[PTABLE]} ->
     (forall lk, lk <> PTABLE -> locks m' !! lk = locks (mach s) !! lk) -> Q tt (set_mach m' s)) ->
  hwp E (release lapicid c PTABLE) Q s.
Proof.
  intros [HM HT (k & Hk & Hp)] HQ. pose proof (mi_ok _ _ _ _ HM) as Hok.
  pose proof (mi_cpu _ _ _ _ HM c k Hk) as Hc. unfold cpu_ok in Hc. rewrite Hp in Hc. destruct Hc as (_ & H2 & _).
  assert (Hin : PTABLE ∈ held (mach s) c) by (by apply H2).
  eapply (hwp_release lapicid E c s k Hok Hk PTABLE); [done|]. apply HQ.
  - split; [split; [by eapply minv_release|done]|]. exists (popped k). split; [|done]. unfold cpu_at. cbn.
    apply zlookup_zinsert_eq. by eapply zlookup_lt.
  - rewrite held_released by done. by rewrite decide_True.
  - intros lk Hlk. cbn. by rewrite lookup_insert_ne.
Qed.

Lemma hwp_ptable_release E c p (s : state) Q : cinv c p s ->
  (forall m', rinv c p (set_mach m' s) -> held m' c = held (mach s) c ∖ {[PTABLE]} -> Q tt (set_mach m' s)) ->
  hwp E (release lapicid c PTABLE) Q s.
Proof. intros Hc HQ. eapply hwp_ptable_release_locks; [exact Hc|]. intros m' H1 H2 _. by apply HQ. Qed.

Lemma hwp_cur E c p (s : state) Q : rinv c p s ->
  (forall m', rinv c p (set_mach m' s) -> held m' c = held (mach s) c -> Q p (set_mach m' s)) -> hwp E (curproc lapicid c) Q s.
Proof.
  intros [[HM HT] (k & Hk & Hp)] HQ. pose proof (mi_ok _ _ _ _ HM) as Hok.
  pose proof (mi_cpu _ _ _ _ HM c k Hk) as Hc. unfold cpu_ok in Hc. rewrite Hp in Hc. destruct Hc as (H1 & _ & _).
  eapply hwp_curproc; [done|done|done|]. apply HQ; [|done]. split; [split; [by apply minv_touch|done]|]. exists (touch k).
  split; [apply zlookup_zinsert_eq; by eapply zlookup_lt|]. by rewrite (proj1 (proj2 (proj2 (proj2 (proj2 (touch_fields k)))))).
Qed.

Lemma cinv_cpu c p (s : state) : cinv c p s -> exists k x, cpu_at s c k /\ pos k = S_run p /\ cproc k = Some p /\
  PTABLE ∈ held (mach s) c /\ ncli k <> 0 /\ pr s p x /\ pstate x = RUNNING /\ loaded k x.
Proof.
  intros [HM HT (k & Hk & Hp)]. pose proof (mi_cpu _ _ _ _ HM c k Hk) as Hc. unfold cpu_ok in Hc. rewrite Hp in Hc.
  destruct Hc as (H1 & H2 & x & Hx & Hr & Hl). assert (Hin : PTABLE ∈ held (mach s) c) by (by apply H2). exists k, x.
  pose proof (mo_ncli _ _ (mi_ok _ _ _ _ HM) c k Hk) as Hn. pose proof (held_pos _ _ _ Hin).
  repeat split; try done; [lia|apply Hl..].
Qed.

Lemma hwp_cur_locked E c p (s : state) Q : cinv c p s -> Q p s -> hwp E (curproc lapicid c) Q s.
Proof.
  intros Hc HQ. destruct (cinv_cpu _ _ _ Hc) as (k & x & Hk & Hp & H1 & _ & Hn & _).
  eapply hwp_curproc_locked; [apply Hc|done|done|done|done].
Qed.

(** [sched] by a process that has changed its state in the table [P']. *)
Lemma hwp_sched E c p (s : state) P' x' kk Q : cinv c p s -> held (mach s) c = {[PTABLE]} \/ E ->
  length P' = length (procs s) -> zlookup P' p = Some x' -> pstate x' <> RUNNING ->
  (forall i x, zlookup (procs s) i = Some x -> i <> p -> exists x', zlookup P' i = Some x' /\ keeps x x') ->
  (forall e, tinv (zinsert p (set_context (kk e) x') P') (initproc s) (nextpid s)) ->
  (forall m' e, inv (set_mach m' (set_procs (zinsert p (set_context (kk e) x') P') s)) ->
     Q tt (set_mach m' (set_procs (zinsert p (set_context (kk e) x') P') s))) ->
  hwp E (sched lapicid c kk) Q (set_procs P' s).
Proof.
  intros Hc HE Hlen Hx' Hr' HK HT HQ. destruct (cinv_cpu _ _ _ Hc) as (k & x & Hk & Hp & H1 & Hin & Hn & Hx & Hr & Hl).
  destruct Hc as [HM _ _]. pose proof (mi_ok _ _ _ _ HM) as Hok. destruct (mi_lock _ _ _ _ HM) as [l El].
  pose proof (mo_if _ _ Hok c k Hk) as Hif. pose proof (mo_ncli _ _ Hok c k Hk) as Hnc. specialize (Hif ltac:(lia)).
  set (s1 := set_procs P' s). assert (Hk1 : cpu_at s1 c k) by done. assert (Hok1 : mach_ok lapicid (mach s1)) by done.
  unfold sched. apply hwp_bind. eapply (hwp_curproc_locked lapicid E c s1 k Hok1 Hk1); [done|done|].
  apply hwp_bind. eapply (hwp_holding lapicid E c s1 k Hok1 Hk1 PTABLE l); [done|done|].
  rewrite bool_decide_eq_true_2 by done. cbn [negb]. apply hwp_bind. eapply (hwp_mycpu lapicid E c s1 k Hok1 Hk1); [done|].
  apply hwp_bind. eapply (hwp_get_cpu E c s1 k); [exact Hk1|].
  destruct (Z.eqb_spec (ncli k) 1) as [E1|E1]; cbn [negb].
  2: { destruct HE as [Hh|HE]; [|exact HE]. exfalso. apply E1. by eapply held_ncli. }
  apply hwp_bind. eapply hwp_get_proc; [exact Hx'|]. rewrite decide_False by done.
  apply hwp_bind. eapply hwp_onmach; [unfold readeflags; by rewrite (run_get_cpu _ k)|]. rewrite Hif.
  change (set_mach (mach s1) s1) with s1. apply hwp_bind. eapply (hwp_mycpu lapicid E c s1 k Hok1 Hk1); [done|].
  apply hwp_bind. eapply (hwp_get_cpu E c s1 k); [exact Hk1|]. apply hwp_bind. eapply hwp_upd_proc; [exact Hx'|]. rewrite Hp.
  set (s2 := set_procs _ s1). eapply (hwp_upd_cpu E c s2 k); [exact Hk1|].
  change (set_mach ?m s2) with (set_mach m (set_procs (zinsert p (set_context (kk (intena k)) x') P') s)). apply HQ.
  split; [|apply HT]. cbn. eapply minv_leave; [exact HM|done|done|done| |..].
  - by rewrite length_zinsert.
  - intros i y Hy Hi. destruct (HK i y Hy Hi) as (y' & Hy' & Hkp). exists y'. by rewrite zlookup_zinsert_ne.
  - rewrite zlookup_zinsert_eq by (by eapply zlookup_lt). intros y [= <-]. exact Hr'.
Qed.

(** ** Changes of the table *)

Lemma cinv_keeps c p (s s' : state) : cinv c p s -> mach s' = mach s -> length (procs s') = length (procs s) ->
  (forall i x, pr s i x -> exists x', pr s' i x' /\ keeps x x') -> tinv (procs s') (initproc s') (nextpid s') -> cinv c p s'.
Proof.
  intros [HM HT (k & Hk & Hp)] Em Hlen HK HT'. split; [|done|].
  - rewrite Em. by eapply minv_keeps.
  - exists k. unfold cpu_at in *. by rewrite Em.
Qed.

Lemma rinv_keeps c p (s s' : state) : rinv c p s -> mach s' = mach s -> length (procs s') = length (procs s) ->
  (forall i x, pr s i x -> exists x', pr s' i x' /\ keeps x x') -> tinv (procs s') (initproc s') (nextpid s') -> rinv c p s'.
Proof.
  intros [[HM HT] (k & Hk & Hp)] Em Hlen HK HT'. split; [split; [|done]|].
  - rewrite Em. by eapply minv_keeps.
  - exists k. unfold cpu_at in *. by rewrite Em.
Qed.

Lemma keeps_insert P q y y' : zlookup P q = Some y -> keeps y y' ->
  forall i x, zlookup P i = Some x -> exists x', zlookup (zinsert q y' P) i = Some x' /\ keeps x x'.
Proof.
  intros Hy Hk i x Hx. destruct (decide (i = q)) as [->|Hne].
  - simplify_eq. exists y'. rewrite zlookup_zinsert_eq by (by eapply zlookup_lt). done.
  - exists x. rewrite zlookup_zinsert_ne by done. split; [done|apply keeps_refl].
Qed.

(** A change of an entry [q] that is not running. *)
Lemma cinv_upd c p (s : state) q y y' : cinv c p s -> pr s q y -> keeps y y' -> mild (procs s) q y y' ->
  cinv c p (set_procs (zinsert q y' (procs s)) s).
Proof.
  intros Hc Hy Hk Hm. eapply cinv_keeps; [exact Hc|done|cbn; apply length_zinsert| |].
  - by eapply keeps_insert.
  - eapply tinv_upd; [apply Hc|done|done].
Qed.

Lemma pr_insert (s : state) q y y' : pr s q y -> pr (set_procs (zinsert q y' (procs s)) s) q y'.
Proof. intros Hy. apply zlookup_zinsert_eq. by eapply zlookup_lt. Qed.

(** *** Wakeups *)

Lemma woken_mild P i x : pstate x = SLEEPING -> mild P i x (set_pstate RUNNABLE x).
Proof.
  intros Hs. assert (Ha : alive x) by (by left). split; try done.
  - right. split; [done|right; by left].
  - intros [L1 L2 L3 L4 L5 L6]. split; try done; [by intros _; apply L1|intros _; apply L2; by right|by intros [? _]].
  - by intros [? _].
Qed.

Lemma woken_keeps x : pstate x = SLEEPING -> keeps x (set_pstate RUNNABLE x).
Proof. intros Hs. split; cbn; rewrite Hs; done. Qed.

Lemma wake_cases ch x : wake ch x = x \/ (pstate x = SLEEPING /\ wake ch x = set_pstate RUNNABLE x).
Proof. unfold wake. case_decide as H; [right|by left]. by destruct H. Qed.

Lemma cinv_wakeup1 c p (s : state) ch : cinv c p s -> cinv c p (set_procs (map (wake ch) (procs s)) s).
Proof.
  intros Hc. eapply cinv_keeps; [exact Hc|done|cbn; apply length_map| |].
  - intros i x Hx. exists (wake ch x). unfold pr. cbn. rewrite zlookup_map, Hx. split; [done|].
    destruct (wake_cases ch x) as [->|[Hs ->]]; [apply keeps_refl|by apply woken_keeps].
  - eapply tinv_mild; [apply Hc|cbn; apply length_map|]. intros i x Hx. exists (wake ch x). cbn. rewrite zlookup_map, Hx.
    split; [done|]. destruct (wake_cases ch x) as [->|[Hs ->]]; [apply mild_refl|by apply woken_mild].
Qed.

Lemma wakeup_ok E c p (s : state) ch : rinv c p s -> hwp E (wakeup lapicid c ch) (fun _ s' => rinv c p s') s.
Proof.
  intros Hr. unfold wakeup. apply hwp_bind. eapply hwp_ptable_acquire; [exact Hr|]. intros m1 Hc1 _ _.
  apply hwp_bind. apply hwp_modify. eapply hwp_ptable_release; [by eapply cinv_wakeup1|]. intros m2 Hr2 _. exact Hr2.
Qed.

Lemma find_pid_spec l pid q p : find_pid l pid q = Some p -> exists x, zlookup l (p - q) = Some x /\ q <= p.
Proof.
  revert q. induction l as [|x l IH]; intros q; [done|]. cbn. destruct (ppid x =? pid).
  - intros [= <-]. exists x. split; [|lia]. by rewrite Z.sub_diag.
  - intros (y & Hy & Hq)%IH. exists y. split; [|lia]. rewrite <- Hy. unfold zlookup. rewrite !(proj2 (Z.leb_le 0 _)) by lia.
    by replace (Z.to_nat (p - q)) with (S (Z.to_nat (p - (q + 1)))) by lia.
Qed.

Lemma killed_mild P i x : mild P i x (set_pkilled true x).
Proof.
  split; auto. intros [L1 L2 L3 L4 L5 L6]. by split.
Qed.

Lemma kill_ok E c p (s : state) pid : rinv c p s -> hwp E (kill lapicid c pid) (fun _ s' => rinv c p s') s.
Proof.
  intros Hr. unfold kill. apply hwp_bind. eapply hwp_ptable_acquire; [exact Hr|]. intros m1 Hc1 _ _.
  apply hwp_bind, hwp_get. cbn [procs set_mach]. destruct (find_pid (procs s) pid 0) as [q|] eqn:Ef.
  2: { apply hwp_bind. eapply hwp_ptable_release; [exact Hc1|]. intros m2 Hr2 _. by apply hwp_ret. }
  apply find_pid_spec in Ef as (x & Hx & _). rewrite Z.sub_0_r in Hx. set (s1 := set_mach m1 s) in *.
  apply hwp_bind. eapply hwp_upd_proc; [exact Hx|]. set (x1 := set_pkilled true x).
  assert (Hc2 : cinv c p (set_procs (zinsert q x1 (procs s1)) s1)) by (eapply cinv_upd; [done|exact Hx|done|apply killed_mild]).
  assert (Hx1 : pr (set_procs (zinsert q x1 (procs s1)) s1) q x1) by (by eapply pr_insert).
  apply hwp_bind. eapply hwp_get_proc; [exact Hx1|]. apply hwp_bind. case_decide as Hs.
  - eapply hwp_upd_proc; [exact Hx1|]. apply hwp_bind. eapply hwp_ptable_release.
    + eapply cinv_upd; [exact Hc2|exact Hx1|by apply woken_keeps|by apply woken_mild].
    + intros m2 Hr2 _. by apply hwp_ret.
  - apply hwp_ret, hwp_bind. eapply hwp_ptable_release; [exact Hc2|]. intros m2 Hr2 _. by apply hwp_ret.
Qed.

(** *** Giving up the processor *)

Lemma yield_mild P p x e : pstate x = RUNNING -> mild P p x (set_context (K_yield e) (set_pstate RUNNABLE x)).
Proof.
  intros Hr. assert (Ha : alive x) by (by right; right). split; try done.
  - right. split; [done|right; by left].
  - by rewrite Hr.
  - intros [L1 L2 L3 L4 L5 L6]. split; try done; [by intros _; apply L1|by intros [? _]].
  - by intros [? _].
Qed.

Lemma yield_ok E c p (s : state) : rinv c p s -> held (mach s) c = ∅ \/ E -> hwp E (yield lapicid c) (fun _ s' => inv s') s.
Proof.
  intros Hr HE. unfold yield. apply hwp_bind. eapply hwp_ptable_acquire; [exact Hr|]. intros m1 Hc1 Hh _.
  apply hwp_bind. eapply hwp_cur_locked; [exact Hc1|]. destruct (cinv_cpu _ _ _ Hc1) as (k & x & _ & _ & _ & _ & _ & Hx & Hrun & _).
  set (s1 := set_mach m1 s) in *. apply hwp_bind. eapply hwp_upd_proc; [exact Hx|]. apply hwp_bind.
  eapply (hwp_sched E c p s1 _ (set_pstate RUNNABLE x)); [exact Hc1| |apply length_zinsert|apply pr_insert with (s := s1) (y := x), Hx|done| | |].
  - destruct HE as [HE|HE]; [left|by right]. cbn. rewrite Hh, HE. set_solver.
  - intros i y Hy Hi. exists y. rewrite zlookup_zinsert_ne by done. split; [done|apply keeps_refl].
  - intros e. rewrite zinsert_twice. eapply tinv_upd; [apply Hc1|exact Hx|by apply yield_mild].
  - intros m' e Hinv. by apply hwp_ret.
Qed.

End Step.

End ProcStep.
