(* ===== verification/ProcOps.v ===== *)
(** * Sleep, wait, exit and fork keep the invariant *)

From Stdlib Require Import ZArith Lia.
From stdpp Require Import base numbers strings list gmap.
From S2P Require Import Prelude Mmu Mem Kalloc File Spin Proc ProcInv ProcStep.

Open Scope Z_scope.

Import Mmu Mem Kalloc Spin Proc ProcInv ProcStep.

Module ProcOps.

Section Ops.

Context {A : Type} `{!PageAlloc A} (lapicid : Z -> Z).

Local Abbreviation state := (Proc.state A).
Local Abbreviation inv := (inv lapicid).
Local Abbreviation minv := (minv lapicid).
Local Abbreviation rinv := (rinv lapicid).
Local Abbreviation cinv := (cinv lapicid).

(** ** Other locks *)

Lemma minv_lock h m m' P c k k' p : minv h m P -> zlookup (cpus m) c = Some k -> pos k = S_run p -> mach_ok lapicid m' ->
  (exists l, locks m' !! PTABLE = Some l) -> cpus m' = zinsert c k' (cpus m) -> (forall d, d <> c -> held m' d = held m d) ->
  pos k' = pos k -> cproc k' = cproc k -> cr3 k' = cr3 k -> esp0 k' = esp0 k -> (PTABLE ∈ held m' c <-> PTABLE ∈ held m c) ->
  minv h m' P.
Proof.
  intros HM Hk Hp Hok Hlk Hcp Hh E1 E2 E3 E4 E5. eapply (minv_build lapicid h h m m' P P c k k'); try done.
  - apply keeps_all.
  - intros i. unfold on. by rewrite E1.
  - intros i x. unfold on. by rewrite E1.
  - pose proof (mi_cpu _ _ _ _ HM c k Hk) as Hc. unfold cpu_ok, loaded in *. rewrite E1, E2, E3, E4. rewrite Hp in *. by rewrite E5.
Qed.

Lemma minv_other_acquire h m P c k p lk l : minv h m P -> zlookup (cpus m) c = Some k -> pos k = S_run p -> lk <> PTABLE ->
  locks m !! lk = Some l -> lcpu l = None -> minv h (acquired c lk k m) P.
Proof.
  intros HM Hk Hp Hne El Hn. pose proof (mi_ok _ _ _ _ HM) as Hok. pose proof (mo_lock _ _ Hok lk l El) as Hl. rewrite Hn in Hl.
  pose proof (fun d => held_acquired c lk k m l d El Hn) as Hh.
  eapply (minv_lock h m _ P c k (pushed k) p); try done.
  - by eapply mach_ok_acquired.
  - cbn. rewrite lookup_insert_ne by done. apply HM.
  - intros d Hd. rewrite Hh. by rewrite decide_False.
  - rewrite Hh, decide_True by done. set_solver.
Qed.

Lemma minv_other_release h m P c k p lk : minv h m P -> zlookup (cpus m) c = Some k -> pos k = S_run p -> lk <> PTABLE ->
  lk ∈ held m c -> minv h (released c lk k m) P.
Proof.
  intros HM Hk Hp Hne Hin. pose proof (mi_ok _ _ _ _ HM) as Hok. pose proof (fun d => held_released c lk k m d Hin) as Hh.
  eapply (minv_lock h m _ P c k (popped k) p); try done.
  - by eapply mach_ok_released.
  - cbn. rewrite lookup_insert_ne by done. apply HM.
  - intros d Hd. rewrite Hh. by rewrite decide_False.
  - rewrite Hh, decide_True by done. set_solver.
Qed.

Lemma hwp_lock_acquire E c p (s : state) lk l Q : rinv c p s -> lk <> PTABLE -> locks (mach s) !! lk = Some l ->
  lk ∉ held (mach s) c \/ E ->
  (forall m', rinv c p (set_mach m' s) -> Q tt (set_mach m' s)) -> hwp E (acquire lapicid c lk) Q s.
Proof.
  intros [[HM HT] (k & Hk & Hp)] Hne El HE HQ. pose proof (mi_ok _ _ _ _ HM) as Hok.
  destruct (decide (lk ∈ held (mach s) c)) as [Hin|Hni].
  - destruct HE as [?|HE]; [done|]. pose proof (mo_ncli _ _ Hok c k Hk). unfold hwp, acquire, onmach, zoom.
    rewrite (acquire_spec lapicid c k (mach s) lk l) by (apply Hok || done || lia).
    by rewrite (held_by_eq lapicid (mach s) lk l c Hok El), bool_decide_eq_true_2.
  - eapply (hwp_acquire lapicid E c s k Hok Hk lk l); [done|done|]. intros Hn. apply HQ. split; [split; [by eapply minv_other_acquire|done]|].
    exists (pushed k). split; [|done]. apply zlookup_zinsert_eq. by eapply zlookup_lt.
Qed.

Lemma release_panics E c (s : state) k lk l Q : mach_ok lapicid (mach s) -> cpu_at s c k -> locks (mach s) !! lk = Some l ->
  lk ∉ held (mach s) c -> E -> hwp E (release lapicid c lk) Q s.
Proof.
  intros Hok Hk El Hni HE. pose proof (mo_ncli _ _ Hok c k Hk). unfold hwp, release, onmach, zoom.
  assert (Hb : held_by l c = false) by (by rewrite (held_by_eq lapicid (mach s) lk l c Hok El), bool_decide_eq_false_2).
  rewrite (release_spec lapicid c k (mach s) lk l) by (apply Hok || done || lia || (by rewrite Hb)). by rewrite Hb.
Qed.

Lemma hwp_lock_release E c p (s : state) lk l Q : rinv c p s -> lk <> PTABLE -> locks (mach s) !! lk = Some l ->
  lk ∈ held (mach s) c \/ E ->
  (forall m', rinv c p (set_mach m' s) -> Q tt (set_mach m' s)) -> hwp E (release lapicid c lk) Q s.
Proof.
  intros [[HM HT] (k & Hk & Hp)] Hne El HE HQ. pose proof (mi_ok _ _ _ _ HM) as Hok.
  destruct (decide (lk ∈ held (mach s) c)) as [Hin|Hni]; [|destruct HE as [?|HE]; [done|by eapply release_panics]].
  eapply (hwp_release lapicid E c s k Hok Hk lk); [done|]. apply HQ. split; [split; [by eapply minv_other_release|done]|].
  exists (popped k). split; [|done]. apply zlookup_zinsert_eq. by eapply zlookup_lt.
Qed.

Lemma hwp_lock_release_locked E c p (s : state) lk l Q : cinv c p s -> lk <> PTABLE -> locks (mach s) !! lk = Some l ->
  lk ∈ held (mach s) c \/ E ->
  (forall m', cinv c p (set_mach m' s) -> held m' c = held (mach s) c ∖ {[lk]} -> Q tt (set_mach m' s)) ->
  hwp E (release lapicid c lk) Q s.
Proof.
  intros [HM HT (k & Hk & Hp)] Hne El HE HQ. pose proof (mi_ok _ _ _ _ HM) as Hok.
  destruct (decide (lk ∈ held (mach s) c)) as [Hin|Hni]; [|destruct HE as [?|HE]; [done|by eapply release_panics]].
  eapply (hwp_release lapicid E c s k Hok Hk lk); [done|]. apply HQ.
  - split; [by eapply minv_other_release|done|]. exists (popped k). split; [|done]. apply zlookup_zinsert_eq. by eapply zlookup_lt.
  - rewrite held_released by done. by rewrite decide_True.
Qed.

(** ** Sleep *)

(** What [sleep] makes of a running process. *)
Definition asleep (ch : channel) (x : proc) : proc := set_pstate SLEEPING (set_chan ch x).

Lemma sleep_mild P p x ch lk a e : pstate x = RUNNING -> (a = A_wait <-> lk = PTABLE) ->
  (a = A_wait -> ch = C_proc p /\ forall j y, zlookup P j = Some y -> parent y = Some p -> pstate y <> ZOMBIE) ->
  mild P p x (set_context (K_sleep lk a e) (asleep ch x)).
Proof.
  intros Hr Ha Hw. assert (Hal : alive x) by (by right; right). split; try done.
  - right. split; [done|by left].
  - by rewrite Hr.
  - intros [L1 L2 L3 L4 L5 L6]. split; try done; [by intros _; apply L1|by eauto|].
    intros (_ & lk' & e' & [= E1 E2 E3]). by apply Hw.
  - intros (_ & lk' & e' & [= E1 E2 E3]). right. by apply Hw.
Qed.

(** The part of [sleep] in the critical section. *)
Lemma sleep_locked E c p (s : state) x ch lk a :
  cinv c p s -> held (mach s) c = {[PTABLE]} \/ E -> pr s p x -> (a = A_wait <-> lk = PTABLE) ->
  (a = A_wait -> ch = C_proc p /\ forall j y, pr s j y -> parent y = Some p -> pstate y <> ZOMBIE) ->
  hwp E (upd_proc p (set_chan ch);; upd_proc p (set_pstate SLEEPING);; sched lapicid c (K_sleep lk a);; mret Switched)
    (fun r s' => r = Switched /\ inv s') s.
Proof.
  intros Hc HE Hx Ha Hw. destruct (cinv_cpu _ _ _ _ Hc) as (k & x0 & _ & _ & _ & _ & _ & Hx0 & Hrun & _). unfold pr in *. simplify_eq.
  apply hwp_bind. eapply hwp_upd_proc; [exact Hx|]. apply hwp_bind. eapply hwp_upd_proc; [by eapply pr_insert|]. cbn [procs set_procs].
  rewrite zinsert_twice. fold (asleep ch x). change (set_procs ?P (set_procs _ s)) with (set_procs P s). apply hwp_bind.
  eapply (hwp_sched lapicid E c p s _ (asleep ch x)); [exact Hc|done|apply length_zinsert|by eapply (pr_insert s)|done| | |].
  - intros i y Hy Hi. exists y. rewrite zlookup_zinsert_ne by done. split; [done|apply keeps_refl].
  - intros e. rewrite zinsert_twice. eapply tinv_upd; [apply Hc|exact Hx|by apply sleep_mild].
  - intros m' e Hinv. by apply hwp_ret.
Qed.

Lemma hwp_myproc_run E c p (s : state) Q : rinv c p s ->
  (forall m', rinv c p (set_mach m' s) -> held m' c = held (mach s) c -> locks m' = locks (mach s) -> Q (Some p) (set_mach m' s)) ->
  hwp E (myproc lapicid c) Q s.
Proof.
  intros [[HM HT] (k & Hk & Hp)] HQ. pose proof (mi_ok _ _ _ _ HM) as Hok.
  pose proof (mi_cpu _ _ _ _ HM c k Hk) as Hc. unfold cpu_ok in Hc. rewrite Hp in Hc. destruct Hc as (H1 & _ & _).
  eapply hwp_myproc; [done|done|]. rewrite H1. apply HQ; [|done|done]. split; [split; [by apply minv_touch|done]|]. exists (touch k).
  split; [apply zlookup_zinsert_eq; by eapply zlookup_lt|]. by rewrite (proj1 (proj2 (proj2 (proj2 (proj2 (touch_fields k)))))).
Qed.

(** [sleep] of a process that holds at most the lock it passes. *)
Lemma sleep_ok E c p (s : state) ch lk : rinv c p s -> lk <> PTABLE -> lk = 0 \/ (exists l, locks (mach s) !! lk = Some l) ->
  held (mach s) c = (if lk =? 0 then ∅ else {[lk]}) \/ E ->
  hwp E (sleep lapicid c ch lk A_ret) (fun _ s' => inv s') s.
Proof.
  intros Hr Hne Hl HE. unfold sleep. apply hwp_bind. eapply hwp_myproc_run; [exact Hr|]. intros m1 Hr1 Hh1 Hk1.
  apply hwp_bind. rewrite (proj2 (Z.eqb_neq _ _) Hne). cbn [negb]. apply hwp_bind.
  eapply hwp_ptable_acquire; [exact Hr1|]. intros m2 Hc2 Hh2 Hlk2. change (set_mach m2 (set_mach m1 s)) with (set_mach m2 s) in *.
  cbn [mach set_mach] in Hh2. rewrite Hh1 in Hh2.
  destruct (Z.eqb_spec lk 0) as [E0|E0]; cbn [negb].
  - apply hwp_ret. destruct (cinv_cpu _ _ _ _ Hc2) as (k & x & _ & _ & _ & _ & _ & Hx & _ & _).
    eapply hwp_mono; [eapply sleep_locked; [exact Hc2| |exact Hx|by split|done]|by intros r s' [_ ?]]. destruct HE as [HE|HE]; [left|by right]. cbn. rewrite Hh2, HE. set_solver.
  - destruct Hl as [?|[l El]]; [done|].
    assert (El2 : locks m2 !! lk = Some l) by (rewrite Hlk2 by done; cbn; by rewrite Hk1).
    eapply hwp_lock_release_locked; [exact Hc2|done|exact El2| |].
    + destruct HE as [HE|HE]; [left|by right]. cbn. rewrite Hh2, HE. set_solver.
    + intros m3 Hc3 Hh3. change (set_mach m3 (set_mach m2 s)) with (set_mach m3 s) in *.
      destruct (cinv_cpu _ _ _ _ Hc3) as (k & x & _ & _ & _ & _ & _ & Hx & _ & _).
      eapply hwp_mono; [eapply sleep_locked; [exact Hc3| |exact Hx|by split|done]|by intros r s' [_ ?]]. destruct HE as [HE|HE]; [left|by right].
      cbn in *. rewrite Hh3, Hh2, HE. set_solver.
Qed.

(** ** Wait *)

(** What [wait] makes of a zombie. *)
Definition reaped (y : proc) : proc :=
  set_pstate UNUSED (set_pkilled false (set_pname (zinsert 0 0 (pname y)) (set_parent None (set_ppid 0 (set_kstack 0 y))))).

Lemma newp_alive P ini np i x n d : tinv P ini np -> zlookup P i = Some x -> newp x = Some (n, d) -> alive x.
Proof. intros HT Hx Hn. by destruct (t_new _ _ _ HT i x n d Hx Hn). Qed.

Lemma not_alive x t : pstate x = t -> t = UNUSED \/ t = EMBRYO \/ t = ZOMBIE -> ~ alive x.
Proof. unfold alive. intros -> [->|[->| ->]]; naive_solver. Qed.

(** Entries of a table with one entry changed. *)
Lemma insert_cases {B} (P : list B) q y' i x : zlookup (zinsert q y' P) i = Some x ->
  (i = q /\ x = y') \/ (i <> q /\ zlookup P i = Some x).
Proof.
  intros Hx. destruct (decide (i = q)) as [->|Hne]; [left|right; by rewrite zlookup_zinsert_ne in Hx].
  pose proof (zlookup_lt _ _ _ Hx) as Hr. rewrite length_zinsert in Hr. rewrite zlookup_zinsert_eq in Hx by done. by simplify_eq.
Qed.

Lemma tinv_reap P ini np q y : tinv P ini np -> zlookup P q = Some y -> pstate y = ZOMBIE -> tinv (zinsert q (reaped y) P) ini np.
Proof.
  intros HT Hy Hz. pose proof HT as [T1 T2 T3 T4 T5 T6 T7 T8 T9 T10].
  assert (Hna : ~ alive y) by (eapply not_alive; eauto).
  assert (Hna' : ~ alive (reaped y)) by (eapply not_alive; eauto).
  assert (Hq : forall i x, i <> q -> zlookup P i = Some x -> zlookup (zinsert q (reaped y) P) i = Some x)
    by (intros i x Hi Hx; by rewrite zlookup_zinsert_ne).
  assert (Hnn : newp y = None) by (destruct (newp y) as [[n d]|] eqn:En; [|done]; exfalso; by eapply Hna, newp_alive).
  assert (Hpar : forall j y', zlookup P j = Some y' -> alive y' -> zlookup (zinsert q (reaped y) P) j = Some y').
  { intros j y' Hj Ha. apply Hq; [|done]. intros ->. by simplify_eq. }
  split; [by rewrite length_zinsert|..].
  - intros i x [[-> ->]|[_ Hx]]%insert_cases; [|by apply T2]. split; try done; [by intros [?|?]|by intros [? _]].
  - destruct T3 as (ip & x & E1 & Hx & Ha & Hp). exists ip, x. auto.
  - intros i x j [[-> ->]|[_ Hx]]%insert_cases Hp; [done|]. destruct (T4 i x j Hx Hp) as (y' & Hy' & Ha). eauto.
  - intros i x [[-> ->]|[_ Hx]]%insert_cases Ha; [by destruct Ha as [?%Hna'|?]|by apply T5].
  - intros i x j y' [[-> ->]|[_ Hx]]%insert_cases Hw [[-> ->]|[_ Hy']]%insert_cases Hp; try done; (by destruct Hw) || by apply (T6 i x j y').
  - intros i x n d [[-> ->]|[_ Hx]]%insert_cases Hn; [by cbn in Hn; rewrite Hnn in Hn|].
    destruct (T7 i x n d Hx Hn) as (Ha & y' & Hy' & Hok). split; [done|]. exists y'. split; [|done]. apply Hq; [|done].
    intros ->. simplify_eq. destruct Hok. congruence.
  - intros i x j y' n d d' [[-> ->]|[_ Hx]]%insert_cases [[-> ->]|[_ Hy']]%insert_cases; cbn; try (by rewrite Hnn). by apply T8.
  - intros i x [[-> ->]|[_ Hx]]%insert_cases; [done|by apply (T9 i)].
  - intros i x j y' [[-> ->]|[_ Hx]]%insert_cases [[-> ->]|[_ Hy']]%insert_cases; try done. by apply T10.
Qed.

Lemma hwp_onpages (E : Prop) {B} (m : ST (A * mem) B) (s : state) Q : E -> (forall b f, Q b (set_fl f s)) -> hwp E (onpages m) Q s.
Proof.
  intros HE HQ. apply hwp_any; [done|]. intros b s'. unfold onpages, onfl, zoom. destruct (m _) as [[b' x]| | | |]; try done.
  intros [= <- <-]. apply HQ.
Qed.

Lemma hwp_onfl (E : Prop) {B} (m : ST (File.state A) B) (s : state) Q : E -> (forall b f, Q b (set_fl f s)) -> hwp E (onfl m) Q s.
Proof.
  intros HE HQ. apply hwp_any; [done|]. intros b s'. unfold onfl, zoom. destruct (m _) as [[b' x]| | | |]; try done.
  intros [= <- <-]. apply HQ.
Qed.

Lemma reap_spec (E : Prop) (s : state) q y Q : E -> pr s q y ->
  (forall f, Q (ppid y) (set_procs (zinsert q (reaped y) (procs s)) (set_fl f s))) -> hwp E (reap q) Q s.
Proof.
  intros HE Hy HQ. unfold reap. pose proof (zlookup_lt _ _ _ Hy) as Hr.
  apply hwp_bind. eapply hwp_get_proc; [exact Hy|]. apply hwp_bind, hwp_onpages; [done|]. intros _ f1.
  apply hwp_bind. eapply hwp_upd_proc; [exact Hy|]. apply hwp_bind, hwp_onpages; [done|]. intros _ f2.
  do 5 (apply hwp_bind; eapply hwp_upd_proc; [unfold pr; cbn; apply zlookup_zinsert_eq; by rewrite ?length_zinsert|]; cbn [procs set_procs set_fl]; rewrite zinsert_twice).
  apply hwp_ret. apply (HQ f2).
Qed.

(** The scan of [wait]. *)
Lemma wait_scan_spec E p n : forall (s : state) q hk Q, (0 <= q) -> length (procs s) = (Z.to_nat q + n)%nat ->
  (forall j y, pr s j y -> parent y = Some p -> pstate y <> ZOMBIE) \/ E ->
  (forall b, (forall j y, q <= j -> pr s j y -> parent y = Some p -> pstate y <> ZOMBIE) -> Q (None, b) s) ->
  (forall j y f, pr s j y -> pstate y = ZOMBIE ->
     Q (Some (ppid y), true) (set_procs (zinsert j (reaped y) (procs s)) (set_fl f s))) ->
  hwp E (wait_scan n p q hk) Q s.
Proof.
  induction n as [|n IH]; intros s q hk Q Hq Hlen HE HN HS.
  { apply hwp_ret, HN. intros j y Hj Hy. pose proof (zlookup_lt _ _ _ Hy). lia. }
  cbn [wait_scan]. destruct (zlookup_is_Some (procs s) q) as [x Hx]; [lia|]. apply hwp_bind. eapply hwp_get_proc; [exact Hx|].
  assert (Hnext : forall hk', (parent x = Some p -> pstate x <> ZOMBIE) -> hwp E (wait_scan n p (q + 1) hk') Q s).
  { intros hk' Hqx. apply IH; [lia|lia|done| |done]. intros b Hb. apply HN. intros j y Hj Hy. destruct (decide (j = q)) as [->|]; [|apply (Hb j); [lia|done]].
    unfold pr in *. by simplify_eq. }
  case_decide as Hp; [by apply Hnext|]. case_decide as Hz; [|by apply Hnext].
  apply hwp_bind. destruct HE as [HE|HE]; [by destruct (HE q x Hx Hp)|].
  eapply reap_spec; [done|exact Hx|]. intros f. apply hwp_ret. by apply HS.
Qed.

Lemma keeps_zombie y : pstate y = ZOMBIE -> keeps y (reaped y).
Proof. intros Hz. split; cbn; rewrite Hz; done. Qed.

(** An iteration of [wait] in its critical section.  It frees the memory of a
    zombie, which the table does not vouch for. *)
Lemma wait_loop_ok E c p (s : state) : cinv c p s -> held (mach s) c = {[PTABLE]} \/ E ->
  (forall j y, pr s j y -> parent y = Some p -> pstate y <> ZOMBIE) \/ E ->
  hwp E (wait_loop lapicid c p) (fun r s' => inv s' /\ (r <> Switched -> rinv c p s')) s.
Proof.
  intros Hc HE HZ. unfold wait_loop. apply hwp_bind.
  pose proof (t_len _ _ _ (ci_tab _ _ _ _ Hc)) as Hlen.
  eapply wait_scan_spec; [lia|by rewrite Hlen|done| |].
  - intros b Hno. destruct (cinv_cpu _ _ _ _ Hc) as (k & x & _ & _ & _ & _ & _ & Hx & _ & _).
    apply hwp_bind. eapply hwp_get_proc; [exact Hx|]. destruct (negb b || pkilled x).
    + apply hwp_bind. eapply hwp_ptable_release; [exact Hc|]. intros m1 Hr1 _. apply hwp_ret. by split; [apply Hr1|].
    + unfold sleep. apply hwp_bind. destruct (cinv_cpu _ _ _ _ Hc) as (k1 & _ & Hk & _ & H1 & _ & Hn & _).
      eapply hwp_myproc; [apply Hc|exact Hk|]. rewrite H1, (set_mach_touch lapicid c s k1 (mi_ok _ _ _ _ (ci_mach _ _ _ _ Hc)) Hk Hn).
      change (PTABLE =? PTABLE) with true. cbn [negb]. apply hwp_bind, hwp_ret.
      eapply hwp_mono; [eapply (sleep_locked E c p s x); [exact Hc|done|exact Hx|done|]|].
      * intros _. split; [done|]. intros j y Hy. apply (Hno j y); [|done]. pose proof (zlookup_lt _ _ _ Hy). lia.
      * by intros r s' [-> Hi].
  - intros j y f Hy Hz. apply hwp_bind. set (s1 := set_procs _ _).
    assert (Hc1 : cinv c p s1).
    { eapply cinv_keeps; [exact Hc|done|cbn; apply length_zinsert| |].
      - eapply keeps_insert; [exact Hy|by apply keeps_zombie].
      - eapply tinv_reap; [apply Hc|exact Hy|done]. }
    eapply hwp_ptable_release; [exact Hc1|]. intros m1 Hr1 _. apply hwp_ret. by split; [apply Hr1|].
Qed.

Lemma wait_ok E c p (s : state) : rinv c p s -> held (mach s) c = ∅ \/ E ->
  (forall j y, pr s j y -> parent y = Some p -> pstate y <> ZOMBIE) \/ E ->
  hwp E (wait lapicid c) (fun r s' => inv s' /\ (r <> Switched -> rinv c p s')) s.
Proof.
  intros Hr HE HZ. unfold wait. apply hwp_bind. eapply hwp_cur; [exact Hr|]. intros m1 Hr1 Hh1.
  apply hwp_bind. eapply hwp_ptable_acquire; [exact Hr1|]. intros m2 Hc2 Hh2 _. cbn in Hh2.
  eapply wait_loop_ok; [exact Hc2| |done]. destruct HE as [HE|HE]; [left|by right]. cbn. rewrite Hh2, Hh1, HE. set_solver.
Qed.

(** ** Exit *)

(** The entry [y] of another process after [exit] of [p], whose parent is [q];
    [b] tells whether the loop over the table has met the entry, and [z]
    whether it has met a child that is a zombie. *)
Record passed (b : bool) (p q : Z) (ini : option Z) (z : Prop) (y y' : proc) : Prop := {
  pa_same : y' = set_parent (parent y') (set_pstate (pstate y') y);
  pa_parent : parent y' = if b then if decide (parent y = Some p) then ini else parent y else parent y;
  pa_state : pstate y' = pstate y \/ (pstate y = SLEEPING /\ pstate y' = RUNNABLE);
  pa_wake : chan y = C_proc q -> pstate y' <> SLEEPING;
  pa_init : z -> forall ip, ini = Some ip -> chan y = C_proc ip -> pstate y' <> SLEEPING
}.

Section Passed.

Context (b : bool) (p q : Z) (ini : option Z) (z : Prop) (y y' : proc) (H : passed b p q ini z y y').

Lemma passed_alive : alive y' <-> alive y.
Proof. destruct (pa_state _ _ _ _ _ _ _ H) as [E|[E1 E2]]; unfold alive; [by rewrite E|rewrite E1, E2; tauto]. Qed.

Lemma passed_state t : t = UNUSED \/ t = EMBRYO \/ t = ZOMBIE -> pstate y' = t <-> pstate y = t.
Proof. destruct (pa_state _ _ _ _ _ _ _ H) as [E|[E1 E2]]; [by rewrite E|rewrite E1, E2]. intros [->|[->| ->]]; done. Qed.

Lemma passed_fields : kstack y' = kstack y /\ pgdir y' = pgdir y /\ context y' = context y /\ chan y' = chan y /\
  newp y' = newp y /\ ppid y' = ppid y.
Proof. rewrite (pa_same _ _ _ _ _ _ _ H). done. Qed.

Lemma passed_wait : in_wait y' -> in_wait y.
Proof.
  destruct passed_fields as (_ & _ & E & _). intros [H1 H2]. split; [|by rewrite E in H2].
  destruct (pa_state _ _ _ _ _ _ _ H) as [?|[? ?]]; congruence.
Qed.

Lemma passed_keeps : keeps y y'.
Proof.
  destruct passed_fields as (E1 & E2 & E3 & _). split; [|done].
  destruct (pa_state _ _ _ _ _ _ _ H) as [E|[F1 F2]]; [by rewrite E|by rewrite F1, F2].
Qed.

Lemma passed_lok i : lok i y -> (parent y = Some p -> ini <> Some i) -> lok i y'.
Proof.
  destruct passed_fields as (E1 & E2 & E3 & E4 & _). intros [L1 L2 L3 L4 L5 L6] Hi. split.
  - rewrite E1, E2. intros Ha. by apply L1, passed_alive.
  - intros Hs. unfold ctx_ok in *. rewrite E3. apply L2. destruct (pa_state _ _ _ _ _ _ _ H) as [E|[F1 F2]]; [by rewrite <- E|by right].
  - rewrite E3. intros Hs. apply L3. destruct (pa_state _ _ _ _ _ _ _ H) as [E|[F1 F2]]; congruence.
  - rewrite E4. intros Hw. by apply L4, passed_wait.
  - intros Hu%passed_state; [|auto]. rewrite (pa_parent _ _ _ _ _ _ _ H). rewrite (L5 Hu). rewrite decide_False by done. by destruct b.
  - rewrite (pa_parent _ _ _ _ _ _ _ H). destruct b; [|done]. case_decide; [by apply Hi|done].
Qed.

Lemma passed_weaken (z' : Prop) : (z' -> z) -> passed b p q ini z' y y'.
Proof. intros Hz. destruct H as [H1 H2 H3 H4 H5]. split; [done..|]. intros z0. by apply H5, Hz. Qed.

Lemma passed_wake ip z' : ini = Some ip -> passed b p q ini z' y (wake (C_proc ip) y').
Proof.
  intros Hip. destruct passed_fields as (_ & _ & _ & Ech & _). destruct H as [H1 H2 H3 H4 H5]. unfold wake.
  destruct (decide (pstate y' = SLEEPING /\ chan y' = C_proc ip)) as [Hd|Hd].
  - destruct Hd as [Hs Hc]. split; cbn; [rewrite H1; reflexivity|done| |done|done]. right. split; [|done]. destruct H3 as [?|[? ?]]; congruence.
  - split; [done..|]. intros _ ip' Hip' Hc Hs. apply Hd. split; [done|]. rewrite Ech, Hc. congruence.
Qed.

End Passed.

Lemma tinv_exit P P' ini np p q x x' : tinv P ini np -> zlookup P p = Some x -> pstate x = RUNNING -> newp x = None -> Some p <> ini ->
  parent x = Some q -> length P' = length P ->
  (forall i y, i <> p -> zlookup P i = Some y -> exists y', zlookup P' i = Some y' /\
     passed true p q ini (exists j v, zlookup P j = Some v /\ parent v = Some p /\ pstate v = ZOMBIE) y y') ->
  zlookup P' p = Some x' -> pstate x' = ZOMBIE -> ppid x' = ppid x -> parent x' = parent x -> newp x' = newp x -> tinv P' ini np.
Proof.
  intros HT Hx Hr Hnp Hini Hq Hlen HP Hx' Hz Hpid Hpar Hnw. pose proof HT as [T1 T2 T3 T4 T5 T6 T7 T8 T9 T10].
  assert (HB : forall i y', i <> p -> zlookup P' i = Some y' -> exists y, zlookup P i = Some y /\
     passed true p q ini (exists j v, zlookup P j = Some v /\ parent v = Some p /\ pstate v = ZOMBIE) y y').
  { intros i y' Hi Hy'. destruct (zlookup_is_Some P i) as [y Hy]; [rewrite <- Hlen; by eapply zlookup_lt|].
    destruct (HP i y Hi Hy) as (y2 & Hy2 & Hpa). simplify_eq. eauto. }
  assert (Hxa : ~ alive x') by (eapply not_alive; eauto). pose proof (lo_self _ _ (T2 p x Hx)) as Hself. rewrite Hq in Hself.
  assert (HA : forall j y, zlookup P j = Some y -> alive y -> j <> p -> exists y', zlookup P' j = Some y' /\ alive y').
  { intros j y Hy Ha Hj. destruct (HP j y Hj Hy) as (y' & Hy' & Hpa). exists y'. split; [done|]. by eapply passed_alive. }
  assert (Hia : exists ip y, ini = Some ip /\ zlookup P ip = Some y /\ alive y /\ parent y = None /\ ip <> p)
    by (destruct T3 as (ip & y & -> & Hy & Ha & Hp); exists ip, y; repeat split; try done; congruence).
  destruct Hia as (ip & yi & -> & Hyi & Hai & Hpi & Hne).
  split; [congruence|..].
  - intros i y' Hy'. destruct (decide (i = p)) as [->|Hi].
    + simplify_eq. split; rewrite ?Hz, ?Hpar; try done; [by intros [?|?]|intros [? _]; congruence|by rewrite Hq].
    + destruct (HB i y' Hi Hy') as (y & Hy & Hpa). eapply passed_lok; [exact Hpa|by apply T2|]. intros Hp [= ->]. simplify_eq.
  - exists ip. destruct (HP ip yi Hne Hyi) as (y' & Hy' & Hpa). exists y'. split; [done|]. split; [done|]. split; [by eapply passed_alive|].
    rewrite (pa_parent _ _ _ _ _ _ _ Hpa), Hpi. by rewrite decide_False.
  - intros i y' j Hy' Hp. destruct (decide (i = p)) as [->|Hi].
    + simplify_eq. rewrite Hpar, Hq in Hp. simplify_eq. destruct (T4 p x j Hx Hq) as (w & Hw & Ha). apply (HA j w Hw Ha). congruence.
    + destruct (HB i y' Hi Hy') as (y & Hy & Hpa). rewrite (pa_parent _ _ _ _ _ _ _ Hpa) in Hp. case_decide as Hd.
      * injection Hp as <-. by apply (HA ip yi).
      * destruct (T4 i y j Hy Hp) as (w & Hw & Ha). apply (HA j w Hw Ha). congruence.
  - intros i y' Hy' Ha Hi0. destruct (decide (i = p)) as [->|Hi]; [simplify_eq; rewrite Hpar; eauto|].
    destruct (HB i y' Hi Hy') as (y & Hy & Hpa). rewrite (pa_parent _ _ _ _ _ _ _ Hpa). case_decide; [eauto|]. apply (T5 i y Hy); [|done].
    destruct Ha as [Ha|Ha]; [left; by apply (passed_alive _ _ _ _ _ _ _ Hpa)|right; by apply (passed_state _ _ _ _ _ _ _ Hpa); auto].
  - intros i y' j v' Hy' Hw Hv' Hp Hvz. destruct (decide (i = p)) as [->|Hi]; [simplify_eq; destruct Hw; congruence|].
    destruct (HB i y' Hi Hy') as (y & Hy & Hpa). pose proof (passed_wait _ _ _ _ _ _ _ Hpa Hw) as Hw0.
    pose proof (lo_wait _ _ (T2 i y Hy) Hw0) as Hch. destruct (decide (j = p)) as [->|Hj].
    + simplify_eq. rewrite Hpar, Hq in Hp. injection Hp as ->. apply (pa_wake _ _ _ _ _ _ _ Hpa Hch). by destruct Hw.
    + destruct (HB j v' Hj Hv') as (v & Hv & Hpa2). apply (passed_state _ _ _ _ _ _ _ Hpa2) in Hvz; [|auto].
      rewrite (pa_parent _ _ _ _ _ _ _ Hpa2) in Hp. case_decide as Hd; [|by apply (T6 i y j v)].
      injection Hp as ->. eapply (pa_init _ _ _ _ _ _ _ Hpa); [eauto|done|done|by destruct Hw].
  - intros i y' n d Hy' Hn. destruct (decide (i = p)) as [->|Hi]; [simplify_eq; rewrite Hnw in Hn; congruence|].
    destruct (HB i y' Hi Hy') as (y & Hy & Hpa). destruct (passed_fields _ _ _ _ _ _ _ Hpa) as (_ & _ & _ & _ & En & _). rewrite En in Hn.
    destruct (T7 i y n d Hy Hn) as (Ha & w & Hwn & Hemb & Hd). split; [by eapply passed_alive|].
    assert (Hnp' : n <> p) by (intros ->; simplify_eq; congruence).
    destruct (HP n w Hnp' Hwn) as (w' & Hw' & Hpa'). exists w'. split; [done|]. destruct (passed_fields _ _ _ _ _ _ _ Hpa') as (F1 & F2 & F3 & _).
    split; [eapply passed_state; eauto|]. rewrite F1, F2, F3, (pa_parent _ _ _ _ _ _ _ Hpa'). destruct d.
    + destruct Hd as (D1 & D2 & D3 & D4). rewrite D3, decide_False by congruence. done.
    + rewrite Hd. by rewrite decide_False.
  - intros i y1 j y2 n d d' H1 H2. destruct (decide (i = p)) as [->|Hi]; [simplify_eq; congruence|].
    destruct (decide (j = p)) as [->|Hj]; [simplify_eq; congruence|].
    destruct (HB i y1 Hi H1) as (v1 & Hv1 & Hp1), (HB j y2 Hj H2) as (v2 & Hv2 & Hp2).
    destruct (passed_fields _ _ _ _ _ _ _ Hp1) as (_ & _ & _ & _ & -> & _), (passed_fields _ _ _ _ _ _ _ Hp2) as (_ & _ & _ & _ & -> & _). by apply T8.
  - intros i y' Hy' Hu. destruct (decide (i = p)) as [->|Hi]; [simplify_eq; rewrite Hpid; apply (T9 p x Hx); congruence|].
    destruct (HB i y' Hi Hy') as (y & Hy & Hpa). destruct (passed_fields _ _ _ _ _ _ _ Hpa) as (_ & _ & _ & _ & _ & ->).
    apply (T9 i y Hy). intros E. apply Hu. eapply passed_state; eauto.
  - assert (HU : forall i y', zlookup P' i = Some y' -> exists y, zlookup P i = Some y /\ ppid y' = ppid y /\ (pstate y' <> UNUSED -> pstate y <> UNUSED)).
    { intros i y' Hy'. destruct (decide (i = p)) as [->|Hi]; [simplify_eq; exists x; split; [done|split; [done|congruence]]|].
      destruct (HB i y' Hi Hy') as (y & Hy & Hpa). destruct (passed_fields _ _ _ _ _ _ _ Hpa) as (_ & _ & _ & _ & _ & E). exists y.
      split; [done|]. split; [done|]. intros Hu E0. apply Hu. eapply passed_state; eauto. }
    intros i y1 j y2 (v1 & Hv1 & -> & U1)%HU (v2 & Hv2 & -> & U2)%HU N1 N2. apply T10; auto.
Qed.

Lemma passed_skip p q ini z y y' : passed false p q ini z y y' -> parent y <> Some p -> passed true p q ini z y y'.
Proof. intros [H1 H2 H3 H4 H5] Hp. split; try done. by rewrite H2, decide_False. Qed.

Lemma passed_move p q ini z y y' : passed false p q ini z y y' -> parent y = Some p -> passed true p q ini z y (set_parent ini y').
Proof. intros [H1 H2 H3 H4 H5] Hp. split; try done; [by rewrite H1|cbn; by rewrite decide_True]. Qed.

(** The loop that passes the children on. *)
Lemma reparent_spec E p q ip P n : forall (s : state) r Q, 0 <= r -> length P = (Z.to_nat r + n)%nat -> initproc s = Some ip ->
  length (procs s) = length P ->
  (forall i y, zlookup P i = Some y -> exists y', pr s i y' /\ passed (bool_decide (i < r)) p q (Some ip)
     (exists j v, j < r /\ zlookup P j = Some v /\ parent v = Some p /\ pstate v = ZOMBIE) y y') ->
  (forall P', length P' = length P -> (forall i y, zlookup P i = Some y -> exists y', zlookup P' i = Some y' /\ passed true p q (Some ip)
     (exists j v, zlookup P j = Some v /\ parent v = Some p /\ pstate v = ZOMBIE) y y') -> Q tt (set_procs P' s)) ->
  hwp E (reparent n p r) Q s.
Proof.
  induction n as [|n IH]; intros s r Q Hr Hlen Hini Hl HP HQ.
  { apply hwp_ret. assert (Es : s = set_procs (procs s) s) by (by destruct s). rewrite Es. apply HQ; [done|]. intros i y Hy.
    destruct (HP i y Hy) as (y' & Hy' & Hpa). exists y'. split; [done|]. pose proof (zlookup_lt _ _ _ Hy).
    rewrite bool_decide_eq_true_2 in Hpa by lia. eapply passed_weaken; [exact Hpa|]. intros (j & v & Hv & H1 & H2). exists j, v.
    pose proof (zlookup_lt _ _ _ Hv). split; [lia|done]. }
  destruct (zlookup_is_Some P r) as [y Hy]; [lia|]. destruct (HP r y Hy) as (y' & Hy' & Hpa). rewrite bool_decide_eq_false_2 in Hpa by lia.
  pose proof (pa_parent _ _ _ _ _ _ _ Hpa) as Hpar. cbn in Hpar.
  cbn [reparent]. apply hwp_bind. eapply hwp_get_proc; [exact Hy'|]. apply hwp_bind.
  assert (Hother : forall i (z : Prop) v v', i <> r -> passed (bool_decide (i < r)) p q (Some ip) z v v' -> passed (bool_decide (i < r + 1)) p q (Some ip) z v v').
  { intros i z v v' Hi. rewrite (bool_decide_ext (i < r + 1) (i < r)) by lia. done. }
  assert (Hone : bool_decide (r < r + 1) = true) by (apply bool_decide_eq_true_2; lia).
  rewrite Hpar. destruct (decide (parent y = Some p)) as [Hp|Hp].
  - apply hwp_bind, hwp_get, hwp_bind. eapply hwp_upd_proc; [exact Hy'|]. rewrite Hini. set (P2 := zinsert r (set_parent (Some ip) y') (procs s)).
    assert (HP2 : forall i v, zlookup P i = Some v -> exists v', zlookup P2 i = Some v' /\ passed (bool_decide (i < r + 1)) p q (Some ip)
      (exists j w, j < r /\ zlookup P j = Some w /\ parent w = Some p /\ pstate w = ZOMBIE) v v').
    { intros i v Hv. destruct (decide (i = r)) as [->|Hi].
      - simplify_eq. exists (set_parent (Some ip) y'). split; [apply zlookup_zinsert_eq; by eapply zlookup_lt|]. rewrite Hone. by apply passed_move.
      - destruct (HP i v Hv) as (v' & Hv' & Hpv). exists v'. split; [by unfold P2; rewrite zlookup_zinsert_ne|]. by apply Hother. }
    destruct (decide (pstate y' = ZOMBIE)) as [Hz|Hz].
    + unfold wakeup1. apply hwp_modify. eapply (IH (set_procs (map (wake (C_proc ip)) P2) s)); [lia|lia|done|cbn; by rewrite length_map; unfold P2; rewrite length_zinsert| |].
      * intros i v Hv. destruct (HP2 i v Hv) as (v' & Hv' & Hpv). exists (wake (C_proc ip) v'). unfold pr. cbn. rewrite zlookup_map, Hv'.
        split; [done|]. by eapply passed_wake.
      * intros P' HlP' HP'. by apply HQ.
    + apply hwp_ret. eapply (IH (set_procs P2 s)); [lia|lia|done|unfold P2; cbn; by rewrite length_zinsert| |].
      * intros i v Hv. destruct (HP2 i v Hv) as (v' & Hv' & Hpv). exists v'. split; [done|]. eapply passed_weaken; [exact Hpv|].
        intros (j & w & Hj & Hw & H1 & H2). exists j, w. split; [|done]. destruct (decide (j = r)) as [->|]; [|lia]. simplify_eq.
        exfalso. apply Hz. by apply (passed_state _ _ _ _ _ _ _ Hpa); auto.
      * intros P' HlP' HP'. by apply HQ.
  - apply hwp_ret. apply IH; [lia|lia|done|done| |done]. intros i v Hv. destruct (HP i v Hv) as (v' & Hv' & Hpv). exists v'. split; [done|].
    assert (Hpv' : passed (bool_decide (i < r + 1)) p q (Some ip) (exists j w, j < r /\ zlookup P j = Some w /\ parent w = Some p /\ pstate w = ZOMBIE) v v').
    { destruct (decide (i = r)) as [->|Hi]; [|by apply Hother]. unfold pr in *. simplify_eq. rewrite Hone. by apply passed_skip. }
    eapply passed_weaken; [exact Hpv'|]. intros (j & w & Hj & Hw & H1 & H2). exists j, w. split; [|done].
    destruct (decide (j = r)) as [->|]; [|lia]. simplify_eq.
Qed.

Lemma exit_zombie_ok E c p (s : state) : rinv c p s -> held (mach s) c = ∅ \/ E -> Some p <> initproc s ->
  (forall x, pr s p x -> newp x = None) -> hwp E (exit_zombie lapicid c) (fun _ s' => inv s') s.
Proof.
  intros Hr HE Hini Hnp. unfold exit_zombie. apply hwp_bind. eapply hwp_cur; [exact Hr|]. intros m1 Hr1 Hh1.
  apply hwp_bind. eapply hwp_ptable_acquire; [exact Hr1|]. intros m2 Hc2 Hh2 _. cbn in Hh2.
  change (set_mach m2 (set_mach m1 s)) with (set_mach m2 s) in *. set (s2 := set_mach m2 s) in *.
  destruct (cinv_cpu _ _ _ _ Hc2) as (k & x & _ & _ & _ & _ & _ & Hx & Hrun & _). pose proof (ci_tab _ _ _ _ Hc2) as HT.
  destruct (t_child _ _ _ HT p x Hx) as [q Hq]; [left; by right; right|done|]. destruct (t_init _ _ _ HT) as (ip & y & Eini & _).
  apply hwp_bind. eapply hwp_get_proc; [exact Hx|]. rewrite Hq. apply hwp_bind. unfold wakeup1. apply hwp_modify.
  pose proof (cinv_wakeup1 _ c p s2 (C_proc q) Hc2) as Hc3. apply hwp_bind.
  eapply (reparent_spec E p q ip (procs s2)); [lia|by rewrite (t_len _ _ _ HT)|done|cbn; apply length_map| |].
  { intros i v Hv. exists (wake (C_proc q) v). unfold pr. cbn [procs set_procs]. rewrite zlookup_map, Hv. split; [done|].
    rewrite bool_decide_eq_false_2 by (pose proof (zlookup_lt _ _ _ Hv); lia).
    destruct (wake_cases (C_proc q) v) as [E1|[Hs E1]].
    - rewrite E1. split; [by destruct v|done|by left| |by intros (j & w & Hj & Hw & _); pose proof (zlookup_lt _ _ _ Hw); lia].
      intros Hch Hs. unfold wake in E1. rewrite decide_True in E1 by done. apply (f_equal pstate) in E1. cbn in E1. congruence.
    - rewrite E1. split; [by destruct v|done|by right|done|done]. }
  intros P' HlP' HP'. change (set_procs P' (set_procs _ s2)) with (set_procs P' s2).
  destruct (HP' p x Hx) as (x' & Hx' & Hpx). apply hwp_bind. eapply hwp_upd_proc; [exact Hx'|]. cbn [procs set_procs].
  change (set_procs ?R (set_procs P' s2)) with (set_procs R s2). apply hwp_bind.
  eapply (hwp_sched lapicid E c p s2 _ (set_pstate ZOMBIE x')); [exact Hc2| |by rewrite length_zinsert|apply zlookup_zinsert_eq; by eapply zlookup_lt|done| | |].
  - destruct HE as [HE|HE]; [left|by right]. cbn. rewrite Hh2, Hh1, HE. set_solver.
  - intros i v Hv Hi. destruct (HP' i v Hv) as (v' & Hv' & Hpv). exists v'. rewrite zlookup_zinsert_ne by done. split; [done|by eapply passed_keeps].
  - intros e. rewrite zinsert_twice. destruct (passed_fields _ _ _ _ _ _ _ Hpx) as (_ & _ & _ & _ & F1 & F2).
    eapply (tinv_exit (procs s2) _ _ _ p q x); [exact HT|exact Hx|done|by apply Hnp|done|done|by rewrite length_zinsert| |
      apply zlookup_zinsert_eq; by eapply zlookup_lt|done|exact F2| |exact F1].
    + intros i v Hi Hv. destruct (HP' i v Hv) as (v' & Hv' & Hpv). exists v'. rewrite zlookup_zinsert_ne by done. split; [done|]. by rewrite Eini.
    + cbn. rewrite (pa_parent _ _ _ _ _ _ _ Hpx). apply decide_False. apply (lo_self _ _ (t_loc _ _ _ HT p x Hx)).
  - intros m' e Hinv. by apply hwp_ret.
Qed.

End Ops.

End ProcOps.
