(* ===== verification/ProcFork.v ===== *)
(** * Fork keeps the invariant

    [fork] in three parts: the new entry is taken under [ptable.lock], the
    parent is copied without it, and the child is made runnable under the lock
    again.  Other processors run between the parts. *)

From Stdlib Require Import ZArith Lia.
From stdpp Require Import base numbers strings list gmap.
From S2P Require Import Prelude Mmu Mem Kalloc Vm File Spin Proc ProcInv ProcStep ProcOps.

Open Scope Z_scope.

Import Mmu Mem Kalloc Spin Proc ProcInv ProcStep ProcOps.

Module ProcFork.

(** ** The table *)

(** A new value of [np] in [fork]. *)
Lemma tinv_newp P ini np p x nw : tinv P ini np -> zlookup P p = Some x ->
  (forall n d, nw = Some (n, d) -> alive x /\ n <> p /\ (exists y, zlookup P n = Some y /\ new_ok p d y) /\
     forall i v d', i <> p -> zlookup P i = Some v -> newp v <> Some (n, d')) ->
  tinv (zinsert p (set_newp nw x) P) ini np.
Proof.
  intros HT Hx Hnw. pose proof HT as [T1 T2 T3 T4 T5 T6 T7 T8 T9 T10]. set (x' := set_newp nw x).
  assert (HF : forall i v, zlookup P i = Some v -> exists v', zlookup (zinsert p x' P) i = Some v' /\
    pstate v' = pstate v /\ parent v' = parent v /\ kstack v' = kstack v /\ pgdir v' = pgdir v /\ context v' = context v).
  { intros i v Hv. destruct (decide (i = p)) as [->|Hi].
    - simplify_eq. exists x'. split; [apply zlookup_zinsert_eq; by eapply zlookup_lt|done].
    - exists v. by rewrite zlookup_zinsert_ne. }
  assert (HB : forall i v', zlookup (zinsert p x' P) i = Some v' -> exists v, zlookup P i = Some v /\
    pstate v' = pstate v /\ parent v' = parent v /\ ppid v' = ppid v /\ context v' = context v /\ (lok i v -> lok i v')).
  { intros i v' [[-> ->]|[_ Hv]]%insert_cases; [exists x|exists v'; done]. do 5 (split; [done|]). intros [L1 L2 L3 L4 L5 L6]. by split. }
  assert (HA : forall v v', pstate v' = pstate v -> alive v -> alive v') by (intros v v' E; unfold alive; by rewrite E).
  split; [by rewrite length_zinsert|..].
  - intros i v' (v & Hv & _ & _ & _ & _ & Hl)%HB. by apply Hl, T2.
  - destruct T3 as (ip & v & E1 & Hv & Ha & Hp). destruct (HF ip v Hv) as (v' & Hv' & E2 & E3 & _). exists ip, v'.
    split; [done|]. split; [done|]. split; [by eapply HA|congruence].
  - intros i v' j (v & Hv & _ & E & _)%HB Hp. rewrite E in Hp. destruct (T4 i v j Hv Hp) as (w & Hw & Ha).
    destruct (HF j w Hw) as (w' & Hw' & E2 & _). exists w'. split; [done|by eapply HA].
  - intros i v' (v & Hv & E1 & E2 & _)%HB Ha Hi. rewrite E2. apply (T5 i v Hv); [|done]. rewrite E1 in Ha. unfold alive in *. by rewrite E1 in Ha.
  - intros i v' j w' (v & Hv & E1 & _ & _ & E3 & _)%HB Hw (w & Hww & F1 & F2 & _)%HB Hp. rewrite F1. rewrite F2 in Hp.
    apply (T6 i v j w); try done. unfold in_wait in *. by rewrite E1, E3 in Hw.
  - intros i v' n d [[-> ->]|[Hi Hv]]%insert_cases Hn.
    + destruct (Hnw n d Hn) as (Ha & Hne & (y & Hy & Hok) & _). split; [done|]. exists y. by rewrite zlookup_zinsert_ne.
    + destruct (T7 i v' n d Hv Hn) as (Ha & y & Hy & Hok). split; [done|]. destruct (HF n y Hy) as (y' & Hy' & E1 & E2 & E3 & E4 & E5).
      exists y'. split; [done|]. unfold new_ok in *. by rewrite E1, E2, E3, E4, E5.
  - intros i v j w n d d' [[-> ->]|[Hi Hv]]%insert_cases [[-> ->]|[Hj Hw]]%insert_cases Hn Hn'; [done|..].
    + destruct (Hnw n d Hn) as (_ & _ & _ & Hno). by destruct (Hno j w d' Hj Hw).
    + destruct (Hnw n d' Hn') as (_ & _ & _ & Hno). by destruct (Hno i v d Hi Hv).
    + by eapply T8.
  - intros i v' (v & Hv & E1 & _ & E2 & _)%HB. rewrite E1, E2. by apply (T9 i v).
  - intros i v' j w' (v & Hv & E1 & _ & E2 & _)%HB (w & Hw & F1 & _ & F2 & _)%HB. rewrite E1, E2, F1, F2. by apply T10.
Qed.

(** An entry that is not alive, and stays out of the tree or joins it. *)
Lemma tinv_newborn P ini np np' n y y' : tinv P ini np -> zlookup P n = Some y -> pstate y = UNUSED \/ pstate y = EMBRYO ->
  (forall i v d, zlookup P i = Some v -> newp v <> Some (n, d)) -> lok n y' -> newp y' = newp y -> pstate y' <> ZOMBIE ->
  (pstate y' = SLEEPING -> False) ->
  (forall j, parent y' = Some j -> exists w, zlookup P j = Some w /\ alive w) ->
  (alive y' -> exists j, parent y' = Some j) ->
  (pstate y' <> UNUSED -> (np' = np /\ ppid y' = ppid y /\ pstate y = EMBRYO) \/ (ppid y' = np /\ np' = np + 1)) ->
  (pstate y' = UNUSED -> np' = np) -> tinv (zinsert n y' P) ini np'.
Proof.
  intros HT Hy Hs Hown Hlok Hnp Hz Hsl Hpar Hchild Hpid Hun. pose proof HT as [T1 T2 T3 T4 T5 T6 T7 T8 T9 T10].
  assert (Hna : ~ alive y) by (destruct Hs; eapply not_alive; eauto).
  assert (Hnn : newp y = None) by (destruct (newp y) as [[m d]|] eqn:En; [|done]; exfalso; by eapply Hna, newp_alive).
  assert (Hkeep : forall j w, zlookup P j = Some w -> alive w -> zlookup (zinsert n y' P) j = Some w).
  { intros j w Hw Ha. rewrite zlookup_zinsert_ne; [done|]. intros ->. by simplify_eq. }
  assert (Hnp0 : 0 < np) by (destruct T3 as (ip & v & _ & Hv & Ha & _); destruct (T9 ip v Hv); [intros E; by destruct (not_alive v UNUSED); auto|lia]).
  assert (Hle : np <= np') by (destruct (decide (pstate y' = UNUSED)) as [E|E]; [rewrite Hun by done; lia|destruct (Hpid E) as [[-> _]|[_ ->]]; lia]).
  split; [by rewrite length_zinsert|..].
  - intros i v [[-> ->]|[_ Hv]]%insert_cases; [done|by apply T2].
  - destruct T3 as (ip & v & E1 & Hv & Ha & Hp). exists ip, v. auto.
  - intros i v j [[-> ->]|[_ Hv]]%insert_cases Hp; [destruct (Hpar j Hp) as (w & Hw & Ha)|destruct (T4 i v j Hv Hp) as (w & Hw & Ha)]; eauto.
  - intros i v [[-> ->]|[_ Hv]]%insert_cases Ha Hi; [|by apply (T5 i v)]. destruct Ha; [by apply Hchild|done].
  - intros i v j w [[-> ->]|[_ Hv]]%insert_cases Hw [[-> ->]|[_ Hw']]%insert_cases Hp; try done; [by destruct Hw as [?%Hsl _]|by eapply (T6 i v j w)].
  - intros i v m d [[-> ->]|[_ Hv]]%insert_cases Hn; [by rewrite Hnp, Hnn in Hn|]. destruct (T7 i v m d Hv Hn) as (Ha & w & Hw & Hok).
    split; [done|]. exists w. split; [|done]. rewrite zlookup_zinsert_ne; [done|]. intros ->. by apply (Hown i v d).
  - intros i v j w m d d' [[-> ->]|[_ Hv]]%insert_cases [[-> ->]|[_ Hw]]%insert_cases; try (by rewrite Hnp, Hnn). by apply T8.
  - intros i v [[-> ->]|[_ Hv]]%insert_cases Hu; [|pose proof (T9 i v Hv Hu); lia].
    destruct (Hpid Hu) as [(-> & -> & E)|[-> ->]]; [|lia]. apply (T9 n y Hy). congruence.
  - assert (HU : forall i v, i <> n -> zlookup P i = Some v -> pstate v <> UNUSED -> pstate y' <> UNUSED -> ppid v <> ppid y').
    { intros i v Hi Hv Hu Hu'. pose proof (T9 i v Hv Hu). destruct (Hpid Hu') as [(_ & -> & E)|[-> _]]; [|lia].
      intros E1. apply Hi. apply (T10 i v n y); congruence. }
    intros i v j w [[-> ->]|[Hi Hv]]%insert_cases [[-> ->]|[Hj Hw]]%insert_cases U1 U2 E; [done|..].
    + by destruct (HU j w Hj Hw U2 U1).
    + by destruct (HU i v Hi Hv U1 U2).
    + by eapply (T10 i v j w).
Qed.

(** ** The parts of [fork] *)

Section Fork.

Context {A : Type} `{!PageAlloc A} (lapicid : Z -> Z).

Local Abbreviation state := (Proc.state A).
Local Abbreviation inv := (inv lapicid).
Local Abbreviation rinv := (rinv lapicid).
Local Abbreviation cinv := (cinv lapicid).

(** The code that runs between two points where other processors may run; the
    local variable [np] is in the entry of the process. *)
Definition fork_begin (c : Z) : ST state unit :=
  p ← curproc lapicid c;
  x ← get_proc p;
  match newp x with
  | Some _ => blocked
  | None =>
      r ← allocproc_pick lapicid c;
      match r with
      | None => mret tt
      | Some n => upd_proc p (set_newp (Some (n, false)))
      end
  end.

Definition fork_middle (kdata trapret forkret c : Z) : ST state unit :=
  p ← curproc lapicid c;
  x ← get_proc p;
  match newp x with
  | Some (n, false) =>
      b ← allocproc_stack trapret forkret n;
      b' ← (if b : bool then fork_copy kdata p n else mret false);
      upd_proc p (set_newp (if b' : bool then Some (n, true) else None))
  | _ => blocked
  end.

Definition fork_end (c : Z) : ST state unit :=
  p ← curproc lapicid c;
  x ← get_proc p;
  match newp x with
  | Some (n, true) => upd_proc p (set_newp None);; _ ← fork_run lapicid c n; mret ()
  | _ => blocked
  end.

Lemma find_unused_spec l : forall q n, find_unused l q = Some n -> exists y, zlookup l (n - q) = Some y /\ q <= n /\ pstate y = UNUSED.
Proof.
  induction l as [|x l IH]; intros q n; [done|]. cbn. destruct (decide (pstate x = UNUSED)) as [Hu|Hu].
  - intros [= <-]. exists x. rewrite Z.sub_diag. split; [done|]. split; [lia|done].
  - intros (y & Hy & Hq & Hs)%IH. exists y. split; [|split; [lia|done]]. rewrite <- Hy. unfold zlookup. rewrite !(proj2 (Z.leb_le 0 _)) by lia.
    by replace (Z.to_nat (n - q)) with (S (Z.to_nat (n - (q + 1)))) by lia.
Qed.

Lemma rinv_proc c p (s : state) : rinv c p s -> exists x, pr s p x /\ pstate x = RUNNING.
Proof.
  intros [[HM HT] (k & Hk & Hp)]. pose proof (mi_cpu _ _ _ _ HM c k Hk) as Hc. unfold cpu_ok in Hc. rewrite Hp in Hc.
  destruct Hc as (_ & _ & x & Hx & Hr & _). eauto.
Qed.

(** A change of an entry that does not run. *)
Lemma rinv_table c p (s s' : state) P' : rinv c p s -> mach s' = mach s -> procs s' = P' -> length P' = length (procs s) ->
  (forall i x, pr s i x -> exists x', zlookup P' i = Some x' /\ keeps x x') -> tinv P' (initproc s') (nextpid s') -> rinv c p s'.
Proof. intros Hr Hm <- Hl HK HT. by eapply rinv_keeps. Qed.

Lemma embryo_lok n y v : lok n y -> pstate y = UNUSED -> lok n (set_ppid v (set_pstate EMBRYO y)).
Proof.
  intros [L1 L2 L3 L4 L5 L6] Hu. split; try done; [by intros [?|[?|?]]|by intros [?|?]|by intros [? _]].
Qed.

Lemma newp_keeps x nw : keeps x (set_newp nw x).
Proof. by split. Qed.

(** No process is creating the entry. *)
Definition unowned (s : state) (n : Z) : Prop := forall i v d, pr s i v -> newp v <> Some (n, d).

Lemma rinv_newp c p (s : state) x nw : rinv c p s -> pr s p x -> pstate x = RUNNING ->
  (forall n d, nw = Some (n, d) -> n <> p /\ (exists y, pr s n y /\ new_ok p d y) /\
     forall i v d', i <> p -> pr s i v -> newp v <> Some (n, d')) ->
  rinv c p (set_procs (zinsert p (set_newp nw x) (procs s)) s).
Proof.
  intros Hr Hx Hrun Hnw. eapply rinv_table; [exact Hr|done|done|apply length_zinsert|eapply keeps_insert; [exact Hx|apply newp_keeps]|].
  apply tinv_newp; [apply Hr|exact Hx|]. intros n d E. split; [by right; right|]. by apply Hnw.
Qed.

(** [allocproc] takes an entry. *)
Lemma pick_spec (E : Prop) c p (s : state) Q : E -> rinv c p s ->
  (forall m', rinv c p (set_mach m' s) -> Q None (set_mach m' s)) ->
  (forall n y' s', rinv c p s' -> p <> n -> pr s' n y' -> pstate y' = EMBRYO -> parent y' = None -> unowned s' n ->
     (forall x, pr s p x -> pr s' p x) -> Q (Some n) s') ->
  hwp E (allocproc_pick lapicid c) Q s.
Proof.
  intros HE Hr HN HS. destruct (rinv_proc _ _ _ Hr) as (x & Hx & Hrun). unfold allocproc_pick.
  apply hwp_bind. eapply hwp_ptable_acquire; [exact Hr|]. intros m2 Hc2 _ _.
  apply hwp_bind, hwp_get. set (s2 := set_mach m2 s) in *. destruct (find_unused (procs s2) 0) as [n|] eqn:Ef.
  2: { apply hwp_bind. eapply hwp_ptable_release; [exact Hc2|]. intros m3 Hr3 _. apply hwp_ret. by apply HN. }
  apply find_unused_spec in Ef as (y & Hy & _ & Hu). rewrite Z.sub_0_r in Hy. pose proof (ci_tab _ _ _ _ Hc2) as HT.
  assert (Hown : unowned s2 n).
  { intros i v d Hv Hn. destruct (t_new _ _ _ HT i v n d Hv Hn) as (_ & w & Hw & Hemb & _). simplify_eq. congruence. }
  assert (Hpn : p <> n) by (intros ->; unfold pr in Hx; change (procs s) with (procs s2) in Hx; simplify_eq; congruence).
  apply hwp_bind. eapply hwp_upd_proc; [exact Hy|]. apply hwp_bind. unfold alloc_pid. apply hwp_bind, hwp_get. cbn [nextpid set_procs].
  destruct (nextpid s2 =? 2 ^ 31 - 1); [exact HE|]. apply hwp_bind. eapply hwp_Ok; [done|]. apply hwp_ret.
  apply hwp_bind. eapply hwp_upd_proc; [unfold pr; cbn; apply zlookup_zinsert_eq; by eapply zlookup_lt|].
  set (y' := set_ppid (nextpid s2) (set_pstate EMBRYO y)). cbn [procs set_nextpid set_procs]. rewrite zinsert_twice. fold y'.
  change (set_procs ?P (set_nextpid ?v (set_procs _ s2))) with (set_procs P (set_nextpid v s2)).
  set (s3 := set_procs _ _). assert (HT3 : tinv (procs s3) (initproc s3) (nextpid s3)).
  { eapply (tinv_newborn (procs s2) _ (nextpid s2) _ n y y'); [exact HT|exact Hy|by left|exact Hown| |done|done|done| | | |done].
    - apply embryo_lok; [by eapply (t_loc _ _ _ HT)|done].
    - intros j. unfold y'. cbn. rewrite (lo_unused _ _ (t_loc _ _ _ HT n y Hy) Hu). done.
    - intros [?|[?|?]]; done.
    - by right. }
  assert (Hc3 : cinv c p s3).
  { eapply cinv_keeps; [exact Hc2|done|cbn; apply length_zinsert| |exact HT3]. eapply keeps_insert; [exact Hy|].
    split; cbn; rewrite Hu; done. }
  apply hwp_bind. eapply hwp_ptable_release; [exact Hc3|]. intros m4 Hr4 _. apply hwp_ret. apply (HS n y'); [done|done| |done| | |].
  - unfold pr, s3; cbn. apply zlookup_zinsert_eq. by eapply zlookup_lt.
  - by apply (lo_unused _ _ (t_loc _ _ _ HT n y Hy)).
  - intros i v d [[-> ->]|[_ Hv]]%insert_cases; [apply (Hown n y), Hy|by apply (Hown i)].
  - intros x' Hx'. unfold pr, s3. cbn. by rewrite zlookup_zinsert_ne.
Qed.

Lemma fork_begin_ok (E : Prop) c p (s : state) : E -> rinv c p s -> hwp E (fork_begin c) (fun _ s' => rinv c p s') s.
Proof.
  intros HE Hr. unfold fork_begin. apply hwp_bind. eapply hwp_cur; [exact Hr|]. intros m1 Hr1 _.
  destruct (rinv_proc _ _ _ Hr1) as (x & Hx & Hrun). apply hwp_bind. eapply hwp_get_proc; [exact Hx|].
  destruct (newp x) as [nd|] eqn:En; [done|]. apply hwp_bind. eapply pick_spec; [done|exact Hr1| |].
  - intros m2 Hr2. by apply hwp_ret.
  - intros n y s2 Hr2 Hne Hy Hemb Hpar Hown HK. eapply hwp_upd_proc; [by apply HK|]. apply rinv_newp; [done|by apply HK|done|].
    intros n' d [= <- <-]. split; [done|]. split; [exists y; by repeat split|]. intros i v d' _ Hv. by apply (Hown i).
Qed.

(** The entry [n] of the state, after changes by its parent and of the layers
    below. *)
Definition with_new (s : state) (n : Z) (y : proc) (f : File.state A) : state :=
  set_procs (zinsert n y (procs s)) (set_fl f s).

Lemma hwp_new_pages (E : Prop) {B} (m : ST (A * mem) B) (s : state) n y f Q : E ->
  (forall b f', Q b (with_new s n y f')) -> hwp E (onpages m) Q (with_new s n y f).
Proof. intros HE HQ. apply hwp_onpages; [done|]. intros b f'. apply HQ. Qed.

Lemma hwp_new_files (E : Prop) {B} (m : ST (File.state A) B) (s : state) n y f Q : E ->
  (forall b f', Q b (with_new s n y f')) -> hwp E (onfl m) Q (with_new s n y f).
Proof. intros HE HQ. apply hwp_onfl; [done|]. intros b f'. apply HQ. Qed.

Lemma with_new_pr (s : state) n y0 y f : pr s n y0 -> pr (with_new s n y f) n y.
Proof. intros Hy. apply zlookup_zinsert_eq. by eapply zlookup_lt. Qed.

Lemma hwp_new_upd E (s : state) n y0 y f g Q : pr s n y0 -> Q tt (with_new s n (g y) f) -> hwp E (upd_proc n g) Q (with_new s n y f).
Proof.
  intros Hy HQ. eapply hwp_upd_proc; [by eapply with_new_pr|]. cbn [procs with_new set_procs]. by rewrite zinsert_twice.
Qed.

Lemma hwp_new_get E (s : state) n y0 y f Q : pr s n y0 -> Q y (with_new s n y f) -> hwp E (get_proc n) Q (with_new s n y f).
Proof. intros Hy HQ. eapply hwp_get_proc; [by eapply with_new_pr|done]. Qed.

Lemma hwp_new_parent E (s : state) p x n y f Q : pr s p x -> p <> n -> Q x (with_new s n y f) -> hwp E (get_proc p) Q (with_new s n y f).
Proof. intros Hx Hne HQ. eapply hwp_get_proc; [|done]. unfold pr, with_new. cbn. by rewrite zlookup_zinsert_ne. Qed.

Lemma with_new_same (s : state) n y : pr s n y -> s = with_new s n y (fl s).
Proof. intros Hy. unfold with_new. rewrite zinsert_id by done. by destruct s. Qed.

Lemma stack_spec (E : Prop) trapret forkret (s : state) n y Q : E -> pr s n y ->
  (forall y' f, ppid y' = ppid y -> parent y' = parent y -> newp y' = newp y -> pstate y' = pstate y -> kstack y' <> 0 ->
     context y' = K_forkret -> Q true (with_new s n y' f)) ->
  (forall y' f, ppid y' = ppid y -> parent y' = parent y -> newp y' = newp y -> pstate y' = UNUSED -> Q false (with_new s n y' f)) ->
  hwp E (allocproc_stack trapret forkret n) Q s.
Proof.
  intros HE Hy HT HF. rewrite (with_new_same s n y Hy) at 1. unfold allocproc_stack.
  apply hwp_bind, hwp_new_pages; [done|]. intros k f1. apply hwp_bind. eapply hwp_new_upd; [exact Hy|].
  destruct (Z.eqb_spec k 0) as [->|Hk].
  - apply hwp_bind. eapply hwp_new_upd; [exact Hy|]. apply hwp_ret. by apply HF.
  - apply hwp_bind. eapply hwp_new_upd; [exact Hy|]. apply hwp_bind, hwp_new_pages; [done|]. intros _ f2.
    apply hwp_bind. eapply hwp_new_upd; [exact Hy|]. apply hwp_bind, hwp_new_pages; [done|]. intros _ f3.
    apply hwp_bind, hwp_new_pages; [done|]. intros _ f4. apply hwp_bind. eapply hwp_new_upd; [exact Hy|].
    apply hwp_ret. by apply HT.
Qed.

Lemma dup_files_spec (E : Prop) (s : state) p x n y0 k : E -> pr s p x -> pr s n y0 -> p <> n -> forall i y f Q,
  (forall o f', Q tt (with_new s n (set_ofile o y) f')) -> hwp E (dup_files k p n i) Q (with_new s n y f).
Proof.
  intros HE Hx Hy0 Hne. induction k as [|k IH]; intros i y f Q HQ.
  { apply hwp_ret. assert (Ey : y = set_ofile (ofile y) y) by (by destruct y). rewrite Ey. apply HQ. }
  cbn [dup_files]. apply hwp_bind. eapply hwp_new_parent; [exact Hx|done|]. apply hwp_bind.
  destruct (zlookup (ofile x) i) as [[g|]|]; [|apply hwp_ret, IH, HQ|exact HE].
  apply hwp_bind, hwp_new_files; [done|]. intros g' f2. eapply hwp_new_upd; [exact Hy0|]. apply IH. intros o f3. apply HQ.
Qed.

Lemma fork_copy_spec (E : Prop) kdata (s : state) p x n y Q : E -> pr s p x -> pr s n y -> p <> n ->
  (forall y' f, ppid y' = ppid y -> parent y' = Some p -> newp y' = newp y -> pstate y' = pstate y -> kstack y' = kstack y ->
     context y' = context y -> pgdir y' <> 0 -> Q true (with_new s n y' f)) ->
  (forall y' f, ppid y' = ppid y -> parent y' = parent y -> newp y' = newp y -> pstate y' = UNUSED -> Q false (with_new s n y' f)) ->
  hwp E (fork_copy kdata p n) Q s.
Proof.
  intros HE Hx Hy Hne HT HF. rewrite (with_new_same s n y Hy) at 1. unfold fork_copy.
  apply hwp_bind. eapply hwp_new_parent; [exact Hx|done|]. apply hwp_bind, hwp_new_pages; [done|]. intros d f1.
  apply hwp_bind. eapply hwp_new_upd; [exact Hy|]. destruct (Z.eqb_spec d 0) as [->|Hd].
  - apply hwp_bind. eapply hwp_new_get; [exact Hy|]. apply hwp_bind, hwp_new_pages; [done|]. intros _ f2.
    apply hwp_bind. eapply hwp_new_upd; [exact Hy|]. apply hwp_bind. eapply hwp_new_upd; [exact Hy|]. apply hwp_ret. by apply HF.
  - do 4 (apply hwp_bind; eapply hwp_new_upd; [exact Hy|]).
    apply hwp_bind. eapply dup_files_spec; [done|exact Hx|exact Hy|done|]. intros o f2.
    apply hwp_bind. eapply hwp_new_parent; [exact Hx|done|]. apply hwp_bind. destruct (cwd x) as [w|]; [|exact HE].
    apply hwp_bind, hwp_new_files; [done|]. intros w' f3. eapply hwp_new_upd; [exact Hy|].
    apply hwp_bind. eapply hwp_new_upd; [exact Hy|]. apply hwp_ret. by apply HT.
Qed.

Lemma with_new_twice (s : state) n y y' f f' : with_new (with_new s n y f) n y' f' = with_new s n y' f'.
Proof. unfold with_new. cbn [procs set_procs]. by rewrite zinsert_twice. Qed.

(** The entry of a child that is complete, or given up. *)
Lemma newborn_rinv c p (s : state) n y y' f : rinv c p s -> pr s n y -> pstate y = EMBRYO -> unowned s n -> p <> n ->
  ppid y' = ppid y -> newp y' = newp y ->
  (pstate y' = UNUSED /\ parent y' = None) \/
  (pstate y' = EMBRYO /\ kstack y' <> 0 /\ pgdir y' <> 0 /\ parent y' = Some p /\ context y' = K_forkret) ->
  rinv c p (with_new s n y' f).
Proof.
  intros Hr Hy Hemb Hown Hne Epid Enp Hcase. destruct (rinv_proc _ _ _ Hr) as (x & Hx & Hrun).
  eapply (rinv_table c p s _ (zinsert n y' (procs s))); [exact Hr|done|done|by rewrite length_zinsert|eapply keeps_insert; [exact Hy|]|].
  { destruct Hcase as [(E1 & _)|(E1 & _)]; split; rewrite Hemb, ?E1; done. }
  eapply (tinv_newborn (procs s) _ _ _ n y y'); [apply Hr|exact Hy|by right|exact Hown| |done| | | | | |done].
  - destruct Hcase as [(E1 & E2)|(E1 & E2 & E3 & E4 & E5)].
    + split; try done; rewrite ?E1, ?E2; try done; [by unfold alive; rewrite E1; intros [?|[?|?]]|by intros [?|?]|by unfold in_wait; rewrite E1; intros [? _]].
    + split; try done; rewrite ?E1, ?E4; try done; [by intros [?|?]|by unfold in_wait; rewrite E1; intros [? _]|congruence].
  - destruct Hcase as [(E1 & _)|(E1 & _)]; by rewrite E1.
  - destruct Hcase as [(E1 & _)|(E1 & _)]; by rewrite E1.
  - intros j Hj. destruct Hcase as [(_ & E1)|(_ & _ & _ & E1 & _)]; [congruence|]. rewrite E1 in Hj. injection Hj as <-.
    exists x. split; [done|]. by right; right.
  - unfold alive. destruct Hcase as [(E1 & _)|(E1 & _)]; rewrite E1; intros [?|[?|?]]; done.
  - intros _. left. done.
Qed.

(** The stack and the copy: the child is complete, or given up. *)
Lemma body_spec (E : Prop) kdata trapret forkret (s : state) p x n y Q : E -> pr s p x -> pr s n y -> p <> n -> parent y = None -> pstate y = EMBRYO ->
  (forall b y' f, ppid y' = ppid y -> newp y' = newp y ->
     (b = false /\ pstate y' = UNUSED /\ parent y' = None) \/
     (b = true /\ pstate y' = EMBRYO /\ kstack y' <> 0 /\ pgdir y' <> 0 /\ parent y' = Some p /\ context y' = K_forkret) ->
     Q b (with_new s n y' f)) ->
  hwp E (allocproc_stack trapret forkret n) (fun b s' => hwp E (if b : bool then fork_copy kdata p n else mret false) Q s') s.
Proof.
  intros HE Hx Hy Hne Hpar Hemb HQ. eapply (stack_spec E _ _ s n y); [done|exact Hy| |].
  - intros y1 f1 A1 A2 A3 A4 A5 A6.
    assert (Hx1 : pr (with_new s n y1 f1) p x) by (unfold pr, with_new; cbn [procs set_procs]; by rewrite zlookup_zinsert_ne).
    eapply fork_copy_spec; [done|exact Hx1|by eapply with_new_pr|done| |]; intros y2 f2 B1 B2 B3 B4; [intros B5 B6 B7|]; rewrite with_new_twice.
    + apply HQ; [congruence|congruence|]. right. rewrite B2, B4, B5, B6, A4, A6, Hemb. done.
    + apply HQ; [congruence|congruence|]. left. split; [done|]. split; [done|congruence].
  - intros y1 f1 A1 A2 A3 A4. apply hwp_ret. apply HQ; [done|done|]. left. split; [done|]. split; [done|congruence].
Qed.

Lemma fork_middle_ok (E : Prop) kdata trapret forkret c p (s : state) : E -> rinv c p s ->
  hwp E (fork_middle kdata trapret forkret c) (fun _ s' => rinv c p s') s.
Proof.
  intros HE Hr. unfold fork_middle. apply hwp_bind. eapply hwp_cur; [exact Hr|]. intros m1 Hr1 _. set (s1 := set_mach m1 s) in *.
  destruct (rinv_proc _ _ _ Hr1) as (x & Hx & Hrun). apply hwp_bind. eapply hwp_get_proc; [exact Hx|].
  destruct (newp x) as [[n [|]]|] eqn:En; [done| |done]. pose proof (i_tab _ _ (ri_inv _ _ _ _ Hr1)) as HT.
  destruct (t_new _ _ _ HT p x n false Hx En) as (_ & y & Hy & Hemb & Hpar).
  assert (Hne : p <> n) by (intros ->; unfold pr in Hx; simplify_eq; congruence).
  assert (Hno : forall i v d, i <> p -> pr s1 i v -> newp v <> Some (n, d)).
  { intros i v d Hi Hv E'. apply Hi. by eapply (t_newinj _ _ _ HT i v p x). }
  set (s2 := set_procs (zinsert p (set_newp None x) (procs s1)) s1).
  assert (Hr2 : rinv c p s2) by (by apply rinv_newp).
  assert (Hy2 : pr s2 n y) by (unfold pr, s2; cbn; by rewrite zlookup_zinsert_ne).
  assert (Hown : unowned s2 n) by (intros i v d [[-> ->]|[Hi Hv]]%insert_cases; [done|by apply (Hno i)]).
  apply hwp_bind. eapply hwp_mono; [eapply (body_spec E kdata trapret forkret s1 p x n y); [done|exact Hx|exact Hy|done|done|done|]|].
  2: { intros b s' H. apply hwp_bind. exact H. }
  intros b y' f Epid Enp Hcase. cbv beta.
  assert (Hr3 : rinv c p (with_new s2 n y' f)).
  { eapply newborn_rinv; [exact Hr2|exact Hy2|done|done|done|done|done|]. destruct Hcase as [(_ & Hc)|(_ & Hc)]; [by left|by right]. }
  assert (Hx' : pr (with_new s1 n y' f) p x) by (unfold pr, with_new; cbn; by rewrite zlookup_zinsert_ne).
  assert (Hx3 : pr (with_new s2 n y' f) p (set_newp None x)).
  { unfold pr, with_new, s2. cbn [procs set_procs]. rewrite zlookup_zinsert_ne by done. apply zlookup_zinsert_eq. by eapply zlookup_lt. }
  eapply hwp_upd_proc; [exact Hx'|]. set (nw := if b then _ else _).
  assert (Hr4 := rinv_newp c p _ _ nw Hr3 Hx3 Hrun). cbn [procs with_new set_procs s2] in *.
  rewrite (zinsert_comm (procs s1) n p y' (set_newp None x)), zinsert_twice in Hr4 by done. apply Hr4.
  destruct Hcase as [(-> & _)|(-> & E1 & E2 & E3 & E4 & E5)]; [done|]. intros n' d [= <- <-]. split; [done|]. split.
  - exists y'. split; [by eapply (with_new_pr s2)|]. by repeat split.
  - intros i v d' Hi [[-> ->]|[_ Hv]]%insert_cases; [rewrite Enp; by apply (Hown n y)|by apply (Hown i)].
Qed.

(** The child becomes runnable. *)
Lemma fork_run_ok E c p (s : state) n y : rinv c p s -> pr s n y -> new_ok p true y -> unowned s n ->
  hwp E (fork_run lapicid c n) (fun _ s' => rinv c p s') s.
Proof.
  intros Hr Hy (Hemb & Hk & Hd & Hpar & Hctx) Hown. destruct (rinv_proc _ _ _ Hr) as (x & Hx & Hrun).
  unfold fork_run. apply hwp_bind. eapply hwp_get_proc; [exact Hy|].
  apply hwp_bind. eapply hwp_ptable_acquire; [exact Hr|]. intros m3 Hc3 _ _. set (s3 := set_mach m3 s) in *.
  apply hwp_bind. eapply hwp_upd_proc; [exact Hy|]. set (s4 := set_procs _ s3). apply hwp_bind. eapply (hwp_ptable_release _ E c p s4).
  2: { intros m5 Hr5 _. apply hwp_ret. exact Hr5. }
  eapply cinv_keeps; [exact Hc3|done|cbn; apply length_zinsert|eapply keeps_insert; [exact Hy|split; cbn; rewrite Hemb; done]|].
  eapply (tinv_newborn (procs s) _ (nextpid s) _ n y (set_pstate RUNNABLE y)); [apply Hc3|exact Hy|by right|exact Hown| |done|done|done| | | |done].
  - pose proof (t_loc _ _ _ (i_tab _ _ (ri_inv _ _ _ _ Hr)) n y Hy) as [L1 L2 L3 L4 L5 L6].
    split; try done; [intros _; unfold ctx_ok; cbn; by rewrite Hctx|by intros [? _]].
  - cbn. rewrite Hpar. intros j [= <-]. exists x. split; [exact Hx|]. by right; right.
  - intros _. exists p. exact Hpar.
  - by left.
Qed.

Lemma fork_end_ok E c p (s : state) : rinv c p s -> hwp E (fork_end c) (fun _ s' => rinv c p s') s.
Proof.
  intros Hr. unfold fork_end. apply hwp_bind. eapply hwp_cur; [exact Hr|]. intros m1 Hr1 _. set (s1 := set_mach m1 s) in *.
  destruct (rinv_proc _ _ _ Hr1) as (x & Hx & Hrun). apply hwp_bind. eapply hwp_get_proc; [exact Hx|].
  destruct (newp x) as [[n [|]]|] eqn:En; [|done|done]. pose proof (i_tab _ _ (ri_inv _ _ _ _ Hr1)) as HT.
  destruct (t_new _ _ _ HT p x n true Hx En) as (Ha & y & Hy & Hnew).
  assert (Hne : p <> n) by (intros ->; destruct Hnew as [Hemb _]; unfold pr in Hx; simplify_eq; congruence).
  apply hwp_bind. eapply hwp_upd_proc; [exact Hx|]. apply hwp_bind. eapply hwp_mono.
  - eapply fork_run_ok; [by apply rinv_newp|unfold pr; cbn; by rewrite zlookup_zinsert_ne|exact Hnew|].
    intros i v d [[-> ->]|[Hi Hv]]%insert_cases; [done|]. intros E'. apply Hi. by eapply (t_newinj _ _ _ HT i v p x).
  - intros ? s' Hr'. by apply hwp_ret.
Qed.

(** The whole of [fork], when no other processor interferes. *)
Lemma fork_ok (E : Prop) kdata trapret forkret c p (s : state) : E -> rinv c p s ->
  hwp E (fork lapicid c kdata trapret forkret) (fun _ s' => rinv c p s') s.
Proof.
  intros HE Hr. unfold fork, allocproc. apply hwp_bind. eapply hwp_cur; [exact Hr|]. intros m1 Hr1 _. set (s1 := set_mach m1 s) in *.
  destruct (rinv_proc _ _ _ Hr1) as (x & Hx & Hrun). apply hwp_bind, hwp_bind. eapply pick_spec; [done|exact Hr1| |].
  { intros m2 Hr2. by apply hwp_ret, hwp_ret. }
  intros n y s2 Hr2 Hne Hy Hemb Hpar Hown HK. apply hwp_bind.
  eapply hwp_mono; [eapply (body_spec E kdata trapret forkret s2 p x n y _ HE); [by apply HK|exact Hy|done|done|done|]|].
  2: { intros b s' H. apply hwp_ret. destruct b; [apply hwp_bind; exact H|]. exact H. }
  intros b y' f Epid Enp Hcase.
  assert (Hr3 : rinv c p (with_new s2 n y' f)).
  { eapply newborn_rinv; [exact Hr2|exact Hy|done|done|done|done|done|]. destruct Hcase as [(_ & Hc)|(_ & Hc)]; [by left|by right]. }
  destruct Hcase as [(-> & _)|(-> & E1 & E2 & E3 & E4 & E5)]; [by apply hwp_ret|].
  eapply fork_run_ok; [exact Hr3|by eapply with_new_pr|by repeat split|].
  intros i v d [[-> ->]|[_ Hv]]%insert_cases; [rewrite Enp; by apply (Hown n y)|by apply (Hown i)].
Qed.

End Fork.

End ProcFork.
