(* ===== verification/ProcSched.v ===== *)
(** * The scheduler keeps the invariant

    Each part of the loop of [scheduler], the threads that it continues, and
    [growproc]. *)

From Stdlib Require Import ZArith Lia.
From stdpp Require Import base numbers strings list gmap.
From S2P Require Import Prelude Mmu Mem Kalloc File Spin Proc ProcInv ProcStep ProcOps ProcFork.

Open Scope Z_scope.

Import Mmu Mem Kalloc Spin Proc ProcInv ProcStep ProcOps ProcFork.

Module ProcSched.

Section Sched.

Context {A : Type} `{!PageAlloc A} (lapicid : Z -> Z).

Local Abbreviation state := (Proc.state A).
Local Abbreviation inv := (inv lapicid).
Local Abbreviation minv := (minv lapicid).
Local Abbreviation rinv := (rinv lapicid).
Local Abbreviation cinv := (cinv lapicid).

(** ** Rules *)

Lemma cpu_at_set (s : state) c k k' : cpu_at s c k -> cpu_at (set_mach (set_cpu c k' (mach s)) s) c k'.
Proof. intros Hk. apply zlookup_zinsert_eq. by eapply zlookup_lt. Qed.

Lemma set_mach_cpu_twice (s : state) c k k' :
  set_mach (set_cpu c k' (mach (set_mach (set_cpu c k (mach s)) s))) (set_mach (set_cpu c k (mach s)) s) = set_mach (set_cpu c k' (mach s)) s.
Proof. cbn [mach set_mach]. by rewrite set_cpu_twice. Qed.

Lemma run_get_proc' (s : state) p x : pr s p x -> get_proc p s = Ok (x, s).
Proof. intros Hx. unfold get_proc, mbind, ST_bind, get. by rewrite Hx. Qed.

Lemma run_onmach {B} (m : ST Spin.mach B) (s : state) b m' : m (mach s) = Ok (b, m') -> onmach m s = Ok (b, set_mach m' s).
Proof. intros R. unfold onmach, zoom. by rewrite R. Qed.

Lemma run_switchuvm c (s : state) k p x : mach_ok lapicid (mach s) -> cpu_at s c k -> pr s p x -> kstack x <> 0 -> pgdir x <> 0 ->
  switchuvm lapicid c p s =
    Ok (tt, set_mach (set_cpu c (set_vm (V2P (pgdir x)) (u32 (kstack x + KSTACKSIZE)) (touch k)) (mach s)) s).
Proof.
  intros Hok Hk Hx H1 H2. unfold switchuvm. rewrite (run_bind _ _ _ _ _ (run_get_proc' s p x Hx)).
  rewrite !(proj2 (Z.eqb_neq _ _)) by done. pose proof (mo_ncli _ _ Hok c k Hk) as Hn. pose proof (zlookup_lt _ _ _ Hk) as Hlt.
  set (v := V2P (pgdir x)) in *. set (e := u32 (kstack x + KSTACKSIZE)) in *.
  set (m1 := set_cpu c (pushed k) (mach s)). set (m2 := set_cpu c (set_vm v e (pushed k)) (mach s)).
  assert (Hc1 : cpus_ok lapicid m1) by (eapply cpus_ok_set; [apply Hok|exact Hk|done]).
  assert (Hc2 : cpus_ok lapicid m2) by (eapply cpus_ok_set; [apply Hok|exact Hk|done]).
  assert (L1 : zlookup (cpus m1) c = Some (pushed k)) by (by apply zlookup_zinsert_eq).
  assert (L2 : zlookup (cpus m2) c = Some (set_vm v e (pushed k))) by (by apply zlookup_zinsert_eq).
  rewrite (run_bind _ _ _ _ _ (run_onmach _ s _ _ (pushcli_spec lapicid c k (mach s) (mo_cpus _ _ Hok) Hk))). fold m1.
  rewrite (run_bind _ _ _ c (set_mach m1 s) (run_onmach _ (set_mach m1 s) _ _ (mycpu_spec lapicid c (pushed k) m1 Hc1 L1 eq_refl))).
  rewrite (run_bind _ _ _ tt (set_mach m2 s)).
  2: { unfold upd_cpu. rewrite (run_onmach _ (set_mach m1 s) _ _ (upd_cpu_eq c _ (pushed k) m1 L1)). unfold m1. rewrite set_cpu_twice. done. }
  rewrite (run_onmach _ (set_mach m2 s) tt (set_cpu c (popped (set_vm v e (pushed k))) m2)).
  2: { apply (popcli_spec lapicid c _ m2 Hc2 L2); [done|cbn; lia]. }
  unfold m2. rewrite set_cpu_twice. change (popped (set_vm v e (pushed k))) with (set_vm v e (popped (pushed k))).
  by rewrite (touch_eq lapicid (mach s) c k).
Qed.

Lemma hwp_switchuvm (E : Prop) c (s : state) k p x Q : mach_ok lapicid (mach s) -> cpu_at s c k -> pr s p x ->
  kstack x <> 0 -> pgdir x <> 0 ->
  Q tt (set_mach (set_cpu c (set_vm (V2P (pgdir x)) (u32 (kstack x + KSTACKSIZE)) (touch k)) (mach s)) s) ->
  hwp E (switchuvm lapicid c p) Q s.
Proof. intros Hok Hk Hx H1 H2 HQ. eapply hwp_Ok; [by eapply run_switchuvm|done]. Qed.

Lemma hwp_sched_return E c p (s : state) e Q : cinv c p s ->
  (forall m', cinv c p (set_mach m' s) -> held m' c = held (mach s) c -> locks m' = locks (mach s) -> Q tt (set_mach m' s)) ->
  hwp E (sched_return lapicid c e) Q s.
Proof.
  intros Hc HQ. destruct (cinv_cpu _ _ _ _ Hc) as (k & x & Hk & Hp & H1 & Hin & Hn & Hx & Hr & Hl). pose proof (ci_mach _ _ _ _ Hc) as HM.
  pose proof (mi_ok _ _ _ _ HM) as Hok. pose proof (mo_ncli _ _ Hok c k Hk) as Hnc. pose proof (mo_if _ _ Hok c k Hk ltac:(lia)) as Hif.
  unfold sched_return. apply hwp_bind. eapply (hwp_mycpu lapicid E c s k Hok Hk); [done|]. eapply hwp_upd_cpu; [exact Hk|]. apply HQ; [|done|done].
  split; [|apply Hc|exists (set_intena e k); by split; [eapply cpu_at_set|]]. pose proof (mi_cpu _ _ _ _ HM c k Hk) as Hck.
  eapply (minv_build lapicid (Some c) (Some c) (mach s) _ (procs s) (procs s) c k (set_intena e k)); [exact HM|done|exact Hk| | |done|done|done|apply keeps_all| | |].
  - by eapply mach_ok_set.
  - apply HM.
  - intros i. unfold on. cbn. by rewrite Hp.
  - intros i x'. unfold on. cbn. by rewrite Hp.
  - unfold cpu_ok in *. cbn [pos set_intena]. by rewrite Hp in *.
Qed.

(** A lock that does not exist. *)
Lemma acquire_missing (E : Prop) c (s : state) k lk Q : mach_ok lapicid (mach s) -> cpu_at s c k -> locks (mach s) !! lk = None -> E ->
  hwp E (acquire lapicid c lk) Q s.
Proof.
  intros Hok Hk En HE. unfold hwp, acquire, onmach, zoom, Spin.acquire.
  rewrite (run_bind _ _ _ _ _ (pushcli_spec lapicid c k (mach s) (mo_cpus _ _ Hok) Hk)). unfold holding.
  set (m1 := set_cpu c (pushed k) (mach s)).
  assert (R : (pushcli lapicid c) m1 = Ok (tt, set_cpu c (pushed (pushed k)) m1)).
  { apply pushcli_spec; [eapply cpus_ok_set; [apply Hok|exact Hk|done]|]. apply zlookup_zinsert_eq. by eapply zlookup_lt. }
  unfold mbind, ST_bind. rewrite R. unfold get_lock, mbind, ST_bind, get. cbn [locks set_cpu m1]. by rewrite En.
Qed.

(** ** The threads *)

Lemma chan_mild P p x ch : pstate x = RUNNING -> mild P p x (set_chan ch x).
Proof.
  intros Hr. split; try done; [by left| |].
  - intros [L1 L2 L3 L4 L5 L6]. split; try done. cbn. intros [Hs _]. cbn in Hs. congruence.
  - intros [Hs _]. cbn in Hs. congruence.
Qed.

(** [sleep] after [sched], for another lock than [ptable.lock]. *)
Lemma sleep_return_ok E c p (s : state) lk : cinv c p s -> lk <> PTABLE -> held (mach s) c = {[PTABLE]} \/ E ->
  lk = 0 \/ (exists l, locks (mach s) !! lk = Some l) \/ E ->
  hwp E (sleep_return lapicid c lk) (fun _ s' => rinv c p s') s.
Proof.
  intros Hc Hne HE Hlk. unfold sleep_return. apply hwp_bind. eapply hwp_cur_locked; [exact Hc|].
  destruct (cinv_cpu _ _ _ _ Hc) as (k & x & _ & _ & _ & _ & _ & Hx & Hr & _). apply hwp_bind. eapply hwp_upd_proc; [exact Hx|].
  rewrite (proj2 (Z.eqb_neq lk PTABLE)) by done. cbn [negb]. apply hwp_bind.
  eapply hwp_ptable_release_locks; [eapply cinv_upd; [exact Hc|exact Hx|by split|by apply chan_mild]|].
  intros m' Hr' Hh Hlks. destruct (Z.eqb_spec lk 0) as [->|H0]; cbn [negb]; [by apply hwp_ret|].
  destruct Hlk as [?|Hlk]; [done|]. destruct (locks (mach s) !! lk) as [l|] eqn:El.
  2: { destruct Hlk as [[? ?]|HE']; [done|]. destruct (ri_run _ _ _ _ Hr') as (k' & Hk' & _).
       eapply acquire_missing; [apply Hr'|exact Hk'|cbn; by rewrite Hlks|done]. }
  eapply (hwp_lock_acquire lapicid E c p); [exact Hr'|done|cbn; by rewrite Hlks| |done].
  destruct HE as [HE|HE]; [left|by right]. cbn. rewrite Hh. cbn. rewrite HE. set_solver.
Qed.

Lemma forkret_ok (E : Prop) ds c p (s : state) : cinv c p s -> first s = false \/ E ->
  hwp E (forkret lapicid c ds) (fun _ s' => inv s') s.
Proof.
  intros Hc HE. unfold forkret. apply hwp_bind. eapply hwp_ptable_release; [exact Hc|]. intros m1 Hr1 _.
  apply hwp_bind, hwp_get. apply hwp_bind. cbn [first set_mach]. destruct (first s).
  - destruct HE as [?|HE]; [done|]. apply hwp_bind, hwp_modify.
    assert (Hr2 : rinv c p (set_first false (set_mach m1 s))) by (eapply rinv_table; [exact Hr1|done|done|done| |apply Hr1]; intros i y Hy; exists y; by split; [|apply keeps_refl]).
    apply hwp_bind. eapply hwp_cur; [exact Hr2|]. intros m3 Hr3 _. destruct (rinv_proc _ _ _ _ Hr3) as (x & Hx & _).
    apply hwp_bind. eapply hwp_get_proc; [exact Hx|].
    apply hwp_bind, hwp_onfl; [done|]. intros _ f1. apply hwp_onfl; [done|]. intros _ f2. apply hwp_ret. 
    eapply (ri_inv _ c p). eapply rinv_table; [exact Hr3|done|done|done| |apply Hr3]; intros i y Hy; exists y; by split; [|apply keeps_refl].
  - apply hwp_ret, hwp_ret. apply Hr1.
Qed.

(** What the thread of a process finds when it continues. *)
Lemma resume_ok (E : Prop) ds c p (s : state) x : cinv c p s -> held (mach s) c = {[PTABLE]} -> pr s p x -> ctx_ok x ->
  match context x with
  | K_forkret => first s = false
  | K_sleep lk A_ret _ => lk = 0 \/ exists l, locks (mach s) !! lk = Some l
  | K_sleep _ A_wait _ => forall j y, pr s j y -> parent y = Some p -> pstate y <> ZOMBIE
  | _ => True
  end \/ E ->
  hwp E (resume lapicid c ds (context x)) (fun _ s' => inv s') s.
Proof.
  intros Hc Hh Hx Hctx HE. unfold ctx_ok in Hctx. unfold resume. destruct (context x) as [|e|lk a e|e]; [by eapply forkret_ok|..|done].
  - apply hwp_bind. eapply hwp_sched_return; [exact Hc|]. intros m1 Hc1 _ _.
    apply hwp_bind. eapply hwp_ptable_release; [exact Hc1|]. intros m2 Hr2 _. apply hwp_ret. apply Hr2.
  - apply hwp_bind. eapply hwp_sched_return; [exact Hc|]. intros m1 Hc1 Hh1 Hl1. apply hwp_bind. destruct a.
    + assert (Hne : lk <> PTABLE) by (intros ->; discriminate (proj2 Hctx eq_refl)).
      eapply hwp_mono; [eapply sleep_return_ok; [exact Hc1|done|left; cbn; congruence|]|].
      * cbn. rewrite Hl1. destruct HE as [[?|?]|?]; [by left|by right; left|by right; right].
      * intros ? s' Hr'. apply hwp_ret. apply Hr'.
    + assert (lk = PTABLE) as -> by (by apply Hctx). unfold sleep_return. apply hwp_bind. eapply hwp_cur_locked; [exact Hc1|].
      set (s1 := set_mach m1 s) in *. destruct (cinv_cpu _ _ _ _ Hc1) as (k & x1 & _ & _ & _ & _ & _ & Hx1 & Hr1 & _).
      apply hwp_bind. eapply hwp_upd_proc; [exact Hx1|]. apply hwp_ret.
      assert (Hc2 : cinv c p (set_procs (zinsert p (set_chan C_none x1) (procs s1)) s1))
        by (eapply cinv_upd; [exact Hc1|exact Hx1|by split|by apply chan_mild]).
      apply hwp_bind. eapply hwp_cur_locked; [exact Hc2|]. eapply hwp_mono; [eapply wait_loop_ok; [exact Hc2|left; cbn; congruence|]|].
      * destruct HE as [HE|HE]; [left|by right]. intros j y [[-> ->]|[_ Hy]]%insert_cases; [cbn; congruence|by apply (HE j)].
      * by intros r s' [? _].
Qed.

(** ** The loop *)

(** A step of the scheduler of processor [c] that changes no entry. *)
Lemma pass_inv (s : state) c k m' k' : inv s -> cpu_at s c k -> on k = None -> on k' = None -> mach_ok lapicid m' ->
  (exists l, locks m' !! PTABLE = Some l) -> cpus m' = zinsert c k' (cpus (mach s)) ->
  (forall d, d <> c -> held m' d = held (mach s) d) -> cpu_ok None m' (procs s) c k' -> inv (set_mach m' s).
Proof.
  intros [HM HT] Hk Ho Ho' Hok Hl Hcpus Hh Hc. split; [|exact HT].
  eapply (minv_build lapicid None None (mach s) m' (procs s) (procs s) c k k'); try done; [apply keeps_all| |]; intros i; congruence.
Qed.

Lemma top_ok E kpgdir ds c k (s : state) : inv s -> cpu_at s c k -> pos k = S_top ->
  hwp E (scheduler lapicid c kpgdir ds) (fun _ s' => inv s') s.
Proof.
  intros Hi Hk Hp. pose proof (i_mach _ _ Hi) as HM. pose proof (mi_ok _ _ _ _ HM) as Hok. pose proof (mi_cpu _ _ _ _ HM c k Hk) as Hc.
  unfold cpu_ok in Hc. rewrite Hp in Hc. destruct Hc as [H1 H2]. destruct (mi_lock _ _ _ _ HM) as [l El].
  assert (Hn : ncli k = 0) by (rewrite (mo_ncli _ _ Hok c k Hk), H2, size_empty; done).
  unfold scheduler. apply hwp_bind. eapply hwp_get_cpu; [exact Hk|]. rewrite Hp.
  apply hwp_bind. unfold sti. eapply hwp_onmach; [by apply (upd_cpu_eq c _ k)|]. set (k1 := set_if true k). set (s1 := set_mach _ s).
  assert (Hk1 : cpu_at s1 c k1) by (by eapply cpu_at_set).
  assert (Hok1 : mach_ok lapicid (mach s1)).
  { destruct Hok as [O1 O2 O3 O4]. split; [by eapply cpus_ok_set|done| |]; intros d kd; cbn; rewrite (lookup_set c k) by done;
      (destruct (decide (d = c)) as [->|]; [intros [= <-]; cbn|]); [by apply (O3 c)|apply O3|lia|apply O4]. }
  apply hwp_bind. eapply (hwp_acquire lapicid E c s1 k1 Hok1 Hk1 PTABLE l); [done|change (PTABLE ∉ held (mach s) c); rewrite H2; apply not_elem_of_empty|]. intros Hnl.
  set (m2 := acquired c PTABLE k1 (mach s1)). set (s2 := set_mach m2 s1). assert (Hok2 : mach_ok lapicid m2).
  { eapply mach_ok_acquired; [exact Hok1|exact Hk1|exact El|]. by rewrite (free_lock lapicid _ l Hok1 El Hnl). }
  assert (Hk2 : cpu_at s2 c (pushed k1)) by (apply zlookup_zinsert_eq; by eapply zlookup_lt).
  eapply hwp_upd_cpu; [exact Hk2|]. set (k3 := set_pos (S_scan 0) (pushed k1)). set (m3 := set_cpu c k3 (mach s2)).
  change (set_mach m3 s2) with (set_mach m3 s).
  assert (Hh : forall d, held m3 d = if decide (d = c) then held (mach s) d ∪ {[PTABLE]} else held (mach s) d) by (intros d; by apply (held_acquired c PTABLE k1 (mach s1) l)).
  eapply (pass_inv s c k m3 k3); [done|done|unfold on; by rewrite Hp|done|by eapply (mach_ok_set lapicid m2)| | | |].
  - cbn. rewrite lookup_insert_eq. eauto.
  - cbn. by rewrite !zinsert_twice.
  - intros d Hd. rewrite Hh. by rewrite decide_False.
  - unfold cpu_ok. cbn [pos k3 set_pos]. rewrite Hh, decide_True, H2 by done. split; [done|]. split; [set_solver|]. unfold NPROC. lia.
Qed.

Lemma back_ok E kpgdir ds c k p (s : state) : inv s -> cpu_at s c k -> pos k = S_back p ->
  hwp E (scheduler lapicid c kpgdir ds) (fun _ s' => inv s') s.
Proof.
  intros Hi Hk Hp. pose proof (i_mach _ _ Hi) as HM. pose proof (mi_ok _ _ _ _ HM) as Hok. pose proof (mi_cpu _ _ _ _ HM c k Hk) as Hc.
  unfold cpu_ok in Hc. rewrite Hp in Hc. destruct Hc as (H1 & H2 & x & Hx & _).
  unfold scheduler. apply hwp_bind. eapply hwp_get_cpu; [exact Hk|]. rewrite Hp. unfold switchkvm.
  apply hwp_bind. eapply hwp_upd_cpu; [exact Hk|]. apply hwp_bind. eapply hwp_upd_cpu; [by eapply cpu_at_set|]. rewrite set_mach_cpu_twice.
  eapply hwp_upd_cpu; [by eapply cpu_at_set|]. rewrite set_mach_cpu_twice.
  eapply (pass_inv s c k); [done|done|unfold on; by rewrite Hp| |by eapply mach_ok_set|apply HM|done|done|]; [done|].
  unfold cpu_ok. cbn [pos set_pos]. split; [done|]. split; [done|]. pose proof (zlookup_lt _ _ _ Hx). rewrite (t_len _ _ _ (i_tab _ _ Hi)) in *.
  unfold NPROC in *. lia.
Qed.

Lemma scan_mild P p x : pstate x = RUNNABLE -> mild P p x (set_pstate RUNNING x).
Proof.
  intros Hr. split; try done; [right; split; [by right; left|by right; right]| |by intros [? _]].
  intros [L1 L2 L3 L4 L5 L6]. split; try done; [intros _; apply L1; by right; left|by intros [?|?]|by intros [? _]].
Qed.

Lemma scan_ok E kpgdir ds c k p (s : state) : inv s -> cpu_at s c k -> pos k = S_scan p ->
  hwp E (scheduler lapicid c kpgdir ds) (fun _ s' => inv s') s.
Proof.
  intros Hi Hk Hp. pose proof (i_mach _ _ Hi) as HM. pose proof (mi_ok _ _ _ _ HM) as Hok. pose proof (mi_cpu _ _ _ _ HM c k Hk) as Hc.
  unfold cpu_ok in Hc. rewrite Hp in Hc. destruct Hc as (H1 & H2 & H3). pose proof (i_tab _ _ Hi) as HT.
  unfold scheduler. apply hwp_bind. eapply hwp_get_cpu; [exact Hk|]. rewrite Hp. destruct (Z.ltb_spec p NPROC) as [Hlt|Hge].
  - destruct (zlookup_is_Some (procs s) p) as [x Hx]; [rewrite (t_len _ _ _ HT); unfold NPROC in *; lia|].
    apply hwp_bind. eapply hwp_get_proc; [exact Hx|]. destruct (decide (pstate x <> RUNNABLE)) as [Hn|Hn].
    { eapply hwp_upd_cpu; [exact Hk|]. eapply (pass_inv s c k); [done|done|unfold on; by rewrite Hp| |by eapply mach_ok_set|apply HM|done|done|]; [done|].
      unfold cpu_ok. cbn [pos set_pos]. split; [done|]. split; [done|]. lia. }
    assert (Hrun : pstate x = RUNNABLE) by (destruct (pstate x); done || (exfalso; by apply Hn)). clear Hn.
    destruct (lo_mem _ _ (t_loc _ _ _ HT p x Hx)) as [Hks Hpd]; [by right; left|].
    assert (Hnc : ncli k <> 0) by (rewrite (mo_ncli _ _ Hok c k Hk), H2, size_singleton; done).
    apply hwp_bind. eapply hwp_upd_cpu; [exact Hk|]. set (k1 := set_cproc (Some p) k).
    apply hwp_bind. eapply (hwp_switchuvm E c _ k1 p x); [by eapply mach_ok_set|by eapply cpu_at_set|exact Hx|done|done|].
    rewrite set_mach_cpu_twice, touch_locked by done. set (k2 := set_vm _ _ k1).
    apply hwp_bind. eapply hwp_upd_proc; [exact Hx|]. set (s3 := set_procs _ _).
    assert (Hk3 : cpu_at s3 c k2) by (apply zlookup_zinsert_eq; by eapply zlookup_lt). eapply hwp_upd_cpu; [exact Hk3|].
    cbn [mach s3 set_procs set_mach]. rewrite set_cpu_twice. split; cbn [mach procs set_mach s3 set_procs initproc nextpid].
    2: { eapply tinv_upd; [exact HT|exact Hx|by apply scan_mild]. }
    eapply (minv_build lapicid None None (mach s) _ (procs s) _ c k (set_pos (S_enter p) k2)); [exact HM|done|exact Hk|by eapply mach_ok_set|apply HM|done|done|apply length_zinsert| | | |].
    + intros i y Hy _ Ho. unfold on in Ho. cbn in Ho. exists y. rewrite zlookup_zinsert_ne by congruence. split; [done|apply keeps_refl].
    + intros i [= <-] _. split; [done|]. unfold pr in *. congruence.
    + intros i y Ho. unfold on in Ho. by rewrite Hp in Ho.
    + unfold cpu_ok. cbn [pos set_pos]. split; [done|]. split; [done|]. exists (set_pstate RUNNING x).
      split; [apply zlookup_zinsert_eq; by eapply zlookup_lt|]. split; [done|]. split; [|done]. apply (lo_ctx _ _ (t_loc _ _ _ HT p x Hx)). by left.
  - assert (Hin : PTABLE ∈ held (mach s) c) by (rewrite H2; by apply elem_of_singleton_2).
    apply hwp_bind. eapply (hwp_release lapicid E c s k Hok Hk PTABLE); [done|]. set (m1 := released c PTABLE k (mach s)).
    eapply (hwp_upd_cpu E c (set_mach m1 s) (popped k)); [apply zlookup_zinsert_eq; by eapply zlookup_lt|].
    set (k2 := set_pos S_top (popped k)). cbn [mach set_mach]. set (m2 := set_cpu c k2 m1). change (set_mach m2 (set_mach m1 s)) with (set_mach m2 s).
    assert (Hh : forall d, held m2 d = if decide (d = c) then held (mach s) d ∖ {[PTABLE]} else held (mach s) d) by (intros d; by apply (held_released c PTABLE k (mach s))).
    assert (Hk1 : zlookup (cpus m1) c = Some (popped k)) by (apply zlookup_zinsert_eq; by eapply zlookup_lt).
    eapply (pass_inv s c k m2 k2); [done|done|unfold on; by rewrite Hp|done|by eapply (mach_ok_set lapicid m1); [eapply mach_ok_released|..]| | | |].
    + cbn. rewrite lookup_insert_eq. eauto.
    + cbn. by rewrite zinsert_twice.
    + intros d Hd. rewrite Hh. by rewrite decide_False.
    + unfold cpu_ok. cbn [pos k2 set_pos]. rewrite Hh, decide_True, H2 by done. split; [done|set_solver].
Qed.

Lemma enter_inv c k p (s : state) : inv s -> cpu_at s c k -> pos k = S_enter p ->
  cinv c p (set_mach (set_cpu c (set_pos (S_run p) k) (mach s)) s).
Proof.
  intros Hi Hk Hp. pose proof (i_mach _ _ Hi) as HM. pose proof (mi_ok _ _ _ _ HM) as Hok. pose proof (mi_cpu _ _ _ _ HM c k Hk) as Hc.
  unfold cpu_ok in Hc. rewrite Hp in Hc. destruct Hc as (H1 & H2 & x & Hx & Hr & Hcx & Hl).
  split; [|apply Hi|exists (set_pos (S_run p) k); by split; [eapply cpu_at_set|]].
  eapply (minv_build lapicid None (Some c) (mach s) _ (procs s) (procs s) c k (set_pos (S_run p) k)); [exact HM| |exact Hk|by eapply mach_ok_set|apply HM|done|done|done|apply keeps_all| | |].
  - intros d Hd. split; [by intros [= ->]|done].
  - intros i. unfold on. cbn. by rewrite Hp.
  - intros i y. unfold on. cbn. by rewrite Hp.
  - unfold cpu_ok. cbn [pos set_pos]. split; [done|]. split; [|by exists x]. change (PTABLE ∈ held (mach s) c <-> Some c = Some c).
    rewrite H2. split; [done|]. intros _. by apply elem_of_singleton_2.
Qed.

Lemma enter_ok (E : Prop) kpgdir ds c k p x (s : state) : inv s -> cpu_at s c k -> pos k = S_enter p -> pr s p x ->
  match context x with
  | K_forkret => first s = false
  | K_sleep lk A_ret _ => lk = 0 \/ exists l, locks (mach s) !! lk = Some l
  | K_sleep _ A_wait _ => forall j y, pr s j y -> parent y = Some p -> pstate y <> ZOMBIE
  | _ => True
  end \/ E ->
  hwp E (scheduler lapicid c kpgdir ds) (fun _ s' => inv s') s.
Proof.
  intros Hi Hk Hp Hx HE. unfold scheduler. apply hwp_bind. eapply hwp_get_cpu; [exact Hk|]. rewrite Hp.
  pose proof (mi_cpu _ _ _ _ (i_mach _ _ Hi) c k Hk) as Hc. unfold cpu_ok in Hc. rewrite Hp in Hc. destruct Hc as (_ & H2 & x' & Hx' & _ & Hcx & _).
  assert (x' = x) as -> by (unfold pr in Hx; congruence). apply hwp_bind. eapply hwp_upd_cpu; [exact Hk|]. apply hwp_bind. eapply hwp_get_proc; [exact Hx|].
  apply hwp_bind. eapply hwp_mono; [eapply resume_ok; [by apply enter_inv|exact H2|exact Hx|exact Hcx|exact HE]|]. done.
Qed.

Lemma scheduler_ok kpgdir ds c k (s : state) : inv s -> cpu_at s c k ->
  hwp True (scheduler lapicid c kpgdir ds) (fun _ s' => inv s') s.
Proof.
  intros Hi Hk. destruct (pos k) as [|p|p|p|p] eqn:Hp; [by eapply top_ok|by eapply scan_ok| | |by eapply back_ok].
  - pose proof (mi_cpu _ _ _ _ (i_mach _ _ Hi) c k Hk) as Hc. unfold cpu_ok in Hc. rewrite Hp in Hc. destruct Hc as (_ & H2 & x & Hx & _).
    eapply enter_ok; [done|done|done|exact Hx|by right].
  - unfold scheduler. apply hwp_bind. eapply hwp_get_cpu; [exact Hk|]. by rewrite Hp.
Qed.

(** ** The scan *)

Lemma run_get_cpu' c (s : state) k : cpu_at s c k -> get_cpu c s = Ok (k, s).
Proof. intros Hk. unfold get_cpu, onmach, zoom, Spin.get_cpu, mbind, ST_bind, get. rewrite Hk. by destruct s. Qed.

Lemma run_upd_cpu' c f (s : state) k : cpu_at s c k -> upd_cpu c f s = Ok (tt, set_mach (set_cpu c (f k) (mach s)) s).
Proof. intros Hk. unfold upd_cpu. by rewrite (run_onmach _ s _ _ (upd_cpu_eq c f k (mach s) Hk)). Qed.

Lemma run_skip kpgdir ds c k p x (s : state) : cpu_at s c k -> pos k = S_scan p -> p < NPROC -> pr s p x -> pstate x <> RUNNABLE ->
  scheduler lapicid c kpgdir ds s = Ok (tt, set_mach (set_cpu c (set_pos (S_scan (p + 1)) k) (mach s)) s).
Proof.
  intros Hk Hp Hlt Hx Hn. unfold scheduler. rewrite (run_bind _ _ _ _ _ (run_get_cpu' c s k Hk)), Hp, (proj2 (Z.ltb_lt _ _)) by done.
  rewrite (run_bind _ _ _ _ _ (run_get_proc' s p x Hx)), decide_True by done. by apply run_upd_cpu'.
Qed.

Lemma run_pick kpgdir ds c k p x (s : state) : inv s -> cpu_at s c k -> pos k = S_scan p -> p < NPROC -> pr s p x -> pstate x = RUNNABLE ->
  exists s' k', scheduler lapicid c kpgdir ds s = Ok (tt, s') /\ cpu_at s' c k' /\ pos k' = S_enter p /\
    procs s' = zinsert p (set_pstate RUNNING x) (procs s).
Proof.
  intros Hi Hk Hp Hlt Hx Hr. destruct (lo_mem _ _ (t_loc _ _ _ (i_tab _ _ Hi) p x Hx)) as [Hks Hpd]; [by right; left|].
  pose proof (zlookup_lt _ _ _ Hk) as Hkl. pose proof (mi_ok _ _ _ _ (i_mach _ _ Hi)) as Hok.
  unfold scheduler. rewrite (run_bind _ _ _ _ _ (run_get_cpu' c s k Hk)), Hp, (proj2 (Z.ltb_lt _ _)) by done.
  rewrite (run_bind _ _ _ _ _ (run_get_proc' s p x Hx)), decide_False by (intros H; by apply H).
  rewrite (run_bind _ _ _ _ _ (run_upd_cpu' c _ s k Hk)). set (k1 := set_cproc (Some p) k). set (s1 := set_mach _ s).
  assert (Hk1 : cpu_at s1 c k1) by (by eapply cpu_at_set). assert (Hok1 : mach_ok lapicid (mach s1)) by (by eapply mach_ok_set).
  rewrite (run_bind _ _ _ _ _ (run_switchuvm c s1 k1 p x Hok1 Hk1 Hx Hks Hpd)). set (k2 := set_vm _ _ _). set (s2 := set_mach _ s1).
  assert (Hk2 : cpu_at s2 c k2) by (by eapply cpu_at_set).
  set (s3 := set_procs (zinsert p (set_pstate RUNNING x) (procs s2)) s2).
  rewrite (run_bind _ _ _ tt s3). 2: { unfold upd_proc. by rewrite (run_bind _ _ _ _ _ (run_get_proc' s2 p x Hx)). }
  exists (set_mach (set_cpu c (set_pos (S_enter p) k2) (mach s3)) s3), (set_pos (S_enter p) k2). split; [by apply run_upd_cpu'|].
  split; [by apply (cpu_at_set s3 c k2)|]. done.
Qed.

(** ** Growth *)

Lemma rinv_fl c p (s : state) f : rinv c p s -> rinv c p (set_fl f s).
Proof. intros Hr. eapply rinv_keeps; [exact Hr|done|done| |apply Hr]. intros i y Hy. exists y. split; [done|apply keeps_refl]. Qed.

Lemma psz_mild P p x z : mild P p x (set_psz z x).
Proof. split; try done; [by left|by intros [L1 L2 L3 L4 L5 L6]; split|by left]. Qed.

(** A process that loads its own address space again. *)
Lemma hwp_reload (E : Prop) c p (s : state) Q : rinv c p s -> (forall m', rinv c p (set_mach m' s) -> Q tt (set_mach m' s)) ->
  hwp E (switchuvm lapicid c p) Q s.
Proof.
  intros Hr HQ. destruct Hr as [[HM HT] (k & Hk & Hp)]. pose proof (mi_cpu _ _ _ _ HM c k Hk) as Hc. unfold cpu_ok in Hc. rewrite Hp in Hc.
  destruct Hc as (H1 & H2 & x & Hx & Hrun & L1 & L2). destruct (lo_mem _ _ (t_loc _ _ _ HT p x Hx)) as [Hks Hpd]; [by right; right|].
  eapply hwp_switchuvm; [apply HM|exact Hk|exact Hx|done|done|]. destruct (touch_fields k) as (E1 & E2 & E3 & E4 & E5 & E6 & E7).
  assert (Ek : set_vm (V2P (pgdir x)) (u32 (kstack x + KSTACKSIZE)) (touch k) = touch k).
  { rewrite <- L1, <- L2, <- E6, <- E7. by destruct (touch k). }
  rewrite Ek. apply HQ. split; [split; [by apply minv_touch|done]|]. exists (touch k). split; [by eapply cpu_at_set|congruence].
Qed.

Lemma growproc_ok (E : Prop) c p n (s : state) : E -> rinv c p s -> hwp E (growproc lapicid c n) (fun _ s' => rinv c p s') s.
Proof.
  intros HE Hr. unfold growproc. apply hwp_bind. eapply hwp_cur; [exact Hr|]. intros m1 Hr1 _. set (s1 := set_mach m1 s) in *.
  destruct (rinv_proc _ _ _ _ Hr1) as (x & Hx & Hrun). apply hwp_bind. eapply hwp_get_proc; [exact Hx|].
  apply hwp_bind, (hwp_mono _ _ (fun _ s' => exists f, s' = set_fl f s1)).
  { destruct (0 <? n); [|destruct (n <? 0)].
    1,2: apply hwp_bind, hwp_onpages; [done|]; intros z f; apply hwp_ret; by exists f.
    apply hwp_ret. exists (fl s1). by destruct s1. }
  intros r s' [f ->]. destruct r as [z|]; [|by apply hwp_ret, rinv_fl]. apply hwp_bind. eapply hwp_upd_proc; [exact Hx|].
  set (s2 := set_procs _ _). assert (Hr2 : rinv c p s2).
  { eapply rinv_keeps; [apply (rinv_fl c p s1 f Hr1)|done|apply length_zinsert|apply keeps_insert with (y := x); [exact Hx|by split]|].
    eapply tinv_upd; [apply Hr1|exact Hx|apply psz_mild]. }
  apply hwp_bind. eapply hwp_reload; [exact Hr2|]. intros m' Hr'. by apply hwp_ret.
Qed.

End Sched.

End ProcSched.
