(* ===== verification/ProcLife.v ===== *)
(** * The first process, and the end of a process

    [userinit] establishes the invariant, and [exit] keeps it. *)

From Stdlib Require Import ZArith Lia.
From stdpp Require Import base numbers strings list gmap.
From S2P Require Import Prelude Mmu Mem Kalloc File Spin Proc ProcInv ProcStep ProcOps ProcFork ProcSched.

Open Scope Z_scope.

Import Mmu Mem Kalloc Spin Proc ProcInv ProcStep ProcOps ProcFork ProcSched.

Module ProcLife.

Section Life.

Context {A : Type} `{!PageAlloc A} (lapicid : Z -> Z).

Local Abbreviation state := (Proc.state A).
Local Abbreviation inv := (inv lapicid).
Local Abbreviation minv := (minv lapicid).
Local Abbreviation rinv := (rinv lapicid).

(** ** Exit *)

Lemma close_files_spec (E : Prop) ds (s : state) p x n : E -> pr s p x -> forall i y f Q,
  (forall o f', Q tt (with_new s p (set_ofile o y) f')) -> hwp E (close_files ds n p i) Q (with_new s p y f).
Proof.
  intros HE Hx. induction n as [|n IH]; intros i y f Q HQ.
  { apply hwp_ret. assert (Ey : y = set_ofile (ofile y) y) by (by destruct y). rewrite Ey. apply HQ. }
  cbn [close_files]. apply hwp_bind. eapply hwp_new_get; [exact Hx|]. apply hwp_bind.
  destruct (zlookup (ofile y) i) as [[g|]|]; [|apply hwp_ret, IH, HQ|exact HE].
  apply hwp_bind, hwp_new_files; [done|]. intros _ f2. eapply hwp_new_upd; [exact Hx|]. apply IH. intros o f3. apply HQ.
Qed.

Lemma closed_mild P p x o : mild P p x (set_cwd None (set_ofile o x)).
Proof. split; try done; [by left|by intros [L1 L2 L3 L4 L5 L6]; split|by left]. Qed.

Lemma exit_ok (E : Prop) ds c p (s : state) x : E -> rinv c p s -> pr s p x -> newp x = None ->
  hwp E (exit lapicid c ds) (fun _ s' => inv s') s.
Proof.
  intros HE Hr Hx Hnew. unfold exit, exit_files. apply hwp_bind, hwp_bind. eapply hwp_cur; [exact Hr|]. intros m1 Hr1 _.
  set (s1 := set_mach m1 s) in *. assert (Hx1 : pr s1 p x) by done. apply hwp_bind, hwp_get. destruct (decide (Some p = initproc s1)) as [|Hini]; [exact HE|].
  apply hwp_bind. rewrite (with_new_same s1 p x Hx1) at 1. eapply close_files_spec; [done|exact Hx1|]. intros o f1.
  apply hwp_bind. eapply hwp_new_get; [exact Hx1|]. apply hwp_bind, hwp_new_files; [done|]. intros _ f2. apply hwp_bind.
  destruct (cwd _) as [w|]; [|exact HE]. apply hwp_new_files; [done|]. intros _ f3. apply hwp_bind, hwp_new_files; [done|]. intros _ f4.
  eapply hwp_new_upd; [exact Hx1|]. set (s2 := with_new s1 p _ f4). eapply (exit_zombie_ok lapicid E c p s2); [|by right|done|].
  - eapply (rinv_table lapicid c p s1); [exact Hr1|done|done|apply length_zinsert|apply keeps_insert with (y := x); [exact Hx1|by split]|].
    eapply tinv_upd; [apply Hr1|exact Hx1|apply closed_mild].
  - intros y Hy. pose proof (with_new_pr s1 p x (set_cwd None (set_ofile o x)) f4 Hx1) as Hy'. unfold pr in Hy, Hy'. unfold s2 in Hy.
    rewrite Hy' in Hy. by injection Hy as <-.
Qed.

(** ** The first process *)

(** No processor has started its scheduler's loop. *)
Record idle_mach (m : Spin.mach) : Prop := {
  im_ok : mach_ok lapicid m;
  im_lock : exists l, locks m !! PTABLE = Some l;
  im_cpu : forall c k, zlookup (cpus m) c = Some k -> pos k = S_top /\ cproc k = None /\ held m c = ∅
}.

(** The state in which [userinit] runs. *)
Record blank (s : state) : Prop := {
  bl_mach : idle_mach (mach s);
  bl_len : length (procs s) = Z.to_nat NPROC;
  bl_procs : forall i x, pr s i x -> pstate x = UNUSED /\ parent x = None /\ newp x = None;
  bl_pid : nextpid s = 1
}.

Lemma idle_minv m P : idle_mach m -> (forall i x, zlookup P i = Some x -> pstate x <> RUNNING) -> minv None m P.
Proof.
  intros [M1 M2 M3] HP. split; [done|done|..].
  - intros c k Hk. destruct (M3 c k Hk) as (E1 & E2 & E3). unfold cpu_ok. by rewrite E1.
  - intros c c' k k' i Hk _ Ho. destruct (M3 c k Hk) as (E1 & _). unfold on in Ho. by rewrite E1 in Ho.
  - intros i x Hx Hr. by destruct (HP i x Hx).
Qed.

(** Processor [c] holds the lock of the table. *)
Definition locked_mach (c : Z) (m' : Spin.mach) : Prop :=
  exists m k l, idle_mach m /\ zlookup (cpus m) c = Some k /\ locks m !! PTABLE = Some l /\ lcpu l = None /\ m' = acquired c PTABLE k m.

Lemma hwp_idle_acquire E c (s : state) k Q : idle_mach (mach s) -> cpu_at s c k ->
  (forall m', locked_mach c m' -> Q tt (set_mach m' s)) -> hwp E (acquire lapicid c PTABLE) Q s.
Proof.
  intros Hi Hk HQ. destruct (im_lock _ Hi) as [l El]. destruct (im_cpu _ Hi c k Hk) as (_ & _ & Hh).
  eapply (hwp_acquire lapicid E c s k (im_ok _ Hi) Hk PTABLE l); [done|rewrite Hh; apply not_elem_of_empty|].
  intros Hn. apply HQ. by exists (mach s), k, l.
Qed.

Lemma hwp_idle_release E c (s : state) Q : locked_mach c (mach s) ->
  (forall m', idle_mach m' -> (exists k, zlookup (cpus m') c = Some k) -> Q tt (set_mach m' s)) -> hwp E (release lapicid c PTABLE) Q s.
Proof.
  intros (m & k & l & Hi & Hk & El & Hn & Em) HQ. pose proof (im_ok _ Hi) as Hok.
  assert (Hok1 : mach_ok lapicid (mach s)).
  { rewrite Em. eapply mach_ok_acquired; [exact Hok|exact Hk|exact El|]. by rewrite (free_lock lapicid m l Hok El Hn). }
  assert (Hk1 : cpu_at s c (pushed k)) by (unfold cpu_at; rewrite Em; apply zlookup_zinsert_eq; by eapply zlookup_lt).
  assert (Hh1 : forall d, held (mach s) d = if decide (d = c) then held m d ∪ {[PTABLE]} else held m d).
  { intros d. rewrite Em. by apply (held_acquired c PTABLE k m l). }
  assert (Hin : PTABLE ∈ held (mach s) c) by (rewrite Hh1, decide_True by done; apply elem_of_union_r; by apply elem_of_singleton_2).
  eapply (hwp_release lapicid E c s (pushed k) Hok1 Hk1 PTABLE); [done|].
  apply HQ; [|exists (popped (pushed k)); apply zlookup_zinsert_eq; by eapply zlookup_lt]. split.
  - by eapply mach_ok_released.
  - cbn. rewrite lookup_insert_eq. eauto.
  - intros d kd Hd. rewrite held_released by done. rewrite Hh1.
    unfold released in Hd. cbn [cpus set_cpu set_lock] in Hd. rewrite (lookup_set c (pushed k)) in Hd by exact Hk1.
    destruct (decide (d = c)) as [->|Hne].
    + injection Hd as <-. destruct (im_cpu _ Hi c k Hk) as (E1 & E2 & E3). cbn. rewrite E1, E2, E3. split; [done|]. split; [done|].
      apply set_eq. intros x. rewrite elem_of_difference, elem_of_union, elem_of_singleton. split; [intros [[?|?] ?]; [done|congruence]|]. intros Hx. by apply elem_of_empty in Hx.
    + apply (im_cpu _ Hi d kd). rewrite Em in Hd. cbn in Hd. by rewrite zlookup_zinsert_ne in Hd.
Qed.

(** A table with one process. *)
Lemma first_tinv P n y : length P = Z.to_nat NPROC ->
  (forall i x, zlookup P i = Some x -> i <> n -> pstate x = UNUSED /\ parent x = None /\ newp x = None) ->
  zlookup P n = Some y -> pstate y = RUNNABLE -> kstack y <> 0 -> pgdir y <> 0 -> parent y = None -> newp y = None -> context y = K_forkret ->
  ppid y = 1 -> tinv P (Some n) 2.
Proof.
  intros Hlen HP Hy Hrun Hks Hpd Hpar Hnew Hctx Hpid.
  assert (Hcase : forall i x, zlookup P i = Some x -> (i = n /\ x = y) \/ (i <> n /\ pstate x = UNUSED /\ parent x = None /\ newp x = None)).
  { intros i x Hx. destruct (decide (i = n)) as [->|Hi]; [left; split; congruence|]. right. split; [done|by apply (HP i)]. }
  assert (Hp : forall i x, zlookup P i = Some x -> parent x = None /\ newp x = None).
  { intros i x [[-> ->]|(_ & _ & H)]%Hcase; done. }
  split; [done|..].
  - intros i x [[-> ->]|(_ & H1 & H2 & H3)]%Hcase; split; try congruence; unfold alive, in_wait, ctx_ok; rewrite ?Hrun, ?H1, ?Hctx; try done;
      try (by intros [?|[?|?]]); try (by intros [?|?]); by intros [? _].
  - exists n, y. split; [done|]. split; [done|]. split; [by right; left|done].
  - intros i x j Hx Hj. destruct (Hp i x Hx). congruence.
  - intros i x [[-> ->]|(_ & H1 & _)]%Hcase Ha Hne; [done|]. unfold alive in Ha. rewrite H1 in Ha. by destruct Ha as [[?|[?|?]]|?].
  - intros i x j z Hx Hw Hz Hj. destruct (Hp j z Hz). congruence.
  - intros i x m d Hx Hm. destruct (Hp i x Hx). congruence.
  - intros i x j z m d d' Hx Hz Hm. destruct (Hp i x Hx). congruence.
  - intros i x [[-> ->]|(_ & H1 & _)]%Hcase Hne; [rewrite Hpid; lia|done].
  - intros i x j z [[-> ->]|(_ & H1 & _)]%Hcase [[-> ->]|(_ & H2 & _)]%Hcase; done.
Qed.

Lemma userinit_ok (E : Prop) c ds kdata start size trapret forkret (s : state) k : E -> blank s -> cpu_at s c k ->
  hwp E (userinit lapicid c ds kdata start size trapret forkret) (fun _ s' => inv s') s.
Proof.
  intros HE [Hm Hlen HP Hpid] Hk. unfold userinit, allocproc, allocproc_pick. apply hwp_bind, hwp_bind, hwp_bind.
  eapply hwp_idle_acquire; [exact Hm|exact Hk|]. intros m1 Hm1. apply hwp_bind, hwp_get.
  destruct (find_unused _ 0) as [n|] eqn:Ef.
  2: { apply hwp_bind. eapply hwp_idle_release; [exact Hm1|]. intros m2 _ _. apply hwp_ret, hwp_ret, hwp_bind, hwp_modify. exact HE. }
  apply find_unused_spec in Ef as (y & Hy & _ & Hu). rewrite Z.sub_0_r in Hy. destruct (HP n y Hy) as (_ & Hpar & Hnew).
  apply hwp_bind. eapply hwp_upd_proc; [exact Hy|]. apply hwp_bind. unfold alloc_pid. apply hwp_bind, hwp_get. cbn [nextpid set_procs set_mach].
  rewrite Hpid. change (1 =? 2 ^ 31 - 1) with false. cbv iota. apply hwp_bind. eapply hwp_Ok; [done|]. apply hwp_ret.
  apply hwp_bind. eapply hwp_upd_proc; [apply zlookup_zinsert_eq; by eapply zlookup_lt|].
  cbn [procs set_nextpid set_procs set_mach]. rewrite zinsert_twice. set (y1 := set_ppid 1 (set_pstate EMBRYO y)).
  apply hwp_bind. eapply hwp_idle_release; [exact Hm1|]. intros m2 Hm2 [k2 Hk2]. apply hwp_ret.
  set (s2 := set_mach m2 (set_nextpid 2 s)).
  match goal with |- hwp _ _ _ ?st => change st with (with_new s2 n y1 (fl s2)) end.
  assert (Hy2 : pr s2 n y) by exact Hy. apply hwp_bind.
  eapply (stack_spec E trapret forkret (with_new s2 n y1 (fl s2)) n y1); [done|by eapply with_new_pr| |].
  2: { intros y' f' _ _ _ _. apply hwp_ret, hwp_bind, hwp_modify. exact HE. }
  intros y2 f2 A1 A2 A3 _ A5 A6. rewrite with_new_twice. apply hwp_ret, hwp_bind, hwp_modify.
  set (s3 := set_initproc (Some n) s2). assert (Hy3 : pr s3 n y) by exact Hy.
  change (set_initproc (Some n) (with_new s2 n y2 f2)) with (with_new s3 n y2 f2).
  apply hwp_bind, hwp_new_pages; [done|]. intros d f3. apply hwp_bind. eapply hwp_new_upd; [exact Hy3|].
  destruct (Z.eqb_spec d 0) as [|Hd]; [exact HE|]. apply hwp_bind, hwp_new_pages; [done|]. intros _ f4.
  do 3 (apply hwp_bind; eapply hwp_new_upd; [exact Hy3|]). apply hwp_bind. eapply hwp_new_get; [exact Hy3|].
  apply hwp_bind, hwp_new_files; [done|]. intros w f5. apply hwp_bind. eapply hwp_new_upd; [exact Hy3|].
  match goal with |- hwp _ _ _ (with_new _ _ ?v _) => set (y4 := v) end.
  apply hwp_bind. eapply (hwp_idle_acquire E c (with_new s3 n y4 f5) k2); [exact Hm2|exact Hk2|]. intros m5 Hm5.
  apply hwp_bind. eapply hwp_upd_proc; [by eapply (with_new_pr s3)|]. eapply hwp_idle_release; [exact Hm5|]. intros m6 Hm6 _.
  set (y5 := set_pstate RUNNABLE y4). cbn [procs set_mach with_new set_procs]. rewrite zinsert_twice.
  assert (HP' : forall i x, zlookup (zinsert n y5 (procs s)) i = Some x -> i <> n -> pstate x = UNUSED /\ parent x = None /\ newp x = None).
  { intros i x [[-> _]|[_ Hx]]%insert_cases Hi; [done|by apply (HP i)]. }
  assert (Hy5 : zlookup (zinsert n y5 (procs s)) n = Some y5) by (apply zlookup_zinsert_eq; by eapply zlookup_lt).
  split; cbn [mach procs initproc nextpid set_mach set_procs with_new set_fl s3 set_initproc s2 set_nextpid].
  - apply idle_minv; [done|]. intros i x Hx. destruct (decide (i = n)) as [->|Hi]; [|by destruct (HP' i x Hx Hi) as [-> _]]. simplify_eq. done.
  - eapply (first_tinv _ n y5); [by rewrite length_zinsert|exact HP'|exact Hy5|done|exact A5|exact Hd|exact (eq_trans A2 Hpar)|exact (eq_trans A3 Hnew)|exact A6|exact A1].
Qed.

End Life.

End ProcLife.
