(* ===== verification/ProcThm.v ===== *)
(** * What processes and their scheduler promise

    The processors run the scheduler's loop and the operations of processes in
    any order, one critical section of [ptable.lock] at a time.  The theorems
    are about every state that such a run reaches. *)

From Stdlib Require Import ZArith Lia.
From stdpp Require Import base numbers strings list gmap.
From S2P Require Import Prelude Mmu Mem Kalloc LogTx FsImage File FileThm Spin Proc ProcInv ProcStep ProcOps ProcFork ProcSched ProcLife.

Open Scope Z_scope.

Import Mmu Mem Kalloc Spin Proc ProcInv ProcStep ProcOps ProcFork ProcSched ProcLife.

Module ProcThm.

(** What a process does in the kernel. *)
Inductive op :=
  | O_yield
  | O_sleep (ch : channel) (lk : Z)
  | O_wakeup (ch : channel)
  | O_kill (pid : Z)
  | O_wait
  | O_exit
  | O_fork
  | O_fork_begin
  | O_fork_middle
  | O_fork_end
  | O_growproc (n : Z)
  | O_acquire (lk : Z)
  | O_release (lk : Z).

Section Thm.

Context {A : Type} `{!PageAlloc A} (lapicid : Z -> Z) (ds kdata kpgdir start size trapret forkret : Z).

Local Abbreviation state := (Proc.state A).
Local Abbreviation inv := (inv lapicid).
Local Abbreviation rinv := (rinv lapicid).

Definition run_op (c : Z) (o : op) : ST state unit :=
  match o with
  | O_yield => _ ← yield lapicid c; mret tt
  | O_sleep ch lk => _ ← sleep lapicid c ch lk A_ret; mret tt
  | O_wakeup ch => wakeup lapicid c ch
  | O_kill pid => _ ← kill lapicid c pid; mret tt
  | O_wait => _ ← wait lapicid c; mret tt
  | O_exit => _ ← exit lapicid c ds; mret tt
  | O_fork => _ ← fork lapicid c kdata trapret forkret; mret tt
  | O_fork_begin => fork_begin lapicid c
  | O_fork_middle => fork_middle lapicid kdata trapret forkret c
  | O_fork_end => fork_end lapicid c
  | O_growproc n => _ ← growproc lapicid c n; mret tt
  | O_acquire lk => acquire lapicid c lk
  | O_release lk => release lapicid c lk
  end.

(** What the callers see to: only [wait] passes [ptable.lock] to [sleep], the
    locks exist, and a process does not call [exit] in the middle of [fork]. *)
Definition allowed (s : state) (p : Z) (o : op) : Prop :=
  match o with
  | O_sleep _ lk => lk <> PTABLE /\ (lk = 0 \/ exists l, locks (mach s) !! lk = Some l)
  | O_acquire lk | O_release lk => lk <> PTABLE /\ exists l, locks (mach s) !! lk = Some l
  | O_exit => forall x, pr s p x -> newp x = None
  | _ => True
  end.

(** A step of the system. *)
Inductive step : state -> state -> Prop :=
  | step_op c p o (s s' : state) : (exists k, cpu_at s c k /\ pos k = S_run p) -> allowed s p o ->
      run_op c o s = Ok (tt, s') -> step s s'
  | step_scheduler c k (s s' : state) : cpu_at s c k -> scheduler lapicid c kpgdir ds s = Ok (tt, s') -> step s s'
  | step_interrupt c k ch (s s' : state) : cpu_at s c k -> pos k = S_top -> wakeup lapicid c ch s = Ok (tt, s') -> step s s'
  | step_files f (s : state) : step s (set_fl f s).

(** ** Interrupts of an idle processor *)

Lemma idle_wakeup_ok E c k ch (s : state) : inv s -> cpu_at s c k -> pos k = S_top ->
  hwp E (wakeup lapicid c ch) (fun _ s' => inv s') s.
Proof.
  intros [HM HT] Hk Hp. pose proof (mi_ok _ _ _ _ HM) as Hok. pose proof (mi_cpu _ _ _ _ HM c k Hk) as Hc.
  unfold cpu_ok in Hc. rewrite Hp in Hc. destruct Hc as [H1 H2]. destruct (mi_lock _ _ _ _ HM) as [l El].
  unfold wakeup. apply hwp_bind. eapply (hwp_acquire lapicid E c s k Hok Hk PTABLE l); [done|rewrite H2; apply not_elem_of_empty|].
  intros Hn. set (m1 := acquired c PTABLE k (mach s)).
  assert (Hok1 : mach_ok lapicid m1) by (eapply mach_ok_acquired; [done|done|done|]; by rewrite (free_lock lapicid _ l Hok El Hn)).
  assert (Hh1 : forall d, held m1 d = if decide (d = c) then held (mach s) d ∪ {[PTABLE]} else held (mach s) d) by (intros d; by apply (held_acquired c PTABLE k (mach s) l)).
  assert (Hin : PTABLE ∈ held m1 c) by (rewrite Hh1, decide_True by done; apply elem_of_union_r; by apply elem_of_singleton_2).
  apply hwp_bind. unfold wakeup1. apply hwp_modify. set (s2 := set_procs _ _).
  assert (Hk2 : cpu_at s2 c (pushed k)) by (apply zlookup_zinsert_eq; by eapply zlookup_lt).
  eapply (hwp_release lapicid E c s2 (pushed k) Hok1 Hk2 PTABLE); [done|].
  assert (HW : forall i x, zlookup (procs s) i = Some x -> exists x', zlookup (map (wake ch) (procs s)) i = Some x' /\ keeps x x' /\ mild (procs s) i x x').
  { intros i x Hx. exists (wake ch x). rewrite zlookup_map, Hx. split; [done|].
    destruct (wake_cases ch x) as [->|[Hs ->]]; split; [apply keeps_refl|apply mild_refl|by apply woken_keeps|by apply woken_mild]. }
  split; cbn [mach set_mach procs initproc nextpid s2 set_procs].
  - eapply (minv_build lapicid None None (mach s) _ (procs s) _ c k (popped (pushed k))); [exact HM|done|exact Hk|by eapply mach_ok_released| | | |apply length_map| | | |].
    + cbn. rewrite lookup_insert_eq. eauto.
    + cbn. by rewrite zinsert_twice.
    + intros d Hd. change (mach s2) with m1. rewrite held_released, decide_False, Hh1, decide_False by done. done.
    + intros i x Hx _ _. destruct (HW i x Hx) as (x' & ? & ? & _). eauto.
    + intros i. unfold on. cbn. by rewrite Hp.
    + intros i x. unfold on. cbn. by rewrite Hp.
    + unfold cpu_ok. cbn [pos popped pushed]. rewrite Hp. split; [done|]. change (mach s2) with m1.
      rewrite held_released, decide_True, Hh1, decide_True, H2 by done. set_solver.
  - eapply tinv_mild; [exact HT|apply length_map|]. intros i x Hx. destruct (HW i x Hx) as (x' & ? & _ & ?). eauto.
Qed.

(** ** Steps keep the invariant *)

Lemma hwp_drop {B} E (m : ST state B) (Q : state -> Prop) s : hwp E m (fun _ s' => Q s') s -> hwp E (_ ← m; mret tt) (fun _ s' => Q s') s.
Proof. intros H. apply hwp_bind. exact H. Qed.

Lemma op_ok c p o (s : state) : rinv c p s -> allowed s p o -> hwp True (run_op c o) (fun _ s' => inv s') s.
Proof.
  intros Hr Ha. assert (HR : forall B (m : ST state B), hwp True m (fun _ s' => rinv c p s') s -> hwp True m (fun _ s' => inv s') s).
  { intros B m H. eapply hwp_mono; [exact H|]. intros b s' Hr'. apply Hr'. }
  destruct o; cbn [run_op]; try apply hwp_drop.
  - eapply yield_ok; [exact Hr|by right].
  - destruct Ha as [H1 H2]. eapply sleep_ok; [exact Hr|done|done|by right].
  - by apply HR, wakeup_ok.
  - by apply HR, kill_ok.
  - eapply hwp_mono; [eapply wait_ok; [exact Hr|by right|by right]|]. by intros r s' [? _].
  - destruct (rinv_proc _ _ _ _ Hr) as (x & Hx & _). eapply exit_ok; [done|exact Hr|exact Hx|by apply Ha].
  - by apply HR, fork_ok.
  - by apply HR, fork_begin_ok.
  - by apply HR, fork_middle_ok.
  - by apply HR, fork_end_ok.
  - by apply HR, growproc_ok.
  - destruct Ha as [H1 [l H2]]. eapply hwp_lock_acquire; [exact Hr|done|done|by right|]. intros m' Hr'. apply Hr'.
  - destruct Ha as [H1 [l H2]]. eapply hwp_lock_release; [exact Hr|done|done|by right|]. intros m' Hr'. apply Hr'.
Qed.

Lemma step_inv (s s' : state) : inv s -> step s s' -> inv s'.
Proof.
  intros Hi Hs. revert Hi. destruct Hs as [c p o s1 s2 Hrun Ha R|c k s1 s2 Hk R|c k ch s1 s2 Hk Hp R|f s1]; intros Hi.
  - apply (hwp_run True (run_op c o) (fun _ s' => inv s') s1 tt s2); [|exact R]. apply (op_ok c p); [by split|done].
  - apply (hwp_run True (scheduler lapicid c kpgdir ds) (fun _ s' => inv s') s1 tt s2); [|exact R]. by eapply scheduler_ok.
  - apply (hwp_run True (wakeup lapicid c ch) (fun _ s' => inv s') s1 tt s2); [|exact R]. by eapply idle_wakeup_ok.
  - by destruct Hi.
Qed.

Lemma steps_inv (s s' : state) : inv s -> rtc step s s' -> inv s'.
Proof. intros Hi. induction 1; [done|]. eauto using step_inv. Qed.

(** The states in which the processors enter their schedulers. *)
Definition started (s : state) : Prop :=
  inv s \/ exists b c k, blank lapicid b /\ cpu_at b c k /\ userinit lapicid c ds kdata start size trapret forkret b = Ok (tt, s).

Lemma started_inv (s s' : state) : started s -> rtc step s s' -> inv s'.
Proof.
  intros [Hi|(b & c & k & Hb & Hk & R)]; apply steps_inv; [done|].
  by eapply (hwp_run True _ (fun _ s => inv s)), R; eapply userinit_ok.
Qed.

(** C7: whatever the processors and processes do, in any order, and
    whatever happens to files and memory meanwhile: a processor that runs a
    process has it as its current process, the process is RUNNING, and its page
    directory and its kernel stack are the ones loaded; no process runs on two
    processors; every RUNNING process is the current process of a processor;
    [ncli] is the number of locks a processor holds, and with a lock held its
    interrupts are off. *)
Theorem scheduling_safe (s0 s : state) : started s0 -> rtc step s0 s ->
  (forall c k p, cpu_at s c k -> pos k = S_run p -> cproc k = Some p /\ exists x, pr s p x /\ pstate x = RUNNING /\
     kstack x <> 0 /\ pgdir x <> 0 /\ cr3 k = V2P (pgdir x) /\ esp0 k = u32 (kstack x + KSTACKSIZE)) /\
  (forall c c' k k' p, cpu_at s c k -> cpu_at s c' k' -> pos k = S_run p -> pos k' = S_run p -> c = c') /\
  (forall p x, pr s p x -> pstate x = RUNNING -> exists c k, cpu_at s c k /\ cproc k = Some p) /\
  (forall c k, cpu_at s c k -> ncli k = Z.of_nat (base.size (held (mach s) c)) /\ (0 < ncli k -> c_if k = false)).
Proof.
  intros H0 Hs. destruct (started_inv _ _ H0 Hs) as [[M1 M2 M3 M4 M5] HT]. split; [|split; [|split]].
  - intros c k p Hk Hp. pose proof (M3 c k Hk) as Hc. unfold cpu_ok in Hc. rewrite Hp in Hc.
    destruct Hc as (E1 & _ & x & Hx & Hr & L1 & L2). split; [done|]. exists x.
    destruct (lo_mem _ _ (t_loc _ _ _ HT p x Hx)); [by right; right|]. done.
  - intros c c' k k' p Hk Hk' Hp Hp'. eapply (M4 c c' k k' p); [done|done|unfold on..]; by rewrite ?Hp, ?Hp'.
  - intros p x Hx Hr. destruct (M5 p x Hx Hr) as (c & k & Hk & Ho). exists c, k. split; [done|].
    pose proof (M3 c k Hk) as Hc. unfold cpu_ok, on in *. destruct (pos k); try done; injection Ho as ->; apply Hc.
  - intros c k Hk. split; [by apply (mo_ncli _ _ M1)|by apply (mo_if _ _ M1 c)].
Qed.

(** C13: a process that sleeps in [wait] has no child that has exited, so
    no exit is missed whatever the interleaving; every process but init has a
    parent that is alive, exited processes included, so each of them can be
    reaped; init itself stays alive; and no two processes share a pid. *)
Theorem wait_misses_no_child (s0 s : state) : started s0 -> rtc step s0 s ->
  (forall i x lk e, pr s i x -> pstate x = SLEEPING -> context x = K_sleep lk A_wait e ->
     forall j y, pr s j y -> parent y = Some i -> pstate y <> ZOMBIE) /\
  (forall i x, pr s i x -> alive x \/ pstate x = ZOMBIE -> Some i <> initproc s ->
     exists j y, parent x = Some j /\ j <> i /\ pr s j y /\ alive y) /\
  (exists i x, initproc s = Some i /\ pr s i x /\ alive x) /\
  (forall i x j y, pr s i x -> pr s j y -> pstate x <> UNUSED -> pstate y <> UNUSED -> ppid x = ppid y -> i = j).
Proof.
  intros H0 Hs. destruct (started_inv _ _ H0 Hs) as [_ HT]. split; [|split; [|split]].
  - intros i x lk e Hx Hsl Hc j y Hy. apply (t_wait _ _ _ HT i x j y Hx); [|exact Hy]. split; [done|]. eauto.
  - intros i x Hx Ha Hi. destruct (t_child _ _ _ HT i x Hx Ha Hi) as [j Hj]. destruct (t_parent _ _ _ HT i x j Hx Hj) as (y & Hy & Hal).
    exists j, y. split; [done|]. split; [|done]. intros ->. by apply (lo_self _ _ (t_loc _ _ _ HT i x Hx)).
  - destruct (t_init _ _ _ HT) as (i & x & E & Hx & Ha & _). eauto.
  - intros i x j y Hx Hy. by apply (t_piduniq _ _ _ HT).
Qed.

(** The code completes, or waits for a lock. *)
Definition safe {B} (m : ST state B) (s : state) : Prop := (exists b s', m s = Ok (b, s')) \/ m s = Blocked.

Lemma hwp_safe {B} (m : ST state B) Q s : hwp False m Q s -> safe m s.
Proof. unfold hwp, safe. destruct (m s) as [[b s']| | | |]; naive_solver. Qed.

(** C20: in every state that a run reaches, none of the checks of the
    scheduler fires: [sched], [switchuvm], [mycpu], [acquire], [release] and
    [popcli] do not panic in the scheduler's own code, in [wakeup] and [kill],
    in [yield] of a process that holds no lock, nor in [sleep] of a process
    that holds just the lock it passes. *)
Theorem scheduler_no_panic (s0 s : state) c k : started s0 -> rtc step s0 s -> cpu_at s c k ->
  match pos k with
  | S_run p =>
      (forall ch, safe (wakeup lapicid c ch) s) /\ (forall pid, safe (kill lapicid c pid) s) /\
      (held (mach s) c = ∅ -> safe (yield lapicid c) s) /\
      (forall ch lk, lk <> PTABLE -> lk <> 0 -> held (mach s) c = {[lk]} -> safe (sleep lapicid c ch lk A_ret) s)
  | S_enter p => forall x e, pr s p x -> context x = K_yield e -> safe (scheduler lapicid c kpgdir ds) s
  | _ => safe (scheduler lapicid c kpgdir ds) s
  end.
Proof.
  intros H0 Hs Hk. pose proof (started_inv _ _ H0 Hs) as Hi. destruct (pos k) as [|p|p|p|p] eqn:Hp.
  - by eapply hwp_safe, top_ok.
  - by eapply hwp_safe, scan_ok.
  - intros x e Hx Hc. eapply hwp_safe, enter_ok; [done|done|done|exact Hx|]. left. by rewrite Hc.
  - assert (Hr : rinv c p s) by (split; eauto). split; [|split; [|split]].
    + intros ch. by eapply hwp_safe, wakeup_ok.
    + intros pid. by eapply hwp_safe, kill_ok.
    + intros Hh. eapply hwp_safe, yield_ok; [exact Hr|by left].
    + intros ch lk H1 H2 Hh. eapply hwp_safe, sleep_ok; [exact Hr|done| |left; by rewrite (proj2 (Z.eqb_neq _ _))].
      right. assert (Hin : lk ∈ held (mach s) c) by (rewrite Hh; by apply elem_of_singleton_2). apply elem_of_held in Hin as (l & El & _). eauto.
  - by eapply hwp_safe, back_ok.
Qed.

Fixpoint passes (n : nat) (c : Z) : ST state unit :=
  match n with
  | O => mret tt
  | S n' => scheduler lapicid c kpgdir ds;; passes n' c
  end.

Lemma scheduler_cpu c (s s' : state) : scheduler lapicid c kpgdir ds s = Ok (tt, s') -> exists k, cpu_at s c k.
Proof.
  intros R. unfold scheduler in R. unbind R as k s1 R1. unfold get_cpu, onmach, zoom, Spin.get_cpu, mbind, ST_bind, get in R1.
  unfold cpu_at. destruct (zlookup (cpus (mach s)) c); [eauto|done].
Qed.

Lemma passes_steps n c : forall s s', passes n c s = Ok (tt, s') -> rtc step s s'.
Proof.
  induction n as [|n IH]; intros s s' R; [injection R as <-; constructor|]. cbn [passes] in R. unbind R as [] s1 R1.
  destruct (scheduler_cpu c s s1 R1) as [k Hk]. eapply rtc_l; [by eapply step_scheduler|]. by apply IH.
Qed.

(** A scheduler that scans the table at or before a process that is
    RUNNABLE picks a process, after no more passes than entries up to that
    process: the first RUNNABLE one, which becomes RUNNING. *)
Theorem scheduler_progress (s : state) c k i j x : inv s -> cpu_at s c k -> pos k = S_scan i -> i <= j -> pr s j x -> pstate x = RUNNABLE ->
  exists n s' p k' y, Z.of_nat n <= j - i + 1 /\ passes n c s = Ok (tt, s') /\ i <= p <= j /\ cpu_at s' c k' /\ pos k' = S_enter p /\
    pr s p y /\ pstate y = RUNNABLE /\ (forall q z, i <= q < p -> pr s q z -> pstate z <> RUNNABLE) /\
    procs s' = zinsert p (set_pstate RUNNING y) (procs s).
Proof.
  intros Hi Hk Hp Hij Hx Hr. remember (Z.to_nat (j - i)) as d eqn:Ed. revert s k i Hi Hk Hp Hij Hx Ed.
  induction d as [d IH] using lt_wf_ind. intros s k i Hi Hk Hp Hij Hx Ed.
  assert (Hj : j < NPROC) by (pose proof (zlookup_lt _ _ _ Hx); rewrite (t_len _ _ _ (i_tab _ _ Hi)) in *; unfold NPROC in *; lia).
  assert (Hi0 : 0 <= i) by (pose proof (mi_cpu _ _ _ _ (i_mach _ _ Hi) c k Hk) as Hc; unfold cpu_ok in Hc; rewrite Hp in Hc; lia).
  destruct (zlookup_is_Some (procs s) i) as [y Hy]; [pose proof (zlookup_lt _ _ _ Hx); lia|].
  destruct (decide (pstate y = RUNNABLE)) as [Hyr|Hyr].
  - destruct (run_pick lapicid kpgdir ds c k i y s) as (s' & k' & R & Hk' & Hp' & HP); [done|done|done|lia|done|done|].
    exists 1%nat, s', i, k', y. split; [lia|]. split; [cbn [passes]; by rewrite (run_bind _ _ _ _ _ R)|]. split; [lia|].
    split; [done|]. split; [done|]. split; [done|]. split; [done|]. split; [intros q z ?; lia|done].
  - assert (Hne : i <> j) by (intros ->; unfold pr in Hx; congruence). pose proof (run_skip lapicid kpgdir ds c k i y s Hk Hp ltac:(lia) Hy Hyr) as R.
    set (k1 := set_pos (S_scan (i + 1)) k) in *. set (s1 := set_mach _ s) in *.
    assert (Hi1 : inv s1) by (by eapply (hwp_run True _ (fun _ s => inv s)), R; eapply scan_ok).
    destruct (IH (Z.to_nat (j - (i + 1))) ltac:(lia) s1 k1 (i + 1)) as (n & s' & p & k' & z & Hn & Rn & Hpj & Hk' & Hp' & Hz & Hzr & Hf & HP);
      [done|by eapply cpu_at_set|done|lia|done|done|].
    exists (S n), s', p, k', z. split; [lia|]. split; [cbn [passes]; by rewrite (run_bind _ _ _ _ _ R)|]. split; [lia|].
    split; [done|]. split; [done|]. split; [done|]. split; [done|]. split; [|done]. intros q w Hq Hw. destruct (decide (q = i)) as [->|].
    + unfold pr in *. congruence.
    + apply (Hf q w); [lia|done].
Qed.

Lemma onmach_Ok {B} (m : ST Spin.mach B) (s s' : state) b : onmach m s = Ok (b, s') -> exists m', s' = set_mach m' s.
Proof. unfold onmach, zoom. destruct (m (mach s)) as [[b' m']| | | |]; try done. intros [= _ <-]. eauto. Qed.

Lemma find_unused_states l : forall l' q, map pstate l = map pstate l' -> find_unused l q = find_unused l' q.
Proof.
  induction l as [|x l IH]; intros [|y l'] q; try done. intros [= E1 E2]. cbn. rewrite E1. destruct (decide _); [done|by apply IH].
Qed.

Lemma map_zinsert {B C} (f : B -> C) (l : list B) i x y : zlookup l i = Some y -> f x = f y -> map f (zinsert i x l) = map f l.
Proof.
  unfold zlookup, zinsert. destruct (0 <=? i); [|done]. intros Hy E. rewrite list_fmap_insert, E. apply list_insert_id.
  by rewrite list_lookup_fmap, Hy.
Qed.

Lemma upd_proc_Ok (s s' : state) p x f : pr s p x -> upd_proc p f s = Ok (tt, s') -> s' = set_procs (zinsert p (f x) (procs s)) s.
Proof. intros Hx. unfold upd_proc. rewrite (run_bind _ _ _ _ _ (run_get_proc' s p x Hx)). by intros [= <-]. Qed.

(** [kill] on an unused entry. *)
Lemma kill_unused (s s1 : state) c n x pid r : pr s n x -> pstate x = UNUSED -> find_pid (procs s) pid 0 = Some n ->
  kill lapicid c pid s = Ok (r, s1) -> r = 0 /\ procs s1 = zinsert n (set_pkilled true x) (procs s).
Proof.
  intros Hx Hu Hf Hk. unfold kill in Hk. unbind Hk as ? ? R. apply onmach_Ok in R as [m1 ->]. rewrite run_get in Hk. cbn [procs set_mach] in Hk.
  rewrite Hf in Hk. unbind Hk as [] s2 R. apply (upd_proc_Ok _ _ _ x) in R as ->; [|done].
  rewrite (run_bind _ _ _ _ _ (run_get_proc' _ n (set_pkilled true x) (pr_insert (set_mach m1 s) n x _ Hx))) in Hk. cbn [pstate set_pkilled] in Hk. rewrite Hu in Hk.
  rewrite decide_False in Hk by done. unbind Hk as ? ? R. injection R as <- <-. unbind Hk as ? ? R. apply onmach_Ok in R as [m2 ->].
  by injection Hk as <- <-.
Qed.

(** [kill] looks at the pid of unused entries too, which keep 0 or the
    pid of a process that could not be created; it reports success, and the
    next process that [allocproc] puts in that entry is born killed. *)
Theorem kill_unused_entry (s s1 s2 : state) c n x pid r m : pr s n x -> pstate x = UNUSED -> find_pid (procs s) pid 0 = Some n ->
  find_unused (procs s) 0 = Some n -> kill lapicid c pid s = Ok (r, s1) -> allocproc_pick lapicid c s1 = Ok (Some m, s2) ->
  r = 0 /\ m = n /\ exists y, pr s2 n y /\ pstate y = EMBRYO /\ pkilled y = true.
Proof.
  intros Hx Hu Hf Hfu Hk Ha. destruct (kill_unused s s1 c n x pid r Hx Hu Hf Hk) as [-> HP]. split; [done|].
  assert (Hl : 0 <= n < Z.of_nat (length (procs s))) by (by eapply zlookup_lt).
  assert (Hfu1 : find_unused (procs s1) 0 = Some n) by (rewrite <- Hfu, HP; apply find_unused_states; by eapply map_zinsert).
  assert (Hx1 : pr s1 n (set_pkilled true x)) by (unfold pr; rewrite HP; auto with kern).
  unfold allocproc_pick in Ha. unbind Ha as ? ? R. apply onmach_Ok in R as [m1 ->]. rewrite run_get in Ha. cbn [procs set_mach] in Ha.
  rewrite Hfu1 in Ha. unbind Ha as [] s3 R. apply (upd_proc_Ok _ _ _ (set_pkilled true x)) in R as ->; [|done].
  unbind Ha as pid' s4 R. unfold alloc_pid in R. rewrite run_get in R. destruct (_ =? _) in R; [done|].
  unbind R as ? ? R'. injection R' as <- <-. injection R as <- <-. unbind Ha as [] s5 R.
  apply (upd_proc_Ok _ _ _ (set_pstate EMBRYO (set_pkilled true x))) in R as ->; [|by apply (pr_insert (set_mach m1 s1) n (set_pkilled true x))].
  unbind Ha as ? ? R. apply onmach_Ok in R as [m2 ->]. injection Ha as <- <-. split; [done|]. eexists. split.
  - unfold pr. cbn [procs set_mach set_procs set_nextpid]. rewrite zinsert_twice. apply zlookup_zinsert_eq. by eapply zlookup_lt.
  - done.
Qed.

End Thm.

(** ** Two processors and the first process *)

Definition apic (c : Z) : Z := c.
Definition cpu0 (i : Z) : cpu := mkcpu i 0 false None false S_top 0 0.
Definition free_lock0 : spinlock := mklock 0 None.
Definition mach0 : Spin.mach := mkmach [cpu0 0; cpu0 1] (<[PTABLE := free_lock0]> ∅).
Definition unused0 : proc := mkproc 0 0 0 UNUSED 0 None tf0 0 K_forkret 0 C_none false [] None [] None.
Definition init0 : proc := mkproc PGSIZE (P2V 0x200000) (P2V 0x201000) RUNNABLE 1 None tf0 0 K_forkret 0 C_none false [] (Some 0) [] None.

Definition sys0 (l : Log.Log.state) : Proc.state alloc_state :=
  mkstate (FileThm.opened l) mach0 (init0 :: replicate 63 unused0) 2 (Some 0) false.

#[local] Instance pages0 : PageAlloc alloc_state := kalloc_pages (P2V 0x110000).

Lemma held0 c : held mach0 c = ∅.
Proof.
  apply set_eq. intros lk. rewrite elem_of_held. split; [|intros H; by apply elem_of_empty in H]. intros (l & El & Hl).
  cbn in El. apply lookup_insert_Some in El as [[_ <-]|[_ El]]; [done|]. by rewrite lookup_empty in El.
Qed.

Lemma cpus0 c k : zlookup (cpus mach0) c = Some k -> (c = 0 \/ c = 1) /\ k = cpu0 c.
Proof.
  intros Hk. pose proof (zlookup_lt _ _ _ Hk) as Hl. cbn in Hl. assert (c = 0 \/ c = 1) as [-> | ->] by lia; split; try (by auto); by injection Hk as <-.
Qed.

Lemma idle0 : idle_mach apic mach0.
Proof.
  split; [split; [split|..]|..].
  - by intros i k [_ ->]%cpus0.
  - intros i j _ _ E. exact E.
  - intros lk l El. cbn in El. apply lookup_insert_Some in El as [[_ <-]|[_ El]]; [done|]. by rewrite lookup_empty in El.
  - intros c k [_ ->]%cpus0. by rewrite held0, size_empty.
  - intros c k [_ ->]%cpus0. cbn. lia.
  - exists free_lock0. apply lookup_insert_eq.
  - intros c k [_ ->]%cpus0. by rewrite held0.
Qed.

Lemma procs0 i x : zlookup (init0 :: replicate 63 unused0) i = Some x -> i <> 0 -> x = unused0.
Proof.
  unfold zlookup. destruct (Z.leb_spec 0 i); [|done]. intros Hx Hi. destruct (Z.to_nat i) as [|k] eqn:E; [lia|]. cbn [lookup list_lookup] in Hx.
  by apply lookup_replicate in Hx as [-> _].
Qed.

Lemma sys0_inv l : inv apic (sys0 l).
Proof.
  split.
  - apply idle_minv; [apply idle0|]. intros i x Hx. destruct (decide (i = 0)) as [->|Hi]; [by injection Hx as <-|]. by rewrite (procs0 i x Hx Hi).
  - apply (first_tinv _ 0 init0); try done. intros i x Hx Hi. by rewrite (procs0 i x Hx Hi).
Qed.

(** The state after [n] passes of the scheduler of the first processor. *)
Definition sys (n : nat) (l : Log.Log.state) : Proc.state alloc_state :=
  match passes apic 1000 0 n 0 (sys0 l) with Ok (_, s) => s | _ => sys0 l end.

Lemma sys_runs l : passes apic 1000 0 3 0 (sys0 l) = Ok (tt, sys 3 l).
Proof. vm_compute. reflexivity. Qed.

Lemma scheduling_safe_witness : exists (s : Proc.state alloc_state) k x, cpu_at s 0 k /\ pos k = S_run 0 /\ pr s 0 x /\ pstate x = RUNNING /\
  cr3 k = V2P (pgdir x).
Proof.
  destruct (FsImage.booted_log ∅ 0) as (l & _); [rewrite size_empty; lia|].
  destruct (scheduling_safe apic 1000 0 0 0 0 0 0 (sys0 l) (sys 3 l)) as (H & _); [left; apply sys0_inv|eapply passes_steps, sys_runs|].
  destruct (zlookup (cpus (mach (sys 3 l))) 0) as [k|] eqn:Ek; [|discriminate Ek].
  assert (Hp : pos k = S_run 0) by (by injection Ek as <-). destruct (H 0 k 0 Ek Hp) as (_ & x & Hx & Hr & _ & _ & Hc & _).
  exists (sys 3 l), k, x. exact (conj Ek (conj Hp (conj Hx (conj Hr Hc)))).
Defined.

Lemma wait_misses_no_child_witness : exists (s : Proc.state alloc_state) i x, initproc s = Some i /\ pr s i x /\ alive x.
Proof.
  destruct (FsImage.booted_log ∅ 0) as (l & _); [rewrite size_empty; lia|].
  destruct (wait_misses_no_child apic 1000 0 0 0 0 0 0 (sys0 l) (sys 3 l)) as (_ & _ & (i & x & H) & _); [left; apply sys0_inv|eapply passes_steps, sys_runs|].
  exists (sys 3 l), i, x. exact H.
Defined.

Lemma scheduler_no_panic_witness : exists (s : Proc.state alloc_state), safe (kill apic 0 7) s.
Proof.
  destruct (FsImage.booted_log ∅ 0) as (l & _); [rewrite size_empty; lia|].
  destruct (zlookup (cpus (mach (sys 3 l))) 0) as [k|] eqn:Ek; [|discriminate Ek].
  assert (Hp : pos k = S_run 0) by (by injection Ek as <-).
  pose proof (scheduler_no_panic apic 1000 0 0 0 0 0 0 (sys0 l) (sys 3 l) 0 k (or_introl (sys0_inv l))
    (passes_steps apic 1000 0 0 0 0 3 0 _ _ (sys_runs l)) Ek) as H.
  rewrite Hp in H. exists (sys 3 l). exact (proj1 (proj2 H) 7).
Defined.

Lemma scheduler_progress_witness : exists (s s' : Proc.state alloc_state) n, passes apic 1000 0 n 0 s = Ok (tt, s').
Proof.
  destruct (FsImage.booted_log ∅ 0) as (l & _); [rewrite size_empty; lia|].
  assert (R1 : passes apic 1000 0 1 0 (sys0 l) = Ok (tt, sys 1 l)) by (vm_compute; reflexivity).
  destruct (zlookup (cpus (mach (sys 1 l))) 0) as [k|] eqn:Ek; [|discriminate Ek].
  destruct (scheduler_progress apic 1000 0 (sys 1 l) 0 k 0 0 init0) as (n & s' & p & k' & y & _ & R & _).
  - eapply (steps_inv apic 1000 0 0 0 0); [apply sys0_inv|eapply passes_steps, R1].
  - exact Ek.
  - by injection Ek as <-.
  - lia.
  - reflexivity.
  - reflexivity.
  - exists (sys 1 l), s', n. exact R.
Defined.

Lemma kill_unused_entry_witness : exists (s s2 : Proc.state alloc_state) n y, pr s2 n y /\ pstate y = EMBRYO /\ pkilled y = true.
Proof.
  destruct (FsImage.booted_log ∅ 0) as (l & _); [rewrite size_empty; lia|]. set (s := sys 3 l).
  set (s1 := match kill apic 0 0 s with Ok (_, s1) => s1 | _ => s end).
  set (s2 := match allocproc_pick apic 0 s1 with Ok (_, s2) => s2 | _ => s1 end).
  assert (R1 : kill apic 0 0 s = Ok (0, s1)) by (vm_compute; reflexivity).
  assert (R2 : allocproc_pick apic 0 s1 = Ok (Some 1, s2)) by (vm_compute; reflexivity).
  destruct (kill_unused_entry apic s s1 s2 0 1 unused0 0 0 1) as (_ & _ & y & H); [reflexivity..|exact R1|exact R2|].
  exists s, s2, 1, y. exact H.
Defined.

End ProcThm.
