(* ===== verification/Syscall.v ===== *)
(** * Arguments of system calls (kern/syscall/syscall.c)

    A process passes the arguments of a system call on its user stack.  The
    kernel reads them, and the strings and buffers they point to, through the
    page table that is loaded: [uload8] and [ustore8] are the accesses of the
    processor at user addresses, which fault without a present page (or, for a
    store, a writable one).

    [fetchint] and the others return [None] where the code returns -1, and
    otherwise what they leave in the variable of the caller; for a string that
    is its address and its characters. *)

From Stdlib Require Import ZArith Lia.
From stdpp Require Import base numbers strings list gmap.
From S2P Require Import Prelude Mmu Mem Kalloc Vm File Spin Proc.

Open Scope Z_scope.

Import Mmu Mem Kalloc.

Module Syscall.

(** ** The paging hardware *)

(** The kernel address of the user address [va] and its page table entry, under
    the page directory at physical address [cr3]. *)
Definition translate (m : mem) (cr3 va : Z) : option (Z * Z) :=
  let pde := load32 m (P2V cr3 + 4 * PDX va) in
  if Vm.present pde then
    let pte := load32 m (P2V (PTE_ADDR pde) + 4 * PTX va) in
    if Vm.present pte then Some (P2V (PTE_ADDR pte) + va mod PGSIZE, pte) else None
  else None.

Section Code.

Context {A : Type} `{!PageAlloc A}.

Local Abbreviation state := (Proc.state A).

Variable lapicid : Z -> Z.
Variable c : Z.

Definition get_mem : ST state mem := s ← get; mret (File.pages (Proc.fl s)).2.

Definition uload8 (va : Z) : ST state Z :=
  k ← Proc.get_cpu c;
  m ← get_mem;
  match translate m (Spin.cr3 k) va with
  | Some (a, _) => mret (m a)
  | None => fault
  end.

Definition ustore8 (va v : Z) : ST state unit :=
  k ← Proc.get_cpu c;
  m ← get_mem;
  match translate m (Spin.cr3 k) va with
  | Some (a, pte) => if Z.land pte PTE_W =? 0 then fault else Proc.onpages (Vm.onmem (store8 a v))
  | None => fault
  end.

(** [n] bytes from [va] on. *)
Fixpoint uloads (n : nat) (va : Z) : ST state (list Z) :=
  match n with
  | O => mret []
  | S n' => b ← uload8 va; l ← uloads n' (va + 1); mret (b :: l)
  end.

Fixpoint ustores (va : Z) (l : list Z) : ST state unit :=
  match l with
  | [] => mret tt
  | b :: l' => ustore8 va b;; ustores (va + 1) l'
  end.

(** A little-endian word. *)
Fixpoint le_val (l : list Z) : Z :=
  match l with
  | [] => 0
  | b :: l' => b + 256 * le_val l'
  end.

Fixpoint le_bytes (n : nat) (v : Z) : list Z :=
  match n with
  | O => []
  | S n' => v mod 256 :: le_bytes n' (v / 256)
  end.

Definition uload32 (va : Z) : ST state Z := l ← uloads 4 va; mret (le_val l).
Definition ustore32 (va v : Z) : ST state unit := ustores va (le_bytes 4 (u32 v)).

(** ** The arguments *)

Definition fetchint (addr : Z) : ST state (option Z) :=
  p ← Proc.curproc lapicid c;
  x ← Proc.get_proc p;
  if (Proc.psz x <=? addr) || (Proc.psz x <? u32 (addr + 4)) then mret None
  else v ← uload32 addr; mret (Some (s32 v)).

(** The characters from [s] up to a NUL, if there is one before [ep]. *)
Fixpoint fetchstr_loop (fuel : nat) (s ep : Z) : ST state (option (list Z)) :=
  if s <? ep then
    match fuel with
    | O => out_of_fuel
    | S f =>
        b ← uload8 s;
        if b =? 0 then mret (Some [])
        else r ← fetchstr_loop f (s + 1) ep; mret (cons b <$> r)
    end
  else mret None.

Definition fetchstr (addr : Z) : ST state (option (Z * list Z)) :=
  p ← Proc.curproc lapicid c;
  x ← Proc.get_proc p;
  if Proc.psz x <=? addr then mret None
  else
    r ← fetchstr_loop (Z.to_nat (Proc.psz x - addr)) addr (Proc.psz x);
    mret (pair addr <$> r).

Definition argint (n : Z) : ST state (option Z) :=
  p ← Proc.curproc lapicid c;
  x ← Proc.get_proc p;
  fetchint (u32 (Proc.tf_esp (Proc.tf x) + 4 + 4 * n)).

Definition argptr (n size : Z) : ST state (option Z) :=
  p ← Proc.curproc lapicid c;
  r ← argint n;
  match r with
  | None => mret None
  | Some i =>
      x ← Proc.get_proc p;
      if (size <? 0) || (Proc.psz x <=? u32 i) || (Proc.psz x <? u32 (u32 i + size)) then mret None
      else mret (Some (u32 i))
  end.

Definition argstr (n : Z) : ST state (option (Z * list Z)) :=
  r ← argint n;
  match r with
  | None => mret None
  | Some addr => fetchstr (u32 addr)
  end.

End Code.

End Syscall.
