(* ===== verification/Exec.v ===== *)
(** * Running a program (kern/sched/exec.c)

    [exec] builds a new address space from an ELF file, puts the arguments on
    its stack and replaces the address space of the process.  The path and the
    arguments are given by their characters. *)

From Stdlib Require Import ZArith Lia.
From stdpp Require Import base numbers strings list gmap.
From S2P Require Import Prelude Mmu Mem Kalloc Vm Block BlockIO LogIO Log Fs File Spin Proc Syscall.

Open Scope Z_scope.

Import Mmu Mem Kalloc Syscall.

Module Exec.

Definition MAXARG : Z := 32.
Definition ELF_MAGIC : Z := 0x464C457F.
Definition ELF_PROG_LOAD : Z := 1.

(** [sizeof(struct elfhdr)] and [sizeof(struct proghdr)]. *)
Definition ELFHDR : Z := 52.
Definition PROGHDR : Z := 32.

(** Fields of the headers, given by their bytes. *)
Definition field (off : nat) (n : nat) (h : list Z) : Z := le_val (take n (drop off h)).

Record elfhdr := mkelf { magic : Z; entry : Z; phoff : Z; phnum : Z }.
Definition elf_load (h : list Z) : elfhdr := mkelf (field 0 4 h) (field 24 4 h) (field 28 4 h) (field 44 2 h).

Record proghdr := mkph { ph_type : Z; ph_off : Z; ph_vaddr : Z; ph_filesz : Z; ph_memsz : Z }.
Definition ph_load (h : list Z) : proghdr := mkph (field 0 4 h) (field 4 4 h) (field 8 4 h) (field 16 4 h) (field 20 4 h).

(** A page allocator beside other state. *)
#[export] Instance pages_beside {A} `{!PageAlloc A} {F : Type} : PageAlloc (A * F).
Proof.
  refine {|
    pa_alloc := zoom (fun s => (s.1.1, s.2)) (fun x s => ((x.1, s.1.2), x.2)) pa_alloc;
    pa_free p := zoom (fun s => (s.1.1, s.2)) (fun x s => ((x.1, s.1.2), x.2)) (pa_free p);
    pa_inv a := pa_inv a.1;
    pa_managed a := pa_managed a.1
  |}.
  - intros a. apply pa_free_managed.
  - intros a. apply pa_page.
  - intros a. apply pa_frame.
  - intros [a f] m Fr Hi. destruct (pa_alloc_ok a m Fr Hi) as (r & a' & R & H). exists r, (a', f). unfold zoom. cbn in *. rewrite R. by split.
  - intros [a f] m Fr p Hi Hm Hp. destruct (pa_free_ok a m Fr p Hi Hm Hp) as (a' & m' & R & H). exists (a', f), m'. unfold zoom. cbn in *. rewrite R. by split.
Defined.

Section Code.

Context {A : Type} `{!PageAlloc A}.

Local Abbreviation state := (Proc.state A).
Local Abbreviation fsstate := File.fsstate.

Variable lapicid : Z -> Z.
Variable c ds kdata : Z.
Variable devread : Z -> option (Z -> Z -> ST fsstate (Z * list Z)).

(** The file layer, run by process [pid]. *)
Definition begin_op : ST state unit := Proc.onfl File.begin_op.
Definition end_op (pid : Z) : ST state unit := Proc.onfl (File.end_op pid ds).
Definition onfs {B} (m : ST fsstate B) : ST state B := Proc.onfl (File.onfs m).

(** [readi] into memory at [dst], beside the page allocator, run by process
    [pid]. *)
Definition readi_mem (pid ip dst off n : Z) : ST ((A * fsstate) * mem) Z :=
  r ← zoom (fun s => s.1.2) (fun x s => ((s.1.1, x), s.2)) (Fs.readi (BlockIO0 := File.io pid ds) devread ip off n);
  Vm.onmem (write dst r.2);;
  mret r.1.

Definition onvm {B} (m : ST ((A * fsstate) * mem) B) : ST state B :=
  Proc.onfl (zoom (fun s => ((fst (File.pages s), File.fs s), snd (File.pages s)))
                  (fun x s => File.set_pages (x.1.1, x.2) (File.set_fs x.1.2 s)) m).

(** ** The program *)

(** The loop over the program headers: the size of the image, or [None] where
    the code goes to [bad]. *)
Fixpoint load_loop (n : nat) (pid ip pgdir off sz : Z) : ST state (option Z) :=
  match n with
  | O => mret (Some sz)
  | S n' =>
      r ← onfs (Fs.readi (BlockIO0 := File.io pid ds) devread ip (u32 off) PROGHDR);
      if negb (r.1 =? PROGHDR) then mret None
      else
        let ph := ph_load r.2 in
        if negb (ph_type ph =? ELF_PROG_LOAD) then load_loop n' pid ip pgdir (off + PROGHDR) sz
        else if ph_memsz ph <? ph_filesz ph then mret None
        else if u32 (ph_vaddr ph + ph_memsz ph) <? ph_vaddr ph then mret None
        else
          sz ← Proc.onpages (Vm.allocuvm pgdir sz (u32 (ph_vaddr ph + ph_memsz ph)));
          if sz =? 0 then mret None
          else if negb (ph_vaddr ph mod PGSIZE =? 0) then mret None
          else
            l ← onvm (Vm.loaduvm (readi_mem pid) pgdir (ph_vaddr ph) ip (ph_off ph) (ph_filesz ph));
            if l <? 0 then mret None
            else load_loop n' pid ip pgdir (off + PROGHDR) sz
  end.

(** ** The stack *)

(** [copyout] of the bytes [src]. *)
Fixpoint copyout_loop (fuel : nat) (pgdir va : Z) (src : list Z) : ST (A * mem) Z :=
  match src with
  | [] => mret 0
  | _ :: _ =>
      match fuel with
      | O => out_of_fuel
      | S f =>
          let va0 := PGROUNDDOWN va in
          pa0 ← Vm.uva2ka pgdir va0;
          if pa0 =? 0 then mret (-1)
          else
            let n := PGSIZE - (va - va0) in
            let n := if Z.of_nat (length src) <? n then Z.of_nat (length src) else n in
            Vm.onmem (write (pa0 + (va - va0)) (take (Z.to_nat n) src));;
            copyout_loop f pgdir (u32 (va0 + PGSIZE)) (drop (Z.to_nat n) src)
      end
  end.

Definition copyout (pgdir va : Z) (src : list Z) : ST (A * mem) Z :=
  copyout_loop (Z.to_nat (Z.of_nat (length src) / PGSIZE + 2)) pgdir va src.

(** The strings; the final [sp] and the pointers, or [None] for [bad]. *)
Fixpoint push_args (pgdir sp argc : Z) (argv : list (list Z)) (ptrs : list Z) : ST (A * mem) (option (Z * list Z)) :=
  match argv with
  | [] => mret (Some (sp, ptrs))
  | s :: argv' =>
      if MAXARG <=? argc then mret None
      else
        let sp := Z.land (u32 (sp - (Z.of_nat (length s) + 1))) (not32 3) in
        r ← copyout pgdir sp (s ++ [0]);
        if r <? 0 then mret None
        else push_args pgdir sp (argc + 1) argv' (ptrs ++ [sp])
  end.

(** [ustack]. *)
Definition ustack (sp : Z) (ptrs : list Z) : list Z :=
  let argc := Z.of_nat (length ptrs) in
  0xffffffff :: argc :: u32 (sp - (argc + 1) * 4) :: ptrs ++ [0].

(** The stack of the new program: its size and its stack pointer. *)
Definition build_stack (pgdir sz : Z) (argv : list (list Z)) : ST (A * mem) (option (Z * Z)) :=
  let sz := PGROUNDUP sz in
  sz ← Vm.allocuvm pgdir sz (u32 (sz + 2 * PGSIZE));
  if sz =? 0 then mret None
  else
    Vm.clearpteu pgdir (u32 (sz - 2 * PGSIZE));;
    r ← push_args pgdir sz 0 argv [];
    match r with
    | None => mret None
    | Some (sp, ptrs) =>
        let words := ustack sp ptrs in
        let sp := u32 (sp - (3 + Z.of_nat (length ptrs) + 1) * 4) in
        r ← copyout pgdir sp (concat (map (le_bytes 4) words));
        if r <? 0 then mret None else mret (Some (sz, sp))
    end.

(** The part of the path after its last slash. *)
Fixpoint last_elem (path last : list Z) : list Z :=
  match path with
  | [] => last
  | ch :: path' => last_elem path' (if ch =? Fs.SLASH then path' else last)
  end.

(** [bad:], without the inode. *)
Definition bad (pgdir : Z) : ST state Z :=
  (if pgdir =? 0 then mret tt else Proc.onpages (Vm.freevm pgdir));; mret (-1).

Definition exec (path : list Z) (argv : list (list Z)) : ST state Z :=
  p ← Proc.curproc lapicid c;
  x ← Proc.get_proc p;
  let pid := Proc.ppid x in
  let io := File.io pid ds in
  let bad_ip (pgdir ip : Z) : ST state Z := (bad pgdir;; onfs (Fs.iunlockput (BlockIO0 := io) pid ip);; end_op pid;; mret (-1)) in
  begin_op;;
  r ← onfs (Fs.namei (BlockIO0 := io) pid devread (default (-1) (Proc.cwd x)) path);
  match r with
  | None => end_op pid;; mret (-1)
  | Some ip =>
      onfs (Fs.ilock (BlockIO0 := io) pid ip);;
      h ← onfs (Fs.readi (BlockIO0 := io) devread ip 0 ELFHDR);
      if negb (h.1 =? ELFHDR) then bad_ip 0 ip
      else
        let elf := elf_load h.2 in
        if negb (magic elf =? ELF_MAGIC) then bad_ip 0 ip
        else
          pgdir ← Proc.onpages (Vm.setupkvm kdata);
          if pgdir =? 0 then bad_ip 0 ip
          else
            l ← load_loop (Z.to_nat (phnum elf)) pid ip pgdir (phoff elf) 0;
            match l with
            | None => bad_ip pgdir ip
            | Some sz =>
                onfs (Fs.iunlockput (BlockIO0 := io) pid ip);;
                end_op pid;;
                st ← Proc.onpages (build_stack pgdir sz argv);
                match st with
                | None => bad pgdir
                | Some (sz, sp) =>
                    Proc.upd_proc p (fun x => Proc.set_pname (Proc.safestrcpy 16 (last_elem path path) (Proc.pname x)) x);;
                    x ← Proc.get_proc p;
                    let oldpgdir := Proc.pgdir x in
                    Proc.upd_proc p (Proc.set_pgdir pgdir);;
                    Proc.upd_proc p (Proc.set_psz sz);;
                    Proc.upd_proc p (fun x => Proc.set_tf (Proc.set_tf_eip (entry elf) (Proc.tf x)) x);;
                    Proc.upd_proc p (fun x => Proc.set_tf (Proc.set_tf_esp sp (Proc.tf x)) x);;
                    Proc.switchuvm lapicid c p;;
                    Proc.onpages (Vm.freevm oldpgdir);;
                    mret 0
                end
            end
  end.

End Code.

End Exec.
