(* ===== verification/Sysfile.v ===== *)
(** * System calls on files (kern/syscall/sysfile.c)

    The calls check their arguments and call the layers of files and of the
    file system.  Each returns the value that the process finds in [eax]. *)

From Stdlib Require Import ZArith Lia.
From stdpp Require Import base numbers strings list gmap.
From S2P Require Import Prelude Mmu Mem Kalloc Vm Block BlockIO LogIO Log Fs File Spin Proc Syscall Exec.

Open Scope Z_scope.

Import Mmu Mem Kalloc BlockIO Syscall Exec.

Module Sysfile.

Definition O_RDONLY : Z := 0.
Definition O_WRONLY : Z := 1.
Definition O_RDWR : Z := 2.
Definition O_CREATE : Z := 0x200.

(** The characters of ["."] and [".."]. *)
Definition DOT : list Z := [46].
Definition DOTDOT : list Z := [46; 46].

(** The bytes of a [struct stat]; [pad] is what the padding holds. *)
Definition stat_bytes (pad : Z) (st : Fs.stat) : list Z :=
  le_bytes 2 (u16 (Fs.st_type st)) ++ [pad; pad] ++ le_bytes 4 (u32 (Fs.st_dev st)) ++ le_bytes 4 (u32 (Fs.st_ino st)) ++
  le_bytes 2 (u16 (Fs.st_nlink st)) ++ [pad; pad] ++ le_bytes 4 (u32 (Fs.st_size st)).
Definition STAT : Z := 20.

(** The first free descriptor. *)
Fixpoint find_fd (l : list (option Z)) (fd : Z) : option Z :=
  match l with
  | [] => None
  | None :: _ => Some fd
  | Some _ :: l' => find_fd l' (fd + 1)
  end.

Section Code.

Context {A : Type} `{!PageAlloc A}.

Local Abbreviation state := (Proc.state A).
Local Abbreviation fsstate := File.fsstate.

Variable lapicid : Z -> Z.
Variable c ds kdata : Z.
Variable devread : Z -> option (Z -> Z -> ST fsstate (Z * list Z)).
Variable devwrite : Z -> option (Z -> list Z -> Z -> ST fsstate Z).

(** The contents of a page that [kalloc] returns, and of the padding of a
    structure on the kernel's stack. *)
Variable junk : list Z.
Variable pad : Z.

Local Abbreviation argint := (Syscall.argint lapicid c).
Local Abbreviation argptr := (Syscall.argptr lapicid c).
Local Abbreviation argstr := (Syscall.argstr lapicid c).
Local Abbreviation curproc := (Proc.curproc lapicid c).
Local Abbreviation end_op := (Exec.end_op ds).
Local Abbreviation begin_op := Exec.begin_op.

(** The descriptor and the file, or [None] for -1. *)
Definition argfd (n : Z) : ST state (option (Z * Z)) :=
  r ← argint n;
  match r with
  | None => mret None
  | Some fd =>
      if (fd <? 0) || (Proc.NOFILE <=? fd) then mret None
      else
        p ← curproc;
        x ← Proc.get_proc p;
        match zlookup (Proc.ofile x) fd with
        | Some (Some f) => mret (Some (fd, f))
        | Some None => mret None
        | None => fault
        end
  end.

Definition fdalloc (f : Z) : ST state Z :=
  p ← curproc;
  x ← Proc.get_proc p;
  match find_fd (Proc.ofile x) 0 with
  | Some fd => Proc.upd_proc p (fun x => Proc.set_ofile (zinsert fd (Some f) (Proc.ofile x)) x);; mret fd
  | None => mret (-1)
  end.

Definition sys_dup : ST state Z :=
  r ← argfd 0;
  match r with
  | None => mret (-1)
  | Some (_, f) =>
      fd ← fdalloc f;
      if fd <? 0 then mret (-1)
      else Proc.onfl (File.filedup f);; mret fd
  end.

Definition sys_read : ST state Z :=
  r ← argfd 0;
  match r with
  | None => mret (-1)
  | Some (_, f) =>
      n ← argint 2;
      match n with
      | None => mret (-1)
      | Some n =>
          q ← argptr 1 n;
          match q with
          | None => mret (-1)
          | Some q =>
              p ← curproc;
              x ← Proc.get_proc p;
              v ← Proc.onfl (File.fileread (Proc.ppid x) ds (Proc.pkilled x) devread f n);
              ustores c q v.2;;
              mret v.1
          end
      end
  end.

Definition sys_write : ST state Z :=
  r ← argfd 0;
  match r with
  | None => mret (-1)
  | Some (_, f) =>
      n ← argint 2;
      match n with
      | None => mret (-1)
      | Some n =>
          q ← argptr 1 n;
          match q with
          | None => mret (-1)
          | Some q =>
              p ← curproc;
              x ← Proc.get_proc p;
              src ← uloads c (Z.to_nat n) q;
              Proc.onfl (File.filewrite (Proc.ppid x) ds (Proc.pkilled x) devwrite f src n)
          end
      end
  end.

Definition sys_close : ST state Z :=
  r ← argfd 0;
  match r with
  | None => mret (-1)
  | Some (fd, f) =>
      p ← curproc;
      Proc.upd_proc p (fun x => Proc.set_ofile (zinsert fd None (Proc.ofile x)) x);;
      x ← Proc.get_proc p;
      Proc.onfl (File.fileclose (Proc.ppid x) ds f);;
      mret 0
  end.

Definition sys_fstat : ST state Z :=
  r ← argfd 0;
  match r with
  | None => mret (-1)
  | Some (_, f) =>
      q ← argptr 1 STAT;
      match q with
      | None => mret (-1)
      | Some q =>
          p ← curproc;
          x ← Proc.get_proc p;
          v ← Proc.onfl (File.filestat (Proc.ppid x) ds f);
          (match v.2 with Some st => ustores c q (stat_bytes pad st) | None => mret tt end);;
          mret v.1
      end
  end.

(** ** Directories

    The file system part of the calls, run by process [pid] with current
    directory [cwd]. *)

Section Fs.

Variable pid cwd : Z.

Local Instance io : BlockIO Log.state := File.io pid ds.

Definition add_nlink (d ip : Z) : ST fsstate unit :=
  Fs.upd_inode ip (fun i => Fs.set_nlink (s16 (Fs.nlink i + d)) i).

(** [bad:] of [sys_link]. *)
Definition link_bad (ip : Z) : ST fsstate Z :=
  Fs.ilock pid ip;;
  add_nlink (-1) ip;;
  Fs.iupdate ip;;
  Fs.iunlockput pid ip;;
  mret (-1).

(** [sys_link] between [begin_op] and [end_op]. *)
Definition link (old new : list Z) : ST fsstate Z :=
  r ← Fs.namei pid devread cwd old;
  match r with
  | None => mret (-1)
  | Some ip =>
      Fs.ilock pid ip;;
      i ← Fs.get_inode ip;
      if Fs.itype i =? Fs.T_DIR then Fs.iunlockput pid ip;; mret (-1)
      else
        add_nlink 1 ip;;
        Fs.iupdate ip;;
        Fs.iunlock pid ip;;
        r ← Fs.nameiparent pid devread cwd new (replicate (Z.to_nat Fs.DIRSIZ) 0);
        match r with
        | (None, _) => link_bad ip
        | (Some dp, name) =>
            Fs.ilock pid dp;;
            d ← Fs.get_inode dp;
            i ← Fs.get_inode ip;
            l ← (if negb (Fs.idev d =? Fs.idev i) then mret (-1) else Fs.dirlink pid devread devwrite dp name (Fs.inum i));
            Fs.iunlockput pid dp;;
            if l <? 0 then link_bad ip
            else Fs.iput pid ip;; mret 0
        end
  end.

(** The directory has no entry from offset [off] on. *)
Fixpoint isdirempty_loop (fuel : nat) (dp off : Z) : ST fsstate bool :=
  d ← Fs.get_inode dp;
  if off <? Fs.isize d then
    match fuel with
    | O => out_of_fuel
    | S f =>
        r ← Fs.readi devread dp off Fs.DIRENT;
        if negb (r.1 =? Fs.DIRENT) then panic "isdirempty: readi"
        else if negb (Fs.de_inum r.2 =? 0) then mret false
        else isdirempty_loop f dp (off + Fs.DIRENT)
    end
  else mret true.

Definition isdirempty (dp : Z) : ST fsstate bool :=
  d ← Fs.get_inode dp; isdirempty_loop (Fs.dir_fuel d) dp (2 * Fs.DIRENT).

(** [sys_unlink] between [begin_op] and [end_op]. *)
Definition unlink (path : list Z) : ST fsstate Z :=
  r ← Fs.nameiparent pid devread cwd path (replicate (Z.to_nat Fs.DIRSIZ) 0);
  match r with
  | (None, _) => mret (-1)
  | (Some dp, name) =>
      Fs.ilock pid dp;;
      if (Fs.namecmp name DOT =? 0) || (Fs.namecmp name DOTDOT =? 0) then Fs.iunlockput pid dp;; mret (-1)
      else
        l ← Fs.dirlookup devread dp name;
        match l with
        | None => Fs.iunlockput pid dp;; mret (-1)
        | Some (ip, off) =>
            Fs.ilock pid ip;;
            i ← Fs.get_inode ip;
            if Fs.nlink i <? 1 then panic "unlink: nlink < 1"
            else
              e ← (if Fs.itype i =? Fs.T_DIR then isdirempty ip else mret true);
              if negb e then Fs.iunlockput pid ip;; Fs.iunlockput pid dp;; mret (-1)
              else
                w ← Fs.writei devwrite dp (replicate (Z.to_nat Fs.DIRENT) 0) off Fs.DIRENT;
                if negb (w =? Fs.DIRENT) then panic "unlink: writei"
                else
                  (if Fs.itype i =? Fs.T_DIR then add_nlink (-1) dp;; Fs.iupdate dp else mret tt);;
                  Fs.iunlockput pid dp;;
                  add_nlink (-1) ip;;
                  Fs.iupdate ip;;
                  Fs.iunlockput pid ip;;
                  mret 0
        end
  end.

(** The inode, locked, or [None] for 0. *)
Definition create (path : list Z) (type major minor : Z) : ST fsstate (option Z) :=
  r ← Fs.nameiparent pid devread cwd path (replicate (Z.to_nat Fs.DIRSIZ) 0);
  match r with
  | (None, _) => mret None
  | (Some dp, name) =>
      Fs.ilock pid dp;;
      l ← Fs.dirlookup devread dp name;
      match l with
      | Some (ip, _) =>
          Fs.iunlockput pid dp;;
          Fs.ilock pid ip;;
          i ← Fs.get_inode ip;
          if (type =? Fs.T_FILE) && (Fs.itype i =? Fs.T_FILE) then mret (Some ip)
          else Fs.iunlockput pid ip;; mret None
      | None =>
          d ← Fs.get_inode dp;
          ip ← Fs.ialloc (Fs.idev d) type;
          Fs.ilock pid ip;;
          Fs.upd_inode ip (Fs.set_dev (s16 major) (s16 minor));;
          Fs.upd_inode ip (Fs.set_nlink 1);;
          Fs.iupdate ip;;
          i ← Fs.get_inode ip;
          (if type =? Fs.T_DIR then
             add_nlink 1 dp;;
             Fs.iupdate dp;;
             l1 ← Fs.dirlink pid devread devwrite ip DOT (Fs.inum i);
             if l1 <? 0 then panic "create dots"
             else
               l2 ← Fs.dirlink pid devread devwrite ip DOTDOT (Fs.inum d);
               if l2 <? 0 then panic "create dots" else mret tt
           else mret tt);;
          l ← Fs.dirlink pid devread devwrite dp name (Fs.inum i);
          if l <? 0 then panic "create: dirlink"
          else Fs.iunlockput pid dp;; mret (Some ip)
      end
  end.

(** [sys_open] up to the allocation of the file: the inode, locked. *)
Definition open_inode (path : list Z) (omode : Z) : ST fsstate (option Z) :=
  if negb (Z.land omode O_CREATE =? 0) then create path Fs.T_FILE 0 0
  else
    r ← Fs.namei pid devread cwd path;
    match r with
    | None => mret None
    | Some ip =>
        Fs.ilock pid ip;;
        i ← Fs.get_inode ip;
        if (Fs.itype i =? Fs.T_DIR) && negb (omode =? O_RDONLY) then Fs.iunlockput pid ip;; mret None
        else mret (Some ip)
    end.

(** [sys_chdir] up to the end of the transaction: the directory. *)
Definition chdir_inode (path : list Z) : ST fsstate (option Z) :=
  r ← Fs.namei pid devread cwd path;
  match r with
  | None => mret None
  | Some ip =>
      Fs.ilock pid ip;;
      i ← Fs.get_inode ip;
      if negb (Fs.itype i =? Fs.T_DIR) then Fs.iunlockput pid ip;; mret None
      else Fs.iunlock pid ip;; Fs.iput pid cwd;; mret (Some ip)
  end.

End Fs.

(** ** The calls *)

(** The process that runs, its pid and its current directory. *)
Definition whoami : ST state (Z * Z * Z) :=
  p ← curproc;
  x ← Proc.get_proc p;
  mret (p, Proc.ppid x, default (-1) (Proc.cwd x)).

Definition sys_link : ST state Z :=
  a ← argstr 0;
  match a with
  | None => mret (-1)
  | Some (_, old) =>
      b ← argstr 1;
      match b with
      | None => mret (-1)
      | Some (_, new) =>
          w ← whoami;
          let '(_, pid, cwd) := w in
          begin_op;;
          r ← onfs (link pid cwd old new);
          end_op pid;;
          mret r
      end
  end.

Definition sys_unlink : ST state Z :=
  a ← argstr 0;
  match a with
  | None => mret (-1)
  | Some (_, path) =>
      w ← whoami;
      let '(_, pid, cwd) := w in
      begin_op;;
      r ← onfs (unlink pid cwd path);
      end_op pid;;
      mret r
  end.

(** [f] and [fd], or [None] where the call fails; the file is closed then. *)
Definition open_file (pid : Z) : ST state (option (Z * Z)) :=
  f ← Proc.onfl File.filealloc;
  match f with
  | None => mret None
  | Some f =>
      fd ← fdalloc f;
      if fd <? 0 then Proc.onfl (File.fileclose pid ds f);; mret None
      else mret (Some (f, fd))
  end.

Definition sys_open : ST state Z :=
  a ← argstr 0;
  match a with
  | None => mret (-1)
  | Some (_, path) =>
      o ← argint 1;
      match o with
      | None => mret (-1)
      | Some omode =>
          w ← whoami;
          let '(_, pid, cwd) := w in
          begin_op;;
          r ← onfs (open_inode pid cwd path omode);
          match r with
          | None => end_op pid;; mret (-1)
          | Some ip =>
              v ← open_file pid;
              match v with
              | None => onfs (Fs.iunlockput (BlockIO0 := File.io pid ds) pid ip);; end_op pid;; mret (-1)
              | Some (f, fd) =>
                  onfs (Fs.iunlock pid ip);;
                  end_op pid;;
                  Proc.onfl (File.upd_file f (fun x =>
                    File.mkfile File.FD_INODE (File.fref x) (Z.land omode O_WRONLY =? 0)
                      (negb (Z.land omode O_WRONLY =? 0) || negb (Z.land omode O_RDWR =? 0)) (File.fpipe x) ip 0));;
                  mret fd
              end
          end
      end
  end.

(** [sys_mkdir] and [sys_mknod], once the arguments are known. *)
Definition make_node (pid cwd : Z) (path : list Z) (type major minor : Z) : ST state Z :=
  r ← onfs (create pid cwd path type major minor);
  match r with
  | None => end_op pid;; mret (-1)
  | Some ip => onfs (Fs.iunlockput (BlockIO0 := File.io pid ds) pid ip);; end_op pid;; mret 0
  end.

Definition sys_mkdir : ST state Z :=
  w ← whoami;
  let '(_, pid, cwd) := w in
  begin_op;;
  a ← argstr 0;
  match a with
  | None => end_op pid;; mret (-1)
  | Some (_, path) => make_node pid cwd path Fs.T_DIR 0 0
  end.

Definition sys_mknod : ST state Z :=
  w ← whoami;
  let '(_, pid, cwd) := w in
  begin_op;;
  a ← argstr 0;
  match a with
  | None => end_op pid;; mret (-1)
  | Some (_, path) =>
      ma ← argint 1;
      match ma with
      | None => end_op pid;; mret (-1)
      | Some major =>
          mi ← argint 2;
          match mi with
          | None => end_op pid;; mret (-1)
          | Some minor => make_node pid cwd path Fs.T_DEV major minor
          end
      end
  end.

Definition sys_chdir : ST state Z :=
  w ← whoami;
  let '(p, pid, cwd) := w in
  begin_op;;
  a ← argstr 0;
  match a with
  | None => end_op pid;; mret (-1)
  | Some (_, path) =>
      r ← onfs (chdir_inode pid cwd path);
      match r with
      | None => end_op pid;; mret (-1)
      | Some ip => end_op pid;; Proc.upd_proc p (Proc.set_cwd (Some ip));; mret 0
      end
  end.

(** The loop over the argument vector from its [i]-th word on. *)
Fixpoint exec_args (n : nat) (uargv i : Z) : ST state (option (list (list Z))) :=
  match n with
  | O => mret None
  | S n' =>
      u ← Syscall.fetchint lapicid c (u32 (uargv + 4 * i));
      match u with
      | None => mret None
      | Some uarg =>
          if uarg =? 0 then mret (Some [])
          else
            s ← Syscall.fetchstr lapicid c (u32 uarg);
            match s with
            | None => mret None
            | Some (_, s) => r ← exec_args n' uargv (i + 1); mret (cons s <$> r)
            end
      end
  end.

Definition sys_exec : ST state Z :=
  a ← argstr 0;
  match a with
  | None => mret (-1)
  | Some (_, path) =>
      u ← argint 1;
      match u with
      | None => mret (-1)
      | Some uargv =>
          r ← exec_args (Z.to_nat MAXARG) (u32 uargv) 0;
          match r with
          | None => mret (-1)
          | Some argv => Exec.exec lapicid c ds kdata devread path argv
          end
      end
  end.

Definition sys_pipe : ST state Z :=
  q ← argptr 0 8;
  match q with
  | None => mret (-1)
  | Some q =>
      p ← curproc;
      x ← Proc.get_proc p;
      r ← Proc.onfl (File.pipealloc (Proc.ppid x) ds junk);
      match r with
      | None => mret (-1)
      | Some (rf, wf) =>
          fd0 ← fdalloc rf;
          fd1 ← (if fd0 <? 0 then mret (-1) else fdalloc wf);
          if fd1 <? 0 then
            (if 0 <=? fd0 then Proc.upd_proc p (fun x => Proc.set_ofile (zinsert fd0 None (Proc.ofile x)) x) else mret tt);;
            Proc.onfl (File.fileclose (Proc.ppid x) ds rf);;
            Proc.onfl (File.fileclose (Proc.ppid x) ds wf);;
            mret (-1)
          else
            ustore32 c q fd0;;
            ustore32 c (q + 4) fd1;;
            mret 0
      end
  end.

End Code.

End Sysfile.
