(* ===== verification/Trap.v ===== *)
(** * System calls and traps (kern/syscall/sysproc.c, syscall.c, kern/trap/trap.c)

    The calls on processes, the table of system calls, and [trap], which the
    processor enters on a system call, an interrupt or an exception.  [ticks] is
    the value of the counter of clock interrupts when the code reads it.  The
    interrupt handlers of the disk, the keyboard and the serial line are
    arguments of the model.  A trap whose thread gives up the processor goes on
    with [trap_resume]. *)

From Stdlib Require Import ZArith Lia.
From stdpp Require Import base numbers strings list gmap.
From S2P Require Import Prelude Mmu Mem Kalloc Vm Log Fs File Spin Proc Syscall Exec Sysfile.

Open Scope Z_scope.

Import Mmu Mem Kalloc Syscall Proc.

Module Trap.

Definition T_SYSCALL : Z := 64.
Definition T_IRQ0 : Z := 32.
Definition IRQ_TIMER : Z := 0.
Definition IRQ_KBD : Z := 1.
Definition IRQ_COM1 : Z := 4.
Definition IRQ_IDE : Z := 14.
Definition IRQ_SPURIOUS : Z := 31.

(** The address of [ticks], on which [sys_sleep] sleeps. *)
Definition TICKS : channel := C_obj 0.

Section Code.

Context {A : Type} `{!PageAlloc A}.

Local Abbreviation state := (Proc.state A).

Variable lapicid : Z -> Z.
Variable c ds kdata trapret_addr forkret_addr : Z.
Variable devread : Z -> option (Z -> Z -> ST File.fsstate (Z * list Z)).
Variable devwrite : Z -> option (Z -> list Z -> Z -> ST File.fsstate Z).
Variable junk : list Z.
Variable pad : Z.
Variable ideintr kbdintr uartintr : ST state unit.

Local Abbreviation argint := (Syscall.argint lapicid c).
Local Abbreviation curproc := (Proc.curproc lapicid c).

(** ** Calls on processes *)

Definition returns (m : ST state Z) : ST state result := v ← m; mret (Ret v).

Definition sys_fork : ST state result := returns (fork lapicid c kdata trapret_addr forkret_addr).
Definition sys_exit : ST state result := exit lapicid c ds.
Definition sys_wait : ST state result := wait lapicid c.

Definition sys_kill : ST state result :=
  r ← argint 0;
  match r with
  | None => mret (Ret (-1))
  | Some pid => returns (kill lapicid c pid)
  end.

Definition sys_getpid : ST state result := p ← curproc; x ← get_proc p; mret (Ret (ppid x)).

Definition sys_sbrk : ST state result :=
  r ← argint 0;
  match r with
  | None => mret (Ret (-1))
  | Some n =>
      p ← curproc;
      x ← get_proc p;
      let addr := psz x in
      g ← growproc lapicid c n;
      mret (Ret (if g <? 0 then -1 else s32 addr))
  end.

(** The loop of [sys_sleep]; the thread continues with it when it has slept. *)
Definition sys_sleep_loop (ticks ticks0 n : Z) : ST state result :=
  if u32 (ticks - ticks0) <? u32 n then
    p ← curproc;
    x ← get_proc p;
    if pkilled x then mret (Ret (-1))
    else sleep lapicid c TICKS 0 A_ret
  else mret (Ret 0).

Definition sys_sleep (ticks : Z) : ST state result :=
  r ← argint 0;
  match r with
  | None => mret (Ret (-1))
  | Some n => sys_sleep_loop ticks ticks n
  end.

Definition sys_uptime (ticks : Z) : ST state result := mret (Ret (s32 ticks)).

(** ** The table *)

Definition syscalls (ticks num : Z) : option (ST state result) :=
  match num with
  | 1 => Some sys_fork
  | 2 => Some sys_exit
  | 3 => Some sys_wait
  | 4 => Some (returns (Sysfile.sys_pipe lapicid c ds junk))
  | 5 => Some (returns (Sysfile.sys_read lapicid c ds devread))
  | 6 => Some sys_kill
  | 7 => Some (returns (Sysfile.sys_exec lapicid c ds kdata devread))
  | 8 => Some (returns (Sysfile.sys_fstat lapicid c ds pad))
  | 9 => Some (returns (Sysfile.sys_chdir lapicid c ds devread))
  | 10 => Some (returns (Sysfile.sys_dup lapicid c))
  | 11 => Some sys_getpid
  | 12 => Some sys_sbrk
  | 13 => Some (sys_sleep ticks)
  | 14 => Some (sys_uptime ticks)
  | 15 => Some (returns (Sysfile.sys_open lapicid c ds devread devwrite))
  | 16 => Some (returns (Sysfile.sys_write lapicid c ds devwrite))
  | 17 => Some (returns (Sysfile.sys_mknod lapicid c ds devread devwrite))
  | 18 => Some (returns (Sysfile.sys_unlink lapicid c ds devread devwrite))
  | 19 => Some (returns (Sysfile.sys_link lapicid c ds devread devwrite))
  | 20 => Some (returns (Sysfile.sys_mkdir lapicid c ds devread devwrite))
  | 21 => Some (returns (Sysfile.sys_close lapicid c ds))
  | _ => None
  end.

Definition set_eax (p v : Z) : ST state unit := upd_proc p (fun x => set_tf (set_tf_eax (u32 v) (tf x)) x).

(** [syscall]; a call that gives up the processor stores its result when the
    thread continues. *)
Definition syscall (ticks : Z) : ST state result :=
  p ← curproc;
  x ← get_proc p;
  match syscalls ticks (s32 (tf_eax (tf x))) with
  | Some call =>
      r ← call;
      match r with
      | Ret v => set_eax p v;; mret r
      | Switched => mret r
      end
  | None => set_eax p (-1);; mret (Ret (-1))
  end.

(** ** Traps *)

(** [timerintr] (drivers/timer/timer.cc): whether [ticks] has changed. *)
Definition timerintr (ticks : Z) : ST state (bool * Z) :=
  i ← Proc.mycpu lapicid c;
  mret (if i =? 0 then (true, u32 (ticks + 1)) else (false, ticks)).

(** The part of [trap] for a system call, after the call and as a whole. *)
Definition trap_syscall_end (v : Z) : ST state result :=
  p ← curproc;
  x ← get_proc p;
  if pkilled x then exit lapicid c ds else mret (Ret v).

Definition trap_syscall (ticks : Z) (t : trapframe) : ST state result :=
  p ← curproc;
  x ← get_proc p;
  if pkilled x then exit lapicid c ds
  else
    upd_proc p (set_tf t);;
    r ← syscall ticks;
    match r with
    | Switched => mret Switched
    | Ret v => trap_syscall_end v
    end.

(** The [switch] of [trap]: the new value of [ticks]. *)
Definition trap_switch (ticks : Z) (t : trapframe) : ST state Z :=
  if tf_trapno t =? T_IRQ0 + IRQ_TIMER then
    r ← timerintr ticks;
    (if r.1 : bool then wakeup lapicid c TICKS else mret tt);;
    mret r.2
  else if tf_trapno t =? T_IRQ0 + IRQ_IDE then ideintr;; mret ticks
  else if tf_trapno t =? T_IRQ0 + IRQ_IDE + 1 then mret ticks
  else if tf_trapno t =? T_IRQ0 + IRQ_KBD then kbdintr;; mret ticks
  else if tf_trapno t =? T_IRQ0 + IRQ_COM1 then uartintr;; mret ticks
  else if (tf_trapno t =? T_IRQ0 + 7) || (tf_trapno t =? T_IRQ0 + IRQ_SPURIOUS) then mret ticks
  else
    q ← myproc lapicid c;
    match q with
    | None => panic "trap"
    | Some p => if Z.land (tf_cs t) 3 =? 0 then panic "trap" else upd_proc p (set_pkilled true);; mret ticks
    end.

(** [myproc() && myproc()->killed && (tf->cs&3) == DPL_USER]. *)
Definition killed_user (t : trapframe) : ST state bool :=
  q ← myproc lapicid c;
  match q with
  | None => mret false
  | Some p => x ← get_proc p; mret (pkilled x && (Z.land (tf_cs t) 3 =? DPL_USER))
  end.

(** The last check of [trap], also made by a thread that has yielded. *)
Definition trap_check (t : trapframe) : ST state result :=
  b ← killed_user t;
  if b : bool then exit lapicid c ds else mret (Ret 0).

(** [trap] after the [switch]. *)
Definition trap_end (t : trapframe) : ST state result :=
  b ← killed_user t;
  if b : bool then exit lapicid c ds
  else
    q ← myproc lapicid c;
    y ← (match q with
         | None => mret false
         | Some p => x ← get_proc p; mret (bool_decide (pstate x = RUNNING) && (tf_trapno t =? T_IRQ0 + IRQ_TIMER))
         end);
    if y : bool then yield lapicid c else trap_check t.

Definition trap (ticks : Z) (t : trapframe) : ST state (result * Z) :=
  if tf_trapno t =? T_SYSCALL then r ← trap_syscall ticks t; mret (r, ticks)
  else
    ticks' ← trap_switch ticks t;
    r ← trap_end t;
    mret (r, ticks').

(** ** A trap whose thread gave up the processor *)

(** Where a thread that gave up the processor in a trap goes on: in [trap] after
    [yield], in [wait], in the loop of [sys_sleep], or in a call that sleeps in the
    file system. *)
Inductive rest := R_yield | R_wait | R_sleep (ticks0 n : Z) | R_call.

(** The end of a system call that returns [v]. *)
Definition syscall_returns (v : Z) : ST state result :=
  p ← curproc;
  set_eax p v;;
  trap_syscall_end v.

(** The rest of the trap, when the operation that gave up the processor ends with [res]. *)
Definition trap_rest (ticks : Z) (t : trapframe) (r : rest) (res : result) : ST state result :=
  match res with
  | Switched => mret Switched
  | Ret v =>
      match r with
      | R_yield => trap_check t
      | R_wait | R_call => syscall_returns v
      | R_sleep ticks0 n =>
          w ← sys_sleep_loop ticks ticks0 n;
          match w with Switched => mret Switched | Ret v => syscall_returns v end
      end
  end.

(** The thread runs again, on this processor. *)
Definition trap_resume (ticks : Z) (t : trapframe) (r : rest) (k : kont) : ST state result :=
  res ← resume lapicid c ds k;
  trap_rest ticks t r res.

End Code.

End Trap.
