(* ===== verification/SyscallThm.v ===== *)
(** * What the argument checks promise

    A system call reads and writes only memory of the process that makes it,
    whatever words the process puts on its stack. *)

From Stdlib Require Import ZArith Lia.
From stdpp Require Import base numbers strings list gmap.
From S2P Require Import Prelude Mmu Mem Kalloc Vm Log FsImage File FileThm Spin Proc ProcInv Syscall.

Open Scope Z_scope.

Import Mmu Mem Kalloc Spin Proc ProcInv Syscall.

Module SyscallThm.

Section Args.

Context {A : Type} `{!PageAlloc A} (lapicid : Z -> Z) (c : Z).

Local Abbreviation state := (Proc.state A).

Definition memory (s : state) : mem := (File.pages (fl s)).2.

(** Process [p] runs on processor [c]. *)
Record running (s : state) (k : cpu) (p : Z) (x : proc) : Prop := {
  ru_ok : mach_ok lapicid (mach s);
  ru_cpu : cpu_at s c k;
  ru_cur : cproc k = Some p;
  ru_proc : pr s p x
}.

(** The state after [myproc], which saves and restores the interrupt flag. *)
Definition seen (k : cpu) (s : state) : state := set_mach (set_cpu c (touch k) (mach s)) s.

Lemma touch_twice k : touch (touch k) = touch k.
Proof. unfold touch. destruct (ncli k =? 0) eqn:E; [|by rewrite E]. cbn. by rewrite E. Qed.

Lemma seen_twice k s : cpu_at s c k -> seen (touch k) (seen k s) = seen k s.
Proof. intros Hk. unfold seen. cbn. rewrite touch_twice, set_cpu_twice. done. Qed.

Lemma running_seen s k p x : running s k p x -> running (seen k s) (touch k) p x.
Proof.
  intros [H1 H2 H3 H4]. destruct (touch_fields k) as (E1 & E2 & E3 & E4 & _). split; [|..|done].
  - by eapply mach_ok_set.
  - apply zlookup_zinsert_eq. by eapply zlookup_lt.
  - congruence.
Qed.

Lemma run_curproc s k p x : running s k p x -> curproc lapicid c s = Ok (p, seen k s).
Proof. intros [H1 H2 H3 H4]. unfold curproc. step (run_myproc lapicid c s k H1 H2). by rewrite H3. Qed.

Lemma run_proc s k p x : running s k p x -> get_proc p s = Ok (x, s).
Proof. intros [_ _ _ H]. unfold get_proc, mbind, ST_bind, get. by rewrite H. Qed.

(** [myproc] once more. *)
Lemma rerun_curproc s k p x : running s k p x -> curproc lapicid c (seen k s) = Ok (p, seen k s).
Proof. intros H. rewrite (run_curproc _ _ _ _ (running_seen _ _ _ _ H)). by rewrite seen_twice by apply H. Qed.

(** ** User memory *)

(** The byte that a user address holds. *)
Definition ubyte (s : state) (k : cpu) (va : Z) : Z :=
  match translate (memory s) (cr3 k) va with Some (a, _) => memory s a | None => 0 end.

Definition ubytes (s : state) (k : cpu) (va : Z) (n : nat) : list Z := (fun j => ubyte s k (va + Z.of_nat j)) <$> seq 0 n.

Definition is_mapped (s : state) (k : cpu) (va : Z) : Prop := translate (memory s) (cr3 k) va <> None.

Lemma ubytes_S s k va n : ubytes s k va (S n) = ubyte s k va :: ubytes s k (va + 1) n.
Proof.
  unfold ubytes. cbn [seq fmap list_fmap]. f_equal; [f_equal; lia|]. rewrite <- fmap_S_seq, <- list_fmap_compose.
  apply list_fmap_ext. intros i j _. cbn. f_equal. lia.
Qed.

Lemma length_ubytes s k va n : length (ubytes s k va n) = n.
Proof. unfold ubytes. by rewrite length_fmap, length_seq. Qed.

Lemma run_uload8 s k va : cpu_at s c k -> is_mapped s k va -> uload8 c va s = Ok (ubyte s k va, s).
Proof.
  intros Hk Hm. unfold uload8. rewrite (run_bind _ _ _ k s).
  2: { unfold get_cpu, onmach, zoom, Spin.get_cpu, mbind, ST_bind, get. rewrite Hk. by destruct s. }
  unfold get_mem. rewrite (run_bind _ _ _ (memory s) s) by done. unfold is_mapped, ubyte in *.
  by destruct (translate (memory s) (cr3 k) va) as [[a e]|].
Qed.

Lemma run_uloads s k n : forall va, cpu_at s c k -> (forall j, va <= j < va + Z.of_nat n -> is_mapped s k j) ->
  uloads c n va s = Ok (ubytes s k va n, s).
Proof.
  induction n as [|n IH]; intros va Hk Hm; [done|]. cbn [uloads]. step (run_uload8 s k va Hk (Hm va ltac:(lia))).
  step (IH (va + 1) Hk (fun j Hj => Hm j ltac:(lia))). by rewrite ubytes_S.
Qed.

(** The int at a user address. *)
Definition uint (s : state) (k : cpu) (va : Z) : Z := le_val (ubytes s k va 4).

Lemma run_uload32 s k va : cpu_at s c k -> (forall j, va <= j < va + 4 -> is_mapped s k j) -> uload32 c va s = Ok (uint s k va, s).
Proof. intros Hk Hm. unfold uload32. by step (run_uloads s k 4 va Hk Hm). Qed.

Lemma touch_ubyte s k : ubyte (seen k s) (touch k) = ubyte s k.
Proof. destruct (touch_fields k) as (_ & _ & _ & _ & _ & E & _). unfold ubyte. by rewrite E. Qed.

Lemma touch_mapped s k va : is_mapped (seen k s) (touch k) va <-> is_mapped s k va.
Proof. destruct (touch_fields k) as (_ & _ & _ & _ & _ & E & _). unfold is_mapped. by rewrite E. Qed.

Lemma touch_uint s k va : uint (seen k s) (touch k) va = uint s k va.
Proof. unfold uint, ubytes. by rewrite touch_ubyte. Qed.

(** ** The checks *)

Section Process.

Context (s : state) (k : cpu) (p : Z) (x : proc).
Context (Hrun : running s k p x) (Hsz : 0 <= psz x <= KERNBASE) (Hmap : forall va, 0 <= va < psz x -> is_mapped s k va).

Let Hcpu : cpu_at (seen k s) c (touch k) := ru_cpu _ _ _ _ (running_seen _ _ _ _ Hrun).

Lemma seen_mapped va : 0 <= va < psz x -> is_mapped (seen k s) (touch k) va.
Proof. intros H. by apply touch_mapped, Hmap. Qed.

Lemma fetchint_seen addr : 0 <= addr < 2 ^ 32 ->
  fetchint lapicid c addr (seen k s) = Ok (if addr + 4 <=? psz x then Some (s32 (uint s k addr)) else None, seen k s).
Proof.
  intros Ha. unfold fetchint. step (rerun_curproc s k p x Hrun). step (run_proc _ _ _ _ (running_seen _ _ _ _ Hrun)).
  unfold KERNBASE in Hsz. destruct (Z.leb_spec (psz x) addr) as [H1|H1]; cbn [orb].
  { destruct (Z.leb_spec (addr + 4) (psz x)); [lia|done]. }
  rewrite u32_small by lia. destruct (Z.ltb_spec (psz x) (addr + 4)), (Z.leb_spec (addr + 4) (psz x)); try lia; [done|].
  rewrite (run_bind _ _ _ _ _ (run_uload32 (seen k s) (touch k) addr Hcpu ltac:(intros j Hj; apply seen_mapped; lia))).
  by rewrite touch_uint.
Qed.

Lemma fetchint_run addr : 0 <= addr < 2 ^ 32 ->
  fetchint lapicid c addr s = Ok (if addr + 4 <=? psz x then Some (s32 (uint s k addr)) else None, seen k s).
Proof.
  intros Ha. rewrite <- (fetchint_seen addr Ha). unfold fetchint. step (run_curproc s k p x Hrun). by step (rerun_curproc s k p x Hrun).
Qed.

(** The position of the first NUL. *)
Lemma fetchstr_loop_run n : forall a, 0 <= a -> psz x = a + Z.of_nat n ->
  (exists l, fetchstr_loop c n a (psz x) (seen k s) = Ok (Some l, seen k s) /\ (length l < n)%nat /\ Forall (fun b => b <> 0) l /\
     ubytes s k a (S (length l)) = l ++ [0]) \/
  (fetchstr_loop c n a (psz x) (seen k s) = Ok (None, seen k s) /\ forall j, a <= j < psz x -> ubyte s k j <> 0).
Proof.
  induction n as [|n IH]; intros a Ha Hn.
  { right. cbn [fetchstr_loop]. rewrite (proj2 (Z.ltb_ge _ _)) by lia. split; [done|]. intros j Hj. lia. }
  cbn [fetchstr_loop]. rewrite (proj2 (Z.ltb_lt _ _)) by lia.
  pose proof (run_uload8 (seen k s) (touch k) a Hcpu (seen_mapped a ltac:(lia))) as R. rewrite touch_ubyte in R. step R.
  destruct (Z.eqb_spec (ubyte s k a) 0) as [E|E].
  - left. exists []. split; [done|]. split; [cbn; lia|]. split; [constructor|]. rewrite ubytes_S. cbn. by rewrite E.
  - destruct (IH (a + 1)) as [(l & R' & Hl & Hf & Hb)|(R' & Hno)]; [lia|lia| |].
    + left. exists (ubyte s k a :: l). step R'. split; [done|]. split; [cbn; lia|]. split; [by constructor|].
      cbn [length]. rewrite ubytes_S, Hb. done.
    + right. step R'. split; [done|]. intros j Hj. destruct (decide (j = a)) as [->|]; [done|]. apply Hno. lia.
Qed.

Lemma fetchstr_run s' addr : s' = s \/ s' = seen k s -> 0 <= addr < 2 ^ 32 ->
  (exists l, fetchstr lapicid c addr s' = Ok (Some (addr, l), seen k s) /\ addr + Z.of_nat (length l) < psz x /\
     Forall (fun b => b <> 0) l /\ ubytes s k addr (S (length l)) = l ++ [0]) \/
  (fetchstr lapicid c addr s' = Ok (None, seen k s) /\ forall j, addr <= j < psz x -> ubyte s k j <> 0).
Proof.
  intros Hs Ha. unfold fetchstr.
  rewrite (run_bind _ _ _ p (seen k s)) by (destruct Hs as [-> | ->]; [by eapply run_curproc|by eapply rerun_curproc]).
  step (run_proc _ _ _ _ (running_seen _ _ _ _ Hrun)). destruct (Z.leb_spec (psz x) addr) as [H1|H1].
  { right. split; [done|]. intros j Hj. lia. }
  destruct (fetchstr_loop_run (Z.to_nat (psz x - addr)) addr) as [(l & R & Hl & Hf & Hb)|(R & Hno)]; [lia|lia| |].
  - left. exists l. step R. split; [done|]. split; [lia|]. by split.
  - right. step R. by split.
Qed.

(** The [n]-th word above the return address. *)
Definition arg_addr (n : Z) : Z := u32 (tf_esp (tf x) + 4 + 4 * n).

Lemma argint_run s' n : s' = s \/ s' = seen k s ->
  argint lapicid c n s' = Ok (if arg_addr n + 4 <=? psz x then Some (s32 (uint s k (arg_addr n))) else None, seen k s).
Proof.
  intros Hs. unfold argint. rewrite (run_bind _ _ _ p (seen k s)) by (destruct Hs as [-> | ->]; [by eapply run_curproc|by eapply rerun_curproc]).
  step (run_proc _ _ _ _ (running_seen _ _ _ _ Hrun)). apply fetchint_seen, u32_range.
Qed.

Lemma argptr_run n size : size < 2 ^ 31 -> exists r, argptr lapicid c n size s = Ok (r, seen k s) /\
  forall q, r = Some q <-> (arg_addr n + 4 <= psz x /\ q = u32 (s32 (uint s k (arg_addr n))) /\ 0 <= size /\ q < psz x /\ q + size <= psz x).
Proof.
  intros Hs. unfold argptr. step (run_curproc s k p x Hrun). step (argint_run (seen k s) n (or_intror eq_refl)).
  destruct (Z.leb_spec (arg_addr n + 4) (psz x)) as [H1|H1].
  2: { exists None. split; [done|]. intros q. split; [done|lia]. }
  step (run_proc _ _ _ _ (running_seen _ _ _ _ Hrun)). set (v := u32 (s32 (uint s k (arg_addr n)))).
  pose proof (u32_range (s32 (uint s k (arg_addr n)))) as Hv. fold v in Hv. unfold KERNBASE in Hsz.
  destruct (Z.ltb_spec size 0) as [H2|H2], (Z.leb_spec (psz x) v) as [H3|H3]; cbn [orb];
    try (exists None; split; [done|]; intros q; split; [done|lia]).
  rewrite u32_small by lia. destruct (Z.ltb_spec (psz x) (v + size)) as [H4|H4].
  - exists None. split; [done|]. intros q. split; [done|lia].
  - exists (Some v). split; [done|]. intros q. split; [intros [= <-]; lia|intros (_ & -> & _); done].
Qed.

End Process.

(** C29: whatever the stack pointer and the words of a process are, the
    checks of its system calls neither fault nor wrap around: [argint] returns
    the word exactly when its four bytes lie below the size of the process,
    [argptr] a block exactly when all its bytes do, and [argstr] a string whose
    bytes up to its NUL all do; no check changes the state but for the saved
    interrupt flag. *)
Theorem syscall_args_bounded (s : state) (k : cpu) (p : Z) (x : proc) : running s k p x -> 0 <= psz x <= KERNBASE ->
  (forall va, 0 <= va < psz x -> is_mapped s k va) ->
  forall n, let a := u32 (tf_esp (tf x) + 4 + 4 * n) in let v := s32 (uint s k a) in
  argint lapicid c n s = Ok (if a + 4 <=? psz x then Some v else None, seen k s) /\
  (forall size, size < 2 ^ 31 -> exists r, argptr lapicid c n size s = Ok (r, seen k s) /\
     forall q, r = Some q <-> a + 4 <= psz x /\ q = u32 v /\ 0 <= size /\ q < psz x /\ q + size <= psz x) /\
  (exists r, argstr lapicid c n s = Ok (r, seen k s) /\
     (forall q l, r = Some (q, l) -> q = u32 v /\ q + Z.of_nat (length l) < psz x /\ Forall (fun b => b <> 0) l /\
        ubytes s k q (S (length l)) = l ++ [0]) /\
     (r = None -> psz x < a + 4 \/ forall j, u32 v <= j < psz x -> ubyte s k j <> 0)).
Proof.
  intros Hrun Hsz Hmap n a v. split; [|split].
  - apply (argint_run s k p x Hrun Hsz Hmap s n). by left.
  - intros size Hs. by apply (argptr_run s k p x Hrun Hsz Hmap n size).
  - unfold argstr. step (argint_run s k p x Hrun Hsz Hmap s n (or_introl eq_refl)). fold (arg_addr x n) in a. fold a. fold v.
    destruct (Z.leb_spec (a + 4) (psz x)) as [H1|H1].
    2: { exists None. split; [done|]. split; [done|]. intros _. left. lia. }
    destruct (fetchstr_run s k p x Hrun Hmap (seen k s) (u32 v) (or_intror eq_refl) (u32_range v)) as [(l & R & Hl & Hf & Hb)|(R & Hno)].
    + exists (Some (u32 v, l)). split; [done|]. split; [|done]. intros q l' [= <- <-]. done.
    + exists None. split; [done|]. split; [done|]. intros _. by right.
Qed.

End Args.

(** ** A process with one page *)

Definition apic1 (i : Z) : Z := i.

(** The page directory is at physical address 0x200000, its first table at
    0x202000, and the page at 0x203000. *)
Definition mem1 : mem := store32 (P2V 0x202000) (0x203000 + 7) (store32 (P2V 0x200000) (0x202000 + 7) (fun _ => 0)).
Definition cpu1 : cpu := mkcpu 0 0 false (Some 0) true (S_run 0) 0x200000 0.
Definition proc1 : proc := mkproc PGSIZE (P2V 0x200000) (P2V 0x201000) RUNNING 1 None tf0 0 K_forkret 0 C_none false [] (Some 0) [] None.
Definition sys1 (l : Log.Log.state) : Proc.state alloc_state :=
  mkstate (File.set_pages (boot0, mem1) (FileThm.opened l)) (mkmach [cpu1] ∅) [proc1] 2 (Some 0) false.

Lemma running1 l : running apic1 0 (sys1 l) cpu1 0 proc1.
Proof.
  assert (Hh : forall c, held (mkmach [cpu1] ∅) c = ∅).
  { intros c. apply set_eq. intros lk. rewrite elem_of_held. split; [|intros H; by apply elem_of_empty in H]. intros (q & E & _). cbn in E. by rewrite lookup_empty in E. }
  assert (Hc : forall c k, zlookup [cpu1] c = Some k -> c = 0 /\ k = cpu1).
  { intros c k H. pose proof (zlookup_lt _ _ _ H) as Hl. cbn in Hl. assert (c = 0) as -> by lia. by injection H as <-. }
  split; [split|done..].
  - split; [by intros i k [-> ->]%Hc|by intros i j _ _ E].
  - intros lk q E. cbn in E. by rewrite lookup_empty in E.
  - intros c k [-> ->]%Hc. cbn [mach sys1]. by rewrite Hh, size_empty.
  - intros c k [-> ->]%Hc. cbn. lia.
Qed.

Lemma mapped1 l va : 0 <= va < PGSIZE -> is_mapped (sys1 l) cpu1 va.
Proof.
  intros Hva. unfold PGSIZE in Hva. unfold is_mapped, translate.
  assert (E1 : PDX va = 0).
  { unfold PDX, PDXSHIFT. rewrite u32_small, Z.shiftr_div_pow2 by lia. by rewrite Z.div_small by lia. }
  assert (E2 : PTX va = 0).
  { unfold PTX, PTXSHIFT. rewrite u32_small, Z.shiftr_div_pow2 by lia. by rewrite Z.div_small by lia. }
  assert (L1 : load32 (memory (sys1 l)) (P2V (cr3 cpu1) + 4 * 0) = 0x202007) by (vm_compute; reflexivity).
  assert (L2 : load32 (memory (sys1 l)) (P2V (PTE_ADDR 0x202007) + 4 * 0) = 0x203007) by (vm_compute; reflexivity).
  rewrite E1, E2, L1. change (Vm.present 0x202007) with true. cbv iota. rewrite L2. done.
Qed.

Lemma syscall_args_bounded_witness : exists (s : Proc.state alloc_state) k r, argptr apic1 0 0 16 s = Ok (r, seen 0 k s).
Proof.
  destruct (FsImage.booted_log ∅ 0) as (l & _); [rewrite size_empty; lia|].
  destruct (syscall_args_bounded apic1 0 (sys1 l) cpu1 0 proc1 (running1 l)) with (n := 0) as (_ & H & _).
  - unfold KERNBASE. cbn. unfold PGSIZE. lia.
  - apply mapped1.
  - destruct (H 16) as (r & R & _); [lia|]. exists (sys1 l), cpu1, r. exact R.
Defined.

End SyscallThm.
