(* ===== verification/FdInv.v ===== *)
(** * Descriptors and reference counts

    The reference count of an open file is the number of descriptors, of all
    processes, that refer to it.  This file has the invariant and a calculus for
    code that keeps it, with [d f] the references to file [f] that are held by
    local variables meanwhile. *)

From Stdlib Require Import ZArith Lia.
From stdpp Require Import base numbers strings list gmap.
From S2P Require Import Prelude Mmu Mem Kalloc Vm File Spin Proc ProcInv ProcStep ProcSched Syscall.

Open Scope Z_scope.

Import Mmu Mem Kalloc Spin Proc ProcInv ProcSched.

Module FdInv.

(** ** Counting *)

Definition fds (o : list (option Z)) (f : Z) : Z := Z.of_nat (length (filter (.= Some f) o)).

Definition count (L : list (list (option Z))) (f : Z) : Z := foldr (fun o n => fds o f + n) 0 L.

Lemma fds_cons y o f : fds (y :: o) f = (if decide (y = Some f) then 1 else 0) + fds o f.
Proof. unfold fds. rewrite filter_cons. destruct (decide (y = Some f)); cbn [length]; lia. Qed.

Lemma fds_insert o i y y' f : zlookup o i = Some y ->
  fds (zinsert i y' o) f = fds o f - (if decide (y = Some f) then 1 else 0) + (if decide (y' = Some f) then 1 else 0).
Proof.
  unfold zlookup, zinsert. destruct (0 <=? i); [|done]. generalize (Z.to_nat i). clear i. induction o as [|z o IH]; intros [|i] Hy; try done.
  - injection Hy as ->. cbn [insert list_insert]. rewrite !fds_cons. destruct (decide (y = Some f)), (decide (y' = Some f)); lia.
  - change (<[S i := y']> (z :: o)) with (z :: <[i := y']> o). rewrite !fds_cons, (IH i Hy). lia.
Qed.

Lemma count_insert L i o o' f : zlookup L i = Some o -> count (zinsert i o' L) f = count L f - fds o f + fds o' f.
Proof.
  unfold zlookup, zinsert. destruct (0 <=? i); [|done]. generalize (Z.to_nat i). clear i. induction L as [|z L IH]; intros [|i] Ho; try done.
  - injection Ho as ->. cbn. lia.
  - change (<[S i := o']> (z :: L)) with (z :: <[i := o']> L). cbn [count foldr]. fold (count L f) (count (<[i := o']> L) f). rewrite (IH i Ho). lia.
Qed.

Lemma fds_nonneg o f : 0 <= fds o f.
Proof. unfold fds. lia. Qed.

Lemma fds_pos o i f : zlookup o i = Some (Some f) -> 0 < fds o f.
Proof.
  intros Hi. pose proof (fds_insert o i (Some f) None f Hi) as E. rewrite decide_True, decide_False in E by done.
  pose proof (fds_nonneg (zinsert i None o) f). lia.
Qed.

(** One more reference. *)
Definition plus (d : Z -> Z) (f n : Z) : Z -> Z := fun g => d g + (if decide (g = f) then n else 0).

(** ** The invariant *)

(** An entry that has no open files. *)
Definition closed (x : proc) : bool := bool_decide (pstate x = UNUSED \/ pstate x = ZOMBIE).

(** The part of the state that the invariant is about. *)
Definition view : Type := list Z * list (bool * list (option Z)).

Section Inv.

Context {A : Type}.

Local Abbreviation state := (Proc.state A).

Definition pview (x : proc) : bool * list (option Z) := (closed x, ofile x).
Definition vw (s : state) : view := (map File.fref (File.ftable (fl s)), map pview (procs s)).

Record refs_ok (d : Z -> Z) (v : view) : Prop := {
  rf_count : forall f r, zlookup v.1 f = Some r -> r = count (map snd v.2) f + d f;
  rf_range : forall i b o fd f, zlookup v.2 i = Some (b, o) -> zlookup o fd = Some (Some f) -> 0 <= f < Z.of_nat (length v.1);
  rf_len : forall i b o, zlookup v.2 i = Some (b, o) -> length o = Z.to_nat NOFILE;
  rf_closed : forall i o, zlookup v.2 i = Some (true, o) -> Forall (eq None) o
}.

End Inv.

(** ** Steps of the invariant *)

Lemma refs_ext d d' v : (forall f, d' f = d f) -> refs_ok d v -> refs_ok d' v.
Proof. intros E [H1 H2 H3 H4]. split; [|done..]. intros f r Hr. rewrite E. by apply H1. Qed.

Lemma refs_fref d F P f r r' : refs_ok d (F, P) -> zlookup F f = Some r -> refs_ok (plus d f (r' - r)) (zinsert f r' F, P).
Proof.
  intros [H1 H2 H3 H4] Hr. pose proof (zlookup_lt _ _ _ Hr) as Hl. split; cbn [fst snd] in *; [|by rewrite length_zinsert|done|done].
  intros g q Hq. unfold plus. destruct (decide (g = f)) as [->|Hg].
  - rewrite zlookup_zinsert_eq in Hq by done. injection Hq as <-. pose proof (H1 f r Hr). lia.
  - rewrite zlookup_zinsert_ne in Hq by done. pose proof (H1 g q Hq). lia.
Qed.

(** One reference more or less through an optional descriptor. *)
Definition plus_opt (d : Z -> Z) (y : option Z) (n : Z) : Z -> Z := match y with Some f => plus d f n | None => d end.

Lemma refs_fd d F P p b o fd y y' : refs_ok d (F, P) -> zlookup P p = Some (b, o) -> zlookup o fd = Some y ->
  (forall f, y' = Some f -> b = false /\ 0 <= f < Z.of_nat (length F)) ->
  refs_ok (plus_opt (plus_opt d y 1) y' (-1)) (F, zinsert p (b, zinsert fd y' o) P).
Proof.
  intros [H1 H2 H3 H4] Hp Hy Hy'. pose proof (zlookup_lt _ _ _ Hp) as Hl. cbn [fst snd] in *.
  assert (HC : forall i b' o', zlookup (zinsert p (b, zinsert fd y' o) P) i = Some (b', o') ->
     (i = p /\ b' = b /\ o' = zinsert fd y' o) \/ zlookup P i = Some (b', o')).
  { intros i b' o'. destruct (decide (i = p)) as [->|Hi]; [|rewrite zlookup_zinsert_ne by done; by right].
    rewrite zlookup_zinsert_eq by done. intros [= <- <-]. by left. }
  split; cbn [fst snd].
  - intros f r Hr. rewrite (H1 f r Hr). assert (E : map snd (zinsert p (b, zinsert fd y' o) P) = zinsert p (zinsert fd y' o) (map snd P)).
    { apply (map_insert snd). }
    rewrite E, (count_insert _ p o) by (by rewrite zlookup_map, Hp).
    rewrite (fds_insert o fd y y' f Hy). unfold plus_opt, plus.
    destruct y as [g|], y' as [g'|]; repeat destruct (decide _); simplify_eq; lia.
  - intros i b' o' fd' f [(-> & -> & ->)|Hi]%HC Hf; [|by eapply H2].
    destruct (decide (fd' = fd)) as [->|Hne].
    + rewrite zlookup_zinsert_eq in Hf by (by eapply zlookup_lt). injection Hf as ->. by apply Hy'.
    + rewrite zlookup_zinsert_ne in Hf by done. by eapply H2.
  - intros i b' o' [(-> & -> & ->)|Hi]%HC; [rewrite length_zinsert|]; by eapply H3.
  - intros i o' [(-> & <- & ->)|Hi]%HC; [|by eapply H4].
    pose proof (H4 p o Hp) as Hf. destruct y' as [f|]; [by destruct (Hy' f eq_refl)|].
    unfold zinsert. destruct (0 <=? fd); [|done]. by apply Forall_insert.
Qed.

(** A process that has closed all its files, or starts with none. *)
Lemma refs_state d F P p b b' o : refs_ok d (F, P) -> zlookup P p = Some (b, o) -> (b' = true -> Forall (eq None) o) ->
  refs_ok d (F, zinsert p (b', o) P).
Proof.
  intros [H1 H2 H3 H4] Hp Hb. pose proof (zlookup_lt _ _ _ Hp) as Hl. cbn [fst snd] in *.
  assert (HC : forall i b1 o', zlookup (zinsert p (b', o) P) i = Some (b1, o') -> exists b2, zlookup P i = Some (b2, o') /\ (b1 = b2 \/ (i = p /\ b1 = b' /\ o' = o))).
  { intros i b1 o'. destruct (decide (i = p)) as [->|Hi]; [|rewrite zlookup_zinsert_ne by done; eauto].
    rewrite zlookup_zinsert_eq by done. intros [= <- <-]. eauto 10. }
  split; cbn [fst snd].
  - intros f r Hr. rewrite (H1 f r Hr). f_equal. unfold zinsert. unfold zlookup in Hp. destruct (0 <=? p); [|done].
    rewrite list_fmap_insert. cbn. rewrite list_insert_id; [done|]. by rewrite list_lookup_fmap, Hp.
  - intros i b1 o' fd f (b2 & Hi & _)%HC. by eapply H2.
  - intros i b1 o' (b2 & Hi & _)%HC. by eapply H3.
  - intros i o' (b2 & Hi & [<-|(-> & <- & ->)])%HC; [by eapply H4|by apply Hb].
Qed.

(** ** Frames *)

Create HintDb frame.

Section Frame.

Context {A : Type} `{!PageAlloc A} (lapicid : Z -> Z) (c : Z).

Local Abbreviation state := (Proc.state A).

(** Process [p] is the one that processor [c] runs. *)
Definition cur (s : state) (p : Z) : Prop := mach_ok lapicid (mach s) /\ exists k, cpu_at s c k /\ cproc k = Some p.

(** Code that keeps the part of the state, and the current process. *)
Definition frame {B} (m : ST state B) : Prop := forall s, hwp True m (fun _ s' => vw s' = vw s /\ forall p, cur s p -> cur s' p) s.

(** Code that keeps the part of the state. *)
Definition vframe {B} (m : ST state B) : Prop := forall s, hwp True m (fun _ s' => vw s' = vw s) s.

Definition fframe {B} (m : ST (File.state A) B) : Prop :=
  forall s, hwp True m (fun _ s' => map File.fref (File.ftable s') = map File.fref (File.ftable s)) s.

Lemma frame_vframe {B} (m : ST state B) : frame m -> vframe m.
Proof. intros Hm s. eapply hwp_mono; [apply Hm|]. by intros b s' [? _]. Qed.

Lemma frame_ret {B} (b : B) : frame (mret b).
Proof. by intros s. Qed.
Lemma frame_fault {B} : frame (B := B) fault.
Proof. by intros s. Qed.
Lemma frame_panic {B} m : frame (B := B) (panic m).
Proof. by intros s. Qed.
Lemma frame_blocked {B} : frame (B := B) blocked.
Proof. by intros s. Qed.
Lemma frame_fuel {B} : frame (B := B) out_of_fuel.
Proof. by intros s. Qed.

Lemma frame_bind {B C} (m : ST state B) (k : B -> ST state C) : frame m -> (forall b, frame (k b)) -> frame (m ≫= k).
Proof.
  intros Hm Hk s. apply hwp_bind. eapply hwp_mono; [apply Hm|]. intros b s' [E1 C1]. eapply hwp_mono; [apply Hk|].
  intros b' s2 [E2 C2]. split; [congruence|auto].
Qed.

Lemma vframe_bind {B C} (m : ST state B) (k : B -> ST state C) : vframe m -> (forall b, vframe (k b)) -> vframe (m ≫= k).
Proof.
  intros Hm Hk s. apply hwp_bind. eapply hwp_mono; [apply Hm|]. intros b s' E1. eapply hwp_mono; [apply Hk|].
  intros b' s2 E2. cbv beta in *. congruence.
Qed.

Lemma frame_get : frame get.
Proof. by intros s. Qed.

Lemma hwp_zoom {S T B} (E : Prop) (pj : S -> T) (inj : T -> S -> S) (m : ST T B) Q s :
  hwp E m (fun b t => Q b (inj t s)) (pj s) -> hwp E (zoom pj inj m) Q s.
Proof. unfold hwp, zoom. by destruct (m (pj s)) as [[b t]| | | |]. Qed.

Lemma hwp_True {S B} (m : ST S B) s : hwp True m (fun _ _ => True) s.
Proof. unfold hwp. by destruct (m s) as [[b t]| | | |]. Qed.

Lemma vframe_onmach {B} (m : ST Spin.mach B) : vframe (onmach m).
Proof. intros s. apply hwp_zoom. eapply hwp_mono; [apply hwp_True|]. done. Qed.

Lemma frame_onfl {B} (m : ST (File.state A) B) : fframe m -> frame (onfl m).
Proof. intros Hm s. apply hwp_zoom. eapply hwp_mono; [apply Hm|]. intros b t E. cbv beta in E. split; [|done]. unfold vw. cbn. by rewrite E. Qed.

Lemma fframe_ret {B} (b : B) : fframe (mret b).
Proof. by intros s. Qed.
Lemma fframe_get : fframe get.
Proof. by intros s. Qed.
Lemma fframe_fault {B} : fframe (B := B) fault.
Proof. by intros s. Qed.
Lemma fframe_panic {B} m : fframe (B := B) (panic m).
Proof. by intros s. Qed.
Lemma fframe_blocked {B} : fframe (B := B) blocked.
Proof. by intros s. Qed.
Lemma fframe_fuel {B} : fframe (B := B) out_of_fuel.
Proof. by intros s. Qed.

Lemma fframe_bind {B C} (m : ST (File.state A) B) (k : B -> ST (File.state A) C) : fframe m -> (forall b, fframe (k b)) -> fframe (m ≫= k).
Proof.
  intros Hm Hk s. apply hwp_bind. eapply hwp_mono; [apply Hm|]. intros b s' E1. eapply hwp_mono; [apply Hk|].
  intros b' s2 E2. cbv beta in *. congruence.
Qed.

Lemma fframe_onfs {B} (m : ST File.fsstate B) : fframe (File.onfs m).
Proof. intros s. apply hwp_zoom. eapply hwp_mono; [apply hwp_True|]. done. Qed.

Lemma fframe_pages {B} (m : ST (A * mem) B) : fframe (zoom File.pages File.set_pages m).
Proof. intros s. apply hwp_zoom. eapply hwp_mono; [apply hwp_True|]. done. Qed.

Lemma fframe_get_file f : fframe (File.get_file f).
Proof. intros s. unfold File.get_file. apply hwp_bind, hwp_get. by destruct (zlookup (File.ftable s) f). Qed.

Lemma fframe_upd_file f g : (forall x, File.fref (g x) = File.fref x) -> fframe (File.upd_file f g).
Proof.
  intros Hg s. unfold File.upd_file, File.get_file. apply hwp_bind, hwp_bind, hwp_get. destruct (zlookup (File.ftable s) f) as [x|] eqn:Hx; [|done].
  apply hwp_ret, hwp_modify. cbn. rewrite map_insert, Hg. apply zinsert_id. unfold zlookup in *. destruct (0 <=? f); [|done]. by rewrite list_lookup_fmap, Hx.
Qed.

Lemma fframe_lock : fframe File.acquire /\ fframe File.release.
Proof. split; intros s; unfold File.acquire, File.release; apply hwp_bind, hwp_get; destruct (File.ftlock s); done. Qed.

Lemma fframe_pipes g : fframe (modify (fun s => File.set_pipes (g (File.pipes s)) s)).
Proof. by intros s. Qed.

Lemma frame_onpages {B} (m : ST (A * mem) B) : frame (onpages m).
Proof. apply frame_onfl, fframe_pages. Qed.

Lemma frame_get_proc p : frame (get_proc p).
Proof. intros s. unfold get_proc. apply hwp_bind, hwp_get. by destruct (zlookup (procs s) p). Qed.

Lemma frame_get_cpu i : frame (get_cpu i).
Proof.
  intros s. unfold get_cpu. apply hwp_zoom. unfold Spin.get_cpu. apply hwp_bind, hwp_get. destruct (zlookup (cpus (mach s)) i); [|done].
  apply hwp_ret. split; [done|]. by destruct s.
Qed.

Lemma frame_upd_proc p f : (forall x, pview (f x) = pview x) -> frame (upd_proc p f).
Proof.
  intros Hf s. unfold upd_proc, get_proc. apply hwp_bind, hwp_bind, hwp_get. destruct (zlookup (procs s) p) as [x|] eqn:Hx; [|done].
  apply hwp_ret, hwp_modify. split; [|done]. unfold vw. cbn. f_equal. rewrite map_insert, Hf. apply zinsert_id. by rewrite zlookup_map, Hx.
Qed.

(** [myproc] of the process that runs. *)
Lemma hwp_current s p Q : cur s p -> (forall s', vw s' = vw s -> cur s' p -> Q p s') -> hwp True (curproc lapicid c) Q s.
Proof.
  intros [Hok (k & Hk & Hp)] HQ. eapply hwp_curproc; [exact Hok|exact Hk|exact Hp|]. apply HQ; [done|].
  destruct (touch_fields k) as (E1 & E2 & E3 & E4 & _). split; [by eapply mach_ok_set|]. exists (touch k).
  split; [apply zlookup_zinsert_eq; by eapply zlookup_lt|congruence].
Qed.

Lemma frame_acquire lk : frame (acquire lapicid c lk).
Proof.
  intros s. unfold hwp. destruct (acquire lapicid c lk s) as [[[] s']| | | |] eqn:R; try exact I. split.
  { pose proof (vframe_onmach (Spin.acquire lapicid c lk) s) as Hv. unfold hwp in Hv. unfold acquire in R. by rewrite R in Hv. }
  intros p (Hok & k & Hk & Hp). destruct (locks (mach s) !! lk) as [l|] eqn:El.
  2: { pose proof (acquire_missing lapicid True c s k lk (fun _ _ => False) Hok Hk El I) as Hm. unfold hwp in Hm. by rewrite R in Hm. }
  pose proof (mo_ncli _ _ Hok c k Hk) as Hn. revert R. unfold acquire, onmach, zoom.
  rewrite (acquire_spec lapicid c k (mach s) lk l) by (apply Hok || done || lia). destruct (held_by l c); [done|].
  destruct (Z.eqb_spec (locked l) 0) as [E0|]; [|done]. intros [= <-]. split; [by eapply mach_ok_acquired|].
  exists (pushed k). split; [apply zlookup_zinsert_eq; by eapply zlookup_lt|done].
Qed.

Lemma vframe_curproc : vframe (curproc lapicid c).
Proof.
  unfold curproc, myproc. repeat (apply vframe_bind; [|intros ?]); try apply vframe_onmach; try apply frame_vframe, frame_ret.
  match goal with |- vframe (match ?o with _ => _ end) => destruct o end; apply frame_vframe; [apply frame_ret|apply frame_fault].
Qed.

End Frame.

#[export] Hint Resolve frame_ret frame_fault frame_panic frame_blocked frame_fuel frame_get frame_onfl frame_onpages frame_get_proc frame_get_cpu
  frame_upd_proc frame_acquire vframe_onmach vframe_curproc fframe_ret fframe_get fframe_fault fframe_panic fframe_blocked fframe_fuel fframe_onfs fframe_pages
  fframe_get_file fframe_upd_file fframe_pipes : frame.

#[export] Hint Extern 1 (pview _ = pview _) => reflexivity : frame.
#[export] Hint Extern 1 (File.fref _ = File.fref _) => reflexivity : frame.

(** Frames of code that is put together from framed parts. *)
Ltac frame_step :=
  first
    [ progress intros
    | solve [auto with frame nocore]
    | match goal with |- context [match ?x with _ => _ end] => destruct x end
    | apply frame_bind
    | apply vframe_bind
    | apply fframe_bind
    | apply frame_vframe ].
Ltac frame := repeat frame_step.

End FdInv.
