(* ===== verification/FdThm.v ===== *)
(** * The system calls keep the reference counts *)

From Stdlib Require Import ZArith Lia.
From stdpp Require Import base numbers strings list gmap.
From S2P Require Import Prelude Mmu Mem Kalloc Vm FsImage File Spin Proc ProcInv ProcStep ProcFork Syscall Exec Sysfile Trap SyscallThm FdInv.

Open Scope Z_scope.

Import Mmu Mem Kalloc Spin Proc ProcInv ProcStep Syscall FdInv.

Module FdThm.

Section Fd.

Context {A : Type} `{!PageAlloc A} (lapicid : Z -> Z) (c : Z).

Local Abbreviation state := (Proc.state A).
Local Abbreviation cur := (cur (A := A) lapicid c).
Local Abbreviation frame := (frame (A := A) lapicid c).
Local Abbreviation vframe := (vframe (A := A)).

(** ** Frames of the arguments *)

Lemma vf {B} (m : ST state B) : frame m -> vframe m.
Proof. apply frame_vframe. Qed.

#[local] Hint Resolve vf : frame.

(** The state while process [p] runs: the invariant with [d], and [p] is alive. *)
Record J (p : Z) (d : Z -> Z) (s : state) : Prop := {
  j_cur : cur s p;
  j_refs : refs_ok d (vw s);
  j_open : exists o, zlookup (vw s).2 p = Some (false, o)
}.

Lemma J_frame {B} (m : ST state B) p d s : frame m -> J p d s -> hwp True m (fun _ s' => J p d s' /\ vw s' = vw s) s.
Proof. intros Hm [H1 H2 H3]. eapply hwp_mono; [apply Hm|]. intros b s' [E HC]. split; [|done]. split; [auto|by rewrite E..]. Qed.

Lemma hwp_J {B C} (m : ST state B) (k : B -> ST state C) Q p d s : frame m -> J p d s ->
  (forall b s', J p d s' -> vw s' = vw s -> hwp True (k b) Q s') -> hwp True (m ≫= k) Q s.
Proof. intros Hm HJ HQ. apply hwp_bind. eapply hwp_mono; [by apply J_frame|]. intros b s' [H1 H2]. by apply HQ. Qed.

Lemma hwp_J_cur {C} (k : Z -> ST state C) Q p d s : J p d s ->
  (forall s', J p d s' -> vw s' = vw s -> hwp True (k p) Q s') -> hwp True (curproc lapicid c ≫= k) Q s.
Proof.
  intros [H1 H2 H3] HQ. apply hwp_bind. eapply hwp_current; [exact H1|]. intros s' E HC. apply HQ; [|done]. split; [done|by rewrite E..].
Qed.

Lemma frame_curproc : frame (curproc lapicid c).
Proof.
  intros s. unfold hwp. destruct (curproc lapicid c s) as [[q s']| | | |] eqn:R; try done. split.
  - pose proof (vframe_curproc lapicid c s) as Hv. unfold hwp in Hv. by rewrite R in Hv.
  - intros p Hp. pose proof (hwp_current lapicid c s p (fun _ s' => cur s' p) Hp (fun s' _ H => H)) as HC. unfold hwp in HC. by rewrite R in HC.
Qed.

Lemma frame_uload8 va : frame (uload8 c va).
Proof. unfold uload8, get_mem. frame. Qed.

Lemma frame_ustore8 va v : frame (ustore8 c va v).
Proof. unfold ustore8, get_mem. frame. Qed.

#[local] Hint Resolve frame_curproc frame_uload8 frame_ustore8 : frame.

Lemma frame_uloads n : forall va, frame (uloads c n va).
Proof. induction n as [|n IH]; intros va; cbn [uloads]; frame. Qed.

Lemma frame_ustores l : forall va, frame (ustores c va l).
Proof. induction l as [|b l IH]; intros va; cbn [ustores]; frame. Qed.

#[local] Hint Resolve frame_uloads frame_ustores : frame.

Lemma frame_fetchint a : frame (fetchint lapicid c a).
Proof. unfold fetchint, uload32. frame. Qed.

Lemma frame_fetchstr_loop n : forall a e, frame (fetchstr_loop c n a e).
Proof. induction n as [|n IH]; intros a e; cbn [fetchstr_loop]; frame. Qed.

#[local] Hint Resolve frame_fetchint frame_fetchstr_loop : frame.

Lemma frame_argint n : frame (argint lapicid c n).
Proof. unfold argint. frame. Qed.
Lemma frame_fetchstr n : frame (fetchstr lapicid c n).
Proof. unfold fetchstr. frame. Qed.

#[local] Hint Resolve frame_argint frame_fetchstr : frame.

Lemma frame_argptr n z : frame (argptr lapicid c n z).
Proof. unfold argptr. frame. Qed.
Lemma frame_argstr n : frame (argstr lapicid c n).
Proof. unfold argstr. frame. Qed.
Lemma frame_argfd n : frame (Sysfile.argfd lapicid c n).
Proof. unfold Sysfile.argfd. frame. Qed.
Lemma frame_ustore32 a v : frame (ustore32 c a v).
Proof. unfold ustore32. frame. Qed.

#[local] Hint Resolve frame_argptr frame_argstr frame_argfd frame_ustore32 : frame.

(** ** Files *)

(** The invariant inside the file layer, for the descriptors [P]. *)
Definition FJ (n : nat) (P : list (bool * list (option Z))) (d : Z -> Z) (t : File.state A) : Prop :=
  refs_ok d (map File.fref (File.ftable t), P) /\ length (File.ftable t) = n.

Lemma FJ_ext n P d d' t : (forall f, d' f = d f) -> FJ n P d t -> FJ n P d' t.
Proof. intros E [H1 H2]. split; [by eapply refs_ext|done]. Qed.

Lemma FJ_frame {B} (m : ST (File.state A) B) n P d t : fframe m -> FJ n P d t -> hwp True m (fun _ t' => FJ n P d t') t.
Proof.
  intros Hm [H1 H2]. eapply hwp_mono; [apply Hm|]. intros b t' E. cbv beta in E. split; [by rewrite E|].
  by rewrite <- H2, <- (length_map File.fref), E, length_map.
Qed.

Lemma hwp_FJ {B C} (m : ST (File.state A) B) (k : B -> ST (File.state A) C) Q n P d t : fframe m -> FJ n P d t ->
  (forall b t', FJ n P d t' -> hwp True (k b) Q t') -> hwp True (m ≫= k) Q t.
Proof. intros Hm HJ HQ. apply hwp_bind. eapply hwp_mono; [by apply FJ_frame|]. intros b t' H. by apply HQ. Qed.

(** A change of a reference count. *)
Lemma hwp_FJ_upd n P d t f x g Q : FJ n P d t -> zlookup (File.ftable t) f = Some x ->
  (forall t', FJ n P (plus d f (File.fref (g x) - File.fref x)) t' -> zlookup (File.ftable t') f = Some (g x) -> File.ftlock t' = File.ftlock t -> Q tt t') ->
  hwp True (File.upd_file f g) Q t.
Proof.
  intros [H1 H2] Hx HQ. unfold File.upd_file, File.get_file. apply hwp_bind, hwp_bind, hwp_get. rewrite Hx. apply hwp_ret, hwp_modify. apply HQ.
  - split; cbn; [|by rewrite length_zinsert]. rewrite map_insert. apply refs_fref; [done|]. by rewrite zlookup_map, Hx.
  - cbn. apply zlookup_zinsert_eq. by eapply zlookup_lt.
  - done.
Qed.

Lemma hwp_get_file (t : File.state A) f Q : (forall x, zlookup (File.ftable t) f = Some x -> Q x t) -> hwp True (File.get_file f) Q t.
Proof. intros HQ. unfold File.get_file. apply hwp_bind, hwp_get. destruct (zlookup (File.ftable t) f); [|done]. by apply hwp_ret, HQ. Qed.

Lemma hwp_FJ_lock n P d (t : File.state A) Q : FJ n P d t -> (forall t', FJ n P d t' -> File.ftable t' = File.ftable t -> Q tt t') -> hwp True File.acquire Q t.
Proof. intros H HQ. unfold File.acquire. apply hwp_bind, hwp_get. destruct (File.ftlock t); [done|]. apply hwp_modify. by apply HQ. Qed.

Lemma find_file_spec l : forall f q, File.find_file l q = Some f -> exists x, zlookup l (f - q) = Some x /\ File.fref x = 0 /\ q <= f.
Proof.
  induction l as [|x l IH]; intros f q; [done|]. cbn. destruct (Z.eqb_spec (File.fref x) 0) as [E|E].
  - intros [= <-]. exists x. rewrite Z.sub_diag. split; [done|]. split; [done|lia].
  - intros (y & Hy & Hr & Hq)%IH. exists y. split; [|split; [done|lia]]. rewrite <- Hy. unfold zlookup. rewrite !(proj2 (Z.leb_le 0 _)) by lia.
    by replace (Z.to_nat (f - q)) with (S (Z.to_nat (f - (q + 1)))) by lia.
Qed.

Lemma filealloc_J n P d t : FJ n P d t ->
  hwp True File.filealloc (fun r t' => match r with None => FJ n P d t' | Some f => FJ n P (plus d f 1) t' /\ 0 <= f < Z.of_nat n end) t.
Proof.
  intros H. unfold File.filealloc. apply hwp_bind. eapply hwp_FJ_lock; [exact H|]. intros t1 H1 _. apply hwp_bind, hwp_get.
  destruct (File.find_file (File.ftable t1) 0) as [f|] eqn:Ef.
  - apply find_file_spec in Ef as (x & Hx & Hr & _). rewrite Z.sub_0_r in Hx. apply hwp_bind. eapply hwp_FJ_upd; [exact H1|exact Hx|].
    intros t2 H2 _ _. cbn [File.fref File.set_fref] in H2. rewrite Hr in H2. eapply hwp_FJ; [apply (fframe_lock)|exact H2|]. intros _ t3 H3. apply hwp_ret.
    split; [done|]. pose proof (zlookup_lt _ _ _ Hx). destruct H1 as [_ <-]. done.
  - eapply hwp_FJ; [apply fframe_lock|exact H1|]. intros _ t2 H2. by apply hwp_ret.
Qed.

Lemma filedup_J n P d t f : FJ n P d t -> hwp True (File.filedup f) (fun g t' => g = f /\ FJ n P (plus d f 1) t') t.
Proof.
  intros H. unfold File.filedup. apply hwp_bind. eapply hwp_FJ_lock; [exact H|]. intros t1 H1 _. apply hwp_bind, hwp_get_file. intros x Hx.
  destruct (File.fref x <? 1); [done|]. apply hwp_bind. eapply hwp_FJ_upd; [exact H1|exact Hx|]. intros t2 H2 _ _. cbn [File.fref File.set_fref] in H2.
  assert (H2' : FJ n P (plus d f 1) t2) by (eapply FJ_ext; [|exact H2]; intros g; unfold plus; destruct (decide (g = f)); lia).
  eapply hwp_FJ; [apply fframe_lock|exact H2'|]. intros _ t3 H3. by apply hwp_ret.
Qed.

Lemma fframe_pipeclose p w : fframe (A := A) (File.pipeclose p w).
Proof. unfold File.pipeclose, File.kfree. frame. Qed.

Lemma fileclose_J n P d t pid ds f : FJ n P d t -> hwp True (File.fileclose pid ds f) (fun _ t' => FJ n P (plus d f (-1)) t') t.
Proof.
  intros H. unfold File.fileclose. apply hwp_bind. eapply hwp_FJ_lock; [exact H|]. intros t1 H1 _. apply hwp_bind, hwp_get_file. intros x Hx.
  destruct (Z.ltb_spec (File.fref x) 1) as [|Hr]; [done|]. apply hwp_bind. eapply hwp_FJ_upd; [exact H1|exact Hx|]. intros t2 H2 Hx2 _.
  assert (H2' : FJ n P (plus d f (-1)) t2) by (eapply FJ_ext; [|exact H2]; intros g; unfold plus; cbn; destruct (decide (g = f)); lia).
  destruct (Z.ltb_spec 0 (File.fref x - 1)) as [Hgt|Hle].
  { eapply hwp_mono; [apply FJ_frame; [apply fframe_lock|exact H2']|]. done. }
  apply hwp_bind, hwp_get_file. intros ff Hff. rewrite Hx2 in Hff. injection Hff as <-.
  apply hwp_bind. eapply hwp_FJ_upd; [exact H2'|exact Hx2|]. intros t3 H3 Hx3 _. apply hwp_bind. eapply hwp_FJ_upd; [exact H3|exact Hx3|]. intros t4 H4 _ _.
  assert (H4' : FJ n P (plus d f (-1)) t4) by (eapply FJ_ext; [|exact H4]; intros g; unfold plus; cbn; destruct (decide (g = f)); lia).
  eapply hwp_FJ; [apply fframe_lock|exact H4'|]. intros _ t5 H5. eapply hwp_mono; [apply FJ_frame; [|exact H5]|done].
  destruct (File.ftype _); [frame|apply fframe_pipeclose|unfold File.begin_op, File.end_op; frame].
Qed.

Lemma pipealloc_J n P d t pid ds junk : FJ n P d t -> hwp True (File.pipealloc pid ds junk)
  (fun r t' => match r with None => FJ n P d t' | Some (r, w) => FJ n P (plus (plus d r 1) w 1) t' /\ 0 <= r < Z.of_nat n /\ 0 <= w < Z.of_nat n end) t.
Proof.
  intros H. unfold File.pipealloc. apply hwp_bind. eapply hwp_mono; [by apply filealloc_J|]. intros [r|] t1 H1; [|by apply hwp_ret].
  destruct H1 as [H1 Hr]. apply hwp_bind. eapply hwp_mono; [apply filealloc_J; exact H1|]. intros [w|] t2 H2.
  2: { apply hwp_bind. eapply hwp_mono; [apply fileclose_J; eassumption|]. cbv beta. intros ? t3 H3. apply hwp_ret. eapply FJ_ext; [|exact H3].
       intros g. unfold plus. destruct (decide (g = r)); lia. }
  destruct H2 as [H2 Hw]. unfold File.kalloc. eapply hwp_FJ; [apply fframe_pages|exact H2|]. intros q t3 H3. destruct (q =? 0).
  - apply hwp_bind. eapply hwp_mono; [apply fileclose_J; eassumption|]. cbv beta. intros ? t4 H4. apply hwp_bind. eapply hwp_mono; [apply fileclose_J; eassumption|]; cbv beta.
    intros ? t5 H5. apply hwp_ret. eapply FJ_ext; [|exact H5]. intros g. unfold plus. destruct (decide (g = r)), (decide (g = w)); lia.
  - eapply hwp_FJ; [apply fframe_pipes with (g := fun p => <[q := Pipe.Pipe.pipe_new junk]> p)|exact H3|]. intros ? t4 H4.
    eapply hwp_FJ; [by apply fframe_upd_file|exact H4|]. intros ? t5 H5. eapply hwp_FJ; [by apply fframe_upd_file|exact H5|]. intros ? t6 H6.
    by apply hwp_ret.
Qed.

(** ** The calls *)

Lemma hwp_vf {B C} (m : ST state B) (k : B -> ST state C) Q s : vframe m ->
  (forall b s', vw s' = vw s -> hwp True (k b) Q s') -> hwp True (m ≫= k) Q s.
Proof. intros Hm HQ. apply hwp_bind. eapply hwp_mono; [by apply Hm|]. intros b s' E. by apply HQ. Qed.

Lemma hwp_fl {B} (m : ST (File.state A) B) d s Q : refs_ok d (vw s) ->
  hwp True m (fun b t => exists d', FJ (length (vw s).1) (vw s).2 d' t /\
    forall s', refs_ok d' (vw s') -> (vw s').2 = (vw s).2 -> length (vw s').1 = length (vw s).1 -> (forall p, cur s p -> cur s' p) -> Q b s') (fl s) ->
  hwp True (onfl m) Q s.
Proof.
  intros H1 Hm. apply hwp_zoom. eapply hwp_mono; [exact Hm|]. intros b t (d' & [H4 H5] & HQ). apply HQ; [exact H4|done|cbn in *; rewrite !length_map in *; done|done].
Qed.

Lemma refs_FJ d (s : state) : refs_ok d (vw s) -> FJ (length (vw s).1) (vw s).2 d (fl s).
Proof. intros H. split; [exact H|]. cbn. by rewrite length_map. Qed.

Lemma view_proc (s : state) p b o : zlookup (vw s).2 p = Some (b, o) -> exists x, zlookup (procs s) p = Some x /\ closed x = b /\ ofile x = o.
Proof. cbn. rewrite zlookup_map. destruct (zlookup (procs s) p) as [x|]; [|done]. intros [= <- <-]. by exists x. Qed.

(** A change of an entry of the table that keeps the descriptors. *)
Lemma hwp_entry d (s : state) p b b' o f Q : refs_ok d (vw s) -> zlookup (vw s).2 p = Some (b, o) ->
  (forall x, closed x = b -> ofile x = o -> pview (f x) = (b', o)) -> (b' = true -> Forall (eq None) o) ->
  (forall s', refs_ok d (vw s') -> vw s' = ((vw s).1, zinsert p (b', o) (vw s).2) -> (forall q, cur s q -> cur s' q) -> Q tt s') ->
  hwp True (upd_proc p f) Q s.
Proof.
  intros H Hp Hf Hb HQ. destruct (view_proc s p b o Hp) as (x & Hx & Ec & Eo). eapply hwp_upd_proc; [exact Hx|].
  assert (EV : vw (set_procs (zinsert p (f x) (procs s)) s) = ((vw s).1, zinsert p (b', o) (vw s).2)).
  { unfold vw. cbn. by rewrite map_insert, (Hf x Ec Eo). }
  apply HQ; [|exact EV|done]. rewrite EV. eapply refs_state; [by destruct (vw s)|exact Hp|done].
Qed.

(** A change of a descriptor. *)
Lemma hwp_fd d (s : state) p fd o y y' Q : refs_ok d (vw s) -> zlookup (vw s).2 p = Some (false, o) -> zlookup o fd = Some y ->
  (forall f, y' = Some f -> 0 <= f < Z.of_nat (length (vw s).1)) ->
  (forall s', refs_ok (plus_opt (plus_opt d y 1) y' (-1)) (vw s') -> vw s' = ((vw s).1, zinsert p (false, zinsert fd y' o) (vw s).2) ->
     (forall q, cur s q -> cur s' q) -> Q tt s') ->
  hwp True (upd_proc p (fun x => set_ofile (zinsert fd y' (ofile x)) x)) Q s.
Proof.
  intros H Ho Hy Hr HQ. destruct (view_proc s p false o Ho) as (x & Hx & Ec & Eo). eapply hwp_upd_proc; [exact Hx|].
  assert (EV : vw (set_procs (zinsert p (set_ofile (zinsert fd y' (ofile x)) x) (procs s)) s) = ((vw s).1, zinsert p (false, zinsert fd y' o) (vw s).2)).
  { unfold vw. cbn. rewrite map_insert. unfold pview at 1. cbn. rewrite Eo. change (closed (set_ofile _ x)) with (closed x). by rewrite Ec. }
  apply HQ; [|exact EV|done]. rewrite EV. eapply refs_fd; [by destruct (vw s)|exact Ho|exact Hy|]. intros f Hf. split; [done|by apply Hr].
Qed.

Lemma hwp_J_fl {B} (m : ST (File.state A) B) p d s Q : J p d s ->
  hwp True m (fun b t => exists d', FJ (length (vw s).1) (vw s).2 d' t /\
    forall s', J p d' s' -> (vw s').2 = (vw s).2 -> length (vw s').1 = length (vw s).1 -> Q b s') (fl s) -> hwp True (onfl m) Q s.
Proof.
  intros [H1 H2 H3] Hm. eapply hwp_fl; [exact H2|]. eapply hwp_mono; [exact Hm|]. intros b t (d' & H4 & HQ). exists d'. split; [exact H4|].
  intros s' H5 E5 L5 C5. apply HQ; [|done|done]. split; [auto|done|by rewrite E5].
Qed.

Lemma J_FJ p d s : J p d s -> FJ (length (vw s).1) (vw s).2 d (fl s).
Proof. intros [_ H _]. by apply refs_FJ. Qed.

Lemma J_ext p d d' s : (forall f, d' f = d f) -> J p d s -> J p d' s.
Proof. intros E [H1 H2 H3]. split; [done|by eapply refs_ext|done]. Qed.

Lemma hwp_J_fd p d s fd o y y' Q : J p d s -> zlookup (vw s).2 p = Some (false, o) -> zlookup o fd = Some y ->
  (forall f, y' = Some f -> 0 <= f < Z.of_nat (length (vw s).1)) ->
  (forall s', J p (plus_opt (plus_opt d y 1) y' (-1)) s' -> (vw s').1 = (vw s).1 -> zlookup (vw s').2 p = Some (false, zinsert fd y' o) -> Q tt s') ->
  hwp True (upd_proc p (fun x => set_ofile (zinsert fd y' (ofile x)) x)) Q s.
Proof.
  intros [H1 H2 H3] Ho Hy Hr HQ. eapply hwp_fd; [exact H2|exact Ho|exact Hy|exact Hr|]. intros s' H' E' C'.
  assert (Hl : zlookup (vw s').2 p = Some (false, zinsert fd y' o)).
  { rewrite E'. apply zlookup_zinsert_eq. by eapply zlookup_lt. }
  apply HQ; [|by rewrite E'|done]. split; [auto|done|eauto].
Qed.

Lemma find_fd_spec o : forall fd q, Sysfile.find_fd o q = Some fd -> zlookup o (fd - q) = Some None /\ q <= fd.
Proof.
  induction o as [|[y|] o IH]; intros fd q; [done| |]; cbn.
  - intros [Hy Hq]%IH. split; [|lia]. rewrite <- Hy. unfold zlookup. rewrite !(proj2 (Z.leb_le 0 _)) by lia.
    by replace (Z.to_nat (fd - q)) with (S (Z.to_nat (fd - (q + 1)))) by lia.
  - intros [= <-]. rewrite Z.sub_diag. split; [done|lia].
Qed.

Lemma fdalloc_J f p d s Q : J p d s -> 0 <= f < Z.of_nat (length (vw s).1) ->
  (forall s', J p d s' -> vw s' = vw s -> Q (-1) s') ->
  (forall fd s' o, 0 <= fd -> J p (plus d f (-1)) s' -> (vw s').1 = (vw s).1 -> zlookup (vw s').2 p = Some (false, o) ->
     zlookup o fd = Some (Some f) -> Q fd s') ->
  hwp True (Sysfile.fdalloc lapicid c f) Q s.
Proof.
  intros HJ Hf HN HS. unfold Sysfile.fdalloc. eapply hwp_J_cur; [exact HJ|]. intros s1 HJ1 E1. apply hwp_bind.
  destruct (j_open _ _ _ HJ1) as [o Ho]. pose proof Ho as Ho'. cbn in Ho'. rewrite zlookup_map in Ho'.
  destruct (zlookup (procs s1) p) as [x|] eqn:Hx; [|done]. eapply hwp_get_proc; [exact Hx|]. cbn in Ho'. injection Ho' as _ Eo. rewrite Eo.
  destruct (Sysfile.find_fd o 0) as [fd|] eqn:Ef; [|apply hwp_ret; by apply HN].
  apply find_fd_spec in Ef as [Hn H0]. rewrite Z.sub_0_r in Hn. apply hwp_bind. eapply hwp_J_fd; [exact HJ1|exact Ho|exact Hn| |].
  - intros g [= <-]. by rewrite E1.
  - intros s2 HJ2 E2 Ho2. apply hwp_ret. eapply HS; [done|exact HJ2|by rewrite E2, E1|exact Ho2|]. apply zlookup_zinsert_eq. by eapply zlookup_lt.
Qed.

(** A descriptor that [argfd] returns. *)
Lemma argfd_J n p d s Q : J p d s -> (forall s', J p d s' -> vw s' = vw s -> Q None s') ->
  (forall fd f o s', J p d s' -> vw s' = vw s -> zlookup (vw s).2 p = Some (false, o) -> zlookup o fd = Some (Some f) -> Q (Some (fd, f)) s') ->
  hwp True (Sysfile.argfd lapicid c n) Q s.
Proof.
  intros HJ HN HS. unfold Sysfile.argfd. eapply hwp_J; [apply frame_argint|exact HJ|]. intros [fd|] s1 HJ1 E1; [|apply hwp_ret; by apply HN].
  destruct ((fd <? 0) || (NOFILE <=? fd)); [apply hwp_ret; by apply HN|]. eapply hwp_J_cur; [exact HJ1|]. intros s2 HJ2 E2. apply hwp_bind.
  destruct (j_open _ _ _ HJ2) as [o Ho]. pose proof Ho as Ho'. cbn in Ho'. rewrite zlookup_map in Ho'.
  destruct (zlookup (procs s2) p) as [x|] eqn:Hx; [|done]. eapply hwp_get_proc; [exact Hx|]. cbn in Ho'. injection Ho' as _ Eo. rewrite Eo.
  destruct (zlookup o fd) as [[f|]|] eqn:Hf; [|apply hwp_ret; apply HN; [done|congruence]|done].
  apply hwp_ret. eapply HS; [done|congruence| |exact Hf]. by rewrite <- E1, <- E2.
Qed.

Lemma J_range p d s o fd f : J p d s -> zlookup (vw s).2 p = Some (false, o) -> zlookup o fd = Some (Some f) -> 0 <= f < Z.of_nat (length (vw s).1).
Proof. intros [_ [_ H _ _] _]. apply H. Qed.

Lemma sys_dup_J p s : J p (fun _ => 0) s -> hwp True (Sysfile.sys_dup lapicid c) (fun _ s' => J p (fun _ => 0) s') s.
Proof.
  intros HJ. unfold Sysfile.sys_dup. apply hwp_bind. eapply argfd_J; [exact HJ|intros s1 HJ1 _; by apply hwp_ret|]. intros fd f o s1 HJ1 E1 Ho Hf.
  apply hwp_bind. eapply fdalloc_J; [exact HJ1|rewrite E1; by eapply J_range| |].
  - intros s2 HJ2 _. by apply hwp_ret.
  - intros fd' s2 o' H0 HJ2 E2 _ _. rewrite (proj2 (Z.ltb_ge _ _)) by lia. apply hwp_bind. eapply hwp_J_fl; [exact HJ2|].
    eapply hwp_mono; [apply filedup_J; eapply J_FJ; exact HJ2|]. intros g t [_ HFJ]. eexists. split; [exact HFJ|]. intros s3 HJ3 _ _. apply hwp_ret.
    eapply J_ext; [|exact HJ3]. intros g'. unfold plus. destruct (decide (g' = f)); lia.
Qed.

Lemma sys_close_J ds p s : J p (fun _ => 0) s -> hwp True (Sysfile.sys_close lapicid c ds) (fun _ s' => J p (fun _ => 0) s') s.
Proof.
  intros HJ. unfold Sysfile.sys_close. apply hwp_bind. eapply argfd_J; [exact HJ|intros s1 HJ1 _; by apply hwp_ret|]. intros fd f o s1 HJ1 E1 Ho Hf.
  eapply hwp_J_cur; [exact HJ1|]. intros s2 HJ2 E2. apply hwp_bind. eapply hwp_J_fd; [exact HJ2|by rewrite E2, E1|exact Hf|done|]. intros s3 HJ3 _ _.
  eapply hwp_J; [apply frame_get_proc|exact HJ3|]. intros x s4 HJ4 _. apply hwp_bind. eapply hwp_J_fl; [exact HJ4|].
  eapply hwp_mono; [apply fileclose_J; eapply J_FJ; exact HJ4|]. intros g t HFJ. eexists. split; [exact HFJ|]. intros s5 HJ5 _ _. apply hwp_ret.
  eapply J_ext; [|exact HJ5]. intros g'. unfold plus_opt, plus. destruct (decide (g' = f)); lia.
Qed.

Lemma frame_fs {B} (m : ST File.fsstate B) : frame (Exec.onfs m).
Proof. unfold Exec.onfs. frame. Qed.
Lemma frame_begin_op : frame Exec.begin_op.
Proof. unfold Exec.begin_op, File.begin_op. frame. Qed.
Lemma frame_end_op ds pid : frame (Exec.end_op ds pid).
Proof. unfold Exec.end_op, File.end_op. frame. Qed.
Lemma frame_whoami : frame (Sysfile.whoami lapicid c).
Proof. unfold Sysfile.whoami. frame. Qed.
Lemma frame_onvm {B} (m : ST ((A * File.fsstate) * mem) B) : frame (Exec.onvm m).
Proof. unfold Exec.onvm. apply frame_onfl. intros s. apply hwp_zoom. eapply hwp_mono; [apply hwp_True|]. done. Qed.

#[local] Hint Resolve frame_fs frame_begin_op frame_end_op frame_whoami frame_onvm : frame.

Lemma open_file_J ds pid p s : J p (fun _ => 0) s -> hwp True (Sysfile.open_file lapicid c ds pid) (fun _ s' => J p (fun _ => 0) s') s.
Proof.
  intros HJ. unfold Sysfile.open_file. apply hwp_bind. eapply hwp_J_fl; [exact HJ|]. eapply hwp_mono; [apply filealloc_J; eapply J_FJ; exact HJ|].
  intros [f|] t H1; [|exists (fun _ => 0); split; [exact H1|]; intros s1 HJ1 _ _; by apply hwp_ret].
  destruct H1 as [H1 Hf]. eexists. split; [exact H1|]. intros s1 HJ1 _ L1. apply hwp_bind. eapply fdalloc_J; [exact HJ1|by rewrite L1| |].
  - intros s2 HJ2 _. change (-1 <? 0) with true. apply hwp_bind. eapply hwp_J_fl; [exact HJ2|]. eapply hwp_mono; [apply fileclose_J; eapply J_FJ; exact HJ2|].
    intros g t2 H2. eexists. split; [exact H2|]. intros s3 HJ3 _ _. apply hwp_ret. eapply J_ext; [|exact HJ3].
    intros g'. unfold plus. destruct (decide (g' = f)); lia.
  - intros fd s2 o H0 HJ2 _ _ _. rewrite (proj2 (Z.ltb_ge _ _)) by lia. apply hwp_ret. eapply J_ext; [|exact HJ2].
    intros g'. unfold plus. destruct (decide (g' = f)); lia.
Qed.

(** ** The invariant after a call *)

Definition RJ (s : state) : Prop := refs_ok (fun _ => 0) (vw s).

Lemma J_RJ p s : J p (fun _ => 0) s -> RJ s.
Proof. apply j_refs. Qed.

Lemma hwp_J_RJ {B} (m : ST state B) p s : frame m -> J p (fun _ => 0) s -> hwp True m (fun _ s' => RJ s') s.
Proof. intros Hm HJ. eapply hwp_mono; [by apply J_frame|]. intros b s' [H _]. by eapply J_RJ. Qed.

Lemma hwp_RJ {B} (m : ST state B) s : vframe m -> RJ s -> hwp True m (fun _ s' => RJ s') s.
Proof. intros Hm H. eapply hwp_mono; [apply Hm|]. intros b s' E. cbv beta in E. unfold RJ. by rewrite E. Qed.

Lemma sys_open_J ds devread devwrite p s : J p (fun _ => 0) s -> hwp True (Sysfile.sys_open lapicid c ds devread devwrite) (fun _ s' => RJ s') s.
Proof.
  intros HJ. unfold Sysfile.sys_open. eapply hwp_J; [apply frame_argstr|exact HJ|]. intros [[? path]|] s1 HJ1 _; [|apply hwp_ret; by eapply J_RJ].
  eapply hwp_J; [apply frame_argint|exact HJ1|]. intros [omode|] s2 HJ2 _; [|apply hwp_ret; by eapply J_RJ].
  eapply hwp_J; [apply frame_whoami|exact HJ2|]. intros [[? pid] cwd] s3 HJ3 _. eapply hwp_J; [apply frame_begin_op|exact HJ3|]. intros _ s4 HJ4 _.
  eapply hwp_J; [apply frame_fs|exact HJ4|]. intros [ip|] s5 HJ5 _; [|eapply hwp_J_RJ; [frame|exact HJ5]].
  apply hwp_bind. eapply hwp_mono; [apply open_file_J; exact HJ5|]. intros [[f fd]|] s6 HJ6; eapply hwp_J_RJ; [|exact HJ6| |exact HJ6].
  - frame.
  - frame.
Qed.

Lemma sys_pipe_J ds junk p s : J p (fun _ => 0) s -> hwp True (Sysfile.sys_pipe lapicid c ds junk) (fun _ s' => RJ s') s.
Proof.
  intros HJ. unfold Sysfile.sys_pipe. eapply hwp_J; [apply frame_argptr|exact HJ|]. intros [q|] s1 HJ1 _; [|apply hwp_ret; by eapply J_RJ].
  eapply hwp_J_cur; [exact HJ1|]. intros s2 HJ2 _. eapply hwp_J; [apply frame_get_proc|exact HJ2|]. intros x s3 HJ3 _.
  apply hwp_bind. eapply hwp_J_fl; [exact HJ3|]. eapply hwp_mono; [apply pipealloc_J; eapply J_FJ; exact HJ3|].
  intros [[r w]|] t H4; [|exists (fun _ => 0); split; [exact H4|]; intros s4 HJ4 _ _; apply hwp_ret; by eapply J_RJ].
  destruct H4 as (H4 & Hr & Hw). eexists. split; [exact H4|]. intros s4 HJ4 _ L4. rewrite <- L4 in Hr, Hw.
  assert (HC : forall s', J p (plus (plus (fun _ => 0) r 1) w 1) s' -> hwp True (onfl (File.fileclose (ppid x) ds r);; onfl (File.fileclose (ppid x) ds w);; mret (-1)) (fun _ s' => RJ s') s').
  { intros s' HJ'. apply hwp_bind. eapply hwp_J_fl; [exact HJ'|]. eapply hwp_mono; [apply fileclose_J; eapply J_FJ; exact HJ'|].
    intros ? t1 H1. eexists. split; [exact H1|]. intros s'' HJ'' _ _. apply hwp_bind. eapply hwp_J_fl; [exact HJ''|].
    eapply hwp_mono; [apply fileclose_J; eapply J_FJ; exact HJ''|]. intros ? t2 H2. eexists. split; [exact H2|]. intros s3' HJ3' _ _. apply hwp_ret.
    eapply J_RJ, J_ext; [|exact HJ3']. intros g. unfold plus. destruct (decide (g = r)), (decide (g = w)); lia. }
  apply hwp_bind. eapply fdalloc_J; [exact HJ4|done| |].
  { intros s5 HJ5 _. change (-1 <? 0) with true. apply hwp_bind, hwp_ret. change (-1 <? 0) with true. change (0 <=? -1) with false. apply hwp_bind, hwp_ret. by apply HC. }
  intros fd0 s5 o5 H0 HJ5 E5 Ho5 Hf5. rewrite (proj2 (Z.ltb_ge fd0 0)) by lia. apply hwp_bind. eapply fdalloc_J; [exact HJ5|by rewrite E5| |].
  - intros s6 HJ6 E6. change (-1 <? 0) with true. rewrite (proj2 (Z.leb_le 0 fd0)) by lia. apply hwp_bind.
    eapply hwp_J_fd; [exact HJ6|by rewrite E6|exact Hf5|done|]. intros s7 HJ7 _ _. apply HC. eapply J_ext; [|exact HJ7].
    intros g. unfold plus_opt, plus. destruct (decide (g = r)), (decide (g = w)); lia.
  - intros fd1 s6 o6 H6 HJ6 _ _ _. rewrite (proj2 (Z.ltb_ge fd1 0)) by lia. eapply hwp_J_RJ; [frame|eapply J_ext; [|exact HJ6]].
    intros g. unfold plus. destruct (decide (g = r)), (decide (g = w)); lia.
Qed.

(** ** Fork *)

(** While [p] makes the process [np], which has the descriptors [o]. *)
Record forking (p np : Z) (o : list (option Z)) (d : Z -> Z) (v : view) : Prop := {
  fk_refs : refs_ok d v;
  fk_new : zlookup v.2 np = Some (false, o);
  fk_ne : p <> np;
  fk_old : exists op, zlookup v.2 p = Some (false, op)
}.

Lemma vframe_modify f : (forall s : state, vw (f s) = vw s) -> vframe (modify f).
Proof. intros Hf s. apply hwp_modify, Hf. Qed.

Lemma vframe_release lk : vframe (release lapicid c lk).
Proof. apply vframe_onmach. Qed.

Lemma vframe_alloc_pid : vframe alloc_pid.
Proof. intros s. unfold alloc_pid. apply hwp_bind, hwp_get. by destruct (nextpid s =? 2 ^ 31 - 1). Qed.

#[local] Hint Resolve vframe_release vframe_alloc_pid : frame.

(** The end of a fork that failed: the entry is free again. *)
Lemma unused_RJ p np o s : forking p np o (fun _ => 0) (vw s) -> Forall (eq None) o ->
  hwp True (upd_proc np (set_pstate UNUSED)) (fun _ s' => RJ s') s.
Proof.
  intros [H1 H2 H3 H4] Ho. eapply (hwp_entry _ s np false true); [exact H1|exact H2| |done|].
  - intros x _ <-. done.
  - by intros s' H' _ _.
Qed.

Lemma allocproc_pick_J p s : J p (fun _ => 0) s -> hwp True (allocproc_pick lapicid c)
  (fun r s' => match r with None => RJ s' | Some np => exists o, forking p np o (fun _ => 0) (vw s') /\ Forall (eq None) o end) s.
Proof.
  intros HJ. unfold allocproc_pick. eapply hwp_J; [apply frame_acquire|exact HJ|]. intros ? s1 [_ H1 [op Hop]] _. apply hwp_bind, hwp_get.
  destruct (find_unused (procs s1) 0) as [np|] eqn:Ef.
  2: { eapply hwp_vf; [frame|]. intros ? s2 E2. apply hwp_ret. unfold RJ. by rewrite E2. }
  apply ProcFork.find_unused_spec in Ef as (x & Hx & _ & Hu). rewrite Z.sub_0_r in Hx.
  assert (Hn : zlookup (vw s1).2 np = Some (true, ofile x)).
  { cbn. rewrite zlookup_map, Hx. cbn. unfold pview, closed. rewrite Hu. done. }
  pose proof (rf_closed _ _ H1 np (ofile x) Hn) as HN. assert (Hne : p <> np) by (intros ->; congruence).
  apply hwp_bind. eapply (hwp_entry _ s1 np true false); [exact H1|exact Hn|intros y _ <-; done|done|]. intros s2 H2 E2 _.
  eapply hwp_vf; [frame|]. intros pid s3 E3. eapply hwp_vf; [frame|]. intros ? s4 E4. eapply hwp_vf; [frame|]. intros ? s5 E5. apply hwp_ret.
  exists (ofile x). split; [|exact HN]. rewrite E5, E4, E3. split; [exact H2| |exact Hne|]; rewrite E2; cbn [snd].
  - apply zlookup_zinsert_eq. by eapply zlookup_lt.
  - exists op. by rewrite zlookup_zinsert_ne.
Qed.

Lemma allocproc_J tr fr p s : J p (fun _ => 0) s -> hwp True (allocproc lapicid c tr fr)
  (fun r s' => match r with None => RJ s' | Some np => exists o, forking p np o (fun _ => 0) (vw s') /\ Forall (eq None) o end) s.
Proof.
  intros HJ. unfold allocproc. apply hwp_bind. eapply hwp_mono; [apply allocproc_pick_J; exact HJ|]. intros [np|] s1 H1; [|by apply hwp_ret].
  destruct H1 as (o & H1 & Ho). unfold allocproc_stack. apply hwp_bind. eapply hwp_vf; [frame|]. intros k s2 E2. eapply hwp_vf; [frame|].
  intros ? s3 E3. assert (H3 : forking p np o (fun _ => 0) (vw s3)) by (by rewrite E3, E2). destruct (k =? 0).
  - apply hwp_bind. eapply hwp_mono; [eapply unused_RJ; [exact H3|exact Ho]|]. intros ? s4 H4. by apply hwp_ret, hwp_ret.
  - eapply hwp_mono with (Q := fun b s' => b = true /\ vw s' = vw s3).
    { repeat (eapply hwp_vf; [frame|]; intros ???). apply hwp_ret. split; [done|congruence]. }
    intros bb s4 [-> E4]. apply hwp_ret. exists o. rewrite E4. by split.
Qed.

Lemma dup_files_J p np n : forall i (s : state) o, 0 <= i -> forking p np o (fun _ => 0) (vw s) -> (forall j f, i <= j -> zlookup o j <> Some (Some f)) ->
  hwp True (dup_files n p np i) (fun _ s' => exists o', forking p np o' (fun _ => 0) (vw s')) s.
Proof.
  induction n as [|n IH]; intros i s o Hi HF Ho; cbn [dup_files]; [apply hwp_ret; by exists o|].
  pose proof HF as [H1 H2 H3 [op H4]]. destruct (view_proc s p false op H4) as (x & Hx & _ & Eo). apply hwp_bind. eapply hwp_get_proc; [exact Hx|].
  rewrite Eo. destruct (zlookup op i) as [[f|]|] eqn:Hf; [| |done].
  2: { apply hwp_bind, hwp_ret. apply (IH _ s o); [lia|done|]. intros j f' Hj. apply Ho. lia. }
  pose proof (rf_range _ _ H1 p false op i f H4 Hf) as Hr. apply hwp_bind, hwp_bind. eapply hwp_fl; [exact H1|].
  eapply hwp_mono; [apply filedup_J, refs_FJ, H1|]. intros g t [-> HFJ]. eexists. split; [exact HFJ|]. intros s1 H1' E1 L1 _.
  assert (Hn : zlookup o i = Some None).
  { assert (Hl : 0 <= i < Z.of_nat (length o)).
    { rewrite (rf_len _ _ H1 np false o H2), <- (rf_len _ _ H1 p false op H4). by eapply zlookup_lt. }
    destruct (zlookup_is_Some o i Hl) as [[f'|] Hy]; [by destruct (Ho i f')|done]. }
  eapply hwp_fd; [exact H1'|by rewrite E1|exact Hn|intros g [= <-]; by rewrite L1|]. intros s2 H2' E2 _.
  apply (IH (i + 1) s2 (zinsert i (Some f) o)); [lia| |].
  - split; [|rewrite E2; cbn [snd]; rewrite E1; apply zlookup_zinsert_eq; by eapply zlookup_lt|exact H3|].
    + eapply refs_ext; [|exact H2']. intros g. unfold plus_opt, plus. destruct (decide (g = f)); lia.
    + exists op. rewrite E2. cbn [snd]. by rewrite zlookup_zinsert_ne, E1.
  - intros j f' Hj. rewrite zlookup_zinsert_ne by lia. apply Ho. lia.
Qed.

Lemma fork_copy_J kdata p np o (s : state) : forking p np o (fun _ => 0) (vw s) -> Forall (eq None) o ->
  hwp True (fork_copy kdata p np) (fun b s' => if b : bool then exists o', forking p np o' (fun _ => 0) (vw s') else RJ s') s.
Proof.
  intros HF Ho. unfold fork_copy. eapply hwp_vf; [frame|]. intros x s1 E1. eapply hwp_vf; [frame|]. intros pd s2 E2. eapply hwp_vf; [frame|]. intros ? s3 E3.
  assert (H3 : forking p np o (fun _ => 0) (vw s3)) by (by rewrite E3, E2, E1). clear E1 E2 E3. destruct (pd =? 0).
  { eapply hwp_vf; [frame|]. intros y s4 E4. eapply hwp_vf; [frame|]. intros ? s5 E5. eapply hwp_vf; [frame|]. intros ? s6 E6.
    apply hwp_bind. eapply hwp_mono; [eapply unused_RJ; [|exact Ho]|]; [by rewrite E6, E5, E4|]. intros ? s7 H7. by apply hwp_ret. }
  do 4 (eapply hwp_vf; [frame|]; intros ???). apply hwp_bind. eapply hwp_mono; [eapply dup_files_J with (o := o)|].
  - done.
  - congruence.
  - intros j f _ Hj. assert (Hin : Some f ∈ o). { unfold zlookup in Hj. destruct (0 <=? j); [|done]. by eapply list_elem_of_lookup_2. }
    rewrite Forall_forall in Ho. by specialize (Ho _ Hin).
  - intros ? s5 [o' H5]. eapply hwp_vf; [frame|]. intros y s6 E6. eapply hwp_vf; [frame|]. intros ? s7 E7. eapply hwp_vf; [frame|]. intros ? s8 E8.
    apply hwp_ret. exists o'. by rewrite E8, E7, E6.
Qed.

Lemma fork_J kdata tr fr p s : J p (fun _ => 0) s -> hwp True (fork lapicid c kdata tr fr) (fun _ s' => RJ s') s.
Proof.
  intros HJ. unfold fork. eapply hwp_J_cur; [exact HJ|]. intros s1 HJ1 _. apply hwp_bind. eapply hwp_mono; [apply allocproc_J; exact HJ1|].
  intros [np|] s2 H2; [|by apply hwp_ret]. destruct H2 as (o & H2 & Ho). apply hwp_bind. eapply hwp_mono; [eapply fork_copy_J; [exact H2|exact Ho]|].
  intros [] s3 H3; [|by apply hwp_ret]. destruct H3 as [o' H3]. unfold fork_run. eapply hwp_vf; [frame|]. intros y s4 E4. eapply hwp_vf; [frame|].
  intros ? s5 E5. assert (H5 : forking p np o' (fun _ => 0) (vw s5)) by (by rewrite E5, E4). destruct H5 as [H5 N5 _ _].
  apply hwp_bind. eapply (hwp_entry _ s5 np false false); [exact H5|exact N5|intros ? _ <-; done|done|]. intros s6 H6 _ _.
  eapply hwp_vf; [frame|]. intros ? s7 E7. apply hwp_ret. unfold RJ. by rewrite E7.
Qed.

(** ** Exit and wait *)

Lemma close_files_J ds p n : forall fd s o, 0 <= fd -> fd + Z.of_nat n = NOFILE -> J p (fun _ => 0) s -> zlookup (vw s).2 p = Some (false, o) ->
  (forall j f, j < fd -> zlookup o j <> Some (Some f)) ->
  hwp True (close_files ds n p fd) (fun _ s' => J p (fun _ => 0) s' /\ exists o', zlookup (vw s').2 p = Some (false, o') /\ Forall (eq None) o') s.
Proof.
  induction n as [|n IH]; intros fd s o H0 Hn HJ Ho HN; cbn [close_files].
  { apply hwp_ret. split; [done|]. exists o. split; [done|]. apply Forall_forall. intros y (i & Hi)%list_elem_of_lookup_1. destruct y as [f|]; [|done].
    pose proof (lookup_lt_Some _ _ _ Hi) as Hl. rewrite (rf_len _ _ (j_refs _ _ _ HJ) p false o Ho) in Hl. destruct (HN (Z.of_nat i) f); [unfold NOFILE in *; lia|].
    unfold zlookup. rewrite (proj2 (Z.leb_le 0 _)) by lia. by rewrite Nat2Z.id. }
  destruct (view_proc s p false o Ho) as (x & Hx & _ & Eo). apply hwp_bind. eapply hwp_get_proc; [exact Hx|].
  rewrite Eo. destruct (zlookup o fd) as [[f|]|] eqn:Hf; [| |done].
  2: { apply hwp_bind, hwp_ret. eapply IH; [lia|lia|exact HJ|exact Ho|]. intros j f Hj. destruct (decide (j = fd)) as [->|]; [congruence|]. apply HN. lia. }
  apply hwp_bind, hwp_bind. eapply hwp_J_fl; [exact HJ|]. eapply hwp_mono; [apply fileclose_J; eapply J_FJ; exact HJ|].
  intros ? t HFJ. eexists. split; [exact HFJ|]. intros s1 HJ1 E1 _. eapply hwp_J_fd; [exact HJ1|rewrite E1; exact Ho|exact Hf|done|]. intros s2 HJ2 _ Ho2.
  eapply IH; [lia|lia| |exact Ho2|].
  - eapply J_ext; [|exact HJ2]. intros g. unfold plus_opt, plus. destruct (decide (g = f)); lia.
  - intros j f' Hj. destruct (decide (j = fd)) as [->|]; [rewrite zlookup_zinsert_eq by (by eapply zlookup_lt); done|].
    rewrite zlookup_zinsert_ne by done. apply HN. lia.
Qed.

Lemma vframe_wakeup1 ch : vframe (wakeup1 ch).
Proof.
  apply vframe_modify. intros s. unfold vw. cbn. f_equal. rewrite map_map. apply map_ext. intros x. unfold wake.
  destruct (decide (pstate x = SLEEPING /\ chan x = ch)) as [[E _]|]; [|done]. unfold pview, closed. cbn. by rewrite E.
Qed.

#[local] Hint Resolve vframe_wakeup1 : frame.

Lemma vframe_reparent n : forall p q, vframe (reparent n p q).
Proof. induction n as [|n IH]; intros p q; cbn [reparent]; frame. Qed.

Lemma vframe_sched k : vframe (sched lapicid c k).
Proof. unfold sched, mycpu, upd_cpu. frame. Qed.

#[local] Hint Resolve vframe_reparent vframe_sched : frame.

Lemma exit_J ds p s : J p (fun _ => 0) s -> hwp True (exit lapicid c ds) (fun _ s' => RJ s') s.
Proof.
  intros HJ. unfold exit, exit_files. apply hwp_bind. eapply hwp_J_cur; [exact HJ|]. intros s1 HJ1 _. apply hwp_bind, hwp_get.
  destruct (decide _); [done|]. destruct (j_open _ _ _ HJ1) as [o Ho]. apply hwp_bind.
  eapply hwp_mono; [apply (close_files_J ds p _ 0 s1 o); [done|done|exact HJ1|exact Ho|]|].
  { intros j f Hj. unfold zlookup. rewrite (proj2 (Z.leb_gt 0 j)) by lia. done. }
  intros ? s2 (HJ2 & o2 & Ho2 & HN). eapply hwp_J; [frame|exact HJ2|]. intros x s3 HJ3 E3. unfold File.begin_op. eapply hwp_J; [frame|exact HJ3|].
  intros ? s4 HJ4 E4. eapply hwp_J; [frame|exact HJ4|]. intros ? s5 HJ5 E5. unfold File.end_op. eapply hwp_J; [frame|exact HJ5|]. intros ? s6 HJ6 E6.
  eapply hwp_mono; [apply J_frame; [frame|exact HJ6]|]. intros ? s7 [HJ7 E7]. unfold exit_zombie. eapply hwp_J_cur; [exact HJ7|]. intros s8 HJ8 E8.
  eapply hwp_J; [frame|exact HJ8|]. intros ? s9 HJ9 E9. eapply hwp_vf; [frame|]. intros y s10 E10. eapply hwp_vf; [frame|]. intros ? s11 E11.
  eapply hwp_vf; [frame|]. intros ? s12 E12.
  assert (EV : vw s12 = vw s9) by congruence. assert (EO : vw s9 = vw s2) by congruence. apply hwp_bind.
  eapply (hwp_entry (fun _ => 0) s12 p false true); [rewrite EV; apply HJ9|rewrite EV, EO; exact Ho2|intros z _ <-; done|done|]. intros s13 H13 _ _.
  eapply hwp_vf; [frame|]. intros ? s14 E14. apply hwp_ret. unfold RJ. by rewrite E14.
Qed.

Lemma hwp_fr {B C} (m : ST state B) (k : B -> ST state C) Q s : frame m ->
  (forall b s', vw s' = vw s -> (forall p, cur s p -> cur s' p) -> hwp True (k b) Q s') -> hwp True (m ≫= k) Q s.
Proof. intros Hm HQ. apply hwp_bind. eapply hwp_mono; [by apply Hm|]. intros b s' [E C1]. by apply HQ. Qed.

Lemma reap_frame q x s : zlookup (procs s) q = Some x -> pstate x = ZOMBIE ->
  hwp True (reap q) (fun _ s' => vw s' = vw s /\ forall p, cur s p -> cur s' p) s.
Proof.
  intros Hx Hz. assert (Hv : zlookup (vw s).2 q = Some (true, ofile x)).
  { cbn. rewrite zlookup_map, Hx. cbn. unfold pview, closed. by rewrite Hz. }
  unfold reap. do 8 (eapply hwp_fr; [frame|]; intros ? ?s ? ?). match goal with |- hwp _ _ _ ?t => assert (E : vw t = vw s) by congruence; set (s8 := t) in * end.
  rewrite <- E in Hv. destruct (view_proc _ _ _ _ Hv) as (y & Hy & Ec & Eo). apply hwp_bind. eapply hwp_upd_proc; [exact Hy|]. apply hwp_ret. split; [|eauto 20].
  rewrite <- E. unfold vw. cbn. f_equal. rewrite map_insert. apply zinsert_id. rewrite zlookup_map, Hy. cbn. unfold pview at 1. by rewrite Ec.
Qed.

Lemma frame_wait_scan p n : forall q k, frame (wait_scan n p q k).
Proof.
  induction n as [|n IH]; intros q k s; cbn [wait_scan]; [by apply hwp_ret|]. unfold get_proc at 1. apply hwp_bind, hwp_bind, hwp_get.
  destruct (zlookup (procs s) q) as [x|] eqn:Hx; [|done]. apply hwp_ret. destruct (decide _); [apply IH|]. destruct (decide _) as [Hz|]; [|apply IH].
  apply hwp_bind. eapply hwp_mono; [by eapply reap_frame|]. intros ? s' E. by apply hwp_ret.
Qed.

#[local] Hint Resolve frame_wait_scan : frame.

Lemma sleep_J ch lk a p s : lk = PTABLE \/ lk = 0 -> J p (fun _ => 0) s -> hwp True (sleep lapicid c ch lk a) (fun _ s' => RJ s') s.
Proof.
  intros Hlk HJ. unfold sleep. apply hwp_bind. destruct (j_cur _ _ _ HJ) as [Hok (k & Hk & Hp)]. eapply hwp_myproc; [exact Hok|exact Hk|]. rewrite Hp.
  destruct (j_open _ _ _ HJ) as [o Ho]. eapply (hwp_vf _ _ _ (set_mach _ s)).
  { destruct (negb (lk =? PTABLE)); [|frame]. apply vframe_bind; [frame|]. intros ?. destruct (negb (lk =? 0)); frame. }
  intros ? s1 E1. eapply hwp_vf; [frame|]. intros ? s2 E2. assert (EV : vw s2 = vw s) by (rewrite E2, E1; done).
  apply hwp_bind. eapply (hwp_entry (fun _ => 0) s2 p false false); [rewrite EV; apply HJ|rewrite EV; exact Ho|intros z _ <-; done|done|]. intros s3 H3 _ _.
  eapply hwp_vf; [frame|]. intros ? s4 E4. apply hwp_ret. unfold RJ. by rewrite E4.
Qed.

Lemma wait_J p s : J p (fun _ => 0) s -> hwp True (wait lapicid c) (fun _ s' => RJ s') s.
Proof.
  intros HJ. unfold wait, wait_loop. eapply hwp_J_cur; [exact HJ|]. intros s1 HJ1 _. eapply hwp_J; [frame|exact HJ1|]. intros _ s2 HJ2 _.
  eapply hwp_J; [frame|exact HJ2|]. intros [[pid|] kids] s3 HJ3 _.
  - apply hwp_RJ; [frame|by eapply J_RJ].
  - eapply hwp_J; [frame|exact HJ3|]. intros x s4 HJ4 _. destruct (negb kids || pkilled x).
    + apply hwp_RJ; [frame|by eapply J_RJ].
    + apply (sleep_J _ _ _ p); [by left|done].
Qed.

Lemma kill_J pid s : RJ s -> hwp True (kill lapicid c pid) (fun _ s' => RJ s') s.
Proof.
  intros H. unfold kill. eapply hwp_vf; [frame|]. intros _ s1 E1. apply hwp_bind, hwp_get. destruct (find_pid (procs s1) pid 0) as [q|].
  2: { apply hwp_RJ; [frame|unfold RJ; by rewrite E1]. }
  eapply hwp_vf; [frame|]. intros _ s2 E2. unfold get_proc at 1. apply hwp_bind, hwp_bind, hwp_get.
  destruct (zlookup (procs s2) q) as [x|] eqn:Hx; [|done]. apply hwp_ret. assert (H2 : RJ s2) by (unfold RJ; by rewrite E2, E1).
  destruct (decide (pstate x = SLEEPING)) as [Hs|]; [|apply hwp_RJ; [frame|done]].
  assert (Hv : zlookup (vw s2).2 q = Some (false, ofile x)). { cbn. rewrite zlookup_map, Hx. cbn. unfold pview, closed. by rewrite Hs. }
  apply hwp_bind. eapply (hwp_entry _ s2 q false false); [exact H2|exact Hv|intros z _ <-; done|done|]. intros s3 H3 _ _. apply hwp_RJ; [frame|done].
Qed.

(** ** The other calls *)

Lemma vframe_switchuvm p : vframe (switchuvm lapicid c p).
Proof. unfold switchuvm, mycpu, upd_cpu. frame. Qed.

#[local] Hint Resolve vframe_switchuvm : frame.

Lemma fframe_piperead killed q n : fframe (A := A) (File.piperead killed q n).
Proof. unfold File.piperead. frame. Qed.
Lemma fframe_pipewrite killed q n src : fframe (A := A) (File.pipewrite killed q src n).
Proof. unfold File.pipewrite. frame. Qed.

#[local] Hint Resolve fframe_piperead fframe_pipewrite : frame.

Lemma fframe_fileread pid ds killed devread f n : fframe (A := A) (File.fileread pid ds killed devread f n).
Proof. unfold File.fileread. frame. Qed.

Lemma fframe_filewrite_loop pid ds devwrite n f : forall src i m, fframe (A := A) (File.filewrite_loop pid ds devwrite n f src i m).
Proof. induction n as [|n IH]; intros src i m; cbn [File.filewrite_loop]; unfold File.begin_op, File.end_op; frame. Qed.

#[local] Hint Resolve fframe_fileread fframe_filewrite_loop : frame.

Lemma fframe_filewrite pid ds killed devwrite f src n : fframe (A := A) (File.filewrite pid ds killed devwrite f src n).
Proof. unfold File.filewrite. frame. Qed.
Lemma fframe_filestat pid ds f : fframe (A := A) (File.filestat pid ds f).
Proof. unfold File.filestat. frame. Qed.

#[local] Hint Resolve fframe_filewrite fframe_filestat : frame.

Lemma vframe_load ds devread n : forall pid ip pgdir off sz, vframe (Exec.load_loop ds devread n pid ip pgdir off sz).
Proof. induction n as [|n IH]; intros pid ip pgdir off sz; cbn [Exec.load_loop]; frame. Qed.

#[local] Hint Resolve vframe_load : frame.

Lemma vframe_exec ds kdata devread path argv : vframe (Exec.exec lapicid c ds kdata devread path argv).
Proof. unfold Exec.exec, Exec.bad. frame. Qed.

Lemma vframe_exec_args n : forall uargv i, vframe (Sysfile.exec_args lapicid c n uargv i).
Proof. induction n as [|n IH]; intros uargv i; cbn [Sysfile.exec_args]; frame. Qed.

#[local] Hint Resolve vframe_exec vframe_exec_args : frame.

Section Table.

Context (ds kdata tr fr pad ticks : Z) (junk : list Z).
Context (devread : Z -> option (Z -> Z -> ST File.fsstate (Z * list Z))) (devwrite : Z -> option (Z -> list Z -> Z -> ST File.fsstate Z)).

(** The calls that leave the descriptors alone. *)

Lemma vframe_read : vframe (Sysfile.sys_read lapicid c ds devread).
Proof. unfold Sysfile.sys_read. frame. Qed.
Lemma vframe_write : vframe (Sysfile.sys_write lapicid c ds devwrite).
Proof. unfold Sysfile.sys_write. frame. Qed.
Lemma vframe_fstat : vframe (Sysfile.sys_fstat lapicid c ds pad).
Proof. unfold Sysfile.sys_fstat. frame. Qed.
Lemma vframe_sys_exec : vframe (Sysfile.sys_exec lapicid c ds kdata devread).
Proof. unfold Sysfile.sys_exec. frame. Qed.
Lemma vframe_chdir : vframe (Sysfile.sys_chdir lapicid c ds devread).
Proof. unfold Sysfile.sys_chdir. frame. Qed.
Lemma vframe_mknod : vframe (Sysfile.sys_mknod lapicid c ds devread devwrite).
Proof. unfold Sysfile.sys_mknod, Sysfile.make_node. frame. Qed.
Lemma vframe_unlink : vframe (Sysfile.sys_unlink lapicid c ds devread devwrite).
Proof. unfold Sysfile.sys_unlink. frame. Qed.
Lemma vframe_link : vframe (Sysfile.sys_link lapicid c ds devread devwrite).
Proof. unfold Sysfile.sys_link. frame. Qed.
Lemma vframe_mkdir : vframe (Sysfile.sys_mkdir lapicid c ds devread devwrite).
Proof. unfold Sysfile.sys_mkdir, Sysfile.make_node. frame. Qed.
Lemma vframe_growproc n : vframe (growproc (A := A) lapicid c n).
Proof. unfold growproc. frame. Qed.

#[local] Hint Resolve vframe_read vframe_write vframe_fstat vframe_sys_exec vframe_chdir vframe_mknod vframe_unlink vframe_link vframe_mkdir
  vframe_growproc : frame.

Lemma returns_RJ m s : hwp True m (fun _ s' => RJ s') s -> hwp True (Trap.returns m) (fun _ s' => RJ s') s.
Proof. intros H. unfold Trap.returns. apply hwp_bind. eapply hwp_mono; [exact H|]. intros v s' Hs. by apply hwp_ret. Qed.

Lemma hwp_J_J {B} (m : ST state B) p s : hwp True m (fun _ s' => J p (fun _ => 0) s') s -> hwp True m (fun _ s' => RJ s') s.
Proof. intros H. eapply hwp_mono; [exact H|]. intros b s' Hs. eapply J_RJ; exact Hs. Qed.

Lemma sys_sleep_J p s : J p (fun _ => 0) s -> hwp True (Trap.sys_sleep lapicid c ticks) (fun _ s' => RJ s') s.
Proof.
  intros HJ. unfold Trap.sys_sleep, Trap.sys_sleep_loop. eapply hwp_J; [apply frame_argint|exact HJ|]. intros [n|] s1 HJ1 _; [|apply hwp_ret; by eapply J_RJ].
  destruct (_ <? _); [|apply hwp_ret; by eapply J_RJ]. eapply hwp_J_cur; [exact HJ1|]. intros s2 HJ2 _. eapply hwp_J; [frame|exact HJ2|].
  intros x s3 HJ3 _. destruct (pkilled x); [apply hwp_ret; by eapply J_RJ|]. apply (sleep_J _ _ _ p); [by right|done].
Qed.

Lemma sys_kill_J p s : J p (fun _ => 0) s -> hwp True (Trap.sys_kill lapicid c) (fun _ s' => RJ s') s.
Proof.
  intros HJ. unfold Trap.sys_kill. eapply hwp_J; [apply frame_argint|exact HJ|]. intros [n|] s1 HJ1 _; [|apply hwp_ret; by eapply J_RJ].
  apply returns_RJ, kill_J. by eapply J_RJ.
Qed.

Lemma vframe_getpid : vframe (Trap.sys_getpid lapicid c).
Proof. unfold Trap.sys_getpid. frame. Qed.
Lemma vframe_sbrk : vframe (Trap.sys_sbrk lapicid c).
Proof. unfold Trap.sys_sbrk. frame. Qed.
Lemma vframe_uptime : vframe (Trap.sys_uptime ticks).
Proof. unfold Trap.sys_uptime. frame. Qed.

#[local] Hint Resolve vframe_getpid vframe_sbrk vframe_uptime : frame.

Lemma call_J p num call s : Trap.syscalls lapicid c ds kdata tr fr devread devwrite junk pad ticks num = Some call ->
  J p (fun _ => 0) s -> hwp True call (fun _ s' => RJ s') s.
Proof.
  intros Hc HJ. unfold Trap.syscalls in Hc. pose proof (J_RJ _ _ HJ) as HR.
  repeat match type of Hc with match ?x with _ => _ end = _ => destruct x end; try done; injection Hc as <-.
  all: first
    [ apply returns_RJ, (fork_J _ _ _ p), HJ | apply (exit_J _ p), HJ | apply (wait_J p), HJ | apply returns_RJ, (sys_pipe_J _ _ p), HJ
    | apply returns_RJ, (hwp_J_J _ p), sys_dup_J, HJ | apply (sys_sleep_J p), HJ | apply returns_RJ, (sys_open_J _ _ _ p), HJ
    | apply returns_RJ, (hwp_J_J _ p), sys_close_J, HJ | apply (sys_kill_J p), HJ | apply returns_RJ, hwp_RJ; [solve [auto with frame nocore]|exact HR]
    | apply hwp_RJ; [solve [auto with frame nocore]|exact HR] ].
Qed.

(** C10: open files are counted.  In a table of files and processes where
    the reference count of each file is the number of descriptors that name
    it, every descriptor names a file of the table, and entries that are free
    or have exited have none, any system call of a running process keeps that
    so, whichever call it is, whatever its arguments, and also where it fails
    half way: a file is never reused while a descriptor names it, and never
    lost when none does. *)
Theorem syscall_keeps_refcounts (s s' : state) (k : cpu) (p : Z) (x : proc) (r : result) :
  mach_ok lapicid (mach s) -> cpu_at s c k -> cproc k = Some p -> pr s p x -> pstate x = RUNNING ->
  refs_ok (fun _ => 0) (vw s) ->
  Trap.syscall lapicid c ds kdata tr fr devread devwrite junk pad ticks s = Ok (r, s') ->
  refs_ok (fun _ => 0) (vw s').
Proof.
  intros Hok Hk Hp Hx Hr H R.
  assert (HJ : J p (fun _ => 0) s).
  { split; [by split; [|exists k]|done|]. exists (ofile x). cbn. rewrite zlookup_map, Hx. cbn. unfold pview, closed. by rewrite Hr. }
  revert R. apply hwp_run with (E := True) (Q := fun _ s' => RJ s'). unfold Trap.syscall. eapply hwp_J_cur; [exact HJ|]. intros s1 HJ1 _.
  eapply hwp_J; [frame|exact HJ1|]. intros y s2 HJ2 _. unfold Trap.set_eax. destruct (Trap.syscalls _ _ _ _ _ _ _ _ _ _ _ _) as [call|] eqn:Ec.
  - apply hwp_bind. eapply hwp_mono; [eapply call_J; [exact Ec|exact HJ2]|]. intros v s3 H3. destruct v; [|by apply hwp_ret]. apply hwp_RJ; [frame|exact H3].
  - apply hwp_RJ; [frame|by eapply J_RJ].
Qed.

End Table.

End Fd.

(** ** A process with one open file *)

Import SyscallThm.

Definition dup1 : proc :=
  mkproc PGSIZE (P2V 0x200000) (P2V 0x201000) RUNNING 1 None (set_tf_eax 10 tf0) 0 K_forkret 0 C_none false (Some 0 :: replicate 15 None) (Some 0) [] None.
Definition sys2 (l : Log.Log.state) : Proc.state alloc_state := set_procs [dup1] (sys1 l).

#[local] Instance pages2 : PageAlloc alloc_state := kalloc_pages (P2V 0x110000).

Definition after2 (l : Log.Log.state) : Proc.state alloc_state :=
  match Trap.syscall apic1 0 1000 0 0 0 (fun _ => None) (fun _ => None) [] 0 0 (sys2 l) with Ok (_, s) => s | _ => sys2 l end.

Lemma call2_runs l : Trap.syscall apic1 0 1000 0 0 0 (fun _ => None) (fun _ => None) [] 0 0 (sys2 l) = Ok (Ret 1, after2 l).
Proof. vm_compute. reflexivity. Qed.

Lemma refs2 l : refs_ok (fun _ => 0) (vw (sys2 l)).
Proof.
  assert (Hc : forall i b o, zlookup (vw (sys2 l)).2 i = Some (b, o) -> (b, o) = pview dup1).
  { intros i b o H. pose proof (zlookup_lt _ _ _ H) as Hl. cbn in Hl. assert (i = 0) as -> by lia. by injection H as <- <-. }
  split.
  - intros f r H. pose proof (zlookup_lt _ _ _ H) as Hl. cbn in Hl. assert (f = 0) as -> by lia. vm_compute in H. injection H as <-. vm_compute. reflexivity.
  - intros i b o fd f [= -> ->]%Hc Hf. pose proof (zlookup_lt _ _ _ Hf) as Hl. cbn in Hl.
    unfold zlookup in Hf. rewrite (proj2 (Z.leb_le 0 fd)) in Hf by lia. destruct (Z.to_nat fd) as [|m]; [injection Hf as <-; cbn; lia|].
    apply (lookup_replicate_1 15) in Hf as [? _]. done.
  - by intros i b o [= -> ->]%Hc.
  - by intros i o [=]%Hc.
Qed.

(** After [dup(0)] the file has two references. *)
Lemma syscall_keeps_refcounts_witness : exists l, refs_ok (fun _ => 0) (vw (after2 l)) /\ (vw (after2 l)).1 = [2].
Proof.
  destruct (FsImage.booted_log ∅ 0) as (l & _); [rewrite size_empty; lia|]. exists l. split; [|vm_compute; reflexivity].
  apply (syscall_keeps_refcounts (PageAlloc0 := pages2) apic1 0 1000 0 0 0 0 0 [] (fun _ => None) (fun _ => None) (sys2 l) (after2 l) cpu1 0 dup1 (Ret 1)).
  - apply (running1 l).
  - reflexivity.
  - reflexivity.
  - reflexivity.
  - reflexivity.
  - apply refs2.
  - exact (call2_runs l).
Defined.

End FdThm.
