(* ===== verification/TrapThm.v ===== *)
(** * Traps

    What holds when a trap (Trap.v), which may have given up the processor in
    between, returns to the program that was interrupted. *)

From Stdlib Require Import ZArith Lia.
From stdpp Require Import base numbers strings list gmap.
From S2P Require Import Prelude Mmu Mem Kalloc Vm FsImage File Spin Proc ProcInv Syscall Trap SyscallThm FdInv FdThm.

Open Scope Z_scope.

Import Mmu Mem Kalloc Spin Proc ProcInv Syscall Trap.

Module TrapThm.

Section Runs.

Context {A : Type} `{!PageAlloc A} (lapicid : Z -> Z) (c ds kdata tr fr pad : Z) (junk : list Z).
Context (devread : Z -> option (Z -> Z -> ST File.fsstate (Z * list Z))) (devwrite : Z -> option (Z -> list Z -> Z -> ST File.fsstate Z)).

Local Abbreviation state := (Proc.state A).

Context (ideintr kbdintr uartintr : ST state unit).

(** The process that the processor runs. *)
Definition current (s : state) : option Z :=
  i ← find_cpu (cpus (mach s)) (lapicid c) 0; k ← zlookup (cpus (mach s)) i; cproc k.

(** It has not been killed. *)
Definition not_killed (s : state) : Prop := forall p, current s = Some p -> exists x, pr s p x /\ pkilled x = false.

(** The place where the thread of the current process goes on. *)
Definition goes_on (P : kont -> Prop) (s : state) : Prop := exists p x, current s = Some p /\ pr s p x /\ P (context x).

Lemma hwp_get_proc_any p (s : state) Q : (forall x, pr s p x -> Q x s) -> hwp True (get_proc p) Q s.
Proof. intros HQ. unfold get_proc. apply hwp_bind, hwp_get. destruct (zlookup (procs s) p) as [x|] eqn:Hx; [|done]. by apply hwp_ret, HQ. Qed.

(** ** The current process and the locks *)

(** Code of the spin locks that does not change which process runs. *)
Definition stays {B} (m : ST Spin.mach B) : Prop := forall t (s : state), hwp True m (fun _ t' => current (set_mach t' s) = current (set_mach t s)) t.

Lemma stays_ret {B} (b : B) : stays (mret b).
Proof. by intros t s. Qed.

Lemma stays_bind {B C} (m : ST Spin.mach B) (f : B -> ST Spin.mach C) : stays m -> (forall b, stays (f b)) -> stays (m ≫= f).
Proof.
  intros Hm Hf t s. apply hwp_bind. eapply hwp_mono; [apply (Hm t s)|]. intros b t1 E1. eapply hwp_mono; [apply (Hf b t1 s)|].
  intros b2 t2 E2. cbv beta in *. congruence.
Qed.

Lemma stays_get_cpu i : stays (Spin.get_cpu i).
Proof. intros t s. unfold Spin.get_cpu. apply hwp_bind, hwp_get. by destruct (zlookup (cpus t) i). Qed.

Lemma find_cpu_insert l id n k k' : forall i, l !! n = Some k -> apicid k' = apicid k -> find_cpu (<[n := k']> l) id i = find_cpu l id i.
Proof.
  revert n. induction l as [|k0 l IH]; intros n i Hn Ha; [done|]. destruct n as [|n]; cbn in *.
  - injection Hn as ->. by rewrite Ha.
  - by rewrite (IH n).
Qed.

Lemma stays_upd_cpu i f : (forall k, apicid (f k) = apicid k /\ cproc (f k) = cproc k) -> stays (Spin.upd_cpu i f).
Proof.
  intros Hf t s. unfold Spin.upd_cpu, Spin.get_cpu. apply hwp_bind, hwp_bind, hwp_get. destruct (zlookup (cpus t) i) as [k|] eqn:Hk; [|done].
  apply hwp_ret, hwp_modify. unfold current. cbn. destruct (Hf k) as [Ha Hp]. pose proof Hk as Hk'. unfold zlookup in Hk'.
  assert (E : find_cpu (zinsert i (f k) (cpus t)) (lapicid c) 0 = find_cpu (cpus t) (lapicid c) 0).
  { unfold zinsert. destruct (0 <=? i); [|done]. by apply find_cpu_insert with k. }
  rewrite E. clear E. destruct (find_cpu (cpus t) (lapicid c) 0) as [j|]; [|reflexivity]. cbn [mbind option_bind]. destruct (decide (j = i)) as [->|Hne].
  - rewrite zlookup_zinsert_eq by (by eapply zlookup_lt). rewrite Hk. done.
  - by rewrite zlookup_zinsert_ne.
Qed.

Lemma stays_mycpu : stays (Spin.mycpu lapicid c).
Proof.
  unfold Spin.mycpu, Spin.readeflags. apply stays_bind; [apply stays_bind; [apply stays_get_cpu|intros; apply stays_ret]|].
  intros [|]; [by intros t s|]. intros t s. apply hwp_bind, hwp_get. by destruct (find_cpu _ _ _).
Qed.

Lemma stays_pushcli : stays (Spin.pushcli lapicid c).
Proof.
  unfold Spin.pushcli, Spin.readeflags, Spin.cli.
  repeat first [apply stays_mycpu | apply stays_get_cpu | apply stays_ret | apply stays_upd_cpu; by intros [] | apply stays_bind; [|intros ?]
    | match goal with |- stays (if ?b then _ else _) => destruct b end].
Qed.

Lemma stays_popcli : stays (Spin.popcli lapicid c).
Proof.
  unfold Spin.popcli, Spin.readeflags, Spin.sti.
  repeat first [apply stays_mycpu | apply stays_get_cpu | apply stays_ret | apply stays_upd_cpu; by intros [] | apply stays_bind; [|intros ?]
    | match goal with |- stays (if ?b then _ else _) => destruct b end | by intros t s].
Qed.

Lemma stays_holding lk : stays (Spin.holding lapicid c lk).
Proof.
  unfold Spin.holding. apply stays_bind; [apply stays_pushcli|intros _]. apply stays_bind.
  { intros t s. unfold Spin.get_lock. apply hwp_bind, hwp_get. by destruct (locks t !! lk). }
  intros l. apply stays_bind; [|intros r; apply stays_bind; [apply stays_popcli|intros _; apply stays_ret]].
  destruct (locked l =? 0); [apply stays_ret|]. apply stays_bind; [apply stays_mycpu|intros i; apply stays_ret].
Qed.

Lemma hwp_keeps {B} (m : ST Spin.mach B) (s : state) : stays m -> hwp True (onmach m) (fun _ s' => current s' = current s /\ procs s' = procs s) s.
Proof.
  intros Hm. unfold onmach. apply FdInv.hwp_zoom. eapply hwp_mono; [apply (Hm (mach s) s)|]. intros b t E. cbv beta in *.
  split; [|done]. rewrite E. by destruct s.
Qed.

Lemma myproc_current (s : state) : hwp True (myproc lapicid c) (fun q s' => current s' = q) s.
Proof.
  unfold myproc. apply hwp_bind. eapply hwp_mono; [apply FdInv.hwp_True|]. intros _ s1 _.
  apply hwp_bind. unfold mycpu, onmach. apply FdInv.hwp_zoom. unfold Spin.mycpu, Spin.readeflags, Spin.get_cpu.
  apply hwp_bind, hwp_bind, hwp_bind, hwp_get. destruct (zlookup (cpus (mach s1)) c) as [k0|]; [|done]. apply hwp_ret, hwp_ret.
  destruct (c_if k0); [done|]. apply hwp_bind, hwp_get. destruct (find_cpu _ _ _) as [i|] eqn:Ei; [|done]. apply hwp_ret.
  apply hwp_bind. unfold get_cpu, onmach. apply FdInv.hwp_zoom. unfold Spin.get_cpu. apply hwp_bind, hwp_get. cbn.
  destruct (zlookup (cpus (mach s1)) i) as [k|] eqn:Ek; [|done]. apply hwp_ret. apply hwp_bind.
  eapply hwp_mono; [apply hwp_keeps, stays_popcli|]. intros _ s2 [E _]. apply hwp_ret. rewrite E. unfold current. cbn. rewrite Ei. cbn. by rewrite Ek.
Qed.

Lemma curproc_current (s : state) : hwp True (curproc lapicid c) (fun p s' => current s' = Some p) s.
Proof.
  unfold curproc. apply hwp_bind. eapply hwp_mono; [apply myproc_current|]. intros [p|] s' R; cbv beta in R; [|done]. by apply hwp_ret.
Qed.

(** ** Giving up the processor *)

Lemma sched_goes_on k (s : state) : hwp True (sched lapicid c k) (fun _ s' => goes_on (fun x => exists e, x = k e) s') s.
Proof.
  unfold sched. apply hwp_bind. eapply hwp_mono; [apply curproc_current|]. intros p s1 E1. apply hwp_bind.
  eapply hwp_mono; [apply hwp_keeps, stays_holding|]. intros h s2 [E2 _]. destruct h; [|done]. cbn [negb].
  apply hwp_bind. eapply hwp_mono; [apply hwp_keeps, stays_mycpu|]. intros i s3 [E3 _].
  apply hwp_bind. eapply hwp_mono; [apply hwp_keeps, stays_get_cpu|]. intros u s4 [E4 _]. destruct (Spin.ncli u =? 1); [|done]. cbn [negb].
  apply hwp_bind, hwp_get_proc_any. intros x Hx. destruct (decide _); [done|].
  apply hwp_bind. eapply hwp_mono; [apply hwp_keeps; unfold Spin.readeflags; apply stays_bind; [apply stays_get_cpu|intros; apply stays_ret]|].
  intros e s5 [E5 _]. destruct e; [done|].
  apply hwp_bind. eapply hwp_mono; [apply hwp_keeps, stays_mycpu|]. intros j s6 [E6 _].
  apply hwp_bind. eapply hwp_mono; [apply hwp_keeps, stays_get_cpu|]. intros w s7 [E7 _].
  apply hwp_bind. unfold upd_proc. apply hwp_bind, hwp_get_proc_any. intros y Hy. apply hwp_modify.
  destruct (Spin.pos w); try done. eapply hwp_mono; [apply hwp_keeps, stays_upd_cpu; by intros []|]. intros _ s8 [E8 P8]. cbv beta in *.
  exists p, (set_context (k (Spin.intena w)) y). split_and!; [rewrite E8; unfold current in *; cbn; congruence| |by eexists].
  unfold pr. rewrite P8. cbn. apply zlookup_zinsert_eq. by eapply zlookup_lt.
Qed.

(** ** Where a trap can stand

    The trap has returned, its thread waits for the processor, or is in [exit]. *)
Inductive stage := Back | Waits (r : rest) | Gone.

(** The continuation of a thread that stands there. *)
Definition at_stage (st : stage) (k : kont) : Prop :=
  match st, k with
  | Waits R_yield, K_yield _ => True
  | Waits R_wait, K_sleep lk A_wait _ => lk = PTABLE
  | Waits (R_sleep _ _), K_sleep lk A_ret _ => lk = 0
  | Gone, K_exit _ => True
  | _, _ => False
  end.

Definition stands (res : result) (s : state) (st : stage) : Prop :=
  match res with Ret _ => st = Back | Switched => goes_on (at_stage st) s end.

(** A result with a stage; where the trap is back, the process has not been killed. *)
Definition settled (res : result) (s : state) : Prop := (exists st, stands res s st) /\ (forall v, res = Ret v -> not_killed s).

Lemma goes_on_mono (P Q : kont -> Prop) (s : state) : (forall k, P k -> Q k) -> goes_on P s -> goes_on Q s.
Proof. intros H (p & x & E & Hx & HP). exists p, x. auto. Qed.

Lemma settled_switched (s : state) st (k : bool -> kont) :
  (forall e, at_stage st (k e)) -> goes_on (fun x => exists e, x = k e) s -> settled Switched s.
Proof. intros Hk Hg. split; [|done]. exists st. cbn. eapply goes_on_mono; [|exact Hg]. intros x [e ->]. apply Hk. Qed.

Lemma exit_settled (s : state) : hwp True (exit lapicid c ds) settled s.
Proof.
  unfold exit, exit_zombie. do 7 (apply hwp_bind; eapply hwp_mono; [apply FdInv.hwp_True|]; intros ? ? _).
  apply hwp_bind. eapply hwp_mono; [apply sched_goes_on|]. intros ? s1 Hg. cbv beta in Hg. apply hwp_ret. by eapply (settled_switched s1 Gone K_exit).
Qed.

Lemma yield_settled (s : state) : hwp True (yield lapicid c) settled s.
Proof.
  unfold yield. do 3 (apply hwp_bind; eapply hwp_mono; [apply FdInv.hwp_True|]; intros ? ? _).
  apply hwp_bind. eapply hwp_mono; [apply sched_goes_on|]. intros ? s1 Hg. cbv beta in Hg. apply hwp_ret. by eapply (settled_switched s1 (Waits R_yield) K_yield).
Qed.

(** An operation in a system call that returns, or gives up the processor at a place that is known. *)
Definition calls (m : ST state result) : Prop := forall s, hwp True m (fun res s' => res = Switched -> settled res s') s.

Lemma calls_returns (m : ST state Z) : calls (returns m).
Proof. intros s. unfold returns. apply hwp_bind. eapply hwp_mono; [apply FdInv.hwp_True|]. intros v s1 _. by apply hwp_ret. Qed.

Lemma calls_bind {B} (m : ST state B) (f : B -> ST state result) : (forall b, calls (f b)) -> calls (m ≫= f).
Proof. intros Hf s. apply hwp_bind. eapply hwp_mono; [apply FdInv.hwp_True|]. intros b s1 _. apply Hf. Qed.

Lemma calls_ret v : calls (mret (Ret v)).
Proof. by intros s. Qed.

Lemma calls_sleep ch lk a st : (forall e, at_stage st (K_sleep lk a e)) -> calls (sleep lapicid c ch lk a).
Proof.
  intros Hst. unfold sleep. apply calls_bind. intros [p|]; [|by intros s]. do 3 (apply calls_bind; intros ?).
  intros s. apply hwp_bind. eapply hwp_mono; [apply sched_goes_on|]. intros ? s1 Hg. cbv beta in Hg. apply hwp_ret. intros _. by eapply settled_switched.
Qed.

Lemma calls_wait_loop p : calls (wait_loop lapicid c p).
Proof.
  unfold wait_loop. apply calls_bind. intros [[pid|] havekids]; [apply calls_bind; intros _; apply calls_ret|].
  apply calls_bind. intros x. destruct (_ || _); [apply calls_bind; intros _; apply calls_ret|]. by apply (calls_sleep _ _ _ (Waits R_wait)).
Qed.

Lemma calls_sleep_loop ticks ticks0 n : calls (sys_sleep_loop lapicid c ticks ticks0 n).
Proof.
  unfold sys_sleep_loop. destruct (_ <? _); [|apply calls_ret]. do 2 (apply calls_bind; intros ?). destruct (pkilled _); [apply calls_ret|].
  by apply (calls_sleep _ _ _ (Waits (R_sleep ticks0 n))).
Qed.

Lemma settled_calls (m : ST state result) : (forall s, hwp True m settled s) -> calls m.
Proof. intros Hm s. eapply hwp_mono; [apply Hm|]. by intros res s1 Hs _. Qed.

Lemma calls_process ticks :
  calls (sys_wait lapicid c) /\ calls (sys_kill lapicid c) /\ calls (sys_getpid lapicid c) /\ calls (sys_sbrk lapicid c) /\ calls (sys_sleep lapicid c ticks).
Proof.
  split_and!.
  - unfold sys_wait, wait. do 2 (apply calls_bind; intros ?). apply calls_wait_loop.
  - unfold sys_kill. apply calls_bind. intros [n|]; [apply calls_returns|apply calls_ret].
  - unfold sys_getpid. do 2 (apply calls_bind; intros ?). apply calls_ret.
  - unfold sys_sbrk. apply calls_bind. intros [n|]; [|apply calls_ret]. do 3 (apply calls_bind; intros ?). apply calls_ret.
  - unfold sys_sleep. apply calls_bind. intros [n|]; [apply calls_sleep_loop|apply calls_ret].
Qed.

Lemma calls_table ticks num call : syscalls lapicid c ds kdata tr fr devread devwrite junk pad ticks num = Some call -> calls call.
Proof.
  destruct (calls_process ticks) as (Hw & Hk & Hg & Hb & Hs).
  unfold syscalls. intros H. repeat (case_match; try discriminate H); injection H as <-;
    first [exact Hw | exact Hk | exact Hg | exact Hb | exact Hs | apply calls_returns | apply calls_ret | apply settled_calls, exit_settled].
Qed.

Lemma calls_syscall ticks : calls (syscall lapicid c ds kdata tr fr devread devwrite junk pad ticks).
Proof.
  unfold syscall. do 2 (apply calls_bind; intros ?). destruct (syscalls _ _ _ _ _ _ _ _ _ _ _ _) as [call|] eqn:E.
  - intros s. apply hwp_bind. eapply hwp_mono; [apply (calls_table _ _ _ E)|]. intros [v|] s1 Hs; cbv beta in Hs.
    + apply hwp_bind. eapply hwp_mono; [apply FdInv.hwp_True|]. intros ? s2 _. by apply hwp_ret.
    + apply hwp_ret. exact Hs.
  - apply calls_bind. intros ?. apply calls_ret.
Qed.

Lemma settled_after (m : ST state result) (f : Z -> ST state result) (s : state) :
  calls m -> (forall v s, hwp True (f v) settled s) ->
  hwp True (r ← m; match r with Switched => mret Switched | Ret v => f v end) settled s.
Proof.
  intros Hm Hf. apply hwp_bind. eapply hwp_mono; [apply Hm|]. intros [v|] s1 Hs; cbv beta in Hs; [apply Hf|]. apply hwp_ret. by apply Hs.
Qed.

Lemma settled_back v (s : state) : not_killed s -> settled (Ret v) s.
Proof. intros Hn. split; [by exists Back|done]. Qed.

Lemma syscall_end_settled v (s : state) : hwp True (trap_syscall_end lapicid c ds v) settled s.
Proof.
  unfold trap_syscall_end. apply hwp_bind. eapply hwp_mono; [apply curproc_current|]. intros q s1 R. cbv beta in R.
  apply hwp_bind, hwp_get_proc_any. intros y Hy. destruct (pkilled y) eqn:Ey; [apply exit_settled|].
  apply hwp_ret, settled_back. intros p Hp. rewrite R in Hp. injection Hp as <-. by exists y.
Qed.

Lemma syscall_returns_settled v (s : state) : hwp True (syscall_returns lapicid c ds v) settled s.
Proof. unfold syscall_returns. do 2 (apply hwp_bind; eapply hwp_mono; [apply FdInv.hwp_True|]; intros ? ? _). apply syscall_end_settled. Qed.

Lemma trap_syscall_settled ticks t (s : state) : hwp True (trap_syscall lapicid c ds kdata tr fr devread devwrite junk pad ticks t) settled s.
Proof.
  unfold trap_syscall. do 2 (apply hwp_bind; eapply hwp_mono; [apply FdInv.hwp_True|]; intros ? ? _). destruct (pkilled _); [apply exit_settled|].
  apply hwp_bind; eapply hwp_mono; [apply FdInv.hwp_True|]; intros ? ? _. apply settled_after; [apply calls_syscall|apply syscall_end_settled].
Qed.

Lemma killed_user_spec t (s : state) : Z.land (tf_cs t) 3 = DPL_USER ->
  hwp True (killed_user lapicid c t) (fun b s' => b = false -> not_killed s') s.
Proof.
  intros Hu. unfold killed_user. apply hwp_bind. eapply hwp_mono; [apply myproc_current|]. intros [p|] s1 R; cbv beta in R.
  - apply hwp_bind, hwp_get_proc_any. intros x Hx. apply hwp_ret. rewrite Hu. change (DPL_USER =? DPL_USER) with true. rewrite andb_true_r.
    intros Hk q Hq. rewrite R in Hq. injection Hq as <-. by exists x.
  - apply hwp_ret. intros _ q Hq. by rewrite R in Hq.
Qed.

Lemma trap_check_settled t (s : state) : Z.land (tf_cs t) 3 = DPL_USER -> hwp True (trap_check lapicid c ds t) settled s.
Proof.
  intros Hu. unfold trap_check. apply hwp_bind. eapply hwp_mono; [by apply killed_user_spec|]. intros b s1 Hb. cbv beta in Hb.
  destruct b; [apply exit_settled|]. by apply hwp_ret, settled_back, Hb.
Qed.

Lemma trap_end_settled t (s : state) : Z.land (tf_cs t) 3 = DPL_USER -> hwp True (trap_end lapicid c ds t) settled s.
Proof.
  intros Hu. unfold trap_end. apply hwp_bind. eapply hwp_mono; [apply FdInv.hwp_True|]. intros b s1 _. destruct b; [apply exit_settled|].
  do 2 (apply hwp_bind; eapply hwp_mono; [apply FdInv.hwp_True|]; intros ? ? _).
  match goal with |- hwp _ (if ?b then _ else _) _ _ => destruct b end; [apply yield_settled|by apply trap_check_settled].
Qed.

Lemma trap_settled ticks t (s : state) : Z.land (tf_cs t) 3 = DPL_USER ->
  hwp True (trap lapicid c ds kdata tr fr devread devwrite junk pad ideintr kbdintr uartintr ticks t) (fun r s' => settled r.1 s') s.
Proof.
  intros Hu. unfold trap. destruct (_ =? _).
  - apply hwp_bind. eapply hwp_mono; [apply trap_syscall_settled|]. intros r s1 H1. by apply hwp_ret.
  - apply hwp_bind. eapply hwp_mono; [apply FdInv.hwp_True|]. intros ti s1 _. apply hwp_bind.
    eapply hwp_mono; [by apply trap_end_settled|]. intros r s2 H2. by apply hwp_ret.
Qed.

Lemma trap_rest_settled ticks t r v (s : state) : Z.land (tf_cs t) 3 = DPL_USER -> hwp True (trap_rest lapicid c ds ticks t r (Ret v)) settled s.
Proof.
  intros Hu. destruct r as [| |ticks0 n|]; cbn [trap_rest]; [by apply trap_check_settled|apply syscall_returns_settled| |apply syscall_returns_settled].
  apply settled_after; [apply calls_sleep_loop|apply syscall_returns_settled].
Qed.

Lemma trap_resume_settled ticks t r k (s : state) : Z.land (tf_cs t) 3 = DPL_USER -> at_stage (Waits r) k ->
  hwp True (trap_resume lapicid c ds ticks t r k) settled s.
Proof.
  intros Hu Hk. unfold trap_resume. assert (Hc : calls (resume lapicid c ds k)).
  { destruct r as [| |ticks0 n|], k as [|e|lk [|] e|e]; try done; cbn [resume]; do 2 (apply calls_bind; intros ?); try apply calls_ret.
    apply calls_bind. intros p. apply calls_wait_loop. }
  apply hwp_bind. eapply hwp_mono; [apply Hc|]. intros [v|] s1 Hs; cbv beta in Hs; [by apply trap_rest_settled|]. cbn [trap_rest]. apply hwp_ret. by apply Hs.
Qed.

End Runs.

(** ** The life of a trap

    On the machine: the trap is entered on one processor; where its thread gives
    up the processor, or sleeps in the file system, other threads and interrupts
    run, on any processor, which leave any state; then the thread goes on, on any
    processor. *)

Section Life.

Context {A : Type} `{!PageAlloc A} (lapicid : Z -> Z) (ds kdata tr fr pad : Z) (junk : list Z).
Context (devread : Z -> option (Z -> Z -> ST File.fsstate (Z * list Z))) (devwrite : Z -> option (Z -> list Z -> Z -> ST File.fsstate Z)).

Local Abbreviation state := (Proc.state A).

Context (ideintr kbdintr uartintr : ST state unit).

Local Abbreviation trap c := (Trap.trap lapicid c ds kdata tr fr devread devwrite junk pad ideintr kbdintr uartintr).

Inductive traps (t : trapframe) : stage -> Z -> state -> Prop :=
| traps_enter c ticks s res ticks' s' st : trap c ticks t s = Ok ((res, ticks'), s') -> stands lapicid c res s' st -> traps t st c s'
| traps_block c ticks s : tf_trapno t = T_SYSCALL -> trap c ticks t s = Blocked -> traps t (Waits R_call) c s
| traps_others st c s c' s' : traps t st c s -> st <> Back -> traps t st c' s'
| traps_resume r k c ticks s res s' st :
    traps t (Waits r) c s -> at_stage (Waits r) k -> trap_resume lapicid c ds ticks t r k s = Ok (res, s') ->
    stands lapicid c res s' st -> traps t st c s'
| traps_return v c ticks s res s' st :
    traps t (Waits R_call) c s -> trap_rest lapicid c ds ticks t R_call (Ret v) s = Ok (res, s') ->
    stands lapicid c res s' st -> traps t st c s'.

Lemma back_settled c res (s : state) : settled lapicid c res s -> stands lapicid c res s Back -> not_killed lapicid c s.
Proof.
  intros [_ Hn] Hb. destruct res as [v|]; [by eapply Hn|]. destruct Hb as (p & x & _ & _ & []).
Qed.

Lemma traps_back t st c (s : state) : Z.land (tf_cs t) 3 = DPL_USER -> traps t st c s -> st = Back -> not_killed lapicid c s.
Proof.
  intros Hu Ht. induction Ht as [c ticks s res ticks' s' st R Hst| |st c s c' s' _ _ Hne|r k c ticks s res s' st _ _ Hk R Hst|v c ticks s res s' st _ _ R Hst];
    intros Hb; try done; subst st; eapply back_settled; try exact Hst.
  - exact (hwp_run _ _ _ _ _ _ (trap_settled lapicid c ds kdata tr fr pad junk devread devwrite ideintr kbdintr uartintr ticks t s Hu) R).
  - exact (hwp_run _ _ _ _ _ _ (trap_resume_settled lapicid c ds ticks t r k s Hu Hk) R).
  - exact (hwp_run _ _ _ _ _ _ (trap_rest_settled lapicid c ds ticks t R_call v s Hu) R).
Qed.

Lemma zombie_stays c e (s s' : state) res : resume lapicid c ds (K_exit e) s <> Ok (res, s').
Proof.
  cbn [resume]. unfold mbind, ST_bind. by destruct (sched_return lapicid c e s) as [[[] s1]| | | |].
Qed.

(** C34: a killed process does not get back to its program.  A trap from user mode,
    a system call, an interrupt or a fault, may give up the processor any number of
    times, in [yield], [wait], [sleep] or in the file system, while other threads
    change the state, and go on on another processor; when it returns to the program
    at last, whatever the call and the device handlers did, the process that runs has
    not been killed.  Wherever the trap or its rest stops, it has returned, waits at
    one of these places, or is in [exit], from where it never goes on.  The first
    return of a new process, by [forkret], is not the end of a trap. *)
Theorem killed_never_returns t st c (s : state) :
  Z.land (tf_cs t) 3 = DPL_USER -> traps t st c s ->
  (st = Back -> not_killed lapicid c s) /\
  (forall ticks s0 res ticks' s1, trap c ticks t s0 = Ok ((res, ticks'), s1) -> exists st', traps t st' c s1) /\
  (forall r k ticks res s1, st = Waits r -> at_stage st k -> trap_resume lapicid c ds ticks t r k s = Ok (res, s1) -> exists st', traps t st' c s1) /\
  (forall k res s1, st = Gone -> at_stage st k -> resume lapicid c ds k s <> Ok (res, s1)).
Proof.
  intros Hu Ht. split_and!.
  - by apply traps_back with t.
  - intros ticks s0 res ticks' s1 R.
    destruct (hwp_run _ _ _ _ _ _ (trap_settled lapicid c ds kdata tr fr pad junk devread devwrite ideintr kbdintr uartintr ticks t s0 Hu) R) as [[st' Hs] _].
    exists st'. by eapply traps_enter.
  - intros r k ticks res s1 -> Hk R. destruct (hwp_run _ _ _ _ _ _ (trap_resume_settled lapicid c ds ticks t r k s Hu Hk) R) as [[st' Hs] _].
    exists st'. by eapply traps_resume.
  - intros k res s1 -> Hk. destruct k; try done. apply zombie_stays.
Qed.

End Life.

(** ** A clock interrupt, after which another process runs for some time *)

Import SyscallThm FdThm.

#[local] Instance pages3 : PageAlloc alloc_state := kalloc_pages (P2V 0x110000).

Definition clock : trapframe := mktf 0 0 0 0 0 0 0 10 0 0 0 0 (T_IRQ0 + IRQ_TIMER) 0 0 27 0 0 0.

Definition before3 (l : Log.Log.state) : Proc.state alloc_state := set_mach (mkmach [set_if false cpu1] {[PTABLE := mklock 0 None]}) (sys2 l).

Local Abbreviation trap3 l := (Trap.trap apic1 0 1000 0 0 0 (fun _ => None) (fun _ => None) [] 0 (mret tt) (mret tt) (mret tt) 5 clock (before3 l)).

Definition yielded3 (l : Log.Log.state) : Proc.state alloc_state := match trap3 l with Ok (_, s) => s | _ => before3 l end.

Lemma trap3_yields l : trap3 l = Ok ((Switched, 6), yielded3 l).
Proof. vm_compute. reflexivity. Qed.

(** The process is chosen again. *)
Definition again3 (l : Log.Log.state) : Proc.state alloc_state :=
  set_mach (mkmach [mkcpu 0 1 false (Some 0) false (S_run 0) 0x200000 0] {[PTABLE := mklock 1 (Some 0)]})
    (set_procs [set_context (K_yield false) dup1] (yielded3 l)).

Local Abbreviation resume3 l := (trap_resume apic1 0 1000 9 clock R_yield (K_yield false) (again3 l)).

Definition back3 (l : Log.Log.state) : Proc.state alloc_state := match resume3 l with Ok (_, s) => s | _ => again3 l end.

Lemma trap3_returns l : resume3 l = Ok (Ret 0, back3 l).
Proof. vm_compute. reflexivity. Qed.

Local Abbreviation traps3 := (traps (PageAlloc0 := pages3) apic1 1000 0 0 0 0 [] (fun _ => None) (fun _ => None) (mret tt) (mret tt) (mret tt) clock).

Lemma trap3_life l : traps3 Back 0 (back3 l).
Proof.
  eapply (traps_resume _ _ _ _ _ _ _ _ _ _ _ _ _ R_yield (K_yield false)); [|exact I|exact (trap3_returns l)|exact eq_refl].
  eapply traps_others with (c := 0) (s := yielded3 l); [|discriminate].
  eapply traps_enter; [exact (trap3_yields l)|]. exists 0, (set_pstate RUNNABLE (set_context (K_yield false) dup1)).
  split_and!; vm_compute; reflexivity.
Qed.

Lemma killed_never_returns_witness : exists l, traps3 Back 0 (back3 l) /\ not_killed apic1 0 (back3 l) /\ current apic1 0 (back3 l) = Some 0.
Proof.
  destruct (FsImage.booted_log ∅ 0) as (l & _); [rewrite size_empty; lia|]. exists l. split; [exact (trap3_life l)|]. split; [|vm_compute; reflexivity].
  apply (killed_never_returns (PageAlloc0 := pages3) apic1 1000 0 0 0 0 [] (fun _ => None) (fun _ => None) (mret tt) (mret tt) (mret tt) clock Back 0 (back3 l)).
  - reflexivity.
  - exact (trap3_life l).
  - reflexivity.
Defined.

End TrapThm.
