(* ===== verification/Sh.v ===== *)
(** * The parser of the shell (bin/sh/sh.c)

    The command line is the list of its characters without the final NUL, and
    [*ps] the part of it that is not parsed yet; a pointer into the line is an
    offset from its start, so that [es] is the length of the line.  [panic] of
    the shell is [Panic]; [malloc] is taken to succeed. *)

From Stdlib Require Import ZArith Lia.
From stdpp Require Import base numbers strings list.
From S2P Require Import Prelude Sysfile.

Open Scope Z_scope.

Module Sh.

Definition MAXARGS : Z := 10.

(** [struct cmd] and the structures that extend it, with [W] for the pointers
    to the start and the end of a word. *)
Inductive cmd (W : Type) :=
| EXEC (argv : list W)
| REDIR (c : cmd W) (file : W) (mode fd : Z)
| PIPE (left right : cmd W)
| LIST (left right : cmd W)
| BACK (c : cmd W).

Arguments EXEC {W} argv.
Arguments REDIR {W} c file mode fd.
Arguments PIPE {W} left right.
Arguments LIST {W} left right.
Arguments BACK {W} c.

Definition word : Type := Z * Z.

(** [" \t\r\n\v"] and ["<|>&;()"]. *)
Definition whitespace : list Z := [32; 9; 13; 10; 11].
Definition symbols : list Z := [60; 124; 62; 38; 59; 40; 41].

(** [strchr] as a test, on strings without NUL. *)
Fixpoint strchr (s : list Z) (c : Z) : bool :=
  match s with
  | [] => false
  | x :: s' => if x =? c then true else strchr s' c
  end.

(** [while(s < es && strchr(whitespace, *s)) s++]. *)
Fixpoint skip_space (s : list Z) : list Z :=
  match s with
  | [] => []
  | c :: s' => if strchr whitespace c then skip_space s' else s
  end.

Definition is_word (c : Z) : bool := negb (strchr whitespace c) && negb (strchr symbols c).

(** [while(s < es && !strchr(whitespace, *s) && !strchr(symbols, *s)) s++]. *)
Fixpoint skip_word (s : list Z) : list Z :=
  match s with
  | [] => []
  | c :: s' => if is_word c then skip_word s' else s
  end.

(** The commands of a line, around a command [c]: [REDIR] nodes. *)
Definition wrap {W} (c : cmd W) (rs : list (W * Z * Z)) : cmd W :=
  fold_left (fun c r => REDIR c r.1.1 r.1.2 r.2) rs c.

Section Parse.

(** The length of the line. *)
Variable es : Z.

Definition off (s : list Z) : Z := es - Z.of_nat (length s).

(** The token, and the start and the end of its text. *)
Definition gettoken : ST (list Z) (Z * word) :=
  s ← get;
  let q := skip_space s in
  let '(ret, s) :=
    match q with
    | [] => (0, q)
    | c :: s' =>
        if strchr [124; 40; 41; 59; 38; 60] c then (c, s')
        else if c =? 62 then
          match s' with
          | d :: s'' => if d =? 62 then (43, s'') else (c, s')
          | [] => (c, s')
          end
        else (97, skip_word q)
    end in
  put (skip_space s);;
  mret (ret, (off q, off s)).

Definition peek (toks : list Z) : ST (list Z) bool :=
  s ← get;
  let s := skip_space s in
  put s;;
  mret (match s with [] => false | c :: _ => strchr toks c end).

(** The loop of [parseredirs]: the redirections, the first one innermost. *)
Fixpoint parseredirs_loop (fuel : nat) (rs : list (word * Z * Z)) : ST (list Z) (list (word * Z * Z)) :=
  b ← peek [60; 62];
  if b : bool then
    match fuel with
    | O => out_of_fuel
    | S f =>
        t ← gettoken;
        a ← gettoken;
        if negb (a.1 =? 97) then panic "missing file for redirection"
        else if t.1 =? 60 then parseredirs_loop f (rs ++ [(a.2, Sysfile.O_RDONLY, 0)])
        else if t.1 =? 62 then parseredirs_loop f (rs ++ [(a.2, Z.lor Sysfile.O_WRONLY Sysfile.O_CREATE, 1)])
        else if t.1 =? 43 then parseredirs_loop f (rs ++ [(a.2, Z.lor Sysfile.O_WRONLY Sysfile.O_CREATE, 1)])
        else parseredirs_loop f rs
    end
  else mret rs.

Definition parseredirs (rs : list (word * Z * Z)) : ST (list Z) (list (word * Z * Z)) :=
  s ← get; parseredirs_loop (S (length s)) rs.

(** The loop of [parseexec]: the arguments, which the code stores in the
    [execcmd] inside [ret], and the redirections around it. *)
Fixpoint args_loop (fuel : nat) (argv : list word) (rs : list (word * Z * Z)) : ST (list Z) (list word * list (word * Z * Z)) :=
  b ← peek [124; 41; 38; 59];
  if b : bool then mret (argv, rs)
  else
    match fuel with
    | O => out_of_fuel
    | S f =>
        t ← gettoken;
        if t.1 =? 0 then mret (argv, rs)
        else if negb (t.1 =? 97) then panic "syntax"
        else
          let argv := argv ++ [t.2] in
          if MAXARGS <=? Z.of_nat (length argv) then panic "too many args"
          else rs ← parseredirs rs; args_loop f argv rs
    end.

(** [parseexec] of a simple command. *)
Definition parsesimple : ST (list Z) (cmd word) :=
  rs ← parseredirs [];
  s ← get;
  r ← args_loop (S (length s)) [] rs;
  mret (wrap (EXEC r.1) r.2).

(** The loop of [parseline] over the ampersands. *)
Fixpoint back_loop (fuel : nat) (c : cmd word) : ST (list Z) (cmd word) :=
  b ← peek [38];
  if b : bool then
    match fuel with
    | O => out_of_fuel
    | S f => gettoken;; back_loop f (BACK c)
    end
  else mret c.

Fixpoint parseline (fuel : nat) : ST (list Z) (cmd word) :=
  match fuel with
  | O => out_of_fuel
  | S f =>
      c ← parsepipe f;
      s ← get;
      c ← back_loop (S (length s)) c;
      b ← peek [59];
      if b : bool then gettoken;; r ← parseline f; mret (LIST c r)
      else mret c
  end
with parsepipe (fuel : nat) : ST (list Z) (cmd word) :=
  match fuel with
  | O => out_of_fuel
  | S f =>
      c ← parseexec f;
      b ← peek [124];
      if b : bool then gettoken;; r ← parsepipe f; mret (PIPE c r)
      else mret c
  end
with parseexec (fuel : nat) : ST (list Z) (cmd word) :=
  match fuel with
  | O => out_of_fuel
  | S f =>
      b ← peek [40];
      if b : bool then parseblock f else parsesimple
  end
with parseblock (fuel : nat) : ST (list Z) (cmd word) :=
  match fuel with
  | O => out_of_fuel
  | S f =>
      b ← peek [40];
      if negb b then panic "parseblock"
      else
        gettoken;;
        c ← parseline f;
        b ← peek [41];
        if negb b then panic "syntax - missing )"
        else
          gettoken;;
          rs ← parseredirs [];
          mret (wrap c rs)
  end.

End Parse.

(** The buffer after [nulterminate]. *)
Fixpoint nulterminate (c : cmd word) (buf : list Z) : list Z :=
  match c with
  | EXEC argv => fold_left (fun b w => zinsert w.2 0 b) argv buf
  | REDIR c file _ _ => zinsert file.2 0 (nulterminate c buf)
  | PIPE l r | LIST l r => nulterminate r (nulterminate l buf)
  | BACK c => nulterminate c buf
  end.

(** [parsecmd] of a line: the command and the buffer, with its final NUL. *)
Definition parsecmd (line : list Z) : outcome (cmd word * list Z) :=
  let es := Z.of_nat (length line) in
  match (c ← parseline es (4 * length line + 4); peek [];; mret c) line with
  | Ok (c, []) => Ok (c, nulterminate c (line ++ [0]))
  | Ok (_, _ :: _) => Panic "syntax"
  | Panic m => Panic m
  | Fault => Fault
  | Blocked => Blocked
  | Fuel => Fuel
  end.

End Sh.
