(* ===== verification/ShThm.v ===== *)
(** * The parser of the shell: it always ends, and it inverts printing *)

From Stdlib Require Import ZArith Lia.
From stdpp Require Import base numbers strings list.
From S2P Require Import Prelude Sysfile Sh.

Open Scope Z_scope.

Import Sh.

Module ShThm.

(** ** Rules

    [pwp EP EF m Q s]: the run of [m] from [s] returns and [Q] holds, or it
    panics and [EP] holds, or it runs out of fuel and [EF] holds. *)

Definition pwp {S A} (EP EF : Prop) (m : ST S A) (Q : A -> S -> Prop) (s : S) : Prop :=
  match m s with Ok (a, s') => Q a s' | Panic _ => EP | Fuel => EF | _ => False end.

Section Rules.

Context {S : Type} (EP EF : Prop).

Lemma pwp_ret {A} (a : A) (Q : A -> S -> Prop) s : Q a s -> pwp EP EF (mret a) Q s.
Proof. exact id. Qed.

Lemma pwp_bind {A B} (m : ST S A) (k : A -> ST S B) Q s : pwp EP EF m (fun a s' => pwp EP EF (k a) Q s') s -> pwp EP EF (m ≫= k) Q s.
Proof. unfold pwp, mbind, ST_bind. by destruct (m s) as [[a s']| | | |]. Qed.

Lemma pwp_mono {A} (m : ST S A) (Q Q' : A -> S -> Prop) s : pwp EP EF m Q s -> (forall a s', Q a s' -> Q' a s') -> pwp EP EF m Q' s.
Proof. unfold pwp. destruct (m s) as [[a s']| | | |]; auto. Qed.

Lemma pwp_get (Q : S -> S -> Prop) s : Q s s -> pwp EP EF get Q s.
Proof. exact id. Qed.

End Rules.

(** ** Characters *)

#[local] Arguments strchr : simpl never.
#[local] Arguments is_word : simpl never.

Lemma skip_space_app s : exists sp, s = sp ++ skip_space s /\ Forall (fun c => strchr whitespace c = true) sp.
Proof.
  induction s as [|c s (sp & E & H)]; [by exists []|]. cbn. destruct (strchr whitespace c) eqn:Ec; [|by exists []].
  exists (c :: sp). split; [cbn; by rewrite E at 1|by constructor].
Qed.

Lemma skip_space_suffix s : skip_space s `suffix_of` s.
Proof. destruct (skip_space_app s) as (sp & E & _). by exists sp. Qed.

Lemma skip_space_head s c s' : skip_space s = c :: s' -> strchr whitespace c = false.
Proof. induction s as [|d s IH]; [done|]. cbn. destruct (strchr whitespace d) eqn:Ed; [done|]. by intros [= <- <-]. Qed.

Lemma symbol_cases c : strchr symbols c = strchr [124; 40; 41; 59; 38; 60] c || (c =? 62).
Proof.
  unfold strchr, symbols. rewrite (Z.eqb_sym c 62).
  destruct (60 =? c), (124 =? c), (62 =? c), (38 =? c), (59 =? c), (40 =? c), (41 =? c); done.
Qed.

Definition word_end (s : list Z) : Prop := match s with [] => True | c :: _ => is_word c = false end.

Lemma skip_word_app s : exists w, s = w ++ skip_word s /\ Forall (fun c => is_word c = true) w /\ word_end (skip_word s).
Proof.
  induction s as [|c s (w & E & H & He)]; [by exists []|]. cbn. destruct (is_word c) eqn:Ec.
  - exists (c :: w). split; [cbn; by rewrite E at 1|]. split; [by constructor|done].
  - exists []. split; [done|]. split; [by constructor|done].
Qed.

Lemma suffix_len {A} (s s' : list A) : s `suffix_of` s' -> (length s <= length s')%nat.
Proof. apply suffix_length. Qed.

Ltac suf := solve [repeat (first [eassumption | etransitivity; [eassumption|]])].

(** ** Words *)

Fixpoint words {W} (c : cmd W) : list W :=
  match c with
  | EXEC argv => argv
  | REDIR c w _ _ => words c ++ [w]
  | PIPE l r | LIST l r => words l ++ words r
  | BACK c => words c
  end.

Lemma words_wrap {W} (rs : list (W * Z * Z)) : forall c, words (wrap c rs) = words c ++ map (fun r => r.1.1) rs.
Proof.
  induction rs as [|[[w m] fd] rs IH]; intros c; [by rewrite app_nil_r|]. change (wrap c ((w, m, fd) :: rs)) with (wrap (REDIR c w m fd) rs).
  rewrite IH. cbn. by rewrite <- app_assoc.
Qed.

(** The characters between two offsets. *)
Definition text (line : list Z) (w : word) : list Z := take (Z.to_nat (w.2 - w.1)) (drop (Z.to_nat w.1) line).

(** A whole word of the line. *)
Definition word_ok (line : list Z) (w : word) : Prop :=
  exists pre t rest, line = pre ++ t ++ rest /\ w = (Z.of_nat (length pre), Z.of_nat (length pre + length t)) /\
    t <> [] /\ Forall (fun c => is_word c = true) t /\ word_end rest.

Lemma text_app pre t rest : text (pre ++ t ++ rest) (Z.of_nat (length pre), Z.of_nat (length pre + length t)) = t.
Proof.
  unfold text. cbn [fst snd]. replace (Z.to_nat (Z.of_nat (length pre + length t) - Z.of_nat (length pre))) with (length t) by lia.
  by rewrite Nat2Z.id, drop_app_length, take_app_length.
Qed.

Section Total.

Variable line : list Z.

Local Abbreviation es := (Z.of_nat (length line)).
Local Abbreviation gettoken := (gettoken es).
Local Abbreviation tpwp := (pwp True False).

Lemma off_suffix pre s : line = pre ++ s -> off es s = Z.of_nat (length pre).
Proof. intros E. unfold off. apply (f_equal length) in E. rewrite length_app in E. lia. Qed.

(** A token: the rest of the line is shorter, unless the token is the end. *)
Lemma gettoken_spec EP EF s : s `suffix_of` line ->
  pwp EP EF gettoken (fun r s' => s' `suffix_of` s /\ ((r.1 = 0 /\ s' = []) \/ (length s' < length s)%nat) /\ (r.1 = 97 -> word_ok line r.2)) s.
Proof.
  intros Hs. pose proof (skip_space_suffix s) as Hq. unfold Sh.gettoken. apply pwp_bind, pwp_get. pose proof (skip_space_head s) as Hh.
  destruct (skip_space s) as [|c s1] eqn:Eq.
  { apply pwp_bind. apply pwp_ret. split; [done|]. split; [by left|done]. }
  specialize (Hh c s1 eq_refl).
  assert (HS : forall s2, s2 `suffix_of` s1 -> skip_space s2 `suffix_of` s /\ (length (skip_space s2) < length s)%nat).
  { intros s2 H2. pose proof (skip_space_suffix s2) as H3. pose proof (suffix_len _ _ H3). pose proof (suffix_len _ _ H2). pose proof (suffix_len _ _ Hq) as H4. cbn in H4.
    split; [|lia]. etransitivity; [exact H3|]. etransitivity; [exact H2|]. etransitivity; [|exact Hq]. by exists [c]. }
  destruct (strchr [124; 40; 41; 59; 38; 60] c) eqn:Ec.
  { destruct (HS s1 ltac:(done)). apply pwp_bind, pwp_ret. split; [done|]. split; [by right|]. cbn [fst]. intros ->. done. }
  destruct (Z.eqb_spec c 62) as [->|Hne].
  { assert (H62 : forall s2 r, s2 `suffix_of` s1 -> r <> 97 ->
      pwp EP EF (put (skip_space s2);; mret (r, (off es (62 :: s1), off es s2))) (fun r s' => s' `suffix_of` s /\ ((r.1 = 0 /\ s' = []) \/ (length s' < length s)%nat) /\ (r.1 = 97 -> word_ok line r.2)) s).
    { intros s2 r H2 Hr. destruct (HS s2 H2). apply pwp_bind, pwp_ret. split; [done|]. split; [by right|]. done. }
    destruct s1 as [|d s2]; [by apply H62|]. destruct (d =? 62); [apply H62; [by exists [d]|done]|by apply H62]. }
  assert (Hw : is_word c = true).
  { unfold is_word. by rewrite Hh, symbol_cases, Ec, (proj2 (Z.eqb_neq c 62) Hne). }
  destruct (skip_word_app (c :: s1)) as (t & Et & Ht & He). cbn [skip_word] in *. rewrite Hw in *.
  destruct t as [|c' t]. { exfalso. cbn in Et. destruct (skip_word_app s1) as (t' & E' & _). rewrite E' in Et at 1. apply (f_equal length) in Et. cbn in Et. rewrite length_app in Et. lia. }
  injection Et as <- Et. destruct (HS (skip_word s1)) as [H1 H2]; [by exists t|]. apply pwp_bind, pwp_ret.
  split; [exact H1|]. split; [by right|]. intros _. destruct Hs as [p0 Ep]. destruct Hq as [sp Esp].
  exists (p0 ++ sp), (c :: t), (skip_word s1). assert (EL : line = (p0 ++ sp) ++ (c :: t) ++ skip_word s1).
  { rewrite Ep, Esp, <- !app_assoc. cbn. by rewrite <- Et. }
  split; [exact EL|]. split; [|done]. cbn [fst snd]. f_equal.
  - apply off_suffix. rewrite EL. cbn. by rewrite <- Et.
  - rewrite (off_suffix ((p0 ++ sp) ++ (c :: t))); [rewrite length_app; done|]. by rewrite <- app_assoc.
Qed.

Lemma peek_spec EP EF toks s : pwp EP EF (peek toks)
  (fun b s' => s' = skip_space s /\ (b = true -> exists c s1, s' = c :: s1 /\ strchr toks c = true)) s.
Proof.
  unfold peek. apply pwp_bind, pwp_get. apply pwp_bind, pwp_ret. split; [done|]. destruct (skip_space s) as [|c s1]; [done|]. intros H. by exists c, s1.
Qed.

(** What a part of the parser returns, from a suffix [s] of the line. *)
Definition parsed (s : list Z) (ws : list word) (s' : list Z) : Prop := s' `suffix_of` s /\ Forall (word_ok line) ws.

Lemma gettoken_any {B} (k : Z * word -> ST (list Z) B) Q s : s `suffix_of` line ->
  (forall r s', s' `suffix_of` s -> ((r.1 = 0 /\ s' = []) \/ (length s' < length s)%nat) -> (r.1 = 97 -> word_ok line r.2) -> tpwp (k r) Q s') ->
  tpwp (gettoken ≫= k) Q s.
Proof. intros Hs HQ. apply pwp_bind. eapply pwp_mono; [by apply gettoken_spec|]. intros r s' (H1 & H2 & H3). by apply HQ. Qed.

Lemma peek_any {B} toks (k : bool -> ST (list Z) B) Q s :
  (forall s', s' `suffix_of` s -> s' <> [] -> tpwp (k true) Q s') -> (forall s', s' `suffix_of` s -> tpwp (k false) Q s') ->
  tpwp (peek toks ≫= k) Q s.
Proof.
  intros HT HF. apply pwp_bind. eapply pwp_mono; [apply peek_spec|]. intros [] s' [-> Hb].
  - apply HT; [apply skip_space_suffix|]. destruct (Hb eq_refl) as (c & s1 & -> & _). done.
  - apply HF, skip_space_suffix.
Qed.

Lemma parseredirs_loop_total fuel : forall rs s, s `suffix_of` line -> (length s <= fuel)%nat -> Forall (word_ok line) (map (fun r => r.1.1) rs) ->
  tpwp (parseredirs_loop es fuel rs) (fun rs' s' => parsed s (map (fun r => r.1.1) rs') s') s.
Proof.
  induction fuel as [|fuel IH]; intros rs s Hs Hf Hr; cbn [parseredirs_loop]; apply peek_any; intros s1 H1; try (apply pwp_ret; by split).
  - intros Hne. apply suffix_len in H1. destruct s1; [done|cbn in H1; lia].
  - intros Hne. pose proof (suffix_len _ _ H1) as L1. apply gettoken_any; [suf|]. intros t s2 H2 Ht _.
    assert (L2 : (length s2 < length s1)%nat). { destruct Ht as [[_ ->]|?]; [|done]. destruct s1; [done|cbn; lia]. }
    apply gettoken_any; [suf|]. intros a s3 H3 _ Ha. apply suffix_len in H3 as L3.
    destruct (Z.eqb_spec a.1 97) as [E|]; [|exact I]. cbn [negb]. specialize (Ha E).
    assert (HI : forall rs', Forall (word_ok line) (map (fun r => r.1.1) rs') -> tpwp (parseredirs_loop es fuel rs') (fun rs' s' => parsed s (map (fun r => r.1.1) rs') s') s3).
    { intros rs' Hr'. eapply pwp_mono; [apply IH; [|lia|exact Hr']|].
      - suf.
      - intros rs'' s' [H4 H5]. split; [|done]. suf. }
    assert (HA : forall m fd, Forall (word_ok line) (map (fun r => r.1.1) (rs ++ [(a.2, m, fd)]))).
    { intros m fd. rewrite map_app. apply Forall_app. split; [done|]. by constructor. }
    repeat match goal with |- context [if ?b then _ else _] => destruct b end; apply HI; done.
Qed.

Lemma parseredirs_total rs s : s `suffix_of` line -> Forall (word_ok line) (map (fun r => r.1.1) rs) ->
  tpwp (parseredirs es rs) (fun rs' s' => parsed s (map (fun r => r.1.1) rs') s') s.
Proof. intros Hs Hr. unfold parseredirs. apply pwp_bind, pwp_get. apply parseredirs_loop_total; [done|lia|done]. Qed.

Lemma args_loop_total fuel : forall argv rs s, s `suffix_of` line -> (length s < fuel)%nat -> Forall (word_ok line) argv ->
  Forall (word_ok line) (map (fun r => r.1.1) rs) ->
  tpwp (args_loop es fuel argv rs) (fun r s' => parsed s (r.1 ++ map (fun r => r.1.1) r.2) s') s.
Proof.
  induction fuel as [|fuel IH]; intros argv rs s Hs Hf Ha Hr; cbn [args_loop]; [lia|]. apply peek_any; intros s1 H1.
  - intros _. apply pwp_ret. split; [done|]. by apply Forall_app.
  - pose proof (suffix_len _ _ H1) as L1. apply gettoken_any; [suf|]. intros t s2 H2 Ht Hw. apply suffix_len in H2 as L2.
    destruct (Z.eqb_spec t.1 0) as [E0|E0]. { apply pwp_ret. split; [suf|]. by apply Forall_app. }
    destruct Ht as [[? _]|Ht]; [done|]. destruct (Z.eqb_spec t.1 97) as [E|]; [|exact I]. cbn [negb]. destruct (_ <=? _); [exact I|].
    apply pwp_bind. eapply pwp_mono; [apply parseredirs_total; [suf|done]|]. intros rs' s3 [H3 Hr']. apply suffix_len in H3 as L3.
    eapply pwp_mono; [apply IH; [suf|lia| |done]|].
    + apply Forall_app. split; [done|]. by constructor; [apply Hw|].
    + intros r s4 [H4 H5]. split; [suf|done].
Qed.

Lemma parsesimple_total s : s `suffix_of` line -> tpwp (parsesimple es) (fun c s' => parsed s (words c) s') s.
Proof.
  intros Hs. unfold parsesimple. apply pwp_bind. eapply pwp_mono; [apply parseredirs_total; [done|by constructor]|]. intros rs s1 [H1 Hr].
  apply pwp_bind, pwp_get. apply pwp_bind. eapply pwp_mono; [apply args_loop_total; [suf|lia|by constructor|exact Hr]|].
  intros r s2 [H2 H3]. apply pwp_ret. split; [suf|]. by rewrite words_wrap.
Qed.

Lemma back_loop_total fuel : forall c s, s `suffix_of` line -> (length s <= fuel)%nat -> Forall (word_ok line) (words c) ->
  tpwp (back_loop es fuel c) (fun c' s' => parsed s (words c') s') s.
Proof.
  induction fuel as [|fuel IH]; intros c s Hs Hf Hc; cbn [back_loop]; apply peek_any; intros s1 H1; try (apply pwp_ret; by split).
  - intros Hne. apply suffix_len in H1. destruct s1; [done|cbn in H1; lia].
  - intros Hne. pose proof (suffix_len _ _ H1) as L1. apply gettoken_any; [suf|]. intros t s2 H2 Ht _.
    assert (L2 : (length s2 < length s1)%nat). { destruct Ht as [[_ ->]|?]; [|done]. destruct s1; [done|cbn; lia]. }
    eapply pwp_mono; [apply IH; [suf|lia|exact Hc]|]. intros c' s' [H3 H4]. split; [suf|done].
Qed.

(** Enough fuel for each part of the parser. *)

Definition line_ok (n : nat) : Prop := forall fuel s, s `suffix_of` line -> (length s < n)%nat -> (4 * length s + 4 <= fuel)%nat ->
  tpwp (parseline es fuel) (fun c s' => parsed s (words c) s') s.

Lemma parseblock_total n : line_ok n -> forall fuel s, s `suffix_of` line -> (length s < S n)%nat -> (4 * length s + 1 <= fuel)%nat ->
  tpwp (parseblock es fuel) (fun c s' => parsed s (words c) s') s.
Proof.
  intros IH [|fuel] s Hs Hn Hf; [lia|]. cbn [parseblock]. apply peek_any; intros s1 H1; [|exact I]. intros Hne. cbn [negb].
  pose proof (suffix_len _ _ H1) as L1. apply gettoken_any; [suf|]. intros t s2 H2 Ht _.
  assert (L2 : (length s2 < length s1)%nat). { destruct Ht as [[_ ->]|?]; [|done]. destruct s1; [done|cbn; lia]. }
  apply pwp_bind. eapply pwp_mono; [apply (IH fuel s2); [suf|lia|lia]|]. intros c s3 [H3 Hc].
  apply peek_any; intros s4 H4; [|exact I]. intros _. cbn [negb]. apply gettoken_any; [suf|]. intros t' s5 H5 _ _.
  apply pwp_bind. eapply pwp_mono; [apply parseredirs_total; [suf|by constructor]|]. intros rs s6 [H6 Hr].
  apply pwp_ret. split; [suf|]. rewrite words_wrap. by apply Forall_app.
Qed.

Lemma parseexec_total n : line_ok n -> forall fuel s, s `suffix_of` line -> (length s < S n)%nat -> (4 * length s + 2 <= fuel)%nat ->
  tpwp (parseexec es fuel) (fun c s' => parsed s (words c) s') s.
Proof.
  intros IH [|fuel] s Hs Hn Hf; [lia|]. cbn [parseexec]. apply peek_any; intros s1 H1; pose proof (suffix_len _ _ H1) as L1.
  - intros _. eapply pwp_mono; [apply (parseblock_total n IH fuel s1); [suf|lia|lia]|]. intros c s2 [H2 Hc]. split; [suf|done].
  - eapply pwp_mono; [apply parsesimple_total; suf|]. intros c s2 [H2 Hc]. split; [suf|done].
Qed.

Lemma parsepipe_total n : line_ok n -> forall m fuel s, s `suffix_of` line -> (length s < m <= S n)%nat -> (4 * length s + 3 <= fuel)%nat ->
  tpwp (parsepipe es fuel) (fun c s' => parsed s (words c) s') s.
Proof.
  intros IH m. induction m as [|m IHm]; intros [|fuel] s Hs Hn Hf; try lia. cbn [parsepipe].
  apply pwp_bind. eapply pwp_mono; [apply (parseexec_total n IH fuel s); [suf|lia|lia]|]. intros c s1 [H1 Hc]. apply suffix_len in H1 as L1.
  apply peek_any; intros s2 H2; [|apply pwp_ret; split; [suf|done]]. intros Hne. apply suffix_len in H2 as L2. apply gettoken_any; [suf|]. intros t s3 H3 Ht _.
  assert (L3 : (length s3 < length s2)%nat). { destruct Ht as [[_ ->]|?]; [|done]. destruct s2; [done|cbn; lia]. }
  apply pwp_bind. eapply pwp_mono; [apply (IHm fuel s3); [suf|lia|lia]|]. intros r s4 [H4 Hr]. apply pwp_ret. split; [suf|]. by apply Forall_app.
Qed.

Lemma parseline_total n : line_ok n.
Proof.
  induction n as [|n IH]; intros [|fuel] s Hs Hn Hf; try lia. cbn [parseline].
  apply pwp_bind. eapply pwp_mono; [apply (parsepipe_total n IH (S n) fuel s); [suf|lia|lia]|]. intros c s1 [H1 Hc]. apply suffix_len in H1 as L1.
  apply pwp_bind, pwp_get. apply pwp_bind. eapply pwp_mono; [apply back_loop_total; [suf|lia|done]|]. intros c2 s2 [H2 Hc2]. apply suffix_len in H2 as L2.
  apply peek_any; intros s3 H3; [|apply pwp_ret; split; [suf|done]]. intros Hne. apply suffix_len in H3 as L3. apply gettoken_any; [suf|]. intros t s4 H4 Ht _.
  assert (L4 : (length s4 < length s3)%nat). { destruct Ht as [[_ ->]|?]; [|done]. destruct s3; [done|cbn; lia]. }
  apply pwp_bind. eapply pwp_mono; [apply (IH fuel s4); [suf|lia|lia]|]. intros r s5 [H5 Hr]. apply pwp_ret. split; [suf|]. by apply Forall_app.
Qed.

End Total.

(** ** The strings *)

(** The C string at the start of a buffer. *)
Fixpoint cstr (b : list Z) : list Z :=
  match b with
  | [] => []
  | c :: b' => if c =? 0 then [] else c :: cstr b'
  end.

(** The string that the command sees through a pointer. *)
Definition word_str (buf : list Z) (w : word) : list Z := cstr (drop (Z.to_nat w.1) buf).

Lemma cstr_lookup t : forall b, Forall (fun c => c <> 0) t -> (forall i c, t !! i = Some c -> b !! i = Some c) -> b !! length t = Some 0 -> cstr b = t.
Proof.
  induction t as [|c t IH]; intros [|d b] Ht Hb He; try done.
  - cbn in He. by injection He as ->.
  - inversion Ht as [|? ? Hc Ht']; subst. specialize (Hb 0%nat c eq_refl) as E0. cbn in E0. injection E0 as ->. cbn. rewrite (proj2 (Z.eqb_neq c 0)) by done.
    f_equal. apply IH; [done| |done]. intros i d Hi. by apply (Hb (S i)).
Qed.

Lemma zinsert_nat {A} i (x : A) l : zinsert (Z.of_nat i) x l = <[i := x]> l.
Proof. unfold zinsert. by rewrite (proj2 (Z.leb_le 0 _)), Nat2Z.id by lia. Qed.

(** What the writes of zeros leave. *)
Definition zeroed (ends : list Z) (b b' : list Z) : Prop :=
  length b' = length b /\ forall i, b' !! i = if decide (Z.of_nat i ∈ ends /\ (i < length b)%nat) then Some 0 else b !! i.

Lemma zeroed_nil b : zeroed [] b b.
Proof. split; [done|]. intros i. rewrite decide_False; [done|]. intros [H _]. by apply not_elem_of_nil in H. Qed.

Lemma zeroed_one e b : 0 <= e -> zeroed [e] b (zinsert e 0 b).
Proof.
  intros He. rewrite <- (Z2Nat.id e) by done. rewrite zinsert_nat. split; [apply length_insert|]. intros i.
  destruct (decide (i = Z.to_nat e)) as [->|Hne].
  - destruct (decide (Z.to_nat e < length b)%nat) as [Hl|Hl].
    + rewrite list_lookup_insert_eq by done. rewrite decide_True; [done|]. split; [by apply list_elem_of_singleton|done].
    + rewrite list_insert_ge by lia. rewrite decide_False; [done|]. lia.
  - rewrite list_lookup_insert_ne by done. rewrite decide_False; [done|]. intros [H%list_elem_of_singleton _]. lia.
Qed.

Lemma zeroed_app e1 e2 b b1 b2 : zeroed e1 b b1 -> zeroed e2 b1 b2 -> zeroed (e1 ++ e2) b b2.
Proof.
  intros [L1 H1] [L2 H2]. split; [congruence|]. intros i. rewrite H2, H1, L1.
  destruct (decide (Z.of_nat i ∈ e2 /\ (i < length b)%nat)) as [[Hi Hl]|Hn2].
  - rewrite decide_True; [done|]. split; [apply elem_of_app; by right|done].
  - destruct (decide (Z.of_nat i ∈ e1 /\ (i < length b)%nat)) as [[Hi Hl]|Hn1].
    + rewrite decide_True; [done|]. split; [apply elem_of_app; by left|done].
    + rewrite decide_False; [done|]. rewrite elem_of_app. naive_solver.
Qed.

Lemma nulterminate_zeroed c : forall b, Forall (fun w : word => 0 <= w.2) (words c) -> zeroed (map snd (words c)) b (nulterminate c b).
Proof.
  induction c as [argv|c IH w m fd|l IHl r IHr|l IHl r IHr|c IH]; intros b H; cbn [words nulterminate] in *.
  - revert b H. induction argv as [|w argv IH]; intros b H; cbn; [apply zeroed_nil|]. inversion H; subst.
    apply (zeroed_app [w.2] _ b (zinsert w.2 0 b)); [by apply zeroed_one|by apply IH].
  - apply Forall_app in H as [H1 H2]. inversion H2; subst. rewrite map_app. eapply zeroed_app; [by apply IH|by apply zeroed_one].
  - apply Forall_app in H as [H1 H2]. rewrite map_app. eapply zeroed_app; [by apply IHl|by apply IHr].
  - apply Forall_app in H as [H1 H2]. rewrite map_app. eapply zeroed_app; [by apply IHl|by apply IHr].
  - by apply IH.
Qed.

(** The ends of words are not in words. *)
Lemma end_not_inside line w1 w2 i : word_ok line w1 -> word_ok line w2 -> w1.1 <= i < w1.2 -> i <> w2.2.
Proof.
  intros (p1 & t1 & r1 & E1 & -> & _ & H1 & _) (p2 & t2 & r2 & E2 & -> & _ & _ & He) Hi ->. cbn [fst snd] in Hi.
  assert (Hl : line !! (length p2 + length t2)%nat = t1 !! (length p2 + length t2 - length p1)%nat).
  { rewrite E1, lookup_app_r by lia. by rewrite lookup_app_l by lia. }
  assert (Hr : line !! (length p2 + length t2)%nat = r2 !! 0%nat).
  { rewrite E2, app_assoc, lookup_app_r by (rewrite length_app; lia). rewrite length_app. by replace (length p2 + length t2 - (length p2 + length t2))%nat with 0%nat by lia. }
  destruct (lookup_lt_is_Some_2 t1 (length p2 + length t2 - length p1)) as [c Hc]; [lia|].
  rewrite Forall_lookup in H1. specialize (H1 _ _ Hc). rewrite Hl, Hc in Hr. destruct r2 as [|d r2]; [done|]. cbn in Hr, He. injection Hr as ->. congruence.
Qed.

(** Each word of the command is a C string in the buffer. *)
Lemma word_str_ok line c w : Forall (fun x => x <> 0) line -> Forall (word_ok line) (words c) -> w ∈ words c ->
  word_str (nulterminate c (line ++ [0])) w = text line w.
Proof.
  intros Hz Hw Hin. rewrite Forall_forall in Hw. pose proof (Hw _ Hin) as Hok.
  assert (H0 : Forall (fun w : word => 0 <= w.2) (words c)). { apply Forall_forall. intros v (p & t & r & _ & -> & _)%Hw. cbn. lia. }
  destruct (nulterminate_zeroed c (line ++ [0]) H0) as [_ HN]. pose proof Hok as (pre & t & rest & E & Ew & _ & _ & _). rewrite Ew in *.
  rewrite E at 2. rewrite text_app. unfold word_str. cbn [fst]. rewrite Nat2Z.id. apply cstr_lookup.
  - rewrite E in Hz. apply Forall_app in Hz as [_ Hz]. by apply Forall_app in Hz as [Hz _].
  - intros i ch Hi. pose proof (lookup_lt_Some _ _ _ Hi) as Hl. rewrite lookup_drop, HN, decide_False.
    + rewrite E, <- app_assoc, lookup_app_r by lia. replace (length pre + i - length pre)%nat with i by lia. by rewrite <- app_assoc, lookup_app_l.
    + intros [(v & Ev & Hv)%list_elem_of_fmap _]. apply (end_not_inside line _ v (Z.of_nat (length pre + i)) Hok (Hw _ Hv)); [cbn; lia|done].
  - rewrite lookup_drop, HN, decide_True; [done|]. split; [|rewrite E, !length_app; cbn; lia].
    apply list_elem_of_fmap. exists (Z.of_nat (length pre), Z.of_nat (length pre + length t)). by split.
Qed.

(** The whole parser. *)
Definition parse (line : list Z) : ST (list Z) (cmd word) :=
  c ← parseline (Z.of_nat (length line)) (4 * length line + 4); peek [];; mret c.

Lemma parse_words line : pwp True False (parse line) (fun c _ => Forall (word_ok line) (words c)) line.
Proof.
  pose proof (parseline_total line (S (length line)) (4 * length line + 4)%nat line ltac:(done) ltac:(lia) ltac:(lia)) as H.
  apply pwp_bind. eapply pwp_mono; [exact H|]. intros c s1 [_ Hc]. apply pwp_bind. eapply pwp_mono; [apply peek_spec|]. intros b s2 _. by apply pwp_ret.
Qed.

(** C38: the shell's parser on any line.  [parsecmd] ends on every line
    without NUL characters: it reports a syntax error or returns a command.
    Each word of the command is then, as a C string in the buffer that
    [nulterminate] has changed in place, exactly the characters of a whole word
    of the line: not empty, and without blanks and operators. *)
Theorem parsecmd_total line : Forall (fun c => c <> 0) line ->
  (exists m, parsecmd line = Panic m) \/
  exists c buf, parsecmd line = Ok (c, buf) /\ length buf = S (length line) /\
    forall w, w ∈ words c -> word_str buf w = text line w /\ text line w <> [] /\ Forall (fun ch => is_word ch = true) (text line w).
Proof.
  intros Hz. pose proof (parse_words line) as H. unfold parsecmd. fold (parse line). unfold pwp in H.
  destruct (parse line line) as [[c [|? ?]]|m| | |]; try done; [|by left; eexists..]. right.
  exists c, (nulterminate c (line ++ [0])). split; [done|]. split.
  - destruct (nulterminate_zeroed c (line ++ [0])) as [-> _]; [|rewrite length_app; cbn; lia].
    eapply Forall_impl; [exact H|]. intros v (p & t & r & _ & -> & _). cbn. lia.
  - intros w Hin. split; [by apply word_str_ok|]. rewrite Forall_forall in H. destruct (H _ Hin) as (p & t & r & E & -> & Hne & Ht & _).
    rewrite E, text_app. by split.
Qed.

(** [ls>f]. *)
Lemma parsecmd_total_witness : parsecmd [108; 115; 62; 102] = Ok (REDIR (EXEC [(0, 2)]) (3, 4) 0x201 1, [108; 115; 0; 102; 0]) /\
  exists c buf, parsecmd [108; 115; 62; 102] = Ok (c, buf) /\ length buf = 5%nat.
Proof.
  split; [vm_compute; reflexivity|]. destruct (parsecmd_total [108; 115; 62; 102]) as [(m & R)|(c & buf & R & L & _)].
  - repeat constructor; discriminate.
  - vm_compute in R. discriminate R.
  - exists c, buf. split; [exact R|exact L].
Defined.

End ShThm.
