(* ===== verification/ShPrint.v ===== *)
(** * Printing commands of the shell, and parsing them again *)

From Stdlib Require Import ZArith Lia.
From stdpp Require Import base numbers strings list.
From S2P Require Import Prelude Sysfile Sh ShThm.

Open Scope Z_scope.

Import Sh ShThm.

Module ShPrint.

#[local] Arguments strchr : simpl never.
#[local] Arguments is_word : simpl never.

(** ** Printing *)

Fixpoint cmd_map {V W} (f : V -> W) (c : cmd V) : cmd W :=
  match c with
  | EXEC argv => EXEC (map f argv)
  | REDIR c w m fd => REDIR (cmd_map f c) (f w) m fd
  | PIPE l r => PIPE (cmd_map f l) (cmd_map f r)
  | LIST l r => LIST (cmd_map f l) (cmd_map f r)
  | BACK c => BACK (cmd_map f c)
  end.

Definition redir : Type := list Z * Z * Z.

Definition print_redir (r : redir) : list Z := 32 :: (if r.1.2 =? Sysfile.O_RDONLY then 60 else 62) :: r.1.1.

Definition print_redirs (rs : list redir) : list Z := concat (map print_redir rs).

Definition print_words (ws : list (list Z)) : list Z := concat (map (cons 32) ws).

Definition paren (b : bool) (s : list Z) : list Z := if b then 32 :: 40 :: s ++ [41] else s.

(** The command as an operand: of nothing (0), of [;] or [&] (1), on the right
    (2) or the left (3) of a bar. *)
Fixpoint print (lvl : nat) (c : cmd (list Z)) : list Z :=
  match c with
  | EXEC argv => print_words argv
  | REDIR c w m fd => print 3 c ++ print_redir (w, m, fd)
  | PIPE l r => paren (2 <? lvl)%nat (print 3 l ++ 124 :: print 2 r)
  | LIST l r => paren (0 <? lvl)%nat (print 1 l ++ 59 :: print 0 r)
  | BACK c => paren (1 <? lvl)%nat (print 1 c ++ [38])
  end.

(** Words as the shell can read them. *)
Definition good_word (w : list Z) : Prop := w <> [] /\ Forall (fun c => is_word c = true /\ c <> 0) w.

Definition good_mode (m fd : Z) : Prop := (m = Sysfile.O_RDONLY /\ fd = 0) \/ (m = Z.lor Sysfile.O_WRONLY Sysfile.O_CREATE /\ fd = 1).

Definition good_redir (r : redir) : Prop := good_word r.1.1 /\ good_mode r.1.2 r.2.

(** A command that a line of the shell can express. *)
Fixpoint printable (c : cmd (list Z)) : Prop :=
  match c with
  | EXEC argv => Z.of_nat (length argv) < MAXARGS /\ Forall good_word argv
  | REDIR c w m fd => printable c /\ good_redir (w, m, fd)
  | PIPE l r | LIST l r => printable l /\ printable r
  | BACK c => printable c
  end.

(** ** Tokens of a printed line *)

Lemma skip_sp s : skip_space (32 :: s) = skip_space s.
Proof. done. Qed.

Lemma skip_char c s : strchr whitespace c = false -> skip_space (c :: s) = c :: s.
Proof. intros E. cbn. by rewrite E. Qed.

Lemma skip_idem s : skip_space (skip_space s) = skip_space s.
Proof. induction s as [|c s IH]; [done|]. cbn. destruct (strchr whitespace c) eqn:E; [done|]. cbn. by rewrite E. Qed.

Lemma word_char c : is_word c = true -> strchr whitespace c = false /\ strchr symbols c = false.
Proof. unfold is_word. by destruct (strchr whitespace c), (strchr symbols c). Qed.

Lemma symbol_char c : strchr symbols c = true -> strchr whitespace c = false.
Proof.
  unfold strchr, symbols, whitespace. destruct (Z.eqb_spec 60 c), (Z.eqb_spec 124 c), (Z.eqb_spec 62 c), (Z.eqb_spec 38 c), (Z.eqb_spec 59 c), (Z.eqb_spec 40 c), (Z.eqb_spec 41 c); subst; done.
Qed.

Lemma skip_word_good w r : Forall (fun c => is_word c = true) w -> word_end r -> skip_word (w ++ r) = r.
Proof.
  intros Hw Hr. induction Hw as [|c w Hc Hw IH]; cbn.
  - destruct r as [|d r]; [done|]. cbn in *. by rewrite Hr.
  - by rewrite Hc.
Qed.

(** The text that follows a command begins with one of the characters. *)
Definition follows (toks s : list Z) : Prop := match s with [] => True | c :: _ => strchr toks c = true end.

Section Line.

Variable line : list Z.

Local Abbreviation es := (Z.of_nat (length line)).
Local Abbreviation gettoken := (gettoken es).
Local Abbreviation rpwp := (pwp False True).
Local Abbreviation tx := (cmd_map (text line)).

Lemma pwp_peek {EP EF} toks Q s c r : skip_space s = c :: r -> Q (strchr toks c) (c :: r) -> pwp EP EF (peek toks) Q s.
Proof. intros E HQ. unfold pwp, peek, mbind, ST_bind, get, put, mret, ST_ret. by rewrite E. Qed.

Lemma pwp_peek_end {EP EF} toks Q s : skip_space s = [] -> Q false [] -> pwp EP EF (peek toks) Q s.
Proof. intros E HQ. unfold pwp, peek, mbind, ST_bind, get, put, mret, ST_ret. by rewrite E. Qed.

Lemma pwp_symbol {EP EF} Q s c r : skip_space s = c :: r -> strchr [124; 40; 41; 59; 38; 60] c = true ->
  (forall w, Q (c, w) (skip_space r)) -> pwp EP EF gettoken Q s.
Proof. intros E Hc HQ. unfold pwp, Sh.gettoken, mbind, ST_bind, get, put, mret, ST_ret. rewrite E, Hc. apply HQ. Qed.

Lemma pwp_gt {EP EF} Q s d r : skip_space s = 62 :: d :: r -> d <> 62 -> (forall w, Q (62, w) (skip_space (d :: r))) -> pwp EP EF gettoken Q s.
Proof.
  intros E Hd HQ. unfold pwp, Sh.gettoken, mbind, ST_bind, get, put, mret, ST_ret. rewrite E. change (strchr [124; 40; 41; 59; 38; 60] 62) with false.
  change (62 =? 62) with true. cbv iota. rewrite (proj2 (Z.eqb_neq d 62)) by done. apply HQ.
Qed.

Lemma pwp_end {EP EF} Q s : skip_space s = [] -> (forall w, Q (0, w) []) -> pwp EP EF gettoken Q s.
Proof. intros E HQ. unfold pwp, Sh.gettoken, mbind, ST_bind, get, put, mret, ST_ret. rewrite E. apply HQ. Qed.

Lemma pwp_word {EP EF} Q s w r : skip_space s = w ++ r -> good_word w -> word_end r -> s `suffix_of` line ->
  (forall v, text line v = w -> Q (97, v) (skip_space r)) -> pwp EP EF gettoken Q s.
Proof.
  intros E [Hne Hw] Hr Hs HQ. assert (Hw' : Forall (fun c => is_word c = true) w) by (eapply Forall_impl; [exact Hw|]; by intros c [? _]).
  pose proof (skip_word_good w r Hw' Hr) as Ek. destruct w as [|c w]; [done|]. inversion Hw' as [|? ? Hc _]; subst. destruct (word_char c Hc) as [H1 H2].
  rewrite symbol_cases in H2. apply orb_false_iff in H2 as [H2 H3]. unfold pwp, Sh.gettoken, mbind, ST_bind, get, put, mret, ST_ret.
  rewrite E. cbn [app]. rewrite H2, H3. change (c :: w ++ r) with ((c :: w) ++ r). rewrite Ek. apply HQ.
  assert (Hq : skip_space s `suffix_of` line) by (etransitivity; [apply skip_space_suffix|done]). rewrite E in Hq. destruct Hq as [pre Ep].
  rewrite (off_suffix line pre), (off_suffix line (pre ++ (c :: w))) by (rewrite ?Ep, <- ?app_assoc; done). rewrite length_app, Ep. apply text_app.
Qed.

(** ** Redirections *)

Definition text_redir (r : word * Z * Z) : redir := (text line r.1.1, r.1.2, r.2).

(** A text that does not begin with a redirection, and ends a word. *)
Definition plain (s : list Z) : Prop := word_end s /\ match skip_space s with [] => True | c :: _ => strchr [60; 62] c = false end.

Lemma skip_suffix s : s `suffix_of` line -> skip_space s `suffix_of` line.
Proof. intros H. etransitivity; [apply skip_space_suffix|done]. Qed.

Lemma redirs_run rs : forall fuel acc s rest, Forall good_redir rs -> plain rest -> s `suffix_of` line ->
  skip_space s = skip_space (print_redirs rs ++ rest) ->
  rpwp (parseredirs_loop es fuel acc) (fun out s' => s' = skip_space rest /\ s' `suffix_of` line /\ map text_redir out = map text_redir acc ++ rs) s.
Proof.
  induction rs as [|r rs IH]; intros fuel acc s rest Hr Hp Hs Es.
  - cbn [print_redirs map concat app] in Es. destruct fuel as [|fuel]; cbn [parseredirs_loop]; apply pwp_bind.
    all: destruct Hp as [_ Hp]; destruct (skip_space rest) as [|c q] eqn:Eq.
    all: try (eapply pwp_peek_end; [exact Es|]); try (eapply pwp_peek; [exact Es|rewrite Hp]).
    all: apply pwp_ret; split; [done|]; split; [|by rewrite app_nil_r].
    all: try (by rewrite <- Es; apply skip_suffix).
  - inversion Hr as [|? ? [Hw Hm] Hr']; subst. destruct r as [[w m] fd]. cbn [fst snd] in *.
    assert (Hx : exists d, skip_space (print_redirs ((w, m, fd) :: rs) ++ rest) = d :: w ++ print_redirs rs ++ rest /\
                  ((d = 60 /\ m = Sysfile.O_RDONLY /\ fd = 0) \/ (d = 62 /\ m = Z.lor Sysfile.O_WRONLY Sysfile.O_CREATE /\ fd = 1))).
    { destruct Hm as [[-> ->]|[-> ->]]; [exists 60|exists 62]; (split; [|auto]); cbn; by rewrite <- ?app_assoc. }
    destruct Hx as (d & Ex & Hd). pose proof (eq_trans Es Ex) as Es2. clear Es. rename Es2 into Es. assert (Hb : strchr [60; 62] d = true) by (by destruct Hd as [(-> & _)|(-> & _)]).
    assert (Hwe : word_end (print_redirs rs ++ rest)) by (destruct rs as [|[[]]]; [apply Hp|done]).
    assert (Hs1 : (d :: w ++ print_redirs rs ++ rest) `suffix_of` line) by (rewrite <- Es; by apply skip_suffix).
    assert (Hs2 : (w ++ print_redirs rs ++ rest) `suffix_of` line) by (etransitivity; [|exact Hs1]; by exists [d]).
    destruct fuel as [|fuel]; cbn [parseredirs_loop]; apply pwp_bind; (eapply pwp_peek; [exact Es|]); rewrite Hb; [exact I|].
    apply pwp_bind. match goal with |- pwp _ _ _ ?K0 _ => set (K := K0) end.
    assert (HK : forall v, K (d, v) (skip_space (w ++ print_redirs rs ++ rest))).
    { intros v. unfold K. cbn [fst snd]. apply pwp_bind. assert (Esk : skip_space (skip_space (w ++ print_redirs rs ++ rest)) = w ++ print_redirs rs ++ rest).
      { rewrite skip_idem. destruct Hw as [Hne Hw]. destruct w as [|ch w]; [done|]. inversion Hw as [|? ? [Hc _] _]; subst. cbn [app]. apply skip_char, (word_char ch Hc). }
      eapply pwp_word; [exact Esk|exact Hw|exact Hwe|by apply skip_suffix|]. intros u Hu. cbn [fst snd]. change (negb (97 =? 97)) with false. cbv iota.
      assert (HI : forall m' fd', (m', fd') = (m, fd) -> rpwp (parseredirs_loop es fuel (acc ++ [(u, m', fd')])) (fun out s' => s' = skip_space rest /\ s' `suffix_of` line /\
        map text_redir out = map text_redir acc ++ (w, m, fd) :: rs) (skip_space (print_redirs rs ++ rest))).
      { intros m' fd' [= -> ->]. eapply pwp_mono; [eapply IH; [exact Hr'|exact Hp| |apply skip_idem]|].
        - apply skip_suffix. etransitivity; [|exact Hs2]. by exists w.
        - intros out s' (H1 & H2 & H3). split; [done|]. split; [done|]. rewrite H3, map_app, <- app_assoc. cbn. unfold text_redir at 2. cbn. by rewrite Hu. }
      destruct Hd as [(-> & -> & ->)|(-> & -> & ->)]; cbn [Z.eqb Pos.eqb]; by apply HI. }
    destruct Hd as [(-> & _)|(-> & _)].
    + eapply pwp_symbol; [by rewrite skip_char|done|exact HK].
    + destruct Hw as [Hne Hw]. destruct w as [|ch w]; [done|]. inversion Hw as [|? ? [Hc _] _]; subst.
      eapply pwp_gt; [by rewrite skip_char| |exact HK]. intros ->. done.
Qed.

(** ** Simple commands *)

Definition after_exec : list Z := [124; 41; 38; 59].

Lemma after_symbols toks c : (toks = after_exec \/ toks = [41; 38; 59] \/ toks = [41]) -> strchr toks c = true -> strchr symbols c = true /\ strchr after_exec c = true.
Proof.
  intros H. destruct H as [->|[->| ->]]; unfold strchr, symbols, after_exec;
    destruct (Z.eqb_spec 60 c), (Z.eqb_spec 124 c), (Z.eqb_spec 62 c), (Z.eqb_spec 38 c), (Z.eqb_spec 59 c), (Z.eqb_spec 40 c), (Z.eqb_spec 41 c); subst; done.
Qed.

(** A text that ends a word, and whose first token is one of the characters. *)
Definition next_in (toks rest : list Z) : Prop := word_end rest /\ follows toks (skip_space rest).

Lemma next_plain rest : next_in after_exec rest -> plain rest.
Proof.
  intros [H1 H]. split; [done|]. destruct (skip_space rest) as [|c r]; [done|]. cbn in H. unfold strchr, after_exec in *.
  destruct (Z.eqb_spec 60 c), (Z.eqb_spec 62 c), (Z.eqb_spec 124 c), (Z.eqb_spec 38 c), (Z.eqb_spec 59 c), (Z.eqb_spec 41 c); subst; done.
Qed.

Lemma good_head w x : good_word w -> skip_space (w ++ x) = w ++ x /\ forall toks, (forall c, strchr toks c = true -> strchr symbols c = true) ->
  exists c w', w = c :: w' /\ strchr toks c = false.
Proof.
  intros [Hne Hw]. destruct w as [|c w]; [done|]. inversion Hw as [|? ? [Hc _] _]; subst. destruct (word_char c Hc) as [H1 H2]. split; [by apply skip_char|].
  intros toks Ht. exists c, w. split; [done|]. destruct (strchr toks c) eqn:E; [|done]. by rewrite (Ht c E) in H2.
Qed.

Lemma words_plain ws x : ws <> [] -> Forall good_word ws -> plain (print_words ws ++ x).
Proof.
  destruct ws as [|w ws]; [done|]. intros _ Hw. inversion Hw as [|? ? Hg _]; subst. split; [done|].
  change (print_words (w :: ws) ++ x) with (32 :: (w ++ print_words ws) ++ x). rewrite skip_sp, <- app_assoc.
  destruct (good_head w (print_words ws ++ x) Hg) as [E Hh]. destruct (Hh [60; 62]) as (c & w' & -> & Hc).
  { intros c. unfold strchr, symbols. destruct (Z.eqb_spec 60 c), (Z.eqb_spec 62 c), (Z.eqb_spec 124 c); subst; done. }
  rewrite E. done.
Qed.

(** The redirections that are left when the words [ws] are. *)
Definition pending (ws : list (list Z)) (rs : list redir) : list redir := match ws with [] => [] | _ :: _ => rs end.

Lemma args_run ws : forall fuel rs argv acc s rest, Forall good_word ws -> Forall good_redir rs -> next_in after_exec rest ->
  Z.of_nat (length argv + length ws) < MAXARGS -> s `suffix_of` line -> skip_space s = skip_space (print_words ws ++ print_redirs (pending ws rs) ++ rest) ->
  rpwp (args_loop es fuel argv acc) (fun r s' => s' = skip_space rest /\ s' `suffix_of` line /\ map (text line) r.1 = map (text line) argv ++ ws /\
    map text_redir r.2 = map text_redir acc ++ pending ws rs) s.
Proof.
  induction ws as [|w ws IH]; intros fuel rs argv acc s rest Hw Hr Hf Hn Hs Es; pose proof (next_plain rest Hf) as Hp.
  - cbn [print_words pending print_redirs map concat app] in Es. destruct Hf as [_ Hf].
    assert (HR : skip_space rest `suffix_of` line) by (rewrite <- Es; by apply skip_suffix).
    assert (HQ : skip_space rest = skip_space rest /\ skip_space rest `suffix_of` line /\ map (text line) argv = map (text line) argv ++ [] /\ map text_redir acc = map text_redir acc ++ []) by (by rewrite !app_nil_r).
    destruct (skip_space rest) as [|c r] eqn:Er.
    + destruct fuel as [|fuel]; cbn [args_loop]; apply pwp_bind; (eapply pwp_peek_end; [exact Es|]); [exact I|]. apply pwp_bind. eapply pwp_end; [done|].
      intros v. apply pwp_ret. exact HQ.
    + destruct fuel as [|fuel]; cbn [args_loop]; apply pwp_bind; (eapply pwp_peek; [exact Es|]); fold after_exec; cbn in Hf; rewrite Hf; apply pwp_ret; exact HQ.
  - inversion Hw as [|? ? Hg Hw']; subst. cbn [print_words pending map concat app] in Es. rewrite skip_sp in Es. cbn [app] in Es. fold (print_words ws) in Es.
    rewrite <- app_assoc in Es. destruct (good_head w (print_words ws ++ print_redirs rs ++ rest) Hg) as [E Hh]. rewrite E in Es.
    destruct (Hh after_exec) as (c & w' & -> & Hc). { intros c Hc. by apply (after_symbols after_exec c); auto. }
    assert (Hwe : word_end (print_words ws ++ print_redirs rs ++ rest)). { destruct ws; [|done]. destruct rs as [|[[]]]; [|done]. apply Hp. }
    assert (HS : ((c :: w') ++ print_words ws ++ print_redirs rs ++ rest) `suffix_of` line) by (rewrite <- Es; by apply skip_suffix).
    destruct fuel as [|fuel]; cbn [args_loop]; apply pwp_bind; (eapply pwp_peek; [exact Es|]); fold after_exec; rewrite Hc; [exact I|].
    apply pwp_bind. eapply (pwp_word _ _ (c :: w')); [exact E|exact Hg|exact Hwe|exact HS|]. intros v Hv. cbn [fst snd]. change (97 =? 0) with false. change (negb (97 =? 97)) with false.
    cbv iota. rewrite (proj2 (Z.leb_gt _ _)). 2: { rewrite length_app. cbn in *. lia. }
    assert (HS2 : (print_words ws ++ print_redirs rs ++ rest) `suffix_of` line) by (etransitivity; [|exact HS]; by exists (c :: w')).
    apply pwp_bind. unfold parseredirs. apply pwp_bind, pwp_get.
    eapply pwp_mono; [eapply (redirs_run (match ws with [] => rs | _ => [] end)) with (rest := match ws with [] => rest | _ => print_words ws ++ print_redirs rs ++ rest end)|].
    + by destruct ws.
    + destruct ws; [done|by apply words_plain].
    + by apply skip_suffix.
    + rewrite skip_idem. by destruct ws.
    + intros rs' s' (E1 & H1 & H2). cbv beta. eapply pwp_mono; [eapply (IH fuel rs (argv ++ [v]) rs' s' rest)|].
      * done.
      * done.
      * done.
      * rewrite length_app. cbn in *. lia.
      * done.
      * rewrite E1, skip_idem. by destruct ws.
      * intros r s2 (F1 & F2 & F3 & F4). split; [done|]. split; [done|]. rewrite F3, F4, H2, map_app, <- !app_assoc. cbn. rewrite Hv. split; [done|].
        destruct ws; cbn; by rewrite ?app_nil_r.
Qed.

(** ** Levels of the grammar *)

(** The part of the parser returns [t] and stops at [rest]. *)
Definition gives (t : cmd (list Z)) (rest : list Z) (c : cmd word) (s' : list Z) : Prop := s' = skip_space rest /\ s' `suffix_of` line /\ tx c = t.

Definition P3 (t : cmd (list Z)) : Prop := forall fuel rs s rest, Forall good_redir rs -> next_in after_exec rest -> s `suffix_of` line ->
  skip_space s = skip_space (print 3 t ++ print_redirs rs ++ rest) -> rpwp (parseexec es fuel) (gives (wrap t rs) rest) s.

Definition P2 (t : cmd (list Z)) : Prop := forall fuel s rest, next_in [41; 38; 59] rest -> s `suffix_of` line ->
  skip_space s = skip_space (print 2 t ++ rest) -> rpwp (parsepipe es fuel) (gives t rest) s.

(** [parsepipe] and the loop over ampersands, which goes on at [rest]. *)
Definition P1 (t : cmd (list Z)) : Prop := forall fuel s rest Q, next_in [41; 38; 59] rest -> s `suffix_of` line ->
  skip_space s = skip_space (print 1 t ++ rest) ->
  (forall n c, tx c = t -> skip_space rest `suffix_of` line -> rpwp (back_loop es n c) Q (skip_space rest)) ->
  rpwp (c ← parsepipe es fuel; s ← get; back_loop es (S (length s)) c) Q s.

Definition P0 (t : cmd (list Z)) : Prop := forall fuel s rest, next_in [41] rest -> s `suffix_of` line ->
  skip_space s = skip_space (print 0 t ++ rest) -> rpwp (parseline es fuel) (gives t rest) s.

Lemma next_weaken toks rest : (toks = after_exec \/ toks = [41; 38; 59] \/ toks = [41]) -> next_in toks rest -> next_in after_exec rest.
Proof. intros Ht [H Hf]. split; [done|]. destruct (skip_space rest) as [|c r]; [done|]. by apply (after_symbols toks c). Qed.

(** A symbol comes next. *)
Lemma next_symbol toks c rest : strchr toks c = true -> strchr symbols c = true -> next_in toks (c :: rest).
Proof.
  intros Ht Hs. pose proof (symbol_char c Hs) as Hw. split; [cbn; unfold is_word; by rewrite Hw, Hs|]. by rewrite skip_char.
Qed.

(** A [peek] at what follows. *)
Lemma peek_rest {EP EF} toks Q rest : Q (match skip_space rest with [] => false | c :: _ => strchr toks c end) (skip_space rest) -> pwp EP EF (peek toks) Q (skip_space rest).
Proof. pose proof (skip_idem rest) as E. intros HQ. destruct (skip_space rest) as [|c r]; [by eapply pwp_peek_end|by eapply pwp_peek]. Qed.

Lemma not_next toks rest d : next_in toks rest -> strchr toks d = false -> match skip_space rest with [] => false | c :: _ => strchr [d] c end = false.
Proof.
  intros [_ Hf] Hd. destruct (skip_space rest) as [|c r]; [done|]. cbn in Hf. destruct (Z.eqb_spec d c) as [->|Hne]; [congruence|].
  unfold strchr. by rewrite (proj2 (Z.eqb_neq d c)).
Qed.

Lemma P3_P2 t : print 2 t = print 3 t -> P3 t -> P2 t.
Proof.
  intros E H [|fuel] s rest Hf Hs Es; [exact I|]. pose proof (next_weaken _ _ (or_intror (or_introl eq_refl)) Hf) as Hf3.
  cbn [parsepipe]. apply pwp_bind. eapply pwp_mono; [eapply (H fuel [] s rest); [by constructor|done|done|by rewrite Es, E]|].
  intros c s1 (-> & H2 & H3). apply pwp_bind, peek_rest. rewrite (not_next _ _ 124 Hf) by done. apply pwp_ret. done.
Qed.

Lemma P2_P1 t : print 1 t = print 2 t -> P2 t -> P1 t.
Proof.
  intros E H fuel s rest Q Hf Hs Es HQ. apply pwp_bind. eapply pwp_mono; [eapply (H fuel s rest); [done|done|by rewrite Es, E]|].
  intros c s1 (-> & H2 & H3). apply pwp_bind, pwp_get. by apply HQ.
Qed.

(** What [parseline] does after the loop over ampersands. *)
Definition tail_of (fuel : nat) (c : cmd word) : ST (list Z) (cmd word) :=
  b ← peek [59]; if b : bool then Sh.gettoken es;; r ← parseline es fuel; mret (LIST c r) else mret c.

Lemma parseline_unfold fuel s Q : rpwp (c ← parsepipe es fuel; s ← get; back_loop es (S (length s)) c) (fun c s' => rpwp (tail_of fuel c) Q s') s ->
  rpwp (parseline es (S fuel)) Q s.
Proof.
  cbn [parseline]. unfold pwp, mbind, ST_bind. destruct (parsepipe es fuel s) as [[c s1]| | | |]; try done. unfold get.
  destruct (back_loop es (S (length s1)) c s1) as [[c2 s2]| | | |]; done.
Qed.

Lemma back_stop n c rest Q : match skip_space rest with [] => false | d :: _ => strchr [38] d end = false -> Q c (skip_space rest) ->
  rpwp (back_loop es n c) Q (skip_space rest).
Proof. intros Hn HQ. destruct n as [|n]; cbn [back_loop]; apply pwp_bind, peek_rest; rewrite Hn; by apply pwp_ret. Qed.

Lemma P1_P0 t : print 0 t = print 1 t -> P1 t -> P0 t.
Proof.
  intros E H [|fuel] s rest Hf Hs Es; [exact I|]. apply parseline_unfold. eapply (H fuel s rest); [|done|by rewrite Es, E|].
  { destruct Hf as [H1 Hf]. split; [done|]. destruct (skip_space rest) as [|c r]; [done|]. cbn in Hf |- *. unfold strchr in *. destruct (41 =? c); done. }
  intros n c Hc HS. apply back_stop; [by rewrite (not_next _ _ 38 Hf)|]. unfold tail_of. apply pwp_bind, peek_rest.
  rewrite (not_next _ _ 59 Hf) by done. apply pwp_ret. done.
Qed.

Lemma wrap_map rs : forall c, tx (wrap c rs) = wrap (tx c) (map text_redir rs).
Proof. induction rs as [|[[w m] fd] rs IH]; intros c; [done|]. apply (IH (REDIR c w m fd)). Qed.

Lemma P0_P3 t : (forall x, print 3 t ++ x = 32 :: 40 :: print 0 t ++ 41 :: x) -> P0 t -> P3 t.
Proof.
  intros E H [|fuel] rs s rest Hr Hf Hs Es; [exact I|]. pose proof (next_plain rest Hf) as Hp. rewrite E, skip_sp, skip_char in Es by done.
  assert (HS : (40 :: print 0 t ++ 41 :: print_redirs rs ++ rest) `suffix_of` line) by (rewrite <- Es; by apply skip_suffix).
  cbn [parseexec]. apply pwp_bind. eapply pwp_peek; [exact Es|]. change (strchr [40] 40) with true. cbv iota. destruct fuel as [|fuel]; [exact I|]. cbn [parseblock].
  apply pwp_bind. eapply pwp_peek; [by apply skip_char|]. change (negb (strchr [40] 40)) with false. cbv iota.
  apply pwp_bind. eapply pwp_symbol; [by apply skip_char|done|]. intros _.
  assert (HS1 : (print 0 t ++ 41 :: print_redirs rs ++ rest) `suffix_of` line) by (etransitivity; [|exact HS]; by exists [40]).
  apply pwp_bind. eapply pwp_mono; [eapply (H fuel _ (41 :: print_redirs rs ++ rest)); [by apply next_symbol|by apply skip_suffix|apply skip_idem]|].
  intros c s1 (-> & HS2 & Hc). apply pwp_bind. eapply pwp_peek; [by apply skip_char|]. change (negb (strchr [41] 41)) with false. cbv iota.
  apply pwp_bind. eapply pwp_symbol; [by apply skip_char|done|]. intros _. apply pwp_bind. unfold parseredirs. apply pwp_bind, pwp_get.
  eapply pwp_mono; [eapply redirs_run; [exact Hr|exact Hp| |apply skip_idem]|].
  - apply skip_suffix. etransitivity; [|exact HS2]. by exists [41].
  - intros rs' s2 (-> & HS3 & Hrs). apply pwp_ret. split; [done|]. split; [done|]. rewrite wrap_map, Hc. by rewrite Hrs.
Qed.

Lemma P3_exec argv : Z.of_nat (length argv) < MAXARGS -> Forall good_word argv -> P3 (EXEC argv).
Proof.
  intros Hn Hw [|fuel] rs s rest Hr Hf Hs Es; [exact I|]. cbn [print] in Es. pose proof (next_plain rest Hf) as Hp.
  assert (HP : forall s1, s1 `suffix_of` line -> skip_space s1 = skip_space s -> rpwp (parsesimple es) (gives (wrap (EXEC argv) rs) rest) s1).
  { intros s1 H1 E1. unfold parsesimple. apply pwp_bind. unfold parseredirs. apply pwp_bind, pwp_get.
    eapply pwp_mono; [eapply (redirs_run (match argv with [] => rs | _ => [] end)) with (rest := match argv with [] => rest | _ => print_words argv ++ print_redirs rs ++ rest end)|].
    - by destruct argv.
    - destruct argv; [done|by apply words_plain].
    - done.
    - rewrite E1, Es. by destruct argv.
    - intros rs' s2 (E2 & H2 & H3). apply pwp_bind, pwp_get. apply pwp_bind. eapply pwp_mono; [eapply (args_run argv _ rs [] rs' s2 rest)|].
      + done.
      + done.
      + done.
      + cbn. lia.
      + done.
      + rewrite E2, skip_idem. by destruct argv.
      + intros r s3 (F1 & F2 & F3 & F4). apply pwp_ret. split; [done|]. split; [done|]. rewrite wrap_map, F4, H3. cbn [cmd_map]. rewrite F3. cbn [map app].
        f_equal. destruct argv; cbn; by rewrite ?app_nil_r. }
  cbn [parseexec]. apply pwp_bind.
  assert (HX : skip_space s = [] \/ exists c r, skip_space s = c :: r /\ strchr [40] c = false).
  { rewrite Es. destruct argv as [|w argv].
    - cbn [print_words map concat app]. destruct rs as [|[[w m] fd] rs].
      + cbn [print_redirs map concat app]. destruct Hf as [_ Hf]. destruct (skip_space rest) as [|c r]; [by left|right]. exists c, r. split; [done|]. cbn in Hf.
        unfold strchr, after_exec in *. destruct (Z.eqb_spec 40 c); [subst; done|done].
      + right. inversion Hr as [|? ? [_ Hm] _]; subst. cbn in Hm. destruct Hm as [[-> ->]|[-> ->]]; cbn; eauto.
    - right. inversion Hw as [|? ? Hg _]; subst. change (print_words (w :: argv) ++ print_redirs rs ++ rest) with (32 :: (w ++ print_words argv) ++ print_redirs rs ++ rest).
      rewrite skip_sp, <- app_assoc. destruct (good_head w (print_words argv ++ print_redirs rs ++ rest) Hg) as [E Hh]. rewrite E.
      destruct (Hh [40]) as (c & w' & -> & Hc); [|by eauto]. intros c. unfold strchr, symbols. destruct (Z.eqb_spec 40 c); [subst; done|done]. }
  destruct HX as [E0|(c & r & E0 & Hc)].
  - eapply pwp_peek_end; [exact E0|]. cbv iota. apply HP; [|by rewrite E0]. rewrite <- E0. by apply skip_suffix.
  - eapply pwp_peek; [exact E0|]. rewrite Hc. apply HP; [|rewrite <- E0; apply skip_idem]. rewrite <- E0. by apply skip_suffix.
Qed.

Lemma P2_pipe l r : P3 l -> P2 r -> P2 (PIPE l r).
Proof.
  intros L3 R2. intros [|fuel] s rest Hf Hs Es; [exact I|]. change (print 2 (PIPE l r)) with (print 3 l ++ 124 :: print 2 r) in Es. rewrite <- app_assoc in Es.
  cbn [parsepipe]. apply pwp_bind. eapply pwp_mono; [eapply (L3 fuel [] s (124 :: print 2 r ++ rest)); [by constructor|by apply next_symbol|done|exact Es]|].
  intros c s1 (-> & H2 & Hc). apply pwp_bind. eapply pwp_peek; [by apply skip_char|]. change (strchr [124] 124) with true. cbv iota.
  apply pwp_bind. eapply pwp_symbol; [by apply skip_char|done|]. intros _. apply pwp_bind.
  eapply pwp_mono; [eapply (R2 fuel _ rest); [done| |apply skip_idem]|].
  - apply skip_suffix. etransitivity; [|exact H2]. by exists [124].
  - intros c' s2 (-> & H3 & Hc'). apply pwp_ret. split; [done|]. split; [done|]. cbn. by rewrite Hc, Hc'.
Qed.

Lemma P0_list l r : P1 l -> P0 r -> P0 (LIST l r).
Proof.
  intros L1 R0. intros [|fuel] s rest Hf Hs Es; [exact I|]. change (print 0 (LIST l r)) with (print 1 l ++ 59 :: print 0 r) in Es. rewrite <- app_assoc in Es.
  apply parseline_unfold. eapply (L1 fuel s (59 :: print 0 r ++ rest)); [by apply next_symbol|done|exact Es|]. intros n c Hc HS. apply back_stop; [done|].
  unfold tail_of. apply pwp_bind. eapply pwp_peek; [by apply skip_char|]. change (strchr [59] 59) with true. cbv iota.
  apply pwp_bind. eapply pwp_symbol; [by apply skip_char|done|]. intros _. apply pwp_bind.
  eapply pwp_mono; [eapply (R0 fuel _ rest); [done| |apply skip_idem]|].
  - apply skip_suffix. etransitivity; [|exact HS]. by exists [59].
  - intros c' s2 (-> & H3 & Hc'). apply pwp_ret. split; [done|]. split; [done|]. cbn. by rewrite Hc, Hc'.
Qed.

Lemma P1_back c : P1 c -> P1 (BACK c).
Proof.
  intros C1. intros fuel s rest Q Hf Hs Es HQ. change (print 1 (BACK c)) with (print 1 c ++ [38]) in Es. rewrite <- app_assoc in Es.
  eapply (C1 fuel s (38 :: rest)); [by apply next_symbol|done|exact Es|]. intros n c' Hc HS. assert (HR : rest `suffix_of` line) by (etransitivity; [|exact HS]; by exists [38]).
  destruct n as [|n]; cbn [back_loop]; apply pwp_bind; (eapply pwp_peek; [by apply skip_char|]); change (strchr [38] 38) with true; cbv iota; [exact I|].
  apply pwp_bind. eapply pwp_symbol; [by apply skip_char|done|]. intros _. apply HQ; [|by apply skip_suffix]. cbn. by rewrite Hc.
Qed.

(** All levels, for every command. *)
Lemma print_levels t : printable t -> P3 t /\ P2 t /\ P1 t /\ P0 t.
Proof.
  assert (H30 : forall t, P3 t -> (print 2 t, print 1 t, print 0 t) = (print 3 t, print 2 t, print 1 t) -> P3 t /\ P2 t /\ P1 t /\ P0 t).
  { intros u H3 [= E2 E1 E0]. pose proof (P3_P2 u E2 H3) as H2. pose proof (P2_P1 u E1 H2) as H1. pose proof (P1_P0 u E0 H1). done. }
  induction t as [argv|c IH w m fd|l IHl r IHr|l IHl r IHr|c IH]; intros Hp; cbn [printable] in Hp.
  - destruct Hp as [Hn Hw]. apply H30; [by apply P3_exec|done].
  - destruct Hp as [Hc Hg]. destruct (IH Hc) as (IH3 & _). apply H30; [|done]. intros fuel rs s rest Hr Hf Hs Es.
    eapply (IH3 fuel ((w, m, fd) :: rs) s rest); [by constructor|done|done|]. rewrite Es. cbn [print print_redirs map concat]. by rewrite <- !app_assoc.
  - destruct Hp as [Hl Hr]. destruct (IHl Hl) as (L3 & _). destruct (IHr Hr) as (_ & R2 & _). pose proof (P2_pipe l r L3 R2) as H2.
    pose proof (P2_P1 (PIPE l r) eq_refl H2) as H1. pose proof (P1_P0 (PIPE l r) eq_refl H1) as H0.
    assert (H3 : P3 (PIPE l r)) by (apply P0_P3; [intros x; cbn; by rewrite <- !app_assoc|done]). done.
  - destruct Hp as [Hl Hr]. destruct (IHl Hl) as (_ & _ & L1 & _). destruct (IHr Hr) as (_ & _ & _ & R0). pose proof (P0_list l r L1 R0) as H0.
    assert (H3 : P3 (LIST l r)) by (apply P0_P3; [intros x; cbn; by rewrite <- !app_assoc|done]).
    pose proof (P3_P2 (LIST l r) eq_refl H3) as H2. pose proof (P2_P1 (LIST l r) eq_refl H2). done.
  - destruct (IH Hp) as (_ & _ & C1 & _). pose proof (P1_back c C1) as H1. pose proof (P1_P0 (BACK c) eq_refl H1) as H0.
    assert (H3 : P3 (BACK c)) by (apply P0_P3; [intros x; cbn; by rewrite <- !app_assoc|done]). pose proof (P3_P2 (BACK c) eq_refl H3). done.
Qed.

End Line.

(** ** The round trip *)

Lemma pwp_and {S A} (m : ST S A) Q Q' s : pwp True False m Q s -> pwp False True m Q' s -> exists a s', m s = Ok (a, s') /\ Q a s' /\ Q' a s'.
Proof. unfold pwp. destruct (m s) as [[a s']| | | |]; try done. eauto. Qed.

Lemma cmd_map_ext {V W} (f g : V -> W) c : (forall w, w ∈ words c -> f w = g w) -> cmd_map f c = cmd_map g c.
Proof.
  induction c as [argv|c IH w m fd|l IHl r IHr|l IHl r IHr|c IH]; intros H; cbn in *; f_equal; auto using elem_of_app.
  - apply map_ext_in. intros w Hw. apply H. by apply list_elem_of_In.
  - apply IH. intros v Hv. apply H, elem_of_app. by left.
  - apply H, elem_of_app. right. by apply list_elem_of_singleton.
  - apply IHl. intros v Hv. apply H, elem_of_app. by left.
  - apply IHr. intros v Hv. apply H, elem_of_app. by right.
  - apply IHl. intros v Hv. apply H, elem_of_app. by left.
  - apply IHr. intros v Hv. apply H, elem_of_app. by right.
Qed.

(** The characters of a line that the shell reads at once. *)
Definition plain_char (c : Z) : Prop := c <> 0 /\ c <> 10 /\ c <> 13.

Lemma good_plain w : good_word w -> Forall plain_char w.
Proof. intros [_ H]. eapply Forall_impl; [exact H|]. intros c [Hw H0]. split; [done|]. split; intros ->; done. Qed.

Lemma paren_plain b s : Forall plain_char s -> Forall plain_char (paren b s).
Proof. intros H. destruct b; [|done]. constructor; [done|]. constructor; [done|]. apply Forall_app. by split; [|constructor]. Qed.

Lemma print_plain t : forall lvl, printable t -> Forall plain_char (print lvl t).
Proof.
  induction t as [argv|c IH w m fd|l IHl r IHr|l IHl r IHr|c IH]; intros lvl Hp; cbn [printable print] in *.
  - destruct Hp as [_ Hw]. unfold print_words. induction Hw as [|w argv Hg Hw IH]; [by constructor|]. cbn [map concat]. apply Forall_app.
    split; [constructor; [done|by apply good_plain]|exact IH].
  - destruct Hp as [Hc [Hg _]]. apply Forall_app. split; [by apply IH|]. constructor; [done|]. cbn [fst snd] in *. constructor; [by destruct (_ =? _)|by apply good_plain].
  - destruct Hp as [Hl Hr]. apply paren_plain, Forall_app. split; [by apply IHl|]. constructor; [done|by apply IHr].
  - destruct Hp as [Hl Hr]. apply paren_plain, Forall_app. split; [by apply IHl|]. constructor; [done|by apply IHr].
  - apply paren_plain, Forall_app. split; [by apply IH|by constructor].
Qed.

Definition blanks (sp : list Z) : Prop := Forall (fun c => strchr whitespace c = true) sp.

Lemma blanks_skip sp : blanks sp -> skip_space sp = [] /\ next_in [41] sp /\ Forall (fun c => c <> 0) sp.
Proof.
  intros H. induction H as [|c sp Hc H (IH1 & IH2 & IH3)]; [by split_and!|]. assert (E : skip_space (c :: sp) = []) by (cbn; by rewrite Hc).
  split; [done|]. split; [split; [cbn; unfold is_word; by rewrite Hc|by rewrite E]|]. constructor; [|done]. intros ->. done.
Qed.

(** A printed line, with blanks at its end. *)
Lemma parse_print t sp : printable t -> blanks sp ->
  exists c, parse (print 0 t ++ sp) (print 0 t ++ sp) = Ok (c, []) /\
    cmd_map (word_str (nulterminate c ((print 0 t ++ sp) ++ [0]))) c = t.
Proof.
  intros Hp Hb. set (line := print 0 t ++ sp). destruct (print_levels line t Hp) as (_ & _ & _ & H0). destruct (blanks_skip sp Hb) as (Esp & Hn & Hz).
  assert (HR : pwp False True (parse line) (fun c s' => s' = [] /\ cmd_map (text line) c = t) line).
  { unfold parse. apply pwp_bind. eapply pwp_mono; [apply (H0 _ line sp); [done|done|done]|]. intros c s1 (-> & _ & Hc).
    rewrite Esp. apply pwp_bind. by apply pwp_peek_end. }
  destruct (pwp_and _ _ _ _ (parse_words line) HR) as (c & s' & R & Hw & -> & Hc).
  exists c. split; [done|]. rewrite <- Hc. apply cmd_map_ext. intros w Hin. apply word_str_ok; [|done|done].
  apply Forall_app. split; [|done]. eapply Forall_impl; [by apply print_plain|]. by intros ch [? _].
Qed.

(** C33: the shell understands every command.  For every command made of
    programs with up to nine arguments, redirections, pipes, lists,
    background commands and parentheses, nested in any way, the line that
    [print] writes for it, with any blanks and newlines after it, is parsed
    to exactly this command, whose words are C strings in the buffer after
    [nulterminate]: the precedences, the association of pipes and lists and
    the order of redirections are the ones of [print]. *)
Theorem parse_print_roundtrip t sp : printable t -> blanks sp ->
  exists c buf, parsecmd (print 0 t ++ sp) = Ok (c, buf) /\ cmd_map (word_str buf) c = t.
Proof.
  intros Hp Hb. destruct (parse_print t sp Hp Hb) as (c & R & Hc). exists c, (nulterminate c ((print 0 t ++ sp) ++ [0])).
  split; [|done]. unfold parsecmd. fold (parse (print 0 t ++ sp)). by rewrite R.
Qed.

(** [(a | b ; c &) > d]. *)
Definition sample : cmd (list Z) :=
  REDIR (LIST (PIPE (EXEC [[97]]) (EXEC [[98]])) (BACK (EXEC [[99]]))) [100] 0x201 1.

Lemma parse_print_roundtrip_witness : print 0 sample = [32; 40; 32; 97; 124; 32; 98; 59; 32; 99; 38; 41; 32; 62; 100] /\
  exists c buf, parsecmd (print 0 sample ++ [10]) = Ok (c, buf) /\ cmd_map (word_str buf) c = sample.
Proof.
  split; [reflexivity|]. apply (parse_print_roundtrip sample [10]); [|by constructor]. unfold sample. cbn.
  assert (HG : forall c, is_word c = true -> c <> 0 -> good_word [c]) by (intros c H1 H2; split; [done|]; by constructor).
  repeat split; try (apply HG; done); try (by constructor); try (constructor; [apply HG; done|by constructor]).
Defined.

End ShPrint.
