(* ===== verification/ShRun.v ===== *)
(** * Running commands (bin/sh/sh.c)

    The shell as it sees its system calls: a table of open files per process,
    where [open], [dup] and [pipe] take the lowest free descriptors (Sysfile.v),
    and the list of the programs that were started.  [fork] copies the table; a
    child runs to its [exit] before the parent goes on, and [wait] and the
    messages on the console leave no trace. *)

From Stdlib Require Import ZArith Lia.
From stdpp Require Import base numbers strings list.
From S2P Require Import Prelude Sysfile Sh ShThm ShPrint.

Open Scope Z_scope.

Import Sh ShThm ShPrint.

Module ShRun.

(** An open file: one by its name, an end of a pipe, or one that the shell
    was started with. *)
Inductive desc :=
| D_file (name : list Z) (mode : Z)
| D_read (pipe : Z)
| D_write (pipe : Z)
| D_given (n : Z).

Local Abbreviation table := (list (option desc)).

Inductive event :=
| Ran (argv : list (list Z)) (fds : table)
| Cd (path : list Z).

Record state := mkstate { fds : table; npipe : Z; trace : list event }.

Definition set_fds (t : table) : ST state unit := modify (fun s => mkstate t (npipe s) (trace s)).
Definition emit (e : event) : ST state unit := modify (fun s => mkstate (fds s) (npipe s) (trace s ++ [e])).

(** ** The system calls *)

Fixpoint find_free (l : table) (fd : Z) : option Z :=
  match l with
  | [] => None
  | None :: _ => Some fd
  | Some _ :: l' => find_free l' (fd + 1)
  end.

Definition close (fd : Z) : ST state Z :=
  s ← get;
  match zlookup (fds s) fd with
  | Some (Some _) => set_fds (zinsert fd None (fds s));; mret 0
  | _ => mret (-1)
  end.

(** A descriptor for an open file. *)
Definition fdalloc (d : desc) : ST state Z :=
  s ← get;
  match find_free (fds s) 0 with
  | Some fd => set_fds (zinsert fd (Some d) (fds s));; mret fd
  | None => mret (-1)
  end.

Definition dup (fd : Z) : ST state Z :=
  s ← get;
  match zlookup (fds s) fd with
  | Some (Some d) => fdalloc d
  | _ => mret (-1)
  end.

(** The two descriptors, or [None] for -1. *)
Definition pipe : ST state (option (Z * Z)) :=
  s ← get;
  let k := npipe s in
  fd0 ← fdalloc (D_read k);
  if fd0 <? 0 then mret None
  else
    fd1 ← fdalloc (D_write k);
    if fd1 <? 0 then close fd0;; mret None
    else modify (fun s => mkstate (fds s) (k + 1) (trace s));; mret (Some (fd0, fd1)).

Section Code.

(** The files that can be opened, and the programs that can be run. *)
Variable opens : list Z -> Z -> bool.
Variable execs : list Z -> bool.

Definition open (name : list Z) (mode : Z) : ST state Z :=
  if opens name mode then fdalloc (D_file name mode) else mret (-1).

(** [if(fork1() == 0) child]. *)
Definition fork1 (child : ST state unit) : ST state unit := fun s =>
  match child s with
  | Ok (_, s') => Ok (tt, mkstate (fds s) (npipe s') (trace s'))
  | e => e
  end.

(** [runcmd]; the process exits where it returns. *)
Fixpoint runcmd (c : cmd (list Z)) : ST state unit :=
  match c with
  | EXEC argv =>
      match argv with
      | [] => mret tt
      | path :: _ => if execs path then s ← get; emit (Ran argv (fds s)) else mret tt
      end
  | REDIR c file mode fd =>
      close fd;;
      r ← open file mode;
      if r <? 0 then mret tt else runcmd c
  | LIST l r => fork1 (runcmd l);; runcmd r
  | PIPE l r =>
      p ← pipe;
      match p with
      | None => mret tt
      | Some (p0, p1) =>
          fork1 (close 1;; dup p1;; close p0;; close p1;; runcmd l);;
          fork1 (close 0;; dup p0;; close p0;; close p1;; runcmd r);;
          close p0;;
          close p1;;
          mret tt
      end
  | BACK c => fork1 (runcmd c)
  end.

(** ** The loop over the input *)

(** [gets] of lib/ulibc/ulib.c: the characters, and the rest of the input. *)
Fixpoint gets (max : nat) (input : list Z) : list Z * list Z :=
  match max, input with
  | S n, c :: input' =>
      if (c =? 10) || (c =? 13) then ([c], input')
      else let '(b, r) := gets n input' in (c :: b, r)
  | _, _ => ([], input)
  end.

(** [getcmd]: the buffer as a string, or [None] at the end of the input. *)
Definition getcmd (nbuf : nat) (input : list Z) : option (list Z * list Z) :=
  let '(b, r) := gets (nbuf - 1) input in
  match cstr b with [] => None | line => Some (line, r) end.

(** ["console"]. *)
Definition console : list Z := [99; 111; 110; 115; 111; 108; 101].

(** The loop that opens the first descriptors. *)
Fixpoint open_console (fuel : nat) : ST state unit :=
  fd ← open console Sysfile.O_RDWR;
  if fd <? 0 then mret tt
  else if 3 <=? fd then close fd;; mret tt
  else match fuel with O => out_of_fuel | S f => open_console f end.

(** [buf[0] == 'c' && buf[1] == 'd' && buf[2] == ' ']. *)
Definition is_cd (line : list Z) : bool :=
  match line with a :: b :: c :: _ => (a =? 99) && (b =? 100) && (c =? 32) | _ => false end.

(** The body of the loop of [main]. *)
Definition run_line (line : list Z) : ST state unit :=
  if is_cd line then emit (Cd (drop 3 (removelast line)))
  else
    fork1 (match parsecmd line with
           | Ok (c, buf) => runcmd (cmd_map (word_str buf) c)
           | Panic _ => mret tt
           | Fault => fault
           | Blocked => blocked
           | Fuel => out_of_fuel
           end).

Fixpoint main_loop (fuel : nat) (input : list Z) : ST state unit :=
  match getcmd 100 input with
  | None => mret tt
  | Some (line, input') =>
      match fuel with
      | O => out_of_fuel
      | S f => run_line line;; main_loop f input'
      end
  end.

Definition main (input : list Z) : ST state unit :=
  open_console 3;;
  main_loop (length input) input.

End Code.

End ShRun.

(** * The shell connects the programs it runs *)

Import Sh ShThm ShPrint ShRun.

Module ShRunThm.

Section Run.

Context (opens : list Z -> Z -> bool) (execs : list Z -> bool).

Local Abbreviation table := (list (option desc)).
Local Abbreviation runcmd := (ShRun.runcmd opens execs).

(** ** What a command means

    The programs that a command runs, with their input and output, and the
    number of pipes that have been made. *)
Fixpoint plan (c : cmd (list Z)) (i o : desc) (k : Z) : list (list (list Z) * desc * desc) * Z :=
  match c with
  | EXEC [] => ([], k)
  | EXEC ((path :: _) as argv) => (if execs path then [(argv, i, o)] else [], k)
  | REDIR c file mode fd =>
      if opens file mode then
        if fd =? 0 then plan c (D_file file mode) o k else plan c i (D_file file mode) k
      else ([], k)
  | PIPE l r =>
      let '(pl, k1) := plan l i (D_write k) (k + 1) in
      let '(pr, k2) := plan r (D_read k) o k1 in (pl ++ pr, k2)
  | LIST l r =>
      let '(pl, k1) := plan l i o k in
      let '(pr, k2) := plan r i o k1 in (pl ++ pr, k2)
  | BACK c => plan c i o k
  end.

(** Redirections of the standard input and output. *)
Fixpoint std (c : cmd (list Z)) : Prop :=
  match c with
  | EXEC _ => True
  | REDIR c _ _ fd => std c /\ (fd = 0 \/ fd = 1)
  | PIPE l r | LIST l r => std l /\ std r
  | BACK c => std c
  end.

Lemma printable_std c : printable c -> std c.
Proof.
  induction c as [argv|c IH w m fd|l IHl r IHr|l IHl r IHr|c IH]; cbn; [done| | | |done].
  - intros [H [_ Hm]]. split; [by apply IH|]. destruct Hm as [[_ E]|[_ E]]; cbn in E; auto.
  - intros [H1 H2]. auto.
  - intros [H1 H2]. auto.
Qed.

(** ** The table of the shell

    Standard input, output and error, files that stay open, and two free
    descriptors. *)
Section Table.

Context (e : desc) (a b rest : table) (Ha : Forall (fun x => x <> None) a) (Hb : Forall (fun x => x <> None) b).

Definition tab (i o x y : option desc) : table := i :: o :: Some e :: a ++ x :: b ++ y :: rest.

Definition p0 : Z := 3 + Z.of_nat (length a).
Definition p1 : Z := 4 + Z.of_nat (length a) + Z.of_nat (length b).

Lemma find_free_app l t fd : Forall (fun x => x <> None) l -> find_free (l ++ t) fd = find_free t (fd + Z.of_nat (length l)).
Proof.
  intros H. revert fd. induction H as [|[d|] l Hx H IH]; intros fd; [by rewrite Z.add_0_r| |done]. cbn [app find_free]. rewrite IH. f_equal. cbn. lia.
Qed.

Lemma free_0 o x y : find_free (tab None o x y) 0 = Some 0.
Proof. done. Qed.
Lemma free_1 i x y : find_free (tab (Some i) None x y) 0 = Some 1.
Proof. done. Qed.
Lemma free_p0 i o y : find_free (tab (Some i) (Some o) None y) 0 = Some p0.
Proof. unfold tab. cbn [find_free]. rewrite find_free_app by done. done. Qed.
Lemma free_p1 i o x : find_free (tab (Some i) (Some o) (Some x) None) 0 = Some p1.
Proof. unfold tab. cbn [find_free]. rewrite find_free_app by done. cbn [find_free]. rewrite find_free_app by done. unfold p1. cbn [find_free]. f_equal. lia. Qed.

Lemma tab_split i o x y : tab i o x y = (i :: o :: Some e :: a) ++ x :: b ++ y :: rest.
Proof. done. Qed.
Lemma tab_split1 i o x y : tab i o x y = (i :: o :: Some e :: a ++ x :: b) ++ y :: rest.
Proof. unfold tab. cbn. by rewrite <- app_assoc. Qed.

Lemma zmid {A} (l : list A) x y r n : n = Z.of_nat (length l) -> zlookup (l ++ x :: r) n = Some x /\ zinsert n y (l ++ x :: r) = l ++ y :: r.
Proof.
  intros ->. unfold zlookup, zinsert. rewrite !(proj2 (Z.leb_le 0 _)), !Nat2Z.id by lia. split; [by apply list_lookup_middle|].
  by rewrite insert_app_r_alt, Nat.sub_diag by lia.
Qed.

Lemma at_0 i o x y i' : zlookup (tab i o x y) 0 = Some i /\ zinsert 0 i' (tab i o x y) = tab i' o x y.
Proof. done. Qed.
Lemma at_1 i o x y o' : zlookup (tab i o x y) 1 = Some o /\ zinsert 1 o' (tab i o x y) = tab i o' x y.
Proof. done. Qed.
Lemma at_p0 i o x y x' : zlookup (tab i o x y) p0 = Some x /\ zinsert p0 x' (tab i o x y) = tab i o x' y.
Proof. rewrite tab_split. apply (zmid (i :: o :: Some e :: a)). unfold p0. cbn. lia. Qed.
Lemma at_p1 i o x y y' : zlookup (tab i o x y) p1 = Some y /\ zinsert p1 y' (tab i o x y) = tab i o x y'.
Proof. rewrite !tab_split1. apply zmid. unfold p1. cbn. rewrite length_app. cbn. lia. Qed.

(** *** The calls on the table *)

Lemma run_close fd t t' d k tr : zlookup t fd = Some (Some d) /\ zinsert fd None t = t' -> close fd (mkstate t k tr) = Ok (0, mkstate t' k tr).
Proof. intros [E1 E2]. unfold close, mbind, ST_bind, get. cbn [fds]. rewrite E1. cbn. by rewrite E2. Qed.

Lemma run_fdalloc d fd t t' x k tr : find_free t 0 = Some fd -> zlookup t fd = Some x /\ zinsert fd (Some d) t = t' ->
  fdalloc d (mkstate t k tr) = Ok (fd, mkstate t' k tr).
Proof. intros E [_ E2]. unfold fdalloc, mbind, ST_bind, get. cbn [fds]. rewrite E. cbn. by rewrite E2. Qed.

Lemma run_dup fd fd' d t t' x k tr y t0 : zlookup t fd = Some (Some d) /\ zinsert fd y t = t0 -> find_free t 0 = Some fd' ->
  zlookup t fd' = Some x /\ zinsert fd' (Some d) t = t' -> dup fd (mkstate t k tr) = Ok (fd', mkstate t' k tr).
Proof. intros [E _] E1 E2. unfold dup. rewrite (run_bind get _ _ (mkstate t k tr) (mkstate t k tr)) by done. cbn [fds]. rewrite E. by eapply run_fdalloc. Qed.

Lemma run_pipe i o k tr :
  pipe (mkstate (tab (Some i) (Some o) None None) k tr) = Ok (Some (p0, p1), mkstate (tab (Some i) (Some o) (Some (D_read k)) (Some (D_write k))) (k + 1) tr).
Proof.
  unfold pipe. rewrite (run_bind get _ _ (mkstate (tab (Some i) (Some o) None None) k tr) (mkstate (tab (Some i) (Some o) None None) k tr)) by done. cbn [npipe].
  step (run_fdalloc (D_read k) p0 _ _ _ k tr (free_p0 i o None) (at_p0 (Some i) (Some o) None None _)).
  rewrite (proj2 (Z.ltb_ge p0 0)) by (unfold p0; lia).
  step (run_fdalloc (D_write k) p1 _ _ _ k tr (free_p1 i o (D_read k)) (at_p1 (Some i) (Some o) (Some (D_read k)) None _)).
  rewrite (proj2 (Z.ltb_ge p1 0)) by (unfold p1; lia). done.
Qed.

(** The children of a pipe. *)
Lemma run_left {B} (m : ST state B) i o k k' tr :
  (close 1;; dup p1;; close p0;; close p1;; m) (mkstate (tab (Some i) (Some o) (Some (D_read k)) (Some (D_write k))) k' tr) =
  m (mkstate (tab (Some i) (Some (D_write k)) None None) k' tr).
Proof.
  step (run_close 1 _ _ o k' tr (at_1 (Some i) (Some o) (Some (D_read k)) (Some (D_write k)) None)).
  step (run_dup p1 1 (D_write k) _ _ _ k' tr None _ (at_p1 (Some i) None (Some (D_read k)) (Some (D_write k)) None) (free_1 i _ _) (at_1 _ _ _ _ _)).
  step (run_close p0 _ _ (D_read k) k' tr (at_p0 (Some i) (Some (D_write k)) _ (Some (D_write k)) None)).
  step (run_close p1 _ _ (D_write k) k' tr (at_p1 (Some i) (Some (D_write k)) None _ None)). done.
Qed.

Lemma run_right {B} (m : ST state B) i o k k' tr :
  (close 0;; dup p0;; close p0;; close p1;; m) (mkstate (tab (Some i) (Some o) (Some (D_read k)) (Some (D_write k))) k' tr) =
  m (mkstate (tab (Some (D_read k)) (Some o) None None) k' tr).
Proof.
  step (run_close 0 _ _ i k' tr (at_0 (Some i) (Some o) (Some (D_read k)) (Some (D_write k)) None)).
  step (run_dup p0 0 (D_read k) _ _ _ k' tr None _ (at_p0 None (Some o) (Some (D_read k)) (Some (D_write k)) None) (free_0 _ _ _) (at_0 _ _ _ _ _)).
  step (run_close p0 _ _ (D_read k) k' tr (at_p0 (Some (D_read k)) (Some o) _ (Some (D_write k)) None)).
  step (run_close p1 _ _ (D_write k) k' tr (at_p1 (Some (D_read k)) (Some o) None _ None)). done.
Qed.

(** The events of a plan. *)
Definition ran (r : list (list Z) * desc * desc) : event := Ran r.1.1 (tab (Some r.1.2) (Some r.2) None None).

Definition runs (c : cmd (list Z)) : Prop := forall i o k tr, exists t,
  runcmd c (mkstate (tab (Some i) (Some o) None None) k tr) = Ok (tt, mkstate t (plan c i o k).2 (tr ++ map ran (plan c i o k).1)).

Lemma run_fork c i o k tr : runs c -> fork1 (runcmd c) (mkstate (tab (Some i) (Some o) None None) k tr) =
  Ok (tt, mkstate (tab (Some i) (Some o) None None) (plan c i o k).2 (tr ++ map ran (plan c i o k).1)).
Proof. intros H. destruct (H i o k tr) as [t R]. unfold fork1. by rewrite R. Qed.

Lemma runs_redir c f m fd : fd = 0 \/ fd = 1 -> runs c -> runs (REDIR c f m fd).
Proof.
  intros Hfd H i o k tr. cbn [runcmd plan]. destruct Hfd as [-> | ->].
  - step (run_close 0 _ _ i k tr (at_0 (Some i) (Some o) None None None)). unfold open. destruct (opens f m).
    + step (run_fdalloc (D_file f m) 0 _ _ _ k tr (free_0 _ _ _) (at_0 None (Some o) None None _)). apply H.
    + eexists. cbn. by rewrite app_nil_r.
  - step (run_close 1 _ _ o k tr (at_1 (Some i) (Some o) None None None)). unfold open. destruct (opens f m).
    + step (run_fdalloc (D_file f m) 1 _ _ _ k tr (free_1 _ _ _) (at_1 (Some i) None None None _)). apply H.
    + eexists. cbn. by rewrite app_nil_r.
Qed.

Lemma runs_pipe l r : runs l -> runs r -> runs (PIPE l r).
Proof.
  intros Hl Hr i o k tr. cbn [runcmd plan]. destruct (plan l i (D_write k) (k + 1)) as [pl k1] eqn:El. destruct (plan r (D_read k) o k1) as [pr k2] eqn:Er.
  step (run_pipe i o k tr). set (t := tab (Some i) (Some o) (Some (D_read k)) (Some (D_write k))).
  destruct (Hl i (D_write k) (k + 1) tr) as [t1 R1]. rewrite El in R1. destruct (Hr (D_read k) o k1 (tr ++ map ran pl)) as [t2 R2]. rewrite Er in R2. cbn [fst snd] in *.
  rewrite (run_bind _ _ _ tt (mkstate t k1 (tr ++ map ran pl))) by (unfold fork1, t; rewrite run_left, R1; done).
  rewrite (run_bind _ _ _ tt (mkstate t k2 ((tr ++ map ran pl) ++ map ran pr))) by (unfold fork1, t; rewrite run_right, R2; done).
  step (run_close p0 _ _ (D_read k) k2 ((tr ++ map ran pl) ++ map ran pr) (at_p0 (Some i) (Some o) _ (Some (D_write k)) None)).
  step (run_close p1 _ _ (D_write k) k2 ((tr ++ map ran pl) ++ map ran pr) (at_p1 (Some i) (Some o) None _ None)).
  eexists. rewrite map_app, app_assoc. done.
Qed.

(** A command runs its plan. *)
Lemma runs_all c : std c -> runs c.
Proof.
  induction c as [argv|c IH f m fd|l IHl r IHr|l IHl r IHr|c IH]; cbn [std]; intros Hs.
  - intros i o k tr. destruct argv as [|path argv]; cbn [runcmd plan]; [eexists; cbn; by rewrite app_nil_r|].
    destruct (execs path); eexists; cbn; by rewrite ?app_nil_r.
  - destruct Hs as [Hc Hfd]. apply runs_redir; auto.
  - destruct Hs. apply runs_pipe; auto.
  - destruct Hs as [Hl Hr]. intros i o k tr. cbn [runcmd plan]. pose proof (run_fork l i o k tr (IHl Hl)) as R. destruct (plan l i o k) as [pl k1]. cbn [fst snd] in R.
    step R. destruct (IHr Hr i o k1 (tr ++ map ran pl)) as [t R2]. destruct (plan r i o k1) as [pr k2]. exists t. rewrite R2. cbn. by rewrite map_app, app_assoc.
  - intros i o k tr. cbn [runcmd plan]. eexists. rewrite run_fork by auto. done.
Qed.

(** ** The input *)

Lemma gets_line l : forall max input, Forall plain_char l -> (length l < max)%nat -> gets max (l ++ 10 :: input) = (l ++ [10], input).
Proof.
  induction l as [|c l IH]; intros [|max] input Hl Hn; cbn in Hn; try lia; [done|]. inversion Hl as [|? ? (H1 & H2 & H3) Hl']; subst. cbn.
  rewrite (proj2 (Z.eqb_neq c 10)), (proj2 (Z.eqb_neq c 13)) by done. cbn. rewrite IH by (done || lia). done.
Qed.

Lemma cstr_plain l : Forall plain_char l -> cstr (l ++ [10]) = l ++ [10].
Proof. induction 1 as [|c l (H1 & _) H IH]; [done|]. cbn. rewrite (proj2 (Z.eqb_neq c 0)) by done. by rewrite IH. Qed.

(** A printed line does not begin like [cd]. *)
Definition no_cd (s : list Z) : Prop := match s with [] => True | c :: _ => c <> 99 end.

Lemma print_no_cd t : forall lvl x, no_cd x -> no_cd (print lvl t ++ x).
Proof.
  induction t as [argv|c IH w m fd|l IHl r IHr|l IHl r IHr|c IH]; intros lvl x Hx; cbn [print].
  - by destruct argv.
  - rewrite <- app_assoc. by apply IH.
  - unfold paren. destruct (2 <? lvl)%nat; [done|]. rewrite <- app_assoc. by apply IHl.
  - unfold paren. destruct (0 <? lvl)%nat; [done|]. rewrite <- app_assoc. by apply IHl.
  - unfold paren. destruct (1 <? lvl)%nat; [done|]. rewrite <- app_assoc. by apply IH.
Qed.

Lemma no_cd_is_cd s : no_cd s -> is_cd s = false.
Proof. destruct s as [|x [|y [|z s]]]; try done. cbn. intros H. by rewrite (proj2 (Z.eqb_neq x 99)). Qed.

(** The plans of the lines, one after the other. *)
Fixpoint plans (ts : list (cmd (list Z))) (i o : desc) (k : Z) : list (list (list Z) * desc * desc) * Z :=
  match ts with
  | [] => ([], k)
  | t :: ts' => let '(p, k1) := plan t i o k in let '(ps, k2) := plans ts' i o k1 in (p ++ ps, k2)
  end.

Definition line_of (t : cmd (list Z)) : list Z := print 0 t ++ [10].

Lemma run_line_plan t i o k tr : printable t -> run_line opens execs (line_of t) (mkstate (tab (Some i) (Some o) None None) k tr) =
  Ok (tt, mkstate (tab (Some i) (Some o) None None) (plan t i o k).2 (tr ++ map ran (plan t i o k).1)).
Proof.
  intros Hp. unfold run_line. rewrite no_cd_is_cd by (by apply print_no_cd). destruct (parse_print t [10] Hp) as (c & R & Hc); [by constructor|].
  assert (E : parsecmd (line_of t) = Ok (c, nulterminate c ((print 0 t ++ [10]) ++ [0]))) by (unfold parsecmd; fold (parse (line_of t)); unfold line_of; by rewrite R).
  rewrite E, Hc. apply run_fork, runs_all. by apply printable_std.
Qed.

Lemma main_loop_plans ts : forall fuel i o k tr, (length ts <= fuel)%nat -> Forall (fun t => printable t /\ (length (print 0 t) < 99)%nat) ts ->
  main_loop opens execs fuel (concat (map line_of ts)) (mkstate (tab (Some i) (Some o) None None) k tr) =
  Ok (tt, mkstate (tab (Some i) (Some o) None None) (plans ts i o k).2 (tr ++ map ran (plans ts i o k).1)).
Proof.
  induction ts as [|t ts IH]; intros fuel i o k tr Hf Hts; [destruct fuel; cbn; by rewrite app_nil_r|].
  inversion Hts as [|? ? [Hp Hl] Hts']; subst. destruct fuel as [|fuel]; cbn in Hf; [lia|]. cbn [map concat main_loop plans]. unfold getcmd, line_of at 1.
  rewrite <- app_assoc. cbn [app]. rewrite gets_line by (by apply print_plain || lia). rewrite cstr_plain by (by apply print_plain).
  fold (line_of t). destruct (line_of t) as [|ch l] eqn:EL; [unfold line_of in EL; by destruct (print 0 t)|]. rewrite <- EL.
  step (run_line_plan t i o k tr Hp). destruct (plan t i o k) as [p k1]. rewrite IH by (done || lia). cbn [fst snd]. destruct (plans ts i o k1) as [ps k2].
  cbn [fst snd]. by rewrite map_app, app_assoc.
Qed.

(** The first loop of [main] finds the descriptors open. *)
Lemma run_console i o k tr : open_console opens 3 (mkstate (tab (Some i) (Some o) None None) k tr) = Ok (tt, mkstate (tab (Some i) (Some o) None None) k tr).
Proof.
  cbn [open_console]. unfold open. destruct (opens console Sysfile.O_RDWR); [|done].
  step (run_fdalloc (D_file console Sysfile.O_RDWR) p0 _ _ _ k tr (free_p0 i o None) (at_p0 (Some i) (Some o) None None _)).
  rewrite (proj2 (Z.ltb_ge p0 0)), (proj2 (Z.leb_le 3 p0)) by (unfold p0; lia).
  step (run_close p0 _ _ _ k tr (at_p0 (Some i) (Some o) (Some (D_file console Sysfile.O_RDWR)) None None)). done.
Qed.


End Table.

End Run.

(** [a | b > c], and [d &]. *)
Definition lines1 : list (cmd (list Z)) := [PIPE (EXEC [[97]]) (REDIR (EXEC [[98]]) [99] 0x201 1); BACK (EXEC [[100]])].

Lemma lines1_good : Forall (fun t => printable t /\ (length (print 0 t) < 99)%nat) lines1.
Proof.
  assert (HG : forall c, is_word c = true -> c <> 0 -> good_word [c]) by (intros c H1 H2; split; [done|]; by constructor).
  constructor; [|constructor; [|constructor]]; (split; [|cbn; lia]); cbn.
  - repeat split; try (apply HG; done); try (by constructor); try (constructor; [apply HG; done|by constructor]).
  - repeat split; try (by constructor); try (constructor; [apply HG; done|by constructor]).
Qed.


End ShRunThm.
