(* ===== verification/Printf.v ===== *)
(** * Formatted output (lib/ulibc/printf.c, drivers/console/console.c) and
      [atoi] (lib/ulibc/ulib.c)

    The characters that [printf] writes to its descriptor and [cprintf] to the
    console, from the format and the list of the arguments. *)

From Stdlib Require Import ZArith Lia.
From stdpp Require Import base numbers strings list.
From S2P Require Import Prelude.

Open Scope Z_scope.

Module Printf.

(** ["0123456789"], followed by six letters. *)
Definition digits_upper : list Z := [48; 49; 50; 51; 52; 53; 54; 55; 56; 57; 65; 66; 67; 68; 69; 70].
Definition digits_lower : list Z := [48; 49; 50; 51; 52; 53; 54; 55; 56; 57; 97; 98; 99; 100; 101; 102].

(** The size of [buf]. *)
Definition BUF : Z := 16.

Definition store (buf : list Z) (c : Z) : outcome (list Z) :=
  if Z.of_nat (length buf) <? BUF then Ok (buf ++ [c]) else Fault.

(** [do buf[i++] = digits[x % base]; while((x /= base) != 0)]. *)
Fixpoint int_digits (fuel : nat) (digits : list Z) (base x : Z) (buf : list Z) : outcome (list Z) :=
  match fuel with
  | O => Fuel
  | S f =>
      match zlookup digits (x mod base) with
      | None => Fault
      | Some d =>
          match store buf d with
          | Ok buf => if x / base =? 0 then Ok buf else int_digits f digits base (x / base) buf
          | e => e
          end
      end
  end.

(** The characters that [printint] writes; the negation of the smallest
    integer wraps around. *)
Definition printint (digits : list Z) (xx base : Z) (sgn : bool) : outcome (list Z) :=
  let neg := sgn && (xx <? 0) in
  let x := u32 (if neg then - xx else xx) in
  match int_digits 32 digits base x [] with
  | Ok buf =>
      match (if neg then store buf 45 else Ok buf) with
      | Ok buf => Ok (rev buf)
      | e => e
      end
  | e => e
  end.

(** An argument: a word, or a pointer to a string. *)
Inductive arg :=
| A_word (v : Z)
| A_str (s : option (list Z)).

(** ["(null)"]. *)
Definition null_str : list Z := [40; 110; 117; 108; 108; 41].

Definition putc (c : Z) : ST (list Z) unit := modify (fun o => o ++ [c]).
Definition puts (l : list Z) : ST (list Z) unit := modify (fun o => o ++ l).

Definition put_int (digits : list Z) (xx base : Z) (sgn : bool) : ST (list Z) unit := fun o =>
  match printint digits xx base sgn with
  | Ok l => Ok (tt, o ++ l)
  | Panic m => Panic m
  | Fault => Fault
  | Blocked => Blocked
  | Fuel => Fuel
  end.

(** The next argument as an [int], or as a string. *)
Definition word_arg {B} (ap : list arg) (k : Z -> list arg -> ST (list Z) B) : ST (list Z) B :=
  match ap with A_word v :: ap' => k v ap' | _ => fault end.
Definition str_arg {B} (ap : list arg) (k : list Z -> list arg -> ST (list Z) B) : ST (list Z) B :=
  match ap with A_str s :: ap' => k (default null_str s) ap' | _ => fault end.

(** [printf]: [pct] is [state == '%']. *)
Fixpoint printf_loop (fmt : list Z) (pct : bool) (ap : list arg) : ST (list Z) unit :=
  match fmt with
  | [] => mret tt
  | c :: fmt' =>
      if negb pct then
        if c =? 37 then printf_loop fmt' true ap
        else putc c;; printf_loop fmt' false ap
      else if c =? 100 then word_arg ap (fun v ap => put_int digits_upper (s32 v) 10 true;; printf_loop fmt' false ap)
      else if (c =? 120) || (c =? 112) then word_arg ap (fun v ap => put_int digits_upper (s32 v) 16 false;; printf_loop fmt' false ap)
      else if c =? 115 then str_arg ap (fun s ap => puts s;; printf_loop fmt' false ap)
      else if c =? 99 then word_arg ap (fun v ap => putc (u8 v);; printf_loop fmt' false ap)
      else if c =? 37 then putc c;; printf_loop fmt' false ap
      else putc 37;; putc c;; printf_loop fmt' false ap
  end.

Definition printf (fmt : list Z) (ap : list arg) : ST (list Z) unit := printf_loop fmt false ap.

(** [cprintf]: the characters for [consputc]. *)
Fixpoint cprintf (fmt : list Z) (argp : list arg) : ST (list Z) unit :=
  match fmt with
  | [] => mret tt
  | c :: fmt1 =>
      if negb (c =? 37) then putc c;; cprintf fmt1 argp
      else
        match fmt1 with
        | [] => mret tt
        | c :: fmt' =>
            if c =? 100 then word_arg argp (fun v argp => put_int digits_lower (s32 v) 10 true;; cprintf fmt' argp)
            else if (c =? 120) || (c =? 112) then word_arg argp (fun v argp => put_int digits_lower (s32 v) 16 false;; cprintf fmt' argp)
            else if c =? 115 then str_arg argp (fun s argp => puts s;; cprintf fmt' argp)
            else if c =? 37 then putc 37;; cprintf fmt' argp
            else putc 37;; putc c;; cprintf fmt' argp
        end
  end.

(** [atoi] from the value [n] on. *)
Fixpoint atoi_loop (s : list Z) (n : Z) : Z :=
  match s with
  | [] => n
  | c :: s' => if (48 <=? c) && (c <=? 57) then atoi_loop s' (s32 (n * 10 + c - 48)) else n
  end.

Definition atoi (s : list Z) : Z := atoi_loop s 0.

(** ** Digits *)

(** The value of the digits, the lowest first. *)
Fixpoint value (base : Z) (l : list Z) : Z :=
  match l with
  | [] => 0
  | d :: l' => d + base * value base l'
  end.

Lemma value_nonneg base l : 0 <= base -> Forall (fun d => 0 <= d) l -> 0 <= value base l.
Proof. intros Hb. induction 1; cbn; [lia|]. nia. Qed.

(** The loop writes the digits of the number, without leading zeros, as long
    as they fit. *)
Lemma int_digits_spec digits base n : forall fuel x buf, 2 <= base <= 16 -> (forall d, 0 <= d < base -> is_Some (zlookup digits d)) ->
  0 <= x < base ^ Z.of_nat n -> (0 < n <= fuel)%nat -> Z.of_nat (length buf + n) <= BUF ->
  exists ds, int_digits fuel digits base x buf = Ok (buf ++ map (fun d => default 0 (zlookup digits d)) ds) /\
    (0 < length ds <= n)%nat /\ Forall (fun d => 0 <= d < base) ds /\ value base ds = x /\ (x <> 0 -> last ds <> Some 0).
Proof.
  induction n as [|n IH]; intros fuel x buf Hb Hd Hx Hf Hl; [lia|]. destruct fuel as [|fuel]; [lia|]. cbn [int_digits].
  pose proof (Z.mod_pos_bound x base ltac:(lia)) as Hm. destruct (Hd _ Hm) as [ch Hc]. rewrite Hc. unfold store. rewrite (proj2 (Z.ltb_lt _ _)) by lia.
  pose proof (Z.div_mod x base ltac:(lia)) as Ediv. destruct (Z.eqb_spec (x / base) 0) as [E0|E0].
  - exists [x mod base]. cbn. rewrite Hc. split; [done|]. split; [lia|]. split; [by constructor|]. split; [nia|]. intros Hx0 [= Hz]. nia.
  - assert (Hq : 0 <= x / base < base ^ Z.of_nat n).
    { split; [apply Z.div_pos; lia|]. apply Z.div_lt_upper_bound; [lia|]. rewrite Nat2Z.inj_succ, Z.pow_succ_r in Hx by lia. lia. }
    assert (Hn : (0 < n)%nat). { destruct n; [cbn in Hq; lia|lia]. }
    destruct (IH fuel (x / base) (buf ++ [ch]) Hb Hd Hq) as (ds & R & L & F & V & N); [lia|rewrite length_app; cbn; lia|].
    exists (x mod base :: ds). rewrite R, <- app_assoc. cbn. rewrite Hc. split; [done|]. split; [lia|]. split; [by constructor|]. split; [nia|].
    intros _. destruct ds; [cbn in L; lia|]. by apply N.
Qed.

Lemma digits_decimal digits d : digits = digits_upper \/ digits = digits_lower -> 0 <= d < 10 -> zlookup digits d = Some (48 + d).
Proof.
  intros Hd H. assert (E : d = 0 \/ d = 1 \/ d = 2 \/ d = 3 \/ d = 4 \/ d = 5 \/ d = 6 \/ d = 7 \/ d = 8 \/ d = 9) by lia.
  by destruct Hd as [-> | ->]; repeat destruct E as [->|E]; subst.
Qed.

Lemma digits_hex digits d : digits = digits_upper \/ digits = digits_lower -> 0 <= d < 16 -> is_Some (zlookup digits d).
Proof. intros Hd H. apply zlookup_is_Some. destruct Hd as [-> | ->]; cbn; lia. Qed.

(** [atoi] reads digits back; what follows does not begin with a digit. *)
Definition no_digit (s : list Z) : Prop := match s with [] => True | c :: _ => c < 48 \/ 57 < c end.

Lemma atoi_app l : forall rest n, Forall (fun c => 48 <= c <= 57) l -> no_digit rest -> 0 <= n ->
  n * 10 ^ Z.of_nat (length l) + value 10 (rev (map (fun c => c - 48) l)) < 2 ^ 31 ->
  atoi_loop (l ++ rest) n = n * 10 ^ Z.of_nat (length l) + value 10 (rev (map (fun c => c - 48) l)).
Proof.
  assert (VA : forall l1 d, value 10 (l1 ++ [d]) = value 10 l1 + d * 10 ^ Z.of_nat (length l1)).
  { induction l1 as [|x l1 IH]; intros d; [cbn; lia|]. cbn [app value length]. rewrite IH, Nat2Z.inj_succ, Z.pow_succ_r by lia. ring. }
  induction l as [|c l IH]; intros rest n Hl Hr Hn Hv.
  - cbn in *. destruct rest as [|c rest]; cbn; [lia|]. cbn in Hr. destruct (Z.leb_spec 48 c), (Z.leb_spec c 57); cbn; lia.
  - inversion Hl as [|? ? Hc Hl']; subst. cbn [app atoi_loop]. rewrite (proj2 (Z.leb_le 48 c)), (proj2 (Z.leb_le c 57)) by lia. cbn [andb].
    cbn [map rev length] in *. rewrite VA in *. rewrite length_rev, length_map in *. rewrite Nat2Z.inj_succ, Z.pow_succ_r in * by lia.
    assert (HV : 0 <= value 10 (rev (map (fun c => c - 48) l))).
    { apply value_nonneg; [lia|]. apply Forall_rev, Forall_map. eapply Forall_impl; [exact Hl'|]. cbn. lia. }
    assert (HP : 1 <= 10 ^ Z.of_nat (length l)) by (apply (Z.pow_le_mono_r 10 0); lia).
    assert (HB : n * 10 + c - 48 < 2 ^ 31) by nia.
    rewrite (s32_small (n * 10 + c - 48)) by lia. rewrite IH; [ring|done|done|lia|nia].
Qed.

(** The digits of a number: their value, and no leading zero. *)
Definition numeral (base x : Z) (ds : list Z) : Prop :=
  value base ds = x /\ Forall (fun d => 0 <= d < base) ds /\ (0 < length ds)%nat /\ (x <> 0 -> last ds <> Some 0).

Definition digit (digits : list Z) (d : Z) : Z := default 0 (zlookup digits d).

Lemma printint_digits digits xx base sgn n : digits = digits_upper \/ digits = digits_lower -> 2 <= base <= 16 -> (0 < n <= 15)%nat ->
  u32 (if sgn && (xx <? 0) then - xx else xx) < base ^ Z.of_nat n ->
  exists ds, printint digits xx base sgn = Ok ((if sgn && (xx <? 0) then [45] else []) ++ map (digit digits) (rev ds)) /\
    numeral base (u32 (if sgn && (xx <? 0) then - xx else xx)) ds /\ (length ds <= n)%nat.
Proof.
  intros Hd Hb Hn Hx. set (x := u32 (if sgn && (xx <? 0) then - xx else xx)) in *. pose proof (u32_range (if sgn && (xx <? 0) then - xx else xx)) as Hr. fold x in Hr.
  destruct (int_digits_spec digits base n 32 x [] Hb) as (ds & R & L & F & V & N); [intros d H; apply digits_hex; [done|lia]|lia|lia|unfold BUF; cbn; lia|].
  exists ds. split; [|split; [by split; [|split; [|split; [lia|]]]|lia]]. unfold printint. fold x. rewrite R. cbn [app]. destruct (sgn && (xx <? 0)).
  - unfold store. rewrite length_map, (proj2 (Z.ltb_lt _ _)) by (unfold BUF; lia). rewrite rev_app_distr, map_rev. done.
  - by rewrite map_rev.
Qed.

(** Every [int] in base 10, and back. *)
Lemma printint_decimal digits xx : digits = digits_upper \/ digits = digits_lower -> - 2 ^ 31 <= xx < 2 ^ 31 ->
  exists ds, printint digits xx 10 true = Ok ((if xx <? 0 then [45] else []) ++ map (Z.add 48) (rev ds)) /\ numeral 10 (Z.abs xx) ds /\ (length ds <= 10)%nat.
Proof.
  intros Hd Hx. pose proof (u32_range xx). assert (E : u32 (if xx <? 0 then - xx else xx) = Z.abs xx).
  { destruct (Z.ltb_spec xx 0); rewrite u32_small by lia; lia. }
  destruct (printint_digits digits xx 10 true 10 Hd) as (ds & R & N & L); [lia|lia|cbn [andb]; rewrite E; lia|]. cbn [andb] in *. rewrite E in N. exists ds.
  split; [|done]. rewrite R. do 2 f_equal. apply map_ext_in. intros d Hin%list_elem_of_In. destruct N as (_ & F & _). rewrite Forall_forall in F.
  unfold digit. rewrite digits_decimal; [done|done|]. apply F. by apply list_elem_of_In, in_rev, list_elem_of_In.
Qed.

Lemma printint_atoi digits xx : digits = digits_upper \/ digits = digits_lower -> 0 <= xx < 2 ^ 31 ->
  exists l, printint digits xx 10 true = Ok l /\ forall rest, no_digit rest -> atoi (l ++ rest) = xx.
Proof.
  intros Hd Hx. destruct (printint_decimal digits xx Hd ltac:(lia)) as (ds & R & (V & F & L0 & _) & L).
  rewrite (proj2 (Z.ltb_ge xx 0)) in R by lia. exists (map (Z.add 48) (rev ds)). split; [done|].
  intros rest Hr. unfold atoi. assert (EV : value 10 (rev (map (fun c => c - 48) (map (Z.add 48) (rev ds)))) = xx).
  { rewrite map_map, map_rev, rev_involutive, <- (Z.abs_eq xx), <- V by lia. f_equal. rewrite <- (map_id ds) at 2. apply map_ext. intros d. lia. }
  rewrite atoi_app; rewrite ?EV; try done; try lia. apply Forall_map, Forall_rev. eapply Forall_impl; [exact F|]. cbn. lia.
Qed.

(** Numbers.  [printint], of the library and of the kernel, stays inside
    its buffer for every 32-bit value, in base 16, unsigned, and in base 10,
    with a sign, and writes the digits of the value without leading zeros;
    and [atoi] reads a non-negative number back that [%d] wrote, whatever
    follows it but a digit. *)
Theorem printint_correct digits xx : digits = digits_upper \/ digits = digits_lower -> - 2 ^ 31 <= xx < 2 ^ 31 ->
  (exists ds, printint digits xx 16 false = Ok (map (digit digits) (rev ds)) /\ numeral 16 (u32 xx) ds /\ (length ds <= 8)%nat) /\
  (exists ds, printint digits xx 10 true = Ok ((if xx <? 0 then [45] else []) ++ map (Z.add 48) (rev ds)) /\ numeral 10 (Z.abs xx) ds /\ (length ds <= 10)%nat) /\
  (0 <= xx -> exists l, printint digits xx 10 true = Ok l /\ forall rest, no_digit rest -> atoi (l ++ rest) = xx).
Proof.
  intros Hd Hx. pose proof (u32_range xx). split; [|split; [by apply printint_decimal|intros H0; apply printint_atoi; [done|lia]]].
  destruct (printint_digits digits xx 16 false 8 Hd) as (ds & R & N & L); [lia|lia|cbn [andb]; lia|]. exists ds. by cbn [andb app] in *.
Qed.

Lemma printint_correct_witness : printint digits_upper 2026 10 true = Ok [50; 48; 50; 54] /\ printint digits_lower (- 255) 10 true = Ok [45; 50; 53; 53] /\
  exists l, printint digits_upper 2026 10 true = Ok l /\ forall rest, no_digit rest -> atoi (l ++ rest) = 2026.
Proof.
  split; [vm_compute; reflexivity|]. split; [vm_compute; reflexivity|].
  destruct (printint_correct digits_upper 2026) as (_ & _ & H); [by left|lia|]. apply H. lia.
Defined.

(** ** The two functions *)

Lemma int_digits_ext base d1 d2 : (forall d, 0 <= d < base -> zlookup d1 d = zlookup d2 d) -> 0 < base ->
  forall fuel x buf, int_digits fuel d1 base x buf = int_digits fuel d2 base x buf.
Proof.
  intros Hd Hb. induction fuel as [|fuel IH]; intros x buf; [done|]. cbn. rewrite (Hd _ (Z.mod_pos_bound x base Hb)).
  destruct (zlookup d2 (x mod base)) as [ch|]; [|done]. destruct (store buf ch); try done. by rewrite IH.
Qed.

Lemma put_int_decimal v o : put_int digits_upper v 10 true o = put_int digits_lower v 10 true o.
Proof.
  unfold put_int, printint. rewrite (int_digits_ext 10 digits_upper digits_lower); [done| |lia]. intros d Hd.
  rewrite !digits_decimal; auto.
Qed.

(** The format has no conversion that the two functions treat differently:
    [%c], which only [printf] knows, and [%x] and [%p], where the letters of
    one are capital. *)
Fixpoint common (fmt : list Z) (pct : bool) : bool :=
  match fmt with
  | [] => true
  | c :: fmt' =>
      if pct then negb ((c =? 99) || (c =? 120) || (c =? 112)) && common fmt' false
      else common fmt' (c =? 37)
  end.

Lemma printf_cprintf n : forall fmt ap o, (length fmt <= n)%nat -> common fmt false = true -> printf fmt ap o = cprintf fmt ap o.
Proof.
  unfold printf. induction n as [|n IH]; intros [|c fmt] ap o Hn Hc; cbn in Hn; try lia; [done|done|]. cbn [printf_loop cprintf negb common] in *.
  destruct (c =? 37); cbn [negb].
  2: { unfold mbind, ST_bind, putc, modify. apply IH; [lia|done]. }
  destruct fmt as [|c' fmt]; [done|]. cbn [printf_loop negb length common] in *. apply andb_prop in Hc as [H1 H2]. apply negb_true_iff, orb_false_iff in H1 as [H1 H3].
  apply orb_false_iff in H1 as [H1 H4]. rewrite H1, H3, H4. cbn [orb].
  assert (HI : forall ap o, printf_loop fmt false ap o = cprintf fmt ap o) by (intros; apply IH; [lia|done]).
  destruct (c' =? 100).
  { unfold word_arg. destruct ap as [|[v|s] ap]; [reflexivity| |reflexivity]. unfold mbind, ST_bind. rewrite put_int_decimal.
    destruct (put_int digits_lower (s32 v) 10 true o) as [[u o']| | | |]; [apply HI|reflexivity..]. }
  destruct (c' =? 115). { unfold str_arg. destruct ap as [|[v|s] ap]; [reflexivity|reflexivity|]. unfold mbind, ST_bind, puts, modify. apply HI. }
  destruct (Z.eqb_spec c' 37) as [->|]; unfold mbind, ST_bind, putc, modify; apply HI.
Qed.

(** The kernel and the programs print alike.  [cprintf] and [printf]
    write the same characters for every format without [%c], [%x] and [%p], and
    all arguments, also where the format ends in a percent sign or an argument
    is missing. *)
Theorem printf_cprintf_agree fmt ap o : common fmt false = true -> printf fmt ap o = cprintf fmt ap o.
Proof. by apply (printf_cprintf (length fmt)). Qed.

(** ["pid %d: %s"]. *)
Lemma printf_cprintf_agree_witness : exists o, cprintf [112; 105; 100; 32; 37; 100; 58; 32; 37; 115] [A_word 12; A_str None] [] = Ok (tt, o) /\
  printf [112; 105; 100; 32; 37; 100; 58; 32; 37; 115] [A_word 12; A_str None] [] = Ok (tt, o).
Proof.
  exists [112; 105; 100; 32; 49; 50; 58; 32; 40; 110; 117; 108; 108; 41]. split; [vm_compute; reflexivity|].
  rewrite (printf_cprintf_agree [112; 105; 100; 32; 37; 100; 58; 32; 37; 115] [A_word 12; A_str None] []); [|reflexivity]. vm_compute. reflexivity.
Defined.

End Printf.
