(* ===== verification/Console.v ===== *)
(** * The console (drivers/console/console.c)

    The ring of characters that the interrupts of the keyboard and the serial
    port fill and edit and that [consoleread] empties, and the screen: 25 rows of
    80 cells and the position of the cursor, which the code keeps in two
    registers of the controller.  The serial port is the list of the bytes
    written to it.  The lock of the console is held in each function here. *)

From Stdlib Require Import ZArith Lia.
From stdpp Require Import base numbers strings list.
From S2P Require Import Prelude.

Open Scope Z_scope.

Module Console.

Definition BACKSPACE : Z := 0x100.
Definition INPUT_BUF : Z := 128.

(** [C(x)]. *)
Definition C (x : Z) : Z := x - 64.

Record input := mkinput { ibuf : list Z; ri : Z; wi : Z; ei : Z }.

Record cons := mkcons {
  inp : input;
  crt : list Z;
  cursor : Z;
  uart : list Z;
  woken : bool
}.

Definition set_inp (i : input) (s : cons) : cons := mkcons i (crt s) (cursor s) (uart s) (woken s).
Definition set_crt (c : list Z) (s : cons) : cons := mkcons (inp s) c (cursor s) (uart s) (woken s).
Definition set_cursor (p : Z) (s : cons) : cons := mkcons (inp s) (crt s) p (uart s) (woken s).
Definition set_woken (b : bool) (s : cons) : cons := mkcons (inp s) (crt s) (cursor s) (uart s) b.

(** ** Output *)

(** [crt[i] = v]. *)
Definition crt_set (i v : Z) : ST cons unit :=
  s ← get;
  match zlookup (crt s) i with
  | Some _ => put (set_crt (zinsert i v (crt s)) s)
  | None => fault
  end.

(** The scroll: [memmove] and [memset] on the cells. *)
Definition scroll (pos : Z) : ST cons unit :=
  s ← get;
  let m := take (23 * 80) (drop 80 (crt s)) ++ drop (23 * 80) (crt s) in
  if (0 <=? pos) && (pos <=? 24 * 80) then
    put (set_crt (take (Z.to_nat pos) m ++ replicate (Z.to_nat (24 * 80 - pos)) 0 ++ drop (24 * 80) m) s)
  else fault.

Definition cgaputc (c : Z) : ST cons unit :=
  s ← get;
  let pos := cursor s in
  pos ← (if c =? 10 then mret (pos + (80 - pos mod 80))
         else if c =? BACKSPACE then mret (if 0 <? pos then pos - 1 else pos)
         else crt_set pos (Z.lor (Z.land c 0xff) 0x0700);; mret (pos + 1));
  if (pos <? 0) || (25 * 80 <? pos) then panic "pos under/overflow"
  else
    pos ← (if 24 <=? pos / 80 then scroll (pos - 80);; mret (pos - 80) else mret pos);
    modify (set_cursor (Z.lor (Z.shiftl (u8 (Z.shiftr pos 8)) 8) (u8 pos)));;
    crt_set pos (Z.lor 32 0x0700).

Definition uartputc (c : Z) : ST cons unit :=
  modify (fun s => mkcons (inp s) (crt s) (cursor s) (uart s ++ [u8 c]) (woken s)).

Definition consputc (c : Z) : ST cons unit :=
  (if c =? BACKSPACE then uartputc 8;; uartputc 32;; uartputc 8 else uartputc c);;
  cgaputc c.

Fixpoint consolewrite (buf : list Z) : ST cons unit :=
  match buf with
  | [] => mret tt
  | c :: buf' => consputc (Z.land c 0xff);; consolewrite buf'
  end.

(** ** Input *)

Definition at_index (i : input) (k : Z) : Z := default 0 (zlookup (ibuf i) (u32 k mod INPUT_BUF)).

Definition set_e (v : Z) (i : input) : input := mkinput (ibuf i) (ri i) (wi i) (u32 v).
Definition set_w (v : Z) (i : input) : input := mkinput (ibuf i) (ri i) (u32 v) (ei i).
Definition set_r (v : Z) (i : input) : input := mkinput (ibuf i) (u32 v) (wi i) (ei i).

(** [input.buf[input.e++ % INPUT_BUF] = c]. *)
Definition push (c : Z) (i : input) : input :=
  mkinput (zinsert (ei i mod INPUT_BUF) c (ibuf i)) (ri i) (wi i) (u32 (ei i + 1)).

(** The loop of the kill character. *)
Fixpoint kill_line (fuel : nat) : ST cons unit :=
  s ← get;
  let i := inp s in
  if negb (ei i =? wi i) && negb (at_index i (ei i - 1) =? 10) then
    match fuel with
    | O => out_of_fuel
    | S f => put (set_inp (set_e (ei i - 1) i) s);; consputc BACKSPACE;; kill_line f
    end
  else mret tt.

(** One character of [consoleintr]: whether it asks for [procdump]. *)
Definition intr_char (c : Z) : ST cons bool :=
  s ← get;
  let i := inp s in
  if c =? C 80 then mret true
  else if c =? C 85 then kill_line (Z.to_nat (u32 (ei i - wi i)));; mret false
  else if (c =? C 72) || (c =? 0x7f) then
    (if negb (ei i =? wi i) then put (set_inp (set_e (ei i - 1) i) s);; consputc BACKSPACE else mret tt);; mret false
  else
    (if negb (c =? 0) && (u32 (ei i - ri i) <? INPUT_BUF) then
       let c := if c =? 13 then 10 else c in
       put (set_inp (push c i) s);;
       consputc c;;
       s ← get;
       let i := inp s in
       if (c =? 10) || (c =? C 68) || (ei i =? u32 (ri i + INPUT_BUF)) then
         put (set_woken true (set_inp (set_w (ei i) i) s))
       else mret tt
     else mret tt);;
    mret false.

(** The characters that [getc] returns before it returns -1. *)
Fixpoint consoleintr (cs : list Z) (doprocdump : bool) : ST cons bool :=
  match cs with
  | [] => mret doprocdump
  | c :: cs' => b ← intr_char c; consoleintr cs' (doprocdump || b)
  end.

(** [consoleread]: the bytes, or the process sleeps with these bytes stored,
    or it was killed. *)
Inductive rres := RDone (l : list Z) | RSleep (l : list Z) | RFail.

(** The loop, with [n] bytes left of [target] and [dst] stored. *)
Fixpoint consoleread (killed : bool) (target : Z) (n : nat) (dst : list Z) : ST cons rres :=
  match n with
  | O => mret (RDone dst)
  | S n' =>
      s ← get;
      let i := inp s in
      if ri i =? wi i then
        if killed then mret RFail
        else put (set_woken false s);; mret (RSleep dst)
      else
        let c := at_index i (ri i) in
        put (set_inp (set_r (ri i + 1) i) s);;
        if c =? C 68 then
          (if Z.of_nat n <? target then put (set_inp (set_r (u32 (ri i + 1) - 1) i) s) else mret tt);;
          mret (RDone dst)
        else if c =? 10 then mret (RDone (dst ++ [c]))
        else consoleread killed target n' (dst ++ [c])
  end.

End Console.

(** * The console: the screen stays in bounds, and the ring of characters is a
      line editor *)

Import Console.

Module ConsoleThm.

(** ** The screen *)

Definition screen_ok (s : cons) : Prop := length (crt s) = 2000%nat /\ 0 <= cursor s < 2000.

(** The parts of the state that output leaves alone. *)
Definition same_input (s s' : cons) : Prop := inp s' = inp s /\ woken s' = woken s.

Lemma registers pos : 0 <= pos < 2 ^ 16 -> Z.lor (Z.shiftl (u8 (Z.shiftr pos 8)) 8) (u8 pos) = pos.
Proof.
  intros H. unfold u8. rewrite Z.shiftr_div_pow2 by lia. assert (Hd : 0 <= pos / 2 ^ 8 < 2 ^ 8).
  { split; [apply Z.div_pos; lia|apply Z.div_lt_upper_bound; lia]. }
  rewrite (Z.mod_small _ _ Hd), lor_shiftl_add by (lia || apply Z.mod_pos_bound; lia). pose proof (Z.div_mod pos (2 ^ 8)). lia.
Qed.

Lemma run_crt_set i v s : 0 <= i < Z.of_nat (length (crt s)) -> crt_set i v s = Ok (tt, set_crt (zinsert i v (crt s)) s).
Proof. intros Hi. unfold crt_set, mbind, ST_bind, get. destruct (zlookup_is_Some (crt s) i Hi) as [x ->]. done. Qed.

(** The cells after the cursor has moved to [pos], below the last row. *)
Lemma run_scroll pos s : length (crt s) = 2000%nat -> 0 <= pos <= 1920 -> exists m, scroll pos s = Ok (tt, set_crt m s) /\ length m = 2000%nat.
Proof.
  intros Hl Hp. unfold scroll, mbind, ST_bind, get. rewrite (proj2 (Z.leb_le 0 pos)), (proj2 (Z.leb_le pos (24 * 80))) by lia. eexists. split; [reflexivity|].
  rewrite !length_app, length_replicate, !length_drop, !length_app, !length_take, !length_app, !length_take, !length_drop, Hl. lia.
Qed.

Lemma cgaputc_safe c s : screen_ok s -> exists s', cgaputc c s = Ok (tt, s') /\ screen_ok s' /\ same_input s s' /\ uart s' = uart s /\ (cursor s < 1920 -> cursor s' < 1920).
Proof.
  intros [Hl Hp]. unfold cgaputc. rewrite (run_bind get _ _ s s) by done.
  assert (H1 : exists pos s1, (if c =? 10 then mret (cursor s + (80 - cursor s mod 80))
         else if c =? BACKSPACE then mret (if 0 <? cursor s then cursor s - 1 else cursor s)
         else crt_set (cursor s) (Z.lor (Z.land c 255) 1792);; mret (cursor s + 1)) s = Ok (pos, s1) /\
       0 <= pos <= cursor s + 80 - cursor s mod 80 /\ length (crt s1) = 2000%nat /\ same_input s s1 /\ uart s1 = uart s).
  { pose proof (Z.mod_pos_bound (cursor s) 80 ltac:(lia)). destruct (c =? 10); [|destruct (c =? BACKSPACE)].
    - eexists _, s. split; [done|]. split; [lia|done].
    - eexists _, s. split; [done|]. split; [destruct (Z.ltb_spec 0 (cursor s)); lia|done].
    - eexists _, _. split; [step (run_crt_set (cursor s) (Z.lor (Z.land c 255) 1792) s ltac:(lia)); done|]. split; [lia|]. split; [cbn; by rewrite length_zinsert|done]. }
  destruct H1 as (pos & s1 & R1 & Hpos & L1 & SI1 & U1). step R1. pose proof (Z.mod_pos_bound (cursor s) 80 ltac:(lia)) as Hm.
  pose proof (Z.div_mod (cursor s) 80 ltac:(lia)) as Hdm.
  assert (Hpos2 : pos <= 2000) by nia. rewrite (proj2 (Z.ltb_ge pos 0)), (proj2 (Z.ltb_ge (25 * 80) pos)) by lia. cbn [orb].
  assert (H2 : exists s2 pos2, (if 24 <=? pos / 80 then scroll (pos - 80);; mret (pos - 80) else mret pos) s1 = Ok (pos2, s2) /\
      0 <= pos2 < 2000 /\ length (crt s2) = 2000%nat /\ same_input s s2 /\ uart s2 = uart s /\ (cursor s < 1920 -> pos2 < 1920)).
  { destruct (Z.leb_spec 24 (pos / 80)) as [Hr|Hr].
    - assert (1920 <= pos) by (pose proof (Z.mul_div_le pos 80 ltac:(lia)); lia). destruct (run_scroll (pos - 80) s1 L1 ltac:(lia)) as (m & R & Lm).
      step R. eexists _, _. split; [done|]. split; [lia|]. split; [done|]. split; [done|]. split; [done|]. intros Hc. nia.
    - assert (pos < 1920) by (apply Z.nle_gt; intros Hn; apply (Z.div_le_mono _ _ 80) in Hn; [change (1920 / 80) with 24 in Hn; lia|lia]).
      eexists s1, pos. split; [done|]. split; [lia|]. done. }
  destruct H2 as (s2 & pos2 & R2 & Hp2 & L2 & SI2 & U2 & Hb). step R2. rewrite registers by lia.
  rewrite (run_bind (modify (set_cursor pos2)) _ _ tt (set_cursor pos2 s2)) by done. rewrite run_crt_set by (cbn; lia).
  eexists. split; [done|]. split; [split; [cbn; by rewrite length_zinsert|cbn; lia]|]. split; [done|]. split; [done|]. done.
Qed.

Lemma consputc_safe c s : screen_ok s -> exists s', consputc c s = Ok (tt, s') /\ screen_ok s' /\ same_input s s'.
Proof.
  intros H. unfold consputc. set (s1 := mkcons (inp s) (crt s) (cursor s) (if c =? BACKSPACE then uart s ++ [8; 32; 8] else uart s ++ [u8 c]) (woken s)).
  assert (R : (if c =? BACKSPACE then uartputc 8;; uartputc 32;; uartputc 8 else uartputc c) s = Ok (tt, s1)).
  { unfold s1. destruct (c =? BACKSPACE); [|done]. unfold uartputc, mbind, ST_bind, modify. cbn. by rewrite <- !app_assoc. }
  step R. destruct (cgaputc_safe c s1 H) as (s' & R' & H' & HS & _). exists s'. done.
Qed.

(** ** The ring *)

Record ring (i : input) (rdy ln : list Z) : Prop := {
  rg_len : length (ibuf i) = 128%nat;
  rg_r : 0 <= ri i < 2 ^ 32;
  rg_w : wi i = u32 (ri i + Z.of_nat (length rdy));
  rg_e : ei i = u32 (ri i + Z.of_nat (length rdy) + Z.of_nat (length ln));
  rg_cap : (length rdy + length ln <= 128)%nat;
  rg_at : forall j c, (rdy ++ ln) !! j = Some c -> at_index i (ri i + Z.of_nat j) = c
}.

Lemma u32_mod128 k : u32 k mod INPUT_BUF = k mod INPUT_BUF.
Proof. unfold u32, INPUT_BUF. apply Z.mod_mod_divide. by exists (2 ^ 25). Qed.

Lemma u32_add a b : u32 (u32 a + b) = u32 (a + b).
Proof. unfold u32. by rewrite Z.add_mod_idemp_l by lia. Qed.

Lemma u32_eq_small a m n : 0 <= m < 2 ^ 32 -> 0 <= n < 2 ^ 32 -> u32 (a + m) = u32 (a + n) -> m = n.
Proof.
  intros Hm Hn E. apply (f_equal (fun x => u32 (x - a))) in E. unfold u32 in E. rewrite !Zminus_mod_idemp_l in E.
  replace (a + m - a) with m in E by lia. replace (a + n - a) with n in E by lia. by rewrite !Z.mod_small in E.
Qed.

Section Ring.

Context (i : input) (rdy ln : list Z) (H : ring i rdy ln).

Lemma ring_empty_line : (ei i =? wi i) = bool_decide (ln = []).
Proof.
  rewrite (rg_e _ _ _ H), (rg_w _ _ _ H). pose proof (rg_cap _ _ _ H) as Hc. destruct ln as [|c l] eqn:El.
  - cbn. rewrite Z.add_0_r. apply Z.eqb_refl.
  - rewrite bool_decide_eq_false_2 by done. apply Z.eqb_neq. intros E. rewrite <- (Z.add_0_r (ri i + _)) in E at 2.
    apply u32_eq_small in E; cbn in *; lia.
Qed.

Lemma ring_empty_ready : (ri i =? wi i) = bool_decide (rdy = []).
Proof.
  rewrite (rg_w _ _ _ H). pose proof (rg_cap _ _ _ H) as Hc. pose proof (rg_r _ _ _ H). destruct rdy as [|c l] eqn:El.
  - cbn. rewrite Z.add_0_r, u32_small by done. apply Z.eqb_refl.
  - rewrite bool_decide_eq_false_2 by done. apply Z.eqb_neq. intros E. rewrite <- (u32_small (ri i)) in E at 1 by done. rewrite <- (Z.add_0_r (ri i)) in E at 1.
    apply u32_eq_small in E; cbn in *; lia.
Qed.

Lemma ring_size : u32 (ei i - ri i) = Z.of_nat (length rdy + length ln).
Proof.
  rewrite (rg_e _ _ _ H). unfold u32. rewrite Zminus_mod_idemp_l. pose proof (rg_cap _ _ _ H). rewrite Z.mod_small; lia.
Qed.

Lemma ring_line_size : u32 (ei i - wi i) = Z.of_nat (length ln).
Proof.
  rewrite (rg_e _ _ _ H), (rg_w _ _ _ H). unfold u32. rewrite <- Zminus_mod. pose proof (rg_cap _ _ _ H). rewrite Z.mod_small; lia.
Qed.

Lemma key_ring_push c : (length rdy + length ln < 128)%nat -> ring (push c i) rdy (ln ++ [c]).
Proof.
  intros Hc. destruct H as [H1 H2 H3 H4 H5 H6]. split; cbn [push ibuf ri wi ei].
  - by rewrite length_zinsert.
  - done.
  - done.
  - rewrite H4, length_app. cbn. rewrite u32_add. f_equal. lia.
  - rewrite length_app. cbn. lia.
  - intros j d Hj. unfold at_index, push. cbn [ibuf]. rewrite u32_mod128, H4, u32_mod128. unfold INPUT_BUF.
    assert (Hb : 0 <= (ri i + Z.of_nat (length rdy) + Z.of_nat (length ln)) mod 128 < Z.of_nat (length (ibuf i))).
    { rewrite H1. apply Z.mod_pos_bound. lia. }
    rewrite app_assoc in Hj. destruct (decide (j < length (rdy ++ ln))%nat) as [Hl|Hl].
    + rewrite lookup_app_l in Hj by done. rewrite length_app in Hl. rewrite zlookup_zinsert_ne.
      * specialize (H6 j d Hj). unfold at_index in H6. by rewrite u32_mod128 in H6.
      * intros E. assert (Em : (Z.of_nat j - (Z.of_nat (length rdy) + Z.of_nat (length ln))) mod 128 = 0).
        { replace (Z.of_nat j - (Z.of_nat (length rdy) + Z.of_nat (length ln))) with ((ri i + Z.of_nat j) - (ri i + Z.of_nat (length rdy) + Z.of_nat (length ln))) by lia.
          rewrite Zminus_mod, E, Z.sub_diag. done. }
        apply Z.mod_divide in Em as [q Hq]; [|lia]. nia.
    + pose proof (lookup_lt_Some _ _ _ Hj) as Hl2. rewrite length_app in Hl2. cbn in Hl2. assert (j = length (rdy ++ ln)) as -> by lia.
      rewrite list_lookup_middle in Hj by done. injection Hj as ->. rewrite length_app, Nat2Z.inj_add, Z.add_assoc, zlookup_zinsert_eq by done. done.
Qed.

Lemma ring_commit : ring (set_w (ei i) i) (rdy ++ ln) [].
Proof.
  destruct H as [H1 H2 H3 H4 H5 H6]. split; cbn [set_w ibuf ri wi ei]; [done|done| | | |].
  - rewrite H4, length_app, Nat2Z.inj_add, Z.add_assoc. unfold u32. by rewrite Z.mod_mod by lia.
  - rewrite H4, length_app, Nat2Z.inj_add. cbn. f_equal. lia.
  - rewrite length_app. cbn. lia.
  - rewrite app_nil_r. exact H6.
Qed.

End Ring.

Lemma ring_erase i rdy ln c : ring i rdy (ln ++ [c]) -> ring (set_e (ei i - 1) i) rdy ln /\ at_index i (ei i - 1) = c.
Proof.
  intros [H1 H2 H3 H4 H5 H6]. rewrite length_app in H4, H5. cbn in H4, H5. split.
  - split; cbn [set_e ibuf ri wi ei]; [done|done|done| |lia|].
    + rewrite H4. unfold u32. rewrite Zminus_mod_idemp_l. f_equal. lia.
    + intros j d Hj. apply H6. rewrite app_assoc. apply lookup_app_Some. by left.
  - assert (E : at_index i (ri i + Z.of_nat (length rdy + length ln)) = c).
    { apply H6. rewrite app_assoc, lookup_app_r by (rewrite length_app; lia). rewrite length_app. by rewrite Nat.sub_diag. }
    rewrite <- E. unfold at_index. rewrite !u32_mod128, H4. f_equal. f_equal. unfold u32, INPUT_BUF.
    assert (HD : (128 | 2 ^ 32)) by (by exists (2 ^ 25)). rewrite <- (Z.mod_mod_divide (_ mod 2 ^ 32 - 1) _ _ HD), Zminus_mod_idemp_l.
    rewrite (Z.mod_mod_divide _ _ _ HD). f_equal. lia.
Qed.

Lemma ring_take i c rdy ln : ring i (c :: rdy) ln -> ring (set_r (ri i + 1) i) rdy ln /\ at_index i (ri i) = c.
Proof.
  intros [H1 H2 H3 H4 H5 H6]. cbn [length] in *. split.
  - split; cbn [set_r ibuf ri wi ei]; [done|apply u32_range| | |lia|].
    + rewrite H3, u32_add. f_equal. lia.
    + rewrite H4. rewrite <- (Z.add_assoc (u32 _)), u32_add. f_equal. lia.
    + intros j d Hj. rewrite <- (H6 (S j) d Hj). unfold at_index. cbn [ibuf]. rewrite !u32_mod128. f_equal. f_equal. unfold INPUT_BUF.
      rewrite <- (Zplus_mod_idemp_l (u32 (ri i + 1))). fold INPUT_BUF. rewrite u32_mod128. unfold INPUT_BUF. rewrite Zplus_mod_idemp_l. f_equal. lia.
  - rewrite <- (Z.add_0_r (ri i)). by apply (H6 0%nat).
Qed.

(** ** The line editor

    What the console promises: the line that is being typed, and the
    characters of finished lines that no one has read. *)

Record editor := mked { ready : list Z; line : list Z }.

Definition key (c : Z) (a : editor) : editor :=
  if c =? C 80 then a
  else if c =? C 85 then mked (ready a) []
  else if (c =? C 72) || (c =? 0x7f) then mked (ready a) (removelast (line a))
  else if negb (c =? 0) && (Z.of_nat (length (ready a) + length (line a)) <? INPUT_BUF) then
    let c := if c =? 13 then 10 else c in
    let l := line a ++ [c] in
    if (c =? 10) || (c =? C 68) || (Z.of_nat (length (ready a) + length l) =? INPUT_BUF) then mked (ready a ++ l) []
    else mked (ready a) l
  else a.

(** A key that ends a line. *)
Definition ends (c : Z) (a : editor) : bool := negb (length (ready (key c a)) =? length (ready a))%nat.

(** What a read of [n] more bytes gets, after [dst]. *)
Fixpoint take_line (killed : bool) (target : Z) (n : nat) (dst rdy : list Z) : rres * list Z :=
  match n, rdy with
  | O, _ => (RDone dst, rdy)
  | S _, [] => (if killed then RFail else RSleep dst, rdy)
  | S n', c :: rdy' =>
      if c =? C 68 then (RDone dst, if Z.of_nat n <? target then rdy else rdy')
      else if c =? 10 then (RDone (dst ++ [c]), rdy')
      else take_line killed target n' (dst ++ [c]) rdy'
  end.

(** The state of the console stands for the editor. *)
Record shows (s : cons) (a : editor) : Prop := {
  sh_ring : ring (inp s) (ready a) (line a);
  sh_line : 10 ∉ line a;
  sh_screen : screen_ok s
}.

Lemma shows_output s s' a : shows s a -> screen_ok s' -> same_input s s' -> shows s' a.
Proof. intros [H1 H2 _] H3 [E _]. split; [by rewrite E|done|done]. Qed.

(** Output after a change of the ring. *)
Lemma put_consputc c i s : screen_ok s -> exists s', (put (set_inp i s);; consputc c) s = Ok (tt, s') /\ screen_ok s' /\ inp s' = i /\ woken s' = woken s.
Proof.
  intros H. rewrite (run_bind _ _ _ tt (set_inp i s)) by done. destruct (consputc_safe c (set_inp i s) H) as (s' & R & H' & [E1 E2]). by exists s'.
Qed.

Lemma kill_line_run rdy l : forall s, ring (inp s) rdy l -> 10 ∉ l -> screen_ok s ->
  exists s', kill_line (length l) s = Ok (tt, s') /\ ring (inp s') rdy [] /\ screen_ok s' /\ woken s' = woken s.
Proof.
  induction l as [|c l IH] using rev_ind; intros s Hr Hl Hs.
  - exists s. cbn. unfold mbind, ST_bind, get. rewrite (ring_empty_line _ _ _ Hr). cbn. done.
  - destruct (ring_erase _ _ _ _ Hr) as [Hr' Hc]. rewrite length_app, Nat.add_comm. cbn [kill_line Nat.add length]. rewrite (run_bind get _ _ s s) by done.
    rewrite (ring_empty_line _ _ _ Hr), bool_decide_eq_false_2 by (by destruct l). rewrite Hc. assert (c <> 10) by (intros ->; apply Hl, elem_of_app; right; by apply list_elem_of_singleton).
    rewrite (proj2 (Z.eqb_neq c 10)) by done. cbn [negb andb]. destruct (put_consputc BACKSPACE (set_e (ei (inp s) - 1) (inp s)) s Hs) as (s1 & R & H1 & E1 & W1).
    unfold mbind, ST_bind in R |- *. cbn in R |- *. rewrite R. destruct (IH s1) as (s2 & R2 & H2 & S2 & W2); [by rewrite E1| |done|].
    + intros Hin. apply Hl, elem_of_app. by left.
    + exists s2. split; [exact R2|]. split; [done|]. split; [done|congruence].
Qed.

(** A character that is stored. *)
Lemma type_char ch s rdy ln : ring (inp s) rdy ln -> 10 ∉ ln -> screen_ok s -> (length rdy + length ln < 128)%nat ->
  let done := (ch =? 10) || (ch =? C 68) || (Z.of_nat (length rdy + length (ln ++ [ch])) =? INPUT_BUF) in
  let a := if done then mked (rdy ++ ln ++ [ch]) [] else mked rdy (ln ++ [ch]) in
  exists s', (put (set_inp (push ch (inp s)) s);; consputc ch;;
    s ← get; let i := inp s in
    if (ch =? 10) || (ch =? C 68) || (ei i =? u32 (ri i + INPUT_BUF)) then put (set_woken true (set_inp (set_w (ei i) i) s)) else mret tt) s = Ok (tt, s') /\
    shows s' a /\ woken s' = woken s || negb (length (ready a) =? length rdy)%nat.
Proof.
  intros Hr Hl Hs Hc done a. assert (Hr2 := key_ring_push _ _ _ Hr ch Hc). destruct (put_consputc ch (push ch (inp s)) s Hs) as (s1 & R & H1 & E1 & W1).
  assert (Em : (ei (inp s1) =? u32 (ri (inp s1) + INPUT_BUF)) = (Z.of_nat (length rdy + length (ln ++ [ch])) =? INPUT_BUF)).
  { rewrite E1, (rg_e _ _ _ Hr2), <- Z.add_assoc, <- Nat2Z.inj_add. pose proof (rg_cap _ _ _ Hr2) as Hcap. unfold INPUT_BUF.
    destruct (Z.eqb_spec (Z.of_nat (length rdy + length (ln ++ [ch]))) 128) as [->|Hn]; [apply Z.eqb_refl|]. apply Z.eqb_neq. intros E.
    apply u32_eq_small in E; lia. }
  unfold mbind, ST_bind in R |- *. cbn in R |- *. rewrite R. unfold get. rewrite Em. subst a. fold done. destruct done eqn:Ed.
  - eexists. split; [reflexivity|]. cbn [ready]. split.
    + split; [cbn [inp set_woken set_inp ready line]; rewrite E1; apply (ring_commit _ _ _ Hr2)|apply not_elem_of_nil|exact H1].
    + cbn [woken set_woken]. rewrite (proj2 (Nat.eqb_neq _ _)); [by rewrite orb_true_r|]. rewrite !length_app. cbn. lia.
  - eexists. split; [reflexivity|]. cbn [ready]. rewrite Nat.eqb_refl, orb_false_r. split; [|done]. split; [cbn [ready line]; by rewrite E1| |done].
    cbn [line]. rewrite elem_of_app, list_elem_of_singleton. intros [?|<-]; [done|]. done.
Qed.

(** A key of the console is a key of the editor, and it wakes the reader when
    it ends a line. *)
Lemma intr_char_run c s a : shows s a -> exists b s', intr_char c s = Ok (b, s') /\ shows s' (key c a) /\ woken s' = woken s || ends c a.
Proof.
  intros [Hr Hl Hs]. destruct a as [rdy ln]. cbn [ready line] in *. unfold intr_char. rewrite (run_bind get _ _ s s) by done.
  unfold ends, key. cbn [ready line]. destruct (c =? C 80); [|destruct (c =? C 85); [|destruct ((c =? C 72) || (c =? 127))]].
  - exists true, s. split; [done|]. split; [done|]. by rewrite Nat.eqb_refl, orb_false_r.
  - rewrite (ring_line_size _ _ _ Hr), Nat2Z.id. destruct (kill_line_run rdy ln s Hr Hl Hs) as (s1 & R & H1 & S1 & W1). step R. exists false, s1.
    split; [done|]. split; [split; [done|apply not_elem_of_nil|done]|]. cbn. by rewrite Nat.eqb_refl, orb_false_r.
  - rewrite (ring_empty_line _ _ _ Hr). cbn [ready]. rewrite Nat.eqb_refl, orb_false_r. destruct (decide (ln = [])) as [->|Hne].
    + exists false, s. split; [done|]. done.
    + rewrite bool_decide_eq_false_2 by done. cbn [negb]. destruct (exists_last Hne) as (l & d & ->). destruct (ring_erase _ _ _ _ Hr) as [Hr' _].
      destruct (put_consputc BACKSPACE (set_e (ei (inp s) - 1) (inp s)) s Hs) as (s1 & R & H1 & E1 & W1). step R. exists false, s1. split; [done|].
      rewrite removelast_last. split; [split; [by cbn; rewrite E1| |done]|done]. intros Hin. apply Hl, elem_of_app. by left.
  - rewrite (ring_size _ _ _ Hr). destruct (negb (c =? 0) && (Z.of_nat (length rdy + length ln) <? INPUT_BUF)) eqn:Eb.
    2: { exists false, s. split; [done|]. split; [done|]. cbn. by rewrite Nat.eqb_refl, orb_false_r. }
    apply andb_prop in Eb as [_ Eb%Z.ltb_lt]. unfold INPUT_BUF in Eb. set (ch := if c =? 13 then 10 else c).
    destruct (type_char ch s rdy ln Hr Hl Hs ltac:(lia)) as (s1 & R & H1 & W1). step R. exists false, s1. split; [done|]. split; [exact H1|]. exact W1.
Qed.

Lemma consoleintr_run cs : forall b s a, shows s a -> exists b' s', consoleintr cs b s = Ok (b', s') /\ shows s' (fold_left (fun a c => key c a) cs a) /\
  (woken s = true -> woken s' = true) /\ (length (ready (fold_left (fun a c => key c a) cs a)) <> length (ready a) -> woken s' = true).
Proof.
  induction cs as [|c cs IH]; intros b s a H; [by exists b, s|]. cbn [consoleintr fold_left]. destruct (intr_char_run c s a H) as (b1 & s1 & R & H1 & W1). step R.
  destruct (IH (b || b1) s1 _ H1) as (b2 & s2 & R2 & H2 & W2 & W3). exists b2, s2. split; [exact R2|]. split; [done|].
  split; [intros Hw; apply W2; by rewrite W1, Hw|]. intros Hne. destruct (decide (length (ready (key c a)) = length (ready a))) as [E|E].
  - apply W3. congruence.
  - apply W2. rewrite W1. unfold ends. by rewrite (proj2 (Nat.eqb_neq _ _) E), orb_true_r.
Qed.

(** A read takes what the editor gives; the reader that goes to sleep has
    found nothing to read. *)
Lemma consoleread_run killed target n : forall dst s a, shows s a ->
  let '(r, rdy) := take_line killed target n dst (ready a) in
  exists s', consoleread killed target n dst s = Ok (r, s') /\ shows s' (mked rdy (line a)) /\ match r with RSleep _ => rdy = [] | _ => True end.
Proof.
  induction n as [|n IH]; intros dst s [rdy ln] H; cbn [take_line ready line].
  { exists s. done. }
  destruct H as [Hr Hl Hs]. cbn [ready line] in *. cbn [consoleread]. pose proof (ring_empty_ready _ _ _ Hr) as Ee. destruct rdy as [|c rdy].
  - destruct killed; eexists; (split; [unfold mbind, ST_bind, get; rewrite Ee, bool_decide_eq_true_2 by done; reflexivity|]); (split; [by split|done]).
  - destruct (ring_take _ _ _ _ Hr) as [Hr' Hc]. rewrite bool_decide_eq_false_2 in Ee by done.
    assert (HU : set_r (u32 (ri (inp s) + 1) - 1) (inp s) = inp s).
    { unfold set_r. rewrite <- Z.add_opp_r, u32_add. replace (ri (inp s) + 1 + - (1)) with (ri (inp s)) by lia. rewrite u32_small by apply Hr. by destruct (inp s). }
    set (s1 := set_inp (set_r (ri (inp s) + 1) (inp s)) s). assert (H1 : shows s1 (mked rdy ln)) by (by split).
    rewrite (run_bind get _ _ s s) by done. cbv zeta. rewrite Ee, Hc. rewrite (run_bind _ _ _ tt s1) by done.
    destruct (c =? C 68).
    + destruct (Z.of_nat (S n) <? target).
      * eexists. split; [reflexivity|]. split; [|done]. rewrite HU. by split.
      * eexists. split; [reflexivity|]. done.
    + destruct (c =? 10); [eexists; split; [reflexivity|]; done|]. specialize (IH (dst ++ [c]) s1 _ H1). cbn [ready line] in IH.
      destruct (take_line killed target n (dst ++ [c]) rdy) as [r q]. exact IH.
Qed.

Lemma consolewrite_run l : forall s a, shows s a -> exists s', consolewrite l s = Ok (tt, s') /\ shows s' a /\ woken s' = woken s.
Proof.
  induction l as [|c l IH]; intros s a H; [by exists s|]. cbn [consolewrite]. destruct (consputc_safe (Z.land c 255) s (sh_screen _ _ H)) as (s1 & R & S1 & E1).
  step R. destruct (IH s1 a (shows_output _ _ _ H S1 E1)) as (s2 & R2 & H2 & W2). exists s2. split; [done|]. split; [done|]. rewrite W2. apply E1.
Qed.

(** ** Sessions

    Keys, output, and a process that reads: it starts a read, or goes on with
    the one in which it sleeps. *)

Inductive op := Keys (cs : list Z) | Write (l : list Z) | Read (n : nat) | Resume (killed : bool).

(** The read in which the process sleeps: its size, and the bytes stored. *)
Definition reader : Type := option (nat * list Z).

Definition settle (target : nat) (r : rres) : reader * list rres :=
  match r with RSleep l => (Some (target, l), []) | _ => (None, [r]) end.

Definition run_op (o : op) (rd : reader) : ST cons (reader * list rres) :=
  match o, rd with
  | Keys cs, _ => consoleintr cs false;; mret (rd, [])
  | Write l, _ => consolewrite l;; mret (rd, [])
  | Read n, None => r ← consoleread false (Z.of_nat n) n []; mret (settle n r)
  | Resume k, Some (n, l) => r ← consoleread k (Z.of_nat n) (n - length l) l; mret (settle n r)
  | _, _ => mret (rd, [])
  end.

Fixpoint run_ops (os : list op) (rd : reader) : ST cons (reader * list rres) :=
  match os with
  | [] => mret (rd, [])
  | o :: os' => x ← run_op o rd; y ← run_ops os' x.1; mret (y.1, x.2 ++ y.2)
  end.

(** The same with the editor. *)
Definition edit_op (o : op) (rd : reader) (a : editor) : reader * list rres * editor :=
  match o, rd with
  | Keys cs, _ => (rd, [], fold_left (fun a c => key c a) cs a)
  | Read n, None => let '(r, rdy) := take_line false (Z.of_nat n) n [] (ready a) in (settle n r, mked rdy (line a))
  | Resume k, Some (n, l) => let '(r, rdy) := take_line k (Z.of_nat n) (n - length l) l (ready a) in (settle n r, mked rdy (line a))
  | _, _ => (rd, [], a)
  end.

Fixpoint edit_ops (os : list op) (rd : reader) (a : editor) : reader * list rres * editor :=
  match os with
  | [] => (rd, [], a)
  | o :: os' => let '(rd1, out1, a1) := edit_op o rd a in let '(rd2, out2, a2) := edit_ops os' rd1 a1 in (rd2, out1 ++ out2, a2)
  end.

(** A process that sleeps while there is something to read has been woken. *)
Definition awake (rd : reader) (s : cons) (a : editor) : Prop := rd <> None -> ready a <> [] -> woken s = true.

Lemma read_op k n l s a : shows s a -> let '(r, rdy) := take_line k (Z.of_nat n) (n - length l) l (ready a) in
  exists s', (r ← consoleread k (Z.of_nat n) (n - length l) l; mret (settle n r)) s = Ok (settle n r, s') /\ shows s' (mked rdy (line a)) /\
    awake (settle n r).1 s' (mked rdy (line a)).
Proof.
  intros H. pose proof (consoleread_run k (Z.of_nat n) (n - length l) l s a H) as HR. destruct (take_line k (Z.of_nat n) (n - length l) l (ready a)) as [r rdy].
  destruct HR as (s' & R & H' & Hw). exists s'. step R. split; [done|]. split; [done|]. intros H1 H2. cbn in H2. by destruct r.
Qed.

Lemma run_op_edit o rd s a : shows s a -> awake rd s a -> let '(rd', out, a') := edit_op o rd a in
  exists s', run_op o rd s = Ok ((rd', out), s') /\ shows s' a' /\ awake rd' s' a'.
Proof.
  intros H HA. destruct o as [cs|l|n|k]; cbn [edit_op run_op].
  - destruct (consoleintr_run cs false s a H) as (b & s1 & R & H1 & W1 & W2). step R. exists s1. split; [done|]. split; [done|]. intros H2 H3.
    destruct (decide (ready a = [])) as [E|E]; [|apply W1; by apply HA]. apply W2. rewrite E. intros EL. apply H3. by apply nil_length_inv.
  - destruct (consolewrite_run l s a H) as (s1 & R & H1 & W1). step R. exists s1. split; [done|]. split; [done|]. intros H2 H3. rewrite W1. by apply HA.
  - destruct rd as [[m l]|]; [by exists s|]. pose proof (read_op false n [] s a H) as HR. rewrite Nat.sub_0_r in HR.
    destruct (take_line false (Z.of_nat n) n [] (ready a)) as [r rdy]. destruct (settle n r) as [rd' out]. exact HR.
  - destruct rd as [[n l]|]; [|by exists s]. pose proof (read_op k n l s a H) as HR.
    destruct (take_line k (Z.of_nat n) (n - length l) l (ready a)) as [r rdy]. destruct (settle n r) as [rd' out]. exact HR.
Qed.

(** C22: the console is a line editor.  For every sequence of keys, in any
    batches, of output, and of reads that sleep and go on, the console returns
    to its reader exactly what the editor gives: the finished lines in order,
    edited by backspace and kill, cut at the size of the read or at an end of
    file, without losing or repeating a character although the three indices
    of the ring wrap around, and dropping keys only when 128 characters wait.
    No character is written outside the screen, nothing panics, and a reader
    that sleeps while a line is ready has been woken. *)
Theorem console_is_editor os rd s a : shows s a -> awake rd s a ->
  let '(rd', out, a') := edit_ops os rd a in
  exists s', run_ops os rd s = Ok ((rd', out), s') /\ shows s' a' /\ awake rd' s' a'.
Proof.
  revert rd s a. induction os as [|o os IH]; intros rd s a H HA; cbn [edit_ops run_ops]; [by exists s|].
  pose proof (run_op_edit o rd s a H HA) as H1. destruct (edit_op o rd a) as [[rd1 out1] a1]. destruct H1 as (s1 & R1 & H1 & A1). step R1. cbn [fst snd].
  specialize (IH rd1 s1 a1 H1 A1). destruct (edit_ops os rd1 a1) as [[rd2 out2] a2]. destruct IH as (s2 & R2 & H2). exists s2. step R2. done.
Qed.

(** The console after [consoleinit], with the indices about to wrap around. *)
Definition cons0 : cons := mkcons (mkinput (replicate 128 0) (2 ^ 32 - 2) (2 ^ 32 - 2) (2 ^ 32 - 2)) (replicate 2000 0) 0 [] false.

Lemma cons0_shows : shows cons0 (mked [] []).
Proof. split; [split|apply not_elem_of_nil|split]; cbn; try lia; try reflexivity. intros j c Hj. rewrite lookup_nil in Hj. discriminate Hj. Qed.

(** [ls], an x that is erased, and a newline, read by a process that sleeps
    for it. *)
Lemma console_is_editor_witness : exists s,
  run_ops [Read 10; Keys [108; 115; 120]; Keys [8; 13]; Resume false] None cons0 = Ok ((None, [RDone [108; 115; 10]]), s) /\ shows s (mked [] []).
Proof.
  destruct (console_is_editor [Read 10; Keys [108; 115; 120]; Keys [8; 13]; Resume false] None cons0 (mked [] [])) as (s & R & H & _).
  - exact cons0_shows.
  - intros Hn. exfalso. apply Hn. reflexivity.
  - exists s. split; [exact R|exact H].
Defined.

End ConsoleThm.
