(* ===== verification/Umalloc.v ===== *)
(** * The allocator of user programs (lib/ulibc/umalloc.c)

    Addresses count units of a [Header], eight bytes; the memory is the
    contents of the units below the break, and an access above it is a page
    fault.  [sbrk] moves the break as [sys_sbrk] and [growproc] do: it grows
    the process as long as it stays below a limit, the memory the machine can
    give it, and a negative argument shrinks it. *)

From Stdlib Require Import ZArith Lia.
From stdpp Require Import base numbers strings list.
From S2P Require Import Prelude.

Open Scope Z_scope.

Module Umalloc.

(** [union header]. *)
Record header := mkhdr { ptr : Z; size : Z }.

Record state := mkstate { hmem : Z -> header; freep : Z; brk : Z }.

(** [sizeof(Header)]. *)
Definition HEADER : Z := 8.

(** The unit is inside the process. *)
Definition inside (s : state) (p : Z) : bool := (0 <=? p) && (p * HEADER + HEADER <=? brk s).

Definition rd (p : Z) : ST state header := fun s => if inside s p then Ok (hmem s p, s) else Fault.
Definition wr (p : Z) (h : header) : ST state unit := fun s =>
  if inside s p then Ok (tt, mkstate (fun a => if a =? p then h else hmem s a) (freep s) (brk s)) else Fault.
Definition set_ptr (p v : Z) : ST state unit := h ← rd p; wr p (mkhdr v (size h)).
Definition set_size (p v : Z) : ST state unit := h ← rd p; wr p (mkhdr (ptr h) v).
Definition set_freep (p : Z) : ST state unit := modify (fun s => mkstate (hmem s) p (brk s)).

Section Code.

(** The address of [base], and the end of the memory. *)
Variable base limit : Z.

(** [sbrk]: the old break in bytes, or -1. *)
Definition sbrk (n : Z) : ST state Z :=
  s ← get;
  if 0 <? n then
    if brk s + n <=? limit then put (mkstate (hmem s) (freep s) (brk s + n));; mret (brk s) else mret (-1)
  else if n <? 0 then
    let newsz := u32 (brk s + n) in
    let sz := if brk s <=? newsz then brk s else newsz in
    if sz =? 0 then mret (-1) else put (mkstate (hmem s) (freep s) sz);; mret (brk s)
  else mret (brk s).

(** The loop of [free]: the block after which [bp] belongs. *)
Fixpoint find_place (fuel : nat) (bp p : Z) : ST state Z :=
  h ← rd p;
  if (p <? bp) && (bp <? ptr h) then mret p
  else if (ptr h <=? p) && ((p <? bp) || (bp <? ptr h)) then mret p
  else match fuel with O => out_of_fuel | S f => find_place f bp (ptr h) end.

Definition free (fuel : nat) (ap : Z) : ST state unit :=
  let bp := ap - 1 in
  s ← get;
  p ← find_place fuel bp (freep s);
  hb ← rd bp;
  hp ← rd p;
  (if bp + size hb =? ptr hp then
     hn ← rd (ptr hp);
     set_size bp (u32 (size hb + size hn));;
     set_ptr bp (ptr hn)
   else set_ptr bp (ptr hp));;
  hp ← rd p;
  (if p + size hp =? bp then
     hb ← rd bp;
     set_size p (u32 (size hp + size hb));;
     set_ptr p (ptr hb)
   else set_ptr p bp);;
  set_freep p.

Definition morecore (fuel : nat) (nu : Z) : ST state Z :=
  let nu := if nu <? 4096 then 4096 else nu in
  p ← sbrk (s32 (nu * HEADER));
  if p =? -1 then mret 0
  else
    let hp := p / HEADER in
    set_size hp nu;;
    free fuel (hp + 1);;
    s ← get;
    mret (freep s).

(** The loop of [malloc]. *)
Fixpoint malloc_loop (fuel : nat) (nunits prevp p : Z) : ST state Z :=
  h ← rd p;
  if nunits <=? size h then
    q ← (if size h =? nunits then set_ptr prevp (ptr h);; mret p
         else
           set_size p (size h - nunits);;
           let p := p + (size h - nunits) in
           set_size p nunits;;
           mret p);
    set_freep prevp;;
    mret (q + 1)
  else
    match fuel with
    | O => out_of_fuel
    | S f =>
        s ← get;
        if p =? freep s then
          p ← morecore f nunits;
          if p =? 0 then mret 0
          else h ← rd p; malloc_loop f nunits p (ptr h)
        else malloc_loop f nunits p (ptr h)
    end.

Definition malloc (fuel : nat) (nbytes : Z) : ST state Z :=
  let nunits := u32 (u32 (nbytes + HEADER - 1) / HEADER + 1) in
  s ← get;
  prevp ← (if freep s =? 0 then
             set_ptr base base;; set_freep base;; set_size base 0;; mret base
           else mret (freep s));
  h ← rd prevp;
  malloc_loop fuel nunits prevp (ptr h).

End Code.

End Umalloc.

(** * The allocator of user programs: live blocks never overlap, and no memory
      is lost *)

Import Umalloc.

Module UmallocThm.

(** ** Blocks *)

(** A block: its address and its size, in units. *)
Notation block := (Z * Z)%type.

Definition apart (x y : block) : Prop := x.1 + x.2 <= y.1 \/ y.1 + y.2 <= x.1.

(** Ordered by address, and never adjacent. *)
Fixpoint ordered (F : list block) : Prop :=
  match F with
  | [] => True
  | x :: F' => Forall (fun y => x.1 + x.2 < y.1) F' /\ ordered F'
  end.

(** The address of the first block, or [e]. *)
Definition hd_addr (F : list block) (e : Z) : Z := match F with [] => e | x :: _ => x.1 end.

(** The blocks are linked in this order, and the last one points to [e]. *)
Fixpoint linked (m : Z -> header) (F : list block) (e : Z) : Prop :=
  match F with
  | [] => True
  | x :: F' => m x.1 = mkhdr (hd_addr F' e) x.2 /\ linked m F' e
  end.

Fixpoint units (F : list block) : Z :=
  match F with [] => 0 | x :: F' => x.2 + units F' end.

Lemma ordered_app F1 F2 : ordered (F1 ++ F2) <-> ordered F1 /\ ordered F2 /\ Forall (fun x => Forall (fun y => x.1 + x.2 < y.1) F2) F1.
Proof.
  induction F1 as [|x F1 IH]; cbn; [rewrite Forall_nil; tauto|]. rewrite IH, Forall_app, Forall_cons. tauto.
Qed.

Lemma hd_addr_app F1 F2 e : hd_addr (F1 ++ F2) e = hd_addr F1 (hd_addr F2 e).
Proof. by destruct F1. Qed.

Lemma linked_app m F1 F2 e : linked m (F1 ++ F2) e <-> linked m F1 (hd_addr F2 e) /\ linked m F2 e.
Proof. induction F1 as [|x F1 IH]; cbn; [tauto|]. rewrite IH, hd_addr_app. tauto. Qed.

Lemma blocks_linked_ext m m' F e : (forall x, x ∈ F -> m' x.1 = m x.1) -> linked m F e -> linked m' F e.
Proof.
  induction F as [|x F IH]; [done|]. cbn. intros E [H1 H2]. split; [rewrite E; [done|by left]|]. apply IH; [|done]. intros y Hy. apply E. by right.
Qed.

Lemma units_app F1 F2 : units (F1 ++ F2) = units F1 + units F2.
Proof. induction F1 as [|x F1 IH]; cbn [units app]; [done|]. rewrite IH. lia. Qed.

#[export] Instance units_proper : Proper (Permutation ==> eq) units.
Proof. intros F1 F2 HP. induction HP; cbn [units]; lia. Qed.

Lemma units_pos F : Forall (fun x => 0 < x.2) F -> 0 <= units F.
Proof. induction 1; cbn [units]; lia. Qed.

Lemma in_suffix F x : x ∈ map fst F -> exists F1 F2, F = F1 ++ F2 /\ forall e, x = hd_addr F2 e.
Proof.
  intros (y & -> & Hy)%list_elem_of_fmap. apply list_elem_of_split in Hy as (F1 & F2 & ->). by exists F1, (y :: F2).
Qed.

(** ** Joining adjacent blocks *)

Definition join (x : block) (F : list block) : list block :=
  match F with
  | [] => [x]
  | y :: F' => if x.1 + x.2 =? y.1 then (x.1, x.2 + y.2) :: F' else x :: F
  end.

Lemma units_join x F : units (join x F) = x.2 + units F.
Proof. destruct F as [|y F]; cbn [join]; [done|]. destruct (_ =? _); cbn [units fst snd]; lia. Qed.

Lemma hd_addr_join x F e : hd_addr (join x F) e = x.1.
Proof. destruct F as [|y F]; cbn [join]; [done|]. by destruct (_ =? _). Qed.

Lemma join_head x F : x.1 ∈ map fst (join x F).
Proof. destruct F as [|y F]; cbn [join]; [by left|]. destruct (_ =? _); by left. Qed.

Lemma Forall_join (P : block -> Prop) x F :
  (forall y, P x -> P y -> x.1 + x.2 = y.1 -> P (x.1, x.2 + y.2)) -> P x -> Forall P F -> Forall P (join x F).
Proof.
  intros HP Hx HF. destruct F as [|y F]; cbn [join]; [by constructor|]. inversion HF; subst.
  destruct (Z.eqb_spec (x.1 + x.2) y.1); constructor; auto.
Qed.

Lemma ordered_join x F : ordered F -> Forall (fun y => x.1 + x.2 <= y.1 /\ 0 <= y.2) F -> ordered (join x F).
Proof.
  intros HO HF. destruct F as [|y F]; cbn [join]; [by repeat constructor|]. inversion HF as [|? ? [H1 H2] HF']; subst. destruct HO as [HO1 HO2].
  destruct (Z.eqb_spec (x.1 + x.2) y.1) as [E|E]; cbn [ordered fst snd].
  - split; [|done]. eapply Forall_impl; [exact HO1|]. cbn. lia.
  - split; [|by split]. constructor; [lia|]. eapply Forall_impl; [exact HO1|]. cbn. lia.
Qed.

(** A block put between its neighbours. *)
Lemma Forall_join2 (P : block -> Prop) F1 p b F2 :
  (forall x y, P x -> P y -> x.1 + x.2 = y.1 -> P (x.1, x.2 + y.2)) -> Forall P (F1 ++ p :: F2) -> P b -> Forall P (F1 ++ join p (join b F2)).
Proof.
  intros HP HF Hb. apply Forall_app in HF as [HF1 HF2]. apply Forall_cons in HF2 as [Hp HF2]. apply Forall_app. split; [done|]. repeat apply Forall_join; auto.
Qed.

Lemma ordered_join2 F1 p b F2 :
  ordered (F1 ++ p :: F2) -> p.1 + p.2 <= b.1 -> 0 <= p.2 -> 0 <= b.2 -> Forall (fun y => b.1 + b.2 <= y.1 /\ 0 <= y.2) F2 -> ordered (F1 ++ join p (join b F2)).
Proof.
  intros HO Hpb Hp Hb HF2. apply ordered_app in HO as (HO1 & [HO2 HO3] & HO4). apply ordered_app. split; [done|]. split.
  - apply ordered_join; [by apply ordered_join|]. apply Forall_join; cbn [fst snd]; [lia..|]. eapply Forall_impl; [exact HF2|]. cbn. lia.
  - apply Forall_forall. intros x Hx. eapply Forall_forall in HO4; [|exact Hx]. apply Forall_cons in HO4 as [H1 H2]. repeat apply Forall_join; cbn [fst snd]; auto; lia.
Qed.

Lemma join2_big F1 p b F2 : 0 <= p.2 -> Forall (fun y => 0 <= y.2) F2 -> exists y, y ∈ F1 ++ join p (join b F2) /\ b.2 <= y.2.
Proof.
  intros Hp HF2. assert (HG : exists y G, join b F2 = y :: G /\ b.2 <= y.2).
  { destruct F2 as [|z F2]; cbn [join]; [eauto with lia|]. apply Forall_cons in HF2 as [Hz _]. destruct (_ =? _); eexists _, _; split; [done|cbn; lia|done|lia]. }
  destruct HG as (y & G & -> & Hy). cbn [join]. destruct (_ =? _); [exists (p.1, p.2 + y.2)|exists y]; (split; [rewrite elem_of_app, !elem_of_cons; auto|cbn; lia]).
Qed.

Lemma length_join x F : (length (join x F) <= S (length F))%nat.
Proof. destruct F; cbn [join]; [done|]. destruct (_ =? _); cbn; lia. Qed.

Lemma join_apart x F : x.1 + x.2 < hd_addr F (x.1 + x.2 + 1) -> join x F = x :: F.
Proof. destruct F as [|y F]; cbn [join hd_addr]; [done|]. intros H. by rewrite (proj2 (Z.eqb_neq _ _)) by lia. Qed.

Section Heap.

Context (base limit : Z) (Hbase : 0 < base).

Lemma rd_run s p : inside s p = true -> rd p s = Ok (hmem s p, s).
Proof. unfold rd. by intros ->. Qed.

Definition upd (s : state) (p : Z) (h : header) : state := mkstate (fun a => if a =? p then h else hmem s a) (freep s) (brk s).

Lemma set_ptr_run s p v : inside s p = true -> set_ptr p v s = Ok (tt, upd s p (mkhdr v (size (hmem s p)))).
Proof. intros H. unfold set_ptr. step (rd_run s p H). unfold wr. by rewrite H. Qed.

Lemma set_size_run s p v : inside s p = true -> set_size p v s = Ok (tt, upd s p (mkhdr (ptr (hmem s p)) v)).
Proof. intros H. unfold set_size. step (rd_run s p H). unfold wr. by rewrite H. Qed.

(** ** Finding the place of a block *)

(** From a block below [bp] the walk stops at the last one below. *)
Lemma walk_below s bp F1 p ps F2 k :
  linked (hmem s) (F1 ++ (p, ps) :: F2) base -> Forall (fun x => inside s x.1 = true) (F1 ++ [(p, ps)]) ->
  Forall (fun x => 0 <= x.2) F1 -> ordered (F1 ++ [(p, ps)]) ->
  Forall (fun x => x.1 < bp) (F1 ++ [(p, ps)]) -> Forall (fun x => bp < x.1) F2 -> base <= p ->
  find_place (length F1 + k) bp (hd_addr F1 p) s = Ok (p, s).
Proof.
  intros HL HI H0 HO HF1 HF2 Hp. induction F1 as [|[x xs] F1 IH].
  - cbn in *. inversion HI as [|? ? Hi _]; subst. inversion HF1 as [|? ? Hlt _]; subst. cbn in Hi, Hlt.
    destruct k as [|k]; cbn; step (rd_run s p Hi); rewrite (proj1 HL); cbn [ptr];
      (destruct F2 as [|[y ys] F2]; cbn; [|inversion HF2 as [|? ? Hy _]; cbn in Hy; subst]);
      rewrite ?(proj2 (Z.ltb_lt p bp)) by lia; [|rewrite (proj2 (Z.ltb_lt bp y)) by lia; reflexivity| |rewrite (proj2 (Z.ltb_lt bp y)) by lia; reflexivity];
      destruct (bp <? base); cbn; [reflexivity| |reflexivity|]; rewrite (proj2 (Z.leb_le base p)) by lia; reflexivity.
  - cbn [app] in *. inversion HI as [|? ? Hi HI']; inversion HF1 as [|? ? Hlt HF1']; inversion H0 as [|? ? Hx H0']; subst. destruct HO as [HO1 HO2]. cbn [fst snd] in Hi, Hlt, Hx.
    destruct HL as [HLx HL]. cbn [fst snd] in HLx, HO1. rewrite hd_addr_app in HLx. cbn [hd_addr fst] in HLx.
    change (find_place (S (length F1 + k)) bp x s = Ok (p, s)). cbn [find_place]. step (rd_run s x Hi). rewrite HLx. cbn [ptr].
    assert (Hn : x < hd_addr F1 p < bp).
    { destruct F1 as [|[y ys] F1]; cbn [app hd_addr fst] in *; inversion HO1; inversion HF1'; subst; cbn [fst] in *; lia. }
    rewrite (proj2 (Z.ltb_lt x bp)), (proj2 (Z.ltb_ge bp (hd_addr F1 p))), (proj2 (Z.leb_gt (hd_addr F1 p) x)) by lia. cbn. by apply IH.
Qed.

(** From a block above [bp] the walk reaches [base]. *)
Lemma walk_above s bp F2 k :
  linked (hmem s) F2 base -> Forall (fun x => inside s x.1 = true) F2 -> Forall (fun x => 0 <= x.2) F2 -> ordered F2 -> Forall (fun x => bp < x.1) F2 -> base < bp ->
  find_place (length F2 + k) bp (hd_addr F2 base) s = find_place k bp base s.
Proof.
  intros HL HI H0 HO HF2 Hb. induction F2 as [|[x xs] F2 IH]; [done|].
  inversion HI as [|? ? Hi HI']; inversion HF2 as [|? ? Hlt HF2']; inversion H0 as [|? ? Hx H0']; subst. destruct HO as [HO1 HO2], HL as [HLx HL]. cbn [fst snd hd_addr] in *.
  change (find_place (S (length F2 + k)) bp x s = find_place k bp base s). cbn [find_place]. step (rd_run s x Hi). rewrite HLx. cbn [ptr].
  rewrite (proj2 (Z.ltb_ge x bp)) by lia. cbn [andb orb].
  replace ((hd_addr F2 base <=? x) && (bp <? hd_addr F2 base)) with false; [by apply IH|]. symmetry.
  destruct F2 as [|[y ys] F2]; cbn [hd_addr fst] in *; [rewrite (proj2 (Z.ltb_ge bp base)) by lia; apply andb_false_r|].
  inversion HO1; subst. cbn [fst] in *. by rewrite (proj2 (Z.leb_gt y x)) by lia.
Qed.

(** ** Joining the neighbours *)

Definition same_but (s s' : state) (P : Z -> Prop) : Prop :=
  freep s' = freep s /\ brk s' = brk s /\ forall a, ~ P a -> hmem s' a = hmem s a.

Lemma upd_same s p h : hmem (upd s p h) p = h.
Proof. cbn. by rewrite Z.eqb_refl. Qed.

Lemma upd_ne s p h a : a <> p -> hmem (upd s p h) a = hmem s a.
Proof. intros Ha. cbn. by rewrite (proj2 (Z.eqb_neq a p)). Qed.

Lemma upd_same_but s p h : same_but s (upd s p h) (eq p).
Proof. split_and!; [done..|]. intros a Ha. by rewrite upd_ne by congruence. Qed.

Lemma units_but_trans s1 s2 s3 (P Q : Z -> Prop) : same_but s1 s2 P -> same_but s2 s3 Q -> same_but s1 s3 (fun a => P a \/ Q a).
Proof. intros (E1 & E2 & E3) (E4 & E5 & E6). split_and!; [congruence..|]. intros a Ha. rewrite E6, E3 by tauto. done. Qed.

Lemma same_but_mono s s' (P Q : Z -> Prop) : (forall a, P a -> Q a) -> same_but s s' P -> same_but s s' Q.
Proof. intros HP (E1 & E2 & E3). split_and!; [done..|]. intros a Ha. apply E3. auto. Qed.

Lemma same_inside s s' P a : same_but s s' P -> inside s' a = inside s a.
Proof. intros (_ & E & _). unfold inside. by rewrite E. Qed.

Lemma linked_but s s' P F e : same_but s s' P -> Forall (fun x => ~ P x.1) F -> linked (hmem s) F e -> linked (hmem s') F e.
Proof. intros (_ & _ & E) HF. apply blocks_linked_ext. intros x Hx. apply E. by eapply Forall_forall in HF. Qed.

(** Both halves of [free] set two fields of one header. *)
Lemma set_both s p z v : inside s p = true -> exists s', (set_size p z;; set_ptr p v) s = Ok (tt, s') /\ same_but s s' (eq p) /\ hmem s' p = mkhdr v z.
Proof.
  intros Hp. exists (upd (upd s p (mkhdr (ptr (hmem s p)) z)) p (mkhdr v z)). step (set_size_run s p z Hp).
  rewrite set_ptr_run by done. rewrite !upd_same. split; [done|]. split; [|done].
  eapply same_but_mono; [|eapply units_but_trans; apply upd_same_but]. intros a [?|?]; done.
Qed.

Lemma right_run s bp hb hp F2 :
  inside s bp = true -> hmem s bp = hb -> ptr hp = hd_addr F2 base -> linked (hmem s) F2 base -> base < bp -> 0 < size hb < 2 ^ 31 ->
  Forall (fun x => inside s x.1 = true /\ bp < x.1 /\ 0 <= x.2 < 2 ^ 31) F2 ->
  exists s' sz G, (if bp + size hb =? ptr hp then hn ← rd (ptr hp); set_size bp (u32 (size hb + size hn));; set_ptr bp (ptr hn) else set_ptr bp (ptr hp)) s = Ok (tt, s') /\
    same_but s s' (eq bp) /\ join (bp, size hb) F2 = (bp, sz) :: G /\ linked (hmem s') ((bp, sz) :: G) base.
Proof.
  intros Hi Hb Hp HL Hbb Hsz HF. rewrite Hp. clear Hp.
  assert (Hset : (bp + size hb =? hd_addr F2 base) = false -> join (bp, size hb) F2 = (bp, size hb) :: F2) by (by destruct F2 as [|y F2]; [|cbn; intros ->]).
  assert (Hbut : Forall (fun x => bp <> x.1) F2) by (eapply Forall_impl; [exact HF|]; cbn; lia).
  destruct (bp + size hb =? hd_addr F2 base) eqn:Ej.
  - destruct F2 as [|[y ys] F2]; cbn [hd_addr fst] in *; [apply Z.eqb_eq in Ej; lia|]. inversion HF as [|? ? (Hy & _ & Hys) HF']; inversion Hbut; subst.
    destruct HL as [HLy HL]. cbn [fst snd] in *. step (rd_run s y Hy). rewrite HLy. cbn [size ptr].
    destruct (set_both s bp (u32 (size (hmem s bp) + ys)) (hd_addr F2 base) Hi) as (s' & R & HS & Hbp). exists s', (size (hmem s bp) + ys), F2.
    split; [exact R|]. split; [done|]. cbn [join fst snd]. rewrite Ej. split; [done|]. split; [cbn [fst snd]; rewrite Hbp; f_equal; apply u32_small; lia|]. by eapply linked_but.
  - rewrite set_ptr_run by done. eexists _, (size hb), F2. split; [done|]. split; [apply upd_same_but|]. split; [auto|]. split; [cbn [fst snd]; rewrite upd_same; congruence|].
    eapply linked_but; [apply upd_same_but|done..].
Qed.

Lemma left_run s p hp bp sz G :
  inside s p = true -> inside s bp = true -> hmem s p = hp -> linked (hmem s) ((bp, sz) :: G) base -> 0 <= size hp < 2 ^ 31 -> 0 <= sz < 2 ^ 31 ->
  Forall (fun x => p < x.1) ((bp, sz) :: G) ->
  exists s', (if p + size hp =? bp then hb ← rd bp; set_size p (u32 (size hp + size hb));; set_ptr p (ptr hb) else set_ptr p bp) s = Ok (tt, s') /\
    same_but s s' (eq p) /\ linked (hmem s') (join (p, size hp) ((bp, sz) :: G)) base.
Proof.
  intros Hi Hib Hp HL Hsz Hsz' HG. assert (Hbut : Forall (fun x => p <> x.1) ((bp, sz) :: G)) by (eapply Forall_impl; [exact HG|]; cbn; lia).
  cbn [join fst snd]. destruct (p + size hp =? bp).
  - destruct HL as [HLb HL]. inversion Hbut; subst. cbn [fst snd] in *. step (rd_run s bp Hib). rewrite HLb. cbn [size ptr].
    destruct (set_both s p (u32 (size (hmem s p) + sz)) (hd_addr G base) Hi) as (s' & R & HS & Hpp). exists s'. split; [exact R|]. split; [done|].
    split; [cbn [fst snd]; rewrite Hpp; f_equal; apply u32_small; lia|]. by eapply linked_but.
  - rewrite set_ptr_run by done. eexists. split; [done|]. split; [apply upd_same_but|]. split; [cbn [fst snd hd_addr]; rewrite upd_same; congruence|].
    eapply linked_but; [apply upd_same_but|done..].
Qed.

(** ** The heap

    [F] are the free blocks but [base], [A] the blocks of the program; the heap
    starts at [start]. *)
Definition fits (s : state) (start : Z) (x : block) : Prop := start <= x.1 /\ 0 < x.2 /\ x.1 + x.2 <= brk s / HEADER.

Record heap (s : state) (start : Z) (F A : list block) : Prop := {
  hp_linked : linked (hmem s) ((base, 0) :: F) base;
  hp_freep : freep s ∈ map fst ((base, 0) :: F);
  hp_order : ordered ((base, 0) :: F);
  hp_free : Forall (fits s start) F;
  hp_live : Forall (fun x => fits s start x /\ size (hmem s x.1) = x.2) A;
  hp_apart : Forall (fun x => Forall (apart x) F) A;
  hp_nodup : NoDup A;
  hp_pairs : forall x y, x ∈ A -> y ∈ A -> x <> y -> apart x y;
  hp_units : units F + units A = brk s / HEADER - start;
  hp_brk : brk s mod HEADER = 0 /\ base < start <= brk s / HEADER /\ brk s <= limit < 2 ^ 31
}.

#[export] Instance heap_proper s start F : Proper (Permutation ==> iff) (heap s start F).
Proof.
  assert (HG : forall A B, Permutation A B -> heap s start F A -> heap s start F B).
  { intros A B HP [H1 H2 H3 H4 H5 H6 H7 H8 H9 H10]. split; try done; [by rewrite <- HP..| |by rewrite <- HP].
    intros x y. rewrite <- HP. apply H8. }
  intros A B HP. split; apply HG; [done|by symmetry].
Qed.

(** The units of the blocks are untouched. *)
Definition kept (s s' : state) (A : list block) : Prop :=
  Forall (fun x => forall a, x.1 <= a < x.1 + x.2 -> hmem s' a = hmem s a) A.

Section Inv.

Context (s : state) (start : Z) (F A : list block) (H : heap s start F A).

Lemma heap_inside p : 0 <= p < brk s / HEADER -> inside s p = true.
Proof.
  intros Hp. unfold inside. apply andb_true_iff. split; [apply Z.leb_le; lia|]. apply Z.leb_le.
  unfold HEADER in *. Z.to_euclidean_division_equations. lia.
Qed.

Lemma base_inside : inside s base = true.
Proof. apply heap_inside. destruct (hp_brk _ _ _ _ H) as (_ & Hb & _). lia. Qed.

Lemma all_inside : Forall (fun x => inside s x.1 = true /\ 0 <= x.2 /\ base <= x.1) ((base, 0) :: F).
Proof.
  constructor; [split; [apply base_inside|cbn; lia]|]. pose proof (hp_brk _ _ _ _ H) as (_ & Hb & _). eapply Forall_impl; [exact (hp_free _ _ _ _ H)|].
  intros x (H1 & H2 & H3). split; [apply heap_inside; lia|lia].
Qed.

Lemma freep_in : inside s (freep s) = true /\ base <= freep s.
Proof.
  pose proof (hp_freep _ _ _ _ H) as Hfp. apply list_elem_of_fmap in Hfp as (x & -> & Hx). pose proof all_inside as HI. eapply Forall_forall in HI; [|exact Hx]. tauto.
Qed.

Lemma freep_inside : inside s (freep s) = true.
Proof. apply freep_in. Qed.

Lemma freep_pos : freep s <> 0.
Proof. pose proof freep_in. lia. Qed.

(** The blocks before [bp], the last of them, and the blocks after it. *)
Lemma split_at bp : base < bp -> Forall (fun x => x.1 <> bp) F ->
  exists F1 p ps F2, (base, 0) :: F = F1 ++ (p, ps) :: F2 /\ Forall (fun x => x.1 < bp) (F1 ++ [(p, ps)]) /\ Forall (fun x => bp < x.1) F2.
Proof.
  intros Hb Hne. assert (HG : forall l x, Forall (fun y => y.1 <> bp) l -> ordered (x :: l) -> Forall (fun y => 0 <= y.2) (x :: l) -> x.1 < bp ->
    exists F1 p ps F2, x :: l = F1 ++ (p, ps) :: F2 /\ Forall (fun x => x.1 < bp) (F1 ++ [(p, ps)]) /\ Forall (fun x => bp < x.1) F2).
  { induction l as [|y l IH]; intros [p ps] Hn Hord Hpos Hp; [exists [], p, ps, []; by repeat constructor|].
    inversion Hn as [|? ? Hq Hn']; inversion Hpos as [|? ? Hq0 Hpos']; subst. destruct Hord as [H1 H2]. destruct (decide (y.1 < bp)) as [Hlt|Hge].
    - destruct (IH y Hn' H2 Hpos' Hlt) as (F1 & p' & ps' & F2 & E & HF1 & HF2). exists ((p, ps) :: F1), p', ps', F2. rewrite E. split; [done|]. split; [by constructor|done].
    - exists [], p, ps, (y :: l). split; [done|]. split; [by constructor|]. constructor; [lia|]. destruct H2 as [H2 _]. inversion Hpos'; subst.
      eapply Forall_impl; [exact H2|]. cbn. lia. }
  apply HG; [done|exact (hp_order _ _ _ _ H)| |done]. eapply Forall_impl; [exact all_inside|]. by intros ? (_ & ? & _).
Qed.

Lemma find_place_run bp F1 p ps F2 fuel :
  base < bp -> (base, 0) :: F = F1 ++ (p, ps) :: F2 -> Forall (fun x => x.1 < bp) (F1 ++ [(p, ps)]) -> Forall (fun x => bp < x.1) F2 ->
  (length F < fuel)%nat -> find_place fuel bp (freep s) s = Ok (p, s).
Proof.
  intros Hb E HF1 HF2 Hf. pose proof (hp_linked _ _ _ _ H) as HL. pose proof (hp_order _ _ _ _ H) as HO. pose proof all_inside as HI.
  pose proof (hp_freep _ _ _ _ H) as Hfp. assert (Hlen : (length F1 + length F2 = length F)%nat) by (apply (f_equal length) in E; rewrite length_app in E; cbn in E; lia).
  rewrite E in HL, HO, HI, Hfp. replace (F1 ++ (p, ps) :: F2) with ((F1 ++ [(p, ps)]) ++ F2) in HO, HI, Hfp by by rewrite <- app_assoc.
  apply ordered_app in HO as (HO1 & HO2 & _). apply Forall_app in HI as [HI1 HI2]. rewrite map_app in Hfp.
  assert (Hbel : forall G1 G k, F1 = G1 ++ G -> (length F1 <= k)%nat -> find_place k bp (hd_addr G p) s = Ok (p, s)).
  { intros G1 G k -> Hk. replace k with (length G + (k - length G))%nat by (rewrite length_app in Hk; lia). rewrite <- !app_assoc in *.
    apply linked_app in HL as [_ HL]. apply ordered_app in HO1 as (_ & HO1 & _). apply Forall_app in HI1 as [_ HI1]. apply Forall_app in HF1 as [_ HF1].
    eapply walk_below; eauto; [eapply Forall_impl; [exact HI1|by intros ? (? & _)]| |]; apply Forall_app in HI1 as [HI1 HIp].
    - eapply Forall_impl; [exact HI1|]. by intros ? (_ & ? & _).
    - inversion HIp. naive_solver. }
  rewrite elem_of_app in Hfp. destruct Hfp as [Hfp|Hfp].
  - rewrite map_app, elem_of_app in Hfp. destruct Hfp as [(G1 & G & -> & EG)%in_suffix|Hfp].
    + rewrite (EG p). eapply Hbel; [done|lia].
    + cbn in Hfp. apply list_elem_of_singleton in Hfp as ->. apply (Hbel F1 []); [by rewrite app_nil_r|lia].
  - apply in_suffix in Hfp as (G1 & G & -> & EG). rewrite (EG base). rewrite length_app in Hlen.
    apply linked_app in HL as [_ [_ HL]]. apply linked_app in HL as [_ HL]. apply ordered_app in HO2 as (_ & HO2 & _). apply Forall_app in HI2 as [_ HI2]. apply Forall_app in HF2 as [_ HF2].
    replace fuel with (length G + (fuel - length G))%nat by lia. rewrite walk_above; [|done|eapply Forall_impl; [exact HI2|by intros ? (? & ? & ?)]..|done|done|done].
    assert (Hhd : hd_addr F1 p = base) by (destruct F1; cbn in E; by injection E as [= <-]). rewrite <- Hhd. apply (Hbel [] F1); [done|lia].
Qed.

Lemma brk_small : 0 < brk s / HEADER < 2 ^ 28.
Proof. destruct (hp_brk _ _ _ _ H) as (_ & Hb & Hl). unfold HEADER in *. Z.to_euclidean_division_equations. lia. Qed.

Lemma fits_small x : fits s start x -> inside s x.1 = true /\ base < x.1 /\ 0 < x.2 < 2 ^ 28.
Proof. intros (H1 & H2 & H3). destruct (hp_brk _ _ _ _ H) as (_ & Hb & _). pose proof brk_small. split; [apply heap_inside|]; lia. Qed.

(** What the list is around one of its elements. *)
Lemma around F1 p ps F2 : (base, 0) :: F = F1 ++ (p, ps) :: F2 ->
  inside s p = true /\ base <= p /\ 0 <= ps < 2 ^ 28 /\ hmem s p = mkhdr (hd_addr F2 base) ps /\ linked (hmem s) F1 p /\ linked (hmem s) F2 base /\
  Forall (fun x => x.1 + x.2 < p /\ 0 <= x.2) F1 /\ Forall (fun x => fits s start x /\ p + ps < x.1) F2 /\ ordered F1 /\ ordered F2.
Proof.
  intros E. pose proof (hp_linked _ _ _ _ H) as HL. pose proof (hp_order _ _ _ _ H) as HO. pose proof all_inside as HI. rewrite E in HL, HO, HI.
  apply linked_app in HL as [HL1 [HLp HL2]]. apply ordered_app in HO as (HO1 & [HO2 HO3] & HO4). apply Forall_app in HI as [HI1 HI2]. inversion HI2 as [|? ? (Hi & H0 & Hbp) HI3]; subst.
  assert (Forall (fits s start) F2 /\ ps < 2 ^ 28) as [HF2 Hps].
  { pose proof (hp_free _ _ _ _ H) as HF. destruct F1 as [|z F1]; cbn in E; [injection E as _ E2 E3; rewrite E3 in HF; split; [done|lia]|]. injection E as _ E3. rewrite E3 in HF.
    apply Forall_app in HF as [_ HF]. apply Forall_cons in HF as [Hp HF]. split; [done|]. apply fits_small in Hp. cbn in Hp. lia. }
  cbn [fst snd hd_addr] in *. split_and!; try done.
  - apply Forall_forall. intros x Hx. eapply Forall_forall in HO4; [|exact Hx]. inversion HO4. eapply Forall_forall in HI1; [|exact Hx]. naive_solver.
  - apply Forall_forall. intros x Hx. eapply Forall_forall in HF2; [|exact Hx]. eapply Forall_forall in HO2; [|exact Hx]. done.
Qed.

(** [free] puts the block back and joins it with its neighbours. *)
Lemma free_run bp sz F1 p ps F2 fuel :
  fits s start (bp, sz) -> size (hmem s bp) = sz ->
  (base, 0) :: F = F1 ++ (p, ps) :: F2 -> Forall (fun x => x.1 < bp) (F1 ++ [(p, ps)]) -> Forall (fun x => bp < x.1) F2 -> (length F < fuel)%nat ->
  exists s', free fuel (bp + 1) s = Ok (tt, s') /\ freep s' = p /\ brk s' = brk s /\ (forall a, a <> bp -> a <> p -> hmem s' a = hmem s a) /\
    linked (hmem s') (F1 ++ join (p, ps) (join (bp, sz) F2)) base.
Proof.
  intros Hfit Hsz E HF1 HF2 Hf. destruct (around _ _ _ _ E) as (Hip & Hbp & Hps & Hp & HL1 & HL2 & HA1 & HA2 & _ & _). destruct (fits_small _ Hfit) as (Hib & Hbb & Hszr). cbn [fst snd] in Hib, Hbb, Hszr.
  unfold free. replace (bp + 1 - 1) with bp by lia. rewrite run_get. step (find_place_run bp F1 p ps F2 fuel Hbb E HF1 HF2 Hf). step (rd_run s bp Hib). step (rd_run s p Hip).
  apply Forall_app in HF1 as [HF1 HFp]. inversion HFp as [|x l Hlt _ Ex]; subst x l. cbn [fst] in Hlt.
  assert (HF2' : Forall (fun x => inside s x.1 = true /\ bp < x.1 /\ 0 <= x.2 < 2 ^ 31) F2).
  { apply Forall_forall. intros x Hx. eapply Forall_forall in HF2; [|exact Hx]. eapply Forall_forall in HA2 as [Hx' _]; [|exact Hx]. apply fits_small in Hx'. split_and!; [tauto|lia..]. }
  destruct (right_run s bp (hmem s bp) (hmem s p) F2) as (s1 & sz1 & G & R1 & S1 & J1 & L1); [done|done|by rewrite Hp|done|lia|rewrite Hsz; lia|done|].
  step R1. assert (Hp1 : hmem s1 p = hmem s p) by (apply S1; lia). assert (Hip1 : inside s1 p = true) by (by rewrite (same_inside _ _ _ _ S1)).
  step (rd_run s1 p Hip1). rewrite Hsz in J1. rewrite Hp1.
  assert (HG : Forall (fun x => p < x.1 /\ 0 <= x.2 /\ x.1 + x.2 <= brk s / HEADER) ((bp, sz1) :: G)).
  { rewrite <- J1. apply Forall_join; cbn [fst snd]; [lia|destruct Hfit; cbn in *; lia|].
    apply Forall_forall. intros x Hx. eapply Forall_forall in HA2 as [(? & ? & ?) ?]; [|exact Hx]. lia. }
  pose proof brk_small. inversion HG as [|? ? (_ & Hs1 & Hs2) _]; subst. cbn [fst snd] in Hs1, Hs2.
  destruct (left_run s1 p (hmem s p) bp sz1 G) as (s2 & R2 & S2 & L2); [done|by rewrite (same_inside _ _ _ _ S1)|done|done|rewrite Hp; cbn; lia|lia|eapply Forall_impl; [exact HG|by intros ? [? _]]|].
  step R2. rewrite Hp in L2. cbn [size] in L2. eexists. split; [reflexivity|]. pose proof (units_but_trans _ _ _ _ _ S1 S2) as (E1 & E2 & E3).
  cbn [freep brk hmem]. split_and!; [done..|intros a Ha Ha'; apply E3; naive_solver|]. rewrite J1. apply linked_app. split; [|exact L2].
  rewrite hd_addr_join. eapply blocks_linked_ext; [|exact HL1].
  intros x Hx. apply E3. eapply Forall_forall in HF1; [|exact Hx]. eapply Forall_forall in HA1; [|exact Hx]. cbn in *. lia.
Qed.

(** *** A freed block leaves the live ones *)
Lemma live_other x y : x ∈ A -> y ∈ A -> x <> y -> forall a, x.1 <= a < x.1 + x.2 -> a <> y.1.
Proof.
  intros Hx Hy Hxy a Ha ->. pose proof (hp_pairs _ _ _ _ H x y Hx Hy Hxy) as Hap. pose proof (hp_live _ _ _ _ H) as HA.
  eapply Forall_forall in HA as [(_ & Hy0 & _) _]; [|exact Hy]. unfold apart in Hap. lia.
Qed.

Lemma live_free x y a : x ∈ A -> y ∈ (base, 0) :: F -> x.1 <= a < x.1 + x.2 -> a <> y.1.
Proof.
  intros Hx Hy Ha ->. pose proof (hp_live _ _ _ _ H) as HA. eapply Forall_forall in HA as [(Hx0 & _) _]; [|exact Hx].
  destruct (hp_brk _ _ _ _ H) as (_ & Hb & _). apply elem_of_cons in Hy as [->|Hy]; [cbn in *; lia|].
  pose proof (hp_apart _ _ _ _ H) as Hap. eapply Forall_forall in Hap; [|exact Hx]. eapply Forall_forall in Hap; [|exact Hy].
  pose proof (hp_free _ _ _ _ H) as HF. eapply Forall_forall in HF as (_ & Hy0 & _); [|exact Hy]. unfold apart in Hap. lia.
Qed.

End Inv.

(** *** [free] *)

Section Free.

Context (s : state) (start : Z) (F A : list block) (bp sz : Z) (H : heap s start F ((bp, sz) :: A)).

Lemma bp_fits : fits s start (bp, sz) /\ size (hmem s bp) = sz /\ Forall (apart (bp, sz)) F.
Proof.
  pose proof (hp_live _ _ _ _ H) as HA. pose proof (hp_apart _ _ _ _ H) as HF. apply Forall_cons in HA as [[? ?] _]. apply Forall_cons in HF as [? _]. done.
Qed.

Lemma joinable x y :
  (base < x.1 -> fits s start x /\ Forall (fun z => apart z x) A) -> (base < y.1 -> fits s start y /\ Forall (fun z => apart z y) A) -> x.1 + x.2 = y.1 ->
  base < (x.1, x.2 + y.2).1 -> fits s start (x.1, x.2 + y.2) /\ Forall (fun z => apart z (x.1, x.2 + y.2)) A.
Proof.
  intros Hx Hy E Hb. cbn [fst] in Hb. destruct (Hx Hb) as [(Hx1 & Hx2 & Hx3) Hx4]. destruct Hy as [(Hy1 & Hy2 & Hy3) Hy4]; [lia|].
  split; [unfold fits; cbn; lia|]. pose proof (hp_live _ _ _ _ H) as [_ HA]%Forall_cons.
  apply Forall_forall. intros z Hz. eapply Forall_forall in Hx4; [|exact Hz]. eapply Forall_forall in Hy4; [|exact Hz]. eapply Forall_forall in HA as [(_ & Hz0 & _) _]; [|exact Hz].
  unfold apart in *. cbn. lia.
Qed.

Lemma freed_list F1 p ps F2 :
  (base, 0) :: F = F1 ++ (p, ps) :: F2 -> Forall (fun x => x.1 < bp) (F1 ++ [(p, ps)]) -> Forall (fun x => bp < x.1) F2 ->
  exists F', F1 ++ join (p, ps) (join (bp, sz) F2) = (base, 0) :: F' /\ ordered ((base, 0) :: F') /\ Forall (fun x => fits s start x /\ Forall (fun z => apart z x) A) F' /\
    units F' = units F + sz /\ (length F' <= S (length F))%nat /\ exists y, y ∈ F' /\ sz <= y.2.
Proof.
  intros E HF1 HF2. destruct bp_fits as (Hfit & _ & Hap). destruct (around _ _ _ _ H _ _ _ _ E) as (_ & Hbp & Hps & _ & _ & _ & HA1 & HA2 & _ & _).
  destruct (fits_small _ _ _ _ H _ Hfit) as (_ & Hbb & Hszr). cbn [fst snd] in Hbb, Hszr.
  assert (Hin : forall y, y ∈ F1 ++ (p, ps) :: F2 -> base < y.1 -> fits s start y /\ apart (bp, sz) y /\ Forall (fun z => apart z y) A).
  { intros y Hy Hb. rewrite <- E in Hy. apply elem_of_cons in Hy as [->|Hy]; [cbn in Hb; lia|]. split_and!.
    - pose proof (hp_free _ _ _ _ H) as HF. by eapply Forall_forall in HF.
    - by eapply Forall_forall in Hap.
    - pose proof (hp_apart _ _ _ _ H) as HF. apply Forall_cons in HF as [_ HF]. eapply Forall_impl; [exact HF|]. intros z Hz. by eapply Forall_forall in Hz. }
  apply Forall_app in HF1 as [HF1 HFp]. apply Forall_cons in HFp as [Hlt _]. cbn [fst] in Hlt.
  assert (Hpb : p + ps <= bp).
  { destruct (decide (p = base)) as [->|Hne]; [|destruct (Hin (p, ps)) as (_ & Hx & _); [rewrite elem_of_app, elem_of_cons; auto|cbn; lia|unfold apart in Hx; cbn in Hx; lia]].
    destruct F1 as [|z F1]; [injection E as <- _; lia|]. injection E as <- _. apply Forall_cons in HA1 as [HA1 _]. cbn in HA1. lia. }
  assert (HF2b : Forall (fun y => bp + sz <= y.1 /\ 0 <= y.2) F2).
  { apply Forall_forall. intros y Hy. eapply Forall_forall in HF2; [|exact Hy]. destruct (Hin y) as ((_ & Hy1 & _) & Hx & _); [rewrite elem_of_app, elem_of_cons; auto|lia|]. unfold apart in Hx. cbn in Hx. lia. }
  pose proof (hp_order _ _ _ _ H) as HO. rewrite E in HO. pose proof (ordered_join2 F1 (p, ps) (bp, sz) F2 HO ltac:(cbn; lia) ltac:(cbn; lia) ltac:(cbn; lia) HF2b) as HO'.
  assert (HE : exists F', F1 ++ join (p, ps) (join (bp, sz) F2) = (base, 0) :: F').
  { destruct F1 as [|z F1]; [|injection E as <- _; by eexists]. injection E as <- <- _. rewrite join_apart; [by eexists|]. rewrite hd_addr_join. cbn. lia. }
  destruct HE as [F' HE]. exists F'. rewrite HE in HO'. split_and!; [done..| | | |].
  - assert (HQ : Forall (fun x => base < x.1 -> fits s start x /\ Forall (fun z => apart z x) A) ((base, 0) :: F')).
    { rewrite <- HE. apply Forall_join2; [exact joinable| |intros _; split; [done|]].
      - apply Forall_forall. intros y Hy Hb. destruct (Hin y Hy Hb) as (? & _ & ?). done.
      - apply Forall_forall. intros z Hz. pose proof (hp_pairs _ _ _ _ H z (bp, sz)) as Hp. pose proof (hp_nodup _ _ _ _ H) as [Hn _]%NoDup_cons.
        apply Hp; [by right|by left|]. by intros ->. }
    apply Forall_cons in HQ as [_ HQ]. destruct HO' as [HO' _]. apply Forall_forall. intros x Hx. eapply Forall_forall in HQ; [|exact Hx]. eapply Forall_forall in HO'; [|exact Hx]. apply HQ. cbn in HO'. lia.
  - apply (f_equal units) in E, HE. rewrite units_app, !units_join in HE. rewrite units_app in E. cbn [units fst snd] in *. lia.
  - apply (f_equal length) in E, HE. rewrite length_app in E, HE. pose proof (length_join (p, ps) (join (bp, sz) F2)). pose proof (length_join (bp, sz) F2). cbn [length] in *. lia.
  - destruct (join2_big F1 (p, ps) (bp, sz) F2) as (y & Hy & Hsy); [cbn; lia|eapply Forall_impl; [exact HF2b|by intros ? [_ ?]]|]. rewrite HE in Hy. exists y. cbn in Hsy. split; [|done].
    apply elem_of_cons in Hy as [->|Hy]; [cbn in Hsy; lia|done].
Qed.

(** A block of the program goes back to the free list; the others stay as they are. *)
Lemma free_heap fuel : (length F < fuel)%nat -> exists s' F', free fuel (bp + 1) s = Ok (tt, s') /\ heap s' start F' A /\ brk s' = brk s /\ kept s s' A /\
  (length F' <= S (length F))%nat /\ exists y, y ∈ F' /\ sz <= y.2.
Proof.
  intros Hf. destruct bp_fits as (Hfit & Hsz & Hap). destruct (fits_small _ _ _ _ H _ Hfit) as (_ & Hbb & Hszr). cbn [fst snd] in Hbb, Hszr.
  destruct (split_at _ _ _ _ H bp Hbb) as (F1 & p & ps & F2 & E & HF1 & HF2).
  { pose proof (hp_free _ _ _ _ H) as HF. apply Forall_forall. intros x Hx. eapply Forall_forall in HF as (_ & Hx0 & _); [|exact Hx]. eapply Forall_forall in Hap; [|exact Hx]. unfold apart in Hap. cbn in Hap. lia. }
  destruct (free_run _ _ _ _ H bp sz F1 p ps F2 fuel Hfit Hsz E HF1 HF2 Hf) as (s' & R & Efp & Ebrk & Emem & HL).
  destruct (freed_list F1 p ps F2 E HF1 HF2) as (F' & HE & HO & HP & HU & Hlen & Hbig). rewrite HE in HL.
  assert (HK : kept s s' A).
  { apply Forall_forall. intros x Hx a Ha. assert (x ∈ (bp, sz) :: A) by by right. apply Emem.
    - apply (live_other _ _ _ _ H x (bp, sz)); [done|by left| |done]. intros ->. by pose proof (hp_nodup _ _ _ _ H) as [Hn _]%NoDup_cons.
    - apply (live_free _ _ _ _ H x (p, ps)); [done| |done]. rewrite E, elem_of_app, elem_of_cons. auto. }
  exists s', F'. split_and!; try done. pose proof (hp_live _ _ _ _ H) as [_ HA]%Forall_cons. pose proof (hp_brk _ _ _ _ H). pose proof (hp_units _ _ _ _ H) as HUn. cbn [units snd] in HUn.
  split; [done| |done|..|by rewrite Ebrk].
  - rewrite Efp, <- HE, map_app, elem_of_app. right. apply (join_head (p, ps)).
  - eapply Forall_impl; [exact HP|]. intros x [? _]. unfold fits in *. by rewrite Ebrk.
  - apply Forall_forall. intros x Hx. eapply Forall_forall in HA as [Hx1 Hx2]; [|exact Hx]. eapply Forall_forall in HK; [|exact Hx]. unfold fits in *. rewrite Ebrk, HK by lia. done.
  - apply Forall_forall. intros x Hx. apply Forall_forall. intros y Hy. eapply Forall_forall in HP as [_ HP]; [|exact Hy]. by eapply Forall_forall in HP.
  - by pose proof (hp_nodup _ _ _ _ H) as [_ ?]%NoDup_cons.
  - intros x y Hx Hy. apply (hp_pairs _ _ _ _ H); by right.
  - rewrite Ebrk. lia.
Qed.

End Free.

(** *** [malloc] *)

Definition part_of (y x : block) : Prop := x.1 <= y.1 /\ y.1 + y.2 <= x.1 + x.2.

Section Malloc.

Context (start n : Z) (Hn : 0 < n).

(** A part of a free block becomes a block of the program. *)
Lemma heap_alloc s s' F A F' b x :
  heap s start F A -> x ∈ F -> part_of (b, n) x -> brk s' = brk s ->
  (forall a, a <> base -> (forall y, y ∈ F -> ~ (y.1 <= a < y.1 + y.2)) -> hmem s' a = hmem s a) -> size (hmem s' b) = n ->
  linked (hmem s') ((base, 0) :: F') base -> freep s' ∈ map fst ((base, 0) :: F') -> ordered ((base, 0) :: F') ->
  Forall (fun y => 0 < y.2 /\ apart (b, n) y /\ exists z, z ∈ F /\ part_of y z) F' -> units F' + n = units F ->
  heap s' start F' ((b, n) :: A) /\ kept s s' A.
Proof.
  intros H Hx Hb Ebrk Emem Hsz HL Hfp HO HF' HU. pose proof (hp_free _ _ _ _ H) as HF. pose proof (hp_apart _ _ _ _ H) as Hap. pose proof (hp_live _ _ _ _ H) as HA. destruct (hp_brk _ _ _ _ H) as (Hb1 & Hb2 & Hb3).
  assert (Hpart : forall y z, 0 < y.2 -> z ∈ F -> part_of y z -> fits s start y /\ forall w, w ∈ A -> apart w y).
  { intros y z Hy Hz Hyz. unfold part_of in Hyz. eapply Forall_forall in HF as (? & ? & ?); [|exact Hz]. split; [unfold fits; lia|].
    intros w Hw. eapply Forall_forall in Hap; [|exact Hw]. eapply Forall_forall in Hap; [|exact Hz]. unfold apart in *. lia. }
  destruct (Hpart (b, n) x) as [Hbf Hba]; [done..|].
  assert (HK : kept s s' A).
  { apply Forall_forall. intros w Hw a Ha. eapply Forall_forall in Hap; [|exact Hw]. eapply Forall_forall in HA as [(? & _) _]; [|exact Hw]. apply Emem; [lia|].
    intros y Hy. eapply Forall_forall in Hap; [|exact Hy]. unfold apart in Hap. lia. }
  split; [|done]. assert (Hnew : forall w, w ∈ A -> w <> (b, n)).
  { intros w Hw ->. specialize (Hba _ Hw). unfold apart in Hba. cbn in Hba. lia. }
  split; try done; [| | | | | |by rewrite Ebrk].
  - eapply Forall_impl; [exact HF'|]. intros y (Hy & _ & z & Hz & Hyz). unfold fits in *. rewrite Ebrk. by eapply Hpart.
  - constructor; [unfold fits in *; by rewrite Ebrk|]. apply Forall_forall. intros w Hw. eapply Forall_forall in HA as [Hw1 Hw2]; [|exact Hw]. eapply Forall_forall in HK; [|exact Hw].
    unfold fits in *. rewrite Ebrk, HK by lia. done.
  - constructor; [eapply Forall_impl; [exact HF'|by intros ? (_ & ? & _)]|]. apply Forall_forall. intros w Hw. eapply Forall_impl; [exact HF'|].
    intros y (Hy & _ & z & Hz & Hyz). by eapply Hpart.
  - constructor; [|exact (hp_nodup _ _ _ _ H)]. intros Hin. by apply (Hnew _ Hin).
  - intros w1 w2 [->|H1]%elem_of_cons [->|H2]%elem_of_cons Hne; [done| |by apply Hba|by apply (hp_pairs _ _ _ _ H)]. specialize (Hba _ H2). unfold apart in *. lia.
  - pose proof (hp_units _ _ _ _ H). cbn [units snd]. rewrite Ebrk. lia.
Qed.

Definition got (s : state) (A : list block) (r : Z) (s' : state) : Prop :=
  exists F', heap s' start F' ((r - 1, n) :: A) /\ brk s <= brk s' /\ kept s s' A.

(** The free block [(p, z)] and the one before it. *)
Section Take.

Context (s : state) (F A D1 : list block) (q qs p z : Z) (D2 : list block).
Context (H : heap s start F A) (E : (base, 0) :: F = D1 ++ (q, qs) :: (p, z) :: D2).

Lemma before_p : exists G1, (base, 0) :: G1 = D1 ++ [(q, qs)] /\ F = G1 ++ (p, z) :: D2.
Proof.
  destruct D1 as [|w D]; cbn in E; [injection E as <- <- ->; by exists []|]. injection E as <- ->. exists (D ++ [(q, qs)]). split; [done|]. by rewrite <- app_assoc.
Qed.

Lemma take_facts G1 : (base, 0) :: G1 = D1 ++ [(q, qs)] -> F = G1 ++ (p, z) :: D2 ->
  inside s q = true /\ hmem s q = mkhdr p qs /\ linked (hmem s) D1 q /\ inside s p = true /\ hmem s p = mkhdr (hd_addr D2 base) z /\ linked (hmem s) D2 base /\
  0 < z /\ ordered ((base, 0) :: G1) /\ ordered D2 /\ Forall (fun x => x.1 + x.2 < p /\ 0 <= x.2) ((base, 0) :: G1) /\ Forall (fun x => 0 < x.2) G1 /\ Forall (fun x => p + z < x.1 /\ 0 < x.2) D2 /\
  Forall (fun x => x.1 < q) D1 /\ q < p /\ (q = base \/ (q, qs) ∈ F).
Proof.
  intros EG EF. assert (E' : (base, 0) :: F = (D1 ++ [(q, qs)]) ++ (p, z) :: D2) by by rewrite <- app_assoc.
  destruct (around _ _ _ _ H _ _ _ _ E) as (Hiq & Hbq & Hqs & Hq & HLq & _ & HA1 & HA2 & _ & _). destruct (around _ _ _ _ H _ _ _ _ E') as (Hip & Hbp & Hps & Hp & _ & HLD & HD1 & HD2 & HO1 & HO2).
  rewrite <- EG in HD1, HO1. pose proof (hp_free _ _ _ _ H) as HF. rewrite EF in HF. apply Forall_app in HF as [HFG HFp]. apply Forall_cons in HFp as [(_ & Hz & _) HF2].
  apply Forall_cons in HA2 as [[_ Hqp] _]. cbn [fst snd hd_addr] in *. split_and!; try done.
  - eapply Forall_impl; [exact HFG|]. by intros ? (_ & ? & _).
  - apply Forall_forall. intros x Hx. eapply Forall_forall in HD2 as [? ?]; [|exact Hx]. eapply Forall_forall in HF2 as (_ & ? & _); [|exact Hx]. lia.
  - eapply Forall_impl; [exact HA1|]. cbn. lia.
  - lia.
  - assert (Hin : (q, qs) ∈ (base, 0) :: G1) by (rewrite EG, elem_of_app; right; by left). apply elem_of_cons in Hin as [[= -> _]|Hin]; [by left|]. right. rewrite EF, elem_of_app. by left.
Qed.

(** [M] is what stays of the block. *)
Lemma take_heap s' b M :
  brk s' = brk s -> freep s' = q -> (forall a, a <> q -> ~ (p <= a < p + z) -> hmem s' a = hmem s a) -> size (hmem s' b) = n -> p <= b -> b + n <= p + z ->
  hmem s' q = mkhdr (hd_addr (M ++ D2) base) qs -> linked (hmem s') M (hd_addr D2 base) -> Forall (fun y => 0 < y.2 /\ p <= y.1 /\ y.1 + y.2 <= b) M -> ordered M -> units M + n = z ->
  got s A (b + 1) s'.
Proof.
  intros Ebrk Efp Emem Hsz Hb1 Hb2 Hq' HLM HM HOM HU. destruct before_p as (G1 & EG & EF). destruct (take_facts G1 EG EF) as (_ & _ & HLq & _ & _ & HLD & Hz0 & HO1 & HO2 & HG1 & HG0 & HD2 & HD1 & Hqp & Hqin).
  assert (Hsub : forall y, y ∈ G1 \/ y ∈ D2 -> y ∈ F) by (intros y Hy; rewrite EF, elem_of_app, elem_of_cons; tauto). assert (Hpin : (p, z) ∈ F) by (rewrite EF, elem_of_app, elem_of_cons; auto).
  exists (G1 ++ M ++ D2). replace (b + 1 - 1) with b by lia. pose proof (hp_free _ _ _ _ H) as HF.
  cut (heap s' start (G1 ++ M ++ D2) ((b, n) :: A) /\ kept s s' A); [rewrite Ebrk; intros [? ?]; split_and!; [done|lia|done]|]. rewrite Forall_cons in HG1. destruct HG1 as [Hbp HG1]. cbn [fst snd] in Hbp. apply (heap_alloc s s' F A _ b (p, z)); try done.
  - intros a Ha HaF. apply Emem; [|exact (HaF _ Hpin)]. intros ->. destruct Hqin as [->|Hqin]; [done|]. apply (HaF _ Hqin). eapply Forall_forall in HF as (_ & ? & _); [|exact Hqin]. cbn in *. lia.
  - rewrite app_comm_cons, EG, <- app_assoc. apply linked_app. cbn [app hd_addr fst]. split; [|split; [done|]; apply linked_app; split; [done|]].
    + eapply blocks_linked_ext; [|exact HLq]. intros x Hx. eapply Forall_forall in HD1; [|exact Hx]. apply Emem; lia.
    + eapply blocks_linked_ext; [|exact HLD]. intros x Hx. eapply Forall_forall in HD2; [|exact Hx]. apply Emem; lia.
  - rewrite app_comm_cons, EG, <- app_assoc, Efp, map_app, elem_of_app. right. by left.
  - rewrite app_comm_cons. apply ordered_app. split; [done|]. split; [apply ordered_app; split_and!; [done..|]|].
    + eapply Forall_impl; [exact HM|]. intros y Hy. eapply Forall_impl; [exact HD2|]. cbn in *. lia.
    + assert (Hpos : Forall (fun y => p <= y.1) (M ++ D2)) by (apply Forall_app; split; [eapply Forall_impl; [exact HM|]|eapply Forall_impl; [exact HD2|]]; cbn; lia).
      constructor; [|eapply Forall_impl; [exact HG1|]; intros y Hy]; (eapply Forall_impl; [exact Hpos|]; cbn in *; lia).
  - rewrite !Forall_app. split_and!.
    + apply Forall_forall. intros y Hy. eapply Forall_forall in HG1; [|exact Hy]. eapply Forall_forall in HG0; [|exact Hy]. split_and!; [done|unfold apart; cbn; lia|]. exists y. split; [auto|unfold part_of; lia].
    + eapply Forall_impl; [exact HM|]. intros y Hy. cbn in Hy. split_and!; [lia|unfold apart; cbn; lia|]. exists (p, z). split; [done|]. unfold part_of. cbn. lia.
    + apply Forall_forall. intros y Hy. eapply Forall_forall in HD2; [|exact Hy]. split_and!; [lia|unfold apart; cbn; lia|]. exists y. split; [auto|unfold part_of; lia].
  - rewrite EF, !units_app. cbn [units snd]. lia.
Qed.

(** A block that is large enough is taken whole, or its end is. *)
Lemma take_run fuel : n <= z -> wp (malloc_loop limit fuel n q p) (got s A) s.
Proof.
  intros Hz. destruct before_p as (G1 & EG & EF). destruct (take_facts G1 EG EF) as (Hiq & Hq & _ & Hip & Hp & _ & Hz0 & _ & _ & _ & _ & _ & _ & Hqp & _).
  assert (Hib : inside s (p + (z - n)) = true).
  { assert (Hfit : fits s start (p, z)) by (pose proof (hp_free _ _ _ _ H) as HF; rewrite EF in HF; apply Forall_app in HF as [_ HF]; by apply Forall_cons in HF as [HF _]).
    destruct Hfit as (? & _ & ?). destruct (hp_brk _ _ _ _ H) as (_ & ? & _). apply heap_inside. cbn in *. lia. }
  destruct (Z.eqb_spec z n) as [Ez|Ez].
  - assert (R : malloc_loop limit fuel n q p s = Ok (p + 1, mkstate (hmem (upd s q (mkhdr (hd_addr D2 base) qs))) q (brk s))).
    { destruct fuel as [|fuel]; cbn [malloc_loop]; step (rd_run s p Hip); rewrite Hp; cbn [size ptr]; rewrite Ez, Z.leb_refl, Z.eqb_refl;
        rewrite (run_bind _ _ s p (upd s q (mkhdr (hd_addr D2 base) qs))); try reflexivity; by step (set_ptr_run s q (hd_addr D2 base) Hiq); rewrite Hq. }
    unfold wp. rewrite R. apply (take_heap _ p []); cbn [hmem brk freep]; try done; try lia.
    + intros a Ha _. by rewrite upd_ne.
    + by rewrite upd_ne, Hp by lia.
    + by rewrite upd_same.
  - set (s1 := upd s p (mkhdr (hd_addr D2 base) (z - n))). set (s2 := upd s1 (p + (z - n)) (mkhdr (ptr (hmem s1 (p + (z - n)))) n)).
    assert (R : malloc_loop limit fuel n q p s = Ok (p + (z - n) + 1, mkstate (hmem s2) q (brk s))).
    { destruct fuel as [|fuel]; cbn [malloc_loop]; step (rd_run s p Hip); rewrite Hp; cbn [size ptr]; rewrite (proj2 (Z.leb_le n z)), (proj2 (Z.eqb_neq z n)) by lia;
        rewrite (run_bind _ _ s (p + (z - n)) s2); try reflexivity; step (set_size_run s p (z - n) Hip); rewrite Hp; step (set_size_run s1 (p + (z - n)) n Hib); reflexivity. }
    unfold wp. rewrite R. apply (take_heap _ (p + (z - n)) [(p, z - n)]); cbn [hmem brk freep]; try done; try lia.
    + intros a Ha Ha'. unfold s2, s1. by rewrite !upd_ne by lia.
    + unfold s2. by rewrite upd_same.
    + unfold s2, s1. by rewrite !upd_ne by lia.
    + split; [|done]. unfold s2, s1. cbn [fst]. rewrite upd_ne by lia. apply upd_same.
    + repeat constructor; cbn; lia.
    + cbn. lia.
Qed.

End Take.

(** **** The search *)
Section Search.

Context (s : state) (F A : list block) (H : heap s start F A).
Context (Q : Z -> state -> Prop) (HQ : forall r s', got s A r s' -> Q r s').

Lemma skip_run f q p : inside s p = true -> size (hmem s p) < n -> p <> freep s -> malloc_loop limit (S f) n q p s = malloc_loop limit f n p (ptr (hmem s p)) s.
Proof.
  intros Hi Hs Hp. cbn [malloc_loop]. step (rd_run s p Hi). rewrite (proj2 (Z.leb_gt n _)) by done. rewrite run_get. by rewrite (proj2 (Z.eqb_neq p _)).
Qed.

Lemma walk_seg D : forall D1 q qs Dr f,
  (base, 0) :: F = D1 ++ (q, qs) :: D ++ Dr -> Forall (fun x => x.1 <> freep s) D ->
  (Forall (fun x => x.2 < n) D -> forall D1' q' qs', (base, 0) :: F = D1' ++ (q', qs') :: Dr -> wp (malloc_loop limit f n q' (hd_addr Dr base)) Q s) ->
  wp (malloc_loop limit (length D + f) n q (hd_addr (D ++ Dr) base)) Q s.
Proof.
  induction D as [|[p z] D IH]; intros D1 q qs Dr f E HD Hk; [by eapply Hk|]. apply Forall_cons in HD as [Hp HD]. cbn [app hd_addr fst] in *.
  destruct (decide (n <= z)) as [Hz|Hz]; [eapply wp_mono; [by eapply take_run|done]|].
  assert (E' : (base, 0) :: F = (D1 ++ [(q, qs)]) ++ (p, z) :: D ++ Dr) by by rewrite <- app_assoc.
  destruct (around _ _ _ _ H _ _ _ _ E') as (Hip & _ & _ & Hm & _). change (length ((p, z) :: D) + f)%nat with (S (length D + f)). unfold wp. rewrite skip_run; [|done|rewrite Hm; cbn; lia|done].
  rewrite Hm. cbn [ptr]. eapply (IH (D1 ++ [(q, qs)]) p z); [done..|]. intros HD'. apply Hk. constructor; [cbn; lia|done].
Qed.

(** All the blocks are looked at, the one at [freep] last. *)
Lemma search_run f :
  (Forall (fun x => x.2 < n) F -> forall q, wp (malloc_loop limit f n q (freep s)) Q s) ->
  wp (malloc_loop limit (length F + f) n (freep s) (ptr (hmem s (freep s)))) Q s.
Proof.
  intros Hk. pose proof (hp_freep _ _ _ _ H) as Hfp. apply list_elem_of_fmap in Hfp as ([fp fs] & Efp & Hin). cbn [fst] in Efp.
  apply list_elem_of_split in Hin as (C1 & C2 & E). destruct (around _ _ _ _ H _ _ _ _ E) as (Hip & Hb & Hfs & Hm & _ & _ & HA1 & HA2 & _ & _).
  pose proof (f_equal length E) as Elen. rewrite length_app in Elen. cbn [length] in Elen. rewrite Efp in *. rewrite Hm. cbn [ptr].
  replace (length F + f)%nat with (length C2 + (length C1 + f))%nat by lia. replace (hd_addr C2 base) with (hd_addr (C2 ++ []) base) by by rewrite app_nil_r.
  eapply (walk_seg C2 C1 fp fs []); [by rewrite app_nil_r|rewrite Efp; eapply Forall_impl; [exact HA2|]; intros x [_ Hx]; cbn in Hx; lia|].
  intros HC2 D1' q' qs' _. cbn [hd_addr]. destruct C1 as [|c C1]; cbn [app] in E.
  - injection E as <- <- EF. apply Hk. by rewrite EF.
  - injection E as <- EF. apply Forall_cons in HA1 as [Hbf HA1]. cbn [fst snd] in Hbf. destruct (around _ _ _ _ H [] base 0 F eq_refl) as (Hib & _ & _ & Hmb & _).
    cbn [length Nat.add]. unfold wp. rewrite skip_run; [|done|rewrite Hmb; cbn; lia|lia]. rewrite Hmb, EF. cbn [ptr].
    eapply (walk_seg C1 [] base 0); [by rewrite EF|rewrite Efp; eapply Forall_impl; [exact HA1|]; intros x Hx; cbn in Hx; lia|].
    intros HC1 D1'' q'' qs'' E''. cbn [hd_addr fst]. destruct (decide (n <= fs)) as [Hz|Hz]; [eapply wp_mono; [by eapply take_run|done]|].
    apply Hk. rewrite EF. apply Forall_app. split; [done|]. constructor; [cbn; lia|done].
Qed.

End Search.

(** **** More memory *)
Lemma grow_heap s s' F A nu :
  heap s start F A -> 0 < nu -> brk s' = brk s + nu * HEADER -> brk s' <= limit -> freep s' = freep s ->
  (forall a, a <> brk s / HEADER -> hmem s' a = hmem s a) -> size (hmem s' (brk s / HEADER)) = nu ->
  heap s' start F ((brk s / HEADER, nu) :: A) /\ kept s s' A.
Proof.
  intros H Hnu Ebrk Hlim Efp Emem Hsz. set (hp := brk s / HEADER) in *.
  assert (Ehp : brk s' / HEADER = hp + nu) by (rewrite Ebrk; unfold hp, HEADER; apply Z.div_add; lia).
  destruct (hp_brk _ _ _ _ H) as (Hb1 & Hb2 & Hb3). fold hp in Hb2. pose proof (hp_free _ _ _ _ H) as HF. pose proof (hp_live _ _ _ _ H) as HA. unfold fits in HF, HA. fold hp in HF, HA.
  assert (HK : kept s s' A).
  { eapply Forall_impl; [exact HA|]. intros x [(? & ? & ?) _] a Ha. apply Emem. lia. }
  split; [|done]. split.
  - eapply blocks_linked_ext; [|exact (hp_linked _ _ _ _ H)]. intros x [->|Hx]%elem_of_cons; apply Emem; [cbn; lia|]. eapply Forall_forall in HF; [|exact Hx]. lia.
  - rewrite Efp. exact (hp_freep _ _ _ _ H).
  - exact (hp_order _ _ _ _ H).
  - unfold fits. rewrite Ehp. eapply Forall_impl; [exact HF|]. cbn. lia.
  - unfold fits. rewrite Ehp. constructor; [cbn; lia|]. eapply Forall_impl; [exact HA|]. intros x [(? & ? & ?) Hs]. rewrite Emem by lia. lia.
  - constructor; [|exact (hp_apart _ _ _ _ H)]. eapply Forall_impl; [exact HF|]. unfold apart. cbn. lia.
  - constructor; [|exact (hp_nodup _ _ _ _ H)]. intros Hin. eapply Forall_forall in HA; [|exact Hin]. cbn in HA. lia.
  - assert (Hnew : forall w, w ∈ A -> w.1 + w.2 <= hp) by (intros w Hw; eapply Forall_forall in HA; [|exact Hw]; lia).
    intros x y [->|Hx]%elem_of_cons [->|Hy]%elem_of_cons Hne; [done|right; by apply Hnew|left; by apply Hnew|by apply (hp_pairs _ _ _ _ H)].
  - pose proof (hp_units _ _ _ _ H) as HU. fold hp in HU. cbn [units snd]. lia.
  - rewrite Ehp. split_and!; [|lia..]. rewrite Ebrk. unfold HEADER in *. by rewrite Z.mod_add by lia.
Qed.

Lemma sbrk_grow s m : 0 < m -> sbrk limit m s = if brk s + m <=? limit then Ok (brk s, mkstate (hmem s) (freep s) (brk s + m)) else Ok (-1, s).
Proof. intros Hm. unfold sbrk. rewrite run_get, (proj2 (Z.ltb_lt 0 m)) by done. by destruct (_ <=? _). Qed.

Lemma kept_trans s1 s2 s3 A : kept s1 s2 A -> kept s2 s3 A -> kept s1 s3 A.
Proof.
  intros H1 H2. apply Forall_forall. intros x Hx a Ha. eapply Forall_forall in H1; [|exact Hx]. eapply Forall_forall in H2; [|exact Hx]. by rewrite H2, H1.
Qed.

Definition more (nu : Z) : Z := if nu <? 4096 then 4096 else nu.

Lemma morecore_run s F A fuel : heap s start F A -> more n * HEADER < 2 ^ 31 -> (length F < fuel)%nat ->
  wp (morecore limit fuel n) (fun p s' =>
    if brk s + more n * HEADER <=? limit then
      p = freep s' /\ p <> 0 /\ brk s <= brk s' /\ kept s s' A /\ exists F', heap s' start F' A /\ (length F' <= S (length F))%nat /\ exists y, y ∈ F' /\ n <= y.2
    else p = 0 /\ s' = s) s.
Proof.
  intros H Hm Hf. assert (Hmore : n <= more n /\ 0 < more n) by (unfold more; destruct (Z.ltb_spec n 4096); lia). destruct (hp_brk _ _ _ _ H) as (Hb1 & Hb2 & Hb3). pose proof (brk_small _ _ _ _ H) as Hbs.
  unfold morecore. fold (more n). rewrite s32_small by (unfold HEADER in *; lia). unfold wp. pose proof (sbrk_grow s (more n * HEADER) ltac:(unfold HEADER; lia)) as R.
  destruct (Z.leb_spec (brk s + more n * HEADER) limit) as [Hl|Hl]; step R; [|done]. rewrite (proj2 (Z.eqb_neq (brk s) (-1))) by (unfold HEADER in Hbs; Z.to_euclidean_division_equations; lia).
  set (s1 := mkstate _ _ _). set (hp := brk s / HEADER) in *.
  assert (Hi : inside s1 hp = true) by (unfold inside, s1, hp, HEADER in *; cbn [brk]; apply andb_true_iff; split; apply Z.leb_le; Z.to_euclidean_division_equations; lia).
  step (set_size_run s1 hp (more n) Hi). set (s2 := upd s1 hp _).
  destruct (grow_heap s s2 F A (more n)) as [H2 HK2]; [done|lia|done|done|done|intros a Ha; unfold s2; by rewrite upd_ne|unfold s2; fold hp; by rewrite upd_same|].
  destruct (free_heap _ _ _ _ _ _ H2 fuel Hf) as (s3 & F' & R3 & H3 & E3 & HK3 & Hlen & y & Hy & Hyn). step R3. rewrite run_get. cbn.
  split; [done|]. split; [|split_and!].
  - by eapply freep_pos.
  - rewrite E3. cbn. unfold HEADER. lia.
  - by eapply kept_trans.
  - exists F'. split_and!; [done..|]. exists y. split; [done|lia].
Qed.

(** The result of [malloc]: a block, or 0 when no free block is large enough and
    there is no more memory. *)
Definition allocated (s : state) (F A : list block) (r : Z) (s' : state) : Prop :=
  got s A r s' \/ r = 0 /\ s' = s /\ Forall (fun x => x.2 < n) F /\ limit < brk s + more n * HEADER.

Lemma loop_run s F A fuel : heap s start F A -> more n * HEADER < 2 ^ 31 -> (2 * length F + 2 <= fuel)%nat ->
  wp (malloc_loop limit fuel n (freep s) (ptr (hmem s (freep s)))) (allocated s F A) s.
Proof.
  intros H Hm Hf. replace fuel with (length F + S (fuel - length F - 1))%nat by lia. set (f := (fuel - length F - 1)%nat).
  apply (search_run s F A H); [by left|]. intros Hsmall q.
  pose proof (hp_freep _ _ _ _ H) as Hfp. apply list_elem_of_fmap in Hfp as ([fp fs] & Efp & Hin). cbn [fst] in Efp.
  apply list_elem_of_split in Hin as (C1 & C2 & E). destruct (around _ _ _ _ H _ _ _ _ E) as (Hip & _ & _ & Hmf & _).
  assert (Hfs : fs < n).
  { assert (Hin : (fp, fs) ∈ (base, 0) :: F) by (rewrite E, elem_of_app, elem_of_cons; auto). apply elem_of_cons in Hin as [[= _ ->]|Hin]; [done|]. by eapply Forall_forall in Hsmall; [|exact Hin]. }
  cbn [malloc_loop]. rewrite Efp in *. apply wp_bind. unfold wp at 1. rewrite rd_run by done. rewrite Hmf. cbn [size]. rewrite (proj2 (Z.leb_gt n fs)) by done.
  apply wp_bind, wp_get. rewrite Efp, Z.eqb_refl. apply wp_bind. eapply wp_mono; [apply (morecore_run s F A f H Hm); lia|]. intros p s' Hp. cbn beta in Hp.
  destruct (Z.leb_spec (brk s + more n * HEADER) limit) as [Hl|Hl]; [|destruct Hp as [-> ->]; apply wp_ret; right; by split_and!].
  destruct Hp as (-> & Hp0 & Hbrk & HK & F' & H' & Hlen & y & Hy & Hyn). rewrite (proj2 (Z.eqb_neq _ 0)) by done.
  apply wp_bind. unfold wp at 1. rewrite rd_run by by eapply freep_inside. replace f with (length F' + (f - length F'))%nat by lia. apply (search_run s' F' A H').
  - intros r s'' (F'' & ? & ? & ?). left. exists F''. split_and!; [done|lia|by eapply kept_trans].
  - intros Hall. eapply Forall_forall in Hall; [|exact Hy]. cbn in Hall. lia.
Qed.

End Malloc.

(** ** The allocator

    A heap that has not been used yet, or one in use. *)
Definition fresh (s : state) (start : Z) : Prop :=
  freep s = 0 /\ brk s mod HEADER = 0 /\ base < start /\ start = brk s / HEADER /\ brk s <= limit < 2 ^ 31.

Definition usable (s : state) (start : Z) (F A : list block) : Prop :=
  heap s start F A \/ fresh s start /\ F = [] /\ A = [].

(** The units of an allocation: its bytes and a header. *)
Definition nunits (nbytes : Z) : Z := (nbytes + 7) / 8 + 1.

Lemma init_heap s start : fresh s start -> exists s', (set_ptr base base;; set_freep base;; set_size base 0;; mret base) s = Ok (base, s') /\ heap s' start [] [] /\ brk s' = brk s /\ freep s' = base.
Proof.
  intros (_ & Hm & Hb & Hst & Hl). assert (Hi : inside s base = true) by (apply (heap_inside s); lia).
  step (set_ptr_run s base base Hi). set (s1 := upd s base _). assert (R : set_freep base s1 = Ok (tt, mkstate (hmem s1) base (brk s1))) by done. step R. set (s2 := mkstate _ _ _).
  step (set_size_run s2 base 0 Hi). eexists. split; [reflexivity|]. split; [|done]. split; try (by constructor).
  - split; [|done]. cbn [fst snd hd_addr]. rewrite upd_same. unfold s2, s1. cbn [hmem]. by rewrite upd_same.
  - intros x y Hx. by apply elem_of_nil in Hx.
  - change (0 = brk s / HEADER - start). lia.
  - change (brk s mod HEADER = 0 /\ base < start <= brk s / HEADER /\ brk s <= limit < 2 ^ 31). lia.
Qed.

(** C23: [malloc] of any size up to 2 GB returns, with fuel for two walks over
    the free list: either the address after the header of a new block, which has
    room for the bytes, is apart from every block the program holds and leaves
    their contents alone, while free and live blocks still account for every
    unit of the heap; or 0, and then no free block is large enough and the
    kernel has no more memory to give. *)
Theorem malloc_correct s start F A nbytes fuel :
  usable s start F A -> 0 <= nbytes <= 2 ^ 31 - 16 -> (2 * length F + 2 <= fuel)%nat ->
  exists r s', malloc base limit fuel nbytes s = Ok (r, s') /\ nbytes <= 8 * (nunits nbytes - 1) /\
    ((exists F', heap s' start F' ((r - 1, nunits nbytes) :: A) /\ kept s s' A) \/
     r = 0 /\ heap s' start F A /\ kept s s' A /\ Forall (fun x => x.2 < nunits nbytes) F /\ limit < brk s + 8 * Z.max 4096 (nunits nbytes)).
Proof.
  intros HU Hn Hf. set (n := nunits nbytes). assert (Hnb : 8 * n <= nbytes + 15 /\ nbytes <= 8 * (n - 1)) by (unfold n, nunits; Z.to_euclidean_division_equations; lia).
  assert (En : u32 (u32 (nbytes + HEADER - 1) / HEADER + 1) = n).
  { unfold HEADER. rewrite (u32_small (nbytes + 8 - 1)) by lia. replace (nbytes + 8 - 1) with (nbytes + 7) by lia. apply u32_small. fold (nunits nbytes). lia. }
  unfold malloc. rewrite En. rewrite run_get.
  assert (Hs : exists s1, (if freep s =? 0 then set_ptr base base;; set_freep base;; set_size base 0;; mret base else mret (freep s)) s = Ok (freep s1, s1) /\ heap s1 start F A /\ brk s1 = brk s /\ kept s s1 A).
  { destruct HU as [H|(Hfr & -> & ->)].
    - exists s. rewrite (proj2 (Z.eqb_neq (freep s) 0)); [|apply (freep_pos _ _ _ _ H)]. split_and!; [done..|]. by apply Forall_forall.
    - destruct (init_heap _ _ Hfr) as (s1 & R & H1 & E1 & E2). exists s1. destruct Hfr as [-> _]. rewrite Z.eqb_refl, R, E2. split_and!; [done..|]. constructor. }
  destruct Hs as (s1 & R1 & H1 & E1 & HK1). step R1. step (rd_run s1 (freep s1) (freep_inside _ _ _ _ H1)).
  assert (Hm : more n * HEADER = 8 * Z.max 4096 n) by (unfold more, HEADER; destruct (Z.ltb_spec n 4096); lia).
  pose proof (loop_run start n ltac:(lia) s1 F A fuel H1 ltac:(lia) Hf) as W. apply wp_Ok in W as (r & s' & R & W). exists r, s'. split; [exact R|]. split; [lia|].
  destruct W as [(F' & H' & _ & HK')|(-> & -> & Hsm & Hl)]; [left; exists F'; split; [done|by eapply kept_trans]|right]. rewrite <- E1. split_and!; [done..|lia].
Qed.

(** C24: [free] of a block of the program returns, with fuel for one walk over
    the free list: the block is free again, joined with the free blocks next to
    it, the other blocks of the program keep their place and contents, and the
    free list stays sorted, without adjacent blocks. *)
Theorem free_correct s start F A bp sz fuel :
  heap s start F A -> (bp, sz) ∈ A -> (length F < fuel)%nat ->
  exists s' F' A', free fuel (bp + 1) s = Ok (tt, s') /\ A ≡ₚ (bp, sz) :: A' /\ heap s' start F' A' /\ kept s s' A' /\ brk s' = brk s /\ units F' = units F + sz.
Proof.
  intros H Hin Hf. apply list_elem_of_split in Hin as (A1 & A2 & EA). assert (HP : A ≡ₚ (bp, sz) :: A1 ++ A2) by (rewrite EA; symmetry; apply Permutation_middle). rewrite HP in H.
  destruct (free_heap _ _ _ _ _ _ H fuel Hf) as (s' & F' & R & H' & E & HK & _). exists s', F', (A1 ++ A2). split_and!; [done..|].
  pose proof (hp_units _ _ _ _ H) as U. pose proof (hp_units _ _ _ _ H') as U'. rewrite E in U'. cbn [units snd] in U. lia.
Qed.

(** The size computations of [malloc] overflow.  For the seven largest
    sizes it does what it does for 0 bytes, so that the caller gets a header
    and no room; and for a size of 2 GB and more the argument of [sbrk] is
    negative, which does not move the break of a small program, and the program
    dies of a page fault on the header of the new block. *)
Theorem malloc_overflow s start :
  fresh s start -> brk s mod 4096 = 0 -> brk s <= 2 ^ 28 ->
  (forall fuel nbytes, 2 ^ 32 - 7 <= nbytes < 2 ^ 32 -> malloc base limit fuel nbytes s = malloc base limit fuel 0 s) /\
  (forall fuel nbytes, 2 ^ 31 - 15 <= nbytes <= 2 ^ 31 + 2 ^ 30 -> malloc base limit (S fuel) nbytes s = Fault).
Proof.
  intros Hfr Hpg Hsm. split; intros fuel nbytes Hn.
  - unfold malloc, HEADER, u32. replace ((nbytes + 8 - 1) mod 2 ^ 32 / 8) with 0; [done|]. Z.to_euclidean_division_equations. lia.
  - set (n := nunits nbytes). assert (Hn8 : 2 ^ 31 <= 8 * n <= 2 ^ 31 + 2 ^ 30 + 15) by (unfold n, nunits; Z.to_euclidean_division_equations; lia).
    assert (En : u32 (u32 (nbytes + HEADER - 1) / HEADER + 1) = n).
    { unfold HEADER. rewrite (u32_small (nbytes + 8 - 1)) by lia. replace (nbytes + 8 - 1) with (nbytes + 7) by lia. apply u32_small. fold (nunits nbytes). lia. }
    unfold malloc. rewrite En. rewrite run_get. destruct (init_heap _ _ Hfr) as (s1 & R & H1 & E1 & E2). rewrite (proj1 Hfr), Z.eqb_refl. step R.
    destruct (around _ _ _ _ H1 [] base 0 [] eq_refl) as (Hib & _ & _ & Hmb & _). step (rd_run s1 base Hib). rewrite Hmb. cbn [ptr hd_addr malloc_loop].
    step (rd_run s1 base Hib). rewrite Hmb. cbn [size]. rewrite (proj2 (Z.leb_gt n 0)) by lia. rewrite run_get, E2, Z.eqb_refl.
    assert (Hsb : sbrk limit (s32 (n * HEADER)) s1 = Ok (brk s1, s1)).
    { assert (0 < brk s) by (destruct Hfr as (_ & _ & ? & ? & _); unfold HEADER in *; Z.to_euclidean_division_equations; lia).
      assert (Es : s32 (n * HEADER) = n * 8 - 2 ^ 32) by (unfold s32, HEADER; rewrite u32_small by lia; by rewrite (proj2 (Z.ltb_ge _ _)) by lia).
      rewrite Es. unfold sbrk. rewrite run_get, (proj2 (Z.ltb_ge 0 _)), (proj2 (Z.ltb_lt _ 0)) by lia.
      replace (u32 (brk s1 + (n * 8 - 2 ^ 32))) with (brk s1 + n * 8) by (unfold u32; rewrite E1; Z.to_euclidean_division_equations; lia).
      rewrite (proj2 (Z.leb_le _ _)), (proj2 (Z.eqb_neq _ 0)) by lia. by destruct s1. }
    assert (Hmc : morecore limit fuel n s1 = Fault); [|unfold mbind, ST_bind; by rewrite Hmc].
    unfold morecore. rewrite (proj2 (Z.ltb_ge n 4096)) by lia. step Hsb. pose proof (brk_small _ _ _ _ H1) as Hb. rewrite (proj2 (Z.eqb_neq (brk s1) (-1))) by (unfold HEADER in Hb; Z.to_euclidean_division_equations; lia).
    unfold set_size, rd, mbind, ST_bind. replace (inside s1 (brk s1 / HEADER)) with false; [done|]. symmetry. unfold inside. apply andb_false_iff. right. apply Z.leb_gt.
    destruct (hp_brk _ _ _ _ H1) as (Hm & _). unfold HEADER in *. Z.to_euclidean_division_equations. lia.
Qed.

End Heap.

(** ** An example: a program whose data ends at 4096 *)

Definition ex0 : state := mkstate (fun _ => mkhdr 0 0) 0 4096.
Definition ex1 : state := match malloc 100 (2 ^ 20) 5 24 ex0 with Ok (_, s) => s | _ => ex0 end.

Lemma ex0_fresh : fresh 100 (2 ^ 20) ex0 512.
Proof. repeat split; reflexivity || discriminate. Qed.

Lemma ex1_heap : heap 100 (2 ^ 20) ex1 512 [(512, 4092)] [(4604, 4)].
Proof.
  split; try (by repeat constructor); try reflexivity; [apply NoDup_singleton|].
  intros x y Hx%list_elem_of_singleton Hy%list_elem_of_singleton. congruence.
Qed.

Lemma malloc_correct_witness :
  exists r s', malloc 100 (2 ^ 20) 2 24 ex0 = Ok (r, s') /\ 24 <= 8 * (nunits 24 - 1) /\
    ((exists F', heap 100 (2 ^ 20) s' 512 F' [(r - 1, nunits 24)] /\ kept ex0 s' []) \/
     r = 0 /\ heap 100 (2 ^ 20) s' 512 [] [] /\ kept ex0 s' [] /\ Forall (fun x : block => x.2 < nunits 24) [] /\ 2 ^ 20 < brk ex0 + 8 * Z.max 4096 (nunits 24)).
Proof. apply (malloc_correct 100 (2 ^ 20) ltac:(lia) ex0 512 [] [] 24 2); [right; split; [exact ex0_fresh|by split]|lia|cbn; lia]. Defined.

Lemma free_correct_witness :
  exists s' F' A', free 2 (4604 + 1) ex1 = Ok (tt, s') /\ [(4604, 4)] ≡ₚ (4604, 4) :: A' /\ heap 100 (2 ^ 20) s' 512 F' A' /\ kept ex1 s' A' /\ brk s' = brk ex1 /\ units F' = units [(512, 4092)] + 4.
Proof. apply (free_correct 100 (2 ^ 20) ltac:(lia) ex1 512 [(512, 4092)] [(4604, 4)] 4604 4 2); [exact ex1_heap|by left|cbn; lia]. Defined.

Lemma malloc_overflow_witness :
  (forall fuel nbytes, 2 ^ 32 - 7 <= nbytes < 2 ^ 32 -> malloc 100 (2 ^ 20) fuel nbytes ex0 = malloc 100 (2 ^ 20) fuel 0 ex0) /\
  (forall fuel nbytes, 2 ^ 31 - 15 <= nbytes <= 2 ^ 31 + 2 ^ 30 -> malloc 100 (2 ^ 20) (S fuel) nbytes ex0 = Fault).
Proof. apply (malloc_overflow 100 (2 ^ 20) ltac:(lia) ex0 512); [exact ex0_fresh|reflexivity|discriminate]. Defined.

End UmallocThm.
