(* ===== verification/Mkfs.v ===== *)
(** * The tool that makes the file system image (tools/mkfs)

    The image is the contents of its sectors and their number.  A program on
    the build machine stops with [exit] or with an assertion; here both are
    [Panic].  [struct dinode] is the part of an inode that is on the disk, and
    fields are in the byte order of the disk: the build machine is
    little-endian, as [xint] and [xshort] allow. *)

From Stdlib Require Import ZArith Lia.
From stdpp Require Import base numbers strings list gmap.
From S2P Require Import Prelude Block BufView Log Fs.

Open Scope Z_scope.

Import Block BufView Fs.

Module Mkfs.

Definition NINODES : Z := 200.
Definition FSSIZE : Z := 1000.

Definition nbitmap : Z := FSSIZE / (BSIZE * 8) + 1.
Definition ninodeblocks : Z := NINODES / IPB + 1.
Definition nlog : Z := Log.LOGSIZE.

(** The four bytes of [y], read back as an integer. *)
Definition xshort (x : Z) : Z := u8 x + 256 * u8 (Z.shiftr x 8).
Definition xint (x : Z) : Z := u8 x + 256 * u8 (Z.shiftr x 8) + 65536 * u8 (Z.shiftr x 16) + 16777216 * u8 (Z.shiftr x 24).

Record state := mkstate {
  img : Z -> block;
  nsec : Z;
  sb : Log.superblock;
  freeinode : Z;
  freeblock : Z
}.

(** Before [main]: an empty image. *)
Definition init : state := mkstate (fun _ => zero_block) 0 (Log.mksb 0 0 0 0 0 0 0) 1 0.

(** ** Sectors *)

Definition sector (sec : Z) : Z := u32 (sec * BSIZE) / BSIZE.

Definition wsect (sec : Z) (buf : block) : ST state unit :=
  modify (fun s => mkstate (fupd (sector sec) buf (img s)) (Z.max (nsec s) (sector sec + 1)) (sb s) (freeinode s) (freeblock s)).

(** A read behind the end of the image is short. *)
Definition rsect (sec : Z) : ST state block :=
  s ← get; if sector sec <? nsec s then mret (img s (sector sec)) else panic "read".

(** [freeblock++]. *)
Definition next_block : ST state Z :=
  s ← get; put (mkstate (img s) (nsec s) (sb s) (freeinode s) (u32 (freeblock s + 1)));; mret (freeblock s).

(** ** Inodes *)

(** A [struct dinode] of zeroes. *)
Definition dinode0 (inum : Z) : inode := mkinode 1 inum 0 false 0 true 0 0 0 0 0 (replicate 13 0).

Definition winode (inum : Z) (ip : inode) : ST state unit :=
  s ← get;
  let bn := IBLOCK inum (sb s) in
  buf ← rsect bn;
  wsect bn (dinode_store (DINODE * (inum mod IPB)) ip buf).

Definition rinode (inum : Z) : ST state inode :=
  s ← get;
  let bn := IBLOCK inum (sb s) in
  buf ← rsect bn;
  mret (dinode_load (DINODE * (inum mod IPB)) buf (dinode0 inum)).

Definition ialloc (type : Z) : ST state Z :=
  s ← get;
  let inum := freeinode s in
  put (mkstate (img s) (nsec s) (sb s) (u32 (inum + 1)) (freeblock s));;
  let din := set_size (xint 0) (set_nlink (xshort 1) (set_type (xshort type) (dinode0 inum))) in
  winode inum din;;
  mret inum.

(** The block that holds byte [off], allocated if the file does not have it. *)
Definition iappend_block (din : inode) (fbn : Z) : ST state (inode * Z) :=
  if fbn <? NDIRECT then
    din ← (if xint (addr_of din fbn) =? 0 then b ← next_block; mret (set_addr fbn (xint b) din) else mret din);
    mret (din, xint (addr_of din fbn))
  else
    din ← (if xint (addr_of din NDIRECT) =? 0 then b ← next_block; mret (set_addr NDIRECT (xint b) din) else mret din);
    indirect ← rsect (xint (addr_of din NDIRECT));
    let k := 4 * (fbn - NDIRECT) in
    indirect ← (if get32 indirect k =? 0 then
                  b ← next_block;
                  let indirect := put32 k (xint b) indirect in
                  wsect (xint (addr_of din NDIRECT)) indirect;;
                  mret indirect
                else mret indirect);
    mret (din, xint (get32 indirect k)).

Fixpoint iappend_loop (fuel : nat) (din : inode) (off : Z) (p : list Z) : ST state (inode * Z) :=
  match p with
  | [] => mret (din, off)
  | _ =>
      match fuel with
      | O => out_of_fuel
      | S f =>
          let fbn := off / BSIZE in
          if fbn <? MAXFILE then
            r ← iappend_block din fbn;
            let n1 := Z.min (Z.of_nat (length p)) ((fbn + 1) * BSIZE - off) in
            buf ← rsect r.2;
            wsect r.2 (splice (off - fbn * BSIZE) (take (Z.to_nat n1) p) buf);;
            iappend_loop f r.1 (off + n1) (drop (Z.to_nat n1) p)
          else panic "fbn < MAXFILE"
      end
  end.

Definition iappend (inum : Z) (p : list Z) : ST state unit :=
  din ← rinode inum;
  r ← iappend_loop (blocks_fuel (Z.of_nat (length p))) din (xint (isize din)) p;
  winode inum (set_size (xint r.2) r.1).

(** ** The image *)

(** The bits of the first [n] blocks. *)
Fixpoint used_bits (n : nat) : block :=
  match n with O => zero_block | S m => bit_set (Z.of_nat m) (used_bits m) end.

Definition balloc (used : Z) : ST state unit :=
  if used <? BSIZE * 8 then
    s ← get; wsect (Log.bmapstart (sb s)) (used_bits (Z.to_nat used))
  else panic "used < BSIZE * 8".

Fixpoint clear_sectors (n : nat) (i : Z) : ST state unit :=
  match n with O => mret tt | S m => wsect i zero_block;; clear_sectors m (i + 1) end.

(** [memmove(buf, &sb, sizeof(sb))]. *)
Definition sb_store (b : Log.superblock) : block :=
  put32 24 (Log.bmapstart b) (put32 20 (Log.inodestart b) (put32 16 (Log.logstart b) (put32 12 (Log.nlog b)
    (put32 8 (Log.ninodes b) (put32 4 (Log.nblocks b) (put32 0 (Log.sb_size b) zero_block)))))).

Definition initialize_superblock : ST state unit :=
  let nmeta := 2 + nlog + ninodeblocks + nbitmap in
  let nblocks := FSSIZE - nmeta in
  let b := Log.mksb (xint FSSIZE) (xint nblocks) (xint NINODES) (xint nlog) (xint 2) (xint (2 + nlog)) (xint (2 + nlog + ninodeblocks)) in
  modify (fun s => mkstate (img s) (nsec s) b (freeinode s) nmeta);;
  clear_sectors (Z.to_nat FSSIZE) 0;;
  wsect 1 (sb_store b).

Definition DOT : Z := 46.

Definition initialize_rootino : ST state Z :=
  n ← ialloc T_DIR;
  let rootino := u16 n in
  if rootino =? ROOTINO then
    iappend rootino (de_make (xshort rootino) (strncpy (Z.to_nat DIRSIZ) [DOT]));;
    iappend rootino (de_make (xshort rootino) (strncpy (Z.to_nat DIRSIZ) [DOT; DOT]));;
    mret rootino
  else panic "rootino == ROOTINO".

(** [strrchr(file, '/')]: the name behind the last slash. *)
Fixpoint dispname_from (file cur : list Z) : list Z :=
  match file with
  | [] => cur
  | c :: file' => dispname_from file' (if c =? SLASH then file' else cur)
  end.
Definition dispname (file : list Z) : list Z := dispname_from file file.

(** The [read]s of a whole file. *)
Fixpoint copy_loop (fuel : nat) (inum : Z) (data : list Z) : ST state unit :=
  match data with
  | [] => mret tt
  | _ =>
      match fuel with
      | O => out_of_fuel
      | S f => iappend inum (take (Z.to_nat BSIZE) data);; copy_loop f inum (drop (Z.to_nat BSIZE) data)
      end
  end.

(** A file that cannot be opened has no contents. *)
Definition add_file (file : list Z) (contents : option (list Z)) (rootino : Z) : ST state Z :=
  match contents with
  | None => mret 1
  | Some data =>
      n ← ialloc T_FILE;
      let inum := u16 n in
      iappend rootino (de_make (xshort inum) (strncpy (Z.to_nat DIRSIZ) (dispname file)));;
      copy_loop (blocks_fuel (Z.of_nat (length data))) inum data;;
      mret 0
  end.

Fixpoint add_files (files : list (list Z * option (list Z))) (rootino : Z) : ST state Z :=
  match files with
  | [] => mret 0
  | (file, contents) :: files' =>
      r ← add_file file contents rootino;
      if r =? 0 then add_files files' rootino else mret 1
  end.

Definition main (files : list (list Z * option (list Z))) : ST state Z :=
  initialize_superblock;;
  rootino ← initialize_rootino;
  r ← add_files files rootino;
  if r =? 0 then
    din ← rinode rootino;
    let off := (xint (isize din) / BSIZE + 1) * BSIZE in
    winode rootino (set_size (xint off) din);;
    s ← get;
    balloc (freeblock s);;
    mret 0
  else mret 1.

End Mkfs.
