(* ===== verification/MkfsThm.v ===== *)
(** * The image that mkfs makes is a file system with the files in it *)

From Stdlib Require Import ZArith Lia.
From stdpp Require Import base numbers strings list gmap.
From S2P Require Import Prelude Block Bio BufView BlockIO Log LogSpec LogTx LogIO Fs FsBlk FsMap FsRw FsDir FsImage FsWrote Mkfs.

Open Scope Z_scope.

Import Block BufView BlockIO LogIO Fs FsBlk FsMap FsRw FsDir FsImage.

Module MkfsThm.

Import Mkfs.

#[local] Opaque zero_block.

#[local] Instance io0 : BlockIO Log.state := booted_io (fun _ => zero_block) [] ∅.

Lemma lay : layout sb0.
Proof. apply layout0. Qed.

Lemma xint_id v : 0 <= v < 2 ^ 32 -> xint v = v.
Proof. intros Hv. unfold xint, u8. rewrite !Z.shiftr_div_pow2 by lia. Z.to_euclidean_division_equations. lia. Qed.

Lemma xshort_id v : 0 <= v < 2 ^ 16 -> xshort v = v.
Proof. intros Hv. unfold xshort, u8. rewrite Z.shiftr_div_pow2 by lia. Z.to_euclidean_division_equations. lia. Qed.

(** ** The image while it is made

    The bitmap is written last; [C] is the image with the bitmap that the
    blocks handed out so far ask for. *)

Definition Free (fb : Z) : gset Z := list_to_set (seqZ fb (1000 - fb)).

Lemma elem_of_Free fb b : b ∈ Free fb <-> fb <= b < 1000.
Proof. unfold Free. rewrite elem_of_list_to_set, elem_of_seqZ. lia. Qed.

Lemma Free_next fb : Free fb ∖ {[fb]} = Free (fb + 1).
Proof. apply set_eq. intros b. rewrite elem_of_difference, elem_of_singleton, !elem_of_Free. lia. Qed.

Record inv (s : state) (C : Z -> block) : Prop := {
  v_sb : sb s = sb0;
  v_nsec : nsec s = 1000;
  v_fb : 59 <= freeblock s <= 1000;
  v_img : forall b, b <> 58 -> C b = img s b;
  v_bits : C 58 = used_bits (Z.to_nat (freeblock s));
  v_disk : disk sb0 C (Free (freeblock s));
  v_zero : forall b, freeblock s <= b -> img s b = zero_block;
  v_log : forall b, 2 <= b < 32 -> img s b = zero_block
}.

Definition set_img (f : Z -> block) (s : state) : state := mkstate f (nsec s) (sb s) (freeinode s) (freeblock s).

Lemma sector_id b : 0 <= b < 2 ^ 23 -> sector b = b.
Proof. intros Hb. unfold sector, BSIZE. rewrite u32_small by lia. apply Z.div_mul. lia. Qed.

Lemma wsect_run s C b x : inv s C -> 0 <= b < 1000 -> wsect b x s = Ok (tt, set_img (fupd b x (img s)) s).
Proof.
  intros H Hb. unfold wsect, modify, set_img. rewrite sector_id by lia. pose proof (v_nsec _ _ H). do 3 f_equal. lia.
Qed.

Lemma rsect_run s C b : inv s C -> 0 <= b < 1000 -> rsect b s = Ok (img s b, s).
Proof.
  intros H Hb. unfold rsect. rewrite run_get, sector_id by lia. by rewrite (v_nsec _ _ H), (proj2 (Z.ltb_lt _ _)) by lia.
Qed.

(** A block in use is written. *)
Lemma inv_write s C b x : inv s C -> 59 <= b < freeblock s -> block_ok x -> inv (set_img (fupd b x (img s)) s) (fupd b x C).
Proof.
  intros [H1 H2 H3 H4 H5 H6 H7 H8] Hb Hx. split; cbn [sb nsec freeblock img set_img]; try done.
  - intros c Hc. unfold fupd. destruct (c =? b); [done|by apply H4].
  - by rewrite fupd_ne by lia.
  - apply disk_fupd; [apply lay|done| |done]. unfold data. change (dstart sb0) with 59. change (Log.sb_size sb0) with 1000. lia.
  - intros c Hc. rewrite fupd_ne by lia. by apply H7.
  - intros c Hc. rewrite fupd_ne by lia. by apply H8.
Qed.

(** The next block. *)
Lemma next_run s C : inv s C -> freeblock s < 1000 ->
  exists s', next_block s = Ok (freeblock s, s') /\ inv s' (alloc sb0 (freeblock s) C) /\ freeblock s' = freeblock s + 1 /\ freeinode s' = freeinode s /\ img s' = img s.
Proof.
  intros [H1 H2 H3 H4 H5 H6 H7 H8] Hfb. unfold next_block. rewrite run_get. eexists. split; [reflexivity|]. cbn [freeblock freeinode img]. rewrite u32_small by lia.
  assert (HF : freeblock s ∈ Free (freeblock s)) by (apply elem_of_Free; lia).
  assert (HB : BBLOCK (freeblock s) sb0 = 58) by (unfold BBLOCK, BPB, BSIZE; cbn; rewrite Z.div_small by lia; done).
  split; [|done]. split; cbn [sb nsec freeblock img]; try done.
  - lia.
  - intros b Hb. unfold alloc, mark. rewrite HB. destruct (decide (b = freeblock s)) as [->|Hne]; [rewrite fupd_eq; symmetry; apply H7; lia|]. rewrite !fupd_ne by done. by apply H4.
  - unfold alloc, mark. rewrite HB, fupd_ne, fupd_eq by lia. replace (Z.to_nat (freeblock s + 1)) with (S (Z.to_nat (freeblock s))) by lia. cbn [used_bits].
    rewrite H5, Z2Nat.id by lia. f_equal. apply Z.mod_small. unfold BPB, BSIZE. lia.
  - rewrite <- Free_next. apply disk_alloc; [apply lay|done..].
  - intros b Hb. apply H7. lia.
Qed.

(** ** Blocks of a file

    A file of [k] blocks has exactly these, and the indirect block if it needs
    it. *)
Definition exact (C : Z -> block) (i : inode) (k : Z) : Prop :=
  (forall n, bn_ok n -> (baddr C i n = 0 <-> k <= n)) /\ (addr_of i NDIRECT = 0 <-> k <= NDIRECT).

(** The number of blocks of a file of [k] data blocks. *)
Definition need (k : Z) : Z := k + (if NDIRECT <? k then 1 else 0).

Lemma daddr_range C F i k : file sb0 C F i -> 0 <= addr_of i k < 2 ^ 32.
Proof.
  intros Hf. pose proof (addrs_ok sb0 lay C F i Hf) as Ha. unfold addr_of, zlookup. destruct (0 <=? k); [|done].
  destruct (addrs i !! Z.to_nat k) as [a|] eqn:E; [|done]. by eapply Forall_lookup_1 in Ha.
Qed.

Lemma own_range C fb i b : file sb0 C (Free fb) i -> fb <= 1000 -> own C i b -> 59 <= b < fb.
Proof.
  intros Hf Hfb Ho. destruct (f_own _ _ _ _ Hf b Ho) as [Hd HF]. unfold data in Hd. change (dstart sb0) with 59 in Hd. change (Log.sb_size sb0) with 1000 in Hd.
  rewrite elem_of_Free in HF. lia.
Qed.

(** What [iappend_block] gives. *)
Definition extended (s : state) (C : Z -> block) (i : inode) (n : Z) (s' : state) (C' : Z -> block) (i' : inode) : Prop :=
  inv s' C' /\ grows sb0 C (Free (freeblock s)) i C' (Free (freeblock s')) i' /\ freeinode s' = freeinode s /\ baddr C' i' n <> 0.

Lemma direct_run s C i n : inv s C -> file sb0 C (Free (freeblock s)) i -> 0 <= n < NDIRECT -> exact C i n -> freeblock s < 1000 ->
  exists s' C' i', iappend_block i n s = Ok ((i', baddr C' i' n), s') /\ extended s C i n s' C' i' /\ freeblock s' = freeblock s + 1 /\ exact C' i' (n + 1).
Proof.
  intros H Hf Hn [Hx1 Hx2] Hfb. assert (Hb : bn_ok n) by (unfold bn_ok; rewrite MAXFILE_eq; unfold NDIRECT in *; lia).
  assert (H0 : addr_of i n = 0) by (pose proof (proj2 (Hx1 n Hb) ltac:(lia)) as E; unfold baddr in E; by rewrite (proj2 (Z.ltb_lt n _)) in E by lia).
  destruct (next_run s C H Hfb) as (s' & R & H' & Efb & Efi & _). pose proof (v_fb _ _ H) as Hfr.
  pose proof (grows_direct sb0 lay C (Free (freeblock s)) i n (freeblock s) (v_disk _ _ H) Hf ltac:(apply elem_of_Free; lia) Hn H0) as G.
  rewrite Free_next, <- Efb in G. set (C' := alloc sb0 (freeblock s) C) in *. set (i' := set_addr n (freeblock s) i) in *.
  assert (HA : forall k, addr_of i' k = if k =? n then freeblock s else addr_of i k) by (intros k; apply addr_of_set; [apply (f_len _ _ _ _ Hf)|unfold NDIRECT in *; lia]).
  assert (EB : baddr C' i' n = freeblock s) by (unfold baddr; rewrite (proj2 (Z.ltb_lt n _)), HA, Z.eqb_refl by lia; done).
  exists s', C', i'. split.
  - unfold iappend_block. rewrite (proj2 (Z.ltb_lt n _)) by lia. rewrite H0. change (xint 0 =? 0) with true. cbv iota. rewrite (run_bind _ _ s i' s'); [|step R; by rewrite xint_id by lia].
    unfold mret, ST_ret. do 3 f_equal. rewrite EB, HA, Z.eqb_refl. apply xint_id. lia.
  - split; [split_and!; [done..|rewrite EB; lia]|]. split; [done|]. split.
    + intros m Hm. destruct (decide (m = n)) as [->|Hne]; [rewrite EB; lia|]. destruct (decide (baddr C i m = 0)) as [E|E].
      * assert (Hb' : baddr C' i' m = 0); [|rewrite Hb'; rewrite Hx1 in E by done; lia]. unfold baddr in *. rewrite !HA, (proj2 (Z.eqb_neq m n)) by done.
        unfold NDIRECT in *. rewrite (proj2 (Z.eqb_neq 12 n)) by lia. destruct (m <? 12); [done|]. destruct (Z.eqb_spec (addr_of i 12) 0) as [|Ha]; [done|]. destruct Ha. apply Hx2. lia.
      * rewrite (g_keep _ _ _ _ _ _ _ G) by done. rewrite Hx1 in * by done. lia.
    + rewrite HA. unfold NDIRECT in *. rewrite (proj2 (Z.eqb_neq 12 n)) by lia. lia.
Qed.

(** The part of [iappend_block] behind the indirect block. *)
Definition through (din : inode) (fbn : Z) : ST state (inode * Z) :=
  indirect ← rsect (xint (addr_of din NDIRECT));
  indirect ← (if get32 indirect (4 * (fbn - NDIRECT)) =? 0 then
                b ← next_block;
                wsect (xint (addr_of din NDIRECT)) (put32 (4 * (fbn - NDIRECT)) (xint b) indirect);;
                mret (put32 (4 * (fbn - NDIRECT)) (xint b) indirect)
              else mret indirect);
  mret (din, xint (get32 indirect (4 * (fbn - NDIRECT)))).

Section Through.

Context (s : state) (C : Z -> block) (i : inode) (n : Z).
Context (H : inv s C) (Hf : file sb0 C (Free (freeblock s)) i) (Hn : NDIRECT <= n < MAXFILE) (Ha : addr_of i NDIRECT <> 0).

Let a := addr_of i NDIRECT.

Lemma ind_range : 59 <= a < freeblock s.
Proof. apply (own_range C (freeblock s) i); [done|apply (v_fb _ _ H)|]. split; [done|by left]. Qed.

Lemma ind_read : rsect (xint a) s = Ok (C a, s).
Proof.
  pose proof ind_range. pose proof (v_fb _ _ H). rewrite xint_id by lia. rewrite (rsect_run s C) by (done || lia). by rewrite (v_img _ _ H) by lia.
Qed.

Lemma ind_baddr m : NDIRECT <= m -> baddr C i m = get32 (C a) (4 * (m - NDIRECT)).
Proof. intros Hm. unfold baddr. rewrite (proj2 (Z.ltb_ge m _)) by lia. fold a. by rewrite (proj2 (Z.eqb_neq a 0)). Qed.

Lemma ind_ok : block_ok (C a).
Proof. pose proof ind_range. pose proof (v_fb _ _ H). apply (d_ok _ _ _ (v_disk _ _ H)). right. change (Log.inodestart sb0) with 32. change (Log.sb_size sb0) with 1000. lia. Qed.

Lemma through_new : baddr C i n = 0 -> freeblock s < 1000 ->
  exists s' C', through i n s = Ok ((i, baddr C' i n), s') /\ extended s C i n s' C' i /\ freeblock s' = freeblock s + 1 /\
    forall m, bn_ok m -> baddr C' i m = if m =? n then freeblock s else baddr C i m.
Proof.
  intros H0 Hfb. pose proof ind_range as Hr. pose proof (v_fb _ _ H) as Hfr. destruct (next_run s C H Hfb) as (s1 & R & H1 & Efb & Efi & Eimg).
  pose proof (grows_through sb0 lay C (Free (freeblock s)) i n (freeblock s) (v_disk _ _ H) Hf ltac:(apply elem_of_Free; lia) Hn Ha H0) as G. unfold link_indirect in G. fold a in G.
  set (C1 := alloc sb0 (freeblock s) C) in *. assert (Ea : C1 a = C a).
  { rewrite (v_img _ _ H1), Eimg by lia. by rewrite (v_img _ _ H) by lia. }
  rewrite Ea, Free_next, <- Efb in G. set (x := put32 (4 * (n - NDIRECT)) (freeblock s) (C a)) in *. set (s2 := set_img (fupd a x (img s1)) s1).
  assert (Hx : block_ok x) by apply put32_ok, ind_ok. assert (H2 : inv s2 (fupd a x C1)) by (apply inv_write; [done|lia|done]).
  assert (Eg : get32 x (4 * (n - NDIRECT)) = freeblock s).
  { unfold x. destruct ind_ok as [Hlen _]. rewrite MAXFILE_eq in Hn. unfold NDIRECT in *. rewrite get32_put32_eq by (rewrite ?Hlen; unfold BSIZE; lia). apply u32_small. lia. }
  assert (HB : forall m, bn_ok m -> baddr (fupd a x C1) i m = if m =? n then freeblock s else baddr C i m).
  { intros m [Hm0 Hm1]. unfold baddr. fold a. destruct (Z.ltb_spec m NDIRECT); [by rewrite (proj2 (Z.eqb_neq m n)) by lia|]. rewrite (proj2 (Z.eqb_neq a 0)) by done. rewrite fupd_eq.
    destruct (Z.eqb_spec m n) as [->|Hne]; [done|]. unfold x. apply get32_put32_ne. lia. }
  assert (Hbn : bn_ok n) by (unfold bn_ok, NDIRECT in *; lia).
  exists s2, (fupd a x C1). rewrite HB, Z.eqb_refl by done. split; [|split; [split_and!; [done..|rewrite HB, Z.eqb_refl by done; lia]|by split]].
  unfold through. fold a. step ind_read. rewrite <- ind_baddr, H0 by lia. change (0 =? 0) with true. cbv iota.
  assert (Hw : wsect (xint a) x s1 = Ok (tt, s2)) by (rewrite xint_id by lia; apply (wsect_run s1 C1); [done|lia]).
  rewrite (run_bind _ _ s x s2); [|step R; rewrite (xint_id (freeblock s)) by lia; fold x; by step Hw].
  unfold mret, ST_ret. do 3 f_equal. rewrite Eg. apply xint_id. lia.
Qed.

Lemma through_old : baddr C i n <> 0 -> through i n s = Ok ((i, baddr C i n), s).
Proof.
  intros H0. unfold through. fold a. step ind_read. rewrite <- ind_baddr by lia. rewrite (proj2 (Z.eqb_neq _ 0)) by done. rewrite (run_bind _ _ s (C a) s) by done.
  rewrite <- ind_baddr by lia. unfold mret, ST_ret. do 3 f_equal. rewrite ind_baddr by lia. apply xint_id, get32_range, ind_ok.
Qed.

End Through.

Lemma indirect_block i n s : NDIRECT <= n -> iappend_block i n s =
  (din ← (if xint (addr_of i NDIRECT) =? 0 then b ← next_block; mret (set_addr NDIRECT (xint b) i) else mret i); through din n) s.
Proof. intros Hn. unfold iappend_block. by rewrite (proj2 (Z.ltb_ge n _)). Qed.

Lemma need_step n : need (n + 1) - need n = if n =? NDIRECT then 2 else 1.
Proof. unfold need, NDIRECT. destruct (Z.ltb_spec 12 (n + 1)), (Z.ltb_spec 12 n), (Z.eqb_spec n 12); lia. Qed.

(** A block that the file has. *)
Lemma block_old s C i n : inv s C -> file sb0 C (Free (freeblock s)) i -> bn_ok n -> baddr C i n <> 0 -> iappend_block i n s = Ok ((i, baddr C i n), s).
Proof.
  intros H Hf Hn H0. destruct (decide (n < NDIRECT)) as [Hd|Hd].
  - unfold iappend_block, baddr in *. rewrite (proj2 (Z.ltb_lt n _)) in * by lia. rewrite xint_id by by eapply daddr_range. rewrite (proj2 (Z.eqb_neq _ 0)) by done.
    rewrite (run_bind _ _ s i s) by done. by rewrite xint_id by by eapply daddr_range.
  - rewrite indirect_block by lia. assert (Ha : addr_of i NDIRECT <> 0).
    { intros E. apply H0. unfold baddr. rewrite (proj2 (Z.ltb_ge n _)) by lia. by rewrite E. }
    rewrite xint_id by by eapply daddr_range. rewrite (proj2 (Z.eqb_neq _ 0)) by done. rewrite (run_bind _ _ s i s) by done. unfold bn_ok in Hn. apply (through_old s C i n); try done; lia.
Qed.

(** The first block behind the indirect block, which comes with it. *)
Lemma first_indirect s C i : inv s C -> file sb0 C (Free (freeblock s)) i -> exact C i NDIRECT -> freeblock s + 1 < 1000 ->
  exists s' C' i', iappend_block i NDIRECT s = Ok ((i', baddr C' i' NDIRECT), s') /\ extended s C i NDIRECT s' C' i' /\ freeblock s' = freeblock s + 2 /\ exact C' i' (NDIRECT + 1).
Proof.
  intros H Hf [Hx1 Hx2] Hfb. pose proof (v_fb _ _ H) as Hfr. assert (H0 : addr_of i NDIRECT = 0) by (apply Hx2; lia).
  destruct (next_run s C H ltac:(lia)) as (s1 & R1 & H1 & Efb & Efi & _).
  destruct (grows_indirect sb0 lay C (Free (freeblock s)) i (freeblock s) (v_disk _ _ H) Hf ltac:(apply elem_of_Free; lia) H0) as [G1 Ea].
  rewrite Free_next, <- Efb in G1. set (C1 := alloc sb0 (freeblock s) C) in *. set (i1 := set_addr NDIRECT (freeblock s) i) in *.
  assert (HB : forall m, bn_ok m -> baddr C1 i1 m = baddr C i m).
  { intros m Hm. destruct (decide (baddr C i m = 0)) as [E|E]; [|by rewrite (g_keep _ _ _ _ _ _ _ G1)]. rewrite E. unfold baddr in *. rewrite Ea. unfold i1. rewrite !addr_of_set by (apply (f_len _ _ _ _ Hf) || done).
    destruct (Z.ltb_spec m NDIRECT); [by rewrite (proj2 (Z.eqb_neq m _)) by lia|]. destruct (freeblock s =? 0); [done|]. unfold C1, alloc. by rewrite fupd_eq, get32_zero. }
  assert (Hb : bn_ok NDIRECT) by done. destruct (through_new s1 C1 i1 NDIRECT) as (s2 & C2 & R2 & (H2 & G2 & Ei2 & Hne) & Efb2 & HB2); [done|apply G1|done|rewrite Ea; lia|rewrite HB by done; apply Hx1; [done|lia]|lia|].
  exists s2, C2, i1. split; [|split_and!].
  - rewrite indirect_block by lia. rewrite H0. change (xint 0 =? 0) with true. cbv iota. rewrite (run_bind _ _ s i1 s1); [done|]. step R1. by rewrite xint_id by lia.
  - split_and!; [done|eapply (grows_trans sb0 lay); [exact G1|exact G2]|congruence|done].
  - lia.
  - split; [|rewrite Ea; unfold NDIRECT; lia]. intros m Hm. rewrite HB2, HB by done. destruct (Z.eqb_spec m NDIRECT) as [->|Hne']; [lia|]. rewrite Hx1 by done. lia.
Qed.

Lemma block_run s C i n k : inv s C -> file sb0 C (Free (freeblock s)) i -> bn_ok n -> n <= k <= n + 1 -> exact C i k -> freeblock s + need (n + 1) - need k <= 1000 ->
  exists s' C' i', iappend_block i n s = Ok ((i', baddr C' i' n), s') /\ extended s C i n s' C' i' /\ freeblock s' = freeblock s + need (n + 1) - need k /\ exact C' i' (n + 1).
Proof.
  intros H Hf Hn Hk Hx Hfb. destruct (decide (k = n + 1)) as [->|Hkn].
  - assert (H0 : baddr C i n <> 0) by (rewrite (proj1 Hx n Hn); lia). exists s, C, i. split; [by apply block_old|]. split; [|split; [lia|done]].
    split_and!; [done|apply grows_refl; [apply (v_disk _ _ H)|done]|done..].
  - assert (k = n) as -> by lia. pose proof (need_step n) as Hs. destruct (Z.eqb_spec n NDIRECT) as [->|Hne].
    + destruct (first_indirect s C i) as (s' & C' & i' & R & E & Ef & Hx'); [done..|lia|]. exists s', C', i'. split_and!; [done..|lia|done].
    + destruct (decide (n < NDIRECT)) as [Hd|Hd].
      * destruct (direct_run s C i n) as (s' & C' & i' & R & E & Ef & Hx'); [done..|unfold bn_ok in Hn; lia|done|lia|]. exists s', C', i'. split_and!; [done..|lia|done].
      * destruct Hx as [Hx1 Hx2]. assert (Ha : addr_of i NDIRECT <> 0) by (rewrite Hx2; lia).
        destruct (through_new s C i n) as (s' & C' & R & E & Ef & HB); [done..|unfold bn_ok in Hn; lia|done|apply Hx1; [done|lia]|lia|].
        exists s', C', i. split; [|split_and!; [done|lia|]].
        -- rewrite indirect_block by lia. rewrite xint_id by by eapply daddr_range. rewrite (proj2 (Z.eqb_neq _ 0)) by done. by rewrite (run_bind _ _ s i s).
        -- split; [|rewrite Hx2; lia]. intros m Hm. rewrite HB by done. pose proof (v_fb _ _ H). destruct (Z.eqb_spec m n) as [->|Hne']; [lia|]. rewrite Hx1 by done. lia.
Qed.

(** ** [iappend] *)

Definition blocks (o : Z) : Z := (o + 511) / 512.

(** The bytes are in the file. *)
Definition appended (s : state) (C : Z -> block) (i : inode) (p : list Z) (off : Z) (s' : state) (C' : Z -> block) (i' : inode) : Prop :=
  inv s' C' /\ written sb0 C (Free (freeblock s)) i p off C' (Free (freeblock s')) i' /\ freeinode s' = freeinode s /\
  freeblock s' = freeblock s + need (blocks (off + Z.of_nat (length p))) - need (blocks off) /\ exact C' i' (blocks (off + Z.of_nat (length p))).

(** One round of the loop. *)
Lemma write_run s C i off l : inv s C -> file sb0 C (Free (freeblock s)) i -> 0 <= off < MAXFILE * BSIZE -> exact C i (blocks off) -> bytes l -> 0 < Z.of_nat (length l) <= BSIZE - off mod BSIZE ->
  freeblock s + need (blocks (off + Z.of_nat (length l))) - need (blocks off) <= 1000 ->
  exists s1 C1 i1 s2 C2, iappend_block i (off / BSIZE) s = Ok ((i1, baddr C1 i1 (off / BSIZE)), s1) /\ rsect (baddr C1 i1 (off / BSIZE)) s1 = Ok (C1 (baddr C1 i1 (off / BSIZE)), s1) /\
    wsect (baddr C1 i1 (off / BSIZE)) (splice (off mod BSIZE) l (C1 (baddr C1 i1 (off / BSIZE)))) s1 = Ok (tt, s2) /\ appended s C i l off s2 C2 i1.
Proof.
  intros H Hf Ho Hx Hl Hlen Hfb. pose proof (bn_range off Ho) as Hbn. set (n := off / BSIZE) in *.
  assert (Hk : n <= blocks off <= n + 1 /\ blocks (off + Z.of_nat (length l)) = n + 1) by (unfold n, blocks, BSIZE in *; Z.to_euclidean_division_equations; lia). destruct Hk as [Hk Hk'].
  rewrite Hk' in Hfb. destruct (block_run s C i n (blocks off) H Hf Hbn Hk Hx Hfb) as (s1 & C1 & i1 & R & (H1 & G & Ei & Hne) & Efb & Hx1).
  pose proof (g_file _ _ _ _ _ _ _ G) as Hf1. pose proof (file_own_addr sb0 _ _ _ _ Hf1 Hbn Hne) as Hown. pose proof (v_fb _ _ H1) as Hfr.
  pose proof (own_range _ _ _ _ Hf1 ltac:(lia) Hown) as Har. set (a := baddr C1 i1 n) in *.
  pose proof (written_block sb0 lay C1 _ i1 off l (v_disk _ _ H1) Hf1 Ho Hne Hl ltac:(lia)) as W. fold n in W. cbv zeta in W. fold a in W. set (x := splice (off mod BSIZE) l (C1 a)) in *.
  pose proof (f_own _ _ _ _ Hf1 a Hown) as [Hda _]. assert (Hok : block_ok (C1 a)) by (apply (d_ok _ _ _ (v_disk _ _ H1)); by apply (data_fs sb0 lay)).
  assert (Hxok : block_ok x) by (apply splice_ok; [done|done|apply Z.mod_pos_bound; done|unfold BSIZE in *; lia]).
  exists s1, C1, i1, (set_img (fupd a x (img s1)) s1), (fupd a x C1). split_and!; [done| | |].
  - rewrite (rsect_run s1 C1) by (done || lia). by rewrite (v_img _ _ H1) by lia.
  - apply (wsect_run s1 C1); [done|lia].
  - split_and!; [apply inv_write; [done|lia|done]| |done|rewrite Hk'; cbn [freeblock set_img]; lia|rewrite Hk'].
    + eapply (written_trans sb0 lay _ _ _ [] off); [lia|cbn; unfold BSIZE in *; rewrite MAXFILE_eq in *; Z.to_euclidean_division_equations; lia|by apply written_grows|]. cbn [length]. by rewrite Z.add_0_r.
    + destruct Hx1 as [Hx1 Hx2]. split; [|done]. intros m Hm. rewrite <- Hx1 by done. erewrite baddr_ext; [done|done| |apply Hm].
      intros _. apply fupd_ne. intros E. symmetry in E. by apply (f_ind _ _ _ _ Hf1 n Hbn Hne).
Qed.

Lemma need_mono a b : a <= b -> need a <= need b.
Proof. intros H. unfold need. destruct (Z.ltb_spec NDIRECT a), (Z.ltb_spec NDIRECT b); lia. Qed.

Lemma append_loop_run fuel : forall s C i off p, inv s C -> file sb0 C (Free (freeblock s)) i -> 0 <= off -> exact C i (blocks off) -> bytes p -> off + Z.of_nat (length p) <= MAXFILE * BSIZE ->
  nblk off (Z.of_nat (length p)) <= Z.of_nat fuel -> freeblock s + need (blocks (off + Z.of_nat (length p))) - need (blocks off) <= 1000 ->
  exists s' C' i', iappend_loop fuel i off p s = Ok ((i', off + Z.of_nat (length p)), s') /\ appended s C i p off s' C' i'.
Proof.
  induction fuel as [|fuel IH]; intros s C i off p H Hf Ho Hx Hp Hmax Hfu Hfb.
  all: destruct (decide (p = [])) as [->|Hne];
    [exists s, C, i; cbn [length]; rewrite Z.add_0_r; split; [done|]; split_and!; [done| |done|cbn [length]; rewrite Z.add_0_r; lia|cbn [length]; by rewrite Z.add_0_r];
     apply written_grows, grows_refl; [apply (v_disk _ _ H)|done]|].
  all: assert (Hlen : 0 < Z.of_nat (length p)) by (destruct p; [done|cbn; lia]).
  { pose proof (nblk_pos off _ Hlen). lia. }
  set (n1 := Z.min (Z.of_nat (length p)) (BSIZE - off mod BSIZE)). pose proof (Z.mod_pos_bound off BSIZE ltac:(done)) as Hm. pose proof (nblk_step off _ Ho Hlen) as Hst. cbv zeta in Hst. fold n1 in Hst.
  set (l := take (Z.to_nat n1) p). set (q := drop (Z.to_nat n1) p). assert (Hl : Z.of_nat (length l) = n1) by (unfold l; rewrite length_take; lia).
  assert (Hq : Z.of_nat (length q) = Z.of_nat (length p) - n1) by (unfold q; rewrite length_drop; lia).
  assert (Hmono : need (blocks (off + n1)) <= need (blocks (off + Z.of_nat (length p)))) by (apply need_mono; unfold blocks; apply Z.div_le_mono; lia).
  destruct (write_run s C i off l) as (s1 & C1 & i1 & s2 & C2 & R1 & R2 & R3 & (H2 & W2 & Ei2 & Ef2 & Hx2)); [done..|lia|done|by apply Forall_take|lia|rewrite Hl; lia|]. rewrite Hl in *.
  destruct (IH s2 C2 i1 (off + n1) q) as (s3 & C3 & i3 & R4 & (H3 & W3 & Ei3 & Ef3 & Hx3)); [done|apply W2|lia|done|by apply Forall_drop|lia|rewrite Hq; lia|rewrite Hq; replace (off + n1 + (Z.of_nat (length p) - n1)) with (off + Z.of_nat (length p)) by lia; lia|].
  assert (Eo : off + n1 + Z.of_nat (length q) = off + Z.of_nat (length p)) by lia. rewrite Eo in *. exists s3, C3, i3. split.
  - destruct p as [|c p]; [done|]. cbn [iappend_loop]. rewrite (proj2 (Z.ltb_lt _ _)) by (unfold BSIZE in *; rewrite MAXFILE_eq in *; Z.to_euclidean_division_equations; lia). step R1. cbn [fst snd].
    replace (Z.min (Z.of_nat (length (c :: p))) ((off / BSIZE + 1) * BSIZE - off)) with n1 by (unfold n1, BSIZE; Z.to_euclidean_division_equations; lia).
    replace (off - off / BSIZE * BSIZE) with (off mod BSIZE) by (unfold BSIZE; Z.to_euclidean_division_equations; lia). step R2. fold l. step R3. fold q. exact R4.
  - split_and!; [done| |congruence|lia|done]. replace p with (l ++ q) by apply take_drop. eapply (written_trans sb0 lay); [lia|unfold l, q; rewrite take_drop; lia|exact W2|rewrite Hl; exact W3].
Qed.

(** ** Inodes *)

(** An inode as [rinode] reads it. *)
Definition dino (n : Z) (i : inode) : Prop := disk_part i (dinode0 n) = i.

Lemma IBLOCK0 n : 0 <= n < 200 -> IBLOCK n sb0 = 32 + n / 8 /\ 32 <= IBLOCK n sb0 < 57.
Proof. intros Hn. unfold IBLOCK. change IPB with 8. change (Log.inodestart sb0) with 32. rewrite u32_small; Z.to_euclidean_division_equations; lia. Qed.

Lemma dino_inum n i : dino n i -> inum i = n.
Proof. intros H. by rewrite <- H. Qed.

Lemma rinode_run s C n i : inv s C -> 0 <= n < 200 -> dino n i -> synced sb0 C i -> rinode n s = Ok (i, s).
Proof.
  intros H Hn Hd Hs. unfold rinode. rewrite run_get, (v_sb _ _ H). pose proof (IBLOCK0 n Hn) as [_ Hr]. step (rsect_run s C (IBLOCK n sb0) H ltac:(lia)). unfold mret, ST_ret. do 2 f_equal.
  unfold synced, ioff in Hs. rewrite (dino_inum _ _ Hd), (v_img _ _ H) in Hs by lia. etrans; [|exact Hs]. by rewrite <- Hd.
Qed.

Lemma winode_run s C n i : inv s C -> 0 <= n < 200 -> inum i = n -> inode_ok i ->
  exists s', winode n i s = Ok (tt, s') /\ inv s' (iupdated sb0 i C) /\ freeblock s' = freeblock s /\ freeinode s' = freeinode s.
Proof.
  intros H Hn Ei Hi. pose proof (IBLOCK0 n Hn) as [_ Hr]. unfold winode. rewrite run_get, (v_sb _ _ H). step (rsect_run s C (IBLOCK n sb0) H ltac:(lia)).
  rewrite (wsect_run s C) by (done || lia). eexists. split; [reflexivity|]. split; [|done]. unfold iupdated. rewrite Ei. pose proof (v_img _ _ H (IBLOCK n sb0) ltac:(lia)) as EI.
  change (DINODE * (n mod IPB)) with (ioff n). rewrite <- EI. set (x := dinode_store _ _ _).
  destruct H as [H1 H2 H3 H4 H5 H6 H7 H8]. split; cbn [sb nsec freeblock img set_img]; try done.
  - intros b Hb. unfold fupd. destruct (b =? _); [done|by apply H4].
  - by rewrite fupd_ne by lia.
  - apply disk_inode; [apply lay|done|unfold inum_ok; change (Log.ninodes sb0) with 200; lia|]. apply dinode_store_ok, (d_ok _ _ _ H6). right. change (Log.inodestart sb0) with 32. change (Log.sb_size sb0) with 1000. lia.
  - intros b Hb. rewrite fupd_ne by lia. by apply H7.
  - intros b Hb. rewrite fupd_ne by lia. by apply H8.
Qed.

(** ** Files *)

(** The inode [i] has the contents [c]. *)
Record holds (C : Z -> block) (fb : Z) (i : inode) (c : list Z) : Prop := {
  h_file : file sb0 C (Free fb) i;
  h_exact : exact C i (blocks (Z.of_nat (length c)));
  h_size : isize i = Z.of_nat (length c) /\ Z.of_nat (length c) <= MAXFILE * BSIZE;
  h_bytes : forall x, 0 <= x < MAXFILE * BSIZE -> fbyte C i x = rd c x;
  h_sync : synced sb0 C i;
  h_ok : inode_ok i
}.

Lemma load_ext o x y i : (forall j, o <= j < o + 64 -> rd x j = rd y j) -> dinode_load o x i = dinode_load o y i.
Proof.
  intros H. unfold dinode_load, get16, get32, get_addrs, get32. f_equal; rewrite ?H by lia; try done.
  apply map_ext_in. intros k Hk%in_seq. by rewrite !H by lia.
Qed.

(** A file that others leave alone. *)
Lemma holds_frame C C' fb fb' i c : holds C fb i c -> fb <= fb' -> (forall b, own C i b -> C' b = C b) -> synced sb0 C' i -> holds C' fb' i c.
Proof.
  intros [H1 H2 H3 H4 H5 H6] Hfb HC Hs. destruct (file_ext sb0 C C' (Free fb) i H1 HC) as (Hf & HB & Hby & Ho). split; [|split| |intros x Hx; rewrite Hby by done; by apply H4|done..].
  - destruct Hf as [F1 F2 F3 F4]. split; [done| |done|done]. intros b Hb. destruct (F2 b Hb) as [? HF]. split; [done|]. rewrite elem_of_Free in *. lia.
  - intros n Hn. rewrite HB by done. by apply H2.
  - apply H2.
  - done.
Qed.

Lemma dino_set n i a m : dino n i -> dino n (set_size m (set_addrs a i)).
Proof. unfold dino. intros H. by rewrite <- H. Qed.

Lemma rd_out (l : list Z) x : Z.of_nat (length l) <= x -> rd l x = 0.
Proof. intros Hx. unfold rd, zlookup. destruct (0 <=? x); [|done]. by rewrite lookup_ge_None_2 by lia. Qed.

Lemma rd_append (c p : list Z) x : 0 <= x ->
  (if decide (Z.of_nat (length c) <= x < Z.of_nat (length c) + Z.of_nat (length p)) then rd p (x - Z.of_nat (length c)) else rd c x) = rd (c ++ p) x.
Proof.
  intros Hx. case_decide as E; [by rewrite FsWrote.rd_app_r by lia|]. destruct (decide (x < Z.of_nat (length c))); [by rewrite FsWrote.rd_app_l by lia|].
  rewrite !rd_out; [done|rewrite length_app; lia|lia].
Qed.

Section Append.

Context (s : state) (C : Z -> block) (n : Z) (i : inode) (c p : list Z).
Context (H : inv s C) (Hn : 0 <= n < 200) (Hd : dino n i) (Hh : holds C (freeblock s) i c) (Hp : bytes p).
Context (Hmax : Z.of_nat (length (c ++ p)) <= MAXFILE * BSIZE).
Context (Hroom : freeblock s + need (blocks (Z.of_nat (length (c ++ p)))) - need (blocks (Z.of_nat (length c))) <= 1000).

Lemma iappend_run : exists s' C' i', iappend n p s = Ok (tt, s') /\ inv s' C' /\ holds C' (freeblock s') i' (c ++ p) /\ dino n i' /\ itype i' = itype i /\ nlink i' = nlink i /\
  freeinode s' = freeinode s /\ freeblock s' = freeblock s + need (blocks (Z.of_nat (length (c ++ p)))) - need (blocks (Z.of_nat (length c))) /\
  (forall b, own C' i' b <-> own C i b \/ freeblock s <= b < freeblock s') /\
  (forall b, ~ own C i b -> ~ (freeblock s <= b < 1000) -> b <> 58 -> b <> IBLOCK n sb0 -> C' b = C b) /\
  (forall j, ~ (ioff n <= j < ioff n + 64) -> rd (C' (IBLOCK n sb0)) j = rd (C (IBLOCK n sb0)) j).
Proof.
  destruct Hh as [Hf Hx [Hs Hs'] Hby Hsy Hok]. rewrite length_app, Nat2Z.inj_add in *. unfold iappend. step (rinode_run s C n i H Hn Hd Hsy). rewrite Hs, xint_id by (rewrite MAXFILE_eq in *; unfold BSIZE in *; lia).
  destruct (append_loop_run (blocks_fuel (Z.of_nat (length p))) s C i (Z.of_nat (length c)) p) as (s1 & C1 & i1 & R1 & (H1 & W & Ei & Ef & Hx1)); [done..|lia|done|done|lia|apply nblk_fuel; lia|lia|].
  step R1. cbn [fst snd]. rewrite xint_id by (rewrite MAXFILE_eq in *; unfold BSIZE in *; lia). set (m := Z.of_nat (length c) + Z.of_nat (length p)) in *. set (i2 := set_size m i1).
  pose proof (w_meta _ _ _ _ _ _ _ _ _ W) as Hm. unfold same_meta in Hm. pose proof (w_file _ _ _ _ _ _ _ _ _ W) as Hf1.
  assert (Hd2 : dino n i2) by (unfold i2; rewrite Hm; by apply dino_set). pose proof (dino_inum _ _ Hd2) as Ein.
  assert (Hmr : 0 <= m < 2 ^ 32) by (rewrite MAXFILE_eq in *; unfold BSIZE in *; lia).
  assert (Hok2 : inode_ok i2).
  { destruct Hok as [O1 O2 O3 O4 O5 O6]. pose proof (addrs_ok sb0 lay _ _ _ Hf1) as Ha. pose proof (f_len _ _ _ _ Hf1) as Hl. unfold i2. rewrite Hm. by split. }
  destruct (winode_run s1 C1 n i2 H1 Hn Ein Hok2) as (s2 & R2 & H2 & Ef2 & Ei2). pose proof (IBLOCK0 n Hn) as [_ HI]. pose proof (v_fb _ _ H1) as Hfb1.
  set (C2 := iupdated sb0 i2 C1) in *. assert (EC : forall b, b <> IBLOCK n sb0 -> C2 b = C1 b) by (intros b Hb; unfold C2, iupdated; rewrite Ein; by apply fupd_ne).
  assert (Hf2 : file sb0 C1 (Free (freeblock s1)) i2) by (destruct Hf1; by split).
  assert (Hown : forall b, own C1 i2 b -> C2 b = C1 b) by (intros b Hb; apply EC; pose proof (own_range _ _ _ _ Hf2 ltac:(lia) Hb); lia).
  destruct (file_ext sb0 C1 C2 _ i2 Hf2 Hown) as (Hf3 & HB & Hby3 & Ho3). exists s2, C2, i2. split; [exact R2|].
  split; [done|]. split; [|split_and!; [done|unfold i2; by rewrite Hm|unfold i2; by rewrite Hm|congruence|lia| | |]].
  - rewrite Ef2. split; [done| | | |by apply (iupdated_synced sb0 lay C1 (Free (freeblock s1))); [apply (v_disk _ _ H1)|rewrite Ein|]|done].
    + rewrite length_app, Nat2Z.inj_add. fold m. destruct Hx1 as [X1 X2]. split; [|done]. intros k Hk. rewrite HB by done. by apply X1.
    + rewrite length_app, Nat2Z.inj_add. done.
    + intros x Hx'. rewrite Hby3 by done. change (fbyte C1 i2 x) with (fbyte C1 i1 x). rewrite (w_bytes _ _ _ _ _ _ _ _ _ W) by done. rewrite Hby by done. apply rd_append. lia.
  - intros b. rewrite Ho3. change (own C1 i2 b) with (own C1 i1 b). rewrite (w_own _ _ _ _ _ _ _ _ _ W), !elem_of_Free, Ef2. split; intros [?|?]; [by left|right; lia|by left|right; lia].
  - intros b B1 B2 B3 B4. rewrite EC by done. apply (w_frame _ _ _ _ _ _ _ _ _ W); [done|rewrite elem_of_Free; lia|]. unfold bitmap. change (Log.bmapstart sb0) with 58. change (dstart sb0) with 59. lia.
  - intros j Hj. unfold C2, iupdated. rewrite Ein, fupd_eq. rewrite rd_dinode_store; [|apply (f_len _ _ _ _ Hf2)|done]. f_equal.
    apply (w_frame _ _ _ _ _ _ _ _ _ W); [intros Ho; pose proof (v_fb _ _ H); pose proof (own_range _ _ _ _ Hf ltac:(lia) Ho); lia|rewrite elem_of_Free; pose proof (v_fb _ _ H); lia|].
    unfold bitmap. change (Log.bmapstart sb0) with 58. change (dstart sb0) with 59. lia.
Qed.

End Append.

(** ** The file system *)

(** Inode [k + 1] is in place [k] of [G], with its contents. *)
Record fsinv (s : state) (C : Z -> block) (G : list (inode * list Z)) : Prop := {
  m_inv : inv s C;
  m_next : freeinode s = 1 + Z.of_nat (length G) /\ Z.of_nat (length G) < 200;
  m_file : forall k i c, G !! k = Some (i, c) -> holds C (freeblock s) i c /\ dino (1 + Z.of_nat k) i /\ nlink i = 1;
  m_apart : forall k k' i c i' c' b, G !! k = Some (i, c) -> G !! k' = Some (i', c') -> own C i b -> own C i' b -> k = k';
  m_cover : forall b, 59 <= b < freeblock s -> exists k i c, G !! k = Some (i, c) /\ own C i b;
  m_none : forall n j, freeinode s <= n < 200 -> ioff n <= j < ioff n + 64 -> rd (C (IBLOCK n sb0)) j = 0
}.

(** Two inodes are in different places. *)
Lemma slot_apart n n' j : 0 <= n < 200 -> 0 <= n' < 200 -> n <> n' -> IBLOCK n sb0 = IBLOCK n' sb0 -> ioff n' <= j < ioff n' + 64 -> ~ (ioff n <= j < ioff n + 64).
Proof.
  intros Hn Hn' Hne E. destruct (IBLOCK0 n Hn) as [E1 _]. destruct (IBLOCK0 n' Hn') as [E2 _]. unfold ioff, DINODE. change IPB with 8. rewrite E1, E2 in E. Z.to_euclidean_division_equations. lia.
Qed.

(** Inode [n] changed, and nothing of the others. *)
Definition slots_kept (C C' : Z -> block) (n : Z) : Prop :=
  forall n' j, 0 <= n' < 200 -> n' <> n -> ioff n' <= j < ioff n' + 64 -> rd (C' (IBLOCK n' sb0)) j = rd (C (IBLOCK n' sb0)) j.

Lemma slots_kept_intro C C' n : 0 <= n < 200 -> (forall b, 32 <= b < 57 -> b <> IBLOCK n sb0 -> C' b = C b) ->
  (forall j, ~ (ioff n <= j < ioff n + 64) -> rd (C' (IBLOCK n sb0)) j = rd (C (IBLOCK n sb0)) j) -> slots_kept C C' n.
Proof.
  intros Hn HC Hr n' j Hn' Hne Hj. destruct (decide (IBLOCK n' sb0 = IBLOCK n sb0)) as [E|E].
  - rewrite E. apply Hr. by apply (slot_apart n n').
  - by rewrite HC by (done || apply IBLOCK0; done).
Qed.

Lemma holds_kept C C' fb fb' n n' i c : holds C fb i c -> dino n' i -> 0 <= n' < 200 -> n' <> n -> slots_kept C C' n -> (forall b, own C i b -> C' b = C b) -> fb <= fb' -> holds C' fb' i c.
Proof.
  intros Hh Hd Hn' Hne Hs HC Hfb. eapply holds_frame; [exact Hh|done|done|]. pose proof (h_sync _ _ _ _ Hh) as Hy. unfold synced in *. rewrite (dino_inum _ _ Hd) in *.
  etrans; [|exact Hy]. apply load_ext. intros j Hj. by apply Hs.
Qed.

Lemma fs_append s C G k i c p : fsinv s C G -> G !! k = Some (i, c) -> bytes p -> Z.of_nat (length (c ++ p)) <= MAXFILE * BSIZE ->
  freeblock s + need (blocks (Z.of_nat (length (c ++ p)))) - need (blocks (Z.of_nat (length c))) <= 1000 ->
  exists s' C' i', iappend (1 + Z.of_nat k) p s = Ok (tt, s') /\ fsinv s' C' (<[k := (i', c ++ p)]> G) /\ itype i' = itype i /\
    freeblock s' = freeblock s + need (blocks (Z.of_nat (length (c ++ p)))) - need (blocks (Z.of_nat (length c))).
Proof.
  intros [M1 [M2 M2'] M3 M4 M6 M5] Hk Hp Hmax Hroom. destruct (M3 k i c Hk) as (Hh & Hd & Hnl). pose proof (lookup_lt_Some _ _ _ Hk) as Hlt. set (n := 1 + Z.of_nat k) in *.
  destruct (iappend_run s C n i c p M1 ltac:(lia) Hd Hh Hp Hmax Hroom) as (s' & C' & i' & R & H' & Hh' & Hd' & Et & En & Ei & Ef & Hown & Hfr & Hsl).
  pose proof (v_fb _ _ M1) as Hfb. assert (Hle : freeblock s <= freeblock s') by (rewrite Ef, length_app; assert (need (blocks (Z.of_nat (length c))) <= need (blocks (Z.of_nat (length c + length p)))) by (apply need_mono; unfold blocks; apply Z.div_le_mono; lia); lia).
  assert (HK : slots_kept C C' n).
  { apply slots_kept_intro; [lia| |done]. intros b Hb1 Hb2. apply Hfr; [|lia..|done]. intros Ho. pose proof (own_range _ _ _ _ (h_file _ _ _ _ Hh) ltac:(lia) Ho). lia. }
  assert (HC : forall k' i' c' b, G !! k' = Some (i', c') -> k' <> k -> own C i' b -> C' b = C b).
  { intros k' i1 c1 b Hk' Hne Ho. destruct (M3 k' i1 c1 Hk') as (Hh1 & _ & _). pose proof (own_range _ _ _ _ (h_file _ _ _ _ Hh1) ltac:(lia) Ho). pose proof (IBLOCK0 n ltac:(lia)) as [_ HI].
    apply Hfr; [|lia..]. intros Ho'. by pose proof (M4 k' k i1 c1 i c b Hk' Hk Ho Ho'). }
  assert (HO : forall k' i1 c1 b, G !! k' = Some (i1, c1) -> k' <> k -> own C' i1 b <-> own C i1 b).
  { intros k' i1 c1 b Hk' Hne. destruct (M3 k' i1 c1 Hk') as (Hh1 & _). destruct (file_ext sb0 C C' _ i1 (h_file _ _ _ _ Hh1)) as (_ & _ & _ & Ho); [|apply Ho]. intros b'. by apply (HC k' i1 c1). }
  exists s', C', i'. split; [done|]. split; [|done]. split; [done|rewrite length_insert; lia| | | |].
  - intros k' i1 c1. destruct (decide (k' = k)) as [->|Hne]; [rewrite list_lookup_insert_eq by done; intros [= <- <-]; split_and!; [done..|congruence]|].
    rewrite list_lookup_insert_ne by done. intros Hk'. destruct (M3 k' i1 c1 Hk') as (Hh1 & Hd1 & Hn1). pose proof (lookup_lt_Some _ _ _ Hk'). split; [|done].
    eapply (holds_kept C C' _ _ n); [exact Hh1|exact Hd1|lia|lia|done|by intros b; apply (HC k' i1 c1)|done].
  - assert (HX : forall k' i1 c1 b, G !! k' = Some (i1, c1) -> k' <> k -> own C' i1 b -> own C' i' b -> False).
    { intros k' i1 c1 b Hk' Hne Ho1 Ho. rewrite (HO k' i1 c1) in Ho1 by done. apply Hown in Ho as [Ho|Ho]; [by pose proof (M4 k' k i1 c1 i c b Hk' Hk Ho1 Ho)|].
      destruct (M3 k' i1 c1 Hk') as (Hh1 & _). pose proof (own_range _ _ _ _ (h_file _ _ _ _ Hh1) ltac:(lia) Ho1). lia. }
    intros k1 k2 i1 c1 i2 c2 b. destruct (decide (k1 = k)) as [->|Hne1], (decide (k2 = k)) as [->|Hne2]; [done|..];
      rewrite ?list_lookup_insert_eq by done; rewrite ?list_lookup_insert_ne by done.
    + intros [= <- <-] Hk2 Ho1 Ho2. by destruct (HX k2 i2 c2 b).
    + intros Hk1 [= <- <-] Ho1 Ho2. by destruct (HX k1 i1 c1 b).
    + intros Hk1 Hk2. rewrite (HO k1 i1 c1), (HO k2 i2 c2) by done. by apply (M4 k1 k2 i1 c1 i2 c2).
  - intros b Hb. destruct (decide (freeblock s <= b)) as [Hnew|Hold].
    + exists k, i', (c ++ p). rewrite list_lookup_insert_eq by done. split; [done|]. apply Hown. right. lia.
    + destruct (M6 b ltac:(lia)) as (k1 & i1 & c1 & Hk1 & Ho). destruct (decide (k1 = k)) as [->|Hne].
      * exists k, i', (c ++ p). rewrite list_lookup_insert_eq by done. split; [done|]. apply Hown. left. congruence.
      * exists k1, i1, c1. rewrite list_lookup_insert_ne by done. split; [done|]. by apply (HO k1 i1 c1).
  - intros n' j Hn' Hj. rewrite HK by lia. apply M5; lia.
Qed.

(** ** New inodes *)

Definition new_inode (t n : Z) : inode := set_size 0 (set_nlink 1 (set_type t (dinode0 n))).

Lemma inv_next s C n : inv s C -> inv (mkstate (img s) (nsec s) (sb s) n (freeblock s)) C.
Proof. intros [H1 H2 H3 H4 H5 H6 H7 H8]. by split. Qed.

Lemma new_holds C fb t n : inum_ok sb0 n -> short t -> disk sb0 C (Free fb) -> holds (iupdated sb0 (new_inode t n) C) fb (new_inode t n) [].
Proof.
  intros Hn Ht Hd. set (i := new_inode t n). assert (Hok : inode_ok i) by (split; try done; split; [done|by apply Forall_replicate]).
  assert (HA : forall k, addr_of i k = 0) by (intros k; by apply no_addrs). assert (HB : forall C' k, baddr C' i k = 0) by (intros C' k; unfold baddr; rewrite !HA; by destruct (k <? NDIRECT)).
  split; [apply (empty_file (iupdated sb0 i C) (Free fb) i); done| |done| |by eapply (iupdated_synced sb0 lay)|done].
  - split; [intros m Hm; rewrite HB|rewrite HA]; change (blocks (Z.of_nat (length []))) with 0; unfold bn_ok, NDIRECT in *; lia.
  - intros x Hx. unfold fbyte. rewrite HB. change (0 =? 0) with true. cbv iota. symmetry. apply rd_out. cbn. lia.
Qed.

Lemma fs_ialloc s C G t : fsinv s C G -> Z.of_nat (length G) < 199 -> 0 < t < 4 ->
  exists s' C', ialloc t s = Ok (1 + Z.of_nat (length G), s') /\ fsinv s' C' (G ++ [(new_inode t (1 + Z.of_nat (length G)), [])]) /\ freeblock s' = freeblock s.
Proof.
  intros [M1 [M2 M2'] M3 M4 M6 M5] HG Ht. unfold ialloc. rewrite run_get, M2. set (n := 1 + Z.of_nat (length G)) in *. rewrite u32_small by lia. rewrite (xshort_id t), (xshort_id 1), (xint_id 0) by lia. fold (new_inode t n). set (i := new_inode t n).
  set (s1 := mkstate _ _ _ _ _). assert (R1 : put s1 s = Ok (tt, s1)) by done. step R1. pose proof (inv_next s C (n + 1) M1) as H1. fold s1 in H1. pose proof (v_fb _ _ M1) as Hfb.
  assert (Hn : inum_ok sb0 n) by (unfold inum_ok; change (Log.ninodes sb0) with 200; lia). assert (Hshort : short t) by (unfold short; lia).
  pose proof (new_holds C (freeblock s) t n Hn Hshort (v_disk _ _ M1)) as Hh. fold i in Hh. destruct (winode_run s1 C n i H1 ltac:(lia) eq_refl (h_ok _ _ _ _ Hh)) as (s2 & R2 & H2 & Ef & Ei). step R2.
  set (C2 := iupdated sb0 i C) in *. exists s2, C2. split; [done|]. split; [|done]. pose proof (IBLOCK0 n ltac:(lia)) as [_ HI].
  assert (HC : forall b, b <> IBLOCK n sb0 -> C2 b = C b) by (intros b Hb; by apply fupd_ne).
  assert (HK : slots_kept C C2 n).
  { apply slots_kept_intro; [lia|intros b _; apply HC|]. intros j Hj. unfold C2, iupdated. change (inum i) with n. rewrite fupd_eq. by apply rd_dinode_store. }
  assert (HO : forall k' i1 c1 b, G !! k' = Some (i1, c1) -> own C i1 b -> C2 b = C b).
  { intros k' i1 c1 b Hk' Ho. destruct (M3 k' i1 c1 Hk') as (Hh1 & _). pose proof (own_range _ _ _ _ (h_file _ _ _ _ Hh1) ltac:(lia) Ho). apply HC. lia. }
  assert (HN : forall b, ~ own C2 i b).
  { intros b Hb. pose proof (f_own _ _ _ _ (h_file _ _ _ _ Hh) b Hb) as _. destruct Hb as [Hb [E|(m & _ & E)]]; [by rewrite no_addrs in E|]. unfold baddr in E. rewrite !no_addrs in E by done. by destruct (m <? NDIRECT). }
  split; [done|rewrite length_app; cbn [length]; rewrite Ei; cbn [freeinode s1]; lia| | | |].
  - rewrite Ef. intros k i1 c1 [Hk|[Hk1 Hk2]]%lookup_app_Some.
    + destruct (M3 k i1 c1 Hk) as (Hh1 & Hd1 & Hn1). pose proof (lookup_lt_Some _ _ _ Hk). split; [|done]. eapply (holds_kept C C2 _ _ n); [exact Hh1|exact Hd1|lia|lia|done|by intros b; apply (HO k i1 c1)|cbn; lia].
    + apply list_lookup_singleton_Some in Hk2 as [E [= <- <-]]. assert (k = length G) as -> by lia. split; [exact Hh|]. done.
  - intros k1 k2 i1 c1 i2 c2 b [Hk1|[Hk1 Hk1']]%lookup_app_Some [Hk2|[Hk2 Hk2']]%lookup_app_Some Ho1 Ho2.
    + destruct (M3 k1 i1 c1 Hk1) as (Hh1 & _). destruct (M3 k2 i2 c2 Hk2) as (Hh2 & _).
      destruct (file_ext sb0 C C2 _ i1 (h_file _ _ _ _ Hh1)) as (_ & _ & _ & E1); [by intros b'; apply (HO k1 i1 c1)|]. destruct (file_ext sb0 C C2 _ i2 (h_file _ _ _ _ Hh2)) as (_ & _ & _ & E2); [by intros b'; apply (HO k2 i2 c2)|].
      rewrite E1 in Ho1. rewrite E2 in Ho2. by apply (M4 k1 k2 i1 c1 i2 c2 b).
    + apply list_lookup_singleton_Some in Hk2' as [_ [= <- <-]]. by destruct (HN b).
    + apply list_lookup_singleton_Some in Hk1' as [_ [= <- <-]]. by destruct (HN b).
    + apply list_lookup_singleton_Some in Hk1' as [? _]. apply list_lookup_singleton_Some in Hk2' as [? _]. lia.
  - rewrite Ef. intros b Hb. destruct (M6 b Hb) as (k1 & i1 & c1 & Hk1 & Ho). exists k1, i1, c1. split; [by apply lookup_app_l_Some|].
    destruct (M3 k1 i1 c1 Hk1) as (Hh1 & _). destruct (file_ext sb0 C C2 _ i1 (h_file _ _ _ _ Hh1)) as (_ & _ & _ & E1); [by intros b'; apply (HO k1 i1 c1)|by apply E1].
  - intros n' j Hn' Hj. rewrite Ei in Hn'. cbn [freeinode s1] in Hn'. rewrite HK by lia. apply M5; lia.
Qed.

(** ** The empty file system *)

Lemma clear_run m : forall i s, 0 <= i -> i + Z.of_nat m <= 1000 -> (forall b, img s b = zero_block) -> nsec s <= i + Z.of_nat m ->
  exists s', clear_sectors m i s = Ok (tt, s') /\ (forall b, img s' b = zero_block) /\ ((0 < m)%nat -> nsec s' = i + Z.of_nat m) /\ sb s' = sb s /\ freeinode s' = freeinode s /\ freeblock s' = freeblock s.
Proof.
  induction m as [|m IH]; intros i s Hi Hm Hz Hn; cbn [clear_sectors]; [exists s; split_and!; try done; lia|].
  set (s1 := mkstate (fupd (sector i) zero_block (img s)) (Z.max (nsec s) (sector i + 1)) (sb s) (freeinode s) (freeblock s)).
  assert (R1 : wsect i zero_block s = Ok (tt, s1)) by done. step R1. assert (Es : sector i = i) by (apply sector_id; lia).
  destruct (IH (i + 1) s1) as (s' & R & Hz' & Hn' & E1 & E2 & E3); [lia|lia|intros b; cbn [s1 img]; unfold fupd; by destruct (b =? _)|cbn [s1 nsec]; rewrite Es; lia|].
  exists s'. split_and!; [done..| |done|done|done]. intros _. destruct m as [|m]; [|rewrite Hn' by lia; lia]. cbn in R. injection R as <-. cbn [s1 nsec]. rewrite Es. lia.
Qed.

#[local] Transparent zero_block.

Lemma bits59_used : forallb (fun b => Bool.eqb (negb (bit_free (used_bits 59) b)) (b <? 59)) (seqZ 0 1000) = true.
Proof. vm_compute. reflexivity. Qed.

Lemma bits59_ok : block_okb (used_bits 59) = true.
Proof. vm_compute. reflexivity. Qed.

Lemma sb_block_eq : sb_store sb0 = sb_block /\ sb_load (sb_store sb0) = sb0 /\ block_okb (sb_store sb0) = true.
Proof. vm_compute. done. Qed.

#[local] Opaque zero_block.

Lemma disk_empty C : (forall b, b <> 1 -> b <> 58 -> C b = zero_block) -> C 1 = sb_store sb0 -> C 58 = used_bits 59 -> disk sb0 C (Free 59).
Proof.
  intros H0 H1 H58. split.
  - intros b _. destruct (decide (b = 1)) as [->|]; [rewrite H1; apply block_okb_ok, sb_block_eq|]. destruct (decide (b = 58)) as [->|]; [rewrite H58; apply block_okb_ok, bits59_ok|]. rewrite H0 by done. apply zero_ok.
  - rewrite H1. apply sb_block_eq.
  - intros b Hb%elem_of_Free. unfold data. change (dstart sb0) with 59. change (Log.sb_size sb0) with 1000. lia.
  - intros b Hb. change (Log.sb_size sb0) with 1000 in Hb. unfold used. replace (BBLOCK b sb0) with 58 by (unfold BBLOCK, BPB, BSIZE; cbn; rewrite Z.div_small by lia; done).
    rewrite H58. replace (b mod BPB) with b by (symmetry; apply Z.mod_small; unfold BPB, BSIZE; lia). pose proof bits59_used as Hf. rewrite forallb_forall in Hf.
    specialize (Hf b ltac:(apply list_elem_of_In, elem_of_seqZ; lia)). apply Bool.eqb_prop in Hf. rewrite Hf. clear Hf H0 H1 H58.
    destruct (Z.ltb_spec b 59); [rewrite bool_decide_eq_false_2 by (rewrite elem_of_Free; lia)|rewrite bool_decide_eq_true_2 by (rewrite elem_of_Free; lia)]; reflexivity.
Qed.

Lemma super_run : exists s C, initialize_superblock init = Ok (tt, s) /\ fsinv s C [] /\ freeblock s = 59.
Proof.
  unfold initialize_superblock. change (Log.mksb _ _ _ _ _ _ _) with sb0. change (2 + nlog + ninodeblocks + nbitmap) with 59.
  set (s1 := mkstate (img init) (nsec init) sb0 (freeinode init) 59). assert (R1 : modify (fun s => mkstate (img s) (nsec s) sb0 (freeinode s) 59) init = Ok (tt, s1)) by done. step R1.
  destruct (clear_run (Z.to_nat FSSIZE) 0 s1) as (s2 & R2 & Hz & Hn & E1 & E2 & E3); [lia|done|done|done|]. step R2. specialize (Hn ltac:(unfold FSSIZE; lia)).
  set (s3 := mkstate (fupd 1 (sb_store sb0) (img s2)) 1000 (sb s2) (freeinode s2) (freeblock s2)).
  assert (R3 : wsect 1 (sb_store sb0) s2 = Ok (tt, s3)) by (unfold wsect, modify; change (sector 1) with 1; rewrite Hn; done).
  exists s3, (fupd 58 (used_bits 59) (fupd 1 (sb_store sb0) (img s2))). split; [exact R3|]. split; [|done].
  assert (Hz1 : forall b, b <> 1 -> fupd 1 (sb_store sb0) (img s2) b = zero_block) by (intros b Hb; by rewrite fupd_ne).
  split; cbn [sb nsec freeblock freeinode img s3]; [|by rewrite E2|done|done|rewrite E3; cbn; lia|].
  - split; cbn [sb nsec freeblock freeinode img s3]; rewrite ?E1, ?E3; cbn [sb freeblock s1]; [done|done|lia|intros b Hb; by rewrite fupd_ne|by rewrite fupd_eq| |intros b Hb; apply Hz1; lia|intros b Hb; apply Hz1; lia].
    apply disk_empty; [intros b Hb1 Hb2; rewrite fupd_ne by done; by apply Hz1|by rewrite fupd_ne, fupd_eq by done|by rewrite fupd_eq].
  - intros n j Hn' Hj. rewrite E2 in Hn'. cbn in Hn'. pose proof (IBLOCK0 n ltac:(lia)) as [_ HI]. rewrite fupd_ne, Hz1 by lia. apply rd_zero.
Qed.

(** ** The files *)

Lemma copy_run fuel : forall s C G k i c data, fsinv s C G -> G !! k = Some (i, c) -> bytes data -> Z.of_nat (length (c ++ data)) <= MAXFILE * BSIZE ->
  Z.of_nat (length data) <= BSIZE * Z.of_nat fuel ->
  freeblock s + need (blocks (Z.of_nat (length (c ++ data)))) - need (blocks (Z.of_nat (length c))) <= 1000 ->
  exists s' C' i', copy_loop fuel (1 + Z.of_nat k) data s = Ok (tt, s') /\ fsinv s' C' (<[k := (i', c ++ data)]> G) /\ itype i' = itype i /\
    freeblock s' = freeblock s + need (blocks (Z.of_nat (length (c ++ data)))) - need (blocks (Z.of_nat (length c))).
Proof.
  induction fuel as [|fuel IH]; intros s C G k i c data HG Hk Hd Hmax Hfu Hroom;
    (destruct (decide (data = [])) as [->|Hne]; [exists s, C, i; rewrite app_nil_r; split; [done|]; rewrite list_insert_id by done; split_and!; [done..|lia]|]).
  { destruct data; [done|]. cbn in Hfu. lia. }
  assert (Elen : (length (c ++ data) = length c + length data)%nat) by apply length_app. set (l := take (Z.to_nat BSIZE) data). set (q := drop (Z.to_nat BSIZE) data).
  assert (El : c ++ data = (c ++ l) ++ q) by (unfold l, q; by rewrite <- app_assoc, take_drop). assert (Hl : (length (c ++ l) <= length (c ++ data))%nat) by (rewrite !length_app; unfold l; rewrite length_take; lia).
  assert (Hmono : need (blocks (Z.of_nat (length (c ++ l)))) <= need (blocks (Z.of_nat (length (c ++ data))))) by (apply need_mono; unfold blocks; apply Z.div_le_mono; lia).
  destruct (fs_append s C G k i c l HG Hk) as (s1 & C1 & i1 & R1 & H1 & Et1 & Ef1); [by apply Forall_take|lia|lia|]. pose proof (lookup_lt_Some _ _ _ Hk) as Hlt.
  destruct (IH s1 C1 _ k i1 (c ++ l) q H1) as (s2 & C2 & i2 & R2 & H2 & Et2 & Ef2); [by apply list_lookup_insert_eq|by apply Forall_drop|by rewrite <- El|unfold q; rewrite length_drop; unfold BSIZE in *; lia|rewrite <- El; lia|].
  rewrite <- El in *. rewrite list_insert_insert_eq in H2. exists s2, C2, i2. split; [|split_and!; [done|congruence|lia]].
  destruct data as [|x data]; [done|]. cbn [copy_loop]. fold l. step R1. exact R2.
Qed.

(** The blocks of a file of [n] bytes. *)
Definition cost (n : Z) : Z := need (blocks n).

Lemma cost_mono a b : a <= b -> cost a <= cost b.
Proof. intros H. apply need_mono. unfold blocks. apply Z.div_le_mono; lia. Qed.

Lemma cost_nonneg n : 0 <= n -> 0 <= cost n.
Proof. intros H. change 0 with (cost 0). by apply cost_mono. Qed.

Fixpoint costs (fs : list (list Z * list Z)) : Z :=
  match fs with [] => 0 | f :: fs' => cost (Z.of_nat (length f.2)) + costs fs' end.

Lemma costs_nonneg fs : 0 <= costs fs.
Proof. induction fs as [|f fs IH]; cbn [costs]; [lia|]. pose proof (cost_nonneg (Z.of_nat (length f.2))). lia. Qed.

(** The entries of the files, from inode [n] on. *)
Fixpoint ents (n : Z) (fs : list (list Z * list Z)) : list Z :=
  match fs with [] => [] | f :: fs' => new_entry (dispname f.1) n ++ ents (n + 1) fs' end.

(** A file that fits. *)
Definition fits (f : list Z * list Z) : Prop := bytes (dispname f.1) /\ bytes f.2 /\ Z.of_nat (length f.2) <= MAXFILE * BSIZE.

Lemma insert_last {A} (l : list A) x y : <[length l := x]> (l ++ [y]) = l ++ [x].
Proof. rewrite insert_app_r_alt by done. by rewrite Nat.sub_diag. Qed.

Lemma entry_run s C root d G name n : fsinv s C ((root, d) :: G) -> bytes name -> 0 <= n < 2 ^ 16 -> Z.of_nat (length d) + 16 <= MAXFILE * BSIZE ->
  freeblock s + cost (Z.of_nat (length d) + 16) - cost (Z.of_nat (length d)) <= 1000 ->
  exists s' C' root', iappend 1 (de_make (xshort n) (strncpy (Z.to_nat DIRSIZ) name)) s = Ok (tt, s') /\ fsinv s' C' ((root', d ++ new_entry name n) :: G) /\ itype root' = itype root /\
    freeblock s' = freeblock s + cost (Z.of_nat (length d) + 16) - cost (Z.of_nat (length d)).
Proof.
  intros HG Hname Hn Hmax Hroom. rewrite xshort_id by done. fold (new_entry name n). destruct (new_entry_ok name n Hname Hn) as (Hb & Hlen & _).
  assert (El : Z.of_nat (length (d ++ new_entry name n)) = Z.of_nat (length d) + 16) by (rewrite length_app, Hlen; change (Z.to_nat DIRENT) with 16%nat; lia).
  destruct (fs_append s C ((root, d) :: G) 0 root d (new_entry name n) HG eq_refl Hb) as (s' & C' & r' & R & H' & Et & Ef); [lia|rewrite El; exact Hroom|].
  exists s', C', r'. split; [exact R|]. rewrite El in Ef. by split_and!.
Qed.

Lemma add_file_run s C root d G f : fsinv s C ((root, d) :: G) -> fits f -> Z.of_nat (length G) < 198 -> Z.of_nat (length d) + 16 <= MAXFILE * BSIZE ->
  freeblock s + cost (Z.of_nat (length d) + 16) - cost (Z.of_nat (length d)) + cost (Z.of_nat (length f.2)) <= 1000 ->
  exists s' C' root' i, add_file f.1 (Some f.2) 1 s = Ok (0, s') /\ fsinv s' C' ((root', d ++ new_entry (dispname f.1) (2 + Z.of_nat (length G))) :: G ++ [(i, f.2)]) /\ itype root' = itype root /\ itype i = T_FILE /\
    freeblock s' = freeblock s + cost (Z.of_nat (length d) + 16) - cost (Z.of_nat (length d)) + cost (Z.of_nat (length f.2)).
Proof.
  intros HG (Hname & Hdata & Hsize) HGlen Hmax Hroom. pose proof (cost_nonneg (Z.of_nat (length f.2)) ltac:(lia)) as Hc. unfold add_file.
  destruct (fs_ialloc s C _ T_FILE HG) as (s1 & C1 & R1 & H1 & Ef1); [cbn; lia|done|]. step R1. cbn [length] in R1, H1 |- *. replace (1 + Z.of_nat (S (length G))) with (2 + Z.of_nat (length G)) in * by lia. set (n := 2 + Z.of_nat (length G)) in *.
  unfold u16. rewrite (Z.mod_small n) by lia. destruct (entry_run s1 C1 root d (G ++ [(new_inode T_FILE n, [])]) (dispname f.1) n H1 Hname ltac:(lia) Hmax ltac:(lia)) as (s2 & C2 & r2 & R2 & H2 & Et2 & Ef2). step R2.
  destruct (copy_run (blocks_fuel (Z.of_nat (length f.2))) s2 C2 _ (S (length G)) (new_inode T_FILE n) [] f.2 H2) as (s3 & C3 & i3 & R3 & H3 & Et3 & Ef3).
  - change ((G ++ [(new_inode T_FILE n, [])]) !! length G = Some (new_inode T_FILE n, [])). rewrite lookup_app_r by done. by rewrite Nat.sub_diag.
  - done.
  - done.
  - unfold blocks_fuel, BSIZE. Z.to_euclidean_division_equations. lia.
  - cbn [app length]. change (need (blocks (Z.of_nat 0))) with 0. fold (cost (Z.of_nat (length f.2))). lia.
  - replace (1 + Z.of_nat (S (length G))) with n in R3 by lia. step R3. cbn [app length] in *. change (need (blocks (Z.of_nat 0))) with 0 in Ef3. fold (cost (Z.of_nat (length f.2))) in Ef3.
    exists s3, C3, r2, i3. split; [done|]. split; [|split_and!; [done..|lia]]. change (<[S (length G) := ?x]> (?r :: ?l)) with (r :: <[length G := x]> l) in H3. by rewrite insert_last in H3.
Qed.

Definition given (fs : list (list Z * list Z)) : list (list Z * option (list Z)) := map (fun f => (f.1, Some f.2)) fs.

Lemma add_files_run fs : forall s C root d G, fsinv s C ((root, d) :: G) -> Forall fits fs -> Z.of_nat (length G) + Z.of_nat (length fs) < 199 ->
  Z.of_nat (length d) + 16 * Z.of_nat (length fs) <= MAXFILE * BSIZE ->
  freeblock s + cost (Z.of_nat (length d) + 16 * Z.of_nat (length fs)) - cost (Z.of_nat (length d)) + costs fs <= 1000 ->
  exists s' C' root' FG, add_files (given fs) 1 s = Ok (0, s') /\ fsinv s' C' ((root', d ++ ents (2 + Z.of_nat (length G)) fs) :: G ++ FG) /\ itype root' = itype root /\
    Forall2 (fun f x => x.2 = f.2 /\ itype x.1 = T_FILE) fs FG /\ freeblock s' = freeblock s + cost (Z.of_nat (length d) + 16 * Z.of_nat (length fs)) - cost (Z.of_nat (length d)) + costs fs.
Proof.
  induction fs as [|f fs IH]; intros s C root d G HG Hf Hlen Hmax Hroom; cbn [length costs] in *.
  - exists s, C, root, []. cbn [ents]. rewrite !app_nil_r. split; [done|]. split_and!; [done..|constructor|]. replace (Z.of_nat (length d) + 16 * Z.of_nat 0) with (Z.of_nat (length d)) by lia. lia.
  - apply Forall_cons in Hf as [Hf Hfs]. pose proof (costs_nonneg fs) as Hcs. pose proof (cost_mono (Z.of_nat (length d) + 16) (Z.of_nat (length d) + 16 * Z.of_nat (S (length fs))) ltac:(lia)) as Hcm.
    destruct (add_file_run s C root d G f HG Hf) as (s1 & C1 & r1 & i1 & R1 & H1 & Et1 & Ei1 & Ef1); [lia..|].
    destruct (new_entry_ok (dispname f.1) (2 + Z.of_nat (length G)) (proj1 Hf) ltac:(lia)) as (_ & He & _). change (Z.to_nat DIRENT) with 16%nat in He.
    destruct (IH s1 C1 r1 _ _ H1 Hfs) as (s2 & C2 & r2 & FG & R2 & H2 & Et2 & HF & Ef2); [rewrite length_app; cbn; lia|rewrite length_app, He; lia|..].
    + rewrite length_app, He, Nat2Z.inj_add. replace (Z.of_nat (length d) + Z.of_nat 16 + 16 * Z.of_nat (length fs)) with (Z.of_nat (length d) + 16 * Z.of_nat (S (length fs))) by lia. change (Z.of_nat 16) with 16. lia.
    + rewrite !length_app, He, !Nat2Z.inj_add in *. replace (Z.of_nat (length d) + Z.of_nat 16 + 16 * Z.of_nat (length fs)) with (Z.of_nat (length d) + 16 * Z.of_nat (S (length fs))) in Ef2 by lia. change (Z.of_nat 16) with 16 in Ef2.
      exists s2, C2, r2, ((i1, f.2) :: FG). split; [|split_and!; [|congruence|by constructor|lia]].
      * cbn [given map add_files]. step R1. exact R2.
      * cbn [ents]. rewrite <- !app_assoc in H2. cbn [app length] in H2. replace (2 + (Z.of_nat (length G) + Z.of_nat 1)) with (2 + Z.of_nat (length G) + 1) in H2 by lia. exact H2.
Qed.

End MkfsThm.
