(* ===== verification/MkfsImage.v ===== *)
(** * The image of mkfs, and a kernel that boots from it *)

From Stdlib Require Import ZArith Lia.
From stdpp Require Import base numbers strings list gmap.
From S2P Require Import Prelude Block Bio BufView Log LogSpec LogTx BlockIO LogIO Fs FsBlk FsMap FsRw FsInode FsDir FsImage FsOp FsWrote Mkfs MkfsThm.

Open Scope Z_scope.

Import Block BufView BlockIO LogIO Fs FsBlk FsMap FsRw FsDir FsImage.

Module MkfsImage.

Import Mkfs MkfsThm.

#[local] Opaque zero_block.

#[local] Existing Instance io0.

(** The inode [n] that is on the disk [D]. *)
Definition on_disk (D : Z -> block) (n : Z) : inode := dinode_load (ioff n) (D (IBLOCK n sb0)) (dinode0 n).

(** The entries of the root directory. *)
Fixpoint elist (n : Z) (fs : list (list Z * list Z)) : list (list Z * Z) :=
  match fs with [] => [] | f :: fs' => (dispname f.1, n) :: elist (n + 1) fs' end.
Definition entries (fs : list (list Z * list Z)) : list (list Z * Z) := ([DOT], 1) :: ([DOT; DOT], 1) :: elist 2 fs.

Definition root_bytes (fs : list (list Z * list Z)) : list Z := new_entry [DOT] 1 ++ new_entry [DOT; DOT] 1 ++ ents 2 fs.

Definition root_len (fs : list (list Z * list Z)) : Z := 16 * (Z.of_nat (length fs) + 2).

(** The disk [D], of which the blocks from [fb] on are free, has the files [fs]
    in its root directory, and nothing else. *)
Record image (D : Z -> block) (fb : Z) (fs : list (list Z * list Z)) : Prop := {
  im_disk : disk sb0 D (Free fb);
  im_root : let r := on_disk D 1 in
    itype r = T_DIR /\ nlink r = 1 /\ isize r = (root_len fs / BSIZE + 1) * BSIZE /\ file sb0 D (Free fb) r /\
    (full D r <-> root_len fs mod BSIZE <> 0) /\ (forall x, 0 <= x < isize r -> fbyte D r x = rd (root_bytes fs) x);
  im_file : forall k f, fs !! k = Some f -> let i := on_disk D (2 + Z.of_nat k) in
    itype i = T_FILE /\ nlink i = 1 /\ isize i = Z.of_nat (length f.2) /\ file sb0 D (Free fb) i /\ full D i /\ fbytes D i 0 (isize i) = f.2;
  im_cover : forall b, 59 <= b < fb -> exists n, 1 <= n < 2 + Z.of_nat (length fs) /\ own D (on_disk D n) b;
  im_apart : forall n n' b, 1 <= n < 2 + Z.of_nat (length fs) -> 1 <= n' < 2 + Z.of_nat (length fs) -> own D (on_disk D n) b -> own D (on_disk D n') b -> n = n';
  im_free : forall n, 2 + Z.of_nat (length fs) <= n < 200 -> itype (on_disk D n) = 0
}.

Lemma length_ents fs : forall n, Forall fits fs -> 0 <= n -> n + Z.of_nat (length fs) <= 2 ^ 16 -> Z.of_nat (length (ents n fs)) = 16 * Z.of_nat (length fs).
Proof.
  induction fs as [|f fs IH]; intros n Hf Hn Hle; [done|]. apply Forall_cons in Hf as [[Hf _] Hfs]. cbn [ents length] in *. rewrite length_app.
  destruct (new_entry_ok (dispname f.1) n Hf ltac:(lia)) as (_ & -> & _). change (Z.to_nat DIRENT) with 16%nat. rewrite Nat2Z.inj_add, IH by (done || lia). lia.
Qed.

Lemma length_root fs : Forall fits fs -> Z.of_nat (length fs) < 199 -> Z.of_nat (length (root_bytes fs)) = root_len fs.
Proof.
  intros Hf Hn. unfold root_bytes. rewrite !length_app. change (length (new_entry [DOT] 1)) with 16%nat. change (length (new_entry [DOT; DOT] 1)) with 16%nat.
  pose proof (length_ents fs 2 Hf). unfold root_len. lia.
Qed.

Lemma on_disk_sync C n i : synced sb0 C i -> dino n i -> on_disk C n = i.
Proof. intros Hs Hd. unfold synced in Hs. rewrite (dino_inum _ _ Hd) in Hs. unfold on_disk. etrans; [|exact Hs]. by rewrite <- Hd. Qed.

Definition entry_bytes (e : list Z * Z) : list Z := new_entry e.1 e.2.

Lemma root_entries fs : root_bytes fs = concat (map entry_bytes (entries fs)).
Proof.
  unfold root_bytes, entries. cbn [map concat]. f_equal. f_equal. generalize 2. induction fs as [|f fs IH]; intros n; [done|]. cbn [ents elist map concat]. by rewrite IH.
Qed.

Lemma length_elist fs n : length (elist n fs) = length fs.
Proof. revert n. induction fs as [|f fs IH]; intros n; cbn; [done|]. by rewrite IH. Qed.

Lemma elist_lookup fs : forall n k f, fs !! k = Some f -> elist n fs !! k = Some (dispname f.1, n + Z.of_nat k).
Proof.
  induction fs as [|g fs IH]; intros n k f Hk; [done|]. destruct k as [|k]; cbn in Hk |- *; [injection Hk as ->; do 2 f_equal; lia|]. rewrite (IH _ _ _ Hk). do 2 f_equal. lia.
Qed.

Lemma elist_in fs : forall n e, e ∈ elist n fs -> exists f, f ∈ fs /\ e.1 = dispname f.1 /\ n <= e.2 < n + Z.of_nat (length fs).
Proof.
  induction fs as [|g fs IH]; intros n e He; cbn in He; [by apply elem_of_nil in He|]. apply elem_of_cons in He as [->|He]; [exists g; cbn; split_and!; [by left|done|lia|lia]|].
  destruct (IH _ _ He) as (f & Hf & E & Hr). exists f. cbn [length]. split_and!; [by right|done|lia|lia].
Qed.

Lemma entries_ok fs e : Forall fits fs -> Z.of_nat (length fs) < 199 -> e ∈ entries fs -> bytes e.1 /\ 0 < e.2 < 2 ^ 16.
Proof.
  intros Hf Hn [->|[->|(f & Hin & -> & Hr)%elist_in]%elem_of_cons]%elem_of_cons; [split; [by repeat constructor|done]..|]. split; [|lia]. eapply Forall_forall in Hf; [|exact Hin]. apply Hf.
Qed.

(** ** The root directory *)

Lemma root_run : exists s0 s C r, initialize_superblock init = Ok (tt, s0) /\ initialize_rootino s0 = Ok (1, s) /\ fsinv s C [(r, new_entry [DOT] 1 ++ new_entry [DOT; DOT] 1)] /\ itype r = T_DIR /\ freeblock s = 60.
Proof.
  destruct super_run as (s0 & C0 & R0 & H0 & E0). exists s0. unfold initialize_rootino.
  destruct (fs_ialloc s0 C0 [] T_DIR H0) as (s1 & C1 & R1 & H1 & E1); [done|done|]. step R1. change (u16 (1 + Z.of_nat (length []))) with 1. change (1 =? ROOTINO) with true. cbv iota. cbn [app] in H1.
  destruct (entry_run s1 C1 (new_inode T_DIR 1) [] [] [DOT] 1 H1) as (s2 & C2 & r2 & R2 & H2 & T2 & E2); [by repeat constructor|done|done|rewrite E1, E0; done|]. step R2.
  destruct (entry_run s2 C2 r2 _ [] [DOT; DOT] 1 H2) as (s3 & C3 & r3 & R3 & H3 & T3 & E3); [by repeat constructor|done|done|rewrite E2, E1, E0; done|]. step R3.
  exists s3, C3, r3. split; [done|]. split; [done|]. split; [done|]. split; [by rewrite T3, T2|]. rewrite E3, E2, E1, E0. done.
Qed.

Definition used_end (fs : list (list Z * list Z)) : Z := 59 + cost (root_len fs) + costs fs.

Lemma files_run fs : Forall fits fs -> Z.of_nat (length fs) < 199 -> used_end fs <= 1000 ->
  exists s0 s1 s C r FG, initialize_superblock init = Ok (tt, s0) /\ initialize_rootino s0 = Ok (1, s1) /\ add_files (given fs) 1 s1 = Ok (0, s) /\
    fsinv s C ((r, root_bytes fs) :: FG) /\ itype r = T_DIR /\ Forall2 (fun f x => x.2 = f.2 /\ itype x.1 = T_FILE) fs FG /\ freeblock s = used_end fs.
Proof.
  intros Hf Hn Hu. destruct root_run as (s' & s0 & C0 & r0 & R' & R0 & H0 & T0 & E0). unfold used_end, root_len in *.
  destruct (add_files_run fs s0 C0 r0 _ [] H0 Hf) as (s1 & C1 & r1 & FG & R1 & H1 & T1 & HF & E1); [cbn; lia|..].
  - rewrite length_app. change (length (new_entry [DOT] 1) + length (new_entry [DOT; DOT] 1))%nat with 32%nat. rewrite MAXFILE_eq. unfold BSIZE. lia.
  - rewrite length_app. change (length (new_entry [DOT] 1) + length (new_entry [DOT; DOT] 1))%nat with 32%nat. change (cost (Z.of_nat 32)) with 1.
    replace (Z.of_nat 32 + 16 * Z.of_nat (length fs)) with (16 * (Z.of_nat (length fs) + 2)) by lia. lia.
  - rewrite length_app in E1. change (length (new_entry [DOT] 1) + length (new_entry [DOT; DOT] 1))%nat with 32%nat in E1. change (cost (Z.of_nat 32)) with 1 in E1.
    replace (Z.of_nat 32 + 16 * Z.of_nat (length fs)) with (16 * (Z.of_nat (length fs) + 2)) in E1 by lia.
    exists s', s0, s1, C1, r1, FG. split_and!; [done..|unfold root_bytes; rewrite app_assoc; exact H1|congruence|done|lia].
Qed.

(** ** The finished image *)

Section Finish.

Context (s : state) (C D : Z -> block) (r : inode) (FG : list (inode * list Z)) (fs : list (list Z * list Z)) (off : Z).
Context (HG : fsinv s C ((r, root_bytes fs) :: FG)) (Ht : itype r = T_DIR) (HF : Forall2 (fun f x => x.2 = f.2 /\ itype x.1 = T_FILE) fs FG).
Context (Hfits : Forall fits fs) (Hn : Z.of_nat (length fs) < 199) (Hoff : off = (root_len fs / BSIZE + 1) * BSIZE).
Context (HD : forall b, D b = iupdated sb0 (set_size off r) C b).

Lemma root_facts : holds C (freeblock s) r (root_bytes fs) /\ dino 1 r /\ nlink r = 1 /\ IBLOCK 1 sb0 = 32 /\ length FG = length fs /\ 59 <= freeblock s <= 1000.
Proof.
  destruct (m_file _ _ _ HG 0%nat r (root_bytes fs) eq_refl) as (H1 & H2 & H3). split_and!; [done..| |by symmetry; eapply Forall2_length|apply (v_fb _ _ (m_inv _ _ _ HG))|apply (v_fb _ _ (m_inv _ _ _ HG))].
  vm_compute. reflexivity.
Qed.

Lemma D_other b : b <> 32 -> D b = C b.
Proof. intros Hb. destruct root_facts as (_ & Hd & _ & EI & _). rewrite HD. unfold iupdated. change (inum (set_size off r)) with (inum r). rewrite (dino_inum _ _ Hd), EI. by apply fupd_ne. Qed.

Lemma D_slots : slots_kept C D 1.
Proof.
  destruct root_facts as (Hh & Hd & _ & EI & _). apply slots_kept_intro; [lia| |].
  - intros b _. rewrite EI. apply D_other.
  - intros j Hj. rewrite HD. unfold iupdated. change (inum (set_size off r)) with (inum r). rewrite (dino_inum _ _ Hd), fupd_eq. apply rd_dinode_store; [|done]. apply (f_len _ _ _ _ (h_file _ _ _ _ Hh)).
Qed.

Lemma off_ok : 0 <= off < 2 ^ 32 /\ off <= MAXFILE * BSIZE.
Proof. rewrite Hoff, MAXFILE_eq. unfold root_len, BSIZE. Z.to_euclidean_division_equations. lia. Qed.

Lemma D_root : on_disk D 1 = set_size off r.
Proof.
  destruct root_facts as (Hh & Hd & _ & EI & _ & Hfb). pose proof off_ok as Ho. apply on_disk_sync; [|by rewrite <- Hd].
  assert (Hs : synced sb0 (iupdated sb0 (set_size off r) C) (set_size off r)).
  { apply (iupdated_synced sb0 lay C (Free (freeblock s))); [apply (v_disk _ _ (m_inv _ _ _ HG))|change (inum (set_size off r)) with (inum r); by rewrite (dino_inum _ _ Hd)|]. destruct (h_ok _ _ _ _ Hh). split; try done. cbn [isize set_size]. lia. }
  unfold synced in *. by rewrite HD.
Qed.

(** The files are as they were. *)
Lemma D_file k i c : FG !! k = Some (i, c) -> holds D (freeblock s) i c /\ on_disk D (2 + Z.of_nat k) = i /\ nlink i = 1 /\ (forall b, own D i b <-> own C i b).
Proof.
  intros Hk. destruct root_facts as (_ & _ & _ & _ & EL & Hfb). destruct (m_file _ _ _ HG (S k) i c Hk) as (Hh & Hd & Hl). pose proof (lookup_lt_Some _ _ _ Hk).
  replace (1 + Z.of_nat (S k)) with (2 + Z.of_nat k) in Hd by lia.
  assert (HO : forall b, own C i b -> D b = C b) by (intros b Hb; pose proof (own_range _ _ _ _ (h_file _ _ _ _ Hh) ltac:(lia) Hb); apply D_other; lia).
  assert (HD' : holds D (freeblock s) i c) by (eapply (holds_kept C D _ _ 1); [exact Hh|exact Hd|lia|lia|apply D_slots|done|lia]).
  split_and!; [done|apply on_disk_sync; [apply HD'|done]|done|]. apply (file_ext sb0 C D _ i (h_file _ _ _ _ Hh) HO).
Qed.

Lemma D_root_file : file sb0 D (Free (freeblock s)) (set_size off r) /\ (forall b, own D (set_size off r) b <-> own C r b) /\
  exact D (set_size off r) (blocks (root_len fs)) /\ (forall x, 0 <= x < MAXFILE * BSIZE -> fbyte D (set_size off r) x = rd (root_bytes fs) x).
Proof.
  destruct root_facts as (Hh & _ & _ & _ & _ & Hfb).
  destruct (file_ext sb0 C D _ r (h_file _ _ _ _ Hh)) as (Hf & HB & Hby & Ho); [intros b Hb; pose proof (own_range _ _ _ _ (h_file _ _ _ _ Hh) ltac:(lia) Hb); apply D_other; lia|].
  split_and!; [by destruct Hf|done| |intros x Hx; rewrite <- (h_bytes _ _ _ _ Hh) by done; by apply Hby].
  destruct (h_exact _ _ _ _ Hh) as [X1 X2]. rewrite length_root in X1, X2 by done. split; [|done]. intros k Hk. rewrite <- X1 by done. by rewrite <- HB.
Qed.

Lemma root_full : full D (set_size off r) <-> root_len fs mod BSIZE <> 0.
Proof.
  destruct D_root_file as (_ & _ & [X1 _] & _). destruct off_ok as [_ Ho]. assert (Hlen : 0 <= root_len fs) by (unfold root_len; lia). set (m := root_len fs / BSIZE).
  assert (Hm : bn_ok m) by (unfold bn_ok; rewrite Hoff in Ho; fold m in Ho; unfold m, BSIZE in *; Z.to_euclidean_division_equations; lia). split.
  - intros [_ Hf] E. apply (Hf m); [unfold bn_ok in Hm; lia|cbn; rewrite Hoff; fold m; unfold BSIZE; lia|]. apply X1; [done|]. unfold m, blocks, BSIZE in *. Z.to_euclidean_division_equations. lia.
  - intros E. split; [done|]. cbn [isize set_size]. intros k Hk0 Hk. rewrite X1; [|unfold bn_ok; rewrite MAXFILE_eq in *; unfold BSIZE in *; lia].
    rewrite Hoff in Hk. unfold blocks, BSIZE in *. Z.to_euclidean_division_equations. lia.
Qed.

Lemma D_own n : 1 <= n < 2 + Z.of_nat (length fs) ->
  exists i c, ((r, root_bytes fs) :: FG) !! Z.to_nat (n - 1) = Some (i, c) /\ forall b, own D (on_disk D n) b <-> own C i b.
Proof.
  intros Hr. destruct root_facts as (_ & _ & _ & _ & EL & _). destruct (decide (n = 1)) as [->|Hne].
  - exists r, (root_bytes fs). split; [done|]. rewrite D_root. apply D_root_file.
  - destruct (lookup_lt_is_Some_2 FG (Z.to_nat (n - 2))) as [[i c] Hk]; [lia|]. exists i, c. destruct (D_file _ _ _ Hk) as (_ & Ei & _ & Ho).
    replace (2 + Z.of_nat (Z.to_nat (n - 2))) with n in Ei by lia. rewrite Ei. split; [|done]. by replace (Z.to_nat (n - 1)) with (S (Z.to_nat (n - 2))) by lia.
Qed.

Lemma holds_full i c : holds D (freeblock s) i c -> full D i /\ fbytes D i 0 (isize i) = c.
Proof.
  intros [_ [X1 _] [E Hmax] Hby _ _]. split.
  - split; [lia|]. intros k Hk0 Hk. rewrite X1; [|unfold bn_ok; rewrite MAXFILE_eq in *; unfold BSIZE in *; lia]. unfold blocks, BSIZE in *. Z.to_euclidean_division_equations. lia.
  - rewrite E. apply fbytes_list. intros x Hx. rewrite Z.sub_0_r. apply Hby. lia.
Qed.

Lemma image_finish : image D (freeblock s) fs.
Proof.
  destruct root_facts as (Hh & Hd & Hl & EI & EL & Hfb). pose proof (m_inv _ _ _ HG) as Hv. split.
  - apply (FsWrote.disk_agree sb0 lay (iupdated sb0 (set_size off r) C)); [|by intros b _]. unfold iupdated. change (inum (set_size off r)) with (inum r). rewrite (dino_inum _ _ Hd).
    apply (disk_inode sb0 lay); [apply (v_disk _ _ Hv)|done|]. apply dinode_store_ok, (d_ok _ _ _ (v_disk _ _ Hv)). rewrite EI. right. split; [|done]. done.
  - cbv zeta. rewrite D_root. destruct D_root_file as (Hf & _ & _ & Hby). destruct off_ok as [_ Ho]. split_and!; [done..|apply root_full|]. intros x Hx. apply Hby. cbn in Hx. lia.
  - intros k f Hk. destruct (Forall2_lookup_l _ _ _ _ _ HF Hk) as ([i c] & Hk' & Ec & Et). cbn [fst snd] in Ec, Et. subst c. destruct (D_file k i _ Hk') as (Hh' & Ei & Hl' & _). cbv zeta. rewrite Ei.
    destruct (holds_full i f.2 Hh') as [Hfu Hby]. split_and!; [done|done|apply (h_size _ _ _ _ Hh')|apply (h_file _ _ _ _ Hh')|done|done].
  - intros b Hb. destruct (m_cover _ _ _ HG b Hb) as (k & i & c & Hk & Ho). pose proof (lookup_lt_Some _ _ _ Hk) as Hlt. cbn [length] in Hlt. exists (1 + Z.of_nat k). split; [lia|].
    destruct (D_own (1 + Z.of_nat k) ltac:(lia)) as (i' & c' & Hk' & Ho'). replace (Z.to_nat (1 + Z.of_nat k - 1)) with k in Hk' by lia. rewrite Hk in Hk'. injection Hk' as <- <-. by apply Ho'.
  - intros n n' b Hr Hr' Ho Ho'. destruct (D_own n Hr) as (i & c & Hk & E). destruct (D_own n' Hr') as (i' & c' & Hk' & E'). rewrite E in Ho. rewrite E' in Ho'.
    pose proof (m_apart _ _ _ HG _ _ _ _ _ _ b Hk Hk' Ho Ho'). lia.
  - intros n Hr. destruct (m_next _ _ _ HG) as [Efi _]. cbn [length] in Efi. unfold on_disk. cbn [itype dinode_load]. unfold get16. rewrite !D_slots, !(m_none _ _ _ HG) by lia. done.
Qed.

End Finish.

Lemma mkfs_image fs : Forall fits fs -> Z.of_nat (length fs) < 199 -> used_end fs <= 1000 ->
  exists s, main (given fs) init = Ok (0, s) /\ nsec s = 1000 /\ (forall b, 2 <= b < 32 -> img s b = zero_block) /\ image (img s) (used_end fs) fs.
Proof.
  intros Hf Hn Hu. destruct (files_run fs Hf Hn Hu) as (s0 & s1 & s & C & r & FG & R0 & R1 & R & HG & Ht & HF & Efb). destruct (m_file _ _ _ HG 0%nat r (root_bytes fs) eq_refl) as (Hh & Hd & _).
  pose proof (m_inv _ _ _ HG) as Hv. set (off := (root_len fs / BSIZE + 1) * BSIZE). assert (Hoff : 0 <= off < 2 ^ 32) by apply (off_ok fs off Hn eq_refl).
  assert (Hsz : xint (isize r) = root_len fs).
  { destruct (h_size _ _ _ _ Hh) as [-> Hm]. rewrite MAXFILE_eq in Hm. unfold BSIZE in Hm. rewrite xint_id by lia. by apply length_root. }
  assert (Hok : inode_ok (set_size off r)) by (destruct (h_ok _ _ _ _ Hh); split; try done).
  destruct (winode_run s C 1 (set_size off r) Hv ltac:(lia) (dino_inum _ _ Hd) Hok) as (s2 & R2 & H2 & Ef2 & _). set (C2 := iupdated sb0 (set_size off r) C) in *.
  set (s3 := set_img (fupd 58 (used_bits (Z.to_nat (freeblock s2))) (img s2)) s2).
  assert (R3 : balloc (freeblock s2) s2 = Ok (tt, s3)).
  { unfold balloc. rewrite Ef2, Efb. rewrite (proj2 (Z.ltb_lt _ _)) by (unfold BSIZE; lia). rewrite run_get, (v_sb _ _ H2). change (Log.bmapstart sb0) with 58. rewrite (wsect_run s2 C2) by (done || lia). by rewrite <- Efb, <- Ef2. }
  exists s3. split; [|split; [apply (v_nsec _ _ H2)|split; [intros b Hb; cbn [img s3 set_img]; rewrite fupd_ne by lia; by apply (v_log _ _ H2)|rewrite <- Efb; apply (image_finish s C (img s3) r FG fs off); try done]]].
  - unfold main. step R0. step R1. step R. change (0 =? 0) with true. cbv iota.
    step (rinode_run s C 1 r Hv ltac:(lia) Hd (h_sync _ _ _ _ Hh)). rewrite Hsz. fold off. rewrite xint_id by done. step R2. rewrite run_get. by step R3.
  - intros b. cbn [img s3 set_img]. unfold fupd. destruct (Z.eqb_spec b 58) as [->|Hb]; [symmetry; apply (v_bits _ _ H2)|symmetry; by apply (v_img _ _ H2)].
Qed.

(** Mkfs makes the file system that it is asked for.  Given any files
    that fit on the disk and in their inodes, it ends with code 0 and an image
    of 1000 sectors: the superblock, an empty log, a bitmap in which exactly the
    blocks in use are marked, each of them owned by exactly one inode; an inode
    of the right type, link count and size for every file, with the contents of
    the file and all its blocks in place; a root directory with the entries
    [.], [..] and one for each file, in order, with its name cut to 14 bytes, and
    zeroes behind; and all other inodes free.  The one exception is that the
    last block of the root directory is missing when its entries fill their
    blocks. *)
Theorem mkfs_makes_image fs : Forall fits fs -> Z.of_nat (length fs) < 199 -> used_end fs <= 1000 ->
  exists s, main (given fs) init = Ok (0, s) /\ nsec s = 1000 /\ (forall b, 2 <= b < 32 -> img s b = zero_block) /\ image (img s) (used_end fs) fs.
Proof. apply mkfs_image. Qed.

(** The files [/x/a], with three bytes, and [b], which is empty. *)
Definition ex_files : list (list Z * list Z) := [([47; 120; 47; 97], [1; 2; 3]); ([98], [])].

Lemma ex_fits : Forall fits ex_files /\ Z.of_nat (length ex_files) < 199 /\ used_end ex_files <= 1000 /\ root_len ex_files mod BSIZE <> 0.
Proof.
  split_and!; [|done|vm_compute; discriminate|vm_compute; discriminate]. unfold ex_files. repeat constructor; try (vm_compute; (reflexivity || discriminate)); cbn; lia.
Qed.

Lemma mkfs_makes_image_witness : exists s, main (given ex_files) init = Ok (0, s) /\ nsec s = 1000 /\ (forall b, 2 <= b < 32 -> img s b = zero_block) /\ image (img s) (used_end ex_files) ex_files.
Proof. apply (mkfs_makes_image ex_files); apply ex_fits. Defined.

End MkfsImage.

(** * A kernel that boots from the image of mkfs reads its files

    The composition of mkfs with the log, the inode cache, the directories, the
    paths and the files of the kernel. *)

Import Block BufView BlockIO LogIO Fs FsBlk FsMap FsRw FsInode FsDir FsPath FsImage.

Module MkfsBoot.

Import MkfsThm MkfsImage.

#[local] Opaque zero_block.

#[local] Transparent zero_block.

Lemma zero_header : LogSpec.header_of zero_block = [].
Proof. vm_compute. reflexivity. Qed.

#[local] Opaque zero_block.

(** ** The image on an equal disk *)

Lemma IBLOCK_fs0 n : 0 <= n < 200 -> fs_block sb0 (IBLOCK n sb0).
Proof. intros Hn. destruct (IBLOCK0 n Hn) as [_ HI]. right. change (Log.inodestart sb0) with 32. change (Log.sb_size sb0) with 1000. lia. Qed.

Lemma image_agree D C fb fs : Z.of_nat (length fs) < 199 -> image D fb fs -> FsWrote.agree sb0 D C -> image C fb fs.
Proof.
  intros Hn [I1 I2 I3 I4 I5 I6] HC. assert (HO : forall n, 0 <= n < 200 -> on_disk C n = on_disk D n) by (intros n Hr; unfold on_disk; by rewrite HC by by apply IBLOCK_fs0).
  assert (HE : forall i, file sb0 D (Free fb) i -> file sb0 C (Free fb) i /\ (forall n, bn_ok n -> baddr C i n = baddr D i n) /\
    (forall x, 0 <= x < MAXFILE * BSIZE -> fbyte C i x = fbyte D i x) /\ (forall b, own C i b <-> own D i b)).
  { intros i Hf. apply file_ext; [done|]. intros b Hb. apply HC. by eapply (FsWrote.own_fs sb0 lay). }
  assert (HU : forall i, file sb0 D (Free fb) i -> full C i <-> full D i).
  { intros i Hf. destruct (HE i Hf) as (_ & HB & _). split; (intros [Hm Hfu]; split; [done|]; intros n Hn0 Hn1; assert (bn_ok n) by (unfold bn_ok; rewrite MAXFILE_eq in *; unfold BSIZE in *; lia));
      [rewrite <- HB by done|rewrite HB by done]; by apply Hfu. }
  assert (HW : forall n, 1 <= n < 2 + Z.of_nat (length fs) -> forall b, own C (on_disk D n) b <-> own D (on_disk D n) b).
  { intros n Hr b. destruct (decide (n = 1)) as [->|Hne]; [destruct I2 as (_ & _ & _ & J & _); destruct (HE _ J) as (_ & _ & _ & K); apply K|]. destruct (lookup_lt_is_Some_2 fs (Z.to_nat (n - 2))) as [f Hk]; [lia|].
    pose proof (I3 _ _ Hk) as J. cbv zeta in J. replace (2 + Z.of_nat (Z.to_nat (n - 2))) with n in J by lia. destruct J as (_ & _ & _ & J & _). destruct (HE _ J) as (_ & _ & _ & K). apply K. }
  split.
  - by apply (FsWrote.disk_agree sb0 lay D).
  - cbv zeta in *. rewrite HO by lia. destruct I2 as (J1 & J2 & J3 & J4 & J5 & J6). destruct (HE _ J4) as (K1 & _ & K2 & _). split_and!; [done..|by rewrite HU|]. intros x Hx. rewrite K2; [by apply J6|]. rewrite J3 in Hx. unfold root_len in Hx. rewrite MAXFILE_eq. unfold BSIZE in *. Z.to_euclidean_division_equations. lia.
  - intros k f Hk. pose proof (lookup_lt_Some _ _ _ Hk). pose proof (I3 _ _ Hk) as J. cbv zeta in *. rewrite HO by lia. destruct J as (J1 & J2 & J3 & J4 & J5 & J6). destruct (HE _ J4) as (K1 & _ & K2 & _). split_and!; [done..|by apply HU|].
    rewrite <- J6. apply fbytes_ext. intros x Hx. apply K2. destruct J5 as [J5 _]. lia.
  - intros b Hb. destruct (I4 b Hb) as (n & Hr & Ho). exists n. split; [done|]. rewrite HO by lia. by apply HW.
  - intros n n' b Hr Hr'. rewrite !HO by lia. rewrite !HW by done. by apply I5.
  - intros n Hr. rewrite HO by lia. by apply I6.
Qed.

(** ** The entries of the directory *)

Lemma rd_concat (L : list (list Z)) : forall j x e, Forall (fun l => length l = 16%nat) L -> L !! j = Some e -> 0 <= x < 16 -> rd (concat L) (16 * Z.of_nat j + x) = rd e x.
Proof.
  induction L as [|l L IH]; intros j x e HL Hj Hx; [done|]. apply Forall_cons in HL as [Hl HL]. cbn [concat]. destruct j as [|j]; cbn in Hj.
  - injection Hj as ->. rewrite FsWrote.rd_app_l by lia. by f_equal.
  - rewrite FsWrote.rd_app_r by lia. rewrite <- (IH j x e) by done. f_equal. lia.
Qed.

Lemma length_concat16 (L : list (list Z)) : Forall (fun l => length l = 16%nat) L -> Z.of_nat (length (concat L)) = 16 * Z.of_nat (length L).
Proof. induction 1 as [|l L Hl HL IH]; cbn [concat length]; [done|]. rewrite length_app. lia. Qed.

Section Dir.

Context (C : Z -> block) (fb : Z) (fs : list (list Z * list Z)) (HI : image C fb fs) (Hfits : Forall fits fs) (Hn : Z.of_nat (length fs) < 199).

Let root := on_disk C 1.

Lemma entries16 : Forall (fun l => length l = 16%nat) (map entry_bytes (entries fs)).
Proof. apply Forall_forall. intros l (e & -> & He)%list_elem_of_fmap. destruct (entries_ok fs e Hfits Hn He) as [Hb Hr]. by destruct (new_entry_ok e.1 e.2 Hb ltac:(lia)) as (_ & E & _). Qed.

Lemma root_nent : nent root = 32 * (root_len fs / 512 + 1) /\ isize root = 16 * nent root.
Proof. destruct (im_root _ _ _ HI) as (_ & _ & E & _). unfold nent. fold root in E. rewrite E. unfold DIRENT, BSIZE. Z.to_euclidean_division_equations. lia. Qed.

Lemma dent_entry j e : entries fs !! j = Some e -> dent C root (Z.of_nat j) = entry_bytes e.
Proof.
  intros Hj. destruct root_nent as [E1 E2]. pose proof (lookup_lt_Some _ _ _ Hj) as Hlt. cbn [entries length] in Hlt. rewrite length_elist in Hlt. destruct (im_root _ _ _ HI) as (_ & _ & _ & _ & _ & Hby). fold root in Hby.
  pose proof entries16 as H16. assert (Hl : length (entry_bytes e) = 16%nat) by (eapply Forall_forall in H16; [exact H16|]; apply list_elem_of_fmap; exists e; split; [done|by eapply list_elem_of_lookup_2]).
  unfold dent, DIRENT. replace 16 with (Z.of_nat (length (entry_bytes e))) at 2 by (rewrite Hl; done). apply fbytes_list. intros x Hx. rewrite Hl in Hx.
  rewrite Hby by (rewrite E2, E1; unfold root_len; Z.to_euclidean_division_equations; lia). rewrite root_entries. rewrite <- (rd_concat (map entry_bytes (entries fs)) j (x - 16 * Z.of_nat j) (entry_bytes e)); [f_equal; lia|done|by rewrite list_lookup_fmap, Hj|lia].
Qed.

Lemma dent_none j : Z.of_nat (length fs) + 2 <= j < nent root -> de_inum (dent C root j) = 0.
Proof.
  intros Hj. destruct root_nent as [E1 E2]. destruct (im_root _ _ _ HI) as (_ & _ & _ & _ & _ & Hby). fold root in Hby.
  assert (HZ : forall x, 16 * j <= x < 16 * j + 16 -> fbyte C root x = 0).
  { intros x Hx. rewrite Hby by lia. apply rd_out. rewrite root_entries, length_concat16 by apply entries16. rewrite length_map. cbn [entries length]. rewrite length_elist. lia. }
  assert (HL : dent C root j = replicate 16 0).
  { unfold dent, DIRENT. change 16 with (Z.of_nat (length (replicate 16 0))) at 2. apply fbytes_list. intros x Hx. rewrite length_replicate in Hx. rewrite HZ by lia.
    unfold rd, zlookup. destruct (0 <=? _); [|done]. destruct (replicate 16 0 !! _) as [v|] eqn:Ev; [|done]. by apply lookup_replicate in Ev as [-> _]. }
  by rewrite HL.
Qed.

(** The name leads to the inode. *)
Lemma found name n j : (forall e, e ∈ entries fs -> dname e.1 = dname name -> e.2 = n) -> 0 <= j < nent root -> named_entry C root name j -> de_inum (dent C root j) = n.
Proof.
  intros Hu Hj [H0 Hnm]. destruct (decide (Z.of_nat (length fs) + 2 <= j)) as [Hge|Hlt]; [destruct H0; apply dent_none; lia|].
  destruct (lookup_lt_is_Some_2 (entries fs) (Z.to_nat j)) as [e He]; [cbn [entries length]; rewrite length_elist; lia|]. pose proof (dent_entry _ _ He) as Ed. rewrite Z2Nat.id in Ed by lia. rewrite Ed in *.
  assert (Hin : e ∈ entries fs) by by eapply list_elem_of_lookup_2. destruct (entries_ok fs e Hfits Hn Hin) as [Hb Hr]. destruct (new_entry_ok e.1 e.2 Hb ltac:(lia)) as (_ & _ & E1 & E2).
  unfold entry_bytes in *. rewrite E1. apply Hu; [done|]. congruence.
Qed.

Lemma present k f : fs !! k = Some f -> named_entry C root (Mkfs.dispname f.1) (Z.of_nat (S (S k))) /\ 0 <= Z.of_nat (S (S k)) < nent root.
Proof.
  intros Hk. assert (He : entries fs !! S (S k) = Some (Mkfs.dispname f.1, 2 + Z.of_nat k)) by (apply elist_lookup; done). pose proof (lookup_lt_Some _ _ _ Hk) as Hlt.
  split; [|destruct root_nent as [-> _]; unfold root_len; Z.to_euclidean_division_equations; lia]. unfold named_entry. rewrite (dent_entry _ _ He). eapply Forall_lookup_1 in Hfits as [Hb _]; [|exact Hk].
  destruct (new_entry_ok (Mkfs.dispname f.1) (2 + Z.of_nat k) Hb ltac:(lia)) as (_ & _ & E1 & E2). unfold entry_bytes. cbn [fst snd]. rewrite E1, E2. split; [lia|done].
Qed.

End Dir.

(** ** The path *)

(** A name that can stand in a path. *)
Definition plain (name : list Z) : Prop := name <> [] /\ Forall (fun c => c <> 0 /\ c <> SLASH /\ 0 <= c < 256) name.

Lemma span_plain name : Forall (fun c => c <> 0 /\ c <> SLASH /\ 0 <= c < 256) name -> span_elem name = (name, []).
Proof. induction 1 as [|c name (H1 & H2 & _) _ IH]; [done|]. cbn [span_elem]. rewrite (proj2 (Z.eqb_neq c SLASH)), (proj2 (Z.eqb_neq c 0)) by done. cbn. by rewrite IH. Qed.

Lemma skip_one name : plain name -> exists nm, skipelem (SLASH :: name) (replicate (Z.to_nat DIRSIZ) 0) = Some ([], nm) /\ dname nm = dname name /\ bytes nm.
Proof.
  intros [Hne HF]. assert (Hc : cstring name) by (eapply Forall_impl; [exact HF|]; by intros c (? & _)). assert (Hb : bytes name) by (eapply Forall_impl; [exact HF|]; by intros c (_ & _ & ?)).
  unfold skipelem. cbn [skip_slashes]. change (SLASH =? SLASH) with true. cbv iota. assert (Es : skip_slashes name = name).
  { destruct name as [|c name]; [done|]. apply Forall_cons in HF as [(_ & H2 & _) _]. cbn [skip_slashes]. by rewrite (proj2 (Z.eqb_neq c SLASH)). }
  rewrite Es. assert (E0 : (ch name =? 0) = false) by (destruct name as [|c name]; [done|]; apply Forall_cons in HF as [(H1 & _) _]; by apply Z.eqb_neq). rewrite E0, (span_plain name HF).
  eexists. split; [reflexivity|]. unfold dname. rewrite (cname_take _ name Hc). destruct (Z.leb_spec DIRSIZ (Z.of_nat (length name))).
  - split; [|by apply Forall_take]. rewrite cname_take by by apply Forall_take. by rewrite take_take, Nat.min_id.
  - unfold DIRSIZ in *. split; [|apply Forall_app; split; [done|]; constructor; [lia|]; apply Forall_drop, Forall_replicate; lia]. cbn [app]. rewrite cname_stop by (done || lia). by rewrite take_ge by lia.
Qed.

(** ** The kernel *)

(** What a program does to read a file: [open] and [read]. *)
Definition read_file {L} `{!BlockIO L} (pid : Z) devread (path : list Z) (n : Z) : ST (@state L) (Z * list Z) :=
  r ← namei pid devread 0 path;
  match r with
  | Some ip => ilock pid ip;; readi devread ip 0 n
  | None => mret (-1, [])
  end.

Section Run.

Context {L : Type} `{!BlockIO L} (Hl : layout sb0) (pid : Z) (devread : Z -> option (Z -> Z -> ST (@state L) (Z * list Z))).
Context (C : Z -> block) (fb : Z) (fs : list (list Z * list Z)) (HI : image C fb fs) (Hfits : Forall fits fs) (Hn : Z.of_nat (length fs) < 199).

(** The inode cache after boot. *)
Definition booted (l : L) : @state L := mkstate l sb0 false (replicate 50 free0).

Lemma booted_lookup l ip i : zlookup (inodes (booted l)) ip = Some i -> i = free0.
Proof. unfold zlookup, booted, inodes. destruct (0 <=? ip); [|done]. by intros [-> _]%lookup_replicate. Qed.

Lemma booted_icache l : icache (booted l).
Proof.
  split; [done|done| |].
  - intros ip i ->%booted_lookup. done.
  - intros ip jp i j d n ->%booted_lookup ->%booted_lookup [H _]. done.
Qed.

Lemma booted_room l d n : room (booted l) d n.
Proof. exists 0, free0. split; [done|by right]. Qed.

(** A fresh entry of the cache. *)
Definition fresh_inode (n : Z) : inode := set_valid false (set_ref 1 (set_ident 1 n free0)).

Lemma get_root l (P : Z -> state -> Prop) :
  (forall ip, zlookup (inodes (booted l)) ip = Some free0 -> icache (set_in ip (fresh_inode 1) (booted l)) -> P ip (set_in ip (fresh_inode 1) (booted l))) -> wp (iget 1 1) P (booted l).
Proof.
  intros HP. apply wp_iget; [apply booted_icache|apply booted_room|]. intros ip i i' Hi Hg Hno. pose proof (booted_lookup _ _ _ Hi) as ->.
  destruct (got_icache _ _ _ _ _ _ (booted_icache l) Hi Hg Hno) as [Hic _]. destruct Hg as [[[Hr _] _]|[_ ->]]; [done|]. by apply HP.
Qed.

Lemma fbytes_prefix i c n : fbytes C i 0 (Z.of_nat (length c)) = c -> 0 <= n -> fbytes C i 0 (Z.min n (Z.of_nat (length c))) = take (Z.to_nat n) c.
Proof.
  intros E Hn0. destruct (Z.min_spec n (Z.of_nat (length c))) as [[H1 ->]|[H1 ->]].
  - transitivity (take (Z.to_nat n) (fbytes C i 0 (Z.of_nat (length c)))); [|by rewrite E]. replace (Z.of_nat (length c)) with (n + (Z.of_nat (length c) - n)) by lia. rewrite fbytes_app by lia. rewrite take_app_length'; [done|]. unfold fbytes. by rewrite length_map, length_seq.
  - rewrite E. symmetry. apply take_ge. lia.
Qed.

(** Inode [n] as [ilock] loads it. *)
Definition inode_at (n : Z) : inode := loaded sb0 pid C (fresh_inode n).

(** The entry [rp] holds the root directory, locked. *)
Section Root.

Context (l : L) (rp : Z) (Hrp : zlookup (inodes (booted l)) rp = Some free0) (l2 : L) (k : nat) (Hv2 : io_view l2 ∅ C ∅ k).

Definition with_root : @state L := set_in rp (inode_at 1) (set_io l2 (set_in rp (fresh_inode 1) (booted l))).

Lemma rp_range : 0 <= rp < 50.
Proof. apply zlookup_lt in Hrp. cbn in Hrp. lia. Qed.

Lemma with_root_lookup jp : zlookup (inodes with_root) jp = if jp =? rp then Some (inode_at 1) else zlookup (replicate 50 free0) jp.
Proof.
  pose proof rp_range as Hr. unfold with_root. cbn. destruct (Z.eqb_spec jp rp) as [->|Hne]; [apply zlookup_zinsert_eq; rewrite length_zinsert; cbn; lia|]. by rewrite !zlookup_zinsert_ne by done.
Qed.

Lemma with_root_icache l3 : icache (set_io l3 with_root).
Proof.
  split; [done|cbn; by rewrite !length_zinsert| |]; change (inodes (set_io l3 with_root)) with (inodes with_root).
  - intros jp j. rewrite with_root_lookup. destruct (jp =? rp); [by intros [= <-]|]. intros E. apply (booted_lookup l) in E as ->. done.
  - intros jp jp' j j' d n. rewrite !with_root_lookup. destruct (Z.eqb_spec jp rp) as [->|], (Z.eqb_spec jp' rp) as [->|]; [done| | |];
      intros E E' [R1 _] [R2 _]; try (apply (booted_lookup l) in E as ->; done); apply (booted_lookup l) in E' as ->; done.
Qed.

Lemma with_root_room l3 d n : room (set_io l3 with_root) d n.
Proof.
  exists (if rp =? 0 then 1 else 0), free0. split; [|by right]. change (inodes (set_io l3 with_root)) with (inodes with_root). rewrite with_root_lookup. destruct (Z.eqb_spec rp 0) as [->|Hne]; [done|].
  by rewrite (proj2 (Z.eqb_neq 0 rp)) by congruence.
Qed.

Lemma get_file l3 n (P : Z -> state -> Prop) : n <> 1 ->
  (forall ip, ip <> rp -> zlookup (inodes with_root) ip = Some free0 -> P ip (set_in ip (fresh_inode n) (set_io l3 with_root))) -> wp (iget 1 n) P (set_io l3 with_root).
Proof.
  intros Hn1 HP. apply wp_iget; [apply with_root_icache|apply with_root_room|]. intros ip i i' Hi Hg _. change (inodes (set_io l3 with_root)) with (inodes with_root) in Hi. pose proof Hi as Hi'. rewrite with_root_lookup in Hi.
  destruct (Z.eqb_spec ip rp) as [->|Hne].
  - injection Hi as <-. destruct Hg as [[(_ & _ & E) _]|[E _]]; [cbn in E; congruence|done].
  - pose proof (booted_lookup l _ _ Hi) as ->. destruct Hg as [[[Hr _] _]|[_ ->]]; [done|]. by apply HP.
Qed.

Lemma root_dir : (root_len fs) mod BSIZE <> 0 -> dir sb0 with_root rp (inode_at 1) C (Free fb) k.
Proof.
  intros Hfull. destruct (im_root _ _ _ HI) as (J1 & J2 & J3 & J4 & J5 & J6). split; [|apply (im_disk _ _ _ HI)|by destruct J4|by apply J5|done|].
  - split_and!; [done|rewrite with_root_lookup, Z.eqb_refl; done|done|done].
  - change (isize (inode_at 1)) with (isize (on_disk C 1)). rewrite J3. unfold root_len, DIRENT, BSIZE. Z.to_euclidean_division_equations. lia.
Qed.

End Root.

Lemma read_file_wp l k0 name n k f : io_view l ∅ C ∅ k0 -> root_len fs mod BSIZE <> 0 -> plain name -> fs !! k = Some f -> Mkfs.dispname f.1 = name ->
  (forall e, e ∈ entries fs -> dname e.1 = dname name -> e.2 = 2 + Z.of_nat k) -> 0 <= n < 2 ^ 31 ->
  wp (read_file pid devread (SLASH :: name) n) (fun r s' => r = (Z.min n (Z.of_nat (length f.2)), take (Z.to_nat n) f.2) /\ io_view (io s') ∅ C ∅ k0) (booted l).
Proof.
  intros Hv Hfull Hpl Hk Hnm Hu Hnr. destruct (skip_one name Hpl) as (nm & Esk & Ednm & Hbnm).
  destruct (im_root _ _ _ HI) as (J1 & J2 & _). destruct (im_file _ _ _ HI k f Hk) as (K1 & K2 & K3 & K4 & K5 & K6).
  pose proof (lookup_lt_Some _ _ _ Hk) as Hlt. set (m := 2 + Z.of_nat k) in *.
  unfold read_file, namei, namex. apply wp_bind, wp_bind. change (ch (SLASH :: name) =? SLASH) with true. cbv iota. apply wp_bind. apply get_root. intros rp Hrp Hic.
  assert (Hlk : zlookup (inodes (set_in rp (fresh_inode 1) (booted l))) rp = Some (fresh_inode 1)) by (eapply set_in_lookup; exact Hrp).
  cbn [length namex_loop]. rewrite Esk. apply wp_bind. eapply (wp_ilock_load sb0 Hl); [split_and!; [done|exact Hlk|done|exact Hv]|done|done|done|done|change (itype (on_disk C 1) <> 0); rewrite J1; done|].
  intros l2 Hv2. fold (inode_at 1). change (set_in rp (inode_at 1) (set_io l2 (set_in rp (fresh_inode 1) (booted l)))) with (with_root l rp l2). apply wp_bind.
  eapply wp_get_inode; [rewrite with_root_lookup, Z.eqb_refl by done; reflexivity|]. change (itype (inode_at 1)) with (itype (on_disk C 1)). rewrite J1. change (T_DIR =? T_DIR) with true. cbn [negb andb].
  apply wp_bind. eapply (wp_dirlookup sb0 Hl); [by apply (root_dir l rp Hrp l2 k0 Hv2)|done| |].
  { intros l3 _ Hnone. destruct (present C fb fs HI Hfits Hn k f Hk) as [He Hr]. destruct (Hnone _ Hr). destruct He as [He1 He2]. split; [exact He1|]. rewrite Ednm, <- Hnm. exact He2. }
  intros l3 j Hv3 Hj Hne _. assert (Ej : de_inum (dent C (inode_at 1) j) = m).
  { apply (found C fb fs HI Hfits Hn name); [done|exact Hj|]. destruct Hne as [H1 H2]. split; [exact H1|]. by rewrite <- Ednm. }
  rewrite Ej. apply (get_file l rp Hrp l2 l3 m); [lia|]. intros ip Hip Hlip. set (s4 := set_in ip (fresh_inode m) _).
  assert (Hr4 : zlookup (inodes s4) rp = Some (inode_at 1)).
  { unfold s4. cbn [inodes set_in set_inodes]. rewrite zlookup_zinsert_ne by done. change (inodes (set_io l3 (with_root l rp l2))) with (inodes (with_root l rp l2)). rewrite with_root_lookup, Z.eqb_refl by done. done. }
  apply wp_bind. unfold iunlockput. apply wp_bind. eapply wp_iunlock; [exact Hr4|done|done|done|].
  set (s5 := set_in rp (set_ilock false 0 (inode_at 1)) s4). assert (Hr5 : zlookup (inodes s5) rp = Some (set_ilock false 0 (inode_at 1))) by (eapply set_in_lookup; exact Hr4).
  eapply wp_iput_keep; [exact Hr5|done|done|right; left; change (nlink (on_disk C 1) <> 0); by rewrite J2|]. set (s6 := set_in rp _ s5).
  assert (Hi6 : zlookup (inodes s6) ip = Some (fresh_inode m)).
  { unfold s6, s5, s4. cbn [inodes set_in set_inodes]. rewrite !(zlookup_zinsert_ne _ rp ip) by done. apply zlookup_zinsert_eq. by apply zlookup_lt in Hlip. }
  assert (Eloop : forall fu, namex_loop pid devread fu ip [] nm false s6 = Ok ((Some ip, nm), s6)) by (intros fu; by destruct fu).
  unfold wp at 1. rewrite Eloop. apply wp_ret. cbn [fst]. apply wp_bind.
  eapply (wp_ilock_load sb0 Hl); [split_and!; [done|exact Hi6|done|exact Hv3]|done|done|done|change (inum_ok sb0 m); unfold inum_ok; change (Log.ninodes sb0) with 200; lia|change (itype (on_disk C m) <> 0); rewrite K1; done|].
  intros l4 Hv4. fold (inode_at m). set (s7 := set_in ip (inode_at m) (set_io l4 s6)).
  assert (Hi7 : zlookup (inodes s7) ip = Some (inode_at m)) by (eapply set_in_lookup; exact Hi6).
  eapply (wp_readi sb0 Hl); [split_and!; [done|exact Hi7|done|exact Hv4]|apply (im_disk _ _ _ HI)|by destruct K4|exact K5|change (itype (on_disk C m) <> T_DEV); by rewrite K1|..].
  - change (isize (inode_at m)) with (isize (on_disk C m)). rewrite K3. lia.
  - lia.
  - lia.
  - intros l5 Hv5. split; [|exact Hv5]. change (isize (inode_at m)) with (isize (on_disk C m)). change (fbytes C (inode_at m)) with (fbytes C (on_disk C m)).
    rewrite Z.sub_0_r, K3. f_equal. rewrite K3 in K6. apply fbytes_prefix; [done|lia].
Qed.

End Run.

(** C4: what mkfs puts into the image is what programs read.  Take any files
    that fit, and one of them with a name that can stand in a path and that no
    other entry of the root directory has.  A kernel that boots from the image
    of mkfs runs its log recovery without error, and an operation that looks up
    the path of the file, locks the inode and reads [n] bytes from its start
    returns the first [n] bytes of the file, or all of it if it is shorter. *)
Theorem mkfs_boot_read devread fs k f n :
  Forall fits fs -> Z.of_nat (length fs) < 199 -> used_end fs <= 1000 -> root_len fs mod BSIZE <> 0 ->
  fs !! k = Some f -> plain (Mkfs.dispname f.1) ->
  (forall e, e ∈ entries fs -> dname e.1 = dname (Mkfs.dispname f.1) -> e.2 = 2 + Z.of_nat k) -> 0 <= n < 2 ^ 31 ->
  exists m l s', Mkfs.main (given fs) Mkfs.init = Ok (0, m) /\ LogSpec.boot 1 1000 (Mkfs.img m) = Ok (tt, l) /\
    FsOp.fs_op 1 1000 (read_file (BlockIO0 := io0) 1 devread (SLASH :: Mkfs.dispname f.1) n)
      (mkstate l (sb_load (Mkfs.img m 1)) false (replicate 50 free0)) = Ok ((Z.min n (Z.of_nat (length f.2)), take (Z.to_nat n) f.2), s').
Proof.
  intros Hf Hn Hu Hfull Hk Hpl Huniq Hnr. destruct (mkfs_image fs Hf Hn Hu) as (m & R & _ & Hlog & HI). exists m.
  assert (Esb : sb_load (Mkfs.img m 1) = sb0) by apply (d_sb _ _ _ (im_disk _ _ _ HI)).
  destruct (LogSpec.boot_spec 1 1000 2 30 (Mkfs.img m) (Mkfs.img m)) as (l & C & D & W & Rb & Ho & Hc & Hst & Hsz & Hv & Hag & _).
  { apply LogTx.fresh_layout. } { injection Esb as E1 E2 E3 E4 E5 E6 E7. split; [by rewrite E5|by rewrite E4]. } { lia. }
  { apply LogSpec.recovers_empty; [lia| | |done]; rewrite Hlog by lia; [exact zero_header|apply zero_ok]. }
  assert (HIC : image C (used_end fs) fs).
  { eapply image_agree; [done|exact HI|]. intros b Hb. apply Hag. unfold LogSpec.home, fs_block in *. change (Log.inodestart sb0) with 32 in Hb. change (Log.sb_size sb0) with 1000 in Hb. lia. }
  exists l. rewrite Esb.
  destruct (FsOp.op_atomic 1 1000 2 30 ∅ 10 (read_file (BlockIO0 := io0) 1 devread (SLASH :: Mkfs.dispname f.1) n) (booted l) C D W
    (fun r _ _ => r = (Z.min n (Z.of_nat (length f.2)), take (Z.to_nat n) f.2))) as (r & s1 & C' & l' & ws & C2 & D2 & R2 & -> & _).
  - by split.
  - rewrite size_empty. unfold max_logged. cbn. lia.
  - rewrite size_empty. cbn. lia.
  - intros l1 Hv1. pose proof (read_file_wp (BlockIO0 := booted_io D W ∅) (layout0 D W ∅) 1 devread C (used_end fs) fs HIC Hf Hn l1 10 _ n k f Hv1 Hfull Hpl Hk eq_refl Huniq Hnr) as Hwp.
    eapply wp_mono; [exact Hwp|]. intros a s' [-> Hv']. exists C, 10%nat. split; [exact Hv'|reflexivity].
  - exists (set_io l' s1). split; [exact R|]. split; [exact Rb|]. exact R2.
Qed.

Definition ex_file : list Z * list Z := ([47; 120; 47; 97], [1; 2; 3]).

Lemma ex_plain : plain (Mkfs.dispname ex_file.1).
Proof. split; [discriminate|]. constructor; [|constructor]. split; [discriminate|split; [discriminate|split; [discriminate|reflexivity]]]. Qed.

Lemma ex_unique e : e ∈ entries ex_files -> dname e.1 = dname (Mkfs.dispname ex_file.1) -> e.2 = 2 + Z.of_nat 0.
Proof.
  intros He. change (entries ex_files) with [([46], 1); ([46; 46], 1); ([97], 2); ([98], 3)] in He. rewrite !elem_of_cons, elem_of_nil in He.
  destruct He as [->|[->|[->|[->|[]]]]]; vm_compute; (reflexivity || discriminate).
Qed.

(** Two bytes of [/a]. *)
Lemma mkfs_boot_read_witness : exists m l s', Mkfs.main (given ex_files) Mkfs.init = Ok (0, m) /\ LogSpec.boot 1 1000 (Mkfs.img m) = Ok (tt, l) /\
  FsOp.fs_op 1 1000 (read_file (BlockIO0 := io0) 1 (fun _ => None) (SLASH :: Mkfs.dispname ex_file.1) 2)
    (mkstate l (sb_load (Mkfs.img m 1)) false (replicate 50 free0)) = Ok ((Z.min 2 (Z.of_nat (length ex_file.2)), take (Z.to_nat 2) ex_file.2), s').
Proof.
  apply (mkfs_boot_read (fun _ => None) ex_files 0 ex_file 2); [apply ex_fits|apply ex_fits|apply ex_fits|apply ex_fits|reflexivity|exact ex_plain|exact ex_unique|split; [discriminate|reflexivity]].
Defined.

End MkfsBoot.
