(* ===== verification/Vector.v ===== *)
(** * The vector of the kernel's C++ library (include/klib/vector.h)

    The elements are in an array from [new T[n]], here a list in a heap of
    arrays; an access outside the array is [Fault], and so is a release of what
    is not allocated.  An iterator is the difference to the start of the array.
    The allocations themselves are taken to succeed. *)

From Stdlib Require Import ZArith Lia.
From stdpp Require Import base numbers strings list gmap.
From S2P Require Import Prelude.

Open Scope Z_scope.

Module Vector.

(** [get_capacity]: the least power of two that is not smaller. *)
Fixpoint highest_bit (fuel : nat) (mask n : Z) : outcome Z :=
  if negb (Z.land mask n =? 0) then Ok mask
  else match fuel with O => Fuel | S f => highest_bit f (Z.shiftr mask 1) n end.

Definition get_capacity (n : Z) : outcome Z :=
  if n =? 0 then Ok 0
  else
    match highest_bit 32 (u32 (Z.shiftl 1 31)) n with
    | Ok mask => Ok (if negb (mask =? n) then u32 (Z.shiftl mask 1) else mask)
    | e => e
    end.

Section Code.

(** The elements, and what a new array holds. *)
Context {A : Type} (junk : A).

Record state := mkstate { size_ : Z; capacity_ : Z; data_ : Z; bufs : gmap Z (list A); nxt : Z }.

Definition set_size (v : Z) (s : state) : state := mkstate v (capacity_ s) (data_ s) (bufs s) (nxt s).
Definition set_capacity (v : Z) (s : state) : state := mkstate (size_ s) v (data_ s) (bufs s) (nxt s).
Definition set_data (v : Z) (s : state) : state := mkstate (size_ s) (capacity_ s) v (bufs s) (nxt s).
Definition set_bufs (v : gmap Z (list A)) (s : state) : state := mkstate (size_ s) (capacity_ s) (data_ s) v (nxt s).

(** ** Arrays *)

Definition allocate (n : Z) : ST state Z :=
  s ← get;
  put (mkstate (size_ s) (capacity_ s) (data_ s) (<[nxt s := replicate (Z.to_nat n) junk]> (bufs s)) (nxt s + 1));;
  mret (nxt s).

Definition release (p : Z) : ST state unit :=
  s ← get;
  if p =? 0 then mret tt
  else match bufs s !! p with
       | Some _ => put (set_bufs (delete p (bufs s)) s)
       | None => fault
       end.

Definition rd (p i : Z) : ST state A :=
  s ← get;
  match bufs s !! p with
  | Some b => match zlookup b i with Some v => mret v | None => fault end
  | None => fault
  end.

Definition wr (p i : Z) (v : A) : ST state unit :=
  s ← get;
  match bufs s !! p with
  | Some b => match zlookup b i with Some _ => put (set_bufs (<[p := zinsert i v b]> (bufs s)) s) | None => fault end
  | None => fault
  end.

Definition lift {B} (o : outcome B) : ST state B := fun s =>
  match o with Ok b => Ok (b, s) | Panic m => Panic m | Fault => Fault | Blocked => Blocked | Fuel => Fuel end.

(** [for (i = 0u; i < size_; ++i) dst[i] = src[i]]. *)
Fixpoint copy_from (n : nat) (i src dst : Z) : ST state unit :=
  match n with O => mret tt | S m => v ← rd src i; wr dst i v;; copy_from m (i + 1) src dst end.

(** ** The operations *)

(** [Vector(s)]. *)
Definition construct (n : Z) : ST state unit :=
  modify (fun s => set_data 0 (set_capacity 0 (set_size n s)));;
  (if negb (n =? 0) then
     c ← lift (get_capacity n);
     modify (set_capacity c);;
     d ← allocate c;
     modify (set_data d)
   else mret tt);;
  d ← allocate 1;
  modify (set_data d).

(** [Vector(const Vector &)]: from the state of the original to the state of the copy. *)
Definition copy_construct : ST state unit :=
  s ← get;
  d ← allocate (capacity_ s);
  copy_from (Z.to_nat (size_ s)) 0 (data_ s) d;;
  modify (set_data d).

(** [~Vector()]. *)
Definition destroy : ST state unit := s ← get; release (data_ s).

Definition size : ST state Z := s ← get; mret (size_ s).
Definition empty : ST state bool := s ← get; mret (size_ s =? 0).
Definition capacity : ST state Z := s ← get; mret (capacity_ s).

Definition shrink_to_fit : ST state unit :=
  s ← get;
  c ← lift (get_capacity (size_ s));
  modify (set_capacity c);;
  temp ← allocate (size_ s);
  copy_from (Z.to_nat (size_ s)) 0 (data_ s) temp;;
  release (data_ s);;
  d ← allocate c;
  modify (set_data d);;
  copy_from (Z.to_nat (size_ s)) 0 temp d.

Definition reserve (nsz : Z) : ST state unit :=
  s ← get;
  if capacity_ s <=? nsz then
    c ← lift (get_capacity nsz);
    modify (set_capacity c);;
    temp ← allocate (size_ s);
    copy_from (Z.to_nat (size_ s)) 0 (data_ s) temp;;
    release (data_ s);;
    d ← allocate c;
    modify (set_data d);;
    copy_from (Z.to_nat (size_ s)) 0 temp d
  else mret tt.

Definition push_back (val : A) : ST state unit :=
  s ← get;
  (if capacity_ s <=? u32 (size_ s + 1) then reserve (u32 (size_ s + 1)) else mret tt);;
  modify (fun s => set_size (u32 (size_ s + 1)) s);;
  s ← get;
  wr (data_ s) (u32 (size_ s - 1)) val.

Definition pop_back : ST state unit :=
  s ← get;
  if size_ s =? 0 then mret tt else put (set_size (u32 (size_ s - 1)) s).

Definition clear : ST state unit :=
  s ← get;
  release (data_ s);;
  modify (set_size 0);;
  c ← lift (get_capacity 0);
  modify (set_capacity c);;
  d ← allocate 1;
  modify (set_data d).

(** [operator[]], read and assigned to. *)
Definition at_ (i : Z) : ST state A := s ← get; rd (data_ s) i.
Definition assign (i : Z) (v : A) : ST state unit := s ← get; wr (data_ s) i v.

Fixpoint shift_down (n : nat) (i : Z) : ST state unit :=
  match n with
  | O => mret tt
  | S m => s ← get; v ← rd (data_ s) (i + 1); wr (data_ s) i v;; shift_down m (i + 1)
  end.

Definition erase (diff : Z) : ST state (option Z) :=
  s ← get;
  if (diff <? 0) || (size_ s <? u32 diff) then mret None
  else
    let current := u32 diff in
    shift_down (Z.to_nat (u32 (size_ s - 1) - current)) current;;
    modify (fun s => set_size (u32 (size_ s - 1)) s);;
    mret (Some current).

Fixpoint shift_up (n : nat) (i : Z) : ST state unit :=
  match n with
  | O => mret tt
  | S m => s ← get; v ← rd (data_ s) (i - 1); wr (data_ s) i v;; shift_up m (i - 1)
  end.

(** The comparison [diff < 0u] is one of unsigned 32-bit numbers. *)
Definition insert (diff : Z) (val : A) : ST state (option Z) :=
  s ← get;
  if (u32 diff <? 0) || (size_ s <? u32 diff) then mret None
  else
    let current := u32 diff in
    (if capacity_ s <=? u32 (size_ s + 1) then reserve (u32 (size_ s + 1)) else mret tt);;
    s ← get;
    shift_up (Z.to_nat (size_ s - current)) (size_ s);;
    modify (fun s => set_size (u32 (size_ s + 1)) s);;
    s ← get;
    wr (data_ s) current val;;
    mret (Some current).

End Code.

Arguments state : clear implicits.

End Vector.

(** * The vector is a list

    [rep s l]: the vector [s] holds the elements [l].  Every operation, given an
    index inside the list, returns and does on the list what its name says, and
    no other array of the heap changes. *)

Module VectorThm.
Import Vector.

(** ** The capacity *)

Lemma highest_bit_run (k : nat) n fuel :
  0 < n < 2 ^ (Z.of_nat k + 1) -> (k <= fuel)%nat -> Z.of_nat k < 32 ->
  highest_bit fuel (2 ^ Z.of_nat k) n = Ok (2 ^ Z.log2 n).
Proof.
  revert fuel. induction k as [|k IH]; intros fuel Hn Hf Hk.
  - assert (n = 1) as -> by (change (2 ^ (Z.of_nat 0 + 1)) with 2 in Hn; lia). destruct fuel; reflexivity.
  - pose proof (land_bit32 n (Z.of_nat (S k)) ltac:(lia)) as Hb. rewrite bit32_pow, Z.land_comm in Hb by lia.
    assert (Hlog : Z.testbit n (Z.of_nat (S k)) = false -> n < 2 ^ (Z.of_nat k + 1)).
    { intros E. destruct (Z_lt_le_dec n (2 ^ (Z.of_nat k + 1))) as [|Hge]; [done|].
      assert (Z.log2 n = Z.of_nat (S k)) as Hl.
      { apply Z.log2_unique; [lia|]. replace (Z.of_nat (S k)) with (Z.of_nat k + 1) in * by lia.
        replace (Z.succ (Z.of_nat k + 1)) with (Z.of_nat k + 1 + 1) by lia. lia. }
      rewrite <- Hl, Z.bit_log2 in E by lia. done. }
    assert (Hhi : Z.testbit n (Z.of_nat (S k)) = true -> Z.log2 n = Z.of_nat (S k)).
    { intros E. apply Z.log2_unique; [lia|]. split; [|exact (proj2 Hn)].
      destruct (Z_lt_le_dec n (2 ^ Z.of_nat (S k))) as [Hlt|]; [|done].
      rewrite Z.bits_above_log2 in E; [done|lia|]. apply Z.log2_lt_pow2; lia. }
    destruct fuel as [|fuel]; [lia|]. cbn [highest_bit]. rewrite Hb.
    destruct (Z.testbit n (Z.of_nat (S k))) eqn:E; cbn [negb].
    + by rewrite Hhi.
    + replace (Z.shiftr (2 ^ Z.of_nat (S k)) 1) with (2 ^ Z.of_nat k).
      * apply IH; [specialize (Hlog eq_refl); lia|lia|lia].
      * rewrite Z.shiftr_div_pow2 by lia. replace (Z.of_nat (S k)) with (Z.of_nat k + 1) by lia.
        rewrite Z.pow_add_r by lia. rewrite Z.div_mul by lia. done.
Qed.

(** Up to [2^31] elements the capacity is a power of two, at least the size and less than twice it. *)
Lemma get_capacity_run n :
  0 < n <= 2 ^ 31 ->
  exists k, 0 <= k <= 31 /\ get_capacity n = Ok (2 ^ k) /\ n <= 2 ^ k < 2 * n.
Proof.
  intros Hn. unfold get_capacity. rewrite (proj2 (Z.eqb_neq n 0)) by lia.
  change (u32 (Z.shiftl 1 31)) with (2 ^ Z.of_nat 31).
  rewrite highest_bit_run by (try lia; change (2 ^ (Z.of_nat 31 + 1)) with (2 ^ 32); lia).
  destruct (Z.log2_spec n ltac:(lia)) as [H1 H2]. pose proof (Z.log2_nonneg n).
  assert (Z.log2 n <= 31) by (rewrite <- (Z.log2_pow2 31) by lia; apply Z.log2_le_mono; lia).
  replace (2 ^ Z.succ (Z.log2 n)) with (2 * 2 ^ Z.log2 n) in H2 by (rewrite Z.pow_succ_r by lia; lia).
  destruct (Z.eqb_spec (2 ^ Z.log2 n) n) as [E|E]; cbn [negb].
  - exists (Z.log2 n). split_and!; [lia|lia|done|lia|lia].
  - assert (Z.log2 n < 31).
    { destruct (Z.eq_dec (Z.log2 n) 31) as [E1|]; [|lia]. rewrite E1 in *. lia. }
    exists (Z.log2 n + 1). rewrite Z.shiftl_mul_pow2 by lia.
    replace (2 ^ Z.log2 n * 2 ^ 1) with (2 ^ (Z.log2 n + 1)) by (rewrite Z.pow_add_r by lia; done).
    assert (2 ^ (Z.log2 n + 1) = 2 * 2 ^ Z.log2 n) by (rewrite Z.pow_add_r by lia; lia).
    rewrite u32_small by lia. split_and!; [lia|lia|done|lia|lia].
Qed.

(** ** Arrays *)

Lemma zlookup_mid {B} (l1 : list B) v l2 i : i = Z.of_nat (length l1) -> zlookup (l1 ++ v :: l2) i = Some v.
Proof. intros ->. unfold zlookup. rewrite (proj2 (Z.leb_le _ _)) by lia. rewrite Nat2Z.id. by apply list_lookup_middle. Qed.

Lemma zinsert_mid {B} (l1 : list B) v w l2 i :
  i = Z.of_nat (length l1) -> zinsert i w (l1 ++ v :: l2) = l1 ++ w :: l2.
Proof.
  intros ->. unfold zinsert. rewrite (proj2 (Z.leb_le _ _)) by lia. rewrite Nat2Z.id.
  rewrite insert_app_r_alt by lia. by rewrite Nat.sub_diag.
Qed.

Section Runs.
Context {A : Type} (junk : A).
Implicit Types (s : state A) (l r : list A).

Lemma vec_rd_run s p i b v : bufs s !! p = Some b -> zlookup b i = Some v -> rd p i s = Ok (v, s).
Proof. intros H1 H2. unfold rd. rewrite run_get, H1, H2. done. Qed.

Lemma wr_run s p i b v w :
  bufs s !! p = Some b -> zlookup b i = Some v -> wr p i w s = Ok (tt, set_bufs (<[p := zinsert i w b]> (bufs s)) s).
Proof. intros H1 H2. unfold wr. rewrite run_get, H1, H2. done. Qed.

Lemma set_bufs_id s p b : bufs s !! p = Some b -> set_bufs (<[p := b]> (bufs s)) s = s.
Proof. intros H. unfold set_bufs. rewrite insert_id by done. by destruct s. Qed.

Lemma set_bufs_twice s p b b' :
  set_bufs (<[p := b]> (bufs (set_bufs (<[p := b']> (bufs s)) s))) (set_bufs (<[p := b']> (bufs s)) s) =
  set_bufs (<[p := b]> (bufs s)) s.
Proof. unfold set_bufs. cbn. by rewrite insert_insert_eq. Qed.

Lemma copy_from_run l l1 s i src dst r x y :
  bufs s !! src = Some (l1 ++ l ++ r) -> bufs s !! dst = Some (l1 ++ x ++ y) -> src <> dst ->
  length x = length l -> i = Z.of_nat (length l1) ->
  copy_from (length l) i src dst s = Ok (tt, set_bufs (<[dst := l1 ++ l ++ y]> (bufs s)) s).
Proof.
  revert l1 s i x. induction l as [|v l IH]; intros l1 s i x Hs Hd Hne Hx Hi.
  - destruct x; [|done]. cbn [length copy_from]. rewrite set_bufs_id by done. done.
  - destruct x as [|w x]; [done|]. injection Hx as Hx. cbn [length copy_from]. cbn [app] in Hs, Hd.
    step (vec_rd_run _ _ _ _ _ Hs (zlookup_mid l1 v (l ++ r) i Hi)).
    step (wr_run _ _ _ _ _ v Hd (zlookup_mid l1 w (x ++ y) i Hi)).
    rewrite zinsert_mid by done.
    rewrite (IH (l1 ++ [v]) _ _ x).
    + rewrite <- app_assoc. cbn [app]. by rewrite set_bufs_twice.
    + cbn [set_bufs bufs]. rewrite lookup_insert_ne by done. by rewrite <- app_assoc.
    + cbn [set_bufs bufs]. rewrite lookup_insert_eq. by rewrite <- app_assoc.
    + done.
    + done.
    + rewrite length_app. cbn [length]. lia.
Qed.

(** Erasing an element moves the later ones down by one. *)
Lemma shift_down_run l l1 s i x r :
  bufs s !! data_ s = Some (l1 ++ x :: l ++ r) -> i = Z.of_nat (length l1) ->
  exists y, shift_down (length l) i s = Ok (tt, set_bufs (<[data_ s := l1 ++ l ++ y :: r]> (bufs s)) s).
Proof.
  revert l1 s i x. induction l as [|v l IH]; intros l1 s i x Hs Hi.
  - exists x. cbn [length shift_down]. cbn [app]. rewrite set_bufs_id by done. done.
  - cbn [length shift_down]. rewrite run_get. cbn [app] in Hs.
    assert (zlookup (l1 ++ x :: v :: l ++ r) (i + 1) = Some v) as Hv.
    { change (l1 ++ x :: v :: l ++ r) with (l1 ++ [x] ++ v :: (l ++ r)). rewrite app_assoc.
      apply zlookup_mid. rewrite length_app. cbn [length]. lia. }
    step (vec_rd_run _ _ _ _ _ Hs Hv). step (wr_run _ _ _ _ _ v Hs (zlookup_mid l1 x _ i Hi)).
    rewrite zinsert_mid by done.
    destruct (IH (l1 ++ [v]) (set_bufs (<[data_ s := l1 ++ v :: v :: l ++ r]> (bufs s)) s) (i + 1) v) as (y & Hy).
    + cbn [set_bufs bufs data_]. rewrite lookup_insert_eq. by rewrite <- app_assoc.
    + rewrite length_app. cbn [length]. lia.
    + exists y. rewrite Hy. cbn [data_ set_bufs]. rewrite <- app_assoc. cbn [app].
      unfold set_bufs. cbn [size_ capacity_ data_ bufs nxt]. by rewrite insert_insert_eq.
Qed.

(** Making room for an element moves the later ones up by one. *)
Lemma shift_up_run l l1 s i x r :
  bufs s !! data_ s = Some (l1 ++ l ++ x :: r) -> i = Z.of_nat (length (l1 ++ l)) ->
  exists y, shift_up (length l) i s = Ok (tt, set_bufs (<[data_ s := l1 ++ y :: l ++ r]> (bufs s)) s).
Proof.
  revert s i x r. induction l as [|v l IH] using rev_ind; intros s i x r Hs Hi.
  - exists x. cbn [length shift_up]. cbn [app]. rewrite set_bufs_id by done. done.
  - rewrite length_app, Nat.add_comm. cbn [length Nat.add shift_up]. rewrite run_get.
    rewrite !length_app in Hi. cbn [length] in Hi. rewrite <- app_assoc in Hs. cbn [app] in Hs.
    assert (zlookup (l1 ++ l ++ v :: x :: r) (i - 1) = Some v) as Hv
      by (rewrite app_assoc; apply zlookup_mid; rewrite length_app; lia).
    assert (l1 ++ l ++ v :: x :: r = (l1 ++ l ++ [v]) ++ x :: r) as He by (by rewrite <- !app_assoc).
    assert (i = Z.of_nat (length (l1 ++ l ++ [v]))) as Hi' by (rewrite !length_app; cbn [length]; lia).
    step (vec_rd_run _ _ _ _ _ Hs Hv). rewrite He in Hs.
    step (wr_run _ _ _ _ _ v Hs (zlookup_mid _ x _ i Hi')). rewrite zinsert_mid by done.
    destruct (IH (set_bufs (<[data_ s := (l1 ++ l ++ [v]) ++ v :: r]> (bufs s)) s) (i - 1) v (v :: r)) as (y & Hy).
    + cbn [set_bufs bufs data_]. rewrite lookup_insert_eq. by rewrite <- !app_assoc.
    + rewrite length_app. lia.
    + exists y. rewrite Hy. cbn [data_ set_bufs]. rewrite <- !app_assoc. cbn [app].
      unfold set_bufs. cbn [size_ capacity_ data_ bufs nxt]. by rewrite insert_insert_eq.
Qed.

(** ** The vector and the list it stands for *)

Record rep s l : Prop := mkrep {
  rep_size : size_ s = Z.of_nat (length l);
  rep_max : Z.of_nat (length l) <= 2 ^ 31;
  rep_buf : exists r, bufs s !! data_ s = Some (l ++ r) /\
                      (capacity_ s = Z.of_nat (length (l ++ r)) \/ capacity_ s = 0 /\ l = []);
  rep_data : 0 < data_ s < nxt s;
  rep_fresh : forall p, nxt s <= p -> bufs s !! p = None }.

(** The arrays of others are as they were. *)
Definition keeps s s' : Prop :=
  nxt s <= nxt s' /\ (data_ s' = data_ s \/ nxt s <= data_ s') /\
  forall p, p < nxt s -> p <> data_ s -> bufs s' !! p = bufs s !! p.

Lemma vec_keeps_refl s : keeps s s.
Proof. split_and!; [lia|by left|done]. Qed.

Lemma keeps_trans s1 s2 s3 : keeps s1 s2 -> keeps s2 s3 -> keeps s1 s3.
Proof.
  intros (N1 & D1 & K1) (N2 & D2 & K2). split_and!; [lia|lia|].
  intros p Hp Hne. rewrite K2 by lia. by apply K1.
Qed.

(** What both [reserve] and [shrink_to_fit] do once the capacity is known. *)
Definition regrow s (c : Z) : ST (state A) unit :=
  modify (set_capacity c);;
  temp ← allocate junk (size_ s);
  copy_from (Z.to_nat (size_ s)) 0 (data_ s) temp;;
  release (data_ s);;
  d ← allocate junk c;
  modify (set_data d);;
  copy_from (Z.to_nat (size_ s)) 0 temp d.

(** The temporary array is left allocated. *)
Lemma regrow_run s l c :
  rep s l -> Z.of_nat (length l) <= c ->
  exists s', regrow s c s = Ok (tt, s') /\ rep s' l /\ keeps s s' /\ capacity_ s' = c /\
             nxt s <> data_ s' /\ bufs s' !! nxt s = Some l.
Proof.
  intros [Hsz Hmax (r & Hb & Hc) Hd Hf] Hlen. unfold regrow.
  step (eq_refl : modify (set_capacity c) s = Ok (tt, set_capacity c s)).
  unfold allocate. rewrite Hsz, !Nat2Z.id.
  set (s1 := mkstate (size_ s) c (data_ s) (<[nxt s := replicate (length l) junk]> (bufs s)) (nxt s + 1)).
  erewrite run_bind; [|rewrite run_get; cbn; reflexivity]. fold s1.
  erewrite run_bind; [|eapply (copy_from_run l [] s1 0 (data_ s) (nxt s) r (replicate (length l) junk) [])].
  2: { cbn. rewrite lookup_insert_ne by lia. done. }
  2: { cbn. rewrite lookup_insert_eq. by rewrite app_nil_r. }
  2: lia. 2: apply length_replicate. 2: reflexivity.
  unfold s1, set_bufs. cbn [app bufs size_ capacity_ data_ nxt]. rewrite app_nil_r, insert_insert_eq.
  erewrite run_bind.
  2: { unfold release. rewrite run_get. rewrite (proj2 (Z.eqb_neq _ 0)) by lia. cbn [bufs].
       rewrite lookup_insert_ne, Hb by lia. reflexivity. }
  unfold set_bufs. cbn [bufs size_ capacity_ data_ nxt].
  erewrite run_bind; [|rewrite run_get; cbn; reflexivity].
  erewrite run_bind; [|reflexivity].
  unfold set_data. cbn [bufs size_ capacity_ data_ nxt].
  assert (Hrep : replicate (Z.to_nat c) junk = replicate (length l) junk ++ replicate (Z.to_nat c - length l) junk)
    by (rewrite <- replicate_add; f_equal; lia).
  eexists. split.
  { eapply (copy_from_run l [] _ 0 (nxt s) (nxt s + 1) [] (replicate (length l) junk) (replicate (Z.to_nat c - length l) junk)).
    - cbn. rewrite lookup_insert_ne, lookup_delete_ne, lookup_insert_eq by lia. by rewrite app_nil_r.
    - cbn. rewrite lookup_insert_eq. by rewrite Hrep.
    - lia.
    - apply length_replicate.
    - reflexivity. }
  unfold set_bufs. cbn [bufs size_ capacity_ data_ nxt app].
  split; [constructor; cbn|split_and!; cbn].
  - done.
  - done.
  - eexists. split; [apply lookup_insert_eq|]. left. rewrite length_app, length_replicate. lia.
  - lia.
  - intros p Hp. rewrite !lookup_insert_ne, lookup_delete_ne, lookup_insert_ne by lia. apply Hf. lia.
  - unfold keeps. cbn. split_and!; [lia|lia|]. intros p Hp Hne.
    by rewrite !lookup_insert_ne, lookup_delete_ne, lookup_insert_ne by lia.
  - done.
  - lia.
  - by rewrite !lookup_insert_ne, lookup_delete_ne, lookup_insert_eq by lia.
Qed.

Lemma lift_Ok {B} (o : outcome B) b s : o = Ok b -> lift o s = Ok (b, s).
Proof. by intros ->. Qed.

(** The capacity for [n] elements, none included. *)
Lemma get_capacity_ge n : 0 <= n <= 2 ^ 31 -> exists c, get_capacity n = Ok c /\ n <= c.
Proof.
  intros Hn. destruct (Z.eq_dec n 0) as [->|]; [by exists 0|].
  destruct (get_capacity_run n ltac:(lia)) as (k & _ & H & Hle). exists (2 ^ k). split; [done|lia].
Qed.

Lemma reserve_run s l n :
  rep s l -> 0 <= n <= 2 ^ 31 ->
  exists s', reserve junk n s = Ok (tt, s') /\ rep s' l /\ keeps s s' /\ n <= capacity_ s'.
Proof.
  intros Hr Hn. unfold reserve. rewrite run_get. destruct (Z.leb_spec (capacity_ s) n) as [Hle|Hgt].
  - destruct (get_capacity_ge n Hn) as (c & Hc & Hcn). step (lift_Ok _ _ s Hc).
    destruct (regrow_run s l c Hr) as (s' & Hrun & H1 & H2 & H3 & _).
    { destruct Hr as [? ? (r & _ & [Hcap|[_ ->]]) ? ?]; [rewrite length_app in Hcap; lia|cbn; lia]. }
    exists s'. split; [exact Hrun|]. split_and!; [done|done|lia].
  - exists s. split_and!; [done|done|apply vec_keeps_refl|lia].
Qed.

Lemma shrink_to_fit_run s l :
  rep s l -> exists s', shrink_to_fit junk s = Ok (tt, s') /\ rep s' l /\ keeps s s'.
Proof.
  intros Hr. unfold shrink_to_fit. rewrite run_get. pose proof (rep_size _ _ Hr). pose proof (rep_max _ _ Hr).
  destruct (get_capacity_ge (size_ s) ltac:(lia)) as (c & Hc & Hcn). step (lift_Ok _ _ s Hc).
  destruct (regrow_run s l c Hr ltac:(lia)) as (s' & Hrun & H1 & H2 & _). exists s'. split; [exact Hrun|done].
Qed.

(** Room for one more: what [push_back] and [insert] begin with. *)
Lemma make_room_run s l :
  rep s l -> Z.of_nat (length l) < 2 ^ 31 ->
  exists s' x r, (if capacity_ s <=? u32 (size_ s + 1) then reserve junk (u32 (size_ s + 1)) else mret tt) s = Ok (tt, s') /\
    rep s' l /\ keeps s s' /\ bufs s' !! data_ s' = Some (l ++ x :: r) /\ capacity_ s' = Z.of_nat (length (l ++ x :: r)).
Proof.
  intros Hr Hl. pose proof (rep_size _ _ Hr) as Hsz. rewrite u32_small by lia.
  assert (exists s', (if capacity_ s <=? size_ s + 1 then reserve junk (size_ s + 1) else mret tt) s = Ok (tt, s') /\
            rep s' l /\ keeps s s' /\ size_ s + 1 <= capacity_ s') as (s' & Hrun & Hr' & Hk & Hcap).
  { destruct (Z.leb_spec (capacity_ s) (size_ s + 1)).
    - apply reserve_run; [done|lia].
    - exists s. split_and!; [done|done|apply vec_keeps_refl|lia]. }
  destruct (rep_buf _ _ Hr') as (r & Hb & Hc). destruct r as [|x r].
  - rewrite app_nil_r in Hc. destruct Hc as [Hc|[Hc ->]]; lia.
  - exists s', x, r. split_and!; [done|done|done|done|]. destruct Hc as [Hc|[Hc _]]; [done|lia].
Qed.

(** Writing the elements [l'] in the array of the vector. *)
Lemma rep_update s l l' r' n :
  rep s l -> n = Z.of_nat (length l') -> n <= 2 ^ 31 ->
  capacity_ s = Z.of_nat (length (l' ++ r')) \/ capacity_ s = 0 /\ l' = [] ->
  rep (set_size n (set_bufs (<[data_ s := l' ++ r']> (bufs s)) s)) l' /\
  keeps s (set_size n (set_bufs (<[data_ s := l' ++ r']> (bufs s)) s)).
Proof.
  intros [Hsz Hmax _ Hd Hf] -> Hn Hc. unfold set_size, set_bufs. cbn. split.
  - constructor; cbn; [done|done| |done|].
    + exists r'. by rewrite lookup_insert_eq.
    + intros p Hp. rewrite lookup_insert_ne by lia. by apply Hf.
  - unfold keeps. cbn. split_and!; [lia|by left|]. intros p _ Hp. by rewrite lookup_insert_ne.
Qed.

Lemma set_size_bufs n m s : set_size n (set_bufs m s) = set_bufs m (set_size n s).
Proof. done. Qed.

Lemma push_back_run s l v :
  rep s l -> Z.of_nat (length l) < 2 ^ 31 ->
  exists s', push_back junk v s = Ok (tt, s') /\ rep s' (l ++ [v]) /\ keeps s s'.
Proof.
  intros Hr Hl. unfold push_back. rewrite run_get.
  destruct (make_room_run s l Hr Hl) as (s1 & x & r & Hrun & Hr1 & Hk & Hb & Hc). step Hrun.
  erewrite run_bind; [|reflexivity]. rewrite run_get. pose proof (rep_size _ _ Hr1) as Hsz.
  change (data_ (set_size (u32 (size_ s1 + 1)) s1)) with (data_ s1).
  change (size_ (set_size (u32 (size_ s1 + 1)) s1)) with (u32 (size_ s1 + 1)).
  rewrite (u32_small (size_ s1 + 1)) by lia. rewrite u32_small by lia.
  assert (size_ s1 + 1 - 1 = Z.of_nat (length l)) as Hix by lia.
  rewrite (wr_run (set_size (size_ s1 + 1) s1) _ _ _ _ v Hb (zlookup_mid l x r _ Hix)).
  rewrite zinsert_mid by lia.
  destruct (rep_update s1 l (l ++ [v]) r (size_ s1 + 1) Hr1) as [H1 H2].
  - rewrite length_app. cbn [length]. lia.
  - lia.
  - left. rewrite Hc, !length_app. cbn [length]. lia.
  - rewrite <- app_assoc in H1, H2. cbn [app] in H1, H2.
    eexists. split; [reflexivity|]. split; [exact H1|]. eapply keeps_trans; [exact Hk|exact H2].
Qed.

(** A shorter prefix of the elements. *)
Lemma rep_shrink s l l' x n :
  rep s l -> l = l' ++ x -> n = Z.of_nat (length l') -> rep (set_size n s) l' /\ keeps s (set_size n s).
Proof.
  intros Hr -> Hn. pose proof (rep_max _ _ Hr) as Hm. rewrite length_app in Hm.
  destruct (rep_buf _ _ Hr) as (r & Hb & Hc). rewrite <- app_assoc in Hb, Hc.
  destruct (rep_update s _ l' (x ++ r) n Hr Hn ltac:(lia)) as [H1 H2].
  - destruct Hc as [Hc|[Hc Hn0]]; [by left|]. right. split; [done|]. by apply app_eq_nil in Hn0 as [-> _].
  - rewrite set_size_bufs in H1, H2.
    change (<[data_ s:=l' ++ x ++ r]> (bufs s)) with (<[data_ s:=l' ++ x ++ r]> (bufs (set_size n s))) in H1, H2.
    change (data_ s) with (data_ (set_size n s)) in H1, H2.
    rewrite set_bufs_id in H1, H2 by done. done.
Qed.

Lemma pop_back_run s l :
  rep s l -> exists s', pop_back s = Ok (tt, s') /\ rep s' (removelast l) /\ keeps s s'.
Proof.
  intros Hr. unfold pop_back. rewrite run_get. pose proof (rep_size _ _ Hr) as Hsz. pose proof (rep_max _ _ Hr).
  destruct l as [|v l] using rev_ind.
  - rewrite Hsz. exists s. split_and!; [done|done|apply vec_keeps_refl].
  - rewrite length_app in *. cbn [length] in *. rewrite (proj2 (Z.eqb_neq _ 0)) by lia. rewrite u32_small by lia.
    rewrite removelast_last. destruct (rep_shrink s _ l [v] (size_ s - 1) Hr eq_refl ltac:(lia)) as [H1 H2].
    by exists (set_size (size_ s - 1) s).
Qed.

Lemma vec_clear_run s l :
  rep s l -> exists s', clear junk s = Ok (tt, s') /\ rep s' [] /\ keeps s s'.
Proof.
  intros [Hsz Hmax (r & Hb & Hc) Hd Hf]. unfold clear. rewrite run_get.
  erewrite run_bind.
  2: { unfold release. rewrite run_get. rewrite (proj2 (Z.eqb_neq _ 0)) by lia. rewrite Hb. reflexivity. }
  eexists. split; [reflexivity|]. cbn. split.
  - constructor; cbn; [done|lia| |lia|].
    + exists [junk]. rewrite lookup_insert_eq. split; [done|by right].
    + intros p Hp. rewrite lookup_insert_ne, lookup_delete_ne by lia. apply Hf. lia.
  - unfold keeps. cbn. split_and!; [lia|lia|]. intros p Hp Hne. by rewrite lookup_insert_ne, lookup_delete_ne by lia.
Qed.

Lemma zlookup_app_l {B} (l r : list B) i v : zlookup l i = Some v -> zlookup (l ++ r) i = Some v.
Proof. unfold zlookup. destruct (0 <=? i); [|done]. apply lookup_app_l_Some. Qed.

Lemma at_run s l i v : rep s l -> zlookup l i = Some v -> at_ i s = Ok (v, s).
Proof.
  intros Hr Hi. unfold at_. rewrite run_get. destruct (rep_buf _ _ Hr) as (r & Hb & _).
  eapply vec_rd_run; [exact Hb|]. by apply zlookup_app_l.
Qed.

Lemma assign_run s l i w :
  rep s l -> 0 <= i < Z.of_nat (length l) ->
  exists s', assign i w s = Ok (tt, s') /\ rep s' (zinsert i w l) /\ keeps s s'.
Proof.
  intros Hr Hi. unfold assign. rewrite run_get. destruct (rep_buf _ _ Hr) as (r & Hb & Hc).
  destruct (zlookup_is_Some l i Hi) as (v & Hv).
  rewrite (wr_run _ _ _ _ _ w Hb (zlookup_app_l _ r _ _ Hv)).
  assert (zinsert i w (l ++ r) = zinsert i w l ++ r) as ->.
  { unfold zinsert. rewrite (proj2 (Z.leb_le 0 i)) by lia. apply insert_app_l. lia. }
  pose proof (rep_max _ _ Hr). pose proof (rep_size _ _ Hr).
  destruct (rep_update s l (zinsert i w l) r (size_ s) Hr) as [H1 H2].
  - by rewrite length_zinsert.
  - lia.
  - rewrite length_app, length_zinsert, <- length_app. destruct Hc as [Hc|[_ ->]]; [by left|]. cbn in Hi. lia.
  - eexists. split; [reflexivity|]. destruct s. done.
Qed.

Lemma erase_run s l1 x l2 :
  rep s (l1 ++ x :: l2) ->
  exists s', erase (Z.of_nat (length l1)) s = Ok (Some (Z.of_nat (length l1)), s') /\ rep s' (l1 ++ l2) /\ keeps s s'.
Proof.
  intros Hr. pose proof (rep_size _ _ Hr) as Hsz. pose proof (rep_max _ _ Hr) as Hm.
  rewrite length_app in Hsz, Hm. cbn [length] in Hsz, Hm. unfold erase. rewrite run_get.
  rewrite (u32_small (Z.of_nat _)), (u32_small (size_ s - 1)) by lia.
  rewrite (proj2 (Z.ltb_ge _ 0)), (proj2 (Z.ltb_ge (size_ s) _)) by lia. cbn [orb].
  replace (Z.to_nat _) with (length l2) by lia.
  destruct (rep_buf _ _ Hr) as (r & Hb & Hc). rewrite <- app_assoc in Hb, Hc. cbn [app] in Hb, Hc.
  destruct (shift_down_run l2 l1 s _ x r Hb eq_refl) as (y & Hrun). step Hrun.
  destruct (rep_update s _ (l1 ++ l2) (y :: r) (size_ s - 1) Hr) as [H1 H2].
  - rewrite length_app. lia.
  - lia.
  - destruct Hc as [Hc|[_ Hc]]; [left|by apply app_eq_nil in Hc as [_ ?]].
    rewrite Hc, !length_app. cbn [length]. rewrite !length_app. lia.
  - eexists. split; [|split; [exact H1|exact H2]]. rewrite <- app_assoc.
    unfold mbind, ST_bind, modify. cbn [size_ set_bufs]. rewrite u32_small by lia. done.
Qed.

Lemma insert_run s l1 l2 v :
  rep s (l1 ++ l2) -> Z.of_nat (length (l1 ++ l2)) < 2 ^ 31 ->
  exists s', insert junk (Z.of_nat (length l1)) v s = Ok (Some (Z.of_nat (length l1)), s') /\
             rep s' (l1 ++ v :: l2) /\ keeps s s'.
Proof.
  intros Hr Hl. pose proof (rep_size _ _ Hr) as Hsz. unfold insert. rewrite run_get.
  rewrite length_app in Hsz. rewrite (u32_small (Z.of_nat _)) by (rewrite length_app in Hl; lia).
  rewrite (proj2 (Z.ltb_ge _ 0)), (proj2 (Z.ltb_ge (size_ s) _)) by lia. cbn [orb].
  destruct (make_room_run s _ Hr Hl) as (s1 & x & r & Hrun & Hr1 & Hk & Hb & Hc). step Hrun. rewrite run_get.
  pose proof (rep_size _ _ Hr1) as Hsz1. rewrite <- app_assoc in Hb, Hc.
  destruct (shift_up_run l2 l1 s1 (size_ s1) x r Hb Hsz1) as (y & Hup).
  rewrite length_app in Hsz1, Hl. replace (Z.to_nat _) with (length l2) by lia. step Hup.
  destruct (rep_update s1 _ (l1 ++ v :: l2) r (size_ s1 + 1) Hr1) as [H1 H2].
  - rewrite length_app. cbn [length]. lia.
  - lia.
  - left. rewrite Hc, !length_app. cbn [length]. rewrite ?length_app. cbn [length]. lia.
  - eexists. split; [|split; [exact H1|eapply keeps_trans; [exact Hk|exact H2]]].
    unfold mbind, ST_bind, modify, get. cbn [size_ set_bufs]. rewrite u32_small by lia.
    erewrite wr_run; [|cbn; apply lookup_insert_eq|by apply zlookup_mid].
    rewrite zinsert_mid by done. unfold mret, ST_ret, set_bufs, set_size. cbn.
    rewrite insert_insert_eq. by rewrite <- app_assoc.
Qed.

(** ** Construction, copying and destruction *)

Definition heap_ok s : Prop := 0 < nxt s /\ forall p, nxt s <= p -> bufs s !! p = None.

Lemma construct_run s :
  heap_ok s -> exists s', construct junk 0 s = Ok (tt, s') /\ rep s' [] /\
    nxt s <= data_ s' /\ forall p, p < nxt s -> bufs s' !! p = bufs s !! p.
Proof.
  intros [Hn Hf]. eexists. split; [reflexivity|]. cbn. split_and!.
  - constructor; cbn; [done|lia| |lia|].
    + exists [junk]. rewrite lookup_insert_eq. split; [done|by right].
    + intros p Hp. rewrite lookup_insert_ne by lia. apply Hf. lia.
  - lia.
  - intros p Hp. by rewrite lookup_insert_ne by lia.
Qed.

Lemma copy_construct_run s l :
  rep s l -> exists c, copy_construct junk s = Ok (tt, c) /\ rep c l /\ nxt s <= data_ c /\ nxt s <= nxt c /\
    forall p, p < nxt s -> bufs c !! p = bufs s !! p.
Proof.
  intros [Hsz Hmax (r & Hb & Hc) Hd Hf]. unfold copy_construct. rewrite run_get.
  erewrite run_bind; [|unfold allocate; rewrite run_get; reflexivity].
  assert (exists y, replicate (Z.to_nat (capacity_ s)) junk = replicate (length l) junk ++ y /\
            (capacity_ s = Z.of_nat (length (l ++ y)) \/ capacity_ s = 0 /\ l = [])) as (y & Hy & Hcy).
  { destruct Hc as [Hc|[Hc ->]].
    - exists (replicate (length r) junk). rewrite <- replicate_add. split; [f_equal; rewrite length_app in Hc; lia|].
      left. rewrite Hc, !length_app, length_replicate. done.
    - exists []. rewrite Hc. split; [done|by right]. }
  rewrite Hsz, Nat2Z.id.
  erewrite run_bind; [|eapply (copy_from_run l [] _ 0 (data_ s) (nxt s) r (replicate (length l) junk) y)].
  2: { cbn. rewrite lookup_insert_ne by lia. done. }
  2: { cbn. rewrite lookup_insert_eq. by rewrite Hy. }
  2: lia. 2: apply length_replicate. 2: reflexivity.
  eexists. split; [reflexivity|]. cbn. rewrite insert_insert_eq. split_and!.
  - constructor; cbn; [done|done| |lia|].
    + exists y. by rewrite lookup_insert_eq.
    + intros p Hp. rewrite lookup_insert_ne by lia. apply Hf. lia.
  - lia.
  - lia.
  - intros p Hp. by rewrite lookup_insert_ne by lia.
Qed.

Lemma destroy_run s l : rep s l -> destroy s = Ok (tt, set_bufs (delete (data_ s) (bufs s)) s).
Proof.
  intros [_ _ (r & Hb & _) Hd _]. unfold destroy, release. rewrite !run_get.
  rewrite (proj2 (Z.eqb_neq _ 0)) by lia. by rewrite Hb.
Qed.

(** ** Sequences of operations *)

Inductive op :=
| Push (v : A) | Pop | Clear | At (i : Z) | Assign (i : Z) (v : A) | Erase (i : Z) | Insert (i : Z) (v : A)
| Reserve (n : Z) | Shrink | Size | Empty.

Inductive answer := Done | Value (v : A) | Position (p : option Z) | Number (n : Z) | Truth (b : bool).

Definition exec (o : op) : ST (state A) answer :=
  match o with
  | Push v => push_back junk v;; mret Done
  | Pop => pop_back;; mret Done
  | Clear => clear junk;; mret Done
  | At i => v ← at_ i; mret (Value v)
  | Assign i v => assign i v;; mret Done
  | Erase i => p ← erase i; mret (Position p)
  | Insert i v => p ← insert junk i v; mret (Position p)
  | Reserve n => reserve junk n;; mret Done
  | Shrink => shrink_to_fit junk;; mret Done
  | Size => n ← size; mret (Number n)
  | Empty => b ← empty; mret (Truth b)
  end.

Fixpoint execs (os : list op) : ST (state A) (list answer) :=
  match os with [] => mret [] | o :: os => a ← exec o; rest ← execs os; mret (a :: rest) end.

(** The same on a list: the answer and the new list; none when the index is
    outside the list or the list would exceed [2^31] elements. *)
Definition spec (o : op) (l : list A) : option (answer * list A) :=
  let n := Z.of_nat (length l) in
  match o with
  | Push v => if n <? 2 ^ 31 then Some (Done, l ++ [v]) else None
  | Pop => Some (Done, removelast l)
  | Clear => Some (Done, [])
  | At i => v ← zlookup l i; Some (Value v, l)
  | Assign i v => if (0 <=? i) && (i <? n) then Some (Done, zinsert i v l) else None
  | Erase i => if (0 <=? i) && (i <? n) then Some (Position (Some i), take (Z.to_nat i) l ++ drop (S (Z.to_nat i)) l) else None
  | Insert i v =>
      if (0 <=? i) && (i <=? n) && (n <? 2 ^ 31)
      then Some (Position (Some i), take (Z.to_nat i) l ++ v :: drop (Z.to_nat i) l) else None
  | Reserve m => if (0 <=? m) && (m <=? 2 ^ 31) then Some (Done, l) else None
  | Shrink => Some (Done, l)
  | Size => Some (Number n, l)
  | Empty => Some (Truth (n =? 0), l)
  end.

Fixpoint specs (os : list op) (l : list A) : option (list answer * list A) :=
  match os with
  | [] => Some ([], l)
  | o :: os => '(a, l1) ← spec o l; '(rest, l2) ← specs os l1; Some (a :: rest, l2)
  end.

(** Finishing an operation whose run on the vector is known. *)
Lemma finish {B} (m : ST (state A) B) (k : B -> answer) s b l' :
  (exists s', m s = Ok (b, s') /\ rep s' l' /\ keeps s s') ->
  exists s', (x ← m; mret (k x)) s = Ok (k b, s') /\ rep s' l' /\ keeps s s'.
Proof. intros (s' & Hm & H). exists s'. step Hm. done. Qed.

Lemma exec_run o s l a l' :
  rep s l -> spec o l = Some (a, l') -> exists s', exec o s = Ok (a, s') /\ rep s' l' /\ keeps s s'.
Proof.
  intros Hr Hs. pose proof (vec_keeps_refl s) as Hk. pose proof (rep_size _ _ Hr) as Hsz.
  destruct o; cbn [spec] in Hs; cbn [exec].
  - case_match eqn:E; simplify_eq. apply Z.ltb_lt in E. apply (finish _ (fun _ => Done) s tt), push_back_run; done.
  - simplify_eq. by apply (finish _ (fun _ => Done) s tt), pop_back_run.
  - simplify_eq. apply (finish _ (fun _ => Done) s tt). by eapply vec_clear_run.
  - apply bind_Some in Hs as (v & Hv & ?). simplify_eq. apply (finish _ Value s v). exists s. split_and!; [|done|done].
    by eapply at_run.
  - case_match eqn:E; simplify_eq. apply andb_true_iff in E as [E1%Z.leb_le E2%Z.ltb_lt].
    apply (finish _ (fun _ => Done) s tt), assign_run; [done|lia].
  - case_match eqn:E; simplify_eq. apply andb_true_iff in E as [E1%Z.leb_le E2%Z.ltb_lt].
    destruct (lookup_lt_is_Some_2 l (Z.to_nat i) ltac:(lia)) as (x & Hx).
    rewrite <- (take_drop_middle _ _ _ Hx) in Hr.
    apply erase_run in Hr. rewrite length_take, Nat.min_l, Z2Nat.id in Hr by lia. apply (finish _ Position s (Some i)). exact Hr.
  - case_match eqn:E; simplify_eq. rewrite !andb_true_iff in E. destruct E as [[E1%Z.leb_le E2%Z.leb_le] E3%Z.ltb_lt].
    rewrite <- (take_drop (Z.to_nat i) l) in Hr. apply (insert_run _ _ _ v) in Hr; [|by rewrite take_drop].
    rewrite length_take, Nat.min_l, Z2Nat.id in Hr by lia. apply (finish _ Position s (Some i)). exact Hr.
  - case_match eqn:E; simplify_eq. apply andb_true_iff in E as [E1%Z.leb_le E2%Z.leb_le].
    apply (finish _ (fun _ => Done) s tt). destruct (reserve_run s l' n Hr ltac:(lia)) as (s' & ? & ? & ? & _). by exists s'.
  - simplify_eq. by apply (finish _ (fun _ => Done) s tt), shrink_to_fit_run.
  - simplify_eq. apply (finish _ Number s). exists s. unfold size. rewrite run_get, Hsz. done.
  - simplify_eq. apply (finish _ Truth s). exists s. unfold empty. rewrite run_get, Hsz. done.
Qed.

Lemma execs_run os s l a l' :
  rep s l -> specs os l = Some (a, l') -> exists s', execs os s = Ok (a, s') /\ rep s' l' /\ keeps s s'.
Proof.
  revert s l a. induction os as [|o os IH]; intros s l a Hr Hs; cbn [specs execs] in *.
  - simplify_eq. exists s. split_and!; [done|done|apply vec_keeps_refl].
  - apply bind_Some in Hs as ([a1 l1] & H1 & Hs). apply bind_Some in Hs as ([a2 l2] & H2 & ?). simplify_eq.
    destruct (exec_run o s l a1 l1 Hr H1) as (s1 & R1 & Hr1 & K1). step R1.
    destruct (IH s1 l1 a2 Hr1 H2) as (s2 & R2 & Hr2 & K2). step R2.
    exists s2. split_and!; [done|done|by eapply keeps_trans].
Qed.

End Runs.

Arguments op : clear implicits.
Arguments answer : clear implicits.

(** A view of the vector [s] in the heap of [c]. *)
Definition in_heap {A} (s c : state A) : state A := mkstate (size_ s) (capacity_ s) (data_ s) (bufs c) (nxt c).

Lemma rep_in_heap {A} (s c : state A) l :
  rep s l -> nxt s <= nxt c -> bufs c !! data_ s = bufs s !! data_ s ->
  (forall p, nxt c <= p -> bufs c !! p = None) -> rep (in_heap s c) l.
Proof.
  intros [H1 H2 (r & Hb & Hc) H4 H5] Hn Hd Hf. constructor; cbn; [done|done| |lia|done].
  exists r. by rewrite Hd.
Qed.

(** C27: a new vector behaves as an empty list under every sequence of
    operations whose indices are inside the list: all of them return, each with
    the answer the list gives, the vector holds the list's elements at the end,
    and no array that existed before is changed. *)
Theorem vector_is_list {A} (junk : A) (s : state A) (os : list (op A)) (answers : list (answer A)) (l : list A) :
  heap_ok s -> specs os [] = Some (answers, l) ->
  exists s', (construct junk 0;; execs junk os) s = Ok (answers, s') /\ rep s' l /\
             forall p, p < nxt s -> bufs s' !! p = bufs s !! p.
Proof.
  intros Hh Hs. destruct (construct_run junk s Hh) as (s1 & R1 & Hr & Hd & K1). step R1.
  destruct (execs_run junk os s1 [] answers l Hr Hs) as (s2 & R2 & Hr2 & (_ & _ & K2)).
  exists s2. split_and!; [done|done|]. intros p Hp. pose proof (rep_data _ _ Hr). rewrite K2 by lia. by apply K1.
Qed.

Definition empty_heap : state Z := mkstate 0 0 0 ∅ 1.

Definition ex_ops : list (op Z) :=
  [Push 5; Push 6; Push 7; Insert 1 9; Erase 0; At 0; Assign 2 4; Pop; Reserve 40; Push 8; Shrink; Size; Empty; Clear; Empty; Push 3].

Lemma empty_heap_ok : heap_ok empty_heap.
Proof. split; [cbn; lia|]. intros p _. apply lookup_empty. Qed.

Lemma vector_is_list_witness :
  exists s', (construct 0 0;; execs 0 ex_ops) empty_heap =
    Ok ([Done; Done; Done; Position (Some 1); Position (Some 0); Value 9; Done; Done; Done; Done; Done;
         Number 3; Truth false; Done; Truth true; Done], s') /\
    rep s' [3] /\ forall p, p < nxt empty_heap -> bufs s' !! p = bufs empty_heap !! p.
Proof. apply vector_is_list; [exact empty_heap_ok|vm_compute; reflexivity]. Defined.

(** A copy of a vector holds the same elements in an array of its own:
    whatever valid operations are then run on the copy, the original, in the
    heap they leave, still holds its elements. *)
Theorem vector_copy_independent {A} (junk : A) (s : state A) (l : list A) (os : list (op A)) (answers : list (answer A)) (l' : list A) :
  rep s l -> specs os l = Some (answers, l') ->
  exists c c', copy_construct junk s = Ok (tt, c) /\ rep c l /\
    execs junk os c = Ok (answers, c') /\ rep c' l' /\ rep (in_heap s c') l /\ data_ c' <> data_ s.
Proof.
  intros Hr Hs. destruct (copy_construct_run junk s l Hr) as (c & R1 & Hc & Hd & Hn & K1).
  destruct (execs_run junk os c l answers l' Hc Hs) as (c' & R2 & Hc' & (N2 & D2 & K2)).
  pose proof (rep_data _ _ Hr). exists c, c'. split_and!; [done|done|done|done| |lia].
  apply rep_in_heap; [done|lia| |exact (rep_fresh _ _ Hc')]. rewrite K2 by lia. apply K1. lia.
Qed.

Definition ex_vector : state Z := mkstate 2 4 1 (<[1 := [5; 6; 0; 0]]> ∅) 2.

Lemma ex_vector_rep : rep ex_vector [5; 6].
Proof.
  constructor; cbn; [done|lia| |lia|].
  - exists [0; 0]. split; [done|by left].
  - intros p Hp. rewrite lookup_insert_ne by lia. apply lookup_empty.
Qed.

Lemma vector_copy_independent_witness :
  exists c c', copy_construct 0 ex_vector = Ok (tt, c) /\ rep c [5; 6] /\
    execs 0 [Assign 0 9; Push 7; Erase 1] c = Ok ([Done; Done; Position (Some 1)], c') /\ rep c' [9; 7] /\
    rep (in_heap ex_vector c') [5; 6] /\ data_ c' <> data_ ex_vector.
Proof. apply vector_copy_independent; [exact ex_vector_rep|vm_compute; reflexivity]. Defined.

(** ** At the boundaries *)

Lemma construct_short {A} (junk : A) (s : state A) n :
  2 <= n <= 2 ^ 31 -> exists s', construct junk n s = Ok (tt, s') /\ size_ s' = n /\ at_ 1 s' = Fault.
Proof.
  intros Hn. unfold construct. destruct (get_capacity_run n ltac:(lia)) as (k & _ & Hc & _).
  erewrite run_bind; [|reflexivity]. rewrite (proj2 (Z.eqb_neq n 0)) by lia. cbn [negb].
  erewrite run_bind; [|erewrite run_bind; [|apply lift_Ok; exact Hc]; reflexivity].
  eexists. split; [reflexivity|]. split; [done|].
  unfold at_, rd. rewrite !run_get. cbn. by rewrite lookup_insert_eq.
Qed.

Lemma erase_end {A} (s : state A) l :
  rep s l -> l <> [] ->
  exists s', erase (Z.of_nat (length l)) s = Ok (Some (Z.of_nat (length l)), s') /\ rep s' (removelast l).
Proof.
  intros Hr Hne. destruct l as [|v l _] using rev_ind; [done|]. rewrite removelast_last.
  pose proof (rep_size _ _ Hr) as Hsz. pose proof (rep_max _ _ Hr) as Hm. rewrite length_app in *. cbn [length] in *.
  unfold erase. rewrite run_get, (u32_small (Z.of_nat _)), (u32_small (size_ s - 1)) by lia.
  rewrite (proj2 (Z.ltb_ge _ 0)), (proj2 (Z.ltb_ge (size_ s) _)) by lia. cbn [orb].
  replace (Z.to_nat _) with O by lia. eexists. split; [reflexivity|]. rewrite u32_small by lia.
  eapply rep_shrink; [exact Hr|reflexivity|lia].
Qed.

Lemma erase_empty {A} (junk : A) (s : state A) : (construct junk 0;; erase 0) s = Fault.
Proof.
  erewrite run_bind; [|reflexivity]. unfold erase. rewrite run_get. cbn [size_ set_data].
  change ((0 <? 0) || _) with false. cbn iota zeta.
  destruct (Z.to_nat (u32 (0 - 1) - u32 0)) eqn:E; [apply (f_equal Z.of_nat) in E; rewrite Z2Nat.id in E; [|vm_compute]; done|].
  unfold mbind, ST_bind. cbn. rewrite E. cbn [shift_down]. unfold rd, mbind, ST_bind, get. cbn. by rewrite lookup_insert_eq.
Qed.

(** Where the vector departs from a list.  A vector constructed with
    [n >= 2] elements says that it has them, and its second element is outside
    its array; [erase(end())] removes the last element; [erase] on an empty
    vector runs over the end of the array. *)
Theorem vector_boundaries {A} (junk : A) (s : state A) (n : Z) (l : list A) :
  2 <= n <= 2 ^ 31 -> rep s l -> l <> [] ->
  (exists s', construct junk n s = Ok (tt, s') /\ size_ s' = n /\ at_ 1 s' = Fault) /\
  (exists s', erase (Z.of_nat (length l)) s = Ok (Some (Z.of_nat (length l)), s') /\ rep s' (removelast l)) /\
  (construct junk 0;; erase 0) s = Fault.
Proof. intros Hn Hr Hl. split_and!; [by apply construct_short|by apply erase_end|apply erase_empty]. Qed.

Lemma vector_boundaries_witness :
  (exists s', construct 0 2 ex_vector = Ok (tt, s') /\ size_ s' = 2 /\ at_ 1 s' = Fault) /\
  (exists s', erase (Z.of_nat (length [5; 6])) ex_vector = Ok (Some (Z.of_nat (length [5; 6])), s') /\ rep s' (removelast [5; 6])) /\
  (construct 0 0;; erase 0) ex_vector = Fault.
Proof. apply vector_boundaries; [lia|exact ex_vector_rep|discriminate]. Defined.

End VectorThm.
