(* ===== verification/Queue.v ===== *)
(** * The priority queue of the kernel's C++ library (include/klib/queue.h)

    A binary heap in a container whose element 0 is a placeholder, so that the
    children of [p] are at [2p] and [2p + 1].  The container is a template
    parameter: here a class of operations, of which the vector is an instance;
    the order [comp] is a parameter as well. *)

From Stdlib Require Import ZArith Lia.
From stdpp Require Import base numbers strings list gmap sorting.
From S2P Require Import Prelude Vector.

Open Scope Z_scope.

Module Queue.

(** What the queue calls of its container type.  [c_view o s] is the object [o]
    in the heap that the operations on [s] have left. *)
Class Container (C A : Type) := {
  c_construct : ST C unit;
  c_destroy : ST C unit;
  c_clear : ST C unit;
  c_push_back : A -> ST C unit;
  c_pop_back : ST C unit;
  c_at : Z -> ST C A;
  c_assign : Z -> A -> ST C unit;
  c_size : ST C Z;
  c_empty : ST C bool;
  c_view : C -> C -> C }.

#[export] Instance vector_container {A} (junk : A) : Container (Vector.state A) A := {
  c_construct := Vector.construct junk 0;
  c_destroy := Vector.destroy;
  c_clear := Vector.clear junk;
  c_push_back := Vector.push_back junk;
  c_pop_back := Vector.pop_back;
  c_at := Vector.at_;
  c_assign := Vector.assign;
  c_size := Vector.size;
  c_empty := Vector.empty;
  c_view o s := Vector.mkstate (Vector.size_ o) (Vector.capacity_ o) (Vector.data_ o) (Vector.bufs s) (Vector.nxt s) }.

(** [less] and [greater] on [int]. *)
Definition less (lhs rhs : Z) : bool := lhs <? rhs.
Definition greater (lhs rhs : Z) : bool := rhs <? lhs.

Section Code.
Context {C A : Type} `{Container C A} (comp : A -> A -> bool) (placeholder0 : A).

Record queue := mkqueue { container : C; nelement : Z }.

(** An operation on the container of the queue. *)
Definition on {B} (m : ST C B) : ST queue B := zoom container (fun c q => mkqueue c (nelement q)) m.

Definition set_nelement (n : Z) : ST queue unit := modify (fun q => mkqueue (container q) n).

(** [swap(container[i], container[j])]. *)
Definition swap (i j : Z) : ST queue unit :=
  temp ← on (c_at i);
  y ← on (c_at j);
  on (c_assign i y);;
  on (c_assign j temp).

Definition construct : ST queue unit :=
  on c_construct;;
  on c_clear;;
  on (c_push_back placeholder0);;
  set_nelement 0.

(** Reading another container in the present heap. *)
Definition read_other {B} (o : C) (m : ST C B) : ST queue B := fun q =>
  match m (c_view o (container q)) with
  | Ok (b, _) => Ok (b, q)
  | Panic msg => Panic msg
  | Fault => Fault
  | Blocked => Blocked
  | Fuel => Fuel
  end.

Fixpoint copy_elements (n : nat) (i : Z) (o : C) : ST queue unit :=
  match n with
  | O => mret tt
  | S m => v ← read_other o (c_at i); on (c_push_back v);; copy_elements m (i + 1) o
  end.

(** The copy constructor, from the state of the original to the state of the copy. *)
Definition copy_construct : ST queue unit :=
  prq ← get;
  on c_construct;;
  on c_clear;;
  n ← read_other (container prq) c_size;
  copy_elements (Z.to_nat n) 0 (container prq);;
  set_nelement (nelement prq).

(** [~PriorityQueue()], and then the destructor of the container. *)
Definition destroy : ST queue unit :=
  on c_clear;;
  set_nelement 0;;
  on c_destroy.

Definition empty : ST queue bool := q ← get; mret (nelement q =? 0).

Definition size : ST queue Z := q ← get; mret (nelement q).

Definition top : ST queue A := on (c_at 1).

Fixpoint sift_down (fuel : nat) (p s n : Z) : ST queue unit :=
  if s <=? n then
    match fuel with
    | O => out_of_fuel
    | S f =>
        s ← (if s <? n then
               a ← on (c_at s);
               b ← on (c_at (u32 (s + 1)));
               mret (if comp a b then u32 (s + 1) else s)
             else mret s);
        a ← on (c_at s);
        b ← on (c_at p);
        if negb (comp a b) then swap s p;; sift_down f s (u32 (s * 2)) n else mret tt
    end
  else mret tt.

Definition pop : ST queue unit :=
  q ← get;
  if nelement q =? 0 then mret tt
  else
    swap 1 (nelement q);;
    on c_pop_back;;
    set_nelement (u32 (nelement q - 1));;
    sift_down 32 1 2 (u32 (nelement q - 1)).

Fixpoint sift_up (fuel : nat) (p : Z) : ST queue unit :=
  if 1 <? p then
    match fuel with
    | O => out_of_fuel
    | S f =>
        a ← on (c_at p);
        b ← on (c_at (p / 2));
        if negb (comp a b) then swap p (p / 2);; sift_up f (p / 2) else mret tt
    end
  else mret tt.

Definition push (element : A) : ST queue unit :=
  e ← on c_empty;
  (if e : bool then on (c_push_back placeholder0) else mret tt);;
  on (c_push_back element);;
  modify (fun q => mkqueue (container q) (u32 (nelement q + 1)));;
  q ← get;
  sift_up 32 (nelement q).

End Code.

Arguments queue : clear implicits.

End Queue.

(** * The priority queue is a priority queue

    The container is known only by the laws of [ContainerLaws], which the vector
    satisfies; the order only as a strict weak order.  The heap order is kept by
    both sifts, so the first element is a greatest one, and what is pushed and
    what is popped agree as multisets. *)

Module QueueThm.
Import Queue.

(** ** Orders *)

(** [comp] is a strict weak order: [negb (comp b a)], read "a is at most b", is total and transitive. *)
Class StrictWeak {A} (comp : A -> A -> bool) : Prop := {
  sw_asym a b : comp a b = true -> comp b a = false;
  sw_trans a b c : comp b a = false -> comp c b = false -> comp c a = false }.

#[export] Instance less_strict_weak : StrictWeak less.
Proof. split; unfold less; intros *; rewrite ?Z.ltb_lt, ?Z.ltb_ge; lia. Qed.

#[export] Instance greater_strict_weak : StrictWeak greater.
Proof. split; unfold greater; intros *; rewrite ?Z.ltb_lt, ?Z.ltb_ge; lia. Qed.

(** ** Heaps as functions of the index *)

Section Heap.
Context {A : Type} (comp : A -> A -> bool) `{!StrictWeak comp}.
Implicit Types g : Z -> A.

Definition le (a b : A) : Prop := comp b a = false.

Lemma le_refl a : le a a.
Proof. unfold le. destruct (comp a a) eqn:E; [|done]. by apply sw_asym in E as E'; congruence. Qed.

Lemma le_trans a b c : le a b -> le b c -> le a c.
Proof. apply sw_trans. Qed.

Lemma lt_le a b : comp a b = true -> le a b.
Proof. apply sw_asym. Qed.

Definition exch g (i j k : Z) : A := if k =? i then g j else if k =? j then g i else g k.

Definition heap (n : Z) g : Prop := forall i, 2 <= i <= n -> le (g i) (g (i / 2)).

(** Heaps but for the element at [p], which may be too great, or too small. *)
Definition grand (n : Z) g (p : Z) : Prop :=
  forall i, 2 <= i <= n -> i / 2 = p -> 2 <= p -> le (g i) (g (p / 2)).
Definition up_heap (n : Z) g (p : Z) : Prop :=
  (forall i, 2 <= i <= n -> i <> p -> le (g i) (g (i / 2))) /\ grand n g p.
Definition down_heap (n : Z) g (p : Z) : Prop :=
  (forall i, 2 <= i <= n -> i / 2 <> p -> le (g i) (g (i / 2))) /\ grand n g p.

Lemma half i : 2 * (i / 2) <= i <= 2 * (i / 2) + 1.
Proof. pose proof (Z.div_mod i 2 ltac:(lia)). pose proof (Z.mod_pos_bound i 2 ltac:(lia)). lia. Qed.

(** Case analysis on which cells of an exchange are meant. *)
Ltac cells := unfold exch; repeat (case_match; rewrite ?Z.eqb_eq, ?Z.eqb_neq in *); try lia.

Lemma up_done n g p : up_heap n g p -> p <= 1 \/ le (g p) (g (p / 2)) -> heap n g.
Proof. intros [H _] Hp i Hi. destruct (Z.eq_dec i p) as [->|]; [destruct Hp; [lia|done]|by apply H]. Qed.

Lemma up_step n g p :
  up_heap n g p -> 2 <= p <= n -> le (g (p / 2)) (g p) -> up_heap n (exch g p (p / 2)) (p / 2).
Proof.
  intros [H G] Hp Hle. pose proof (half p) as Hh. split.
  - intros i Hi Hne. pose proof (half i). cells.
    + done.
    + apply G; lia.
    + apply le_trans with (g (p / 2)); [|done]. replace (p / 2) with (i / 2) by lia. by apply H.
    + by apply H.
  - intros i Hi Hip Hp2. pose proof (half i). pose proof (half (p / 2)). cells.
    + by apply H; lia.
    + apply le_trans with (g (p / 2)); [|by apply H; lia]. rewrite <- Hip. by apply H.
Qed.

Lemma down_done n g p : 
  down_heap n g p -> (forall i, 2 <= i <= n -> i / 2 = p -> le (g i) (g p)) -> heap n g.
Proof. intros [H _] Hp i Hi. destruct (Z.eq_dec (i / 2) p) as [E|]; [rewrite E; by apply Hp|by apply H]. Qed.

Lemma down_step n g p s :
  down_heap n g p -> 1 <= p -> 2 <= s <= n -> s / 2 = p ->
  (forall i, 2 <= i <= n -> i / 2 = p -> le (g i) (g s)) -> le (g p) (g s) ->
  down_heap n (exch g s p) s.
Proof.
  intros [H G] Hp1 Hs Hsp Hbig Hle. pose proof (half s) as Hh. split.
  - intros i Hi Hne. pose proof (half i). cells; try done.
    + replace (i / 2) with (p / 2) by congruence. apply G; lia.
    + by apply Hbig.
    + by apply H.
  - intros i Hi His Hs2. pose proof (half i). rewrite Hsp. cells.
    rewrite <- His. by apply H; lia.
Qed.

(** The first element is a greatest one. *)
Lemma heap_top n g i : heap n g -> 1 <= i <= n -> le (g i) (g 1).
Proof.
  intros H Hi. destruct Hi as [H1 Hn]. revert Hn. pattern i. apply Zlt_lower_bound_ind with (z := 1); [|done].
  clear i H1. intros i IH H1 Hn. destruct (Z.eq_dec i 1) as [->|]; [apply le_refl|].
  pose proof (half i). apply le_trans with (g (i / 2)); [apply H; lia|apply IH; lia].
Qed.

Lemma up_heap_ext n g g' p : (forall k, g' k = g k) -> up_heap n g p -> up_heap n g' p.
Proof. intros E [H G]. split; [intros i; rewrite !E; apply H|intros i; rewrite !E; apply G]. Qed.

Lemma down_heap_ext n g g' p : (forall k, g' k = g k) -> down_heap n g p -> down_heap n g' p.
Proof. intros E [H G]. split; [intros i; rewrite !E; apply H|intros i; rewrite !E; apply G]. Qed.

End Heap.

(** ** Exchanging two elements of a list *)

Lemma insert_delete_perm {A} (l : list A) (i : nat) x y : l !! i = Some x -> <[i := y]> l ≡ₚ y :: delete i l.
Proof.
  intros Hx. rewrite insert_take_drop by (by eapply lookup_lt_Some). rewrite delete_take_drop.
  symmetry. apply Permutation_middle.
Qed.

Section Cells.
Context {A : Type} (d : A).
Implicit Types x : list A.

Definition cell x (k : Z) : A := default d (zlookup x k).

Definition swapped x (i j : Z) : list A := zinsert j (cell x i) (zinsert i (cell x j) x).

Lemma zlookup_cell x k : 0 <= k < Z.of_nat (length x) -> zlookup x k = Some (cell x k).
Proof. intros Hk. unfold cell. by destruct (zlookup_is_Some x k Hk) as (v & ->). Qed.

Lemma cell_zlookup x k v : zlookup x k = Some v -> cell x k = v.
Proof. unfold cell. by intros ->. Qed.

Lemma length_swapped x i j : length (swapped x i j) = length x.
Proof. unfold swapped. by rewrite !length_zinsert. Qed.

Lemma cell_zinsert x i v k :
  0 <= i < Z.of_nat (length x) -> cell (zinsert i v x) k = if k =? i then v else cell x k.
Proof.
  intros Hi. destruct (Z.eqb_spec k i) as [->|Hne].
  - apply cell_zlookup. by apply zlookup_zinsert_eq.
  - unfold cell. by rewrite zlookup_zinsert_ne.
Qed.

Lemma cell_swapped x i j k :
  0 <= i < Z.of_nat (length x) -> 0 <= j < Z.of_nat (length x) -> cell (swapped x i j) k = exch (cell x) i j k.
Proof.
  intros Hi Hj. unfold swapped, exch. rewrite cell_zinsert, cell_zinsert by (rewrite ?length_zinsert; done).
  destruct (Z.eqb_spec k j), (Z.eqb_spec k i); congruence.
Qed.

Lemma swapped_perm x i j :
  0 <= i < Z.of_nat (length x) -> 0 <= j < Z.of_nat (length x) -> swapped x i j ≡ₚ x.
Proof.
  intros Hi Hj. pose proof (zlookup_cell x i Hi) as Ha. pose proof (zlookup_cell x j Hj) as Hb.
  unfold swapped, zlookup, zinsert in *. rewrite (proj2 (Z.leb_le 0 i)) in * by lia. rewrite (proj2 (Z.leb_le 0 j)) in * by lia.
  revert Ha Hb. generalize (cell x i) (cell x j). intros a b Ha Hb.
  destruct (decide (Z.to_nat i = Z.to_nat j)) as [E|E].
  - rewrite E in *. rewrite list_insert_insert_eq. by rewrite list_insert_id.
  - assert (<[Z.to_nat i:=b]> x !! Z.to_nat j = Some b) as Hb' by (by rewrite list_lookup_insert_ne).
    etrans; [exact (insert_delete_perm _ _ _ a Hb')|].
    etrans; [|symmetry; exact (delete_Permutation x _ _ Ha)]. apply perm_skip.
    apply (Permutation_cons_inv (a := b)). rewrite <- (delete_Permutation _ _ _ Hb').
    by apply insert_delete_perm with a.
Qed.

End Cells.

(** ** What the container promises

    [c_rep s l]: the container [s] holds [l].  [c_keeps s s']: the step from [s]
    to [s'] touches no other object.  [c_apart o s]: [s] was made after [o] and
    shares nothing with it. *)
Class ContainerLaws (C A : Type) `{Container C A} := {
  c_world : C -> Prop;
  c_rep : C -> list A -> Prop;
  c_keeps : C -> C -> Prop;
  c_apart : C -> C -> Prop;
  c_rep_world s l : c_rep s l -> c_world s;
  c_keeps_refl s : c_keeps s s;
  c_keeps_trans s1 s2 s3 : c_keeps s1 s2 -> c_keeps s2 s3 -> c_keeps s1 s3;
  c_apart_keeps o s s' l : c_rep s l -> c_apart o s -> c_keeps s s' -> c_apart o s';
  c_view_rep o s l l' : c_rep o l -> c_rep s l' -> c_apart o s -> c_rep (c_view o s) l;
  c_construct_run s : c_world s -> exists s', c_construct s = Ok (tt, s') /\ c_rep s' [] /\ c_apart s s';
  c_destroy_run s l : c_rep s l -> exists s', c_destroy s = Ok (tt, s');
  c_clear_run s l : c_rep s l -> exists s', c_clear s = Ok (tt, s') /\ c_rep s' [] /\ c_keeps s s';
  c_push_back_run s l v : c_rep s l -> Z.of_nat (length l) < 2 ^ 31 ->
    exists s', c_push_back v s = Ok (tt, s') /\ c_rep s' (l ++ [v]) /\ c_keeps s s';
  c_pop_back_run s l : c_rep s l -> exists s', c_pop_back s = Ok (tt, s') /\ c_rep s' (removelast l) /\ c_keeps s s';
  c_at_run s l i v : c_rep s l -> zlookup l i = Some v -> c_at i s = Ok (v, s);
  c_assign_run s l i v : c_rep s l -> 0 <= i < Z.of_nat (length l) ->
    exists s', c_assign i v s = Ok (tt, s') /\ c_rep s' (zinsert i v l) /\ c_keeps s s';
  c_size_run s l : c_rep s l -> c_size s = Ok (Z.of_nat (length l), s);
  c_empty_run s l : c_rep s l -> c_empty s = Ok (Z.of_nat (length l) =? 0, s) }.

(** The vector keeps the promise. *)
#[export, refine] Instance vector_laws {A} (junk : A) : @ContainerLaws (Vector.state A) A (vector_container junk) := {
  c_world := VectorThm.heap_ok;
  c_rep := VectorThm.rep;
  c_keeps := VectorThm.keeps;
  c_apart o s := Vector.nxt o <= Vector.data_ s /\ Vector.nxt o <= Vector.nxt s /\
    forall p, p < Vector.nxt o -> Vector.bufs s !! p = Vector.bufs o !! p }.
Proof.
  - intros s l [_ _ _ Hd Hf]. split; [lia|done].
  - apply VectorThm.vec_keeps_refl.
  - apply VectorThm.keeps_trans.
  - intros o s s' l [_ _ _ Hd _] (H1 & H2 & H3) (K1 & K2 & K3). split_and!; [lia|lia|].
    intros p Hp. rewrite K3 by lia. by apply H3.
  - intros o s l l' Ho Hs (H1 & H2 & H3). apply VectorThm.rep_in_heap; [done|lia| |apply (VectorThm.rep_fresh _ _ Hs)].
    apply H3. apply (VectorThm.rep_data _ _ Ho).
  - intros s Hs. destruct (VectorThm.construct_run junk s Hs) as (s' & R & Hr & Hd & K). exists s'.
    pose proof (VectorThm.rep_data _ _ Hr). split_and!; [done|done|done|lia|done].
  - intros s l Hr. eexists. by eapply VectorThm.destroy_run.
  - apply VectorThm.vec_clear_run.
  - apply VectorThm.push_back_run.
  - apply VectorThm.pop_back_run.
  - apply VectorThm.at_run.
  - apply VectorThm.assign_run.
  - intros s l Hr. cbn. unfold Vector.size. by rewrite run_get, (VectorThm.rep_size _ _ Hr).
  - intros s l Hr. cbn. unfold Vector.empty. by rewrite run_get, (VectorThm.rep_size _ _ Hr).
Defined.

(** ** The queue *)

Section Runs.
Context {C A : Type} `{L : ContainerLaws C A} (comp : A -> A -> bool) `{!StrictWeak comp} (ph : A).
Implicit Types (q : queue C) (x h : list A).
Abbreviation cell := (cell ph).
Abbreviation swapped := (swapped ph).
Abbreviation heap := (heap comp).

(** The container of the queue holds [x]. *)
Definition holds q x : Prop := c_rep (container q) x.

(** A rearrangement of the elements after the placeholder. *)
Definition moved q x q' x' : Prop :=
  holds q' x' /\ x' ≡ₚ x /\ cell x' 0 = cell x 0 /\ nelement q' = nelement q /\ c_keeps (container q) (container q').

Lemma moved_refl q x : holds q x -> moved q x q x.
Proof. intros H0. split_and!; [done|done|done|done|apply c_keeps_refl]. Qed.

Lemma moved_trans q1 x1 q2 x2 q3 x3 : moved q1 x1 q2 x2 -> moved q2 x2 q3 x3 -> moved q1 x1 q3 x3.
Proof.
  intros (_ & P1 & Z1 & N1 & K1) (H2 & P2 & Z2 & N2 & K2).
  split_and!; [done|by rewrite P2|by rewrite Z2|by rewrite N2|by eapply c_keeps_trans].
Qed.

Lemma queue_on_run {B} (m : ST C B) q b c : m (container q) = Ok (b, c) -> on m q = Ok (b, mkqueue c (nelement q)).
Proof. intros Hm. unfold on, zoom. by rewrite Hm. Qed.

Lemma on_at_run q x k : holds q x -> 0 <= k < Z.of_nat (length x) -> on (c_at k) q = Ok (cell x k, q).
Proof.
  intros Hq Hk. rewrite (queue_on_run (c_at k) q (cell x k) (container q)); [by destruct q|]. eapply c_at_run; [exact Hq|by apply zlookup_cell].
Qed.

Lemma on_assign_run q x k v :
  holds q x -> 0 <= k < Z.of_nat (length x) ->
  exists q', on (c_assign k v) q = Ok (tt, q') /\ holds q' (zinsert k v x) /\ nelement q' = nelement q /\
             c_keeps (container q) (container q').
Proof.
  intros Hq Hk. destruct (c_assign_run _ _ k v Hq Hk) as (c & R & Hc & K). eexists. split; [by apply queue_on_run|done].
Qed.

Lemma pq_swap_run q x i j :
  holds q x -> 0 < i < Z.of_nat (length x) -> 0 < j < Z.of_nat (length x) ->
  exists q', swap i j q = Ok (tt, q') /\ moved q x q' (swapped x i j).
Proof.
  intros Hq Hi Hj. unfold swap. step (on_at_run q x i Hq ltac:(lia)). step (on_at_run q x j Hq ltac:(lia)).
  destruct (on_assign_run q x i (cell x j) Hq ltac:(lia)) as (q1 & R1 & H1 & N1 & K1). step R1.
  destruct (on_assign_run q1 _ j (cell x i) H1) as (q2 & R2 & H2 & N2 & K2); [rewrite length_zinsert; lia|].
  exists q2. split; [exact R2|]. split_and!.
  - exact H2.
  - apply swapped_perm; lia.
  - rewrite cell_swapped by lia. unfold exch. by rewrite !(proj2 (Z.eqb_neq 0 _)) by lia.
  - congruence.
  - by eapply c_keeps_trans.
Qed.

Lemma moved_length q x q' x' : moved q x q' x' -> length x' = length x.
Proof. intros (_ & P & _). by apply Permutation_length. Qed.

Lemma sift_up_run fuel q x p n :
  holds q x -> Z.of_nat (length x) = n + 1 -> 0 <= p <= n -> p < 2 * 2 ^ Z.of_nat fuel ->
  up_heap comp n (cell x) p ->
  exists q' x', sift_up comp fuel p q = Ok (tt, q') /\ moved q x q' x' /\ heap n (cell x').
Proof.
  revert q x p. induction fuel as [|fuel IH]; intros q x p Hq Hn Hp Hf Hu.
  - cbn [sift_up]. rewrite (proj2 (Z.ltb_ge 1 p)) by (change (2 ^ Z.of_nat 0) with 1 in Hf; lia).
    exists q, x. split; [done|]. split; [by apply moved_refl|]. eapply up_done; [exact Hu|].
    left. change (2 ^ Z.of_nat 0) with 1 in Hf. lia.
  - cbn [sift_up]. destruct (Z.ltb_spec 1 p) as [H1|H1].
    2: { exists q, x. split; [done|]. split; [by apply moved_refl|]. eapply up_done; [exact Hu|by left]. }
    pose proof (half p). step (on_at_run q x p Hq ltac:(lia)). step (on_at_run q x (p / 2) Hq ltac:(lia)).
    destruct (comp (cell x p) (cell x (p / 2))) eqn:E; cbn [negb].
    + exists q, x. split; [done|]. split; [by apply moved_refl|]. eapply up_done; [exact Hu|]. right. by apply lt_le.
    + destruct (pq_swap_run q x p (p / 2) Hq ltac:(lia) ltac:(lia)) as (q1 & R1 & M1). step R1.
      rewrite Nat2Z.inj_succ, Z.pow_succ_r in Hf by lia.
      destruct (IH q1 (swapped x p (p / 2)) (p / 2)) as (q2 & x2 & R2 & M2 & H2).
      * apply M1.
      * by rewrite length_swapped.
      * lia.
      * lia.
      * eapply up_heap_ext; [intros k; apply cell_swapped; lia|]. apply up_step; [done|done|lia|exact E].
      * exists q2, x2. split; [exact R2|]. split; [by eapply moved_trans|done].
Qed.

(** The greater child of [p]. *)
Lemma greater_child q x s n :
  holds q x -> Z.of_nat (length x) = n + 1 -> 2 <= s <= n -> n < 2 ^ 31 -> s mod 2 = 0 ->
  exists s', (if s <? n then a ← on (c_at s); b ← on (c_at (u32 (s + 1))); mret (if comp a b then u32 (s + 1) else s)
              else mret s) q = Ok (s', q) /\ s <= s' <= n /\ s' / 2 = s / 2 /\
    forall i, 2 <= i <= n -> i / 2 = s / 2 -> le comp (cell x i) (cell x s').
Proof.
  intros Hq Hn Hs Hmax Hev. pose proof (half s). pose proof (Z.div_mod s 2 ltac:(lia)).
  assert (forall i, i / 2 = s / 2 -> i = s \/ i = s + 1) as Hsib by (intros i Hi; pose proof (half i); lia).
  destruct (Z.ltb_spec s n) as [Hlt|Hge].
  - rewrite u32_small by lia.
    step (on_at_run q x s Hq ltac:(lia)). step (on_at_run q x (s + 1) Hq ltac:(lia)).
    pose proof (half (s + 1)). destruct (comp (cell x s) (cell x (s + 1))) eqn:E; eexists; (split; [reflexivity|]).
    + split_and!; [lia|lia|lia|]. intros i Hi Hp. destruct (Hsib i Hp) as [->| ->]; [by apply lt_le|by apply le_refl].
    + split_and!; [lia|lia|lia|]. intros i Hi Hp. destruct (Hsib i Hp) as [->| ->]; [by apply le_refl|exact E].
  - exists s. split; [done|]. split_and!; [lia|lia|lia|]. intros i Hi Hp. destruct (Hsib i Hp) as [->| ->]; [by apply le_refl|lia].
Qed.

Lemma sift_down_run fuel q x p n :
  holds q x -> Z.of_nat (length x) = n + 1 -> n < 2 ^ 31 -> 1 <= p -> n < 2 * p * 2 ^ Z.of_nat fuel ->
  down_heap comp n (cell x) p ->
  exists q' x', sift_down comp fuel p (p * 2) n q = Ok (tt, q') /\ moved q x q' x' /\ heap n (cell x').
Proof.
  revert q x p. induction fuel as [|fuel IH]; intros q x p Hq Hn Hmax Hp Hf Hd; cbn [sift_down].
  all: destruct (Z.leb_spec (p * 2) n) as [Hle|Hgt].
  2,4: exists q, x; (split; [done|]); (split; [by apply moved_refl|]); eapply down_done; [exact Hd|];
       intros i Hi Hip; pose proof (half i); lia.
  - change (2 ^ Z.of_nat 0) with 1 in Hf. lia.
  - destruct (greater_child q x (p * 2) n Hq Hn ltac:(lia) Hmax (Z.mod_mul p 2 ltac:(lia))) as (s & Rs & Hs & Hsp & Hbig).
    rewrite Z.div_mul in Hsp, Hbig by lia. step Rs.
    step (on_at_run q x s Hq ltac:(lia)). step (on_at_run q x p Hq ltac:(lia)).
    destruct (comp (cell x s) (cell x p)) eqn:E; cbn [negb].
    + exists q, x. split; [done|]. split; [by apply moved_refl|]. eapply down_done; [exact Hd|].
      intros i Hi Hip. apply le_trans with (cell x s); [done|by apply Hbig|by apply lt_le].
    + destruct (pq_swap_run q x s p Hq ltac:(lia) ltac:(lia)) as (q1 & R1 & M1). step R1. rewrite u32_small by lia.
      rewrite Nat2Z.inj_succ, Z.pow_succ_r in Hf by lia.
      destruct (IH q1 (swapped x s p) s) as (q2 & x2 & R2 & M2 & H2).
      * apply M1.
      * by rewrite length_swapped.
      * done.
      * lia.
      * pose proof (Z.pow_pos_nonneg 2 (Z.of_nat fuel)). nia.
      * eapply down_heap_ext; [intros k; apply cell_swapped; lia|]. apply down_step; [done|lia|lia|done|done|exact E].
      * exists q2, x2. split; [exact R2|]. split; [by eapply moved_trans|done].
Qed.

(** The queue holds the elements [h], in the order of the heap. *)
Definition pqrep q h : Prop :=
  exists e, holds q (e :: h) /\ nelement q = Z.of_nat (length h) /\ Z.of_nat (length h) < 2 ^ 31 /\
            heap (Z.of_nat (length h)) (cell (e :: h)).

Lemma holds_on {B} (m : ST C B) b q x :
  (exists c, m (container q) = Ok (b, c) /\ c_rep c x /\ c_keeps (container q) c) ->
  exists q', on m q = Ok (b, q') /\ holds q' x /\ nelement q' = nelement q /\ c_keeps (container q) (container q').
Proof. intros (c & R & Hc & K). eexists. split; [by apply queue_on_run|done]. Qed.

(** A rearranged array still begins with the placeholder. *)
Lemma moved_cons q e h q' x' : moved q (e :: h) q' x' -> exists h', x' = e :: h' /\ h' ≡ₚ h.
Proof.
  intros (_ & P & Z0 & _). destruct x' as [|e' h']; [by apply Permutation_nil_cons in P|].
  assert (e' = e) as -> by exact Z0. exists h'. split; [done|]. by eapply Permutation_cons_inv.
Qed.

Lemma cell_app_l x y k : k < Z.of_nat (length x) -> cell (x ++ y) k = cell x k.
Proof.
  intros Hk. unfold cell, zlookup. destruct (Z.leb_spec 0 k); [|done]. rewrite lookup_app_l by lia. done.
Qed.

Lemma pq_push_run q h v :
  pqrep q h -> Z.of_nat (length h) + 1 < 2 ^ 31 ->
  exists q' h', push comp ph v q = Ok (tt, q') /\ pqrep q' h' /\ h' ≡ₚ v :: h /\ c_keeps (container q) (container q').
Proof.
  intros (e & Hq & Hn & Hmax & Hh) Hl. unfold push. set (n := Z.of_nat (length h)) in *.
  assert (on c_empty q = Ok (false, q)) as Re.
  { rewrite (queue_on_run c_empty q false (container q)); [by destruct q|]. rewrite (c_empty_run _ _ Hq). done. }
  step Re. erewrite run_bind; [|reflexivity].
  destruct (holds_on (c_push_back v) tt q ((e :: h) ++ [v])) as (q1 & R1 & H1 & N1 & K1).
  { apply c_push_back_run; [exact Hq|]. cbn [length]. lia. }
  step R1. erewrite run_bind; [|reflexivity]. rewrite run_get. cbn [nelement].
  rewrite N1, Hn, u32_small by lia. fold n.
  destruct (sift_up_run 32 (mkqueue (container q1) (n + 1)) ((e :: h) ++ [v]) (n + 1) (n + 1)) as (q2 & x2 & R2 & M2 & H2).
  - exact H1.
  - rewrite length_app. cbn [length]. lia.
  - lia.
  - change (2 ^ Z.of_nat 32) with (2 ^ 32). lia.
  - split; intros i Hi; pose proof (half i).
    + intros Hne. rewrite !cell_app_l by (cbn [length]; lia). apply Hh. lia.
    + lia.
  - destruct (moved_cons _ e (h ++ [v]) _ _ M2) as (h2 & -> & P2). exists q2, h2. split; [exact R2|].
    assert (length h2 = S (length h)) as Hlen by (rewrite P2, length_app; cbn; lia).
    destruct M2 as (M2 & _ & _ & Nm & Km). split_and!.
    + exists e. rewrite Hlen. replace (Z.of_nat (S (length h))) with (n + 1) by lia. split_and!; [done|done|lia|done].
    + by rewrite P2, Permutation_app_comm.
    + eapply c_keeps_trans; [exact K1|exact Km].
Qed.

(** [m] is a greatest element of [h]. *)
Definition greatest (m : A) h : Prop := m ∈ h /\ forall y, y ∈ h -> le comp y m.

Lemma heap_greatest e m h : heap (Z.of_nat (length (m :: h))) (cell (e :: m :: h)) -> greatest m (m :: h).
Proof.
  intros Hh. split; [left|]. intros y Hy. apply list_elem_of_lookup in Hy as (i & Hi).
  pose proof (lookup_lt_Some _ _ _ Hi). pose proof (heap_top comp _ _ (Z.of_nat i + 1) Hh ltac:(lia)) as Ht.
  replace (cell (e :: m :: h) (Z.of_nat i + 1)) with y in Ht; [exact Ht|].
  symmetry. apply cell_zlookup. unfold zlookup. rewrite (proj2 (Z.leb_le _ _)) by lia.
  replace (Z.to_nat (Z.of_nat i + 1)) with (S i) by lia. exact Hi.
Qed.

Lemma pq_top_run q m h : pqrep q (m :: h) -> top q = Ok (m, q) /\ greatest m (m :: h).
Proof.
  intros (e & Hq & Hn & Hmax & Hh). split; [|by eapply heap_greatest].
  unfold top. rewrite (on_at_run q _ 1 Hq); [done|]. cbn [length]. lia.
Qed.

(** The array after the first and the last element are exchanged and the last is cut off. *)
Lemma swap_cut e m h :
  let n := Z.of_nat (length (m :: h)) in
  exists h', removelast (swapped (e :: m :: h) 1 n) = e :: h' /\ m :: h' ≡ₚ m :: h /\
    forall k, 0 <= k < n -> cell (e :: h') k = exch (cell (e :: m :: h)) 1 n k.
Proof.
  intros n. set (x := e :: m :: h). assert (Z.of_nat (length x) = n + 1) as Hx by (unfold x, n; cbn [length]; lia).
  assert (0 < n) as Hn by (unfold n; cbn [length]; lia).
  pose proof (swapped_perm ph x 1 n ltac:(lia) ltac:(lia)) as HP.
  pose proof (length_swapped ph x 1 n) as HL.
  pose proof (fun k => cell_swapped ph x 1 n k ltac:(lia) ltac:(lia)) as HC.
  destruct (swapped x 1 n) as [|z y _] eqn:E using rev_ind; [cbn in HL; lia|].
  rewrite length_app in HL. cbn [length] in HL.
  assert (z = m) as ->.
  { pose proof (HC n) as Hz. unfold exch in Hz. rewrite Z.eqb_refl in Hz.
    assert (cell (y ++ [z]) n = z) as Hy by (apply cell_zlookup, VectorThm.zlookup_mid; lia).
    rewrite Hy in Hz. rewrite Hz. by destruct (Z.eqb_spec n 1) as [->|]. }
  rewrite removelast_last. destruct y as [|e' h']; [cbn in HL; lia|].
  assert (e' = e) as ->.
  { pose proof (HC 0) as Hz. unfold exch in Hz. rewrite !(proj2 (Z.eqb_neq 0 _)) in Hz by lia. exact Hz. }
  exists h'. split_and!; [done| |].
  - apply (Permutation_cons_inv (a := e)). etrans; [|exact HP]. cbn [app]. apply perm_skip. apply Permutation_cons_append.
  - intros k Hk. rewrite <- HC. symmetry. apply cell_app_l. lia.
Qed.

Lemma pq_pop_run q m h :
  pqrep q (m :: h) ->
  exists q' h', pop comp q = Ok (tt, q') /\ pqrep q' h' /\ h' ≡ₚ h /\ c_keeps (container q) (container q').
Proof.
  intros (e & Hq & Hn & Hmax & Hh). unfold pop. rewrite run_get. set (n := Z.of_nat (length (m :: h))) in *.
  assert (0 < n) as Hpos by (unfold n; cbn [length]; lia).
  rewrite Hn. rewrite (proj2 (Z.eqb_neq n 0)) by lia.
  destruct (pq_swap_run q _ 1 n Hq) as (q1 & R1 & M1); [cbn [length] in *; lia|cbn [length] in *; lia|]. step R1.
  destruct (swap_cut e m h) as (h1 & E1 & P1 & C1). fold n in E1, C1. apply Permutation_cons_inv in P1.
  destruct M1 as (H1 & _ & _ & N1 & K1).
  destruct (holds_on c_pop_back tt q1 (e :: h1)) as (q2 & R2 & H2 & N2 & K2).
  { rewrite <- E1. by apply c_pop_back_run. }
  step R2. erewrite run_bind; [|reflexivity]. rewrite u32_small by lia.
  assert (Z.of_nat (length h1) = n - 1) as Hlen by (rewrite P1; unfold n; cbn [length]; lia).
  destruct (sift_down_run 32 (mkqueue (container q2) (n - 1)) (e :: h1) 1 (n - 1)) as (q3 & x3 & R3 & M3 & H3).
  - exact H2.
  - cbn [length]. lia.
  - lia.
  - lia.
  - change (2 ^ Z.of_nat 32) with (2 ^ 32). lia.
  - split; intros i Hi; pose proof (half i); [|lia]. intros Hne. rewrite !C1 by lia.
    unfold exch. rewrite !(proj2 (Z.eqb_neq _ _)) by lia. apply Hh. lia.
  - destruct (moved_cons _ _ _ _ _ M3) as (h3 & -> & P3). exists q3, h3. split; [exact R3|].
    destruct M3 as (M3 & _ & _ & N3 & K3). split_and!.
    + exists e. rewrite (Permutation_length P3), Hlen. split_and!; [done|done|lia|done].
    + by rewrite P3.
    + eapply c_keeps_trans; [exact K1|]. by eapply c_keeps_trans.
Qed.

Lemma pq_construct_run q :
  c_world (container q) ->
  exists q', construct ph q = Ok (tt, q') /\ pqrep q' [] /\ c_apart (container q) (container q').
Proof.
  intros Hw. unfold construct. destruct (c_construct_run _ Hw) as (c1 & R1 & H1 & A1).
  step (queue_on_run c_construct q tt c1 R1).
  destruct (holds_on c_clear tt (mkqueue c1 (nelement q)) []) as (q2 & R2 & H2 & _ & K2); [by eapply c_clear_run|]. step R2.
  destruct (holds_on (c_push_back ph) tt q2 ([] ++ [ph])) as (q3 & R3 & H3 & _ & K3).
  { apply c_push_back_run; [exact H2|]. cbn. lia. }
  step R3. eexists. split; [reflexivity|]. split.
  - exists ph. split_and!; [exact H3|done|cbn; lia|]. intros i Hi. cbn in Hi. lia.
  - cbn. eapply c_apart_keeps; [exact H2| |exact K3]. eapply c_apart_keeps; [exact H1|exact A1|exact K2].
Qed.

Lemma read_other_run {B} (m : ST C B) b o s q : m (c_view o (container q)) = Ok (b, s) -> read_other o m q = Ok (b, q).
Proof. intros Hm. unfold read_other. by rewrite Hm. Qed.

Lemma copy_elements_run x2 x1 o q i :
  c_rep o (x1 ++ x2) -> Z.of_nat (length (x1 ++ x2)) <= 2 ^ 31 -> holds q x1 -> c_apart o (container q) ->
  i = Z.of_nat (length x1) ->
  exists q', copy_elements (length x2) i o q = Ok (tt, q') /\ holds q' (x1 ++ x2) /\ c_apart o (container q').
Proof.
  revert x1 q i. induction x2 as [|v x2 IH]; intros x1 q i Ho Hl Hq Ha Hi; cbn [length copy_elements].
  - exists q. by rewrite app_nil_r.
  - assert (read_other o (c_at i) q = Ok (v, q)) as Rv.
    { eapply read_other_run, c_at_run; [eapply c_view_rep; [exact Ho|exact Hq|exact Ha]|by apply VectorThm.zlookup_mid]. }
    step Rv. rewrite length_app in Hl. cbn [length] in Hl.
    destruct (holds_on (c_push_back v) tt q (x1 ++ [v])) as (q1 & R1 & H1 & _ & K1).
    { apply c_push_back_run; [exact Hq|lia]. }
    step R1. destruct (IH (x1 ++ [v]) q1 (i + 1)) as (q2 & R2 & H2 & A2).
    + by rewrite <- app_assoc.
    + rewrite !length_app. cbn [length]. lia.
    + exact H1.
    + exact (c_apart_keeps _ _ _ _ Hq Ha K1).
    + rewrite length_app. cbn [length]. lia.
    + exists q2. rewrite <- app_assoc in H2. split_and!; [exact R2|exact H2|exact A2].
Qed.

Lemma pq_copy_construct_run q h :
  pqrep q h ->
  exists q', copy_construct q = Ok (tt, q') /\ pqrep q' h /\ c_apart (container q) (container q').
Proof.
  intros (e & Hq & Hn & Hmax & Hh). unfold copy_construct. rewrite run_get.
  destruct (c_construct_run _ (c_rep_world _ _ Hq)) as (c1 & R1 & H1 & A1).
  step (queue_on_run c_construct q tt c1 R1).
  destruct (holds_on c_clear tt (mkqueue c1 (nelement q)) []) as (q2 & R2 & H2 & _ & K2); [by eapply c_clear_run|]. step R2.
  pose proof (c_apart_keeps _ _ _ _ H1 A1 K2) as A2.
  assert (read_other (container q) c_size q2 = Ok (Z.of_nat (length (e :: h)), q2)) as Rn.
  { eapply read_other_run, c_size_run. eapply c_view_rep; [exact Hq|exact H2|exact A2]. }
  step Rn. rewrite Nat2Z.id.
  destruct (copy_elements_run (e :: h) [] (container q) q2 0 Hq) as (q3 & R3 & H3 & A3); [cbn [app length]; lia|done|done|done|].
  step R3. eexists. split; [reflexivity|]. split; [|exact A3]. by exists e.
Qed.

Lemma pq_destroy_run q h : pqrep q h -> exists q', destroy q = Ok (tt, q').
Proof.
  intros (e & Hq & _). unfold destroy.
  destruct (holds_on c_clear tt q []) as (q1 & R1 & H1 & _ & _); [by eapply c_clear_run|]. step R1.
  erewrite run_bind; [|reflexivity]. destruct (c_destroy_run _ _ H1) as (c & Rc).
  eexists. by apply (queue_on_run c_destroy (mkqueue (container q1) 0)).
Qed.

(** ** Sequences of operations *)

Inductive qop := QPush (v : A) | QPop | QTop | QSize | QEmpty.

Inductive qanswer := QDone | QValue (v : A) | QNumber (n : Z) | QTruth (b : bool).

Definition qexec (o : qop) : ST (queue C) qanswer :=
  match o with
  | QPush v => push comp ph v;; mret QDone
  | QPop => pop comp;; mret QDone
  | QTop => v ← top; mret (QValue v)
  | QSize => n ← size; mret (QNumber n)
  | QEmpty => b ← empty; mret (QTruth b)
  end.

Fixpoint qexecs (os : list qop) : ST (queue C) (list qanswer) :=
  match os with [] => mret [] | o :: os => a ← qexec o; rest ← qexecs os; mret (a :: rest) end.

(** A bag of elements, a list up to permutation, from which a greatest element is taken. *)
Inductive bag_step : qop -> list A -> qanswer -> list A -> Prop :=
| bag_push v M M' : M' ≡ₚ v :: M -> bag_step (QPush v) M QDone M'
| bag_pop_empty : bag_step QPop [] QDone []
| bag_pop m M M' : greatest m M -> M ≡ₚ m :: M' -> bag_step QPop M QDone M'
| bag_top m M : greatest m M -> bag_step QTop M (QValue m) M
| bag_size M : bag_step QSize M (QNumber (Z.of_nat (length M))) M
| bag_empty M : bag_step QEmpty M (QTruth (Z.of_nat (length M) =? 0)) M.

Inductive bag_steps : list qop -> list A -> list qanswer -> list A -> Prop :=
| bag_nil M : bag_steps [] M [] M
| bag_cons o os M1 M2 M3 a rest :
    bag_step o M1 a M2 -> bag_steps os M2 rest M3 -> bag_steps (o :: os) M1 (a :: rest) M3.

(** No [top] of an empty queue, and fewer than [2^31] elements; [n] is the number of elements. *)
Fixpoint callable (os : list qop) (n : Z) : bool :=
  match os with
  | [] => true
  | QPush _ :: os => (n + 1 <? 2 ^ 31) && callable os (n + 1)
  | QPop :: os => callable os (if n =? 0 then 0 else n - 1)
  | QTop :: os => negb (n =? 0) && callable os n
  | _ :: os => callable os n
  end.

Lemma qexec_run o os q h :
  pqrep q h -> callable (o :: os) (Z.of_nat (length h)) = true ->
  exists q' h' a, qexec o q = Ok (a, q') /\ pqrep q' h' /\ bag_step o h a h' /\
    c_keeps (container q) (container q') /\ callable os (Z.of_nat (length h')) = true.
Proof.
  intros Hq Hc. destruct o as [v| | | |]; cbn [callable] in Hc; cbn [qexec].
  - apply andb_true_iff in Hc as [Hl%Z.ltb_lt Hc].
    destruct (pq_push_run q h v Hq Hl) as (q' & h' & R & Hq' & P & K). step R. exists q', h', QDone.
    split_and!; [done|done|by constructor|done|]. rewrite P. cbn [length]. by rewrite Nat2Z.inj_succ.
  - destruct h as [|m h].
    + exists q, [], QDone. split_and!; [|done|constructor|apply c_keeps_refl|done].
      destruct Hq as (e & _ & Hn & _). unfold pop. erewrite run_bind; [|rewrite run_get, Hn; reflexivity]. done.
    + destruct (pq_top_run q m h Hq) as [_ Hg]. destruct (pq_pop_run q m h Hq) as (q' & h' & R & Hq' & P & K). step R.
      exists q', h', QDone. split_and!; [done|done|by apply bag_pop with m; [|rewrite P]|done|].
      rewrite P. cbn [length] in Hc. rewrite (proj2 (Z.eqb_neq _ 0)) in Hc by lia.
      by replace (Z.of_nat (S (length h)) - 1) with (Z.of_nat (length h)) in Hc by lia.
  - apply andb_true_iff in Hc as [Hl Hc]. destruct h as [|m h]; [done|]. destruct (pq_top_run q m h Hq) as [R Hg].
    step R. exists q, (m :: h), (QValue m). split_and!; [done|done|by constructor|apply c_keeps_refl|done].
  - exists q, h, (QNumber (Z.of_nat (length h))). split_and!; [|done|constructor|apply c_keeps_refl|done].
    destruct Hq as (e & _ & <- & _). done.
  - exists q, h, (QTruth (Z.of_nat (length h) =? 0)). split_and!; [|done|constructor|apply c_keeps_refl|done].
    destruct Hq as (e & _ & <- & _). done.
Qed.

Lemma qexecs_run os q h :
  pqrep q h -> callable os (Z.of_nat (length h)) = true ->
  exists q' h' answers, qexecs os q = Ok (answers, q') /\ pqrep q' h' /\ bag_steps os h answers h' /\
    c_keeps (container q) (container q').
Proof.
  revert q h. induction os as [|o os IH]; intros q h Hq Hc.
  - exists q, h, []. split_and!; [done|done|constructor|apply c_keeps_refl].
  - destruct (qexec_run o os q h Hq Hc) as (q1 & h1 & a & R1 & Hq1 & S1 & K1 & Hc1).
    destruct (IH q1 h1 Hq1 Hc1) as (q2 & h2 & rest & R2 & Hq2 & S2 & K2).
    exists q2, h2, (a :: rest). cbn [qexecs]. step R1. step R2.
    split_and!; [done|done|by econstructor|by eapply c_keeps_trans].
Qed.

(** ** Sorting with the queue, as its test does *)

Fixpoint push_all (l : list A) : ST (queue C) unit :=
  match l with [] => mret tt | v :: l => push comp ph v;; push_all l end.

Fixpoint drain (fuel : nat) : ST (queue C) (list A) :=
  e ← empty;
  if e : bool then mret []
  else match fuel with O => out_of_fuel | S f => t ← top; pop comp;; rest ← drain f; mret (t :: rest) end.

Lemma push_all_run l q h :
  pqrep q h -> Z.of_nat (length h + length l) < 2 ^ 31 ->
  exists q' h', push_all l q = Ok (tt, q') /\ pqrep q' h' /\ h' ≡ₚ l ++ h.
Proof.
  revert q h. induction l as [|v l IH]; intros q h Hq Hl; cbn [push_all].
  - by exists q, h.
  - cbn [length] in Hl. destruct (pq_push_run q h v Hq ltac:(lia)) as (q1 & h1 & R1 & Hq1 & P1 & _). step R1.
    destruct (IH q1 h1 Hq1) as (q2 & h2 & R2 & Hq2 & P2); [rewrite P1; cbn [length]; lia|].
    exists q2, h2. split_and!; [done|done|]. rewrite P2, P1. symmetry. apply Permutation_middle.
Qed.

Lemma drain_run fuel q h :
  pqrep q h -> (length h <= fuel)%nat ->
  exists q' out, drain fuel q = Ok (out, q') /\ pqrep q' [] /\ out ≡ₚ h /\ StronglySorted (fun a b => le comp b a) out.
Proof.
  revert q h. induction fuel as [|fuel IH]; intros q h Hq Hf.
  all: assert (empty q = Ok (Z.of_nat (length h) =? 0, q)) as Re by (destruct Hq as (e & _ & <- & _); done).
  all: cbn [drain]; step Re; destruct h as [|m h]; [exists q, []; split_and!; [done|done|done|constructor]|].
  - cbn in Hf. lia.
  - cbn [length]. rewrite (proj2 (Z.eqb_neq _ 0)) by lia. destruct (pq_top_run q m h Hq) as [Rt [_ Hg]]. step Rt.
    destruct (pq_pop_run q m h Hq) as (q1 & h1 & R1 & Hq1 & P1 & _). step R1. cbn [length] in Hf.
    destruct (IH q1 h1 Hq1) as (q2 & out & R2 & Hq2 & P2 & S2); [rewrite P1; lia|]. step R2.
    exists q2, (m :: out). split_and!; [done|done|by rewrite P2, P1|].
    constructor; [done|]. rewrite P2, P1. apply Forall_forall. intros y Hy. apply Hg. by right.
Qed.

End Runs.

Arguments qop : clear implicits.
Arguments qanswer : clear implicits.

(** The containers of the witnesses: vectors of integers. *)
#[local] Instance ints : Container (Vector.state Z) Z := vector_container 0.
#[local] Instance ints_laws : ContainerLaws (Vector.state Z) Z := vector_laws 0.

Definition new_queue : queue (Vector.state Z) := mkqueue VectorThm.empty_heap 0.

(** Over any container that keeps its promise and any strict weak order, a
    new queue behaves as a bag from which greatest elements are taken: every
    sequence of operations without a [top] of the empty queue returns, [top]
    answers with a greatest element, and [pop] removes one. *)
Theorem pq_is_bag {C A : Type} `{ContainerLaws C A} (comp : A -> A -> bool) `{!StrictWeak comp} (ph : A)
  (q : queue C) (os : list (qop A)) :
  c_world (container q) -> callable os 0 = true ->
  exists q' answers M, (construct ph;; qexecs comp ph os) q = Ok (answers, q') /\
    bag_steps comp os [] answers M /\ pqrep comp ph q' M.
Proof.
  intros Hw Hc. destruct (pq_construct_run comp ph q Hw) as (q1 & R1 & H1 & _). step R1.
  destruct (qexecs_run comp ph os q1 [] H1 Hc) as (q2 & M & answers & R2 & H2 & S2 & _). by exists q2, answers, M.
Qed.

Definition ex_qops : list (qop Z) := [QPush 5; QPush 9; QTop; QPush 7; QPop; QTop; QSize; QPop; QPop; QEmpty; QPop; QPush 1].

Lemma pq_is_bag_witness :
  exists q' answers M, (construct 0;; qexecs less 0 ex_qops) new_queue = Ok (answers, q') /\
    bag_steps less ex_qops [] answers M /\ pqrep less 0 q' M.
Proof. apply (pq_is_bag less 0 new_queue ex_qops); [exact VectorThm.empty_heap_ok|vm_compute; reflexivity]. Defined.

(** C26: pushing the elements of a list and then taking the top until the queue
    is empty returns the elements of the list, from the greatest to the least. *)
Theorem pq_sorts {C A : Type} `{ContainerLaws C A} (comp : A -> A -> bool) `{!StrictWeak comp} (ph : A)
  (q : queue C) (l : list A) :
  c_world (container q) -> Z.of_nat (length l) < 2 ^ 31 ->
  exists q' out, (construct ph;; push_all comp ph l;; drain comp (length l)) q = Ok (out, q') /\
    out ≡ₚ l /\ StronglySorted (fun a b => le comp b a) out /\ pqrep comp ph q' [].
Proof.
  intros Hw Hl. destruct (pq_construct_run comp ph q Hw) as (q1 & R1 & H1 & _). step R1.
  destruct (push_all_run comp ph l q1 [] H1) as (q2 & h & R2 & H2 & P2); [cbn; lia|]. step R2.
  rewrite app_nil_r in P2.
  destruct (drain_run comp ph (length l) q2 h H2) as (q3 & out & R3 & H3 & P3 & S3); [by rewrite P2|].
  exists q3, out. split_and!; [done|by rewrite P3|done|done].
Qed.

Definition ex_ints : list Z := [12; 3234; 23; 3424; 505; 32132; 32456; 23321; -3213; 12323].

Lemma pq_sorts_witness :
  exists q' out, (construct 0;; push_all greater 0 ex_ints;; drain greater (length ex_ints)) new_queue = Ok (out, q') /\
    out ≡ₚ ex_ints /\ StronglySorted (fun a b => le greater b a) out /\ pqrep greater 0 q' [].
Proof. apply (pq_sorts greater 0 new_queue ex_ints); [exact VectorThm.empty_heap_ok|vm_compute; reflexivity]. Defined.

(** A copy of a queue holds the same heap, and whatever is then done with
    the copy, the original in the heap this leaves is as it was. *)
Theorem pq_copy_independent {C A : Type} `{ContainerLaws C A} (comp : A -> A -> bool) `{!StrictWeak comp} (ph : A)
  (q : queue C) (h : list A) (os : list (qop A)) :
  pqrep comp ph q h -> callable os (Z.of_nat (length h)) = true ->
  exists c c' answers h', copy_construct q = Ok (tt, c) /\ pqrep comp ph c h /\
    qexecs comp ph os c = Ok (answers, c') /\ bag_steps comp os h answers h' /\ pqrep comp ph c' h' /\
    pqrep comp ph (mkqueue (c_view (container q) (container c')) (nelement q)) h.
Proof.
  intros Hq Hc. destruct (pq_copy_construct_run comp ph q h Hq) as (c & R1 & H1 & A1).
  destruct (qexecs_run comp ph os c h H1 Hc) as (c' & h' & answers & R2 & H2 & S2 & K2).
  exists c, c', answers, h'. split_and!; [done|done|done|done|done|].
  destruct H1 as (e1 & H1 & _), H2 as (e2 & H2 & _), Hq as (e & Hq & Hrest). exists e. split; [|exact Hrest].
  eapply c_view_rep; [exact Hq|exact H2|]. exact (c_apart_keeps _ _ _ _ H1 A1 K2).
Qed.

Lemma ex_queue_rep : pqrep less 0 (mkqueue VectorThm.ex_vector 1) [6].
Proof. exists 5. split_and!; [exact VectorThm.ex_vector_rep|done|cbn; lia|]. intros i Hi. cbn in Hi. lia. Qed.

Lemma pq_copy_independent_witness :
  exists c c' answers h', copy_construct (mkqueue VectorThm.ex_vector 1) = Ok (tt, c) /\ pqrep less 0 c [6] /\
    qexecs less 0 [QPush 8; QTop; QPop; QPop] c = Ok (answers, c') /\
    bag_steps less [QPush 8; QTop; QPop; QPop] [6] answers h' /\ pqrep less 0 c' h' /\
    pqrep less 0 (mkqueue (c_view VectorThm.ex_vector (container c')) 1) [6].
Proof. apply (pq_copy_independent less 0 (mkqueue VectorThm.ex_vector 1) [6]); [exact ex_queue_rep|vm_compute; reflexivity]. Defined.

End QueueThm.
