(* ===== verification/Mp.v ===== *)
(** * Finding the processors (drivers/cpu/mp.c)

    The tables that the BIOS leaves in memory are read through the kernel's
    mapping of physical memory.  The theorems: the search returns the first
    structure with the right signature and checksum of the places it visits;
    the table of entries is read entry by entry, which records the local APIC of
    the first NCPU processors in order; and an entry of a type that is not known
    keeps the loop where it is, so that the [panic] behind it is never reached. *)

From Stdlib Require Import ZArith Lia.
From stdpp Require Import base numbers strings list gmap.
From S2P Require Import Prelude Mmu Mem.

Open Scope Z_scope.

Module Mp.
Import Mmu Mem.

Definition NCPU : Z := 8.

(** Sizes of [struct mp], [mpconf], [mpproc] and [mpioapic]. *)
Definition MP_SIZE : Z := 16.
Definition MPCONF_SIZE : Z := 44.
Definition MPPROC_SIZE : Z := 20.
Definition MPIOAPIC_SIZE : Z := 8.

(** The types of entries. *)
Definition MPPROC : Z := 0.
Definition MPBUS : Z := 1.
Definition MPIOAPIC : Z := 2.
Definition MPIOINTR : Z := 3.
Definition MPLINTR : Z := 4.

(** The strings _MP_ and PCMP. *)
Definition MP_SIG : list Z := [95; 77; 80; 95].
Definition PCMP_SIG : list Z := [80; 67; 77; 80].

Definition load16 (m : mem) (a : Z) : Z := m a + 256 * m (a + 1).

(** [memcmp(p, literal, n)]. *)
Fixpoint memcmp (m : mem) (p : Z) (lit : list Z) : Z :=
  match lit with
  | [] => 0
  | c :: lit => if negb (m p =? c) then m p - c else memcmp m (p + 1) lit
  end.

(** The bytes are added up in an [int] and returned as an [uchar]. *)
Fixpoint sum_loop (m : mem) (addr : Z) (n : nat) (sum : Z) : Z :=
  match n with O => sum | S n => sum_loop m (addr + 1) n (sum + m addr) end.

Definition sum (m : mem) (addr len : Z) : Z := u8 (sum_loop m addr (Z.to_nat len) 0).

Fixpoint mpsearch_loop (fuel : nat) (m : mem) (p e : Z) : outcome Z :=
  if p <? e then
    if (memcmp m p MP_SIG =? 0) && (sum m p MP_SIZE =? 0) then Ok p
    else match fuel with O => Fuel | S f => mpsearch_loop f m (u32 (p + MP_SIZE)) e end
  else Ok 0.

Definition mpsearch1 (m : mem) (a len : Z) : outcome Z :=
  let addr := P2V a in
  mpsearch_loop (Z.to_nat (len / MP_SIZE)) m addr (u32 (addr + len)).

Definition mpsearch (m : mem) : outcome Z :=
  let bda := P2V 0x400 in
  let rom := mpsearch1 m 0xF0000 0x10000 in
  let p := Z.shiftl (Z.lor (Z.shiftl (m (bda + 0x0F)) 8) (m (bda + 0x0E))) 4 in
  let first := if negb (p =? 0) then mpsearch1 m p 1024
               else mpsearch1 m (u32 (Z.lor (Z.shiftl (m (bda + 0x14)) 8) (m (bda + 0x13)) * 1024 - 1024)) 1024 in
  match first with
  | Ok mp => if negb (mp =? 0) then Ok mp else rom
  | e => e
  end.

(** The table and the floating pointer, or none. *)
Definition mpconfig (m : mem) : outcome (option (Z * Z)) :=
  match mpsearch m with
  | Ok mp =>
      if mp =? 0 then Ok None
      else if load32 m (mp + 4) =? 0 then Ok None
      else
        let conf := P2V (load32 m (mp + 4)) in
        if negb (memcmp m conf PCMP_SIG =? 0) then Ok None
        else if negb (m (conf + 6) =? 1) && negb (m (conf + 6) =? 4) then Ok None
        else if negb (sum m conf (load16 m (conf + 4)) =? 0) then Ok None
        else Ok (Some (conf, mp))
  | Panic s => Panic s
  | Fault => Fault
  | Blocked => Blocked
  | Fuel => Fuel
  end.

(** [cpus[i].apicid], [ncpu], [ioapicid], [lapic] and the writes to ports. *)
Record state := mkstate { apicids : list Z; ncpu : Z; ioapicid : Z; lapic : Z; ports : list (Z * Z) }.

Definition add_cpu (id : Z) (s : state) : state :=
  if ncpu s <? NCPU then mkstate (zinsert (ncpu s) id (apicids s)) (ncpu s + 1) (ioapicid s) (lapic s) (ports s) else s.
Definition set_ioapicid (id : Z) (s : state) : state := mkstate (apicids s) (ncpu s) id (lapic s) (ports s).
Definition set_lapic (a : Z) (s : state) : state := mkstate (apicids s) (ncpu s) (ioapicid s) a (ports s).
Definition outb (port v : Z) : ST state unit :=
  modify (fun s => mkstate (apicids s) (ncpu s) (ioapicid s) (lapic s) (ports s ++ [(port, v)])).

(** The loop over the entries; the result is [ismp]. *)
Fixpoint mp_entries (fuel : nat) (m : mem) (p e : Z) (ismp : bool) : ST state bool :=
  if p <? e then
    match fuel with
    | O => out_of_fuel
    | S f =>
        if m p =? MPPROC then modify (add_cpu (m (p + 1)));; mp_entries f m (u32 (p + MPPROC_SIZE)) e ismp
        else if m p =? MPIOAPIC then modify (set_ioapicid (m (p + 1)));; mp_entries f m (u32 (p + MPIOAPIC_SIZE)) e ismp
        else if (m p =? MPBUS) || (m p =? MPIOINTR) || (m p =? MPLINTR) then mp_entries f m (u32 (p + 8)) e ismp
        else mp_entries f m p e false
    end
  else mret ismp.

(** [imcr] is what [inb(0x23)] reads. *)
Definition mpinit (fuel : nat) (m : mem) (imcr : Z) : ST state unit := fun s =>
  match mpconfig m with
  | Ok None => Panic "Expect to run on an SMP"
  | Ok (Some (conf, mp)) =>
      (modify (set_lapic (load32 m (conf + 36)));;
       ismp ← mp_entries fuel m (u32 (conf + MPCONF_SIZE)) (u32 (conf + load16 m (conf + 4))) true;
       if negb ismp then panic "Didn't find a suitable machine"
       else if negb (m (mp + 12) =? 0) then outb 0x22 0x70;; outb 0x23 (Z.lor imcr 1)
       else mret tt) s
  | Panic e => Panic e
  | Fault => Fault
  | Blocked => Blocked
  | Fuel => Fuel
  end.

(** ** The search *)

(** A floating pointer structure is at [p]. *)
Definition mp_at (m : mem) (p : Z) : Prop :=
  bytes m p 4 = MP_SIG /\ foldr Z.add 0 (bytes m p 16) mod 256 = 0.

Lemma memcmp_zero m lit : forall p, memcmp m p lit = 0 <-> bytes m p (length lit) = lit.
Proof.
  induction lit as [|c lit IH]; intros p; cbn [memcmp length bytes]; [done|].
  destruct (Z.eqb_spec (m p) c) as [->|Hne]; cbn [negb].
  - rewrite IH. split; [congruence|]. intros H. by injection H.
  - split; [lia|]. intros H. by injection H.
Qed.

Lemma sum_loop_bytes m n : forall addr acc, sum_loop m addr n acc = acc + foldr Z.add 0 (bytes m addr n).
Proof. induction n as [|n IH]; intros addr acc; cbn [sum_loop bytes foldr]; [lia|]. rewrite IH. lia. Qed.

Lemma mp_check m p : (memcmp m p MP_SIG =? 0) && (sum m p MP_SIZE =? 0) = true <-> mp_at m p.
Proof.
  rewrite andb_true_iff, !Z.eqb_eq, memcmp_zero. unfold sum, mp_at.
  change (Z.to_nat MP_SIZE) with 16%nat. rewrite sum_loop_bytes, Z.add_0_l. done.
Qed.

(** The result of a search of [n] places from [p] on: the first structure, or 0. *)
Definition first_mp (m : mem) (p : Z) (n : nat) (r : Z) : Prop :=
  (exists k, (k < n)%nat /\ r = p + MP_SIZE * Z.of_nat k /\ mp_at m r /\
             forall j, (j < k)%nat -> ~ mp_at m (p + MP_SIZE * Z.of_nat j)) \/
  r = 0 /\ forall j, (j < n)%nat -> ~ mp_at m (p + MP_SIZE * Z.of_nat j).

Lemma mpsearch_loop_run m n : forall p,
  0 <= p -> p + MP_SIZE * Z.of_nat n < 2 ^ 32 ->
  exists r, mpsearch_loop n m p (p + MP_SIZE * Z.of_nat n) = Ok r /\ first_mp m p n r.
Proof.
  unfold MP_SIZE. induction n as [|n IH]; intros p Hp Hmax.
  - exists 0. cbn [mpsearch_loop]. rewrite (proj2 (Z.ltb_ge _ _)) by lia. split; [done|]. right. split; [done|lia].
  - cbn [mpsearch_loop]. rewrite (proj2 (Z.ltb_lt p _)) by lia.
    destruct ((memcmp m p MP_SIG =? 0) && (sum m p MP_SIZE =? 0)) eqn:E.
    + apply mp_check in E. exists p. split; [done|]. left. exists O. unfold MP_SIZE. split_and!; [lia|lia|done|lia].
    + assert (~ mp_at m p) as Hno by (intros H%mp_check; congruence). unfold MP_SIZE. rewrite u32_small by lia.
      replace (p + 16 * Z.of_nat (S n)) with (p + 16 + 16 * Z.of_nat n) by lia.
      destruct (IH (p + 16) ltac:(lia) ltac:(lia)) as (r & -> & Hr). exists r. split; [done|].
      assert (forall k, (forall j, (j < k)%nat -> ~ mp_at m (p + 16 + 16 * Z.of_nat j)) ->
                forall j, (j < S k)%nat -> ~ mp_at m (p + 16 * Z.of_nat j)) as Hshift.
      { intros k Hk [|j] Hj; [by replace (p + 16 * Z.of_nat 0) with p by lia|].
        replace (p + 16 * Z.of_nat (S j)) with (p + 16 + 16 * Z.of_nat j) by lia. apply Hk. lia. }
      unfold first_mp, MP_SIZE in *. destruct Hr as [(k & Hk & -> & Hat & Hlt)|[-> Hall]].
      * left. exists (S k). split_and!; [lia|lia|done|by apply Hshift].
      * right. split; [done|by apply Hshift].
Qed.

Lemma mpsearch1_run m a n :
  0 <= a -> a + KERNBASE + MP_SIZE * Z.of_nat n < 2 ^ 32 ->
  exists r, mpsearch1 m a (MP_SIZE * Z.of_nat n) = Ok r /\ first_mp m (a + KERNBASE) n r.
Proof.
  unfold mpsearch1, P2V, KERNBASE, MP_SIZE. intros Ha Hmax. rewrite (u32_small (a + _)) by lia.
  rewrite u32_small by lia. replace (Z.to_nat (16 * Z.of_nat n / 16)) with n.
  - apply mpsearch_loop_run; unfold MP_SIZE; lia.
  - rewrite Z.mul_comm, Z.div_mul by lia. lia.
Qed.

(** What the search finds, it finds in one of its places, with signature and checksum. *)
Definition searched (m : mem) (p : Z) : Prop := p = 0 \/ mp_at m p.

Lemma first_mp_searched m p n r : first_mp m p n r -> searched m r.
Proof. intros [(k & _ & _ & H & _)|[-> _]]; [by right|by left]. Qed.

Lemma mpsearch_loop_searched fuel m e : forall p r, mpsearch_loop fuel m p e = Ok r -> searched m r.
Proof.
  induction fuel as [|fuel IH]; intros p r; cbn [mpsearch_loop];
    (destruct (p <? e); [|intros H; injection H as <-; by left]);
    (destruct ((memcmp m p MP_SIG =? 0) && (sum m p MP_SIZE =? 0)) eqn:E;
      [intros H; injection H as <-; right; by apply mp_check|]).
  - done.
  - apply IH.
Qed.

Lemma mpsearch_searched m r : mpsearch m = Ok r -> searched m r.
Proof.
  unfold mpsearch, mpsearch1. intros H. repeat case_match; simplify_eq; eauto using mpsearch_loop_searched.
Qed.

(** An accepted table. *)
Record table_at (m : mem) (conf mp : Z) : Prop := {
  table_mp : mp_at m mp;
  table_phys : load32 m (mp + 4) <> 0 /\ conf = P2V (load32 m (mp + 4));
  table_sig : bytes m conf 4 = PCMP_SIG;
  table_version : m (conf + 6) = 1 \/ m (conf + 6) = 4;
  table_sum : foldr Z.add 0 (bytes m conf (Z.to_nat (load16 m (conf + 4)))) mod 256 = 0 }.

Lemma mpconfig_accepts m conf mp : mpconfig m = Ok (Some (conf, mp)) -> table_at m conf mp.
Proof.
  unfold mpconfig. intros H. destruct (mpsearch m) as [p| | | |] eqn:E; try done.
  destruct (Z.eqb_spec p 0) as [|Hp]; [done|]. destruct (Z.eqb_spec (load32 m (p + 4)) 0) as [|Hl]; [done|].
  destruct (Z.eqb_spec (memcmp m (P2V (load32 m (p + 4))) PCMP_SIG) 0) as [Hs|]; [|done]. cbn [negb] in H.
  destruct (negb (m (P2V (load32 m (p + 4)) + 6) =? 1) && negb (m (P2V (load32 m (p + 4)) + 6) =? 4)) eqn:Hv; [done|].
  destruct (Z.eqb_spec (sum m (P2V (load32 m (p + 4))) (load16 m (P2V (load32 m (p + 4)) + 4))) 0) as [Hc|]; [|done].
  injection H as <- <-. apply mpsearch_searched in E as [?|E]; [done|]. constructor.
  - done.
  - done.
  - by apply memcmp_zero in Hs.
  - apply andb_false_iff in Hv as [Hv|Hv]; apply negb_false_iff, Z.eqb_eq in Hv; [by left|by right].
  - unfold sum in Hc. by rewrite sum_loop_bytes, Z.add_0_l in Hc.
Qed.

(** ** The entries *)

Inductive entry := EProc (apicid : Z) (rest : list Z) | EIoapic (apicno : Z) (rest : list Z) | EOther (type : Z) (rest : list Z).

Definition entry_bytes (en : entry) : list Z :=
  match en with
  | EProc id rest => MPPROC :: id :: rest
  | EIoapic id rest => MPIOAPIC :: id :: rest
  | EOther ty rest => ty :: rest
  end.

Definition entry_ok (en : entry) : Prop :=
  match en with
  | EProc _ rest => length rest = 18%nat
  | EIoapic _ rest => length rest = 6%nat
  | EOther ty rest => (ty = MPBUS \/ ty = MPIOINTR \/ ty = MPLINTR) /\ length rest = 7%nat
  end.

Definition table_bytes (es : list entry) : list Z := concat (entry_bytes <$> es).

Definition record_entry (s : state) (en : entry) : state :=
  match en with EProc id _ => add_cpu id s | EIoapic id _ => set_ioapicid id s | EOther _ _ => s end.

Definition proc_ids (es : list entry) : list Z := omap (fun en => match en with EProc id _ => Some id | _ => None end) es.
Definition ioapic_ids (es : list entry) : list Z := omap (fun en => match en with EIoapic id _ => Some id | _ => None end) es.

Lemma mp_entry_run fuel m p e ismp s en :
  entry_ok en -> bytes m p (length (entry_bytes en)) = entry_bytes en -> 0 <= p ->
  p + Z.of_nat (length (entry_bytes en)) <= e -> e < 2 ^ 32 ->
  mp_entries (S fuel) m p e ismp s =
  mp_entries fuel m (p + Z.of_nat (length (entry_bytes en))) e ismp (record_entry s en).
Proof.
  intros Hok Hb Hp He Hmax.
  destruct en as [id rest|id rest|ty rest]; cbn [entry_bytes entry_ok length bytes record_entry] in *.
  - injection Hb as H0 H1 _. rewrite Hok in *. cbn [mp_entries]. rewrite (proj2 (Z.ltb_lt p e)) by lia.
    rewrite H0. change (MPPROC =? MPPROC) with true. cbv iota. erewrite run_bind; [|reflexivity]. rewrite H1. unfold MPPROC_SIZE. rewrite u32_small by lia. done.
  - injection Hb as H0 H1 _. rewrite Hok in *. cbn [mp_entries]. rewrite (proj2 (Z.ltb_lt p e)) by lia.
    rewrite H0. change (MPIOAPIC =? MPPROC) with false. change (MPIOAPIC =? MPIOAPIC) with true. cbv iota. erewrite run_bind; [|reflexivity]. rewrite H1. unfold MPIOAPIC_SIZE. rewrite u32_small by lia. done.
  - injection Hb as H0 _. destruct Hok as [Hty Hlen]. rewrite Hlen in *. cbn [mp_entries].
    rewrite (proj2 (Z.ltb_lt p e)) by lia. rewrite H0, (u32_small (p + 8)) by lia. by destruct Hty as [->|[->| ->]].
Qed.

Lemma mp_entries_run es fuel m e ismp : forall p s,
  Forall entry_ok es -> bytes m p (length (table_bytes es)) = table_bytes es -> 0 <= p ->
  p + Z.of_nat (length (table_bytes es)) <= e -> e < 2 ^ 32 ->
  mp_entries (length es + fuel) m p e ismp s =
  mp_entries fuel m (p + Z.of_nat (length (table_bytes es))) e ismp (foldl record_entry s es).
Proof.
  induction es as [|en es IH]; intros p s Hok Hb Hp He Hmax.
  - cbn. by rewrite Z.add_0_r.
  - apply Forall_cons in Hok as [Hen Hes]. unfold table_bytes in *. cbn [fmap list_fmap concat] in *.
    rewrite length_app in *. rewrite bytes_app in Hb.
    apply app_inj_1 in Hb as [Hb1 Hb2]; [|apply length_bytes].
    cbn [length Nat.add foldl]. rewrite (mp_entry_run _ m p e ismp s en) by (done || lia). rewrite IH by (done || lia).
    f_equal. lia.
Qed.

(** The recorded processors. *)
Definition fresh (s : state) : Prop := length (apicids s) = Z.to_nat NCPU /\ ncpu s = 0 /\ ports s = [].

Lemma record_cpus es : forall s,
  length (apicids s) = Z.to_nat NCPU -> 0 <= ncpu s <= NCPU ->
  let s' := foldl record_entry s es in
  let k := Z.to_nat (ncpu s) in
  length (apicids s') = Z.to_nat NCPU /\
  ncpu s' = Z.min NCPU (ncpu s + Z.of_nat (length (proc_ids es))) /\
  take (Z.to_nat (ncpu s')) (apicids s') = take (Z.to_nat NCPU) (take k (apicids s) ++ proc_ids es) /\
  ioapicid s' = default (ioapicid s) (last (ioapic_ids es)) /\ lapic s' = lapic s /\ ports s' = ports s.
Proof.
  induction es as [|en es IH]; intros s Hlen Hn; cbn [foldl].
  - unfold proc_ids, ioapic_ids. cbn. rewrite Z.add_0_r, Z.min_r, app_nil_r, take_take by lia.
    rewrite Nat.min_r by lia. done.
  - destruct en as [id rest|id rest|ty rest]; cbn [record_entry].
    + destruct (Z.ltb_spec (ncpu s) NCPU) as [Hlt|Hge].
      * assert (add_cpu id s = mkstate (zinsert (ncpu s) id (apicids s)) (ncpu s + 1) (ioapicid s) (lapic s) (ports s)) as ->
          by (unfold add_cpu; by rewrite (proj2 (Z.ltb_lt _ _))).
        destruct (IH (mkstate (zinsert (ncpu s) id (apicids s)) (ncpu s + 1) (ioapicid s) (lapic s) (ports s)))
          as (H1 & H2 & H3 & H4 & H5 & H6); [cbn [apicids]; by rewrite length_zinsert|cbn; lia|].
        cbn in H2, H3, H4, H5, H6. split_and!; [done| | |done|done|done].
        -- rewrite H2. change (proc_ids (EProc id rest :: es)) with (id :: proc_ids es). cbn [length]. lia.
        -- rewrite H3. change (proc_ids (EProc id rest :: es)) with (id :: proc_ids es). f_equal.
           replace (Z.to_nat (ncpu s + 1)) with (S (Z.to_nat (ncpu s))) by lia. unfold zinsert.
           rewrite (proj2 (Z.leb_le _ _)) by lia.
           rewrite (take_S_r _ _ id) by (apply list_lookup_insert_eq; lia).
           rewrite take_insert_ge by lia. by rewrite <- app_assoc.
      * assert (add_cpu id s = s) as -> by (unfold add_cpu; by rewrite (proj2 (Z.ltb_ge _ _))).
        destruct (IH s Hlen Hn) as (H1 & H2 & H3 & H4 & H5 & H6). split_and!; [done| | |done|done|done].
        -- rewrite H2. change (proc_ids (EProc id rest :: es)) with (id :: proc_ids es). cbn [length]. lia.
        -- rewrite H3. rewrite !take_app_le by (rewrite length_take; lia). done.
    + destruct (IH (set_ioapicid id s) Hlen Hn) as (H1 & H2 & H3 & H4 & H5 & H6). split_and!; try done.
      rewrite H4. change (ioapic_ids (EIoapic id rest :: es)) with (id :: ioapic_ids es). rewrite last_cons.
      by destruct (last (ioapic_ids es)).
    + exact (IH s Hlen Hn).
Qed.

(** C30: when the BIOS left a table that is accepted, [mpinit] reads its entries
    to the end: it counts the processors, at most NCPU of them, records their
    local APIC numbers in the order of the table, the last I/O APIC and the
    address of the local APIC, and masks external interrupts exactly when the
    IMCR is present.  The table it accepts has the signatures, a known version
    and checksums of 0. *)
Theorem mpinit_correct (m : mem) (s : state) (imcr conf mp : Z) (es : list entry) (fuel : nat) :
  mpconfig m = Ok (Some (conf, mp)) -> fresh s ->
  Forall entry_ok es -> load16 m (conf + 4) = MPCONF_SIZE + Z.of_nat (length (table_bytes es)) ->
  bytes m (conf + MPCONF_SIZE) (length (table_bytes es)) = table_bytes es ->
  conf + load16 m (conf + 4) < 2 ^ 32 -> (length es <= fuel)%nat ->
  exists s', mpinit fuel m imcr s = Ok (tt, s') /\ table_at m conf mp /\
    ncpu s' = Z.min NCPU (Z.of_nat (length (proc_ids es))) /\
    take (Z.to_nat (ncpu s')) (apicids s') = take (Z.to_nat NCPU) (proc_ids es) /\
    ioapicid s' = default (ioapicid s) (last (ioapic_ids es)) /\ lapic s' = load32 m (conf + 36) /\
    ports s' = if m (mp + 12) =? 0 then [] else [(0x22, 0x70); (0x23, Z.lor imcr 1)].
Proof.
  intros Hc (Hlen & Hn & Hports) Hok Hl Hb Hmax Hf. unfold mpinit. rewrite Hc.
  pose proof (mpconfig_accepts m conf mp Hc) as Ht.
  assert (0 <= conf) as H0 by (rewrite (proj2 (table_phys _ _ _ Ht)); apply u32_range).
  assert (0 <= Z.of_nat (length (table_bytes es))) by lia. unfold MPCONF_SIZE in *.
  erewrite run_bind; [|reflexivity]. rewrite !u32_small by lia.
  set (s1 := set_lapic (load32 m (conf + 36)) s).
  destruct (record_cpus es s1 Hlen) as (_ & H2 & H3 & H4 & H5 & H6); [cbn; unfold NCPU; lia|].
  cbn [s1 set_lapic ncpu apicids ioapicid lapic ports] in H2, H3, H4, H5, H6.
  rewrite Hn in H2, H3. rewrite Hports in H6. cbn [Z.to_nat take app] in H3. rewrite Z.add_0_l in H2.
  assert (mp_entries fuel m (conf + 44) (conf + load16 m (conf + 4)) true s1 = Ok (true, foldl record_entry s1 es)) as Rm.
  { replace fuel with (length es + (fuel - length es))%nat by lia. rewrite mp_entries_run by (done || lia).
    destruct (fuel - length es)%nat; cbn [mp_entries]; rewrite (proj2 (Z.ltb_ge _ _)) by lia; done. }
  step Rm. cbn [negb].
  destruct (m (mp + 12) =? 0); (eexists; split; [reflexivity|]); cbn; rewrite ?H6; done.
Qed.

(** ** A machine with ten processors *)

Fixpoint place (l : list (Z * list Z)) (a : Z) : Z :=
  match l with
  | [] => 0
  | (b, v) :: l => match zlookup v (a - b) with Some x => x | None => place l a end
  end.

Definition ex_table : list entry :=
  ((fun i => EProc (2 * Z.of_nat i) (replicate 18 0)) <$> seq 0 10) ++
  [EOther MPBUS (replicate 7 0); EIoapic 9 (replicate 6 0); EOther MPLINTR (replicate 7 0)].

(** The floating pointer in the BIOS ROM at 0xF0020, the table at 0x9000 with
    268 bytes and the checksum [c]. *)
Definition ex_bios (c : Z) (tail : list Z) : mem :=
  place [(P2V 0xF0020, MP_SIG ++ [0; 0x90; 0; 0; 1; 4; 15; 0; 1; 0; 0; 0]);
         (P2V 0x9000, PCMP_SIG ++ [12; 1; 4; c] ++ replicate 28 0 ++ [0; 0; 0xe0; 0xfe; 0; 0; 0; 0] ++ tail)].

Definition ex_state : state := mkstate (replicate 8 0) 0 0 0 [].

Lemma ex_mpconfig : mpconfig (ex_bios 119 (table_bytes ex_table)) = Ok (Some (P2V 0x9000, P2V 0xF0020)).
Proof. vm_compute. reflexivity. Qed.

Lemma ex_table_ok : Forall entry_ok ex_table.
Proof. cbn. repeat (apply Forall_cons_2; [cbn; auto 6|]). apply Forall_nil_2. Qed.

Lemma mpinit_correct_witness :
  exists s', mpinit 13 (ex_bios 119 (table_bytes ex_table)) 5 ex_state = Ok (tt, s') /\
    table_at (ex_bios 119 (table_bytes ex_table)) (P2V 0x9000) (P2V 0xF0020) /\
    ncpu s' = Z.min NCPU (Z.of_nat (length (proc_ids ex_table))) /\
    take (Z.to_nat (ncpu s')) (apicids s') = take (Z.to_nat NCPU) (proc_ids ex_table) /\
    ioapicid s' = default (ioapicid ex_state) (last (ioapic_ids ex_table)) /\
    lapic s' = load32 (ex_bios 119 (table_bytes ex_table)) (P2V 0x9000 + 36) /\
    ports s' = if ex_bios 119 (table_bytes ex_table) (P2V 0xF0020 + 12) =? 0 then [] else [(0x22, 0x70); (0x23, Z.lor 5 1)].
Proof.
  apply mpinit_correct; [exact ex_mpconfig|vm_compute; auto|exact ex_table_ok|vm_compute; reflexivity|vm_compute; reflexivity|vm_compute; reflexivity|vm_compute; lia].
Defined.

(** ** An unknown entry *)

Definition unknown (ty : Z) : Prop := ty <> MPPROC /\ ty <> MPIOAPIC /\ ty <> MPBUS /\ ty <> MPIOINTR /\ ty <> MPLINTR.

Lemma unknown_stuck fuel m p e : forall ismp s, p < e -> unknown (m p) -> mp_entries fuel m p e ismp s = Fuel.
Proof.
  induction fuel as [|fuel IH]; intros ismp s Hp (H1 & H2 & H3 & H4 & H5); cbn [mp_entries];
    rewrite (proj2 (Z.ltb_lt p e)) by done; [done|].
  rewrite !(proj2 (Z.eqb_neq _ _)) by done. by apply IH.
Qed.

Lemma entries_stuck es m e : forall fuel p ismp s,
  Forall entry_ok es -> bytes m p (length (table_bytes es)) = table_bytes es -> 0 <= p -> e < 2 ^ 32 ->
  p + Z.of_nat (length (table_bytes es)) < e -> unknown (m (p + Z.of_nat (length (table_bytes es)))) ->
  mp_entries fuel m p e ismp s = Fuel.
Proof.
  induction es as [|en es IH]; intros fuel p ismp s Hok Hb Hp Hmax He Hu.
  - cbn in *. rewrite Z.add_0_r in *. by apply unknown_stuck.
  - apply Forall_cons in Hok as [Hen Hes]. unfold table_bytes in *. cbn [fmap list_fmap concat] in *.
    rewrite length_app in *. rewrite bytes_app in Hb. apply app_inj_1 in Hb as [Hb1 Hb2]; [|apply length_bytes].
    destruct fuel as [|fuel]; [cbn [mp_entries]; by rewrite (proj2 (Z.ltb_lt p e)) by lia|].
    rewrite (mp_entry_run _ m p e ismp s en) by (done || lia). apply IH; try (done || lia).
    replace (p + _ + _) with (p + Z.of_nat (length (entry_bytes en) + length (concat (entry_bytes <$> es)))) by lia. done.
Qed.

(** An entry of a type that is not known, behind any number of good ones,
    is never left: whatever the number of iterations, the loop has not ended, and
    the [panic] for an unsuitable machine is not reached. *)
Theorem mpinit_unknown_entry (m : mem) (s : state) (imcr conf mp : Z) (es : list entry) :
  mpconfig m = Ok (Some (conf, mp)) -> Forall entry_ok es ->
  bytes m (conf + MPCONF_SIZE) (length (table_bytes es)) = table_bytes es ->
  conf + load16 m (conf + 4) < 2 ^ 32 ->
  MPCONF_SIZE + Z.of_nat (length (table_bytes es)) < load16 m (conf + 4) ->
  unknown (m (conf + MPCONF_SIZE + Z.of_nat (length (table_bytes es)))) ->
  forall fuel, mpinit fuel m imcr s = Fuel.
Proof.
  intros Hc Hok Hb Hmax Hlen Hu fuel. unfold mpinit. rewrite Hc.
  assert (0 <= conf) as H0 by (rewrite (proj2 (table_phys _ _ _ (mpconfig_accepts m conf mp Hc))); apply u32_range).
  erewrite run_bind; [|reflexivity]. unfold MPCONF_SIZE in *. rewrite !u32_small by lia.
  unfold mbind, ST_bind. by rewrite (entries_stuck es) by (done || lia).
Qed.

(** A table that ends with an entry of type 5. *)
Lemma ex_mpconfig_bad :
  mpconfig (ex_bios 130 (table_bytes (take 10 ex_table) ++ 5 :: replicate 23 0)) = Ok (Some (P2V 0x9000, P2V 0xF0020)).
Proof. vm_compute. reflexivity. Qed.

Lemma mpinit_unknown_entry_witness :
  forall fuel, mpinit fuel (ex_bios 130 (table_bytes (take 10 ex_table) ++ 5 :: replicate 23 0)) 0 ex_state = Fuel.
Proof.
  apply (mpinit_unknown_entry _ _ _ _ _ (take 10 ex_table) ex_mpconfig_bad).
  - apply Forall_take, ex_table_ok.
  - vm_compute. reflexivity.
  - vm_compute. reflexivity.
  - vm_compute. reflexivity.
  - vm_compute. split_and!; discriminate.
Defined.

End Mp.
