(* ===== verification/Ata.v ===== *)
(** * The disk controller

    The IDE driver (drivers/ide/ide.c) and the boot loader (boot/bootmain.c)
    reach the disk through the ports of an ATA controller, which is hardware.  It
    is a parameter here: the class [Ata] has the accesses to its ports, and
    [AtaLaws] what the code relies on.  What one can observe of the controller is
    a [dev]: the registers written last, the sectors of both drives, the command
    in progress, for how many more reads of the status it says that it is busy,
    and whether the last command failed.  [sim] is a controller that satisfies
    the laws. *)

From Stdlib Require Import ZArith Lia.
From stdpp Require Import base numbers strings list gmap.
From S2P Require Import Prelude.

Open Scope Z_scope.

Module Ata.

(** A read has its data ready to be taken; a write waits for its data. *)
Inductive command := Idle | Reading (data : list Z) | Writing (drive lba : Z).

Record dev := mkdev { regs : Z -> Z; sectors : Z -> Z -> list Z; cmd : command; busy : nat; failed : bool }.

Definition latch (port v : Z) (r : Z -> Z) : Z -> Z := fun p => if p =? port then v else r p.

(** The sector address is in four registers, of the last only four bits; the drive in bit 4 of it. *)
Definition lba (r : Z -> Z) : Z := r 0x1f3 + 256 * r 0x1f4 + 65536 * r 0x1f5 + 16777216 * Z.land (r 0x1f6) 15.
Definition drive (r : Z -> Z) : Z := Z.land (Z.shiftr (r 0x1f6) 4) 1.

(** The data of a read of as many sectors as the count register says. *)
Definition requested (d : dev) : list Z :=
  concat ((fun i => sectors d (drive (regs d)) (lba (regs d) + Z.of_nat i)) <$> seq 0 (Z.to_nat (regs d 0x1f2))).

Definition set_sector (dr a : Z) (l : list Z) (s : Z -> Z -> list Z) : Z -> Z -> list Z :=
  fun dr' a' => if (dr' =? dr) && (a' =? a) then l else s dr' a'.

(** The command block registers and the device control register. *)
Definition latched (port : Z) : Prop := 0x1f2 <= port <= 0x1f6 \/ port = 0x3f6.

(** The controller takes a new command. *)
Definition accepts (d : dev) : Prop :=
  busy d = 0%nat /\ (cmd d = Idle \/ failed d = true /\ exists l, cmd d = Reading l).

Class Ata (D : Type) := {
  inb : Z -> D -> Z * D;
  outb : Z -> Z -> D -> D;
  insl : Z -> D -> list Z * D;
  outsl : list Z -> D -> D }.

(** A write of one sector takes its data as soon as the command is given.  [limit]
    bounds the time the controller is busy. *)
Class AtaLaws (D : Type) `{Ata D} := {
  obs : D -> dev;
  limit : nat;
  ata_limit d : (busy (obs d) <= limit)%nat;
  ata_status_busy d n : busy (obs d) = S n ->
    Z.land (fst (inb 0x1f7 d)) 0xc0 <> 0x40 /\
    obs (snd (inb 0x1f7 d)) = mkdev (regs (obs d)) (sectors (obs d)) (cmd (obs d)) n (failed (obs d));
  ata_status_ready d : busy (obs d) = 0%nat ->
    Z.land (fst (inb 0x1f7 d)) 0xc0 = 0x40 /\ (Z.land (fst (inb 0x1f7 d)) 0x21 =? 0) = negb (failed (obs d)) /\
    obs (snd (inb 0x1f7 d)) = obs d;
  ata_latch d port v : latched port -> accepts (obs d) ->
    obs (outb port v d) = mkdev (latch port v (regs (obs d))) (sectors (obs d)) (cmd (obs d)) 0 (failed (obs d));
  ata_read d : accepts (obs d) ->
    exists n e, obs (outb 0x1f7 0x20 d) = mkdev (regs (obs d)) (sectors (obs d)) (Reading (requested (obs d))) n e;
  ata_insl d l n : busy (obs d) = 0%nat -> failed (obs d) = false -> cmd (obs d) = Reading l ->
    Z.of_nat (length l) = 4 * n ->
    fst (insl n d) = l /\
    exists k, obs (snd (insl n d)) = mkdev (regs (obs d)) (sectors (obs d)) Idle k false;
  ata_write d : accepts (obs d) -> regs (obs d) 0x1f2 = 1 ->
    exists n e, obs (outb 0x1f7 0x30 d) =
      mkdev (regs (obs d)) (sectors (obs d)) (Writing (drive (regs (obs d))) (lba (regs (obs d)))) n e;
  ata_outsl d dr a l : cmd (obs d) = Writing dr a -> length l = 512%nat ->
    exists k e, obs (outsl l d) = mkdev (regs (obs d)) (set_sector dr a l (sectors (obs d))) Idle k e }.

(** A controller whose reads do not fail. *)
Class Reliable (D : Type) `{AtaLaws D} : Prop :=
  reliable_read (d : D) : accepts (obs d) -> failed (obs (outb 0x1f7 0x20 d)) = false.

Lemma requested_one d : regs d 0x1f2 = 1 -> requested d = sectors d (drive (regs d)) (lba (regs d)).
Proof. intros H. unfold requested. rewrite H. change (seq 0 (Z.to_nat 1)) with [O]. cbn [fmap list_fmap concat Z.of_nat]. by rewrite app_nil_r, Z.add_0_r. Qed.

(** ** A simulated controller

    Busy for [3] reads of the status after every command; it never fails. *)

Definition sim_inb (port : Z) (d : dev) : Z * dev :=
  match Nat.min (busy d) 3 with
  | S n => (0x80, mkdev (regs d) (sectors d) (cmd d) n (failed d))
  | O => (if failed d then 0x41 else 0x40, d)
  end.

Definition sim_outb (port v : Z) (d : dev) : dev :=
  if port =? 0x1f7 then
    if v =? 0x20 then mkdev (regs d) (sectors d) (Reading (requested d)) 3 false
    else mkdev (regs d) (sectors d) (Writing (drive (regs d)) (lba (regs d))) 3 false
  else mkdev (latch port v (regs d)) (sectors d) (cmd d) 0 (failed d).

Definition sim_insl (n : Z) (d : dev) : list Z * dev :=
  (match cmd d with Reading l => l | _ => [] end, mkdev (regs d) (sectors d) Idle 0 false).

Definition sim_outsl (l : list Z) (d : dev) : dev :=
  match cmd d with
  | Writing dr a => mkdev (regs d) (set_sector dr a l (sectors d)) Idle 3 false
  | _ => d
  end.

#[export] Instance sim : Ata dev := { inb := sim_inb; outb := sim_outb; insl := sim_insl; outsl := sim_outsl }.

#[export, refine] Instance sim_laws : AtaLaws dev := {
  obs d := mkdev (regs d) (sectors d) (cmd d) (Nat.min (busy d) 3) (failed d);
  limit := 3%nat }.
Proof.
  - intros d. cbn. lia.
  - intros d n Hn. cbn in *. unfold sim_inb. rewrite Hn. cbn. split; [done|]. f_equal. lia.
  - intros d Hn. cbn in *. unfold sim_inb. rewrite Hn. destruct (failed d) eqn:Ef; cbn; rewrite ?Hn, ?Ef; done.
  - intros d port v Hp [Hb _]. cbn in *. unfold sim_outb. rewrite (proj2 (Z.eqb_neq port _)); [done|].
    destruct Hp; lia.
  - intros d _. cbn. by exists 3%nat, false.
  - intros d l n Hb Hf Hc Hl. cbn in *. rewrite Hc. split; [done|]. by exists 0%nat.
  - intros d _ _. cbn. by exists 3%nat, false.
  - intros d dr a l Hc Hl. cbn in *. unfold sim_outsl. rewrite Hc. cbn. by exists 3%nat, false.
Defined.

#[export] Instance sim_reliable : Reliable dev.
Proof. by intros d _. Qed.

End Ata.
