(* ===== verification/Boot.v ===== *)
(** * The boot loader (boot/bootmain.c)

    Loads the segments of the kernel, an ELF file that begins at sector 1 of the
    disk, sector by sector.  The reads begin and end at sector boundaries, so they
    also write before and behind a segment; the theorem says when the kernel is
    nevertheless complete in memory at the end. *)

From Stdlib Require Import ZArith Lia.
From stdpp Require Import base numbers strings list gmap.
From S2P Require Import Prelude Mem Ata.

Open Scope Z_scope.

Module Boot.
Import Mem Ata.

Definition SECTSIZE : Z := 512.
Definition ELF_MAGIC : Z := 0x464C457F.

(** The scratch space for the headers. *)
Definition elf : Z := 0x10000.

Definition load16 (m : mem) (a : Z) : Z := m a + 256 * m (a + 1).

Section Code.
Context {D : Type} `{Ata D} (spin : nat).

Definition state : Type := D * mem.

(** [while((inb(0x1F7) & 0xC0) != 0x40);] with at most [fuel] more reads. *)
Fixpoint waitdisk (fuel : nat) : ST state unit := fun s =>
  let '(st, d) := inb 0x1f7 (fst s) in
  if Z.land st 0xc0 =? 0x40 then Ok (tt, (d, snd s))
  else match fuel with O => Fuel | S f => waitdisk f (d, snd s) end.

Definition out (port v : Z) : ST state unit := modify (fun s => (outb port (u8 v) (fst s), snd s)).

(** [insl(0x1F0, dst, cnt)]. *)
Definition in_words (dst cnt : Z) : ST state unit := fun s =>
  let '(l, d) := insl cnt (fst s) in Ok (tt, (d, write dst l (snd s))).

Definition readsect (dst offset : Z) : ST state unit :=
  waitdisk spin;;
  out 0x1f2 1;;
  out 0x1f3 offset;;
  out 0x1f4 (Z.shiftr offset 8);;
  out 0x1f5 (Z.shiftr offset 16);;
  out 0x1f6 (Z.lor (Z.shiftr offset 24) 0xe0);;
  out 0x1f7 0x20;;
  waitdisk spin;;
  in_words dst (SECTSIZE / 4).

Fixpoint readseg_loop (fuel : nat) (pa epa offset : Z) : ST state unit :=
  if pa <? epa then
    match fuel with
    | O => out_of_fuel
    | S f => readsect pa offset;; readseg_loop f (u32 (pa + SECTSIZE)) epa (u32 (offset + 1))
    end
  else mret tt.

Definition readseg (pa count offset : Z) : ST state unit :=
  let epa := u32 (pa + count) in
  readseg_loop (Z.to_nat (count / SECTSIZE + 2)) (u32 (pa - offset mod SECTSIZE)) epa (u32 (offset / SECTSIZE + 1)).

(** [stosb(addr, 0, cnt)]. *)
Definition stosb0 (addr cnt : Z) : ST state unit :=
  modify (fun s => (fst s, write addr (replicate (Z.to_nat cnt) 0) (snd s))).

(** One program header: [off], [paddr], [filesz] and [memsz]. *)
Definition load_segment (ph : Z) : ST state unit :=
  s ← get;
  let pa := load32 (snd s) (ph + 12) in
  readseg pa (load32 (snd s) (ph + 16)) (load32 (snd s) (ph + 4));;
  s ← get;
  if load32 (snd s) (ph + 16) <? load32 (snd s) (ph + 20)
  then stosb0 (u32 (pa + load32 (snd s) (ph + 16))) (load32 (snd s) (ph + 20) - load32 (snd s) (ph + 16))
  else mret tt.

Fixpoint load_segments (n : nat) (ph : Z) : ST state unit :=
  match n with O => mret tt | S n => load_segment ph;; load_segments n (u32 (ph + 32)) end.

(** The address that is called, or none when the file is not an ELF file. *)
Definition bootmain : ST state (option Z) :=
  readseg elf 4096 0;;
  s ← get;
  if negb (load32 (snd s) elf =? ELF_MAGIC) then mret None
  else
    load_segments (Z.to_nat (load16 (snd s) (elf + 44))) (u32 (elf + load32 (snd s) (elf + 28)));;
    s ← get;
    mret (Some (load32 (snd s) (elf + 24))).

End Code.

Arguments state : clear implicits.

End Boot.

(** * The boot loader loads the kernel *)

Module BootThm.
Import Mem Ata Boot.

(** ** One sector *)

Lemma lor_e0 x : 0 <= x < 16 -> Z.land (u8 (Z.lor x 0xe0)) 15 = x /\ Z.land (Z.shiftr (u8 (Z.lor x 0xe0)) 4) 1 = 0.
Proof.
  intros Hx. assert (x ∈ seqZ 0 16) as Hin by (apply elem_of_seqZ; lia). clear Hx. revert x Hin. apply Forall_forall.
  apply (bool_decide_unpack _). vm_compute. exact I.
Qed.

Lemma split_bytes x :
  0 <= x < 2 ^ 28 ->
  u8 x + 256 * u8 (Z.shiftr x 8) + 65536 * u8 (Z.shiftr x 16) + 16777216 * Z.shiftr x 24 = x /\ 0 <= Z.shiftr x 24 < 16.
Proof.
  intros Hx. rewrite !Z.shiftr_div_pow2 by lia. unfold u8. change (2 ^ 8) with 256. change (2 ^ 16) with 65536.
  change (2 ^ 24) with 16777216. change (2 ^ 28) with 268435456 in Hx. Z.to_euclidean_division_equations. lia.
Qed.

(** ** The image of the kernel *)

Abbreviation store := (Z -> Z -> list Z).

Definition disk_ok (secs : store) : Prop :=
  forall i, 0 <= i < 2 ^ 28 -> length (secs 0 i) = 512%nat /\ Forall (fun b => 0 <= b < 256) (secs 0 i).

(** Byte [k] of the file that begins at sector 1. *)
Definition img (secs : store) (k : Z) : Z := default 0 (zlookup (secs 0 (1 + k / 512)) (k mod 512)).

(** A read of the file: the bytes from [lo] to [hi] become those of the file from [base] on. *)
Definition filled (secs : store) (m m' : mem) (lo hi base : Z) : Prop :=
  forall a, m' a = if (lo <=? a) && (a <? hi) then img secs (base + (a - lo)) else m a.

Lemma write_sector secs m dst i :
  disk_ok secs -> 0 < i < 2 ^ 28 -> filled secs m (write dst (secs 0 i) m) dst (dst + 512) (512 * (i - 1)).
Proof.
  intros Hd Hi a. destruct (Hd i ltac:(lia)) as [Hl Hb].
  destruct ((dst <=? a) && (a <? dst + 512)) eqn:E.
  - apply andb_true_iff in E as [E1%Z.leb_le E2%Z.ltb_lt].
    destruct (lookup_lt_is_Some_2 (secs 0 i) (Z.to_nat (a - dst)) ltac:(lia)) as (b & Hb1).
    replace a with (dst + Z.of_nat (Z.to_nat (a - dst))) at 1 by lia. rewrite (write_inside _ _ _ _ _ Hb1).
    pose proof (Forall_lookup_1 _ _ _ _ Hb Hb1) as Hr. cbn in Hr. rewrite u8_small by done.
    unfold img. replace (1 + (512 * (i - 1) + (a - dst)) / 512) with i by (Z.to_euclidean_division_equations; lia).
    replace ((512 * (i - 1) + (a - dst)) mod 512) with (a - dst) by (Z.to_euclidean_division_equations; lia).
    unfold zlookup. rewrite (proj2 (Z.leb_le 0 _)) by lia. by rewrite Hb1.
  - apply write_outside. rewrite Hl. apply andb_false_iff in E as [E%Z.leb_gt|E%Z.ltb_ge]; lia.
Qed.

Lemma filled_trans secs m m1 m2 lo mid hi base :
  lo <= mid <= hi -> filled secs m m1 lo mid base -> filled secs m1 m2 mid hi (base + (mid - lo)) ->
  filled secs m m2 lo hi base.
Proof.
  intros Hm H1 H2 a. rewrite H2, H1.
  destruct (Z.leb_spec mid a), (Z.ltb_spec a hi), (Z.leb_spec lo a), (Z.ltb_spec a mid); cbn [andb]; try lia; try done.
  f_equal. lia.
Qed.

Lemma load32_below m m' lo a : (forall x, x < lo -> m' x = m x) -> a + 4 <= lo -> load32 m' a = load32 m a.
Proof. intros H0 Ha. apply load32_ext. intros x Hx. apply H0. lia. Qed.

Section Runs.
Context {D : Type} `{L : AtaLaws D} `{!Reliable D} (spin : nat).
Context (Hspin : (limit <= spin)%nat).

(** The controller has nothing to do. *)
Definition quiet (d : D) : Prop := cmd (obs d) = Idle.

Lemma waitdisk_run fuel d m :
  (busy (obs d) <= fuel)%nat ->
  exists d', waitdisk fuel (d, m) = Ok (tt, (d', m)) /\
             obs d' = mkdev (regs (obs d)) (sectors (obs d)) (cmd (obs d)) 0 (failed (obs d)).
Proof.
  revert d. induction fuel as [|fuel IH]; intros d Hb; cbn [waitdisk fst snd].
  all: destruct (busy (obs d)) as [|n] eqn:Eb.
  1,3: destruct (ata_status_ready d Eb) as (Hs & _ & Ho); destruct (inb 0x1f7 d) as [st d']; cbn in *;
       rewrite (proj2 (Z.eqb_eq _ _) Hs); exists d'; (split; [done|]); rewrite Ho, <- Eb; by destruct (obs d).
  - lia.
  - destruct (ata_status_busy d n Eb) as (Hs & Ho). destruct (inb 0x1f7 d) as [st d'] eqn:Ei. cbn in *.
    rewrite (proj2 (Z.eqb_neq _ _) Hs). destruct (IH d') as (d2 & R2 & O2); [rewrite Ho; cbn; lia|].
    exists d2. rewrite R2, O2, Ho. done.
Qed.

Lemma out_run d m port v :
  latched port -> cmd (obs d) = Idle -> busy (obs d) = 0%nat ->
  exists d', out port v (d, m) = Ok (tt, (d', m)) /\
             obs d' = mkdev (latch port (u8 v) (regs (obs d))) (sectors (obs d)) Idle 0 (failed (obs d)).
Proof.
  intros Hp Hc Hb. eexists. split; [reflexivity|]. cbn. rewrite ata_latch; [by rewrite Hc|done|]. split; [done|by left].
Qed.

(** Writing a register as a step of a sequence. *)
Ltac latch_reg port v :=
  match goal with
  | |- context [(out port v ≫= _) (?d, ?m)] =>
      let d' := fresh "d" in let R := fresh "R" in let O := fresh "O" in
      destruct (out_run d m port v) as (d' & R & O);
        [unfold latched; lia
        |repeat match goal with E : obs d = _ |- _ => rewrite E end; done
        |repeat match goal with E : obs d = _ |- _ => rewrite E end; done
        |step R]
  end.

Lemma readsect_run d m dst offset :
  quiet d -> 0 <= offset < 2 ^ 28 -> length (sectors (obs d) 0 offset) = 512%nat ->
  exists d', readsect spin dst offset (d, m) = Ok (tt, (d', write dst (sectors (obs d) 0 offset) m)) /\
             quiet d' /\ sectors (obs d') = sectors (obs d).
Proof.
  intros Hq Ho Hl. unfold readsect. pose proof (ata_limit d).
  destruct (waitdisk_run spin d m ltac:(lia)) as (d0 & R0 & O0). step R0. rewrite Hq in O0.
  latch_reg 0x1f2 1. latch_reg 0x1f3 offset. latch_reg 0x1f4 (Z.shiftr offset 8). latch_reg 0x1f5 (Z.shiftr offset 16).
  latch_reg 0x1f6 (Z.lor (Z.shiftr offset 24) 0xe0).
  rewrite O, O0 in O1. rewrite O1 in O2. rewrite O2 in O3. rewrite O3 in O4.
  cbn [regs sectors failed] in O4. erewrite run_bind; [|reflexivity]. cbn [fst snd]. change (u8 0x20) with 0x20.
  assert (accepts (obs d5)) as Ha by (rewrite O4; split; [done|by left]).
  pose proof (reliable_read d5 Ha) as Hrel. destruct (ata_read d5 Ha) as (n & e & Or). rewrite Or in Hrel. cbn in Hrel. subst e.
  set (d6 := outb 0x1f7 0x20 d5) in *. pose proof (ata_limit d6).
  destruct (waitdisk_run spin d6 m ltac:(lia)) as (d7 & R7 & O7). step R7. rewrite Or, O4 in O7. cbn [regs sectors cmd failed] in O7.
  assert (requested (obs d5) = sectors (obs d) 0 offset) as Hreq.
  { destruct (split_bytes offset Ho) as [Hsum Htop]. destruct (lor_e0 _ Htop) as [Hl1 Hl2].
    rewrite O4, requested_one by done. cbn [regs sectors]. unfold drive, lba, latch. cbn [Z.eqb Pos.eqb].
    rewrite Hl1, Hl2, Hsum. done. }
  rewrite O4 in Hreq. rewrite Hreq in O7.
  destruct (ata_insl d7 (sectors (obs d) 0 offset) 128) as (Hd & k & Ok7); [by rewrite O7|by rewrite O7|by rewrite O7|by rewrite Hl|].
  unfold in_words. cbn [fst snd]. change (SECTSIZE / 4) with 128. destruct (insl 128 d7) as [l d8]. cbn in Hd, Ok7. subst l.
  exists d8. split; [done|]. unfold quiet. by rewrite Ok7, O7.
Qed.

(** ** Segments *)

Lemma readseg_loop_run n : forall d m pa epa offset,
  quiet d -> disk_ok (sectors (obs d)) -> 0 <= pa -> epa <= pa + 512 * Z.of_nat n -> epa + 512 <= 2 ^ 32 ->
  1 <= offset -> offset + Z.of_nat n <= 2 ^ 28 ->
  exists d' m' hi, readseg_loop spin n pa epa offset (d, m) = Ok (tt, (d', m')) /\ quiet d' /\
    sectors (obs d') = sectors (obs d) /\ pa <= hi /\ epa <= hi /\ (hi = pa \/ hi < epa + 512) /\
    filled (sectors (obs d)) m m' pa hi (512 * (offset - 1)).
Proof.
  induction n as [|n IH]; intros d m pa epa offset Hq Hd Hpa Hn Hmax Ho1 Ho2; cbn [readseg_loop].
  all: destruct (Z.ltb_spec pa epa) as [Hlt|Hge].
  2,4: exists d, m, pa; split_and!; [done|done|done|lia|lia|by left|];
       intros a; destruct (Z.leb_spec pa a), (Z.ltb_spec a pa); cbn [andb]; (done || lia).
  - lia.
  - destruct (readsect_run d m pa offset Hq ltac:(lia)) as (d1 & R1 & Q1 & S1); [apply Hd; lia|]. step R1.
    unfold SECTSIZE. rewrite !u32_small by lia.
    pose proof (write_sector _ m pa offset Hd ltac:(lia)) as F1. rewrite <- S1 in Hd.
    destruct (IH d1 (write pa (sectors (obs d) 0 offset) m) (pa + 512) epa (offset + 1) Q1 Hd)
      as (d2 & m2 & hi & R2 & Q2 & S2 & H1 & H2 & H3 & F2); [lia|lia|lia|lia|lia|].
    exists d2, m2, hi. split_and!; [done|done|congruence|lia|lia|lia|].
    eapply filled_trans; [|exact F1|]; [lia|]. rewrite S1 in F2.
    replace (512 * (offset - 1) + (pa + 512 - pa)) with (512 * (offset + 1 - 1)) by lia. exact F2.
Qed.

(** A segment as its header has it. *)
Record segment := mkseg { paddr : Z; off : Z; filesz : Z; memsz : Z }.

Definition seg_at (m : Z -> Z) (ph : Z) : segment :=
  mkseg (load32 m (ph + 12)) (load32 m (ph + 4)) (load32 m (ph + 16)) (load32 m (ph + 20)).

Definition seg_low (sg : segment) : Z := paddr sg - off sg mod 512.
Definition seg_end (sg : segment) : Z := paddr sg + Z.max (filesz sg) (memsz sg).

(** Addresses and offsets are in range. *)
Definition seg_ok (sg : segment) : Prop :=
  0 <= off sg /\ 0 <= filesz sg /\ 0 <= memsz sg /\ seg_end sg + 512 <= 2 ^ 32 /\ off sg + filesz sg < 2 ^ 32.

(** The segments come in increasing order, and the first sector of each one begins
    behind the segment before it. *)
Fixpoint spaced (lo : Z) (segs : list segment) : Prop :=
  match segs with
  | [] => True
  | sg :: segs => seg_ok sg /\ lo <= seg_low sg /\ spaced (seg_end sg) segs
  end.

Lemma readseg_run d m sg :
  quiet d -> disk_ok (sectors (obs d)) -> seg_ok sg -> 0 <= seg_low sg ->
  exists d' m' hi, readseg spin (paddr sg) (filesz sg) (off sg) (d, m) = Ok (tt, (d', m')) /\ quiet d' /\
    sectors (obs d') = sectors (obs d) /\ paddr sg + filesz sg <= hi /\
    filled (sectors (obs d)) m m' (seg_low sg) hi (off sg - off sg mod 512).
Proof.
  intros Hq Hd (H1 & H2 & H3 & H4 & H5) Hlo. unfold seg_low, seg_end in *.
  pose proof (Z.mod_pos_bound (off sg) 512 ltac:(lia)) as Hm. pose proof (Z.div_mod (off sg) 512 ltac:(lia)) as Hdm.
  pose proof (Z.div_mod (filesz sg) 512 ltac:(lia)). pose proof (Z.mod_pos_bound (filesz sg) 512 ltac:(lia)).
  assert (0 <= off sg / 512) by (apply Z.div_pos; lia). assert (0 <= filesz sg / 512) by (apply Z.div_pos; lia).
  unfold readseg, SECTSIZE. rewrite !u32_small by lia.
  destruct (readseg_loop_run (Z.to_nat (filesz sg / 512 + 2)) d m (paddr sg - off sg mod 512) (paddr sg + filesz sg) (off sg / 512 + 1) Hq Hd)
    as (d' & m' & hi & R & Q & S & G1 & G2 & G3 & F); [lia|lia|lia|lia|lia|].
  exists d', m', hi. split_and!; [done|done|done|lia|].
  replace (off sg - off sg mod 512) with (512 * (off sg / 512 + 1 - 1)) by lia. exact F.
Qed.

(** The segment is in memory: its bytes of the file, and then zeroes. *)
Definition loaded (secs : store) (m : mem) (sg : segment) : Prop :=
  (forall k, 0 <= k < filesz sg -> m (paddr sg + k) = img secs (off sg + k)) /\
  (forall k, filesz sg <= k < memsz sg -> m (paddr sg + k) = 0).

Lemma load_segment_run d m ph lo :
  quiet d -> disk_ok (sectors (obs d)) -> ph + 24 <= lo -> 0 <= lo -> seg_ok (seg_at m ph) -> lo <= seg_low (seg_at m ph) ->
  exists d' m', load_segment spin ph (d, m) = Ok (tt, (d', m')) /\ quiet d' /\ sectors (obs d') = sectors (obs d) /\
    (forall a, a < lo -> m' a = m a) /\ loaded (sectors (obs d)) m' (seg_at m ph).
Proof.
  intros Hq Hd Hph Hlo0 Hok Hlo. unfold load_segment. rewrite run_get. cbn [snd].
  destruct (readseg_run d m (seg_at m ph) Hq Hd Hok ltac:(lia)) as (d1 & m1 & hi & R1 & Q1 & S1 & Hhi & F1).
  cbn [seg_at paddr off filesz] in R1. step R1. rewrite run_get. cbn [snd].
  assert (forall a, a < lo -> m1 a = m a) as Hbelow.
  { intros a Ha. rewrite F1. by rewrite (proj2 (Z.leb_gt _ _)) by lia. }
  rewrite !(load32_below m m1 lo) by (done || lia).
  set (sg := seg_at m ph) in *.
  change (load32 m (ph + 12)) with (paddr sg). change (load32 m (ph + 16)) with (filesz sg). change (load32 m (ph + 20)) with (memsz sg).
  destruct Hok as (H1 & H2 & H3 & H4 & H5). unfold seg_low, seg_end in *. pose proof (Z.mod_pos_bound (off sg) 512 ltac:(lia)).
  assert (forall k, 0 <= k < filesz sg -> m1 (paddr sg + k) = img (sectors (obs d)) (off sg + k)) as Hfile.
  { intros k Hk. rewrite F1. rewrite (proj2 (Z.leb_le _ _)), (proj2 (Z.ltb_lt _ _)) by lia. cbn [andb]. f_equal. lia. }
  destruct (Z.ltb_spec (filesz sg) (memsz sg)) as [Hlt|Hge].
  - rewrite u32_small by lia. eexists d1, _. split; [reflexivity|]. split_and!; [done|done| |].
    + intros a Ha. cbn [snd]. rewrite write_outside by (rewrite length_replicate; lia). by apply Hbelow.
    + split; intros k Hk; cbn [snd].
      * rewrite write_outside by (rewrite length_replicate; lia). by apply Hfile.
      * replace (paddr sg + k) with (paddr sg + filesz sg + Z.of_nat (Z.to_nat (k - filesz sg))) by lia.
        apply (write_inside _ _ _ _ 0). apply lookup_replicate_2. lia.
  - exists d1, m1. split_and!; [done|done|done|done|]. split; [done|lia].
Qed.

Lemma load_segments_run n : forall d m ph lo top,
  quiet d -> disk_ok (sectors (obs d)) -> 0 <= ph -> ph + 32 * Z.of_nat n <= top -> top <= lo -> top < 2 ^ 32 ->
  spaced lo ((fun i => seg_at m (ph + 32 * Z.of_nat i)) <$> seq 0 n) ->
  exists d' m', load_segments spin n ph (d, m) = Ok (tt, (d', m')) /\ quiet d' /\
    (forall a, a < lo -> m' a = m a) /\
    Forall (loaded (sectors (obs d)) m') ((fun i => seg_at m (ph + 32 * Z.of_nat i)) <$> seq 0 n).
Proof.
  induction n as [|n IH]; intros d m ph lo top Hq Hd H0 Htop Hlo Hmax Hs; cbn [load_segments].
  - exists d, m. split_and!; [done|done|done|constructor].
  - cbn [seq fmap list_fmap spaced] in *. rewrite Z.mul_0_r, Z.add_0_r in *. destruct Hs as (Hok & Hlow & Hrest).
    destruct (load_segment_run d m ph lo Hq Hd ltac:(lia) ltac:(lia) Hok Hlow) as (d1 & m1 & R1 & Q1 & S1 & B1 & L1). step R1.
    assert (lo <= seg_end (seg_at m ph)) as Hle.
    { destruct Hok as (? & ? & ? & _). unfold seg_low, seg_end in *. pose proof (Z.mod_pos_bound (off (seg_at m ph)) 512). lia. }
    assert ((fun i => seg_at m1 (ph + 32 + 32 * Z.of_nat i)) <$> seq 0 n = (fun i => seg_at m (ph + 32 * Z.of_nat i)) <$> seq 1 n) as Hsegs.
    { rewrite <- fmap_S_seq, <- list_fmap_compose. apply list_fmap_ext. intros j i [Hi Hj]%lookup_seq. cbn [compose].
      replace (ph + 32 * Z.of_nat (S i)) with (ph + 32 + 32 * Z.of_nat i) by lia.
      unfold seg_at. f_equal; apply (load32_below _ _ lo); (done || lia). }
    rewrite u32_small by lia. rewrite <- S1 in Hd.
    destruct (IH d1 m1 (ph + 32) (seg_end (seg_at m ph)) top Q1 Hd) as (d2 & m2 & R2 & Q2 & B2 & L2);
      [lia|lia|lia|lia|by rewrite Hsegs|].
    rewrite Hsegs, S1 in L2. exists d2, m2. split_and!; [done|done| |].
    + intros a Ha. rewrite B2 by lia. by apply B1.
    + constructor; [|done]. destruct L1 as [L1 L1']. destruct Hok as (? & ? & ? & _). unfold seg_end in B2.
      split; intros k Hk; rewrite B2 by lia; [by apply L1|by apply L1'].
Qed.

Lemma header_run d m :
  quiet d -> disk_ok (sectors (obs d)) ->
  exists d' m', readseg spin elf 4096 0 (d, m) = Ok (tt, (d', m')) /\ quiet d' /\
    sectors (obs d') = sectors (obs d) /\ forall k, 0 <= k < 4096 -> m' (elf + k) = img (sectors (obs d)) k.
Proof.
  intros Hq Hd. destruct (readseg_run d m (mkseg elf 0 4096 0) Hq Hd) as (d' & m' & hi & R & Q & S & Hhi & F).
  { unfold seg_ok, seg_end, elf. cbn. lia. }
  { done. }
  exists d', m'. split_and!; [exact R|done|done|]. intros k Hk. rewrite F.
  change (seg_low (mkseg elf 0 4096 0)) with 65536. change (paddr _ + filesz _) with 69632 in Hhi. change elf with 65536.
  change (off _ - _) with 0. rewrite (proj2 (Z.leb_le _ _)), (proj2 (Z.ltb_lt _ _)) by lia. cbn [andb]. f_equal. lia.
Qed.

End Runs.

Lemma img_range secs k : disk_ok secs -> 0 <= k < 4096 -> 0 <= img secs k < 256.
Proof.
  intros Hd Hk. unfold img. destruct (zlookup (secs 0 (1 + k / 512)) (k mod 512)) as [b|] eqn:E; [|cbn; lia].
  destruct (Hd (1 + k / 512)) as [_ Hb]; [Z.to_euclidean_division_equations; lia|].
  unfold zlookup in E. destruct (0 <=? k mod 512); [|done]. exact (Forall_lookup_1 _ _ _ _ Hb E).
Qed.

(** The segments of the kernel, as the headers in the file have them. *)
Definition segments (secs : store) : list segment :=
  (fun i => seg_at (img secs) (load32 (img secs) 28 + 32 * Z.of_nat i)) <$> seq 0 (Z.to_nat (load16 (img secs) 44)).

(** C11: the boot loader puts the kernel in memory.  When the file at sector 1 is
    an ELF file whose program headers are in its first page, and whose segments
    lie above the scratch page, each one beginning, rounded down to a sector of
    the file, behind the one before, then [bootmain] calls the entry of the file,
    with the bytes of every segment in place and the rest of it cleared. *)
Theorem boot_loads_kernel {D : Type} `{AtaLaws D} `{!Reliable D} (spin : nat) (d : D) (m : mem) :
  (limit <= spin)%nat -> quiet d -> disk_ok (sectors (obs d)) ->
  let secs := sectors (obs d) in
  load32 (img secs) 0 = ELF_MAGIC ->
  load32 (img secs) 28 + 32 * load16 (img secs) 44 <= 4096 ->
  spaced (elf + 4096) (segments secs) ->
  exists d' m', bootmain spin (d, m) = Ok (Some (load32 (img secs) 24), (d', m')) /\
                Forall (loaded secs m') (segments secs).
Proof.
  intros Hspin Hq Hd secs Hmagic Hph Hs. unfold bootmain.
  destruct (header_run spin Hspin d m Hq Hd) as (d1 & m1 & R1 & Q1 & S1 & Hm1). step R1. rewrite run_get. cbn [snd].
  assert (forall o, 0 <= o -> o + 4 <= 4096 -> load32 m1 (elf + o) = load32 (img secs) o) as Hload.
  { intros o Ho Ho'. unfold load32. rewrite <- !Z.add_assoc. by rewrite !Hm1 by lia. }
  pose proof (fun k => img_range secs k Hd) as Hr.
  assert (0 <= load32 (img secs) 28) as H28.
  { unfold load32. pose proof (Hr 28). pose proof (Hr (28 + 1)). pose proof (Hr (28 + 2)). pose proof (Hr (28 + 3)). lia. }
  assert (0 <= load16 (img secs) 44) as H44 by (unfold load16; pose proof (Hr 44); pose proof (Hr (44 + 1)); lia).
  replace (load32 m1 elf) with ELF_MAGIC by (rewrite <- Hmagic; symmetry; exact (Hload 0 ltac:(lia) ltac:(lia))).
  rewrite Z.eqb_refl. cbn [negb]. rewrite (Hload 28) by lia.
  assert (load16 m1 (elf + 44) = load16 (img secs) 44) as ->.
  { unfold load16. rewrite <- Z.add_assoc. by rewrite !Hm1 by lia. }
  assert (elf = 65536) as He by done. rewrite u32_small by lia.
  assert ((fun i => seg_at m1 (elf + load32 (img secs) 28 + 32 * Z.of_nat i)) <$> seq 0 (Z.to_nat (load16 (img secs) 44)) = segments secs) as Hsegs.
  { apply list_fmap_ext. intros j i [Hi Hj]%lookup_seq. unfold seg_at.
    f_equal; rewrite <- !Z.add_assoc; rewrite Hload by lia; f_equal; lia. }
  rewrite <- S1 in Hd.
  destruct (load_segments_run spin Hspin (Z.to_nat (load16 (img secs) 44)) d1 m1 (elf + load32 (img secs) 28) (elf + 4096) (elf + 4096) Q1 Hd)
    as (d2 & m2 & R2 & Q2 & B2 & L2); [lia|lia|lia|lia|by rewrite Hsegs|].
  step R2. rewrite run_get. cbn [snd]. exists d2, m2. rewrite Hsegs, S1 in L2. split; [|exact L2].
  rewrite (load32_below m1 m2 (elf + 4096)) by (done || lia). by rewrite Hload by lia.
Qed.

(** ** Two kernels *)

(** The disk with the file [l] from sector 1 on. *)
Definition disk_of (l : list Z) : store := fun _ i =>
  (fun j => default 0 (zlookup l (512 * (i - 1) + Z.of_nat j))) <$> seq 0 512.

Lemma disk_of_ok l : Forall (fun b => 0 <= b < 256) l -> disk_ok (disk_of l).
Proof.
  intros Hl i Hi. unfold disk_of. split; [by rewrite length_fmap, length_seq|]. apply Forall_fmap, Forall_forall. intros j _. cbn.
  destruct (zlookup l (512 * (i - 1) + Z.of_nat j)) as [b|] eqn:E; [|cbn; lia].
  unfold zlookup in E. destruct (0 <=? _); [|done]. exact (Forall_lookup_1 _ _ _ _ Hl E).
Qed.

Definition le4 (v : Z) : list Z := [v mod 256; v / 256 mod 256; v / 65536 mod 256; v / 16777216].

Definition ph_bytes (sg : segment) : list Z :=
  le4 1 ++ le4 (off sg) ++ le4 (paddr sg) ++ le4 (paddr sg) ++ le4 (filesz sg) ++ le4 (memsz sg) ++ le4 7 ++ le4 1.

(** An ELF file with two segments and the given contents behind the headers. *)
Definition elf_file (a b : segment) (data : list Z) : list Z :=
  le4 ELF_MAGIC ++ replicate 20 0 ++ le4 0x10000c ++ le4 52 ++ replicate 12 0 ++ [2; 0; 0; 0; 0; 0; 0; 0] ++
  ph_bytes a ++ ph_bytes b ++ data.

Definition boot_dev (l : list Z) : dev := mkdev (fun _ => 0) (disk_of l) Idle 2 false.

(** 600 bytes of code with 200 bytes of cleared memory, then 30 bytes of data. *)
Definition ex_kernel : list Z :=
  elf_file (mkseg 0x100000 116 600 800) (mkseg 0x100400 716 30 30) (replicate 600 7 ++ replicate 30 9).

Lemma ex_kernel_bytes : Forall (fun b => 0 <= b < 256) ex_kernel.
Proof. apply (bool_decide_unpack _). vm_compute. exact I. Qed.

Lemma ex_kernel_segments : segments (disk_of ex_kernel) = [mkseg 0x100000 116 600 800; mkseg 0x100400 716 30 30].
Proof. vm_compute. reflexivity. Qed.

Definition ex_boot : dev := boot_dev ex_kernel.
Definition ex_mem : mem := fun _ => 0xcc.

Lemma ex_boot_sectors : sectors (obs ex_boot) = disk_of ex_kernel.
Proof. reflexivity. Qed.

Lemma ex_boot_spaced : spaced (elf + 4096) (segments (sectors (obs ex_boot))).
Proof.
  rewrite ex_boot_sectors, ex_kernel_segments. unfold spaced, seg_ok, seg_low, seg_end, elf. cbn [paddr off filesz memsz].
  change (116 mod 512) with 116. change (716 mod 512) with 204. lia.
Qed.

Lemma ex_boot_header :
  load32 (img (sectors (obs ex_boot))) 0 = ELF_MAGIC /\
  load32 (img (sectors (obs ex_boot))) 28 + 32 * load16 (img (sectors (obs ex_boot))) 44 <= 4096.
Proof. vm_compute. split; [reflexivity|discriminate]. Qed.

Lemma boot_loads_kernel_witness :
  exists d' m', bootmain 3 (ex_boot, ex_mem) = Ok (Some (load32 (img (sectors (obs ex_boot))) 24), (d', m')) /\
                Forall (loaded (sectors (obs ex_boot)) m') (segments (sectors (obs ex_boot))).
Proof.
  apply (boot_loads_kernel 3 ex_boot ex_mem).
  - apply le_n.
  - reflexivity.
  - rewrite ex_boot_sectors. exact (disk_of_ok _ ex_kernel_bytes).
  - exact (proj1 ex_boot_header).
  - exact (proj2 ex_boot_header).
  - exact ex_boot_spaced.
Defined.

(** Increasing order is not enough: with the second segment right behind the
    first, and rounded down by 204 bytes, the end of the cleared memory
    of the first is overwritten. *)
Definition ex_close : list Z :=
  elf_file (mkseg 0x100000 116 600 800) (mkseg 0x100320 716 30 30) (replicate 600 7 ++ replicate 30 9).

Lemma ex_close_clobbered :
  match bootmain 3 (boot_dev ex_close, fun _ => 0xcc) with Ok (Some _, (_, m)) => m (0x100000 + 799) | _ => 0 end = 7.
Proof. vm_compute. reflexivity. Qed.

End BootThm.
