(* ===== verification/Ide.v ===== *)
(** * The IDE driver (drivers/ide/ide.c)

    Requests wait in a linked list of buffers; the first one is with the
    controller.  [iderw] is in two parts: up to the loop that sleeps, and one round
    of the loop, after which the process is asleep or returns.  Other processes and
    the interrupt handler run while it sleeps.  The lock of the driver, which
    [sleep] gives up, makes each part, and the handler, one step.  The calls of
    [initlock] and [ioapicenable] in [ideinit] concern other components. *)

From Stdlib Require Import ZArith Lia.
From stdpp Require Import base numbers strings list gmap.
From S2P Require Import Prelude Ata.

Open Scope Z_scope.

Module Ide.
Import Ata.

Definition FSSIZE : Z := 1000.
Definition BSIZE : Z := 512.
Definition SECTOR_SIZE : Z := 512.
Definition B_VALID : Z := 2.
Definition B_DIRTY : Z := 4.

Record buf := mkbuf { flags : Z; bdev : Z; blockno : Z; qnext : Z; data : list Z }.

Definition set_flags (v : Z) (b : buf) : buf := mkbuf v (bdev b) (blockno b) (qnext b) (data b).
Definition set_qnext (v : Z) (b : buf) : buf := mkbuf (flags b) (bdev b) (blockno b) v (data b).
Definition set_data (v : list Z) (b : buf) : buf := mkbuf (flags b) (bdev b) (blockno b) (qnext b) v.

Section Code.
Context {D : Type} `{Ata D} (spin : nat).

(** [sleepers] are the channels, buffers, on which a process sleeps in [iderw]. *)
Record state := mkstate { ctl : D; bufs : gmap Z buf; idequeue : Z; havedisk1 : bool; sleepers : gset Z }.

Definition set_ctl (v : D) (s : state) : state := mkstate v (bufs s) (idequeue s) (havedisk1 s) (sleepers s).
Definition set_bufs (v : gmap Z buf) (s : state) : state := mkstate (ctl s) v (idequeue s) (havedisk1 s) (sleepers s).
Definition set_idequeue (v : Z) (s : state) : state := mkstate (ctl s) (bufs s) v (havedisk1 s) (sleepers s).
Definition set_sleepers (v : gset Z) (s : state) : state := mkstate (ctl s) (bufs s) (idequeue s) (havedisk1 s) v.

(** The process that sleeps on a buffer is made runnable ([wakeup], and [kill]). *)
Definition wakeup (p : Z) : ST state unit := modify (fun s => set_sleepers (sleepers s ∖ {[p]}) s).

Definition in8 (port : Z) : ST state Z := fun s => let '(v, d) := inb port (ctl s) in Ok (v, set_ctl d s).
Definition out8 (port v : Z) : ST state unit := modify (fun s => set_ctl (outb port (u8 v) (ctl s)) s).

Definition rdbuf (p : Z) : ST state buf := s ← get; match bufs s !! p with Some b => mret b | None => fault end.
Definition wrbuf (p : Z) (f : buf -> buf) : ST state unit :=
  b ← rdbuf p; modify (fun s => set_bufs (<[p := f b]> (bufs s)) s).

Fixpoint idewait_loop (fuel : nat) : ST state Z :=
  r ← in8 0x1f7;
  if Z.land r (Z.lor 0x80 0x40) =? 0x40 then mret r
  else match fuel with O => out_of_fuel | S f => idewait_loop f end.

Definition idewait (checkerr : bool) : ST state Z :=
  r ← idewait_loop spin;
  mret (if checkerr && negb (Z.land r (Z.lor 0x20 0x01) =? 0) then -1 else 0).

Fixpoint probe (n : nat) : ST state unit :=
  match n with
  | O => mret tt
  | S n =>
      r ← in8 0x1f7;
      if negb (r =? 0) then modify (fun s => mkstate (ctl s) (bufs s) (idequeue s) true (sleepers s)) else probe n
  end.

Definition ideinit : ST state unit :=
  idewait false;;
  out8 0x1f6 (Z.lor 0xe0 (Z.shiftl 1 4));;
  probe 1000;;
  out8 0x1f6 (Z.lor 0xe0 (Z.shiftl 0 4)).

Definition idestart (p : Z) : ST state unit :=
  if p =? 0 then panic "idestart"
  else
    b ← rdbuf p;
    if FSSIZE <=? blockno b then panic "incorrect blockno"
    else
      let sector_per_block := BSIZE / SECTOR_SIZE in
      let sector := blockno b * sector_per_block in
      let read_cmd := if sector_per_block =? 1 then 0x20 else 0xc4 in
      let write_cmd := if sector_per_block =? 1 then 0x30 else 0xc5 in
      if 7 <? sector_per_block then panic "idestart"
      else
        idewait false;;
        out8 0x3f6 0;;
        out8 0x1f2 sector_per_block;;
        out8 0x1f3 (Z.land sector 0xff);;
        out8 0x1f4 (Z.land (Z.shiftr sector 8) 0xff);;
        out8 0x1f5 (Z.land (Z.shiftr sector 16) 0xff);;
        out8 0x1f6 (Z.lor (Z.lor 0xe0 (Z.shiftl (Z.land (bdev b) 1) 4)) (Z.land (Z.shiftr sector 24) 0x0f));;
        if negb (Z.land (flags b) B_DIRTY =? 0) then
          out8 0x1f7 write_cmd;;
          modify (fun s => set_ctl (outsl (data b) (ctl s)) s)
        else out8 0x1f7 read_cmd.

Definition insl_buf (p : Z) : ST state unit := fun s =>
  let '(l, d) := insl (BSIZE / 4) (ctl s) in wrbuf p (set_data l) (set_ctl d s).

Definition ideintr : ST state unit :=
  s ← get;
  let p := idequeue s in
  if p =? 0 then mret tt
  else
    b ← rdbuf p;
    modify (set_idequeue (qnext b));;
    (if Z.land (flags b) B_DIRTY =? 0 then
       r ← idewait true;
       if 0 <=? r then insl_buf p else mret tt
     else mret tt);;
    wrbuf p (fun b => set_flags (Z.lor (flags b) B_VALID) b);;
    wrbuf p (fun b => set_flags (Z.land (flags b) (Z.lnot B_DIRTY)) b);;
    wakeup p;;
    s ← get;
    if negb (idequeue s =? 0) then idestart (idequeue s) else mret tt.

(** What [pp] points to: the head of the queue or the link of a buffer. *)
Inductive link := Head | Next (p : Z).

Definition load_link (pp : link) : ST state Z :=
  match pp with Head => s ← get; mret (idequeue s) | Next p => b ← rdbuf p; mret (qnext b) end.

Definition store_link (pp : link) (v : Z) : ST state unit :=
  match pp with Head => modify (set_idequeue v) | Next p => wrbuf p (set_qnext v) end.

Fixpoint last_link (fuel : nat) (pp : link) : ST state link :=
  v ← load_link pp;
  if v =? 0 then mret pp else match fuel with O => out_of_fuel | S f => last_link f (Next v) end.

(** [iderw] up to the loop that sleeps; [locked] is [holdingsleep(&b->lock)]. *)
Definition iderw_enqueue (locked : bool) (p : Z) : ST state unit :=
  b ← rdbuf p;
  if negb locked then panic "iderw: buf not locked"
  else if Z.land (flags b) (Z.lor B_VALID B_DIRTY) =? B_VALID then panic "iderw: nothing to do"
  else
    s ← get;
    if negb (bdev b =? 0) && negb (havedisk1 s) then panic "iderw: ide disk 1 not present"
    else
      wrbuf p (set_qnext 0);;
      pp ← last_link (size (bufs s)) Head;
      store_link pp p;;
      s ← get;
      if idequeue s =? p then idestart p else mret tt.

(** A round of the loop: the process returns, or goes to sleep. *)
Definition iderw_wait (p : Z) : ST state bool :=
  b ← rdbuf p;
  if Z.land (flags b) (Z.lor B_VALID B_DIRTY) =? B_VALID then mret true
  else modify (fun s => set_sleepers ({[p]} ∪ sleepers s) s);; mret false.

(** [iderw] until it returns or sleeps for the first time. *)
Definition iderw (locked : bool) (p : Z) : ST state bool := iderw_enqueue locked p;; iderw_wait p.

End Code.

Arguments state : clear implicits.

End Ide.

(** * The IDE driver serves its requests in order

    The specification: a disk on which the oldest request is carried out, whole,
    at each interrupt.  The driver refines it, although it gives the data of a
    write to the controller when the request comes to the head of the queue. *)

Module IdeThm.
Import Ata Ide.

Definition dirty (f : Z) : bool := negb (Z.land f B_DIRTY =? 0).

(** The drive a buffer is on. *)
Definition drive_of (b : buf) : Z := Z.land (bdev b) 1.

Lemma low_block x :
  0 <= x < 1000 ->
  u8 (Z.land x 0xff) + 256 * u8 (Z.land (Z.shiftr x 8) 0xff) + 65536 * u8 (Z.land (Z.shiftr x 16) 0xff) = x /\
  Z.land (Z.shiftr x 24) 0x0f = 0.
Proof.
  intros Hx. assert (x ∈ seqZ 0 1000) as Hin by (apply elem_of_seqZ; lia). clear Hx. revert x Hin. apply Forall_forall.
  apply (bool_decide_unpack _). vm_compute. exact I.
Qed.

Lemma drive_reg e :
  e = 0 \/ e = 1 ->
  Z.land (u8 (Z.lor (Z.lor 0xe0 (Z.shiftl e 4)) 0)) 15 = 0 /\ Z.land (Z.shiftr (u8 (Z.lor (Z.lor 0xe0 (Z.shiftl e 4)) 0)) 4) 1 = e.
Proof. intros [->| ->]; done. Qed.

Lemma land_1 x : Z.land x 1 = 0 \/ Z.land x 1 = 1.
Proof.
  change (Z.land x (Z.ones 1) = 0 \/ Z.land x (Z.ones 1) = 1). rewrite (Z.land_ones x 1 ltac:(lia)). pose proof (Z.mod_pos_bound x (2 ^ 1) ltac:(lia)). change (2 ^ 1) with 2 in *. lia.
Qed.

(** The flags of a request that has been carried out. *)
Definition served (f : Z) : Z := Z.land (Z.lor f B_VALID) (Z.lnot B_DIRTY).

Lemma served_valid f : Z.land (served f) (Z.lor B_VALID B_DIRTY) = B_VALID.
Proof.
  unfold served. apply Z.bits_inj'. intros j Hj. rewrite !Z.land_spec, Z.lor_spec, Z.lnot_spec by done.
  change (Z.lor B_VALID B_DIRTY) with 6. change B_VALID with 2. change B_DIRTY with 4.
  destruct (decide (j < 3)) as [Hlt|Hge].
  - assert (j = 0 \/ j = 1 \/ j = 2) as [->|[->| ->]] by lia; cbn; by rewrite ?orb_true_r, ?orb_false_r, ?andb_false_r.
  - rewrite (Z.bits_above_log2 6 j), (Z.bits_above_log2 2 j) by (cbn; lia). by rewrite andb_false_r.
Qed.

Section Runs.
Context {D : Type} `{L : AtaLaws D} (spin : nat).
Context (Hspin : (limit <= spin)%nat).
Implicit Types s : state D.

(** Nothing is in progress. *)
Definition calm (d : dev) : Prop := cmd d = Idle \/ failed d = true /\ exists l, cmd d = Reading l.

Lemma idewait_loop_run fuel s :
  (busy (obs (ctl s)) <= fuel)%nat ->
  exists r d, idewait_loop fuel s = Ok (r, set_ctl d s) /\
    (Z.land r (Z.lor 0x20 0x01) =? 0) = negb (failed (obs (ctl s))) /\
    obs d = mkdev (regs (obs (ctl s))) (sectors (obs (ctl s))) (cmd (obs (ctl s))) 0 (failed (obs (ctl s))).
Proof.
  revert s. induction fuel as [|fuel IH]; intros s Hb; cbn [idewait_loop].
  all: unfold in8 at 1; unfold mbind, ST_bind; destruct (busy (obs (ctl s))) as [|n] eqn:Eb.
  1,3: destruct (ata_status_ready (ctl s) Eb) as (Hs & Hf & Ho); destruct (inb 0x1f7 (ctl s)) as [st d]; cbn [fst snd] in *;
       change (Z.lor 0x80 0x40) with 0xc0; rewrite (proj2 (Z.eqb_eq _ _) Hs); exists st, d;
       split_and!; [done|exact Hf|]; rewrite Ho, <- Eb; by destruct (obs (ctl s)).
  - lia.
  - destruct (ata_status_busy (ctl s) n Eb) as (Hs & Ho). destruct (inb 0x1f7 (ctl s)) as [st d]. cbn [fst snd] in *.
    change (Z.lor 0x80 0x40) with 0xc0. rewrite (proj2 (Z.eqb_neq _ _) Hs).
    destruct (IH (set_ctl d s)) as (r & d2 & R2 & F2 & O2); [cbn; rewrite Ho; cbn; lia|].
    exists r, d2. cbn [ctl set_ctl] in *. rewrite R2, O2, F2, Ho. done.
Qed.

Lemma idewait_run s ce :
  exists d, idewait spin ce s = Ok (if ce && failed (obs (ctl s)) then -1 else 0, set_ctl d s) /\
    obs d = mkdev (regs (obs (ctl s))) (sectors (obs (ctl s))) (cmd (obs (ctl s))) 0 (failed (obs (ctl s))).
Proof.
  unfold idewait. pose proof (ata_limit (ctl s)).
  destruct (idewait_loop_run spin s ltac:(lia)) as (r & d & R & F & O). step R. exists d. split; [|done].
  rewrite F. by rewrite negb_involutive.
Qed.

Lemma out8_run s port v :
  latched port -> accepts (obs (ctl s)) ->
  exists d, out8 port v s = Ok (tt, set_ctl d s) /\
    obs d = mkdev (latch port (u8 v) (regs (obs (ctl s)))) (sectors (obs (ctl s))) (cmd (obs (ctl s))) 0 (failed (obs (ctl s))).
Proof. intros Hp Ha. eexists. split; [reflexivity|]. by apply ata_latch. Qed.

(** The registers of a request. *)
Definition request_regs (b : buf) (r : Z -> Z) : Prop :=
  r 0x1f2 = 1 /\ lba r = blockno b /\ drive r = drive_of b.

Lemma set_ctl_twice d d' s : set_ctl d (set_ctl d' s) = set_ctl d s.
Proof. done. Qed.

(** Writing a register as a step of a sequence; [E] is what is known of the controller. *)
Ltac latch_reg Ha E :=
  match goal with
  | |- context [(out8 ?port ?v ≫= _) ?s] =>
      let d := fresh "d" in let R := fresh "R" in let O := fresh "O" in
      destruct (out8_run s port v) as (d & R & O);
        [unfold latched; lia
        |cbn [ctl set_ctl]; rewrite E; apply Ha
        |step R; cbn [ctl set_ctl] in O; rewrite E in O; cbn [regs sectors cmd failed] in O; clear E R; rename O into E;
         rewrite ?set_ctl_twice]
  end.

(** [idestart] up to the command. *)
Lemma idestart_regs s p b :
  bufs s !! p = Some b -> p <> 0 -> 0 <= blockno b < FSSIZE -> calm (obs (ctl s)) ->
  exists d r, request_regs b r /\
    obs d = mkdev r (sectors (obs (ctl s))) (cmd (obs (ctl s))) 0 (failed (obs (ctl s))) /\
    idestart spin p s =
      (if negb (Z.land (flags b) B_DIRTY =? 0)
       then out8 0x1f7 0x30;; modify (fun s => set_ctl (outsl (data b) (ctl s)) s) else out8 0x1f7 0x20) (set_ctl d s).
Proof.
  intros Hb Hp Hbn Hc. unfold idestart. rewrite (proj2 (Z.eqb_neq p 0)) by done.
  assert (rdbuf p s = Ok (b, s)) as Rb by (unfold rdbuf; rewrite run_get, Hb; done). step Rb.
  rewrite (proj2 (Z.leb_gt _ _)) by lia. change (BSIZE / SECTOR_SIZE) with 1. cbn [Z.eqb Pos.eqb Z.ltb Z.compare Pos.compare Pos.compare_cont].
  rewrite Z.mul_1_r. destruct (idewait_run s false) as (d0 & R0 & O0). cbn [andb] in R0. step R0.
  assert (forall r, accepts (mkdev r (sectors (obs (ctl s))) (cmd (obs (ctl s))) 0 (failed (obs (ctl s))))) as Hacc
    by (intros r; split; [done|exact Hc]).
  do 6 latch_reg Hacc O0. destruct (low_block (blockno b) Hbn) as [Hlow Htop]. rewrite Htop in O0.
  destruct (drive_reg _ (land_1 (bdev b))) as [Hd1 Hd2].
  eexists _, _. split_and!; [|exact O0|reflexivity].
  unfold request_regs, lba, drive, drive_of, latch. cbn [Z.eqb Pos.eqb]. rewrite Hd1, Hd2. split_and!; [done|lia|done].
Qed.

(** A request that has been given to the controller, on the disk [dk]. *)
Definition started (b : buf) (dk : Z -> Z -> list Z) (d : dev) : Prop :=
  if dirty (flags b)
  then calm d /\ sectors d = set_sector (drive_of b) (blockno b) (data b) dk
  else cmd d = Reading (dk (drive_of b) (blockno b)) /\ sectors d = dk.

Lemma idestart_run s p b :
  bufs s !! p = Some b -> p <> 0 -> 0 <= blockno b < FSSIZE -> calm (obs (ctl s)) -> length (data b) = 512%nat ->
  exists d, idestart spin p s = Ok (tt, set_ctl d s) /\ started b (sectors (obs (ctl s))) (obs d) /\
            (Reliable D -> dirty (flags b) = false -> failed (obs d) = false).
Proof.
  intros Hb Hp Hbn Hc Hl. destruct (idestart_regs s p b Hb Hp Hbn Hc) as (d & r & (R1 & R2 & R3) & O & ->).
  assert (accepts (obs d)) as Ha by (rewrite O; split; [done|exact Hc]).
  unfold started. fold (dirty (flags b)). destruct (dirty (flags b)) eqn:Ed.
  - erewrite run_bind; [|reflexivity]. change (u8 0x30) with 0x30. cbn [ctl set_ctl].
    destruct (ata_write d Ha) as (n & e & Ow); [by rewrite O|]. rewrite O in Ow. cbn [regs sectors] in Ow. rewrite R2, R3 in Ow.
    destruct (ata_outsl (outb 0x1f7 0x30 d) (drive_of b) (blockno b) (data b)) as (k & e' & Oo); [by rewrite Ow|done|].
    exists (outsl (data b) (outb 0x1f7 0x30 d)). split; [reflexivity|]. rewrite Oo, Ow. split; [|done]. split; [by left|done].
  - destruct (ata_read d Ha) as (n & e & Or). exists (outb 0x1f7 0x20 d). split; [reflexivity|].
    split; [|intros Hrel _; by apply reliable_read]. rewrite Or, O. cbn [cmd sectors]. split; [|done].
    rewrite requested_one by done. cbn [regs sectors]. by rewrite R2, R3.
Qed.

(** ** The queue *)

Fixpoint chain (m : gmap Z buf) (h : Z) (q : list Z) : Prop :=
  match q with
  | [] => h = 0
  | p :: q => h = p /\ p <> 0 /\ exists b, m !! p = Some b /\ chain m (qnext b) q
  end.

Lemma queue_chain_ext m m' q : forall h,
  (forall p, p ∈ q -> qnext <$> m' !! p = qnext <$> m !! p) -> chain m h q -> chain m' h q.
Proof.
  induction q as [|p q IH]; intros h He Hc; [done|]. destruct Hc as (-> & Hp & b & Hb & Hc).
  pose proof (He p ltac:(left)) as Hpb. rewrite Hb in Hpb. destruct (m' !! p) as [b'|] eqn:Hb'; [|done].
  injection Hpb as Hq. split_and!; [done|done|]. exists b'. split; [done|]. rewrite Hq. apply IH; [|done].
  intros p' Hp'. apply He. by right.
Qed.

(** The link at the end of a chain. *)
Definition end_link (q : list Z) (pp : link) : link := match last q with Some p => Next p | None => pp end.

Lemma rdbuf_run s p b : bufs s !! p = Some b -> rdbuf p s = Ok (b, s).
Proof. intros Hb. unfold rdbuf. by rewrite run_get, Hb. Qed.

Lemma wrbuf_run s p b f : bufs s !! p = Some b -> wrbuf p f s = Ok (tt, set_bufs (<[p := f b]> (bufs s)) s).
Proof. intros Hb. unfold wrbuf. by step (rdbuf_run s p b Hb). Qed.

Lemma last_link_run s fuel q : forall pp h,
  load_link pp s = Ok (h, s) -> chain (bufs s) h q -> (length q <= fuel)%nat ->
  last_link fuel pp s = Ok (end_link q pp, s).
Proof.
  revert fuel. induction q as [|p q IH]; intros fuel pp h Hl Hc Hf.
  - cbn in Hc. subst h. destruct fuel; cbn [last_link]; step Hl; done.
  - destruct Hc as (-> & Hp & b & Hb & Hc). destruct fuel as [|fuel]; [cbn in Hf; lia|].
    cbn [last_link]. step Hl. rewrite (proj2 (Z.eqb_neq p 0)) by done.
    rewrite (IH fuel (Next p) (qnext b)); [|cbn; by step (rdbuf_run s p b Hb)|done|cbn in Hf; lia].
    unfold end_link. rewrite last_cons. by destruct (last q).
Qed.

Lemma chain_dom m q : forall h, chain m h q -> forall p, p ∈ q -> p <> 0 /\ is_Some (m !! p).
Proof.
  induction q as [|p q IH]; intros h Hc p' Hp'; [by apply not_elem_of_nil in Hp'|].
  destruct Hc as (_ & Hp & b & Hb & Hc). apply elem_of_cons in Hp' as [->|Hp']; [by eauto|by eapply IH].
Qed.

(** A chain has no more elements than there are buffers. *)
Lemma chain_length m h q : chain m h q -> NoDup q -> (length q <= size m)%nat.
Proof.
  intros Hc Hnd. rewrite <- size_dom, <- (size_list_to_set (C := gset Z) q) by done. apply subseteq_size.
  intros p Hp%elem_of_list_to_set. apply elem_of_dom. by eapply chain_dom.
Qed.

(** Appending a buffer whose link is 0. *)
Lemma chain_snoc m h q p b :
  chain m h q -> NoDup q -> p ∉ q -> p <> 0 -> m !! p = Some b -> qnext b = 0 ->
  match end_link q Head with
  | Head => q = [] /\ chain m p [p]
  | Next e => exists be, m !! e = Some be /\ e ∈ q /\ chain (<[e := set_qnext p be]> m) h (q ++ [p])
  end.
Proof.
  intros Hc Hnd Hp Hp0 Hb Hn. destruct q as [|e q _] using rev_ind.
  - cbn. split; [done|]. by eauto.
  - unfold end_link. rewrite last_snoc. apply NoDup_app in Hnd as (Hnd & Hdis & _).
    assert (e ∈ q ++ [e]) as He by (apply elem_of_app; right; left).
    destruct (chain_dom m _ h Hc e He) as [He0 [be Hbe]]. exists be. split_and!; [done|done|].
    rewrite <- app_assoc. cbn [app].
    assert (e <> p) as Hep by (intros ->; by apply Hp). clear He. revert h Hc Hdis Hnd.
    induction q as [|p1 q IH]; intros h Hc Hdis Hnd; cbn [app chain] in *.
    + destruct Hc as (-> & _ & _). split_and!; [done|done|]. exists (set_qnext p be). rewrite lookup_insert_eq.
      split_and!; [done|done|done|]. exists b. by rewrite lookup_insert_ne.
    + destruct Hc as (-> & Hp1 & b1 & Hb1 & Hc). split_and!; [done|done|]. exists b1.
      assert (p1 <> e) by (intros ->; apply (Hdis e); [left|left]).
      rewrite lookup_insert_ne by done. split; [done|]. apply IH; [|done| |by inversion Hnd].
      * intros Hin. apply Hp. cbn. by right.
      * intros x Hx. apply Hdis. by right.
Qed.

(** ** The specification *)

(** [sasleep] are the requests whose process sleeps. *)
Record spec := mkspec { sdisk : Z -> Z -> list Z; sbufs : gmap Z buf; squeue : list Z; sasleep : gset Z }.

(** A process asks for a transfer, the controller interrupts, a process changes a buffer that is not in the queue,
    a process is made runnable by [kill] while it sleeps in [iderw], or goes on there after that. *)
Inductive event := Request (p : Z) | Interrupt | Client (p f : Z) (l : list Z) | Kill (p : Z) | Run (p : Z).

(** There is something to do, the block and the drive exist. *)
Definition request_ok (disk1 : bool) (b : buf) : bool :=
  negb (Z.land (flags b) (Z.lor B_VALID B_DIRTY) =? B_VALID) && (0 <=? blockno b) && (blockno b <? FSSIZE) &&
  ((bdev b =? 0) || disk1) && (length (data b) =? 512)%nat.

(** The oldest request is carried out at the interrupt, and its process is awake after it. *)
Definition spec_serve (sp : spec) : option spec :=
  match squeue sp with
  | [] => Some sp
  | p :: q =>
      b ← sbufs sp !! p;
      Some (if dirty (flags b)
            then mkspec (set_sector (drive_of b) (blockno b) (data b) (sdisk sp)) (<[p := set_flags (served (flags b)) b]> (sbufs sp)) q (sasleep sp ∖ {[p]})
            else mkspec (sdisk sp) (<[p := set_flags (served (flags b)) (set_data (sdisk sp (drive_of b) (blockno b)) b)]> (sbufs sp)) q (sasleep sp ∖ {[p]}))
  end.

Definition spec_event (disk1 : bool) (e : event) (sp : spec) : option spec :=
  match e with
  | Request p =>
      b ← sbufs sp !! p;
      if request_ok disk1 b && bool_decide (p ∉ squeue sp) && negb (p =? 0)
      then Some (mkspec (sdisk sp) (sbufs sp) (squeue sp ++ [p]) ({[p]} ∪ sasleep sp)) else None
  | Interrupt => spec_serve sp
  | Client p f l =>
      b ← sbufs sp !! p;
      if bool_decide (p ∉ squeue sp) && (length l =? 512)%nat
      then Some (mkspec (sdisk sp) (<[p := set_data l (set_flags f b)]> (sbufs sp)) (squeue sp) (sasleep sp)) else None
  | Kill p => Some (mkspec (sdisk sp) (sbufs sp) (squeue sp) (sasleep sp ∖ {[p]}))
  | Run p =>
      if bool_decide (p ∈ squeue sp) then Some (mkspec (sdisk sp) (sbufs sp) (squeue sp) ({[p]} ∪ sasleep sp)) else None
  end.

Fixpoint spec_events (disk1 : bool) (es : list event) (sp : spec) : option spec :=
  match es with [] => Some sp | e :: es => sp ← spec_event disk1 e sp; spec_events disk1 es sp end.

Definition ide_event (e : event) : ST (state D) unit :=
  match e with
  | Request p => iderw spin true p;; mret tt
  | Interrupt => ideintr spin
  | Client p f l => wrbuf p (fun b => set_data l (set_flags f b))
  | Kill p => wakeup p
  | Run p => iderw_wait p;; mret tt
  end.

Fixpoint ide_events (es : list event) : ST (state D) unit :=
  match es with [] => mret tt | e :: es => ide_event e;; ide_events es end.

(** The links of the queue do not concern the specification. *)
Definition unlinked (m : gmap Z buf) : gmap Z buf := set_qnext 0 <$> m.

(** A request that is still to be carried out. *)
Definition pending (b : buf) : Prop :=
  0 <= blockno b < FSSIZE /\ length (data b) = 512%nat /\ Z.land (flags b) (Z.lor B_VALID B_DIRTY) <> B_VALID.

Record refines s (sp : spec) : Prop := mkrefines {
  r_bufs : unlinked (bufs s) = sbufs sp;
  r_chain : chain (bufs s) (idequeue s) (squeue sp);
  r_nodup : NoDup (squeue sp);
  r_ok : forall p b, p ∈ squeue sp -> bufs s !! p = Some b -> pending b;
  r_len : forall dr a, length (sdisk sp dr a) = 512%nat;
  r_ctl : match squeue sp with
          | [] => calm (obs (ctl s)) /\ sectors (obs (ctl s)) = sdisk sp
          | p :: _ => exists b, bufs s !! p = Some b /\ started b (sdisk sp) (obs (ctl s)) /\
                                (dirty (flags b) = false -> failed (obs (ctl s)) = false)
          end;
  r_sleep : sleepers s = sasleep sp;
  r_asleep : sasleep sp ⊆ list_to_set (squeue sp) }.

Lemma unlinked_lookup m p b : unlinked m !! p = Some b -> exists b', m !! p = Some b' /\ b = set_qnext 0 b'.
Proof. unfold unlinked. rewrite lookup_fmap. intros (b' & Hb & Hm)%fmap_Some. by exists b'. Qed.

Lemma unlinked_insert m p b : unlinked (<[p := b]> m) = <[p := set_qnext 0 b]> (unlinked m).
Proof. apply fmap_insert. Qed.

Lemma unlinked_relink m p b v : m !! p = Some b -> unlinked (<[p := set_qnext v b]> m) = unlinked m.
Proof. intros Hb. rewrite unlinked_insert. apply insert_id. unfold unlinked. by rewrite lookup_fmap, Hb. Qed.

(** The transfer of the first request. *)
Lemma transfer_run s p b dk :
  bufs s !! p = Some b -> started b dk (obs (ctl s)) -> (dirty (flags b) = false -> failed (obs (ctl s)) = false) ->
  (forall dr a, length (dk dr a) = 512%nat) ->
  exists d, (if Z.land (flags b) B_DIRTY =? 0 then r ← idewait spin true; if 0 <=? r then insl_buf p else mret tt else mret tt) s =
    Ok (tt, set_bufs (<[p := if dirty (flags b) then b else set_data (dk (drive_of b) (blockno b)) b]> (bufs s)) (set_ctl d s)) /\
    calm (obs d) /\
    sectors (obs d) = if dirty (flags b) then set_sector (drive_of b) (blockno b) (data b) dk else dk.
Proof.
  intros Hb Hst Hf Hlen. unfold started, dirty in *. destruct (Z.land (flags b) B_DIRTY =? 0); cbn [negb] in *.
  - destruct Hst as [Hc Hsec]. specialize (Hf eq_refl). destruct (idewait_run s true) as (d & R & O).
    rewrite Hf in R. cbn [andb] in R. step R. cbn [Z.leb Z.compare]. unfold insl_buf. cbn [ctl set_ctl]. change (BSIZE / 4) with 128.
    destruct (ata_insl d (dk (drive_of b) (blockno b)) 128) as (Hd & k & Ok1); [by rewrite O|by rewrite O|by rewrite O|by rewrite Hlen|].
    destruct (insl 128 d) as [l d1]. cbn [fst snd] in *. subst l. exists d1.
    rewrite (wrbuf_run _ p b) by done. split; [done|]. rewrite Ok1, O. split; [by left|done].
  - destruct Hst as [Hc Hsec]. exists (ctl s). split; [|done]. rewrite insert_id by done. by destruct s.
Qed.

Lemma ideintr_run `{!Reliable D} s sp sp' :
  refines s sp -> spec_serve sp = Some sp' ->
  exists s', ideintr spin s = Ok (tt, s') /\ refines s' sp' /\ havedisk1 s' = havedisk1 s.
Proof.
  intros [Hbufs Hchain Hnd Hok Hlen Hctl Hsl Has] Hs. unfold ideintr, spec_serve in *. rewrite run_get.
  destruct (squeue sp) as [|p q] eqn:Eq.
  { injection Hs as <-. cbn in Hchain. rewrite Hchain. exists s. split; [done|]. split; [|done].
    constructor; rewrite ?Eq; done. }
  destruct Hchain as (-> & Hp & b0 & Hb0 & Hchain). destruct Hctl as (b & Hb & Hst & Hf). rewrite Hb in Hb0. injection Hb0 as <-.
  rewrite (proj2 (Z.eqb_neq _ 0)) by done. step (rdbuf_run s _ b Hb). erewrite run_bind; [|reflexivity].
  apply NoDup_cons in Hnd as [Hpq Hnd].
  destruct (transfer_run (set_idequeue (qnext b) s) p b (sdisk sp) Hb Hst Hf Hlen) as (d & R & Hcalm & Hsec). step R.
  set (b1 := if dirty (flags b) then b else set_data (sdisk sp (drive_of b) (blockno b)) b) in *.
  assert (flags b1 = flags b /\ qnext b1 = qnext b) as [Hfl Hqn] by (unfold b1; by destruct (dirty (flags b))).
  erewrite run_bind; [|apply (wrbuf_run _ p b1); cbn; apply lookup_insert_eq].
  erewrite run_bind; [|apply (wrbuf_run _ p (set_flags (Z.lor (flags b1) B_VALID) b1)); cbn; apply lookup_insert_eq].
  erewrite run_bind; [|reflexivity]. rewrite run_get. cbn [idequeue bufs ctl havedisk1 sleepers set_idequeue set_bufs set_ctl set_sleepers].
  rewrite !insert_insert_eq. set (b2 := set_flags _ (set_flags _ b1)).
  assert (b2 = set_flags (served (flags b)) b1) as -> by (unfold b2; cbn; by rewrite Hfl).
  rewrite <- Hbufs in Hs. unfold unlinked in Hs. rewrite lookup_fmap, Hb in Hs. cbn in Hs. injection Hs as Hsp.
  set (m1 := <[p:=set_flags (served (flags b)) b1]> (bufs s)) in *.
  assert (sdisk sp' = sectors (obs d) /\ sbufs sp' = unlinked m1 /\ squeue sp' = q /\ sasleep sp' = sasleep sp ∖ {[p]}) as (Hd' & Hb' & Hq' & Hs').
  { unfold m1. rewrite Hsec, unlinked_insert, <- Hsp. unfold b1. by destruct (dirty (flags b)). }
  assert (forall dr a, length (sdisk sp' dr a) = 512%nat) as Hlen'.
  { intros dr a. rewrite Hd', Hsec. destruct (dirty (flags b)); [|apply Hlen]. unfold set_sector. destruct (_ && _); [|apply Hlen].
    apply (Hok p b); [left|done]. }
  assert (chain m1 (qnext b) q) as Hchain1.
  { eapply queue_chain_ext; [|exact Hchain]. intros p' Hp'. unfold m1. rewrite lookup_insert_ne; [done|]. intros <-. by apply Hpq. }
  assert (forall p' b', p' ∈ q -> m1 !! p' = Some b' -> pending b') as Hok1.
  { intros p' b' Hp' Hm. unfold m1 in Hm. rewrite lookup_insert_ne in Hm by (intros <-; by apply Hpq). eapply Hok; [by right|done]. }
  assert (sleepers s ∖ {[p]} = sasleep sp' /\ sasleep sp' ⊆ list_to_set q) as [Hsl' Has'].
  { rewrite Hs', Hsl. split; [done|]. cbn [list_to_set] in Has. set_solver. }
  destruct q as [|p2 q]; cbn [chain] in Hchain1.
  - rewrite Hchain1. cbn [Z.eqb negb]. eexists. split; [reflexivity|]. split; [|done].
    constructor; cbn; rewrite ?Hq'; try done.
  - destruct Hchain1 as (Hq2 & Hp2 & bb & Hbb & Hc2). rewrite Hq2, (proj2 (Z.eqb_neq p2 0)) by done. cbn [negb].
    destruct (Hok1 p2 bb ltac:(left) Hbb) as (Hbn2 & Hl2 & _).
    destruct (idestart_run (mkstate d m1 (qnext b) (havedisk1 s) (sleepers s ∖ {[p]})) p2 bb) as (d2 & R2 & St2 & F2); [done..|].
    rewrite Hq2 in R2. eexists. split; [exact R2|]. split; [|done].
    constructor; cbn; rewrite ?Hq'; try done.
    + split_and!; [done|done|]. by exists bb.
    + exists bb. cbn in St2. rewrite Hd'. eauto.
Qed.

(** Changing a buffer outside the queue. *)
Lemma refines_client s sp p b b' :
  refines s sp -> bufs s !! p = Some b -> p ∉ squeue sp ->
  refines (set_bufs (<[p := b']> (bufs s)) s) (mkspec (sdisk sp) (<[p := set_qnext 0 b']> (sbufs sp)) (squeue sp) (sasleep sp)).
Proof.
  intros [Hbufs Hchain Hnd Hok Hlen Hctl Hsl Has] Hb Hp. constructor; cbn; try done.
  - by rewrite unlinked_insert, Hbufs.
  - eapply queue_chain_ext; [|exact Hchain]. intros p' Hp'. rewrite lookup_insert_ne; [done|]. intros <-. by apply Hp.
  - intros p' b1 Hp' Hb1. rewrite lookup_insert_ne in Hb1 by (intros <-; by apply Hp). by eapply Hok.
  - destruct (squeue sp) as [|p' q]; [done|]. destruct Hctl as (b1 & Hb1 & Hst). exists b1.
    rewrite lookup_insert_ne; [done|]. intros <-. apply Hp. left.
Qed.

Lemma set_qnext_twice v w b : set_qnext v (set_qnext w b) = set_qnext v b.
Proof. done. Qed.

(** The queue with [p], whose link is 0, at its end: first for an empty queue, after [idestart]. *)
Lemma refines_first s sp p b d :
  refines s sp -> squeue sp = [] -> bufs s !! p = Some b -> qnext b = 0 -> p <> 0 ->
  pending b ->
  started b (sectors (obs (ctl s))) (obs d) -> (dirty (flags b) = false -> failed (obs d) = false) ->
  refines (set_ctl d (set_idequeue p s)) (mkspec (sdisk sp) (sbufs sp) [p] (sasleep sp)).
Proof.
  intros [Hbufs Hchain Hnd Hok Hlen Hctl Hsl Has] Eq Hb Hn Hp Hpe St F. rewrite Eq in Hctl. destruct Hctl as [_ Hsec].
  constructor; cbn; try done.
  - split_and!; [done|done|]. by exists b.
  - apply NoDup_singleton.
  - intros p' b' ->%list_elem_of_singleton Hb'. rewrite Hb in Hb'. by injection Hb' as <-.
  - exists b. by rewrite <- Hsec.
  - rewrite Eq in Has. set_solver.
Qed.

(** And for one that ends with [e]. *)
Lemma refines_last s sp p b e be :
  refines s sp -> p ∉ squeue sp -> bufs s !! p = Some b -> pending b ->
  bufs s !! e = Some be -> e ∈ squeue sp ->
  chain (<[e := set_qnext p be]> (bufs s)) (idequeue s) (squeue sp ++ [p]) ->
  refines (set_bufs (<[e := set_qnext p be]> (bufs s)) s) (mkspec (sdisk sp) (sbufs sp) (squeue sp ++ [p]) (sasleep sp)).
Proof.
  intros [Hbufs Hchain Hnd Hok Hlen Hctl Hsl Has] Hp Hb Hpe Hbe He Hc. constructor; cbn; try done.
  - by rewrite (unlinked_relink _ _ _ _ Hbe).
  - apply NoDup_app. split_and!; [done| |apply NoDup_singleton]. intros x Hx Hx'%list_elem_of_singleton. by subst.
  - intros x bx Hx Hbx. assert (exists bz, bufs s !! x = Some bz /\ (pending bz -> pending bx)) as (bz & Hbz & Hpx).
    { destruct (decide (x = e)) as [->|Hne]; [rewrite lookup_insert_eq in Hbx; injection Hbx as <-; by exists be|].
      rewrite lookup_insert_ne in Hbx by done. by exists bx. }
    apply Hpx. apply elem_of_app in Hx as [Hx|Hx%list_elem_of_singleton]; [by eapply Hok|]. subst x. rewrite Hb in Hbz. by injection Hbz as <-.
  - destruct (squeue sp) as [|h q]; [by apply not_elem_of_nil in He|]. destruct Hctl as (bh & Hbh & St & F).
    cbn [app]. destruct (decide (h = e)) as [->|Hne].
    + rewrite Hbh in Hbe. injection Hbe as <-. exists (set_qnext p bh). by rewrite lookup_insert_eq.
    + exists bh. by rewrite lookup_insert_ne.
  - rewrite list_to_set_app. set_solver.
Qed.

(** Clearing the link of a buffer outside the queue. *)
Lemma refines_unlink s sp p b :
  refines s sp -> bufs s !! p = Some b -> p ∉ squeue sp -> refines (set_bufs (<[p := set_qnext 0 b]> (bufs s)) s) sp.
Proof.
  intros Hr Hb Hp. pose proof (refines_client s sp p b (set_qnext 0 b) Hr Hb Hp) as H1.
  rewrite (insert_id (sbufs sp)) in H1; [destruct sp; exact H1|].
  rewrite <- (r_bufs _ _ Hr). unfold unlinked. by rewrite lookup_fmap, Hb.
Qed.

Lemma enqueue_run `{!Reliable D} s sp p b :
  refines s sp -> bufs s !! p = Some b -> request_ok (havedisk1 s) b = true -> p ∉ squeue sp -> p <> 0 ->
  exists s', iderw_enqueue spin true p s = Ok (tt, s') /\
    refines s' (mkspec (sdisk sp) (sbufs sp) (squeue sp ++ [p]) (sasleep sp)) /\ havedisk1 s' = havedisk1 s.
Proof.
  intros Hr Hb Hok Hp Hp0. unfold request_ok in Hok. rewrite !andb_true_iff in Hok.
  destruct Hok as [[[[Hfl%negb_true_iff Hb1%Z.leb_le] Hb2%Z.ltb_lt] Hdev] Hl%Nat.eqb_eq].
  unfold iderw_enqueue. step (rdbuf_run s p b Hb). cbn [negb]. rewrite Hfl. rewrite run_get.
  assert (negb (bdev b =? 0) && negb (havedisk1 s) = false) as -> by (destruct (bdev b =? 0), (havedisk1 s); done).
  step (wrbuf_run s p b (set_qnext 0) Hb). pose proof (refines_unlink s sp p b Hr Hb Hp) as Hr1.
  assert (pending b) as Hpe by (split_and!; [lia|lia|exact Hl|]; by apply Z.eqb_neq).
  set (b0 := set_qnext 0 b) in *. set (s1 := set_bufs (<[p := b0]> (bufs s)) s) in *.
  assert (bufs s1 !! p = Some b0) as Hb0 by apply lookup_insert_eq.
  pose proof (r_chain _ _ Hr1) as Hchain. pose proof (r_nodup _ _ Hr1) as Hnd. pose proof (r_ctl _ _ Hr1) as Hctl.
  assert (length (squeue sp) <= size (bufs s))%nat as Hsize.
  { pose proof (chain_length _ _ _ Hchain Hnd) as Hs. cbn [s1 set_bufs bufs] in Hs.
    by rewrite map_size_insert_Some in Hs by (by eexists). }
  rewrite (run_bind _ _ _ _ _ (last_link_run s1 _ _ Head (idequeue s1) ltac:(reflexivity) Hchain Hsize)).
  pose proof (chain_snoc _ _ _ p b0 Hchain Hnd Hp Hp0 Hb0 ltac:(reflexivity)) as Hsnoc.
  destruct (end_link (squeue sp) Head) as [|e]; cbn [store_link].
  - destruct Hsnoc as [Eq _]. rewrite Eq in Hctl. erewrite run_bind; [|reflexivity]. rewrite run_get.
    cbn [idequeue set_idequeue]. rewrite Z.eqb_refl.
    destruct (idestart_run (set_idequeue p s1) p b0 Hb0 Hp0) as (d & R & St & F); [done|apply Hctl|done|].
    rewrite R. eexists. split; [reflexivity|]. split; [|done]. rewrite Eq. by apply (refines_first s1 sp p b0 d); auto.
  - destruct Hsnoc as (be & Hbe & He & Hc1). step (wrbuf_run s1 e be (set_qnext p) Hbe). rewrite run_get.
    assert (idequeue s1 <> p) as Hh.
    { intros E. destruct (squeue sp) as [|h q]; [by apply not_elem_of_nil in He|]. destruct Hchain as [E' _]. apply Hp. rewrite <- E, E'. left. }
    cbn [idequeue set_bufs]. rewrite (proj2 (Z.eqb_neq _ p) Hh).
    eexists. split; [reflexivity|]. split; [|done]. by apply (refines_last s1 sp p b0).
Qed.

Lemma wait_run s sp p b :
  refines s sp -> sbufs sp !! p = Some b ->
  iderw_wait p s =
    if Z.land (flags b) (Z.lor B_VALID B_DIRTY) =? B_VALID then Ok (true, s)
    else Ok (false, set_sleepers ({[p]} ∪ sleepers s) s).
Proof.
  intros Hr Hb. rewrite <- (r_bufs _ _ Hr) in Hb. apply unlinked_lookup in Hb as (b' & Hb & ->).
  unfold iderw_wait. step (rdbuf_run s p b' Hb). cbn [flags set_qnext]. by case_match.
Qed.

(** Whether the processes in the queue sleep does not concern the rest. *)
Lemma refines_sleepers s sp X :
  refines s sp -> X ⊆ list_to_set (squeue sp) ->
  refines (set_sleepers X s) (mkspec (sdisk sp) (sbufs sp) (squeue sp) X).
Proof. intros [Hbufs Hchain Hnd Hok Hlen Hctl Hsl Has] HX. by constructor. Qed.

(** A process whose request is in the queue goes to sleep. *)
Lemma sleep_run s sp p :
  refines s sp -> p ∈ squeue sp ->
  exists s', iderw_wait p s = Ok (false, s') /\
    refines s' (mkspec (sdisk sp) (sbufs sp) (squeue sp) ({[p]} ∪ sasleep sp)) /\ havedisk1 s' = havedisk1 s.
Proof.
  intros Hr Hp. destruct (chain_dom _ _ _ (r_chain _ _ Hr) p Hp) as [_ [b Hb]].
  destruct (r_ok _ _ Hr p b Hp Hb) as (_ & _ & Hf%Z.eqb_neq). eexists. split_and!; cycle 1.
  - apply (refines_sleepers s sp ({[p]} ∪ sasleep sp) Hr). pose proof (r_asleep _ _ Hr). set_solver.
  - done.
  - unfold iderw_wait. step (rdbuf_run s p b Hb). rewrite Hf. rewrite <- (r_sleep _ _ Hr). reflexivity.
Qed.

Lemma request_run `{!Reliable D} s sp p b :
  refines s sp -> bufs s !! p = Some b -> request_ok (havedisk1 s) b = true -> p ∉ squeue sp -> p <> 0 ->
  exists s', iderw spin true p s = Ok (false, s') /\
    refines s' (mkspec (sdisk sp) (sbufs sp) (squeue sp ++ [p]) ({[p]} ∪ sasleep sp)) /\ havedisk1 s' = havedisk1 s.
Proof.
  intros Hr Hb Hok Hp Hp0. destruct (enqueue_run s sp p b Hr Hb Hok Hp Hp0) as (s1 & R1 & Hr1 & D1).
  unfold iderw. step R1. rewrite <- D1. apply (sleep_run s1 _ p Hr1). cbn. apply elem_of_app. right. left.
Qed.

Lemma ide_events_run `{!Reliable D} es : forall s sp sp',
  refines s sp -> spec_events (havedisk1 s) es sp = Some sp' ->
  exists s', ide_events es s = Ok (tt, s') /\ refines s' sp' /\ havedisk1 s' = havedisk1 s.
Proof.
  induction es as [|e es IH]; intros s sp sp' Hr Hs; cbn [spec_events ide_events] in *.
  - injection Hs as <-. by exists s.
  - apply bind_Some in Hs as (sp1 & H1 & Hs).
    assert (exists s1, ide_event e s = Ok (tt, s1) /\ refines s1 sp1 /\ havedisk1 s1 = havedisk1 s) as (s1 & R1 & Hr1 & D1).
    { destruct e as [p| |p f l|p|p]; cbn [spec_event ide_event] in *.
      - apply bind_Some in H1 as (b & Hb & H1). destruct (_ && _ && _) eqn:E; [|done]. injection H1 as <-.
        rewrite !andb_true_iff in E. destruct E as [[E1 E2%bool_decide_eq_true] E3%negb_true_iff%Z.eqb_neq].
        rewrite <- (r_bufs _ _ Hr) in Hb. apply unlinked_lookup in Hb as (b' & Hb & ->).
        destruct (request_run s sp p b' Hr Hb E1 E2 E3) as (s1 & R1 & Hr1 & D1). step R1. by exists s1.
      - by eapply ideintr_run.
      - apply bind_Some in H1 as (b & Hb & H1). destruct (_ && _) eqn:E; [|done]. injection H1 as <-.
        apply andb_true_iff in E as [E1%bool_decide_eq_true _].
        rewrite <- (r_bufs _ _ Hr) in Hb. apply unlinked_lookup in Hb as (b' & Hb & ->).
        eexists. split; [by apply wrbuf_run|]. split; [|done]. by apply (refines_client s sp p b' (set_data l (set_flags f b')) Hr Hb).
      - injection H1 as <-. exists (set_sleepers (sleepers s ∖ {[p]}) s). split; [reflexivity|]. split; [|done]. rewrite (r_sleep _ _ Hr).
        apply refines_sleepers; [done|]. pose proof (r_asleep _ _ Hr). set_solver.
      - destruct (bool_decide (p ∈ squeue sp)) eqn:E; [|done]. apply bool_decide_eq_true in E. injection H1 as <-.
        destruct (sleep_run s sp p Hr E) as (s1 & R1 & Hr1 & D1). step R1. by exists s1. }
    step R1. rewrite <- D1 in Hs. destruct (IH s1 sp1 sp' Hr1 Hs) as (s2 & R2 & Hr2 & D2). exists s2. split_and!; [done|done|congruence].
Qed.

(** ** Finished requests *)

Definition finished (sp : spec) (p : Z) : Prop :=
  exists b, sbufs sp !! p = Some b /\ Z.land (flags b) (Z.lor B_VALID B_DIRTY) = B_VALID.

Lemma serve_finishes sp p q :
  squeue sp = p :: q -> is_Some (sbufs sp !! p) ->
  exists sp', spec_serve sp = Some sp' /\ squeue sp' = q /\ finished sp' p /\
    (forall p', p' <> p -> sbufs sp' !! p' = sbufs sp !! p').
Proof.
  intros Eq [b Hb]. unfold spec_serve. rewrite Eq, Hb. cbn [mbind option_bind]. eexists. split; [reflexivity|].
  destruct (dirty (flags b)); cbn; (split_and!; [done| |intros p' Hp'; by rewrite lookup_insert_ne]);
    (eexists; split; [apply lookup_insert_eq|apply served_valid]).
Qed.

Lemma drain_finishes disk1 q : forall sp,
  squeue sp = q -> NoDup q -> (forall p, p ∈ q -> is_Some (sbufs sp !! p)) ->
  exists sp', spec_events disk1 (replicate (length q) Interrupt) sp = Some sp' /\ squeue sp' = [] /\
    (forall p, p ∈ q -> finished sp' p) /\ (forall p, p ∉ q -> sbufs sp' !! p = sbufs sp !! p).
Proof.
  induction q as [|p q IH]; intros sp Eq Hnd Hin; cbn [length replicate spec_events].
  - exists sp. split_and!; [done|done| |done]. intros p Hp. by apply not_elem_of_nil in Hp.
  - apply NoDup_cons in Hnd as [Hp Hnd]. destruct (serve_finishes sp p q Eq) as (sp1 & H1 & Eq1 & Hf & Ho); [apply Hin; left|].
    destruct (IH sp1 Eq1 Hnd) as (sp2 & H2 & Eq2 & Hf2 & Ho2).
    { intros p' Hp'. rewrite Ho by (intros ->; by apply Hp). apply Hin. by right. }
    exists sp2. cbn [spec_event]. rewrite H1. cbn [mbind option_bind]. split_and!; [done|done| |].
    + intros p' [->|Hp']%elem_of_cons; [|by apply Hf2]. destruct Hf as (b & Hb & Hv). exists b. by rewrite Ho2.
    + intros p' [Hne Hp']%not_elem_of_cons. rewrite Ho2 by done. by apply Ho.
Qed.

Lemma spec_events_app disk1 es es' sp :
  spec_events disk1 (es ++ es') sp = spec_events disk1 es sp ≫= spec_events disk1 es'.
Proof.
  revert sp. induction es as [|e es IH]; intros sp; [done|]. cbn [app spec_events].
  destruct (spec_event disk1 e sp); cbn; [apply IH|done].
Qed.

(** A driver without requests. *)
Definition idle s : Prop :=
  idequeue s = 0 /\ sleepers s = ∅ /\ calm (obs (ctl s)) /\ forall dr a, length (sectors (obs (ctl s)) dr a) = 512%nat.

Definition spec_of s : spec := mkspec (sectors (obs (ctl s))) (unlinked (bufs s)) [] ∅.

Lemma idle_refines s : idle s -> refines s (spec_of s).
Proof.
  intros (Hq & Hsl & Hc & Hl). constructor; cbn; try done.
  - apply NoDup_nil_2.
  - intros p b Hp. by apply not_elem_of_nil in Hp.
Qed.

End Runs.

(** C12: with a drive that reads without errors, the driver implements a disk that
    carries out its requests one after the other, in the order in which they came,
    one at each interrupt.  However requests of processes, interrupts, changes of
    other buffers and [kill]s of sleeping processes interleave, the driver neither
    panics nor waits for ever, the buffers are those of the specification, so are
    the sectors whenever no request is left, the processes asleep are those of the
    specification, all of them with a request in the queue, and a process in the
    loop of [iderw] returns exactly when its request has been carried out, and
    sleeps otherwise. *)
Theorem ide_refines_disk {D : Type} `{AtaLaws D} `{!Reliable D} (spin : nat) (s : state D) (es : list event) (sp : spec) :
  (limit <= spin)%nat -> idle s -> spec_events (havedisk1 s) es (spec_of s) = Some sp ->
  exists s', ide_events spin es s = Ok (tt, s') /\ unlinked (bufs s') = sbufs sp /\
    (squeue sp = [] -> sectors (obs (ctl s')) = sdisk sp) /\
    sleepers s' = sasleep sp /\ sasleep sp ⊆ list_to_set (squeue sp) /\
    forall p b, sbufs sp !! p = Some b ->
      iderw_wait p s' =
        if Z.land (flags b) (Z.lor B_VALID B_DIRTY) =? B_VALID then Ok (true, s')
        else Ok (false, set_sleepers ({[p]} ∪ sleepers s') s').
Proof.
  intros Hspin Hi Hs. destruct (ide_events_run spin Hspin es s _ sp (idle_refines s Hi) Hs) as (s' & R & Hr & _).
  exists s'. split_and!; [done|apply (r_bufs _ _ Hr)| |apply (r_sleep _ _ Hr)|apply (r_asleep _ _ Hr)|intros p b; by apply wait_run].
  intros Eq. pose proof (r_ctl _ _ Hr) as Hc. rewrite Eq in Hc. apply Hc.
Qed.

(** C25: no request is forgotten and no process sleeps for ever: with a drive that
    reads without errors, after as many interrupts as there are requests in the
    queue no process sleeps in the driver, and each process whose request was in
    the queue, asleep before or not, is awake and returns from [iderw] when it runs. *)
Theorem ide_requests_finish {D : Type} `{AtaLaws D} `{!Reliable D} (spin : nat) (s : state D) (es : list event) (sp : spec) :
  (limit <= spin)%nat -> idle s -> spec_events (havedisk1 s) es (spec_of s) = Some sp ->
  exists s1 s', ide_events spin es s = Ok (tt, s1) /\ sleepers s1 = sasleep sp /\
    ide_events spin (replicate (length (squeue sp)) Interrupt) s1 = Ok (tt, s') /\
    idequeue s' = 0 /\ sleepers s' = ∅ /\ forall p, p ∈ squeue sp -> iderw_wait p s' = Ok (true, s').
Proof.
  intros Hspin Hi Hs. destruct (ide_events_run spin Hspin es s _ sp (idle_refines s Hi) Hs) as (s1 & R1 & Hr & D1).
  destruct (drain_finishes (havedisk1 s) (squeue sp) sp eq_refl (r_nodup _ _ Hr)) as (sp2 & H2 & Eq2 & Hf & _).
  { intros p Hp. destruct (chain_dom _ _ _ (r_chain _ _ Hr) p Hp) as [_ [b Hb]]. rewrite <- (r_bufs _ _ Hr).
    unfold unlinked. rewrite lookup_fmap, Hb. by eexists. }
  rewrite <- D1 in H2. destruct (ide_events_run spin Hspin _ s1 sp sp2 Hr H2) as (s2 & R2 & Hr2 & _).
  exists s1, s2. split_and!; [done|apply (r_sleep _ _ Hr)|done| | |].
  - pose proof (r_chain _ _ Hr2) as Hc. by rewrite Eq2 in Hc.
  - pose proof (r_asleep _ _ Hr2) as Ha. rewrite Eq2 in Ha. rewrite (r_sleep _ _ Hr2). set_solver.
  - intros p Hp. destruct (Hf p Hp) as (b & Hb & Hv). rewrite (wait_run _ _ _ _ Hr2 Hb), Hv. done.
Qed.

(** C40: a read that the controller reports as failed is treated as done, here for
    a request alone in the queue: the buffer is marked valid with the bytes it had
    before, the process that sleeps for it is woken, and returns. *)
Theorem ide_error_ignored {D : Type} `{AtaLaws D} (spin : nat) (s : state D) (p : Z) (b : buf) :
  (limit <= spin)%nat -> p <> 0 -> idequeue s = p -> bufs s !! p = Some b -> qnext b = 0 -> dirty (flags b) = false ->
  failed (obs (ctl s)) = true ->
  exists s' b', ideintr spin s = Ok (tt, s') /\ bufs s' !! p = Some b' /\ data b' = data b /\
    Z.land (flags b') (Z.lor B_VALID B_DIRTY) = B_VALID /\ sleepers s' = sleepers s ∖ {[p]} /\ iderw_wait p s' = Ok (true, s').
Proof.
  intros Hspin Hp Hq Hb Hn Hd Hf. unfold ideintr. rewrite run_get, Hq. rewrite (proj2 (Z.eqb_neq p 0)) by done.
  step (rdbuf_run s p b Hb). erewrite run_bind; [|reflexivity]. apply negb_false_iff in Hd. rewrite Hd.
  destruct (idewait_run spin Hspin (set_idequeue (qnext b) s) true) as (d & R & O). cbn [ctl set_idequeue] in R. rewrite Hf in R.
  erewrite run_bind; [|step R; reflexivity].
  erewrite run_bind; [|apply (wrbuf_run _ p b); exact Hb].
  erewrite run_bind; [|apply (wrbuf_run _ p (set_flags (Z.lor (flags b) B_VALID) b)); cbn; apply lookup_insert_eq].
  erewrite run_bind; [|reflexivity]. rewrite run_get. cbn [idequeue bufs ctl havedisk1 sleepers set_idequeue set_bufs set_ctl set_sleepers]. rewrite Hn. cbn [Z.eqb negb].
  rewrite insert_insert_eq. eexists _, (set_flags (served (flags b)) b). split; [reflexivity|]. cbn [bufs set_bufs set_sleepers].
  rewrite lookup_insert_eq. split_and!; [done|done|apply served_valid|done|].
  unfold iderw_wait. erewrite run_bind; [|apply rdbuf_run; cbn; apply lookup_insert_eq]. cbn [flags set_flags].
  change (Z.land (Z.lor (flags b) B_VALID) (Z.lnot B_DIRTY)) with (served (flags b)). by rewrite served_valid.
Qed.

(** ** Three requests *)

Definition ex_ctl (fail : bool) : dev := mkdev (fun _ => 0) (fun dr a => replicate 512 (a mod 256)) Idle 1 fail.

Definition ex_bufs : gmap Z buf :=
  <[100 := mkbuf 4 1 3 77 (replicate 512 8)]> (<[200 := mkbuf 0 1 3 0 (replicate 512 0)]> (<[300 := mkbuf 0 0 5 100 (replicate 512 0)]> ∅)).

Definition ex_ide : state dev := mkstate (ex_ctl false) ex_bufs 0 true ∅.

(** A write and a read of block 3, whose process is killed, and a read of block 5. *)
Definition ex_events : list event := [Request 100; Request 200; Kill 200; Interrupt; Run 200; Request 300; Interrupt; Interrupt; Interrupt].

Lemma ex_idle : idle ex_ide.
Proof. split_and!; [reflexivity|reflexivity|left; reflexivity|]. intros dr a. apply length_replicate. Qed.

Definition spec_after (es : list event) : spec := default (spec_of ex_ide) (spec_events true es (spec_of ex_ide)).

Lemma spec_after_run es :
  bool_decide (is_Some (spec_events true es (spec_of ex_ide))) = true -> spec_events true es (spec_of ex_ide) = Some (spec_after es).
Proof. intros [sp Hs]%bool_decide_eq_true. unfold spec_after. by rewrite Hs. Qed.

Lemma ex_events_ok : spec_events true ex_events (spec_of ex_ide) = Some (spec_after ex_events).
Proof. apply spec_after_run. vm_compute. reflexivity. Qed.

Lemma ex_events_ok' : spec_events true (take 6 ex_events) (spec_of ex_ide) = Some (spec_after (take 6 ex_events)).
Proof. apply spec_after_run. vm_compute. reflexivity. Qed.

Lemma ide_refines_disk_witness :
  exists s', ide_events 3 ex_events ex_ide = Ok (tt, s') /\ unlinked (bufs s') = sbufs (spec_after ex_events) /\
    (squeue (spec_after ex_events) = [] -> sectors (obs (ctl s')) = sdisk (spec_after ex_events)) /\
    sleepers s' = sasleep (spec_after ex_events) /\ sasleep (spec_after ex_events) ⊆ list_to_set (squeue (spec_after ex_events)) /\
    forall p b, sbufs (spec_after ex_events) !! p = Some b ->
      iderw_wait p s' =
        if Z.land (flags b) (Z.lor B_VALID B_DIRTY) =? B_VALID then Ok (true, s')
        else Ok (false, set_sleepers ({[p]} ∪ sleepers s') s').
Proof. apply (ide_refines_disk 3 ex_ide ex_events (spec_after ex_events)); [apply le_n|exact ex_idle|exact ex_events_ok]. Defined.

Lemma ide_requests_finish_witness :
  exists s1 s', ide_events 3 (take 6 ex_events) ex_ide = Ok (tt, s1) /\ sleepers s1 = sasleep (spec_after (take 6 ex_events)) /\
    ide_events 3 (replicate (length (squeue (spec_after (take 6 ex_events)))) Interrupt) s1 = Ok (tt, s') /\
    idequeue s' = 0 /\ sleepers s' = ∅ /\ forall p, p ∈ squeue (spec_after (take 6 ex_events)) -> iderw_wait p s' = Ok (true, s').
Proof. apply (ide_requests_finish 3 ex_ide (take 6 ex_events) (spec_after (take 6 ex_events))); [apply le_n|exact ex_idle|exact ex_events_ok']. Defined.

(** In the witness two processes sleep before the interrupts. *)
Lemma ex_asleep : sasleep (spec_after (take 6 ex_events)) = {[200; 300]} /\ squeue (spec_after (take 6 ex_events)) = [200; 300].
Proof. split; vm_compute; reflexivity. Qed.

Definition ex_failed : state dev := mkstate (ex_ctl true) ex_bufs 200 true {[200]}.

Lemma ide_error_ignored_witness :
  exists s' b', ideintr 3 ex_failed = Ok (tt, s') /\ bufs s' !! 200 = Some b' /\ data b' = data (mkbuf 0 1 3 0 (replicate 512 0)) /\
    Z.land (flags b') (Z.lor B_VALID B_DIRTY) = B_VALID /\ sleepers s' = sleepers ex_failed ∖ {[200]} /\ iderw_wait 200 s' = Ok (true, s').
Proof. apply (ide_error_ignored 3 ex_failed 200 (mkbuf 0 1 3 0 (replicate 512 0))); [apply le_n|discriminate|reflexivity..]. Defined.

End IdeThm.
