(* ===== verification/Kbd.v ===== *)
(** * The keyboard (drivers/kbd/kbd.c, include/xv6/kbd.h)

    The scan codes of the keyboard become characters, which [kbdintr] hands to
    the console.  The codes that wait in the controller are an input.  The
    theorems: no scan code reaches outside the tables; and typing a text, with
    shift and control held where it takes them and whatever locks are on, gives
    the line editor of the console exactly that text. *)

From Stdlib Require Import ZArith Lia.
From stdpp Require Import base numbers strings list gmap.
From S2P Require Import Prelude Console.

Open Scope Z_scope.

Module Kbd.
Import Console ConsoleThm.

Definition SHIFT : Z := 1.
Definition CTL : Z := 2.
Definition ALT : Z := 4.
Definition CAPSLOCK : Z := 8.
Definition NUMLOCK : Z := 16.
Definition SCROLLLOCK : Z := 32.
Definition E0ESC : Z := 64.

(** An array of 256 [uchar]s with its first elements, and then designated ones. *)
Definition table (l : list Z) (des : list (Z * Z)) : list Z :=
  foldl (fun t '(i, v) => zinsert i (u8 v) t) (map u8 (l ++ replicate (256 - length l) 0)) des.

Definition shiftcode : list Z := table [] [(0x1d, CTL); (0x2a, SHIFT); (0x36, SHIFT); (0x38, ALT); (0x9d, CTL); (0xb8, ALT)].

Definition togglecode : list Z := table [] [(0x3a, CAPSLOCK); (0x45, NUMLOCK); (0x46, SCROLLLOCK)].

Definition normalmap : list Z := table
  [0; 27; 49; 50; 51; 52; 53; 54; 55; 56; 57; 48; 45; 61; 8; 9;
   113; 119; 101; 114; 116; 121; 117; 105; 111; 112; 91; 93; 10; 0; 97; 115;
   100; 102; 103; 104; 106; 107; 108; 59; 39; 96; 0; 92; 122; 120; 99; 118;
   98; 110; 109; 44; 46; 47; 0; 42; 0; 32; 0; 0; 0; 0; 0; 0;
   0; 0; 0; 0; 0; 0; 0; 55; 56; 57; 45; 52; 53; 54; 43; 49;
   50; 51; 48; 46; 0; 0; 0; 0]
  [(0x9c, 10); (0xb5, 47); (0xc8, 226); (0xd0, 227); (0xc9, 230); (0xd1, 231); (0xcb, 228); (0xcd, 229); (0x97, 224); (0xcf, 225); (0xd2, 232); (0xd3, 233)].

Definition shiftmap : list Z := table
  [0; 27; 33; 64; 35; 36; 37; 94; 38; 42; 40; 41; 95; 43; 8; 9;
   81; 87; 69; 82; 84; 89; 85; 73; 79; 80; 123; 125; 10; 0; 65; 83;
   68; 70; 71; 72; 74; 75; 76; 58; 34; 126; 0; 124; 90; 88; 67; 86;
   66; 78; 77; 60; 62; 63; 0; 42; 0; 32; 0; 0; 0; 0; 0; 0;
   0; 0; 0; 0; 0; 0; 0; 55; 56; 57; 45; 52; 53; 54; 43; 49;
   50; 51; 48; 46; 0; 0; 0; 0]
  [(0x9c, 10); (0xb5, 47); (0xc8, 226); (0xd0, 227); (0xc9, 230); (0xd1, 231); (0xcb, 228); (0xcd, 229); (0x97, 224); (0xcf, 225); (0xd2, 232); (0xd3, 233)].

Definition ctlmap : list Z := table
  [0; 0; 0; 0; 0; 0; 0; 0; 0; 0; 0; 0; 0; 0; 0; 0;
   17; 23; 5; 18; 20; 25; 21; 9; 15; 16; 0; 0; 13; 0; 1; 19;
   4; 6; 7; 8; 10; 11; 12; 0; 0; 0; 0; 28; 26; 24; 3; 22;
   2; 14; 13; 0; 0; -17; 0; 0]
  [(0x9c, 13); (0xb5, -17); (0xc8, 226); (0xd0, 227); (0xc9, 230); (0xd1, 231); (0xcb, 228); (0xcd, 229); (0x97, 224); (0xcf, 225); (0xd2, 232); (0xd3, 233)].

Definition charcode : list (list Z) := [normalmap; shiftmap; ctlmap; ctlmap].

Definition index {A} (l : list A) (i : Z) : outcome A := match zlookup l i with Some v => Ok v | None => Fault end.

Definition obind {A B} (m : outcome A) (k : A -> outcome B) : outcome B :=
  match m with Ok a => k a | Panic e => Panic e | Fault => Fault | Blocked => Blocked | Fuel => Fuel end.

(** [kbdgetc] with the scan code [data]: the character and the new [shift]. *)
Definition kbdgetc (shift data : Z) : outcome (Z * Z) :=
  if data =? 0xe0 then Ok (0, Z.lor shift E0ESC)
  else if negb (Z.land data 0x80 =? 0) then
    let data := if negb (Z.land shift E0ESC =? 0) then data else Z.land data 0x7f in
    obind (index shiftcode data) (fun sc => Ok (0, Z.land shift (not32 (Z.lor sc E0ESC))))
  else
    let '(data, shift) :=
      if negb (Z.land shift E0ESC =? 0) then (Z.lor data 0x80, Z.land shift (not32 E0ESC)) else (data, shift) in
    obind (index shiftcode data) (fun sc =>
    obind (index togglecode data) (fun tc =>
    let shift := Z.lxor (Z.lor shift sc) tc in
    obind (index charcode (Z.land shift (Z.lor CTL SHIFT))) (fun m =>
    obind (index m data) (fun c =>
    Ok (if negb (Z.land shift CAPSLOCK =? 0) then
          if (97 <=? c) && (c <=? 122) then u32 (c + (65 - 97))
          else if (65 <=? c) && (c <=? 90) then u32 (c + (97 - 65)) else c
        else c, shift))))).

(** The calls of [kbdgetc] by [consoleintr] until no code waits. *)
Fixpoint decode (shift : Z) (codes : list Z) : outcome (list Z * Z) :=
  match codes with
  | [] => Ok ([], shift)
  | d :: codes => obind (kbdgetc shift d) (fun '(c, shift) => obind (decode shift codes) (fun '(cs, shift) => Ok (c :: cs, shift)))
  end.

(** The state is [shift] and the console. *)
Definition kbdintr (codes : list Z) : ST (Z * cons) bool := fun s =>
  match decode (fst s) codes with
  | Ok (cs, shift) => zoom snd (fun c _ => (shift, c)) (consoleintr cs false) s
  | Panic e => Panic e
  | Fault => Fault
  | Blocked => Blocked
  | Fuel => Fuel
  end.

(** ** Inside the tables *)

Definition byte (v : Z) : Prop := 0 <= v < 256.
Definition shift_ok (v : Z) : Prop := 0 <= v < 128.

(** One code, for all states and codes. *)
Definition safe_code (shift data : Z) : bool :=
  match kbdgetc shift data with Ok (c, sh) => (0 <=? c) && (c <? 256) && (0 <=? sh) && (sh <? 128) | _ => false end.

Lemma safe_codes : forallb (fun sh => forallb (safe_code sh) (seqZ 0 256)) (seqZ 0 128) = true.
Proof. vm_compute. reflexivity. Qed.

Lemma kbdgetc_safe shift data :
  shift_ok shift -> byte data -> exists c sh, kbdgetc shift data = Ok (c, sh) /\ byte c /\ shift_ok sh.
Proof.
  intros Hs Hd. pose proof safe_codes as H. rewrite forallb_forall in H.
  specialize (H shift). rewrite <- list_elem_of_In, elem_of_seqZ in H. specialize (H Hs).
  rewrite forallb_forall in H. specialize (H data). rewrite <- list_elem_of_In, elem_of_seqZ in H. specialize (H Hd).
  unfold safe_code in H. destruct (kbdgetc shift data) as [[c sh]| | | |]; try done. exists c, sh. split; [done|].
  rewrite !andb_true_iff, !Z.leb_le, !Z.ltb_lt in H. unfold byte, shift_ok. lia.
Qed.

(** Whatever bytes the keyboard sends, no access is outside the tables, every
    character is a byte, and the interrupt handler returns with the console in
    the state that the line editor gives. *)
Theorem kbdintr_safe (codes : list Z) (shift : Z) (s : cons) (a : editor) :
  Forall byte codes -> shift_ok shift -> shows s a ->
  exists cs sh b s', decode shift codes = Ok (cs, sh) /\ Forall byte cs /\ length cs = length codes /\ shift_ok sh /\
    kbdintr codes (shift, s) = Ok (b, (sh, s')) /\ shows s' (fold_left (fun a c => key c a) cs a).
Proof.
  intros Hc Hs Ha.
  assert (exists cs sh, decode shift codes = Ok (cs, sh) /\ Forall byte cs /\ length cs = length codes /\ shift_ok sh)
    as (cs & sh & Hd & Hb & Hl & Hsh).
  { revert shift Hs. induction Hc as [|d codes Hd Hc IH]; intros shift Hs; cbn [decode].
    - exists [], shift. split; [done|]. split; [apply Forall_nil_2|]. by split.
    - destruct (kbdgetc_safe shift d Hs Hd) as (c & sh & -> & Hbc & Hsh). cbn [obind].
      destruct (IH sh Hsh) as (cs & sh' & -> & Hcs & Hl & Hsh'). cbn [obind].
      exists (c :: cs), sh'. split; [done|]. split; [by apply Forall_cons_2|]. split; [cbn; by rewrite Hl|done]. }
  destruct (consoleintr_run cs false s a Ha) as (b & s' & R & Hs' & _).
  exists cs, sh, b, s'. do 4 (split; [done|]). split; [|done].
  unfold kbdintr, zoom. cbn [fst snd]. by rewrite Hd, R.
Qed.

Lemma kbdintr_safe_witness :
  exists cs sh b s', decode 0 [0xe0; 0x1d; 0x16; 0x96; 0xe0; 0x9d; 0xff] = Ok (cs, sh) /\ Forall byte cs /\
    length cs = length [0xe0; 0x1d; 0x16; 0x96; 0xe0; 0x9d; 0xff] /\ shift_ok sh /\
    kbdintr [0xe0; 0x1d; 0x16; 0x96; 0xe0; 0x9d; 0xff] (0, cons0) = Ok (b, (sh, s')) /\
    shows s' (fold_left (fun a c => key c a) cs (mked [] [])).
Proof.
  apply kbdintr_safe; [|unfold shift_ok; lia|exact cons0_shows].
  repeat (apply Forall_cons_2; [unfold byte; lia|]). apply Forall_nil_2.
Defined.

(** ** Typing

    The keyboard, independently of the tables of the code: the keys of a US
    layout in the scan code set of the IBM PC, row by row from the code of the
    first key, with what is printed on them, without and with shift. *)

Fixpoint legends (s : string) : list Z :=
  match s with EmptyString => [] | String c s => Z.of_N (Ascii.N_of_ascii c) :: legends s end.

Record keycap := mkkey { code : Z; plain : Z; shifted : Z }.

#[global] Instance keycap_eq : EqDecision keycap.
Proof. solve_decision. Defined.

Definition row (first : Z) (l u : list Z) : list keycap :=
  zip_with (fun i c => mkkey (first + i) c.1 c.2) (seqZ 0 (Z.of_nat (length l))) (zip l u).

Definition DQUOTE : Z := 34.

Definition keyboard : list keycap :=
  [mkkey 0x01 27 27; mkkey 0x0e 8 8; mkkey 0x0f 9 9; mkkey 0x1c 10 10; mkkey 0x39 32 32] ++
  row 0x02 (legends "1234567890-=") (legends "!@#$%^&*()_+") ++
  row 0x10 (legends "qwertyuiop[]") (legends "QWERTYUIOP{}") ++
  row 0x1e (legends "asdfghjkl;'`") (legends "ASDFGHJKL:" ++ [DQUOTE] ++ legends "~") ++
  row 0x2b (legends "\zxcvbnm,./") (legends "|ZXCVBNM<>?").

(** What is held down with the key: nothing, or one of the two keys of a modifier. *)
Inductive held := Bare | Shift (right : bool) | Ctrl (right : bool).

(** Pressing and releasing: a key sends its code, and with bit 7 set when it is
    released; the right control key sends 0xE0 first. *)
Definition strokes (h : held) (k : keycap) : list Z :=
  match h with
  | Bare => [code k; code k + 0x80]
  | Shift r => let m := if r then 0x36 else 0x2a in [m; code k; code k + 0x80; m + 0x80]
  | Ctrl false => [0x1d; code k; code k + 0x80; 0x9d]
  | Ctrl true => [0xe0; 0x1d; code k; code k + 0x80; 0xe0; 0x9d]
  end.

Definition letter (c : Z) : bool := (97 <=? c) && (c <=? 122).

(** With control, the letters, the backslash and the return key have a character. *)
Definition has_char (h : held) (k : keycap) : bool :=
  match h with Ctrl _ => letter (plain k) || (plain k =? 92) || (plain k =? 10) | _ => true end.

(** What is typed: caps lock exchanges the two legends of a letter. *)
Definition typed (lock : Z) (h : held) (k : keycap) : Z :=
  let caps := letter (plain k) && negb (Z.land lock CAPSLOCK =? 0) in
  match h with
  | Bare => if caps then shifted k else plain k
  | Shift _ => if caps then plain k else shifted k
  | Ctrl _ => if plain k =? 10 then 13 else Z.land (plain k) 0x1f
  end.

Definition locks : list Z := [0; 8; 16; 24; 32; 40; 48; 56].
Definition helds : list held := [Bare; Shift false; Shift true; Ctrl false; Ctrl true].

Definition strokes_ok (lock : Z) (h : held) (k : keycap) : bool :=
  match decode lock (strokes h k) with
  | Ok (cs, sh) => negb (has_char h k) || bool_decide (filter (fun c => c <> 0) cs = [typed lock h k]) && (sh =? lock)
  | _ => false
  end.

Lemma strokes_all_ok : forallb (fun lock => forallb (fun h => forallb (strokes_ok lock h) keyboard) helds) locks = true.
Proof. vm_compute. reflexivity. Qed.

(** Every printable character is on a key. *)
Lemma printable_on_keyboard c : 32 <= c <= 126 -> exists k, k ∈ keyboard /\ (plain k = c \/ shifted k = c).
Proof.
  intros Hc. assert (Hin : c ∈ seqZ 32 95) by (apply elem_of_seqZ; lia). clear Hc.
  assert (H : forallb (fun c => existsb (fun k => (plain k =? c) || (shifted k =? c)) keyboard) (seqZ 32 95) = true) by (vm_compute; reflexivity).
  rewrite forallb_forall in H. apply list_elem_of_In in Hin. apply H, existsb_exists in Hin as (k & Hk & E).
  exists k. split; [by apply list_elem_of_In|]. apply orb_true_iff in E as [E|E]; apply Z.eqb_eq in E; auto.
Qed.

(** A press of a key that has a character. *)
Definition press_ok (p : held * keycap) : Prop := p.2 ∈ keyboard /\ has_char p.1 p.2 = true.

Lemma strokes_run lock h k :
  lock ∈ locks -> press_ok (h, k) ->
  exists cs, decode lock (strokes h k) = Ok (cs, lock) /\ filter (fun c => c <> 0) cs = [typed lock h k].
Proof.
  intros Hl [Hk Hh]; cbn [fst snd] in *. pose proof strokes_all_ok as H. rewrite forallb_forall in H. apply list_elem_of_In in Hl.
  specialize (H lock Hl). rewrite forallb_forall in H. specialize (H h). rewrite forallb_forall in H.
  assert (Hin : In h helds) by (destruct h as [|[]|[]]; cbn; tauto). specialize (H Hin k). apply list_elem_of_In in Hk. specialize (H Hk).
  unfold strokes_ok in H. destruct (decode lock (strokes h k)) as [[cs sh]| | | |]; try done. rewrite Hh in H. cbn [negb orb] in H.
  apply andb_true_iff in H as [H1%bool_decide_eq_true H2%Z.eqb_eq]. subst sh. by exists cs.
Qed.

Lemma decode_app shift l1 l2 cs1 sh1 cs2 sh2 :
  decode shift l1 = Ok (cs1, sh1) -> decode sh1 l2 = Ok (cs2, sh2) -> decode shift (l1 ++ l2) = Ok (cs1 ++ cs2, sh2).
Proof.
  revert shift cs1. induction l1 as [|d l1 IH]; intros shift cs1 H1 H2; cbn [decode app] in *.
  - injection H1 as <- <-. done.
  - destruct (kbdgetc shift d) as [[c sh]| | | |]; try done. cbn [obind] in *.
    destruct (decode sh l1) as [[cs sh']| | | |] eqn:E; try done. cbn [obind] in H1. injection H1 as <- <-.
    rewrite (IH sh cs E H2). done.
Qed.

(** The codes of a text, and its characters. *)
Definition text (l : list (held * keycap)) : list Z := concat (map (fun p => strokes p.1 p.2) l).
Definition text_chars (lock : Z) (l : list (held * keycap)) : list Z := map (fun p => typed lock p.1 p.2) l.

Lemma text_run lock l :
  lock ∈ locks -> Forall press_ok l ->
  exists cs, decode lock (text l) = Ok (cs, lock) /\ filter (fun c => c <> 0) cs = text_chars lock l.
Proof.
  intros Hl Hf. unfold text, text_chars. induction Hf as [|[h k] l Hc Hf IH]; cbn [map concat fst snd]; [by exists []|].
  destruct IH as (cs & Hd & Hcs). destruct (strokes_run lock h k Hl Hc) as (cs1 & Hd1 & Hcs1).
  exists (cs1 ++ cs). split; [by eapply decode_app|]. by rewrite filter_app, Hcs, Hcs1.
Qed.

(** The editor passes over the codes without a character. *)
Lemma key_zero a : key 0 a = a.
Proof. done. Qed.

Lemma keys_filter cs : forall a,
  fold_left (fun a c => key c a) cs a = fold_left (fun a c => key c a) (filter (fun c => c <> 0) cs) a.
Proof.
  induction cs as [|c cs IH]; intros a; [done|]. rewrite filter_cons. destruct (decide (c <> 0)) as [Hc|Hc]; cbn [fold_left].
  - apply IH.
  - assert (c = 0) as -> by lia. rewrite key_zero. apply IH.
Qed.

(** C28: typing on a US keyboard, each key alone or with either shift or control
    key held, gives the line editor of the console exactly the characters printed
    on the keys: with caps lock the other case of letters, with control the control
    character; the state of the locks stays, and no modifier is left behind. *)
Theorem typing_reaches_editor (lock : Z) (l : list (held * keycap)) (s : cons) (a : editor) :
  lock ∈ locks -> Forall press_ok l -> shows s a ->
  exists b s', kbdintr (text l) (lock, s) = Ok (b, (lock, s')) /\
    shows s' (fold_left (fun a c => key c a) (text_chars lock l) a).
Proof.
  intros Hl Hf Hs. destruct (text_run lock l Hl Hf) as (cs & Hd & Hcs).
  destruct (consoleintr_run cs false s a Hs) as (b & s' & R & Hs' & _).
  exists b, s'. unfold kbdintr, zoom. cbn [fst snd]. rewrite Hd, R. split; [done|].
  by rewrite keys_filter, Hcs in Hs'.
Qed.

(** With caps lock on: the keys L and s with the right shift key, control-H, and return. *)
Definition ex_presses : list (held * keycap) :=
  [(Bare, mkkey 0x26 108 76); (Shift true, mkkey 0x1f 115 83); (Ctrl true, mkkey 0x23 104 72); (Bare, mkkey 0x1c 10 10)].

Lemma typing_reaches_editor_witness :
  exists b s', kbdintr (text ex_presses) (8, cons0) = Ok (b, (8, s')) /\
    shows s' (fold_left (fun a c => key c a) (text_chars 8 ex_presses) (mked [] [])).
Proof.
  apply typing_reaches_editor; [right; left| |exact cons0_shows].
  apply Forall_forall. intros [h k] Hin. split.
  - unfold ex_presses in Hin. repeat (apply elem_of_cons in Hin as [Hin|Hin]; [injection Hin as -> ->; apply (bool_decide_unpack _); vm_compute; exact I|]).
    by apply elem_of_nil in Hin.
  - unfold ex_presses in Hin. repeat (apply elem_of_cons in Hin as [Hin|Hin]; [injection Hin as -> ->; reflexivity|]). by apply elem_of_nil in Hin.
Defined.

(** The key Home sends 0xE0 0x47, for which the maps, which have it at 0x97, give nothing. *)
Lemma home_key_lost : decode 0 [0xe0; 0x47] = Ok ([0; 0], 0).
Proof. vm_compute. reflexivity. Qed.

End Kbd.
