(* ===== verification/Wc.v ===== *)
(** * Word count (bin/wc/wc.c) and concatenation (bin/cat/cat.c)

    Both read their files in pieces of at most 512 bytes, whatever pieces the
    file, pipe or console delivers.  A file is what [read] gives, piece by piece,
    and whether it ends with an error. *)

From Stdlib Require Import ZArith Lia.
From stdpp Require Import base numbers strings list.
From S2P Require Import Prelude Grep Printf.

Open Scope Z_scope.

Module Wc.
Import Printf.

(** The bytes of an ASCII string. *)
Fixpoint chars (s : string) : list Z :=
  match s with EmptyString => [] | String a s => Z.of_N (Ascii.N_of_ascii a) :: chars s end.

(** What is to come of a file, and whether [read] then returns -1. *)
Record file := mkfile { pieces : Grep.stream; broken : bool }.

(** [sizeof(buf)] *)
Definition bufsize : nat := 512.

(** [n = read(fd, buf, sizeof(buf))]: the bytes, and [n]. *)
Definition read (f : file) : list Z * Z * file :=
  match pieces f with
  | [] => ([], if broken f then -1 else 0, f)
  | _ => let '(l, cs) := Grep.read bufsize (pieces f) in (l, Z.of_nat (length l), mkfile cs (broken f))
  end.

(** ** wc *)

(** [strchr] in " \r\t\n\v". *)
Definition space (c : Z) : bool := (c =? 32) || (c =? 13) || (c =? 9) || (c =? 10) || (c =? 11).

Record counts := mkcounts { lines : Z; words : Z; bytes : Z; inword : bool }.

Definition count_byte (k : counts) (b : Z) : counts :=
  let c := s32 (bytes k + 1) in
  let l := if b =? 10 then s32 (lines k + 1) else lines k in
  if space b then mkcounts l (words k) c false
  else if negb (inword k) then mkcounts l (s32 (words k + 1)) c true
  else mkcounts l (words k) c (inword k).

(** The loop of reads: the counts and the last [n]. *)
Fixpoint wc_loop (fuel : nat) (f : file) (k : counts) : outcome (counts * Z) :=
  let '(buf, n, f) := read f in
  if 0 <? n then match fuel with O => Fuel | S fuel => wc_loop fuel f (fold_left count_byte buf k) end
  else Ok (k, n).

Definition lift {A} (o : outcome A) : ST (list Z) A := fun s =>
  match o with Ok a => Ok (a, s) | Panic m => Panic m | Fault => Fault | Blocked => Blocked | Fuel => Fuel end.

(** The bytes still to be read bound the number of reads. *)
Definition reads (f : file) : nat := length (concat (pieces f)) + length (pieces f).

(** [false]: the program has exited.  The state is what has been written to descriptor 1. *)
Definition wc (f : file) (name : list Z) : ST (list Z) bool :=
  r ← lift (wc_loop (reads f) f (mkcounts 0 0 0 false));
  let '(k, n) := r in
  if n <? 0 then printf (chars "wc: read error" ++ [10]) [];; mret false
  else
    printf (chars "%d %d %d %s" ++ [10]) [A_word (lines k); A_word (words k); A_word (bytes k); A_str (Some name)];;
    mret true.

(** The arguments with what [open] gives for them. *)
Fixpoint wc_files (args : list (list Z * option file)) : ST (list Z) unit :=
  match args with
  | [] => mret tt
  | (name, None) :: _ => printf (chars "wc: cannot open %s" ++ [10]) [A_str (Some name)]
  | (name, Some f) :: args => go ← wc f name; if go : bool then wc_files args else mret tt
  end.

Definition wc_main (stdin : file) (args : list (list Z * option file)) : ST (list Z) unit :=
  match args with [] => wc stdin [];; mret tt | _ => wc_files args end.

(** ** cat *)

(** [write(1, buf, n)] takes as many bytes as there is room. *)
Definition write (room : nat) (l : list Z) (out : list Z) : Z * list Z :=
  let k := Nat.min (length l) (room - length out) in (Z.of_nat k, out ++ take k l).

Fixpoint cat_loop (room fuel : nat) (f : file) (out : list Z) : outcome (Z * list Z) :=
  let '(buf, n, f) := read f in
  if 0 <? n then
    let '(w, out) := write room buf out in
    if negb (w =? n) then Ok (-2, out)
    else match fuel with O => Fuel | S fuel => cat_loop room fuel f out end
  else Ok (n, out).

(** [false]: the program has exited. *)
Definition cat (room : nat) (f : file) : ST (list Z) bool := fun out =>
  match cat_loop room (reads f) f out with
  | Ok (n, out) =>
      if n =? -2 then (printf (chars "cat: write error" ++ [10]) [];; mret false) out
      else if n <? 0 then (printf (chars "cat: read error" ++ [10]) [];; mret false) out
      else Ok (true, out)
  | Panic m => Panic m
  | Fault => Fault
  | Blocked => Blocked
  | Fuel => Fuel
  end.

Fixpoint cat_files (room : nat) (args : list (list Z * option file)) : ST (list Z) unit :=
  match args with
  | [] => mret tt
  | (name, None) :: _ => printf (chars "cat: cannot open %s" ++ [10]) [A_str (Some name)]
  | (name, Some f) :: args => go ← cat room f; if go : bool then cat_files room args else mret tt
  end.

Definition cat_main (room : nat) (stdin : file) (args : list (list Z * option file)) : ST (list Z) unit :=
  match args with [] => cat room stdin;; mret tt | _ => cat_files room args end.

(** ** Lines and words of a text *)

(** The maximal runs of characters that are not spaces; [cur] is the word in progress. *)
Fixpoint split_words (cur text : list Z) : list (list Z) :=
  match text with
  | [] => if decide (cur = []) then [] else [cur]
  | b :: text =>
      if space b then if decide (cur = []) then split_words [] text else cur :: split_words [] text
      else split_words (cur ++ [b]) text
  end.

Fixpoint newlines (text : list Z) : Z :=
  match text with [] => 0 | b :: text => (if b =? 10 then 1 else 0) + newlines text end.

Lemma newlines_range text : 0 <= newlines text <= Z.of_nat (length text).
Proof. induction text as [|b text IH]; cbn [newlines length]; [lia|]. destruct (b =? 10); lia. Qed.

Lemma split_words_length text : forall cur,
  (length (split_words cur text) <= length text + (if decide (cur = []) then 0 else 1))%nat.
Proof.
  induction text as [|b text IH]; intros cur; cbn [split_words length]; [destruct (decide (cur = [])); cbn; lia|].
  destruct (space b).
  - specialize (IH []). rewrite decide_True in IH by done. destruct (decide (cur = [])); cbn [length]; lia.
  - specialize (IH (cur ++ [b])). destruct (decide (cur ++ [b] = [])) as [E|_]; [by destruct cur|]. destruct (decide (cur = [])); lia.
Qed.

(** The counts after one byte. *)
Lemma count_step k b :
  0 <= lines k < 2 ^ 31 - 1 -> 0 <= words k < 2 ^ 31 - 1 -> 0 <= bytes k < 2 ^ 31 - 1 ->
  count_byte k b = mkcounts (lines k + (if b =? 10 then 1 else 0))
    (words k + (if negb (space b) && negb (inword k) then 1 else 0)) (bytes k + 1) (negb (space b)).
Proof.
  intros H1 H2 H3. unfold count_byte. rewrite !s32_small by lia.
  destruct (b =? 10), (space b), (inword k) eqn:E; cbn [negb andb]; rewrite ?Z.add_0_r, ?E; done.
Qed.

(** Counting adds what the rest of the text has; the word in progress has been counted. *)
Lemma count_text text : forall cur k,
  inword k = negb (bool_decide (cur = [])) -> 0 <= lines k -> 0 <= words k -> 0 <= bytes k ->
  lines k + Z.of_nat (length text) < 2 ^ 31 -> words k + Z.of_nat (length text) < 2 ^ 31 -> bytes k + Z.of_nat (length text) < 2 ^ 31 ->
  let k' := fold_left count_byte text k in
  lines k' = lines k + newlines text /\ bytes k' = bytes k + Z.of_nat (length text) /\
  words k' + (if inword k then 1 else 0) = words k + Z.of_nat (length (split_words cur text)).
Proof.
  induction text as [|b text IH]; intros cur k Hin H1 H2 H3 H4 H5 H6; cbn [fold_left split_words length newlines] in *.
  - split_and!; [lia|lia|]. rewrite Hin. destruct (decide (cur = [])) as [->|Hc]; [done|]. by rewrite bool_decide_false.
  - rewrite count_step by lia. set (k1 := mkcounts _ _ _ _).
    assert (inword k1 = negb (bool_decide ((if space b then [] else cur ++ [b]) = []))) as Hin1.
    { unfold k1. cbn [inword]. destruct (space b); [done|]. rewrite bool_decide_false; [done|]. by destruct cur. }
    destruct (IH _ k1 Hin1) as (G1 & G2 & G3); unfold k1 in *; cbn [lines words bytes inword] in *;
      try (destruct (b =? 10); lia); try (destruct (negb (space b) && negb (inword k)); lia); try lia.
    rewrite G1, G2. split_and!; [lia|lia|]. revert G3. rewrite Hin. destruct (space b); cbn [negb andb].
    + destruct (decide (cur = [])) as [->|Hc]; [cbn; lia|]. rewrite bool_decide_false by done. cbn [negb length]. lia.
    + destruct (bool_decide (cur = [])); cbn [negb]; lia.
Qed.

Lemma read_piece f :
  Forall (fun c => c <> []) (pieces f) -> pieces f <> [] ->
  exists l f', read f = (l, Z.of_nat (length l), f') /\ l <> [] /\ broken f' = broken f /\
    Forall (fun c => c <> []) (pieces f') /\ concat (pieces f) = l ++ concat (pieces f').
Proof.
  intros Hf Hne. unfold read. destruct (pieces f) as [|c cs]; [done|]. apply Forall_cons in Hf as [Hc Hcs].
  cbn [Grep.read]. eexists _, _. split; [reflexivity|]. split; [by destruct c|]. cbn [broken pieces]. split; [done|].
  split; [destruct (drop bufsize c) eqn:E; [done|by apply Forall_cons_2]|]. cbn [concat].
  rewrite <- (take_drop bufsize c) at 1. rewrite <- app_assoc. f_equal. by destruct (drop bufsize c).
Qed.

Lemma wc_loop_run fuel : forall f k,
  Forall (fun c => c <> []) (pieces f) -> (length (concat (pieces f)) <= fuel)%nat ->
  wc_loop fuel f k = Ok (fold_left count_byte (concat (pieces f)) k, if broken f then -1 else 0).
Proof.
  induction fuel as [|fuel IH]; intros f k Hf Hl; cbn [wc_loop].
  all: destruct (decide (pieces f = [])) as [E|E]; [unfold read; rewrite E; by destruct (broken f)|].
  all: destruct (read_piece f Hf E) as (l & f' & -> & Hne & Hb & Hf' & Hcat); rewrite Hcat in *; rewrite length_app in Hl.
  all: assert (0 < length l)%nat by (destruct l; [done|cbn; lia]).
  - lia.
  - rewrite (proj2 (Z.ltb_lt 0 _)) by lia. rewrite IH by (done || lia). by rewrite fold_left_app, Hb.
Qed.

Lemma put_decimal v o : 0 <= v < 2 ^ 31 ->
  exists l, put_int digits_upper (s32 v) 10 true o = Ok (tt, o ++ l) /\ forall rest, no_digit rest -> atoi (l ++ rest) = v.
Proof.
  intros Hv. destruct (printint_atoi digits_upper v ltac:(by left) Hv) as (l & R & Ha). exists l. split; [|done].
  unfold put_int. by rewrite s32_small, R.
Qed.

Definition wc_fmt : list Z := chars "%d %d %d %s" ++ [10].

Lemma print_counts a b c name out :
  0 <= a < 2 ^ 31 -> 0 <= b < 2 ^ 31 -> 0 <= c < 2 ^ 31 ->
  exists la lb lc, printf wc_fmt [A_word a; A_word b; A_word c; A_str (Some name)] out =
    Ok (tt, out ++ la ++ [32] ++ lb ++ [32] ++ lc ++ [32] ++ name ++ [10]) /\
    (forall rest, no_digit rest -> atoi (la ++ rest) = a) /\ (forall rest, no_digit rest -> atoi (lb ++ rest) = b) /\
    (forall rest, no_digit rest -> atoi (lc ++ rest) = c).
Proof.
  intros Ha Hb Hc. change wc_fmt with [37; 100; 32; 37; 100; 32; 37; 100; 32; 37; 115; 10]. unfold printf.
  cbn [printf_loop negb Z.eqb Pos.eqb word_arg str_arg orb default].
  destruct (put_decimal a out Ha) as (la & R1 & A1). step R1. erewrite run_bind; [|reflexivity].
  destruct (put_decimal b ((out ++ la) ++ [32]) Hb) as (lb & R2 & A2). step R2. erewrite run_bind; [|reflexivity].
  destruct (put_decimal c ((((out ++ la) ++ [32]) ++ lb) ++ [32]) Hc) as (lc & R3 & A3). step R3. erewrite run_bind; [|reflexivity].
  exists la, lb, lc. split; [|auto]. erewrite run_bind; [|reflexivity]. erewrite run_bind; [|reflexivity].
  unfold mret, ST_ret. by rewrite <- !app_assoc.
Qed.

(** [wc] prints the number of newlines, of words and of bytes of its file,
    in numerals that [atoi] reads back, and its name.  A word is a maximal run of
    characters other than spaces; it does not matter in which pieces the bytes
    arrive, nor where the reads of 512 bytes cut a word. *)
Theorem wc_correct (f : file) (name out : list Z) :
  Forall (fun c => c <> []) (pieces f) -> broken f = false ->
  let text := concat (pieces f) in
  Z.of_nat (length text) < 2 ^ 31 ->
  exists l w c, wc f name out = Ok (true, out ++ l ++ [32] ++ w ++ [32] ++ c ++ [32] ++ name ++ [10]) /\
    (forall rest, no_digit rest -> atoi (l ++ rest) = newlines text) /\
    (forall rest, no_digit rest -> atoi (w ++ rest) = Z.of_nat (length (split_words [] text))) /\
    (forall rest, no_digit rest -> atoi (c ++ rest) = Z.of_nat (length text)).
Proof.
  intros Hf Hb text Ht. unfold wc, reads. set (k0 := mkcounts 0 0 0 false).
  destruct (count_text text [] k0) as (H1 & H2 & H3); [reflexivity|cbn; lia..|].
  cbn [k0 lines words bytes inword] in H1, H2, H3. set (k := fold_left count_byte text k0) in *.
  pose proof (newlines_range text). pose proof (split_words_length text []) as Hw. rewrite decide_True in Hw by reflexivity.
  assert (wc_loop (length (concat (pieces f)) + length (pieces f)) f k0 = Ok (k, 0)) as R.
  { rewrite wc_loop_run; [by rewrite Hb|exact Hf|apply Nat.le_add_r]. }
  erewrite run_bind; [|unfold lift; rewrite R; reflexivity]. cbn [Z.ltb Z.compare]. fold wc_fmt.
  rewrite Z.add_0_r, Z.add_0_l in H3. rewrite Z.add_0_l in H1, H2. rewrite H1, H2, H3.
  destruct (print_counts (newlines text) (Z.of_nat (length (split_words [] text))) (Z.of_nat (length text)) name out)
    as (l & w & c & Rp & Ha); [lia|lia|lia|].
  step Rp. exists l, w, c. split; [reflexivity|exact Ha].
Qed.

(** A word cut by the end of a piece. *)
Lemma wc_correct_witness :
  exists l w c, wc (mkfile [[104; 105; 32; 120]; [121; 10]; [9; 122]] false) [97] [] =
      Ok (true, [] ++ l ++ [32] ++ w ++ [32] ++ c ++ [32] ++ [97] ++ [10]) /\
    (forall rest, no_digit rest -> atoi (l ++ rest) = newlines (concat [[104; 105; 32; 120]; [121; 10]; [9; 122]])) /\
    (forall rest, no_digit rest -> atoi (w ++ rest) = Z.of_nat (length (split_words [] (concat [[104; 105; 32; 120]; [121; 10]; [9; 122]])))) /\
    (forall rest, no_digit rest -> atoi (c ++ rest) = Z.of_nat (length (concat [[104; 105; 32; 120]; [121; 10]; [9; 122]]))).
Proof.
  apply (wc_correct (mkfile [[104; 105; 32; 120]; [121; 10]; [9; 122]] false) [97] []);
    [repeat (apply Forall_cons_2; [discriminate|]); apply Forall_nil_2|reflexivity|vm_compute; reflexivity].
Defined.

(** ** cat copies *)

Lemma cat_loop_run room fuel : forall f out,
  Forall (fun c => c <> []) (pieces f) -> (length (concat (pieces f)) <= fuel)%nat ->
  (length out + length (concat (pieces f)) <= room)%nat ->
  cat_loop room fuel f out = Ok (if broken f then -1 else 0, out ++ concat (pieces f)).
Proof.
  induction fuel as [|fuel IH]; intros f out Hf Hl Hr; cbn [cat_loop].
  all: destruct (decide (pieces f = [])) as [E|E]; [unfold read; rewrite E; cbn [concat]; rewrite app_nil_r; by destruct (broken f)|].
  all: destruct (read_piece f Hf E) as (l & f' & -> & Hne & Hb & Hf' & Hcat); rewrite Hcat in *; rewrite length_app in *.
  all: assert (0 < length l)%nat by (destruct l; [done|cbn; lia]).
  - lia.
  - rewrite (proj2 (Z.ltb_lt 0 _)) by lia. unfold write. rewrite Nat.min_l by lia. rewrite Z.eqb_refl. cbn [negb].
    rewrite take_ge by lia. rewrite IH by (rewrite ?length_app; done || lia). by rewrite Hb, <- app_assoc.
Qed.

(** [cat] writes the bytes of its files, one after the other, when there is room for them. *)
Theorem cat_copies (room : nat) (args : list (list Z * file)) : forall out,
  Forall (fun a => Forall (fun c => c <> []) (pieces a.2) /\ broken a.2 = false) args ->
  (length out + length (concat (map (fun a => concat (pieces a.2)) args)) <= room)%nat ->
  cat_files room (map (fun a => (a.1, Some a.2)) args) out = Ok (tt, out ++ concat (map (fun a => concat (pieces a.2)) args)).
Proof.
  induction args as [|[name f] args IH]; intros out Hf Hr; cbn [map concat cat_files fst snd] in *; [by rewrite app_nil_r|].
  apply Forall_cons in Hf as [[Hp Hb] Hf]. cbn [snd] in *. rewrite length_app in Hr.
  assert (cat room f out = Ok (true, out ++ concat (pieces f))) as R.
  { unfold cat, reads. rewrite cat_loop_run by (done || lia). by rewrite Hb. }
  step R. rewrite IH by (rewrite ?length_app; done || lia). by rewrite <- app_assoc.
Qed.

End Wc.
