(* ===== verification/Guard.v ===== *)
(** * Guards of local static objects (lib/libkcxxrt/cxxabi.cc)

    The compiler brackets the construction of a local static object with
    [__cxa_guard_acquire] and [__cxa_guard_release], or [__cxa_guard_abort] when
    it fails.  The guard is a byte that says that the object exists, and a lock
    word.  Each thread is at one of the points between the accesses to the guard,
    and the accesses of the threads interleave; the calls of [pushcli] and
    [popcli] are left out.  The theorem: the object is constructed once, by one
    thread at a time, and before any thread uses it. *)

From Stdlib Require Import ZArith Lia.
From stdpp Require Import base numbers strings list gmap.
From S2P Require Import Prelude.

Open Scope Z_scope.

Module Guard.

(** Where a thread is. *)
Inductive point :=
| Start                    (* before the guard *)
| Spin                     (* in [while (xchg(l, 1) != 0)] *)
| Test                     (* at the test of [x] *)
| Leave                    (* at [xchg(l, 0)], to return 0 *)
| Construct                (* acquire has returned 1: the constructor runs *)
| Release                  (* at the store to [x] of release *)
| Unlock                   (* at [xchg(l, 0)] of release *)
| Abort                    (* at [xchg(l, 0)] of abort *)
| Use.                     (* behind the guard *)

(** [built] counts the constructions that have finished. *)
Record state := mkstate { x : Z; lck : Z; built : Z; threads : list point }.

Definition at_point (i : nat) (p : point) (s : state) : Prop := threads s !! i = Some p.
Definition go (i : nat) (p : point) (s : state) : state := mkstate (x s) (lck s) (built s) (<[i := p]> (threads s)).
Definition set_x (v : Z) (s : state) : state := mkstate v (lck s) (built s) (threads s).
Definition set_lck (v : Z) (s : state) : state := mkstate (x s) v (built s) (threads s).

(** One access of thread [i]. *)
Inductive step : state -> state -> Prop :=
| enter i s : at_point i Start s -> step s (go i Spin s)
| spin_taken i s : at_point i Spin s -> lck s <> 0 -> step s (set_lck 1 s)
| spin_free i s : at_point i Spin s -> lck s = 0 -> step s (go i Test (set_lck 1 s))
| test_done i s : at_point i Test s -> x s <> 0 -> step s (go i Leave s)
| test_new i s : at_point i Test s -> x s = 0 -> step s (go i Construct s)
| leave i s : at_point i Leave s -> step s (go i Use (set_lck 0 s))
| constructed i s : at_point i Construct s -> step s (go i Release (mkstate (x s) (lck s) (built s + 1) (threads s)))
| construct_fails i s : at_point i Construct s -> step s (go i Abort s)
| guard_release i s : at_point i Release s -> step s (go i Unlock (set_x 1 s))
| guard_unlock i s : at_point i Unlock s -> step s (go i Use (set_lck 0 s))
| guard_abort i s : at_point i Abort s -> step s (go i Start (set_lck 0 s)).

(** A zero guard and [n] threads. *)
Definition init (n : nat) : state := mkstate 0 0 0 (replicate n Start).

Definition reachable (n : nat) (s : state) : Prop := rtc step (init n) s.

(** ** The invariant *)

(** The points at which a thread has the lock. *)
Definition inside (p : point) : bool :=
  match p with Test | Leave | Construct | Release | Unlock | Abort => true | _ => false end.

Record inv (s : state) : Prop := mkinv {
  inv_lock : lck s = 0 \/ lck s = 1;
  inv_owner : lck s = 0 -> forall i p, threads s !! i = Some p -> inside p = false;
  inv_one : forall i j p q, threads s !! i = Some p -> threads s !! j = Some q -> inside p = true -> inside q = true -> i = j;
  inv_built : (x s = 0 /\ built s = 0) \/ (x s = 1 /\ built s = 1) \/
              (x s = 0 /\ built s = 1 /\ exists i, threads s !! i = Some Release);
  inv_point : forall i p, threads s !! i = Some p ->
    match p with
    | Leave | Unlock | Use => x s = 1
    | Construct | Abort => x s = 0 /\ built s = 0
    | Release => x s = 0 /\ built s = 1
    | _ => True
    end }.

Lemma inv_init n : inv (init n).
Proof.
  constructor; cbn.
  - by left.
  - intros _ i p [-> _]%lookup_replicate. done.
  - intros i j p q [-> _]%lookup_replicate. done.
  - by left.
  - intros i p [-> _]%lookup_replicate. done.
Qed.

(** What a thread finds in a list in which one thread has moved. *)
Lemma lookup_moved {A} (l : list A) i j (p q : A) :
  <[i := p]> l !! j = Some q -> (j = i /\ q = p) \/ (j <> i /\ l !! j = Some q).
Proof.
  intros H. destruct (decide (j = i)) as [->|Hne].
  - left. pose proof (lookup_lt_Some _ _ _ H) as Hl. rewrite length_insert in Hl.
    rewrite list_lookup_insert_eq in H by done. by simplify_eq.
  - right. rewrite list_lookup_insert_ne in H by done. done.
Qed.

(** A thread inside moves while the lock stays taken. *)
Lemma inside_locked s i p : inv s -> threads s !! i = Some p -> inside p = true -> lck s = 1.
Proof. intros Hi Hp Hin. destruct (inv_lock s Hi) as [H0|]; [|done]. by rewrite (inv_owner s Hi H0 i p Hp) in Hin. Qed.

(** The others are outside while one thread is inside. *)
Lemma others_outside s i p j q :
  inv s -> threads s !! i = Some p -> inside p = true -> threads s !! j = Some q -> j <> i -> inside q = false.
Proof.
  intros Hi Hp Hin Hq Hne. destruct (inside q) eqn:E; [|done]. destruct Hne. by eapply (inv_one s Hi).
Qed.

(** The condition on a thread at a point. *)
Definition point_ok (xv bv : Z) (p : point) : Prop :=
  match p with
  | Leave | Unlock | Use => xv = 1
  | Construct | Abort => xv = 0 /\ bv = 0
  | Release => xv = 0 /\ bv = 1
  | _ => True
  end.

(** A step of the one thread that is inside before or after it. *)
Lemma inv_alone s i p p' xv lv bv :
  inv s -> threads s !! i = Some p -> (forall j q, j <> i -> threads s !! j = Some q -> inside q = false) ->
  lv = (if inside p' then 1 else 0) -> (x s = 1 -> xv = 1) -> point_ok xv bv p' ->
  (xv = 0 /\ bv = 0) \/ (xv = 1 /\ bv = 1) \/ (xv = 0 /\ bv = 1 /\ p' = Release) ->
  inv (mkstate xv lv bv (<[i := p']> (threads s))).
Proof.
  intros Hi Hp Hout -> Hx Hok Hb. pose proof (lookup_lt_Some _ _ _ Hp) as Hlt. constructor; cbn.
  - destruct (inside p'); auto.
  - intros Hl j q [[-> ->]|[Hne Hq]]%lookup_moved; [revert Hl; by destruct (inside p')|by eapply Hout].
  - intros j k q r [[-> ->]|[Hj Hq]]%lookup_moved [[-> ->]|[Hk Hr]]%lookup_moved H1 H2; [done| | |].
    + by rewrite (Hout k r Hk Hr) in H2.
    + by rewrite (Hout j q Hj Hq) in H1.
    + by rewrite (Hout j q Hj Hq) in H1.
  - destruct Hb as [?|[?|(? & ? & ->)]]; [by left|by right; left|]. right. right. split_and!; [done|done|].
    exists i. by apply list_lookup_insert_eq.
  - intros j q [[-> ->]|[Hne Hq]]%lookup_moved; [exact Hok|]. pose proof (Hout j q Hne Hq) as Hq'.
    pose proof (inv_point s Hi j q Hq) as Hj. destruct q; try done. by apply Hx.
Qed.

Lemma inv_step s s' : inv s -> step s s' -> inv s'.
Proof.
  intros Hi Hs.
  assert (forall i p, threads s !! i = Some p -> inside p = true -> forall j q, j <> i -> threads s !! j = Some q -> inside q = false) as Hout
    by (intros i p Hp Hin j q Hne Hq; exact (others_outside s i p j q Hi Hp Hin Hq Hne)).
  assert (forall i p, threads s !! i = Some p -> inside p = true -> lck s = 1) as Hlock by exact (fun i p => inside_locked s i p Hi).
  pose proof (fun i p => inv_point s Hi i p) as Hpt. pose proof (inv_built s Hi) as Hb.
  assert (forall i p, threads s !! i = Some p -> inside p = true -> p <> Release ->
    (x s = 0 /\ built s = 0) \/ (x s = 1 /\ built s = 1)) as Hb'.
  { intros i p Hp Hin Hne. destruct Hb as [?|[?|(_ & _ & k & Hk)]]; [by left|by right|].
    rewrite (inv_one s Hi i k p Release Hp Hk Hin eq_refl) in Hp. congruence. }
  destruct Hs as [i s Ha|i s Ha Hl|i s Ha Hl|i s Ha Hx|i s Ha Hx|i s Ha|i s Ha|i s Ha|i s Ha|i s Ha|i s Ha]; unfold at_point in Ha;
    try (specialize (Hout i _ Ha eq_refl)); try (specialize (Hlock i _ Ha eq_refl));
    try (specialize (Hb' i _ Ha eq_refl ltac:(discriminate))); pose proof (Hpt i _ Ha) as Hp; cbn in Hp.
  - destruct Hi as [H1 H2 H3 H4 H5]. constructor; cbn; [done| | | |].
    + intros Hl j q [[-> ->]|[Hne Hq]]%lookup_moved; [done|by eapply H2].
    + intros j k q r [[-> ->]|[Hj Hq]]%lookup_moved [[-> ->]|[Hk Hr]]%lookup_moved; [done|done|done|by apply H3].
    + destruct H4 as [?|[?|(? & ? & k & Hk)]]; [by left|by right; left|]. right. right. split_and!; [done|done|].
      exists k. rewrite list_lookup_insert_ne; [done|]. intros ->. congruence.
    + intros j q [[-> ->]|[Hne Hq]]%lookup_moved; [done|by apply (H5 j)].
  - replace (set_lck 1 s) with s; [done|]. destruct (inv_lock s Hi) as [?|E]; [done|]. destruct s. cbn in *. by rewrite E.
  - apply (inv_alone s i Spin Test (x s) 1 (built s)); [done|done|intros j q _ Hq; exact (inv_owner s Hi Hl j q Hq)|done|done|done|].
    destruct Hb as [?|[?|(_ & _ & k & Hk)]]; [by left|by right; left|]. by pose proof (inv_owner s Hi Hl k Release Hk).
  - apply (inv_alone s i Test Leave (x s) (lck s) (built s)); [done|done|done|done|done| |destruct Hb'; auto]. cbn. lia.
  - apply (inv_alone s i Test Construct (x s) (lck s) (built s)); [done|done|done|done|done| |destruct Hb'; auto]. cbn. lia.
  - apply (inv_alone s i Leave Use (x s) 0 (built s)); [done|done|done|done|done|exact Hp|destruct Hb'; auto].
  - apply (inv_alone s i Construct Release (x s) (lck s) (built s + 1)); [done|done|done|done|done|cbn; lia|].
    right. right. split_and!; [lia|lia|done].
  - apply (inv_alone s i Construct Abort (x s) (lck s) (built s)); [done|done|done|done|done|exact Hp|auto].
  - apply (inv_alone s i Release Unlock 1 (lck s) (built s)); [done|done|done|exact Hlock|done|done|]. right. left. lia.
  - apply (inv_alone s i Unlock Use (x s) 0 (built s)); [done|done|done|done|done|exact Hp|destruct Hb'; auto].
  - apply (inv_alone s i Abort Start (x s) 0 (built s)); [done|done|done|done|done|done|auto].
Qed.

Lemma reachable_inv n s : reachable n s -> inv s.
Proof.
  intros H. assert (forall a b, rtc step a b -> inv a -> inv b) as Hgo.
  { induction 1 as [|a b c Hab _ IH]; [done|]. intros Ha. apply IH. by eapply inv_step. }
  eapply Hgo; [exact H|apply inv_init].
Qed.

(** C32: however the threads interleave, and whether or not constructions fail,
    the constructor is finished at most once, at most one thread is between
    acquire and release, the constructor runs only while the object does not
    exist, and every thread behind the guard finds it constructed. *)
Theorem guard_constructs_once (n : nat) (s : state) :
  reachable n s ->
  0 <= built s <= 1 /\
  (forall i j p q, threads s !! i = Some p -> threads s !! j = Some q -> inside p = true -> inside q = true -> i = j) /\
  (forall i, threads s !! i = Some Construct -> built s = 0) /\
  (forall i, threads s !! i = Some Use -> built s = 1).
Proof.
  intros Hi%reachable_inv. pose proof (inv_built s Hi) as Hb. split_and!; [lia|lia|exact (inv_one s Hi)| |].
  - intros i Hc. apply (inv_point s Hi i _ Hc).
  - intros i Hu. pose proof (inv_point s Hi i _ Hu) as Hx. cbn in Hx. lia.
Qed.

(** Two threads: the first fails, the second constructs while the first spins. *)
Definition ex_end : state := mkstate 1 0 1 [Use; Use].

Lemma ex_reachable : reachable 2 ex_end.
Proof.
  unfold reachable, init. cbn [replicate].
  eapply rtc_l; [by apply (enter 0)|]. eapply rtc_l; [by apply (spin_free 0)|]. eapply rtc_l; [by apply (test_new 0)|].
  eapply rtc_l; [by apply (enter 1)|]. eapply rtc_l; [by apply (construct_fails 0)|]. eapply rtc_l; [by apply (guard_abort 0)|].
  eapply rtc_l; [by apply (spin_free 1)|]. eapply rtc_l; [by apply (enter 0)|]. eapply rtc_l; [by apply (spin_taken 0)|].
  eapply rtc_l; [by apply (test_new 1)|]. eapply rtc_l; [by apply (constructed 1)|]. eapply rtc_l; [by apply (guard_release 1)|].
  eapply rtc_l; [by apply (guard_unlock 1)|]. eapply rtc_l; [by apply (spin_free 0)|]. eapply rtc_l; [by apply (test_done 0)|].
  eapply rtc_l; [by apply (leave 0)|]. apply rtc_refl.
Qed.

Lemma guard_constructs_once_witness :
  0 <= built ex_end <= 1 /\
  (forall i j p q, threads ex_end !! i = Some p -> threads ex_end !! j = Some q -> inside p = true -> inside q = true -> i = j) /\
  (forall i, threads ex_end !! i = Some Construct -> built ex_end = 0) /\
  (forall i, threads ex_end !! i = Some Use -> built ex_end = 1).
Proof. apply (guard_constructs_once 2). exact ex_reachable. Defined.

End Guard.
