(* ===== verification/Gate.v ===== *)
(** * Descriptor tables (include/xv6/mmu.h, tvinit in kern/trap/trap.c, seginit and
      switchuvm in kern/mm/vm.c)

    The descriptors of segments and gates, as the kernel writes them and as the
    processor reads them.  The theorem is about what user code can do on a
    processor with these tables, by interrupts, exceptions, and every kind of
    instruction that can transfer control to another segment, change a segment
    register, use a port, or needs a privilege.  The processor is modelled after
    its manual: the checks it makes for such an instruction, and which exception
    it raises. *)

From Stdlib Require Import ZArith Lia.
From stdpp Require Import base numbers list.
From S2P Require Import Prelude Trap.

Open Scope Z_scope.

Import Trap.

Module Gate.

(** ** The tables of the kernel *)

Definition SEG_KCODE : Z := 1.
Definition SEG_KDATA : Z := 2.
Definition SEG_UCODE : Z := 3.
Definition SEG_UDATA : Z := 4.
Definition SEG_TSS : Z := 5.
Definition NSEGS : Z := 6.

Definition DPL_USER : Z := 3.
Definition STA_X : Z := 8.
Definition STA_W : Z := 2.
Definition STA_R : Z := 2.
Definition STS_T32A : Z := 9.
Definition STS_IG32 : Z := 14.
Definition STS_TG32 : Z := 15.

Definition KSTACKSIZE : Z := 4096.

(** A bit field of [n] bits takes the low bits of what is assigned to it. *)
Definition field (n x : Z) : Z := x mod 2 ^ n.

Record segdesc := mkseg {
  lim_15_0 : Z; base_15_0 : Z; base_23_16 : Z; type : Z; s : Z; dpl : Z; p : Z;
  lim_19_16 : Z; avl : Z; rsv1 : Z; db : Z; g : Z; base_31_24 : Z }.

Definition SEG (ty base lim d : Z) : segdesc :=
  mkseg (field 16 (Z.land (Z.shiftr lim 12) 0xffff)) (field 16 (Z.land (u32 base) 0xffff))
    (field 8 (Z.land (Z.shiftr (u32 base) 16) 0xff)) (field 4 ty) 1 (field 2 d) 1
    (field 4 (Z.shiftr (u32 lim) 28)) 0 0 1 1 (field 8 (Z.shiftr (u32 base) 24)).

Definition SEG16 (ty base lim d : Z) : segdesc :=
  mkseg (field 16 (Z.land lim 0xffff)) (field 16 (Z.land (u32 base) 0xffff))
    (field 8 (Z.land (Z.shiftr (u32 base) 16) 0xff)) (field 4 ty) 1 (field 2 d) 1
    (field 4 (Z.shiftr (u32 lim) 16)) 0 0 1 0 (field 8 (Z.shiftr (u32 base) 24)).

Definition set_s (v : Z) (d : segdesc) : segdesc :=
  mkseg (lim_15_0 d) (base_15_0 d) (base_23_16 d) (type d) v (dpl d) (p d)
    (lim_19_16 d) (avl d) (rsv1 d) (db d) (g d) (base_31_24 d).

Record gatedesc := mkgate {
  off_15_0 : Z; cs : Z; args : Z; grsv1 : Z; gtype : Z; gs : Z; gdpl : Z; gp : Z; off_31_16 : Z }.

Definition SETGATE (istrap : bool) (sel off d : Z) : gatedesc :=
  mkgate (field 16 (Z.land (u32 off) 0xffff)) (field 16 sel) 0 0
    (if istrap then STS_TG32 else STS_IG32) 0 (field 2 d) 1 (field 16 (Z.shiftr (u32 off) 16)).

(** The fields of the task state that the kernel sets, the link to another task, and its size. *)
Record taskstate := mktss { link : Z; esp0 : Z; ss0 : Z; iomb : Z }.
Definition TSS_SIZE : Z := 104.

(** A processor: [gdtr] is the limit and the base of its table of segments, [tr] the selector of its task state. *)
Record cpu := mkcpu { gdt : list segdesc; ts : taskstate; gdtr : Z * Z; tr : Z }.

(** The operand of the instructions [lgdt] and [lidt], three 16-bit words. *)
Definition pd (base size : Z) : list Z := [u16 (size - 1); u16 base; u16 (Z.shiftr base 16)].

(** The limit and the base that the processor takes from it. *)
Definition load_pd (l : list Z) : Z * Z :=
  match l with [a; b; c] => (a, b + 65536 * c) | _ => (0, 0) end.

Definition seginit (gdt_addr : Z) (c : cpu) : cpu :=
  let t := zinsert SEG_KCODE (SEG (Z.lor STA_X STA_R) 0 0xffffffff 0) (gdt c) in
  let t := zinsert SEG_KDATA (SEG STA_W 0 0xffffffff 0) t in
  let t := zinsert SEG_UCODE (SEG (Z.lor STA_X STA_R) 0 0xffffffff DPL_USER) t in
  let t := zinsert SEG_UDATA (SEG STA_W 0 0xffffffff DPL_USER) t in
  mkcpu t (ts c) (load_pd (pd gdt_addr (8 * NSEGS))) (tr c).

(** The part of [switchuvm] that sets the task state; its checks and the switch
    to the page table are in [Proc.switchuvm]. *)
Definition switchuvm_tss (ts_addr kstack : Z) (c : cpu) : cpu :=
  let t := zinsert SEG_TSS (SEG16 STS_T32A ts_addr (TSS_SIZE - 1) 0) (gdt c) in
  let t := match zlookup t SEG_TSS with Some d => zinsert SEG_TSS (set_s 0 d) t | None => t end in
  mkcpu t (mktss (link (ts c)) (u32 (kstack + KSTACKSIZE)) (Z.shiftl SEG_KDATA 3) (u16 0xffff)) (gdtr c) (Z.shiftl SEG_TSS 3).

Section Table.
(** The entry points, from the generated vectors.S. *)
Context (vectors : Z -> Z).

Fixpoint tvinit_loop (n : nat) (i : Z) (idt : list gatedesc) : list gatedesc :=
  match n with
  | O => idt
  | S n => tvinit_loop n (i + 1) (zinsert i (SETGATE false (Z.shiftl SEG_KCODE 3) (vectors i) 0) idt)
  end.

Definition tvinit (idt : list gatedesc) : list gatedesc :=
  zinsert T_SYSCALL (SETGATE true (Z.shiftl SEG_KCODE 3) (vectors T_SYSCALL) DPL_USER) (tvinit_loop 256 0 idt).
End Table.

(** ** What the processor does with them

    A descriptor is eight bytes, in which the compiler puts the fields from the
    lowest bit on. *)

Definition seg_word (d : segdesc) : Z :=
  lim_15_0 d + 2 ^ 16 * base_15_0 d + 2 ^ 32 * base_23_16 d + 2 ^ 40 * type d + 2 ^ 44 * s d + 2 ^ 45 * dpl d + 2 ^ 47 * p d
  + 2 ^ 48 * lim_19_16 d + 2 ^ 52 * avl d + 2 ^ 53 * rsv1 d + 2 ^ 54 * db d + 2 ^ 55 * g d + 2 ^ 56 * base_31_24 d.

Definition gate_word (d : gatedesc) : Z :=
  off_15_0 d + 2 ^ 16 * cs d + 2 ^ 32 * args d + 2 ^ 37 * grsv1 d + 2 ^ 40 * gtype d + 2 ^ 44 * gs d + 2 ^ 45 * gdpl d
  + 2 ^ 47 * gp d + 2 ^ 48 * off_31_16 d.

(** [n] bits of a descriptor from bit [i] on. *)
Definition bits (w i n : Z) : Z := w / 2 ^ i mod 2 ^ n.

Definition w_type (w : Z) : Z := bits w 40 4.
Definition w_s (w : Z) : Z := bits w 44 1.
Definition w_dpl (w : Z) : Z := bits w 45 2.
Definition w_p (w : Z) : Z := bits w 47 1.
Definition w_base (w : Z) : Z := bits w 16 24 + 2 ^ 24 * bits w 56 8.
Definition w_limit (w : Z) : Z :=
  let l := bits w 0 16 + 2 ^ 16 * bits w 48 4 in if bits w 55 1 =? 1 then 4096 * l + 4095 else l.
Definition w_offset (w : Z) : Z := bits w 0 16 + 2 ^ 16 * bits w 48 16.
Definition w_selector (w : Z) : Z := bits w 16 16.

(** The descriptor of a selector, whose low three bits are no part of the index;
    index 0 is the null selector, and bit 2 selects a local table, of which there
    is none. *)
Definition descriptor (c : cpu) (sel : Z) : option Z :=
  let i := sel / 8 in
  if (i =? 0) || (bits sel 2 1 =? 1) || (fst (gdtr c) <? 8 * i + 7) then None else seg_word <$> zlookup (gdt c) i.

(** The stack segment of the privilege [cpl]: writable data of that privilege. *)
Definition stack_ok (c : cpu) (cpl sel : Z) : bool :=
  match descriptor c sel with
  | None => false
  | Some w => (w_p w =? 1) && (w_s w =? 1) && (w_type w <? 8) && (bits w 41 1 =? 1) && (w_dpl w =? cpl) && (sel mod 4 =? cpl)
  end.

(** Entering the kernel through the table [idt]: the address, the privilege, the
    stack when it is switched, and the interrupt flag; a switch to another task;
    or a fault.  [soft] is the instruction [int]. *)
Inductive delivery := Entered (ip cpl : Z) (stack : option (Z * Z)) (fl_if : bool) | Task | Protection.

Definition deliver (idt : list gatedesc) (c : cpu) (cpl : Z) (fl_if soft : bool) (n : Z) : delivery :=
  match zlookup idt n with
  | None => Protection
  | Some d =>
      let w := gate_word d in
      if soft && (w_dpl w <? cpl) then Protection
      else if negb ((w_p w =? 1) && (w_s w =? 0)) then Protection
      else if w_type w =? 5 then Task
      else if negb ((w_type w =? 14) || (w_type w =? 15)) then Protection
      else
        match descriptor c (w_selector w) with
        | None => Protection
        | Some k =>
            if (w_p k =? 1) && (w_s k =? 1) && (8 <=? w_type k) && (w_dpl k <=? cpl) && (w_offset w <=? w_limit k) &&
               (negb (w_dpl k <? cpl) || stack_ok c (w_dpl k) (ss0 (ts c))) then
              Entered (w_base k + w_offset w) (w_dpl k)
                (if w_dpl k <? cpl then Some (ss0 (ts c), esp0 (ts c)) else None) (fl_if && (w_type w =? 15))
            else Protection
        end
  end.

(** A fault is the exception 13, which is no instruction. *)
Definition interrupted (idt : list gatedesc) (c : cpu) (cpl : Z) (fl_if soft : bool) (n : Z) : delivery :=
  match deliver idt c cpl fl_if soft n with Protection => deliver idt c cpl fl_if false 13 | e => e end.

(** Loading a data segment register. *)
Definition loadable (c : cpu) (cpl sel : Z) : bool :=
  match descriptor c sel with
  | None => false
  | Some w => (w_p w =? 1) && (w_s w =? 1) && ((w_type w <? 8) || (bits w 41 1 =? 1)) && (Z.max cpl (sel mod 4) <=? w_dpl w)
  end.

(** Access to a port: by privilege, or by a bit of the map behind the task state. *)
Definition port_allowed (c : cpu) (cpl iopl port : Z) (bitmap : Z -> bool) : bool :=
  (cpl <=? iopl) ||
  match descriptor c (tr c) with
  | None => false
  | Some w => (iomb (ts c) + port / 8 + 1 <=? w_limit w) && negb (bitmap port)
  end.

(** The instructions: [int], far jumps and calls, far returns (also [iret]), [iret]
    with the flag NT, which returns to another task, loads of a data segment and of
    the stack segment register, input and output, [cli] and [sti], the instructions
    for the kernel only ([lgdt], [lidt], [ltr], [mov] to a control register, [wrmsr],
    [hlt] and the like), and the two fast system calls. *)
Inductive instruction :=
| I_int (n : Z) | I_far (sel ip : Z) | I_ret (sel ip : Z) | I_iret_task
| I_load (sel : Z) | I_load_ss (sel : Z) | I_port (port : Z) (bitmap : Z -> bool)
| I_cli | I_privileged | I_sysenter | I_syscall.

(** The state that these instructions look at, apart from the tables: the I/O
    privilege, the segment for [sysenter], and whether [syscall] is enabled. *)
Record control := mkcontrol { iopl : Z; sysenter_cs : Z; sce : bool }.

(** The code goes on with its privilege, in the code segment [sel] if that changes;
    the kernel is entered; or control goes to code that the kernel did not choose. *)
Inductive effect := Same (sel : option Z) | Enters (d : delivery) | Escapes.

(** A far jump or call: to a code segment of the same privilege, or through a
    descriptor of a task or a gate, when its privilege allows it. *)
Definition far (c : cpu) (cpl sel ip : Z) (raise : Z -> effect) : effect :=
  match descriptor c sel with
  | None => raise 13
  | Some w =>
      if w_s w =? 1 then
        if negb (8 <=? w_type w) then raise 13
        else if negb (if bits w 42 1 =? 1 then w_dpl w <=? cpl else (sel mod 4 <=? cpl) && (w_dpl w =? cpl)) then raise 13
        else if negb (w_p w =? 1) then raise 11
        else if ip <=? w_limit w then Same (Some sel) else raise 13
      else if bool_decide (w_type w ∈ [1; 3; 4; 5; 9; 11; 12]) then
        if Z.max cpl (sel mod 4) <=? w_dpl w then (if w_p w =? 1 then Escapes else raise 11) else raise 13
      else raise 13
  end.

(** A far return goes to a code segment of the privilege in the selector, which is not higher than the present one. *)
Definition farret (c : cpu) (cpl sel ip : Z) (raise : Z -> effect) : effect :=
  if sel mod 4 <? cpl then raise 13
  else
    match descriptor c sel with
    | None => raise 13
    | Some w =>
        if negb ((w_s w =? 1) && (8 <=? w_type w)) then raise 13
        else if negb (if bits w 42 1 =? 1 then w_dpl w <=? sel mod 4 else w_dpl w =? sel mod 4) then raise 13
        else if negb (w_p w =? 1) then raise 11
        else if ip <=? w_limit w then Same (Some sel) else raise 13
    end.

Definition execute (idt : list gatedesc) (c : cpu) (m : control) (cpl : Z) (fl_if : bool) (i : instruction) : effect :=
  let raise n := Enters (interrupted idt c cpl fl_if false n) in
  match i with
  | I_int n => Enters (interrupted idt c cpl fl_if true n)
  | I_far sel ip => far c cpl sel ip raise
  | I_ret sel ip => farret c cpl sel ip raise
  | I_iret_task =>
      match descriptor c (link (ts c)) with
      | None => raise 10
      | Some w => if (w_s w =? 0) && ((w_type w =? 3) || (w_type w =? 11)) then Escapes else raise 10
      end
  | I_load sel => if (sel <? 4) || loadable c cpl sel then Same None else raise 13
  | I_load_ss sel => if stack_ok c cpl sel then Same None else raise 13
  | I_port port bitmap => if port_allowed c cpl (iopl m) port bitmap then Same None else raise 13
  | I_cli => if cpl <=? iopl m then Same None else raise 13
  | I_privileged => if cpl =? 0 then Same None else raise 13
  | I_sysenter => if sysenter_cs m / 4 =? 0 then raise 13 else Escapes
  | I_syscall => if sce m then Escapes else raise 6
  end.

(** ** The tables as the processor reads them *)

Lemma shiftr_div x n : 0 <= n -> Z.shiftr x n = x / 2 ^ n.
Proof. apply Z.shiftr_div_pow2. Qed.

Lemma land_ffff x : Z.land x 0xffff = x mod 2 ^ 16.
Proof. exact (Z.land_ones x 16 ltac:(lia)). Qed.

Lemma land_ff x : Z.land x 0xff = x mod 2 ^ 8.
Proof. exact (Z.land_ones x 8 ltac:(lia)). Qed.

Lemma field_range n x : 0 <= n -> 0 <= field n x < 2 ^ n.
Proof. intros H. apply Z.mod_pos_bound. by apply Z.pow_pos_nonneg. Qed.

(** Arithmetic with quotients by powers of two. *)
Ltac fields :=
  repeat match goal with |- context [2 ^ ?n] => let v := eval compute in (2 ^ n) in change (2 ^ n) with v end;
  Z.to_euclidean_division_equations; lia.

(** What the processor reads in a gate. *)
Lemma gate_fields (istrap : bool) (off d : Z) : 0 <= off < 2 ^ 32 -> 0 <= d < 4 ->
  let w := gate_word (SETGATE istrap (Z.shiftl SEG_KCODE 3) off d) in
  w_offset w = off /\ w_selector w = 8 /\ w_type w = (if istrap then 15 else 14) /\ w_s w = 0 /\ w_dpl w = d /\ w_p w = 1.
Proof.
  intros Ho Hd w. unfold w_offset, w_selector, w_type, w_s, w_dpl, w_p, bits, w, gate_word, SETGATE; cbn [off_15_0 cs args grsv1 gtype gs gdpl gp off_31_16].
  unfold field. rewrite land_ffff, shiftr_div by lia. rewrite (u32_small off) by lia.
  change (Z.shiftl SEG_KCODE 3) with 8. rewrite (Z.mod_small d) by lia.
  assert (0 <= off mod 2 ^ 16 < 2 ^ 16) by (apply Z.mod_pos_bound; lia).
  assert (0 <= off / 2 ^ 16 < 2 ^ 16) by (split; [apply Z.div_pos; lia|apply Z.div_lt_upper_bound; lia]).
  rewrite (Z.mod_small (off mod 2 ^ 16)), (Z.mod_small (off / 2 ^ 16)) by lia.
  pose proof (Z.div_mod off (2 ^ 16) ltac:(lia)) as Hoff.
  set (lo := off mod 2 ^ 16) in *. set (hi := off / 2 ^ 16) in *. clearbody lo hi.
  unfold STS_TG32, STS_IG32. destruct istrap; split_and!; fields.
Qed.

(** The word of the task state, whatever its address: a system segment of 104 bytes. *)
Lemma tss_fields (a : Z) : let w := seg_word (set_s 0 (SEG16 STS_T32A a (TSS_SIZE - 1) 0)) in
  w_s w = 0 /\ w_limit w = 103 /\ w_type w = 9 /\ w_dpl w = 0.
Proof.
  intros w. unfold w_s, w_limit, w_type, w_dpl, bits, w, seg_word, set_s, SEG16; cbn [lim_15_0 base_15_0 base_23_16 type s dpl p lim_19_16 avl rsv1 db g base_31_24].
  change (field 16 (Z.land (TSS_SIZE - 1) 65535)) with 103. change (field 4 (Z.shiftr (u32 (TSS_SIZE - 1)) 16)) with 0.
  change (field 4 STS_T32A) with 9. change (field 2 0) with 0.
  pose proof (field_range 16 (Z.land (u32 a) 65535) ltac:(lia)) as H1. pose proof (field_range 8 (Z.land (Z.shiftr (u32 a) 16) 255) ltac:(lia)) as H2.
  pose proof (field_range 8 (Z.shiftr (u32 a) 24) ltac:(lia)) as H3.
  set (x := field 16 _) in *. set (y := field 8 (Z.land _ _)) in *. set (z := field 8 _) in *. clearbody x y z.
  split_and!; [fields| |fields|fields].
  match goal with |- (if ?b =? 1 then _ else _) = _ => replace b with 0 by fields end. cbn [Z.eqb]. fields.
Qed.

Section Tables.
Context (vectors : Z -> Z) (Hvec : forall n, 0 <= n < 256 -> 0 <= vectors n < 2 ^ 32).

Lemma tvinit_loop_length n i idt : length (tvinit_loop vectors n i idt) = length idt.
Proof. revert i idt. induction n as [|n IH]; intros i idt; [done|]. cbn [tvinit_loop]. by rewrite IH, length_zinsert. Qed.

Lemma tvinit_loop_lookup n i idt j : 0 <= i -> i + Z.of_nat n <= Z.of_nat (length idt) ->
  zlookup (tvinit_loop vectors n i idt) j =
  if (i <=? j) && (j <? i + Z.of_nat n) then Some (SETGATE false (Z.shiftl SEG_KCODE 3) (vectors j) 0) else zlookup idt j.
Proof.
  revert i idt. induction n as [|n IH]; intros i idt Hi Hn; cbn [tvinit_loop].
  - destruct (Z.leb_spec i j), (Z.ltb_spec j (i + Z.of_nat 0)); done || lia.
  - rewrite IH by (rewrite ?length_zinsert; lia). destruct (decide (i = j)) as [->|Hj].
    + destruct (Z.leb_spec (j + 1) j), (Z.leb_spec j j), (Z.ltb_spec j (j + Z.of_nat (S n))); try lia. cbn [andb].
      apply zlookup_zinsert_eq. lia.
    + rewrite zlookup_zinsert_ne by done.
      destruct (Z.leb_spec (i + 1) j), (Z.leb_spec i j), (Z.ltb_spec j (i + 1 + Z.of_nat n)), (Z.ltb_spec j (i + Z.of_nat (S n))); done || lia.
Qed.

Lemma tvinit_lookup idt n : length idt = 256%nat -> 0 <= n < 256 ->
  zlookup (tvinit vectors idt) n =
  Some (SETGATE (n =? T_SYSCALL) (Z.shiftl SEG_KCODE 3) (vectors n) (if n =? T_SYSCALL then DPL_USER else 0)).
Proof.
  intros Hl Hn. unfold tvinit. destruct (Z.eqb_spec n T_SYSCALL) as [->|Hne].
  - apply zlookup_zinsert_eq. rewrite tvinit_loop_length, Hl. unfold T_SYSCALL. lia.
  - rewrite zlookup_zinsert_ne by done. rewrite tvinit_loop_lookup by lia.
    destruct (Z.leb_spec 0 n), (Z.ltb_spec n (0 + Z.of_nat 256)); done || lia.
Qed.

Context (c : cpu) (gdt_addr ts_addr kstack : Z) (Hgdt : length (gdt c) = 6%nat).

(** A processor that runs a process. *)
Definition running : cpu := switchuvm_tss ts_addr kstack (seginit gdt_addr c).

Lemma running_gdt : exists d0,
  gdt running = [d0; SEG 10 0 0xffffffff 0; SEG 2 0 0xffffffff 0; SEG 10 0 0xffffffff 3; SEG 2 0 0xffffffff 3;
                 set_s 0 (SEG16 STS_T32A ts_addr (TSS_SIZE - 1) 0)].
Proof.
  unfold running. destruct c as [t tsx gr trx]. cbn [gdt] in Hgdt.
  destruct t as [|d0 [|d1 [|d2 [|d3 [|d4 [|d5 [|]]]]]]]; try discriminate Hgdt. exists d0. reflexivity.
Qed.

Lemma running_gdtr : fst (gdtr running) = 47.
Proof. reflexivity. Qed.

(** The segments by selector. *)
Lemma running_descriptor sel : 0 <= sel ->
  descriptor running sel =
  if bits sel 2 1 =? 1 then None
  else if sel / 8 =? SEG_KCODE then Some 0xcf9a000000ffff else if sel / 8 =? SEG_KDATA then Some 0xcf92000000ffff
  else if sel / 8 =? SEG_UCODE then Some 0xcffa000000ffff else if sel / 8 =? SEG_UDATA then Some 0xcff2000000ffff
  else if sel / 8 =? SEG_TSS then Some (seg_word (set_s 0 (SEG16 STS_T32A ts_addr (TSS_SIZE - 1) 0))) else None.
Proof.
  intros Hs. unfold descriptor. rewrite running_gdtr. destruct running_gdt as [d0 ->].
  assert (Hi : 0 <= sel / 8) by (apply Z.div_pos; lia). set (i := sel / 8) in *. clearbody i.
  destruct (bits sel 2 1 =? 1); [by rewrite orb_true_r|].
  destruct (decide (i < 6)) as [Hlt|].
  - assert (Hc : i = 0 \/ i = 1 \/ i = 2 \/ i = 3 \/ i = 4 \/ i = 5) by lia.
    destruct Hc as [->|[->|[->|[->|[->| ->]]]]]; reflexivity.
  - unfold SEG_KCODE, SEG_KDATA, SEG_UCODE, SEG_UDATA, SEG_TSS.
    by replace (i =? 0) with false by lia; replace (47 <? 8 * i + 7) with true by lia;
      replace (i =? 1) with false by lia; replace (i =? 2) with false by lia; replace (i =? 3) with false by lia;
      replace (i =? 4) with false by lia; replace (i =? 5) with false by lia.
Qed.

Lemma running_tss : descriptor running (tr running) = Some (seg_word (set_s 0 (SEG16 STS_T32A ts_addr (TSS_SIZE - 1) 0))).
Proof. rewrite running_descriptor by (change (tr running) with 40; lia). reflexivity. Qed.

(** A selector of the table of the processor with an index. *)
Definition selects (sel i : Z) : bool := (bits sel 2 1 =? 0) && (sel / 8 =? i).

(** What user code can load into a segment register. *)
Lemma load_running sel : 0 <= sel -> loadable running 3 sel = selects sel SEG_UCODE || selects sel SEG_UDATA.
Proof.
  intros Hs. unfold loadable, selects. rewrite (running_descriptor sel Hs).
  assert (Hr : sel mod 4 <= 3) by (pose proof (Z.mod_pos_bound sel 4); lia).
  assert (Hb : bits sel 2 1 = 0 \/ bits sel 2 1 = 1) by (unfold bits; pose proof (Z.mod_pos_bound (sel / 2 ^ 2) (2 ^ 1)); lia).
  destruct Hb as [-> | ->]; cbn [Z.eqb Pos.eqb andb orb]; [|done].
  rewrite (Z.max_l 3) by lia. set (i := sel / 8). clearbody i. unfold SEG_KCODE, SEG_KDATA, SEG_UCODE, SEG_UDATA, SEG_TSS.
  destruct (Z.eqb_spec i 1) as [->|]; [reflexivity|]. destruct (Z.eqb_spec i 2) as [->|]; [reflexivity|].
  destruct (Z.eqb_spec i 3) as [->|]; [reflexivity|]. destruct (Z.eqb_spec i 4) as [->|]; [reflexivity|].
  destruct (Z.eqb_spec i 5) as [->|]; [|done]. destruct (tss_fields ts_addr) as (-> & _). by rewrite andb_false_r.
Qed.

(** The stack segments that user code and the processor can load. *)
Lemma stack_ok_running sel cpl : 0 <= sel -> cpl = 0 \/ cpl = 3 ->
  stack_ok running cpl sel = selects sel (if cpl =? 0 then SEG_KDATA else SEG_UDATA) && (sel mod 4 =? cpl).
Proof.
  intros Hs Hc. unfold stack_ok, selects. rewrite (running_descriptor sel Hs).
  assert (Hb : bits sel 2 1 = 0 \/ bits sel 2 1 = 1) by (unfold bits; pose proof (Z.mod_pos_bound (sel / 2 ^ 2) (2 ^ 1)); lia).
  destruct Hb as [-> | ->]; cbn [Z.eqb Pos.eqb andb]; [|done].
  set (i := sel / 8). clearbody i. unfold SEG_KCODE, SEG_KDATA, SEG_UCODE, SEG_UDATA, SEG_TSS.
  destruct (Z.eqb_spec i 1) as [->|]; [by destruct Hc as [-> | ->]|]. destruct (Z.eqb_spec i 2) as [->|]; [by destruct Hc as [-> | ->]|].
  destruct (Z.eqb_spec i 3) as [->|]; [by destruct Hc as [-> | ->]|]. destruct (Z.eqb_spec i 4) as [->|]; [by destruct Hc as [-> | ->]|].
  destruct (Z.eqb_spec i 5) as [->|].
  - destruct (tss_fields ts_addr) as (-> & _). rewrite andb_false_r. by destruct Hc as [-> | ->].
  - destruct Hc as [-> | ->]; cbn [Z.eqb]; destruct (Z.eqb_spec i 2), (Z.eqb_spec i 4); done || lia.
Qed.

(** Any entry, from the kernel and from user code. *)
Lemma deliver_running idt cpl fl_if soft n : length idt = 256%nat -> 0 <= n < 256 -> cpl = 0 \/ cpl = 3 ->
  deliver (tvinit vectors idt) running cpl fl_if soft n =
  if soft && negb (n =? T_SYSCALL) && (cpl =? 3) then Protection
  else Entered (vectors n) 0 (if cpl =? 3 then Some (16, u32 (kstack + KSTACKSIZE)) else None) (fl_if && (n =? T_SYSCALL)).
Proof.
  intros Hl Hn Hc. unfold deliver. rewrite (tvinit_lookup idt n Hl Hn).
  destruct (gate_fields (n =? T_SYSCALL) (vectors n) (if n =? T_SYSCALL then DPL_USER else 0) (Hvec n Hn)) as (-> & -> & -> & -> & -> & ->);
    [destruct (n =? T_SYSCALL); unfold DPL_USER; lia|].
  rewrite (running_descriptor 8 ltac:(lia)). change (descriptor running 8) with (Some 0xcf9a000000ffff).
  pose proof (Hvec n Hn) as Hv.
  assert (Hlim : (vectors n <=? w_limit 0xcf9a000000ffff) = true).
  { apply Z.leb_le. change (w_limit 0xcf9a000000ffff) with 0xffffffff. lia. }
  change (bits 8 2 1 =? 1) with false. change (8 / 8 =? SEG_KCODE) with true. cbn match. rewrite Hlim.
  change (w_base 0xcf9a000000ffff) with 0. rewrite Z.add_0_l. change (ss0 (ts running)) with 16. change (w_dpl 0xcf9a000000ffff) with 0.
  rewrite (stack_ok_running 16 0 ltac:(lia) (or_introl eq_refl)). change (selects 16 (if 0 =? 0 then SEG_KDATA else SEG_UDATA) && (16 mod 4 =? 0)) with true.
  destruct Hc as [-> | ->]; destruct (n =? T_SYSCALL), soft; try reflexivity; by destruct fl_if.
Qed.

(** A far transfer from user code: to the user's code segment, or a fault. *)
Lemma far_running sel ip raise : 0 <= sel -> 0 <= ip < 2 ^ 32 ->
  far running 3 sel ip raise = if selects sel SEG_UCODE then Same (Some sel) else raise 13.
Proof.
  intros Hs Hip. unfold far, selects. rewrite (running_descriptor sel Hs).
  assert (Hr : sel mod 4 <= 3) by (pose proof (Z.mod_pos_bound sel 4); lia).
  assert (Hb : bits sel 2 1 = 0 \/ bits sel 2 1 = 1) by (unfold bits; pose proof (Z.mod_pos_bound (sel / 2 ^ 2) (2 ^ 1)); lia).
  destruct Hb as [-> | ->]; cbn [Z.eqb Pos.eqb andb]; [|done].
  rewrite (Z.max_l 3) by lia. set (i := sel / 8). clearbody i. unfold SEG_KCODE, SEG_KDATA, SEG_UCODE, SEG_UDATA, SEG_TSS.
  destruct (Z.eqb_spec i 1) as [->|]; [change (bits 0xcf9a000000ffff 42 1) with 0; change (w_dpl 0xcf9a000000ffff) with 0; cbn; by rewrite andb_false_r|].
  destruct (Z.eqb_spec i 2) as [->|]; [reflexivity|].
  destruct (Z.eqb_spec i 3) as [->|].
  { change (bits 0xcffa000000ffff 42 1) with 0. change (w_dpl 0xcffa000000ffff) with 3. change (w_limit 0xcffa000000ffff) with 0xffffffff.
    rewrite (proj2 (Z.leb_le (sel mod 4) 3) Hr), (proj2 (Z.leb_le ip 0xffffffff) ltac:(lia)). reflexivity. }
  destruct (Z.eqb_spec i 4) as [->|]; [reflexivity|]. destruct (Z.eqb_spec i 5) as [->|]; [|done].
  destruct (tss_fields ts_addr) as (-> & _ & -> & ->). reflexivity.
Qed.

Lemma farret_running sel ip raise : 0 <= sel -> 0 <= ip < 2 ^ 32 ->
  farret running 3 sel ip raise = if selects sel SEG_UCODE && (sel mod 4 =? 3) then Same (Some sel) else raise 13.
Proof.
  intros Hs Hip. unfold farret, selects. rewrite (running_descriptor sel Hs).
  assert (Hr : 0 <= sel mod 4 <= 3) by (pose proof (Z.mod_pos_bound sel 4); lia).
  destruct (Z.ltb_spec (sel mod 4) 3) as [Hlt|]; [rewrite (proj2 (Z.eqb_neq (sel mod 4) 3)) by lia; by rewrite andb_false_r|].
  replace (sel mod 4) with 3 by lia. cbn [Z.eqb Pos.eqb]. rewrite andb_true_r.
  assert (Hb : bits sel 2 1 = 0 \/ bits sel 2 1 = 1) by (unfold bits; pose proof (Z.mod_pos_bound (sel / 2 ^ 2) (2 ^ 1)); lia).
  destruct Hb as [-> | ->]; cbn [Z.eqb Pos.eqb andb]; [|done]. set (i := sel / 8). clearbody i.
  unfold SEG_KCODE, SEG_KDATA, SEG_UCODE, SEG_UDATA, SEG_TSS.
  destruct (Z.eqb_spec i 1) as [->|]; [reflexivity|]. destruct (Z.eqb_spec i 2) as [->|]; [reflexivity|].
  destruct (Z.eqb_spec i 3) as [->|].
  { change (w_limit 0xcffa000000ffff) with 0xffffffff. rewrite (proj2 (Z.leb_le ip 0xffffffff) ltac:(lia)). reflexivity. }
  destruct (Z.eqb_spec i 4) as [->|]; [reflexivity|]. destruct (Z.eqb_spec i 5) as [->|]; [|done].
  destruct (tss_fields ts_addr) as (-> & _). reflexivity.
Qed.

Lemma port_running port bitmap : 0 <= port -> port_allowed running 3 0 port bitmap = false.
Proof.
  intros Hp. unfold port_allowed. change (3 <=? 0) with false. cbn [orb]. rewrite running_tss. destruct (tss_fields ts_addr) as (_ & -> & _).
  change (iomb (ts running)) with 65535. assert (0 <= port / 8) by (apply Z.div_pos; lia).
  by replace (65535 + port / 8 + 1 <=? 103) with false by lia.
Qed.
End Tables.

(** Operands as the instructions have them. *)
Definition operands_ok (i : instruction) : Prop :=
  match i with
  | I_int n => 0 <= n < 256
  | I_far sel ip | I_ret sel ip => 0 <= sel < 2 ^ 16 /\ 0 <= ip < 2 ^ 32
  | I_load sel | I_load_ss sel => 0 <= sel < 2 ^ 16
  | I_port port _ => 0 <= port < 2 ^ 16
  | _ => True
  end.

(** What a user instruction may do; [enter n] is the entry [n] of the kernel. *)
Definition confined (enter : Z -> effect) (i : instruction) : effect :=
  match i with
  | I_int n => enter (if n =? T_SYSCALL then T_SYSCALL else 13)
  | I_far sel _ => if selects sel SEG_UCODE then Same (Some sel) else enter 13
  | I_ret sel _ => if selects sel SEG_UCODE && (sel mod 4 =? 3) then Same (Some sel) else enter 13
  | I_iret_task => enter 10
  | I_load sel => if (sel <? 4) || selects sel SEG_UCODE || selects sel SEG_UDATA then Same None else enter 13
  | I_load_ss sel => if selects sel SEG_UDATA && (sel mod 4 =? 3) then Same None else enter 13
  | I_port _ _ | I_cli | I_privileged | I_sysenter => enter 13
  | I_syscall => enter 6
  end.


(** The example of a processor whose tables were not used before. *)
Definition ex_cpu : cpu := mkcpu (replicate 6 (SEG 0 0 0 0)) (mktss 0 0 0 0) (0, 0) 0.


End Gate.
