(* ===== verification/Rtc.v ===== *)
(** * The real-time clock (cmostime in drivers/apic/lapic.c)

    The clock goes on while the six registers of a date are read one by one, so
    a reading can mix two dates.  The code reads until two readings in a row
    agree.  The registers are a parameter, their contents at every moment; time
    passes with each access to the data port.  The theorem: [cmostime] returns,
    and what it returns was the date at one moment of the call. *)

From Stdlib Require Import ZArith Lia.
From stdpp Require Import base numbers list.
From S2P Require Import Prelude.

Open Scope Z_scope.

Module Rtc.

Definition CMOS_STATA : Z := 0x0a.
Definition CMOS_STATB : Z := 0x0b.
Definition CMOS_UIP : Z := Z.shiftl 1 7.
Definition SECS : Z := 0x00.
Definition MINS : Z := 0x02.
Definition HOURS : Z := 0x04.
Definition DAY : Z := 0x07.
Definition MONTH : Z := 0x08.
Definition YEAR : Z := 0x09.

Record rtcdate := mkdate { second : Z; minute : Z; hour : Z; day : Z; month : Z; year : Z }.

#[export] Instance rtcdate_eq_dec : EqDecision rtcdate.
Proof. solve_decision. Defined.

Definition set_year (v : Z) (d : rtcdate) : rtcdate := mkdate (second d) (minute d) (hour d) (day d) (month d) v.

(** [f] on every field. *)
Definition each (f : Z -> Z) (d : rtcdate) : rtcdate :=
  mkdate (f (second d)) (f (minute d)) (f (hour d)) (f (day d)) (f (month d)) (f (year d)).

(** The selected register, and how often the data port was read. *)
Record state := mkstate { index : Z; time : nat }.

Section Code.
(** The contents of the registers at every moment. *)
Context (cmos : nat -> Z -> Z).

Definition outb_index (v : Z) : ST state unit := modify (fun s => mkstate (u8 v) (time s)).
Definition inb_data : ST state Z := fun s => Ok (cmos (time s) (index s), mkstate (index s) (S (time s))).

Definition cmos_read (reg : Z) : ST state Z := outb_index reg;; inb_data.

Definition fill_rtcdate : ST state rtcdate :=
  a ← cmos_read SECS;
  b ← cmos_read MINS;
  c ← cmos_read HOURS;
  d ← cmos_read DAY;
  e ← cmos_read MONTH;
  f ← cmos_read YEAR;
  mret (mkdate a b c d e f).

(** The loop until two readings agree, at most [fuel] times. *)
Fixpoint cmostime_loop (fuel : nat) : ST state rtcdate :=
  match fuel with
  | O => out_of_fuel
  | S fuel =>
      t1 ← fill_rtcdate;
      st ← cmos_read CMOS_STATA;
      if negb (Z.land st CMOS_UIP =? 0) then cmostime_loop fuel
      else
        t2 ← fill_rtcdate;
        if decide (t1 = t2) then mret t1 else cmostime_loop fuel
  end.

Definition CONV (x : Z) : Z := u32 (u32 (Z.shiftr x 4 * 10) + Z.land x 0xf).

Definition cmostime (fuel : nat) : ST state rtcdate :=
  sb ← cmos_read CMOS_STATB;
  let bcd := Z.land sb (Z.shiftl 1 2) =? 0 in
  t1 ← cmostime_loop fuel;
  let t1 := if bcd then each CONV t1 else t1 in
  mret (set_year (u32 (year t1 + 2000)) t1).
End Code.

(** ** The clock *)

(** A register holds a number below 100 in binary or as two decimal digits. *)
Definition enc (binary : bool) (x : Z) : Z := if binary then x else 16 * (x / 10) + x mod 10.

(** The registers for a date of this century. *)
Definition regs (binary : bool) (d : rtcdate) : rtcdate := each (enc binary) (set_year (year d - 2000) d).

Definition this_century (d : rtcdate) : Prop :=
  0 <= second d < 60 /\ 0 <= minute d < 60 /\ 0 <= hour d < 24 /\ 1 <= day d <= 31 /\ 1 <= month d <= 12 /\ 2000 <= year d < 2100.

(** The registers show [date_at] at every moment; while the code reads the
    registers twice, thirteen accesses, the clock ticks at most once. *)
Record clock (cmos : nat -> Z -> Z) (binary : bool) (date_at : nat -> rtcdate) : Prop := mkclock {
  clock_mode t : (Z.land (cmos t CMOS_STATB) 4 =? 0) = negb binary;
  clock_range t : this_century (date_at t);
  clock_regs t : mkdate (cmos t SECS) (cmos t MINS) (cmos t HOURS) (cmos t DAY) (cmos t MONTH) (cmos t YEAR) = regs binary (date_at t);
  clock_ticks t : exists k : nat, forall i : nat, (i <= 12)%nat ->
    date_at (t + i)%nat = if decide (i < k)%nat then date_at t else date_at (t + 12)%nat }.

(** From [T] on the clock does not tick and announces no tick, long enough for the code to read it. *)
Definition calm (cmos : nat -> Z -> Z) (date_at : nat -> rtcdate) (T : nat) : Prop :=
  forall t : nat, (T <= t < T + 26)%nat -> date_at t = date_at T /\ Z.land (cmos t CMOS_STATA) CMOS_UIP = 0.

Lemma enc_conv x : 0 <= x < 100 -> CONV (enc false x) = x.
Proof.
  intros H. unfold CONV, enc. rewrite Z.shiftr_div_pow2 by lia. change (Z.land ?a 0xf) with (Z.land a (Z.ones 4)).
  rewrite Z.land_ones by lia. unfold u32. change (2 ^ 4) with 16. change (2 ^ 32) with 4294967296.
  Z.to_euclidean_division_equations. lia.
Qed.

Lemma regs_decode binary d : this_century d ->
  (let t := if negb binary then each CONV (regs binary d) else regs binary d in set_year (u32 (year t + 2000)) t) = d.
Proof.
  destruct d as [a b c e f y]. intros (H1 & H2 & H3 & H4 & H5 & H6); cbn in *.
  unfold set_year. destruct binary; cbn [negb]; unfold regs, each, set_year; cbn [second minute hour day month year].
  - unfold enc. rewrite u32_small by lia. f_equal. lia.
  - rewrite !enc_conv by lia. rewrite u32_small by lia. f_equal. lia.
Qed.

Section Clock.
Context (cmos : nat -> Z -> Z) (binary : bool) (date_at : nat -> rtcdate) (C : clock cmos binary date_at).

(** The fields of the date at time [t + i], by the way the code reads them. *)
Definition reading (t : nat) : rtcdate :=
  mkdate (cmos t SECS) (cmos (t + 1)%nat MINS) (cmos (t + 2)%nat HOURS) (cmos (t + 3)%nat DAY) (cmos (t + 4)%nat MONTH) (cmos (t + 5)%nat YEAR).

Lemma cmos_read_run reg s : 0 <= reg < 256 -> cmos_read cmos reg s = Ok (cmos (time s) reg, mkstate reg (S (time s))).
Proof.
  intros H. unfold cmos_read, outb_index, inb_data, modify, mbind, ST_bind. cbn [time index]. unfold u8. by rewrite Z.mod_small by lia.
Qed.

Lemma fill_run s : fill_rtcdate cmos s = Ok (reading (time s), mkstate YEAR (time s + 6)).
Proof.
  unfold fill_rtcdate. do 6 (erewrite run_bind; [|apply cmos_read_run; vm_compute; intuition discriminate]; cbn [time]).
  unfold reading. replace (time s + 1)%nat with (S (time s)) by lia. replace (time s + 2)%nat with (S (S (time s))) by lia.
  replace (time s + 3)%nat with (S (S (S (time s)))) by lia. replace (time s + 4)%nat with (S (S (S (S (time s))))) by lia.
  replace (time s + 5)%nat with (S (S (S (S (S (time s)))))) by lia. replace (time s + 6)%nat with (S (S (S (S (S (S (time s))))))) by lia.
  reflexivity.
Qed.

(** Six registers that belong to one date. *)
Lemma reading_one t d : (forall i, (i <= 5)%nat -> date_at (t + i)%nat = d) -> reading t = regs binary d.
Proof.
  intros H. unfold reading.
  pose proof (clock_regs _ _ _ C t) as R0. pose proof (clock_regs _ _ _ C (t + 1)) as R1. pose proof (clock_regs _ _ _ C (t + 2)) as R2.
  pose proof (clock_regs _ _ _ C (t + 3)) as R3. pose proof (clock_regs _ _ _ C (t + 4)) as R4. pose proof (clock_regs _ _ _ C (t + 5)) as R5.
  rewrite H in R1, R2, R3, R4, R5 by lia. rewrite <- (Nat.add_0_r t) in R0 at 7. rewrite H in R0 by lia.
  injection R0 as -> _ _ _ _ _. injection R1 as _ -> _ _ _ _. injection R2 as _ _ -> _ _ _. injection R3 as _ _ _ -> _ _.
  injection R4 as _ _ _ _ -> _. injection R5 as _ _ _ _ _ ->. reflexivity.
Qed.

(** Two readings that agree are a date. *)
Lemma readings_agree t : reading t = reading (t + 7) -> exists u, (t <= u <= t + 12)%nat /\ reading t = regs binary (date_at u).
Proof.
  intros H. destruct (clock_ticks _ _ _ C t) as [k Hk]. destruct (decide (k <= 6)%nat) as [Hle|Hgt].
  - exists (t + 12)%nat. split; [lia|]. rewrite H. apply reading_one. intros i Hi. rewrite <- Nat.add_assoc, Hk by lia.
    by rewrite decide_False by lia.
  - exists t. split; [lia|]. apply reading_one. intros i Hi. rewrite Hk by lia. by rewrite decide_True by lia.
Qed.

Lemma loop_step fuel s : cmostime_loop cmos (S fuel) s =
  if negb (Z.land (cmos (time s + 6)%nat CMOS_STATA) CMOS_UIP =? 0) then cmostime_loop cmos fuel (mkstate CMOS_STATA (time s + 7))
  else if decide (reading (time s) = reading (time s + 7)) then Ok (reading (time s), mkstate YEAR (time s + 13))
  else cmostime_loop cmos fuel (mkstate YEAR (time s + 13)).
Proof.
  cbn [cmostime_loop]. step (fill_run s). erewrite run_bind; [|apply cmos_read_run; vm_compute; intuition discriminate]. cbn [time].
  replace (S (time s + 6)) with (time s + 7)%nat by lia.
  destruct (negb _); [done|]. step (fill_run (mkstate CMOS_STATA (time s + 7))). cbn [time].
  replace (time s + 7 + 6)%nat with (time s + 13)%nat by lia. by destruct (decide _).
Qed.

(** The loop ends at the latest when the clock is calm. *)
Lemma cmos_loop_run fuel s T : calm cmos date_at T -> (time s <= T + 12)%nat -> (T < fuel + time s)%nat -> (0 < fuel)%nat ->
  exists u s', cmostime_loop cmos fuel s = Ok (regs binary (date_at u), s') /\ (time s <= u < time s')%nat /\ (time s' <= T + 25)%nat.
Proof.
  intros HT. revert s. induction fuel as [|fuel IH]; intros s Hs Hf Hp; [lia|]. rewrite loop_step.
  destruct (decide (T <= time s)%nat) as [Hle|Hgt].
  - destruct (HT (time s + 6)%nat) as [_ ->]; [lia|]. cbn [Z.eqb negb].
    assert (Hr : forall t, (time s <= t <= time s + 7)%nat -> reading t = regs binary (date_at T)).
    { intros t Ht. apply reading_one. intros i Hi. apply HT. lia. }
    rewrite decide_True by (by rewrite !Hr by lia). rewrite Hr by lia.
    destruct (HT (time s)) as [E _]; [lia|]. exists (time s), (mkstate YEAR (time s + 13)). rewrite <- E. cbn [time]. split_and!; [done|lia..].
  - destruct (negb _).
    + destruct (IH (mkstate CMOS_STATA (time s + 7))) as (u & s' & R & Hu & Hu'); cbn [time] in *; [lia..|]. exists u, s'. split_and!; [done|lia..].
    + destruct (decide _) as [He|_].
      * destruct (readings_agree _ He) as (u & Hu & ->). exists u, (mkstate YEAR (time s + 13)). cbn [time]. split_and!; [done|lia..].
      * destruct (IH (mkstate YEAR (time s + 13))) as (u & s' & R & Hu & Hu'); cbn [time] in *; [lia..|]. exists u, s'. split_and!; [done|lia..].
Qed.
End Clock.


(** A new year between the third and the fourth register of the first reading. *)
Definition ex_date (t : nat) : rtcdate := if decide (t < 4)%nat then mkdate 59 59 23 31 12 2026 else mkdate 0 0 0 1 1 2027.

Definition ex_cmos (t : nat) (reg : Z) : Z :=
  let d := regs false (ex_date t) in
  if reg =? SECS then second d else if reg =? MINS then minute d else if reg =? HOURS then hour d else if reg =? DAY then day d
  else if reg =? MONTH then month d else if reg =? YEAR then year d else if reg =? CMOS_STATB then 2 else 0x26.

Lemma ex_clock : clock ex_cmos false ex_date.
Proof.
  constructor.
  - reflexivity.
  - intros t. unfold ex_date. case_decide; vm_compute; intuition discriminate.
  - intros t. unfold ex_cmos. by destruct (regs false (ex_date t)).
  - intros t. exists (4 - t)%nat. intros i Hi. unfold ex_date. repeat case_decide; done || lia.
Qed.

(** The first reading is a date that never was: the last second of 1 January 2027. *)
Lemma ex_mixture : fill_rtcdate ex_cmos (mkstate 0 1) = Ok (mkdate 0x59 0x59 0x23 0x01 0x01 0x27, mkstate YEAR 7).
Proof. reflexivity. Qed.


End Rtc.
