(* ===== verification/Uart.v ===== *)
(** * The serial port (drivers/uart/uart.c)

    The second input and output of the console.  The UART is hardware and a
    parameter: the class [Serial] has the accesses to its ports, [SerialLaws] what
    the code relies on.  What one can observe of it is a [line]: whether there is a
    port, the line control register with the bit that puts the divisor in place of
    the data, the divisor, the bytes received and not read yet, the bytes sent,
    and for how many more reads of the status the transmitter is busy.  The
    theorems: [uartinit] programs the line without sending a byte before its
    message, [uartputc] loses no byte of a line that is not too slow, and
    [uartintr] hands all that was received to the line editor. *)

From Stdlib Require Import ZArith Lia.
From stdpp Require Import base numbers strings list.
From S2P Require Import Prelude Console.

Open Scope Z_scope.

Import Console ConsoleThm.

Module Uart.

Definition COM1 : Z := 0x3f8.
Definition IRQ_COM1 : Z := 4.

Record line := mkline { present : bool; lcr : Z; divisor : Z; rx : list Z; tx : list Z; slow : nat }.

Definition set_lcr (v : Z) (l : line) : line := mkline (present l) v (divisor l) (rx l) (tx l) (slow l).
Definition set_divisor (v : Z) (l : line) : line := mkline (present l) (lcr l) v (rx l) (tx l) (slow l).
Definition set_rx (v : list Z) (l : line) : line := mkline (present l) (lcr l) (divisor l) v (tx l) (slow l).
Definition set_slow (v : nat) (l : line) : line := mkline (present l) (lcr l) (divisor l) (rx l) (tx l) v.
Definition send (v : Z) (n : nat) (l : line) : line := mkline (present l) (lcr l) (divisor l) (rx l) (tx l ++ [v]) n.

(** The bit that gives access to the divisor. *)
Definition dlab (l : line) : bool := Z.testbit (lcr l) 7.

Class Serial (D : Type) := { sin : Z -> D -> Z * D; sout : Z -> Z -> D -> D }.

(** Without a port, reads give 0xFF and writes have no effect. *)
Class SerialLaws (D : Type) `{Serial D} := {
  line_of : D -> line;
  limit : nat;
  ser_limit d : (slow (line_of d) <= limit)%nat;
  ser_absent d p : present (line_of d) = false -> fst (sin p d) = 0xff /\ line_of (snd (sin p d)) = line_of d;
  ser_absent_out d p v : present (line_of d) = false -> line_of (sout p v d) = line_of d;
  ser_status d : present (line_of d) = true ->
    fst (sin (COM1 + 5) d) <> 0xff /\
    Z.testbit (fst (sin (COM1 + 5) d)) 0 = negb (bool_decide (rx (line_of d) = [])) /\
    Z.testbit (fst (sin (COM1 + 5) d)) 5 = bool_decide (slow (line_of d) = 0%nat) /\
    line_of (snd (sin (COM1 + 5) d)) = set_slow (pred (slow (line_of d))) (line_of d);
  ser_iir d : present (line_of d) = true -> line_of (snd (sin (COM1 + 2) d)) = line_of d;
  ser_data d : present (line_of d) = true -> dlab (line_of d) = false ->
    line_of (snd (sin (COM1 + 0) d)) = set_rx (tail (rx (line_of d))) (line_of d) /\
    forall b, head (rx (line_of d)) = Some b -> fst (sin (COM1 + 0) d) = b;
  ser_send d v : present (line_of d) = true -> dlab (line_of d) = false -> slow (line_of d) = 0%nat ->
    exists n, line_of (sout (COM1 + 0) v d) = send v n (line_of d);
  ser_divisor_low d v : present (line_of d) = true -> dlab (line_of d) = true ->
    line_of (sout (COM1 + 0) v d) = set_divisor (256 * (divisor (line_of d) / 256) + v) (line_of d);
  ser_divisor_high d v : present (line_of d) = true -> dlab (line_of d) = true ->
    line_of (sout (COM1 + 1) v d) = set_divisor (256 * v + divisor (line_of d) mod 256) (line_of d);
  ser_lcr d v : present (line_of d) = true -> line_of (sout (COM1 + 3) v d) = set_lcr v (line_of d);
  ser_control d p v : present (line_of d) = true -> p = COM1 + 2 \/ p = COM1 + 4 \/ (p = COM1 + 1 /\ dlab (line_of d) = false) ->
    line_of (sout p v d) = line_of d }.

Section Code.
Context {D : Type} `{!Serial D}.

(** [routed] are the calls of [ioapicenable]. *)
Record state := mkstate { dev : D; uart : bool; routed : list (Z * Z) }.

Definition set_dev (d : D) (s : state) : state := mkstate d (uart s) (routed s).
Definition inb (p : Z) : ST state Z := fun s => let '(v, d) := sin p (dev s) in Ok (v, set_dev d s).
Definition outb (p v : Z) : ST state unit := modify (fun s => set_dev (sout p (u8 v) (dev s)) s).

(** [for(i = 0; i < 128 && !(inb(COM1+5) & 0x20); i++)], with [n] rounds left. *)
Fixpoint putc_wait (n : nat) : ST state unit :=
  match n with
  | O => mret tt
  | S n => v ← inb (COM1 + 5); if Z.land v 0x20 =? 0 then putc_wait n else mret tt
  end.

Definition uartputc (c : Z) : ST state unit :=
  s ← get;
  if negb (uart s) then mret tt else putc_wait 128;; outb (COM1 + 0) c.

(** A loop over the characters of a string. *)
Fixpoint puts (l : list Z) : ST state unit :=
  match l with [] => mret tt | c :: l => uartputc c;; puts l end.

(** The characters of [xv6...] and a newline. *)
Definition banner : list Z := [120; 118; 54; 46; 46; 46; 10].

Definition uartinit : ST state unit :=
  outb (COM1 + 2) 0;;
  outb (COM1 + 3) 0x80;;
  outb (COM1 + 0) (115200 / 9600);;
  outb (COM1 + 1) 0;;
  outb (COM1 + 3) 0x03;;
  outb (COM1 + 4) 0;;
  outb (COM1 + 1) 0x01;;
  st ← inb (COM1 + 5);
  if st =? 0xff then mret tt
  else
    modify (fun s => mkstate (dev s) true (routed s));;
    inb (COM1 + 2);;
    inb (COM1 + 0);;
    modify (fun s => mkstate (dev s) (uart s) (routed s ++ [(IRQ_COM1, 0)]));;
    puts banner.

Definition uartgetc : ST state Z :=
  s ← get;
  if negb (uart s) then mret (-1)
  else
    v ← inb (COM1 + 5);
    if Z.land v 0x01 =? 0 then mret (-1) else inb (COM1 + 0).

(** The calls of [uartgetc] by [consoleintr] until it returns -1. *)
Fixpoint getc_all (fuel : nat) : ST state (list Z) :=
  c ← uartgetc;
  if c <? 0 then mret []
  else match fuel with O => out_of_fuel | S f => l ← getc_all f; mret (c :: l) end.

(** The port and the console; what the console echoes does not change what was received. *)
Definition uartintr (fuel : nat) : ST (state * cons) bool :=
  l ← zoom fst (fun s x => (s, snd x)) (getc_all fuel);
  zoom snd (fun c x => (fst x, c)) (consoleintr l false).
End Code.

Arguments state : clear implicits.

(** ** Sending *)

Lemma land_bit v i m : Z.land v m = (if Z.testbit v i then m else 0) -> m <> 0 -> (Z.land v m =? 0) = negb (Z.testbit v i).
Proof. intros -> Hm. destruct (Z.testbit v i); [by apply Z.eqb_neq|done]. Qed.

Lemma land_pow2 v i : 0 <= i -> Z.land v (2 ^ i) = if Z.testbit v i then 2 ^ i else 0.
Proof.
  intros Hi. apply Z.bits_inj'. intros j Hj. rewrite Z.land_spec, Z.pow2_bits_eqb by lia.
  destruct (Z.eqb_spec i j) as [->|Hn].
  - rewrite andb_true_r. destruct (Z.testbit v j); [by rewrite Z.pow2_bits_true by lia|by rewrite Z.bits_0].
  - rewrite andb_false_r. destruct (Z.testbit v i); [by rewrite Z.pow2_bits_false by lia|by rewrite Z.bits_0].
Qed.

Lemma land_0x20 v : (Z.land v 0x20 =? 0) = negb (Z.testbit v 5).
Proof. apply land_bit; [apply (land_pow2 v 5); lia|lia]. Qed.

Lemma land_0x01 v : (Z.land v 0x01 =? 0) = negb (Z.testbit v 0).
Proof. apply land_bit; [apply (land_pow2 v 0); lia|lia]. Qed.

Section Laws.
Context {D : Type} `{SerialLaws D}.
Implicit Types (s : state D).

Definition ln (s : state D) : line := line_of (dev s).

Lemma inb_run p s : inb p s = Ok (fst (sin p (dev s)), set_dev (snd (sin p (dev s))) s).
Proof. unfold inb. by destruct (sin p (dev s)). Qed.

Lemma putc_wait_run n : forall s, present (ln s) = true -> (slow (ln s) <= n)%nat ->
  exists s', putc_wait n s = Ok (tt, s') /\ ln s' = set_slow 0 (ln s) /\ uart s' = uart s /\ routed s' = routed s.
Proof.
  induction n as [|n IH]; intros s Hp Hn.
  - exists s. split_and!; try done. unfold set_slow. assert (E : slow (ln s) = 0%nat) by lia. rewrite <- E. by destruct (ln s).
  - cbn [putc_wait]. step (inb_run (COM1 + 5) s). destruct (ser_status (dev s) Hp) as (_ & _ & Hb & Hl).
    rewrite land_0x20, Hb. fold (ln s) in Hl |- *. destruct (slow (ln s)) as [|k] eqn:E; cbn [bool_decide negb].
    + exists (set_dev (snd (sin (COM1 + 5) (dev s))) s). split_and!; [done|exact Hl|done|done].
    + rewrite bool_decide_false by done. cbn [negb].
      destruct (IH (set_dev (snd (sin (COM1 + 5) (dev s))) s)) as (s' & R & Hl' & Hu & Hr).
      * unfold ln at 1. cbn [dev set_dev]. rewrite Hl. exact Hp.
      * unfold ln at 1. cbn [dev set_dev]. rewrite Hl. cbn. lia.
      * exists s'. split_and!; [exact R| |done|done]. rewrite Hl'. unfold ln at 1. cbn [dev set_dev]. by rewrite Hl.
Qed.

(** One byte on a line that is ready within 128 polls. *)
Lemma uartputc_run c s : uart s = true -> present (ln s) = true -> dlab (ln s) = false -> (limit <= 128)%nat ->
  exists s' n, uartputc c s = Ok (tt, s') /\ ln s' = send (u8 c) n (ln s) /\ uart s' = true /\ routed s' = routed s.
Proof.
  intros Hu Hp Hd Hlim. unfold uartputc. rewrite run_get, Hu. cbn [negb].
  destruct (putc_wait_run 128 s Hp) as (s1 & R & Hl & Hu1 & Hr1); [pose proof (ser_limit (dev s)); unfold ln; lia|].
  step R. destruct (ser_send (dev s1) (u8 c)) as [n Hn]; fold (ln s1); rewrite ?Hl; [done..|].
  exists (set_dev (sout (COM1 + 0) (u8 c) (dev s1)) s1), n. split_and!; [done| |by rewrite <- Hu, <- Hu1|done].
  unfold ln at 1. cbn [dev set_dev]. rewrite Hn. fold (ln s1). by rewrite Hl.
Qed.

Lemma puts_run l : forall s, uart s = true -> present (ln s) = true -> dlab (ln s) = false -> (limit <= 128)%nat ->
  exists s' n, puts l s = Ok (tt, s') /\ ln s' = mkline true (lcr (ln s)) (divisor (ln s)) (rx (ln s)) (tx (ln s) ++ map u8 l) n /\
    uart s' = true /\ routed s' = routed s.
Proof.
  induction l as [|c l IH]; intros s Hu Hp Hd Hlim.
  - exists s, (slow (ln s)). split_and!; try done. rewrite app_nil_r, <- Hp. by destruct (ln s).
  - cbn [puts map]. destruct (uartputc_run c s Hu Hp Hd Hlim) as (s1 & n1 & R & Hl & Hu1 & Hr1). step R.
    destruct (IH s1) as (s2 & n2 & R2 & Hl2 & Hu2 & Hr2); rewrite ?Hl; [done..|].
    exists s2, n2. split_and!; [done| |done|by rewrite Hr2]. rewrite Hl2, Hl. cbn [lcr divisor rx tx send]. by rewrite <- app_assoc.
Qed.

(** ** Receiving *)

Lemma uartgetc_run s : uart s = true -> present (ln s) = true -> dlab (ln s) = false ->
  match rx (ln s) with
  | [] => exists s' n, uartgetc s = Ok (-1, s') /\ ln s' = set_slow n (ln s) /\ uart s' = true
  | b :: l => exists s' n, uartgetc s = Ok (b, s') /\ ln s' = set_slow n (set_rx l (ln s)) /\ uart s' = true
  end.
Proof.
  intros Hu Hp Hd. unfold uartgetc. rewrite run_get, Hu. cbn [negb].
  step (inb_run (COM1 + 5) s). destruct (ser_status (dev s) Hp) as (_ & Hb & _ & Hl). fold (ln s) in Hb, Hl.
  rewrite land_0x01, Hb. destruct (rx (ln s)) as [|b l] eqn:E.
  - rewrite bool_decide_true by done. cbn [negb]. eexists _, _. split_and!; [done|exact Hl|done].
  - rewrite bool_decide_false by done. cbn [negb]. set (s1 := set_dev (snd (sin (COM1 + 5) (dev s))) s).
    assert (Hl1 : ln s1 = set_slow (pred (slow (ln s))) (ln s)) by exact Hl.
    rewrite inb_run. destruct (ser_data (dev s1)) as [Hl2 Hb2]; [fold (ln s1); by rewrite Hl1..|]. fold (ln s1) in Hl2, Hb2.
    exists (set_dev (snd (sin (COM1 + 0) (dev s1))) s1), (pred (slow (ln s))). split_and!.
    + f_equal. f_equal. apply Hb2. rewrite Hl1. cbn. by rewrite E.
    + unfold ln at 1. cbn [dev set_dev]. rewrite Hl2, Hl1. cbn [rx set_slow]. by rewrite E.
    + done.
Qed.

Lemma getc_all_run l : forall s fuel, rx (ln s) = l -> Forall (fun b => 0 <= b) l -> (length l <= fuel)%nat ->
  uart s = true -> present (ln s) = true -> dlab (ln s) = false ->
  exists s' n, getc_all fuel s = Ok (l, s') /\ ln s' = set_slow n (set_rx [] (ln s)) /\ uart s' = true.
Proof.
  induction l as [|b l IH]; intros s fuel E Hb Hf Hu Hp Hd; pose proof (uartgetc_run s Hu Hp Hd) as Hg; rewrite E in Hg;
    destruct Hg as (s1 & n1 & R & Hl & Hu1).
  - exists s1, n1. split_and!; [|rewrite Hl; f_equal; destruct (ln s); cbn in *; by subst|done].
    destruct fuel; cbn [getc_all]; by step R.
  - destruct fuel as [|fuel]; [cbn in Hf; lia|]. apply Forall_cons in Hb as [Hb Hbs].
    destruct (IH s1 fuel) as (s2 & n2 & R2 & Hl2 & Hu2); rewrite ?Hl; [done|done|cbn in Hf; lia|done..|].
    exists s2, n2. split_and!; [|rewrite Hl2, Hl; by destruct (ln s)|done].
    cbn [getc_all]. step R. replace (b <? 0) with false by lia. by step R2.
Qed.
(** ** Setting up the line *)

(** The device after the writes of [uartinit]. *)
Definition configured (d : D) : D :=
  sout (COM1 + 1) 1 (sout (COM1 + 4) 0 (sout (COM1 + 3) 3 (sout (COM1 + 1) 0 (sout (COM1 + 0) 12 (sout (COM1 + 3) 0x80 (sout (COM1 + 2) 0 d)))))).

Lemma configured_line d : present (line_of d) = true ->
  line_of (configured d) = mkline true 0x03 12 (rx (line_of d)) (tx (line_of d)) (slow (line_of d)).
Proof.
  intros Hp. unfold configured. set (d1 := sout (COM1 + 2) 0 d).
  assert (H1 : line_of d1 = line_of d) by (apply ser_control; auto). set (d2 := sout _ 0x80 d1).
  assert (H2 : line_of d2 = set_lcr 0x80 (line_of d)) by (rewrite <- H1; apply ser_lcr; by rewrite H1). set (d3 := sout _ 12 d2).
  assert (H3 : line_of d3 = set_divisor (256 * (divisor (line_of d) / 256) + 12) (line_of d2)).
  { unfold d3. rewrite ser_divisor_low by (rewrite H2; done). by rewrite H2. }
  set (d4 := sout _ 0 d3).
  assert (H4 : line_of d4 = set_divisor 12 (line_of d2)).
  { unfold d4. rewrite ser_divisor_high by (rewrite H3, H2; done). rewrite H3. cbn [divisor set_divisor].
    replace ((256 * (divisor (line_of d) / 256) + 12) mod 256) with 12; [by destruct (line_of d2)|].
    by rewrite Z.add_comm, Z.mul_comm, Z_mod_plus_full. }
  set (d5 := sout _ 3 d4).
  assert (H5 : line_of d5 = set_lcr 3 (line_of d4)) by (apply ser_lcr; by rewrite H4, H2). set (d6 := sout _ 0 d5).
  assert (H6 : line_of d6 = line_of d5) by (apply ser_control; [by rewrite H5, H4, H2|auto]).
  rewrite ser_control; [|by rewrite H6, H5, H4, H2|right; right; split; [done|by rewrite H6, H5]].
  rewrite H6, H5, H4, H2. destruct (line_of d). cbn in *. by subst.
Qed.

Lemma configured_absent d : present (line_of d) = false -> line_of (configured d) = line_of d.
Proof.
  intros Hp. assert (A : forall p v d', line_of d' = line_of d -> line_of (sout p v d') = line_of d).
  { intros p v d' E. rewrite ser_absent_out; [done|by rewrite E]. }
  unfold configured. by repeat apply A.
Qed.

Definition set_uart (s : state D) : state D := mkstate (dev s) true (routed s).
Definition route (r : Z * Z) (s : state D) : state D := mkstate (dev s) (uart s) (routed s ++ [r]).

Lemma uartinit_run s : (limit <= 128)%nat -> present (ln s) = true ->
  exists s' n, uartinit s = Ok (tt, s') /\ uart s' = true /\ routed s' = routed s ++ [(IRQ_COM1, 0)] /\
    ln s' = mkline true 0x03 12 (tail (rx (ln s))) (tx (ln s) ++ banner) n.
Proof.
  intros Hlim Hp. unfold uartinit. do 7 (erewrite run_bind; [|reflexivity]).
  change (set_dev _ _) with (set_dev (configured (dev s)) s). set (s7 := set_dev _ s).
  assert (H7 : ln s7 = mkline true 0x03 12 (rx (ln s)) (tx (ln s)) (slow (ln s))) by exact (configured_line (dev s) Hp).
  step (inb_run (COM1 + 5) s7). set (s8 := set_dev _ s7).
  destruct (ser_status (dev s7)) as (Hff & _ & _ & H8); [fold (ln s7); by rewrite H7|]. fold (ln s7) in H8. change (line_of _) with (ln s8) in H8.
  replace (fst (sin (COM1 + 5) (dev s7)) =? 255) with false by lia.
  erewrite run_bind; [|reflexivity]. change (mkstate _ true _) with (set_uart s8).
  step (inb_run (COM1 + 2) (set_uart s8)). set (s9 := set_dev _ (set_uart s8)).
  assert (H9 : ln s9 = ln s8) by (apply (ser_iir (dev s8)); fold (ln s8); by rewrite H8, H7).
  step (inb_run (COM1 + 0) s9). set (s10 := set_dev _ s9).
  destruct (ser_data (dev s9)) as [H10 _]; [fold (ln s9); by rewrite H9, H8, H7..|]. fold (ln s9) in H10. change (line_of _) with (ln s10) in H10.
  erewrite run_bind; [|reflexivity]. change (mkstate _ _ _) with (route (IRQ_COM1, 0) s10).
  assert (Hl : ln (route (IRQ_COM1, 0) s10) = mkline true 0x03 12 (tail (rx (ln s))) (tx (ln s)) (pred (slow (ln s)))).
  { change (ln (route _ s10)) with (ln s10). by rewrite H10, H9, H8, H7. }
  destruct (puts_run banner (route (IRQ_COM1, 0) s10)) as (s' & n & R & Hl' & Hu' & Hr'); [done|by rewrite Hl|by rewrite Hl|done|].
  exists s', n. split_and!; [done|done|by rewrite Hr'|by rewrite Hl', Hl].
Qed.

Lemma uartinit_absent s : present (ln s) = false ->
  exists s', uartinit s = Ok (tt, s') /\ uart s' = uart s /\ routed s' = routed s /\ ln s' = ln s.
Proof.
  intros Hp. unfold uartinit. do 7 (erewrite run_bind; [|reflexivity]).
  change (set_dev _ _) with (set_dev (configured (dev s)) s). set (s7 := set_dev _ s).
  assert (H7 : ln s7 = ln s) by exact (configured_absent (dev s) Hp).
  destruct (ser_absent (dev s7) (COM1 + 5)) as [Hv H8]; [fold (ln s7); by rewrite H7|].
  step (inb_run (COM1 + 5) s7). rewrite Hv. cbn [Z.eqb Pos.eqb]. eexists. split_and!; [done|done|done|]. rewrite <- H7. exact H8.
Qed.
End Laws.

(** ** The theorems *)

(** [uartinit] programs 9600 baud (the divisor of 115200), eight data bits, one
    stop bit and no parity, and sends its message and no other byte; from then on
    output arrives complete and in order when the line takes a byte within 128
    polls, and an interrupt gives the line editor of the console everything
    received, in order.  Without a port nothing is sent and no interrupt enabled. *)
Theorem uart_correct {D : Type} `{SerialLaws D} (s : state D) : (limit <= 128)%nat -> uart s = false ->
  exists s', uartinit s = Ok (tt, s') /\
    if present (ln s) then
      uart s' = true /\ routed s' = routed s ++ [(IRQ_COM1, 0)] /\
      lcr (ln s') = 0x03 /\ divisor (ln s') = 115200 / 9600 /\ tx (ln s') = tx (ln s) ++ banner /\
      (forall out, exists s'', puts out s' = Ok (tt, s'') /\ tx (ln s'') = tx (ln s') ++ map u8 out /\ rx (ln s'') = rx (ln s')) /\
      (forall c a fuel, Forall (fun b => 0 <= b) (rx (ln s')) -> (length (rx (ln s')) <= fuel)%nat -> shows c a ->
         exists b s'' c', uartintr fuel (s', c) = Ok (b, (s'', c')) /\ rx (ln s'') = [] /\ tx (ln s'') = tx (ln s') /\
           shows c' (fold_left (fun a c => key c a) (rx (ln s')) a))
    else
      ln s' = ln s /\ routed s' = routed s /\ forall out, puts out s' = Ok (tt, s').
Proof.
  intros Hlim Hu. destruct (present (ln s)) eqn:Hp.
  - destruct (uartinit_run s Hlim Hp) as (s' & n & R & Hu' & Hr' & Hl). exists s'. split; [done|].
    split_and!; [done|done|by rewrite Hl..| |].
    + intros out. destruct (puts_run out s' Hu') as (s'' & n' & R' & Hl' & _); [by rewrite Hl..|done|].
      exists s''. rewrite Hl'. done.
    + intros c a fuel Hb Hf Ha. destruct (getc_all_run (rx (ln s')) s' fuel eq_refl Hb Hf Hu') as (s'' & n' & R' & Hl' & _); [by rewrite Hl..|].
      destruct (consoleintr_run (rx (ln s')) false c a Ha) as (b & c' & Rc & Hc & _).
      exists b, s'', c'. split_and!; [|by rewrite Hl'|by rewrite Hl'|done].
      unfold uartintr. erewrite run_bind; [|unfold zoom; cbn [fst]; rewrite R'; reflexivity]. unfold zoom. cbn [fst snd]. by rewrite Rc.
  - destruct (uartinit_absent s Hp) as (s' & R & Hu' & Hr' & Hl). exists s'. split; [done|]. split_and!; [done|done|].
    intros out. induction out as [|c out IH]; [done|]. cbn [puts].
    erewrite run_bind; [exact IH|]. unfold uartputc. by rewrite run_get, Hu', Hu.
Qed.

(** ** A serial port

    A byte takes at most three polls to send. *)

Definition clip (l : line) : line := set_slow (Nat.min (slow l) 3) l.

Definition status (l : line) : Z := (if decide (rx l = []) then 0 else 1) + (if decide (slow l = 0%nat) then 0x20 else 0).

Definition sim_in (p : Z) (l : line) : Z * line :=
  if negb (present l) then (0xff, l)
  else if p =? COM1 + 5 then (status l, set_slow (pred (slow l)) l)
  else if (p =? COM1) && negb (dlab l) then (default 0 (head (rx l)), set_rx (tail (rx l)) l)
  else (0, l).

Definition sim_out (p v : Z) (l : line) : line :=
  if negb (present l) then l
  else if p =? COM1 + 3 then set_lcr v l
  else if dlab l then
    (if p =? COM1 then set_divisor (256 * (divisor l / 256) + v) l
     else if p =? COM1 + 1 then set_divisor (256 * v + divisor l mod 256) l else l)
  else if p =? COM1 then (if decide (slow l = 0%nat) then send v 3 l else l) else l.

#[export] Instance sim : Serial line := {| sin p l := sim_in p (clip l); sout p v l := sim_out p v (clip l) |}.

Lemma clip_small l : (slow l <= 3)%nat -> clip l = l.
Proof. intros H. unfold clip, set_slow. rewrite Nat.min_l by done. by destruct l. Qed.

Lemma clip_slow l : (slow (clip l) <= 3)%nat.
Proof. cbn. lia. Qed.

#[export] Program Instance sim_laws : SerialLaws line := {| line_of := clip; limit := 3 |}.
Next Obligation. intros d. apply clip_slow. Qed.
Next Obligation. intros d p Hp. cbn [sin sim]. unfold sim_in. rewrite Hp. cbn [negb fst snd]. split; [done|]. apply clip_small, clip_slow. Qed.
Next Obligation. intros d p v Hp. cbn [sout sim]. unfold sim_out. rewrite Hp. cbn [negb]. apply clip_small, clip_slow. Qed.
Next Obligation.
  intros d Hp. cbn [sin sim]. unfold sim_in. rewrite Hp. cbn [negb]. rewrite Z.eqb_refl. cbn [fst snd]. unfold status.
  pose proof (clip_slow d). split_and!; [repeat case_decide; done|repeat case_decide; by rewrite ?bool_decide_true, ?bool_decide_false by done|..].
  - repeat case_decide; by rewrite ?bool_decide_true, ?bool_decide_false by done.
  - apply clip_small. cbn [slow set_slow]. lia.
Qed.
Next Obligation. intros d Hp. cbn [sin sim]. unfold sim_in. rewrite Hp. cbn [negb]. apply clip_small, clip_slow. Qed.
Next Obligation.
  intros d Hp Hd. cbn [sin sim]. unfold sim_in. rewrite Hp, Hd. change (COM1 + 0 =? COM1 + 5) with false. change (COM1 + 0 =? COM1) with true.
  cbn [negb andb fst snd]. split; [apply clip_small, (clip_slow d)|]. intros b Hb. by rewrite Hb.
Qed.
Next Obligation.
  intros d v Hp Hd Hs. cbn [sout sim]. unfold sim_out. rewrite Hp, Hd, Hs. exists 3%nat. apply clip_small. cbn. lia.
Qed.
Next Obligation. intros d v Hp Hd. cbn [sout sim]. unfold sim_out. rewrite Hp, Hd. apply clip_small, (clip_slow d). Qed.
Next Obligation. intros d v Hp Hd. cbn [sout sim]. unfold sim_out. rewrite Hp, Hd. apply clip_small, (clip_slow d). Qed.
Next Obligation. intros d v Hp. cbn [sout sim]. unfold sim_out. rewrite Hp. apply clip_small, (clip_slow d). Qed.
Next Obligation.
  intros d p v Hp Hc. cbn [sout sim]. unfold sim_out. rewrite Hp. cbn [negb].
  destruct Hc as [->|[->|[-> Hd]]]; [|..]; try (rewrite Hd); cbn -[clip dlab]; try destruct (dlab (clip d)); apply clip_small, (clip_slow d).
Qed.

Definition ex_port : state line := mkstate (mkline true 0 1 [97; 98] [] 2) false [].

Lemma uart_correct_witness : exists s', uartinit ex_port = Ok (tt, s') /\ tx (ln s') = [] ++ banner /\ routed s' = [(IRQ_COM1, 0)].
Proof.
  destruct (uart_correct ex_port) as (s' & R & H); [cbn; lia|reflexivity|]. exists s'. destruct H as (_ & Hr & _ & _ & Ht & _).
  split_and!; [exact R|exact Ht|exact Hr].
Defined.

End Uart.
