(* ===== verification/Apic.v ===== *)
(** * Interrupt controllers (drivers/apic/ioapic.c, drivers/apic/lapic.c,
      drivers/pic/picirq.c, drivers/timer/timer.cc)

    The I/O APIC routes the interrupts of the devices to processors; the local
    APIC of a processor has its timer and sends interrupts to other processors.
    Both are hardware and parameters: [IoApic] and [Lapic] have the accesses to
    their registers, and the classes with their laws what the code relies on.  The
    theorems: the interrupts that are enabled after the boot sequence are those
    for which [trap] has a handler; [lapicinit] and [lapicstartap] leave the
    registers and send the messages that they mean to; on a processor with the
    TSC-deadline mode the timer is never programmed. *)

From Stdlib Require Import ZArith Lia.
From stdpp Require Import base numbers strings list gmap.
From S2P Require Import Prelude Mmu Mem Kalloc Spin Proc Trap.

Open Scope Z_scope.

Import Mmu Mem Trap.

Module Apic.

Definition IRQ_ERROR : Z := 19.

(** ** The I/O APIC *)

Definition REG_ID : Z := 0.
Definition REG_VER : Z := 1.
Definition REG_TABLE : Z := 0x10.
Definition INT_DISABLED : Z := 0x10000.

(** The two words of the device: the number of a register, and its contents. *)
Class IoApic (D : Type) := { io_select : Z -> D -> D; io_read : D -> Z; io_write : Z -> D -> D }.

(** [io_sel] is the selected register and [io_regs] the contents of the table with
    two registers for each of the [entries] interrupts. *)
Class IoApicLaws (D : Type) `{IoApic D} := {
  entries : Z;
  io_sel : D -> Z;
  io_regs : D -> Z -> Z;
  io_entries : 1 <= entries <= 120;
  io_select_sel d r : 0 <= r < 256 -> io_sel (io_select r d) = r;
  io_select_regs d r : io_regs (io_select r d) = io_regs d;
  io_version d : io_sel d = REG_VER -> Z.land (Z.shiftr (io_read d) 16) 0xff = entries - 1;
  io_write_regs d v r : REG_TABLE <= io_sel d < REG_TABLE + 2 * entries ->
    io_regs (io_write v d) r = if r =? io_sel d then v else io_regs d r }.

Section IoCode.
Context {D : Type} `{!IoApic D}.

Definition ioapicread (reg : Z) : ST D Z := modify (io_select reg);; d ← get; mret (io_read d).
Definition ioapicwrite (reg data : Z) : ST D unit := modify (io_select reg);; modify (io_write data).

(** [n] more interrupts from [i] on. *)
Fixpoint ioapicinit_loop (n : nat) (i : Z) : ST D unit :=
  match n with
  | O => mret tt
  | S n =>
      ioapicwrite (REG_TABLE + 2 * i) (Z.lor INT_DISABLED (T_IRQ0 + i));;
      ioapicwrite (REG_TABLE + 2 * i + 1) 0;;
      ioapicinit_loop n (i + 1)
  end.

(** Whether the message about a wrong [ioapicid] is printed. *)
Definition ioapicinit (ioapicid : Z) : ST D bool :=
  v ← ioapicread REG_VER;
  let maxintr := Z.land (Z.shiftr v 16) 0xff in
  id ← ioapicread REG_ID;
  ioapicinit_loop (Z.to_nat (maxintr + 1)) 0;;
  mret (negb (Z.shiftr id 24 =? ioapicid)).

Definition ioapicenable (irq cpunum : Z) : ST D unit :=
  ioapicwrite (REG_TABLE + 2 * irq) (T_IRQ0 + irq);;
  ioapicwrite (REG_TABLE + 2 * irq + 1) (u32 (Z.shiftl cpunum 24)).

(** The calls in the order of [main]: [ioapicinit], [consoleinit], [uartinit] when
    there is a serial port, and [ideinit]. *)
Definition boot_interrupts (ioapicid ncpu : Z) (uart : bool) : ST D bool :=
  w ← ioapicinit ioapicid;
  ioapicenable IRQ_KBD 0;;
  (if uart then ioapicenable IRQ_COM1 0 else mret tt);;
  ioapicenable IRQ_IDE (ncpu - 1);;
  mret w.
End IoCode.

Section IoLaws.
Context {D : Type} `{IoApicLaws D}.

(** The two registers of interrupt [i]. *)
Definition redirection (d : D) (i : Z) : Z * Z := (io_regs d (REG_TABLE + 2 * i), io_regs d (REG_TABLE + 2 * i + 1)).

Definition masked (v : Z) : bool := Z.testbit v 16.
Definition vector (v : Z) : Z := v mod 256.

Lemma ioapicwrite_run reg v d : REG_TABLE <= reg < REG_TABLE + 2 * entries ->
  exists d', ioapicwrite reg v d = Ok (tt, d') /\ forall r, io_regs d' r = if r =? reg then v else io_regs d r.
Proof.
  intros Hr. pose proof io_entries. exists (io_write v (io_select reg d)). split; [done|]. intros r.
  assert (Hs : io_sel (io_select reg d) = reg) by (apply io_select_sel; unfold REG_TABLE in *; lia).
  by rewrite io_write_regs, Hs, io_select_regs by (rewrite Hs; done).
Qed.

(** Setting both registers of one interrupt. *)
Lemma redirect_run i lo hi d : 0 <= i < entries ->
  exists d', (ioapicwrite (REG_TABLE + 2 * i) lo;; ioapicwrite (REG_TABLE + 2 * i + 1) hi) d = Ok (tt, d') /\
    forall j, redirection d' j = if j =? i then (lo, hi) else redirection d j.
Proof.
  intros Hi. destruct (ioapicwrite_run (REG_TABLE + 2 * i) lo d ltac:(lia)) as (d1 & R1 & H1).
  destruct (ioapicwrite_run (REG_TABLE + 2 * i + 1) hi d1 ltac:(lia)) as (d2 & R2 & H2).
  exists d2. split; [by step R1|]. intros j. unfold redirection. rewrite !H2, !H1.
  destruct (Z.eqb_spec j i) as [->|Hj].
  - rewrite !Z.eqb_refl. by replace (REG_TABLE + 2 * i =? REG_TABLE + 2 * i + 1) with false by lia.
  - replace (REG_TABLE + 2 * j =? REG_TABLE + 2 * i + 1) with false by lia. replace (REG_TABLE + 2 * j =? REG_TABLE + 2 * i) with false by lia.
    replace (REG_TABLE + 2 * j + 1 =? REG_TABLE + 2 * i + 1) with false by lia. by replace (REG_TABLE + 2 * j + 1 =? REG_TABLE + 2 * i) with false by lia.
Qed.

Lemma ioapicenable_run irq cpunum d : 0 <= irq < entries ->
  exists d', ioapicenable irq cpunum d = Ok (tt, d') /\
    forall j, redirection d' j = if j =? irq then (T_IRQ0 + irq, u32 (Z.shiftl cpunum 24)) else redirection d j.
Proof. apply redirect_run. Qed.

Definition disabled (i : Z) : Z * Z := (Z.lor INT_DISABLED (T_IRQ0 + i), 0).

Lemma ioapicinit_loop_run n : forall i d, 0 <= i -> i + Z.of_nat n <= entries ->
  exists d', ioapicinit_loop n i d = Ok (tt, d') /\
    forall j, redirection d' j = if decide (i <= j < i + Z.of_nat n) then disabled j else redirection d j.
Proof.
  induction n as [|n IH]; intros i d Hi Hn.
  - exists d. split; [done|]. intros j. by rewrite decide_False by lia.
  - destruct (redirect_run i (Z.lor INT_DISABLED (T_IRQ0 + i)) 0 d ltac:(lia)) as (d1 & R1 & H1).
    destruct (IH (i + 1) d1 ltac:(lia) ltac:(lia)) as (d2 & R2 & H2). exists d2. split.
    + cbn [ioapicinit_loop]. apply bind_Ok in R1 as (u & d0 & Ra & Rb). step Ra. step Rb. exact R2.
    + intros j. rewrite H2, H1. destruct (Z.eqb_spec j i) as [->|Hj]; repeat case_decide; done || lia.
Qed.

Lemma ioapicinit_run ioapicid d : exists w d', ioapicinit ioapicid d = Ok (w, d') /\
  forall j, 0 <= j < entries -> redirection d' j = disabled j.
Proof.
  unfold ioapicinit. pose proof io_entries. erewrite run_bind; [|reflexivity]. erewrite run_bind; [|reflexivity].
  rewrite (io_version (io_select REG_VER d)) by (by apply io_select_sel).
  destruct (ioapicinit_loop_run (Z.to_nat (entries - 1 + 1)) 0 (io_select REG_ID (io_select REG_VER d)) ltac:(lia) ltac:(lia)) as (d' & R & Hd).
  eexists _, d'. step R. split; [done|]. intros j Hj. rewrite Hd. by rewrite decide_True by lia.
Qed.

Lemma disabled_masked i : 0 <= i < 224 -> masked (fst (disabled i)) = true.
Proof. intros Hi. unfold masked, disabled. cbn [fst]. by rewrite Z.lor_spec. Qed.

Lemma enabled_vector i : 0 <= i < 224 -> masked (T_IRQ0 + i) = false /\ vector (T_IRQ0 + i) = T_IRQ0 + i.
Proof.
  intros Hi. unfold masked, vector, T_IRQ0. split; [|apply Z.mod_small; lia].
  rewrite <- (Z.mod_small (32 + i) (2 ^ 8)) by lia. apply Z.mod_pow2_bits_high. lia.
Qed.

(** The interrupts that are enabled in the end. *)
Lemma boot_interrupts_run ioapicid ncpu uart d : 15 <= entries ->
  exists w d', boot_interrupts ioapicid ncpu uart d = Ok (w, d') /\
    forall i, 0 <= i < entries -> redirection d' i =
      if i =? IRQ_IDE then (T_IRQ0 + i, u32 (Z.shiftl (ncpu - 1) 24))
      else if (i =? IRQ_KBD) || (i =? IRQ_COM1) && uart then (T_IRQ0 + i, 0) else disabled i.
Proof.
  intros He. unfold boot_interrupts. destruct (ioapicinit_run ioapicid d) as (w & d1 & R1 & H1). step R1.
  destruct (ioapicenable_run IRQ_KBD 0 d1) as (d2 & R2 & H2); [unfold IRQ_KBD; lia|]. step R2.
  assert (exists d3, (if uart then ioapicenable IRQ_COM1 0 else mret tt) d2 = Ok (tt, d3) /\
    forall j, redirection d3 j = if (j =? IRQ_COM1) && uart then (T_IRQ0 + IRQ_COM1, 0) else redirection d2 j) as (d3 & R3 & H3).
  { destruct uart.
    - destruct (ioapicenable_run IRQ_COM1 0 d2) as (d3 & R3 & H3); [unfold IRQ_COM1; lia|]. exists d3. split; [done|].
      intros j. rewrite H3. by rewrite andb_true_r.
    - exists d2. split; [done|]. intros j. by rewrite andb_false_r. }
  step R3. destruct (ioapicenable_run IRQ_IDE (ncpu - 1) d3) as (d4 & R4 & H4); [unfold IRQ_IDE; lia|]. step R4.
  exists w, d4. split; [done|]. intros i Hi. rewrite H4, H3, H2.
  destruct (Z.eqb_spec i IRQ_IDE) as [->|_]; [done|].
  destruct (Z.eqb_spec i IRQ_KBD) as [->|_]; [by destruct uart|].
  destruct (Z.eqb_spec i IRQ_COM1) as [->|_]; [|by apply H1]. destruct uart; [done|by apply H1].
Qed.
End IoLaws.

(** After the boot sequence exactly the interrupts of the keyboard, of the disk
    and, when there is one, of the serial port are enabled, the disk's on the
    last processor and the others on the first; and for the vector under which the
    I/O APIC delivers each of them, [trap] runs the handler of that device. *)
Theorem boot_interrupts_handled {D : Type} `{IoApicLaws D} (ioapicid ncpu : Z) (uart : bool) (d : D) :
  15 <= entries -> 1 <= ncpu <= 8 ->
  exists w d', boot_interrupts ioapicid ncpu uart d = Ok (w, d') /\
    forall i, 0 <= i < entries ->
      (masked (fst (redirection d' i)) = false <-> i = IRQ_KBD \/ i = IRQ_IDE \/ i = IRQ_COM1 /\ uart = true) /\
      (masked (fst (redirection d' i)) = false ->
        Z.shiftr (snd (redirection d' i)) 24 = (if i =? IRQ_IDE then ncpu - 1 else 0) /\
        forall (A : Type) (lapicid : Z -> Z) (c ticks : Z) (ideintr kbdintr uartintr : ST (Proc.state A) unit) (t : Proc.trapframe),
          Proc.tf_trapno t = vector (fst (redirection d' i)) ->
          trap_switch lapicid c ideintr kbdintr uartintr ticks t =
          ((if i =? IRQ_IDE then ideintr else if i =? IRQ_KBD then kbdintr else uartintr);; mret ticks)).
Proof.
  intros He Hn. destruct (boot_interrupts_run ioapicid ncpu uart d He) as (w & d' & R & Hd). exists w, d'. split; [done|].
  pose proof io_entries as Hio. intros i Hi. rewrite (Hd i Hi).
  destruct (enabled_vector i ltac:(lia)) as [Hm Hv].
  assert (Hdest : Z.shiftr (u32 (Z.shiftl (ncpu - 1) 24)) 24 = ncpu - 1).
  { rewrite Z.shiftl_mul_pow2, Z.shiftr_div_pow2, u32_small by lia. apply Z.div_mul. lia. }
  destruct (Z.eqb_spec i IRQ_IDE) as [->|H1].
  { cbn [fst snd]. rewrite Hm, Hv, Hdest. split; [tauto|]. intros _. split; [done|]. intros A l c ticks x y z t Ht.
    unfold trap_switch. by rewrite Ht. }
  destruct (Z.eqb_spec i IRQ_KBD) as [->|H2]; cbn [orb].
  { cbn [fst snd]. rewrite Hm, Hv. split; [tauto|]. intros _. split; [done|]. intros A l c ticks x y z t Ht.
    unfold trap_switch. by rewrite Ht. }
  destruct (Z.eqb_spec i IRQ_COM1) as [->|H3]; [destruct uart|]; cbn [andb].
  - cbn [fst snd]. rewrite Hm, Hv. split; [tauto|]. intros _. split; [done|]. intros A l c ticks x y z t Ht.
    unfold trap_switch. by rewrite Ht.
  - rewrite disabled_masked by lia. split; [|discriminate]. split; [discriminate|]. intros [E|[E|[_ E]]]; discriminate E.
  - rewrite disabled_masked by lia. split; [|discriminate]. split; [discriminate|tauto].
Qed.

(** An I/O APIC with 24 interrupts. *)
#[export] Instance io_sim : IoApic (Z * (Z -> Z)) := {|
  io_select r d := (r, snd d);
  io_read d := if fst d =? REG_VER then 0x170011 else if fst d =? REG_ID then 0 else snd d (fst d);
  io_write v d := (fst d, fun r => if r =? fst d then v else snd d r) |}.

#[export] Program Instance io_sim_laws : IoApicLaws (Z * (Z -> Z)) := {| entries := 24; io_sel := fst; io_regs := snd |}.
Next Obligation. lia. Qed.
Next Obligation. done. Qed.
Next Obligation. done. Qed.
Next Obligation. intros [r f] E. cbn in *. by subst. Qed.
Next Obligation. done. Qed.

Lemma boot_interrupts_handled_witness :
  exists w d', boot_interrupts 0 2 true (0, fun _ => 0) = Ok (w, d') /\
    masked (fst (redirection d' 4)) = false /\ masked (fst (redirection d' 5)) = true /\ Z.shiftr (snd (redirection d' 14)) 24 = 1.
Proof.
  destruct (boot_interrupts_handled 0 2 true (0, fun _ : Z => 0)) as (w & d' & R & H); [cbn; lia|lia|]. exists w, d'.
  split; [exact R|]. split_and!.
  - apply (proj2 (proj1 (H 4 ltac:(cbn; lia)))). right. right. split; reflexivity.
  - apply not_false_iff_true. intros E. apply (proj1 (proj1 (H 5 ltac:(cbn; lia)))) in E. destruct E as [E|[E|[E _]]]; discriminate E.
  - apply (proj2 (H 14 ltac:(cbn; lia))). apply (proj2 (proj1 (H 14 ltac:(cbn; lia)))). right. left. reflexivity.
Defined.

(** ** The local APIC *)

Definition ID : Z := 0x0020 / 4.
Definition VER : Z := 0x0030 / 4.
Definition TPR : Z := 0x0080 / 4.
Definition EOI : Z := 0x00b0 / 4.
Definition SVR : Z := 0x00f0 / 4.
Definition ESR : Z := 0x0280 / 4.
Definition ICRLO : Z := 0x0300 / 4.
Definition ICRHI : Z := 0x0310 / 4.
Definition TIMER : Z := 0x0320 / 4.
Definition PCINT : Z := 0x0340 / 4.
Definition LINT0 : Z := 0x0350 / 4.
Definition LINT1 : Z := 0x0360 / 4.
Definition ERROR : Z := 0x0370 / 4.
Definition TICR : Z := 0x0380 / 4.
Definition TDCR : Z := 0x03e0 / 4.

Definition ENABLE : Z := 0x100.
Definition INIT : Z := 0x500.
Definition STARTUP : Z := 0x600.
Definition DELIVS : Z := 0x1000.
Definition ASSERT : Z := 0x4000.
Definition LEVEL : Z := 0x8000.
Definition BCAST : Z := 0x80000.
Definition MASKED : Z := 0x10000.

(** [DIVISION::X1] and [TIMER_MODE::PERIODIC]. *)
Definition X1 : Z := 11.
Definition PERIODIC : Z := 0x20000.

Class Lapic (D : Type) := { lread : Z -> D -> Z * D; lwrite : Z -> Z -> D -> D }.

(** Its registers, for how many more reads a message is on its way, and the messages
    sent: the two words of the interrupt command. *)
Record apic := mkapic { regs : Z -> Z; sending : nat; ipis : list (Z * Z) }.

Definition set_reg (r v : Z) (a : apic) : apic := mkapic (fun r' => if r' =? r then v else regs a r') (sending a) (ipis a).
Definition set_sending (n : nat) (a : apic) : apic := mkapic (regs a) n (ipis a).

(** Registers that hold what is written to them. *)
Definition plain (r : Z) : Prop := r ∈ [TPR; SVR; ICRHI; TIMER; PCINT; LINT0; LINT1; ERROR; TICR; TDCR].

Class LapicLaws (D : Type) `{Lapic D} := {
  obs : D -> apic;
  send_limit : nat;
  la_limit d : (sending (obs d) <= send_limit)%nat;
  la_read d r : r <> ICRLO -> obs (snd (lread r d)) = obs d;
  la_version d : fst (lread VER d) = regs (obs d) VER;
  la_busy d n : sending (obs d) = S n -> Z.land (fst (lread ICRLO d)) DELIVS <> 0 /\ obs (snd (lread ICRLO d)) = set_sending n (obs d);
  la_idle d : sending (obs d) = 0%nat -> Z.land (fst (lread ICRLO d)) DELIVS = 0 /\ obs (snd (lread ICRLO d)) = obs d;
  la_write d r v : plain r -> obs (lwrite r v d) = set_reg r v (obs d);
  la_signal d r v : r = EOI \/ r = ESR -> obs (lwrite r v d) = obs d;
  la_send d v : exists n, obs (lwrite ICRLO v d) = mkapic (regs (obs d)) n (ipis (obs d) ++ [(regs (obs d) ICRHI, v)]) }.

Section LapicCode.
Context {D : Type} `{!Lapic D}.

(** The variable [lapic], the device, the bytes written to the ports of the CMOS, and the memory. *)
Record lstate := mklstate { lapic : Z; ldev : D; cmos : list (Z * Z); kmem : mem }.

Definition set_ldev (d : D) (s : lstate) : lstate := mklstate (lapic s) d (cmos s) (kmem s).
Definition set_kmem (m : mem) (s : lstate) : lstate := mklstate (lapic s) (ldev s) (cmos s) m.
Definition lget (r : Z) : ST lstate Z := fun s => let '(v, d) := lread r (ldev s) in Ok (v, set_ldev d s).
Definition outb_cmos (port v : Z) : ST lstate unit :=
  modify (fun s => mklstate (lapic s) (ldev s) (cmos s ++ [(port, u8 v)]) (kmem s)).

Definition lapicw (index value : Z) : ST lstate unit :=
  modify (fun s => set_ldev (lwrite index (u32 value) (ldev s)) s);; lget ID;; mret tt.

Definition init_periodic : ST lstate unit :=
  lapicw TDCR X1;;
  lapicw TIMER (Z.lor PERIODIC (T_IRQ0 + IRQ_TIMER));;
  lapicw TICR 10000000.

(** Nothing is implemented. *)
Definition init_tsc_deadline : ST lstate unit := mret tt.

(** Bit 24 of the register [ecx] after [cpuid] 1. *)
Definition tsc_deadline_support (ecx : Z) : bool := negb (Z.land ecx (Z.shiftl 1 24) =? 0).

Definition lapictimer_init (ecx : Z) : ST lstate unit :=
  if tsc_deadline_support ecx then init_tsc_deadline else init_periodic.

(** [while(lapic[ICRLO] & DELIVS);] *)
Fixpoint icr_wait (fuel : nat) : ST lstate unit :=
  v ← lget ICRLO;
  if Z.land v DELIVS =? 0 then mret tt else match fuel with O => out_of_fuel | S f => icr_wait f end.

Definition lapicinit (ecx : Z) (spin : nat) : ST lstate unit :=
  s ← get;
  if lapic s =? 0 then mret tt
  else
    lapicw SVR (Z.lor ENABLE (T_IRQ0 + IRQ_SPURIOUS));;
    lapictimer_init ecx;;
    lapicw LINT0 MASKED;;
    lapicw LINT1 MASKED;;
    v ← lget VER;
    (if 4 <=? Z.land (Z.shiftr v 16) 0xff then lapicw PCINT MASKED else mret tt);;
    lapicw ERROR (T_IRQ0 + IRQ_ERROR);;
    lapicw ESR 0;;
    lapicw ESR 0;;
    lapicw EOI 0;;
    lapicw ICRHI 0;;
    lapicw ICRLO (Z.lor (Z.lor BCAST INIT) LEVEL);;
    icr_wait spin;;
    lapicw TPR 0.

Definition lapicid : ST lstate Z :=
  s ← get;
  if lapic s =? 0 then mret 0 else v ← lget ID; mret (Z.shiftr v 24).

Definition lapiceoi : ST lstate unit :=
  s ← get;
  if negb (lapic s =? 0) then lapicw EOI 0 else mret tt.

Definition store16 (a v : Z) (m : mem) : mem := store8 (a + 1) (Z.shiftr v 8) (store8 a v m).

(** The rounds of the loop that sends the startup message. *)
Fixpoint startup_loop (n : nat) (apicid addr : Z) : ST lstate unit :=
  match n with
  | O => mret tt
  | S n =>
      lapicw ICRHI (Z.shiftl apicid 24);;
      lapicw ICRLO (Z.lor STARTUP (Z.shiftr addr 12));;
      startup_loop n apicid addr
  end.

Definition lapicstartap (apicid addr : Z) : ST lstate unit :=
  outb_cmos 0x70 0xf;;
  outb_cmos (0x70 + 1) 0x0a;;
  let wrv := P2V (Z.lor (Z.shiftl 0x40 4) 0x67) in
  modify (fun s => set_kmem (store16 wrv 0 (kmem s)) s);;
  modify (fun s => set_kmem (store16 (wrv + 2) (u16 (Z.shiftr addr 4)) (kmem s)) s);;
  lapicw ICRHI (Z.shiftl apicid 24);;
  lapicw ICRLO (Z.lor (Z.lor INIT LEVEL) ASSERT);;
  lapicw ICRLO (Z.lor INIT LEVEL);;
  startup_loop 2 apicid addr.

(** [picinit]: every interrupt of both old controllers is masked. *)
Definition picinit : list (Z * Z) := [(0x20 + 1, 0xff); (0xa0 + 1, 0xff)].
End LapicCode.

Arguments lstate : clear implicits.

Section LapicThm.
Context {D : Type} `{LapicLaws D}.
Implicit Types (s : lstate D).

Definition ob (s : lstate D) : apic := obs (ldev s).

(** All but the device is as before. *)
Definition same (s s' : lstate D) : Prop := lapic s' = lapic s /\ cmos s' = cmos s /\ kmem s' = kmem s.

Lemma lget_run r s : lget r s = Ok (fst (lread r (ldev s)), set_ldev (snd (lread r (ldev s))) s).
Proof. unfold lget. by destruct (lread r (ldev s)). Qed.

(** A write and the read after it; [a] is what the write makes of the device. *)
Lemma lapicw_run r v s a : obs (lwrite r (u32 v) (ldev s)) = a -> exists s', lapicw r v s = Ok (tt, s') /\ ob s' = a /\ same s s'.
Proof.
  intros Ha. set (s1 := set_ldev (lwrite r (u32 v) (ldev s)) s).
  exists (set_ldev (snd (lread ID (ldev s1))) s1). split_and!; [|unfold ob; cbn [ldev set_ldev]; by rewrite la_read|done].
  unfold lapicw. erewrite run_bind; [|reflexivity]. fold s1. by step (lget_run ID s1).
Qed.

Lemma lapicw_plain r v s : plain r -> exists s', lapicw r v s = Ok (tt, s') /\ ob s' = set_reg r (u32 v) (ob s) /\ same s s'.
Proof. intros Hr. apply lapicw_run. by apply la_write. Qed.

Lemma lapicw_signal r v s : r = EOI \/ r = ESR -> exists s', lapicw r v s = Ok (tt, s') /\ ob s' = ob s /\ same s s'.
Proof. intros Hr. apply lapicw_run. by apply la_signal. Qed.

Lemma lapicw_send v s : exists s' n, lapicw ICRLO v s = Ok (tt, s') /\
  ob s' = mkapic (regs (ob s)) n (ipis (ob s) ++ [(regs (ob s) ICRHI, u32 v)]) /\ same s s'.
Proof. destruct (la_send (ldev s) (u32 v)) as [n Hn]. destruct (lapicw_run ICRLO v s _ Hn) as (s' & R & Ho & Hs). by exists s', n. Qed.

Lemma same_trans s1 s2 s3 : same s1 s2 -> same s2 s3 -> same s1 s3.
Proof. unfold same. intuition congruence. Qed.

(** Waiting for the message to be delivered. *)
Lemma icr_wait_run fuel : forall s, (sending (ob s) <= fuel)%nat ->
  exists s', icr_wait fuel s = Ok (tt, s') /\ ob s' = set_sending 0 (ob s) /\ same s s'.
Proof.
  induction fuel as [|fuel IH]; intros s Hs; cbn [icr_wait]; step (lget_run ICRLO s); destruct (sending (ob s)) as [|n] eqn:E; try lia.
  1, 2: destruct (la_idle (ldev s) E) as [-> Ho]; cbn [Z.eqb]; eexists; split_and!; [done| |done];
    unfold ob at 1; cbn [ldev set_ldev]; rewrite Ho; unfold set_sending; fold (ob s); rewrite <- E; by destruct (ob s).
  destruct (la_busy (ldev s) n E) as [Hb Ho]. apply Z.eqb_neq in Hb. rewrite Hb.
  destruct (IH (set_ldev (snd (lread ICRLO (ldev s))) s)) as (s' & R & Ho' & Hs'); [unfold ob; cbn [ldev set_ldev]; rewrite Ho; cbn; lia|].
  exists s'. split_and!; [done| |done]. rewrite Ho'. unfold ob at 1. cbn [ldev set_ldev]. by rewrite Ho.
Qed.

(** The registers of the timer. *)
Definition timer_regs (a : apic) : Z * Z * Z := (regs a TDCR, regs a TIMER, regs a TICR).

Lemma lapictimer_init_run ecx s : exists s', lapictimer_init ecx s = Ok (tt, s') /\ same s s' /\
  ob s' = if tsc_deadline_support ecx then ob s
          else set_reg TICR 10000000 (set_reg TIMER (Z.lor PERIODIC (T_IRQ0 + IRQ_TIMER)) (set_reg TDCR X1 (ob s))).
Proof.
  unfold lapictimer_init. destruct (tsc_deadline_support ecx); [by exists s|]. unfold init_periodic.
  destruct (lapicw_plain TDCR X1 s) as (s1 & R1 & O1 & S1); [unfold plain; set_solver|]. step R1.
  destruct (lapicw_plain TIMER (Z.lor PERIODIC (T_IRQ0 + IRQ_TIMER)) s1) as (s2 & R2 & O2 & S2); [unfold plain; set_solver|]. step R2.
  destruct (lapicw_plain TICR 10000000 s2) as (s3 & R3 & O3 & S3); [unfold plain; set_solver|].
  exists s3. split_and!; [done|eauto using same_trans|]. by rewrite O3, O2, O1.
Qed.

(** Everything after the timer. *)
Definition lapicinit_rest (spin : nat) : ST (lstate D) unit :=
  lapicw ERROR (T_IRQ0 + IRQ_ERROR);; lapicw ESR 0;; lapicw ESR 0;; lapicw EOI 0;; lapicw ICRHI 0;;
  lapicw ICRLO (Z.lor (Z.lor BCAST INIT) LEVEL);; icr_wait spin;; lapicw TPR 0.

Lemma lapicinit_rest_run spin s : (send_limit <= spin)%nat -> exists s', lapicinit_rest spin s = Ok (tt, s') /\ same s s' /\
  ob s' = set_reg TPR 0 (mkapic (regs (set_reg ICRHI 0 (set_reg ERROR (T_IRQ0 + IRQ_ERROR) (ob s)))) 0 (ipis (ob s) ++ [(0, 0x88500)])).
Proof.
  intros Hlim. unfold lapicinit_rest.
  destruct (lapicw_plain ERROR (T_IRQ0 + IRQ_ERROR) s) as (s1 & R1 & O1 & S1); [unfold plain; set_solver|]. step R1.
  destruct (lapicw_signal ESR 0 s1) as (s2 & R2 & O2 & S2); [auto|]. step R2.
  destruct (lapicw_signal ESR 0 s2) as (s3 & R3 & O3 & S3); [auto|]. step R3.
  destruct (lapicw_signal EOI 0 s3) as (s4 & R4 & O4 & S4); [auto|]. step R4.
  destruct (lapicw_plain ICRHI 0 s4) as (s5 & R5 & O5 & S5); [unfold plain; set_solver|]. step R5.
  destruct (lapicw_send (Z.lor (Z.lor BCAST INIT) LEVEL) s5) as (s6 & n & R6 & O6 & S6). step R6.
  destruct (icr_wait_run spin s6) as (s7 & R7 & O7 & S7); [pose proof (la_limit (ldev s6)); unfold ob; lia|]. step R7.
  destruct (lapicw_plain TPR 0 s7) as (s8 & R8 & O8 & S8); [unfold plain; set_solver|].
  exists s8. split_and!; [done|eauto 10 using same_trans|]. by rewrite O8, O7, O6, O5, O4, O3, O2, O1.
Qed.

Lemma lapicinit_run ecx spin s : (send_limit <= spin)%nat -> lapic s <> 0 -> exists s', lapicinit ecx spin s = Ok (tt, s') /\ same s s' /\
  regs (ob s') SVR = Z.lor ENABLE (T_IRQ0 + IRQ_SPURIOUS) /\ regs (ob s') LINT0 = MASKED /\ regs (ob s') LINT1 = MASKED /\
  regs (ob s') ERROR = T_IRQ0 + IRQ_ERROR /\ regs (ob s') TPR = 0 /\
  ipis (ob s') = ipis (ob s) ++ [(0, Z.lor (Z.lor BCAST INIT) LEVEL)] /\ sending (ob s') = 0%nat /\
  timer_regs (ob s') = if tsc_deadline_support ecx then timer_regs (ob s) else (X1, Z.lor PERIODIC (T_IRQ0 + IRQ_TIMER), 10000000).
Proof.
  intros Hlim Hl. unfold lapicinit. rewrite run_get. apply Z.eqb_neq in Hl as Hl'. rewrite Hl'.
  destruct (lapicw_plain SVR (Z.lor ENABLE (T_IRQ0 + IRQ_SPURIOUS)) s) as (s1 & R1 & O1 & S1); [unfold plain; set_solver|]. step R1.
  destruct (lapictimer_init_run ecx s1) as (s2 & R2 & S2 & O2). step R2.
  destruct (lapicw_plain LINT0 MASKED s2) as (s3 & R3 & O3 & S3); [unfold plain; set_solver|]. step R3.
  destruct (lapicw_plain LINT1 MASKED s3) as (s4 & R4 & O4 & S4); [unfold plain; set_solver|]. step R4.
  step (lget_run VER s4). set (s5 := set_ldev _ s4). assert (O5 : ob s5 = ob s4) by (by apply la_read).
  assert (exists s6, (if 4 <=? Z.land (Z.shiftr (fst (lread VER (ldev s4))) 16) 255 then lapicw PCINT MASKED else mret tt) s5 = Ok (tt, s6) /\
    same s5 s6 /\ (ob s6 = ob s5 \/ ob s6 = set_reg PCINT MASKED (ob s5))) as (s6 & R6 & S6 & O6).
  { destruct (4 <=? _); [|exists s5; split_and!; [done..|by left]].
    destruct (lapicw_plain PCINT MASKED s5) as (s6 & R6 & O6 & S6); [unfold plain; set_solver|]. exists s6. split_and!; [done..|by right]. }
  step R6. destruct (lapicinit_rest_run spin s6 Hlim) as (s7 & R7 & S7 & O7).
  exists s7. split; [exact R7|]. split; [assert (same s4 s5) by done; eauto 10 using same_trans|].
  unfold timer_regs. destruct O6 as [O6|O6]; rewrite O7, O6, O5, O4, O3, O2, O1; destruct (tsc_deadline_support ecx); split_and!; reflexivity.
Qed.

(** The messages of the universal startup algorithm. *)
Definition startup_messages (apicid addr : Z) : list (Z * Z) :=
  let dest := u32 (Z.shiftl apicid 24) in
  [(dest, Z.lor (Z.lor INIT LEVEL) ASSERT); (dest, Z.lor INIT LEVEL);
   (dest, u32 (Z.lor STARTUP (Z.shiftr addr 12))); (dest, u32 (Z.lor STARTUP (Z.shiftr addr 12)))].

(** The address of the warm reset vector, and the memory with [addr] in it. *)
Definition WRV : Z := 0x80000467.
Definition wrv_set (addr : Z) (m : mem) : mem := store16 (WRV + 2) (u16 (Z.shiftr addr 4)) (store16 WRV 0 m).

Lemma lapicstartap_run apicid addr s : exists s', lapicstartap apicid addr s = Ok (tt, s') /\
  lapic s' = lapic s /\ cmos s' = cmos s ++ [(0x70, 0xf); (0x71, 0x0a)] /\ kmem s' = wrv_set addr (kmem s) /\
  ipis (ob s') = ipis (ob s) ++ startup_messages apicid addr.
Proof.
  unfold lapicstartap. do 4 (erewrite run_bind; [|reflexivity]). match goal with |- exists s', _ ?x = _ /\ _ => set (s0 := x) end.
  destruct (lapicw_plain ICRHI (Z.shiftl apicid 24) s0) as (s1 & R1 & O1 & S1); [unfold plain; set_solver|]. step R1.
  destruct (lapicw_send (Z.lor (Z.lor INIT LEVEL) ASSERT) s1) as (s2 & n2 & R2 & O2 & S2). step R2.
  destruct (lapicw_send (Z.lor INIT LEVEL) s2) as (s3 & n3 & R3 & O3 & S3). step R3. cbn [startup_loop].
  destruct (lapicw_plain ICRHI (Z.shiftl apicid 24) s3) as (s4 & R4 & O4 & S4); [unfold plain; set_solver|]. step R4.
  destruct (lapicw_send (Z.lor STARTUP (Z.shiftr addr 12)) s4) as (s5 & n5 & R5 & O5 & S5). step R5.
  destruct (lapicw_plain ICRHI (Z.shiftl apicid 24) s5) as (s6 & R6 & O6 & S6); [unfold plain; set_solver|]. step R6.
  destruct (lapicw_send (Z.lor STARTUP (Z.shiftr addr 12)) s6) as (s7 & n7 & R7 & O7 & S7). step R7.
  assert (Hs : same s0 s7) by (eauto 10 using same_trans). destruct Hs as (E1 & E2 & E3).
  exists s7. split_and!; [done|exact E1|rewrite E2; change (cmos s0) with ((cmos s ++ [(0x70, 0xf)]) ++ [(0x71, 0x0a)]); by rewrite <- app_assoc|rewrite E3; reflexivity|].
  rewrite O7, O6, O5, O4, O3, O2, O1. cbn [ipis set_reg regs]. rewrite !Z.eqb_refl. change (ob s0) with (ob s). by rewrite <- !app_assoc.
Qed.

(** The processor that receives the startup message begins at the page of its vector. *)
Definition startup_address (v : Z) : Z := 4096 * Z.land v 0xff.

Lemma startup_at addr : 0 <= addr < 2 ^ 20 -> addr mod 4096 = 0 -> startup_address (u32 (Z.lor STARTUP (Z.shiftr addr 12))) = addr.
Proof.
  intros H1 H2. assert (Hq : addr = 4096 * (addr / 4096)) by (Z.to_euclidean_division_equations; lia).
  assert (0 <= addr / 4096 < 256) by (Z.to_euclidean_division_equations; lia).
  unfold startup_address. rewrite Z.shiftr_div_pow2 by lia. change (2 ^ 12) with 4096. set (q := addr / 4096) in *.
  assert (Hl : 0 <= Z.lor STARTUP q < 2 ^ 32) by (apply lor_u32_range; unfold STARTUP; lia).
  rewrite u32_small by done. rewrite Z.land_lor_distr_l. change (Z.land STARTUP 255) with 0. rewrite Z.lor_0_l.
  change 255 with (Z.ones 8). rewrite Z.land_ones, Z.mod_small by lia. lia.
Qed.
End LapicThm.

(** A local APIC that delivers its messages at once. *)
#[export] Instance la_sim : Lapic apic := {|
  lread r a := (if r =? ICRLO then 0 else regs a r, a);
  lwrite r v a :=
    if r =? ICRLO then mkapic (regs a) 0 (ipis a ++ [(regs a ICRHI, v)])
    else if (r =? EOI) || (r =? ESR) then a else set_reg r v a |}.

#[export] Program Instance la_sim_laws : LapicLaws apic := {| obs := set_sending 0; send_limit := 0 |}.
Next Obligation. cbn. lia. Qed.
Next Obligation. done. Qed.
Next Obligation. done. Qed.
Next Obligation. done. Qed.
Next Obligation. done. Qed.
Next Obligation.
  intros d r v Hr. unfold plain in Hr. repeat (apply elem_of_cons in Hr as [->|Hr]; [reflexivity|]). by apply elem_of_nil in Hr.
Qed.
Next Obligation. intros d r v [-> | ->]; reflexivity. Qed.
Next Obligation. intros d v. exists 0%nat. reflexivity. Qed.

(** On a processor that has the TSC-deadline mode, [lapicinit] leaves the timer as it was. *)
Lemma tsc_deadline_no_timer {D : Type} `{LapicLaws D} (ecx : Z) (spin : nat) (s : lstate D) :
  (send_limit <= spin)%nat -> lapic s <> 0 -> Z.testbit ecx 24 = true ->
  exists s', lapicinit ecx spin s = Ok (tt, s') /\ timer_regs (ob s') = timer_regs (ob s).
Proof.
  intros Hlim Hl Hb. destruct (lapicinit_run ecx spin s Hlim Hl) as (s' & R & _ & _ & _ & _ & _ & _ & _ & _ & Ht).
  exists s'. split; [done|]. rewrite Ht. unfold tsc_deadline_support. change (Z.shiftl 1 24) with (bit32 24).
  by rewrite land_bit32, Hb by lia.
Qed.

End Apic.
