(* ===== verification/Start.v ===== *)
(** * Starting the other processors (startothers in kern/init/main.c)

    The boot processor puts the code for the others at 0x7000, and below it, for
    each of them in turn, a stack, the address of [mpenter] and a page table; it
    sends the startup messages (Apic.v) and waits until the processor has started.
    The page allocator is known by its interface.  The theorem: every other
    processor is started once, in order, at the code, with a stack that is a page
    of its own. *)

From Stdlib Require Import ZArith Lia.
From stdpp Require Import base numbers strings list gmap.
From S2P Require Import Prelude Mmu Mem Kalloc Apic.

Open Scope Z_scope.

Import Mmu Mem Kalloc Apic.

Module Start.

Definition KSTACKSIZE : Z := 4096.

(** [P2V(0x7000)]. *)
Definition code : Z := P2V 0x7000.

Section Code.
Context {A D : Type} `{!PageAlloc A} `{!Lapic D}.

(** The image of entryother.S and two addresses of the kernel, from the linker;
    whether the processor with a given APIC id starts. *)
Context (image : list Z) (mpenter entrypgdir : Z) (starts : Z -> bool).

(** [launched]: the processors that were started, with the memory they found. *)
Record state := mkstate { al : A; ls : lstate D; launched : list (Z * mem) }.

Definition kalloc : ST state Z :=
  zoom (fun s => (al s, kmem (ls s))) (fun x s => mkstate (fst x) (set_kmem (snd x) (ls s)) (launched s)) pa_alloc.

Definition on_ls {B} (m : ST (lstate D) B) : ST state B := zoom ls (fun l s => mkstate (al s) l (launched s)) m.

Definition store (a v : Z) : ST state unit := on_ls (modify (fun l => set_kmem (store32 a v (kmem l)) l)).

(** [while(c->started == 0);] *)
Definition wait_started (apicid : Z) : ST state unit :=
  if starts apicid then modify (fun s => mkstate (al s) (ls s) (launched s ++ [(apicid, kmem (ls s))])) else blocked.

(** One round of the loop, for a processor other than this one. *)
Definition start_one (apicid : Z) : ST state unit :=
  stack ← kalloc;
  store (code - 4) (u32 (stack + KSTACKSIZE));;
  store (code - 8) mpenter;;
  store (code - 12) (V2P entrypgdir);;
  on_ls (lapicstartap apicid (V2P code));;
  wait_started apicid.

(** The loop over [cpus], of which [i] is the number of the first. *)
Fixpoint start_loop (me : nat) (i : nat) (cpus : list Z) : ST state unit :=
  match cpus with
  | [] => mret tt
  | apicid :: cpus => (if decide (i = me) then mret tt else start_one apicid);; start_loop me (S i) cpus
  end.

Definition startothers (me : nat) (cpus : list Z) : ST state unit :=
  on_ls (modify (fun l => set_kmem (write code image (kmem l)) l));;
  start_loop me 0 cpus.
End Code.

Arguments state : clear implicits.

(** ** What the processors find *)

(** A processor started with [m] in memory: the code at its place, and the stack [k],
    the entry and the page table below it. *)
Record finds (image : list Z) (mpenter entrypgdir : Z) (m : mem) (k : Z) : Prop := mkfinds {
  f_code : bytes m code (length image) = image;
  f_stack : load32 m (code - 4) = u32 (k + KSTACKSIZE);
  f_entry : load32 m (code - 8) = mpenter;
  f_pgdir : load32 m (code - 12) = V2P entrypgdir }.

(** The processors of the list that are not this one. *)
Fixpoint others (me i : nat) (cpus : list Z) : list Z :=
  match cpus with
  | [] => []
  | c :: cpus => (if decide (i = me) then [] else [c]) ++ others me (S i) cpus
  end.

Lemma bytes_write l a m : Forall (fun b => 0 <= b < 256) l -> bytes (write a l m) a (length l) = l.
Proof.
  intros Hl. apply list_eq. intros i. destruct (l !! i) as [b|] eqn:E.
  - rewrite lookup_bytes by (by eapply lookup_lt_Some). rewrite (write_inside _ _ _ _ _ E). f_equal. apply u8_small.
    exact (Forall_lookup_1 _ _ _ _ Hl E).
  - apply lookup_ge_None. rewrite length_bytes. by apply lookup_ge_None.
Qed.

Lemma wrv_set_other addr m x : ~ (WRV <= x < WRV + 4) -> wrv_set addr m x = m x.
Proof. intros Hx. unfold wrv_set, store16. rewrite !store8_ne by lia. done. Qed.

Section Thm.
Context {A D : Type} `{!PageAlloc A} `{LapicLaws D}.
(** The allocator has no page of the first megabyte. *)
Definition high (Fr : gset Z) : Prop := forall p, p ∈ Fr -> P2V 0x100000 <= p.

Lemma low_frame (a : A) m m' Fr : pa_inv a m Fr -> high Fr -> (forall x, P2V 0x100000 <= x -> m' x = m x) -> pa_inv a m' Fr.
Proof. intros Ha Hh Hx. apply (pa_frame a m m' Fr Ha). intros p x Hp Hpx. apply Hx. specialize (Hh p Hp). lia. Qed.

Context (image : list Z) (mpenter entrypgdir : Z) (starts : Z -> bool).
Context (Hent : 0 <= mpenter < 2 ^ 32).
Context (Hsize : Z.of_nat (length image) <= 0x1000).

(** The memory after the stores of one round. *)
Definition prepared (stack : Z) (m : mem) : mem :=
  wrv_set (V2P code) (store32 (code - 12) (V2P entrypgdir) (store32 (code - 8) mpenter (store32 (code - 4) (u32 (stack + KSTACKSIZE)) m))).

Lemma prepared_high stack m x : P2V 0x100000 <= x -> prepared stack m x = m x.
Proof.
  intros Hx. change (P2V 0x100000) with 0x80100000 in Hx. unfold prepared, code. change (P2V 0x7000) with 0x80007000.
  rewrite wrv_set_other by (unfold WRV; lia). by rewrite !store32_ne by lia.
Qed.

Lemma prepared_finds stack m : bytes m code (length image) = image ->
  finds image mpenter entrypgdir (prepared stack m) stack.
Proof.
  intros Hc. assert (Hcode : code = 0x80007000) by done.
  assert (E : forall x, code - 12 <= x -> x < code + 0x1000 ->
    prepared stack m x = store32 (code - 12) (V2P entrypgdir) (store32 (code - 8) mpenter (store32 (code - 4) (u32 (stack + KSTACKSIZE)) m)) x).
  { intros x H1 H2. apply wrv_set_other. unfold WRV. lia. }
  constructor.
  - rewrite <- Hc at 2. apply bytes_ext. intros x Hx. rewrite E by lia. by rewrite !store32_ne by lia.
  - erewrite load32_ext; [|intros x Hx; apply E; lia]. rewrite !load32_store32_ne by lia.
    rewrite load32_store32_eq. apply u32_small, u32_range.
  - erewrite load32_ext; [|intros x Hx; apply E; lia]. rewrite load32_store32_ne by lia.
    rewrite load32_store32_eq. by apply u32_small.
  - erewrite load32_ext; [|intros x Hx; apply E; lia]. rewrite load32_store32_eq. apply u32_small, u32_range.
Qed.

Lemma start_one_run apicid (s : state A D) Fr : pa_inv (al s) (kmem (ls s)) Fr -> high Fr -> Fr <> ∅ -> starts apicid = true ->
  exists k s', start_one mpenter entrypgdir starts apicid s = Ok (tt, s') /\ k ∈ Fr /\
    pa_inv (al s') (kmem (ls s')) (Fr ∖ {[k]}) /\ kmem (ls s') = prepared k (kmem (ls s)) /\
    launched s' = launched s ++ [(apicid, kmem (ls s'))] /\
    ipis (ob (ls s')) = ipis (ob (ls s)) ++ startup_messages apicid 0x7000.
Proof.
  intros Ha Hh Hne Hst. destruct (pa_alloc_ok _ _ _ Ha) as (k & a' & R & _ & Hk).
  destruct Hk as [(_ & He & _)|[Hk Ha']]; [done|].
  unfold start_one. erewrite run_bind; [|unfold kalloc, zoom; rewrite R; reflexivity]. cbn [fst snd].
  do 3 (erewrite run_bind; [|reflexivity]).
  match goal with |- exists k s', _ ?x = _ /\ _ => set (s0 := x) end.
  destruct (lapicstartap_run apicid (V2P code) (ls s0)) as (l' & Rl & _ & _ & Hm & Hi).
  erewrite run_bind; [|unfold on_ls, zoom; rewrite Rl; reflexivity]. unfold wait_started. rewrite Hst.
  eexists k, _. split; [reflexivity|]. cbn [al ls launched]. rewrite Hm. split_and!; try done.
  eapply (low_frame a' _ _ (Fr ∖ {[k]})); [exact Ha'|intros p Hp; apply Hh; set_solver|]. intros x Hx. by apply prepared_high.
Qed.

Lemma start_loop_run me cpus : forall i (s : state A D) Fr, pa_inv (al s) (kmem (ls s)) Fr -> high Fr ->
  (length (others me i cpus) <= size Fr)%nat -> Forall (fun c => starts c = true) (others me i cpus) ->
  bytes (kmem (ls s)) code (length image) = image ->
  exists ks ms s', start_loop mpenter entrypgdir starts me i cpus s = Ok (tt, s') /\
    NoDup ks /\ (forall k, k ∈ ks -> k ∈ Fr) /\ pa_inv (al s') (kmem (ls s')) (Fr ∖ list_to_set ks) /\
    launched s' = launched s ++ zip (others me i cpus) ms /\ length ms = length (others me i cpus) /\
    Forall2 (finds image mpenter entrypgdir) ms ks /\
    ipis (ob (ls s')) = ipis (ob (ls s)) ++ concat (map (fun c => startup_messages c 0x7000) (others me i cpus)).
Proof.
  induction cpus as [|c cpus IH]; intros i s Fr Ha Hh Hl Hst Hc.
  - exists [], [], s. split_and!; [done|apply NoDup_nil_2|set_solver|replace (Fr ∖ list_to_set []) with Fr by set_solver; done|by rewrite app_nil_r|done|constructor|by rewrite app_nil_r].
  - cbn [start_loop others] in *. destruct (decide (i = me)) as [_|_]; cbn [app] in *.
    { destruct (IH (S i) s Fr Ha Hh Hl Hst Hc) as (ks & ms & s' & R & Hr). exists ks, ms, s'. split; [|done]. by erewrite run_bind. }
    apply Forall_cons in Hst as [Hst1 Hst]. cbn [length] in Hl.
    assert (Hne : Fr <> ∅) by (intros ->; rewrite size_empty in Hl; lia).
    destruct (start_one_run c s Fr Ha Hh Hne Hst1) as (k & s1 & R1 & Hk & Ha1 & Hm1 & Hl1 & Hi1).
    pose proof (prepared_finds k (kmem (ls s)) Hc) as Hf. rewrite <- Hm1 in Hf.
    destruct (IH (S i) s1 (Fr ∖ {[k]}) Ha1) as (ks & ms & s' & R & Hnd & Hsub & Ha' & Hl' & Hlen & Hfs & Hi').
    { intros p Hp. apply Hh. set_solver. }
    { rewrite size_difference, size_singleton by set_solver. lia. }
    { done. } { apply (f_code _ _ _ _ _ Hf). }
    exists (k :: ks), (kmem (ls s1) :: ms), s'. split_and!.
    + by step R1.
    + constructor; [|done]. intros Hin%Hsub. set_solver.
    + intros q [->|Hq]%elem_of_cons; [done|]. apply Hsub in Hq. set_solver.
    + replace (Fr ∖ list_to_set (k :: ks)) with (Fr ∖ {[k]} ∖ list_to_set ks :> gset Z) by set_solver. done.
    + rewrite Hl', Hl1, <- app_assoc. done.
    + cbn. by rewrite Hlen.
    + by constructor.
    + rewrite Hi', Hi1. cbn [map concat]. by rewrite <- app_assoc.
Qed.
End Thm.

Lemma pages_size h (n P : nat) : (n <= P)%nat -> (n <= size (pages_from h P))%nat.
Proof.
  intros Hn. assert (Hs : size (list_to_set ((fun i : nat => h + PGSIZE * Z.of_nat i) <$> seq 0 n) : gset Z) = n).
  { rewrite size_list_to_set, length_fmap, length_seq; [done|]. apply NoDup_fmap_2; [|apply NoDup_seq].
    intros i j E. unfold PGSIZE in E. lia. }
  rewrite <- Hs at 1. apply subseteq_size. intros p Hp. apply elem_of_list_to_set, list_elem_of_fmap in Hp as (i & -> & Hi%elem_of_seq).
  apply elem_of_pages_from. exists (Z.of_nat i). split; [lia|done].
Qed.

(** C16: [startothers] starts every other processor once, in the order of [cpus]:
    it sends each the messages that make it begin at the code, and the processor
    finds the whole image of the code there, below it the address of [mpenter], the
    page table, and a stack that is a page of its own, taken from the allocator. *)
Theorem startothers_correct {A D : Type} `{!PageAlloc A} `{LapicLaws D} (image : list Z) (mpenter entrypgdir : Z) (starts : Z -> bool)
    (me : nat) (cpus : list Z) (s : state A D) (Fr : gset Z) :
  0 <= mpenter < 2 ^ 32 -> Z.of_nat (length image) <= 0x1000 -> Forall (fun b => 0 <= b < 256) image -> pa_inv (al s) (kmem (ls s)) Fr -> high Fr -> launched s = [] ->
  (length (others me 0 cpus) <= size Fr)%nat -> Forall (fun c => starts c = true) (others me 0 cpus) ->
  exists stacks ms s', startothers image mpenter entrypgdir starts me cpus s = Ok (tt, s') /\
    launched s' = zip (others me 0 cpus) ms /\ length ms = length (others me 0 cpus) /\
    Forall2 (finds image mpenter entrypgdir) ms stacks /\ NoDup stacks /\ (forall k, k ∈ stacks -> k ∈ Fr) /\
    pa_inv (al s') (kmem (ls s')) (Fr ∖ list_to_set stacks) /\
    ipis (ob (ls s')) = ipis (ob (ls s)) ++ concat (map (fun c => startup_messages c 0x7000) (others me 0 cpus)) /\
    startup_address (u32 (Z.lor STARTUP (Z.shiftr 0x7000 12))) = V2P code.
Proof.
  intros Hent Hsize Hby Ha Hh Hz Hn Hst. unfold startothers. erewrite run_bind; [|reflexivity].
  match goal with |- exists k m s', _ ?x = _ /\ _ => set (s0 := x) end.
  assert (Hc : forall x, P2V 0x100000 <= x -> kmem (ls s0) x = kmem (ls s) x).
  { intros x Hx. apply write_outside. change code with 0x80007000. change (P2V 0x100000) with 0x80100000 in Hx. lia. }
  destruct (start_loop_run image mpenter entrypgdir starts Hent Hsize me cpus 0 s0 Fr) as (ks & ms & s' & R & H1 & H2 & H3 & H4 & H5 & H6 & H7).
  - eapply low_frame; [exact Ha|exact Hh|exact Hc].
  - done.
  - done.
  - done.
  - by apply bytes_write.
  - exists ks, ms, s'. split_and!; try done. rewrite H4. change (launched s0) with (launched s). by rewrite Hz.
Qed.

(** Three processors, and the pages of the booted kernel. *)
Lemma startothers_correct_witness : exists (a : alloc_state) stacks ms s',
  startothers (PageAlloc0 := kalloc_pages (P2V 0x110000)) [0xfa; 0x31; 0xc0] 0x80103000 0x80109000 (fun _ => true) 0 [0; 1; 2]
    (mkstate a (mklstate 0xfee00000 (mkapic (fun _ => 0) 0 []) [] (fun _ => 0)) []) = Ok (tt, s') /\
  launched s' = zip [1; 2] ms /\ Forall2 (finds [0xfa; 0x31; 0xc0] 0x80103000 0x80109000) ms stacks /\ NoDup stacks /\
  ipis (ob (ls s')) = startup_messages 1 0x7000 ++ startup_messages 2 0x7000.
Proof.
  destruct (booted_pages (P2V 0x110000) ltac:(done)) as [a Ha]. exists a.
  destruct (startothers_correct (PageAlloc0 := kalloc_pages (P2V 0x110000)) [0xfa; 0x31; 0xc0] 0x80103000 0x80109000 (fun _ => true) 0 [0; 1; 2]
    (mkstate a (mklstate 0xfee00000 (mkapic (fun _ => 0) 0 []) [] (fun _ => 0)) []) (pages_from 2153467904 (Z.to_nat 55883)))
    as (stacks & ms & s' & R & H1 & _ & H2 & H3 & _ & _ & H4 & _).
  - lia.
  - cbn [length]. lia.
  - repeat (apply Forall_cons_2; [lia|]). apply Forall_nil_2.
  - apply Ha.
  - intros p (i & Hi & ->)%elem_of_pages_from. change (P2V 0x100000) with 0x80100000. unfold PGSIZE. lia.
  - reflexivity.
  - apply (pages_size _ 2). lia.
  - repeat (apply Forall_cons_2; [reflexivity|]). apply Forall_nil_2.
  - exists stacks, ms, s'. split_and!; [exact R|exact H1|exact H2|exact H3|exact H4].
Defined.

End Start.
